(* ===== verification/_CoqProject ===== *)
-Q . S2P
Prelude.v
CStrings.v
Edid.v
EdidFacts.v
UsbdState.v
Usbd.v
UsbdLogic.v
UsbdFacts.v
UsbdProtocol.v
PvrHash.v
PvrHashFacts.v
PvrRA.v
PvrRALists.v
PvrRAFacts.v
PvrRAArena.v
PvrRAOps.v
PvrRAAlloc.v
PvrRASpec.v
PvrRATheorems.v
TestCmd.v
TestCmdFacts.v
TestCmdSpec.v
Md5.v
Md5Facts.v
Motobox.v
MotoboxFacts.v
BootMode.v
BootModeFacts.v
PvrHandleMap.v
PvrHandle.v
PvrHandleArray.v
PvrHandleForest.v
PvrHandlePool.v
PvrHandlePick.v
PvrHandleFree.v
PvrHandleAlloc.v
PvrHandleSpec.v
PvrHandleClient.v
PvrHandleBatch.v
PvrHandleClose.v
PvrHandleTheorems.v
Stateful.v
PvrLists.v
PvrListFacts.v
PvrResman.v
PvrResmanRep.v
PvrResmanSafe.v
PvrResmanQuiet.v
PvrResmanTheorems.v
PvrPerProc.v
PvrPerProcOwn.v
PvrPerProcOps.v
PvrPerProcTheorems.v
PvrQueue.v
PvrQueueRing.v
PvrQueueHistory.v
PvrQueueInv.v
PvrQueueGive.v
PvrQueueProcess.v
PvrQueueCreate.v
PvrQueueInsert.v
PvrQueueCalls.v
PvrQueueRegister.v
PvrQueueTheorems.v
Rgz.v
RgzLists.v
RgzRegions.v
RgzEngine.v
RgzEntries.v
RgzCells.v
RgzOutput.v
RgzInput.v
RgzFrames.v
RgzSession.v
RgzPaint.v
RgzTheorems.v
