(* ===== verification/Prelude.v ===== *)
(** * Verification of the native code of the Motorola Solana device tree

    The repository holds the native programs and libraries that CyanogenMod
    builds for the Motorola Solana (Droid 3): small daemons and libraries of the
    device itself, and third-party code it carries along (the PowerVR kernel
    services, the OpenMAX proxy, alsa-lib).  This development models the parts
    that carry logic of their own and proves what makes them correct.

    ** The parts of the program and where they are modelled

    - [libedid] (src/edid/lib/edid_parser.c, src/edid/inc/edid_parser.h,
      src/edid/lib/edid_parser_priv.h): decodes the EDID a display sends over
      HDMI, mainly which 3D formats it supports.  The hardware composer calls
      it.  [Edid.v] has one definition per function, with the names of the
      source; a read outside the raw EDID is [Fault OutOfBounds], a read of
      memory that malloc returned and nothing wrote is [Fault Indeterminate].
      [EdidFacts.v] has the theorems.
    - [usbd] (src/usbd/usb_app.c, src/usbd/usb_defines.h): the daemon that
      selects the USB functions the phone presents to the host.  It waits for
      kernel events on a netlink socket, for events of the USB driver on a
      device file and for requests of one Android application on a local socket,
      keeps the cable state and the current mode, runs the hooks of a mode when
      it leaves or enters it (mass storage exports a partition, the CD-ROM mode
      sets up a loop device), and answers the application.  [UsbdState.v] has
      the globals of the file as the record [usbd], the system calls and the
      monad; [Usbd.v] every function of the file, [main] included
      ([main_init], [main_iter], [main_loop]); [UsbdLogic.v] the rules for
      invariants; [UsbdFacts.v] the invariants of the daemon as a whole;
      [UsbdProtocol.v] the theorems on single operations.
      [CStrings.v] has the C string functions that the daemon uses.
    - the hash table of the PowerVR services
      (src/imgtec/eurasia_km/services4/srvkm/common/hash.c): [PvrHash.v], with
      the theorems in [PvrHashFacts.v].
    - the resource allocator of the PowerVR services (ra.c in the same
      directory): a boundary-tag allocator with segregated free lists, which
      finds the tag of an allocation through the hash table.  [PvrRA.v] is the
      code at the level of its pointers.  It is generic in the hash table: the
      class [SegmentMap] of [PvrHashFacts.v] states what it needs and
      [hash_segment_map] shows that the tables of hash.c provide it.
      [PvrRALists.v] has the theory of its linked lists and [PvrRAFacts.v]
      theorems on them; [PvrRAArena.v] the structure of a whole arena and how
      each list operation changes it, [PvrRAOps.v] the geometry of segments and
      freeing, [PvrRAAlloc.v] carving and the invariant with the hash,
      [PvrRASpec.v] the search and new resources, and [PvrRATheorems.v] the
      specification of an arena and the theorems on its calls.
    - the handle table of the PowerVR services (handle.c in the same directory,
      src/imgtec/eurasia_km/services4/srvkm/include/handle.h): gives the clients
      of the driver numbers for its objects, with types, parents, batches and
      limits.  [PvrHandle.v] is the code: the blocks of structures, the free list
      and the sibling rings threaded through them, and the calls.  It is generic
      in the hash table ([HandleMap] and [hash_handle_map] in [PvrHandleMap.v])
      and in the block size, a build option.  [PvrHandleArray.v] has positions
      and block counts, [PvrHandleForest.v] the rings and
      the trees they form, [PvrHandlePool.v] the free and batched structures and
      the growth of the array, [PvrHandlePick.v] the choice of a structure,
      [PvrHandleFree.v] the invariant of a base and freeing, [PvrHandleAlloc.v]
      allocation, [PvrHandleSpec.v] the abstract specification,
      [PvrHandleClient.v] and [PvrHandleBatch.v] that each call meets it,
      [PvrHandleClose.v] the creation
      and deletion of bases, [PvrHandleTheorems.v] the theorems.
    - the linked lists and the resource manager of the PowerVR services (lists.h
      and resman.h in the include directory, resman.c in the common one): a
      context per process lists the resources that must be freed when the process
      ends.  [Stateful.v] is the state monad with its rules; [PvrLists.v] has the
      list macros, generic in the memory that holds the nodes (class [Nodes]),
      and [PvrListFacts.v] their specifications from the laws of that memory
      ([NodesLaws]).  [PvrResman.v] is resman.c over the list macros, with the
      calls that run while its lock is dropped as part of the environment;
      [PvrResmanRep.v] the representation of the contexts and their items,
      [PvrResmanSafe.v] the invariant through calls and their interruptions,
      [PvrResmanQuiet.v] what a call does when nothing interrupts it,
      [PvrResmanTheorems.v] the theorems.
    - the per-process data of the PowerVR services (perproc.c in the common
      directory, osperproc.c and a function of mmap.c in env/linux): the record of
      a process that has the driver open.  [PvrPerProc.v] puts the components
      together: its state holds a hash table of process ids, the records, a handle
      base per record, the base of the kernel and the resource manager.
      [PvrPerProcOwn.v] states which record owns which object, [PvrPerProcOps.v]
      what the steps of connecting and freeing do to that, from the theorems of
      the components, [PvrPerProcTheorems.v] the invariant of whole runs.
    - the command queues of the PowerVR services (queue.c in the common
      directory): processes put commands with their synchronisation objects into
      ring buffers, the driver hands them to devices when the operations they
      depend on are complete, and devices complete them.  [PvrQueue.v] is the
      code, with the locks of osfunc.c, what interrupts do while a call sleeps, and a
      [history] of the commands that only the proofs read.  [PvrQueueRing.v] has
      the arithmetic and the layout of a ring; [PvrQueueHistory.v] what it means
      that a history is [ordered] and [fifo]; [PvrQueueInv.v] the counters of
      the objects, the completion of commands and the invariant of the queues;
      [PvrQueueGive.v] and [PvrQueueProcess.v] the processing, from the tests of a
      command's objects to the loop over all queues and the waiting for it;
      [PvrQueueCreate.v] and [PvrQueueInsert.v] the other calls; [PvrQueueCalls.v]
      runs of legal calls, how everything is worked off and what a queue shows;
      [PvrQueueRegister.v] the tables of the devices; [PvrQueueTheorems.v] the
      theorems.
    - the regionizer of the hardware composer (src/hwc/rgz_2d.c, src/hwc/rgz_2d.h):
      cuts the screen of a frame into cells that show the same windows, finds out
      what changed since the frame buffer was last drawn, and makes the blits for
      the 2D engine.  [Rgz.v] is the code.  [RgzLists.v] has the sorting of the
      coordinates, [RgzRegions.v] the regions and cells, [RgzEngine.v] what a blit
      means: the class [Engine] with its laws [EngineLaws], for any engine that
      copies, clears and blends; [RgzEntries.v] the entries of single blits,
      [RgzCells.v] the list of blits and the blits of a cell, [RgzOutput.v] those of
      a frame, [RgzInput.v] the check of the layers, the damaged area and the whole
      input, [RgzFrames.v] what stays right in a buffer between frames, under the record
      [contract] of what the client promises, [RgzSession.v] sequences of frames
      in two buffers, [RgzPaint.v] painting without regions, [RgzTheorems.v] the
      theorems, with an engine that has the laws, and the examples of the
      findings.
    - the command line tools (src/motobox): [TestCmd.v] is test.c, with the
      globals [t_wp], [nargc] and [t_wp_op] as the state of a parser monad and
      the file system as its environment; [TestCmdFacts.v] has the moves of the
      parser as equations, [TestCmdSpec.v] the meaning of expressions and the
      theorems.  [Md5.v] is md5sum.c, [Md5Facts.v] the reference definition of
      the digest and the theorems.  [Motobox.v] has the multi-call binary
      (motobox.c), ptf.c, getconfig.c and the arguments of swapon.c, with the
      theorems in [MotoboxFacts.v].
    - the boot mode reader (src/mot_boot_mode/mot_boot_mode.c): [BootMode.v],
      with the theorems in [BootModeFacts.v].
    - this file: machine integers, the type [outcome] of results and faults with
      its notations, arrays, tactics, and the lemmas that the components share.

    ** What the theorems show

    EDID parser.  [s3d_formats_listed]: after the vendor block's 3D part is
    parsed, a format is reported for a video code exactly when the block lists
    it.  [update_s3d_format_sets] gives what the merge of a format's codes
    writes; [count_set_bits_popcount] that the bit trick is a population count.
    [edid_get_datablock_offset_finds], [_terminates] and [_diverges]: the search
    for a data block finds the first block of the tag in a well-formed
    collection, ends on any bytes when the collection stops a longest block
    before the end of the extension, and, when the collection is said to end past
    0x80, loops for ever exactly if no byte taken for a header has the type.
    [edid_parse_svds_shifted], [edid_get_svd_descriptor_cases], [edid_fill_svd_info_bounds] and
    [edid_3d_length_wraps] describe the descriptors and the arithmetic at the
    edges.

    USB daemon.  The environment is any behaviour of the kernel, the driver, the
    property service and the application; the theorems that need more of it say
    so.  [usbd_loop_books]: in every state that [main] reaches, the descriptor
    sets, [max_fd] and the connection are in step and the cable state matches the
    cable, provided that [accept] gives no descriptor that is open
    ([accept_fresh]); every turn of the loop returns when the messages fit the
    buffers of the daemon ([well_formed_messages]).
    [usbd_exports_match_mode]: the mass storage, CD-ROM and eject parameters last
    written to the driver are those of the current mode.
    [usbd_socket_event_request] and [usbd_socket_event_ignored]: what a request
    does and when it is dropped.  [usb_device_event_decodes]: an event printed
    in the driver's format is read back.  [process_usb_uevent_message_auth]:
    only kernel messages change the state.  The others treat the mode tables,
    the hang-up of the application and the descriptors of the loop devices.

    Hash table.  [hash_refines_map]: any sequence of operations on a table made
    by [HASH_Create], with any outcomes of the allocations, behaves as a finite
    map.  [hash_load_factor] bounds the load, [HASH_Iterate_visits] states the
    order and completeness of the iteration, [_Resize_keeps_entries] that a
    resize keeps the buckets.

    Resource allocator.  [RA_refines_spec]: an arena made by [RA_Create], under
    any sequence of [RA_Alloc] and [RA_Free], follows no stale pointer and hands
    out ranges that are aligned, inside what it was given, and apart from one
    another, for every outcome of the memory allocations and every import function
    that provides what the arena does not hold at the time of the call
    ([call_imports_fresh]), below [top].  [RA_Alloc_complete]: an allocation fails only when no free segment
    has room for it.  [RA_Free_gives_back]: what a free does to the allocations,
    to the backing store and to the imports.  [RA_Add_extends] and
    [RA_Delete_frees]: new resources and the end of an arena.
    [_SegmentListInsert_sorted], [_SegmentListRemove_unlinks],
    [_FreeListInsert_front] and [_FreeListRemove_unlinks]: the pointer operations
    implement the operations on lists and change nothing else.  [pvr_log2_spec]:
    the bucket of a size.  [aligned_base_wraps], [RA_TestDelete_diverges],
    [RA_Create_free_count_underflows] and [RA_Free_between_imports] are
    behaviours of the code that its authors did not intend; the hypotheses of
    the theorems above (requests away from the end of the address space) exclude
    the first.

    Handle table.  [handle_ops_refine]: from a new base, every admissible sequence
    of calls returns, stays inside the array and answers as the abstract
    specification, for every outcome of the allocations; [handle_base_invariant]:
    the free list, the counts, the rings and the hash table of every base that
    calls lead to.  ([admissible] is asked of each call in the state it is made
    in, and of nothing after a call that does not return.)  [handle_alloc_lookup], [handle_type_checked],
    [handle_lookup_sub_decides] and [handle_release_subtree]: what this means for
    lookups, types, ancestors and releases; [handle_base_freed]: a base can always
    be deleted, with nothing left in its table.  [handle_commit_failed_ok],
    [new_batch_drops_free_list], [purging_batch_loses_handle],
    [purging_fills_last_block] and [set_max_below_block_ignored] are behaviours
    that were not intended; [admissible] leaves out the two that break the free
    list.

    Resource manager.  [resman_safe]: whatever legal calls other threads and the
    free functions make whenever the lock is not held, no stale pointer is
    followed, no lock is misused, and afterwards the lists are well-formed and no
    item is on the lists of two contexts.  [resman_call_returns]: calls end when free functions do not ask
    for a retry for ever.  [resman_disconnect_frees] and
    [resman_free_by_criteria]: which resources are freed, in which order, when no
    other call runs meanwhile, and what a failure leaves.  [resman_dissociate_unlocks],
    [resman_failed_disconnect_orphans] and [resman_retry_race] are behaviours
    that were not intended; [legal] leaves them out.

    Per-process data.  [perproc_refines]: any sequence of connections and
    disconnections of processes, of their calls on their handles and of calls of
    the resource manager keeps one record per connected process with its count,
    and every object with one owner.  [perproc_no_leak] and
    [perproc_failed_connect_clean]: nothing is left behind by processes that went
    or could not connect.

    Command queues.  [queue_calls_ordered]: whatever legal calls are made, with
    interrupts and devices doing what they like, no call faults, a command goes
    to its device only after every earlier command it conflicts with is complete,
    and each queue is first in, first out.  [queue_counters]: the counters and the
    references of the synchronisation objects are the numbers of commands that the
    history gives, and no object is freed under a command.  [queues_drain]: with one command of a type in flight at a
    time, everything is worked off.  [queue_shown]: the ring of a queue holds the
    commands submitted to it that no device has yet.  [queue_destroyed]:
    destroying a queue takes it and no other out of the linked list, when all its
    commands have gone to devices.  [NearestPower2_least] and [register_remove]:
    the size of a ring, the tables of a device.  [register_out_of_memory]: which
    allocations decide how a registration ends.  [overtaken_reader_starves]: a
    command whose object was read by a later one first waits for ever, however
    often the queues are processed without a flush.  These two and
    [insert_bad_device] have behaviours that were not intended.

    Regionizer.  All theorems on frames are about sessions of frames of the kind
    [frame_given], which [layer_fits] and the comment before the theorems in
    [RgzTheorems.v] describe.  [frames_shown]: after the blits of a frame its buffer shows the
    windows of the frame, one over the other, at every point, over any sequence of
    frames in two buffers of which only the changed parts are drawn again, when
    the windows keep [contract].  [paint_equals_regions]: painting the windows
    whole leaves the same screen, under the same conditions and when opaque
    pixels hide what is below ([OpaqueLaw]).
    [frame_tiled]: the cells tile the screen and list the windows at their points.
    [frame_never_faults]: which frames are taken, and that none of them harms.
    [window_blits]: where a blit reads and draws, under every transform of a
    [drawable] window.
    [coordinates_cut]: the coordinates come sorted, each once.
    [order_change_missed]: windows that only change their order are not drawn, and
    the buffer goes on showing the old order.  This and the module [Examples] of
    [RgzTheorems.v] are behaviours that were not intended; [contract] and
    [layer_fits] leave them out of the other theorems.

    Command line tools.  [test_main_evaluates]: on the arguments of an expression
    [test] returns the meaning of the expression.  [test_main_total]: it ends on
    every argument list, inside the argument vector.  [test_main_unbalanced] and
    [getq_numeral]: parentheses and numbers.  [md5_streaming]: the streaming
    digest is the one of RFC 1321 of the whole message, however it is cut;
    [md5sum_main_prints]: what the command prints.  [main_decides],
    [valid_id_accepts], [list_configids_bounds] and [swapon_priority_refused]:
    the dispatch, config ids, the buffer of getconfig and the inverted checks of
    swapon.

    Boot mode.  [boot_main_decides]: the decision of the reader as a function of
    the power-up reason, the boot mode and the file of the charge-only mode.

    ** Bounds and fuel

    Integers are [Z] with the wrap-around of the C type written out.  A loop
    that the source does not bound takes fuel, and running out of it is
    [Fault OutOfFuel], never a result.  [edid_get_datablock_offset] takes the
    fuel as an argument: 96 steps are enough in the theorem of termination (an
    extension of at most 96 bytes, a byte per step at least), the length of the
    collection in the theorem on well-formed ones, and the divergence theorem is
    for every fuel.  The loops over the 3D part take one step per entry.  The
    loop of [pvr_log2] has 32 steps, one per bit.  The loops of the allocator over lists have as many
    steps as the heap has tags, which is enough because the nodes of a list are
    distinct tags of the heap; the theorems on lists prove that the fuel is not
    exhausted.  An arena is taken to lie below an address [top] with a quantum to
    spare before 2^32, and a request to need less than what is left above [top]
    with twice its alignment, so that no sum of the code wraps.  The other loops follow the lists or the counters of the code.
    The parser of [test] takes four units of fuel per argument and four more, a
    call of each level of the grammar; [test_main_total] shows that they are
    enough.  The dispatch of motobox takes one per argument, the loop of md5sum
    over a file one per byte.
    The theorems on the hash table take a count below 2^30 entries, past which
    the doubling of the size could wrap in 32 bits; the entries would not fit in
    the address space of the kernel.  The walks of handle.c take [handle_fuel],
    one more than the number of structures, which is enough because the free
    list, the rings, the list of a batch, the chain of parents and a subtree all
    consist of distinct structures; [admissible] keeps the number of structures
    below [COUNT_LIMIT] for the hash table's sake.  The list macros take as much
    fuel as there are nodes in memory, which is enough for a well-formed list.
    The loops of the resource manager take the fuel of the call: the number [K]
    of retries that a free function may ask for in a row and one per item.  The
    fuel of [run_calls] bounds the depth of calls within free functions too.
    The loop over the commands of a queue takes a step per byte of its ring, and
    a command has at least 48; the loops over the list of queues one per queue;
    the loop of [NearestPower2] 32, one per bit.  The wait for the lock of the
    queues takes [lock_patience] steps, and the theorems suppose that another
    processor gives the lock back before ([patient]).  Fewer than 2^32 commands
    are ever inserted, so that no counter of an object wraps.
    The loops of [rgz_bunique] take a step more than the array is long, those over
    the layers of a cell as many as the region has layers, or one more.  Screens,
    buffers and windows have coordinates up to 2^20 in size ([BOUND]), so that no
    sum of the regionizer leaves its type.

    ** What is not modelled

    Log output throughout; in ra.c the proc entries, dumps and code for build
    options that are off; in handle.c the DEBUG and secure-handle builds and the
    contents of memory once it is freed; in resman.c the bridge lock, the test for
    an interrupt and the list check of debug builds; in perproc.c time tracing, and
    of the private data its mmap offsets and proc entries; in queue.c the debug dump,
    the time trace, the data of a command behind its synchronisation objects, and
    the function of the build option for custom swaps; in rgz_2d.c the dump of the
    regions as SVG, the printing of layers and the structsize fields; in motobox the commands cp, setconfig, masterclear,
    mkswap and swapoff.

    Of the other parts of the repository: the application log daemon and the
    charge-only mode have logic of their own in their buffers and their event
    loop, between system calls, drawing and the interface of the modem; they could
    be modelled like [usbd].  The rest of the hardware composer assigns layers to
    display pipes by the answers of drivers that are not in the repository, and
    the rest of the PowerVR services drives the graphics processor, its page
    tables and the Linux kernel.  The JNI and C++ glue, the OpenMAX proxy and
    alsa-lib are third-party or mostly calls of libraries that are not in the
    repository. *)

From stdpp Require Import base list numbers option strings gmap.
From Stdlib Require Import ZArith Lia.

Local Open Scope Z_scope.

(** ** Machine integers

    A C integer of width [w] is a [Z]; every operation of the code that can
    leave its range is followed by the wrap-around of its type. *)

Definition wrapU (w z : Z) : Z := z mod 2 ^ w.

Declare Scope cint_scope.
Delimit Scope cint_scope with cint.
Abbreviation u8 := (wrapU 8).
Abbreviation u16 := (wrapU 16).
Abbreviation u32 := (wrapU 32).

(** The signed 32-bit reading of an integer (two's complement). *)
Definition s32 (z : Z) : Z :=
  let m := z mod 2 ^ 32 in if decide (m < 2 ^ 31) then m else m - 2 ^ 32.

(** A C condition on an integer: true when not zero. *)
Definition truth (z : Z) : bool := negb (z =? 0).
Infix "&" := Z.land (at level 40, left associativity) : cint_scope.
Infix "|'" := Z.lor (at level 50, left associativity) : cint_scope.
Infix "<<" := Z.shiftl (at level 35, no associativity) : cint_scope.
Infix ">>" := Z.shiftr (at level 35, no associativity) : cint_scope.

(** ** Outcomes

    What a piece of C code can do beside returning: read or write outside an
    object, use a value that was never written, run on for ever (out of the
    fuel given to the model's loop), divide by zero, or wait for a lock that it
    holds itself or release one that nobody holds. *)

Inductive fault :=
| OutOfBounds
| Indeterminate
| OutOfFuel
| DivByZero
| LockError.

#[export] Instance fault_eq_dec : EqDecision fault.
Proof. solve_decision. Defined.

Inductive outcome (A : Type) :=
| Ok (a : A)
| Fault (f : fault).
Arguments Ok {A} a.
Arguments Fault {A} f.

#[export] Instance outcome_ret : MRet outcome := fun A a => Ok a.
#[export] Instance outcome_bind : MBind outcome := fun A B f m =>
  match m with Ok a => f a | Fault e => Fault e end.

Definition is_ok {A} (m : outcome A) : bool :=
  match m with Ok _ => true | Fault _ => false end.

(** Reading [buf[i]] and writing [buf[i] = v] of an array. *)
Definition rd {A} (buf : list A) (i : Z) : outcome A :=
  if i <? 0 then Fault OutOfBounds
  else match buf !! Z.to_nat i with Some v => Ok v | None => Fault OutOfBounds end.

Definition wr {A} (buf : list A) (i : Z) (v : A) : outcome (list A) :=
  if (i <? 0) || (Z.of_nat (length buf) <=? i) then Fault OutOfBounds
  else Ok (<[Z.to_nat i := v]> buf).

(** Using a value that may never have been written. *)
Definition use {A} (o : option A) : outcome A :=
  match o with Some v => Ok v | None => Fault Indeterminate end.

(** ** Automation *)

Create HintDb cmodel.
Create Rewrite HintDb cmodel_rw.

Ltac outcome_step :=
  match goal with
  | H : (_ ≫= _) = Ok _ |- _ => unfold mbind, outcome_bind in H
  | H : Ok _ = Ok _ |- _ => injection H as H
  | H : Fault _ = Ok _ |- _ => discriminate H
  | H : Ok _ = Fault _ |- _ => discriminate H
  | H : context [match ?m with Ok _ => _ | Fault _ => _ end] |- _ =>
      let E := fresh "E" in destruct m eqn:E; simpl in H
  end.

(** Open up a monadic computation that is known to have succeeded. *)
Ltac outcome_inv := repeat outcome_step; subst.

Ltac bool_prop :=
  repeat match goal with
  | H : (_ <? _) = true |- _ => apply Z.ltb_lt in H
  | H : (_ <? _) = false |- _ => apply Z.ltb_ge in H
  | H : (_ <=? _) = true |- _ => apply Z.leb_le in H
  | H : (_ <=? _) = false |- _ => apply Z.leb_gt in H
  | H : (_ =? _) = true |- _ => apply Z.eqb_eq in H
  | H : (_ =? _) = false |- _ => apply Z.eqb_neq in H
  | H : (_ && _)%bool = true |- _ => apply andb_true_iff in H; destruct H
  | H : (_ || _)%bool = false |- _ => apply orb_false_iff in H; destruct H
  | H : negb _ = true |- _ => apply negb_true_iff in H
  | H : negb _ = false |- _ => apply negb_false_iff in H
  end.

(** ** Lemmas on the integer operations *)

Lemma wrapU_range (w z : Z) : 0 <= w -> 0 <= wrapU w z < 2 ^ w.
Proof. intros. apply Z.mod_pos_bound, Z.pow_pos_nonneg; lia. Qed.

Lemma wrapU_small (w z : Z) : 0 <= z < 2 ^ w -> wrapU w z = z.
Proof. apply Z.mod_small. Qed.

Lemma truth_spec (z : Z) : truth z = true <-> z <> 0.
Proof. unfold truth. rewrite negb_true_iff, Z.eqb_neq. done. Qed.

Lemma land_ones_range (a n : Z) : 0 <= n -> 0 <= Z.land a (Z.ones n) < 2 ^ n.
Proof. intros. rewrite Z.land_ones by lia. apply Z.mod_pos_bound. lia. Qed.

Lemma land_bit_eq (a i : Z) :
  0 <= i -> Z.land a (Z.shiftl 1 i) = if Z.testbit a i then Z.shiftl 1 i else 0.
Proof.
  intros Hi. apply Z.bits_inj'. intros j Hj. rewrite Z.land_spec, Z.shiftl_1_l.
  rewrite Z.pow2_bits_eqb by lia.
  destruct (Z.eqb_spec i j) as [<-|Hne].
  - destruct (Z.testbit a i); [by rewrite Z.pow2_bits_eqb, Z.eqb_refl by lia|by rewrite Z.testbit_0_l].
  - rewrite andb_false_r. destruct (Z.testbit a i); [|by rewrite Z.testbit_0_l].
    rewrite Z.pow2_bits_eqb by lia. symmetry. by apply Z.eqb_neq.
Qed.

Lemma land_bit (a i : Z) : 0 <= i -> truth (Z.land a (Z.shiftl 1 i)) = Z.testbit a i.
Proof.
  intros Hi. rewrite land_bit_eq by done. destruct (Z.testbit a i); [|done].
  apply truth_spec. rewrite Z.shiftl_1_l. pose proof (Z.pow_pos_nonneg 2 i). lia.
Qed.

Lemma bits_above_lt (v n : Z) :
  0 <= v -> 0 <= n -> (forall i, n <= i -> Z.testbit v i = false) -> v < 2 ^ n.
Proof.
  intros Hv Hn H. destruct (Z.eq_dec v 0) as [->|]; [apply Z.pow_pos_nonneg; lia|].
  apply Z.log2_lt_pow2; [lia|]. destruct (Z.lt_ge_cases (Z.log2 v) n) as [|Hge]; [done|].
  specialize (H _ Hge). rewrite Z.bit_log2 in H by lia. done.
Qed.

(** ** Lemmas on array access *)

Lemma rd_ok {A} (buf : list A) (i : Z) :
  0 <= i < Z.of_nat (length buf) -> exists v, rd buf i = Ok v.
Proof.
  intros Hi. unfold rd. destruct (Z.ltb_spec i 0); [lia|].
  destruct (lookup_lt_is_Some_2 buf (Z.to_nat i)) as [v Hv]; [lia|].
  exists v. by rewrite Hv.
Qed.

Lemma rd_lookup {A} (buf : list A) (i : Z) (v : A) :
  0 <= i -> buf !! Z.to_nat i = Some v -> rd buf i = Ok v.
Proof. intros Hi Hv. unfold rd. destruct (Z.ltb_spec i 0); [lia|]. by rewrite Hv. Qed.

Lemma rd_inv {A} (buf : list A) (i : Z) (v : A) :
  rd buf i = Ok v -> 0 <= i < Z.of_nat (length buf) /\ buf !! Z.to_nat i = Some v.
Proof.
  unfold rd. destruct (Z.ltb_spec i 0); [done|].
  destruct (buf !! Z.to_nat i) eqn:E; [|done]. intros [= ->].
  apply lookup_lt_Some in E as Hlt. split; [lia|done].
Qed.

Lemma rd_fault {A} (buf : list A) (i : Z) (f : fault) :
  rd buf i = Fault f -> f = OutOfBounds.
Proof. unfold rd. repeat case_match; congruence. Qed.

Lemma wr_ok {A} (buf : list A) (i : Z) (v : A) :
  0 <= i < Z.of_nat (length buf) -> wr buf i v = Ok (<[Z.to_nat i := v]> buf).
Proof.
  intros Hi. unfold wr.
  destruct (Z.ltb_spec i 0); [lia|]. destruct (Z.leb_spec (Z.of_nat (length buf)) i); [lia|].
  done.
Qed.

Lemma wr_length {A} (buf buf' : list A) (i : Z) (v : A) :
  wr buf i v = Ok buf' -> length buf' = length buf.
Proof. unfold wr. case_match; [done|]. intros [= <-]. apply length_insert. Qed.

#[export] Hint Resolve wrapU_range : cmodel.
#[export] Hint Rewrite @length_insert @length_app @length_replicate : cmodel_rw.

(** ** A pigeonhole bound: distinct integers below [n] are at most [n]. *)

Lemma NoDup_bounded (l : list Z) (n : Z) :
  NoDup l -> Forall (fun z => 0 <= z < n) l -> Z.of_nat (length l) <= Z.max 0 n.
Proof.
  intros Hnd Hb.
  assert (l ⊆+ (Z.of_nat <$> seq 0 (Z.to_nat n))) as Hs.
  { apply NoDup_submseteq; [done|]. intros x Hx.
    rewrite Forall_forall in Hb. specialize (Hb x Hx).
    apply list_elem_of_fmap. exists (Z.to_nat x). split; [lia|].
    apply elem_of_seq. lia. }
  apply submseteq_length in Hs. rewrite length_fmap, length_seq in Hs. lia.
Qed.

Lemma NoDup_snoc {A} (l : list A) (x : A) : NoDup l -> x ∉ l -> NoDup (l ++ [x]).
Proof.
  intros Hl Hx. apply NoDup_app. split_and!; [done| |apply NoDup_singleton].
  intros y Hy Hy'. apply list_elem_of_singleton in Hy' as ->. done.
Qed.
