(* ===== verification/CStrings.v ===== *)
(** * C strings

    The functions of the C library on NUL-terminated strings that the daemons
    use, on [string].  A [string] stands for the bytes of a buffer; [cstr] is
    the C string that starts at its first byte. *)

From stdpp Require Import base list numbers option strings.
From Stdlib Require Import Ascii String ZArith Lia.
From S2P Require Import Prelude.

Local Open Scope string_scope.

#[local] Arguments String.append !_ _ : simpl nomatch.

Definition NUL : ascii := "000"%char.

(** The bytes before the first NUL. *)
Fixpoint cstr (s : string) : string :=
  match s with
  | EmptyString => EmptyString
  | String c s => if Ascii.eqb c NUL then EmptyString else String c (cstr s)
  end.

(** [write(fd, s, strlen(s) + 1)]: the bytes with the terminating NUL. *)
Definition with_nul (s : string) : string := s ++ String NUL EmptyString.

(** [strcmp(a, b) == 0] *)
Definition streq (a b : string) : bool := String.eqb (cstr a) (cstr b).

Fixpoint str_drop (n : nat) (s : string) : string :=
  match n, s with
  | O, _ => s
  | S n, EmptyString => EmptyString
  | S n, String _ s => str_drop n s
  end.

Fixpoint str_take (n : nat) (s : string) : string :=
  match n, s with
  | O, _ => EmptyString
  | S n, EmptyString => EmptyString
  | S n, String c s => String c (str_take n s)
  end.

(** The longest prefix without [c]: what the conversion [%[^c]] matches. *)
Fixpoint take_until (c : ascii) (s : string) : string :=
  match s with
  | EmptyString => EmptyString
  | String d s => if Ascii.eqb d c then EmptyString else String d (take_until c s)
  end.

Definition to_lower (c : ascii) : ascii :=
  let n := nat_of_ascii c in
  if ((65 <=? n) && (n <=? 90))%nat then ascii_of_nat (n + 32) else c.

Fixpoint lower (s : string) : string :=
  match s with
  | EmptyString => EmptyString
  | String c s => String (to_lower c) (lower s)
  end.

Fixpoint contains (needle hay : string) : bool :=
  String.prefix needle hay ||
  match hay with EmptyString => false | String _ t => contains needle t end.

(** [strcasestr(hay, needle) != NULL] *)
Definition strcasestr (hay needle : string) : bool := contains (lower needle) (lower (cstr hay)).

(** The index of the first [c] of the buffer. *)
Fixpoint str_index (c : ascii) (s : string) : option nat :=
  match s with
  | EmptyString => None
  | String d s => if Ascii.eqb d c then Some 0%nat else S <$> str_index c s
  end.

(** The C strings that lie one after the other in a buffer of [n] bytes. *)
Fixpoint nul_split (n : nat) (s : string) : list string :=
  match n, s with
  | O, _ => []
  | _, EmptyString => []
  | S n, s => cstr s :: nul_split n (str_drop (S (String.length (cstr s))) s)
  end.

(** ** Lemmas *)

Fixpoint no_char (c : ascii) (s : string) : Prop :=
  match s with
  | EmptyString => True
  | String d s => d <> c /\ no_char c s
  end.

Lemma str_app_assoc (a b c : string) : (a ++ b) ++ c = a ++ (b ++ c).
Proof. induction a as [|x a IH]; simpl; [done|]. by rewrite IH. Qed.

Lemma str_app_nil_r (a : string) : a ++ "" = a.
Proof. induction a as [|x a IH]; simpl; [done|]. by rewrite IH. Qed.

Lemma str_length_app (a b : string) :
  String.length (a ++ b) = (String.length a + String.length b)%nat.
Proof. induction a as [|x a IH]; simpl; [done|]. by rewrite IH. Qed.

Lemma str_drop_app (a b : string) (n : nat) :
  str_drop (String.length a + n) (a ++ b) = str_drop n b.
Proof. induction a as [|x a IH]; simpl; [done|]. done. Qed.

Lemma take_until_app (c : ascii) (a b : string) :
  no_char c a -> take_until c (a ++ String c b) = a.
Proof.
  induction a as [|x a IH]; simpl; [by rewrite Ascii.eqb_refl|].
  intros [Hx Ha]. destruct (Ascii.eqb_spec x c); [done|]. by rewrite IH.
Qed.

Lemma take_until_all (c : ascii) (a : string) : no_char c a -> take_until c a = a.
Proof.
  induction a as [|x a IH]; simpl; [done|].
  intros [Hx Ha]. destruct (Ascii.eqb_spec x c); [done|]. by rewrite IH.
Qed.

Lemma cstr_app_nul (a b : string) : no_char NUL a -> cstr (a ++ String NUL b) = a.
Proof.
  induction a as [|x a IH]; simpl; [done|].
  intros [Hx Ha]. destruct (Ascii.eqb_spec x NUL); [done|]. by rewrite IH.
Qed.

Lemma cstr_no_nul (a : string) : no_char NUL a -> cstr a = a.
Proof.
  induction a as [|x a IH]; simpl; [done|].
  intros [Hx Ha]. destruct (Ascii.eqb_spec x NUL); [done|]. by rewrite IH.
Qed.

Lemma no_char_app (c : ascii) (a b : string) : no_char c a -> no_char c b -> no_char c (a ++ b).
Proof. induction a as [|x a IH]; simpl; [done|]. naive_solver. Qed.

Lemma cstr_length (s : string) : (String.length (cstr s) <= String.length s)%nat.
Proof. induction s as [|c s IH]; simpl; [done|]. case_match; simpl; lia. Qed.

Lemma take_until_length (c : ascii) (s : string) :
  (String.length (take_until c s) <= String.length s)%nat.
Proof. induction s as [|d s IH]; simpl; [done|]. case_match; simpl; lia. Qed.

Lemma str_take_all (a : string) (n : nat) : (String.length a <= n)%nat -> str_take n a = a.
Proof.
  revert n. induction a as [|x a IH]; intros [|n] H; simpl in *; [done|done|lia|].
  by rewrite IH by lia.
Qed.
