(* ===== verification/Edid.v ===== *)
(** * The HDMI EDID parser: src/edid/lib/edid_parser.c

    The raw EDID is the array of bytes the caller passes; every read of it is a
    bounds-checked [rd], so that a read past its end shows as
    [Fault OutOfBounds].  Memory obtained from malloc holds [None] (never
    written) until the code writes it.  The calls to malloc are taken to
    succeed except in [edid_parser_init], which tests its result: the code does
    not test the two others.  A C array [vic_info[16]] is a list of sixteen
    optional entries.  Enumerators are integers, because the code casts 4-bit
    fields of the EDID to them. *)

From stdpp Require Import base list numbers option strings.
From Stdlib Require Import ZArith Lia.
From S2P Require Import Prelude.

Local Open Scope Z_scope.
Local Open Scope cint_scope.

(** ** Data: edid_parser.h, edid_parser_priv.h *)

Definition EDID_SIZE : Z := 256.
Definition MAX_VIC_CODES_PER_3D_FORMAT : nat := 16.

Definition DATABLOCK_AUDIO : Z := 1.
Definition DATABLOCK_VIDEO : Z := 2.
Definition DATABLOCK_VENDOR : Z := 3.
Definition DATABLOCK_SPEAKERS : Z := 4.

Definition HDMI_TOPBOTTOM : Z := 6.
Definition HDMI_SIDE_BY_SIDE_HALF : Z := 8.
Definition HDMI_SIDE_BY_SIDE_HALF_BIT : Z := 1 << HDMI_SIDE_BY_SIDE_HALF.
Definition HDMI_SIDE_BY_SIDE_HALF_QUINCUNX_BIT : Z := 1 << 15.

Definition HDMI_SS_HORZANDQUINCUNX : Z := 0.
Definition HDMI_SS_HORIZONTAL : Z := 1.
Definition HDMI_SS_QUINCUNX_ALL : Z := 6.
Definition HDMI_SS_VERTICAL : Z := 0xF0000.
Definition HDMI_SS_NONE : Z := 0xF0001.

Inductive hdmi_scan_type := HDMI_SCAN_PROGRESSIVE | HDMI_SCAN_INTERLACED.

Record svd_info_t := mk_svd {
  xres : Z;
  yres : Z;
  hz : Z;
  scan_type : hdmi_scan_type;
  name : string }.

Record svd_t := mk_svd_t {
  code : Z;
  native : bool;
  info : svd_info_t }.

Record hdmi_s3d_format_vic_info_t := mk_vic {
  vic_pos : Z;
  subsampling : Z }.

Record hdmi_s3d_format_info_t := mk_s3d {
  format : option Z;
  num_valid_vic : option Z;
  vic_info : list (option hdmi_s3d_format_vic_info_t) }.

Record edid_t := mk_edid {
  s3d_capable : bool;
  num_s3d_formats : Z;
  s3d_format_list : list hdmi_s3d_format_info_t;
  num_svds : Z;
  svd_list : list svd_t }.

(** One element of an array of [hdmi_s3d_format_info_t] as malloc returns it. *)
Definition malloced_s3d_format_info : hdmi_s3d_format_info_t :=
  mk_s3d None None (replicate MAX_VIC_CODES_PER_3D_FORMAT None).

(** The [edid_t] after [memset(edid, 0, sizeof(struct edid_t))]. *)
Definition zeroed_edid : edid_t := mk_edid false 0 [] 0 [].

Definition set_format (f : Z) (e : hdmi_s3d_format_info_t) : hdmi_s3d_format_info_t :=
  mk_s3d (Some f) (num_valid_vic e) (vic_info e).

Definition set_vics (n : Z) (v : list (option hdmi_s3d_format_vic_info_t))
    (e : hdmi_s3d_format_info_t) : hdmi_s3d_format_info_t :=
  mk_s3d (format e) (Some n) v.

Definition set_s3d_formats (l : list hdmi_s3d_format_info_t) (e : edid_t) : edid_t :=
  mk_edid (s3d_capable e) (num_s3d_formats e) l (num_svds e) (svd_list e).

Definition svd_table : list svd_info_t :=
  [
   mk_svd 0 0 0 HDMI_SCAN_PROGRESSIVE "reserved";
   mk_svd 640 480 60 HDMI_SCAN_PROGRESSIVE "DMT0659";
   mk_svd 720 480 60 HDMI_SCAN_PROGRESSIVE "480p";
   mk_svd 720 480 60 HDMI_SCAN_PROGRESSIVE "480pH";
   mk_svd 1280 720 60 HDMI_SCAN_PROGRESSIVE "720p";
   mk_svd 1920 1080 60 HDMI_SCAN_INTERLACED "1080i";
   mk_svd 720 480 60 HDMI_SCAN_INTERLACED "480i";
   mk_svd 720 480 60 HDMI_SCAN_INTERLACED "480iH";
   mk_svd 720 240 60 HDMI_SCAN_PROGRESSIVE "240p";
   mk_svd 1280 720 60 HDMI_SCAN_PROGRESSIVE "240pH";
   mk_svd 720 480 60 HDMI_SCAN_INTERLACED "480i4x";
   mk_svd 720 480 60 HDMI_SCAN_INTERLACED "480i4xH";
   mk_svd 720 240 60 HDMI_SCAN_PROGRESSIVE "240p4x";
   mk_svd 720 240 60 HDMI_SCAN_PROGRESSIVE "240p4xH";
   mk_svd 720 480 60 HDMI_SCAN_PROGRESSIVE "480p2x";
   mk_svd 720 480 60 HDMI_SCAN_PROGRESSIVE "480p2xH";
   mk_svd 1920 1080 60 HDMI_SCAN_PROGRESSIVE "1080p";
   mk_svd 720 576 50 HDMI_SCAN_PROGRESSIVE "576p";
   mk_svd 720 576 50 HDMI_SCAN_PROGRESSIVE "576pH";
   mk_svd 1280 720 50 HDMI_SCAN_PROGRESSIVE "720p50";
   mk_svd 1920 1080 50 HDMI_SCAN_INTERLACED "1080i25";
   mk_svd 720 576 50 HDMI_SCAN_INTERLACED "576i";
   mk_svd 720 576 50 HDMI_SCAN_INTERLACED "576iH";
   mk_svd 720 288 50 HDMI_SCAN_PROGRESSIVE "288p";
   mk_svd 720 288 50 HDMI_SCAN_PROGRESSIVE "288pH";
   mk_svd 720 576 50 HDMI_SCAN_INTERLACED "576i4x";
   mk_svd 720 576 50 HDMI_SCAN_INTERLACED "576i4xH";
   mk_svd 720 288 50 HDMI_SCAN_PROGRESSIVE "288p4x";
   mk_svd 720 288 50 HDMI_SCAN_PROGRESSIVE "288p4xH";
   mk_svd 720 576 50 HDMI_SCAN_PROGRESSIVE "576p2x";
   mk_svd 720 576 50 HDMI_SCAN_PROGRESSIVE "576p2xH";
   mk_svd 1920 1080 50 HDMI_SCAN_PROGRESSIVE "1080p50";
   mk_svd 1920 1080 24 HDMI_SCAN_PROGRESSIVE "1080p24";
   mk_svd 1920 1080 25 HDMI_SCAN_PROGRESSIVE "1080p25";
   mk_svd 1920 1080 30 HDMI_SCAN_PROGRESSIVE "1080p30";
   mk_svd 720 480 60 HDMI_SCAN_PROGRESSIVE "480p4x";
   mk_svd 720 480 60 HDMI_SCAN_PROGRESSIVE "480p4xH";
   mk_svd 720 576 50 HDMI_SCAN_PROGRESSIVE "576p4x";
   mk_svd 720 576 50 HDMI_SCAN_PROGRESSIVE "576p4xH";
   mk_svd 1920 1080 50 HDMI_SCAN_INTERLACED "1080i25";
   mk_svd 1920 1080 100 HDMI_SCAN_INTERLACED "1080i50";
   mk_svd 1280 720 100 HDMI_SCAN_PROGRESSIVE "720p100";
   mk_svd 720 576 100 HDMI_SCAN_PROGRESSIVE "576p100";
   mk_svd 720 576 100 HDMI_SCAN_PROGRESSIVE "576p100H";
   mk_svd 720 576 100 HDMI_SCAN_INTERLACED "576i50";
   mk_svd 720 576 100 HDMI_SCAN_INTERLACED "576i50H";
   mk_svd 1920 1080 120 HDMI_SCAN_INTERLACED "1080i60";
   mk_svd 1280 720 120 HDMI_SCAN_PROGRESSIVE "720p120";
   mk_svd 720 480 120 HDMI_SCAN_PROGRESSIVE "480p120";
   mk_svd 720 480 120 HDMI_SCAN_PROGRESSIVE "480p120H";
   mk_svd 720 480 120 HDMI_SCAN_INTERLACED "480i60";
   mk_svd 720 480 120 HDMI_SCAN_INTERLACED "480i60H";
   mk_svd 720 576 200 HDMI_SCAN_PROGRESSIVE "576p200";
   mk_svd 720 576 200 HDMI_SCAN_PROGRESSIVE "576p200H";
   mk_svd 720 576 200 HDMI_SCAN_INTERLACED "576i100";
   mk_svd 720 576 200 HDMI_SCAN_INTERLACED "576i100H";
   mk_svd 720 480 240 HDMI_SCAN_PROGRESSIVE "480p240";
   mk_svd 720 480 240 HDMI_SCAN_PROGRESSIVE "480p240H";
   mk_svd 720 480 240 HDMI_SCAN_INTERLACED "480i120";
   mk_svd 720 480 240 HDMI_SCAN_INTERLACED "480i120H";
   mk_svd 1280 720 24 HDMI_SCAN_PROGRESSIVE "720p24";
   mk_svd 1280 720 25 HDMI_SCAN_PROGRESSIVE "720p25";
   mk_svd 1280 720 30 HDMI_SCAN_PROGRESSIVE "720p30";
   mk_svd 1920 1080 120 HDMI_SCAN_PROGRESSIVE "1080p120"
  ]%string.

Definition NUM_SVD_ENTRIES : Z := Z.of_nat (length svd_table).

(** ** Operations *)

(** [for (count = 0; value; count++) value &= value - 1;] *)
Fixpoint count_set_bits_loop (fuel : nat) (value count : Z) : outcome Z :=
  match fuel with
  | O => Fault OutOfFuel
  | S fuel => if truth value then count_set_bits_loop fuel (value & (value - 1)) (count + 1)
              else Ok count
  end.

(** [value] has sixteen bits, and each turn clears one. *)
Definition count_set_bits (value : Z) : outcome Z := count_set_bits_loop 17 value 0.

(** The loop of [set_s3d_format_bits]: returns the new [*s3d_struct_bits]. *)
Fixpoint set_s3d_format_bits_loop (fuel : nat) (edid_data : list Z)
    (off hdmi_3d_len s3d_struct_bits : Z) : outcome Z :=
  if hdmi_3d_len <=? 0 then Ok s3d_struct_bits else
  match fuel with
  | O => Fault OutOfFuel
  | S fuel =>
      b ← rd edid_data off;
      let val := b & 0x0F in
      let off := off + 1 in
      let s3d_struct_bits := u16 (s3d_struct_bits |' (1 << val)) in
      if HDMI_SIDE_BY_SIDE_HALF <=? val
      then set_s3d_format_bits_loop fuel edid_data (off + 1) (hdmi_3d_len - 2) s3d_struct_bits
      else set_s3d_format_bits_loop fuel edid_data off (hdmi_3d_len - 1) s3d_struct_bits
  end.

Definition set_s3d_format_bits (edid_data : list Z)
    (off hdmi_3d_len s3d_struct_bits : Z) : outcome Z :=
  set_s3d_format_bits_loop (Z.to_nat hdmi_3d_len) edid_data off hdmi_3d_len s3d_struct_bits.

(** The scan for the entry of [format]: [Ok n], the length, when none has it. *)
Fixpoint find_format (l : list hdmi_s3d_format_info_t) (fmt : Z) : outcome nat :=
  match l with
  | [] => Ok 0%nat
  | e :: l =>
      f ← use (format e);
      if f =? fmt then Ok 0%nat else i ← find_format l fmt; Ok (S i)
  end.

(** The scan of the first [n] entries of [vic_info] for [vic_pos]. *)
Fixpoint find_vic (n : nat) (l : list (option hdmi_s3d_format_vic_info_t)) (pos : Z)
    : outcome nat :=
  match n with
  | O => Ok 0%nat
  | S n =>
      match l with
      | [] => Fault OutOfBounds
      | o :: l =>
          v ← use o;
          if vic_pos v =? pos then Ok 0%nat else i ← find_vic n l pos; Ok (S i)
      end
  end.

Definition update_s3d_format (edid : edid_t) (fmt pos subsamp : Z) : outcome edid_t :=
  if num_svds edid <? pos then Ok edid else
  format_ix ← find_format (s3d_format_list edid) fmt;
  match s3d_format_list edid !! format_ix with
  | None => Ok edid
  | Some e =>
      n ← use (num_valid_vic e);
      vic_pos_ix ← find_vic (Z.to_nat n) (vic_info e) pos;
      let n' := if n <=? Z.of_nat vic_pos_ix then n + 1 else n in
      vics ← wr (vic_info e) (Z.of_nat vic_pos_ix) (Some (mk_vic pos subsamp));
      Ok (set_s3d_formats (<[format_ix := set_vics n' vics e]> (s3d_format_list edid)) edid)
  end.

(** [while (offset < (0x80 + ext_length))]: [offset] is a [uint8_t]. *)
Fixpoint datablock_loop (fuel : nat) (edid_data : list Z) (type ext_length offset : Z)
    : outcome (option Z) :=
  if negb (offset <? 0x80 + ext_length) then Ok None else
  match fuel with
  | O => Fault OutOfFuel
  | S fuel =>
      val ← rd edid_data offset;
      if (val >> 5) =? type then Ok (Some offset)
      else datablock_loop fuel edid_data type ext_length (u8 (offset + ((val & 0x1F) + 1)))
  end.

(** [Ok None] is the return value 1, [Ok (Some off)] the return value 0 with [*off] set. *)
Definition edid_get_datablock_offset (fuel : nat) (edid_data : list Z) (type : Z)
    : outcome (option Z) :=
  ext ← rd edid_data 0x7e;
  if ext =? 0 then Ok None else
  ext_length ← rd edid_data 0x82;
  if ext_length =? 4 then Ok None else
  datablock_loop fuel edid_data type ext_length 0x84.

(** [for (i = 0; i <= HDMI_SIDE_BY_SIDE_HALF; i++)]: the formats of the bits set. *)
Fixpoint fill_formats (ixs : list Z) (s3d_struct_bits count : Z)
    (l : list hdmi_s3d_format_info_t) : outcome (list hdmi_s3d_format_info_t) :=
  match ixs with
  | [] => Ok l
  | i :: ixs =>
      if truth (s3d_struct_bits & (1 << i)) then
        e ← rd l count;
        l ← wr l count (set_format i e);
        fill_formats ixs s3d_struct_bits (count + 1) l
      else fill_formats ixs s3d_struct_bits count l
  end.

(** The subsampling of a format of [s3d_struct_all]: [None] is the variable
    left without a value. *)
Definition format_subsampling (fmt s3d_struct_all : Z) : option Z :=
  let bitmask := HDMI_SIDE_BY_SIDE_HALF_QUINCUNX_BIT |' HDMI_SIDE_BY_SIDE_HALF_BIT in
  if fmt =? HDMI_SIDE_BY_SIDE_HALF then
    if (s3d_struct_all & bitmask) =? bitmask then Some HDMI_SS_HORZANDQUINCUNX
    else if (s3d_struct_all & bitmask) =? HDMI_SIDE_BY_SIDE_HALF_QUINCUNX_BIT
      then Some HDMI_SS_QUINCUNX_ALL
    else if (s3d_struct_all & bitmask) =? HDMI_SIDE_BY_SIDE_HALF_BIT
      then Some HDMI_SS_HORIZONTAL
    else None
  else if fmt =? HDMI_TOPBOTTOM then Some HDMI_SS_VERTICAL
  else Some HDMI_SS_NONE.

(** [for (j = 0; j < 16; j++)]: the positions a format applies to. *)
Fixpoint fill_vics (js : list Z) (fmt s3d_struct_all hdmi_vic_pos_bits : Z) (sub : option Z)
    (count : Z) (vics : list (option hdmi_s3d_format_vic_info_t))
    : outcome (Z * list (option hdmi_s3d_format_vic_info_t)) :=
  match js with
  | [] => Ok (count, vics)
  | j :: js =>
      if truth (s3d_struct_all & (1 << fmt)) && truth (hdmi_vic_pos_bits & (1 << j)) then
        ss ← use sub;
        vics ← wr vics count (Some (mk_vic j ss));
        fill_vics js fmt s3d_struct_all hdmi_vic_pos_bits sub (count + 1) vics
      else fill_vics js fmt s3d_struct_all hdmi_vic_pos_bits sub count vics
  end.

Definition bit_positions : list Z := Z.of_nat <$> seq 0 16.

(** [for (i = 0; i < edid->num_s3d_formats; i++)]: the entries one after the other. *)
Fixpoint fill_format_vics (l : list hdmi_s3d_format_info_t) (s3d_struct_all hdmi_vic_pos_bits : Z)
    : outcome (list hdmi_s3d_format_info_t) :=
  match l with
  | [] => Ok []
  | e :: l =>
      fmt ← use (format e);
      r ← fill_vics bit_positions fmt s3d_struct_all hdmi_vic_pos_bits
            (format_subsampling fmt s3d_struct_all) 0 (vic_info e);
      l ← fill_format_vics l s3d_struct_all hdmi_vic_pos_bits;
      Ok (set_vics r.1 r.2 e :: l)
  end.

(** The last loop: [hdmi_3d_len] is a [uint8_t]. *)
Fixpoint per_vic_loop (fuel : nat) (edid_data : list Z) (edid : edid_t) (off hdmi_3d_len : Z)
    : outcome edid_t :=
  if negb (0 <? hdmi_3d_len) then Ok edid else
  match fuel with
  | O => Fault OutOfFuel
  | S fuel =>
      b ← rd edid_data off;
      let pos := (b & 0xF0) >> 4 in
      let fmt := b & 0x0F in
      let off := off + 1 in
      '(subsampling, off, hdmi_3d_len) ←
        (if HDMI_SIDE_BY_SIDE_HALF <=? fmt then
           b ← rd edid_data off;
           Ok ((b & 0xF0) >> 4, off + 1, u8 (hdmi_3d_len - 1))
         else Ok (HDMI_SS_NONE, off, hdmi_3d_len));
      let subsampling := if fmt =? HDMI_TOPBOTTOM then HDMI_SS_VERTICAL else subsampling in
      edid ← update_s3d_format edid fmt pos subsampling;
      per_vic_loop fuel edid_data edid off (u8 (hdmi_3d_len - 1))
  end.

(** The part of [edid_parse_s3d_support] after the header fields: the bit
    masks, the format list and the per-position entries. *)
Definition parse_s3d_formats (fuel : nat) (edid : edid_t) (edid_data : list Z)
    (off s3d_multi_present hdmi_3d_len : Z) : outcome edid_t :=
  '(s3d_struct_all, hdmi_vic_pos_bits, hdmi_3d_len, off) ←
    (if (s3d_multi_present =? 1) || (s3d_multi_present =? 2) then
       hi ← rd edid_data off;
       lo ← rd edid_data (off + 1);
       Ok (u16 ((hi << 8) |' lo), 0xFFFF, u8 (hdmi_3d_len - 2), off + 2)
     else Ok (0, 0, hdmi_3d_len, off));
  '(hdmi_vic_pos_bits, hdmi_3d_len, off) ←
    (if s3d_multi_present =? 2 then
       hi ← rd edid_data off;
       lo ← rd edid_data (off + 1);
       Ok (u16 ((hi << 8) |' lo), u8 (hdmi_3d_len - 2), off + 2)
     else Ok (hdmi_vic_pos_bits, hdmi_3d_len, off));
  s3d_struct_bits ← set_s3d_format_bits edid_data off hdmi_3d_len (s3d_struct_all & 0x7FFF);
  n ← count_set_bits s3d_struct_bits;
  let l := replicate (Z.to_nat n) malloced_s3d_format_info in
  l ← fill_formats (Z.of_nat <$> seq 0 9) s3d_struct_bits 0 l;
  l ← fill_format_vics l s3d_struct_all hdmi_vic_pos_bits;
  per_vic_loop fuel edid_data
    (mk_edid (s3d_capable edid) n l (num_svds edid) (svd_list edid)) off hdmi_3d_len.

Definition edid_parse_s3d_support (fuel : nat) (edid : edid_t) (edid_data : list Z)
    : outcome edid_t :=
  r ← edid_get_datablock_offset fuel edid_data DATABLOCK_VENDOR;
  match r with
  | None => Ok edid
  | Some off =>
      let off := off + 8 in
      val ← rd edid_data off;
      let off := off + 1 in
      if negb (truth (val & 0x20)) then Ok edid else
      let off := if truth (val & 0x80) then off + 2 else off in
      let off := if truth (val & 0x40) then off + 2 else off in
      val ← rd edid_data off;
      let off := off + 1 in
      if negb (truth (val & 0x80)) then Ok edid else
      let edid := mk_edid true (num_s3d_formats edid) (s3d_format_list edid)
                    (num_svds edid) (svd_list edid) in
      let s3d_multi_present := (val & 0x60) >> 5 in
      val ← rd edid_data off;
      let off := off + 1 + ((val & 0xE0) >> 5) in
      let hdmi_3d_len := val & 0x1F in
      parse_s3d_formats fuel edid edid_data off s3d_multi_present hdmi_3d_len
  end.

Definition edid_fill_svd_info (code : Z) : outcome svd_info_t :=
  let code := if NUM_SVD_ENTRIES <? code then 0 else code in
  rd svd_table code.

(** [for (i = 0; i < edid->num_svds; i++)] *)
Fixpoint fill_svds (ixs : list Z) (raw_edid_data : list Z) (offset : Z) : outcome (list svd_t) :=
  match ixs with
  | [] => Ok []
  | i :: ixs =>
      b ← rd raw_edid_data (offset + i);
      inf ← edid_fill_svd_info (b & 0x7F);
      l ← fill_svds ixs raw_edid_data offset;
      Ok (mk_svd_t (b & 0x7F) ((b & 0x80) =? 0x80) inf :: l)
  end.

Definition edid_parse_svds (fuel : nat) (edid : edid_t) (raw_edid_data : list Z)
    : outcome edid_t :=
  r ← edid_get_datablock_offset fuel raw_edid_data DATABLOCK_VIDEO;
  match r with
  | None => Ok (mk_edid (s3d_capable edid) (num_s3d_formats edid) (s3d_format_list edid) 0 [])
  | Some offset =>
      b ← rd raw_edid_data offset;
      let n := b & 0x1F in
      l ← fill_svds (Z.of_nat <$> seq 0 (Z.to_nat n)) raw_edid_data offset;
      Ok (mk_edid (s3d_capable edid) (num_s3d_formats edid) (s3d_format_list edid) n l)
  end.

(** The return value and [*edid_handle]. *)
Definition edid_parser_init (fuel : nat) (edid_handle_null malloc_ok : bool)
    (raw_edid_data : list Z) : outcome (Z * option edid_t) :=
  if edid_handle_null then Ok (-1, None) else
  if negb malloc_ok then Ok (-1, None) else
  edid ← edid_parse_svds fuel zeroed_edid raw_edid_data;
  edid ← edid_parse_s3d_support fuel edid raw_edid_data;
  Ok (0, Some edid).

Definition edid_s3d_capable (edid : edid_t) : bool := s3d_capable edid.

Definition edid_supports_s3d_format (edid : edid_t) (fmt : Z) : outcome bool :=
  i ← find_format (s3d_format_list edid) fmt;
  Ok (bool_decide (i < length (s3d_format_list edid))%nat).

(** The entry the returned pointer points to; [None] is NULL. *)
Definition edid_get_s3d_format_info (edid : edid_t) (fmt : Z)
    : outcome (option hdmi_s3d_format_info_t) :=
  i ← find_format (s3d_format_list edid) fmt;
  Ok (s3d_format_list edid !! i).

(** [None] when an argument is NULL and nothing is written. *)
Definition edid_get_svd_list (edid : edid_t) (list_null num_null : bool)
    : option (list svd_t * Z) :=
  if list_null || num_null then None else Some (svd_list edid, num_svds edid).

(** [Ok None] is NULL; a pointer that is not to an element is a fault. *)
Definition edid_get_svd_descriptor (edid : edid_t) (pos : Z) : outcome (option svd_t) :=
  if num_svds edid <? pos then Ok None
  else d ← rd (svd_list edid) pos; Ok (Some d).
