(* ===== verification/EdidFacts.v ===== *)
(** * Properties of the EDID parser *)

From stdpp Require Import base list numbers option strings sets gmap.
From Stdlib Require Import ZArith Lia.
From S2P Require Import Prelude Edid.

Local Open Scope Z_scope.
Local Open Scope cint_scope.

(** ** Counting set bits *)

(** The reference: the positions among the low sixteen whose bit is set. *)
Definition set_positions (n : nat) (v : Z) : list Z :=
  filter (fun i => Z.testbit v i = true) (Z.of_nat <$> seq 0 n).

Fixpoint pos_ones (p : positive) : Z :=
  match p with
  | xH => 1
  | xO p => pos_ones p
  | xI p => 1 + pos_ones p
  end.

Definition ones (v : Z) : Z := match v with Zpos p => pos_ones p | _ => 0 end.

Lemma land_double_succ (a b : Z) : Z.land (2 * a) (2 * b + 1) = 2 * Z.land a b.
Proof.
  apply Z.bits_inj'. intros j Hj. rewrite Z.land_spec.
  destruct (decide (j = 0)) as [->|].
  - rewrite !Z.testbit_even_0. done.
  - replace j with (Z.succ (j - 1)) by lia.
    rewrite !Z.testbit_even_succ, Z.testbit_odd_succ, Z.land_spec by lia. done.
Qed.

Lemma land_succ_double (a : Z) : Z.land (2 * a + 1) (2 * a) = 2 * a.
Proof.
  rewrite Z.land_comm, land_double_succ. by rewrite Z.land_diag.
Qed.

Lemma ones_double (a : Z) : 0 <= a -> ones (2 * a) = ones a.
Proof. destruct a; [done|done|lia]. Qed.

Lemma ones_succ_double (a : Z) : 0 <= a -> ones (2 * a + 1) = 1 + ones a.
Proof. destruct a; [done|done|lia]. Qed.

Lemma land_pred_nonneg (v : Z) : 0 < v -> 0 <= Z.land v (v - 1).
Proof. intros. apply Z.land_nonneg. lia. Qed.

(** One turn of the loop clears one bit. *)
Lemma ones_land_pred (p : positive) :
  ones (Z.land (Zpos p) (Zpos p - 1)) = pos_ones p - 1.
Proof.
  induction p as [p IH|p IH|]; [| |done].
  - replace (Zpos p~1 - 1) with (2 * Zpos p) by lia.
    replace (Zpos p~1) with (2 * Zpos p + 1) by lia.
    rewrite land_succ_double, ones_double by lia. cbn [ones pos_ones]. lia.
  - replace (Zpos p~0 - 1) with (2 * (Zpos p - 1) + 1) by lia.
    replace (Zpos p~0) with (2 * Zpos p) by lia.
    rewrite land_double_succ, ones_double by (apply land_pred_nonneg; lia). done.
Qed.

Lemma ones_nonneg (v : Z) : 0 <= ones v.
Proof. destruct v as [|p|]; [done| |done]. cbn [ones]. induction p; cbn [pos_ones]; lia. Qed.

Lemma pos_ones_pos (p : positive) : 1 <= pos_ones p.
Proof. induction p as [p IH|p IH|]; cbn [pos_ones]; lia. Qed.

Lemma count_set_bits_loop_ok (fuel : nat) (v c : Z) :
  0 <= v -> ones v < Z.of_nat fuel -> count_set_bits_loop fuel v c = Ok (c + ones v).
Proof.
  revert v c. induction fuel as [|fuel IH]; intros v c Hv Hf.
  { pose proof (ones_nonneg v). lia. }
  simpl. destruct v as [|p|p]; [simpl; f_equal; lia| |lia]. simpl truth. cbv iota.
  pose proof (ones_land_pred p) as Hone.
  rewrite IH.
  - rewrite Hone. simpl ones. f_equal. lia.
  - apply land_pred_nonneg. lia.
  - rewrite Hone. simpl ones in Hf. lia.
Qed.

Lemma set_positions_length (n : nat) (v : Z) :
  0 <= v < 2 ^ Z.of_nat n -> Z.of_nat (length (set_positions n v)) = ones v.
Proof.
  revert v. induction n as [|n IH]; intros v Hv.
  { simpl in Hv. replace v with 0 by lia. done. }
  rewrite Nat2Z.inj_succ, Z.pow_succ_r in Hv by lia.
  assert (set_positions (S n) v =
    (if Z.testbit v 0 then [0] else []) ++ (Z.succ <$> set_positions n (Z.div2 v))) as Heq.
  { unfold set_positions. rewrite <- cons_seq, fmap_cons, <- fmap_S_seq.
    assert (forall l : list nat, filter (fun i : Z => Z.testbit v i = true) (Z.of_nat <$> (S <$> l))
      = Z.succ <$> filter (fun i : Z => Z.testbit (Z.div2 v) i = true) (Z.of_nat <$> l)) as Hl.
    { induction l as [|x l IHl]; [done|]. rewrite !fmap_cons, !filter_cons, IHl.
      replace (Z.of_nat (S x)) with (Z.succ (Z.of_nat x)) by lia.
      rewrite Z.div2_spec, Z.shiftr_spec by lia.
      replace (Z.succ (Z.of_nat x)) with (Z.of_nat x + 1) by lia.
      by case_decide. }
    rewrite filter_cons, Hl. change (Z.of_nat 0) with 0.
    case_decide as Hb; [by rewrite Hb|].
    apply not_true_is_false in Hb. by rewrite Hb. }
  rewrite Heq, length_app, length_fmap, Nat2Z.inj_add, IH;
    [|rewrite Z.div2_div; split; [apply Z.div_pos; lia|apply Z.div_lt_upper_bound; lia]].
  assert (0 <= Z.div2 v) by (rewrite Z.div2_div; apply Z.div_pos; lia).
  rewrite (Z.div2_odd v) at 3. rewrite Z.bit0_odd.
  destruct (Z.odd v); simpl Z.b2z; simpl length.
  - rewrite ones_succ_double by done. lia.
  - rewrite Z.add_0_r, ones_double by done. lia.
Qed.

Lemma ones_le (n : nat) (v : Z) : 0 <= v < 2 ^ Z.of_nat n -> ones v <= Z.of_nat n.
Proof.
  intros Hv. rewrite <- (set_positions_length n v Hv). unfold set_positions.
  pose proof (length_filter (fun i : Z => Z.testbit v i = true) (Z.of_nat <$> seq 0 n)) as H.
  rewrite length_fmap, length_seq in H. lia.
Qed.

Lemma count_set_bits_ones (v : Z) : 0 <= v < 2 ^ 16 -> count_set_bits v = Ok (ones v).
Proof.
  intros Hv. unfold count_set_bits. rewrite count_set_bits_loop_ok; [done|lia|].
  pose proof (ones_le 16 v Hv). lia.
Qed.

(** The loop that clears the lowest bit counts the set bits of a [uint16_t],
    and ends within sixteen turns. *)
Theorem count_set_bits_popcount (v : Z) :
  0 <= v < 2 ^ 16 ->
  count_set_bits v = Ok (Z.of_nat (length (set_positions 16 v))).
Proof. intros Hv. by rewrite count_set_bits_ones, set_positions_length. Qed.

(** ** The search for a data block *)

(** A data block as CEA-861 lays it out: the header byte holds the type in its
    upper three bits and the length of the payload in the lower five. *)
Record datablock := mk_block { b_type : Z; b_payload : list Z }.

Definition block_ok (b : datablock) : Prop :=
  0 <= b_type b < 8 /\ Z.of_nat (length (b_payload b)) < 32.

Definition block_header (b : datablock) : Z := 32 * b_type b + Z.of_nat (length (b_payload b)).

Definition encode_block (b : datablock) : list Z := block_header b :: b_payload b.

Definition encode_blocks (bs : list datablock) : list Z := bs ≫= encode_block.

(** An EDID with one CEA extension that holds the blocks [bs]. *)
Definition edid_image (base : list Z) (ext chk tag rev flags : Z) (bs : list datablock)
    (rest : list Z) : list Z :=
  base ++ [ext; chk; tag; rev; 4 + Z.of_nat (length (encode_blocks bs)); flags]
    ++ encode_blocks bs ++ rest.

Definition image_ok (base : list Z) (ext : Z) (bs : list datablock) : Prop :=
  length base = 0x7e%nat /\ ext <> 0 /\ Forall block_ok bs /\
  Z.of_nat (length (encode_blocks bs)) <= 0x7b.

(** The reference: where the first block of the type starts. *)
Fixpoint block_offset (bs : list datablock) (type start : Z) : option Z :=
  match bs with
  | [] => None
  | b :: bs => if b_type b =? type then Some start
               else block_offset bs type (start + Z.of_nat (length (encode_block b)))
  end.

Lemma header_type (b : datablock) : block_ok b -> block_header b >> 5 = b_type b.
Proof.
  intros [? ?]. unfold block_header. rewrite Z.shiftr_div_pow2 by lia.
  change (2 ^ 5) with 32. rewrite Z.mul_comm, Z.div_add_l by lia.
  rewrite Z.div_small by lia. lia.
Qed.

Lemma header_length (b : datablock) :
  block_ok b -> (block_header b & 0x1F) = Z.of_nat (length (b_payload b)).
Proof.
  intros [? ?]. unfold block_header. change 0x1F with (Z.ones 5).
  rewrite Z.land_ones by lia. change (2 ^ 5) with 32.
  rewrite Z.add_comm, Z.mul_comm, Z_mod_plus_full. apply Z.mod_small. lia.
Qed.

Lemma encode_blocks_cons (b : datablock) (bs : list datablock) :
  encode_blocks (b :: bs) = block_header b :: b_payload b ++ encode_blocks bs.
Proof. done. Qed.

Lemma encode_blocks_length_cons (b : datablock) (bs : list datablock) :
  Z.of_nat (length (encode_blocks (b :: bs))) =
  1 + Z.of_nat (length (b_payload b)) + Z.of_nat (length (encode_blocks bs)).
Proof. rewrite encode_blocks_cons. simpl. rewrite length_app. lia. Qed.

Lemma rd_app_mid {A} (pre post : list A) (v : A) (i : Z) :
  i = Z.of_nat (length pre) -> rd (pre ++ v :: post) i = Ok v.
Proof.
  intros ->. apply rd_lookup; [lia|]. rewrite Nat2Z.id. by apply list_lookup_middle.
Qed.

Lemma datablock_loop_blocks (fuel : nat) (pre rest : list Z) (bs : list datablock) (type ext : Z) :
  Forall block_ok bs ->
  0x80 + ext = Z.of_nat (length (pre ++ encode_blocks bs)) ->
  0x80 + ext <= 255 -> (length bs <= fuel)%nat ->
  datablock_loop fuel (pre ++ encode_blocks bs ++ rest) type ext (Z.of_nat (length pre))
  = Ok (block_offset bs type (Z.of_nat (length pre))).
Proof.
  revert fuel pre. induction bs as [|b bs IH]; intros fuel pre Hok Hext Hmax Hfuel.
  { rewrite app_nil_r in Hext. destruct fuel; simpl datablock_loop;
      (destruct (Z.ltb_spec (Z.of_nat (length pre)) (128 + ext)); [lia|done]). }
  apply Forall_cons in Hok as [Hb Hbs].
  rewrite length_app, Nat2Z.inj_add, encode_blocks_length_cons in Hext.
  destruct fuel as [|fuel]; [simpl in Hfuel; lia|]. cbn [datablock_loop].
  destruct (Z.ltb_spec (Z.of_nat (length pre)) (128 + ext)) as [_|]; [|lia]. simpl negb. cbv iota.
  rewrite encode_blocks_cons, <- app_comm_cons, rd_app_mid by done.
  unfold mbind, outcome_bind. cbn [block_offset].
  rewrite header_type by done. destruct (Z.eqb_spec (b_type b) type); [done|].
  rewrite header_length by done.
  set (pre' := pre ++ block_header b :: b_payload b).
  assert (Z.of_nat (length pre') = Z.of_nat (length pre) + (Z.of_nat (length (b_payload b)) + 1)) as Hl.
  { unfold pre'. rewrite length_app. simpl. lia. }
  rewrite wrapU_small by (change (2 ^ 8) with 256; lia).
  replace (Z.of_nat (length pre) + Z.of_nat (length (encode_block b)))
    with (Z.of_nat (length pre')) by (simpl; lia).
  rewrite <- Hl.
  replace (pre ++ block_header b :: (b_payload b ++ encode_blocks bs) ++ rest)
    with (pre' ++ encode_blocks bs ++ rest)
    by (unfold pre'; rewrite <- !app_assoc; simpl; by rewrite <- ?app_assoc).
  apply IH; [done| |done|simpl in Hfuel; lia].
  rewrite length_app. lia.
Qed.

Lemma edid_image_header (base : list Z) (ext chk tag rev flags : Z) bs rest :
  image_ok base ext bs ->
  rd (edid_image base ext chk tag rev flags bs rest) 0x7e = Ok ext /\
  rd (edid_image base ext chk tag rev flags bs rest) 0x82
    = Ok (4 + Z.of_nat (length (encode_blocks bs))).
Proof.
  intros (Hl & _). unfold edid_image. split.
  - apply rd_app_mid. by rewrite Hl.
  - set (k := 4 + _).
    change ([ext; chk; tag; rev; k; flags]) with ([ext; chk; tag; rev] ++ [k; flags]).
    rewrite <- app_assoc, (app_assoc base). simpl. apply rd_app_mid.
    rewrite length_app, Hl. done.
Qed.

Lemma get_datablock_offset_image (fuel : nat) base ext chk tag rev flags bs rest type :
  image_ok base ext bs -> (length bs <= fuel)%nat ->
  edid_get_datablock_offset fuel (edid_image base ext chk tag rev flags bs rest) type
  = Ok (block_offset bs type 0x84).
Proof.
  intros Hok Hfuel. pose proof Hok as (Hl & Hext & Hbs & Hmax).
  destruct (edid_image_header base ext chk tag rev flags bs rest Hok) as [H1 H2].
  unfold edid_get_datablock_offset. rewrite H1. unfold mbind, outcome_bind.
  destruct (Z.eqb_spec ext 0); [done|]. rewrite H2.
  destruct (Z.eqb_spec (4 + Z.of_nat (length (encode_blocks bs))) 4).
  - destruct bs as [|b bs]; [done|]. rewrite encode_blocks_length_cons in *. lia.
  - unfold edid_image. rewrite app_assoc.
    set (pre := base ++ _).
    assert (0x84 = Z.of_nat (length pre)) as ->
      by (unfold pre; rewrite length_app, Hl; done).
    apply datablock_loop_blocks; [done| |lia|done].
    rewrite length_app, Nat2Z.inj_add. unfold pre. rewrite length_app, Hl. simpl. lia.
Qed.

(** C37: on an EDID whose CEA extension is a sequence of data blocks, the search
    for a block type returns the offset of the first block of that type, or
    reports that there is none; it needs as many turns as there are blocks. *)
Theorem edid_get_datablock_offset_finds (fuel : nat) base ext chk tag rev flags bs rest type :
  image_ok base ext bs -> (length bs <= fuel)%nat ->
  edid_get_datablock_offset fuel (edid_image base ext chk tag rev flags bs rest) type
  = Ok (block_offset bs type 0x84).
Proof. apply get_datablock_offset_image. Qed.

(** *** Termination of the search on any bytes *)

Definition bytes (l : list Z) : Prop := Forall (fun b => 0 <= b < 256) l.

Lemma rd_bytes (l : list Z) (i v : Z) : bytes l -> rd l i = Ok v -> 0 <= v < 256.
Proof.
  intros Hb [_ Hv]%rd_inv. unfold bytes in Hb. rewrite Forall_lookup in Hb. eauto.
Qed.

Lemma land_1F_range (v : Z) : 0 <= (v & 0x1F) < 32.
Proof. apply (land_ones_range v 5). lia. Qed.

Lemma datablock_loop_terminates (fuel : nat) (data : list Z) (type ext off : Z) :
  length data = 256%nat -> ext <= 0x60 -> 0 <= off < 256 ->
  0x80 + ext - off <= Z.of_nat fuel ->
  exists r, forall fuel', (fuel <= fuel')%nat -> datablock_loop fuel' data type ext off = Ok r.
Proof.
  intros Hl Hext. revert off. induction fuel as [|fuel IH]; intros off Hoff Hf.
  { exists None. intros fuel' _. destruct fuel'; simpl;
      (destruct (Z.ltb_spec off (128 + ext)); [lia|done]). }
  destruct (Z.ltb_spec off (128 + ext)) as [Hlt|Hge].
  2:{ exists None. intros fuel' _. destruct fuel'; simpl;
      (destruct (Z.ltb_spec off (128 + ext)); [lia|done]). }
  destruct (rd_ok data off) as [v Hv]; [lia|].
  pose proof (land_1F_range v).
  destruct (Z.eqb_spec (v >> 5) type) as [Ht|Ht].
  - exists (Some off). intros [|fuel'] Hf'; [lia|]. cbn [datablock_loop].
    destruct (Z.ltb_spec off (128 + ext)); [|lia]. simpl. rewrite Hv.
    unfold mbind, outcome_bind. destruct (Z.eqb_spec (v >> 5) type); [done|congruence].
  - destruct (IH (u8 (off + ((v & 0x1F) + 1)))) as [r Hr].
    { apply (wrapU_range 8). lia. }
    { rewrite wrapU_small by (change (2 ^ 8) with 256; lia). lia. }
    exists r. intros [|fuel'] Hf'; [lia|]. cbn [datablock_loop].
    destruct (Z.ltb_spec off (128 + ext)); [|lia]. simpl negb. cbv iota. rewrite Hv.
    unfold mbind, outcome_bind. destruct (Z.eqb_spec (v >> 5) type); [congruence|].
    apply Hr. lia.
Qed.

(** Whatever the 256 bytes hold, the search returns (and reads only inside
    them) when the data block collection ends at least one longest block before
    the end of the extension. *)
Theorem edid_get_datablock_offset_terminates (data : list Z) (type ext : Z) :
  length data = 256%nat -> rd data 0x82 = Ok ext -> ext <= 0x60 ->
  exists r, forall fuel, (0x60 <= fuel)%nat -> edid_get_datablock_offset fuel data type = Ok r.
Proof.
  intros Hl Hext Hle. unfold edid_get_datablock_offset.
  destruct (rd_ok data 0x7e) as [x Hx]; [lia|]. rewrite Hx, Hext.
  unfold mbind, outcome_bind.
  destruct (x =? 0); [by exists None|]. destruct (ext =? 4); [by exists None|].
  apply (datablock_loop_terminates 0x60); [done|done|lia|lia].
Qed.

(** Where the search looks for the headers of the blocks: at [off], after the
    payload of the block there, and so on, around the 256 bytes as the
    [uint8_t] wraps. *)
Definition header_at (data : list Z) (off : Z) : Z := default 0 (data !! Z.to_nat off).

Fixpoint nth_header (data : list Z) (n : nat) (off : Z) : Z :=
  match n with
  | O => off
  | S n => nth_header data n (u8 (off + ((header_at data off & 0x1F) + 1)))
  end.

Lemma datablock_loop_wraps (fuel : nat) (data : list Z) (type ext off : Z) :
  length data = 256%nat -> 0x80 <= ext -> 0 <= off < 256 ->
  datablock_loop fuel data type ext off = Fault OutOfFuel <->
  forall n, (n < fuel)%nat -> header_at data (nth_header data n off) >> 5 <> type.
Proof.
  intros Hl Hext. revert off. induction fuel as [|fuel IH]; intros off Hoff;
    cbn [datablock_loop]; (destruct (Z.ltb_spec off (128 + ext)); [|lia]); [split; [lia|done]|].
  destruct (rd_ok data off) as [v Hv]; [lia|]. simpl negb. cbv iota. rewrite Hv.
  assert (header_at data off = v) as Eh by (unfold header_at; by apply rd_inv in Hv as [_ ->]).
  unfold mbind, outcome_bind. destruct (Z.eqb_spec (v >> 5) type) as [He|Hne].
  - split; [done|]. intros Hn. exfalso. apply (Hn 0%nat); [lia|]. simpl. by rewrite Eh.
  - rewrite IH by (apply (wrapU_range 8); lia). split.
    + intros Hn [|n] Hlt; simpl; rewrite Eh; [done|]. apply Hn. lia.
    + intros Hn n Hlt. specialize (Hn (S n) ltac:(lia)). simpl in Hn. by rewrite Eh in Hn.
Qed.

(** C39: because the offset is a [uint8_t] and the end of the blocks is not
    checked against 256, an EDID with an extension that gives 0x80 or more as
    that end keeps the search in its loop for ever exactly when none of the
    bytes that it takes for block headers, from 0x84 on and around the 256 bytes
    of the EDID, base block and payloads included, has the type sought. *)
Theorem edid_get_datablock_offset_diverges (data : list Z) (type ext : Z) :
  length data = 256%nat -> rd data 0x7e <> Ok 0 -> rd data 0x82 = Ok ext -> 0x80 <= ext ->
  (forall fuel, edid_get_datablock_offset fuel data type = Fault OutOfFuel) <->
  (forall n, header_at data (nth_header data n 0x84) >> 5 <> type).
Proof.
  intros Hl H7e Hext Hge.
  assert (forall fuel, edid_get_datablock_offset fuel data type = datablock_loop fuel data type ext 0x84) as Hs.
  { intros fuel. unfold edid_get_datablock_offset. destruct (rd_ok data 0x7e) as [x Hx]; [lia|]. rewrite Hx, Hext.
    unfold mbind, outcome_bind. destruct (Z.eqb_spec x 0) as [->|]; [congruence|]. by destruct (Z.eqb_spec ext 4); [lia|]. }
  setoid_rewrite Hs. setoid_rewrite datablock_loop_wraps; [|done..|lia]. split; [|auto]. intros Hf n. apply (Hf (S n)). lia.
Qed.

(** ** Short video descriptors *)

Fixpoint first_block (bs : list datablock) (type : Z) : option datablock :=
  match bs with
  | [] => None
  | b :: bs => if b_type b =? type then Some b else first_block bs type
  end.

Lemma block_offset_bytes (pre rest : list Z) (bs : list datablock) (type : Z) (b : datablock) :
  first_block bs type = Some b ->
  exists off, block_offset bs type (Z.of_nat (length pre)) = Some off /\ b ∈ bs /\
    b_type b = type /\
    Z.of_nat (length pre) <= off /\
    off + Z.of_nat (length (encode_block b)) <= Z.of_nat (length (pre ++ encode_blocks bs)) /\
    forall i v, encode_block b !! i = Some v ->
      rd (pre ++ encode_blocks bs ++ rest) (off + Z.of_nat i) = Ok v.
Proof.
  revert pre. induction bs as [|c bs IH]; intros pre Hf; [done|]. simpl in Hf.
  cbn [block_offset]. destruct (Z.eqb_spec (b_type c) type) as [Ht|Ht].
  - injection Hf as <-. eexists. split; [done|]. split; [set_solver|]. split; [done|].
    split; [done|]. split.
    + rewrite !length_app, encode_blocks_cons. simpl. rewrite length_app. lia.
    + intros i v Hi. apply rd_lookup; [lia|].
      rewrite <- Nat2Z.inj_add, Nat2Z.id, lookup_app_r by lia.
      replace (length pre + i - length pre)%nat with i by lia.
      change (encode_blocks (c :: bs)) with (encode_block c ++ encode_blocks bs).
      apply lookup_app_l_Some, lookup_app_l_Some. done.
  - destruct (IH (pre ++ encode_block c) Hf) as (off & Ho & Hin & Hty & Hle & Hend & Hrd).
    rewrite length_app, Nat2Z.inj_add in Ho. exists off.
    change (encode_blocks (c :: bs)) with (encode_block c ++ encode_blocks bs).
    rewrite <- !app_assoc in *. rewrite length_app in Hle.
    split_and!; [done|set_solver|done|lia|done|]. intros i v Hi. by apply Hrd.
Qed.

Lemma image_block (base : list Z) (ext chk tag rev flags : Z) bs rest type b (fuel : nat) :
  image_ok base ext bs -> (length bs <= fuel)%nat -> first_block bs type = Some b ->
  exists off,
    edid_get_datablock_offset fuel (edid_image base ext chk tag rev flags bs rest) type
      = Ok (Some off) /\ block_ok b /\ b_type b = type /\ 0x84 <= off /\
    off + Z.of_nat (length (encode_block b)) <= 0xff /\
    forall i v, encode_block b !! i = Some v ->
      rd (edid_image base ext chk tag rev flags bs rest) (off + Z.of_nat i) = Ok v.
Proof.
  intros Hok Hfuel Hf. rewrite get_datablock_offset_image by done.
  destruct Hok as (Hl & Hext & Hbs & Hmax).
  unfold edid_image. rewrite app_assoc. set (pre := base ++ _).
  assert (Z.of_nat (length pre) = 0x84) as Hpre by (unfold pre; rewrite length_app, Hl; done).
  destruct (block_offset_bytes pre rest bs type b Hf) as (off & Ho & Hin & Hty & Hle & Hend & Hrd).
  rewrite Hpre in *. exists off. rewrite Ho. rewrite length_app in Hend.
  split_and!; [done| |done|lia|lia|done].
  rewrite Forall_forall in Hbs. by apply Hbs.
Qed.

(** The descriptor the code makes of a byte of the block. *)
Definition svd_info_of (c : Z) : svd_info_t :=
  nth (if 64 <? c then 0 else Z.to_nat c) svd_table (mk_svd 0 0 0 HDMI_SCAN_PROGRESSIVE "").

Definition svd_of (b : Z) : svd_t :=
  mk_svd_t (b & 0x7F) ((b & 0x80) =? 0x80) (svd_info_of (b & 0x7F)).

Lemma svd_table_length : length svd_table = 64%nat.
Proof. done. Qed.

Lemma fill_svd_info_eq (c : Z) :
  0 <= c -> edid_fill_svd_info c = if c =? 64 then Fault OutOfBounds else Ok (svd_info_of c).
Proof.
  intros Hc. unfold edid_fill_svd_info, NUM_SVD_ENTRIES, svd_info_of.
  rewrite svd_table_length. change (Z.of_nat 64) with 64.
  destruct (Z.eqb_spec c 64) as [->|Hne]; [done|].
  destruct (Z.ltb_spec 64 c); [done|].
  apply rd_lookup; [lia|].
  destruct (nth_lookup_or_length svd_table (Z.to_nat c) (mk_svd 0 0 0 HDMI_SCAN_PROGRESSIVE ""))
    as [H64|H64]; [done|]. rewrite svd_table_length in H64. lia.
Qed.

(** The guard of [edid_fill_svd_info] lets one code of a descriptor through
    that has no entry in the table: on 64 it reads past the table's end, every
    other code yields its entry or the reserved one. *)
Theorem edid_fill_svd_info_bounds (c : Z) :
  0 <= c < 128 ->
  (edid_fill_svd_info c = Fault OutOfBounds <-> c = 64) /\
  (c < 64 -> exists i, edid_fill_svd_info c = Ok i /\ svd_table !! Z.to_nat c = Some i) /\
  (64 < c -> exists i, edid_fill_svd_info c = Ok i /\ svd_table !! 0%nat = Some i).
Proof.
  intros Hc. rewrite fill_svd_info_eq by lia. split_and!.
  - destruct (Z.eqb_spec c 64); split; congruence.
  - intros. destruct (Z.eqb_spec c 64); [lia|]. eexists. split; [done|].
    unfold svd_info_of. destruct (Z.ltb_spec 64 c); [lia|].
    destruct (lookup_lt_is_Some_2 svd_table (Z.to_nat c)) as [x Hx];
      [rewrite svd_table_length; lia|].
    rewrite Hx. f_equal. symmetry. by apply nth_lookup_Some.
  - intros. destruct (Z.eqb_spec c 64); [lia|]. eexists. split; [done|].
    unfold svd_info_of. by destruct (Z.ltb_spec 64 c); [|lia].
Qed.

Lemma fill_svds_ok (data w : list Z) (off : Z) (s : nat) :
  (forall k v, w !! k = Some v -> rd data (off + Z.of_nat (s + k)) = Ok v) ->
  Forall (fun b => (b & 0x7F) <> 64) w ->
  fill_svds (Z.of_nat <$> seq s (length w)) data off = Ok (svd_of <$> w).
Proof.
  revert s. induction w as [|b w IH]; intros s Hrd Hw; [done|].
  apply Forall_cons in Hw as [Hb Hw]. simpl length. simpl seq. rewrite fmap_cons.
  cbn [fill_svds].
  pose proof (Hrd 0%nat b eq_refl) as H0. rewrite Nat.add_0_r in H0. rewrite H0.
  unfold mbind, outcome_bind.
  pose proof (land_ones_range b 7 ltac:(lia)) as Hr. change (Z.ones 7) with 0x7F in Hr.
  rewrite fill_svd_info_eq by lia. destruct (Z.eqb_spec (b & 0x7F) 64); [done|].
  rewrite IH; [done| |done]. intros k v Hk.
  specialize (Hrd (S k) v Hk). by rewrite Nat.add_succ_comm.
Qed.

Lemma header_code (b : datablock) :
  block_ok b -> b_type b = 2 ->
  (block_header b & 0x7F) = 64 + Z.of_nat (length (b_payload b)).
Proof.
  intros [_ ?] Ht. unfold block_header. rewrite Ht. change 0x7F with (Z.ones 7).
  rewrite Z.land_ones by lia. apply Z.mod_small. change (2 ^ 7) with 128. lia.
Qed.

(** The video block is read from its header byte on, not from the byte after
    it: the first descriptor is always made of the header (code 64 plus the
    length, so the reserved mode) and the last descriptor of the block is lost. *)
Theorem edid_parse_svds_shifted (fuel : nat) base ext chk tag rev flags bs rest b e :
  image_ok base ext bs -> (length bs <= fuel)%nat ->
  first_block bs DATABLOCK_VIDEO = Some b ->
  Forall (fun v => (v & 0x7F) <> 64) (b_payload b) ->
  edid_parse_svds fuel e (edid_image base ext chk tag rev flags bs rest)
  = Ok (mk_edid (s3d_capable e) (num_s3d_formats e) (s3d_format_list e)
          (Z.of_nat (length (b_payload b)))
          (svd_of <$> take (length (b_payload b)) (block_header b :: b_payload b))).
Proof.
  intros Hok Hfuel Hf Hp.
  destruct (image_block base ext chk tag rev flags bs rest _ b fuel Hok Hfuel Hf)
    as (off & Ho & Hb & Hty & _ & _ & Hrd).
  unfold edid_parse_svds. rewrite Ho. unfold mbind, outcome_bind.
  pose proof (Hrd 0%nat (block_header b) eq_refl) as H0. rewrite Z.add_0_r in H0. rewrite H0.
  rewrite header_length, Nat2Z.id by done.
  set (w := take _ (_ :: _)).
  assert (length w = length (b_payload b)) as Hw
    by (unfold w; rewrite length_take; simpl; lia).
  rewrite <- Hw at 1. rewrite fill_svds_ok; [done| |].
  - intros k v Hk. simpl. apply Hrd. unfold w in Hk.
    by apply lookup_take_Some in Hk as [Hk _].
  - unfold w. destruct (b_payload b) as [|p0 p] eqn:E; [constructor|].
    simpl. constructor.
    + rewrite header_code by done. rewrite E. simpl. lia.
    + apply Forall_take. done.
Qed.

(** The guard of [edid_get_svd_descriptor] lets the position [num_svds]
    through, one past the last descriptor; every smaller position yields its
    descriptor and every larger one NULL. *)
Theorem edid_get_svd_descriptor_cases (e : edid_t) (pos : Z) :
  num_svds e = Z.of_nat (length (svd_list e)) -> 0 <= pos ->
  (pos < num_svds e -> exists d, edid_get_svd_descriptor e pos = Ok (Some d) /\
     svd_list e !! Z.to_nat pos = Some d) /\
  (pos = num_svds e -> edid_get_svd_descriptor e pos = Fault OutOfBounds) /\
  (num_svds e < pos -> edid_get_svd_descriptor e pos = Ok None).
Proof.
  intros Hn Hpos. unfold edid_get_svd_descriptor. split_and!; intros Hlt.
  - destruct (Z.ltb_spec (num_svds e) pos); [lia|].
    destruct (rd_ok (svd_list e) pos) as [d Hd]; [lia|]. exists d. rewrite Hd.
    split; [done|]. by apply rd_inv in Hd as [_ ?].
  - destruct (Z.ltb_spec (num_svds e) pos); [lia|]. unfold rd.
    destruct (Z.ltb_spec pos 0); [done|]. rewrite lookup_ge_None_2; [done|lia].
  - destruct (Z.ltb_spec (num_svds e) pos); [done|lia].
Qed.

(** ** The list of 3D formats *)

(** What an entry of the list stands for: a format and the positions it
    applies to, in the order in which they were found. *)
Definition info_rep (e : hdmi_s3d_format_info_t) (f : Z)
    (vs : list hdmi_s3d_format_vic_info_t) : Prop :=
  format e = Some f /\ num_valid_vic e = Some (Z.of_nat (length vs)) /\
  vic_info e = (Some <$> vs) ++ replicate (MAX_VIC_CODES_PER_3D_FORMAT - length vs) None /\
  NoDup (vic_pos <$> vs) /\ Forall (fun v => 0 <= vic_pos v < 16) vs.

Definition formats_rep (l : list hdmi_s3d_format_info_t) (fs : list Z) : Prop :=
  Forall2 (fun e f => exists vs, info_rep e f vs) l fs.

(** The subsampling a list of positions assigns to each of them. *)
Definition vic_map (vs : list hdmi_s3d_format_vic_info_t) : gmap Z Z :=
  list_to_map ((fun v => (vic_pos v, subsampling v)) <$> vs).

Lemma positions_bounded (vs : list hdmi_s3d_format_vic_info_t) :
  NoDup (vic_pos <$> vs) -> Forall (fun v => 0 <= vic_pos v < 16) vs -> (length vs <= 16)%nat.
Proof.
  intros Hnd Hb. pose proof (NoDup_bounded (vic_pos <$> vs) 16 Hnd) as H.
  rewrite length_fmap in H. rewrite Forall_fmap in H. specialize (H Hb). lia.
Qed.

Lemma find_vic_cases (vs : list hdmi_s3d_format_vic_info_t) rest pos :
  (exists vs1 v vs2, vs = vs1 ++ v :: vs2 /\ vic_pos v = pos /\ (pos ∉ (vic_pos <$> vs1)) /\
     find_vic (length vs) ((Some <$> vs) ++ rest) pos = Ok (length vs1)) \/
  ((pos ∉ (vic_pos <$> vs)) /\
     find_vic (length vs) ((Some <$> vs) ++ rest) pos = Ok (length vs)).
Proof.
  induction vs as [|v vs IH].
  { right. split; [set_solver|done]. }
  cbn [length]. rewrite fmap_cons. cbn [app find_vic]. simpl use. unfold mbind at 1 3, outcome_bind at 1 3.
  destruct (Z.eqb_spec (vic_pos v) pos) as [He|Hne].
  - left. exists [], v, vs. split_and!; [done|done|set_solver|done].
  - destruct IH as [(vs1 & w & vs2 & -> & Hw & Hni & Hf)|[Hni Hf]].
    + left. exists (v :: vs1), w, vs2. rewrite Hf. split_and!; [done|done| |done].
      rewrite fmap_cons. set_solver.
    + right. rewrite Hf. split; [rewrite fmap_cons; set_solver|done].
Qed.

Lemma find_format_cases (l : list hdmi_s3d_format_info_t) (fs : list Z) (f : Z) :
  formats_rep l fs ->
  exists i, find_format l f = Ok i /\ (i <= length l)%nat /\
    ((i < length l)%nat <-> f ∈ fs) /\ (f ∈ fs -> fs !! i = Some f).
Proof.
  induction 1 as [|e f0 l fs (vs & Hf & _) Hl IH].
  { exists 0%nat. simpl. split_and!; [done|lia|set_solver by lia|set_solver]. }
  cbn [find_format]. rewrite Hf. simpl use. unfold mbind at 1, outcome_bind at 1.
  destruct (Z.eqb_spec f0 f) as [->|Hne].
  - exists 0%nat. simpl. split_and!; [done|lia| |done]. split; [set_solver|lia].
  - destruct IH as (i & Hi & Hle & Hiff & Hlook). exists (S i). rewrite Hi. simpl.
    split_and!; [done|lia| |].
    + rewrite elem_of_cons. split.
      * intros ?. right. apply Hiff. lia.
      * intros [->|H]; [done|]. apply Hiff in H. lia.
    + intros [->|H]%elem_of_cons; [done|]. simpl. auto.
Qed.

Lemma vic_map_snoc (vs : list hdmi_s3d_format_vic_info_t) (pos sub : Z) :
  pos ∉ (vic_pos <$> vs) -> vic_map (vs ++ [mk_vic pos sub]) = <[pos := sub]> (vic_map vs).
Proof.
  intros Hni. unfold vic_map. rewrite fmap_app, list_to_map_app. simpl.
  rewrite <- insert_union_r, map_union_empty; [done|].
  apply not_elem_of_list_to_map_1. rewrite <- list_fmap_compose. done.
Qed.

Lemma vic_map_update vs1 v vs2 (sub : Z) :
  vic_pos v ∉ (vic_pos <$> vs1) ->
  vic_map (vs1 ++ mk_vic (vic_pos v) sub :: vs2) = <[vic_pos v := sub]> (vic_map (vs1 ++ v :: vs2)).
Proof.
  intros Hni. unfold vic_map. rewrite !fmap_app, !list_to_map_app, !fmap_cons. simpl.
  rewrite insert_union_r by
    (apply not_elem_of_list_to_map_1; rewrite <- list_fmap_compose; done).
  by rewrite insert_insert_eq.
Qed.

Lemma update_info (e : hdmi_s3d_format_info_t) (f : Z) vs (pos sub : Z) :
  info_rep e f vs -> 0 <= pos < 16 ->
  exists n ix vics vs',
    num_valid_vic e = Some n /\ find_vic (Z.to_nat n) (vic_info e) pos = Ok ix /\
    wr (vic_info e) (Z.of_nat ix) (Some (mk_vic pos sub)) = Ok vics /\
    info_rep (set_vics (if n <=? Z.of_nat ix then n + 1 else n) vics e) f vs' /\
    vic_map vs' = <[pos := sub]> (vic_map vs).
Proof.
  intros (Hf & Hn & Hv & Hnd & Hb) Hpos.
  pose proof (positions_bounded vs Hnd Hb) as H16.
  set (rest := replicate _ _) in Hv.
  destruct (find_vic_cases vs rest pos) as [(vs1 & v & vs2 & -> & Hvp & Hni & Hix)|[Hni Hix]].
  - exists (Z.of_nat (length (vs1 ++ v :: vs2))), (length vs1).
    exists ((Some <$> (vs1 ++ mk_vic pos sub :: vs2)) ++ rest), (vs1 ++ mk_vic pos sub :: vs2).
    rewrite Nat2Z.id, Hv. split_and!; [done|done| | |].
    + rewrite wr_ok by (rewrite length_app, length_fmap, length_app; simpl; lia).
      rewrite Nat2Z.id, !fmap_app, !fmap_cons, <- !app_assoc.
      rewrite insert_app_r_alt by (rewrite length_fmap; lia).
      rewrite length_fmap, Nat.sub_diag. done.
    + rewrite length_app. simpl.
      destruct (Z.leb_spec (Z.of_nat (length vs1 + S (length vs2))) (Z.of_nat (length vs1))); [lia|].
      unfold info_rep, set_vics. simpl. rewrite !length_app in *. simpl in *.
      split_and!; [done|done|by unfold rest; rewrite length_app| |].
      * rewrite fmap_app, fmap_cons in *. simpl. by rewrite <- Hvp.
      * apply Forall_app in Hb as [Hb1 Hb2]. apply Forall_cons in Hb2 as [_ Hb2].
        apply Forall_app. split; [done|]. by constructor.
    + rewrite <- Hvp at 1 2. apply vic_map_update. by rewrite Hvp.
  - assert (length vs < 16)%nat as Hlt.
    { assert (length (vs ++ [mk_vic pos sub]) <= 16)%nat as H.
      { apply positions_bounded.
        - rewrite fmap_app. by apply NoDup_snoc.
        - apply Forall_app. split; [done|]. by apply Forall_singleton. }
      rewrite length_app in H. simpl in H. lia. }
    exists (Z.of_nat (length vs)), (length vs).
    exists ((Some <$> (vs ++ [mk_vic pos sub])) ++ replicate (15 - length vs) None).
    exists (vs ++ [mk_vic pos sub]).
    rewrite Nat2Z.id, Hv. split_and!; [done|done| | |].
    + rewrite wr_ok by (unfold rest; rewrite length_app, length_fmap, length_replicate;
        unfold MAX_VIC_CODES_PER_3D_FORMAT; lia).
      rewrite Nat2Z.id, insert_app_r_alt by (rewrite length_fmap; lia).
      rewrite length_fmap, Nat.sub_diag, fmap_app, <- app_assoc. unfold rest.
      replace (MAX_VIC_CODES_PER_3D_FORMAT - length vs)%nat with (S (15 - length vs))
        by (unfold MAX_VIC_CODES_PER_3D_FORMAT; lia).
      done.
    + rewrite Z.leb_refl. unfold info_rep, set_vics.
      cbn [format num_valid_vic vic_info]. rewrite length_app. cbn [length].
      split_and!; [done|f_equal; lia| | |].
      * do 2 f_equal. unfold MAX_VIC_CODES_PER_3D_FORMAT. lia.
      * rewrite fmap_app. by apply NoDup_snoc.
      * apply Forall_app. split; [done|]. by apply Forall_singleton.
    + by apply vic_map_snoc.
Qed.

Lemma update_s3d_format_rep (e : edid_t) (fs : list Z) (fmt pos sub : Z) :
  formats_rep (s3d_format_list e) fs -> 0 <= pos < 16 ->
  exists l', update_s3d_format e fmt pos sub = Ok (set_s3d_formats l' e) /\ formats_rep l' fs.
Proof.
  intros Hrep Hpos. unfold update_s3d_format.
  assert (set_s3d_formats (s3d_format_list e) e = e) as Hid by (destruct e; done).
  destruct (Z.ltb_spec (num_svds e) pos).
  { exists (s3d_format_list e). by rewrite Hid. }
  destruct (find_format_cases _ fs fmt Hrep) as (ix & Hix & _). rewrite Hix.
  unfold mbind at 1, outcome_bind at 1.
  destruct (s3d_format_list e !! ix) as [i|] eqn:Hi.
  2:{ exists (s3d_format_list e). by rewrite Hid. }
  destruct (Forall2_lookup_l _ _ _ _ _ Hrep Hi) as (f & Hf & vs & Hvs).
  destruct (update_info i f vs pos sub Hvs Hpos) as (n & k & vics & vs' & Hn & Hk & Hw & Hr & _).
  rewrite Hn. simpl use. unfold mbind, outcome_bind. rewrite Hk, Hw.
  eexists. split; [done|]. replace fs with (<[ix := f]> fs) by (by apply list_insert_id).
  apply Forall2_insert; [done|]. by exists vs'.
Qed.

(** An update of a format that is in the list sets the subsampling of the
    position, in place when the position was known and at the end otherwise;
    the sixteen places of [vic_info] are always enough, because the positions
    stay distinct four-bit numbers. *)
Theorem update_s3d_format_sets (e : edid_t) (fs : list Z) (fmt pos sub : Z) (ix : nat) i vs :
  formats_rep (s3d_format_list e) fs -> NoDup fs ->
  s3d_format_list e !! ix = Some i -> info_rep i fmt vs ->
  0 <= pos < 16 -> pos <= num_svds e ->
  exists i' vs', update_s3d_format e fmt pos sub
      = Ok (set_s3d_formats (<[ix := i']> (s3d_format_list e)) e) /\
    info_rep i' fmt vs' /\ vic_map vs' = <[pos := sub]> (vic_map vs).
Proof.
  intros Hrep Hnd Hi Hvs Hpos Hle. unfold update_s3d_format.
  destruct (Z.ltb_spec (num_svds e) pos); [lia|].
  destruct (Forall2_lookup_l _ _ _ _ _ Hrep Hi) as (f & Hf & vs0 & Hvs0).
  assert (f = fmt) as -> by (destruct Hvs0 as [? _], Hvs as [? _]; congruence).
  destruct (find_format_cases _ fs fmt Hrep) as (k & Hk & _ & _ & Hlook).
  assert (k = ix) as ->.
  { eapply NoDup_lookup; [done| |done]. apply Hlook. by eapply list_elem_of_lookup_2. }
  rewrite Hk. unfold mbind at 1, outcome_bind at 1. rewrite Hi.
  destruct (update_info i fmt vs pos sub Hvs Hpos) as (n & p & vics & vs' & Hn & Hp & Hw & Hr & Hm).
  rewrite Hn. simpl use. unfold mbind, outcome_bind. rewrite Hp, Hw. eauto.
Qed.

(** *** The 3D part of the vendor block *)

(** A 2D-VIC entry: position, 3D structure and, from structure 8 on, a detail byte. *)
Record s3d_entry := mk_entry { en_pos : Z; en_fmt : Z; en_detail : Z }.

Definition valid_format (f : Z) : Prop := 0 <= f <= 6 \/ f = 8.

Definition entry_ok (en : s3d_entry) : Prop :=
  0 <= en_pos en < 16 /\ valid_format (en_fmt en) /\ 0 <= en_detail en < 16.

Definition encode_entry (en : s3d_entry) : list Z :=
  if 8 <=? en_fmt en then [16 * en_pos en + en_fmt en; 16 * en_detail en]
  else [16 * en_pos en + en_fmt en].

Definition encode_entries (es : list s3d_entry) : list Z := es ≫= encode_entry.

(** [data] holds the bytes [w] from [off] on. *)
Definition holds (data : list Z) (off : Z) (w : list Z) : Prop :=
  forall k v, w !! k = Some v -> rd data (off + Z.of_nat k) = Ok v.

Lemma holds_cons data off b w :
  holds data off (b :: w) <-> rd data off = Ok b /\ holds data (off + 1) w.
Proof.
  unfold holds. split.
  - intros H. split; [specialize (H 0%nat b eq_refl); by rewrite Z.add_0_r in H|].
    intros k v Hk. specialize (H (S k) v Hk). rewrite <- H. f_equal. lia.
  - intros [H0 H] [|k] v Hk; simpl in Hk.
    + injection Hk as ->. by rewrite Z.add_0_r.
    + specialize (H k v Hk). rewrite <- H. f_equal. lia.
Qed.

Lemma low_nibble (p f : Z) : 0 <= f < 16 -> ((16 * p + f) & 0x0F) = f.
Proof.
  intros. change 0x0F with (Z.ones 4). rewrite Z.land_ones by lia. change (2 ^ 4) with 16.
  rewrite Z.add_comm, Z.mul_comm, Z_mod_plus_full. apply Z.mod_small. lia.
Qed.

Lemma high_nibble (p f : Z) : 0 <= p < 16 -> 0 <= f < 16 -> ((16 * p + f) & 0xF0) >> 4 = p.
Proof.
  intros. rewrite Z.shiftr_land. change (Z.shiftr 0xF0 4) with (Z.ones 4).
  rewrite Z.shiftr_div_pow2, Z.land_ones by lia. change (2 ^ 4) with 16.
  rewrite Z.mul_comm, Z.div_add_l, (Z.div_small f) by lia. rewrite Z.add_0_r.
  apply Z.mod_small. lia.
Qed.

Lemma valid_format_range (f : Z) : valid_format f -> 0 <= f < 16.
Proof. unfold valid_format. lia. Qed.

Definition or_formats (es : list s3d_entry) (bits : Z) : Z :=
  foldl (fun b en => b |' (1 << en_fmt en)) bits es.

Lemma lor_bit_range (b f n : Z) : 0 <= b < 2 ^ n -> 0 <= f < n -> 0 <= (b |' (1 << f)) < 2 ^ n.
Proof.
  intros Hb Hf. rewrite Z.shiftl_1_l. split; [apply Z.lor_nonneg; lia|].
  assert (2 ^ f < 2 ^ n) by (apply Z.pow_lt_mono_r; lia).
  destruct (Z.eq_dec (b |' 2 ^ f) 0) as [->|Hne]; [lia|].
  assert (0 <= (b |' 2 ^ f)) by (apply Z.lor_nonneg; lia).
  apply Z.log2_lt_pow2; [lia|]. rewrite Z.log2_lor by lia.
  rewrite Z.log2_pow2 by lia.
  destruct (Z.eq_dec b 0) as [->|]; [simpl; lia|].
  apply Z.max_lub_lt; [apply Z.log2_lt_pow2; lia|lia].
Qed.

Lemma set_bits_entries (fuel : nat) data off es bits :
  Forall entry_ok es -> holds data off (encode_entries es) ->
  (length (encode_entries es) <= fuel)%nat -> 0 <= bits < 2 ^ 16 ->
  set_s3d_format_bits_loop fuel data off (Z.of_nat (length (encode_entries es))) bits
    = Ok (or_formats es bits) /\ 0 <= or_formats es bits < 2 ^ 16.
Proof.
  revert fuel off bits. induction es as [|en es IH]; intros fuel off bits Hok Hd Hfuel Hbits.
  { destruct fuel; done. }
  apply Forall_cons in Hok as [(Hp & Hv & Hdt) Hes].
  apply valid_format_range in Hv as Hr.
  change (encode_entries (en :: es)) with (encode_entry en ++ encode_entries es) in *.
  pose proof (lor_bit_range bits (en_fmt en) 16 Hbits Hr) as Hlor.
  destruct fuel as [|fuel].
  { rewrite length_app in Hfuel. unfold encode_entry in Hfuel.
    destruct (8 <=? en_fmt en); simpl in Hfuel; lia. }
  unfold encode_entry in *. cbn [set_s3d_format_bits_loop]. unfold HDMI_SIDE_BY_SIDE_HALF.
  destruct (8 <=? en_fmt en) eqn:E8; cbn [app length] in *;
    (match goal with |- context [?n <=? 0] => destruct (Z.leb_spec n 0); [lia|] end).
  - apply holds_cons in Hd as [H0 Hd]. apply holds_cons in Hd as [_ Hd].
    rewrite H0. unfold mbind, outcome_bind. rewrite low_nibble by lia. rewrite E8.
    rewrite wrapU_small by done.
    replace (Z.of_nat (S (S (length (encode_entries es)))) - 2)
      with (Z.of_nat (length (encode_entries es))) by lia.
    apply IH; [done|done|lia|done].
  - apply holds_cons in Hd as [H0 Hd].
    rewrite H0. unfold mbind, outcome_bind. rewrite low_nibble by lia. rewrite E8.
    rewrite wrapU_small by done.
    replace (Z.of_nat (S (length (encode_entries es))) - 1)
      with (Z.of_nat (length (encode_entries es))) by lia.
    apply IH; [done|done|lia|done].
Qed.

Lemma per_vic_loop_entries (fuel : nat) data off es e fs :
  Forall entry_ok es -> holds data off (encode_entries es) -> (length es <= fuel)%nat ->
  Z.of_nat (length (encode_entries es)) < 256 -> formats_rep (s3d_format_list e) fs ->
  exists l', per_vic_loop fuel data e off (Z.of_nat (length (encode_entries es)))
      = Ok (set_s3d_formats l' e) /\ formats_rep l' fs.
Proof.
  revert fuel off e. induction es as [|en es IH]; intros fuel off e Hok Hd Hfuel Hlen Hrep.
  { exists (s3d_format_list e). destruct fuel, e; done. }
  apply Forall_cons in Hok as [(Hp & Hv & Hdt) Hes].
  apply valid_format_range in Hv as Hr.
  change (encode_entries (en :: es)) with (encode_entry en ++ encode_entries es) in *.
  destruct fuel as [|fuel]; [simpl in Hfuel; lia|]. unfold encode_entry in *.
  cbn [per_vic_loop]. unfold HDMI_SIDE_BY_SIDE_HALF.
  destruct (8 <=? en_fmt en) eqn:E8; cbn [app length] in *;
    (match goal with |- context [0 <? ?n] => destruct (Z.ltb_spec 0 n); [|lia] end);
    simpl negb; cbv iota.
  - apply holds_cons in Hd as [H0 Hd]. apply holds_cons in Hd as [H1 Hd].
    rewrite H0. unfold mbind at 1, outcome_bind at 1.
    rewrite low_nibble, high_nibble, E8, H1 by lia. unfold mbind, outcome_bind.
    match goal with |- context [update_s3d_format e ?f ?p ?s] =>
      destruct (update_s3d_format_rep e fs f p s Hrep Hp) as (l' & -> & Hl') end.
    rewrite (wrapU_small 8 (Z.of_nat _ - 1)) by (change (2 ^ 8) with 256; lia).
    rewrite wrapU_small by (change (2 ^ 8) with 256; lia).
    replace (Z.of_nat (S (S (length (encode_entries es)))) - 1 - 1)
      with (Z.of_nat (length (encode_entries es))) by lia.
    apply (IH fuel (off + 1 + 1) (set_s3d_formats l' e)); [done|done|simpl in Hfuel; lia|lia|done].
  - apply holds_cons in Hd as [H0 Hd].
    rewrite H0. unfold mbind at 1, outcome_bind at 1.
    rewrite low_nibble, high_nibble, E8 by lia. unfold mbind, outcome_bind.
    match goal with |- context [update_s3d_format e ?f ?p ?s] =>
      destruct (update_s3d_format_rep e fs f p s Hrep Hp) as (l' & -> & Hl') end.
    rewrite wrapU_small by (change (2 ^ 8) with 256; lia).
    replace (Z.of_nat (S (length (encode_entries es))) - 1)
      with (Z.of_nat (length (encode_entries es))) by lia.
    apply (IH fuel (off + 1) (set_s3d_formats l' e)); [done|done|simpl in Hfuel; lia|lia|done].
Qed.

Lemma fill_formats_ok (ixs : list Z) (bits : Z) (dn : list hdmi_s3d_format_info_t) :
  Forall (fun i => 0 <= i) ixs ->
  let on := filter (fun i => Z.testbit bits i = true) ixs in
  fill_formats ixs bits (Z.of_nat (length dn))
    (dn ++ replicate (length on) malloced_s3d_format_info)
  = Ok (dn ++ ((fun i => set_format i malloced_s3d_format_info) <$> on)).
Proof.
  revert dn. induction ixs as [|i ixs IH]; intros dn Hpos on.
  { simpl. done. }
  apply Forall_cons in Hpos as [Hi Hpos]. cbn [fill_formats]. rewrite land_bit by done.
  subst on. rewrite filter_cons. destruct (Z.testbit bits i) eqn:Hb.
  - rewrite decide_True by done. cbn [length replicate].
    rewrite rd_app_mid by done. unfold mbind, outcome_bind.
    rewrite wr_ok by (rewrite length_app; simpl; lia).
    rewrite Nat2Z.id, insert_app_r_alt, Nat.sub_diag by lia. cbn [insert list_insert].
    specialize (IH (dn ++ [set_format i malloced_s3d_format_info]) Hpos).
    cbn zeta in IH. rewrite length_app, <- !app_assoc in IH. cbn [app length] in IH.
    rewrite fmap_cons, <- IH. f_equal. lia.
  - rewrite decide_False by congruence. by apply IH.
Qed.

Lemma fill_vics_ok (js : list Z) (fmt all posb : Z) (sub : option Z)
    (vs : list hdmi_s3d_format_vic_info_t) (k : nat) :
  0 <= fmt -> Forall (fun j => 0 <= j) js -> (Z.testbit all fmt = true -> is_Some sub) ->
  let nw := if Z.testbit all fmt
    then (fun j => mk_vic j (default 0 sub)) <$> filter (fun j => Z.testbit posb j = true) js
    else [] in
  (length nw <= k)%nat ->
  fill_vics js fmt all posb sub (Z.of_nat (length vs)) ((Some <$> vs) ++ replicate k None)
  = Ok (Z.of_nat (length (vs ++ nw)), (Some <$> (vs ++ nw)) ++ replicate (k - length nw) None).
Proof.
  intros Hf. revert vs k. induction js as [|j js IH]; intros vs k Hjs Hsub nw Hk.
  { subst nw. simpl. destruct (Z.testbit all fmt); simpl; rewrite app_nil_r, Nat.sub_0_r; done. }
  apply Forall_cons in Hjs as [Hj Hjs]. cbn [fill_vics]. rewrite !land_bit by done.
  specialize (fun vs k => IH vs k Hjs Hsub). subst nw.
  destruct (Z.testbit all fmt) eqn:Ha; [|by apply IH]. cbn [andb].
  destruct (Hsub eq_refl) as [ss ->]. rewrite filter_cons in *.
  destruct (Z.testbit posb j) eqn:Hb.
  - rewrite decide_True in * by done. rewrite fmap_cons in *. cbn [length] in Hk.
    simpl use. unfold mbind at 1, outcome_bind at 1.
    rewrite wr_ok by (rewrite length_app, length_fmap, length_replicate; lia).
    rewrite Nat2Z.id, insert_app_r_alt by (rewrite length_fmap; lia).
    rewrite length_fmap, Nat.sub_diag.
    destruct k as [|k]; [lia|]. cbn [replicate insert list_insert].
    unfold mbind, outcome_bind.
    specialize (IH (vs ++ [mk_vic j ss]) k). cbn zeta iota in IH. rewrite !fmap_app, <- !app_assoc in IH.
    cbn [fmap list_fmap app] in IH. rewrite length_app in IH. cbn [length] in IH.
    replace (Z.of_nat (length vs) + 1) with (Z.of_nat (length vs + 1)) by lia.
    rewrite IH by lia. cbn [length Nat.sub].
    rewrite !fmap_app, <- !app_assoc. cbn [fmap list_fmap app]. done.
  - rewrite decide_False in * by congruence. by apply IH.
Qed.

Lemma format_subsampling_some (fmt all : Z) :
  Z.testbit all fmt = true -> is_Some (format_subsampling fmt all).
Proof.
  intros Ht. unfold format_subsampling.
  destruct (Z.eqb_spec fmt HDMI_SIDE_BY_SIDE_HALF) as [->|]; [|by case_match].
  set (bm := _ |' _).
  assert ((all & bm) = (if Z.testbit all 15 then 1 << 15 else 0) |' (1 << 8)) as ->.
  { unfold bm, HDMI_SIDE_BY_SIDE_HALF_QUINCUNX_BIT, HDMI_SIDE_BY_SIDE_HALF_BIT.
    rewrite Z.land_lor_distr_r, !land_bit_eq by (unfold HDMI_SIDE_BY_SIDE_HALF; lia).
    by rewrite Ht. }
  destruct (Z.testbit all 15); eexists; vm_compute; reflexivity.
Qed.

Lemma bit_positions_facts : NoDup bit_positions /\ Forall (fun j => 0 <= j < 16) bit_positions.
Proof.
  split.
  - apply NoDup_fmap_2; [apply _|apply NoDup_seq].
  - apply Forall_forall. intros x (n & -> & Hn)%list_elem_of_fmap. apply elem_of_seq in Hn. lia.
Qed.

Lemma fill_format_vics_ok (fs : list Z) (all posb : Z) :
  Forall (fun f => 0 <= f) fs ->
  exists l, fill_format_vics ((fun i => set_format i malloced_s3d_format_info) <$> fs) all posb = Ok l /\
    formats_rep l fs.
Proof.
  induction fs as [|f fs IH]; intros Hfs.
  { exists []. split; [done|constructor]. }
  apply Forall_cons in Hfs as [Hf Hfs]. destruct (IH Hfs) as (l & Hl & Hrep).
  rewrite fmap_cons. cbn [fill_format_vics format set_format use]. unfold mbind at 1, outcome_bind at 1.
  destruct bit_positions_facts as [Hnd Hr].
  assert (Forall (fun j => 0 <= j) bit_positions) as Hge
    by (eapply Forall_impl; [exact Hr|simpl; lia]).
  pose proof (fill_vics_ok bit_positions f all posb (format_subsampling f all) [] 16 Hf Hge
    (format_subsampling_some f all)) as Hv.
  set (nw := if Z.testbit all f then _ else _) in Hv. cbn zeta in Hv.
  assert (NoDup (vic_pos <$> nw) /\ Forall (fun v => 0 <= vic_pos v < 16) nw) as [Hn1 Hn2].
  { subst nw. destruct (Z.testbit all f); [|split; constructor].
    rewrite <- list_fmap_compose.
    assert (forall g : list Z, (vic_pos ∘ (fun j => mk_vic j (default 0 (format_subsampling f all)))) <$> g = g)
      as Hid by (intros g; rewrite <- (list_fmap_id g) at 2; done).
    rewrite Hid. split; [by apply NoDup_filter|].
    apply Forall_fmap, Forall_forall. intros j [_ Hj]%list_elem_of_filter.
    rewrite Forall_forall in Hr. by apply Hr. }
  pose proof (positions_bounded nw Hn1 Hn2) as Hlen.
  specialize (Hv Hlen). cbn [app length fmap list_fmap] in Hv.
  change (Z.of_nat 0) with 0 in Hv.
  cbn [vic_info malloced_s3d_format_info set_format]. unfold MAX_VIC_CODES_PER_3D_FORMAT.
  rewrite Hv. unfold mbind, outcome_bind. rewrite Hl. eexists. split; [done|].
  constructor; [|done]. exists nw. split_and!; done.
Qed.

Lemma or_formats_bits (es : list s3d_entry) (bits i : Z) :
  Forall entry_ok es -> 0 <= i ->
  (Z.testbit (or_formats es bits) i = true <-> Z.testbit bits i = true \/ i ∈ (en_fmt <$> es)).
Proof.
  intros Hok Hi. revert bits. induction Hok as [|en es (_ & Hv & _) _ IH]; intros bits.
  { simpl. rewrite elem_of_nil. naive_solver. }
  cbn [or_formats foldl]. fold (or_formats es). unfold or_formats in IH. rewrite IH.
  apply valid_format_range in Hv.
  rewrite Z.lor_spec, Z.shiftl_1_l, Z.pow2_bits_eqb, orb_true_iff, Z.eqb_eq by lia.
  rewrite fmap_cons, elem_of_cons. naive_solver.
Qed.

Lemma or_formats_range (es : list s3d_entry) (bits : Z) :
  Forall entry_ok es -> 0 <= bits < 2 ^ 9 -> 0 <= or_formats es bits < 2 ^ 9.
Proof.
  intros Hok. revert bits. induction Hok as [|en es (_ & Hv & _) _ IH]; intros bits Hb; [done|].
  apply IH. apply lor_bit_range; [done|]. unfold valid_format in Hv. lia.
Qed.

Lemma elem_of_set_positions (n : nat) (v f : Z) :
  f ∈ set_positions n v <-> Z.testbit v f = true /\ 0 <= f < Z.of_nat n.
Proof.
  unfold set_positions. rewrite list_elem_of_filter, list_elem_of_fmap.
  setoid_rewrite elem_of_seq. split.
  - intros [? (m & -> & ?)]. split; [done|lia].
  - intros [? ?]. split; [done|]. exists (Z.to_nat f). lia.
Qed.

(** The bit masks that open the 3D part, by [3D_Multi_present]. *)
Definition mask_bytes (mp all posb : Z) : list Z :=
  if mp =? 1 then [all / 256; all mod 256]
  else if mp =? 2 then [all / 256; all mod 256; posb / 256; posb mod 256]
  else [].

(** The formats of the mask that applies; bit 15 is only a subsampling of bit 8. *)
Definition mask_of (mp all : Z) : Z := if (mp =? 1) || (mp =? 2) then all else 0.

Lemma be16 (v : Z) : 0 <= v < 2 ^ 16 -> u16 (((v / 256) << 8) |' (v mod 256)) = v.
Proof.
  intros Hv. rewrite Z.shiftl_mul_pow2 by lia. change (2 ^ 8) with 256.
  replace ((v / 256 * 256) |' (v mod 256)) with v; [by apply wrapU_small|].
  assert ((v / 256 * 256) & (v mod 256) = 0) as H0.
  { change 256 with (2 ^ 8). rewrite <- Z.shiftl_mul_pow2, <- Z.land_ones by lia.
    apply Z.bits_inj'. intros i Hi. rewrite !Z.land_spec, Z.testbit_0_l, Z.shiftl_spec by lia.
    destruct (Z.lt_ge_cases i 8).
    - by rewrite (Z.testbit_neg_r _ (i - 8)) by lia.
    - rewrite Z.ones_spec_high by lia. by rewrite !andb_false_r. }
  rewrite <- Z.lxor_lor by done. rewrite <- Z.add_nocarry_lxor by done.
  rewrite Z.mul_comm. apply Z.div_mod. lia.
Qed.

Lemma parse_masks data off mp all posb w len :
  0 <= all < 2 ^ 16 -> 0 <= posb < 2 ^ 16 ->
  holds data off (mask_bytes mp all posb ++ w) ->
  len = Z.of_nat (length (mask_bytes mp all posb ++ w)) -> len < 32 ->
  exists posb' off', holds data off' w /\ forall fuel e,
    parse_s3d_formats fuel e data off mp len =
    (s3d_struct_bits ← set_s3d_format_bits data off' (Z.of_nat (length w)) (mask_of mp all & 0x7FFF);
     n ← count_set_bits s3d_struct_bits;
     l ← fill_formats (Z.of_nat <$> seq 0 9) s3d_struct_bits 0
           (replicate (Z.to_nat n) malloced_s3d_format_info);
     l ← fill_format_vics l (mask_of mp all) posb';
     per_vic_loop fuel data
       (mk_edid (s3d_capable e) n l (num_svds e) (svd_list e)) off' (Z.of_nat (length w))).
Proof.
  intros Hall Hpos Hd Hlen Hlt. unfold mask_bytes, mask_of, parse_s3d_formats in *.
  destruct (Z.eqb_spec mp 1) as [->|H1]; [|destruct (Z.eqb_spec mp 2) as [->|H2]].
  - change (1 =? 2) with false. cbn [orb app length] in *.
    apply holds_cons in Hd as [Ha Hd]. apply holds_cons in Hd as [Hb Hd].
    exists 0xFFFF, (off + 1 + 1). split; [done|]. intros fuel e.
    rewrite Ha, Hb. unfold mbind, outcome_bind. rewrite be16 by done.
    rewrite wrapU_small by (change (2 ^ 8) with 256; lia).
    replace (len - 2) with (Z.of_nat (length w)) by lia.
    by replace (off + 2) with (off + 1 + 1) by lia.
  - cbn [orb app length] in *.
    apply holds_cons in Hd as [Ha Hd]. apply holds_cons in Hd as [Hb Hd].
    apply holds_cons in Hd as [Hc Hd]. apply holds_cons in Hd as [Hf Hd].
    exists posb, (off + 1 + 1 + 1 + 1). split; [done|]. intros fuel e.
    replace (off + 2) with (off + 1 + 1) by lia.
    rewrite Ha, Hb. unfold mbind, outcome_bind. rewrite Hc, Hf, !be16 by done.
    rewrite (wrapU_small 8 (len - 2)) by (change (2 ^ 8) with 256; lia).
    rewrite wrapU_small by (change (2 ^ 8) with 256; lia).
    replace (len - 2 - 2) with (Z.of_nat (length w)) by lia.
    by replace (off + 1 + 1 + 2) with (off + 1 + 1 + 1 + 1) by lia.
  - cbn [orb app length] in *. exists 0, off. split; [done|]. intros fuel e. by subst len.
Qed.

Lemma mask_low_bits (mp all : Z) :
  0 <= all < 2 ^ 16 ->
  (forall i, 0 <= i < 15 -> Z.testbit all i = true -> valid_format i) ->
  0 <= (mask_of mp all & 0x7FFF) < 2 ^ 9 /\
  forall i, 0 <= i ->
    Z.testbit (mask_of mp all & 0x7FFF) i = true <-> i < 15 /\ Z.testbit (mask_of mp all) i = true.
Proof.
  intros Hall Hvalid.
  assert (forall i, 0 <= i ->
    Z.testbit (mask_of mp all & 0x7FFF) i = true <-> i < 15 /\ Z.testbit (mask_of mp all) i = true) as Hm.
  { intros i Hi. change 0x7FFF with (Z.ones 15).
    rewrite Z.land_spec, andb_true_iff. destruct (Z.lt_ge_cases i 15).
    - rewrite Z.ones_spec_low by lia. naive_solver.
    - rewrite Z.ones_spec_high by lia. split; [naive_solver|lia]. }
  split; [|done].
  assert (0 <= (mask_of mp all & 0x7FFF)) by (apply Z.land_nonneg; lia). split; [done|].
  apply bits_above_lt; [done|lia|]. intros i Hi. apply not_true_iff_false.
  rewrite Hm by lia. unfold mask_of. intros [Hi15 Ht].
  destruct ((mp =? 1) || (mp =? 2)); [|by rewrite Z.testbit_0_l in Ht].
  specialize (Hvalid i ltac:(lia) Ht). unfold valid_format in Hvalid. lia.
Qed.

Lemma listed_positions (mp all : Z) (es : list s3d_entry) (f : Z) :
  0 <= all < 2 ^ 16 ->
  (forall i, 0 <= i < 15 -> Z.testbit all i = true -> valid_format i) ->
  Forall entry_ok es ->
  f ∈ set_positions 9 (or_formats es (mask_of mp all & 0x7FFF)) <->
  (0 <= f < 15 /\ Z.testbit (mask_of mp all) f = true \/ f ∈ (en_fmt <$> es)).
Proof.
  intros Hall Hvalid Hes. destruct (mask_low_bits mp all Hall Hvalid) as [_ Hm].
  assert (forall x, x ∈ (en_fmt <$> es) -> valid_format x) as Hve.
  { intros x (en & -> & Hin)%list_elem_of_fmap. rewrite Forall_forall in Hes. by apply Hes. }
  rewrite elem_of_set_positions.
  destruct (Z.lt_ge_cases f 0) as [Hneg|Hnn].
  { split; [lia|]. intros [?|Hin]; [lia|]. apply Hve, valid_format_range in Hin. lia. }
  rewrite or_formats_bits, Hm by done. change (Z.of_nat 9) with 9. split.
  - naive_solver lia.
  - intros [[H15 Ht]|Hin].
    + split; [tauto|]. split; [lia|].
      destruct (Z.lt_ge_cases f 9) as [|Hge]; [done|exfalso].
      unfold mask_of in Ht. destruct ((mp =? 1) || (mp =? 2)); [|by rewrite Z.testbit_0_l in Ht].
      specialize (Hvalid f H15 Ht). unfold valid_format in Hvalid. lia.
    + split; [tauto|]. specialize (Hve f Hin). unfold valid_format in Hve. lia.
Qed.

(** C36: on a well-formed 3D part (bit masks, then entries of one or two bytes),
    the parser succeeds, and a format is reported as supported exactly when the
    applicable bit mask or an entry lists it. *)
Theorem s3d_formats_listed (fuel : nat) e data off mp all posb es :
  0 <= all < 2 ^ 16 -> 0 <= posb < 2 ^ 16 ->
  (forall i, 0 <= i < 15 -> Z.testbit all i = true -> valid_format i) ->
  Forall entry_ok es -> (length es <= fuel)%nat ->
  holds data off (mask_bytes mp all posb ++ encode_entries es) ->
  Z.of_nat (length (mask_bytes mp all posb ++ encode_entries es)) < 32 ->
  exists e', parse_s3d_formats fuel e data off mp
      (Z.of_nat (length (mask_bytes mp all posb ++ encode_entries es))) = Ok e' /\
    num_s3d_formats e' = Z.of_nat (length (s3d_format_list e')) /\
    forall f, edid_supports_s3d_format e' f =
      Ok (bool_decide (0 <= f < 15 /\ Z.testbit (mask_of mp all) f = true \/
                       f ∈ (en_fmt <$> es))).
Proof.
  intros Hall Hpos Hvalid Hes Hfuel Hd Hlt.
  destruct (parse_masks data off mp all posb (encode_entries es) _ Hall Hpos Hd eq_refl Hlt)
    as (posb' & off' & Hd' & Hparse).
  rewrite Hparse. clear Hparse. rewrite length_app in Hlt.
  destruct (mask_low_bits mp all Hall Hvalid) as [Hm9 _].
  pose proof (fun f => listed_positions mp all es f Hall Hvalid Hes) as Hlisted.
  set (m := mask_of mp all & 0x7FFF) in *.
  destruct (set_bits_entries (length (encode_entries es)) data off' es m Hes Hd' ltac:(lia))
    as [Hbits Hrange]; [lia|].
  set (bits := or_formats es m) in *.
  pose proof (or_formats_range es m Hes Hm9) as H9. fold bits in H9.
  unfold set_s3d_format_bits. rewrite Nat2Z.id, Hbits. unfold mbind at 1, outcome_bind at 1.
  rewrite count_set_bits_ones by done. unfold mbind at 1, outcome_bind at 1.
  rewrite <- (set_positions_length 9 bits H9), Nat2Z.id.
  pose proof (fill_formats_ok (Z.of_nat <$> seq 0 9) bits []) as Hfill.
  cbn zeta in Hfill. fold (set_positions 9 bits) in Hfill. cbn [app length] in Hfill.
  change (Z.of_nat 0) with 0 in Hfill. rewrite Hfill by
    (apply Forall_forall; intros x (k & -> & _)%list_elem_of_fmap; lia).
  unfold mbind at 1, outcome_bind at 1.
  destruct (fill_format_vics_ok (set_positions 9 bits) (mask_of mp all) posb') as (l & Hl & Hrep).
  { apply Forall_forall. intros x [_ ?]%elem_of_set_positions. lia. }
  rewrite Hl. unfold mbind, outcome_bind.
  match goal with |- context [per_vic_loop fuel data ?e0 off' _] =>
    destruct (per_vic_loop_entries fuel data off' es e0 _ Hes Hd' Hfuel ltac:(lia) Hrep)
      as (l' & -> & Hrep') end.
  eexists. split; [done|]. cbn [set_s3d_formats num_s3d_formats s3d_format_list]. split.
  { f_equal. symmetry. by eapply Forall2_length. }
  intros f. unfold edid_supports_s3d_format. cbn [set_s3d_formats s3d_format_list].
  destruct (find_format_cases l' _ f Hrep') as (i & -> & _ & Hiff & _).
  unfold mbind, outcome_bind. f_equal. apply bool_decide_ext. by rewrite Hiff, Hlisted.
Qed.

(** ** A length that wraps

    A vendor block whose 3D part is one byte long and holds one entry with
    structure 8: the detail byte takes the [uint8_t] length from 0 to 255. *)
Definition short_vendor_block : datablock :=
  mk_block DATABLOCK_VENDOR [3; 12; 0; 16; 0; 0; 0; 0x20; 0x80; 0x01; 0x18].

Definition short_vendor_edid : list Z :=
  edid_image (replicate 0x7e 0) 1 0 2 3 0 [short_vendor_block] (replicate 112 0).

(** On this 256-byte EDID the bits are collected within bounds (the length
    there is a signed int), but the loop over the entries runs past the end. *)
Theorem edid_3d_length_wraps :
  length short_vendor_edid = 256%nat /\
  set_s3d_format_bits short_vendor_edid 0x8f 1 0 = Ok 0x100 /\
  edid_parser_init 256 false true short_vendor_edid = Fault OutOfBounds.
Proof. split_and!; vm_compute; reflexivity. Qed.

(** ** Concrete instances *)

Definition sample_blocks : list datablock :=
  [mk_block DATABLOCK_AUDIO [0x09; 0x07; 0x07]; mk_block DATABLOCK_VIDEO [0x84; 0x05; 0x10];
   mk_block DATABLOCK_VENDOR [3; 12; 0; 16; 0; 0; 0; 0x20; 0x80; 0x02; 0x18; 0x10]].

Definition sample_edid : list Z :=
  edid_image (replicate 0x7e 0) 1 0 2 3 0 sample_blocks (replicate 103 0).

Lemma sample_image_ok : image_ok (replicate 0x7e 0) 1 sample_blocks.
Proof.
  split_and!; [done|done| |vm_compute; congruence].
  repeat constructor; vm_compute; congruence.
Qed.

Lemma count_set_bits_popcount_witness : count_set_bits 0xB5 = Ok 5.
Proof. refine (count_set_bits_popcount 0xB5 _). split; vm_compute; congruence. Defined.

Lemma edid_get_datablock_offset_finds_witness :
  edid_get_datablock_offset 3 sample_edid DATABLOCK_VENDOR = Ok (Some 0x8c).
Proof.
  exact (edid_get_datablock_offset_finds 3 (replicate 0x7e 0) 1 0 2 3 0 sample_blocks
    (replicate 103 0) DATABLOCK_VENDOR sample_image_ok (le_n 3)).
Defined.

Lemma edid_get_datablock_offset_terminates_witness :
  exists r, forall fuel, (0x60 <= fuel)%nat ->
    edid_get_datablock_offset fuel sample_edid DATABLOCK_SPEAKERS = Ok r.
Proof.
  apply (edid_get_datablock_offset_terminates sample_edid DATABLOCK_SPEAKERS 0x19);
    [reflexivity|reflexivity|lia].
Defined.

Definition looping_edid : list Z :=
  replicate 0x7e 0 ++ [1; 0; 2; 3; 0x80; 0] ++ replicate 124 0.

Lemma looping_headers off : header_at looping_edid off >> 5 <> DATABLOCK_VIDEO.
Proof.
  assert (Forall (fun b => b >> 5 <> DATABLOCK_VIDEO) looping_edid) as Hf by (apply (bool_decide_unpack _); vm_compute; exact I).
  unfold header_at. destruct (looping_edid !! Z.to_nat off) as [v|] eqn:Hv; simpl; [|discriminate].
  rewrite Forall_lookup in Hf. exact (Hf _ _ Hv).
Qed.

Lemma edid_get_datablock_offset_diverges_witness :
  rd looping_edid 0x82 = Ok 0x80 /\
  forall fuel, edid_get_datablock_offset fuel looping_edid DATABLOCK_VIDEO = Fault OutOfFuel.
Proof.
  split; [reflexivity|].
  apply (edid_get_datablock_offset_diverges looping_edid DATABLOCK_VIDEO 0x80);
    [reflexivity|discriminate|reflexivity|lia|].
  intros n. apply looping_headers.
Defined.

Lemma edid_parse_svds_shifted_witness :
  code <$> [svd_of 0x43; svd_of 0x84; svd_of 5] = [0x43; 4; 5] /\
  edid_parse_svds 3 zeroed_edid sample_edid
  = Ok (mk_edid false 0 [] 3 [svd_of 0x43; svd_of 0x84; svd_of 5]).
Proof.
  split; [reflexivity|].
  refine (edid_parse_svds_shifted 3 (replicate 0x7e 0) 1 0 2 3 0 sample_blocks
    (replicate 103 0) (mk_block DATABLOCK_VIDEO [0x84; 0x05; 0x10]) zeroed_edid
    sample_image_ok (le_n 3) eq_refl _).
  repeat constructor; vm_compute; congruence.
Defined.

Lemma edid_fill_svd_info_bounds_witness :
  edid_fill_svd_info 64 = Fault OutOfBounds.
Proof. apply (edid_fill_svd_info_bounds 64); [lia|reflexivity]. Defined.

Lemma edid_get_svd_descriptor_cases_witness :
  edid_get_svd_descriptor (mk_edid false 0 [] 1 [svd_of 4]) 1 = Fault OutOfBounds.
Proof.
  apply (edid_get_svd_descriptor_cases (mk_edid false 0 [] 1 [svd_of 4]) 1);
    [reflexivity|lia|reflexivity].
Defined.

Lemma update_s3d_format_sets_witness :
  exists i' vs',
    update_s3d_format (mk_edid true 1
      [mk_s3d (Some 8) (Some 1) (Some (mk_vic 2 1) :: replicate 15 None)] 4 []) 8 3 6
    = Ok (mk_edid true 1 [i'] 4 []) /\
    info_rep i' 8 vs' /\ vic_map vs' = <[3 := 6]> (vic_map [mk_vic 2 1]).
Proof.
  set (i := mk_s3d (Some 8) (Some 1) (Some (mk_vic 2 1) :: replicate 15 None)).
  assert (info_rep i 8 [mk_vic 2 1]) as Hi.
  { split_and!; [reflexivity|reflexivity|reflexivity|apply NoDup_singleton|].
    apply Forall_singleton. simpl. lia. }
  apply (update_s3d_format_sets (mk_edid true 1 [i] 4 []) [8] 8 3 6 0 i [mk_vic 2 1]);
    [|apply NoDup_singleton|reflexivity|exact Hi|lia|simpl; lia].
  constructor; [by exists [mk_vic 2 1]|constructor].
Defined.

Lemma s3d_formats_listed_witness :
  exists e', parse_s3d_formats 2 zeroed_edid [0x01; 0x41; 0x16; 0x28; 0x10] 0 1 5 = Ok e' /\
    edid_supports_s3d_format e' 8 = Ok true /\ edid_supports_s3d_format e' 1 = Ok false.
Proof.
  edestruct (s3d_formats_listed 2 zeroed_edid [0x01; 0x41; 0x16; 0x28; 0x10] 0 1 0x141 0
    [mk_entry 1 6 0; mk_entry 2 8 1]) as (e' & He & _ & Hf).
  - lia.
  - lia.
  - intros i Hi. unfold valid_format.
    assert (i <= 6 \/ i = 7 \/ i = 8 \/ i = 9 \/ i = 10 \/ i = 11 \/ i = 12 \/ i = 13 \/ i = 14)
      as Hin by lia.
    destruct Hin as [Hin|Hin]; [lia|].
    repeat (destruct Hin as [->|Hin]; [vm_compute; (discriminate || (intros _; lia))|]).
    subst i. discriminate.
  - repeat constructor; simpl; unfold valid_format; lia.
  - simpl. lia.
  - intros [|[|[|[|[|]]]]] v Hv; vm_compute in Hv; try (injection Hv as <-; reflexivity). discriminate.
  - vm_compute. reflexivity.
  - exists e'. split; [exact He|]. split; [exact (Hf 8)|exact (Hf 1)].
Defined.
