(* ===== verification/UsbdState.v ===== *)
(** * The USB daemon: data, environment and monad

    The globals of src/usbd/usb_app.c (with the two function-local statics and
    the buffers of [main]) are the record [usbd].  Every call of the C library
    or the kernel is a [syscall]; the environment [os] answers it with a
    [reply] that may depend on everything that was asked and answered before,
    so that a theorem for every [os] holds for every behaviour of the kernel,
    the driver, the property service and the connected application.  The calls
    and their replies, latest first, are the [trace] of the state. *)

From stdpp Require Import base list numbers option strings gmap.
From Stdlib Require Import Ascii String ZArith Lia.
From S2P Require Import Prelude CStrings.

Local Open Scope Z_scope.
Local Open Scope string_scope.
Local Open Scope list_scope.

(** ** usb_defines.h *)

(** Strings of the protocol between the daemon and the application. *)
Definition USBD_CABLE_ATTACHED : string := "cable_connected".
Definition USBD_CABLE_DETACHED : string := "cable_disconnected".
Definition USBD_DISK_ATTACH : string := "usb_disk_plugin".
Definition USBD_DISK_DETACH : string := "usb_disk_plugout".
Definition USBD_ENUMERATED : string := "usb_enumerated".
Definition USBD_EVENT_ADB_OFF : string := "usbd_adb_status_off".
Definition USBD_EVENT_ADB_ON : string := "usbd_adb_status_on".
Definition USBD_EVENT_TETHERING_OFF : string := "usbd_tethering_status_off".
Definition USBD_EVENT_TETHERING_ON : string := "usbd_tethering_status_on".
Definition USBD_GET_DESCRIPTOR : string := "get_descriptor".
Definition USBD_REQ_SWITCH_BPTOOLS : string := "usbd_req_switch_bptools".
Definition USBD_REQ_SWITCH_CHARGE_ONLY : string := "usbd_req_switch_none".
Definition USBD_REQ_SWITCH_HID : string := "usbd_req_switch_hid".
Definition USBD_REQ_SWITCH_MODEM : string := "usbd_req_switch_modem".
Definition USBD_REQ_SWITCH_MSC : string := "usbd_req_switch_msc".
Definition USBD_REQ_SWITCH_MTP : string := "usbd_req_switch_mtp".
Definition USBD_REQ_SWITCH_NGP : string := "usbd_req_switch_ngp".
Definition USBD_REQ_SWITCH_RNDIS : string := "usbd_req_switch_rndis".
Definition USBD_START_MSC_MOUNT : string := "usbd_start_msc_mount".
Definition USBD_START_MTP : string := "usbd_start_mtp".
Definition USBD_START_NGP : string := "usbd_start_ngp".

Inductive USBD_STATE_T :=
| USBD_STATE_CABLE_DEFAULT
| USBD_STATE_CABLE_DETACHED
| USBD_STATE_CABLE_ATTACHED
| USBD_STATE_ENUM_IN_PROGRESS
| USBD_STATE_ENUMERATED.

Inductive USB_MODE_T :=
| USB_MODE_MIN
| USB_MODE_NGP
| USB_MODE_CDROM
| USB_MODE_MTP
| USB_MODE_MSC
| USB_MODE_MSC_ONLY
| USB_MODE_HID
| USB_MODE_NGP_ADB
| USB_MODE_MTP_ADB
| USB_MODE_MSC_ADB
| USB_MODE_ADB
| USB_MODE_NETWORK
| USB_MODE_MODEM
| USB_MODE_MODEM_ADB
| USB_MODE_NETWORK_ADB
| USB_MODE_CHARGE_ONLY
| USB_MODE_CHARGE_ADB
| USB_MODE_RNDIS
| USB_MODE_RNDIS_ADB
| USB_MODE_CDROM2
| USB_MODE_BPTOOLS_ETH
| USB_MODE_BPTOOLS_ETH_ADB
| USB_MODE_RNDIS_BPTOOLS_ETH
| USB_MODE_RNDIS_BPTOOLS_ETH_ADB
| USB_MODE_TABLET_NETWORK_MTP
| USB_MODE_TABLET_NETWORK_MTP_ADB
| USB_MODE_MAX.

Inductive MOTO_ACCY_TYPE_T :=
| MOTO_ACCY_TYPE_EMU_CABLE_USB
| MOTO_ACCY_TYPE_EMU_CABLE_FACTORY
| MOTO_ACCY_TYPE_EMU_UNKNOWN.

Inductive MOTO_MODE_TYPE_T :=
| MOTO_MODE_TYPE_NORMAL
| MOTO_MODE_TYPE_DEBUG
| MOTO_MODE_TYPE_BPTOOLS
| MOTO_MODE_TYPE_TABLET
| MOTO_MODE_TYPE_UNKNOWN.

#[export] Instance usbd_state_eq_dec : EqDecision USBD_STATE_T.
Proof. solve_decision. Defined.
#[export] Instance usb_mode_eq_dec : EqDecision USB_MODE_T.
Proof. solve_decision. Defined.
#[export] Instance moto_accy_eq_dec : EqDecision MOTO_ACCY_TYPE_T.
Proof. solve_decision. Defined.
#[export] Instance moto_mode_eq_dec : EqDecision MOTO_MODE_TYPE_T.
Proof. solve_decision. Defined.

(** The enumerators in their order, and the integer value of each. *)
Definition all_modes : list USB_MODE_T :=
  [USB_MODE_MIN; USB_MODE_NGP; USB_MODE_CDROM; USB_MODE_MTP; USB_MODE_MSC; USB_MODE_MSC_ONLY;
   USB_MODE_HID; USB_MODE_NGP_ADB; USB_MODE_MTP_ADB; USB_MODE_MSC_ADB; USB_MODE_ADB;
   USB_MODE_NETWORK; USB_MODE_MODEM; USB_MODE_MODEM_ADB; USB_MODE_NETWORK_ADB;
   USB_MODE_CHARGE_ONLY; USB_MODE_CHARGE_ADB; USB_MODE_RNDIS; USB_MODE_RNDIS_ADB;
   USB_MODE_CDROM2; USB_MODE_BPTOOLS_ETH; USB_MODE_BPTOOLS_ETH_ADB;
   USB_MODE_RNDIS_BPTOOLS_ETH; USB_MODE_RNDIS_BPTOOLS_ETH_ADB; USB_MODE_TABLET_NETWORK_MTP;
   USB_MODE_TABLET_NETWORK_MTP_ADB; USB_MODE_MAX].

Definition mode_index (m : USB_MODE_T) : nat :=
  match m with
  | USB_MODE_MIN => 0%nat
  | USB_MODE_NGP => 1%nat
  | USB_MODE_CDROM => 2%nat
  | USB_MODE_MTP => 3%nat
  | USB_MODE_MSC => 4%nat
  | USB_MODE_MSC_ONLY => 5%nat
  | USB_MODE_HID => 6%nat
  | USB_MODE_NGP_ADB => 7%nat
  | USB_MODE_MTP_ADB => 8%nat
  | USB_MODE_MSC_ADB => 9%nat
  | USB_MODE_ADB => 10%nat
  | USB_MODE_NETWORK => 11%nat
  | USB_MODE_MODEM => 12%nat
  | USB_MODE_MODEM_ADB => 13%nat
  | USB_MODE_NETWORK_ADB => 14%nat
  | USB_MODE_CHARGE_ONLY => 15%nat
  | USB_MODE_CHARGE_ADB => 16%nat
  | USB_MODE_RNDIS => 17%nat
  | USB_MODE_RNDIS_ADB => 18%nat
  | USB_MODE_CDROM2 => 19%nat
  | USB_MODE_BPTOOLS_ETH => 20%nat
  | USB_MODE_BPTOOLS_ETH_ADB => 21%nat
  | USB_MODE_RNDIS_BPTOOLS_ETH => 22%nat
  | USB_MODE_RNDIS_BPTOOLS_ETH_ADB => 23%nat
  | USB_MODE_TABLET_NETWORK_MTP => 24%nat
  | USB_MODE_TABLET_NETWORK_MTP_ADB => 25%nat
  | USB_MODE_MAX => 26%nat
  end.

(** The functions the mode table points to. *)
Inductive hook :=
| ngp_pre_enable
| ngp_enable_done
| ngp_pre_disable
| cdrom_pre_enable
| cdrom_enable_done
| cdrom_pre_disable
| cdrom_disable_done
| mtp_enable_done
| msc_pre_enable
| msc_enable_done
| msc_pre_disable
| msc_disable_done
| msc_only_enable_done
| msc_only_pre_disable
| ngp_adb_pre_enable
| ngp_adb_enable_done
| ngp_adb_pre_disable
| mtp_adb_pre_enable
| mtp_adb_enable_done
| mtp_adb_pre_disable
| msc_adb_enable_done
| msc_adb_pre_disable
| adb_pre_enable
| adb_pre_disable
| network_enable_done
| network_pre_disable
| modem_enable_done
| modem_pre_disable
| modem_adb_pre_enable
| modem_adb_enable_done
| modem_adb_pre_disable.

#[export] Instance hook_eq_dec : EqDecision hook.
Proof. solve_decision. Defined.

Record usb_mode_data := mk_mode {
  um_mode : USB_MODE_T;
  um_name : string;
  um_pre_enable : option hook;
  um_enable_done : option hook;
  um_pre_disable : option hook;
  um_disable_done : option hook;
  um_mode_req : option string;
  um_mode_done : option string;
  um_switch_req : option string;
  um_resp_ok : option string;
  um_resp_fail : option string }.

(** The preprocessor symbols the build may define. *)
Record config := mk_config {
  MSD_CDROM_ENABLED : bool;
  AT_RELAY : bool;
  USBD_TABLET_MODE : bool }.

(** [usb_mode_list[USB_MODE_MAX + 1]], in two halves *)
Definition usb_mode_list_low (cfg : config) : list usb_mode_data :=
  [
   mk_mode USB_MODE_MIN "unuse"
     None None None None
     (Some "usb_unload_driver") None None None None;
   mk_mode USB_MODE_NGP "acm_eth_mtp"
     (Some ngp_pre_enable) (Some ngp_enable_done) (Some ngp_pre_disable) None
     None (Some USBD_START_NGP) (Some USBD_REQ_SWITCH_NGP) None (Some "usb_mode_ngp:fail");
   mk_mode USB_MODE_CDROM "cdrom"
     (Some cdrom_pre_enable) (Some cdrom_enable_done) (Some cdrom_pre_disable)
     (Some cdrom_disable_done)
     (Some "usb_mode_ngp") None None (Some "usb_mode_ngp:ok") (Some "usb_mode_ngp:fail");
   mk_mode USB_MODE_MTP "mtp"
     None (Some mtp_enable_done) None None
     (Some "usb_mode_mtp") (Some USBD_START_MTP) (Some USBD_REQ_SWITCH_MTP)
     (Some "usb_mode_mtp:ok") (Some "usb_mode_mtp:fail");
   mk_mode USB_MODE_MSC "msc"
     (Some msc_pre_enable) (Some msc_enable_done) (Some msc_pre_disable) (Some msc_disable_done)
     (Some "usb_mode_msc") (Some USBD_START_MSC_MOUNT) (Some USBD_REQ_SWITCH_MSC)
     (Some "usb_mode_msc:ok") (Some "usb_mode_msc:fail");
   mk_mode USB_MODE_MSC_ONLY "msc_only"
     None (Some msc_only_enable_done) (Some msc_only_pre_disable) None
     (Some "usb_mode_msc_only") (Some USBD_START_MSC_MOUNT) None (Some "usb_mode_msc:ok")
     (Some "usb_mode_msc:fail");
   mk_mode USB_MODE_HID "hid"
     None None None None
     (Some "usb_mode_hid") None (Some USBD_REQ_SWITCH_HID) (Some "usb_mode_hid:ok")
     (Some "usb_mode_hid:fail");
   mk_mode USB_MODE_NGP_ADB (if AT_RELAY cfg then "acm_acm1_eth_mtp_adb" else "acm_eth_mtp_adb")
     (Some ngp_adb_pre_enable) (Some ngp_adb_enable_done) (Some ngp_adb_pre_disable) None
     (Some "usb_mode_ngp_adb") (Some USBD_START_NGP) (Some USBD_REQ_SWITCH_NGP)
     (Some "usb_mode_ngp:ok") (Some "usb_mode_ngp:fail");
   mk_mode USB_MODE_MTP_ADB "mtp_adb"
     (Some mtp_adb_pre_enable) (Some mtp_adb_enable_done) (Some mtp_adb_pre_disable) None
     (Some "usb_mode_mtp_adb") (Some USBD_START_MTP) (Some USBD_REQ_SWITCH_MTP)
     (Some "usb_mode_mtp:ok") (Some "usb_mode_mtp:fail");
   mk_mode USB_MODE_MSC_ADB "msc_adb"
     None (Some msc_adb_enable_done) (Some msc_adb_pre_disable) None
     (Some "usb_mode_msc_adb") (Some USBD_START_MSC_MOUNT) (Some USBD_REQ_SWITCH_MSC)
     (Some "usb_mode_msc:ok") (Some "usb_mode_msc:fail");
   mk_mode USB_MODE_ADB "android_adb_only"
     (Some adb_pre_enable) None (Some adb_pre_disable) None
     (Some "usb_mode_adb") None (Some USBD_REQ_SWITCH_HID) (Some "usb_mode_hid:ok")
     (Some "usb_mode_hid:fail");
   mk_mode USB_MODE_NETWORK "eth"
     None (Some network_enable_done) (Some network_pre_disable) None
     None None None None None
  ].

Definition usb_mode_list_high (cfg : config) : list usb_mode_data :=
  [
   mk_mode USB_MODE_MODEM "acm"
     None (Some modem_enable_done) (Some modem_pre_disable) None
     (Some "usb_mode_modem") None (Some USBD_REQ_SWITCH_MODEM) (Some "usb_mode_modem:ok")
     (Some "usb_mode_modem:fail");
   mk_mode USB_MODE_MODEM_ADB "modem_adb"
     (Some modem_adb_pre_enable) (Some modem_adb_enable_done) (Some modem_adb_pre_disable) None
     (Some "usb_mode_modem_adb") None (Some USBD_REQ_SWITCH_MODEM)
     (Some "usb_mode_modem:ok") (Some "usb_mode_modem:fail");
   mk_mode USB_MODE_NETWORK_ADB (if AT_RELAY cfg then "acm1_eth_adb" else "eth_adb")
     None (Some network_enable_done) (Some network_pre_disable) None
     None None None None None;
   mk_mode USB_MODE_CHARGE_ONLY "charge_only"
     None None None None
     (Some "usb_mode_charge_only") None (Some USBD_REQ_SWITCH_CHARGE_ONLY)
     (Some "usb_mode_msc:ok") (Some "usb_mode_msc:fail");
   mk_mode USB_MODE_CHARGE_ADB "charge_adb"
     None None None None
     (Some "usb_mode_charge_adb") None (Some USBD_REQ_SWITCH_CHARGE_ONLY)
     (Some "usb_mode_msc:ok") (Some "usb_mode_msc:fail");
   mk_mode USB_MODE_RNDIS "rndis"
     None None None None
     (Some "usb_mode_rndis") None (Some USBD_REQ_SWITCH_RNDIS) (Some "usb_mode_rndis:ok")
     (Some "usb_mode_rndis:fail");
   mk_mode USB_MODE_RNDIS_ADB "rndis_adb"
     None None None None
     (Some "usb_mode_rndis_adb") None (Some USBD_REQ_SWITCH_RNDIS)
     (Some "usb_mode_rndis:ok") (Some "usb_mode_rndis:fail");
   mk_mode USB_MODE_CDROM2 "cdrom2"
     (Some cdrom_pre_enable) (Some cdrom_enable_done) (Some cdrom_pre_disable)
     (Some cdrom_disable_done)
     None None None None None;
   mk_mode USB_MODE_BPTOOLS_ETH "acm_acm1_acm2_acm3_eth"
     None None None None
     (Some "usb_mode_acm_acm1_acm2_acm3_eth") None (Some USBD_REQ_SWITCH_BPTOOLS)
     (Some "usb_mode_bptools:ok") (Some "usb_mode_bptools:fail");
   mk_mode USB_MODE_BPTOOLS_ETH_ADB "acm_acm1_acm2_acm3_eth_adb"
     None None None None
     (Some "usb_mode_acm_acm1_acm2_acm3_eth_adb") None (Some USBD_REQ_SWITCH_BPTOOLS)
     (Some "usb_mode_bptools:ok") (Some "usb_mode_bptools:fail");
   mk_mode USB_MODE_RNDIS_BPTOOLS_ETH "rndis_acm_acm1_acm2_acm3_eth"
     None None None None
     (Some "usb_mode_rndis_acm_acm1_acm2_acm3_eth") None (Some USBD_REQ_SWITCH_BPTOOLS)
     (Some "usb_mode_bptools:ok") (Some "usb_mode_bptools:fail");
   mk_mode USB_MODE_RNDIS_BPTOOLS_ETH_ADB "rndis_acm_acm1_acm2_acm3_eth_adb"
     None None None None
     (Some "usb_mode_rndis_acm_acm1_acm2_acm3_eth_adb") None (Some USBD_REQ_SWITCH_BPTOOLS)
     (Some "usb_mode_bptools:ok") (Some "usb_mode_bptools:fail");
   mk_mode USB_MODE_TABLET_NETWORK_MTP "eth_mtp"
     None None None None
     None None None None None;
   mk_mode USB_MODE_TABLET_NETWORK_MTP_ADB "eth_mtp_adb"
     None None None None
     None None None None None;
   mk_mode USB_MODE_MAX "unuse"
     None None None None
     None None None None None
  ].

Definition usb_mode_list (cfg : config) : list usb_mode_data :=
  usb_mode_list_low cfg ++ usb_mode_list_high cfg.

(** ** The environment *)

Inductive syscall :=
| SysWrite (fd : Z) (data : string)
| SysRead (fd size : Z)
| SysOpen (path : string)
| SysClose (fd : Z)
| SysAccess (path : string)
| SysMknod (path : string) (dev : Z)
| SysLoopGetStatus (fd : Z)
| SysLoopSetFd (fd file_fd : Z)
| SysLoopClrFd (fd : Z)
| SysMount (dev dir fstype : string)
| SysUmount (dir : string)
| SysSystem (cmd : string)
| SysPropertyGet (key default : string)
| SysReadFile (path : string)
| SysWriteFile (path data : string)
| SysReadDir (path : string)
| SysSocketLocalServer (name : string)
| SysChown (path : string)
| SysChmod (path : string)
| SysUeventSocket
| SysSetsockopt (fd : Z) (opt : string)
| SysBind (fd : Z)
| SysRecvmsg (fd : Z)
| SysAccept (fd : Z).

(** The return value, [errno], the bytes delivered and, for a netlink message,
    the sender's group mask, its port and the uid of its credentials. *)
Record reply := mk_reply {
  r_val : Z;
  r_errno : Z;
  r_data : string;
  r_entries : list string;
  r_groups : Z;
  r_pid : Z;
  r_cred : option Z }.

Definition environment := list (syscall * reply) -> syscall -> reply.

(** ** The state *)

Record usbd := mk_usbd {
  usbd_curr_usb_mode : USB_MODE_T;
  usbd_current_state : USBD_STATE_T;
  connected_apps_fd : gset Z;
  usbd_server_fd : Z;
  usb_device_fd : Z;
  uevent_sock : Z;
  usbd_app_fd : Z;
  max_fd : Z;
  usb_get_des_count : Z;
  current_usb_online : bool;
  usbd_mode : MOTO_MODE_TYPE_T;
  usb_alt_mode : bool;
  tethering_enabled : bool;
  usbd_curr_cable_status : MOTO_ACCY_TYPE_T;
  curr_loop_dev : string;
  cdrom_mounted : bool;
  pcSwitchbuf : string;
  adbEnablebuf : string;
  tetheringEnablebuf : string;
  trace : list (syscall * reply) }.

Definition set_usbd_curr_usb_mode (x : USB_MODE_T) (s : usbd) : usbd :=
  mk_usbd x (usbd_current_state s) (connected_apps_fd s) (usbd_server_fd s) (usb_device_fd s)
    (uevent_sock s) (usbd_app_fd s) (max_fd s) (usb_get_des_count s) (current_usb_online s)
    (usbd_mode s) (usb_alt_mode s) (tethering_enabled s) (usbd_curr_cable_status s)
    (curr_loop_dev s) (cdrom_mounted s) (pcSwitchbuf s) (adbEnablebuf s) (tetheringEnablebuf s)
    (trace s).

Definition set_usbd_current_state (x : USBD_STATE_T) (s : usbd) : usbd :=
  mk_usbd (usbd_curr_usb_mode s) x (connected_apps_fd s) (usbd_server_fd s) (usb_device_fd s)
    (uevent_sock s) (usbd_app_fd s) (max_fd s) (usb_get_des_count s) (current_usb_online s)
    (usbd_mode s) (usb_alt_mode s) (tethering_enabled s) (usbd_curr_cable_status s)
    (curr_loop_dev s) (cdrom_mounted s) (pcSwitchbuf s) (adbEnablebuf s) (tetheringEnablebuf s)
    (trace s).

Definition set_connected_apps_fd (x : gset Z) (s : usbd) : usbd :=
  mk_usbd (usbd_curr_usb_mode s) (usbd_current_state s) x (usbd_server_fd s) (usb_device_fd s)
    (uevent_sock s) (usbd_app_fd s) (max_fd s) (usb_get_des_count s) (current_usb_online s)
    (usbd_mode s) (usb_alt_mode s) (tethering_enabled s) (usbd_curr_cable_status s)
    (curr_loop_dev s) (cdrom_mounted s) (pcSwitchbuf s) (adbEnablebuf s) (tetheringEnablebuf s)
    (trace s).

Definition set_usbd_server_fd (x : Z) (s : usbd) : usbd :=
  mk_usbd (usbd_curr_usb_mode s) (usbd_current_state s) (connected_apps_fd s) x (usb_device_fd s)
    (uevent_sock s) (usbd_app_fd s) (max_fd s) (usb_get_des_count s) (current_usb_online s)
    (usbd_mode s) (usb_alt_mode s) (tethering_enabled s) (usbd_curr_cable_status s)
    (curr_loop_dev s) (cdrom_mounted s) (pcSwitchbuf s) (adbEnablebuf s) (tetheringEnablebuf s)
    (trace s).

Definition set_usb_device_fd (x : Z) (s : usbd) : usbd :=
  mk_usbd (usbd_curr_usb_mode s) (usbd_current_state s) (connected_apps_fd s) (usbd_server_fd s)
    x (uevent_sock s) (usbd_app_fd s) (max_fd s) (usb_get_des_count s) (current_usb_online s)
    (usbd_mode s) (usb_alt_mode s) (tethering_enabled s) (usbd_curr_cable_status s)
    (curr_loop_dev s) (cdrom_mounted s) (pcSwitchbuf s) (adbEnablebuf s) (tetheringEnablebuf s)
    (trace s).

Definition set_uevent_sock (x : Z) (s : usbd) : usbd :=
  mk_usbd (usbd_curr_usb_mode s) (usbd_current_state s) (connected_apps_fd s) (usbd_server_fd s)
    (usb_device_fd s) x (usbd_app_fd s) (max_fd s) (usb_get_des_count s) (current_usb_online s)
    (usbd_mode s) (usb_alt_mode s) (tethering_enabled s) (usbd_curr_cable_status s)
    (curr_loop_dev s) (cdrom_mounted s) (pcSwitchbuf s) (adbEnablebuf s) (tetheringEnablebuf s)
    (trace s).

Definition set_usbd_app_fd (x : Z) (s : usbd) : usbd :=
  mk_usbd (usbd_curr_usb_mode s) (usbd_current_state s) (connected_apps_fd s) (usbd_server_fd s)
    (usb_device_fd s) (uevent_sock s) x (max_fd s) (usb_get_des_count s) (current_usb_online s)
    (usbd_mode s) (usb_alt_mode s) (tethering_enabled s) (usbd_curr_cable_status s)
    (curr_loop_dev s) (cdrom_mounted s) (pcSwitchbuf s) (adbEnablebuf s) (tetheringEnablebuf s)
    (trace s).

Definition set_max_fd (x : Z) (s : usbd) : usbd :=
  mk_usbd (usbd_curr_usb_mode s) (usbd_current_state s) (connected_apps_fd s) (usbd_server_fd s)
    (usb_device_fd s) (uevent_sock s) (usbd_app_fd s) x (usb_get_des_count s)
    (current_usb_online s) (usbd_mode s) (usb_alt_mode s) (tethering_enabled s)
    (usbd_curr_cable_status s) (curr_loop_dev s) (cdrom_mounted s) (pcSwitchbuf s)
    (adbEnablebuf s) (tetheringEnablebuf s) (trace s).

Definition set_usb_get_des_count (x : Z) (s : usbd) : usbd :=
  mk_usbd (usbd_curr_usb_mode s) (usbd_current_state s) (connected_apps_fd s) (usbd_server_fd s)
    (usb_device_fd s) (uevent_sock s) (usbd_app_fd s) (max_fd s) x (current_usb_online s)
    (usbd_mode s) (usb_alt_mode s) (tethering_enabled s) (usbd_curr_cable_status s)
    (curr_loop_dev s) (cdrom_mounted s) (pcSwitchbuf s) (adbEnablebuf s) (tetheringEnablebuf s)
    (trace s).

Definition set_current_usb_online (x : bool) (s : usbd) : usbd :=
  mk_usbd (usbd_curr_usb_mode s) (usbd_current_state s) (connected_apps_fd s) (usbd_server_fd s)
    (usb_device_fd s) (uevent_sock s) (usbd_app_fd s) (max_fd s) (usb_get_des_count s) x
    (usbd_mode s) (usb_alt_mode s) (tethering_enabled s) (usbd_curr_cable_status s)
    (curr_loop_dev s) (cdrom_mounted s) (pcSwitchbuf s) (adbEnablebuf s) (tetheringEnablebuf s)
    (trace s).

Definition set_usbd_mode (x : MOTO_MODE_TYPE_T) (s : usbd) : usbd :=
  mk_usbd (usbd_curr_usb_mode s) (usbd_current_state s) (connected_apps_fd s) (usbd_server_fd s)
    (usb_device_fd s) (uevent_sock s) (usbd_app_fd s) (max_fd s) (usb_get_des_count s)
    (current_usb_online s) x (usb_alt_mode s) (tethering_enabled s) (usbd_curr_cable_status s)
    (curr_loop_dev s) (cdrom_mounted s) (pcSwitchbuf s) (adbEnablebuf s) (tetheringEnablebuf s)
    (trace s).

Definition set_usb_alt_mode (x : bool) (s : usbd) : usbd :=
  mk_usbd (usbd_curr_usb_mode s) (usbd_current_state s) (connected_apps_fd s) (usbd_server_fd s)
    (usb_device_fd s) (uevent_sock s) (usbd_app_fd s) (max_fd s) (usb_get_des_count s)
    (current_usb_online s) (usbd_mode s) x (tethering_enabled s) (usbd_curr_cable_status s)
    (curr_loop_dev s) (cdrom_mounted s) (pcSwitchbuf s) (adbEnablebuf s) (tetheringEnablebuf s)
    (trace s).

Definition set_tethering_enabled (x : bool) (s : usbd) : usbd :=
  mk_usbd (usbd_curr_usb_mode s) (usbd_current_state s) (connected_apps_fd s) (usbd_server_fd s)
    (usb_device_fd s) (uevent_sock s) (usbd_app_fd s) (max_fd s) (usb_get_des_count s)
    (current_usb_online s) (usbd_mode s) (usb_alt_mode s) x (usbd_curr_cable_status s)
    (curr_loop_dev s) (cdrom_mounted s) (pcSwitchbuf s) (adbEnablebuf s) (tetheringEnablebuf s)
    (trace s).

Definition set_usbd_curr_cable_status (x : MOTO_ACCY_TYPE_T) (s : usbd) : usbd :=
  mk_usbd (usbd_curr_usb_mode s) (usbd_current_state s) (connected_apps_fd s) (usbd_server_fd s)
    (usb_device_fd s) (uevent_sock s) (usbd_app_fd s) (max_fd s) (usb_get_des_count s)
    (current_usb_online s) (usbd_mode s) (usb_alt_mode s) (tethering_enabled s) x
    (curr_loop_dev s) (cdrom_mounted s) (pcSwitchbuf s) (adbEnablebuf s) (tetheringEnablebuf s)
    (trace s).

Definition set_curr_loop_dev (x : string) (s : usbd) : usbd :=
  mk_usbd (usbd_curr_usb_mode s) (usbd_current_state s) (connected_apps_fd s) (usbd_server_fd s)
    (usb_device_fd s) (uevent_sock s) (usbd_app_fd s) (max_fd s) (usb_get_des_count s)
    (current_usb_online s) (usbd_mode s) (usb_alt_mode s) (tethering_enabled s)
    (usbd_curr_cable_status s) x (cdrom_mounted s) (pcSwitchbuf s) (adbEnablebuf s)
    (tetheringEnablebuf s) (trace s).

Definition set_cdrom_mounted (x : bool) (s : usbd) : usbd :=
  mk_usbd (usbd_curr_usb_mode s) (usbd_current_state s) (connected_apps_fd s) (usbd_server_fd s)
    (usb_device_fd s) (uevent_sock s) (usbd_app_fd s) (max_fd s) (usb_get_des_count s)
    (current_usb_online s) (usbd_mode s) (usb_alt_mode s) (tethering_enabled s)
    (usbd_curr_cable_status s) (curr_loop_dev s) x (pcSwitchbuf s) (adbEnablebuf s)
    (tetheringEnablebuf s) (trace s).

Definition set_pcSwitchbuf (x : string) (s : usbd) : usbd :=
  mk_usbd (usbd_curr_usb_mode s) (usbd_current_state s) (connected_apps_fd s) (usbd_server_fd s)
    (usb_device_fd s) (uevent_sock s) (usbd_app_fd s) (max_fd s) (usb_get_des_count s)
    (current_usb_online s) (usbd_mode s) (usb_alt_mode s) (tethering_enabled s)
    (usbd_curr_cable_status s) (curr_loop_dev s) (cdrom_mounted s) x (adbEnablebuf s)
    (tetheringEnablebuf s) (trace s).

Definition set_adbEnablebuf (x : string) (s : usbd) : usbd :=
  mk_usbd (usbd_curr_usb_mode s) (usbd_current_state s) (connected_apps_fd s) (usbd_server_fd s)
    (usb_device_fd s) (uevent_sock s) (usbd_app_fd s) (max_fd s) (usb_get_des_count s)
    (current_usb_online s) (usbd_mode s) (usb_alt_mode s) (tethering_enabled s)
    (usbd_curr_cable_status s) (curr_loop_dev s) (cdrom_mounted s) (pcSwitchbuf s) x
    (tetheringEnablebuf s) (trace s).

Definition set_tetheringEnablebuf (x : string) (s : usbd) : usbd :=
  mk_usbd (usbd_curr_usb_mode s) (usbd_current_state s) (connected_apps_fd s) (usbd_server_fd s)
    (usb_device_fd s) (uevent_sock s) (usbd_app_fd s) (max_fd s) (usb_get_des_count s)
    (current_usb_online s) (usbd_mode s) (usb_alt_mode s) (tethering_enabled s)
    (usbd_curr_cable_status s) (curr_loop_dev s) (cdrom_mounted s) (pcSwitchbuf s)
    (adbEnablebuf s) x (trace s).

Definition set_trace (x : list (syscall * reply)) (s : usbd) : usbd :=
  mk_usbd (usbd_curr_usb_mode s) (usbd_current_state s) (connected_apps_fd s) (usbd_server_fd s)
    (usb_device_fd s) (uevent_sock s) (usbd_app_fd s) (max_fd s) (usb_get_des_count s)
    (current_usb_online s) (usbd_mode s) (usb_alt_mode s) (tethering_enabled s)
    (usbd_curr_cable_status s) (curr_loop_dev s) (cdrom_mounted s) (pcSwitchbuf s)
    (adbEnablebuf s) (tetheringEnablebuf s) x.

(** ** The monad: state, and the faults of the memory the code writes *)

Definition M (A : Type) : Type := usbd -> outcome (A * usbd).

#[export] Instance M_ret : MRet M := fun A a s => Ok (a, s).
#[export] Instance M_bind : MBind M := fun A B f m s =>
  match m s with Ok (a, s') => f a s' | Fault e => Fault e end.

Definition get {A} (f : usbd -> A) : M A := fun s => Ok (f s, s).
Definition modify (f : usbd -> usbd) : M unit := fun s => Ok (tt, f s).
Definition fail_with {A} (f : fault) : M A := fun _ => Fault f.

Definition sys (os : environment) (c : syscall) : M reply := fun s =>
  let r := os (trace s) c in Ok (r, set_trace ((c, r) :: trace s) s).

(** A call whose result the code ignores. *)
Definition sys_ (os : environment) (c : syscall) : M unit := sys os c ≫= fun _ => mret tt.

(** [if (c) m;] *)
Definition when (c : bool) (m : M unit) : M unit := if c then m else mret tt.
