(* ===== verification/Usbd.v ===== *)
(** * The USB daemon: operations of src/usbd/usb_app.c

    One definition per function, in the order of the file; the message
    handling of [main] is split into the branches of its loop
    ([usb_device_event], [usbd_server_event], [usbd_app_event]) and
    [main_iter] composes them.  The log calls are left out.  Return codes that
    the callers read are kept; a call whose result the code drops is a [sys_].
    [sscanf] into a fixed buffer that is too small is [Fault OutOfBounds]. *)

From stdpp Require Import base list numbers option strings gmap pretty.
From Stdlib Require Import Ascii String ZArith Lia.
From S2P Require Import Prelude CStrings UsbdState.

Local Open Scope string_scope.
Local Open Scope Z_scope.

Definition EEXIST : Z := 17.
Definition ENXIO : Z := 6.
Definition ECONNRESET : Z := 104.
Definition LOOP_MAX : nat := 4096.
Definition LOOP_DEV_PATH_LEN : Z := 255.
Definition MAX_VERSION_SIZE : nat := 255.
Definition SOCKET_BUFFER_SIZE : Z := 1024.
Definition USBD_UEVENT_MSG_LEN : Z := 64 * 1024.

Definition CDROM_BLOCK_DEVICE : string := "/dev/block/cdrom".
Definition USB_SWITCH_STATE_PATH : string := "/sys/class/switch/usb_connected/state".
Definition SCSI_DEVICE_PATH : string := "/sys/bus/scsi/devices".
Definition CDROM_IMAGE : string := "/cdrom/cdrom_vfat.bin".

(** [strncmp(a, b, n) == 0] *)
Definition strneq (n : nat) (a b : string) : bool :=
  String.eqb (str_take n (cstr a)) (str_take n (cstr b)).

(** [snprintf(buf, n, "%s", s)] *)
Definition snprintf (n : nat) (s : string) : string := str_take (n - 1) s.

(** [sprintf(buf, ...)] of the string [s] into a buffer of [n] bytes. *)
Definition sprintf_buf (n : nat) (s : string) : M string :=
  if bool_decide (n <= String.length s)%nat then fail_with OutOfBounds else mret s.

Section Usbd.
Context (cfg : config) (os : environment).

(** The node the mass storage driver takes its file from. *)
Definition CDROMIO_DEVNODE : string :=
  if MSD_CDROM_ENABLED cfg then "/sys/devices/platform/usb_mass_storage/lun1/file"
  else "/sys/devices/platform/usb_mass_storage/lun0/file".

(** [usb_mode_list[m]] *)
Definition mode_data (m : USB_MODE_T) : usb_mode_data :=
  nth (mode_index m) (usb_mode_list cfg)
    (mk_mode USB_MODE_MAX "unuse" None None None None None None None None None).

(** [read(fd, buf, size)]: the result and the bytes of the zeroed buffer. *)
Definition sys_read (fd size : Z) : M (Z * string) :=
  r ← sys os (SysRead fd size);
  mret (r_val r, str_take (Z.to_nat (Z.min (r_val r) size)) (r_data r)).

(** [write(fd, s, strlen(s) + 1)] *)
Definition write_str (fd : Z) (s : string) : M Z :=
  r ← sys os (SysWrite fd (with_nul s)); mret (r_val r).

Definition property_get (key default : string) : M (Z * string) :=
  r ← sys os (SysPropertyGet key default); mret (r_val r, r_data r).

(** *** CD-ROM *)

(** The loop over the loop devices: the first that is free with its
    descriptor, or [None] for the error returns and for none left. *)
Fixpoint loop_scan (ixs : list nat) : M (option (Z * string)) :=
  match ixs with
  | [] => mret None
  | i :: ixs =>
      let filename := ("/dev/block/loop" ++ pretty (N.of_nat i))%string in
      let z := Z.of_nat i in
      let dev := Z.lor (Z.lor (Z.land 0xff z) (Z.land (Z.shiftl z 12) 0xfff00000)) (Z.shiftl 7 8) in
      r ← sys os (SysMknod filename dev);
      if (r_val r <? 0) && negb (r_errno r =? EEXIST) then mret None else
      r ← sys os (SysOpen filename);
      let fd := r_val r in
      if fd <? 0 then mret None else
      r ← sys os (SysLoopGetStatus fd);
      if (r_val r <? 0) && (r_errno r =? ENXIO) then mret (Some (fd, filename)) else
      sys_ os (SysClose fd);;
      if r_val r <? 0 then mret None else loop_scan ixs
  end.

(** [loop_create(loopFile, curr_loop_dev, LOOP_DEV_PATH_LEN)]: both callers
    pass the global buffer. *)
Definition loop_create (loopFile : string) : M Z :=
  o ← loop_scan (seq 0 LOOP_MAX);
  match o with
  | None => mret (-1)
  | Some (fd, filename) =>
      modify (set_curr_loop_dev (str_take (Z.to_nat (LOOP_DEV_PATH_LEN - 1)) filename));;
      r ← sys os (SysOpen loopFile);
      let file_fd := r_val r in
      if file_fd <? 0 then sys_ os (SysClose fd);; mret (-1) else
      r ← sys os (SysLoopSetFd fd file_fd);
      if r_val r <? 0 then
        sys_ os (SysClose file_fd);; sys_ os (SysClose fd);; mret (-1)
      else
        sys_ os (SysClose fd);; sys_ os (SysClose file_fd);; mret 0
  end.

Definition cdrom_read_version_key : M Z :=
  let prefix : string := "pc_mot_drv_vers_query:" in
  let max_version_len := (MAX_VERSION_SIZE - String.length prefix - 1)%nat in
  r ← sys os (SysReadFile "/cdrom/cdinfo");
  if r_val r <? 0 then mret 0 else
  fd ← get usb_device_fd;
  if fd <? 0 then mret 0 else
  write_str fd (prefix ++ str_take max_version_len (r_data r))%string.

(** The part of [cdrom_partition_mount] after the block device test: [fd] is
    the open device node. *)
Definition loop_partition_mount (fd : Z) (mount : bool) : M unit :=
  mounted ← get cdrom_mounted;
  go_on ←
    (if (mounted : bool) then
       sys_ os (SysWrite fd (String NUL ""));;
       dev ← get curr_loop_dev;
       r ← sys os (SysOpen dev);
       let device_fd := r_val r in
       if device_fd <? 0 then mret false else
       r ← sys os (SysLoopClrFd device_fd);
       if r_val r <? 0 then sys_ os (SysClose device_fd);; mret false else
       modify (set_cdrom_mounted false);;
       sys_ os (SysClose device_fd);; mret true
     else mret true);
  if negb go_on then mret tt else
  if mount then
    rc ← loop_create CDROM_IMAGE;
    if truth rc then mret tt else
    modify (set_cdrom_mounted true);;
    dev ← get curr_loop_dev;
    sys_ os (SysWrite fd dev);;
    sys_ os (SysClose fd)
  else sys_ os (SysClose fd).

Definition cdrom_partition_mount (mount : bool) : M unit :=
  r ← sys os (SysOpen CDROMIO_DEVNODE);
  let fd := r_val r in
  if fd <? 0 then mret tt else
  r ← sys os (SysAccess CDROM_BLOCK_DEVICE);
  if r_val r =? 0 then
    sys_ os (SysWrite fd (if mount then CDROM_BLOCK_DEVICE else String NUL ""));;
    sys_ os (SysClose fd)
  else loop_partition_mount fd mount.

Definition cdrom_smart_version_mount (imount : bool) : M unit :=
  r ← sys os (SysAccess CDROM_BLOCK_DEVICE);
  if r_val r =? 0 then
    sys_ os (if imount then SysMount CDROM_BLOCK_DEVICE "/cdrom" "iso9660" else SysUmount "/cdrom")
  else if imount then
    rc ← loop_create CDROM_IMAGE;
    if truth rc then mret tt else
    dev ← get curr_loop_dev;
    sys_ os (SysMount dev "/cdrom" "iso9660")
  else
    sys_ os (SysUmount "/cdrom");;
    dev ← get curr_loop_dev;
    r ← sys os (SysOpen dev);
    let device_fd := r_val r in
    if device_fd <? 0 then mret tt else
    r ← sys os (SysLoopClrFd device_fd);
    if r_val r <? 0 then mret tt else
    sys_ os (SysClose device_fd).

(** *** The functions of the mode table *)

Definition echo (v path : string) : M unit := sys_ os (SysSystem ("echo " ++ v ++ " > " ++ path)%string).

Definition CDROM_PARAM : string := "/sys/module/g_mot_android/parameters/cdrom".
Definition EJECT_PARAM : string := "/sys/module/g_mot_android/parameters/allow_eject".
Definition UMS_ENABLE : string := "/sys/devices/virtual/usb_composite/usb_mass_storage/enable".

Definition run_hook (h : hook) : M unit :=
  match h with
  | cdrom_pre_enable => echo "1" CDROM_PARAM
  | cdrom_disable_done => echo "0" CDROM_PARAM
  | cdrom_enable_done => cdrom_partition_mount true
  | cdrom_pre_disable => cdrom_partition_mount false
  | msc_pre_enable =>
      when (MSD_CDROM_ENABLED cfg) (echo "1" CDROM_PARAM;; echo "0" EJECT_PARAM)
  | msc_enable_done =>
      when (MSD_CDROM_ENABLED cfg) (cdrom_partition_mount true);; echo "1" UMS_ENABLE
  | msc_pre_disable =>
      when (MSD_CDROM_ENABLED cfg) (cdrom_partition_mount false);; echo "0" UMS_ENABLE
  | msc_disable_done =>
      when (MSD_CDROM_ENABLED cfg) (echo "0" CDROM_PARAM;; echo "1" EJECT_PARAM)
  | msc_only_enable_done => echo "1" UMS_ENABLE
  | msc_only_pre_disable => echo "0" UMS_ENABLE
  | msc_adb_enable_done => echo "1" UMS_ENABLE
  | msc_adb_pre_disable => echo "0" UMS_ENABLE
  | ngp_pre_enable | ngp_enable_done | ngp_pre_disable | mtp_enable_done
  | ngp_adb_pre_enable | ngp_adb_enable_done | ngp_adb_pre_disable
  | mtp_adb_pre_enable | mtp_adb_enable_done | mtp_adb_pre_disable
  | adb_pre_enable | adb_pre_disable | network_enable_done | network_pre_disable
  | modem_enable_done | modem_pre_disable
  | modem_adb_pre_enable | modem_adb_enable_done | modem_adb_pre_disable => mret tt
  end.

(** [if (f) f();] *)
Definition call_hook (o : option hook) : M unit :=
  match o with Some h => run_hook h | None => mret tt end.

(** *** Modes *)

Definition usbd_set_usb_mode (new_mode : USB_MODE_T) : M Z :=
  cur ← get usbd_curr_usb_mode;
  call_hook (um_pre_disable (mode_data cur));;
  call_hook (um_disable_done (mode_data cur));;
  modify (set_usbd_curr_usb_mode new_mode);;
  if decide (new_mode = USB_MODE_MIN) then mret 0 else
  call_hook (um_pre_enable (mode_data new_mode));;
  fd ← get usb_device_fd;
  sys_ os (SysWrite fd (with_nul (um_name (mode_data new_mode))));;
  mret 0.

Definition usbd_get_adb_property : M Z :=
  '(rc, buf) ← property_get "persist.service.adb.enable" "0";
  if rc =? 0 then mret (-1) else
  mret (if streq buf "1" then 1 else 0).

(** [usb_alt_mode_tlb[mode - MOTO_MODE_TYPE_BPTOOLS][adb_en][tethering_enabled]] *)
Definition usb_alt_mode_tlb (tablet adb_en tethering : bool) : USB_MODE_T :=
  match tablet, adb_en, tethering with
  | false, false, false => USB_MODE_BPTOOLS_ETH
  | false, false, true => USB_MODE_RNDIS_BPTOOLS_ETH
  | false, true, false => USB_MODE_BPTOOLS_ETH_ADB
  | false, true, true => USB_MODE_RNDIS_BPTOOLS_ETH_ADB
  | true, false, _ => USB_MODE_CDROM
  | true, true, false => USB_MODE_TABLET_NETWORK_MTP_ADB
  | true, true, true => USB_MODE_RNDIS_ADB
  end.

(** A flag of the device event: 1, 0 or, for any other word, -1. *)
Definition event_flag (on off buf : string) : Z :=
  if streq buf on then 1 else if streq buf off then 0 else -1.

Definition usbd_alt_mode_set (mode : MOTO_MODE_TYPE_T) (adb_buf tether_buf : string) : M Z :=
  let adb_en := event_flag "adb_enable" "adb_disable" adb_buf in
  let tether_en := event_flag "tethering_enable" "tethering_disable" tether_buf in
  if (tether_en <? 0) && (adb_en <? 0) then mret 0 else
  when (0 <=? tether_en) (modify (set_tethering_enabled (tether_en =? 1)));;
  match mode with
  | MOTO_MODE_TYPE_DEBUG =>
      usbd_set_usb_mode (if (adb_en =? 1) || (tether_en =? 1) then USB_MODE_MSC_ADB
                         else USB_MODE_MSC);;
      mret 0
  | MOTO_MODE_TYPE_BPTOOLS | MOTO_MODE_TYPE_TABLET =>
      adb_en ← (if adb_en <? 0 then usbd_get_adb_property else mret adb_en);
      if adb_en <? 0 then mret (-1) else
      tethering ← get tethering_enabled;
      usbd_set_usb_mode
        (usb_alt_mode_tlb (bool_decide (mode = MOTO_MODE_TYPE_TABLET)) (adb_en =? 1) tethering);;
      mret 0
  | _ => mret (-1)
  end.

(** *** The application's socket *)

Definition usbd_socket_init : M Z :=
  r ← sys os (SysSocketLocalServer "usbd");
  modify (set_usbd_server_fd (r_val r));;
  if r_val r <? 0 then mret (-1) else
  sys_ os (SysChown "/dev/socket/usbd");;
  sys_ os (SysChmod "/dev/socket/usbd");;
  mret 0.

(** The modes the tables are searched for: from [USB_MODE_MIN] below [USB_MODE_MAX]. *)
Definition searched_modes : list USB_MODE_T := take 26 all_modes.

(** The first mode whose request is [buf]; [None] when the loop ends at [USB_MODE_MAX]. *)
Definition find_mode_req (buf : string) : option USB_MODE_T :=
  snd <$> list_find (fun m => match um_mode_req (mode_data m) with
                              | Some r => streq buf r
                              | None => false
                              end = true) searched_modes.

Definition usbd_socket_event (client_fd : Z) : M Z :=
  '(rc, buf) ← sys_read client_fd SOCKET_BUFFER_SIZE;
  if rc <? 0 then mret (-1) else
  if rc =? 0 then sys_ os (SysClose client_fd);; mret (- ECONNRESET) else
  cable ← get usbd_curr_cable_status;
  if decide (cable = MOTO_ACCY_TYPE_EMU_CABLE_FACTORY) then mret 0 else
  match find_mode_req buf with
  | None => mret 0
  | Some i =>
      if decide (i = USB_MODE_MIN) then usbd_set_usb_mode i;; mret 0 else
      rc ← match um_resp_ok (mode_data i) with
           | Some ok => write_str client_fd ok
           | None => mret rc
           end;
      if rc <? 0 then mret (-1) else
      cur ← get usbd_curr_usb_mode;
      if decide (cur = i) then
        match um_mode_done (mode_data cur) with
        | Some d => rc ← write_str client_fd d; if rc <? 0 then mret (-1) else mret 0
        | None => mret 0
        end
      else
        online ← get current_usb_online;
        if (online : bool) then usbd_set_usb_mode i;; mret 0 else mret 0
  end.

Definition usbd_get_maxfd : M Z :=
  get (fun s => Z.max (Z.max (Z.max (uevent_sock s) (usb_device_fd s)) (usbd_server_fd s))
                  (usbd_app_fd s)).

Definition refresh_max_fd : M unit := fd ← usbd_get_maxfd; modify (set_max_fd fd).

(** The four lines that drop the application's connection. *)
Definition clear_app : M unit :=
  modify (fun s => set_connected_apps_fd (connected_apps_fd s ∖ {[usbd_app_fd s]}) s);;
  modify (set_usbd_app_fd (-1));;
  refresh_max_fd.

Definition usbd_save_socket_fd (newfd : Z) : M unit :=
  app ← get usbd_app_fd;
  if app =? -1 then
    modify (fun s => set_connected_apps_fd ({[newfd]} ∪ connected_apps_fd s) s);;
    modify (set_usbd_app_fd newfd)
  else mret tt.

Definition usbd_get_startup_mode : M MOTO_MODE_TYPE_T :=
  '(_, buf) ← property_get "ro.usb_mode" "normal";
  if streq buf "debug" then mret MOTO_MODE_TYPE_DEBUG else
  '(_, buf) ← property_get "persist.usb.android_config" "0";
  if streq buf "1" then mret MOTO_MODE_TYPE_DEBUG else
  '(_, buf) ← property_get "ro.bootmode" "normal";
  if streq buf "bp-tools" then mret MOTO_MODE_TYPE_BPTOOLS else
  mret (if USBD_TABLET_MODE cfg then MOTO_MODE_TYPE_TABLET else MOTO_MODE_TYPE_NORMAL).

Definition usbd_enumerate_default_mode : M unit :=
  mode ← get usbd_mode;
  let enumerate (with_adb without : USB_MODE_T) : M unit :=
    en ← usbd_get_adb_property;
    usbd_set_usb_mode (if truth en then with_adb else without);; mret tt in
  match mode with
  | MOTO_MODE_TYPE_DEBUG => enumerate USB_MODE_MSC_ADB USB_MODE_MSC
  | MOTO_MODE_TYPE_BPTOOLS => enumerate USB_MODE_BPTOOLS_ETH_ADB USB_MODE_BPTOOLS_ETH
  | MOTO_MODE_TYPE_TABLET => enumerate USB_MODE_TABLET_NETWORK_MTP_ADB USB_MODE_CDROM
  | _ => mret tt
  end.

Definition usbd_factorycable_adb_enabled : M bool :=
  '(_, buf) ← property_get "persist.factory.allow_adb" "0";
  mret (streq buf "1").

Definition usbd_send_adb_status (newfd en_flag : Z) : M Z :=
  write_str newfd (if en_flag =? 1 then USBD_EVENT_ADB_ON else USBD_EVENT_ADB_OFF).

Definition usbd_send_tethering_status (newfd en_flag : Z) : M Z :=
  write_str newfd (if en_flag =? 1 then USBD_EVENT_TETHERING_ON else USBD_EVENT_TETHERING_OFF).

Definition notification_message (st : USBD_STATE_T) : option string :=
  match st with
  | USBD_STATE_CABLE_ATTACHED => Some USBD_CABLE_ATTACHED
  | USBD_STATE_CABLE_DETACHED => Some USBD_CABLE_DETACHED
  | USBD_STATE_ENUM_IN_PROGRESS => Some USBD_GET_DESCRIPTOR
  | USBD_STATE_ENUMERATED => Some USBD_ENUMERATED
  | USBD_STATE_CABLE_DEFAULT => None
  end.

Definition usbd_notify_current_status (appfd : Z) : M Z :=
  st ← get usbd_current_state;
  match notification_message st with
  | Some msg => rc ← write_str appfd msg; mret (if rc <? 0 then -1 else rc)
  | None => mret 0
  end.

Definition usbd_enum_process (newfd : Z) : M Z :=
  cur ← get usbd_curr_usb_mode;
  call_hook (um_enable_done (mode_data cur));;
  match um_mode_done (mode_data cur) with
  | Some d =>
      if 0 <=? newfd then rc ← write_str newfd d; mret (if rc <? 0 then -1 else 0)
      else mret 0
  | None => mret 0
  end.

(** The first mode of that name which has a switch request. *)
Definition find_switch (tag : string) : option (USB_MODE_T * string) :=
  m ← snd <$> list_find (fun m => streq (um_name (mode_data m)) tag = true /\
                                  is_Some (um_switch_req (mode_data m))) searched_modes;
  r ← um_switch_req (mode_data m);
  Some (m, r).

Definition usb_req_mode_switch (tag : string) : M unit :=
  en_flag ← usbd_get_adb_property;
  if en_flag <? 0 then mret tt else
  match find_switch tag with
  | None => if streq tag "cdrom2" then usbd_set_usb_mode USB_MODE_CDROM2;; mret tt else mret tt
  | Some (_, temp_ptr) =>
      cur ← get usbd_curr_usb_mode;
      if decide (cur = USB_MODE_CDROM \/ cur = USB_MODE_CDROM2) then
        mode ← get usbd_mode;
        tethering ← get tethering_enabled;
        let pick (adb no_adb : USB_MODE_T) : M unit :=
          if en_flag =? 0 then usbd_set_usb_mode no_adb;; mret tt
          else if en_flag =? 1 then usbd_set_usb_mode adb;; mret tt else mret tt in
        if decide (mode = MOTO_MODE_TYPE_TABLET) then
          if (tethering : bool) then pick USB_MODE_RNDIS_ADB USB_MODE_RNDIS
          else pick USB_MODE_TABLET_NETWORK_MTP_ADB USB_MODE_TABLET_NETWORK_MTP
        else pick USB_MODE_NGP_ADB USB_MODE_NGP
      else
        app ← get usbd_app_fd;
        if 0 <=? app then
          rc ← write_str app temp_ptr;
          when (rc <? 0) clear_app
        else mret tt
  end.

(** [None] is the result -1; the byte before the end is replaced by NUL. *)
Definition copy_string_from_file (filename : string) (size : Z) : M (option string) :=
  r ← sys os (SysOpen filename);
  let fd := r_val r in
  if fd =? -1 then mret None else
  '(count, data) ← sys_read fd size;
  sys_ os (SysClose fd);;
  mret (if count <? 0 then None
        else if 0 <? count then Some (cstr (str_take (Z.to_nat (count - 1)) data))
        else Some "").

(** [None] is the result -1. *)
Definition readUsbSwitchState : M (option MOTO_ACCY_TYPE_T) :=
  r ← sys os (SysReadFile USB_SWITCH_STATE_PATH);
  if r_val r <? 0 then mret None else
  mret match r_data r with
       | EmptyString => None
       | String c _ =>
           if Ascii.eqb c "1" then Some MOTO_ACCY_TYPE_EMU_CABLE_USB
           else if Ascii.eqb c "2" then Some MOTO_ACCY_TYPE_EMU_CABLE_FACTORY
           else Some MOTO_ACCY_TYPE_EMU_UNKNOWN
       end.

(** *** Kernel events *)

(** [ACTION=] and [SUBSYSTEM=] of the strings of an event: the last of each. *)
Fixpoint uevent_fields (l : list string) (a subsys : option string)
    : option string * option string :=
  match l with
  | [] => (a, subsys)
  | s :: l =>
      if strneq 7 "ACTION=" s then uevent_fields l (Some (str_drop 7 s)) subsys
      else if strneq 10 "SUBSYSTEM=" s then uevent_fields l a (Some (str_drop 10 s))
      else uevent_fields l a subsys
  end.

(** [for (p = end, paren_count = 6; p > s; p--)]: the position of the dash
    before the sixth slash from the end, with the position of that slash. *)
Fixpoint dev_scan (p : nat) (path : string) (paren_count tmp : nat) : option (nat * nat) :=
  match p with
  | O => None
  | S p' =>
      let c := String.get p path in
      match paren_count with
      | S n => if decide (c = Some "/"%char) then dev_scan p' path n p
               else dev_scan p' path paren_count tmp
      | O => if decide (c = Some "-"%char) then Some (p, tmp) else dev_scan p' path 0 tmp
      end
  end.

(** What [%s] prints for [dev_path] afterwards: the <device> part, or what the
    library prints for the NULL pointer the code sets. *)
Definition device_name (dev_path : string) : string :=
  match dev_scan (String.length dev_path) dev_path 6 0 with
  | Some (p, tmp) => str_take (tmp - p - 1) (str_drop (p + 1) dev_path)
  | None => "(null)"
  end.

Definition scsi_event (buffer : string) : M unit :=
  match str_index "@" buffer with
  | None => fail_with OutOfBounds
  | Some at_ =>
      let dev_path := cstr (str_drop (at_ + 1) buffer) in
      let '(a, subsys) := uevent_fields (nul_split (String.length buffer) buffer) None None in
      match a, subsys with
      | Some a, Some subsys =>
          if streq subsys "scsi_device" && (streq a "add" || streq a "remove") then
            filename ← sprintf_buf 255 ("/sys" ++ dev_path ++ "/device/type");
            ty ← copy_string_from_file filename 128;
            match ty with
            | None => mret tt
            | Some ty =>
                if negb (streq ty "0") then mret tt else
                filename ← sprintf_buf 255 ("/sys" ++ dev_path ++ "/device/model");
                pr ← copy_string_from_file filename 128;
                let prodname := default "NONAME" pr in
                app ← get usbd_app_fd;
                let event := if streq a "add" then USBD_DISK_ATTACH else USBD_DISK_DETACH in
                write_str app (snprintf 255 (event ++ ":" ++ prodname ++ ":/mnt/usbdisk_" ++
                                             device_name dev_path)%string);;
                mret tt
            end
          else mret tt
      | _, _ => mret tt
      end
  end.

(** The cable part of [process_usb_uevent_message]: returns [busbEvent]. *)
Definition cable_event : M bool :=
  o ← readUsbSwitchState;
  match o with
  | None => mret false
  | Some status =>
      modify (set_usbd_curr_cable_status status);;
      if decide (status = MOTO_ACCY_TYPE_EMU_UNKNOWN) then
        modify (set_current_usb_online false);;
        modify (set_usbd_current_state USBD_STATE_CABLE_DETACHED);;
        modify (set_usb_get_des_count 0);;
        fd ← get usb_device_fd;
        sys_ os (SysWrite fd (with_nul "usb_cable_detach"));;
        mret true
      else
        modify (set_current_usb_online true);;
        modify (set_usbd_current_state USBD_STATE_CABLE_ATTACHED);;
        mret true
  end.

Definition process_usb_uevent_message (socket : Z) : M bool :=
  r ← sys os (SysRecvmsg socket);
  let count := r_val r in
  if count <=? 0 then mret false else
  if negb (r_groups r =? 1) || negb (r_pid r =? 0) then mret false else
  match r_cred r with
  | None => mret false
  | Some uid =>
      if negb (uid =? 0) then mret false else
      if USBD_UEVENT_MSG_LEN - 1 <=? count then mret false else
      let buffer := str_take (Z.to_nat count) (r_data r) in
      if strcasestr buffer "usb_connected" && strcasestr buffer "switch" then cable_event
      else if strcasestr buffer "scsi_device" then scsi_event buffer;; mret false
      else mret false
  end.

Definition uevent_socket_init : M Z :=
  r ← sys os SysUeventSocket;
  let fd := r_val r in
  modify (set_uevent_sock fd);;
  if fd <? 0 then mret (-1) else
  r ← sys os (SysSetsockopt fd "SO_RCVBUFFORCE");
  if r_val r <? 0 then mret (-1) else
  r ← sys os (SysSetsockopt fd "SO_PASSCRED");
  if r_val r <? 0 then mret (-1) else
  r ← sys os (SysBind fd);
  mret (if r_val r <? 0 then -1 else 0).

Definition usbd_get_flashdrive_status : M Z :=
  r ← sys os (SysReadDir SCSI_DEVICE_PATH);
  if r_val r <? 0 then mret (-1) else
  match list_find (fun e => strneq 5 "host" e = true) (r_entries r) with
  | Some (_, e) =>
      sys_ os (SysWriteFile (snprintf 256 (SCSI_DEVICE_PATH ++ "/" ++ e ++ "/uevent")%string) "add");;
      mret 0
  | None => mret 0
  end.

Definition usbd_get_initial_cable_status : M Z :=
  modify (set_current_usb_online false);;
  modify (set_usbd_current_state USBD_STATE_CABLE_DEFAULT);;
  o ← readUsbSwitchState;
  match o with
  | None => mret (-1)
  | Some status =>
      modify (set_usbd_curr_cable_status status);;
      when (bool_decide (status <> MOTO_ACCY_TYPE_EMU_UNKNOWN))
        (modify (set_current_usb_online true);;
         modify (set_usbd_current_state USBD_STATE_CABLE_ATTACHED));;
      mret 0
  end.

(** The mode a factory cable is given. *)
Definition set_factory_mode : M unit :=
  adb ← usbd_factorycable_adb_enabled;
  usbd_set_usb_mode (if (adb : bool) then USB_MODE_NETWORK_ADB else USB_MODE_NETWORK);;
  mret tt.

Definition usbd_handle_cable_status_change : M unit :=
  cable ← get usbd_curr_cable_status;
  if decide (cable = MOTO_ACCY_TYPE_EMU_CABLE_FACTORY) then set_factory_mode else
  alt ← get usb_alt_mode;
  if negb alt then
    app ← get usbd_app_fd;
    if 0 <=? app then
      rc ← usbd_notify_current_status app;
      when (rc <? 0) clear_app
    else mret tt
  else if decide (cable = MOTO_ACCY_TYPE_EMU_CABLE_USB) then
    modify (set_tethering_enabled false);;
    usbd_enumerate_default_mode
  else mret tt.

(** *** main *)

(** The globals before [main]; the buffers of [main] hold anything. *)
Definition initial (pc adb tether : string) : usbd :=
  mk_usbd USB_MODE_MIN USBD_STATE_CABLE_DEFAULT ∅ (-1) (-1) (-1) 0 (-1) 0 false
    MOTO_MODE_TYPE_NORMAL false false MOTO_ACCY_TYPE_EMU_UNKNOWN "" false pc adb tether [].

(** [main] from the file descriptor set to the loop. *)
Definition main_start : M unit :=
  modify (fun s => set_connected_apps_fd
    ({[uevent_sock s; usb_device_fd s]} ∪ (if usb_alt_mode s then ∅ else {[usbd_server_fd s]})) s);;
  refresh_max_fd;;
  cdrom_smart_version_mount true;;
  _ ← cdrom_read_version_key;
  cdrom_smart_version_mount false;;
  online ← get current_usb_online;
  cable ← get usbd_curr_cable_status;
  alt ← get usb_alt_mode;
  when online
    (if decide (cable = MOTO_ACCY_TYPE_EMU_CABLE_FACTORY) then set_factory_mode
     else if alt && bool_decide (cable = MOTO_ACCY_TYPE_EMU_CABLE_USB)
     then usbd_enumerate_default_mode else mret tt).

(** The code before the loop: [Some rc] when [main] returns. *)
Definition main_init : M (option Z) :=
  modify (set_usbd_app_fd (-1));;
  rc ← uevent_socket_init;
  if rc <? 0 then mret (Some (-1)) else
  r ← sys os (SysOpen "/dev/usb_device_mode");
  modify (set_usb_device_fd (r_val r));;
  if r_val r <? 0 then mret (Some (- r_errno r)) else
  mode ← usbd_get_startup_mode;
  modify (set_usbd_mode mode);;
  when (bool_decide (mode <> MOTO_MODE_TYPE_NORMAL)) (modify (set_usb_alt_mode true));;
  alt ← get usb_alt_mode;
  rc ← (if negb alt then usbd_socket_init else mret 0);
  if rc <? 0 then
    r' ← sys os (SysClose (r_val r)); mret (Some (- r_errno r'))
  else
  rc ← usbd_get_initial_cable_status;
  if rc <? 0 then mret (Some (-1)) else
  main_start;;
  mret None.

(** [sscanf(src, "%[^:]", buf)] with [buf] of [size] bytes holding [old]:
    nothing is written when the field is empty. *)
Definition scan_field (size : nat) (src old : string) : M string :=
  let t := take_until ":" (cstr src) in
  if decide (t = "") then mret old
  else if bool_decide (size <= String.length t)%nat then fail_with OutOfBounds
  else mret t.

(** The enumeration part of a device event. *)
Definition enum_event (enubuf : string) : M unit :=
  if strneq 8 enubuf "get_desc" then
    modify (fun s => set_usb_get_des_count (usb_get_des_count s + 1) s);;
    n ← get usb_get_des_count;
    if n =? 1 then
      modify (set_usbd_current_state USBD_STATE_ENUM_IN_PROGRESS);;
      app ← get usbd_app_fd;
      if 0 <=? app then
        rc ← write_str app USBD_GET_DESCRIPTOR;
        when (rc <? 0) clear_app
      else mret tt
    else mret tt
  else if strneq 10 enubuf "enumerated" then
    modify (set_usbd_current_state USBD_STATE_ENUMERATED);;
    app ← get usbd_app_fd;
    rc ← usbd_enum_process app;
    when (rc <? 0) clear_app
  else mret tt.

(** Tell the application about the ADB and tethering words of a device event. *)
Definition forward_status (app : Z) (adb tether : string) : M unit :=
  (if streq adb "adb_enable" then usbd_send_adb_status app 1;; mret tt
   else if streq adb "adb_disable" then usbd_send_adb_status app 0;; mret tt
   else mret tt);;
  if streq tether "tethering_enable" then usbd_send_tethering_status app 1;; mret tt
  else if streq tether "tethering_disable" then usbd_send_tethering_status app 0;; mret tt
  else mret tt.

(** What the loop does with a device event while the cable is a factory cable. *)
Definition factory_event (adb : string) : M unit :=
  allowed ← usbd_factorycable_adb_enabled;
  if allowed && streq adb "adb_enable" then usbd_set_usb_mode USB_MODE_NETWORK_ADB;; mret tt
  else if streq adb "adb_disable" then usbd_set_usb_mode USB_MODE_NETWORK;; mret tt
  else mret tt.

(** What it does with the four fields of an event otherwise. *)
Definition device_actions (pc adb tether enubuf : string) : M unit :=
  alt ← get usb_alt_mode;
  online ← get current_usb_online;
  app ← get usbd_app_fd;
  (if alt && online then
     mode ← get usbd_mode;
     _ ← usbd_alt_mode_set mode adb tether; mret tt
   else if 0 <=? app then forward_status app adb tether else mret tt);;
  cable ← get usbd_curr_cable_status;
  online ← get current_usb_online;
  if bool_decide (cable = MOTO_ACCY_TYPE_EMU_CABLE_USB) && online then
    when (negb (streq pc "none")) (usb_req_mode_switch pc);;
    enum_event enubuf
  else mret tt.

(** The branch of the loop for the USB device. *)
Definition usb_device_event : M unit :=
  fd ← get usb_device_fd;
  '(rc, devbuf) ← sys_read fd 89;
  if rc <=? 0 then mret tt else
  old ← get pcSwitchbuf;
  pc ← scan_field 50 devbuf old;
  modify (set_pcSwitchbuf pc);;
  old ← get adbEnablebuf;
  adb ← scan_field 20 (str_drop (String.length pc + 1) devbuf) old;
  modify (set_adbEnablebuf adb);;
  cable ← get usbd_curr_cable_status;
  if decide (cable = MOTO_ACCY_TYPE_EMU_CABLE_FACTORY) then factory_event adb else
  old ← get tetheringEnablebuf;
  tether ← scan_field 20 (str_drop (String.length pc + String.length adb + 2) devbuf) old;
  modify (set_tetheringEnablebuf tether);;
  let used := (String.length pc + String.length adb + String.length tether)%nat in
  device_actions pc adb tether
    (str_take (String.length (cstr devbuf) - used - 2) (str_drop (used + 3) devbuf)).

(** The branch for the listening socket: an application connects. *)
Definition usbd_server_event : M unit :=
  server ← get usbd_server_fd;
  r ← sys os (SysAccept server);
  let newfd := r_val r in
  if newfd <? 0 then mret tt else
  usbd_save_socket_fd newfd;;
  refresh_max_fd;;
  en_flag ← usbd_get_adb_property;
  usbd_send_adb_status newfd en_flag;;
  cable ← get usbd_curr_cable_status;
  (if decide (cable = MOTO_ACCY_TYPE_EMU_CABLE_FACTORY) then mret tt
   else usbd_notify_current_status newfd;; mret tt);;
  usbd_get_flashdrive_status;;
  mret tt.

(** The branch for the connected application. *)
Definition usbd_app_event : M unit :=
  app ← get usbd_app_fd;
  rc ← usbd_socket_event app;
  when (rc <? 0) clear_app.

(** One turn of [while (1)]: [rset] is the set [select] leaves. *)
Definition main_iter (rset : gset Z) : M unit :=
  us ← get uevent_sock;
  when (bool_decide (us ∈ rset))
    (ev ← process_usb_uevent_message us;
     when ev usbd_handle_cable_status_change);;
  dev ← get usb_device_fd;
  when (bool_decide (dev ∈ rset)) usb_device_event;;
  alt ← get usb_alt_mode;
  server ← get usbd_server_fd;
  when (negb alt && bool_decide (server ∈ rset)) usbd_server_event;;
  app ← get usbd_app_fd;
  when (negb alt && (0 <=? app) && bool_decide (app ∈ rset)) usbd_app_event.

(** The loop, for the successive results of [select]. *)
Fixpoint main_loop (rsets : list (gset Z)) : M unit :=
  match rsets with
  | [] => mret tt
  | rset :: rsets => main_iter rset;; main_loop rsets
  end.

End Usbd.
