(* ===== verification/UsbdLogic.v ===== *)
(** * The USB daemon: invariants of the monad

    [inv I m]: the operation [m] keeps [I] whenever it does not fault.  The
    rules follow the structure of a program, [inv_auto] applies them; the
    lemmas an operation proves about itself are in the hint database [usbd]. *)

From stdpp Require Import base list numbers option strings gmap.
From Stdlib Require Import Ascii String ZArith Lia.
From S2P Require Import Prelude CStrings UsbdState Usbd.

Local Open Scope Z_scope.

Create HintDb usbd discriminated.

Definition triple {A} (P : usbd -> Prop) (m : M A) (Q : A -> usbd -> Prop) : Prop :=
  forall s a s', P s -> m s = Ok (a, s') -> Q a s'.

Definition inv {A} (I : usbd -> Prop) (m : M A) : Prop := triple I m (fun _ => I).

Lemma M_bind_inv {A B} (m : M A) (f : A -> M B) s b s' :
  (m ≫= f) s = Ok (b, s') -> exists a s1, m s = Ok (a, s1) /\ f a s1 = Ok (b, s').
Proof.
  unfold mbind, M_bind. destruct (m s) as [[a s1]|]; [|done]. eauto.
Qed.

Lemma triple_bind {A B} P (R : A -> usbd -> Prop) Q (m : M A) (f : A -> M B) :
  triple P m R -> (forall a, triple (R a) (f a) Q) -> triple P (m ≫= f) Q.
Proof.
  intros Hm Hf s b s' HP H. apply M_bind_inv in H as (a & s1 & H1 & H2).
  exact (Hf a s1 b s' (Hm s a s1 HP H1) H2).
Qed.

Lemma triple_conseq {A} (P P' : usbd -> Prop) (Q Q' : A -> usbd -> Prop) (m : M A) :
  (forall s, P s -> P' s) -> (forall a s, Q' a s -> Q a s) -> triple P' m Q' -> triple P m Q.
Proof. unfold triple. eauto. Qed.

Section rules.
Context (I : usbd -> Prop).

Lemma inv_ret {A} (a : A) : inv I (mret a).
Proof. intros s b s' HI H. by inversion H; subst. Qed.

Lemma inv_fail {A} f : inv I (fail_with (A := A) f).
Proof. intros s b s' HI H. done. Qed.

Lemma inv_bind {A B} (m : M A) (f : A -> M B) :
  inv I m -> (forall a, inv I (f a)) -> inv I (m ≫= f).
Proof. apply triple_bind. Qed.

Lemma inv_assoc {A} (m n : M unit) (f : M A) : inv I ((m;; n);; f) -> inv I (m;; n;; f).
Proof.
  intros H s a s' HI Hr. apply (H s a s' HI). revert Hr.
  unfold mbind, M_bind. by destruct (m s) as [[[] s1]|].
Qed.

(** After a [get] the value is that of a state with the invariant. *)
Lemma inv_get_bind {A B} (g : usbd -> A) (f : A -> M B) :
  (forall s, I s -> inv I (f (g s))) -> inv I (get g ≫= f).
Proof.
  intros Hf s b s' HI H. apply M_bind_inv in H as (a & s1 & H1 & H2).
  inversion H1; subst. exact (Hf s1 HI s1 b s' HI H2).
Qed.

Lemma inv_get {A} (g : usbd -> A) : inv I (get g).
Proof. intros s b s' HI H. by inversion H; subst. Qed.

Lemma inv_modify g : (forall s, I s -> I (g s)) -> inv I (modify g).
Proof. intros Hg s b s' HI H. inversion H; subst. eauto. Qed.

Lemma inv_when c (m : M unit) : (c = true -> inv I m) -> inv I (when c m).
Proof. destruct c; cbn [when]; intros H; [by apply H|apply inv_ret]. Qed.

Lemma inv_if {A} (c : bool) (m n : M A) :
  (c = true -> inv I m) -> (c = false -> inv I n) -> inv I (if c then m else n).
Proof. destruct c; auto. Qed.

Lemma inv_dec {A} {P} (d : Decision P) (m n : M A) :
  (P -> inv I m) -> (~ P -> inv I n) -> inv I (if d then m else n).
Proof. destruct d; auto. Qed.

End rules.

(** The reply of a call is one [os] gives for some trace. *)
Lemma inv_sys_bind {B} os (I : usbd -> Prop) c (f : reply -> M B) :
  (forall s, I s -> I (set_trace ((c, os (trace s) c) :: trace s) s)) ->
  (forall tr, inv I (f (os tr c))) -> inv I (sys os c ≫= f).
Proof.
  intros HI Hf s b s' Hs H. apply M_bind_inv in H as (a & s1 & H1 & H2).
  inversion H1; subst. eapply Hf; [|exact H2]. auto.
Qed.

Lemma inv_sys os (I : usbd -> Prop) c :
  (forall s, I s -> I (set_trace ((c, os (trace s) c) :: trace s) s)) -> inv I (sys os c).
Proof. intros HI s b s' Hs H. inversion H; subst. auto. Qed.

(** One structural step; a goal about the state is left to the caller. *)
Ltac inv_step :=
  match goal with
  | |- inv _ (mret _) => apply inv_ret
  | |- inv _ (fail_with _) => apply inv_fail
  | |- inv _ (sys _ _ ≫= _) => apply inv_sys_bind; [|intros]
  | |- inv _ (sys_ _ _) => unfold sys_
  | |- inv _ (get _ ≫= _) => apply inv_get_bind; intros
  | |- inv _ (get _) => apply inv_get
  | |- inv _ (_ ≫= _) => apply inv_bind; [|intros]
  | |- inv _ (modify _) => apply inv_modify; intros
  | |- inv _ (when _ _) => apply inv_when; intros
  | |- inv _ (sys _ _) => apply inv_sys
  | |- inv _ (if decide _ then _ else _) => apply inv_dec; intros
  | |- inv _ (if ?c then _ else _) => first [apply inv_if; intros | destruct c]
  | |- inv _ (match ?x with _ => _ end) => destruct x eqn:?
  | |- inv _ (let _ := _ in _) => cbv zeta
  end.

Ltac inv_auto := repeat first [solve [auto with usbd nocore] | inv_step].

(** Results of a deterministic run, for functional statements. *)
Lemma M_bind_ok {A B} (m : M A) (f : A -> M B) s a s1 :
  m s = Ok (a, s1) -> (m ≫= f) s = f a s1.
Proof. intros H. unfold mbind, M_bind. by rewrite H. Qed.

(** Run straight-line code in a hypothesis: one case per path. *)
Ltac run_in H :=
  cbv [mbind M_bind sys sys_ modify get mret M_ret when fail_with] in H;
  repeat (case_match; try done); simplify_eq.

(** ** Freedom from faults *)

Definition total {A} (m : M A) : Prop := forall s, exists a s', m s = Ok (a, s').

Lemma total_ret {A} (a : A) : total (mret a).
Proof. intros s. by exists a, s. Qed.

Lemma total_bind {A B} (m : M A) (f : A -> M B) :
  total m -> (forall a, total (f a)) -> total (m ≫= f).
Proof.
  intros Hm Hf s. destruct (Hm s) as (a & s1 & H1). rewrite (M_bind_ok _ _ _ _ _ H1). apply Hf.
Qed.

Lemma total_get {A} (g : usbd -> A) : total (get g).
Proof. intros s. by exists (g s), s. Qed.

Lemma total_modify g : total (modify g).
Proof. intros s. by exists tt, (g s). Qed.

Lemma total_sys_bind {B} os c (f : reply -> M B) :
  (forall tr, total (f (os tr c))) -> total (sys os c ≫= f).
Proof. intros Hf s. unfold mbind, M_bind, sys. apply Hf. Qed.

Lemma total_sys os c : total (sys os c).
Proof. intros s. eexists _, _. reflexivity. Qed.

Lemma total_when c (m : M unit) : (c = true -> total m) -> total (when c m).
Proof. destruct c; cbn [when]; intros H; [by apply H|apply total_ret]. Qed.

Ltac total_step :=
  match goal with
  | |- total (mret _) => apply total_ret
  | |- total (sys_ _ _) => unfold sys_
  | |- total (sys _ _ ≫= _) => apply total_sys_bind; intros
  | |- total (_ ≫= _) => apply total_bind; [|intros]
  | |- total (get _) => apply total_get
  | |- total (modify _) => apply total_modify
  | |- total (sys _ _) => apply total_sys
  | |- total (when _ _) => apply total_when; intros
  | |- total (if ?c then _ else _) => destruct c eqn:?
  | |- total (match ?x with _ => _ end) => destruct x eqn:?
  | |- total (let _ := _ in _) => cbv zeta
  end.

Ltac total_auto := repeat first [solve [auto with usbd nocore] | total_step].
