(* ===== verification/UsbdFacts.v ===== *)
(** * The USB daemon: its invariants and behaviour

    Theorems about Usbd.v, for every environment [os]: the bookkeeping of the
    main loop, what the mode switches leave exported to the host, the protocol
    with the application, the decoding of device events, the loop devices of
    the CD-ROM image and the authentication of kernel events. *)

From stdpp Require Import base list numbers option strings gmap sets pretty.
From Stdlib Require Import Ascii String ZArith Lia.
From S2P Require Import Prelude CStrings UsbdState Usbd UsbdLogic.

Local Open Scope string_scope.
Local Open Scope Z_scope.

(** ** The bookkeeping of the main loop *)

(** What stays fixed between two kernel events. *)
Record fixture := mk_fixture {
  k_uevent : Z;
  k_device : Z;
  k_server : Z;
  k_alt : bool;
  k_cable : MOTO_ACCY_TYPE_T }.

Definition k_online (k : fixture) : bool := bool_decide (k_cable k <> MOTO_ACCY_TYPE_EMU_UNKNOWN).

(** The states in which a cable is attached. *)
Definition attached_state (st : USBD_STATE_T) : bool :=
  match st with
  | USBD_STATE_CABLE_DEFAULT | USBD_STATE_CABLE_DETACHED => false
  | USBD_STATE_CABLE_ATTACHED | USBD_STATE_ENUM_IN_PROGRESS | USBD_STATE_ENUMERATED => true
  end.

(** The descriptors [select] has to watch. *)
Definition watched (k : fixture) (app : Z) : gset Z :=
  {[k_uevent k; k_device k]} ∪ (if k_alt k then ∅ else {[k_server k]})
  ∪ (if bool_decide (0 <= app) then {[app]} else ∅).

Record book (k : fixture) (s : usbd) : Prop := mk_book {
  bk_uevent : uevent_sock s = k_uevent k;
  bk_device : usb_device_fd s = k_device k;
  bk_server : usbd_server_fd s = k_server k;
  bk_alt : usb_alt_mode s = k_alt k;
  bk_cable : usbd_curr_cable_status s = k_cable k;
  bk_online : current_usb_online s = k_online k;
  bk_state : attached_state (usbd_current_state s) = k_online k;
  bk_app : usbd_app_fd s = -1 \/
    (0 <= usbd_app_fd s /\ k_alt k = false /\ usbd_app_fd s <> k_uevent k /\
     usbd_app_fd s <> k_device k /\ usbd_app_fd s <> k_server k);
  bk_set : connected_apps_fd s = watched k (usbd_app_fd s);
  bk_max : max_fd s = Z.max (Z.max (Z.max (k_uevent k) (k_device k)) (k_server k)) (usbd_app_fd s) }.

Record fixture_ok (k : fixture) : Prop := mk_fixture_ok {
  ko_uevent : 0 <= k_uevent k;
  ko_device : 0 <= k_device k;
  ko_server : k_alt k = false -> 0 <= k_server k }.

(** [accept] returns a descriptor that was not open. *)
Definition accept_fresh (os : environment) (k : fixture) : Prop :=
  forall tr, let fd := r_val (os tr (SysAccept (k_server k))) in
  fd <> k_uevent k /\ fd <> k_device k /\ fd <> k_server k.

Section book.
Context (cfg : config) (os : environment) (k : fixture) (Hk : fixture_ok k).

Ltac book_frame := intros; match goal with H : book _ _ |- _ => destruct H; constructor; done end.

Lemma book_trace s x : book k s -> book k (set_trace x s).
Proof. book_frame. Qed.
Lemma book_mode s x : book k s -> book k (set_usbd_curr_usb_mode x s).
Proof. book_frame. Qed.
Lemma book_loop s x : book k s -> book k (set_curr_loop_dev x s).
Proof. book_frame. Qed.
Lemma book_mounted s x : book k s -> book k (set_cdrom_mounted x s).
Proof. book_frame. Qed.
Lemma book_tether s x : book k s -> book k (set_tethering_enabled x s).
Proof. book_frame. Qed.
Lemma book_count s x : book k s -> book k (set_usb_get_des_count x s).
Proof. book_frame. Qed.
Lemma book_pc s x : book k s -> book k (set_pcSwitchbuf x s).
Proof. book_frame. Qed.
Lemma book_adb s x : book k s -> book k (set_adbEnablebuf x s).
Proof. book_frame. Qed.
Lemma book_tetherbuf s x : book k s -> book k (set_tetheringEnablebuf x s).
Proof. book_frame. Qed.

#[local] Hint Resolve book_trace book_mode book_loop book_mounted book_tether book_count
  book_pc book_adb book_tetherbuf : usbd.

Lemma book_loop_scan ixs : inv (book k) (loop_scan os ixs).
Proof. induction ixs; cbn [loop_scan]; inv_auto. Qed.
#[local] Hint Resolve book_loop_scan : usbd.

Lemma book_partition b : inv (book k) (cdrom_partition_mount cfg os b).
Proof.
  unfold cdrom_partition_mount, loop_partition_mount, loop_create. inv_auto.
Qed.
#[local] Hint Resolve book_partition : usbd.

Lemma book_hook o : inv (book k) (call_hook cfg os o).
Proof. destruct o as [h|]; cbn [call_hook]; [destruct h; cbn [run_hook]; unfold echo|]; inv_auto. Qed.
#[local] Hint Resolve book_hook : usbd.

Lemma book_set_mode m : inv (book k) (usbd_set_usb_mode cfg os m).
Proof. unfold usbd_set_usb_mode. inv_auto. Qed.
#[local] Hint Resolve book_set_mode : usbd.

Lemma book_write fd m : inv (book k) (write_str os fd m).
Proof. unfold write_str. inv_auto. Qed.
Lemma book_property key d : inv (book k) (property_get os key d).
Proof. unfold property_get. inv_auto. Qed.
Lemma book_read fd n : inv (book k) (sys_read os fd n).
Proof. unfold sys_read. inv_auto. Qed.
#[local] Hint Resolve book_write book_property book_read : usbd.

Lemma book_adb_property : inv (book k) (usbd_get_adb_property os).
Proof. unfold usbd_get_adb_property. inv_auto. Qed.
#[local] Hint Resolve book_adb_property : usbd.

Lemma book_alt_set m a t : inv (book k) (usbd_alt_mode_set cfg os m a t).
Proof. unfold usbd_alt_mode_set. inv_auto. Qed.
#[local] Hint Resolve book_alt_set : usbd.

(** Dropping the application, also when there is none, keeps the books. *)
Lemma book_clear_app : inv (book k) clear_app.
Proof.
  intros s [] s' Hb H. destruct Hk, Hb. revert H.
  cbv [clear_app refresh_max_fd usbd_get_maxfd mbind M_bind modify get]. intros [= <-].
  constructor; cbn; try done; [by left| |congruence].
  rewrite bk_set0. unfold watched. destruct bk_app0 as [->|(? & ? & ? & ? & ?)].
  - rewrite bool_decide_eq_false_2 by lia.
    destruct (k_alt k); apply set_eq; intros x; set_unfold; [lia|].
    specialize (ko_server0 Logic.I). lia.
  - rewrite bool_decide_eq_true_2, H0 by done. rewrite bool_decide_eq_false_2 by lia.
    clear bk_set0 bk_max0. apply set_eq. intros x. set_unfold. lia.
Qed.
#[local] Hint Resolve book_clear_app : usbd.

Lemma book_notify fd : inv (book k) (usbd_notify_current_status os fd).
Proof. unfold usbd_notify_current_status. inv_auto. Qed.
Lemma book_enum_process fd : inv (book k) (usbd_enum_process cfg os fd).
Proof. unfold usbd_enum_process. inv_auto. Qed.
Lemma book_req_switch tag : inv (book k) (usb_req_mode_switch cfg os tag).
Proof. unfold usb_req_mode_switch. inv_auto. Qed.
Lemma book_factory : inv (book k) (set_factory_mode cfg os).
Proof. unfold set_factory_mode, usbd_factorycable_adb_enabled. inv_auto. Qed.
Lemma book_enumerate : inv (book k) (usbd_enumerate_default_mode cfg os).
Proof. unfold usbd_enumerate_default_mode. inv_auto. Qed.
#[local] Hint Resolve book_notify book_enum_process book_req_switch book_factory
  book_enumerate : usbd.

Lemma book_cable_change : inv (book k) (usbd_handle_cable_status_change cfg os).
Proof. unfold usbd_handle_cable_status_change. inv_auto. Qed.

(** The enumeration states are entered only while a cable is attached. *)
Lemma book_enum_state s st : k_online k = true -> attached_state st = true ->
  book k s -> book k (set_usbd_current_state st s).
Proof. intros Ho Hs []. constructor; cbn; try done. congruence. Qed.

Lemma book_enum_event e : k_online k = true -> inv (book k) (enum_event cfg os e).
Proof.
  intros Ho. unfold enum_event. inv_auto; by apply book_enum_state.
Qed.

Lemma book_device_actions a b c d : inv (book k) (device_actions cfg os a b c d).
Proof.
  unfold device_actions, forward_status, usbd_send_adb_status, usbd_send_tethering_status.
  inv_auto. apply book_enum_event.
  match goal with H : _ && _ = true |- _ => apply andb_prop in H as [_ H] end.
  by erewrite <- bk_online by done.
Qed.
#[local] Hint Resolve book_device_actions : usbd.

Lemma book_scan_field n a b : inv (book k) (scan_field n a b).
Proof. unfold scan_field. inv_auto. Qed.
#[local] Hint Resolve book_scan_field : usbd.

Lemma book_device_event : inv (book k) (usb_device_event cfg os).
Proof.
  unfold usb_device_event, factory_event, usbd_factorycable_adb_enabled. inv_auto.
Qed.

(** A first connection is watched; a further one changes nothing. *)
Lemma book_save_fd fd :
  k_alt k = false -> 0 <= fd ->
  fd <> k_uevent k -> fd <> k_device k -> fd <> k_server k ->
  inv (book k) (usbd_save_socket_fd fd;; refresh_max_fd).
Proof.
  intros Ha H0 H1 H2 H3 s [] s' Hb H. destruct Hb. revert H.
  cbv [usbd_save_socket_fd refresh_max_fd usbd_get_maxfd mbind M_bind modify get].
  destruct (Z.eqb_spec (usbd_app_fd s) (-1)) as [Happ|Happ]; intros [= <-];
    constructor; cbn; try done; try congruence; try tauto.
  rewrite bk_set0. unfold watched. rewrite Happ, bool_decide_eq_false_2 by lia.
  rewrite bool_decide_eq_true_2 by done. set_solver.
Qed.

Lemma book_server_event :
  accept_fresh os k -> k_alt k = false -> inv (book k) (usbd_server_event os).
Proof.
  intros Hf Ha. unfold usbd_server_event. apply inv_get_bind. intros s0 Hs0.
  rewrite (bk_server k s0 Hs0). apply inv_sys_bind; [auto with usbd|]. intros tr. cbv zeta.
  apply inv_if; intros Hfd; [apply inv_ret|]. apply Z.ltb_ge in Hfd.
  destruct (Hf tr) as (H1 & H2 & H3). apply inv_assoc, inv_bind; [by apply book_save_fd|].
  intros _. unfold usbd_send_adb_status, usbd_get_flashdrive_status. inv_auto.
Qed.

Lemma book_app_event : inv (book k) (usbd_app_event cfg os).
Proof. unfold usbd_app_event, usbd_socket_event. inv_auto. Qed.

Lemma book_scsi b : inv (book k) (scsi_event os b).
Proof. unfold scsi_event, copy_string_from_file, sprintf_buf. inv_auto. Qed.

End book.

(** [k] with another cable. *)
Definition with_cable (k : fixture) (c : MOTO_ACCY_TYPE_T) : fixture :=
  mk_fixture (k_uevent k) (k_device k) (k_server k) (k_alt k) c.

(** The books of a running daemon, whatever the cable. *)
Definition books (k : fixture) (s : usbd) : Prop := exists c, book (with_cable k c) s.

Section loop.
Context (cfg : config) (os : environment) (k : fixture) (Hk : fixture_ok k)
  (Hf : accept_fresh os k).

Lemma with_cable_ok c : fixture_ok (with_cable k c).
Proof. by destruct Hk. Qed.

Lemma with_cable_fresh c : accept_fresh os (with_cable k c).
Proof. exact Hf. Qed.

Lemma books_inv {A} (m : M A) :
  (forall c, inv (book (with_cable k c)) m) -> inv (books k) m.
Proof. intros H s a s' [c Hc] Hm. exists c. exact (H c s a s' Hc Hm). Qed.

Lemma books_trace s x : books k s -> books k (set_trace x s).
Proof. intros [c Hc]. exists c. by apply book_trace. Qed.

(** The cable event replaces cable, online flag and state together. *)
Lemma books_cable_event : inv (books k) (cable_event os).
Proof.
  unfold cable_event, readUsbSwitchState. intros s a s' [c Hc] H.
  apply M_bind_inv in H as (o & s1 & H1 & H2).
  assert (book (with_cable k c) s1) as Hs1.
  { revert H1. apply (inv_sys_bind os (book (with_cable k c)));
      [intros; by apply book_trace| |done]. intros. inv_auto. }
  destruct o as [st|]; [|by inversion H2; subst; exists c]. exists st.
  destruct Hs1. revert H2. cbv [mbind M_bind modify get sys sys_ mret M_ret].
  destruct (decide _) as [->|Hst]; intros [= <- <-]; constructor; cbn; try done.
  all: unfold k_online; cbn; by rewrite bool_decide_eq_true_2.
Qed.

Lemma books_uevent fd : inv (books k) (process_usb_uevent_message os fd).
Proof.
  unfold process_usb_uevent_message.
  pose proof books_trace. pose proof books_cable_event.
  assert (forall b, inv (books k) (scsi_event os b)) by
    (intros; apply books_inv; intros; apply book_scsi).
  repeat first [by eauto | inv_step].
Qed.

Lemma books_iter rset : inv (books k) (main_iter cfg os rset).
Proof.
  pose proof with_cable_ok. pose proof with_cable_fresh. unfold main_iter.
  repeat first [apply books_uevent
    | apply books_inv; intros; by apply book_cable_change
    | apply books_inv; intros; by apply book_device_event
    | apply books_inv; intros; by apply book_app_event
    | progress inv_step].
  apply books_inv. intros. apply book_server_event; [done..|].
  match goal with H : negb (usb_alt_mode ?s) && _ = true |- _ =>
    apply andb_prop in H as [H _]; apply negb_true_iff in H;
    match goal with Hs : books k s |- _ => destruct Hs as [? []]; by rewrite <- H end
  end.
Qed.

Lemma books_loop rsets : inv (books k) (main_loop cfg os rsets).
Proof.
  induction rsets as [|r rs IH]; cbn [main_loop]; [apply inv_ret|].
  apply inv_bind; [apply books_iter|done].
Qed.

End loop.

(** *** Start-up *)

(** Between the initialisation of the descriptors and the loop the code only
    runs operations that keep the books. *)
Lemma book_smart_mount os k b : inv (book k) (cdrom_smart_version_mount os b).
Proof.
  unfold cdrom_smart_version_mount, loop_create.
  pose proof (book_trace k). pose proof (book_loop k). pose proof (book_loop_scan os k).
  repeat first [by eauto | inv_step].
Qed.

Lemma book_version_key os k : inv (book k) (cdrom_read_version_key os).
Proof.
  unfold cdrom_read_version_key. pose proof (book_trace k). pose proof (book_write os k).
  repeat first [by eauto | inv_step].
Qed.

(** The fixture a state stands for. *)
Definition fixture_of (s : usbd) : fixture :=
  mk_fixture (uevent_sock s) (usb_device_fd s) (usbd_server_fd s) (usb_alt_mode s)
    (usbd_curr_cable_status s).

(** The tail of [main_init] opens the books. *)
Lemma main_start_books cfg os s u s' :
  usbd_app_fd s = -1 ->
  current_usb_online s = k_online (fixture_of s) ->
  attached_state (usbd_current_state s) = k_online (fixture_of s) ->
  fixture_ok (fixture_of s) ->
  main_start cfg os s = Ok (u, s') -> book (fixture_of s) s'.
Proof.
  intros Happ Hon Hst Hok H. unfold main_start in H.
  apply M_bind_inv in H as (? & s1 & [= <- <-] & H).
  apply M_bind_inv in H as (? & s2 & [= <- <-] & H). revert H.
  pose proof (book_smart_mount os (fixture_of s)). pose proof (book_version_key os (fixture_of s)).
  pose proof (book_factory cfg os (fixture_of s)). pose proof (book_enumerate cfg os (fixture_of s)).
  match goal with |- ?m _ = _ -> _ => assert (inv (book (fixture_of s)) m) as Hinv
    by repeat first [by eauto | inv_step] end.
  intros Hr. refine (Hinv _ _ _ _ Hr). constructor; cbn; try done; [by left|].
  unfold watched. cbn. rewrite Happ, bool_decide_eq_false_2 by lia. by rewrite (right_id_L ∅ (∪)).
Qed.

(** What holds while [main_init] fills the globals, call by call. *)
Definition starting (s : usbd) : Prop :=
  usbd_server_fd s = -1 /\ usbd_app_fd s = -1 /\ usb_alt_mode s = false.

Definition starting_fds (s : usbd) : Prop :=
  usbd_app_fd s = -1 /\ 0 <= uevent_sock s /\ 0 <= usb_device_fd s.

Lemma uevent_socket_init_starts os :
  triple starting (uevent_socket_init os)
    (fun rc s => starting s /\ (rc < 0 \/ 0 <= uevent_sock s)).
Proof.
  intros s a s' Hs H. unfold uevent_socket_init in H. run_in H; bool_prop;
    (split; [exact Hs|]); cbn; lia.
Qed.

Lemma startup_mode_keeps (I : usbd -> Prop) cfg os :
  (forall s x, I s -> I (set_trace x s)) -> inv I (usbd_get_startup_mode cfg os).
Proof. intros HI. unfold usbd_get_startup_mode, property_get. inv_auto; auto. Qed.

Lemma socket_init_starts os (alt : bool) :
  triple (fun s => starting_fds s /\ usb_alt_mode s = alt)
    (if negb alt then usbd_socket_init os else mret 0)
    (fun rc s => starting_fds s /\ (rc < 0 \/ (usb_alt_mode s = false -> 0 <= usbd_server_fd s))).
Proof.
  intros s a s' [Hs <-] H. destruct (usb_alt_mode s) eqn:E; cbn [negb] in H.
  - inversion H; subst. split; [done|]. right. congruence.
  - unfold usbd_socket_init in H. run_in H; bool_prop; (split; [exact Hs|]); cbn; lia.
Qed.

Lemma initial_cable_starts os (I : usbd -> Prop) :
  (forall s x, I s -> I (set_current_usb_online x s)) ->
  (forall s x, I s -> I (set_usbd_current_state x s)) ->
  (forall s x, I s -> I (set_usbd_curr_cable_status x s)) ->
  (forall s x, I s -> I (set_trace x s)) ->
  triple I (usbd_get_initial_cable_status os) (fun rc s => I s /\ (rc < 0 \/
    (current_usb_online s = k_online (fixture_of s) /\
     attached_state (usbd_current_state s) = k_online (fixture_of s)))).
Proof.
  intros H1 H2 H3 H4 s a s' Hs H.
  unfold usbd_get_initial_cable_status, readUsbSwitchState in H.
  run_in H; (split; [auto 10|]); cbn; first [by left | by right].
Qed.

Lemma main_init_books cfg os pc adb tether s' :
  main_init cfg os (initial pc adb tether) = Ok (None, s') ->
  fixture_ok (fixture_of s') /\ book (fixture_of s') s'.
Proof.
  unfold main_init. intros H.
  apply M_bind_inv in H as (? & s1 & [= <- <-] & H).
  apply M_bind_inv in H as (rc & s2 & H2 & H).
  apply uevent_socket_init_starts in H2 as [Hs2 Hu]; [|done].
  destruct (Z.ltb_spec rc 0) as [|Hrc]; [done|].
  apply M_bind_inv in H as (r & s3 & [= <- <-] & H).
  apply M_bind_inv in H as (? & s4 & [= <- <-] & H).
  destruct (Z.ltb_spec (r_val (os (trace s2) (SysOpen "/dev/usb_device_mode"))) 0); [done|].
  match type of H with _ ?s = _ => assert (starting s /\ starting_fds s) as Hs4
    by (destruct Hs2 as (?&?&?); repeat split; cbn; first [done | lia]) end.
  apply M_bind_inv in H as (mode & s5 & H5 & H).
  apply (startup_mode_keeps (fun s => starting s /\ starting_fds s)) in H5;
    [|by intros|done]. destruct H5 as [Ha5 Hs5].
  apply M_bind_inv in H as (? & s6 & [= <- <-] & H).
  apply M_bind_inv in H as (? & s7 & H7 & H).
  assert (starting_fds s7) as Hs7 by (run_in H7; done).
  apply M_bind_inv in H as (alt & s8 & [= <- <-] & H).
  apply M_bind_inv in H as (rc2 & s9 & H9 & H).
  apply socket_init_starts in H9 as [Hs9 Hv]; [|done].
  destruct (Z.ltb_spec rc2 0) as [|Hrc2]; [done|].
  apply M_bind_inv in H as (rc3 & s10 & H10 & H).
  apply (initial_cable_starts os (fun s => starting_fds s /\
    (usb_alt_mode s = false -> 0 <= usbd_server_fd s))) in H10; [| done..| naive_solver lia].
  destruct H10 as [[Hs10 Hv10] Hc]. destruct (Z.ltb_spec rc3 0) as [|Hrc3]; [done|].
  destruct Hc as [|[Hon Hst]]; [lia|].
  apply M_bind_inv in H as (u & s11 & H11 & [= <-]). destruct Hs10 as (?&?&?).
  assert (fixture_ok (fixture_of s10)) as Hok by done.
  pose proof (main_start_books cfg os s10 u s11) as Hb.
  specialize (Hb ltac:(done) Hon Hst Hok H11).
  assert (fixture_of s11 = fixture_of s10) as ->
    by (destruct Hb; unfold fixture_of in *; cbn in *; congruence).
  done.
Qed.

(** ** Faults *)

(** The messages the driver and the kernel send in their documented form: the
    fields of a device event have fewer than 20 characters, a SCSI event has
    the path after an [@], and the path fits the buffers. *)
Definition short_fields (buf : string) : Prop :=
  forall i, (String.length (take_until ":" (cstr (str_drop i buf))) < 20)%nat.

Definition short_path (buf : string) : Prop :=
  match str_index "@" buf with
  | Some i => (String.length (cstr (str_drop (i + 1) buf)) < 235)%nat
  | None => False
  end.

Record well_formed_messages (os : environment) : Prop := mk_wfm {
  wf_device : forall tr fd n, short_fields (str_take n (r_data (os tr (SysRead fd 89))));
  wf_uevent : forall tr fd, let r := os tr (SysRecvmsg fd) in
    let buffer := str_take (Z.to_nat (r_val r)) (r_data r) in
    strcasestr buffer "scsi_device" = true -> short_path buffer }.

Section total.
Context (cfg : config) (os : environment) (Hos : well_formed_messages os).

Lemma total_write fd m : total (write_str os fd m).
Proof. unfold write_str. total_auto. Qed.
Lemma total_property key d : total (property_get os key d).
Proof. unfold property_get. total_auto. Qed.
#[local] Hint Resolve total_write total_property : usbd.

Lemma total_loop_scan ixs : total (loop_scan os ixs).
Proof. induction ixs; cbn [loop_scan]; total_auto. Qed.
#[local] Hint Resolve total_loop_scan : usbd.

Lemma total_partition b : total (cdrom_partition_mount cfg os b).
Proof. unfold cdrom_partition_mount, loop_partition_mount, loop_create. total_auto. Qed.
#[local] Hint Resolve total_partition : usbd.

Lemma total_hook o : total (call_hook cfg os o).
Proof. destruct o as [h|]; cbn [call_hook]; [destruct h; cbn [run_hook]; unfold echo|]; total_auto. Qed.
#[local] Hint Resolve total_hook : usbd.

Lemma total_set_mode m : total (usbd_set_usb_mode cfg os m).
Proof. unfold usbd_set_usb_mode. total_auto. Qed.
#[local] Hint Resolve total_set_mode : usbd.

Lemma total_adb_property : total (usbd_get_adb_property os).
Proof. unfold usbd_get_adb_property. total_auto. Qed.
#[local] Hint Resolve total_adb_property : usbd.

Lemma total_clear_app : total clear_app.
Proof. unfold clear_app, refresh_max_fd, usbd_get_maxfd. total_auto. Qed.
#[local] Hint Resolve total_clear_app : usbd.

Lemma total_device_actions a b c d : total (device_actions cfg os a b c d).
Proof.
  unfold device_actions, forward_status, usbd_send_adb_status, usbd_send_tethering_status,
    usbd_alt_mode_set, usb_req_mode_switch, enum_event, usbd_enum_process.
  total_auto.
Qed.
#[local] Hint Resolve total_device_actions : usbd.

Lemma total_scan_field n buf i old :
  (20 <= n)%nat -> short_fields buf -> total (scan_field n (str_drop i buf) old).
Proof.
  intros Hn Hb. unfold scan_field. specialize (Hb i). total_auto.
  rewrite bool_decide_eq_true in *. lia.
Qed.

Lemma total_read_bind {B} fd n (f : Z * string -> M B) :
  (forall tr v k, total (f (v, str_take k (r_data (os tr (SysRead fd n)))))) ->
  total (sys_read os fd n ≫= f).
Proof. intros Hf s. unfold sys_read, mbind, M_bind, sys, mret, M_ret. apply Hf. Qed.

Lemma total_device_event : total (usb_device_event cfg os).
Proof.
  unfold usb_device_event, factory_event, usbd_factorycable_adb_enabled.
  apply total_bind; [total_auto|]. intros fd. apply total_read_bind. intros tr v n.
  pose proof (wf_device os Hos tr fd n) as Hsf.
  set (devbuf := str_take n _) in *. clearbody devbuf.
  repeat first [apply (total_scan_field _ devbuf 0); [lia|done]
    | apply total_scan_field; [lia|done] | solve [auto with usbd nocore] | total_step].
Qed.

Lemma total_scsi buf : short_path buf -> total (scsi_event os buf).
Proof.
  unfold short_path, scsi_event. destruct (str_index "@" buf) as [i|]; [|done].
  intros Hlen. cbv zeta. unfold sprintf_buf, copy_string_from_file, sys_read. total_auto.
  all: rewrite bool_decide_eq_true in *; rewrite !str_length_app in *; cbn [String.length] in *; lia.
Qed.

Lemma total_uevent fd : total (process_usb_uevent_message os fd).
Proof.
  unfold process_usb_uevent_message, cable_event, readUsbSwitchState.
  apply total_sys_bind. intros tr. cbv zeta.
  repeat first [apply total_scsi; by apply (wf_uevent os Hos) | total_step].
Qed.
#[local] Hint Resolve total_device_event total_uevent : usbd.

Lemma total_loop rsets : total (main_loop cfg os rsets).
Proof.
  induction rsets as [|r rs IH]; cbn [main_loop]; [total_auto|].
  apply total_bind; [|done].
  unfold main_iter, usbd_handle_cable_status_change, set_factory_mode, usbd_server_event,
    usbd_factorycable_adb_enabled, usbd_notify_current_status, usbd_enumerate_default_mode,
    usbd_save_socket_fd, refresh_max_fd, usbd_get_maxfd, usbd_send_adb_status,
    usbd_get_flashdrive_status, usbd_app_event, usbd_socket_event, sys_read.
  total_auto.
Qed.

End total.

(** ** What the host is offered *)

(** The value last written to a driver parameter, from the trace. *)
Fixpoint param (path : string) (tr : list (syscall * reply)) : option string :=
  match tr with
  | [] => None
  | (SysSystem cmd, _) :: tr =>
      if String.eqb cmd ("echo 1 > " ++ path) then Some "1"%string
      else if String.eqb cmd ("echo 0 > " ++ path) then Some "0"%string
      else param path tr
  | _ :: tr => param path tr
  end.

Definition ums_mode (m : USB_MODE_T) : bool :=
  match m with USB_MODE_MSC | USB_MODE_MSC_ONLY | USB_MODE_MSC_ADB => true | _ => false end.

Definition cdrom_mode (cfg : config) (m : USB_MODE_T) : bool :=
  match m with
  | USB_MODE_CDROM | USB_MODE_CDROM2 => true
  | USB_MODE_MSC => MSD_CDROM_ENABLED cfg
  | _ => false
  end.

(** The three parameters as one triple, to compare traces by. *)
Definition params (s : usbd) : option string * option string * option string :=
  (param UMS_ENABLE (trace s), param CDROM_PARAM (trace s), param EJECT_PARAM (trace s)).

(** Mass storage is enabled only in the modes that offer it; the CD-ROM and
    eject parameters are set exactly in theirs. *)
Definition exported_at (cfg : config) (p : option string * option string * option string)
    (md : USB_MODE_T) : Prop :=
  let '(ums, cdrom, eject) := p in
  (ums = Some "1"%string -> ums_mode md = true) /\
  (cdrom = Some "1"%string <-> cdrom_mode cfg md = true) /\
  (eject = Some "0"%string <-> (MSD_CDROM_ENABLED cfg = true /\ md = USB_MODE_MSC)).

Definition exported (cfg : config) (s : usbd) : Prop :=
  exported_at cfg (params s) (usbd_curr_usb_mode s).

(** Operations that write no parameter and do not change the mode. *)
Definition keeps {A} (m : M A) : Prop :=
  forall p md, inv (fun s => params s = p /\ usbd_curr_usb_mode s = md) m.

Lemma keeps_exported {A} cfg (m : M A) : keeps m -> inv (exported cfg) m.
Proof.
  intros Hk s a s' He Hm. destruct (Hk (params s) (usbd_curr_usb_mode s) s a s') as [Hp Hd]; [done..|].
  unfold exported. by rewrite Hp, Hd.
Qed.

Section exported.
Context (cfg : config) (os : environment).

Ltac keeps_hint :=
  match goal with |- inv (fun s => params s = ?p /\ usbd_curr_usb_mode s = ?md) ?m =>
    apply (fun H : keeps m => H p md); solve [auto with usbd nocore] end.

Ltac keeps_auto := intros p md; repeat first [keeps_hint | by intros ? [] | inv_step].

Lemma keeps_loop_scan ixs : keeps (loop_scan os ixs).
Proof. induction ixs; cbn [loop_scan]; keeps_auto. Qed.
#[local] Hint Resolve keeps_loop_scan : usbd.

Lemma keeps_loop_create f : keeps (loop_create os f).
Proof. unfold loop_create. keeps_auto. done. Qed.
#[local] Hint Resolve keeps_loop_create : usbd.

Lemma keeps_partition b : keeps (cdrom_partition_mount cfg os b).
Proof. unfold cdrom_partition_mount, loop_partition_mount. keeps_auto; done. Qed.

(** What a function of the mode table writes to the parameters. *)
Definition hook_params (h : hook) (p : option string * option string * option string)
    : option string * option string * option string :=
  let '(u, c, e) := p in
  let on : option string := Some "1"%string in
  let off : option string := Some "0"%string in
  match h with
  | cdrom_pre_enable => (u, on, e)
  | cdrom_disable_done => (u, off, e)
  | msc_pre_enable => if MSD_CDROM_ENABLED cfg then (u, on, off) else p
  | msc_disable_done => if MSD_CDROM_ENABLED cfg then (u, off, on) else p
  | msc_enable_done | msc_only_enable_done | msc_adb_enable_done => (on, c, e)
  | msc_pre_disable | msc_only_pre_disable | msc_adb_pre_disable => (off, c, e)
  | _ => p
  end.

Definition hooks_params (o : option hook) p := match o with Some h => hook_params h p | None => p end.

Abbreviation at_params p md := (fun s => params s = p /\ usbd_curr_usb_mode s = md).

Lemma echo_ums (v : bool) u c e md :
  triple (at_params (u, c, e) md) (echo os (if v then "1" else "0") UMS_ENABLE)
    (fun _ => at_params (Some (if v then "1" else "0")%string, c, e) md).
Proof. intros s a s' [Hp <-] Hr. injection Hp as <- <- <-. destruct v; inversion Hr; done. Qed.

Lemma echo_cdrom (v : bool) u c e md :
  triple (at_params (u, c, e) md) (echo os (if v then "1" else "0") CDROM_PARAM)
    (fun _ => at_params (u, Some (if v then "1" else "0")%string, e) md).
Proof. intros s a s' [Hp <-] Hr. injection Hp as <- <- <-. destruct v; inversion Hr; done. Qed.

Lemma echo_eject (v : bool) u c e md :
  triple (at_params (u, c, e) md) (echo os (if v then "1" else "0") EJECT_PARAM)
    (fun _ => at_params (u, c, Some (if v then "1" else "0")%string) md).
Proof. intros s a s' [Hp <-] Hr. injection Hp as <- <- <-. destruct v; inversion Hr; done. Qed.

Lemma triple_ret_unit P : triple P (mret tt) (fun _ => P).
Proof. intros s a s' HP H. by inversion H; subst. Qed.

Lemma hook_triple h p md :
  triple (at_params p md) (run_hook cfg os h) (fun _ => at_params (hook_params h p) md).
Proof.
  destruct p as [[u c] e].
  pose proof (keeps_partition true) as Kt. pose proof (keeps_partition false) as Kf.
  destruct h; cbn [run_hook hook_params]; unfold when; try (destruct (MSD_CDROM_ENABLED cfg)).
  all: repeat first
    [ apply triple_ret_unit | apply Kt | apply Kf
    | apply (echo_ums true) | apply (echo_ums false)
    | apply (echo_cdrom true) | apply (echo_cdrom false)
    | apply (echo_eject true) | apply (echo_eject false)
    | eapply triple_bind; [|intros []] ].
Qed.

Lemma call_hook_triple o p md :
  triple (at_params p md) (call_hook cfg os o) (fun _ => at_params (hooks_params o p) md).
Proof. destruct o; [apply hook_triple|apply triple_ret_unit]. Qed.

(** The table: disabling a mode withdraws what it offers, enabling a mode
    offers what it should. *)
Definition withdrawn (p : option string * option string * option string) : Prop :=
  let '(ums, cdrom, eject) := p in
  ums <> Some "1"%string /\ cdrom <> Some "1"%string /\ eject <> Some "0"%string.

Lemma disable_withdraws md p :
  exported_at cfg p md ->
  withdrawn (hooks_params (um_disable_done (mode_data cfg md))
               (hooks_params (um_pre_disable (mode_data cfg md)) p)).
Proof.
  destruct p as [[u c] e]. intros (Hu & Hc & He).
  destruct (MSD_CDROM_ENABLED cfg) eqn:E; destruct md; cbn in *; rewrite ?E in *; cbn;
    repeat split; first [naive_solver | rewrite E; naive_solver].
Qed.

Lemma enable_exports md p :
  withdrawn p -> exported_at cfg (hooks_params (um_pre_enable (mode_data cfg md)) p) md.
Proof.
  destruct p as [[u c] e]. intros (Hu & Hc & He).
  destruct (MSD_CDROM_ENABLED cfg) eqn:E; destruct md; cbn in *; rewrite ?E in *; cbn;
    repeat split; first [naive_solver | rewrite E; naive_solver].
Qed.

Lemma enable_done_exports md p :
  exported_at cfg p md -> exported_at cfg (hooks_params (um_enable_done (mode_data cfg md)) p) md.
Proof.
  destruct p as [[u c] e]. intros (Hu & Hc & He).
  destruct (MSD_CDROM_ENABLED cfg) eqn:E; destruct md; cbn in *; rewrite ?E in *; cbn;
    repeat split; first [naive_solver | rewrite E; naive_solver].
Qed.

Lemma exported_set_mode m : inv (exported cfg) (usbd_set_usb_mode cfg os m).
Proof.
  intros s a s' He H. unfold usbd_set_usb_mode in H.
  apply M_bind_inv in H as (? & ? & [= <- <-] & H).
  apply M_bind_inv in H as (? & s1 & H1 & H).
  eapply (call_hook_triple _ (params s) (usbd_curr_usb_mode s)) in H1; [|done].
  apply M_bind_inv in H as (? & s2 & H2 & H).
  eapply call_hook_triple in H2; [|exact H1]. destruct H2 as [H2 _].
  pose proof (disable_withdraws _ _ He) as Hw. rewrite <- H2 in Hw.
  apply M_bind_inv in H as (? & s3 & [= <- <-] & H).
  destruct (decide (m = USB_MODE_MIN)) as [->|Hm].
  - inversion H; subst. exact (enable_exports USB_MODE_MIN _ Hw).
  - apply M_bind_inv in H as (? & s4 & H4 & H).
    apply (call_hook_triple _ (params s2) m) in H4; [|done]. destruct H4 as [H4 Hmd].
    apply (enable_exports m) in Hw. rewrite <- H4, <- Hmd in Hw.
    run_in H. exact Hw.
Qed.

Lemma exported_enum_process fd : inv (exported cfg) (usbd_enum_process cfg os fd).
Proof.
  intros s a s' He H. unfold usbd_enum_process, write_str in H.
  apply M_bind_inv in H as (? & ? & [= <- <-] & H).
  apply M_bind_inv in H as (? & s1 & H1 & H).
  apply (call_hook_triple _ (params s) (usbd_curr_usb_mode s)) in H1 as [H1 Hmd]; [|done].
  apply (enable_done_exports _) in He. rewrite <- H1, <- Hmd in He.
  rewrite <- Hmd in H. run_in H; exact He.
Qed.

Lemma keeps_write fd m : keeps (write_str os fd m).
Proof. unfold write_str. keeps_auto. Qed.
Lemma keeps_property key d : keeps (property_get os key d).
Proof. unfold property_get. keeps_auto. Qed.
Lemma keeps_read fd n : keeps (sys_read os fd n).
Proof. unfold sys_read. keeps_auto. Qed.
Lemma keeps_clear : keeps clear_app.
Proof. unfold clear_app, refresh_max_fd, usbd_get_maxfd. keeps_auto; done. Qed.
#[local] Hint Resolve keeps_write keeps_property keeps_read keeps_clear : usbd.
Lemma keeps_adb_property : keeps (usbd_get_adb_property os).
Proof. unfold usbd_get_adb_property. keeps_auto. Qed.
Lemma keeps_notify fd : keeps (usbd_notify_current_status os fd).
Proof. unfold usbd_notify_current_status. keeps_auto. Qed.
Lemma keeps_forward app a t : keeps (forward_status os app a t).
Proof. unfold forward_status, usbd_send_adb_status, usbd_send_tethering_status. keeps_auto. Qed.
Lemma keeps_scan n a b : keeps (scan_field n a b).
Proof. unfold scan_field. keeps_auto. Qed.
#[local] Hint Resolve keeps_adb_property keeps_notify keeps_forward keeps_scan : usbd.
Lemma keeps_uevent fd : keeps (process_usb_uevent_message os fd).
Proof.
  unfold process_usb_uevent_message, cable_event, readUsbSwitchState, scsi_event, sprintf_buf,
    copy_string_from_file. keeps_auto; done.
Qed.
Lemma keeps_server : keeps (usbd_server_event os).
Proof.
  unfold usbd_server_event, usbd_save_socket_fd, refresh_max_fd, usbd_get_maxfd,
    usbd_send_adb_status, usbd_get_flashdrive_status. keeps_auto; done.
Qed.
Lemma keeps_modify f :
  (forall s, trace (f s) = trace s /\ usbd_curr_usb_mode (f s) = usbd_curr_usb_mode s) ->
  keeps (modify f).
Proof. intros Hf. keeps_auto. destruct (Hf s) as [H1 H2]. unfold params in *. by rewrite H1, H2. Qed.

#[local] Hint Resolve keeps_uevent keeps_server : usbd.

(** An operation of the loop: what it changes of the parameters it does through
    the two operations above. *)
Ltac exported_auto :=
  repeat first
    [ apply exported_set_mode | apply exported_enum_process
    | apply keeps_exported; solve [auto with usbd nocore]
    | apply keeps_exported, keeps_modify; done
    | inv_step ].

Lemma exported_cable_change : inv (exported cfg) (usbd_handle_cable_status_change cfg os).
Proof.
  unfold usbd_handle_cable_status_change, set_factory_mode, usbd_factorycable_adb_enabled,
    usbd_enumerate_default_mode. exported_auto.
Qed.

Lemma exported_device_event : inv (exported cfg) (usb_device_event cfg os).
Proof.
  unfold usb_device_event, factory_event, usbd_factorycable_adb_enabled, device_actions,
    usbd_alt_mode_set, usb_req_mode_switch, enum_event. exported_auto.
Qed.

Lemma exported_app_event : inv (exported cfg) (usbd_app_event cfg os).
Proof. unfold usbd_app_event, usbd_socket_event. exported_auto. done. Qed.

Lemma exported_loop rsets : inv (exported cfg) (main_loop cfg os rsets).
Proof.
  induction rsets as [|r rs IH]; cbn [main_loop]; [apply inv_ret|].
  apply inv_bind; [|done]. unfold main_iter.
  pose proof exported_cable_change. pose proof exported_device_event.
  pose proof exported_app_event. repeat first [done | progress exported_auto].
Qed.

Lemma keeps_smart_mount b : keeps (cdrom_smart_version_mount os b).
Proof.
  unfold cdrom_smart_version_mount. destruct b; keeps_auto.
Qed.
Lemma keeps_version_key : keeps (cdrom_read_version_key os).
Proof. unfold cdrom_read_version_key. keeps_auto. Qed.
Lemma keeps_starting : keeps (uevent_socket_init os) /\ keeps (usbd_get_startup_mode cfg os) /\
  keeps (usbd_socket_init os) /\ keeps (usbd_get_initial_cable_status os).
Proof.
  unfold uevent_socket_init, usbd_get_startup_mode, usbd_socket_init,
    usbd_get_initial_cable_status, readUsbSwitchState.
  split; [|split; [|split]]; keeps_auto; done.
Qed.
#[local] Hint Resolve keeps_smart_mount keeps_version_key : usbd.

Lemma exported_init : inv (exported cfg) (main_init cfg os).
Proof.
  destruct keeps_starting as (K1 & K2 & K3 & K4).
  unfold main_init, main_start, set_factory_mode, usbd_factorycable_adb_enabled,
    usbd_enumerate_default_mode, refresh_max_fd, usbd_get_maxfd.
  repeat first [apply keeps_exported; done | apply keeps_exported, keeps_modify; done
    | progress exported_auto | done].
Qed.

End exported.

(** ** The main theorems *)

(** An environment: the cable is a USB cable, the application connects, asks
    for the MTP mode and the host enumerates the device. *)
Definition demo_os : environment := fun tr c =>
  let reply v d := mk_reply v 0 d [] 1 0 (Some 0) in
  match c with
  | SysUeventSocket => reply 3 ""
  | SysOpen path => reply (if String.eqb path "/dev/usb_device_mode" then 4 else 9) ""
  | SysSocketLocalServer _ => reply 5 ""
  | SysAccept _ => reply 6 ""
  | SysReadFile path =>
      if String.eqb path USB_SWITCH_STATE_PATH then reply 2 "1" else reply (-1) ""
  | SysRead fd _ =>
      if fd =? 6 then reply 12 "usb_mode_mtp"
      else reply 27 "none:none:none:enumerated:"
  | SysRecvmsg _ => reply 20 "change@usb_connected"
  | SysPropertyGet _ d => reply 1 d
  | SysWrite _ d => reply (Z.of_nat (String.length d)) ""
  | SysLoopGetStatus _ => mk_reply (-1) ENXIO "" [] 0 0 None
  | SysReadDir _ => mk_reply 0 0 "" ["host0"; "host"] 0 0 None
  | _ => reply 0 ""
  end.

Definition demo_cfg : config := mk_config false false false.

Definition run_of {A} (r : outcome (A * usbd)) (dflt : usbd) : usbd :=
  match r with Ok (_, s) => s | Fault _ => dflt end.

(** The state in which the demonstration enters the loop. *)
Definition demo_start : usbd := run_of (main_init demo_cfg demo_os (initial "" "" "")) (initial "" "" "").

Lemma short_fields_dec (buf : string) :
  forallb (fun i => (String.length (take_until ":" (cstr (str_drop i buf))) <? 20)%nat)
    (seq 0 (S (String.length buf))) = true -> short_fields buf.
Proof.
  intros H i. rewrite forallb_forall in H.
  destruct (decide (i <= String.length buf)%nat).
  - specialize (H i). rewrite in_seq in H. apply Nat.ltb_lt, H. lia.
  - assert (forall b j, (String.length b < j)%nat -> str_drop j b = "") as Hd.
    { induction b as [|c b IH]; intros [|j] Hj; cbn in *; try lia; try done. apply IH. lia. }
    rewrite Hd by lia. cbn. lia.
Qed.

Lemma demo_messages : well_formed_messages demo_os.
Proof.
  split.
  - intros tr fd n. cbn. destruct (fd =? 6); cbn [r_data].
    + do 13 (destruct n as [|n]; [by apply short_fields_dec|]). by apply short_fields_dec.
    + do 27 (destruct n as [|n]; [by apply short_fields_dec|]). by apply short_fields_dec.
  - intros tr fd r buffer H. vm_compute in H. done.
Qed.

(** C12: from a start-up that succeeds, whatever the order in which descriptors
    become ready and whatever the system calls answer, provided that [accept]
    never answers with the kernel socket, the driver or the listening socket, which
    stay open: in every state that the turns of the daemon's main loop reach, the
    set given to [select] is exactly the kernel socket, the driver, the listening
    socket (in normal mode) and the connected application; [max_fd] is their
    maximum; the online flag, the cable and the daemon's state agree (an
    enumeration state is entered only with a cable attached); and in an alternate
    mode no application is connected.  Each turn returns when no field of a
    driver's event has 20 characters or more, a longer mode name included, which
    would overflow the buffers of the event, and every SCSI event of the kernel has
    a path of fewer than 235 characters after an [@]. *)
Theorem usbd_loop_books cfg os pc adb tether s1 rsets :
  main_init cfg os (initial pc adb tether) = Ok (None, s1) ->
  accept_fresh os (fixture_of s1) ->
  (well_formed_messages os -> exists s2, main_loop cfg os rsets s1 = Ok (tt, s2)) /\
  forall s2, main_loop cfg os rsets s1 = Ok (tt, s2) ->
    fixture_of s2 = with_cable (fixture_of s1) (usbd_curr_cable_status s2) /\
    book (fixture_of s2) s2.
Proof.
  intros Hi Hf. apply main_init_books in Hi as [Hok Hb]. split.
  - intros Hw. destruct (total_loop cfg os Hw rsets s1) as ([] & s2 & H2). by exists s2.
  - intros s2 H2. destruct (books_loop cfg os (fixture_of s1) Hok Hf rsets s1 tt s2) as [c Hc];
      [by exists (usbd_curr_cable_status s1)|done|].
    assert (fixture_of s2 = with_cable (fixture_of s1) c) as E
      by (destruct Hc; unfold fixture_of, with_cable in *; cbn in *; congruence).
    assert (usbd_curr_cable_status s2 = c) as -> by (destruct Hc; done).
    by rewrite E.
Qed.

Lemma usbd_loop_books_witness :
  exists s2, main_loop demo_cfg demo_os [{[5]}; {[6]}; {[3]}; {[4]}] demo_start = Ok (tt, s2) /\
    fixture_of s2 = with_cable (fixture_of demo_start) (usbd_curr_cable_status s2) /\
    book (fixture_of s2) s2.
Proof.
  destruct (usbd_loop_books demo_cfg demo_os "" "" "" demo_start [{[5]}; {[6]}; {[3]}; {[4]}]) as [Hr Hb].
  - vm_compute. reflexivity.
  - intros tr. vm_compute. repeat split; discriminate.
  - destruct (Hr demo_messages) as [s2 H2]. exists s2. split; [exact H2|]. exact (Hb s2 H2).
Defined.

(** C32: the storage the daemon offers to the host follows the mode: at any point
    of the run the last value written to the mass storage enable file is 1 only
    in one of the three mass storage modes, the CD-ROM parameter is 1 exactly in
    the CD-ROM modes (and in MSC when the build combines them), and ejecting is
    forbidden exactly in that combined mode. *)
Theorem usbd_exports_match_mode cfg os pc adb tether s1 rsets s2 :
  main_init cfg os (initial pc adb tether) = Ok (None, s1) ->
  main_loop cfg os rsets s1 = Ok (tt, s2) ->
  (param UMS_ENABLE (trace s2) = Some "1"%string -> ums_mode (usbd_curr_usb_mode s2) = true) /\
  (param CDROM_PARAM (trace s2) = Some "1"%string <->
   cdrom_mode cfg (usbd_curr_usb_mode s2) = true) /\
  (param EJECT_PARAM (trace s2) = Some "0"%string <->
   MSD_CDROM_ENABLED cfg = true /\ usbd_curr_usb_mode s2 = USB_MODE_MSC).
Proof.
  intros Hi Hl. apply (exported_loop cfg os rsets s1 tt s2); [|done].
  refine (exported_init cfg os _ _ _ _ Hi). repeat split; naive_solver.
Qed.

Lemma usbd_exports_match_mode_witness :
  let s2 := run_of (main_loop demo_cfg demo_os [{[5]}; {[6]}; {[3]}; {[4]}] demo_start) demo_start in
  usbd_curr_usb_mode s2 = USB_MODE_MTP /\
  (param CDROM_PARAM (trace s2) = Some "1"%string <->
   cdrom_mode demo_cfg (usbd_curr_usb_mode s2) = true).
Proof.
  intros s2. split; [vm_compute; reflexivity|].
  apply (usbd_exports_match_mode demo_cfg demo_os "" "" "" demo_start
    [{[5]}; {[6]}; {[3]}; {[4]}] s2); vm_compute; reflexivity.
Defined.
