(* ===== verification/UsbdProtocol.v ===== *)
(** * The USB daemon: its protocols and resources

    Functional theorems about single operations of Usbd.v: the requests of the
    application, the decoding of device events, the alternate modes, the
    descriptors of the loop devices and the authentication of kernel events. *)

From stdpp Require Import base list numbers option strings gmap sets pretty.
From Stdlib Require Import Ascii String ZArith Lia.
From S2P Require Import Prelude CStrings UsbdState Usbd UsbdLogic UsbdFacts.

Local Open Scope string_scope.
Local Open Scope Z_scope.

(** The state after a call and its reply. *)
Definition called (os : environment) (c : syscall) (s : usbd) : usbd :=
  set_trace ((c, os (trace s) c) :: trace s) s.

(** The bytes [read(fd, buf, n)] delivers in state [s]. *)
Definition read_data (os : environment) (fd n : Z) (s : usbd) : string :=
  let r := os (trace s) (SysRead fd n) in str_take (Z.to_nat (Z.min (r_val r) n)) (r_data r).

Lemma sys_run os c s : sys os c s = Ok (os (trace s) c, called os c s).
Proof. done. Qed.

Lemma sys_read_run os fd n s :
  sys_read os fd n s = Ok ((r_val (os (trace s) (SysRead fd n)), read_data os fd n s),
    called os (SysRead fd n) s).
Proof. done. Qed.

Lemma write_run os fd m s :
  write_str os fd m s = Ok (r_val (os (trace s) (SysWrite fd (with_nul m))),
    called os (SysWrite fd (with_nul m)) s).
Proof. done. Qed.

(** ** The mode table *)

Lemma cstr_idem s : cstr (cstr s) = cstr s.
Proof. induction s as [|c s IH]; cbn; [done|]. destruct (Ascii.eqb c NUL) eqn:E; cbn; [done|].
  by rewrite E, IH. Qed.

Lemma find_mode_req_cstr cfg buf : find_mode_req cfg buf = find_mode_req cfg (cstr buf).
Proof.
  unfold find_mode_req. f_equal. apply list_find_ext. intros x.
  unfold streq. by rewrite cstr_idem.
Qed.

Lemma find_mode_req_iff cfg buf m :
  find_mode_req cfg buf = Some m <-> um_mode_req (mode_data cfg m) = Some (cstr buf).
Proof.
  split.
  - unfold find_mode_req. intros H. apply fmap_Some in H as ([i m'] & H & ->).
    apply list_find_Some in H as (_ & H & _). cbn [snd].
    destruct (um_mode_req (mode_data cfg m')) as [r|] eqn:E; [|done].
    unfold streq in H. apply String.eqb_eq in H. rewrite H. f_equal.
    destruct m'; cbn in E; simplify_eq; reflexivity.
  - intros H. rewrite find_mode_req_cstr. destruct m; cbn in H; simplify_eq;
      match goal with H : _ = cstr buf |- _ => rewrite <- H end; reflexivity.
Qed.

(** The entries of the mode table are at the index of their mode, and the
    search for a request finds a mode exactly when the request is that mode's:
    no two modes share a request. *)
Theorem find_mode_req_spec cfg buf m :
  um_mode (mode_data cfg m) = m /\
  (find_mode_req cfg buf = Some m <-> um_mode_req (mode_data cfg m) = Some (cstr buf)).
Proof. split; [by destruct m|apply find_mode_req_iff]. Qed.

(** ** Changing the mode *)

(** Everything but the mode, the trace and the CD-ROM's loop device. *)
Definition core (s : usbd) :=
  (usbd_current_state s, connected_apps_fd s, (usbd_server_fd s, usb_device_fd s, uevent_sock s),
   (usbd_app_fd s, max_fd s, usb_get_des_count s), (current_usb_online s, usbd_mode s),
   (usb_alt_mode s, tethering_enabled s, usbd_curr_cable_status s),
   (pcSwitchbuf s, adbEnablebuf s, tetheringEnablebuf s)).

Section set_mode.
Context (cfg : config) (os : environment) (c0 : USBD_STATE_T * gset Z * (Z * Z * Z) *
  (Z * Z * Z) * (bool * MOTO_MODE_TYPE_T) * (bool * bool * MOTO_ACCY_TYPE_T) *
  (string * string * string)) (m0 : USB_MODE_T).

Abbreviation at_core := (fun s => core s = c0 /\ usbd_curr_usb_mode s = m0).

Ltac core_auto := repeat first [done | solve [auto with usbd nocore] | inv_step].

Lemma core_loop_scan ixs : inv at_core (loop_scan os ixs).
Proof. induction ixs; cbn [loop_scan]; core_auto. Qed.
#[local] Hint Resolve core_loop_scan : usbd.

Lemma core_hook o : inv at_core (call_hook cfg os o).
Proof.
  assert (forall b, inv at_core (cdrom_partition_mount cfg os b)).
  { intros b. unfold cdrom_partition_mount, loop_partition_mount, loop_create. core_auto. }
  destruct o as [h|]; cbn [call_hook]; [destruct h; cbn [run_hook]; unfold echo|]; core_auto.
Qed.
End set_mode.

(** The mode is set, nothing else changes, and the driver is told last. *)
Lemma set_mode_run cfg os m s :
  exists s', usbd_set_usb_mode cfg os m s = Ok (0, s') /\ usbd_curr_usb_mode s' = m /\
    core s' = core s /\
    (m <> USB_MODE_MIN -> exists r l, trace s' =
       (SysWrite (usb_device_fd s) (with_nul (um_name (mode_data cfg m))), r) :: l).
Proof.
  destruct (total_set_mode cfg os m s) as (rc & s' & H). exists s'.
  pose proof H as Hrun. unfold usbd_set_usb_mode in H.
  apply M_bind_inv in H as (? & ? & [= <- <-] & H).
  apply M_bind_inv in H as (? & s1 & H1 & H).
  eapply (core_hook _ _ (core s) (usbd_curr_usb_mode s)) in H1; [|done].
  apply M_bind_inv in H as (? & s2 & H2 & H).
  eapply core_hook in H2; [|exact H1]. destruct H2 as [H2 _].
  apply M_bind_inv in H as (? & s3 & [= <- <-] & H).
  destruct (decide (m = USB_MODE_MIN)) as [->|Hm].
  - inversion H; subst. repeat split; [done..|congruence].
  - apply M_bind_inv in H as (? & s4 & H4 & H).
    eapply (core_hook _ _ (core s) m) in H4; [|done]. destruct H4 as [H4 Hmd].
    assert (usb_device_fd s4 = usb_device_fd s) as Hd by (unfold core in H4; congruence).
    cbv [mbind M_bind get sys_ sys mret M_ret] in H. rewrite Hd in H. injection H as <- <-.
    repeat split; [done..|]. intros _. by eexists _, _.
Qed.

(** ** Requests of the application *)

(** The socket takes everything that is written to it. *)
Definition accepts_writes (os : environment) (fd : Z) : Prop :=
  forall tr d, 0 <= r_val (os tr (SysWrite fd d)).

Lemma socket_event_read cfg os fd s :
  let r := os (trace s) (SysRead fd SOCKET_BUFFER_SIZE) in
  let s1 := called os (SysRead fd SOCKET_BUFFER_SIZE) s in
  0 < r_val r -> usbd_curr_cable_status s <> MOTO_ACCY_TYPE_EMU_CABLE_FACTORY ->
  usbd_socket_event cfg os fd s =
    match find_mode_req cfg (read_data os fd SOCKET_BUFFER_SIZE s) with
    | None => Ok (0, s1)
    | Some i =>
        (if decide (i = USB_MODE_MIN) then usbd_set_usb_mode cfg os i;; mret 0 else
         rc ← match um_resp_ok (mode_data cfg i) with
              | Some ok => write_str os fd ok
              | None => mret (r_val r)
              end;
         if rc <? 0 then mret (-1) else
         cur ← get usbd_curr_usb_mode;
         if decide (cur = i) then
           match um_mode_done (mode_data cfg cur) with
           | Some d => rc ← write_str os fd d; if rc <? 0 then mret (-1) else mret 0
           | None => mret 0
           end
         else
           online ← get current_usb_online;
           if (online : bool) then usbd_set_usb_mode cfg os i;; mret 0 else mret 0) s1
    end.
Proof.
  intros r s1 Hr Hc. unfold usbd_socket_event. rewrite (M_bind_ok _ _ _ _ _ (sys_read_run _ _ _ _)).
  fold r s1. destruct (Z.ltb_spec (r_val r) 0) as [|_]; [lia|].
  destruct (Z.eqb_spec (r_val r) 0) as [|_]; [lia|].
  rewrite (M_bind_ok _ _ s1 (usbd_curr_cable_status s) s1) by done.
  rewrite decide_False by done. by destruct (find_mode_req _ _).
Qed.

(** A request for a mode other than unloading, with no factory cable: the
    application is answered with that mode's acknowledgement; the mode is changed
    to it when the cable is online, and kept when it is offline; a request for
    the current mode is confirmed with its completion message instead; nothing
    else of the daemon's state changes. *)
Theorem usbd_socket_event_request cfg os fd s m ok :
  m <> USB_MODE_MIN -> um_resp_ok (mode_data cfg m) = Some ok ->
  um_mode_req (mode_data cfg m) = Some (cstr (read_data os fd SOCKET_BUFFER_SIZE s)) ->
  0 < r_val (os (trace s) (SysRead fd SOCKET_BUFFER_SIZE)) ->
  usbd_curr_cable_status s <> MOTO_ACCY_TYPE_EMU_CABLE_FACTORY ->
  accepts_writes os fd ->
  exists s', usbd_socket_event cfg os fd s = Ok (0, s') /\ core s' = core s /\
    usbd_curr_usb_mode s' = (if current_usb_online s then m else usbd_curr_usb_mode s) /\
    let answered := called os (SysWrite fd (with_nul ok))
                      (called os (SysRead fd SOCKET_BUFFER_SIZE) s) in
    if decide (usbd_curr_usb_mode s = m) then
      s' = match um_mode_done (mode_data cfg m) with
           | Some d => called os (SysWrite fd (with_nul d)) answered
           | None => answered
           end
    else if current_usb_online s then usbd_set_usb_mode cfg os m answered = Ok (0, s')
    else s' = answered.
Proof.
  intros Hm Hok Hreq Hr Hc Hw. rewrite socket_event_read by done.
  apply find_mode_req_iff in Hreq. rewrite Hreq, decide_False, Hok by done.
  set (s1 := called os _ s). rewrite (M_bind_ok _ _ _ _ _ (write_run _ _ _ _)).
  destruct (Z.ltb_spec (r_val (os (trace s1) (SysWrite fd (with_nul ok)))) 0) as [Hlt|_].
  { specialize (Hw (trace s1) (with_nul ok)). lia. }
  set (s2 := called os _ s1). rewrite (M_bind_ok _ _ s2 (usbd_curr_usb_mode s) s2) by done.
  destruct (decide (usbd_curr_usb_mode s = m)) as [<-|Hne].
  - destruct (um_mode_done _) as [d|].
    + rewrite (M_bind_ok _ _ _ _ _ (write_run _ _ _ _)).
      destruct (Z.ltb_spec (r_val (os (trace s2) (SysWrite fd (with_nul d)))) 0) as [Hlt|_].
      { specialize (Hw (trace s2) (with_nul d)). lia. }
      eexists. split; [done|]. split; [done|]. by destruct (current_usb_online s).
    + exists s2. split; [done|]. split; [done|]. by destruct (current_usb_online s).
  - rewrite (M_bind_ok _ _ s2 (current_usb_online s) s2) by done.
    destruct (current_usb_online s); [|by exists s2].
    destruct (set_mode_run cfg os m s2) as (s' & H1 & H2 & H3 & _). exists s'.
    by rewrite (M_bind_ok _ _ _ _ _ H1).
Qed.

Lemma usbd_socket_event_request_witness :
  exists s', usbd_socket_event demo_cfg demo_os 6 demo_start = Ok (0, s') /\
    usbd_curr_usb_mode s' = USB_MODE_MTP.
Proof.
  destruct (usbd_socket_event_request demo_cfg demo_os 6 demo_start USB_MODE_MTP "usb_mode_mtp:ok")
    as (s' & H1 & H2 & H3 & H4).
  - discriminate.
  - reflexivity.
  - vm_compute. reflexivity.
  - vm_compute. reflexivity.
  - vm_compute. discriminate.
  - intros tr d. cbn [demo_os r_val]. lia.
  - exists s'. split; [exact H1|]. rewrite H3. vm_compute. reflexivity.
Defined.

(** The application cannot change the mode with a message that is no request
    of the table, nor with any message while a factory cable is attached: the
    daemon only consumes it. *)
Theorem usbd_socket_event_ignored cfg os fd s :
  0 < r_val (os (trace s) (SysRead fd SOCKET_BUFFER_SIZE)) ->
  usbd_curr_cable_status s = MOTO_ACCY_TYPE_EMU_CABLE_FACTORY \/
  (forall m, um_mode_req (mode_data cfg m) <> Some (cstr (read_data os fd SOCKET_BUFFER_SIZE s))) ->
  usbd_socket_event cfg os fd s = Ok (0, called os (SysRead fd SOCKET_BUFFER_SIZE) s).
Proof.
  intros Hr Hcase.
  destruct (decide (usbd_curr_cable_status s = MOTO_ACCY_TYPE_EMU_CABLE_FACTORY)) as [Hc|Hc].
  - unfold usbd_socket_event. rewrite (M_bind_ok _ _ _ _ _ (sys_read_run _ _ _ _)).
    destruct (Z.ltb_spec (r_val (os (trace s) (SysRead fd SOCKET_BUFFER_SIZE))) 0) as [|_]; [lia|].
    destruct (Z.eqb_spec (r_val (os (trace s) (SysRead fd SOCKET_BUFFER_SIZE))) 0) as [|_]; [lia|].
    set (s1 := called os _ s). rewrite (M_bind_ok _ _ s1 (usbd_curr_cable_status s) s1) by done.
    by rewrite decide_True.
  - destruct Hcase as [|Hno]; [done|]. rewrite socket_event_read by done.
    destruct (find_mode_req _ _) as [m|] eqn:E; [|done].
    apply find_mode_req_iff in E. by destruct (Hno m).
Qed.

Lemma usbd_socket_event_ignored_witness :
  let s := set_usbd_curr_cable_status MOTO_ACCY_TYPE_EMU_CABLE_FACTORY demo_start in
  usbd_socket_event demo_cfg demo_os 6 s = Ok (0, called demo_os (SysRead 6 SOCKET_BUFFER_SIZE) s).
Proof.
  intros s. apply usbd_socket_event_ignored; [vm_compute; reflexivity|]. left. reflexivity.
Defined.

(** When the application's connection fails or is closed, the daemon forgets
    it: its descriptor leaves the set given to [select] (and is closed on an
    orderly shutdown), the maximum is recomputed, and the mode is kept. *)
Theorem usbd_app_event_hangup cfg os s :
  let rc := r_val (os (trace s) (SysRead (usbd_app_fd s) SOCKET_BUFFER_SIZE)) in
  rc <= 0 ->
  exists s', usbd_app_event cfg os s = Ok (tt, s') /\ usbd_app_fd s' = -1 /\
    connected_apps_fd s' = connected_apps_fd s ∖ {[usbd_app_fd s]} /\
    max_fd s' = Z.max (Z.max (Z.max (uevent_sock s) (usb_device_fd s)) (usbd_server_fd s)) (-1) /\
    usbd_curr_usb_mode s' = usbd_curr_usb_mode s /\
    (rc = 0 -> exists r, head (trace s') = Some (SysClose (usbd_app_fd s), r)).
Proof.
  intros rc Hrc. unfold usbd_app_event, usbd_socket_event.
  rewrite (M_bind_ok _ _ s (usbd_app_fd s) s) by done.
  unfold mbind at 1, M_bind at 1. rewrite (M_bind_ok _ _ _ _ _ (sys_read_run _ _ _ _)).
  fold rc. destruct (Z.ltb_spec rc 0).
  - eexists. split; [reflexivity|]. repeat split; [done..|lia].
  - destruct (Z.eqb_spec rc 0); [|lia]. eexists. split; [reflexivity|]. repeat split; [done..|].
    intros _. by eexists.
Qed.

Lemma usbd_app_event_hangup_witness :
  let os : environment := fun _ _ => mk_reply 0 0 "" [] 0 0 None in
  exists s', usbd_app_event demo_cfg os (set_usbd_app_fd 6 demo_start) = Ok (tt, s') /\
    usbd_app_fd s' = -1.
Proof.
  intros os. destruct (usbd_app_event_hangup demo_cfg os (set_usbd_app_fd 6 demo_start))
    as (s' & H1 & H2 & _); [reflexivity || (vm_compute; discriminate)|].
  exists s'. split; assumption.
Defined.

(** ** Device events *)

(** A field of a device event that fits a buffer of [n] bytes. *)
Definition field (n : nat) (a : string) : Prop :=
  a <> "" /\ no_char ":" a /\ no_char NUL a /\ (String.length a < n)%nat.

Lemma take_until_colon a b : no_char ":" a -> take_until ":" (a ++ ":" ++ b) = a.
Proof. apply take_until_app. Qed.

Lemma scan_field_run n src old s a b :
  field n a -> cstr src = (a ++ ":" ++ b)%string -> scan_field n src old s = Ok (a, s).
Proof.
  intros (Hne & Hc & Hn & Hl) E. unfold scan_field. rewrite E, take_until_colon by done.
  rewrite decide_False by done. rewrite bool_decide_eq_false_2 by lia. done.
Qed.

Lemma str_drop_0 s : str_drop 0 s = s.
Proof. by destruct s. Qed.

Lemma str_drop_colon n s : str_drop (S n) (":" ++ s) = str_drop n s.
Proof. done. Qed.

(** The positions of the fields of an event. *)
Lemma event_drops a b c d :
  let w := (a ++ ":" ++ b ++ ":" ++ c ++ ":" ++ d)%string in
  str_drop (String.length a + 1) w = (b ++ ":" ++ c ++ ":" ++ d)%string /\
  str_drop (String.length a + String.length b + 2) w = (c ++ ":" ++ d)%string /\
  str_drop (String.length a + String.length b + String.length c + 3) w = d.
Proof.
  intros w. subst w. split; [|split].
  - rewrite str_drop_app, str_drop_colon. apply str_drop_0.
  - rewrite <- Nat.add_assoc, str_drop_app.
    replace (String.length b + 2)%nat with (S (String.length b + 1)) by lia.
    rewrite str_drop_colon, str_drop_app, str_drop_colon. apply str_drop_0.
  - rewrite <- !Nat.add_assoc, str_drop_app.
    replace (String.length b + (String.length c + 3))%nat
      with (S (String.length b + S (String.length c + 1))) by lia.
    rewrite str_drop_colon, str_drop_app, str_drop_colon, str_drop_app, str_drop_colon.
    apply str_drop_0.
Qed.

Lemma no_char_event a b c d :
  field 50 a -> field 20 b -> field 20 c -> no_char NUL d ->
  no_char NUL (a ++ ":" ++ b ++ ":" ++ c ++ ":" ++ d)%string /\
  no_char NUL (b ++ ":" ++ c ++ ":" ++ d)%string /\ no_char NUL (c ++ ":" ++ d)%string.
Proof.
  intros (_&_&?&_) (_&_&?&_) (_&_&?&_) ?.
  repeat split; repeat first [done | apply no_char_app; [done|] | split; [done|]].
Qed.

(** The loop decodes what the driver sends: an event [a:b:c:d] of fields that
    fit the buffers is taken apart into its four fields, each stored in its
    buffer, and acted on; with a factory cable only the second is. *)
Theorem usb_device_event_decodes cfg os s a b c d :
  let fd := usb_device_fd s in
  field 50 a -> field 20 b -> field 20 c -> no_char NUL d ->
  0 < r_val (os (trace s) (SysRead fd 89)) ->
  read_data os fd 89 s = (a ++ ":" ++ b ++ ":" ++ c ++ ":" ++ d)%string ->
  let s1 := set_adbEnablebuf b (set_pcSwitchbuf a (called os (SysRead fd 89) s)) in
  usb_device_event cfg os s =
    if decide (usbd_curr_cable_status s = MOTO_ACCY_TYPE_EMU_CABLE_FACTORY)
    then factory_event cfg os b s1
    else device_actions cfg os a b c d (set_tetheringEnablebuf c s1).
Proof.
  intros fd Ha Hb Hc Hd Hr E s1. unfold usb_device_event.
  destruct (no_char_event a b c d Ha Hb Hc Hd) as (N1 & N2 & N3).
  destruct (event_drops a b c d) as (D1 & D2 & D3).
  rewrite (M_bind_ok _ _ s fd s) by done.
  rewrite (M_bind_ok _ _ _ _ _ (sys_read_run _ _ _ _)). rewrite E.
  destruct (Z.leb_spec (r_val (os (trace s) (SysRead fd 89))) 0) as [|_]; [lia|].
  set (s0 := called os _ s) in *. rewrite (M_bind_ok _ _ s0 (pcSwitchbuf s) s0) by done.
  rewrite (M_bind_ok _ _ _ _ _ (scan_field_run 50 _ _ _ a _ Ha (cstr_no_nul _ N1))).
  rewrite (M_bind_ok _ _ s0 tt (set_pcSwitchbuf a s0)) by done.
  rewrite (M_bind_ok _ _ _ (adbEnablebuf s) (set_pcSwitchbuf a s0)) by done. rewrite D1.
  rewrite (M_bind_ok _ _ _ _ _ (scan_field_run 20 _ _ _ b _ Hb (cstr_no_nul _ N2))).
  rewrite (M_bind_ok _ _ _ tt s1) by done.
  rewrite (M_bind_ok _ _ s1 (usbd_curr_cable_status s) s1) by done.
  destruct (decide _); [done|].
  rewrite (M_bind_ok _ _ s1 (tetheringEnablebuf s) s1) by done. rewrite D2.
  rewrite (M_bind_ok _ _ _ _ _ (scan_field_run 20 _ _ _ c _ Hc (cstr_no_nul _ N3))).
  rewrite (M_bind_ok _ _ _ tt (set_tetheringEnablebuf c s1)) by done. cbv zeta. rewrite D3.
  rewrite (str_take_all d); [done|].
  rewrite cstr_no_nul, !str_length_app by done. cbn [String.length]. lia.
Qed.

Lemma usb_device_event_decodes_witness :
  let s1 := set_adbEnablebuf "none" (set_pcSwitchbuf "none" (called demo_os (SysRead 4 89) demo_start)) in
  usb_device_event demo_cfg demo_os demo_start =
    device_actions demo_cfg demo_os "none" "none" "none" "enumerated:" (set_tetheringEnablebuf "none" s1).
Proof.
  intros s1.
  refine (usb_device_event_decodes demo_cfg demo_os demo_start "none" "none" "none" "enumerated:" _ _ _ _ _ _).
  all: vm_compute; repeat split; try discriminate; repeat constructor.
Defined.

(** ** Alternate modes *)

Definition adb_word (adb : bool) : string := if adb then "adb_enable" else "adb_disable".

(** The tethering word: enable, disable, or [none] for no change. *)
Definition tether_word (t : option bool) : string :=
  match t with
  | Some true => "tethering_enable"
  | Some false => "tethering_disable"
  | None => "none"
  end.

(** In the BP tools and tablet modes an ADB event selects a function set that
    has ADB exactly when ADB was enabled; RNDIS is part of it exactly when
    tethering is on (remembered from the last event when this one has no word
    for it), except that the tablet offers only its CD-ROM while ADB is off. *)
Theorem usbd_alt_mode_set_functions cfg os s mode adb t :
  mode = MOTO_MODE_TYPE_BPTOOLS \/ mode = MOTO_MODE_TYPE_TABLET ->
  let tethering := default (tethering_enabled s) t in
  exists s', usbd_alt_mode_set cfg os mode (adb_word adb) (tether_word t) s = Ok (0, s') /\
    tethering_enabled s' = tethering /\
    let name := um_name (mode_data cfg (usbd_curr_usb_mode s')) in
    contains "adb" name = adb /\
    contains "rndis" name = tethering && (adb || bool_decide (mode = MOTO_MODE_TYPE_BPTOOLS)).
Proof.
  intros Hmode tethering.
  set (m := usb_alt_mode_tlb (bool_decide (mode = MOTO_MODE_TYPE_TABLET)) adb tethering).
  set (s1 := match t with Some b => set_tethering_enabled b s | None => s end).
  destruct (set_mode_run cfg os m s1) as (s' & H1 & H2 & H3 & _).
  assert (tethering_enabled s1 = tethering) as Ht by (by destruct t).
  exists s'. split; [|split].
  - subst m. rewrite <- Ht in H1.
    clear Ht H2 H3 tethering. subst s1.
    destruct Hmode as [-> | ->], adb, t as [[]|];
      lazy -[usbd_set_usb_mode set_tethering_enabled tethering_enabled] in H1 |- *;
      by rewrite H1.
  - unfold core in H3. congruence.
  - rewrite H2. subst m. clear - Hmode. clearbody tethering.
    destruct Hmode as [-> | ->], adb, tethering; done.
Qed.

Lemma usbd_alt_mode_set_functions_witness :
  exists s', usbd_alt_mode_set demo_cfg demo_os MOTO_MODE_TYPE_BPTOOLS (adb_word true)
      (tether_word (Some true)) demo_start = Ok (0, s') /\ tethering_enabled s' = true.
Proof.
  destruct (usbd_alt_mode_set_functions demo_cfg demo_os demo_start MOTO_MODE_TYPE_BPTOOLS true (Some true))
    as (s' & H1 & H2 & _); [left; reflexivity|].
  exists s'. split; assumption.
Defined.

(** ** Descriptors *)

(** Descriptors opened and not closed, from the trace. *)
Fixpoint open_count (tr : list (syscall * reply)) : Z :=
  match tr with
  | [] => 0
  | (SysOpen _, r) :: tr => (if 0 <=? r_val r then 1 else 0) + open_count tr
  | (SysClose _, _) :: tr => open_count tr - 1
  | _ :: tr => open_count tr
  end.

Abbreviation opened n := (fun s => open_count (trace s) = n).

Lemma open_count_open path r tr :
  open_count ((SysOpen path, r) :: tr) = (if 0 <=? r_val r then 1 else 0) + open_count tr.
Proof. done. Qed.

Ltac count_cases :=
  repeat match goal with
  | |- context [0 <=? ?x] => destruct (Z.leb_spec 0 x)
  end; bool_prop; try lia.

Lemma loop_scan_opened os ixs n :
  triple (opened n) (loop_scan os ixs)
    (fun o s => open_count (trace s) = n + (if o is Some _ then 1 else 0)).
Proof.
  induction ixs as [|i ixs IH]; intros s o s' Hs H; cbn [loop_scan] in H.
  - inversion H; subst. lia.
  - cbv [mbind M_bind sys sys_ mret M_ret] in H.
    repeat (case_match; try done); simplify_eq; try (apply IH in H; [exact H|]);
      cbn [trace set_trace open_count] in *; count_cases.
Qed.

Lemma loop_create_opened os f n :
  triple (opened n) (loop_create os f) (fun _ => opened n).
Proof.
  unfold loop_create. eapply triple_bind; [apply loop_scan_opened|]. intros o s a s' Hs H.
  destruct o as [[fd file]|]; [|inversion H; subst; lia].
  cbv [mbind M_bind sys sys_ mret M_ret modify] in H.
  repeat (case_match; try done); simplify_eq;
    cbn [trace set_trace set_curr_loop_dev open_count] in *; count_cases.
Qed.

(** Binding the CD-ROM image to a loop device leaks no descriptor: on every
    path of [loop_create], success, error or no free device, and whatever the
    kernel answers, as many descriptors are open after it as before. *)
Theorem loop_create_no_leak os f s rc s' :
  loop_create os f s = Ok (rc, s') -> open_count (trace s') = open_count (trace s).
Proof. by apply loop_create_opened. Qed.

Lemma loop_create_no_leak_witness :
  let s' := run_of (loop_create demo_os CDROM_IMAGE demo_start) demo_start in
  curr_loop_dev s' = "/dev/block/loop0" /\ open_count (trace s') = open_count (trace demo_start).
Proof.
  intros s'. split; [vm_compute; reflexivity|].
  apply (loop_create_no_leak demo_os CDROM_IMAGE demo_start 0 s'). vm_compute. reflexivity.
Defined.

(** With a CD-ROM block device the device node is always closed, but with a
    loop device it stays open whenever the image cannot be bound: each such
    attempt leaves one more descriptor open. *)
Theorem cdrom_partition_mount_leaks cfg os s rc s3 :
  let s1 := called os (SysOpen (CDROMIO_DEVNODE cfg)) s in
  let s2 := called os (SysAccess CDROM_BLOCK_DEVICE) s1 in
  0 <= r_val (os (trace s) (SysOpen (CDROMIO_DEVNODE cfg))) ->
  r_val (os (trace s1) (SysAccess CDROM_BLOCK_DEVICE)) <> 0 ->
  cdrom_mounted s = false ->
  loop_create os CDROM_IMAGE s2 = Ok (rc, s3) -> rc <> 0 ->
  cdrom_partition_mount cfg os true s = Ok (tt, s3) /\
  open_count (trace s3) = open_count (trace s) + 1.
Proof.
  intros s1 s2 Hfd Hacc Hm Hl Hrc. split.
  - unfold cdrom_partition_mount. rewrite (M_bind_ok _ _ _ _ _ (sys_run _ _ _)).
    cbv zeta. rewrite (proj2 (Z.ltb_ge _ _) Hfd). fold s1.
    rewrite (M_bind_ok _ _ _ _ _ (sys_run _ _ _)). rewrite (proj2 (Z.eqb_neq _ _) Hacc). fold s2.
    unfold loop_partition_mount. rewrite (M_bind_ok _ _ s2 (cdrom_mounted s) s2) by done.
    rewrite Hm. rewrite (M_bind_ok _ _ s2 true s2) by done. cbn [negb].
    rewrite (M_bind_ok _ _ _ _ _ Hl). unfold truth.
    by rewrite (proj2 (Z.eqb_neq _ _) Hrc).
  - apply (loop_create_opened _ _ _ _ _ _ eq_refl) in Hl. rewrite Hl. subst s1 s2.
    unfold called. cbn [trace set_trace open_count]. rewrite (proj2 (Z.leb_le _ _) Hfd). lia.
Qed.

(** The image cannot be opened. *)
Definition no_image_os : environment := fun tr c =>
  match c with
  | SysOpen path => if String.eqb path CDROM_IMAGE then mk_reply (-1) 2 "" [] 0 0 None
                    else mk_reply 9 0 "" [] 0 0 None
  | SysAccess _ => mk_reply (-1) 2 "" [] 0 0 None
  | _ => demo_os tr c
  end.

Lemma cdrom_partition_mount_leaks_witness :
  let s := initial "" "" "" in
  let s3 := run_of (cdrom_partition_mount demo_cfg no_image_os true s) s in
  cdrom_partition_mount demo_cfg no_image_os true s = Ok (tt, s3) /\
  open_count (trace s3) = open_count (trace s) + 1.
Proof.
  intros s s3. apply (cdrom_partition_mount_leaks demo_cfg no_image_os s (-1) s3).
  - vm_compute. discriminate.
  - vm_compute. discriminate.
  - reflexivity.
  - vm_compute. reflexivity.
  - discriminate.
Defined.

(** ** Kernel events *)

(** The sender of a message is the kernel and the message fits the buffer. *)
Definition from_kernel (r : reply) : bool :=
  (0 <? r_val r) && (r_groups r =? 1) && (r_pid r =? 0) &&
  match r_cred r with Some uid => uid =? 0 | None => false end &&
  (r_val r <? USBD_UEVENT_MSG_LEN - 1).

(** A message on the kernel event socket that does not come from the kernel
    (another group or port, no credentials, a sender that is not root), or that
    does not fit, has no effect: no event is reported and nothing changes. *)
Theorem process_usb_uevent_message_auth os fd s :
  from_kernel (os (trace s) (SysRecvmsg fd)) = false ->
  process_usb_uevent_message os fd s = Ok (false, called os (SysRecvmsg fd) s).
Proof.
  unfold from_kernel, process_usb_uevent_message. rewrite (M_bind_ok _ _ _ _ _ (sys_run _ _ _)).
  generalize (os (trace s) (SysRecvmsg fd)). intros r H. cbv zeta.
  destruct (Z.leb_spec (r_val r) 0); [done|]. rewrite (proj2 (Z.ltb_lt 0 _)) in H by done.
  destruct (r_groups r =? 1), (r_pid r =? 0); cbn [negb orb andb] in *; try done.
  destruct (r_cred r) as [uid|]; [|done]. destruct (uid =? 0); cbn [negb andb] in *; [|done].
  apply Z.ltb_ge in H. by rewrite (proj2 (Z.leb_le _ _) H).
Qed.

Lemma process_usb_uevent_message_auth_witness :
  let os : environment := fun _ _ => mk_reply 20 0 "change@usb_connected" [] 1 0 (Some 1000) in
  process_usb_uevent_message os 3 demo_start = Ok (false, called os (SysRecvmsg 3) demo_start).
Proof. intros os. apply process_usb_uevent_message_auth. reflexivity. Defined.

(** ** A connecting application *)

Lemma strneq_host e : strneq 5 "host" e = true -> cstr e = "host".
Proof.
  unfold strneq. intros H. apply String.eqb_eq in H. revert H. generalize (cstr e). intros t H.
  do 4 (destruct t as [|? t]; [discriminate|]). destruct t; [|discriminate].
  cbn in H. congruence.
Qed.

(** The disks that were plugged in before the application connected are not
    announced: the kernel names the hosts [host0], [host1], ..., but the
    comparison covers five characters, so an entry that is not exactly [host] is
    passed over and no uevent file is written. *)
Theorem usbd_get_flashdrive_status_misses os s :
  let r := os (trace s) (SysReadDir SCSI_DEVICE_PATH) in
  0 <= r_val r -> (forall e, e ∈ r_entries r -> cstr e <> "host") ->
  usbd_get_flashdrive_status os s = Ok (0, called os (SysReadDir SCSI_DEVICE_PATH) s).
Proof.
  intros r Hr Hno. unfold usbd_get_flashdrive_status.
  rewrite (M_bind_ok _ _ _ _ _ (sys_run _ _ _)). fold r. rewrite (proj2 (Z.ltb_ge _ _) Hr).
  destruct (list_find _ _) as [[i e]|] eqn:E; [|done].
  apply list_find_Some in E as (Hi & He & _).
  destruct (Hno e); [by eapply list_elem_of_lookup_2|by apply strneq_host].
Qed.

Lemma usbd_get_flashdrive_status_misses_witness :
  let os : environment := fun _ _ => mk_reply 0 0 "" ["host0"; "host1"] 0 0 None in
  usbd_get_flashdrive_status os demo_start = Ok (0, called os (SysReadDir SCSI_DEVICE_PATH) demo_start).
Proof.
  intros os. apply usbd_get_flashdrive_status_misses; [vm_compute; discriminate|].
  intros e He. repeat (apply elem_of_cons in He as [->|He]; [discriminate|]).
  apply elem_of_nil in He. destruct He.
Defined.
