(* ===== verification/PvrHash.v ===== *)
(** * The hash table of the PowerVR services

    src/imgtec/eurasia_km/services4/srvkm/common/hash.c.  A table is the array
    of its chains, each chain the list of its buckets from the head on (a bucket
    is reachable from its chain only, so the pointers carry no more than the
    order).  The hash and comparison functions are fields, as in the source.
    Each call of the allocator has a boolean argument that says whether it
    succeeds.  Words, lengths and pointers have 32 bits; an index outside the
    table is [Fault OutOfBounds]. *)

From stdpp Require Import base list numbers option.
From Stdlib Require Import ZArith Lia.
From S2P Require Import Prelude.

Local Open Scope Z_scope.

(** servicesext.h: the two error codes the file uses. *)
Definition PVRSRV_OK : Z := 0.
Definition PVRSRV_ERROR_OUT_OF_MEMORY : Z := 1.
Definition PVRSRV_ERROR_INVALID_PARAMS : Z := 3.

(** [sizeof(IMG_UINTPTR_T)] *)
Definition WORD : Z := 4.

Record BUCKET := mk_bucket { b_k : list Z; b_v : Z }.

Record HASH_TABLE := mk_hash {
  ppBucketTable : list (list BUCKET);
  h_uSize : Z;
  h_uCount : Z;
  h_uMinimumSize : Z;
  h_uKeySize : Z;
  pfnHashFunc : Z -> list Z -> Z -> Z;
  pfnKeyComp : Z -> list Z -> list Z -> bool }.

Definition set_table (t : list (list BUCKET)) (n : Z) (h : HASH_TABLE) : HASH_TABLE :=
  mk_hash t n (h_uCount h) (h_uMinimumSize h) (h_uKeySize h) (pfnHashFunc h) (pfnKeyComp h).

Definition set_count (c : Z) (h : HASH_TABLE) : HASH_TABLE :=
  mk_hash (ppBucketTable h) (h_uSize h) c (h_uMinimumSize h) (h_uKeySize h) (pfnHashFunc h)
    (pfnKeyComp h).

(** [x << n] and [x >> n] of an [IMG_UINT32] *)
Definition shl32 (x n : Z) : Z := u32 (Z.shiftl x n).
Definition shr32 (x n : Z) : Z := Z.shiftr x n.

(** The mixing of one word. *)
Definition hash_part (w : Z) : Z :=
  let x := u32 w in
  let x := u32 (x + shl32 x 12) in
  let x := Z.lxor x (shr32 x 22) in
  let x := u32 (x + shl32 x 4) in
  let x := Z.lxor x (shr32 x 9) in
  let x := u32 (x + shl32 x 10) in
  let x := Z.lxor x (shr32 x 2) in
  let x := u32 (x + shl32 x 7) in
  Z.lxor x (shr32 x 12).

(** The number of words of a key. *)
Definition key_words (uKeySize : Z) : nat := Z.to_nat (uKeySize / WORD).

Definition HASH_Func_Default (uKeySize : Z) (pKey : list Z) (uHashTabLen : Z) : Z :=
  foldl (fun uHashKey w => u32 (uHashKey + hash_part w)) 0 (take (key_words uKeySize) pKey).

Fixpoint words_equal (n : nat) (p1 p2 : list Z) : bool :=
  match n, p1, p2 with
  | O, _, _ => true
  | S n, w1 :: p1, w2 :: p2 => if w1 =? w2 then words_equal n p1 p2 else false
  | S _, _, _ => false
  end.

Definition HASH_Key_Comp_Default (uKeySize : Z) (pKey1 pKey2 : list Z) : bool :=
  words_equal (key_words uKeySize) pKey1 pKey2.

Definition KEY_TO_INDEX (h : HASH_TABLE) (key : list Z) (uSize : Z) : Z :=
  pfnHashFunc h (h_uKeySize h) key uSize mod uSize.

Definition KEY_COMPARE (h : HASH_TABLE) (k1 k2 : list Z) : bool :=
  pfnKeyComp h (h_uKeySize h) k1 k2.

(** Inserting at the head of a chain: the error and the table. *)
Definition _ChainInsert (h : HASH_TABLE) (pBucket : BUCKET) (t : list (list BUCKET)) (uSize : Z)
    : outcome (Z * list (list BUCKET)) :=
  if uSize =? 0 then Ok (PVRSRV_ERROR_INVALID_PARAMS, t) else
  let uIndex := KEY_TO_INDEX h (b_k pBucket) uSize in
  chain ← rd t uIndex;
  t ← wr t uIndex (pBucket :: chain);
  Ok (PVRSRV_OK, t).

(** The [while] loop of [_Rehash] over one chain. *)
Fixpoint rehash_chain (h : HASH_TABLE) (chain : list BUCKET) (tnew : list (list BUCKET))
    (uNewSize : Z) : outcome (Z * list (list BUCKET)) :=
  match chain with
  | [] => Ok (PVRSRV_OK, tnew)
  | pBucket :: pNextBucket =>
      '(eError, tnew) ← _ChainInsert h pBucket tnew uNewSize;
      if eError =? PVRSRV_OK then rehash_chain h pNextBucket tnew uNewSize
      else Ok (eError, tnew)
  end.

(** Its [for] loop: [n] chains are left, from [uIndex] on. *)
Fixpoint rehash_loop (h : HASH_TABLE) (told : list (list BUCKET)) (n : nat) (uIndex : Z)
    (tnew : list (list BUCKET)) (uNewSize : Z) : outcome (Z * list (list BUCKET)) :=
  match n with
  | O => Ok (PVRSRV_OK, tnew)
  | S n =>
      chain ← rd told uIndex;
      '(eError, tnew) ← rehash_chain h chain tnew uNewSize;
      if eError =? PVRSRV_OK then rehash_loop h told n (uIndex + 1) tnew uNewSize
      else Ok (eError, tnew)
  end.

Definition _Rehash (h : HASH_TABLE) (told : list (list BUCKET)) (uOldSize : Z)
    (tnew : list (list BUCKET)) (uNewSize : Z) : outcome (Z * list (list BUCKET)) :=
  rehash_loop h told (Z.to_nat uOldSize) 0 tnew uNewSize.

Definition _Resize (alloc : bool) (h : HASH_TABLE) (uNewSize : Z) : outcome (bool * HASH_TABLE) :=
  if uNewSize =? h_uSize h then Ok (true, h) else
  if negb alloc then Ok (false, h) else
  let tnew := replicate (Z.to_nat uNewSize) [] in
  '(eError, tnew) ← _Rehash h (ppBucketTable h) (h_uSize h) tnew uNewSize;
  if eError =? PVRSRV_OK then Ok (true, set_table tnew uNewSize h) else Ok (false, h).

(** The two allocations may fail; [None] is [IMG_NULL]. *)
Definition HASH_Create_Extended (alloc_hash alloc_table : bool) (uInitialLen uKeySize : Z)
    (hash : Z -> list Z -> Z -> Z) (comp : Z -> list Z -> list Z -> bool) : option HASH_TABLE :=
  if negb alloc_hash then None else
  if negb alloc_table then None else
  Some (mk_hash (replicate (Z.to_nat uInitialLen) []) uInitialLen 0 uInitialLen (u32 uKeySize)
          hash comp).

Definition HASH_Create (alloc_hash alloc_table : bool) (uInitialLen : Z) : option HASH_TABLE :=
  HASH_Create_Extended alloc_hash alloc_table uInitialLen WORD HASH_Func_Default
    HASH_Key_Comp_Default.

(** Whether the table was not empty: the leak that [HASH_Delete] reports
    before it frees the table. *)
Definition HASH_Delete (h : HASH_TABLE) : bool := negb (h_uCount h =? 0).

Definition HASH_Insert_Extended (alloc_bucket alloc_table : bool) (h : HASH_TABLE) (pKey : list Z)
    (v : Z) : outcome (bool * HASH_TABLE) :=
  if negb alloc_bucket then Ok (false, h) else
  let pBucket := mk_bucket (take (key_words (h_uKeySize h)) pKey) v in
  '(eError, t) ← _ChainInsert h pBucket (ppBucketTable h) (h_uSize h);
  if negb (eError =? PVRSRV_OK) then Ok (false, h) else
  let h := set_table t (h_uSize h) h in
  let h := set_count (u32 (h_uCount h + 1)) h in
  if h_uSize h <? shl32 (h_uCount h) 1 then
    '(_, h) ← _Resize alloc_table h (shl32 (h_uSize h) 1);
    Ok (true, h)
  else Ok (true, h).

Definition HASH_Insert (alloc_bucket alloc_table : bool) (h : HASH_TABLE) (k v : Z)
    : outcome (bool * HASH_TABLE) :=
  HASH_Insert_Extended alloc_bucket alloc_table h [k] v.

(** The first bucket of a chain with the key, and the chain without it. *)
Fixpoint chain_remove (h : HASH_TABLE) (pKey : list Z) (chain : list BUCKET)
    : option (BUCKET * list BUCKET) :=
  match chain with
  | [] => None
  | b :: chain =>
      if KEY_COMPARE h (b_k b) pKey then Some (b, chain)
      else match chain_remove h pKey chain with
           | Some (b', chain') => Some (b', b :: chain')
           | None => None
           end
  end.

Definition PRIVATE_MAX (a b : Z) : Z := if b <? a then a else b.

Definition HASH_Remove_Extended (alloc_table : bool) (h : HASH_TABLE) (pKey : list Z)
    : outcome (Z * HASH_TABLE) :=
  let uIndex := KEY_TO_INDEX h pKey (h_uSize h) in
  chain ← rd (ppBucketTable h) uIndex;
  match chain_remove h pKey chain with
  | None => Ok (0, h)
  | Some (pBucket, chain) =>
      t ← wr (ppBucketTable h) uIndex chain;
      let h := set_table t (h_uSize h) h in
      let h := set_count (u32 (h_uCount h - 1)) h in
      if (shl32 (h_uCount h) 2 <? h_uSize h) && (h_uMinimumSize h <? h_uSize h) then
        '(_, h) ← _Resize alloc_table h (PRIVATE_MAX (shr32 (h_uSize h) 1) (h_uMinimumSize h));
        Ok (b_v pBucket, h)
      else Ok (b_v pBucket, h)
  end.

Definition HASH_Remove (alloc_table : bool) (h : HASH_TABLE) (k : Z) : outcome (Z * HASH_TABLE) :=
  HASH_Remove_Extended alloc_table h [k].

(** The value of the first bucket with the key. *)
Fixpoint chain_find (h : HASH_TABLE) (pKey : list Z) (chain : list BUCKET) : option Z :=
  match chain with
  | [] => None
  | b :: chain => if KEY_COMPARE h (b_k b) pKey then Some (b_v b) else chain_find h pKey chain
  end.

Definition HASH_Retrieve_Extended (h : HASH_TABLE) (pKey : list Z) : outcome Z :=
  chain ← rd (ppBucketTable h) (KEY_TO_INDEX h pKey (h_uSize h));
  Ok (default 0 (chain_find h pKey chain)).

Definition HASH_Retrieve (h : HASH_TABLE) (k : Z) : outcome Z := HASH_Retrieve_Extended h [k].

Section iterate.
Context {S : Type} (pfnCallback : Z -> Z -> S -> Z * S).

Fixpoint iterate_chain (chain : list BUCKET) (s : S) : outcome (Z * S) :=
  match chain with
  | [] => Ok (PVRSRV_OK, s)
  | b :: chain =>
      k ← rd (b_k b) 0;
      let '(eError, s) := pfnCallback k (b_v b) s in
      if eError =? PVRSRV_OK then iterate_chain chain s else Ok (eError, s)
  end.

Fixpoint iterate_loop (t : list (list BUCKET)) (n : nat) (uIndex : Z) (s : S) : outcome (Z * S) :=
  match n with
  | O => Ok (PVRSRV_OK, s)
  | Datatypes.S n =>
      chain ← rd t uIndex;
      '(eError, s) ← iterate_chain chain s;
      if eError =? PVRSRV_OK then iterate_loop t n (uIndex + 1) s else Ok (eError, s)
  end.

(** The callback keeps its own state [S]. *)
Definition HASH_Iterate (h : HASH_TABLE) (s : S) : outcome (Z * S) :=
  iterate_loop (ppBucketTable h) (Z.to_nat (h_uSize h)) 0 s.
End iterate.
