(* ===== verification/PvrHashFacts.v ===== *)
(** * The hash table: refinement to a finite map

    A well-formed table whose keys are distinct represents a finite map; the
    operations refine insertion, deletion and lookup of it for every outcome of
    the allocations, and any sequence of them refines a map machine.  The
    interface [SegmentMap] states what the resource allocator relies on, and
    tables made by [HASH_Create] are an instance of it. *)

From stdpp Require Import base list numbers option gmap fin_maps.
From Stdlib Require Import ZArith Lia.
From S2P Require Import Prelude PvrHash.

Local Open Scope Z_scope.

(** What a pair of hash and comparison functions promises: on keys of the
    table's size the comparison decides equality. *)
Class KeyFunctions (uKeySize : Z) (comp : Z -> list Z -> list Z -> bool) : Prop :=
  comp_eq : forall k1 k2, length k1 = key_words uKeySize -> length k2 = key_words uKeySize ->
    comp uKeySize k1 k2 = true <-> k1 = k2.

#[export] Instance default_key_functions n : KeyFunctions n HASH_Key_Comp_Default.
Proof.
  intros k1 k2. unfold HASH_Key_Comp_Default. generalize (key_words n). intros m. revert k1 k2.
  induction m as [|m IH]; intros [|w1 k1] [|w2 k2] H1 H2; cbn in *; try done.
  destruct (Z.eqb_spec w1 w2) as [<-|Hne]; [|naive_solver].
  rewrite IH by lia. naive_solver.
Qed.

(** ** Buckets and chains *)

Definition entries (t : list (list BUCKET)) : list BUCKET := concat t.

Definition placed (h : HASH_TABLE) (t : list (list BUCKET)) (n : Z) : Prop :=
  forall i c b, t !! i = Some c -> b ∈ c ->
    KEY_TO_INDEX h (b_k b) n = Z.of_nat i /\ length (b_k b) = key_words (h_uKeySize h).

Lemma concat_insert {A} (t : list (list A)) i c c' :
  t !! i = Some c -> concat (<[i := c']> t) ++ c ≡ₚ c' ++ concat t.
Proof.
  revert i. induction t as [|d t IH]; intros [|i] H; cbn in *; simplify_eq.
  - rewrite <- (Permutation_app_comm c). solve_Permutation.
  - specialize (IH i H). rewrite <- app_assoc, IH. solve_Permutation.
Qed.

Lemma index_range h k n : 0 < n -> 0 <= KEY_TO_INDEX h k n < n.
Proof. intros. unfold KEY_TO_INDEX. apply Z.mod_pos_bound. done. Qed.

Lemma chain_insert_ok h b t n :
  0 < n -> length t = Z.to_nat n -> placed h t n -> length (b_k b) = key_words (h_uKeySize h) ->
  exists t', _ChainInsert h b t n = Ok (PVRSRV_OK, t') /\ length t' = Z.to_nat n /\
    placed h t' n /\ entries t' ≡ₚ b :: entries t.
Proof.
  intros Hn Hlen Hp Hb. unfold _ChainInsert. rewrite (proj2 (Z.eqb_neq _ _)) by lia.
  pose proof (index_range h (b_k b) n Hn) as Hix. set (ix := KEY_TO_INDEX h (b_k b) n) in *.
  destruct (lookup_lt_is_Some_2 t (Z.to_nat ix)) as [c Hc]; [lia|].
  rewrite (rd_lookup t ix c) by (done || lia). unfold mbind, outcome_bind.
  rewrite wr_ok by lia. eexists. split; [done|]. split; [by rewrite length_insert|]. split.
  - intros i c' b' H' Hin. destruct (decide (i = Z.to_nat ix)) as [->|Hne].
    + rewrite list_lookup_insert_eq in H' by lia. injection H' as <-.
      apply elem_of_cons in Hin as [->|Hin]; [split; [unfold ix in *; lia|done]|].
      by eapply Hp.
    + rewrite list_lookup_insert_ne in H' by done. by eapply Hp.
  - pose proof (concat_insert t _ c (b :: c) Hc) as H.
    apply (Permutation_app_inv_r c). unfold entries. rewrite H. solve_Permutation.
Qed.

Lemma rehash_chain_ok h c t n :
  0 < n -> length t = Z.to_nat n -> placed h t n ->
  (forall b, b ∈ c -> length (b_k b) = key_words (h_uKeySize h)) ->
  exists t', rehash_chain h c t n = Ok (PVRSRV_OK, t') /\ length t' = Z.to_nat n /\
    placed h t' n /\ entries t' ≡ₚ c ++ entries t.
Proof.
  intros Hn. revert t. induction c as [|b c IH]; intros t Hlen Hp Hk; cbn [rehash_chain].
  - by exists t.
  - destruct (chain_insert_ok h b t n) as (t1 & -> & Hlen1 & Hp1 & He1); [done..|apply Hk; set_solver|].
    destruct (IH t1) as (t2 & H2 & Hlen2 & Hp2 & He2); [done..|set_solver|].
    exists t2. split; [exact H2|]. split; [done|]. split; [done|].
    rewrite He2, He1. solve_Permutation.
Qed.

Lemma rehash_loop_ok h told k m i t n :
  0 < n -> length t = Z.to_nat n -> placed h t n -> placed h told m ->
  (Z.to_nat i + k = length told)%nat -> 0 <= i ->
  exists t', rehash_loop h told k i t n = Ok (PVRSRV_OK, t') /\ length t' = Z.to_nat n /\
    placed h t' n /\ entries t' ≡ₚ entries (drop (Z.to_nat i) told) ++ entries t.
Proof.
  intros Hn. revert i t. induction k as [|k IH]; intros i t Hlen Hp Hold Hk Hi; cbn [rehash_loop].
  - exists t. rewrite drop_ge by lia. done.
  - destruct (lookup_lt_is_Some_2 told (Z.to_nat i)) as [c Hc]; [lia|].
    rewrite (rd_lookup told i c) by done. unfold mbind at 1, outcome_bind at 1.
    destruct (rehash_chain_ok h c t n) as (t1 & -> & Hlen1 & Hp1 & He1); [done..| |].
    { intros b Hb. by eapply Hold. }
    destruct (IH (i + 1) t1) as (t2 & H2 & Hlen2 & Hp2 & He2); [done..|lia|lia|].
    exists t2. split; [exact H2|]. split; [done|]. split; [done|].
    rewrite He2, He1. replace (Z.to_nat (i + 1)) with (S (Z.to_nat i)) by lia.
    rewrite (drop_S told c (Z.to_nat i)) by done. unfold entries. cbn [concat]. solve_Permutation.
Qed.

(** ** Well-formed tables *)

Record wf (h : HASH_TABLE) : Prop := mk_wf {
  wf_length : length (ppBucketTable h) = Z.to_nat (h_uSize h);
  wf_size : 0 < h_uMinimumSize h <= h_uSize h;
  wf_count : h_uCount h = Z.of_nat (length (entries (ppBucketTable h)));
  wf_placed : placed h (ppBucketTable h) (h_uSize h) }.

Lemma placed_replicate h m n : placed h (replicate m []) n.
Proof. intros i c b H Hb. apply lookup_replicate in H as [-> _]. by apply elem_of_nil in Hb. Qed.

Lemma entries_replicate m : entries (replicate m []) = [].
Proof. induction m; cbn; done. Qed.

(** Whether the allocation succeeds or not, resizing keeps the entries. *)
Lemma resize_ok alloc h n :
  wf h -> h_uMinimumSize h <= n ->
  exists ok h', _Resize alloc h n = Ok (ok, h') /\ wf h' /\
    entries (ppBucketTable h') ≡ₚ entries (ppBucketTable h) /\
    h' = set_table (ppBucketTable h') (h_uSize h') h /\
    h_uSize h' = (if alloc then n else h_uSize h).
Proof.
  intros Hw Hn. unfold _Resize. destruct (Z.eqb_spec n (h_uSize h)) as [->|Hne].
  { exists true, h. destruct h, alloc; done. }
  destruct alloc; cbn [negb]; [|exists false, h; destruct h; done].
  destruct Hw as [H1 H2 H3 H4].
  destruct (rehash_loop_ok h (ppBucketTable h) (Z.to_nat (h_uSize h)) (h_uSize h) 0
    (replicate (Z.to_nat n) []) n) as (t & Ht & Hlen & Hp & He).
  - lia.
  - by rewrite length_replicate.
  - apply placed_replicate.
  - done.
  - lia.
  - done.
  - unfold _Rehash. rewrite Ht. exists true, (set_table t n h). split; [done|].
    rewrite entries_replicate, app_nil_r in He. cbn [Z.to_nat] in He. rewrite drop_0 in He.
    split; [|done]. constructor; cbn; [done|lia|by rewrite He|done].
Qed.

(** ** The operations *)

(** The number of buckets that 32-bit counters can handle: [uCount << 2] does
    not wrap below it. *)
Definition COUNT_LIMIT : Z := 2 ^ 30.

Lemma shl32_small x n k : 0 <= k -> 0 <= x -> x * 2 ^ k < 2 ^ 32 -> n = k -> shl32 x n = x * 2 ^ k.
Proof.
  intros Hk Hx Hb ->. unfold shl32. rewrite Z.shiftl_mul_pow2 by done. apply wrapU_small. lia.
Qed.

Lemma insert_ok ab at_ h k v :
  wf h -> h_uCount h + 1 < COUNT_LIMIT -> length k = key_words (h_uKeySize h) ->
  exists h', HASH_Insert_Extended ab at_ h k v = Ok (ab, h') /\
    if ab then
      wf h' /\ entries (ppBucketTable h') ≡ₚ mk_bucket k v :: entries (ppBucketTable h) /\
      h' = set_table (ppBucketTable h') (h_uSize h') (set_count (h_uCount h + 1) h) /\
      h_uSize h' = (if at_ && (h_uSize h <? 2 * (h_uCount h + 1)) then 2 * h_uSize h else h_uSize h)
    else h' = h.
Proof.
  intros Hw Hc Hk. unfold HASH_Insert_Extended. destruct ab; cbn [negb]; [|by exists h].
  destruct Hw as [H1 H2 H3 H4]. unfold COUNT_LIMIT in Hc. cbv zeta.
  destruct (chain_insert_ok h (mk_bucket (take (key_words (h_uKeySize h)) k) v) (ppBucketTable h)
    (h_uSize h)) as (t & -> & Hlen & Hp & He); [lia|done|done|cbn; rewrite length_take; lia|].
  rewrite take_ge in He by lia. unfold mbind at 1, outcome_bind at 1.
  rewrite Z.eqb_refl. cbn [negb set_table set_count ppBucketTable h_uSize h_uCount h_uMinimumSize h_uKeySize
    pfnHashFunc pfnKeyComp].
  rewrite (wrapU_small 32 (h_uCount h + 1)) by lia.
  rewrite (shl32_small (h_uCount h + 1) 1 1) by lia.
  replace ((h_uCount h + 1) * 2 ^ 1) with (2 * (h_uCount h + 1)) by lia.
  set (h1 := set_count (h_uCount h + 1) (set_table t (h_uSize h) h)).
  assert (wf h1) as Hw1.
  { constructor; cbn; [done|lia|rewrite He; cbn; lia|done]. }
  destruct (Z.ltb_spec (h_uSize h) (2 * (h_uCount h + 1))) as [Hgrow|Hgrow].
  - rewrite (shl32_small (h_uSize h) 1 1) by lia.
    destruct (resize_ok at_ h1 (h_uSize h * 2 ^ 1) Hw1) as (ok & h2 & -> & Hw2 & He2 & Heq & Hs);
      [cbn; lia|].
    exists h2. split; [done|]. split; [done|]. rewrite He2. split; [done|].
    split; [rewrite Heq; by destruct h|]. rewrite Hs. destruct at_; cbn; lia.
  - exists h1. split; [done|]. split; [done|]. split; [done|].
    split; [by destruct h|]. by rewrite andb_false_r.
Qed.

Lemma chain_remove_spec `{KeyFunctions (h_uKeySize h) (pfnKeyComp h)} k c :
  length k = key_words (h_uKeySize h) ->
  (forall b, b ∈ c -> length (b_k b) = key_words (h_uKeySize h)) ->
  match chain_remove h k c with
  | Some (b, c') => b_k b = k /\ c ≡ₚ b :: c' /\ chain_find h k c = Some (b_v b)
  | None => (forall b, b ∈ c -> b_k b <> k) /\ chain_find h k c = None
  end.
Proof.
  intros Hk. induction c as [|b c IH]; intros Hc; cbn [chain_remove chain_find].
  { split; [|done]. intros b Hb. by apply elem_of_nil in Hb. }
  pose proof (comp_eq (b_k b) k (Hc b ltac:(set_solver)) Hk) as Hcomp.
  fold (KEY_COMPARE h (b_k b) k) in Hcomp. destruct (KEY_COMPARE h (b_k b) k).
  - split; [by apply Hcomp|]. done.
  - specialize (IH ltac:(set_solver)).
    destruct (chain_remove h k c) as [[b' c']|].
    + destruct IH as (Hb' & Hp & Hf). split; [done|]. split; [|done]. rewrite Hp. constructor.
    + destruct IH as [Hno Hf]. split; [|done]. intros b' Hb'.
      apply elem_of_cons in Hb' as [->|Hb']; [|by apply Hno]. intros Heq. by apply Hcomp in Heq.
Qed.

(** The chain of a key, and where its buckets are. *)
Lemma chain_of h k :
  wf h -> exists c, rd (ppBucketTable h) (KEY_TO_INDEX h k (h_uSize h)) = Ok c /\
    ppBucketTable h !! Z.to_nat (KEY_TO_INDEX h k (h_uSize h)) = Some c /\
    (forall b, b ∈ entries (ppBucketTable h) -> b_k b = k -> b ∈ c) /\
    (forall b, b ∈ c -> b ∈ entries (ppBucketTable h)) /\
    (forall b, b ∈ c -> length (b_k b) = key_words (h_uKeySize h)).
Proof.
  intros [H1 H2 H3 H4]. pose proof (index_range h k (h_uSize h)) as Hix.
  destruct (lookup_lt_is_Some_2 (ppBucketTable h) (Z.to_nat (KEY_TO_INDEX h k (h_uSize h)))) as [c Hc];
    [lia|].
  exists c. split; [apply rd_lookup; [lia|done]|]. split; [done|]. split_and!.
  - intros b Hb <-. unfold entries in Hb. apply list_elem_of_In, in_concat in Hb as (c' & Hc' & Hb).
    apply list_elem_of_In in Hc', Hb. apply list_elem_of_lookup in Hc' as [i Hi].
    destruct (H4 i c' b Hi Hb) as [Hix' _]. rewrite Hix', Nat2Z.id in Hc. congruence.
  - intros b Hb. apply list_elem_of_In, in_concat. exists c.
    split; apply list_elem_of_In; [by eapply list_elem_of_lookup_2|done].
  - intros b Hb. by eapply H4.
Qed.

Lemma remove_ok `{KeyFunctions (h_uKeySize h) (pfnKeyComp h)} at_ k :
  wf h -> h_uCount h < COUNT_LIMIT -> length k = key_words (h_uKeySize h) ->
  (exists v h', HASH_Remove_Extended at_ h k = Ok (v, h') /\ wf h' /\
    entries (ppBucketTable h) ≡ₚ mk_bucket k v :: entries (ppBucketTable h') /\
    HASH_Retrieve_Extended h k = Ok v /\
    h' = set_table (ppBucketTable h') (h_uSize h') (set_count (h_uCount h - 1) h) /\
    h_uSize h' = (if at_ && (4 * (h_uCount h - 1) <? h_uSize h) && (h_uMinimumSize h <? h_uSize h)
                  then Z.max (h_uSize h / 2) (h_uMinimumSize h) else h_uSize h)) \/
  (HASH_Remove_Extended at_ h k = Ok (0, h) /\ HASH_Retrieve_Extended h k = Ok 0 /\
   (forall b, b ∈ entries (ppBucketTable h) -> b_k b <> k)).
Proof.
  intros Hw Hlim Hk. pose proof Hw as [H1 H2 H3 H4].
  destruct (chain_of h k Hw) as (c & Hrd & Hc & Hin & Hin' & Hlen).
  unfold HASH_Remove_Extended, HASH_Retrieve_Extended. rewrite Hrd. unfold mbind, outcome_bind.
  pose proof (chain_remove_spec k c Hk Hlen) as Hr.
  destruct (chain_remove h k c) as [[b c']|].
  2: { right. destruct Hr as [Hno ->]. split; [done|]. split; [done|]. intros b Hb Heq.
       apply (Hno b); [by apply Hin|done]. }
  left. destruct Hr as (Hbk & Hp & ->). cbn [default].
  pose proof (index_range h k (h_uSize h) ltac:(lia)) as Hix.
  rewrite wr_ok by lia. set (t := <[_ := c']> _).
  assert (entries (ppBucketTable h) ≡ₚ b :: entries t) as He.
  { pose proof (concat_insert (ppBucketTable h) _ c c' Hc) as Hcc. fold t in Hcc.
    apply (Permutation_app_inv_l c'). unfold entries. rewrite <- Hcc, Hp. solve_Permutation. }
  cbv zeta. cbn [set_table set_count ppBucketTable h_uSize h_uCount h_uMinimumSize h_uKeySize
    pfnHashFunc pfnKeyComp].
  assert (length (entries (ppBucketTable h)) = S (length (entries t))) as Hlen'
    by (by rewrite He).
  unfold COUNT_LIMIT in Hlim. rewrite (wrapU_small 32 (h_uCount h - 1)) by lia.
  rewrite (shl32_small (h_uCount h - 1) 2 2) by lia.
  replace ((h_uCount h - 1) * 2 ^ 2) with (4 * (h_uCount h - 1)) by lia.
  set (h1 := set_count (h_uCount h - 1) (set_table t (h_uSize h) h)).
  assert (wf h1) as Hw1.
  { constructor; [by unfold h1, t; cbn; rewrite length_insert|done| |].
    { change (h_uCount h - 1 = Z.of_nat (length (entries t))). lia. }
    intros i d b' Hi Hb'. change (t !! i = Some d) in Hi.
    destruct (decide (i = Z.to_nat (KEY_TO_INDEX h k (h_uSize h)))) as [->|Hne].
    - unfold t in Hi. rewrite list_lookup_insert_eq in Hi by lia. injection Hi as <-.
      apply (H4 _ c b' Hc). rewrite Hp. set_solver.
    - unfold t in Hi. rewrite list_lookup_insert_ne in Hi by done. by apply (H4 i d). }
  assert (mk_bucket k (b_v b) = b) as Hb by (destruct b; cbn in *; congruence).
  exists (b_v b). rewrite Hb.
  destruct ((4 * (h_uCount h - 1) <? h_uSize h) && (h_uMinimumSize h <? h_uSize h)) eqn:E.
  - destruct (resize_ok at_ h1 (PRIVATE_MAX (shr32 (h_uSize h) 1) (h_uMinimumSize h)) Hw1)
      as (ok & h2 & -> & Hw2 & He2 & Heq & Hs); [unfold PRIVATE_MAX; cbn; case_match; bool_prop; lia|].
    exists h2. split; [done|]. split; [done|]. rewrite He2. split; [done|]. split; [done|].
    split; [rewrite Heq; by destruct h|]. rewrite Hs, <- andb_assoc, E, andb_true_r.
    destruct at_; [|done]. unfold PRIVATE_MAX, shr32. rewrite Z.shiftr_div_pow2 by lia.
    change (2 ^ 1) with 2. case_match; bool_prop; lia.
  - exists h1. split; [done|]. split; [done|]. split; [done|]. split; [done|].
    split; [by destruct h|]. by rewrite <- andb_assoc, E, andb_false_r.
Qed.

(** ** The map a table stands for *)

Definition binding (b : BUCKET) : list Z * Z := (b_k b, b_v b).

Record rep (h : HASH_TABLE) (m : gmap (list Z) Z) : Prop := mk_rep {
  rep_wf : wf h;
  rep_nodup : NoDup (b_k <$> entries (ppBucketTable h));
  rep_map : list_to_map (binding <$> entries (ppBucketTable h)) = m }.

Lemma fst_binding l : (binding <$> l).*1 = b_k <$> l.
Proof. by rewrite <- list_fmap_compose. Qed.

Lemma rep_count h m : rep h m -> h_uCount h = Z.of_nat (size m).
Proof.
  intros [[_ _ Hc _] Hnd <-]. rewrite Hc. f_equal.
  rewrite map_size_list_to_map, length_fmap by (by rewrite fst_binding). done.
Qed.

(** Tables with equal entries up to order stand for the same map. *)
Lemma rep_perm h l m :
  NoDup (b_k <$> l) -> entries (ppBucketTable h) ≡ₚ l -> list_to_map (binding <$> l) = m -> wf h ->
  rep h m.
Proof.
  intros Hnd Hp Hm Hw. constructor; [done|by rewrite Hp|].
  rewrite <- Hm. apply list_to_map_proper; [by rewrite fst_binding, Hp|by rewrite Hp].
Qed.

Lemma rep_lookup h m k v :
  rep h m -> m !! k = Some v <-> mk_bucket k v ∈ entries (ppBucketTable h).
Proof.
  intros [_ Hnd <-]. rewrite <- elem_of_list_to_map by (by rewrite fst_binding).
  rewrite list_elem_of_fmap. split.
  - intros ([k' v'] & [= -> ->] & Hb). done.
  - intros Hb. by exists (mk_bucket k v).
Qed.

Lemma rep_insert ab at_ h m k v :
  rep h m -> h_uCount h + 1 < COUNT_LIMIT -> length k = key_words (h_uKeySize h) -> m !! k = None ->
  exists h', HASH_Insert_Extended ab at_ h k v = Ok (ab, h') /\
    rep h' (if ab then <[k := v]> m else m) /\ h_uKeySize h' = h_uKeySize h /\
    pfnKeyComp h' = pfnKeyComp h.
Proof.
  intros Hr Hc Hk Hnone. destruct (insert_ok ab at_ h k v (rep_wf _ _ Hr) Hc Hk) as (h' & Hi & H).
  exists h'. split; [done|]. destruct ab; [|by subst h'].
  destruct H as (Hw & Hp & Heq & _). split; [|by rewrite Heq].
  eapply rep_perm; [|exact Hp| |done].
  - rewrite fmap_cons. constructor; [|apply Hr]. intros ([k' v'] & Hkk & Hin)%list_elem_of_fmap.
    cbn in Hkk. subst k'. apply (rep_lookup h m _ _ Hr) in Hin. congruence.
  - rewrite fmap_cons. cbn [list_to_map foldr binding b_k b_v]. f_equal. apply Hr.
Qed.

Lemma rep_remove h m `{KeyFunctions (h_uKeySize h) (pfnKeyComp h)} at_ k :
  rep h m -> h_uCount h < COUNT_LIMIT -> length k = key_words (h_uKeySize h) ->
  exists h', HASH_Remove_Extended at_ h k = Ok (default 0 (m !! k), h') /\ rep h' (delete k m) /\
    HASH_Retrieve_Extended h k = Ok (default 0 (m !! k)) /\
    h_uKeySize h' = h_uKeySize h /\ pfnKeyComp h' = pfnKeyComp h.
Proof.
  intros Hr Hc Hk. destruct (remove_ok at_ k (rep_wf _ _ Hr) Hc Hk)
    as [(v & h' & Hrm & Hw & Hp & Hrt & Heq & _)|(Hrm & Hrt & Hno)].
  - assert (m !! k = Some v) as Hm by (apply (rep_lookup h m _ _ Hr); rewrite Hp; set_solver).
    exists h'. rewrite Hm. split; [done|]. split; [|split; [done|by rewrite Heq]].
    destruct Hr as [_ Hnd Hmap]. rewrite Hp, fmap_cons in Hnd. apply NoDup_cons in Hnd as [Hk' Hnd].
    apply (rep_perm h' (entries (ppBucketTable h'))); [done|done| |done].
    assert (list_to_map (binding <$> entries (ppBucketTable h)) =@{gmap (list Z) Z}
            list_to_map (binding <$> mk_bucket k v :: entries (ppBucketTable h'))) as E.
    { apply list_to_map_proper; [|by rewrite Hp].
      rewrite fst_binding, Hp, fmap_cons. by constructor. }
    rewrite <- Hmap, E, fmap_cons. cbn [list_to_map foldr binding b_k b_v].
    rewrite delete_insert_id; [done|]. apply not_elem_of_list_to_map_1. by rewrite fst_binding.
  - assert (m !! k = None) as Hm.
    { destruct (m !! k) as [v|] eqn:E; [|done]. apply (rep_lookup h m _ _ Hr) in E.
      by destruct (Hno _ E). }
    exists h. rewrite Hm, delete_id by done. done.
Qed.

(** ** Tables with one-word keys *)

Definition word_key (k : Z) : list Z := [k].

#[export] Instance word_key_inj : Inj (=) (=) word_key.
Proof. by intros k1 k2 [= ->]. Qed.

(** A table made by [HASH_Create], standing for a map from words. *)
Record word_rep (h : HASH_TABLE) (m : gmap Z Z) : Prop := mk_word_rep {
  wr_rep : rep h (kmap word_key m);
  wr_key : h_uKeySize h = WORD;
  wr_comp : pfnKeyComp h = HASH_Key_Comp_Default }.

Lemma word_count h m : word_rep h m -> h_uCount h = Z.of_nat (size m).
Proof.
  intros [Hr _ _]. rewrite (rep_count _ _ Hr), <- !length_map_to_list.
  by rewrite (map_to_list_kmap word_key m), length_fmap.
Qed.

(** What a client of a word map relies on: [sm_insert] may fail, and then
    changes nothing; a fresh key is added; removal returns the value or 0. *)
Class SegmentMap (H : Type) := {
  sm_insert : bool -> bool -> H -> Z -> Z -> outcome (bool * H);
  sm_remove : bool -> H -> Z -> outcome (Z * H);
  sm_retrieve : H -> Z -> outcome Z;
  sm_rep : H -> gmap Z Z -> Prop;
  sm_insert_ok ab at_ h m k v :
    sm_rep h m -> m !! k = None -> Z.of_nat (size m) + 1 < COUNT_LIMIT ->
    exists h', sm_insert ab at_ h k v = Ok (ab, h') /\ sm_rep h' (if ab then <[k := v]> m else m);
  sm_remove_ok at_ h m k :
    sm_rep h m -> Z.of_nat (size m) < COUNT_LIMIT ->
    exists h', sm_remove at_ h k = Ok (default 0 (m !! k), h') /\ sm_rep h' (delete k m);
  sm_retrieve_ok h m k :
    sm_rep h m -> Z.of_nat (size m) < COUNT_LIMIT -> sm_retrieve h k = Ok (default 0 (m !! k)) }.

Lemma word_rep_insert ab at_ h m k v :
  word_rep h m -> m !! k = None -> Z.of_nat (size m) + 1 < COUNT_LIMIT ->
  exists h', HASH_Insert ab at_ h k v = Ok (ab, h') /\ word_rep h' (if ab then <[k := v]> m else m).
Proof.
  intros Hw Hnone Hc. pose proof (word_count _ _ Hw) as Hcount. destruct Hw as [Hr Hk Hcomp].
  destruct (rep_insert ab at_ h (kmap word_key m) [k] v Hr) as (h' & Hi & Hr' & Hk' & Hc').
  - lia.
  - by rewrite Hk.
  - by rewrite (lookup_kmap word_key m k).
  - exists h'. split; [exact Hi|]. constructor; [|congruence..].
    destruct ab; [|done]. by rewrite (kmap_insert word_key).
Qed.

Lemma word_rep_remove at_ h m k :
  word_rep h m -> Z.of_nat (size m) < COUNT_LIMIT ->
  exists h', HASH_Remove at_ h k = Ok (default 0 (m !! k), h') /\ word_rep h' (delete k m) /\
    HASH_Retrieve h k = Ok (default 0 (m !! k)).
Proof.
  intros Hw Hc. pose proof (word_count _ _ Hw) as Hcount. destruct Hw as [Hr Hk Hcomp].
  assert (KeyFunctions (h_uKeySize h) (pfnKeyComp h)) by (rewrite Hcomp; apply _).
  destruct (rep_remove h (kmap word_key m) at_ [k] Hr) as (h' & Hi & Hr' & Hrt & Hk' & Hc').
  - lia.
  - by rewrite Hk.
  - change [k] with (word_key k) in Hi, Hrt, Hr'. rewrite (lookup_kmap word_key m k) in Hi, Hrt.
    exists h'. split; [exact Hi|]. split; [|exact Hrt]. constructor; [|congruence..].
    by rewrite (kmap_delete word_key).
Qed.

#[export, refine] Instance hash_segment_map : SegmentMap HASH_TABLE := {|
  sm_insert := HASH_Insert; sm_remove := HASH_Remove; sm_retrieve := HASH_Retrieve;
  sm_rep := word_rep |}.
Proof.
  - intros. by apply word_rep_insert.
  - intros at_ h m k Hr Hc. destruct (word_rep_remove at_ h m k Hr Hc) as (h' & H1 & H2 & _). eauto.
  - intros h m k Hr Hc. by destruct (word_rep_remove true h m k Hr Hc) as (h' & _ & _ & H3).
Defined.

Lemma create_rep n h : 0 < n -> HASH_Create true true n = Some h -> word_rep h ∅.
Proof.
  intros Hn. unfold HASH_Create, HASH_Create_Extended. cbn [negb]. intros [= <-].
  constructor; [|done..]. cbn. constructor; cbn; [|by rewrite entries_replicate; constructor|].
  - constructor; cbn; [by rewrite length_replicate|lia|by rewrite entries_replicate|].
    apply placed_replicate.
  - by rewrite entries_replicate.
Qed.

(** ** Sequences of operations *)

Inductive op :=
| OpInsert (alloc_bucket alloc_table : bool) (k v : Z)
| OpRemove (alloc_table : bool) (k : Z)
| OpRetrieve (k : Z).

(** A call: its result (a boolean as 0 or 1) and the table. *)
Definition run_op (h : HASH_TABLE) (o : op) : outcome (Z * HASH_TABLE) :=
  match o with
  | OpInsert ab at_ k v => '(ok, h) ← HASH_Insert ab at_ h k v; Ok (if (ok : bool) then 1 else 0, h)
  | OpRemove at_ k => HASH_Remove at_ h k
  | OpRetrieve k => v ← HASH_Retrieve h k; Ok (v, h)
  end.

Fixpoint run_ops (h : HASH_TABLE) (l : list op) : outcome (list Z * HASH_TABLE) :=
  match l with
  | [] => Ok ([], h)
  | o :: l => '(r, h) ← run_op h o; '(rs, h) ← run_ops h l; Ok (r :: rs, h)
  end.

(** The same calls on a map. *)
Definition spec_op (m : gmap Z Z) (o : op) : Z * gmap Z Z :=
  match o with
  | OpInsert true _ k v => (1, <[k := v]> m)
  | OpInsert false _ _ _ => (0, m)
  | OpRemove _ k => (default 0 (m !! k), delete k m)
  | OpRetrieve k => (default 0 (m !! k), m)
  end.

Fixpoint spec_ops (m : gmap Z Z) (l : list op) : list Z * gmap Z Z :=
  match l with
  | [] => ([], m)
  | o :: l => let '(r, m) := spec_op m o in let '(rs, m) := spec_ops m l in (r :: rs, m)
  end.

(** Keys are inserted only when absent. *)
Fixpoint fresh_inserts (m : gmap Z Z) (l : list op) : Prop :=
  match l with
  | [] => True
  | o :: l =>
      match o with OpInsert _ _ k _ => m !! k = None | _ => True end /\ fresh_inserts (spec_op m o).2 l
  end.

Lemma run_op_refines h m o :
  word_rep h m -> Z.of_nat (size m) + 1 < COUNT_LIMIT -> fresh_inserts m [o] ->
  exists h', run_op h o = Ok ((spec_op m o).1, h') /\ word_rep h' (spec_op m o).2.
Proof.
  intros Hr Hc [Hf _]. destruct o as [ab at_ k v|at_ k|k]; cbn [run_op].
  - destruct (word_rep_insert ab at_ h m k v Hr Hf Hc) as (h' & -> & Hr'). exists h'.
    destruct ab; done.
  - destruct (word_rep_remove at_ h m k Hr ltac:(lia)) as (h' & -> & Hr' & _). by exists h'.
  - destruct (word_rep_remove true h m k Hr ltac:(lia)) as (h' & _ & _ & ->). by exists h.
Qed.

Lemma spec_op_size m o : (size (spec_op m o).2 <= S (size m))%nat.
Proof.
  destruct o as [[] ? k v|? k|k]; cbn; try lia.
  - rewrite map_size_insert. case_match; unfold id; lia.
  - rewrite map_size_delete. case_match; unfold id; lia.
Qed.

Lemma run_ops_refines l h m :
  word_rep h m -> Z.of_nat (size m + length l) + 1 < COUNT_LIMIT -> fresh_inserts m l ->
  exists h', run_ops h l = Ok ((spec_ops m l).1, h') /\ word_rep h' (spec_ops m l).2.
Proof.
  revert h m. induction l as [|o l IH]; intros h m Hr Hc Hf; cbn [run_ops spec_ops length] in *.
  { by exists h. }
  destruct Hf as [Hf1 Hf2].
  destruct (run_op_refines h m o Hr ltac:(lia) ltac:(by split)) as (h1 & H1 & Hr1).
  pose proof (spec_op_size m o). rewrite H1. unfold mbind at 1, outcome_bind at 1.
  destruct (spec_op m o) as [r m1]. cbn [fst snd] in *.
  destruct (IH h1 m1 Hr1 ltac:(lia) Hf2) as (h2 & H2 & Hr2). rewrite H2.
  destruct (spec_ops m1 l) as [rs m2]. by exists h2.
Qed.

(** C15: any sequence of insertions of fresh keys, removals and lookups on a table
    made by [HASH_Create], for every outcome of the allocations of buckets and
    of resized tables, returns without fault and gives the results of the same
    calls on a finite map; a failed insertion changes nothing, and a failed
    resize is not observable. *)
Theorem hash_refines_map n h l :
  0 < n -> HASH_Create true true n = Some h -> fresh_inserts ∅ l ->
  Z.of_nat (length l) + 1 < COUNT_LIMIT ->
  exists h', run_ops h l = Ok ((spec_ops ∅ l).1, h') /\ word_rep h' (spec_ops ∅ l).2.
Proof.
  intros Hn Hc Hf Hl. apply run_ops_refines; [by eapply create_rep|by rewrite map_size_empty|done].
Qed.

Definition demo_ops : list op :=
  [OpInsert true true 10 100; OpInsert true false 26 260; OpInsert false true 42 420;
   OpInsert true true 42 421; OpRetrieve 26; OpRemove true 10; OpRetrieve 10; OpRemove true 42].

Definition demo_hash : HASH_TABLE :=
  mk_hash [[]] 1 0 1 WORD HASH_Func_Default HASH_Key_Comp_Default.

Lemma hash_refines_map_witness :
  exists h', run_ops demo_hash demo_ops = Ok ([1; 1; 0; 1; 260; 100; 0; 421], h').
Proof.
  destruct (hash_refines_map 1 demo_hash demo_ops) as (h' & H & _).
  - reflexivity.
  - reflexivity.
  - repeat split.
  - reflexivity.
  - exists h'. exact H.
Defined.

(** ** The size of the table *)

(** At most half full, and not larger than four times its contents (or two
    chains) unless it has its minimum size. *)
Definition loaded (h : HASH_TABLE) : Prop :=
  2 * h_uCount h <= h_uSize h <= Z.max (h_uMinimumSize h) (Z.max (4 * h_uCount h) 2).

Definition allocs_table (o : op) : bool :=
  match o with OpInsert _ at_ _ _ => at_ | OpRemove at_ _ => at_ | OpRetrieve _ => true end.

Lemma run_op_loaded h m o r h' :
  word_rep h m -> Z.of_nat (size m) + 1 < COUNT_LIMIT -> allocs_table o = true -> loaded h ->
  run_op h o = Ok (r, h') -> loaded h' /\ h_uMinimumSize h' = h_uMinimumSize h.
Proof.
  intros Hw Hc Ha Hl. pose proof (word_count _ _ Hw) as Hcount. destruct Hw as [Hr Hk Hcomp].
  pose proof (rep_wf _ _ Hr) as Hwf. pose proof (wf_size _ Hwf) as Hs.
  assert (KeyFunctions (h_uKeySize h) (pfnKeyComp h)) by (rewrite Hcomp; apply _).
  destruct o as [ab at_ k v|at_ k|k]; cbn [run_op allocs_table] in *.
  - subst at_. destruct (insert_ok ab true h [k] v Hwf) as (h1 & H1 & Hab); [lia|by rewrite Hk|].
    unfold HASH_Insert. rewrite H1. unfold mbind, outcome_bind. intros [= _ <-].
    destruct ab; [|by subst h1]. destruct Hab as (_ & _ & Heq & Hsz).
    unfold loaded in *. rewrite Heq. cbn [set_table set_count h_uCount h_uSize h_uMinimumSize].
    rewrite Hsz. cbn [andb]. destruct (Z.ltb_spec (h_uSize h) (2 * (h_uCount h + 1))); lia.
  - subst at_. unfold HASH_Remove.
    destruct (remove_ok true [k] Hwf) as [(v & h1 & H1 & _ & Hp & _ & Heq & Hsz)|(H1 & _)];
      [lia|by rewrite Hk| |]; rewrite H1; intros [= _ <-]; [|done].
    apply Permutation_length in Hp. cbn [length] in Hp. pose proof (wf_count _ Hwf).
    unfold loaded in *. rewrite Heq. cbn [set_table set_count h_uCount h_uSize h_uMinimumSize].
    rewrite Hsz. cbn [andb]. pose proof (Z.div_mod (h_uSize h) 2). pose proof (Z.mod_pos_bound (h_uSize h) 2).
    destruct (Z.ltb_spec (4 * (h_uCount h - 1)) (h_uSize h)), (Z.ltb_spec (h_uMinimumSize h) (h_uSize h));
      cbn [andb]; lia.
  - unfold HASH_Retrieve. intros Hrun. outcome_inv. done.
Qed.

Lemma run_ops_loaded l h m rs h' :
  word_rep h m -> Z.of_nat (size m + length l) + 1 < COUNT_LIMIT -> fresh_inserts m l ->
  forallb allocs_table l = true -> loaded h -> run_ops h l = Ok (rs, h') ->
  loaded h' /\ h_uMinimumSize h' = h_uMinimumSize h.
Proof.
  revert h m rs. induction l as [|o l IH]; intros h m rs Hr Hc Hf Ha Hl Hrun;
    cbn [run_ops length forallb] in *; [by inversion Hrun; subst|].
  destruct Hf as [Hf1 Hf2]. apply andb_prop in Ha as [Ha1 Ha2].
  destruct (run_op_refines h m o Hr ltac:(lia) ltac:(by split)) as (h1 & H1 & Hr1).
  pose proof (spec_op_size m o). rewrite H1 in Hrun. unfold mbind at 1, outcome_bind at 1 in Hrun.
  destruct (run_op_loaded h m o _ h1 Hr ltac:(lia) Ha1 Hl H1) as [Hl1 Hm1].
  destruct (run_ops h1 l) as [[rs' h2]|] eqn:E; [|done]. injection Hrun as <- <-.
  rewrite <- Hm1. eapply IH; [exact Hr1|lia|done|done|done|exact E].
Qed.

(** As long as the allocations of resized tables succeed, the table stays at
    most half full and, above its minimum size, at most four times as large as
    its contents: the counters, shifts and resizes of the 32-bit code keep the
    load factor through any sequence of operations. *)
Theorem hash_load_factor n h l rs h' :
  2 <= n -> HASH_Create true true n = Some h -> fresh_inserts ∅ l ->
  forallb allocs_table l = true -> Z.of_nat (length l) + 1 < COUNT_LIMIT ->
  run_ops h l = Ok (rs, h') ->
  2 * h_uCount h' <= h_uSize h' <= Z.max n (Z.max (4 * h_uCount h') 2).
Proof.
  intros Hn Hc Hf Ha Hl Hrun.
  assert (h_uMinimumSize h = n /\ loaded h) as [Hmin Hload].
  { revert Hc. unfold HASH_Create, HASH_Create_Extended, loaded. cbn [negb]. intros [= <-]. cbn. lia. }
  destruct (run_ops_loaded l h ∅ rs h') as [H1 H2];
    [by eapply create_rep; [|exact Hc]; lia|by rewrite map_size_empty|done..|].
  unfold loaded in H1. by rewrite H2, Hmin in H1.
Qed.

Lemma hash_load_factor_witness :
  let h := mk_hash [[]; []] 2 0 2 WORD HASH_Func_Default HASH_Key_Comp_Default in
  let l := [OpInsert true true 10 1; OpInsert true true 11 2; OpInsert true true 12 3; OpRemove true 11] in
  match run_ops h l with
  | Ok (_, h') => 2 * h_uCount h' <= h_uSize h' <= Z.max 2 (Z.max (4 * h_uCount h') 2)
  | Fault _ => False
  end.
Proof.
  intros h l. destruct (run_ops_refines l h ∅) as (h' & E & _).
  - apply (create_rep 2); reflexivity.
  - reflexivity.
  - repeat split.
  - rewrite E. apply (hash_load_factor 2 h l (spec_ops ∅ l).1 h').
    + lia.
    + reflexivity.
    + repeat split.
    + reflexivity.
    + reflexivity.
    + exact E.
Defined.

(** ** Iteration *)

(** Visit bindings in order until the callback reports an error. *)
Fixpoint visit {S} (cb : Z -> Z -> S -> Z * S) (l : list (Z * Z)) (s : S) : Z * S :=
  match l with
  | [] => (PVRSRV_OK, s)
  | (k, v) :: l =>
      let '(e, s) := cb k v s in if e =? PVRSRV_OK then visit cb l s else (e, s)
  end.

Definition word_binding (b : BUCKET) : Z * Z := (default 0 (head (b_k b)), b_v b).

Lemma visit_app {S} (cb : Z -> Z -> S -> Z * S) l1 l2 s :
  visit cb (l1 ++ l2) s =
    let '(e, s') := visit cb l1 s in if e =? PVRSRV_OK then visit cb l2 s' else (e, s').
Proof.
  revert s. induction l1 as [|[k v] l1 IH]; intros s; cbn [visit app]; [done|].
  destruct (cb k v s) as [e s']. destruct (e =? PVRSRV_OK) eqn:E; [apply IH|by rewrite E].
Qed.

Lemma iterate_chain_visit {S} (cb : Z -> Z -> S -> Z * S) c s :
  (forall b, b ∈ c -> length (b_k b) = 1%nat) ->
  iterate_chain cb c s = Ok (visit cb (word_binding <$> c) s).
Proof.
  revert s. induction c as [|b c IH]; intros s Hc; cbn [iterate_chain]; [done|].
  destruct (b_k b) as [|k [|]] eqn:E; [specialize (Hc b ltac:(set_solver)); rewrite E in Hc; done| |
    specialize (Hc b ltac:(set_solver)); rewrite E in Hc; done].
  rewrite fmap_cons. replace (word_binding b) with (k, b_v b) by (unfold word_binding; by rewrite E).
  cbn [visit].
  rewrite (rd_lookup [k] 0 k) by done. unfold mbind, outcome_bind.
  destruct (cb k (b_v b) s) as [e s']. destruct (e =? PVRSRV_OK); [|done]. apply IH. set_solver.
Qed.

Lemma iterate_loop_visit {S} (cb : Z -> Z -> S -> Z * S) t n i s :
  (forall c b, c ∈ t -> b ∈ c -> length (b_k b) = 1%nat) ->
  (Z.to_nat i + n = length t)%nat -> 0 <= i ->
  iterate_loop cb t n i s = Ok (visit cb (word_binding <$> entries (drop (Z.to_nat i) t)) s).
Proof.
  intros Ht. revert i s. induction n as [|n IH]; intros i s Hn Hi; cbn [iterate_loop].
  - by rewrite drop_ge by lia.
  - destruct (lookup_lt_is_Some_2 t (Z.to_nat i)) as [c Hc]; [lia|].
    rewrite (rd_lookup t i c) by done. unfold mbind at 1, outcome_bind at 1.
    rewrite iterate_chain_visit by (intros b; apply Ht; by eapply list_elem_of_lookup_2).
    rewrite (drop_S t c (Z.to_nat i) Hc). unfold entries. cbn [concat].
    rewrite fmap_app, visit_app. unfold mbind, outcome_bind.
    destruct (visit cb (word_binding <$> c) s) as [e s']. destruct (e =? PVRSRV_OK); [|done].
    rewrite IH by lia. by replace (Z.to_nat (i + 1)) with (Datatypes.S (Z.to_nat i)) by lia.
Qed.

(** Iterating over a table visits each binding of the map exactly once, in
    some order, and stops at the first error of the callback, which it returns. *)
Theorem HASH_Iterate_visits {S} (cb : Z -> Z -> S -> Z * S) h m s :
  word_rep h m ->
  exists l, l ≡ₚ map_to_list m /\ HASH_Iterate cb h s = Ok (visit cb l s).
Proof.
  intros [Hr Hk _]. pose proof (rep_wf _ _ Hr) as [Hlen Hsz _ Hp].
  exists (word_binding <$> entries (ppBucketTable h)). split.
  - pose proof (rep_map _ _ Hr) as Hmap. pose proof (rep_nodup _ _ Hr) as Hnd.
    assert (binding <$> entries (ppBucketTable h) ≡ₚ map_to_list (kmap word_key m)) as H1.
    { rewrite <- Hmap. symmetry. apply map_to_list_to_map. by rewrite fst_binding. }
    rewrite (map_to_list_kmap word_key m) in H1.
    apply (fmap_Permutation (prod_map (fun k => default 0 (head k)) id)) in H1.
    rewrite <- !list_fmap_compose in H1. rewrite (list_fmap_ext _ id (map_to_list m)) in H1
      by (by intros i [k v] _). rewrite list_fmap_id in H1. exact H1.
  - unfold HASH_Iterate. rewrite iterate_loop_visit; [done| |lia|done].
    intros c b Hc Hb. apply list_elem_of_lookup in Hc as [i Hi].
    destruct (Hp i c b Hi Hb) as [_ ->]. by rewrite Hk.
Qed.

Lemma HASH_Iterate_visits_witness :
  exists l, l ≡ₚ map_to_list (∅ : gmap Z Z) /\
    HASH_Iterate (fun k v n => (PVRSRV_OK, n + 1)) demo_hash 0 =
      Ok (visit (fun k v n => (PVRSRV_OK, n + 1)) l 0).
Proof. apply HASH_Iterate_visits. apply (create_rep 1); reflexivity. Defined.

(** Resizing a well-formed table, to any size from its minimum on, keeps its
    entries (also those of a key that was inserted twice), puts every bucket into
    the chain of its hash, and when the allocation fails leaves the table as it
    was. *)
Theorem _Resize_keeps_entries alloc h n :
  wf h -> h_uMinimumSize h <= n ->
  exists ok h', _Resize alloc h n = Ok (ok, h') /\ wf h' /\
    entries (ppBucketTable h') ≡ₚ entries (ppBucketTable h) /\
    h_uSize h' = (if alloc then n else h_uSize h) /\ h_uCount h' = h_uCount h.
Proof.
  intros Hw Hn. destruct (resize_ok alloc h n Hw Hn) as (ok & h' & H1 & H2 & H3 & H4 & H5).
  exists ok, h'. split_and!; [done..|]. by rewrite H4.
Qed.

Lemma _Resize_keeps_entries_witness :
  exists ok h', _Resize true demo_hash 8 = Ok (ok, h') /\ h_uSize h' = 8.
Proof.
  destruct (_Resize_keeps_entries true demo_hash 8) as (ok & h' & H1 & _ & _ & H2 & _).
  - apply (create_rep 1); reflexivity.
  - cbn. lia.
  - exists ok, h'. split; [exact H1|exact H2].
Defined.
