(* ===== verification/PvrRA.v ===== *)
(** * The resource allocator of the PowerVR services

    src/imgtec/eurasia_km/services4/srvkm/common/ra.c at the level of its
    pointers: the boundary tags live in a [heap] from addresses to records whose
    fields hold addresses (0 is [IMG_NULL]), so that a stale or null pointer that
    is followed is [Fault OutOfBounds].  An arena is a record that carries, beside
    the fields of the source, the heap, the outcomes of the coming calls of
    [OSAllocMem] ([allocs]; an empty list stands for success), the results of the
    coming calls of the import function ([imports]), and the calls of the import
    and backing store functions ([events], latest first).  Addresses and sizes
    are 32-bit, and the quantum is not zero.  The segment hash is any implementation of [SegmentMap].  The
    loops over lists are bounded by the number of tags in the heap ([OutOfFuel]
    beyond).  Not modelled: the arena's name, the proc entries, the debug log and
    dumps, the allocation-failure test, and the code for [VALIDATE_ARENA_TEST] and
    [USE_BM_FREESPACE_CHECK], which the build does not define. *)

From stdpp Require Import base list numbers option gmap.
From Stdlib Require Import ZArith Lia.
From S2P Require Import Prelude PvrHash PvrHashFacts.

Local Open Scope Z_scope.

Definition FREE_TABLE_LIMIT : Z := 32.
Definition MINIMUM_HASH_SIZE : Z := 64.

Inductive bt_type := btt_span | btt_free | btt_live.

#[export] Instance bt_type_eq_dec : EqDecision bt_type.
Proof. solve_decision. Defined.

Record BT := mk_bt {
  bt_kind : bt_type;
  bt_base : Z;
  bt_uSize : Z;
  pNextSegment : Z;
  pPrevSegment : Z;
  pNextFree : Z;
  pPrevFree : Z;
  psMapping : Z }.

Definition set_bt_kind (x : bt_type) (r : BT) : BT :=
  mk_bt x (bt_base r) (bt_uSize r) (pNextSegment r) (pPrevSegment r) (pNextFree r) (pPrevFree r)
    (psMapping r).
Definition set_bt_base (x : Z) (r : BT) : BT :=
  mk_bt (bt_kind r) x (bt_uSize r) (pNextSegment r) (pPrevSegment r) (pNextFree r) (pPrevFree r)
    (psMapping r).
Definition set_bt_uSize (x : Z) (r : BT) : BT :=
  mk_bt (bt_kind r) (bt_base r) x (pNextSegment r) (pPrevSegment r) (pNextFree r) (pPrevFree r)
    (psMapping r).
Definition set_pNextSegment (x : Z) (r : BT) : BT :=
  mk_bt (bt_kind r) (bt_base r) (bt_uSize r) x (pPrevSegment r) (pNextFree r) (pPrevFree r)
    (psMapping r).
Definition set_pPrevSegment (x : Z) (r : BT) : BT :=
  mk_bt (bt_kind r) (bt_base r) (bt_uSize r) (pNextSegment r) x (pNextFree r) (pPrevFree r)
    (psMapping r).
Definition set_pNextFree (x : Z) (r : BT) : BT :=
  mk_bt (bt_kind r) (bt_base r) (bt_uSize r) (pNextSegment r) (pPrevSegment r) x (pPrevFree r)
    (psMapping r).
Definition set_pPrevFree (x : Z) (r : BT) : BT :=
  mk_bt (bt_kind r) (bt_base r) (bt_uSize r) (pNextSegment r) (pPrevSegment r) (pNextFree r) x
    (psMapping r).
Definition set_psMapping (x : Z) (r : BT) : BT :=
  mk_bt (bt_kind r) (bt_base r) (bt_uSize r) (pNextSegment r) (pPrevSegment r) (pNextFree r)
    (pPrevFree r) x.

Record RA_STATISTICS := mk_stats {
  uSpanCount : Z;
  uLiveSegmentCount : Z;
  uFreeSegmentCount : Z;
  uTotalResourceCount : Z;
  uFreeResourceCount : Z;
  uCumulativeAllocs : Z;
  uCumulativeFrees : Z;
  uImportCount : Z;
  uExportCount : Z;
  uFailedAllocCount : Z }.

Definition set_uSpanCount (x : Z) (r : RA_STATISTICS) : RA_STATISTICS :=
  mk_stats x (uLiveSegmentCount r) (uFreeSegmentCount r) (uTotalResourceCount r)
    (uFreeResourceCount r) (uCumulativeAllocs r) (uCumulativeFrees r) (uImportCount r)
    (uExportCount r) (uFailedAllocCount r).
Definition set_uLiveSegmentCount (x : Z) (r : RA_STATISTICS) : RA_STATISTICS :=
  mk_stats (uSpanCount r) x (uFreeSegmentCount r) (uTotalResourceCount r) (uFreeResourceCount r)
    (uCumulativeAllocs r) (uCumulativeFrees r) (uImportCount r) (uExportCount r)
    (uFailedAllocCount r).
Definition set_uFreeSegmentCount (x : Z) (r : RA_STATISTICS) : RA_STATISTICS :=
  mk_stats (uSpanCount r) (uLiveSegmentCount r) x (uTotalResourceCount r) (uFreeResourceCount r)
    (uCumulativeAllocs r) (uCumulativeFrees r) (uImportCount r) (uExportCount r)
    (uFailedAllocCount r).
Definition set_uTotalResourceCount (x : Z) (r : RA_STATISTICS) : RA_STATISTICS :=
  mk_stats (uSpanCount r) (uLiveSegmentCount r) (uFreeSegmentCount r) x (uFreeResourceCount r)
    (uCumulativeAllocs r) (uCumulativeFrees r) (uImportCount r) (uExportCount r)
    (uFailedAllocCount r).
Definition set_uFreeResourceCount (x : Z) (r : RA_STATISTICS) : RA_STATISTICS :=
  mk_stats (uSpanCount r) (uLiveSegmentCount r) (uFreeSegmentCount r) (uTotalResourceCount r) x
    (uCumulativeAllocs r) (uCumulativeFrees r) (uImportCount r) (uExportCount r)
    (uFailedAllocCount r).
Definition set_uCumulativeAllocs (x : Z) (r : RA_STATISTICS) : RA_STATISTICS :=
  mk_stats (uSpanCount r) (uLiveSegmentCount r) (uFreeSegmentCount r) (uTotalResourceCount r)
    (uFreeResourceCount r) x (uCumulativeFrees r) (uImportCount r) (uExportCount r)
    (uFailedAllocCount r).
Definition set_uCumulativeFrees (x : Z) (r : RA_STATISTICS) : RA_STATISTICS :=
  mk_stats (uSpanCount r) (uLiveSegmentCount r) (uFreeSegmentCount r) (uTotalResourceCount r)
    (uFreeResourceCount r) (uCumulativeAllocs r) x (uImportCount r) (uExportCount r)
    (uFailedAllocCount r).
Definition set_uImportCount (x : Z) (r : RA_STATISTICS) : RA_STATISTICS :=
  mk_stats (uSpanCount r) (uLiveSegmentCount r) (uFreeSegmentCount r) (uTotalResourceCount r)
    (uFreeResourceCount r) (uCumulativeAllocs r) (uCumulativeFrees r) x (uExportCount r)
    (uFailedAllocCount r).
Definition set_uExportCount (x : Z) (r : RA_STATISTICS) : RA_STATISTICS :=
  mk_stats (uSpanCount r) (uLiveSegmentCount r) (uFreeSegmentCount r) (uTotalResourceCount r)
    (uFreeResourceCount r) (uCumulativeAllocs r) (uCumulativeFrees r) (uImportCount r) x
    (uFailedAllocCount r).
Definition set_uFailedAllocCount (x : Z) (r : RA_STATISTICS) : RA_STATISTICS :=
  mk_stats (uSpanCount r) (uLiveSegmentCount r) (uFreeSegmentCount r) (uTotalResourceCount r)
    (uFreeResourceCount r) (uCumulativeAllocs r) (uCumulativeFrees r) (uImportCount r)
    (uExportCount r) x.

Inductive event :=
| EvImportAlloc (size flags : Z)
| EvImportFree (base mapping : Z)
| EvBackingStoreFree (start stop : Z).

Record RA_ARENA (H : Type) := mk_ra {
  uQuantum : Z;
  import_alloc : bool;
  backing_store : bool;
  aHeadFree : list Z;
  pHeadSegment : Z;
  pTailSegment : Z;
  pSegmentHash : H;
  sStatistics : RA_STATISTICS;
  heap : gmap Z BT;
  allocs : list bool;
  imports : list (option (Z * Z * Z));
  events : list event }.
Arguments uQuantum {H} _.
Arguments import_alloc {H} _.
Arguments backing_store {H} _.
Arguments aHeadFree {H} _.
Arguments pHeadSegment {H} _.
Arguments pTailSegment {H} _.
Arguments pSegmentHash {H} _.
Arguments sStatistics {H} _.
Arguments heap {H} _.
Arguments allocs {H} _.
Arguments imports {H} _.
Arguments events {H} _.
Arguments mk_ra {H} _ _ _ _ _ _ _ _ _ _ _ _.

Section RA.
Context {H : Type} `{SegmentMap H} (ui32Flags : Z -> Z).

Definition set_uQuantum (x : Z) (r : RA_ARENA H) : RA_ARENA H :=
  mk_ra x (import_alloc r) (backing_store r) (aHeadFree r) (pHeadSegment r) (pTailSegment r)
    (pSegmentHash r) (sStatistics r) (heap r) (allocs r) (imports r) (events r).
Definition set_import_alloc (x : bool) (r : RA_ARENA H) : RA_ARENA H :=
  mk_ra (uQuantum r) x (backing_store r) (aHeadFree r) (pHeadSegment r) (pTailSegment r)
    (pSegmentHash r) (sStatistics r) (heap r) (allocs r) (imports r) (events r).
Definition set_backing_store (x : bool) (r : RA_ARENA H) : RA_ARENA H :=
  mk_ra (uQuantum r) (import_alloc r) x (aHeadFree r) (pHeadSegment r) (pTailSegment r)
    (pSegmentHash r) (sStatistics r) (heap r) (allocs r) (imports r) (events r).
Definition set_aHeadFree (x : list Z) (r : RA_ARENA H) : RA_ARENA H :=
  mk_ra (uQuantum r) (import_alloc r) (backing_store r) x (pHeadSegment r) (pTailSegment r)
    (pSegmentHash r) (sStatistics r) (heap r) (allocs r) (imports r) (events r).
Definition set_pHeadSegment (x : Z) (r : RA_ARENA H) : RA_ARENA H :=
  mk_ra (uQuantum r) (import_alloc r) (backing_store r) (aHeadFree r) x (pTailSegment r)
    (pSegmentHash r) (sStatistics r) (heap r) (allocs r) (imports r) (events r).
Definition set_pTailSegment (x : Z) (r : RA_ARENA H) : RA_ARENA H :=
  mk_ra (uQuantum r) (import_alloc r) (backing_store r) (aHeadFree r) (pHeadSegment r) x
    (pSegmentHash r) (sStatistics r) (heap r) (allocs r) (imports r) (events r).
Definition set_pSegmentHash (x : H) (r : RA_ARENA H) : RA_ARENA H :=
  mk_ra (uQuantum r) (import_alloc r) (backing_store r) (aHeadFree r) (pHeadSegment r)
    (pTailSegment r) x (sStatistics r) (heap r) (allocs r) (imports r) (events r).
Definition set_sStatistics (x : RA_STATISTICS) (r : RA_ARENA H) : RA_ARENA H :=
  mk_ra (uQuantum r) (import_alloc r) (backing_store r) (aHeadFree r) (pHeadSegment r)
    (pTailSegment r) (pSegmentHash r) x (heap r) (allocs r) (imports r) (events r).
Definition set_heap (x : gmap Z BT) (r : RA_ARENA H) : RA_ARENA H :=
  mk_ra (uQuantum r) (import_alloc r) (backing_store r) (aHeadFree r) (pHeadSegment r)
    (pTailSegment r) (pSegmentHash r) (sStatistics r) x (allocs r) (imports r) (events r).
Definition set_allocs (x : list bool) (r : RA_ARENA H) : RA_ARENA H :=
  mk_ra (uQuantum r) (import_alloc r) (backing_store r) (aHeadFree r) (pHeadSegment r)
    (pTailSegment r) (pSegmentHash r) (sStatistics r) (heap r) x (imports r) (events r).
Definition set_imports (x : list (option (Z * Z * Z))) (r : RA_ARENA H) : RA_ARENA H :=
  mk_ra (uQuantum r) (import_alloc r) (backing_store r) (aHeadFree r) (pHeadSegment r)
    (pTailSegment r) (pSegmentHash r) (sStatistics r) (heap r) (allocs r) x (events r).
Definition set_events (x : list event) (r : RA_ARENA H) : RA_ARENA H :=
  mk_ra (uQuantum r) (import_alloc r) (backing_store r) (aHeadFree r) (pHeadSegment r)
    (pTailSegment r) (pSegmentHash r) (sStatistics r) (heap r) (allocs r) (imports r) x.

(** ** The monad *)

Definition R (A : Type) : Type := RA_ARENA H -> outcome (A * RA_ARENA H).

#[local] Instance R_ret : MRet R := fun A a s => Ok (a, s).
#[local] Instance R_bind : MBind R := fun A B f m s =>
  match m s with Ok (a, s') => f a s' | Fault e => Fault e end.

Definition arena {A} (f : RA_ARENA H -> A) : R A := fun s => Ok (f s, s).
Definition update (f : RA_ARENA H -> RA_ARENA H) : R unit := fun s => Ok (tt, f s).
Definition fault_with {A} (e : fault) : R A := fun _ => Fault e.
Definition lift {A} (m : outcome A) : R A := fun s =>
  match m with Ok a => Ok (a, s) | Fault e => Fault e end.
Definition rwhen (c : bool) (m : R unit) : R unit := if c then m else mret tt.

(** [p->f] and [p->f = x] *)
Definition load {A} (p : Z) (f : BT -> A) : R A := fun s =>
  match heap s !! p with Some b => Ok (f b, s) | None => Fault OutOfBounds end.
Definition store (p : Z) (f : BT -> BT) : R unit := fun s =>
  match heap s !! p with
  | Some b => Ok (tt, set_heap (<[p := f b]> (heap s)) s)
  | None => Fault OutOfBounds
  end.

Definition stats (f : RA_STATISTICS -> RA_STATISTICS) : R unit :=
  update (fun s => set_sStatistics (f (sStatistics s)) s).

(** [x += n], [x -= n] of an [IMG_SIZE_T] *)
Definition plus (x n : Z) : Z := u32 (x + n).
Definition minus (x n : Z) : Z := u32 (x - n).

(** The next outcome of the allocator. *)
Definition next_alloc : R bool := fun s =>
  match allocs s with
  | [] => Ok (true, s)
  | b :: l => Ok (b, set_allocs l s)
  end.

(** An address that is not in use and not null. *)
Definition fresh_ptr (h : gmap Z BT) : Z := 1 + foldr Z.max 0 ((map_to_list h).*1).

(** [OSAllocMem] of a tag, zeroed by [OSMemSet]; 0 when it fails. *)
Definition alloc_bt : R Z :=
  ok ← next_alloc;
  if (ok : bool) then
    p ← arena (fun s => fresh_ptr (heap s));
    update (fun s => set_heap (<[p := mk_bt btt_span 0 0 0 0 0 0 0]> (heap s)) s);;
    mret p
  else mret 0.

Definition OSFreeMem (p : Z) : R unit :=
  load p (fun _ => tt);; update (fun s => set_heap (delete p (heap s)) s).

(** ** Logarithm *)

(** [while (n > 0) { n >>= 1; l++; }] *)
Fixpoint log2_loop (fuel : nat) (n l : Z) : Z :=
  match fuel with
  | O => l
  | S fuel => if 0 <? n then log2_loop fuel (Z.shiftr n 1) (l + 1) else l
  end.

Definition pvr_log2 (n : Z) : Z := log2_loop 32 (Z.shiftr n 1) 0.

(** ** The segment list *)

Definition _SegmentListInsertAfter (pInsertionPoint pBT : Z) : R Z :=
  if pInsertionPoint =? 0 then mret PVRSRV_ERROR_INVALID_PARAMS else
  n ← load pInsertionPoint pNextSegment;
  store pBT (set_pNextSegment n);;
  store pBT (set_pPrevSegment pInsertionPoint);;
  n ← load pInsertionPoint pNextSegment;
  (if n =? 0 then update (set_pTailSegment pBT) else store n (set_pPrevSegment pBT));;
  store pInsertionPoint (set_pNextSegment pBT);;
  mret PVRSRV_OK.

(** The scan for the insertion point. *)
Fixpoint segment_scan (fuel : nat) (base pBTScan : Z) : R Z :=
  match fuel with
  | O => fault_with OutOfFuel
  | S fuel =>
      n ← load pBTScan pNextSegment;
      if n =? 0 then mret pBTScan else
      b ← load n bt_base;
      if b <=? base then segment_scan fuel base n else mret pBTScan
  end.

Definition _SegmentListInsert (pBT : Z) : R Z :=
  hd ← arena pHeadSegment;
  if hd =? 0 then
    update (set_pTailSegment pBT);;
    update (set_pHeadSegment pBT);;
    store pBT (set_pPrevSegment 0);;
    store pBT (set_pNextSegment 0);;
    mret PVRSRV_OK
  else
    base ← load pBT bt_base;
    hbase ← load hd bt_base;
    if base <? hbase then
      store pBT (set_pNextSegment hd);;
      store hd (set_pPrevSegment pBT);;
      update (set_pHeadSegment pBT);;
      store pBT (set_pPrevSegment 0);;
      mret PVRSRV_OK
    else
      fuel ← arena (fun s => size (heap s));
      scan ← segment_scan fuel base hd;
      _SegmentListInsertAfter scan pBT.

Definition _SegmentListRemove (pBT : Z) : R unit :=
  prev ← load pBT pPrevSegment;
  next ← load pBT pNextSegment;
  (if prev =? 0 then update (set_pHeadSegment next) else store prev (set_pNextSegment next));;
  next ← load pBT pNextSegment;
  prev ← load pBT pPrevSegment;
  (if next =? 0 then update (set_pTailSegment prev) else store next (set_pPrevSegment prev)).

(** The new right neighbour of the tag; 0 when there is no memory. *)
Definition _SegmentSplit (pBT uSize : Z) : R Z :=
  pNeighbour ← alloc_bt;
  if pNeighbour =? 0 then mret 0 else
  store pNeighbour (set_pPrevSegment pBT);;
  n ← load pBT pNextSegment;
  store pNeighbour (set_pNextSegment n);;
  n ← load pBT pNextSegment;
  (if n =? 0 then update (set_pTailSegment pNeighbour) else store n (set_pPrevSegment pNeighbour));;
  store pBT (set_pNextSegment pNeighbour);;
  store pNeighbour (set_bt_kind btt_free);;
  size ← load pBT bt_uSize;
  store pNeighbour (set_bt_uSize (minus size uSize));;
  base ← load pBT bt_base;
  store pNeighbour (set_bt_base (plus base uSize));;
  map ← load pBT psMapping;
  store pNeighbour (set_psMapping map);;
  store pBT (set_bt_uSize uSize);;
  mret pNeighbour.

(** ** The free lists *)

Definition head_free (uIndex : Z) : R Z := l ← arena aHeadFree; lift (rd l uIndex).
Definition set_head_free (uIndex p : Z) : R unit :=
  l ← arena aHeadFree; l ← lift (wr l uIndex p); update (set_aHeadFree l).

Definition _FreeListInsert (pBT : Z) : R unit :=
  size ← load pBT bt_uSize;
  let uIndex := pvr_log2 size in
  store pBT (set_bt_kind btt_free);;
  h ← head_free uIndex;
  store pBT (set_pNextFree h);;
  store pBT (set_pPrevFree 0);;
  h ← head_free uIndex;
  (if h =? 0 then mret tt else store h (set_pPrevFree pBT));;
  set_head_free uIndex pBT.

Definition _FreeListRemove (pBT : Z) : R unit :=
  size ← load pBT bt_uSize;
  let uIndex := pvr_log2 size in
  next ← load pBT pNextFree;
  prev ← load pBT pPrevFree;
  (if next =? 0 then mret tt else store next (set_pPrevFree prev));;
  prev ← load pBT pPrevFree;
  next ← load pBT pNextFree;
  (if prev =? 0 then set_head_free uIndex next else store prev (set_pNextFree next)).

(** ** Tags and spans *)

Definition _BuildSpanMarker (base uSize : Z) : R Z :=
  p ← alloc_bt;
  if p =? 0 then mret 0 else
  store p (set_bt_kind btt_span);;
  store p (set_bt_base base);;
  store p (set_bt_uSize uSize);;
  store p (set_psMapping 0);;
  mret p.

Definition _BuildBT (base uSize : Z) : R Z :=
  p ← alloc_bt;
  if p =? 0 then mret 0 else
  store p (set_bt_kind btt_free);;
  store p (set_bt_base base);;
  store p (set_bt_uSize uSize);;
  mret p.

Definition _InsertResource (base uSize : Z) : R Z :=
  p ← _BuildBT base uSize;
  if p =? 0 then mret 0 else
  eError ← _SegmentListInsert p;
  if negb (eError =? PVRSRV_OK) then mret 0 else
  _FreeListInsert p;;
  stats (fun t => set_uTotalResourceCount (plus (uTotalResourceCount t) uSize) t);;
  stats (fun t => set_uFreeResourceCount (plus (uFreeResourceCount t) uSize) t);;
  stats (fun t => set_uSpanCount (plus (uSpanCount t) 1) t);;
  mret p.

(** The labels of [_InsertResourceSpan]: free what was built. *)
Definition span_fail (l : list Z) : R Z := foldr (fun p m => OSFreeMem p;; m) (mret 0) l.

Definition _InsertResourceSpan (base uSize : Z) : R Z :=
  pSpanStart ← _BuildSpanMarker base uSize;
  if pSpanStart =? 0 then mret 0 else
  pSpanEnd ← _BuildSpanMarker (plus base uSize) 0;
  if pSpanEnd =? 0 then span_fail [pSpanStart] else
  pBT ← _BuildBT base uSize;
  if pBT =? 0 then span_fail [pSpanEnd; pSpanStart] else
  eError ← _SegmentListInsert pSpanStart;
  if negb (eError =? PVRSRV_OK) then span_fail [pBT; pSpanEnd; pSpanStart] else
  eError ← _SegmentListInsertAfter pSpanStart pBT;
  if negb (eError =? PVRSRV_OK) then span_fail [pBT; pSpanEnd; pSpanStart] else
  _FreeListInsert pBT;;
  eError ← _SegmentListInsertAfter pBT pSpanEnd;
  if negb (eError =? PVRSRV_OK) then span_fail [pBT; pSpanEnd; pSpanStart] else
  stats (fun t => set_uTotalResourceCount (plus (uTotalResourceCount t) uSize) t);;
  mret pBT.

(** ** Freeing *)

(** Is [p] a tag of the kind? ([p != IMG_NULL && p->type == k]) *)
Definition is_kind (p : Z) (k : bt_type) : R bool :=
  if p =? 0 then mret false else t ← load p bt_kind; mret (bool_decide (t = k)).

(** Merge with the free segment before. *)
Definition merge_prev (pBT : Z) : R unit :=
  pNeighbour ← load pBT pPrevSegment;
  free ← is_kind pNeighbour btt_free;
  if negb free then mret tt else
  nbase ← load pNeighbour bt_base;
  nsize ← load pNeighbour bt_uSize;
  base ← load pBT bt_base;
  if negb (plus nbase nsize =? base) then mret tt else
  _FreeListRemove pNeighbour;;
  _SegmentListRemove pNeighbour;;
  nbase ← load pNeighbour bt_base;
  store pBT (set_bt_base nbase);;
  nsize ← load pNeighbour bt_uSize;
  store pBT (fun b => set_bt_uSize (plus (bt_uSize b) nsize) b);;
  OSFreeMem pNeighbour;;
  stats (fun t => set_uFreeSegmentCount (minus (uFreeSegmentCount t) 1) t).

(** Merge with the free segment after. *)
Definition merge_next (pBT : Z) : R unit :=
  pNeighbour ← load pBT pNextSegment;
  free ← is_kind pNeighbour btt_free;
  if negb free then mret tt else
  base ← load pBT bt_base;
  size ← load pBT bt_uSize;
  nbase ← load pNeighbour bt_base;
  if negb (plus base size =? nbase) then mret tt else
  _FreeListRemove pNeighbour;;
  _SegmentListRemove pNeighbour;;
  nsize ← load pNeighbour bt_uSize;
  store pBT (fun b => set_bt_uSize (plus (bt_uSize b) nsize) b);;
  OSFreeMem pNeighbour;;
  stats (fun t => set_uFreeSegmentCount (minus (uFreeSegmentCount t) 1) t).

(** The whole quanta of the freed range that are free now. *)
Definition free_backing_store (pBT uOrigBase uOrigSize : Z) : R unit :=
  q ← arena uQuantum;
  base ← load pBT bt_base;
  size ← load pBT bt_uSize;
  let uRoundedStart := u32 (uOrigBase / q * q) in
  let uRoundedStart := if uRoundedStart <? base then plus uRoundedStart q else uRoundedStart in
  let uRoundedEnd := u32 (u32 (uOrigBase + uOrigSize + q - 1) / q * q) in
  let uRoundedEnd := if plus base size <? uRoundedEnd then minus uRoundedEnd q else uRoundedEnd in
  rwhen (uRoundedStart <? uRoundedEnd)
    (update (fun s => set_events (EvBackingStoreFree uRoundedStart uRoundedEnd :: events s) s)).

Definition _FreeBT (pBT : Z) (bFreeBackingStore : bool) : R unit :=
  stats (fun t => set_uLiveSegmentCount (minus (uLiveSegmentCount t) 1) t);;
  stats (fun t => set_uFreeSegmentCount (plus (uFreeSegmentCount t) 1) t);;
  uOrigBase ← load pBT bt_base;
  uOrigSize ← load pBT bt_uSize;
  stats (fun t => set_uFreeResourceCount (plus (uFreeResourceCount t) uOrigSize) t);;
  merge_prev pBT;;
  merge_next pBT;;
  backing ← arena backing_store;
  rwhen (backing && bFreeBackingStore) (free_backing_store pBT uOrigBase uOrigSize);;
  next ← load pBT pNextSegment;
  prev ← load pBT pPrevSegment;
  nspan ← is_kind next btt_span;
  pspan ← (if (nspan : bool) then is_kind prev btt_span else mret false);
  if (pspan : bool) then
    _SegmentListRemove next;;
    _SegmentListRemove prev;;
    _SegmentListRemove pBT;;
    base ← load pBT bt_base;
    map ← load pBT psMapping;
    size ← load pBT bt_uSize;
    update (fun s => set_events (EvImportFree base map :: events s) s);;
    stats (fun t => set_uSpanCount (minus (uSpanCount t) 1) t);;
    stats (fun t => set_uExportCount (plus (uExportCount t) 1) t);;
    stats (fun t => set_uFreeSegmentCount (minus (uFreeSegmentCount t) 1) t);;
    stats (fun t => set_uFreeResourceCount (minus (uFreeResourceCount t) size) t);;
    stats (fun t => set_uTotalResourceCount (minus (uTotalResourceCount t) size) t);;
    OSFreeMem next;;
    OSFreeMem prev;;
    OSFreeMem pBT
  else _FreeListInsert pBT.

(** ** Allocating *)

Definition aligned_base (base uAlignment uAlignmentOffset : Z) : Z :=
  if 1 <? uAlignment
  then u32 (u32 (base + uAlignmentOffset + uAlignment - 1) / uAlignment * uAlignment - uAlignmentOffset)
  else base.

(** The part before the aligned base goes back to the free lists: [Some] the tag
    of the rest, [None] when there is no memory for it. *)
Definition front_split (pBT aligned : Z) : R (option Z) :=
  base ← load pBT bt_base;
  if base <? aligned then
    pNeighbour ← _SegmentSplit pBT (minus aligned base);
    if pNeighbour =? 0 then _FreeListInsert pBT;; mret None else
    _FreeListInsert pBT;;
    size ← load pBT bt_uSize;
    stats (fun t => set_uFreeSegmentCount (plus (uFreeSegmentCount t) 1) t);;
    stats (fun t => set_uFreeResourceCount (plus (uFreeResourceCount t) size) t);;
    mret (Some pNeighbour)
  else mret (Some pBT).

(** The part after the request goes back to the free lists: [false] when there is
    no memory for it. *)
Definition back_split (pBT uSize : Z) : R bool :=
  size ← load pBT bt_uSize;
  if uSize <? size then
    pNeighbour ← _SegmentSplit pBT uSize;
    if pNeighbour =? 0 then _FreeListInsert pBT;; mret false else
    _FreeListInsert pNeighbour;;
    nsize ← load pNeighbour bt_uSize;
    stats (fun t => set_uFreeSegmentCount (plus (uFreeSegmentCount t) 1) t);;
    stats (fun t => set_uFreeResourceCount (plus (uFreeResourceCount t) nsize) t);;
    mret true
  else mret true.

(** The tag becomes live and is entered in the hash under its base. *)
Definition make_live (pBT : Z) : R (option (Z * Z)) :=
  store pBT (set_bt_kind btt_live);;
  base ← load pBT bt_base;
  alloc_bucket ← next_alloc;
  alloc_table ← next_alloc;
  h ← arena pSegmentHash;
  '(ok, h) ← lift (sm_insert alloc_bucket alloc_table h base pBT);
  update (set_pSegmentHash h);;
  if negb ok then _FreeBT pBT false;; mret None else
  map ← load pBT psMapping;
  base ← load pBT bt_base;
  mret (Some (base, map)).

(** Carve the request out of a free segment that can hold it: the result of
    [_AttemptAllocAligned]. *)
Definition carve (pBT uSize aligned : Z) : R (option (Z * Z)) :=
  _FreeListRemove pBT;;
  size ← load pBT bt_uSize;
  stats (fun t => set_uLiveSegmentCount (plus (uLiveSegmentCount t) 1) t);;
  stats (fun t => set_uFreeSegmentCount (minus (uFreeSegmentCount t) 1) t);;
  stats (fun t => set_uFreeResourceCount (minus (uFreeResourceCount t) size) t);;
  front ← front_split pBT aligned;
  match front with
  | None => mret None
  | Some pBT =>
      back ← back_split pBT uSize;
      if (back : bool) then make_live pBT else mret None
  end.

(** The search of one free list: [None] at its end, [Some] the result of
    [_AttemptAllocAligned]. *)
Fixpoint alloc_chain (fuel : nat) (pBT uSize uFlags uAlignment uAlignmentOffset : Z)
    : R (option (option (Z * Z))) :=
  match fuel with
  | O => fault_with OutOfFuel
  | S fuel =>
      if pBT =? 0 then mret None else
      base ← load pBT bt_base;
      size ← load pBT bt_uSize;
      map ← load pBT psMapping;
      let aligned := aligned_base base uAlignment uAlignmentOffset in
      if (plus aligned uSize <=? plus base size) && ((map =? 0) || (ui32Flags map =? uFlags)) then
        r ← carve pBT uSize aligned;
        mret (Some r)
      else
        next ← load pBT pNextFree;
        alloc_chain fuel next uSize uFlags uAlignment uAlignmentOffset
  end.

(** [while (uIndex < FREE_TABLE_LIMIT)]: [n] lists are left. *)
Fixpoint alloc_lists (n : nat) (uIndex uSize uFlags uAlignment uAlignmentOffset : Z)
    : R (option (Z * Z)) :=
  match n with
  | O => mret None
  | S n =>
      h ← head_free uIndex;
      fuel ← arena (fun s => S (size (heap s)));
      o ← alloc_chain fuel h uSize uFlags uAlignment uAlignmentOffset;
      match o with
      | Some r => mret r
      | None => alloc_lists n (uIndex + 1) uSize uFlags uAlignment uAlignmentOffset
      end
  end.

(** The base and the mapping of the allocation, or [None]. *)
Definition _AttemptAllocAligned (uSize uFlags uAlignment uAlignmentOffset : Z) : R (option (Z * Z)) :=
  let uAlignmentOffset :=
    if 1 <? uAlignment then uAlignmentOffset mod uAlignment else uAlignmentOffset in
  let uIndex := pvr_log2 uSize in
  alloc_lists (Z.to_nat (FREE_TABLE_LIMIT - uIndex)) uIndex uSize uFlags uAlignment uAlignmentOffset.

(** [(x + q - 1) / q * q] *)
Definition round_up (x q : Z) : Z := u32 (u32 (x + q - 1) / q * q).

(** [pArena->pImportAlloc(...)]: [_RequestAllocFail] when none was given. *)
Definition pImportAlloc (uSize uFlags : Z) : R (option (Z * Z * Z)) := fun s =>
  if import_alloc s then
    let s := set_events (EvImportAlloc uSize uFlags :: events s) s in
    match imports s with
    | [] => Ok (None, s)
    | r :: l => Ok (r, set_imports l s)
    end
  else Ok (None, s).

Definition RA_Alloc (uRequestSize uFlags uAlignment uAlignmentOffset : Z) : R (option (Z * Z)) :=
  r ← _AttemptAllocAligned uRequestSize uFlags uAlignment uAlignmentOffset;
  r ← match r with
      | Some x => mret (Some x)
      | None =>
          q ← arena uQuantum;
          let uImportSize :=
            if q <? uAlignment then plus uRequestSize (uAlignment - 1) else uRequestSize in
          imp ← pImportAlloc (round_up uImportSize q) uFlags;
          match imp with
          | None => mret None
          | Some (import_base, uImportSize, psImportMapping) =>
              pBT ← _InsertResourceSpan import_base uImportSize;
              if pBT =? 0 then
                update (fun s => set_events (EvImportFree import_base psImportMapping :: events s) s);;
                mret None
              else
                store pBT (set_psMapping psImportMapping);;
                stats (fun t => set_uFreeSegmentCount (plus (uFreeSegmentCount t) 1) t);;
                stats (fun t => set_uFreeResourceCount (plus (uFreeResourceCount t) uImportSize) t);;
                stats (fun t => set_uImportCount (plus (uImportCount t) 1) t);;
                stats (fun t => set_uSpanCount (plus (uSpanCount t) 1) t);;
                _AttemptAllocAligned uRequestSize uFlags uAlignment uAlignmentOffset
          end
      end;
  match r with
  | Some _ => stats (fun t => set_uCumulativeAllocs (plus (uCumulativeAllocs t) 1) t)
  | None => stats (fun t => set_uFailedAllocCount (plus (uFailedAllocCount t) 1) t)
  end;;
  mret r.

Definition RA_Free (base : Z) (bFreeBackingStore : bool) : R unit :=
  alloc_table ← next_alloc;
  h ← arena pSegmentHash;
  '(pBT, h) ← lift (sm_remove alloc_table h base);
  update (set_pSegmentHash h);;
  if pBT =? 0 then mret tt else
  stats (fun t => set_uCumulativeFrees (plus (uCumulativeFrees t) 1) t);;
  _FreeBT pBT bFreeBackingStore.

(** ** Arenas *)

Definition RA_Add (base uSize : Z) : R bool :=
  q ← arena uQuantum;
  p ← _InsertResource base (round_up uSize q);
  mret (negb (p =? 0)).

(** The arena, or [None]: [alloc_arena] is the outcome of its allocation and
    [ohash] that of [HASH_Create (MINIMUM_HASH_SIZE)]. *)
Definition RA_Create (alloc_arena : bool) (ohash : option H) (base uSize mapping quantum : Z)
    (imp_alloc backingstore_free : bool) (mem : gmap Z BT) (al : list bool)
    (im : list (option (Z * Z * Z))) : outcome (option (RA_ARENA H)) :=
  if negb alloc_arena then Ok None else
  match ohash with
  | None => Ok None
  | Some hash =>
      let s := mk_ra quantum imp_alloc backingstore_free (replicate (Z.to_nat FREE_TABLE_LIMIT) 0)
                 0 0 hash (mk_stats 0 0 0 0 0 0 0 0 0 0) mem al im [] in
      if 0 <? uSize then
        '(p, s) ← _InsertResource base (round_up uSize quantum) s;
        if p =? 0 then Ok None else
        '(_, s) ← store p (set_psMapping mapping) s;
        Ok (Some s)
      else Ok (Some s)
  end.

(** The loop of [RA_Delete]. *)
Fixpoint delete_segments (fuel : nat) : R unit :=
  hd ← arena pHeadSegment;
  if hd =? 0 then mret tt else
  match fuel with
  | O => fault_with OutOfFuel
  | S fuel =>
      _SegmentListRemove hd;;
      OSFreeMem hd;;
      stats (fun t => set_uSpanCount (minus (uSpanCount t) 1) t);;
      delete_segments fuel
  end.

(** [RA_Delete] up to the destruction of the hash and the arena itself. *)
Definition RA_Delete : R unit :=
  update (set_aHeadFree (replicate (Z.to_nat FREE_TABLE_LIMIT) 0));;
  fuel ← arena (fun s => size (heap s));
  delete_segments fuel.

(** The loop of [RA_TestDelete]. *)
Fixpoint test_delete (fuel : nat) : R bool :=
  hd ← arena pHeadSegment;
  if hd =? 0 then mret true else
  t ← load hd bt_kind;
  if negb (bool_decide (t = btt_free)) then mret false else
  match fuel with
  | O => fault_with OutOfFuel
  | S fuel => test_delete fuel
  end.

Definition RA_TestDelete (fuel : nat) : R bool := test_delete fuel.

(** The first live segment from [pBT] on: its size, base and successor. *)
Fixpoint live_scan (fuel : nat) (pBT : Z) : R (option (Z * Z * Z)) :=
  match fuel with
  | O => fault_with OutOfFuel
  | S fuel =>
      if pBT =? 0 then mret None else
      t ← load pBT bt_kind;
      if bool_decide (t = btt_live) then
        size ← load pBT bt_uSize;
        base ← load pBT bt_base;
        next ← load pBT pNextSegment;
        mret (Some (size, base, next))
      else
        next ← load pBT pNextSegment;
        live_scan fuel next
  end.

Definition RA_GetNextLiveSegment (hSegment : Z) : R (option (Z * Z * Z)) :=
  hd ← arena pHeadSegment;
  fuel ← arena (fun s => S (size (heap s)));
  live_scan fuel (if hSegment =? 0 then hd else hSegment).

End RA.

#[export] Existing Instance R_ret.
#[export] Existing Instance R_bind.
