(* ===== verification/PvrRALists.v ===== *)
(** * The resource allocator: its linked lists

    Doubly linked lists over an abstract link function, shared by the segment
    list and the free lists of PvrRA.v, and the refinement of the pointer
    operations to operations on lists of addresses: no operation follows a stale
    or null pointer, the loops end, and everything but the links is kept. *)

From stdpp Require Import base list numbers option gmap sets.
From Stdlib Require Import ZArith Lia Sorted.
From S2P Require Import Prelude PvrHash PvrHashFacts PvrRA.

Local Open Scope Z_scope.

(** ** Doubly linked lists *)

(** The links of a node: the previous and the next one. *)
Definition links := Z -> option (Z * Z).

Definition first (d : Z) (l : list Z) : Z := match l with [] => d | p :: _ => p end.
Fixpoint final (d : Z) (l : list Z) : Z := match l with [] => d | p :: l => final p l end.

Fixpoint dll (L : links) (prev : Z) (l : list Z) (next : Z) : Prop :=
  match l with
  | [] => True
  | p :: l => p <> 0 /\ L p = Some (prev, first next l) /\ dll L p l next
  end.

Lemma final_app d l1 l2 : final d (l1 ++ l2) = final (final d l1) l2.
Proof. revert d. induction l1 as [|p l1 IH]; intros d; [done|]. apply IH. Qed.

Lemma first_app d l1 l2 : first d (l1 ++ l2) = first (first d l2) l1.
Proof. by destruct l1. Qed.

Lemma dll_app L prev l1 l2 next :
  dll L prev (l1 ++ l2) next <-> dll L prev l1 (first next l2) /\ dll L (final prev l1) l2 next.
Proof.
  revert prev. induction l1 as [|p l1 IH]; intros prev; cbn; [tauto|].
  rewrite IH, first_app. tauto.
Qed.

Lemma dll_frame L L' prev l next :
  (forall p, p ∈ l -> L' p = L p) -> dll L prev l next -> dll L' prev l next.
Proof.
  revert prev. induction l as [|p l IH]; intros prev HL; cbn; [done|].
  intros (Hp & HLp & Hd). rewrite HL by set_solver. split_and!; [done|done|].
  apply IH; [|done]. intros q Hq. apply HL. set_solver.
Qed.

Lemma dll_nonzero L prev l next p : dll L prev l next -> p ∈ l -> p <> 0.
Proof.
  revert prev. induction l as [|q l IH]; intros prev; cbn; [set_solver|].
  intros (Hq & _ & Hd) Hp. apply elem_of_cons in Hp as [->|Hp]; [done|]. by eapply IH.
Qed.

Lemma dll_links L prev l next p : dll L prev l next -> p ∈ l -> is_Some (L p).
Proof.
  revert prev. induction l as [|q l IH]; intros prev; cbn; [set_solver|].
  intros (_ & Hq & Hd) Hp. apply elem_of_cons in Hp as [->|Hp]; [by rewrite Hq|]. by eapply IH.
Qed.

Lemma first_elem d l : first d l = d \/ first d l ∈ l.
Proof. destruct l; [by left|right; set_solver]. Qed.

Lemma final_elem d l : final d l = d \/ final d l ∈ l.
Proof.
  revert d. induction l as [|p l IH]; intros d; cbn; [by left|].
  right. destruct (IH p) as [->|]; set_solver.
Qed.

(** Only the last node changes, in its next link. *)
Lemma dll_set_next L L' prev l n n' :
  NoDup l -> l <> [] ->
  (forall p, p ∈ l -> L' p = (fun '(x, y) => (x, if decide (p = final 0 l) then n' else y)) <$> L p) ->
  dll L prev l n -> dll L' prev l n'.
Proof.
  revert prev. induction l as [|p l IH]; intros prev Hnd Hne HL; cbn; [done|].
  intros (Hp & HLp & Hd). apply NoDup_cons in Hnd as [Hpl Hnd]. split; [done|].
  rewrite HL, HLp by set_solver. cbn. destruct l as [|q l].
  - cbn in *. by rewrite decide_True.
  - split.
    + rewrite decide_False; [done|]. intros E. cbn in E. apply Hpl. rewrite E.
      destruct (final_elem q l) as [->|]; set_solver.
    + apply IH; [done|done| |done]. intros r Hr. rewrite HL by set_solver. done.
Qed.

(** Only the first node changes, in its previous link. *)
Lemma dll_set_prev L L' prev prev' l n :
  NoDup l ->
  (forall p, p ∈ l -> L' p = (fun '(x, y) => (if decide (p = first 0 l) then prev' else x, y)) <$> L p) ->
  dll L prev l n -> dll L' prev' l n.
Proof.
  destruct l as [|p l]; intros Hnd HL; cbn; [done|].
  intros (Hp & HLp & Hd). apply NoDup_cons in Hnd as [Hpl Hnd].
  rewrite HL, HLp by set_solver. cbn. rewrite decide_True by done. split_and!; [done..|].
  eapply dll_frame; [|done]. intros q Hq. rewrite HL by set_solver. cbn [first].
  destruct (L q) as [[x y]|]; [|done]. cbn. rewrite decide_False by (intros ->; done). done.
Qed.

(** Unlinking a node: its neighbours point to each other. *)
Lemma dll_remove L L' l1 p l2 :
  NoDup (l1 ++ p :: l2) -> dll L 0 (l1 ++ p :: l2) 0 ->
  (forall q, q ∈ l1 ++ l2 -> L' q = (fun '(x, y) =>
     (if decide (q = first 0 l2) then final 0 l1 else x,
      if decide (q = final 0 l1) then first 0 l2 else y)) <$> L q) ->
  dll L' 0 (l1 ++ l2) 0.
Proof.
  intros Hnd Hd HL. pose proof (fun q => dll_nonzero _ _ _ _ q Hd) as Hnz.
  apply NoDup_app in Hnd as (Hnd1 & Hdisj & Hnd2). apply NoDup_cons in Hnd2 as [Hp2 Hnd2].
  apply dll_app in Hd as [Hd1 Hd2]. cbn in Hd2. destruct Hd2 as (_ & _ & Hd2).
  apply dll_app. split.
  - destruct l1 as [|q l1]; [done|]. eapply dll_set_next; [done|done| |exact Hd1].
    intros r Hr. rewrite HL by set_solver. destruct (L r) as [[x y]|]; [|done]. cbn.
    rewrite (decide_False (P := r = first 0 l2)); [done|]. intros ->. destruct (first_elem 0 l2) as [E|E]; [|set_solver].
    rewrite E in Hr. apply (Hnz 0); [set_solver|done].
  - eapply dll_set_prev; [done| |exact Hd2]. intros r Hr. rewrite HL by set_solver.
    destruct (L r) as [[x y]|]; [|done]. cbn. rewrite (decide_False (P := r = final 0 l1)); [done|].
    intros ->. destruct (final_elem 0 l1) as [E|E]; [|set_solver].
    rewrite E in Hr. apply (Hnz 0); [set_solver|done].
Qed.

(** Linking a node in after another. *)
Lemma dll_insert L L' l1 p q l2 :
  NoDup (l1 ++ p :: l2) -> dll L 0 (l1 ++ p :: l2) 0 -> q <> 0 -> q ∉ l1 ++ p :: l2 ->
  L' q = Some (p, first 0 l2) ->
  (forall r, r ∈ l1 ++ p :: l2 -> L' r = (fun '(x, y) =>
     (if decide (r = first 0 l2) then q else x, if decide (r = p) then q else y)) <$> L r) ->
  dll L' 0 (l1 ++ p :: q :: l2) 0.
Proof.
  intros Hnd Hd Hq0 Hq HLq HL. pose proof (fun q => dll_nonzero _ _ _ _ q Hd) as Hnz.
  replace (l1 ++ p :: q :: l2) with ((l1 ++ [p]) ++ q :: l2) by (by rewrite <- app_assoc).
  replace (l1 ++ p :: l2) with ((l1 ++ [p]) ++ l2) in Hnd, Hd by (by rewrite <- app_assoc).
  apply NoDup_app in Hnd as (Hnd1 & Hdisj & Hnd2). apply dll_app in Hd as [Hd1 Hd2].
  rewrite final_app in Hd2. cbn [final] in Hd2.
  apply dll_app. rewrite final_app. cbn [final first]. split; [|cbn; split_and!; [done|done|]].
  - eapply dll_set_next; [done|by destruct l1| |exact Hd1].
    intros r Hr. rewrite HL by set_solver. rewrite final_app. cbn [final].
    destruct (L r) as [[x y]|]; [|done]. cbn. rewrite (decide_False (P := r = first 0 l2)); [done|].
    intros ->. destruct (first_elem 0 l2) as [E|E]; [|set_solver].
    rewrite E in Hr. apply (Hnz 0); [set_solver|done].
  - eapply dll_set_prev; [done| |exact Hd2]. intros r Hr. rewrite HL by set_solver.
    destruct (L r) as [[x y]|]; [|done]. cbn. rewrite (decide_False (P := r = p)); [done|].
    intros ->. set_solver.
Qed.

(** The neighbours of a node: they are other nodes, or none. *)
Lemma dll_neighbours L l1 p l2 :
  NoDup (l1 ++ p :: l2) -> dll L 0 (l1 ++ p :: l2) 0 ->
  p <> final 0 l1 /\ p <> first 0 l2 /\
  (forall q, q <> 0 -> q = final 0 l1 \/ q = first 0 l2 -> q ∈ l1 ++ p :: l2).
Proof.
  intros Hnd Hd. assert (p <> 0) as Hp0 by (eapply dll_nonzero; [done|set_solver]).
  apply NoDup_app in Hnd as (_ & Hdisj & Hnd2). apply NoDup_cons in Hnd2 as [Hp2 _].
  destruct (final_elem 0 l1) as [E1|E1], (first_elem 0 l2) as [E2|E2].
  all: split_and!; [intros E; first [congruence | apply (Hdisj p); [by rewrite E|set_solver]]
                   |intros E; first [congruence | apply Hp2; by rewrite E]
                   |intros q Hq [-> | ->]; first [congruence | set_solver]].
Qed.

Lemma final_zero L l1 l2 : dll L 0 (l1 ++ l2) 0 -> final 0 l1 = 0 -> l1 = [].
Proof.
  intros Hd E. destruct l1 as [|q l1]; [done|]. exfalso. cbn in E.
  apply (dll_nonzero _ _ _ _ 0 Hd); [|done].
  destruct (final_elem q l1) as [E'|E']; rewrite <- E, ?E'; set_solver.
Qed.

Lemma first_zero L l1 l2 : dll L 0 (l1 ++ l2) 0 -> first 0 l2 = 0 -> l2 = [].
Proof.
  intros Hd E. destruct l2 as [|q l2]; [done|]. cbn in E. subst q. exfalso.
  apply (dll_nonzero _ _ _ _ 0 Hd); [set_solver|done].
Qed.

Lemma NoDup_middle {A} (l1 l2 : list A) p : NoDup (l1 ++ p :: l2) <-> NoDup (p :: l1 ++ l2).
Proof. by rewrite (Permutation_middle l1 l2 p). Qed.

Lemma NoDup_concat_unique {A} (F : list (list A)) i j l k x :
  NoDup (concat F) -> F !! i = Some l -> F !! j = Some k -> x ∈ l -> x ∈ k -> i = j.
Proof.
  revert i j. induction F as [|m F IH]; intros [|i] [|j] Hnd Hi Hj Hl Hk; cbn in *; simplify_eq; try done.
  - apply NoDup_app in Hnd as (_ & Hdisj & _). exfalso. apply (Hdisj x Hl).
    apply list_elem_of_In, in_concat. exists k. split; apply list_elem_of_In; [|done].
    by eapply list_elem_of_lookup_2.
  - apply NoDup_app in Hnd as (_ & Hdisj & _). exfalso. apply (Hdisj x Hk).
    apply list_elem_of_In, in_concat. exists l. split; apply list_elem_of_In; [|done].
    by eapply list_elem_of_lookup_2.
  - apply NoDup_app in Hnd as (_ & _ & Hnd). f_equal. by eapply IH.
Qed.

Lemma NoDup_concat_elem {A} (F : list (list A)) l : NoDup (concat F) -> l ∈ F -> NoDup l.
Proof.
  induction F as [|m F IH]; cbn; [set_solver|]. intros (H1 & _ & H2)%NoDup_app Hl.
  apply elem_of_cons in Hl as [->|Hl]; auto.
Qed.

Lemma NoDup_insert_after {A} (l1 l2 : list A) p q :
  NoDup (l1 ++ p :: l2) -> (q ∉ l1 ++ p :: l2) -> NoDup (l1 ++ p :: q :: l2).
Proof.
  intros Hnd Hq.
  assert (l1 ++ p :: q :: l2 ≡ₚ q :: l1 ++ p :: l2) as -> by solve_Permutation.
  by constructor.
Qed.

(** ** Links stored in boundary tags *)

(** A pair of link fields of a tag, with the laws of their updates. *)
Class LinkFields (gp gn : BT -> Z) (sp sn : Z -> BT -> BT) : Prop := {
  gp_sp x b : gp (sp x b) = x;
  gn_sp x b : gn (sp x b) = gn b;
  gp_sn x b : gp (sn x b) = gp b;
  gn_sn x b : gn (sn x b) = x;
  sp_sp x y b : sp x (sp y b) = sp x b;
  sn_sn x y b : sn x (sn y b) = sn x b;
  sp_sn x y b : sp x (sn y b) = sn y (sp x b) }.

#[export] Instance segment_fields :
  LinkFields pPrevSegment pNextSegment set_pPrevSegment set_pNextSegment.
Proof. by split. Qed.

#[export] Instance free_fields : LinkFields pPrevFree pNextFree set_pPrevFree set_pNextFree.
Proof. by split. Qed.

Lemma is_Some_alter {A} (f : A -> A) p (m : gmap Z A) q :
  is_Some (alter f p m !! q) <-> is_Some (m !! q).
Proof.
  destruct (decide (q = p)) as [->|Hne].
  - rewrite lookup_alter_eq. by rewrite fmap_is_Some.
  - by rewrite lookup_alter_ne.
Qed.

Section fields.
Context {gp gn : BT -> Z} {sp sn : Z -> BT -> BT} `{!LinkFields gp gn sp sn}.
Implicit Types (h : gmap Z BT).

Definition links_of h : links := fun p => (fun b => (gp b, gn b)) <$> h !! p.

(** A tag without these links. *)
Definition data_of (b : BT) : BT := sn 0 (sp 0 b).

Lemma links_alter_next h p n q :
  links_of (alter (sn n) p h) q =
    (fun '(x, y) => (x, if decide (q = p) then n else y)) <$> links_of h q.
Proof.
  unfold links_of. destruct (decide (q = p)) as [->|Hne].
  - rewrite lookup_alter_eq. destruct (h !! p); cbn; [|done]. by rewrite gp_sn, gn_sn.
  - rewrite lookup_alter_ne by done. by destruct (h !! q).
Qed.

Lemma links_alter_prev h p n q :
  links_of (alter (sp n) p h) q =
    (fun '(x, y) => (if decide (q = p) then n else x, y)) <$> links_of h q.
Proof.
  unfold links_of. destruct (decide (q = p)) as [->|Hne].
  - rewrite lookup_alter_eq. destruct (h !! p); cbn; [|done]. by rewrite gp_sp, gn_sp.
  - rewrite lookup_alter_ne by done. by destruct (h !! q).
Qed.

Lemma data_alter h f p q :
  (forall b, data_of (f b) = data_of b) -> data_of <$> alter f p h !! q = data_of <$> h !! q.
Proof.
  intros Hf. destruct (decide (q = p)) as [->|Hne].
  - rewrite lookup_alter_eq. destruct (h !! p); cbn; [by rewrite Hf|done].
  - by rewrite lookup_alter_ne.
Qed.

Lemma data_sp x b : data_of (sp x b) = data_of b.
Proof. unfold data_of. by rewrite sp_sp. Qed.

Lemma data_sn x b : data_of (sn x b) = data_of b.
Proof. unfold data_of. by rewrite (sp_sn (sp := sp) (sn := sn)), sn_sn. Qed.

(** Two tags linked to each other (0 for none). *)
Definition link_next (prev next : Z) h : gmap Z BT :=
  if prev =? 0 then h else alter (sn next) prev h.
Definition link_prev (prev next : Z) h : gmap Z BT :=
  if next =? 0 then h else alter (sp prev) next h.

Lemma links_link_next prev next h q :
  q <> 0 -> links_of (link_next prev next h) q =
    (fun '(x, y) => (x, if decide (q = prev) then next else y)) <$> links_of h q.
Proof.
  intros Hq. unfold link_next. destruct (Z.eqb_spec prev 0) as [->|]; [|apply links_alter_next].
  destruct (links_of h q) as [[x y]|]; cbn; [|done]. by rewrite decide_False.
Qed.

Lemma links_link_prev prev next h q :
  q <> 0 -> links_of (link_prev prev next h) q =
    (fun '(x, y) => (if decide (q = next) then prev else x, y)) <$> links_of h q.
Proof.
  intros Hq. unfold link_prev. destruct (Z.eqb_spec next 0) as [->|]; [|apply links_alter_prev].
  destruct (links_of h q) as [[x y]|]; cbn; [|done]. by rewrite decide_False.
Qed.

Lemma data_link_next prev next h q : data_of <$> link_next prev next h !! q = data_of <$> h !! q.
Proof. unfold link_next. case_match; [done|]. apply data_alter, data_sn. Qed.

Lemma data_link_prev prev next h q : data_of <$> link_prev prev next h !! q = data_of <$> h !! q.
Proof. unfold link_prev. case_match; [done|]. apply data_alter, data_sp. Qed.

Lemma link_next_ne prev next h q : q <> prev -> link_next prev next h !! q = h !! q.
Proof. intros. unfold link_next. case_match; [done|]. by rewrite lookup_alter_ne. Qed.

Lemma link_prev_ne prev next h q : q <> next -> link_prev prev next h !! q = h !! q.
Proof. intros. unfold link_prev. case_match; [done|]. by rewrite lookup_alter_ne. Qed.

Lemma link_next_0 prev next h : link_next prev next h !! 0 = h !! 0.
Proof. unfold link_next. destruct (Z.eqb_spec prev 0); [done|]. by rewrite lookup_alter_ne. Qed.

Lemma link_prev_0 prev next h : link_prev prev next h !! 0 = h !! 0.
Proof. unfold link_prev. destruct (Z.eqb_spec next 0); [done|]. by rewrite lookup_alter_ne. Qed.

Lemma link_next_is_Some prev next h q : is_Some (link_next prev next h !! q) <-> is_Some (h !! q).
Proof. unfold link_next. case_match; [done|]. apply is_Some_alter. Qed.

Lemma link_prev_is_Some prev next h q : is_Some (link_prev prev next h !! q) <-> is_Some (h !! q).
Proof. unfold link_prev. case_match; [done|]. apply is_Some_alter. Qed.

Lemma dll_in_heap h l p : dll (links_of h) 0 l 0 -> p ∈ l -> is_Some (h !! p).
Proof.
  intros Hd Hp. destruct (dll_links _ _ _ _ _ Hd Hp) as [x Hx].
  unfold links_of in Hx. by destruct (h !! p).
Qed.

(** Where a tag of a list is linked to. *)
Lemma dll_tag_links h l1 p l2 b :
  dll (links_of h) 0 (l1 ++ p :: l2) 0 -> h !! p = Some b -> gp b = final 0 l1 /\ gn b = first 0 l2.
Proof.
  intros Hd Hb. apply dll_app in Hd as [_ Hd]. cbn in Hd. destruct Hd as (_ & HL & _).
  unfold links_of in HL. rewrite Hb in HL. cbn in HL. split; congruence.
Qed.

(** Unlinking in the heap. *)
Lemma dll_unlink h l1 p l2 :
  NoDup (l1 ++ p :: l2) -> dll (links_of h) 0 (l1 ++ p :: l2) 0 ->
  let prev := final 0 l1 in let next := first 0 l2 in
  dll (links_of (link_prev prev next (link_next prev next h))) 0 (l1 ++ l2) 0 /\
  dll (links_of (link_next prev next (link_prev prev next h))) 0 (l1 ++ l2) 0.
Proof.
  intros Hnd Hd prev next.
  assert (forall q, q ∈ l1 ++ l2 -> q <> 0) as Hnz
    by (intros q Hq; apply (dll_nonzero _ _ _ _ q Hd); set_solver).
  split; eapply dll_remove; [done|done| |done|done|]; intros q Hq; specialize (Hnz q Hq).
  - rewrite links_link_prev, links_link_next by done. by destruct (links_of h q) as [[]|].
  - rewrite links_link_next, links_link_prev by done. by destruct (links_of h q) as [[]|].
Qed.

(** Linking in a tag [q] after [p], in the order of the code. *)
Lemma dll_link_in h l1 p q l2 :
  NoDup (l1 ++ p :: l2) -> dll (links_of h) 0 (l1 ++ p :: l2) 0 ->
  q <> 0 -> (q ∉ l1 ++ p :: l2) -> is_Some (h !! q) ->
  let next := first 0 l2 in
  let h1 := alter (sp p) q (alter (sn next) q h) in
  dll (links_of (alter (sn q) p (link_prev q next h1))) 0 (l1 ++ p :: q :: l2) 0.
Proof.
  intros Hnd Hd Hq0 Hq [b Hb] next h1.
  destruct (dll_neighbours _ _ _ _ Hnd Hd) as (_ & _ & Hin).
  assert (q <> p) as Hqp by set_solver.
  assert (q <> next) as Hqn.
  { intros E. apply Hq, Hin; [done|]. by right. }
  eapply dll_insert; [exact Hnd|exact Hd|done|done| |].
  - rewrite links_alter_next, links_link_prev by done. unfold h1.
    rewrite links_alter_prev, links_alter_next. unfold links_of. rewrite Hb. cbn.
    rewrite !(decide_True (P := q = q)) by done.
    by rewrite (decide_False (P := q = p)), (decide_False (P := q = next)).
  - intros r Hr. pose proof (dll_nonzero _ _ _ _ r Hd Hr) as Hr0.
    assert (r <> q) as Hrq by (intros ->; done).
    rewrite links_alter_next, links_link_prev by done. unfold h1.
    rewrite links_alter_prev, links_alter_next.
    destruct (links_of h r) as [[x y]|]; cbn; [|done].
    by rewrite !(decide_False (P := r = q)).
Qed.
End fields.

(** ** Running the monad *)

Section run.
Context {H : Type}.
Implicit Types (s : RA_ARENA H) (h : gmap Z BT).

Lemma R_bind_ok {A B} (m : R A) (f : A -> R B) s a s1 :
  m s = Ok (a, s1) -> (m ≫= f) s = f a s1.
Proof. intros E. unfold mbind, R_bind. by rewrite E. Qed.

Lemma load_ok {A} p (f : BT -> A) s b : heap s !! p = Some b -> load p f s = Ok (f b, s).
Proof. intros E. unfold load. by rewrite E. Qed.

Lemma store_ok p f s b :
  heap s !! p = Some b -> store p f s = Ok (tt, set_heap (alter f p (heap s)) s).
Proof.
  intros E. unfold store. rewrite E. do 3 f_equal.
  apply map_eq. intros q. destruct (decide (q = p)) as [->|Hne].
  - by rewrite lookup_insert_eq, lookup_alter_eq, E.
  - by rewrite lookup_insert_ne, lookup_alter_ne by done.
Qed.

Lemma arena_ok {A} (f : RA_ARENA H -> A) s : arena f s = Ok (f s, s).
Proof. done. Qed.

(** ** The segment list of an arena *)

Abbreviation seg_links := (links_of (gp := pPrevSegment) (gn := pNextSegment)).

(** A tag without its segment links. *)
Abbreviation seg_data := (data_of (sp := set_pPrevSegment) (sn := set_pNextSegment)).

Record seg_list s (l : list Z) : Prop := mk_seg_list {
  sl_nodup : NoDup l;
  sl_dll : dll (seg_links (heap s)) 0 l 0;
  sl_head : pHeadSegment s = first 0 l;
  sl_tail : pTailSegment s = final 0 l }.

(** Nothing but the segment list changed. *)
Record seg_frame s s' : Prop := mk_seg_frame {
  sf_arena : s' = set_heap (heap s') (set_pTailSegment (pTailSegment s')
                    (set_pHeadSegment (pHeadSegment s') s));
  sf_heap : forall p, seg_data <$> heap s' !! p = seg_data <$> heap s !! p }.

(** A store that links a tag, or nothing when there is none. *)
Lemma store_link_prev (gp gn : BT -> Z) sp sn `{!LinkFields gp gn sp sn} prev next s (m : R unit) :
  (next <> 0 -> is_Some (heap s !! next)) ->
  (if next =? 0 then m else store next (sp prev)) s =
    if next =? 0 then m s else Ok (tt, set_heap (link_prev (sp := sp) prev next (heap s)) s).
Proof.
  intros Hn. unfold link_prev. destruct (Z.eqb_spec next 0); [done|].
  destruct (Hn n) as [b Hb]. by apply (store_ok _ _ _ b).
Qed.

Lemma store_link_next (gp gn : BT -> Z) sp sn `{!LinkFields gp gn sp sn} prev next s (m : R unit) :
  (prev <> 0 -> is_Some (heap s !! prev)) ->
  (if prev =? 0 then m else store prev (sn next)) s =
    if prev =? 0 then m s else Ok (tt, set_heap (link_next (sn := sn) prev next (heap s)) s).
Proof.
  intros Hn. unfold link_next. destruct (Z.eqb_spec prev 0); [done|].
  destruct (Hn n) as [b Hb]. by apply (store_ok _ _ _ b).
Qed.

Lemma seg_list_remove s l1 p l2 :
  seg_list s (l1 ++ p :: l2) ->
  exists s', _SegmentListRemove p s = Ok (tt, s') /\ seg_list s' (l1 ++ l2) /\ seg_frame s s' /\
    heap s' !! p = heap s !! p.
Proof.
  intros [Hnd Hd Hh Ht]. destruct (dll_in_heap _ _ p Hd) as [b Hb]; [set_solver|].
  destruct (dll_tag_links _ _ _ _ _ Hd Hb) as [Hprev Hnext].
  destruct (dll_neighbours _ _ _ _ Hnd Hd) as (Hpp & Hpn & Hin).
  pose proof (dll_unlink _ _ _ _ Hnd Hd) as [Hd' _].
  pose proof (fun q Hq Hor => dll_in_heap _ _ q Hd (Hin q Hq Hor)) as Hsome. clear Hin.
  assert (final 0 l1 = 0 -> l1 = []) as Hz1 by (by eapply final_zero).
  assert (first 0 l2 = 0 -> l2 = []) as Hz2.
  { apply (first_zero (seg_links (heap s)) (l1 ++ [p])). by rewrite <- app_assoc. }
  set (prev := final 0 l1) in *. set (next := first 0 l2) in *.
  set (s0 := set_heap (link_next (sn := set_pNextSegment) prev next (heap s))
    (set_pHeadSegment (if prev =? 0 then next else pHeadSegment s) s)).
  exists (set_heap (link_prev (sp := set_pPrevSegment) prev next (heap s0))
    (set_pTailSegment (if next =? 0 then prev else pTailSegment s) s0)).
  assert (heap s0 !! p = Some b) as Hb0 by (unfold s0; cbn; by rewrite link_next_ne).
  split_and!.
  - unfold _SegmentListRemove.
    rewrite (R_bind_ok _ _ _ _ _ (load_ok p pPrevSegment s b Hb)).
    rewrite (R_bind_ok _ _ _ _ _ (load_ok p pNextSegment s b Hb)). rewrite Hprev, Hnext.
    rewrite (R_bind_ok _ _ s tt s0).
    2: { rewrite (store_link_next _ _ _ _ (LinkFields0 := segment_fields))
           by (intros E; apply (Hsome prev E); by left). unfold s0, link_next.
         destruct (prev =? 0); by destruct s. }
    rewrite (R_bind_ok _ _ _ _ _ (load_ok p pNextSegment s0 b Hb0)).
    rewrite (R_bind_ok _ _ _ _ _ (load_ok p pPrevSegment s0 b Hb0)). rewrite Hprev, Hnext.
    rewrite (store_link_prev _ _ _ _ (LinkFields0 := segment_fields)).
    + unfold link_prev. destruct (next =? 0); by destruct s.
    + intros Hn. unfold s0. cbn. apply link_next_is_Some.
      apply (Hsome next Hn). by right.
  - constructor; [|exact Hd'|cbn..].
    + apply NoDup_middle, NoDup_cons in Hnd. tauto.
    + rewrite first_app. fold next. rewrite Hh, first_app. cbn [first].
      destruct (Z.eqb_spec prev 0) as [E|E]; [by rewrite (Hz1 E)|by destruct l1].
    + rewrite final_app. fold prev. rewrite Ht, final_app. cbn [final].
      destruct (Z.eqb_spec next 0) as [E|E]; [by rewrite (Hz2 E)|by destruct l2].
  - constructor; [by destruct s|]. intros q. cbn. by rewrite data_link_prev, data_link_next.
  - cbn. by rewrite link_prev_ne, link_next_ne.
Qed.

(** The store of a field of a tag that is there. *)
Lemma store_alter p f s : is_Some (heap s !! p) -> store p f s = Ok (tt, set_heap (alter f p (heap s)) s).
Proof. intros [b Hb]. by apply (store_ok _ _ _ b). Qed.

Lemma seg_list_insert_after s l1 p q l2 :
  seg_list s (l1 ++ p :: l2) -> q <> 0 -> (q ∉ l1 ++ p :: l2) -> is_Some (heap s !! q) ->
  exists s', _SegmentListInsertAfter p q s = Ok (PVRSRV_OK, s') /\
    seg_list s' (l1 ++ p :: q :: l2) /\ seg_frame s s'.
Proof.
  intros [Hnd Hd Hh Ht] Hq0 Hq Hqs. pose proof (dll_link_in _ _ _ _ _ Hnd Hd Hq0 Hq Hqs) as Hd'.
  destruct (dll_in_heap _ _ p Hd) as [b Hb]; [set_solver|].
  destruct (dll_tag_links _ _ _ _ _ Hd Hb) as [_ Hnext].
  destruct (dll_neighbours _ _ _ _ Hnd Hd) as (_ & _ & Hin).
  assert (p <> 0) as Hp0 by (eapply dll_nonzero; [exact Hd|set_solver]).
  assert (q <> p) as Hqp by set_solver.
  assert (first 0 l2 = 0 -> l2 = []) as Hz2.
  { apply (first_zero (seg_links (heap s)) (l1 ++ [p])). by rewrite <- app_assoc. }
  set (next := first 0 l2) in *.
  set (h1 := alter (set_pPrevSegment p) q (alter (set_pNextSegment next) q (heap s))) in *.
  set (h2 := link_prev (sp := set_pPrevSegment) q next h1) in *.
  assert (forall r, is_Some (h1 !! r) <-> is_Some (heap s !! r)) as Hsome1
    by (intros r; unfold h1; by rewrite !is_Some_alter).
  assert (h1 !! p = Some b) as Hb1 by (unfold h1; by rewrite !lookup_alter_ne).
  exists (set_heap (alter (set_pNextSegment q) p h2)
    (set_pTailSegment (if next =? 0 then q else pTailSegment s) s)).
  split_and!.
  - unfold _SegmentListInsertAfter. rewrite (proj2 (Z.eqb_neq _ _) Hp0).
    rewrite (R_bind_ok _ _ _ _ _ (load_ok p pNextSegment s b Hb)). rewrite Hnext.
    rewrite (R_bind_ok _ _ _ _ _ (store_alter q _ s Hqs)).
    set (s0 := set_heap (alter (set_pNextSegment next) q (heap s)) s).
    assert (is_Some (heap s0 !! q)) as Hq1 by (unfold s0; cbn; by rewrite is_Some_alter).
    rewrite (R_bind_ok _ _ _ _ _ (store_alter q _ s0 Hq1)).
    set (s1 := set_heap (alter _ q (heap s0)) s0). change (h1 !! p = Some b) with (heap s1 !! p = Some b) in Hb1.
    rewrite (R_bind_ok _ _ _ _ _ (load_ok p pNextSegment s1 b Hb1)). rewrite Hnext.
    rewrite (R_bind_ok _ _ s1 tt (set_heap h2 (set_pTailSegment (if next =? 0 then q else pTailSegment s) s))).
    2: { rewrite (store_link_prev _ _ _ _ (LinkFields0 := segment_fields)).
         - unfold s1, h2, link_prev. destruct (next =? 0); by destruct s.
         - intros Hn. apply Hsome1, (dll_in_heap _ _ _ Hd), Hin; [done|by right]. }
    set (s2 := set_heap h2 _). assert (is_Some (heap s2 !! p)) as Hp2
      by (unfold s2, h2; cbn; apply link_prev_is_Some, Hsome1; by rewrite Hb).
    rewrite (R_bind_ok _ _ _ _ _ (store_alter p _ s2 Hp2)). by destruct s.
  - constructor; [|exact Hd'|cbn..].
    + by apply NoDup_insert_after.
    + by rewrite Hh, !first_app.
    + rewrite Ht, !final_app. cbn [final].
      destruct (Z.eqb_spec next 0) as [E|E]; [by rewrite (Hz2 E)|by destruct l2].
  - constructor; [by destruct s|]. intros r. cbn [heap set_heap]. unfold h2, h1.
    rewrite data_alter by (apply (data_sn (LinkFields0 := segment_fields))).
    rewrite data_link_prev.
    rewrite !data_alter; [done|apply (data_sn (LinkFields0 := segment_fields))
      |apply (data_sp (LinkFields0 := segment_fields))].
Qed.

(** ** Insertion in the order of the bases *)

Definition base_of h (p : Z) : Z := default 0 (bt_base <$> h !! p).

(** Before the first tag with a larger base. *)
Fixpoint ins (f : Z -> Z) (q : Z) (l : list Z) : list Z :=
  match l with
  | [] => [q]
  | p :: l => if f q <? f p then q :: p :: l else p :: ins f q l
  end.

Lemma ins_split f q l : exists l1 l2, l = l1 ++ l2 /\ ins f q l = l1 ++ q :: l2.
Proof.
  induction l as [|p l (l1 & l2 & E1 & E2)]; cbn; [by exists [], []|].
  case_match; [by exists [], (p :: l)|]. exists (p :: l1), l2. split; cbn; congruence.
Qed.

Lemma ins_perm f q l : ins f q l ≡ₚ q :: l.
Proof. destruct (ins_split f q l) as (l1 & l2 & -> & ->). solve_Permutation. Qed.

Lemma ins_sorted f q l :
  StronglySorted (fun x y => f x <= f y) l -> StronglySorted (fun x y => f x <= f y) (ins f q l).
Proof.
  induction 1 as [|p l Hs IH Hall]; cbn; [repeat constructor|].
  destruct (Z.ltb_spec (f q) (f p)).
  - constructor; [by constructor|]. constructor; [lia|]. eapply Forall_impl; [exact Hall|]. cbn. lia.
  - constructor; [done|]. rewrite Forall_forall in *. intros x Hx. rewrite ins_perm in Hx.
    apply elem_of_cons in Hx as [->|Hx]; [lia|auto].
Qed.

(** The scan stops at the tag after which the new one belongs. *)
Lemma segment_scan_ok s l1 p l2 base fuel q :
  dll (seg_links (heap s)) 0 (l1 ++ p :: l2) 0 -> base_of (heap s) q = base ->
  (length l2 < fuel)%nat ->
  exists l2a r l2b, segment_scan fuel base p s = Ok (r, s) /\ p :: l2 = l2a ++ r :: l2b /\
    p :: ins (base_of (heap s)) q l2 = l2a ++ r :: q :: l2b.
Proof.
  intros Hd Hq. revert l1 p l2 Hd. induction fuel as [|fuel IH]; intros l1 p l2 Hd Hf; [lia|].
  cbn [segment_scan]. destruct (dll_in_heap _ _ p Hd) as [b Hb]; [set_solver|].
  destruct (dll_tag_links _ _ _ _ _ Hd Hb) as [_ Hn].
  rewrite (R_bind_ok _ _ _ _ _ (load_ok p pNextSegment s b Hb)). rewrite Hn.
  destruct l2 as [|n l2]; cbn [first ins length] in *.
  { by exists [], p, []. }
  destruct (dll_in_heap _ _ n Hd) as [bn Hbn]; [set_solver|].
  rewrite (proj2 (Z.eqb_neq n 0)) by (eapply dll_nonzero; [exact Hd|set_solver]).
  rewrite (R_bind_ok _ _ _ _ _ (load_ok n bt_base s bn Hbn)).
  assert (base_of (heap s) n = bt_base bn) as -> by (unfold base_of; by rewrite Hbn). rewrite Hq.
  destruct (Z.leb_spec (bt_base bn) base), (Z.ltb_spec base (bt_base bn)); try lia.
  - destruct (IH (l1 ++ [p]) n l2) as (l2a & r & l2b & E1 & E2 & E3);
      [by rewrite <- app_assoc|lia|].
    exists (p :: l2a), r, l2b. split; [done|]. rewrite E2, E3. done.
  - by exists [], p, (n :: l2).
Qed.

(** The list fits the heap: enough fuel for a scan. *)
Lemma seg_list_length s l : seg_list s l -> (length l <= size (heap s))%nat.
Proof.
  intros [Hnd Hd _ _]. rewrite <- size_dom.
  rewrite <- (size_list_to_set (C := gset Z) l Hnd). apply subseteq_size.
  intros p Hp. apply elem_of_list_to_set in Hp. apply elem_of_dom. by eapply dll_in_heap.
Qed.

(** In front of the first segment. *)
Lemma seg_list_insert_front s p l q :
  seg_list s (p :: l) -> q <> 0 -> (q ∉ p :: l) -> is_Some (heap s !! q) ->
  exists s', (store q (set_pNextSegment p);; store p (set_pPrevSegment q);;
      update (set_pHeadSegment q);; store q (set_pPrevSegment 0);; mret PVRSRV_OK) s =
    Ok (PVRSRV_OK, s') /\ seg_list s' (q :: p :: l) /\ seg_frame s s'.
Proof.
  intros [Hnd Hd Hh Ht] Hq0 Hq Hqs. assert (q <> p) as Hqp by set_solver.
  destruct (dll_in_heap _ _ p Hd) as [b Hb]; [set_solver|].
  set (h1 := alter (set_pNextSegment p) q (heap s)).
  set (h2 := alter (set_pPrevSegment q) p h1). set (h3 := alter (set_pPrevSegment 0) q h2).
  rewrite (R_bind_ok _ _ _ _ _ (store_alter q _ s Hqs)). fold h1.
  assert (is_Some (h1 !! p)) as Hp1 by (unfold h1; by rewrite is_Some_alter, Hb).
  rewrite (R_bind_ok _ _ _ _ _ (store_alter p _ (set_heap h1 s) Hp1)). cbn [heap set_heap]. fold h2.
  rewrite (R_bind_ok _ _ _ tt (set_heap h2 (set_pHeadSegment q s))) by (by destruct s).
  assert (is_Some (h2 !! q)) as Hq2 by (unfold h2, h1; by rewrite !is_Some_alter).
  rewrite (R_bind_ok _ _ _ _ _ (store_alter q _ (set_heap h2 (set_pHeadSegment q s)) Hq2)).
  cbn [heap set_heap]. fold h3. exists (set_heap h3 (set_pHeadSegment q s)).
  split_and!; [by destruct s| |].
  - constructor; [by constructor| |done|done]. cbn [heap set_heap].
    assert (forall r, seg_links h3 r = (fun '(x, y) => (if decide (r = q) then 0 else
      if decide (r = p) then q else x, if decide (r = q) then p else y)) <$> seg_links (heap s) r) as HL.
    { intros r. unfold h3, h2, h1. rewrite !links_alter_prev, links_alter_next.
      destruct (links_of (heap s) r) as [[x y]|]; cbn; [|done]. by repeat case_decide. }
    split; [done|split].
    + rewrite HL. destruct Hqs as [bq Hbq]. unfold links_of. rewrite Hbq. cbn.
      by rewrite !(decide_True (P := q = q)).
    + eapply (dll_set_prev _ _ 0 q (p :: l)); [done| |exact Hd]. intros r Hr. rewrite HL. cbn [first].
      destruct (links_of (heap s) r) as [[x y]|]; cbn; [|done].
      by rewrite !(decide_False (P := r = q)) by (intros ->; done).
  - constructor; [by destruct s|]. intros r. cbn [heap set_heap]. unfold h3, h2, h1.
    rewrite !data_alter; [done|apply (data_sn (LinkFields0 := segment_fields))
      |apply (data_sp (LinkFields0 := segment_fields))..].
Qed.

Lemma seg_list_insert s l q :
  seg_list s l -> q <> 0 -> (q ∉ l) -> is_Some (heap s !! q) ->
  exists s', _SegmentListInsert q s = Ok (PVRSRV_OK, s') /\
    seg_list s' (ins (base_of (heap s)) q l) /\ seg_frame s s'.
Proof.
  intros Hl Hq0 Hq [bq Hbq]. pose proof Hl as [Hnd Hd Hh Ht]. unfold _SegmentListInsert.
  rewrite (R_bind_ok _ _ _ _ _ (arena_ok pHeadSegment s)). rewrite Hh.
  destruct l as [|p l]; cbn [first ins].
  - rewrite Z.eqb_refl. set (s0 := set_pHeadSegment q (set_pTailSegment q s)).
    exists (set_heap (alter (set_pNextSegment 0) q (alter (set_pPrevSegment 0) q (heap s))) s0).
    rewrite (R_bind_ok _ _ s tt (set_pTailSegment q s)) by done. rewrite (R_bind_ok _ _ _ tt s0) by done.
    rewrite (R_bind_ok _ _ _ _ _ (store_ok q _ s0 bq Hbq)).
    set (s1 := set_heap _ s0). assert (is_Some (heap s1 !! q)) as Hq1
      by (unfold s1; cbn; by rewrite is_Some_alter, Hbq).
    rewrite (R_bind_ok _ _ _ _ _ (store_alter q _ s1 Hq1)). split_and!; [by destruct s| |].
    + constructor; [by apply NoDup_singleton| |done|done]. cbn. split_and!; [done| |done].
      rewrite links_alter_next, links_alter_prev. unfold links_of. rewrite Hbq. cbn.
      by rewrite !decide_True.
    + constructor; [by destruct s|]. intros r. cbn.
      rewrite !data_alter; [done|apply (data_sp (LinkFields0 := segment_fields))
        |apply (data_sn (LinkFields0 := segment_fields))].
  - destruct (dll_in_heap _ _ p Hd) as [b Hb]; [set_solver|].
    assert (p <> 0) as Hp0 by (eapply dll_nonzero; [exact Hd|set_solver]).
    rewrite (proj2 (Z.eqb_neq p 0) Hp0).
    rewrite (R_bind_ok _ _ _ _ _ (load_ok q bt_base s bq Hbq)).
    rewrite (R_bind_ok _ _ _ _ _ (load_ok p bt_base s b Hb)).
    assert (base_of (heap s) q = bt_base bq) as Eq by (unfold base_of; by rewrite Hbq).
    assert (base_of (heap s) p = bt_base b) as Ep by (unfold base_of; by rewrite Hb).
    rewrite Eq, Ep. destruct (bt_base bq <? bt_base b).
    + by apply seg_list_insert_front.
    + rewrite (R_bind_ok _ _ _ _ _ (arena_ok (fun s => size (heap s)) s)).
      pose proof (seg_list_length s _ Hl) as Hlen. cbn [length] in Hlen.
      destruct (segment_scan_ok s [] p l (bt_base bq) (size (heap s)) q Hd Eq ltac:(lia))
        as (l1 & r & l2 & E1 & E2 & E3).
      rewrite (R_bind_ok _ _ _ _ _ E1), E3. rewrite E2 in Hl, Hq.
      apply seg_list_insert_after; [done|done|done|by rewrite Hbq].
Qed.

(** ** The free lists of an arena *)

Abbreviation free_links := (links_of (gp := pPrevFree) (gn := pNextFree)).

(** A tag without its free links. *)
Abbreviation free_data := (data_of (sp := set_pPrevFree) (sn := set_pNextFree)).

(** [F] holds the tags of each list: list [i] those with sizes from [2 ^ i]
    below [2 ^ (i + 1)]. *)
Record free_lists s (F : list (list Z)) : Prop := mk_free_lists {
  fl_heads : aHeadFree s = first 0 <$> F;
  fl_length : length F = Z.to_nat FREE_TABLE_LIMIT;
  fl_nodup : NoDup (concat F);
  fl_dll l : l ∈ F -> dll (free_links (heap s)) 0 l 0;
  fl_tags i l p b : F !! i = Some l -> p ∈ l -> heap s !! p = Some b ->
    bt_kind b = btt_free /\ pvr_log2 (bt_uSize b) = Z.of_nat i }.

(** Nothing but the free lists changed, and the kind of the tag [p]. *)
Record free_frame (f : BT -> BT) p s s' : Prop := mk_free_frame {
  ff_arena : s' = set_heap (heap s') (set_aHeadFree (aHeadFree s') s);
  ff_heap : forall q, free_data <$> heap s' !! q =
    (fun b => if decide (q = p) then f (free_data b) else free_data b) <$> heap s !! q }.

Lemma log2_loop_log2 fuel n l :
  0 <= n -> n < 2 ^ Z.of_nat fuel -> log2_loop fuel n l = l + (if n =? 0 then 0 else Z.log2 n + 1).
Proof.
  revert n l. induction fuel as [|fuel IH]; intros n l Hn Hb; cbn [log2_loop].
  - assert (n = 0) as -> by (cbn in Hb; lia). cbn. lia.
  - destruct (Z.ltb_spec 0 n) as [Hpos|Hpos].
    + rewrite Nat2Z.inj_succ, Z.pow_succ_r in Hb by lia. rewrite Z.shiftr_div_pow2 by lia.
      change (2 ^ 1) with 2. pose proof (Z.div_mod n 2 ltac:(lia)) as Hdm.
      pose proof (Z.mod_pos_bound n 2 ltac:(lia)) as Hm.
      rewrite IH by lia. rewrite (proj2 (Z.eqb_neq n 0)) by lia.
      destruct (Z.eqb_spec (n / 2) 0) as [E|E].
      * assert (n = 1) as -> by lia. cbn. lia.
      * assert (Z.log2 n = Z.log2 (n / 2) + 1); [|lia].
        pose proof (Z.log2_shiftr n 1 ltac:(lia)) as Hl. rewrite Z.shiftr_div_pow2 in Hl by lia.
        change (2 ^ 1) with 2 in Hl. pose proof (Z.log2_le_pow2 n 1 ltac:(lia)). lia.
    + assert (n = 0) as -> by lia. cbn. lia.
Qed.

Lemma pvr_log2_log2 n : 0 <= n < 2 ^ 32 -> pvr_log2 n = Z.log2 n.
Proof.
  intros Hn. unfold pvr_log2. rewrite Z.shiftr_div_pow2 by lia. change (2 ^ 1) with 2.
  rewrite log2_loop_log2 by (change (Z.of_nat 32) with 32; Z.div_mod_to_equations; lia).
  destruct (Z.eqb_spec (n / 2) 0) as [E|E].
  - assert (n = 0 \/ n = 1) as [-> | ->] by (Z.div_mod_to_equations; lia); done.
  - assert (2 <= n) by (Z.div_mod_to_equations; lia).
    pose proof (Z.log2_shiftr n 1 ltac:(lia)) as Hl. rewrite Z.shiftr_div_pow2 in Hl by lia.
    change (2 ^ 1) with 2 in Hl. pose proof (Z.log2_le_pow2 n 1 ltac:(lia)). lia.
Qed.

Lemma pvr_log2_range n : 0 <= n < 2 ^ 32 -> 0 <= pvr_log2 n < FREE_TABLE_LIMIT.
Proof.
  intros Hn. rewrite pvr_log2_log2 by done. unfold FREE_TABLE_LIMIT.
  pose proof (Z.log2_nonneg n). destruct (decide (n = 0)) as [->|]; [done|].
  pose proof (Z.log2_lt_pow2 n 32 ltac:(lia)). lia.
Qed.

Lemma NoDup_concat_insert (F : list (list Z)) i l l' :
  F !! i = Some l -> NoDup (concat F) -> NoDup l' -> (forall p, p ∈ l' -> p ∈ l \/ p ∉ concat F) ->
  NoDup (concat (<[i := l']> F)).
Proof.
  intros Hi Hnd Hl' Hsub. apply list_elem_of_split_length in Hi as (F1 & F2 & -> & ->).
  rewrite insert_app_r_alt, Nat.sub_diag by lia. cbn [list_insert insert].
  rewrite concat_app in *. cbn [concat] in *.
  apply NoDup_app in Hnd as (H1 & H12 & H2). apply NoDup_app in H2 as (H3 & H34 & H4).
  apply NoDup_app. split_and!; [done| |apply NoDup_app; split_and!; [done| |done]].
  - intros p Hp Hp'. apply elem_of_app in Hp' as [Hp'|Hp']; [|apply (H12 p); set_solver].
    destruct (Hsub p Hp') as [Hl|Hn]; [apply (H12 p); set_solver|set_solver].
  - intros p Hp Hp'. destruct (Hsub p Hp) as [Hl|Hn]; [apply (H34 p); set_solver|set_solver].
Qed.

(** A change of one list and of links of its tags keeps the others. *)
Lemma free_lists_update s s' F i l l' p :
  free_lists s F -> F !! i = Some l -> NoDup l' ->
  (forall q, q ∈ l' -> q ∈ l \/ (q ∉ concat F)) ->
  aHeadFree s' = <[i := first 0 l']> (aHeadFree s) ->
  dll (free_links (heap s')) 0 l' 0 ->
  (forall q, (q ∉ l) -> q <> p -> free_links (heap s') q = free_links (heap s) q) ->
  (p ∉ concat F \/ p ∈ l) ->
  (forall q b, q ∈ l' -> heap s' !! q = Some b -> bt_kind b = btt_free /\ pvr_log2 (bt_uSize b) = Z.of_nat i) ->
  (forall q, (q ∉ l) -> q <> p -> free_data <$> heap s' !! q = free_data <$> heap s !! q) ->
  free_lists s' (<[i := l']> F).
Proof.
  intros [Hh Hlen Hnd Hd Ht] Hi Hl' Hsub Hh' Hd' Hlinks Hp Htags Hdata.
  assert (forall j k, F !! j = Some k -> j <> i -> forall q, q ∈ k -> (q ∉ l) /\ q <> p) as Hother.
  { intros j k Hj Hne q Hq. assert (q ∉ l) as Hql.
    { intros Hql. apply Hne. eapply NoDup_concat_unique; [exact Hnd|exact Hj|exact Hi|done|done]. }
    split; [done|]. intros ->. destruct Hp as [Hp|Hp]; [|done]. apply Hp.
    apply list_elem_of_In, in_concat. exists k. split; apply list_elem_of_In; [|done].
    by eapply list_elem_of_lookup_2. }
  constructor.
  - rewrite Hh', Hh. by rewrite list_fmap_insert.
  - by rewrite length_insert.
  - by eapply NoDup_concat_insert.
  - intros k Hk. apply list_elem_of_lookup in Hk as [j Hj]. destruct (decide (j = i)) as [->|Hne].
    + rewrite list_lookup_insert_eq in Hj by (by eapply lookup_lt_Some). by injection Hj as <-.
    + rewrite list_lookup_insert_ne in Hj by done.
      eapply dll_frame; [|by apply Hd, (list_elem_of_lookup_2 _ j)].
      intros q Hq. apply Hlinks; by eapply Hother.
  - intros j k q b Hj Hq Hb. destruct (decide (j = i)) as [->|Hne].
    + rewrite list_lookup_insert_eq in Hj by (by eapply lookup_lt_Some). injection Hj as <-. by eapply Htags.
    + rewrite list_lookup_insert_ne in Hj by done. destruct (Hother j k Hj Hne q Hq) as [Hq1 Hq2].
      specialize (Hdata q Hq1 Hq2). rewrite Hb in Hdata.
      destruct (heap s !! q) as [b0|] eqn:Eb; [|done]. cbn in Hdata. injection Hdata as E.
      destruct (Ht j k q b0 Hj Hq Eb). destruct b, b0; cbn in *; simplify_eq; done.
Qed.

Lemma head_free_ok s i x : aHeadFree s !! i = Some x -> head_free (Z.of_nat i) s = Ok (x, s).
Proof.
  intros Hi. unfold head_free. rewrite (R_bind_ok _ _ _ _ _ (arena_ok aHeadFree s)).
  unfold lift. by rewrite (rd_lookup _ _ x); [|lia|rewrite Nat2Z.id].
Qed.

Lemma free_lists_head s F i l :
  free_lists s F -> F !! i = Some l -> aHeadFree s !! i = Some (first 0 l).
Proof. intros [Hh _ _ _ _] Hi. by rewrite Hh, list_lookup_fmap, Hi. Qed.

Lemma set_head_free_ok s i p :
  (i < length (aHeadFree s))%nat ->
  set_head_free (Z.of_nat i) p s = Ok (tt, set_aHeadFree (<[i := p]> (aHeadFree s)) s).
Proof.
  intros Hi. unfold set_head_free. rewrite (R_bind_ok _ _ _ _ _ (arena_ok aHeadFree s)).
  unfold lift, mbind, R_bind. rewrite wr_ok by lia. by rewrite Nat2Z.id.
Qed.

(** The other fields of a tag do not matter for its free links. *)
Lemma free_links_kind h p k q : free_links (alter (set_bt_kind k) p h) q = free_links h q.
Proof.
  unfold links_of. destruct (decide (q = p)) as [->|Hne].
  - rewrite lookup_alter_eq. by destruct (h !! p).
  - by rewrite lookup_alter_ne.
Qed.

(** The heap after [_FreeListInsert] of [p] before [n0]. *)
Definition free_insert_heap (p n0 : Z) (h : gmap Z BT) : gmap Z BT :=
  link_prev (sp := set_pPrevFree) p n0
    (alter (set_pPrevFree 0) p (alter (set_pNextFree n0) p (alter (set_bt_kind btt_free) p h))).

Lemma free_insert_links (p n0 : Z) h q :
  q <> 0 -> p <> n0 -> free_links (free_insert_heap p n0 h) q =
    (fun '(x, y) => (if decide (q = n0) then p else if decide (q = p) then 0 else x,
                     if decide (q = p) then n0 else y)) <$> free_links h q.
Proof.
  intros Hq Hp. unfold free_insert_heap.
  rewrite links_link_prev, links_alter_prev, links_alter_next, free_links_kind by done.
  by destruct (links_of h q) as [[x y]|].
Qed.

Lemma free_insert_data (p n0 : Z) h q :
  free_data <$> free_insert_heap p n0 h !! q =
    (fun b => if decide (q = p) then set_bt_kind btt_free (free_data b) else free_data b) <$> h !! q.
Proof.
  unfold free_insert_heap. rewrite data_link_prev.
  rewrite data_alter by apply (data_sp (LinkFields0 := free_fields)).
  rewrite data_alter by apply (data_sn (LinkFields0 := free_fields)).
  destruct (decide (q = p)) as [->|Hne].
  - rewrite lookup_alter_eq. by destruct (h !! p).
  - by rewrite lookup_alter_ne.
Qed.

Lemma free_insert_ne (p : Z) h (l : list Z) q :
  q <> p -> (q ∉ l) -> free_insert_heap p (first 0 l) h !! q = h !! q.
Proof.
  intros Hp Hl. unfold free_insert_heap, link_prev.
  destruct (Z.eqb_spec (first 0 l) 0) as [E|E]; rewrite !lookup_alter_ne; try done.
  destruct (first_elem 0 l); [done|]. intros <-. done.
Qed.

Lemma free_insert_run s F p b i l :
  free_lists s F -> heap s !! p = Some b -> pvr_log2 (bt_uSize b) = Z.of_nat i -> F !! i = Some l ->
  _FreeListInsert p s = Ok (tt, set_heap (free_insert_heap p (first 0 l) (heap s))
    (set_aHeadFree (<[i := p]> (aHeadFree s)) s)).
Proof.
  intros HF Hb Hi Hl. unfold _FreeListInsert, free_insert_heap.
  rewrite (R_bind_ok _ _ _ _ _ (load_ok p bt_uSize s b Hb)). cbv zeta. rewrite Hi.
  rewrite (R_bind_ok _ _ _ _ _ (store_ok p _ s b Hb)).
  set (s1 := set_heap (alter (set_bt_kind btt_free) p (heap s)) s).
  pose proof (free_lists_head s F i l HF Hl) as Hh.
  rewrite (R_bind_ok _ _ _ _ _ (head_free_ok s1 i (first 0 l) Hh)).
  assert (is_Some (heap s1 !! p)) as H1 by (unfold s1; cbn; by rewrite is_Some_alter, Hb).
  rewrite (R_bind_ok _ _ _ _ _ (store_alter p _ s1 H1)). set (s2 := set_heap _ s1).
  assert (is_Some (heap s2 !! p)) as H2 by (unfold s2; cbn; by rewrite is_Some_alter).
  rewrite (R_bind_ok _ _ _ _ _ (store_alter p _ s2 H2)). set (s3 := set_heap _ s2).
  rewrite (R_bind_ok _ _ _ _ _ (head_free_ok s3 i (first 0 l) Hh)).
  rewrite (R_bind_ok _ _ s3 tt (set_heap (link_prev (sp := set_pPrevFree) p (first 0 l) (heap s3)) s3)).
  2: { rewrite (store_link_prev _ _ _ _ (LinkFields0 := free_fields)).
       - unfold link_prev. destruct (first 0 l =? 0); by destruct s.
       - intros Hn. unfold s3, s2, s1. cbn. rewrite !is_Some_alter.
         eapply dll_in_heap; [apply (fl_dll _ _ HF l); by eapply list_elem_of_lookup_2|].
         by destruct (first_elem 0 l). }
  rewrite set_head_free_ok by (by eapply lookup_lt_Some). by destruct s.
Qed.

Lemma free_list_insert s F p b :
  free_lists s F -> p <> 0 -> (p ∉ concat F) -> heap s !! p = Some b -> 0 <= bt_uSize b < 2 ^ 32 ->
  let i := Z.to_nat (pvr_log2 (bt_uSize b)) in
  exists l s', F !! i = Some l /\ _FreeListInsert p s = Ok (tt, s') /\
    free_lists s' (<[i := p :: l]> F) /\ free_frame (set_bt_kind btt_free) p s s'.
Proof.
  intros HF Hp0 Hp Hb Hsize i. pose proof (pvr_log2_range _ Hsize) as Hr.
  destruct (lookup_lt_is_Some_2 F i) as [l Hl]; [rewrite (fl_length _ _ HF); lia|].
  assert (pvr_log2 (bt_uSize b) = Z.of_nat i) as Hi by (unfold i; lia).
  assert (p ∉ l) as Hpl.
  { intros Hpl. apply Hp, list_elem_of_In, in_concat. exists l.
    split; apply list_elem_of_In; [by eapply list_elem_of_lookup_2|done]. }
  assert (p <> first 0 l) as Hpf by (destruct (first_elem 0 l) as [->|E]; [done|congruence]).
  assert (l ∈ F) as HlF by (by eapply list_elem_of_lookup_2).
  pose proof (fl_dll _ _ HF l HlF) as Hd.
  assert (forall q, q ∈ l -> q <> 0) as Hnz by (intros q; by apply (dll_nonzero _ _ _ _ q Hd)).
  eexists l, _. split; [done|]. split; [by apply (free_insert_run s F p b i l)|]. split.
  - apply (free_lists_update s _ F i l (p :: l) p); try done.
    + constructor; [done|]. pose proof (fl_nodup _ _ HF) as Hnd.
      by apply (NoDup_concat_elem F).
    + intros q Hq. apply elem_of_cons in Hq as [->|Hq]; [by right|by left].
    + cbn [heap set_heap]. split; [done|]. split.
      * rewrite free_insert_links by done. unfold links_of. rewrite Hb. cbn.
        rewrite !(decide_True (P := p = p)) by done. by rewrite decide_False.
      * eapply (dll_set_prev _ _ 0 p l); [by apply (NoDup_concat_elem F), HlF; apply HF| |exact Hd].
        intros q Hq. rewrite free_insert_links by auto.
        destruct (links_of (heap s) q) as [[x y]|]; cbn; [|done].
        rewrite !(decide_False (P := q = p)) by (intros ->; done). done.
    + intros q Hq Hqp. unfold links_of. cbn. by rewrite free_insert_ne.
    + by left.
    + intros q bq Hq Hbq. pose proof (free_insert_data p (first 0 l) (heap s) q) as Hdata.
      cbn in Hbq. rewrite Hbq in Hdata. apply elem_of_cons in Hq as [->|Hq].
      * rewrite Hb in Hdata. cbn in Hdata. rewrite decide_True in Hdata by done.
        injection Hdata as E. destruct bq, b; cbn in *; simplify_eq; done.
      * destruct (heap s !! q) as [b0|] eqn:E0; [|done]. cbn in Hdata.
        rewrite decide_False in Hdata by (intros ->; done). injection Hdata as E.
        destruct (fl_tags _ _ HF i l q b0 Hl Hq E0). destruct bq, b0; cbn in *; simplify_eq; done.
    + intros q Hq Hqp. cbn. by rewrite free_insert_ne.
  - constructor; [by destruct s|]. intros q. apply free_insert_data.
Qed.

(** The heap after [_FreeListRemove] of a tag between [prev] and [next]. *)
Definition free_remove_heap (prev next : Z) (h : gmap Z BT) : gmap Z BT :=
  link_next (sn := set_pNextFree) prev next (link_prev (sp := set_pPrevFree) prev next h).

Lemma free_remove_run s F p b i l1 l2 :
  free_lists s F -> heap s !! p = Some b -> F !! i = Some (l1 ++ p :: l2) ->
  let prev := final 0 l1 in let next := first 0 l2 in
  _FreeListRemove p s = Ok (tt, set_heap (free_remove_heap prev next (heap s))
    (set_aHeadFree (if prev =? 0 then <[i := next]> (aHeadFree s) else aHeadFree s) s)).
Proof.
  intros HF Hb Hl prev next. unfold _FreeListRemove, free_remove_heap.
  assert (l1 ++ p :: l2 ∈ F) as HlF by (by eapply list_elem_of_lookup_2).
  pose proof (fl_dll _ _ HF _ HlF) as Hd.
  pose proof (NoDup_concat_elem F _ (fl_nodup _ _ HF) HlF) as Hnd.
  destruct (fl_tags _ _ HF i _ p b Hl ltac:(set_solver) Hb) as [_ Hi].
  destruct (dll_tag_links _ _ _ _ _ Hd Hb) as [Hprev Hnext].
  destruct (dll_neighbours _ _ _ _ Hnd Hd) as (Hpp & Hpn & Hin).
  fold prev next in Hprev, Hnext, Hpp, Hpn, Hin.
  rewrite (R_bind_ok _ _ _ _ _ (load_ok p bt_uSize s b Hb)). cbv zeta. rewrite Hi.
  rewrite (R_bind_ok _ _ _ _ _ (load_ok p pNextFree s b Hb)).
  rewrite (R_bind_ok _ _ _ _ _ (load_ok p pPrevFree s b Hb)). rewrite Hprev, Hnext.
  set (s1 := set_heap (link_prev (sp := set_pPrevFree) prev next (heap s)) s).
  rewrite (R_bind_ok _ _ s tt s1).
  2: { rewrite (store_link_prev _ _ _ _ (LinkFields0 := free_fields)).
       - unfold s1, link_prev. destruct (next =? 0); by destruct s.
       - intros Hn. apply (dll_in_heap _ _ _ Hd), Hin; [done|by right]. }
  assert (heap s1 !! p = Some b) as Hb1 by (unfold s1; cbn; by rewrite link_prev_ne).
  rewrite (R_bind_ok _ _ _ _ _ (load_ok p pPrevFree s1 b Hb1)).
  rewrite (R_bind_ok _ _ _ _ _ (load_ok p pNextFree s1 b Hb1)). rewrite Hprev, Hnext.
  rewrite (store_link_next _ _ _ _ (LinkFields0 := free_fields)).
  - unfold link_next. destruct (prev =? 0) eqn:E; [|by destruct s].
    rewrite set_head_free_ok; [by destruct s|]. unfold s1. cbn.
    pose proof (free_lists_head s F i _ HF Hl) as Hh. by eapply lookup_lt_Some.
  - intros Hn. unfold s1. cbn. apply link_prev_is_Some, (dll_in_heap _ _ _ Hd), Hin; [done|by left].
Qed.

Lemma free_list_remove s F p b i l1 l2 :
  free_lists s F -> heap s !! p = Some b -> F !! i = Some (l1 ++ p :: l2) ->
  exists s', _FreeListRemove p s = Ok (tt, s') /\ free_lists s' (<[i := l1 ++ l2]> F) /\
    free_frame id p s s' /\ heap s' !! p = heap s !! p.
Proof.
  intros HF Hb Hl. assert (l1 ++ p :: l2 ∈ F) as HlF by (by eapply list_elem_of_lookup_2).
  pose proof (fl_dll _ _ HF _ HlF) as Hd.
  pose proof (NoDup_concat_elem F _ (fl_nodup _ _ HF) HlF) as Hnd.
  pose proof (dll_unlink _ _ _ _ Hnd Hd) as [_ Hd'].
  destruct (dll_neighbours _ _ _ _ Hnd Hd) as (Hpp & Hpn & Hin).
  assert (final 0 l1 = 0 -> l1 = []) as Hz1 by (by eapply final_zero).
  eexists. split; [by apply (free_remove_run s F p b i l1 l2)|].
  assert (forall q, (q ∉ l1 ++ p :: l2) ->
    free_remove_heap (final 0 l1) (first 0 l2) (heap s) !! q = heap s !! q) as Hne.
  { intros q Hq. unfold free_remove_heap.
    destruct (decide (q = 0)) as [->|Hq0]; [by rewrite link_next_0, link_prev_0|].
    rewrite link_next_ne, link_prev_ne; [done|intros E..]; apply Hq, Hin; auto. }
  assert (forall q, free_data <$> free_remove_heap (final 0 l1) (first 0 l2) (heap s) !! q =
    free_data <$> heap s !! q) as Hdata.
  { intros q. unfold free_remove_heap. by rewrite data_link_next, data_link_prev. }
  split_and!.
  - apply (free_lists_update s _ F i (l1 ++ p :: l2) (l1 ++ l2) p); try done.
    + apply NoDup_middle, NoDup_cons in Hnd. tauto.
    + intros q Hq. left. set_solver.
    + cbn. rewrite first_app. destruct (Z.eqb_spec (final 0 l1) 0) as [E|E]; [by rewrite (Hz1 E)|].
      rewrite list_insert_id; [done|]. rewrite (free_lists_head s F i _ HF Hl), first_app.
      by destruct l1.
    + intros q Hq _. unfold links_of. cbn. by rewrite Hne.
    + right. set_solver.
    + intros q bq Hq Hbq. specialize (Hdata q). cbn in Hbq. rewrite Hbq in Hdata.
      destruct (heap s !! q) as [b0|] eqn:E0; [|done]. cbn in Hdata. injection Hdata as E.
      destruct (fl_tags _ _ HF i _ q b0 Hl ltac:(set_solver) E0).
      destruct bq, b0; cbn in *; simplify_eq; done.
  - constructor; [by destruct s|]. intros q. cbn. rewrite Hdata.
    destruct (heap s !! q); cbn; [|done]. by case_decide.
  - cbn. unfold free_remove_heap. by rewrite link_next_ne, link_prev_ne.
Qed.

End run.
