(* ===== verification/PvrRAFacts.v ===== *)
(** * The resource allocator: theorems

    The pointer operations of PvrRA.v against lists, the bucket function, the
    alignment arithmetic, and the behaviour of the arena's life cycle. *)

From stdpp Require Import base list numbers option gmap sets.
From Stdlib Require Import ZArith Lia Sorted.
From S2P Require Import Prelude PvrHash PvrHashFacts PvrRA PvrRALists.

Local Open Scope Z_scope.

(** ** Arenas to run the operations on *)

Definition demo_stats : RA_STATISTICS := mk_stats 0 0 0 0 0 0 0 0 0 0.

Definition empty_hash : HASH_TABLE :=
  mk_hash (replicate 64 []) 64 0 64 WORD HASH_Func_Default HASH_Key_Comp_Default.

(** Two free segments of 256 and 512 bytes, and a tag that is in no list. *)
Definition demo_heap : gmap Z BT :=
  <[1 := mk_bt btt_free 0x1000 0x100 2 0 0 0 0]>
  (<[2 := mk_bt btt_free 0x2000 0x200 0 1 0 0 0]>
  (<[3 := mk_bt btt_free 0x1800 0x80 0 0 0 0 0]> ∅)).

Definition demo_heads : list Z := <[8%nat := 1]> (<[9%nat := 2]> (replicate 32 0)).

Definition demo_arena : RA_ARENA HASH_TABLE :=
  mk_ra 0x1000 false false demo_heads 1 2 empty_hash demo_stats demo_heap [] [] [].

Definition demo_free : list (list Z) := <[8%nat := [1]]> (<[9%nat := [2]]> (replicate 32 [])).

Lemma demo_seg_list : seg_list demo_arena [1; 2].
Proof. constructor; [by repeat constructor; set_solver| |done|done]. vm_compute. repeat split; discriminate. Qed.

Lemma demo_free_lists : free_lists demo_arena demo_free.
Proof.
  constructor; [done|done|by vm_compute; repeat constructor; set_solver| |].
  - intros l Hl. assert (l = [] \/ l = [1] \/ l = [2]) as [-> |[-> | ->]].
    { apply list_elem_of_lookup in Hl as [i Hi].
      do 32 (destruct i as [|i]; [vm_compute in Hi; injection Hi; auto|]). discriminate Hi. }
    + done.
    + vm_compute. repeat split; discriminate.
    + vm_compute. repeat split; discriminate.
  - intros i l p b Hi Hp Hb. do 32 (destruct i as [|i];
      [vm_compute in Hi; injection Hi as <-; try (by apply elem_of_nil in Hp);
       apply list_elem_of_singleton in Hp as ->; vm_compute in Hb; injection Hb as <-; done|]).
    discriminate Hi.
Qed.

(** ** The segment list *)

(** The tags of a list are in the order of their bases. *)
Definition base_sorted (h : gmap Z BT) (l : list Z) : Prop :=
  StronglySorted (fun p q => base_of h p <= base_of h q) l.

Lemma seg_frame_base {H} (s s' : RA_ARENA H) p : seg_frame s s' -> base_of (heap s') p = base_of (heap s) p.
Proof.
  intros [_ Hh]. specialize (Hh p). unfold base_of.
  destruct (heap s' !! p) as [b'|], (heap s !! p) as [b|]; cbn in *; try done.
  injection Hh as E. destruct b, b'; cbn in *. congruence.
Qed.

Lemma base_sorted_frame {H} (s s' : RA_ARENA H) l :
  seg_frame s s' -> base_sorted (heap s) l -> base_sorted (heap s') l.
Proof.
  intros Hf. unfold base_sorted. induction 1 as [|p l Hs IH Hall]; constructor; [done|].
  eapply Forall_impl; [exact Hall|]. intros q. cbn. by rewrite !(seg_frame_base s s').
Qed.

(** Inserting a boundary tag into the segment list of an arena follows only
    valid pointers, ends, and puts the tag before the first segment with a larger
    base: a list in the order of the bases stays so, the doubly linked structure
    with its head and tail stays whole, and no other field of any tag and nothing
    else of the arena changes. *)
Theorem _SegmentListInsert_sorted {H} (s : RA_ARENA H) l q :
  seg_list s l -> base_sorted (heap s) l -> q <> 0 -> (q ∉ l) -> is_Some (heap s !! q) ->
  exists s', _SegmentListInsert q s = Ok (PVRSRV_OK, s') /\
    seg_list s' (ins (base_of (heap s)) q l) /\
    base_sorted (heap s') (ins (base_of (heap s)) q l) /\
    ins (base_of (heap s)) q l ≡ₚ q :: l /\ seg_frame s s'.
Proof.
  intros Hl Hs Hq0 Hq Hqs. destruct (seg_list_insert s l q Hl Hq0 Hq Hqs) as (s' & E & Hl' & Hf).
  exists s'. split_and!; [done|done| |apply ins_perm|done].
  apply (base_sorted_frame s); [done|]. by apply ins_sorted.
Qed.

Lemma _SegmentListInsert_sorted_witness :
  exists s', _SegmentListInsert 3 demo_arena = Ok (PVRSRV_OK, s') /\ seg_list s' [1; 3; 2].
Proof.
  destruct (_SegmentListInsert_sorted demo_arena [1; 2] 3) as (s' & E & Hl & _).
  - exact demo_seg_list.
  - repeat constructor; vm_compute; discriminate.
  - discriminate.
  - set_solver.
  - vm_compute. eexists. reflexivity.
  - exists s'. split; [exact E|]. exact Hl.
Defined.

(** Removing a boundary tag from anywhere in the segment list, its ends
    included, leaves the list of the other tags whole, with head and tail
    updated, and changes no other field of any tag. *)
Theorem _SegmentListRemove_unlinks {H} (s : RA_ARENA H) l1 p l2 :
  seg_list s (l1 ++ p :: l2) ->
  exists s', _SegmentListRemove p s = Ok (tt, s') /\ seg_list s' (l1 ++ l2) /\ seg_frame s s' /\
    heap s' !! p = heap s !! p.
Proof. apply seg_list_remove. Qed.

Lemma _SegmentListRemove_unlinks_witness :
  exists s', _SegmentListRemove 1 demo_arena = Ok (tt, s') /\ seg_list s' [2].
Proof.
  destruct (_SegmentListRemove_unlinks demo_arena [] 1 [2]) as (s' & E & Hl & _).
  - exact demo_seg_list.
  - exists s'. split; [exact E|exact Hl].
Defined.

(** ** The free lists *)

(** For every 32-bit size the loop of [pvr_log2] computes the integer
    logarithm, 0 for the size 0, so that the index is within the table of 32
    free lists. *)
Theorem pvr_log2_spec n :
  0 <= n < 2 ^ 32 -> pvr_log2 n = Z.log2 n /\ 0 <= pvr_log2 n < FREE_TABLE_LIMIT.
Proof. intros Hn. split; [by apply pvr_log2_log2|by apply pvr_log2_range]. Qed.

Lemma pvr_log2_spec_witness : pvr_log2 0xfff = 11 /\ 0 <= pvr_log2 0xfff < FREE_TABLE_LIMIT.
Proof. apply (pvr_log2_spec 0xfff). lia. Defined.

(** A tag that is in no free list goes to the front of the list of its size;
    the other lists, the segment list's links, and every other field of every
    tag stay as they were, and the tag becomes free. *)
Theorem _FreeListInsert_front {H} (s : RA_ARENA H) F p b :
  free_lists s F -> p <> 0 -> (p ∉ concat F) -> heap s !! p = Some b -> 0 <= bt_uSize b < 2 ^ 32 ->
  let i := Z.to_nat (Z.log2 (bt_uSize b)) in
  exists l s', F !! i = Some l /\ _FreeListInsert p s = Ok (tt, s') /\
    free_lists s' (<[i := p :: l]> F) /\ free_frame (set_bt_kind btt_free) p s s'.
Proof. intros HF Hp0 Hp Hb Hs. rewrite <- pvr_log2_log2 by done. by apply free_list_insert. Qed.

Lemma _FreeListInsert_front_witness :
  exists l s', demo_free !! 7%nat = Some l /\ _FreeListInsert 3 demo_arena = Ok (tt, s') /\
    free_lists s' (<[7%nat := 3 :: l]> demo_free) /\
    free_frame (set_bt_kind btt_free) 3 demo_arena s'.
Proof.
  apply (_FreeListInsert_front demo_arena demo_free 3 (mk_bt btt_free 0x1800 0x80 0 0 0 0 0)).
  - exact demo_free_lists.
  - discriminate.
  - vm_compute. set_solver.
  - reflexivity.
  - cbn. lia.
Defined.

(** A tag is taken out of its free list wherever it stands in it, the other
    lists and every other field of every tag stay as they were. *)
Theorem _FreeListRemove_unlinks {H} (s : RA_ARENA H) F p b i l1 l2 :
  free_lists s F -> heap s !! p = Some b -> F !! i = Some (l1 ++ p :: l2) ->
  exists s', _FreeListRemove p s = Ok (tt, s') /\ free_lists s' (<[i := l1 ++ l2]> F) /\
    free_frame id p s s' /\ heap s' !! p = heap s !! p.
Proof. apply free_list_remove. Qed.

Lemma _FreeListRemove_unlinks_witness :
  exists s', _FreeListRemove 2 demo_arena = Ok (tt, s') /\
    free_lists s' (<[9%nat := []]> demo_free).
Proof.
  destruct (_FreeListRemove_unlinks demo_arena demo_free 2 (mk_bt btt_free 0x2000 0x200 0 1 0 0 0)
    9 [] []) as (s' & E & Hl & _).
  - exact demo_free_lists.
  - reflexivity.
  - reflexivity.
  - exists s'. split; [exact E|exact Hl].
Defined.

(** ** Alignment *)

(** At the end of the 32-bit address space the computation wraps around: the
    base tried is below the segment, the test of the end of the segment passes,
    and [_AttemptAllocAligned] hands out the start of the segment although it
    does not have the alignment asked for. *)
Theorem aligned_base_wraps :
  let s := mk_ra 0x1000 false false (<[11%nat := 1]> (replicate 32 0)) 1 1 empty_hash demo_stats
             {[1 := mk_bt btt_free 0xfffff000 0x800 0 0 0 0 0]} [] [] [] in
  aligned_base 0xfffff000 0x10000 0 = 0 /\
  match _AttemptAllocAligned (fun _ => 0) 0x800 0 0x10000 0 s with
  | Ok (Some (base, _), _) => base = 0xfffff000 /\ base mod 0x10000 <> 0
  | _ => False
  end.
Proof. vm_compute. repeat split; discriminate. Qed.

(** ** The life cycle of an arena *)

(** [RA_TestDelete] does not end on an arena whose first segment is free, as
    it is after all allocations were freed: the loop does not advance, whatever
    the number of turns. *)
Theorem RA_TestDelete_diverges {H} (s : RA_ARENA H) b n :
  pHeadSegment s <> 0 -> heap s !! pHeadSegment s = Some b -> bt_kind b = btt_free ->
  RA_TestDelete n s = Fault OutOfFuel.
Proof.
  intros H0 Hb Hk. unfold RA_TestDelete. induction n as [|n IH]; cbn [test_delete];
    rewrite (R_bind_ok _ _ _ _ _ (arena_ok pHeadSegment s)), (proj2 (Z.eqb_neq _ _) H0);
    rewrite (R_bind_ok _ _ _ _ _ (load_ok _ bt_kind s b Hb)), Hk; done.
Qed.

Lemma RA_TestDelete_diverges_witness : RA_TestDelete 1000 demo_arena = Fault OutOfFuel.
Proof.
  apply (RA_TestDelete_diverges demo_arena (mk_bt btt_free 0x1000 0x100 2 0 0 0 0)).
  - discriminate.
  - reflexivity.
  - reflexivity.
Defined.

(** The statistics of an arena with a resource of its own start with no free
    segment, though one is on the free lists, so that allocating all of it leaves
    a free segment count of [2 ^ 32 - 1]. *)
Theorem RA_Create_free_count_underflows :
  match RA_Create true (Some empty_hash) 0x1000 0x1000 0 0x1000 false false ∅ [] [] with
  | Ok (Some s) =>
      uFreeSegmentCount (sStatistics s) = 0 /\
      match RA_Alloc (fun _ => 0) 0x1000 0 1 0 s with
      | Ok (Some (base, _), s') =>
          base = 0x1000 /\ uFreeSegmentCount (sStatistics s') = 2 ^ 32 - 1
      | _ => False
      end
  | _ => False
  end.
Proof. vm_compute. repeat split. Qed.
