(* ===== verification/PvrRAArena.v ===== *)
(** * The resource allocator: the structure of an arena

    What an operation needs of an arena and keeps of it: every tag of the heap is
    in the segment list, every free tag in the free list of its size.  A tag that
    an operation works on may be out of the free lists (the set [X]) or out of
    the segment list (the set [Y]).  What the tags say, without their links, is a
    map [V] of segments, and the operations of PvrRA.v become operations on [V]. *)

From stdpp Require Import base list numbers option gmap sets.
From Stdlib Require Import ZArith Lia Sorted.
From S2P Require Import Prelude PvrHash PvrHashFacts PvrRA PvrRALists.

Local Open Scope Z_scope.

(** ** Segments *)

Record seg := mk_seg { s_kind : bt_type; s_base : Z; s_size : Z; s_map : Z }.

Definition view (b : BT) : seg := mk_seg (bt_kind b) (bt_base b) (bt_uSize b) (psMapping b).

(** The addresses of a free or live segment; a span marker has none. *)
Definition occupies (g : seg) (x : Z) : Prop :=
  s_kind g <> btt_span /\ s_base g <= x < s_base g + s_size g.

Definition covers (V : gmap Z seg) (x : Z) : Prop := exists p g, V !! p = Some g /\ occupies g x.

(** Segments are not empty, below [top], and share no address. *)
Record geom (top : Z) (V : gmap Z seg) : Prop := mk_geom {
  geom_range p g : V !! p = Some g -> s_kind g <> btt_span ->
    0 <= s_base g /\ 0 < s_size g /\ s_base g + s_size g <= top;
  geom_disjoint p q g h x : V !! p = Some g -> V !! q = Some h -> occupies g x -> occupies h x ->
    p = q }.

Section arena.
Context {H : Type}.
Implicit Types (s : RA_ARENA H) (V : gmap Z seg) (X Y : gset Z).

(** ** Running with a postcondition *)

Definition runs {A} (m : R A) s (Q : A -> RA_ARENA H -> Prop) : Prop :=
  exists a s', m s = Ok (a, s') /\ Q a s'.

Lemma runs_ret {A} (a : A) s (Q : A -> RA_ARENA H -> Prop) : Q a s -> runs (mret a) s Q.
Proof. by exists a, s. Qed.

Lemma runs_bind {A B} (m : R A) (f : A -> R B) s Q :
  runs m s (fun a s1 => runs (f a) s1 Q) -> runs (m ≫= f) s Q.
Proof.
  intros (a & s1 & E & b & s2 & E2 & HQ). exists b, s2. by rewrite (R_bind_ok _ _ _ _ _ E).
Qed.

Lemma runs_mono {A} (m : R A) s (P Q : A -> RA_ARENA H -> Prop) :
  runs m s P -> (forall a s', P a s' -> Q a s') -> runs m s Q.
Proof. intros (a & s' & E & HP) HPQ. exists a, s'. auto. Qed.

Lemma runs_arena {A} (f : RA_ARENA H -> A) s (Q : A -> RA_ARENA H -> Prop) :
  Q (f s) s -> runs (arena f) s Q.
Proof. by exists (f s), s. Qed.

Lemma runs_eq {A} (m1 m2 : R A) s1 s2 Q : m1 s1 = m2 s2 -> runs m2 s2 Q -> runs m1 s1 Q.
Proof. intros E (a & s' & E2 & HQ). exists a, s'. by rewrite E. Qed.

(** One call after which the rest runs. *)
Lemma runs_seq {A B} (m : R A) (f : A -> R B) s P Q :
  runs m s P -> (forall a s1, P a s1 -> runs (f a) s1 Q) -> runs (m ≫= f) s Q.
Proof. intros Hm Hf. apply runs_bind. by eapply runs_mono. Qed.

(** ** What the lists depend on *)

Lemma seg_list_ext s s' l :
  pHeadSegment s' = pHeadSegment s -> pTailSegment s' = pTailSegment s ->
  (forall p, p ∈ l -> links_of (gp := pPrevSegment) (gn := pNextSegment) (heap s') p =
     links_of (gp := pPrevSegment) (gn := pNextSegment) (heap s) p) ->
  seg_list s l -> seg_list s' l.
Proof.
  intros Eh Et HL [Hnd Hd Hh Ht]. constructor; [done| |congruence..]. by eapply dll_frame.
Qed.

(** The fields that a free list depends on. *)
Definition free_part (b : BT) := (bt_kind b, bt_uSize b, pNextFree b, pPrevFree b).

Lemma free_lists_ext s s' F :
  aHeadFree s' = aHeadFree s ->
  (forall p, p ∈ concat F -> free_part <$> heap s' !! p = free_part <$> heap s !! p) ->
  free_lists s F -> free_lists s' F.
Proof.
  intros Ea HP [Hh Hlen Hnd Hd Ht].
  assert (forall l p, l ∈ F -> p ∈ l -> p ∈ concat F) as Hin.
  { intros l p Hl Hp. apply list_elem_of_In, in_concat. exists l. by split; apply list_elem_of_In. }
  constructor; [congruence|done|done| |].
  - intros l Hl. eapply dll_frame; [|by apply Hd]. intros p Hp. specialize (HP p (Hin l p Hl Hp)).
    unfold links_of. destruct (heap s' !! p), (heap s !! p); cbn in *; unfold free_part in *; congruence.
  - intros i l p b Hi Hp Hb. assert (l ∈ F) as Hl by (by eapply list_elem_of_lookup_2).
    specialize (HP p (Hin l p Hl Hp)). rewrite Hb in HP.
    destruct (heap s !! p) as [b0|] eqn:E0; [|done]. cbn in HP. injection HP as E1 E2 _ _.
    rewrite E1, E2. by eapply Ht.
Qed.

(** ** The structure *)

(** What the list operations leave alone. *)
Record kept := mk_kept {
  k_quantum : Z;
  k_import : bool;
  k_backing : bool;
  k_hash : H;
  k_imports : list (option (Z * Z * Z));
  k_events : list event }.

Definition kept_of s : kept :=
  mk_kept (uQuantum s) (import_alloc s) (backing_store s) (pSegmentHash s) (imports s) (events s).

Definition is_free V (p : Z) : Prop := exists g, V !! p = Some g /\ s_kind g = btt_free.

(** [mem]: every allocation of memory succeeds. *)
Record wfs (K : kept) (mem : bool) V X Y s : Prop := mk_wfs {
  w_kept : kept_of s = K;
  w_mem : mem = true -> allocs s = [];
  w_view : view <$> heap s = V;
  w_segs : exists l, seg_list s l /\ forall p, p ∈ l <-> is_Some (V !! p) /\ p ∉ Y;
  w_free : exists F, free_lists s F /\ forall p, p ∈ concat F <-> is_free V p /\ p ∉ X }.

Section ops.
Context {K : kept} {mem : bool}.

Lemma w_lookup V X Y s p g :
  wfs K mem V X Y s -> V !! p = Some g -> exists b, heap s !! p = Some b /\ view b = g.
Proof.
  intros Hw HV. rewrite <- (w_view _ _ _ _ _ _ Hw), lookup_fmap in HV.
  destruct (heap s !! p) as [b|]; [|done]. exists b. split; [done|]. by injection HV.
Qed.

Lemma w_nonzero V X Y s p : wfs K mem V X Y s -> is_Some (V !! p) -> p ∉ Y -> p <> 0.
Proof.
  intros [_ _ _ (l & Hl & Hin) _] HV HY. eapply dll_nonzero; [apply Hl|]. by apply Hin.
Qed.

(** A field of a tag that is not a link. *)
Lemma runs_load {A} V X Y s p g (f : BT -> A) (fv : seg -> A) (Q : A -> RA_ARENA H -> Prop) :
  wfs K mem V X Y s -> V !! p = Some g -> (forall b, f b = fv (view b)) -> Q (fv g) s ->
  runs (load p f) s Q.
Proof.
  intros Hw HV Hf HQ. destruct (w_lookup _ _ _ _ _ _ Hw HV) as (b & Hb & <-).
  exists (f b), s. rewrite Hf. split; [|done]. by rewrite <- Hf, (load_ok _ _ _ _ Hb).
Qed.

(** A tag that is not free may be taken to work on, and given back. *)
Lemma wfs_out V X Y s p :
  ~ is_free V p -> wfs K mem V X Y s <-> wfs K mem V ({[p]} ∪ X) Y s.
Proof.
  intros Hp. split; intros [H1 H2 H3 H4 (F & HF & Hin)]; constructor; try done.
  all: exists F; split; [done|]; intros q; rewrite Hin.
  all: split; intros [Hq Hx]; (split; [done|]).
  - assert (q <> p) by (intros ->; done). set_solver.
  - set_solver.
  - set_solver.
  - assert (q <> p) by (intros ->; done). set_solver.
Qed.

(** Updates of the arena outside the lists. *)
Lemma wfs_kept V X Y s s' K' :
  wfs K mem V X Y s -> kept_of s' = K' -> (allocs s = [] -> allocs s' = []) ->
  heap s' = heap s -> aHeadFree s' = aHeadFree s ->
  pHeadSegment s' = pHeadSegment s -> pTailSegment s' = pTailSegment s ->
  wfs K' mem V X Y s'.
Proof.
  intros [H1 H2 H3 (l & Hl & Hin) (F & HF & HFin)] HK Ha Eh Ef E1 E2.
  constructor; [done|auto|by rewrite Eh| |].
  - exists l. split; [|done]. apply (seg_list_ext s); [done..| |done]. by rewrite Eh.
  - exists F. split; [|done]. apply (free_lists_ext s); [done| |done]. by rewrite Eh.
Qed.

Lemma runs_stats V X Y s f : wfs K mem V X Y s ->
  runs (stats f) s (fun _ => wfs K mem V X Y).
Proof.
  intros Hw. eexists tt, _. split; [done|]. eapply wfs_kept; [exact Hw|..]; try done. apply Hw.
Qed.

Lemma runs_next_alloc V X Y s : wfs K mem V X Y s ->
  runs next_alloc s (fun b s' => wfs K mem V X Y s' /\ (mem = true -> b = true)).
Proof.
  intros Hw. unfold runs, next_alloc. destruct (allocs s) as [|b l] eqn:E.
  - by exists true, s.
  - eexists b, _. split; [done|]. split.
    + eapply wfs_kept; [exact Hw|..]; try done; [apply Hw|]. by rewrite E.
    + intros ->. by rewrite (w_mem _ _ _ _ _ _ Hw eq_refl) in E.
Qed.

(** *** The lists *)

Lemma fmap_through {A B C} (d : A -> B) (f : A -> C) (o1 o2 : option A) :
  (forall a1 a2, d a1 = d a2 -> f a1 = f a2) -> d <$> o1 = d <$> o2 -> f <$> o1 = f <$> o2.
Proof. intros Hf. destruct o1, o2; cbn; intros E; try done. injection E as E. by rewrite (Hf _ _ E). Qed.

Lemma seg_frame_view s s' : seg_frame s s' -> view <$> heap s' = view <$> heap s.
Proof.
  intros [_ Hh]. apply map_eq. intros p. rewrite !lookup_fmap.
  eapply fmap_through, (Hh p). intros [] []. unfold data_of, view. cbn. intros [=]. congruence.
Qed.

Lemma seg_frame_rest s s' :
  seg_frame s s' -> kept_of s' = kept_of s /\ allocs s' = allocs s /\ aHeadFree s' = aHeadFree s.
Proof. intros [-> _]. done. Qed.

(** The segment list changed from [l] to [l'], and with it the tags outside. *)
Lemma wfs_seg_frame V X Y Y' s s' l' :
  wfs K mem V X Y s -> seg_frame s s' -> seg_list s' l' ->
  (forall p, p ∈ l' <-> is_Some (V !! p) /\ p ∉ Y') -> wfs K mem V X Y' s'.
Proof.
  intros [H1 H2 H3 _ (F & HF & HFin)] Hf Hl' Hin. destruct (seg_frame_rest _ _ Hf) as (E1 & E2 & E3).
  constructor; [congruence|by rewrite E2|by rewrite (seg_frame_view _ _ Hf)|by exists l'|].
  exists F. split; [|done]. apply (free_lists_ext s); [done| |done]. intros p _.
  eapply fmap_through, (sf_heap _ _ Hf p). intros [] []. unfold data_of, free_part. cbn. intros [=]. congruence.
Qed.

Lemma runs_seg_remove V X Y s p :
  wfs K mem V X Y s -> is_Some (V !! p) -> p ∉ Y ->
  runs (_SegmentListRemove p) s (fun _ => wfs K mem V X ({[p]} ∪ Y)).
Proof.
  intros Hw HV HY. destruct (w_segs _ _ _ _ _ _ Hw) as (l & Hl & Hin).
  assert (p ∈ l) as Hp by (by apply Hin).
  apply list_elem_of_split in Hp as (l1 & l2 & ->).
  destruct (seg_list_remove _ _ _ _ Hl) as (s' & E & Hl' & Hf & _).
  exists tt, s'. split; [done|]. eapply wfs_seg_frame; [done..|]. intros q.
  pose proof (sl_nodup _ _ Hl) as Hnd. apply NoDup_middle, NoDup_cons in Hnd as [Hnp _].
  specialize (Hin q). rewrite elem_of_app, elem_of_cons in Hin. rewrite elem_of_app in Hnp |- *.
  destruct (decide (q = p)) as [->|Hne]; [set_solver|].
  rewrite not_elem_of_union, not_elem_of_singleton. tauto.
Qed.

(** A tag that was outside comes in. *)
Lemma in_after V Y l l' q :
  (forall p, p ∈ l <-> is_Some (V !! p) /\ p ∉ Y) -> is_Some (V !! q) -> q ∈ Y -> l' ≡ₚ q :: l ->
  forall p, p ∈ l' <-> is_Some (V !! p) /\ p ∉ Y ∖ {[q]}.
Proof.
  intros Hin Hq HY Hp p. rewrite Hp, elem_of_cons, Hin.
  rewrite not_elem_of_difference, elem_of_singleton.
  destruct (decide (p = q)) as [->|]; naive_solver.
Qed.

Lemma runs_insert_after V X Y s p q :
  wfs K mem V X Y s -> is_Some (V !! p) -> p ∉ Y -> is_Some (V !! q) -> q ∈ Y -> q <> 0 ->
  runs (_SegmentListInsertAfter p q) s (fun r s' => r = PVRSRV_OK /\ wfs K mem V X (Y ∖ {[q]}) s').
Proof.
  intros Hw HVp HYp HVq HYq Hq0. destruct (w_segs _ _ _ _ _ _ Hw) as (l & Hl & Hin).
  assert (p ∈ l) as Hp by (by apply Hin). assert (q ∉ l) as Hq by (rewrite Hin; tauto).
  apply list_elem_of_split in Hp as (l1 & l2 & ->).
  destruct HVq as [g Hg]. destruct (w_lookup _ _ _ _ _ _ Hw Hg) as (b & Hb & _).
  destruct (seg_list_insert_after _ _ _ q _ Hl Hq0 Hq ltac:(by rewrite Hb)) as (s' & E & Hl' & Hf).
  exists PVRSRV_OK, s'. split; [done|]. split; [done|]. eapply wfs_seg_frame; [done..|].
  eapply in_after; [exact Hin|by rewrite Hg|done|solve_Permutation].
Qed.

Lemma runs_seg_insert V X Y s q :
  wfs K mem V X Y s -> is_Some (V !! q) -> q ∈ Y -> q <> 0 ->
  runs (_SegmentListInsert q) s (fun r s' => r = PVRSRV_OK /\ wfs K mem V X (Y ∖ {[q]}) s').
Proof.
  intros Hw HVq HYq Hq0. destruct (w_segs _ _ _ _ _ _ Hw) as (l & Hl & Hin).
  assert (q ∉ l) as Hq by (rewrite Hin; tauto).
  destruct HVq as [g Hg]. destruct (w_lookup _ _ _ _ _ _ Hw Hg) as (b & Hb & _).
  destruct (seg_list_insert _ _ q Hl Hq0 Hq ltac:(by rewrite Hb)) as (s' & E & Hl' & Hf).
  exists PVRSRV_OK, s'. split; [done|]. split; [done|]. eapply wfs_seg_frame; [done..|].
  eapply in_after; [exact Hin|by rewrite Hg|done|apply ins_perm].
Qed.

(** Membership in the free lists after a change of one of them. *)
Lemma elem_of_concat_insert (F : list (list Z)) i l l' q :
  F !! i = Some l -> NoDup (concat F) ->
  q ∈ concat (<[i := l']> F) <-> q ∈ l' \/ (q ∈ concat F /\ q ∉ l).
Proof.
  intros Hi Hnd. apply list_elem_of_split_length in Hi as (F1 & F2 & -> & ->).
  rewrite insert_app_r_alt, Nat.sub_diag by lia. cbn [list_insert insert].
  rewrite concat_app in Hnd. rewrite !concat_app. cbn [concat] in *. rewrite !elem_of_app.
  apply NoDup_app in Hnd as (_ & H12 & H2). apply NoDup_app in H2 as (_ & H34 & _).
  specialize (H12 q). specialize (H34 q). rewrite elem_of_app in H12. tauto.
Qed.

Lemma free_frame_seg f p s s' l :
  (forall b, pPrevSegment (f b) = pPrevSegment b /\ pNextSegment (f b) = pNextSegment b) ->
  free_frame f p s s' -> seg_list s l -> seg_list s' l.
Proof.
  intros Hlk [E Hh] Hl. apply (seg_list_ext s); [by rewrite E..| |done]. intros q _.
  specialize (Hh q). unfold links_of.
  destruct (heap s' !! q) as [b'|], (heap s !! q) as [b|]; cbn in *; try done.
  injection Hh as Hh. destruct (Hlk (data_of (sp := set_pPrevFree) (sn := set_pNextFree) b)) as [H1 H2].
  assert (pPrevSegment b' = pPrevSegment (data_of (sp := set_pPrevFree) (sn := set_pNextFree) b')) as -> by done.
  assert (pNextSegment b' = pNextSegment (data_of (sp := set_pPrevFree) (sn := set_pNextFree) b')) as -> by done.
  rewrite Hh. case_decide; [by rewrite H1, H2|done].
Qed.

Lemma view_free_data b : view (data_of (sp := set_pPrevFree) (sn := set_pNextFree) b) = view b.
Proof. done. Qed.

Lemma free_frame_view f p s s' (fv : seg -> seg) :
  (forall b, view (f b) = fv (view b)) -> free_frame f p s s' ->
  view <$> heap s' = alter fv p (view <$> heap s).
Proof.
  intros Hv [_ Hh]. apply map_eq. intros q. specialize (Hh q). rewrite lookup_fmap.
  assert (view <$> heap s' !! q =
    (fun b => if decide (q = p) then fv (view b) else view b) <$> heap s !! q) as ->.
  { destruct (heap s' !! q) as [b'|], (heap s !! q) as [b|]; cbn in *; try done.
    injection Hh as Hh. rewrite <- (view_free_data b'), Hh. case_decide; [|done].
    by rewrite Hv, view_free_data. }
  destruct (decide (q = p)) as [->|Hne].
  - rewrite lookup_alter_eq, lookup_fmap. by destruct (heap s !! p).
  - by rewrite lookup_alter_ne, lookup_fmap.
Qed.

Lemma runs_free_remove V X Y s p :
  wfs K mem V X Y s -> is_free V p -> p ∉ X ->
  runs (_FreeListRemove p) s (fun _ => wfs K mem V ({[p]} ∪ X) Y).
Proof.
  intros Hw HV HX. destruct (w_free _ _ _ _ _ _ Hw) as (F & HF & Hin).
  assert (p ∈ concat F) as Hp by (by apply Hin). destruct HV as (g & Hg & Hk).
  destruct (w_lookup _ _ _ _ _ _ Hw Hg) as (b & Hb & _).
  apply list_elem_of_In, in_concat in Hp as (l & Hl & Hpl).
  apply list_elem_of_In in Hl, Hpl. apply list_elem_of_lookup in Hl as [i Hi].
  pose proof (NoDup_concat_elem F l (fl_nodup _ _ HF) (list_elem_of_lookup_2 _ _ _ Hi)) as Hnd.
  apply list_elem_of_split in Hpl as (l1 & l2 & ->).
  destruct (free_list_remove s F p b i l1 l2 HF Hb Hi) as (s' & E & HF' & Hf & _).
  exists tt, s'. split; [done|]. destruct Hw as [H1 H2 H3 (ls & Hls & HinS) _].
  pose proof (ff_arena _ _ _ _ Hf) as Ea. constructor.
  - by rewrite Ea.
  - by rewrite Ea.
  - rewrite (free_frame_view _ _ _ _ id (fun _ => eq_refl) Hf), H3. by apply alter_id.
  - exists ls. split; [|done]. by eapply (free_frame_seg id p s).
  - exists (<[i := l1 ++ l2]> F). split; [done|]. intros q.
    rewrite (elem_of_concat_insert F i (l1 ++ p :: l2)) by (done || apply HF).
    apply NoDup_middle, NoDup_cons in Hnd as [Hnp _].
    assert (q ∈ l1 ++ p :: l2 -> q ∈ concat F) as Hsub.
    { intros Hq. apply list_elem_of_In, in_concat. eexists.
      split; apply list_elem_of_In; [by eapply list_elem_of_lookup_2|done]. }
    specialize (Hin q). rewrite not_elem_of_union, not_elem_of_singleton.
    assert (q ∈ l1 ++ p :: l2 <-> q = p \/ q ∈ l1 ++ l2) as Hmid by (rewrite !elem_of_app, elem_of_cons; tauto).
    rewrite Hmid in *. destruct (decide (q ∈ l1 ++ l2)), (decide (q = p)) as [->|]; tauto.
Qed.

Lemma is_free_insert V p g q :
  is_free (<[p := g]> V) q <-> if decide (q = p) then s_kind g = btt_free else is_free V q.
Proof.
  unfold is_free. case_decide as Hq; [subst q; rewrite lookup_insert_eq|by rewrite lookup_insert_ne].
  split; [intros (? & [= <-] & ?); done|eauto].
Qed.

Definition with_kind (k : bt_type) (g : seg) : seg := mk_seg k (s_base g) (s_size g) (s_map g).

Lemma runs_free_insert V X Y s p g :
  wfs K mem V X Y s -> V !! p = Some g -> p ∈ X -> p <> 0 -> 0 <= s_size g < 2 ^ 32 ->
  runs (_FreeListInsert p) s (fun _ => wfs K mem (<[p := with_kind btt_free g]> V) (X ∖ {[p]}) Y).
Proof.
  intros Hw Hg HX Hp0 Hsz. destruct (w_free _ _ _ _ _ _ Hw) as (F & HF & Hin).
  destruct (w_lookup _ _ _ _ _ _ Hw Hg) as (b & Hb & Hv).
  assert (p ∉ concat F) as HpF by (rewrite Hin; tauto).
  assert (0 <= bt_uSize b < 2 ^ 32) as Hb32 by (by subst g).
  destruct (free_list_insert s F p b HF Hp0 HpF Hb Hb32) as (l & s' & Hi & E & HF' & Hf).
  exists tt, s'. split; [done|]. destruct Hw as [H1 H2 H3 (ls & Hls & HinS) _].
  pose proof (ff_arena _ _ _ _ Hf) as Ea. constructor; [by rewrite Ea..| | |].
  - rewrite (free_frame_view (set_bt_kind btt_free) _ _ _ (with_kind btt_free) (fun _ => eq_refl) Hf), H3.
    apply map_eq. intros q. destruct (decide (q = p)) as [->|].
    + by rewrite lookup_alter_eq, lookup_insert_eq, Hg.
    + by rewrite lookup_alter_ne, lookup_insert_ne.
  - exists ls. split; [by apply (free_frame_seg (set_bt_kind btt_free) p s)|]. intros q. rewrite HinS.
    destruct (decide (q = p)) as [->|]; [|by rewrite lookup_insert_ne].
    rewrite lookup_insert_eq, Hg. split; intros [_ ?]; done.
  - eexists. split; [done|]. intros q.
    rewrite (elem_of_concat_insert F _ l) by (done || apply HF).
    rewrite is_free_insert, elem_of_cons, not_elem_of_difference, elem_of_singleton.
    assert (q ∈ l -> q ∈ concat F) as Hsub.
    { intros Hq. apply list_elem_of_In, in_concat. eexists.
      split; apply list_elem_of_In; [by eapply list_elem_of_lookup_2|done]. }
    specialize (Hin q). destruct (decide (q ∈ l)); case_decide; cbn; tauto.
Qed.

(** *** Fields *)

(** A store of fields that are not links, in a tag outside the free lists. *)
Lemma runs_store V X Y s p g f (fv : seg -> seg) :
  wfs K mem V X Y s -> V !! p = Some g ->
  (forall b, view (f b) = fv (view b) /\ pPrevSegment (f b) = pPrevSegment b /\
     pNextSegment (f b) = pNextSegment b) ->
  p ∈ X \/ (forall b, free_part (f b) = free_part b) ->
  runs (store p f) s (fun _ => wfs K mem (<[p := fv g]> V) X Y).
Proof.
  intros Hw Hg Hf HX. destruct (w_lookup _ _ _ _ _ _ Hw Hg) as (b & Hb & Hv).
  eexists tt, _. split; [by apply (store_ok _ _ _ b)|].
  destruct Hw as [H1 H2 H3 (ls & Hls & HinS) (F & HF & Hin)]. constructor; [done|done| | |].
  - cbn. rewrite <- H3, <- Hv. apply map_eq. intros q. rewrite lookup_fmap.
    destruct (decide (q = p)) as [->|].
    + rewrite lookup_alter_eq, lookup_insert_eq, Hb. cbn. f_equal. apply Hf.
    + by rewrite lookup_alter_ne, lookup_insert_ne, lookup_fmap.
  - exists ls. split.
    + apply (seg_list_ext s); [done..| |done]. intros q _. unfold links_of. cbn.
      destruct (decide (q = p)) as [->|]; [|by rewrite lookup_alter_ne].
      rewrite lookup_alter_eq, Hb. cbn. by destruct (Hf b) as (_ & -> & ->).
    + intros q. rewrite HinS. destruct (decide (q = p)) as [->|]; [|by rewrite lookup_insert_ne].
      rewrite lookup_insert_eq, Hg. split; intros [_ ?]; done.
  - assert (p ∈ X \/ s_kind (fv g) = s_kind g) as Hk.
    { destruct HX as [HX|HX]; [by left|right]. specialize (HX b). destruct (Hf b) as (E & _).
      rewrite <- Hv, <- E. cbn. by injection HX. }
    exists F. split.
    + apply (free_lists_ext s); [done| |done]. intros q Hq. cbn.
      destruct (decide (q = p)) as [->|]; [|by rewrite lookup_alter_ne].
      rewrite lookup_alter_eq, Hb. cbn. destruct HX as [HX|HX]; [|by rewrite HX].
      apply Hin in Hq. tauto.
    + intros q. rewrite Hin, is_free_insert. case_decide as Hq; [subst q|done].
      split; intros [Hx1 Hx2]; (destruct Hk as [Hk|Hk]; [tauto|]); (split; [|done]).
      * rewrite Hk. destruct Hx1 as (g' & E & ?). congruence.
      * exists g. split; [done|]. congruence.
Qed.

(** *** Memory *)

Lemma fresh_ptr_fresh (h : gmap Z BT) : h !! fresh_ptr h = None /\ 0 < fresh_ptr h.
Proof.
  unfold fresh_ptr.
  assert (forall l : list Z, 0 <= foldr Z.max 0 l /\ forall x, x ∈ l -> x <= foldr Z.max 0 l) as Hmax.
  { induction l as [|y l [IH0 IH]]; cbn; [split; [lia|set_solver]|]. split; [lia|].
    intros x [->|Hx]%elem_of_cons; [lia|]. specialize (IH x Hx). lia. }
  destruct (Hmax (map_to_list h).*1) as [H0 H1]. split; [|lia].
  destruct (h !! _) as [b|] eqn:E; [|done]. exfalso.
  apply elem_of_map_to_list in E. specialize (H1 _ (list_elem_of_fmap_2 fst _ _ E)). cbn in H1. lia.
Qed.

Lemma runs_alloc_bt V X Y s :
  wfs K mem V X Y s ->
  runs alloc_bt s (fun p s' => (p = 0 /\ mem = false /\ wfs K mem V X Y s') \/
    (p <> 0 /\ V !! p = None /\
     wfs K mem (<[p := mk_seg btt_span 0 0 0]> V) ({[p]} ∪ X) ({[p]} ∪ Y) s')).
Proof.
  intros Hw. eapply runs_seq; [by apply runs_next_alloc|]. intros ok s1 [Hw1 Hmem].
  destruct ok; [|apply runs_ret; left; split_and!; [done|by destruct mem; [specialize (Hmem eq_refl)|]|done]].
  apply runs_bind, runs_arena. set (p := fresh_ptr (heap s1)).
  destruct (fresh_ptr_fresh (heap s1)) as [Hfresh Hpos]. fold p in Hfresh, Hpos.
  eexists p, _. split; [done|]. right. split; [lia|].
  destruct Hw1 as [H1 H2 H3 (ls & Hls & HinS) (F & HF & Hin)].
  assert (V !! p = None) as HVp by (by rewrite <- H3, lookup_fmap, Hfresh). split; [done|].
  assert (forall q, q <> p -> (<[p := mk_bt btt_span 0 0 0 0 0 0 0]> (heap s1)) !! q = heap s1 !! q) as Hne
    by (intros; by rewrite lookup_insert_ne).
  constructor; [done|done| | |].
  - cbn. by rewrite fmap_insert, H3.
  - exists ls. split.
    + apply (seg_list_ext s1); [done..| |done]. intros q Hq. unfold links_of. cbn. rewrite Hne; [done|].
      intros ->. apply HinS in Hq as [[g Hq] _]. congruence.
    + intros q. rewrite HinS. destruct (decide (q = p)) as [->|].
      * rewrite HVp. split; [by intros [[] _]|set_solver].
      * rewrite lookup_insert_ne by done. set_solver.
  - exists F. split.
    + apply (free_lists_ext s1); [done| |done]. intros q Hq. cbn. rewrite Hne; [done|].
      intros ->. apply Hin in Hq as [(g & Hq & _) _]. congruence.
    + intros q. rewrite Hin, is_free_insert. case_decide as Hq; [subst q|set_solver]. cbn.
      split; [|by intros [? _]]. intros [(g & Hq & _) _]. congruence.
Qed.

Lemma runs_OSFreeMem V X Y s p :
  wfs K mem V X Y s -> is_Some (V !! p) -> p ∈ Y -> p ∈ X \/ ~ is_free V p ->
  runs (OSFreeMem p) s (fun _ => wfs K mem (delete p V) (X ∖ {[p]}) (Y ∖ {[p]})).
Proof.
  intros Hw [g Hg] HY HX. destruct (w_lookup _ _ _ _ _ _ Hw Hg) as (b & Hb & _).
  eexists tt, _. unfold OSFreeMem. rewrite (R_bind_ok _ _ _ _ _ (load_ok p (fun _ => tt) s b Hb)).
  split; [done|]. destruct Hw as [H1 H2 H3 (ls & Hls & HinS) (F & HF & Hin)].
  assert (p ∉ ls) as Hpl by (rewrite HinS; tauto). assert (p ∉ concat F) as HpF by (rewrite Hin; tauto).
  constructor; [done|done| | |].
  - cbn. by rewrite fmap_delete, H3.
  - exists ls. split.
    + apply (seg_list_ext s); [done..| |done]. intros q Hq. unfold links_of. cbn.
      rewrite lookup_delete_ne; [done|]. intros ->. done.
    + intros q. destruct (decide (q = p)) as [->|].
      * rewrite lookup_delete_eq. split; [by intros ?%Hpl|by intros [[] _]].
      * rewrite HinS, lookup_delete_ne by done. set_solver.
  - exists F. split.
    + apply (free_lists_ext s); [done| |done]. intros q Hq. cbn.
      rewrite lookup_delete_ne; [done|]. intros ->. done.
    + intros q. unfold is_free. destruct (decide (q = p)) as [->|].
      * rewrite lookup_delete_eq. split; [by intros ?%HpF|]. by intros [(? & ? & _) _].
      * rewrite Hin, lookup_delete_ne by done. unfold is_free. set_solver.
Qed.

(** *** Neighbours *)

(** The links of a tag in the segment list lead to other tags in it. *)
Lemma runs_neighbour V X Y s p (f : BT -> Z) (Q : Z -> RA_ARENA H -> Prop) :
  wfs K mem V X Y s -> is_Some (V !! p) -> p ∉ Y -> f = pPrevSegment \/ f = pNextSegment ->
  (forall n, n = 0 \/ (is_Some (V !! n) /\ (n ∉ Y) /\ n <> p) -> Q n s) -> runs (load p f) s Q.
Proof.
  intros Hw [g Hg] HY Hf HQ. destruct (w_lookup _ _ _ _ _ _ Hw Hg) as (b & Hb & _).
  exists (f b), s. split; [by apply load_ok|]. apply HQ.
  destruct (w_segs _ _ _ _ _ _ Hw) as (l & Hl & Hin).
  assert (p ∈ l) as Hp by (apply Hin; by rewrite Hg). apply list_elem_of_split in Hp as (l1 & l2 & ->).
  destruct Hl as [Hnd Hd _ _]. destruct (dll_tag_links _ _ _ _ _ Hd Hb) as [Hprev Hnext].
  destruct (dll_neighbours _ _ _ _ Hnd Hd) as (Hpp & Hpn & Hnb).
  destruct (decide (f b = 0)) as [->|Hn]; [by left|right].
  assert (f b ∈ l1 ++ p :: l2) as HfN by (apply Hnb; [done|]; destruct Hf as [-> | ->]; auto).
  apply Hin in HfN as [? ?]. split_and!; [done..|]. destruct Hf as [-> | ->]; congruence.
Qed.

(** The next and the previous tag are two. *)
Lemma neighbours_differ V X Y s p b :
  wfs K mem V X Y s -> heap s !! p = Some b -> p ∉ Y -> pNextSegment b <> 0 ->
  pNextSegment b <> pPrevSegment b.
Proof.
  intros Hw Hb HY Hn. destruct (w_segs _ _ _ _ _ _ Hw) as (l & Hl & Hin).
  assert (p ∈ l) as Hp by (apply Hin; by rewrite <- (w_view _ _ _ _ _ _ Hw), lookup_fmap, Hb).
  apply list_elem_of_split in Hp as (l1 & l2 & ->). destruct Hl as [Hnd Hd _ _].
  destruct (dll_tag_links _ _ _ _ _ Hd Hb) as [-> E]. rewrite E in *. intros Hc.
  destruct (first_elem 0 l2) as [|E2]; [done|]. destruct (final_elem 0 l1) as [|E1]; [congruence|].
  apply NoDup_app in Hnd as (_ & Hdisj & _). apply (Hdisj (final 0 l1)); [done|]. rewrite <- Hc. set_solver.
Qed.

(** The sets matter on the tags of the heap only. *)
Lemma wfs_sets V X X' Y Y' s :
  wfs K mem V X Y s -> (forall p, is_Some (V !! p) -> p ∈ X <-> p ∈ X') ->
  (forall p, is_Some (V !! p) -> p ∈ Y <-> p ∈ Y') -> wfs K mem V X' Y' s.
Proof.
  intros [H1 H2 H3 (ls & Hls & HinS) (F & HF & Hin)] HX HY. constructor; [done..| |].
  - exists ls. split; [done|]. intros p. rewrite HinS. naive_solver.
  - exists F. split; [done|]. intros p. rewrite Hin. split; intros [(g & Hg & Hk) Hp].
    all: assert (is_Some (V !! p)) as Hs by (by rewrite Hg); specialize (HX p Hs).
    all: split; [by exists g|naive_solver].
Qed.

(** *** Splitting a segment *)

Lemma bind_cong {A B} (m1 m2 : R A) (f : A -> R B) s1 s2 :
  m1 s1 = m2 s2 -> (m1 ≫= f) s1 = (m2 ≫= f) s2.
Proof. intros E. unfold mbind, R_bind. by rewrite E. Qed.

Lemma bind_seq {A B} (c1 c2 : R unit) (a : A) (m : R B) s :
  ((c1;; c2;; mret a);; m) s = (c1;; c2;; m) s.
Proof.
  unfold mbind, R_bind. destruct (c1 s) as [[[] s1]|]; [|done]. by destruct (c2 s1) as [[[] s2]|].
Qed.

Lemma split_link {A} (m : R A) s p q b c :
  p <> 0 -> p <> q -> heap s !! p = Some b -> heap s !! q = Some c ->
  (store q (set_pPrevSegment p);;
   n ← load p pNextSegment;
   store q (set_pNextSegment n);;
   n ← load p pNextSegment;
   (if n =? 0 then update (set_pTailSegment q) else store n (set_pPrevSegment q));;
   store p (set_pNextSegment q);; m) s = (_SegmentListInsertAfter p q;; m) s.
Proof.
  intros Hp0 Hpq Hb Hc. unfold _SegmentListInsertAfter. rewrite (proj2 (Z.eqb_neq _ _) Hp0).
  set (h1 := alter (set_pNextSegment (pNextSegment b)) q (alter (set_pPrevSegment p) q (heap s))).
  assert (alter (set_pPrevSegment p) q (alter (set_pNextSegment (pNextSegment b)) q (heap s)) = h1) as E1.
  { unfold h1. apply map_eq. intros r. destruct (decide (r = q)) as [->|].
    - rewrite !lookup_alter_eq, Hc. done.
    - by rewrite !lookup_alter_ne. }
  rewrite (R_bind_ok _ _ _ _ _ (store_ok q _ s c Hc)). set (s1 := set_heap _ s).
  assert (heap s1 !! p = Some b) as Hb1 by (cbn; by rewrite lookup_alter_ne).
  rewrite (R_bind_ok _ _ _ _ _ (load_ok p pNextSegment s1 b Hb1)).
  rewrite (R_bind_ok _ _ s1 tt (set_heap h1 s)).
  2: { rewrite store_alter; [done|]. cbn. by rewrite is_Some_alter, Hc. }
  assert (heap (set_heap h1 s) !! p = Some b) as Hb2 by (unfold h1; cbn; by rewrite !lookup_alter_ne).
  rewrite (R_bind_ok _ _ _ _ _ (load_ok p pNextSegment (set_heap h1 s) b Hb2)).
  rewrite <- (bind_seq _ _ PVRSRV_OK m). symmetry. apply bind_cong.
  rewrite (R_bind_ok _ _ _ _ _ (load_ok p pNextSegment s b Hb)).
  rewrite (R_bind_ok _ _ _ _ _ (store_ok q _ s c Hc)).
  rewrite (R_bind_ok _ _ _ tt (set_heap h1 s)).
  2: { rewrite store_alter; [by rewrite <- E1|]. cbn. by rewrite is_Some_alter, Hc. }
  by rewrite (R_bind_ok _ _ _ _ _ (load_ok p pNextSegment (set_heap h1 s) b Hb2)).
Qed.

End ops.
End arena.

(** ** Stepping through an operation

    [Hw] is the structure of the current state. *)

Ltac vlook :=
  repeat first [rewrite lookup_insert_eq | rewrite lookup_insert_ne by congruence
               |rewrite lookup_delete_ne by congruence]; first [reflexivity | eassumption].

Ltac st_load Hw fv :=
  eapply runs_bind, (runs_load _ _ _ _ _ _ _ fv _ Hw); [vlook|done|]; cbn [s_kind s_base s_size s_map].

Ltac st_store Hw fv :=
  eapply runs_seq; [eapply (runs_store _ _ _ _ _ _ _ fv Hw); [vlook|done|left; set_solver]|];
  clear Hw; intros [] ?s Hw; rewrite ?insert_insert_eq in Hw; cbn [with_kind s_kind s_base s_size s_map] in Hw.

Ltac st_stats Hw := eapply runs_seq; [by apply (runs_stats _ _ _ _ _ Hw)|]; clear Hw; intros [] ?s Hw.

Section split.
Context {H : Type} {K : kept (H := H)} {mem : bool}.
Implicit Types (s : RA_ARENA H) (V : gmap Z seg) (X : gset Z).

Lemma runs_split V X s p g k :
  wfs K mem V X ∅ s -> V !! p = Some g -> p ∈ X ->
  runs (_SegmentSplit p k) s (fun n s' => (n = 0 /\ mem = false /\ wfs K mem V X ∅ s') \/
    (n <> 0 /\ V !! n = None /\
     wfs K mem (<[p := mk_seg (s_kind g) (s_base g) k (s_map g)]>
       (<[n := mk_seg btt_free (plus (s_base g) k) (minus (s_size g) k) (s_map g)]> V)) ({[n]} ∪ X) ∅ s')).
Proof.
  intros Hw Hg HX. unfold _SegmentSplit. eapply runs_seq; [exact (runs_alloc_bt _ _ _ _ Hw)|].
  intros n s1 [(-> & ? & ?)|(Hn0 & HVn & Hw1)]; [by apply runs_ret; left|].
  rewrite (proj2 (Z.eqb_neq _ _) Hn0). assert (p <> n) as Hpn by congruence.
  assert (p <> 0) as Hp0 by (eapply w_nonzero; [exact Hw|by rewrite Hg|set_solver]).
  destruct (w_lookup _ _ _ _ _ g Hw1 ltac:(by rewrite lookup_insert_ne)) as (b & Hb & Hvb).
  destruct (w_lookup _ _ _ _ _ _ Hw1 (lookup_insert_eq _ _ _)) as (c & Hc & _).
  destruct (runs_insert_after _ _ _ _ p n Hw1) as (r & s2 & E2 & _ & Hw2).
  { by rewrite lookup_insert_ne, Hg. } { set_solver. } { by rewrite lookup_insert_eq. }
  { set_solver. } { done. }
  eapply runs_eq; [apply (split_link _ s1 p n b c Hp0 Hpn Hb Hc)|].
  apply runs_bind. exists r, s2. split; [done|].
  assert ((({[n]} ∪ ∅) ∖ {[n]} : gset Z) = ∅) as EY by set_solver. rewrite EY in Hw2. clear EY.
  clear Hw1 E2. st_store Hw2 (with_kind btt_free).
  st_load Hw2 s_size. st_store Hw2 (fun v => mk_seg (s_kind v) (s_base v) (minus (s_size g) k) (s_map v)).
  st_load Hw2 s_base. st_store Hw2 (fun v => mk_seg (s_kind v) (plus (s_base g) k) (s_size v) (s_map v)).
  st_load Hw2 s_map. st_store Hw2 (fun v => mk_seg (s_kind v) (s_base v) (s_size v) (s_map g)).
  st_store Hw2 (fun v => mk_seg (s_kind v) (s_base v) k (s_map v)).
  apply runs_ret. by right.
Qed.

End split.
