(* ===== verification/PvrRAOps.v ===== *)
(** * The resource allocator: freeing and carving segments

    The geometry of segments under splitting and merging, and what [_FreeBT] and
    the part of [_AttemptAllocAligned] that carves a request out of a free
    segment do to an arena: they return, keep the structure, and account for
    every address. *)

From stdpp Require Import base list numbers option gmap sets.
From Stdlib Require Import ZArith Lia.
From S2P Require Import Prelude PvrHash PvrHashFacts PvrRA PvrRALists PvrRAArena.

Local Open Scope Z_scope.

(** ** Geometry *)

Lemma occupies_dec g x : Decision (occupies g x).
Proof. unfold occupies. apply _. Defined.
#[export] Existing Instance occupies_dec.

Lemma occupies_iff g x : s_kind g <> btt_span -> occupies g x <-> s_base g <= x < s_base g + s_size g.
Proof. unfold occupies. tauto. Qed.

(** A segment of this size below [top]. *)
Definition in_range (top : Z) (g : seg) : Prop :=
  s_kind g <> btt_span -> 0 <= s_base g /\ 0 < s_size g /\ s_base g + s_size g <= top.

(** One segment replaced by one with the addresses [P] in addition. *)
Lemma covers_insert V p g x :
  covers (<[p := g]> V) x <-> occupies g x \/ covers (delete p V) x.
Proof.
  unfold covers. split.
  - intros (q & h & Hq & Ho). destruct (decide (q = p)) as [->|].
    + rewrite lookup_insert_eq in Hq. injection Hq as ->. by left.
    + rewrite lookup_insert_ne in Hq by done. right. exists q, h. by rewrite lookup_delete_ne.
  - intros [Ho|(q & h & Hq & Ho)]; [exists p, g; by rewrite lookup_insert_eq|].
    assert (q <> p) by (intros ->; by rewrite lookup_delete_eq in Hq).
    rewrite lookup_delete_ne in Hq by done. exists q, h. by rewrite lookup_insert_ne.
Qed.

Lemma covers_delete top V p g x :
  geom top V -> V !! p = Some g -> covers (delete p V) x <-> covers V x /\ ~ occupies g x.
Proof.
  intros Hg Hp. unfold covers. split.
  - intros (q & h & Hq & Ho). assert (q <> p) as Hne by (intros ->; by rewrite lookup_delete_eq in Hq).
    rewrite lookup_delete_ne in Hq by done. split; [by exists q, h|]. intros Ho'.
    apply Hne. by eapply (geom_disjoint _ _ Hg).
  - intros [(q & h & Hq & Ho) Hn]. exists q, h. rewrite lookup_delete_ne; [done|]. intros ->. congruence.
Qed.

Lemma geom_delete top V p : geom top V -> geom top (delete p V).
Proof.
  intros [H1 H2]. constructor.
  - intros q g. rewrite lookup_delete_Some. intros [_ ?]. by eapply H1.
  - intros q r g h x. rewrite !lookup_delete_Some. intros [_ ?] [_ ?]. by apply H2.
Qed.

Lemma geom_insert top V p g :
  geom top (delete p V) -> in_range top g -> (forall x, occupies g x -> ~ covers (delete p V) x) ->
  geom top (<[p := g]> V).
Proof.
  intros [H1 H2] Hr Hd. constructor.
  - intros q h. rewrite lookup_insert_Some. intros [[<- <-]|[Hne Hq]]; [done|].
    apply (H1 q). by rewrite lookup_delete_ne.
  - intros q r h k x. rewrite !lookup_insert_Some.
    intros [[<- <-]|[Hne Hq]] [[<- <-]|[Hne' Hr']] Ho Ho'; [done|..].
    + exfalso. apply (Hd x Ho). exists r, k. by rewrite lookup_delete_ne.
    + exfalso. apply (Hd x Ho'). exists q, h. by rewrite lookup_delete_ne.
    + apply (H2 q r h k x); by rewrite ?lookup_delete_ne.
Qed.

(** A change that keeps the addresses of a segment. *)
Lemma geom_replace top V p g g' :
  geom top V -> V !! p = Some g -> in_range top g' -> (forall x, occupies g' x <-> occupies g x) ->
  geom top (<[p := g']> V) /\ forall x, covers (<[p := g']> V) x <-> covers V x.
Proof.
  intros Hg Hp Hr Ho. split.
  - apply geom_insert; [by apply geom_delete|done|]. intros x Hx. rewrite (covers_delete top V p g x Hg Hp).
    rewrite Ho in Hx. tauto.
  - intros x. rewrite covers_insert, Ho, (covers_delete top V p g x Hg Hp).
    destruct (decide (occupies g x)) as [Hx|]; [|tauto]. split; [|tauto]. intros _. by exists p, g.
Qed.

(** A segment [p] split in two. *)
Lemma geom_split top V p n g g1 g2 :
  geom top V -> V !! p = Some g -> V !! n = None -> in_range top g1 -> in_range top g2 ->
  (forall x, occupies g x <-> occupies g1 x \/ occupies g2 x) ->
  (forall x, ~ (occupies g1 x /\ occupies g2 x)) ->
  geom top (<[p := g1]> (<[n := g2]> V)) /\
  forall x, covers (<[p := g1]> (<[n := g2]> V)) x <-> covers V x.
Proof.
  intros Hg Hp Hn H1 H2 Ho Hd. assert (p <> n) as Hpn by congruence.
  pose proof (fun x => covers_delete top V p g x Hg Hp) as Hc.
  assert (forall x, covers (delete p (<[n := g2]> V)) x <-> occupies g2 x \/ covers (delete p V) x) as Hc2.
  { intros x. rewrite delete_insert_ne, covers_insert by done.
    rewrite (delete_id (delete p V)) by (by rewrite lookup_delete_ne). done. }
  split.
  - apply geom_insert; [|done|].
    + rewrite delete_insert_ne by done. apply geom_insert; [by apply geom_delete, geom_delete|done|].
      intros x Hx. rewrite (delete_id (delete p V)) by (by rewrite lookup_delete_ne).
      rewrite Hc. specialize (Ho x). tauto.
    + intros x Hx. rewrite Hc2, Hc. specialize (Ho x). specialize (Hd x). tauto.
  - intros x. rewrite covers_insert, Hc2, Hc. specialize (Ho x).
    destruct (decide (occupies g x)) as [Hx|]; [|tauto].
    split; [|tauto]. intros _. by exists p, g.
Qed.

(** A segment [p] that takes in its neighbour [n]. *)
Lemma geom_merge top V p n g h g' :
  geom top V -> V !! p = Some g -> V !! n = Some h -> p <> n -> in_range top g' ->
  (forall x, occupies g' x <-> occupies g x \/ occupies h x) ->
  geom top (delete n (<[p := g']> V)) /\
  forall x, covers (delete n (<[p := g']> V)) x <-> covers V x.
Proof.
  intros Hg Hp Hn Hpn Hr Ho. rewrite delete_insert_ne by done.
  pose proof (geom_delete top V n Hg) as Hgn.
  assert (delete n V !! p = Some g) as Hp' by (by rewrite lookup_delete_ne).
  assert (forall x, covers (delete p (delete n V)) x <-> (covers V x /\ ~ occupies h x) /\ ~ occupies g x) as Hc.
  { intros x. by rewrite (covers_delete top _ p g x Hgn Hp'), (covers_delete top V n h x Hg Hn). }
  split.
  - apply geom_insert; [by apply geom_delete|done|]. intros x Hx. rewrite Hc. specialize (Ho x). tauto.
  - intros x. rewrite covers_insert, Hc. specialize (Ho x).
    destruct (decide (occupies h x)) as [Hx|], (decide (occupies g x)) as [Hx'|]; [..|tauto].
    all: split; [intros _|tauto]; first [by exists n, h | by exists p, g].
Qed.

(** ** Merging *)

(** The segment [g] of [p] grew into [g'], taking in free segments only. *)
Record absorbs (top : Z) (V : gmap Z seg) (p : Z) (g : seg) (V' : gmap Z seg) (g' : seg) : Prop :=
  mk_absorbs {
    ab_tag : V' !! p = Some g';
    ab_kind : s_kind g' = s_kind g;
    ab_map : s_map g' = s_map g;
    ab_geom : geom top V';
    ab_covers x : covers V' x <-> covers V x;
    ab_base : s_base g' <= s_base g;
    ab_end : s_base g + s_size g <= s_base g' + s_size g';
    ab_old r h : r <> p -> V' !! r = Some h -> V !! r = Some h;
    ab_kept r h : r <> p -> s_kind h <> btt_free -> V !! r = Some h -> V' !! r = Some h }.

Lemma absorbs_refl top V p g : geom top V -> V !! p = Some g -> absorbs top V p g V g.
Proof. intros Hg Hp. constructor; try done; lia. Qed.

Lemma absorbs_trans top V p g V1 g1 V2 g2 :
  absorbs top V p g V1 g1 -> absorbs top V1 p g1 V2 g2 -> absorbs top V p g V2 g2.
Proof.
  intros [] []. constructor; try done; try congruence; try lia; try naive_solver.
Qed.

Lemma absorb_neighbour top V p n g h base :
  geom top V -> V !! p = Some g -> s_kind g = btt_live -> V !! n = Some h -> s_kind h = btt_free ->
  (base = s_base h /\ s_base h + s_size h = s_base g \/
   base = s_base g /\ s_base g + s_size g = s_base h) ->
  let g' := mk_seg (s_kind g) base (s_size g + s_size h) (s_map g) in
  absorbs top V p g (delete n (<[p := g']> V)) g'.
Proof.
  intros Hg Hp Hk Hn Hf Hadj g'. assert (p <> n) as Hpn by congruence.
  destruct (geom_range _ _ Hg p g Hp) as (? & ? & ?); [congruence|].
  destruct (geom_range _ _ Hg n h Hn) as (? & ? & ?); [congruence|].
  destruct (geom_merge top V p n g h g' Hg Hp Hn Hpn) as [Hg' Hc'].
  { unfold in_range. cbn. lia. }
  { intros x. rewrite !occupies_iff by (cbn; congruence). cbn. lia. }
  constructor; try done; cbn; try lia.
  - by rewrite lookup_delete_ne, lookup_insert_eq by done.
  - intros r k Hr. rewrite lookup_delete_Some, lookup_insert_ne by done. tauto.
  - intros r k Hr Hkk Hr'. rewrite lookup_delete_ne, lookup_insert_ne; [done|done|congruence].
Qed.

Section freeing.
Context {H : Type} {K : kept (H := H)} {mem : bool} {top : Z}.
Implicit Types (s : RA_ARENA H) (V : gmap Z seg) (X Y : gset Z).
Hypothesis Htop : top < 2 ^ 32.

Lemma plus_small x n : 0 <= x + n < 2 ^ 32 -> plus x n = x + n.
Proof. intros. unfold plus. by apply wrapU_small. Qed.

Lemma minus_small x n : 0 <= x - n < 2 ^ 32 -> minus x n = x - n.
Proof. intros. unfold minus. by apply wrapU_small. Qed.

Lemma runs_is_kind V X Y s n k Q :
  wfs K mem V X Y s -> (n = 0 \/ is_Some (V !! n)) ->
  (n = 0 \/ (exists h, V !! n = Some h /\ s_kind h <> k) -> Q false s) ->
  (forall h, V !! n = Some h -> s_kind h = k -> n <> 0 -> Q true s) -> runs (is_kind n k) s Q.
Proof.
  intros Hw Hn HF HT. unfold is_kind. destruct (Z.eqb_spec n 0) as [->|Hn0].
  { apply runs_ret, HF. by left. }
  destruct Hn as [?|[h Hh]]; [done|]. st_load Hw s_kind. apply runs_ret.
  case_bool_decide; [by eapply HT|]. apply HF. right. by exists h.
Qed.

(** The tail of a merge: [n] leaves the lists and the heap. *)
Lemma unlink_neighbour V s p n h :
  wfs K mem V {[p]} ∅ s -> is_Some (V !! p) -> p <> n -> V !! n = Some h -> s_kind h = btt_free ->
  runs (_FreeListRemove n;; _SegmentListRemove n) s (fun _ => wfs K mem V ({[n]} ∪ {[p]}) {[n]}).
Proof.
  intros Hw Hp Hpn Hn Hk. eapply runs_seq; [apply (runs_free_remove _ _ _ _ n Hw); [by exists h|set_solver]|].
  intros [] s1 Hw1. eapply runs_mono; [apply (runs_seg_remove _ _ _ _ n Hw1); [by rewrite Hn|set_solver]|].
  intros [] s2 Hw2. eapply wfs_sets; [exact Hw2|done|set_solver].
Qed.

Definition absorbed V p g s : Prop :=
  exists V' g', wfs K mem V' {[p]} ∅ s /\ absorbs top V p g V' g'.

Lemma bind_assoc2 {A} (c1 c2 : R unit) (m : R A) s : (c1;; c2;; m) s = ((c1;; c2);; m) s.
Proof. unfold mbind, R_bind. by destruct (c1 s) as [[[] s1]|]. Qed.

(** The end of a merge: [n] is freed. *)
Lemma free_neighbour V s p n g' h :
  wfs K mem (<[p := g']> V) ({[n]} ∪ {[p]}) {[n]} s -> p <> n -> V !! n = Some h ->
  runs (OSFreeMem n;; stats (fun t => set_uFreeSegmentCount (minus (uFreeSegmentCount t) 1) t)) s
    (fun _ => wfs K mem (delete n (<[p := g']> V)) {[p]} ∅).
Proof.
  intros Hw Hpn Hn. eapply runs_seq.
  { apply (runs_OSFreeMem _ _ _ _ n Hw); [by rewrite lookup_insert_ne, Hn|set_solver|left; set_solver]. }
  intros [] s1 Hw1. eapply runs_mono; [apply (runs_stats _ _ _ _ _ Hw1)|]. intros [] s2 Hw2.
  eapply wfs_sets; [exact Hw2|set_solver..].
Qed.

Lemma runs_merge_prev V s p g :
  wfs K mem V {[p]} ∅ s -> V !! p = Some g -> s_kind g = btt_live -> geom top V ->
  runs (merge_prev p) s (fun _ => absorbed V p g).
Proof.
  intros Hw Hp Hk Hg. unfold merge_prev.
  assert (absorbed V p g s) as Hrefl by (exists V, g; split; [done|by apply absorbs_refl]).
  eapply runs_bind, (runs_neighbour _ _ _ _ p pPrevSegment _ Hw); [by rewrite Hp|set_solver|by left|].
  intros n Hn. eapply runs_bind, (runs_is_kind _ _ _ _ _ _ _ Hw); [tauto|intros _; by apply runs_ret|].
  intros h Hh Hkh Hn0. cbn [negb]. assert (p <> n) as Hpn by naive_solver.
  st_load Hw s_base. st_load Hw s_size. st_load Hw s_base.
  destruct (geom_range _ _ Hg p g Hp) as (? & ? & ?); [congruence|].
  destruct (geom_range _ _ Hg n h Hh) as (? & ? & ?); [congruence|].
  rewrite plus_small by lia. destruct (Z.eqb_spec (s_base h + s_size h) (s_base g)) as [Hadj|];
    cbn [negb]; [|by apply runs_ret].
  eapply runs_eq; [apply bind_assoc2|].
  eapply runs_seq; [by apply (unlink_neighbour V s p n h Hw)|]. clear Hw Hrefl. intros [] s1 Hw.
  st_load Hw s_base. st_store Hw (fun v => mk_seg (s_kind v) (s_base h) (s_size v) (s_map v)).
  st_load Hw s_size. st_store Hw (fun v => mk_seg (s_kind v) (s_base v) (plus (s_size v) (s_size h)) (s_map v)).
  rewrite plus_small in Hw by lia.
  eapply runs_mono; [by apply (free_neighbour V _ p n _ h Hw)|]. intros [] ? Hw2.
  eexists _, _. split; [exact Hw2|]. apply absorb_neighbour; try done. by left.
Qed.

Lemma runs_merge_next V s p g :
  wfs K mem V {[p]} ∅ s -> V !! p = Some g -> s_kind g = btt_live -> geom top V ->
  runs (merge_next p) s (fun _ => absorbed V p g).
Proof.
  intros Hw Hp Hk Hg. unfold merge_next.
  assert (absorbed V p g s) as Hrefl by (exists V, g; split; [done|by apply absorbs_refl]).
  eapply runs_bind, (runs_neighbour _ _ _ _ p pNextSegment _ Hw); [by rewrite Hp|set_solver|by right|].
  intros n Hn. eapply runs_bind, (runs_is_kind _ _ _ _ _ _ _ Hw); [tauto|intros _; by apply runs_ret|].
  intros h Hh Hkh Hn0. cbn [negb]. assert (p <> n) as Hpn by naive_solver.
  st_load Hw s_base. st_load Hw s_size. st_load Hw s_base.
  destruct (geom_range _ _ Hg p g Hp) as (? & ? & ?); [congruence|].
  destruct (geom_range _ _ Hg n h Hh) as (? & ? & ?); [congruence|].
  rewrite plus_small by lia. destruct (Z.eqb_spec (s_base g + s_size g) (s_base h)) as [Hadj|];
    cbn [negb]; [|by apply runs_ret].
  eapply runs_eq; [apply bind_assoc2|].
  eapply runs_seq; [by apply (unlink_neighbour V s p n h Hw)|]. clear Hw Hrefl. intros [] s1 Hw.
  st_load Hw s_size. st_store Hw (fun v => mk_seg (s_kind v) (s_base v) (plus (s_size v) (s_size h)) (s_map v)).
  rewrite plus_small in Hw by lia.
  eapply runs_mono; [by apply (free_neighbour V _ p n _ h Hw)|]. intros [] ? Hw2.
  eexists _, _. split; [exact Hw2|]. apply absorb_neighbour; try done. by right.
Qed.

End freeing.

(** ** Freeing a live segment *)

Definition with_events {H} (evs : list event) (K : kept (H := H)) : kept (H := H) :=
  mk_kept (k_quantum K) (k_import K) (k_backing K) (k_hash K) (k_imports K) (evs ++ k_events K).

(** What freeing the live segment [g] of [p] does: the other live segments stay;
    the quanta whose backing store is given up are in no live segment; and the
    addresses stay covered, but for a whole import that is handed back. *)
Record freed (top q : Z) (V : gmap Z seg) (p : Z) (g : seg) (V' : gmap Z seg) (evs : list event) : Prop :=
  mk_freed {
    fr_geom : geom top V';
    fr_live r h : s_kind h = btt_live -> V' !! r = Some h <-> V !! r = Some h /\ r <> p;
    fr_backing a b : EvBackingStoreFree a b ∈ evs -> a < b /\ a mod q = 0 /\ b mod q = 0 /\
      forall x r h, a <= x < b -> V' !! r = Some h -> s_kind h = btt_live -> ~ occupies h x;
    fr_covers :
      ((forall x, covers V' x <-> covers V x) /\ forall b m, EvImportFree b m ∉ evs) \/
      (exists b n, EvImportFree b (s_map g) ∈ evs /\ b <= s_base g /\ s_base g + s_size g <= b + n /\
         forall x, covers V' x <-> covers V x /\ ~ b <= x < b + n) }.

Section free_bt.
Context {H : Type} {mem : bool} {top : Z}.
Implicit Types (K : kept (H := H)) (s : RA_ARENA H) (V : gmap Z seg) (X Y : gset Z).

Lemma runs_event K V X Y s ev :
  wfs K mem V X Y s ->
  runs (update (fun s => set_events (ev :: events s) s)) s (fun _ => wfs (with_events [ev] K) mem V X Y).
Proof.
  intros Hw. eexists tt, _. split; [done|]. eapply wfs_kept; [exact Hw|..]; try done.
  by rewrite <- (w_kept _ _ _ _ _ _ Hw).
Qed.

(** The quanta of [o, o + n) that are whole within [base, base + size). *)
Lemma rounded_range q base size o n (start stop : Z) :
  0 < q -> 0 <= base -> base <= o -> 0 <= n -> o + n <= base + size -> base + size + q <= 2 ^ 32 ->
  start = u32 (o / q * q) -> stop = u32 (u32 (o + n + q - 1) / q * q) ->
  let start' := if start <? base then plus start q else start in
  let stop' := if plus base size <? stop then minus stop q else stop in
  start' mod q = 0 /\ stop' mod q = 0 /\ base <= start' /\ stop' <= base + size.
Proof.
  intros Hq Hb Ho Hn Hon Hov -> ->. rewrite (wrapU_small 32 (o + n + q - 1)) by lia.
  pose proof (Z.div_mod o q ltac:(lia)) as D1. pose proof (Z.mod_pos_bound o q Hq) as M1.
  pose proof (Z.div_mod (o + n + q - 1) q ltac:(lia)) as D2.
  pose proof (Z.mod_pos_bound (o + n + q - 1) q Hq) as M2.
  set (a := o / q) in *. set (b := (o + n + q - 1) / q) in *.
  assert (0 <= a) by (apply Z.div_pos; lia). assert (0 <= b) by (apply Z.div_pos; lia).
  rewrite !(wrapU_small 32) by nia. rewrite (plus_small base size) by lia. cbv zeta.
  assert (base + size < b * q -> minus (b * q) q = (b - 1) * q) as Em.
  { intros Hlt. assert (1 <= b) by nia. rewrite minus_small; nia. }
  split_and!.
  - destruct (Z.ltb_spec (a * q) base); [rewrite plus_small by nia|apply Z.mod_mul; lia].
    replace (a * q + q) with ((a + 1) * q) by lia. apply Z.mod_mul. lia.
  - destruct (Z.ltb_spec (base + size) (b * q)); [rewrite Em by done|]; apply Z.mod_mul; lia.
  - destruct (Z.ltb_spec (a * q) base); [rewrite plus_small by nia|]; nia.
  - destruct (Z.ltb_spec (base + size) (b * q)); [rewrite Em by done|]; nia.
Qed.

(** The events of the backing store are for quanta within [g]. *)
Definition backing_in (q : Z) (g : seg) (evs : list event) : Prop :=
  forall ev, ev ∈ evs -> exists a b, ev = EvBackingStoreFree a b /\ a < b /\ a mod q = 0 /\ b mod q = 0 /\
    s_base g <= a /\ b <= s_base g + s_size g.

Lemma runs_free_backing K V s p g o n :
  wfs K mem V {[p]} ∅ s -> V !! p = Some g -> 0 < k_quantum K -> 0 <= s_base g -> s_base g <= o -> 0 <= n ->
  o + n <= s_base g + s_size g -> s_base g + s_size g + k_quantum K <= 2 ^ 32 ->
  runs (free_backing_store p o n) s (fun _ s' => exists evs,
    wfs (with_events evs K) mem V {[p]} ∅ s' /\ backing_in (k_quantum K) g evs).
Proof.
  intros Hw Hp Hq Hb Ho Hn Hon Hov. unfold free_backing_store. apply runs_bind, runs_arena.
  assert (uQuantum s = k_quantum K) as -> by (by rewrite <- (w_kept _ _ _ _ _ _ Hw)).
  st_load Hw s_base. st_load Hw s_size.
  destruct (rounded_range (k_quantum K) (s_base g) (s_size g) o n _ _ Hq Hb Ho Hn Hon Hov eq_refl eq_refl)
    as (M1 & M2 & L1 & L2).
  cbv zeta in *. set (a := if _ <? s_base g then _ else _) in *.
  set (b := if plus _ _ <? _ then _ else _) in *. unfold rwhen. destruct (Z.ltb_spec a b) as [Hab|].
  - eapply runs_mono; [by apply runs_event|]. intros [] s1 Hw1. eexists. split; [exact Hw1|].
    intros ev Hev. apply list_elem_of_singleton in Hev as ->. by exists a, b.
  - apply runs_ret. exists []. split; [by destruct K|]. intros ev Hev. by apply elem_of_nil in Hev.
Qed.

(** Both neighbours of a tag at once. *)
Lemma runs_neighbours {A} K V X s p (f : Z -> Z -> R A) Q :
  wfs K mem V X ∅ s -> is_Some (V !! p) ->
  (forall n r, (n = 0 \/ is_Some (V !! n) /\ n <> p) -> (r = 0 \/ is_Some (V !! r) /\ r <> p) ->
     (n <> 0 -> n <> r) -> runs (f n r) s Q) ->
  runs (n ← load p pNextSegment; r ← load p pPrevSegment; f n r) s Q.
Proof.
  intros Hw HV HQ. destruct HV as [g Hg]. destruct (w_lookup _ _ _ _ _ _ Hw Hg) as (b & Hb & _).
  assert (p ∉ (∅ : gset Z)) as HY by set_solver.
  pose proof (neighbours_differ _ _ _ _ _ _ Hw Hb HY) as Hd.
  apply runs_bind. exists (pNextSegment b), s. split; [by apply load_ok|].
  apply runs_bind. exists (pPrevSegment b), s. split; [by apply load_ok|].
  destruct (runs_neighbour _ _ _ _ p pNextSegment (fun n s' => n = 0 \/ is_Some (V !! n) /\ n <> p) Hw)
    as (n & ? & En & Hn); [by rewrite Hg|done|by right|tauto|].
  destruct (runs_neighbour _ _ _ _ p pPrevSegment (fun n s' => n = 0 \/ is_Some (V !! n) /\ n <> p) Hw)
    as (r & ? & Er & Hr); [by rewrite Hg|done|by left|tauto|].
  rewrite (load_ok _ _ _ _ Hb) in En. rewrite (load_ok _ _ _ _ Hb) in Er. injection En as <- <-. injection Er as <- _.
  by apply HQ.
Qed.

(** The segment [p] between two span markers leaves the arena with them. *)
Lemma runs_release K V s p n r g hn hr :
  wfs K mem V {[p]} ∅ s -> V !! p = Some g -> V !! n = Some hn -> V !! r = Some hr ->
  s_kind hn = btt_span -> s_kind hr = btt_span -> n <> p -> r <> p -> n <> r ->
  runs (_SegmentListRemove n;; _SegmentListRemove r;; _SegmentListRemove p;;
    base ← load p bt_base; map ← load p psMapping; size ← load p bt_uSize;
    update (fun s => set_events (EvImportFree base map :: events s) s);;
    stats (fun t => set_uSpanCount (minus (uSpanCount t) 1) t);;
    stats (fun t => set_uExportCount (plus (uExportCount t) 1) t);;
    stats (fun t => set_uFreeSegmentCount (minus (uFreeSegmentCount t) 1) t);;
    stats (fun t => set_uFreeResourceCount (minus (uFreeResourceCount t) size) t);;
    stats (fun t => set_uTotalResourceCount (minus (uTotalResourceCount t) size) t);;
    OSFreeMem n;; OSFreeMem r;; OSFreeMem p) s
    (fun _ => wfs (with_events [EvImportFree (s_base g) (s_map g)] K) mem (delete p (delete r (delete n V))) ∅ ∅).
Proof.
  intros Hw Hp Hn Hr Hkn Hkr Hnp Hrp Hnr.
  eapply runs_seq; [apply (runs_seg_remove _ _ _ _ n Hw); [by rewrite Hn|set_solver]|]. clear Hw; intros [] s1 Hw.
  eapply runs_seq; [apply (runs_seg_remove _ _ _ _ r Hw); [by rewrite Hr|set_solver]|]. clear Hw; intros [] s2 Hw.
  eapply runs_seq; [apply (runs_seg_remove _ _ _ _ p Hw); [by rewrite Hp|set_solver]|]. clear Hw; intros [] s3 Hw.
  st_load Hw s_base. st_load Hw s_map. st_load Hw s_size.
  eapply runs_seq; [by apply runs_event|]. clear Hw; intros [] s4 Hw.
  do 5 st_stats Hw.
  eapply runs_seq; [apply (runs_OSFreeMem _ _ _ _ n Hw); [by rewrite Hn|set_solver|right; intros (? & ? & ?); congruence]|].
  clear Hw; intros [] s10 Hw.
  eapply runs_seq; [apply (runs_OSFreeMem _ _ _ _ r Hw);
    [by rewrite lookup_delete_ne, Hr|set_solver|right; intros (? & ? & ?); simplify_map_eq; congruence]|].
  clear Hw; intros [] s11 Hw.
  eapply runs_mono; [apply (runs_OSFreeMem _ _ _ _ p Hw);
    [by rewrite !lookup_delete_ne, Hp|set_solver|left; set_solver]|].
  clear Hw; intros [] s12 Hw. eapply wfs_sets; [exact Hw|set_solver..].
Qed.

(** Span markers cover nothing. *)
Lemma covers_delete_span V p h x :
  geom top V -> V !! p = Some h -> s_kind h = btt_span -> covers (delete p V) x <-> covers V x.
Proof.
  intros Hg Hp Hk. rewrite (covers_delete top V p h x Hg Hp). unfold occupies. rewrite Hk. tauto.
Qed.

Lemma with_events_app evs1 evs2 K : with_events evs1 (with_events evs2 K) = with_events (evs1 ++ evs2) K.
Proof. unfold with_events. cbn. by rewrite app_assoc. Qed.

(** The segment is handed back with its markers. *)
Lemma freed_release q V p g V2 g2 evs n r hn hr :
  s_kind g = btt_live -> absorbs top V p g V2 g2 -> geom top V2 -> backing_in q g2 evs ->
  V2 !! n = Some hn -> V2 !! r = Some hr -> s_kind hn = btt_span -> s_kind hr = btt_span ->
  n <> p -> r <> p -> n <> r ->
  freed top q V p g (delete p (delete r (delete n V2))) (EvImportFree (s_base g2) (s_map g2) :: evs).
Proof.
  intros Hk Hab Hg2 Hev Hn Hr Hkn Hkr Hnp Hrp Hnr. destruct Hab as [Ht Hk2 Hm _ Hc Hb He Hold Hkept].
  assert (s_kind g2 <> btt_span) as Hns by congruence.
  constructor.
  - by repeat apply geom_delete.
  - intros t h Hh. rewrite !lookup_delete_Some. split.
    + intros (? & ? & ? & ?). eauto.
    + intros [? ?]. assert (V2 !! t = Some h) by (apply Hkept; congruence).
      split_and!; congruence.
  - intros a b Hin. apply elem_of_cons in Hin as [?|Hin]; [done|].
    destruct (Hev _ Hin) as (a' & b' & [= <- <-] & Hab & M1 & M2 & L1 & L2). split_and!; [done..|].
    intros x t h Hx. rewrite !lookup_delete_Some. intros (Htp & _ & _ & Ht') Hh Ho. apply Htp.
    symmetry. apply (geom_disjoint _ _ Hg2 t p h g2 x); [done..|]. apply occupies_iff; [done|lia].
  - right. exists (s_base g2), (s_size g2). rewrite Hm. split; [set_solver|]. split_and!; [done..|].
    intros x. assert (geom top (delete n V2)) as Hgn by (by apply geom_delete).
    assert (geom top (delete r (delete n V2))) as Hgr by (by apply geom_delete).
    assert (delete n V2 !! r = Some hr) as Hr' by (by rewrite lookup_delete_ne).
    assert (delete r (delete n V2) !! p = Some g2) as Hp' by (by rewrite !lookup_delete_ne).
    rewrite (covers_delete top _ p g2 x Hgr Hp'), (covers_delete_span _ r hr x Hgn Hr' Hkr).
    by rewrite (covers_delete_span _ n hn x Hg2 Hn Hkn), Hc, occupies_iff.
Qed.

(** The segment goes to the free lists. *)
Lemma freed_keep q V p g V2 g2 evs :
  s_kind g = btt_live -> absorbs top V p g V2 g2 -> geom top V2 -> backing_in q g2 evs ->
  freed top q V p g (<[p := with_kind btt_free g2]> V2) evs.
Proof.
  intros Hk Hab Hg2 Hev. destruct Hab as [Ht Hk2 Hm _ Hc Hb He Hold Hkept].
  assert (s_kind g2 <> btt_span) as Hns by congruence.
  destruct (geom_replace top V2 p g2 (with_kind btt_free g2) Hg2 Ht) as [Hg' Hc'].
  { intros _. exact (geom_range _ _ Hg2 p g2 Ht Hns). }
  { intros x. by rewrite !occupies_iff. }
  constructor; [done|..].
  - intros t h Hh. rewrite lookup_insert_Some. split.
    + intros [[<- <-]|[? ?]]; [done|]. eauto.
    + intros [? ?]. right. split; [done|]. apply Hkept; congruence.
  - intros a b Hin. destruct (Hev _ Hin) as (a' & b' & [= <- <-] & Hab & M1 & M2 & L1 & L2). split_and!; [done..|].
    intros x t h Hx. rewrite lookup_insert_Some. intros [[<- <-]|[Htp Ht']] Hh Ho; [done|]. apply Htp.
    apply (geom_disjoint _ _ Hg2 p t g2 h x); [done..| |done]. apply occupies_iff; [done|lia].
  - left. split; [intros x; by rewrite Hc', Hc|]. intros b m Hin. by destruct (Hev _ Hin) as (? & ? & ? & _).
Qed.

Lemma runs_FreeBT K V s p g bf :
  wfs K mem V ∅ ∅ s -> V !! p = Some g -> s_kind g = btt_live -> geom top V ->
  0 < k_quantum K -> top + k_quantum K <= 2 ^ 32 ->
  runs (_FreeBT p bf) s (fun _ s' => exists V' evs,
    wfs (with_events evs K) mem V' ∅ ∅ s' /\ freed top (k_quantum K) V p g V' evs).
Proof.
  intros Hw Hp Hk Hg Hq Htop. unfold _FreeBT.
  assert (~ is_free V p) as Hnf by (intros (? & ? & ?); congruence).
  apply (wfs_out _ _ _ _ p Hnf) in Hw. eapply (wfs_sets _ _ {[p]} _ ∅) in Hw; [|set_solver..].
  do 2 st_stats Hw. st_load Hw s_base. st_load Hw s_size. st_stats Hw.
  eapply runs_seq; [apply (runs_merge_prev (top := top) ltac:(lia) V _ p g Hw); done|].
  clear Hw; intros [] ? (V1 & g1 & Hw & Hab1).
  eapply runs_seq; [apply (runs_merge_next (top := top) ltac:(lia) V1 _ p g1 Hw)|].
  { apply Hab1. } { rewrite (ab_kind _ _ _ _ _ _ Hab1). done. } { apply Hab1. }
  clear Hw; intros [] s5 (V2 & g2 & Hw & Hab2). pose proof (absorbs_trans _ _ _ _ _ _ _ _ Hab1 Hab2) as Hab.
  clear Hab1 Hab2 V1 g1. pose proof (ab_geom _ _ _ _ _ _ Hab) as Hg2. pose proof (ab_tag _ _ _ _ _ _ Hab) as Hp2.
  assert (s_kind g2 = btt_live) as Hk2 by (by rewrite (ab_kind _ _ _ _ _ _ Hab)).
  destruct (geom_range _ _ Hg2 p g2 Hp2) as (? & ? & ?); [congruence|].
  destruct (geom_range _ _ Hg p g Hp) as (? & ? & ?); [congruence|].
  apply runs_bind, runs_arena.
  eapply (runs_seq _ _ _ (fun _ s' => exists evs, wfs (with_events evs K) mem V2 {[p]} ∅ s' /\
    backing_in (k_quantum K) g2 evs)).
  { unfold rwhen. destruct (_ && _).
    - apply runs_free_backing; try done; try lia; apply Hab.
    - apply runs_ret. exists []. split; [by destruct K|]. intros ev Hev. by apply elem_of_nil in Hev. }
  clear Hw; intros [] s6 (evs & Hw & Hev).
  apply (runs_neighbours _ _ _ _ p _ _ Hw); [by rewrite Hp2|]. intros n r Hn Hr Hnr.
  set (Q := fun (_ : unit) s' => _). assert (runs (_FreeListInsert p) s6 Q) as Hkeep.
  { eapply runs_mono; [apply (runs_free_insert _ _ _ _ p g2 Hw Hp2); [set_solver| |lia]|].
    - eapply w_nonzero; [exact Hw|by rewrite Hp2|set_solver].
    - intros [] s7 Hw7. eexists _, evs. split; [|by apply freed_keep].
      eapply wfs_sets; [exact Hw7|set_solver..]. }
  eapply runs_bind, (runs_is_kind _ _ _ _ _ _ _ Hw); [tauto| |].
  { intros _. apply runs_bind, runs_ret. exact Hkeep. }
  intros hn Hhn Hkn Hn0. eapply runs_bind, (runs_is_kind _ _ _ _ _ _ _ Hw); [tauto|intros _; exact Hkeep|].
  intros hr Hhr Hkr Hr0. cbv iota.
  eapply runs_mono; [apply (runs_release _ _ _ p n r g2 hn hr Hw); naive_solver|].
  intros [] s7 Hw7. rewrite with_events_app in Hw7. eexists _, _. split; [exact Hw7|].
  eapply freed_release; naive_solver.
Qed.

End free_bt.
