(* ===== verification/PvrRAAlloc.v ===== *)
(** * The resource allocator: allocation

    The invariant of an arena with its hash, and what the search for a free
    segment and the carving of a request do to it. *)

From stdpp Require Import base list numbers option gmap sets.
From Stdlib Require Import ZArith Lia.
From S2P Require Import Prelude PvrHash PvrHashFacts PvrRA PvrRALists PvrRAArena PvrRAOps.

Local Open Scope Z_scope.

(** ** The hash and the live segments *)

(** [m] sends the base of every live segment to its tag. *)
Definition live_in (V : gmap Z seg) (m : gmap Z Z) : Prop :=
  forall k t, m !! k = Some t <-> exists g, V !! t = Some g /\ s_kind g = btt_live /\ s_base g = k.

Definition size_at (V : gmap Z seg) (t : Z) : Z := default 0 (s_size <$> V !! t).

(** [V'] has the live segments of [V]. *)
Definition same_live (V V' : gmap Z seg) : Prop :=
  forall t g, s_kind g = btt_live -> V' !! t = Some g <-> V !! t = Some g.

Section hash.
Context {H : Type} `{SegmentMap H}.
Implicit Types (h : H) (V : gmap Z seg) (A m : gmap Z Z).

(** [A]: the allocations, from the base to the size. *)
Definition hash_ok h V A : Prop :=
  exists m, sm_rep h m /\ live_in V m /\ A = size_at V <$> m.

Lemma live_in_same V V' m : same_live V V' -> live_in V m -> live_in V' m.
Proof. intros Hs Hm k t. rewrite (Hm k t). split; intros (g & Hg & Hk & Hb); exists g; (split; [|done]); by apply Hs. Qed.

Lemma sizes_same V V' m : same_live V V' -> live_in V m -> size_at V' <$> m = size_at V <$> m.
Proof.
  intros Hs Hm. apply map_fmap_ext. intros k t Hkt. apply Hm in Hkt as (g & Hg & Hk & _).
  unfold size_at. by rewrite Hg, (proj2 (Hs t g Hk) Hg).
Qed.

Lemma hash_ok_same h V V' A : same_live V V' -> hash_ok h V A -> hash_ok h V' A.
Proof.
  intros Hs (m & Hr & Hm & ->). exists m. split_and!; [done|by eapply live_in_same|].
  by rewrite (sizes_same V V').
Qed.

(** An allocation is a live segment. *)
Lemma hash_ok_lookup h V A k n :
  hash_ok h V A -> A !! k = Some n <->
    exists t g, V !! t = Some g /\ s_kind g = btt_live /\ s_base g = k /\ s_size g = n.
Proof.
  intros (m & Hr & Hm & ->). rewrite lookup_fmap, fmap_Some. split.
  - intros (t & Ht & ->). apply Hm in Ht as (g & Hg & Hk & Hb). exists t, g.
    unfold size_at. by rewrite Hg.
  - intros (t & g & Hg & Hk & Hb & Hn). exists t. split; [apply Hm; eauto|].
    unfold size_at. by rewrite Hg.
Qed.

(** The segment [g] of [t] is a new live one. *)
Lemma hash_ok_insert ab at_ h V V' A t g :
  hash_ok h V A -> A !! s_base g = None -> s_kind g = btt_live -> V' !! t = Some g ->
  (forall g', V !! t = Some g' -> s_kind g' <> btt_live) ->
  (forall r g', r <> t -> s_kind g' = btt_live -> V' !! r = Some g' <-> V !! r = Some g') ->
  Z.of_nat (size A) + 1 < COUNT_LIMIT ->
  exists h', sm_insert ab at_ h (s_base g) t = Ok (ab, h') /\
    if ab then hash_ok h' V' (<[s_base g := s_size g]> A) else hash_ok h' V A.
Proof.
  intros (m & Hr & Hm & ->) Hfresh Hk Ht Hold Hother Hsz. rewrite map_size_fmap in Hsz.
  rewrite lookup_fmap, fmap_None in Hfresh.
  destruct (sm_insert_ok ab at_ h m (s_base g) t Hr Hfresh Hsz) as (h' & E & Hr').
  exists h'. split; [done|]. destruct ab; [|by exists m]. exists (<[s_base g := t]> m).
  assert (forall k r, m !! k = Some r -> r <> t) as Hmt.
  { intros k r Hkr ->. apply Hm in Hkr as (g' & Hg' & Hk' & _). by apply (Hold g'). }
  split_and!; [done| |].
  - intros k r. rewrite lookup_insert_Some. split.
    + intros [[<- <-]|[Hne Hkr]]; [by exists g|]. pose proof (Hmt _ _ Hkr).
      apply Hm in Hkr as (g' & Hg' & Hk' & Hb'). exists g'. split; [by apply Hother|done].
    + intros (g' & Hg' & Hk' & Hb'). destruct (decide (r = t)) as [->|Hne].
      * left. split; congruence.
      * right. apply Hother in Hg'; [|done..]. assert (m !! k = Some r) by (apply Hm; eauto). split; congruence.
  - rewrite fmap_insert. f_equal; [unfold size_at; by rewrite Ht|].
    apply map_fmap_ext. intros k r Hkr. pose proof (Hmt _ _ Hkr). apply Hm in Hkr as (g' & Hg' & Hk' & _).
    unfold size_at. by rewrite Hg', (proj2 (Hother r g' ltac:(done) Hk') Hg').
Qed.

(** The live segment at [k] is gone. *)
Lemma hash_ok_remove at_ h V A k :
  hash_ok h V A -> Z.of_nat (size A) < COUNT_LIMIT ->
  exists t h', sm_remove at_ h k = Ok (t, h') /\
    match A !! k with
    | None => t = 0 /\ hash_ok h' V A
    | Some n =>
        (exists g, V !! t = Some g /\ s_kind g = btt_live /\ s_base g = k /\ s_size g = n) /\
        forall V', (forall r g', s_kind g' = btt_live -> V' !! r = Some g' <-> V !! r = Some g' /\ r <> t) ->
          hash_ok h' V' (delete k A)
    end.
Proof.
  intros (m & Hr & Hm & ->) Hsz. rewrite map_size_fmap in Hsz.
  destruct (sm_remove_ok at_ h m k Hr Hsz) as (h' & E & Hr').
  exists (default 0 (m !! k)), h'. split; [done|]. rewrite lookup_fmap.
  destruct (m !! k) as [t|] eqn:Ek; cbn.
  2: { split; [done|]. exists m. by rewrite delete_id in Hr' by done. }
  split.
  { pose proof Ek as Ek'. apply Hm in Ek' as (g & Hg & Hk & Hb). exists g. unfold size_at. by rewrite Hg. }
  intros V' HV'. assert (forall j r, delete k m !! j = Some r <-> m !! j = Some r /\ r <> t) as Hd.
  { intros j r. rewrite lookup_delete_Some. split; intros [H1 H2].
    - split; [done|]. intros ->. apply H1. apply Hm in Ek as (g1 & ? & _ & ?), H2 as (g2 & ? & _ & ?). congruence.
    - split; [|done]. congruence. }
  exists (delete k m). split_and!; [done| |].
  - intros j r. rewrite Hd, (Hm j r). split.
    + intros [(g & Hg & Hk & Hb) Hne]. exists g. split; [by apply HV'|done].
    + intros (g & Hg & Hk & Hb). apply HV' in Hg as [Hg Hne]; [|done]. split; [by exists g|done].
  - rewrite <- fmap_delete. apply map_fmap_ext. intros j r Hj. apply Hd in Hj as [Hj Hne].
    apply Hm in Hj as (g & Hg & Hk & _). unfold size_at.
    by rewrite Hg, (proj2 (HV' r g Hk) (conj Hg Hne)).
Qed.

End hash.

(** ** Carving *)

(** [V'] divides the space as [V] does, with the same live segments. *)
Definition divided (top : Z) (V V' : gmap Z seg) : Prop :=
  geom top V' /\ (forall x, covers V' x <-> covers V x) /\ same_live V V'.

Lemma divided_refl top V : geom top V -> divided top V V.
Proof. done. Qed.

Lemma divided_trans top V V1 V2 : divided top V V1 -> divided top V1 V2 -> divided top V V2.
Proof.
  intros (H1 & H2 & H3) (H4 & H5 & H6). split_and!; [done|intros x; by rewrite H5, H2|].
  intros t g Hk. by rewrite (H6 t g Hk), (H3 t g Hk).
Qed.

(** A free segment cut at [k]. *)
Lemma divided_split top V p n g k :
  geom top V -> V !! p = Some g -> s_kind g = btt_free -> V !! n = None -> 0 < k < s_size g ->
  divided top V (<[p := mk_seg (s_kind g) (s_base g) k (s_map g)]>
    (<[n := mk_seg btt_free (s_base g + k) (s_size g - k) (s_map g)]> V)).
Proof.
  intros Hg Hp Hk Hn Hkk. assert (p <> n) as Hpn by congruence.
  destruct (geom_range _ _ Hg p g Hp) as (? & ? & ?); [congruence|].
  destruct (geom_split top V p n g (mk_seg (s_kind g) (s_base g) k (s_map g))
    (mk_seg btt_free (s_base g + k) (s_size g - k) (s_map g)) Hg Hp Hn) as [Hg' Hc'].
  { intros _. cbn. lia. } { intros _. cbn. lia. }
  { intros x. rewrite !occupies_iff by (cbn; congruence). cbn. lia. }
  { intros x. rewrite !occupies_iff by (cbn; congruence). cbn. lia. }
  split_and!; [done..|]. intros t h Hh. rewrite !lookup_insert_Some. split.
  - intros [[<- <-]|[? [[<- <-]|[? ?]]]]; [cbn in Hh; congruence|done|done].
  - intros Ht. assert (t <> p) by congruence. assert (t <> n) by congruence. auto.
Qed.

Section carve.
Context {H : Type} {mem : bool} {top : Z}.
Implicit Types (K : kept (H := H)) (s : RA_ARENA H) (V : gmap Z seg) (X Y : gset Z).
Hypothesis Htop : top < 2 ^ 32.

(** A free tag that was taken out goes back unchanged. *)
Lemma runs_put_back K V s p g :
  wfs K mem V {[p]} ∅ s -> V !! p = Some g -> s_kind g = btt_free -> geom top V ->
  runs (_FreeListInsert p) s (fun _ => wfs K mem V ∅ ∅).
Proof.
  intros Hw Hp Hk Hg. destruct (geom_range _ _ Hg p g Hp) as (? & ? & ?); [congruence|].
  eapply runs_mono; [apply (runs_free_insert _ _ _ _ p g Hw Hp); [set_solver| |lia]|].
  { eapply w_nonzero; [exact Hw|by rewrite Hp|set_solver]. }
  intros [] s1 Hw1. assert (with_kind btt_free g = g) as E by (destruct g; unfold with_kind; cbn in *; congruence).
  rewrite E, insert_id in Hw1 by done. eapply wfs_sets; [exact Hw1|set_solver..].
Qed.

(** The tag [t] holds the rest of [g] from [aligned] on. *)
Definition front_done K V g aligned t s : Prop := exists V1 gt,
  wfs K mem V1 {[t]} ∅ s /\ divided top V V1 /\ V1 !! t = Some gt /\ s_kind gt = btt_free /\
  s_base gt = aligned /\ aligned + s_size gt = s_base g + s_size g /\ s_map gt = s_map g.

Lemma runs_front_split K V s p g aligned :
  wfs K mem V {[p]} ∅ s -> V !! p = Some g -> s_kind g = btt_free -> geom top V ->
  s_base g <= aligned < s_base g + s_size g ->
  runs (front_split p aligned) s (fun o s' =>
    match o with
    | None => mem = false /\ wfs K mem V ∅ ∅ s'
    | Some t => front_done K V g aligned t s'
    end).
Proof.
  intros Hw Hp Hk Hg Ha. destruct (geom_range _ _ Hg p g Hp) as (? & ? & ?); [congruence|].
  unfold front_split. st_load Hw s_base. destruct (Z.ltb_spec (s_base g) aligned).
  2: { apply runs_ret. exists V, g. split_and!; try done; lia. }
  rewrite minus_small by lia.
  eapply runs_seq; [apply (runs_split _ _ _ p g (aligned - s_base g) Hw Hp); set_solver|].
  clear Hw. intros n s1 [(-> & Hm & Hw)|(Hn0 & Hn & Hw)].
  - eapply runs_seq; [by apply (runs_put_back _ _ _ _ g Hw)|]. intros [] s2 Hw2. by apply runs_ret.
  - rewrite (proj2 (Z.eqb_neq _ _) Hn0). rewrite plus_small, minus_small in Hw by lia.
    assert (p <> n) as Hpn by congruence.
    pose proof (divided_split top V p n g (aligned - s_base g) Hg Hp Hk Hn ltac:(lia)) as Hdiv.
    set (V1 := <[p := _]> (<[n := _]> V)) in *.
    assert (V1 !! p = Some (mk_seg (s_kind g) (s_base g) (aligned - s_base g) (s_map g))) as Hp1
      by apply lookup_insert_eq.
    eapply runs_seq; [apply (runs_free_insert _ _ _ _ p _ Hw Hp1); [set_solver| |cbn; lia]|].
    { eapply w_nonzero; [exact Hw|by rewrite Hp1|set_solver]. }
    clear Hw. intros [] s2 Hw. rewrite insert_id in Hw by (rewrite Hp1; unfold with_kind; cbn; congruence).
    st_load Hw s_size. do 2 st_stats Hw. apply runs_ret. eexists V1, _. split_and!; [|done|by unfold V1; vlook|..].
    + eapply wfs_sets; [exact Hw|set_solver..].
    + done.
    + cbn. lia.
    + cbn. lia.
    + done.
Qed.

(** The tag [t] holds the request. *)
Definition back_done K V g uSize t s : Prop := exists V1,
  wfs K mem V1 {[t]} ∅ s /\ divided top V V1 /\
  V1 !! t = Some (mk_seg btt_free (s_base g) uSize (s_map g)).

Lemma runs_back_split K V s p g uSize :
  wfs K mem V {[p]} ∅ s -> V !! p = Some g -> s_kind g = btt_free -> geom top V ->
  0 < uSize <= s_size g ->
  runs (back_split p uSize) s (fun b s' =>
    if b then back_done K V g uSize p s' else mem = false /\ wfs K mem V ∅ ∅ s').
Proof.
  intros Hw Hp Hk Hg Ha. destruct (geom_range _ _ Hg p g Hp) as (? & ? & ?); [congruence|].
  unfold back_split. st_load Hw s_size. destruct (Z.ltb_spec uSize (s_size g)).
  2: { apply runs_ret. exists V. split_and!; try done. rewrite Hp. destruct g; cbn in *.
       do 2 f_equal; [done|lia]. }
  eapply runs_seq; [apply (runs_split _ _ _ p g uSize Hw Hp); set_solver|].
  clear Hw. intros n s1 [(-> & Hm & Hw)|(Hn0 & Hn & Hw)].
  - eapply runs_seq; [by apply (runs_put_back _ _ _ _ g Hw)|]. intros [] s2 Hw2. by apply runs_ret.
  - rewrite (proj2 (Z.eqb_neq _ _) Hn0). rewrite plus_small, minus_small in Hw by lia.
    assert (p <> n) as Hpn by congruence.
    pose proof (divided_split top V p n g uSize Hg Hp Hk Hn ltac:(lia)) as Hdiv.
    set (V1 := <[p := _]> (<[n := _]> V)) in *.
    assert (V1 !! n = Some (mk_seg btt_free (s_base g + uSize) (s_size g - uSize) (s_map g))) as Hn1
      by (unfold V1; by rewrite lookup_insert_ne, lookup_insert_eq).
    eapply runs_seq; [apply (runs_free_insert _ _ _ _ n _ Hw Hn1); [set_solver|done|cbn; lia]|].
    clear Hw. intros [] s2 Hw. rewrite insert_id in Hw by done.
    st_load Hw s_size. do 2 st_stats Hw. apply runs_ret. exists V1. split_and!; [|done|].
    + eapply wfs_sets; [exact Hw|set_solver..].
    + unfold V1. by rewrite lookup_insert_eq, Hk.
Qed.

End carve.

(** ** The invariant of an arena *)

Definition with_hash {H} (h : H) (K : kept (H := H)) : kept (H := H) :=
  mk_kept (k_quantum K) (k_import K) (k_backing K) h (k_imports K) (k_events K).

(** [K'] differs from [K] in the hash and the events. *)
Definition kept_same {H} (K K' : kept (H := H)) : Prop :=
  k_quantum K' = k_quantum K /\ k_import K' = k_import K /\ k_backing K' = k_backing K /\
  k_imports K' = k_imports K.

Section arena.
Context {H : Type} `{SegmentMap H} {mem : bool} {top : Z}.
Implicit Types (K : kept (H := H)) (s : RA_ARENA H) (V : gmap Z seg) (A : gmap Z Z).

Record arena_at K V A s : Prop := mk_arena_at {
  aa_wfs : wfs K mem V ∅ ∅ s;
  aa_geom : geom top V;
  aa_hash : hash_ok (k_hash K) V A;
  aa_quantum : 0 < k_quantum K /\ top + k_quantum K <= 2 ^ 32 }.

(** A base within a free segment is not the base of an allocation. *)
Lemma base_fresh h V A p g k :
  hash_ok h V A -> geom top V -> V !! p = Some g -> s_kind g = btt_free ->
  s_base g <= k < s_base g + s_size g -> A !! k = None.
Proof.
  intros Hh Hg Hp Hk Hin. destruct (A !! k) as [n|] eqn:E; [|done]. exfalso.
  apply (hash_ok_lookup h V A k n Hh) in E as (t & gt & Ht & Hkt & Hb & Hn).
  destruct (geom_range _ _ Hg t gt Ht) as (? & ? & ?); [congruence|].
  assert (t = p); [|congruence]. apply (geom_disjoint _ _ Hg t p gt g k); try done.
  - apply occupies_iff; [congruence|lia].
  - apply occupies_iff; [congruence|lia].
Qed.

(** The outcome of an allocation of [uSize] at [base]. *)
Definition alloc_post K V A base uSize map (r : option (Z * Z)) s' : Prop :=
  exists K' V', kept_same K K' /\
  match r with
  | Some (b, m) => b = base /\ m = map /\ arena_at K' V' (<[base := uSize]> A) s' /\
      (forall x, covers V' x <-> covers V x) /\ k_events K' = k_events K
  | None => mem = false /\ arena_at K' V' A s' /\ forall x, covers V' x -> covers V x
  end.

Lemma runs_set_hash K V X Y s h :
  wfs K mem V X Y s -> runs (update (set_pSegmentHash h)) s (fun _ => wfs (with_hash h K) mem V X Y).
Proof.
  intros Hw. eexists tt, _. split; [done|]. eapply wfs_kept; [exact Hw|..]; try done.
  by rewrite <- (w_kept _ _ _ _ _ _ Hw).
Qed.

Lemma runs_lift {B} (m : outcome B) a s (Q : B -> RA_ARENA H -> Prop) : m = Ok a -> Q a s -> runs (lift m) s Q.
Proof. intros -> HQ. by exists a, s. Qed.

Lemma runs_make_live K V A s t g :
  wfs K mem V {[t]} ∅ s -> V !! t = Some g -> s_kind g = btt_free -> geom top V ->
  hash_ok (k_hash K) V A -> 0 < k_quantum K /\ top + k_quantum K <= 2 ^ 32 ->
  Z.of_nat (size A) + 1 < COUNT_LIMIT ->
  runs (make_live t) s (alloc_post K V A (s_base g) (s_size g) (s_map g)).
Proof.
  intros Hw Ht Hk Hg Hh Hq Hsz. unfold make_live.
  destruct (geom_range _ _ Hg t g Ht) as (? & ? & ?); [congruence|].
  pose proof (base_fresh _ V A t g (s_base g) Hh Hg Ht Hk ltac:(lia)) as Hfresh.
  st_store Hw (with_kind btt_live). set (gl := with_kind btt_live g).
  set (V1 := <[t := gl]> V) in *. assert (V1 !! t = Some gl) as Ht1 by apply lookup_insert_eq.
  destruct (geom_replace top V t g gl Hg Ht) as [Hg1 Hc1].
  { intros _. exact (geom_range _ _ Hg t g Ht ltac:(congruence)). }
  { intros x. by rewrite !occupies_iff by (cbn; congruence). }
  fold V1 in Hg1, Hc1. assert (wfs K mem V1 ∅ ∅ s0) as Hw1.
  { apply (wfs_out _ _ _ _ t); [intros (? & ? & ?); simplify_map_eq|].
    eapply wfs_sets; [exact Hw|set_solver..]. }
  clear Hw. st_load Hw1 s_base.
  eapply runs_seq; [apply (runs_next_alloc _ _ _ _ Hw1)|]. clear Hw1. intros ab s1 [Hw1 Hab].
  eapply runs_seq; [apply (runs_next_alloc _ _ _ _ Hw1)|]. clear Hw1. intros at_ s2 [Hw1 _].
  apply runs_bind, runs_arena.
  assert (pSegmentHash s2 = k_hash K) as -> by (by rewrite <- (w_kept _ _ _ _ _ _ Hw1)).
  destruct (hash_ok_insert ab at_ (k_hash K) V V1 A t gl Hh Hfresh eq_refl Ht1) as (h' & Ei & Hh').
  { congruence. }
  { intros r g' Hr _. unfold V1. by rewrite lookup_insert_ne. }
  { done. }
  eapply runs_bind, runs_lift; [exact Ei|]. cbv beta iota.
  eapply runs_seq; [by apply (runs_set_hash _ _ _ _ _ h' Hw1)|]. clear Hw1. intros [] s3 Hw1.
  destruct ab; cbn [negb].
  - st_load Hw1 s_map. st_load Hw1 s_base. apply runs_ret. exists (with_hash h' K), V1.
    split; [done|]. by split_and!.
  - eapply runs_seq; [apply (runs_FreeBT (top := top) _ V1 _ t gl false Hw1); by try apply Hq|].
    intros [] s4 (V2 & evs & Hw2 & Hf). apply runs_ret.
    assert (mem = false) as Hm by (destruct mem; [by specialize (Hab eq_refl)|done]).
    assert (forall x, covers V2 x -> covers V x) as Hcov.
    { intros x. rewrite <- Hc1. destruct (fr_covers _ _ _ _ _ _ _ Hf) as [[Hc _]|(b & n & _ & _ & _ & Hc)];
        rewrite Hc; tauto. }
    exists (with_events evs (with_hash h' K)), V2. split; [done|]. split_and!; [done| |done].
    constructor; [done|apply Hf| |done].
    eapply hash_ok_same; [|exact Hh']. intros r g' Hr. rewrite (fr_live _ _ _ _ _ _ _ Hf r g' Hr).
    unfold V1. rewrite lookup_insert_Some. split; [naive_solver|]. intros Hr'. split; [|congruence].
    right. split; [congruence|done].
Qed.

Lemma alloc_post_divided K V V' A base uSize map r s :
  divided top V V' -> alloc_post K V' A base uSize map r s -> alloc_post K V A base uSize map r s.
Proof.
  intros (_ & Hc & _) (K' & V2 & HK & Hr). exists K', V2. split; [done|]. destruct r as [[b m]|].
  - destruct Hr as (? & ? & ? & Hc2 & ?). split_and!; try done. intros x. by rewrite Hc2, Hc.
  - destruct Hr as (? & ? & Hc2). split_and!; try done. intros x Hx. by apply Hc, Hc2.
Qed.

Lemma runs_carve K V A s p g uSize aligned :
  arena_at K V A s -> V !! p = Some g -> s_kind g = btt_free ->
  s_base g <= aligned -> 0 < uSize -> aligned + uSize <= s_base g + s_size g ->
  Z.of_nat (size A) + 1 < COUNT_LIMIT ->
  runs (carve p uSize aligned) s (alloc_post K V A aligned uSize (s_map g)).
Proof.
  intros [Hw Hg Hh Hq] Hp Hk Ha Hu Hfit Hsz. unfold carve.
  eapply runs_seq; [apply (runs_free_remove _ _ _ _ p Hw); [by exists g|set_solver]|].
  clear Hw. intros [] s1 Hw. eapply (wfs_sets _ _ {[p]} _ ∅) in Hw; [|set_solver..].
  st_load Hw s_size. do 3 st_stats Hw.
  eapply runs_seq; [apply (runs_front_split (top := top) ltac:(lia) _ V _ p g aligned Hw); try done; lia|].
  clear Hw s1 s0 s2 s3. intros [t|] s1.
  2: { intros [Hm Hw]. apply runs_ret. exists K, V. split; [done|]. split_and!; try done. }
  intros (V1 & gt & Hw & Hdiv & Ht & Hkt & Hb & He & Hmap). pose proof Hdiv as (Hg1 & Hc1 & Hl1).
  eapply runs_seq; [apply (runs_back_split (top := top) ltac:(lia) _ V1 _ t gt uSize Hw); try done; lia|].
  clear Hw. intros [] s2.
  - intros (V2 & Hw & Hdiv2 & Ht2).
    assert (divided top V V2) as Hdiv' by (by eapply divided_trans).
    eapply runs_mono; [eapply (runs_make_live K V2 A s2 t _ Hw Ht2)|].
    + done.
    + apply Hdiv'.
    + eapply hash_ok_same; [apply Hdiv'|done].
    + done.
    + done.
    + cbn. rewrite Hb, Hmap. intros r s3. by apply alloc_post_divided.
  - intros [Hm Hw]. apply runs_ret. exists K, V1. split; [done|]. split_and!; [done| |intros x; by rewrite Hc1].
    constructor; [done|done|by eapply hash_ok_same|done].
Qed.

End arena.
