(* ===== verification/PvrRASpec.v ===== *)
(** * The resource allocator: its specification

    The search of the free lists, the import path, and the calls of an arena
    against a specification in terms of allocations: a map from bases to sizes. *)

From stdpp Require Import base list numbers option gmap sets.
From Stdlib Require Import ZArith Lia.
From S2P Require Import Prelude PvrHash PvrHashFacts PvrRA PvrRALists PvrRAArena PvrRAOps PvrRAAlloc.

Local Open Scope Z_scope.

(** ** Requests *)

(** A request that stays away from the end of the 32-bit address space. *)
Definition request_ok (top uSize uAlignment uAlignmentOffset : Z) : Prop :=
  0 < uSize < 2 ^ 32 /\ 0 <= uAlignment /\ 0 <= uAlignmentOffset /\ top + 2 * uAlignment + uSize <= 2 ^ 32.

(** An address that satisfies the alignment. *)
Definition aligned_at (uAlignment uAlignmentOffset x : Z) : Prop :=
  1 < uAlignment -> (x + uAlignmentOffset) mod uAlignment = 0.

(** The offset that [_AttemptAllocAligned] works with. *)
Definition offset_of (uAlignment uAlignmentOffset : Z) : Z :=
  if 1 <? uAlignment then uAlignmentOffset mod uAlignment else uAlignmentOffset.

Lemma aligned_at_offset al off x : aligned_at al (offset_of al off) x <-> aligned_at al off x.
Proof.
  unfold aligned_at, offset_of. destruct (Z.ltb_spec 1 al); [|split; lia].
  rewrite Z.add_mod_idemp_r by lia. done.
Qed.

Lemma aligned_base_ok base al off :
  0 <= base -> (1 < al -> 0 <= off < al) -> (1 < al -> base + off + al - 1 < 2 ^ 32) ->
  let a := aligned_base base al off in
  base <= a < base + Z.max 1 al /\ aligned_at al off a /\
  (forall x, base <= x -> aligned_at al off x -> a <= x).
Proof.
  intros Hb Hoff Hov a. unfold a, aligned_base, aligned_at. destruct (Z.ltb_spec 1 al) as [Hal|]; [|split_and!; lia].
  specialize (Hoff Hal). specialize (Hov Hal). rewrite (wrapU_small 32 (base + off + al - 1)) by lia.
  pose proof (Z.div_mod (base + off + al - 1) al ltac:(lia)) as Hdm.
  pose proof (Z.mod_pos_bound (base + off + al - 1) al ltac:(lia)) as Hm.
  set (k := (base + off + al - 1) / al) in *. rewrite (wrapU_small 32 (k * al - off)) by nia. split_and!; [nia|nia| |].
  - intros _. replace (k * al - off + off) with (k * al) by lia. apply Z.mod_mul. lia.
  - intros x Hx Hxm. specialize (Hxm Hal). apply Z.div_exact in Hxm; [|lia]. set (j := (x + off) / al) in *.
    assert (k <= j); [|nia]. assert (k < j + 1); [|lia]. nia.
Qed.

Section search.
Context {H : Type} `{SegmentMap H} (ui32Flags : Z -> Z) {mem : bool} {top : Z}.
Implicit Types (K : kept (H := H)) (s : RA_ARENA H) (V : gmap Z seg) (A : gmap Z Z).

(** The flags allow the segment. *)
Definition flags_ok (uFlags : Z) (g : seg) : bool :=
  (s_map g =? 0) || (ui32Flags (s_map g) =? uFlags).

(** The test that [_AttemptAllocAligned] makes of a free segment. *)
Definition fits (uSize uFlags uAlignment uAlignmentOffset : Z) (g : seg) : bool :=
  (plus (aligned_base (s_base g) uAlignment uAlignmentOffset) uSize <=? plus (s_base g) (s_size g))
  && flags_ok uFlags g.

(** Within the bounds the test says whether the request has a place. *)
Lemma fits_spec uSize uFlags al off g :
  request_ok top uSize al off -> in_range top g -> s_kind g <> btt_span ->
  let a := aligned_base (s_base g) al (offset_of al off) in
  (s_base g <= a /\ aligned_at al off a) /\
  (fits uSize uFlags al (offset_of al off) g = true <->
   flags_ok uFlags g = true /\ a + uSize <= s_base g + s_size g) /\
  (forall x, s_base g <= x -> aligned_at al off x -> a <= x).
Proof.
  intros (H1 & H2 & H3 & H4) Hr Hk a. destruct (Hr Hk) as (? & ? & ?).
  assert (1 < al -> 0 <= offset_of al off < al) as Hoff.
  { intros Hal. unfold offset_of. rewrite (proj2 (Z.ltb_lt _ _) Hal). apply Z.mod_pos_bound. lia. }
  destruct (aligned_base_ok (s_base g) al (offset_of al off)) as (Ha & Hal & Hleast); [lia|done|lia|].
  fold a in Ha, Hal, Hleast. split_and!; [lia|by apply aligned_at_offset| |].
  - unfold fits. fold a. rewrite !plus_small by lia. rewrite andb_true_iff, Z.leb_le. tauto.
  - intros x Hx Hax. apply Hleast; [done|]. by apply aligned_at_offset.
Qed.

(** ** The search *)

Lemma runs_alloc_chain K V s F i l1 l2 fuel uSize uFlags al off Q :
  wfs K mem V ∅ ∅ s -> free_lists s F -> F !! i = Some (l1 ++ l2) -> (length l2 < fuel)%nat ->
  (forall p g, p ∈ l2 -> V !! p = Some g -> fits uSize uFlags al off g = true ->
     runs (carve p uSize (aligned_base (s_base g) al off)) s Q) ->
  runs (alloc_chain ui32Flags fuel (first 0 l2) uSize uFlags al off) s (fun o s' =>
    match o with
    | Some r => Q r s'
    | None => s' = s /\ forall p g, p ∈ l2 -> V !! p = Some g -> fits uSize uFlags al off g = false
    end).
Proof.
  intros Hw HF. revert l1 l2. induction fuel as [|fuel IH]; intros l1 l2 Hi Hf HQ; [lia|].
  cbn [alloc_chain]. destruct l2 as [|p l2]; cbn [first].
  { apply runs_ret. split; [done|]. intros p g Hp. by apply elem_of_nil in Hp. }
  pose proof (fl_dll _ _ HF _ (list_elem_of_lookup_2 _ _ _ Hi)) as Hd.
  rewrite (proj2 (Z.eqb_neq p 0)) by (eapply dll_nonzero; [exact Hd|set_solver]).
  destruct (dll_in_heap _ _ p Hd) as [b Hb]; [set_solver|].
  assert (V !! p = Some (view b)) as Hp by (by rewrite <- (w_view _ _ _ _ _ _ Hw), lookup_fmap, Hb).
  st_load Hw s_base. st_load Hw s_size. st_load Hw s_map.
  change (_ && _) with (fits uSize uFlags al off (view b)).
  destruct (fits _ _ _ _ (view b)) eqn:Efit.
  - eapply runs_seq; [apply (HQ p (view b)); [set_solver|done|done]|]. intros r s1 Hr. by apply runs_ret.
  - apply runs_bind. exists (pNextFree b), s. split; [by apply load_ok|].
    destruct (dll_tag_links _ _ _ _ _ Hd Hb) as [_ ->]. eapply runs_mono; [apply (IH (l1 ++ [p]) l2)|].
    + by rewrite <- app_assoc.
    + cbn in Hf. lia.
    + intros q g Hq. apply HQ. set_solver.
    + intros [r|] s1; [done|]. intros [-> Hno]. split; [done|]. intros q g Hq Hg.
      apply elem_of_cons in Hq as [->|Hq]; [congruence|by apply (Hno q)].
Qed.

(** A free list fits the heap: enough fuel for a search. *)
Lemma free_list_length s F i l : free_lists s F -> F !! i = Some l -> (length l <= size (heap s))%nat.
Proof.
  intros HF Hi. assert (l ∈ F) as Hl by (by eapply list_elem_of_lookup_2).
  pose proof (fl_dll _ _ HF _ Hl) as Hd. pose proof (NoDup_concat_elem F l (fl_nodup _ _ HF) Hl) as Hnd.
  rewrite <- size_dom, <- (size_list_to_set (C := gset Z) l Hnd). apply subseteq_size.
  intros p Hp. apply elem_of_list_to_set in Hp. apply elem_of_dom. by eapply dll_in_heap.
Qed.

(** The lists from [i] on. *)
Lemma runs_alloc_lists K V s F n i uSize uFlags al off Q :
  wfs K mem V ∅ ∅ s -> free_lists s F -> (i + n = length F)%nat ->
  (forall p g, is_free V p -> V !! p = Some g -> fits uSize uFlags al off g = true ->
     runs (carve p uSize (aligned_base (s_base g) al off)) s Q) ->
  ((forall j l p g, (i <= j)%nat -> F !! j = Some l -> p ∈ l -> V !! p = Some g ->
      fits uSize uFlags al off g = false) -> Q None s) ->
  runs (alloc_lists ui32Flags n (Z.of_nat i) uSize uFlags al off) s Q.
Proof.
  intros Hw HF. revert i. induction n as [|n IH]; intros i Hlen HQ Hno; cbn [alloc_lists].
  - apply runs_ret, Hno. intros j l p g Hj Hl. apply lookup_lt_Some in Hl. lia.
  - destruct (lookup_lt_is_Some_2 F i) as [l Hl]; [lia|].
    apply runs_bind. exists (first 0 l), s. split; [by apply head_free_ok, (free_lists_head s F)|].
    apply runs_bind, runs_arena. pose proof (free_list_length s F i l HF Hl) as Hsz.
    eapply runs_seq; [apply (runs_alloc_chain K V s F i [] l _ uSize uFlags al off Q Hw HF Hl); [lia|]|].
    + intros p g Hp Hg. apply HQ; [|done]. exists g. split; [done|].
      destruct (w_lookup _ _ _ _ _ _ Hw Hg) as (b & Hb & <-).
      by destruct (fl_tags _ _ HF i l p b Hl Hp Hb).
    + intros [r|] s1; [intros Hr; by apply runs_ret|]. intros [-> Hnone].
      replace (Z.of_nat i + 1) with (Z.of_nat (S i)) by lia. apply IH; [lia|done|].
      intros Hrest. apply Hno. intros j k p g Hj Hk Hp Hg. destruct (decide (j = i)) as [->|Hne].
      * assert (k = l) as -> by congruence. by apply (Hnone p).
      * apply (Hrest j k p g); [lia|done..].
Qed.

(** A segment that fits is at least as large as the request. *)
Lemma fits_size uSize uFlags al off g :
  request_ok top uSize al off -> in_range top g -> s_kind g <> btt_span ->
  fits uSize uFlags al (offset_of al off) g = true -> uSize <= s_size g.
Proof.
  intros Hreq Hr Hk Hfit. destruct (fits_spec uSize uFlags al off g Hreq Hr Hk) as ([? _] & Hiff & _).
  apply Hiff in Hfit as [_ ?]. lia.
Qed.

(** The search of the whole table: a segment that fits is carved, and when none
    fits nothing changes. *)
Lemma runs_attempt K V A s uSize uFlags al off Q :
  arena_at (mem := mem) (top := top) K V A s -> request_ok top uSize al off ->
  Z.of_nat (size A) + 1 < COUNT_LIMIT ->
  (forall p g r s', V !! p = Some g -> s_kind g = btt_free ->
     fits uSize uFlags al (offset_of al off) g = true ->
     alloc_post (mem := mem) (top := top) K V A (aligned_base (s_base g) al (offset_of al off)) uSize (s_map g) r s' ->
     Q r s') ->
  ((forall p g, V !! p = Some g -> s_kind g = btt_free ->
      fits uSize uFlags al (offset_of al off) g = false) -> Q None s) ->
  runs (_AttemptAllocAligned ui32Flags uSize uFlags al off) s Q.
Proof.
  intros Ha Hreq Hsz HQ Hno. pose proof (aa_geom _ _ _ _ Ha) as Hg.
  pose proof (aa_wfs _ _ _ _ Ha) as Hw. destruct (w_free _ _ _ _ _ _ Hw) as (F & HF & Hin).
  pose proof Hreq as (Hu & Hal & _ & Htop). pose proof (aa_quantum _ _ _ _ Ha) as [Hq1 Hq2].
  unfold _AttemptAllocAligned. fold (offset_of al off). cbv zeta.
  pose proof (pvr_log2_range uSize ltac:(lia)) as Hr. set (i := Z.to_nat (pvr_log2 uSize)).
  assert (pvr_log2 uSize = Z.of_nat i) as Ei by (unfold i; lia). rewrite Ei.
  assert (forall p g, V !! p = Some g -> s_kind g = btt_free -> in_range top g /\ s_kind g <> btt_span) as Hrange.
  { intros p g Hp Hk. split; [intros Hns; by apply (geom_range _ _ Hg p)|congruence]. }
  apply (runs_alloc_lists K V s F _ i _ _ _ _ _ Hw HF).
  - rewrite (fl_length _ _ HF). unfold FREE_TABLE_LIMIT in *. lia.
  - intros p g (g' & Hg' & Hk) Hp Hfit. assert (g' = g) as -> by congruence.
    destruct (Hrange p g Hp Hk) as [Hr1 Hr2].
    destruct (fits_spec uSize uFlags al off g Hreq Hr1 Hr2) as ([Hb _] & Hiff & _).
    apply Hiff in Hfit as Hfit'. eapply runs_mono; [apply (runs_carve K V A s p g uSize _ Ha Hp Hk Hb); lia|].
    intros r s'. by apply (HQ p g).
  - intros Hrest. apply Hno. intros p g Hp Hk. destruct (fits _ _ _ _ g) eqn:Efit; [|done].
    destruct (Hrange p g Hp Hk) as [Hr1 Hr2].
    pose proof (fits_size uSize uFlags al off g Hreq Hr1 Hr2 Efit) as Hsize.
    assert (p ∈ concat F) as HpF by (apply Hin; split; [by exists g|set_solver]).
    apply list_elem_of_In, in_concat in HpF as (l & Hl & Hpl). apply list_elem_of_In in Hl, Hpl.
    apply list_elem_of_lookup in Hl as [j Hj]. 
    enough (fits uSize uFlags al (offset_of al off) g = false) by congruence.
    apply (Hrest j l p g); [|done..].
    destruct (w_lookup _ _ _ _ _ _ Hw Hp) as (b & Hb & Hv).
    destruct (fl_tags _ _ HF j l p b Hj Hpl Hb) as [_ Hlog]. destruct (Hr1 Hr2) as (? & ? & ?).
    assert (bt_uSize b = s_size g) as E by (by rewrite <- Hv). rewrite E in Hlog.
    rewrite pvr_log2_log2 in Hlog, Ei by lia. pose proof (Z.log2_le_mono _ _ Hsize). lia.
Qed.
End search.

(** ** New resources *)

(** [V'] covers the range in addition, as a free segment. *)
Record extended (top base n : Z) (V V' : gmap Z seg) : Prop := mk_extended {
  ex_geom : geom top V';
  ex_covers x : covers V' x <-> covers V x \/ base <= x < base + n;
  ex_live : same_live V V' }.

Lemma extend_span top V p b n :
  geom top V -> V !! p = None -> let V' := <[p := mk_seg btt_span b n 0]> V in
  geom top V' /\ (forall x, covers V' x <-> covers V x) /\ same_live V V'.
Proof.
  intros Hg Hp V'. assert (forall x, ~ occupies (mk_seg btt_span b n 0) x) as Hno by (by intros x [? _]).
  split_and!.
  - apply geom_insert; [by apply geom_delete|intros Hc; by destruct Hc|]. intros x Hx. by apply Hno in Hx.
  - intros x. unfold V'. rewrite covers_insert, delete_id by done. specialize (Hno x). tauto.
  - intros t g Hk. unfold V'. rewrite lookup_insert_Some. split; [|intros ?; right; split; congruence].
    intros [[<- <-]|[_ ?]]; done.
Qed.

Lemma extend_free top V p base n m :
  geom top V -> V !! p = None -> in_range top (mk_seg btt_free base n m) ->
  (forall x, base <= x < base + n -> ~ covers V x) ->
  extended top base n V (<[p := mk_seg btt_free base n m]> V).
Proof.
  intros Hg Hp Hr Hd. assert (forall x, occupies (mk_seg btt_free base n m) x <-> base <= x < base + n) as Ho
    by (intros x; by rewrite occupies_iff).
  constructor.
  - apply geom_insert; [by apply geom_delete|done|]. intros x Hx. rewrite delete_id by done. exact (Hd x (proj1 (Ho x) Hx)).
  - intros x. rewrite covers_insert, delete_id, Ho by done. tauto.
  - intros t g Hk. rewrite lookup_insert_Some. split; [|intros ?; right; split; congruence].
    intros [[<- <-]|[_ ?]]; done.
Qed.

Section resources.
Context {H : Type} {mem : bool} {top : Z}.
Implicit Types (K : kept (H := H)) (s : RA_ARENA H) (V : gmap Z seg) (X Y : gset Z).
Hypothesis Htop : top < 2 ^ 32.

(** A tag that was built, outside the lists, or none. *)
Definition built K V X Y g p s : Prop :=
  (p = 0 /\ mem = false /\ wfs K mem V X Y s) \/
  (p <> 0 /\ V !! p = None /\ wfs K mem (<[p := g]> V) ({[p]} ∪ X) ({[p]} ∪ Y) s).

Lemma runs_BuildSpanMarker K V X Y s base n :
  wfs K mem V X Y s -> runs (_BuildSpanMarker base n) s (built K V X Y (mk_seg btt_span base n 0)).
Proof.
  intros Hw. unfold _BuildSpanMarker. eapply runs_seq; [exact (runs_alloc_bt _ _ _ _ Hw)|]. clear Hw.
  intros p s1 [(-> & Hm & Hw)|(Hp & HV & Hw)]; [by apply runs_ret; left|].
  rewrite (proj2 (Z.eqb_neq _ _) Hp).
  st_store Hw (with_kind btt_span). st_store Hw (fun v => mk_seg (s_kind v) base (s_size v) (s_map v)).
  st_store Hw (fun v => mk_seg (s_kind v) (s_base v) n (s_map v)).
  st_store Hw (fun v => mk_seg (s_kind v) (s_base v) (s_size v) 0). apply runs_ret. by right.
Qed.

Lemma runs_BuildBT K V X Y s base n :
  wfs K mem V X Y s -> runs (_BuildBT base n) s (built K V X Y (mk_seg btt_free base n 0)).
Proof.
  intros Hw. unfold _BuildBT. eapply runs_seq; [exact (runs_alloc_bt _ _ _ _ Hw)|]. clear Hw.
  intros p s1 [(-> & Hm & Hw)|(Hp & HV & Hw)]; [by apply runs_ret; left|].
  rewrite (proj2 (Z.eqb_neq _ _) Hp).
  st_store Hw (with_kind btt_free). st_store Hw (fun v => mk_seg (s_kind v) base (s_size v) (s_map v)).
  st_store Hw (fun v => mk_seg (s_kind v) (s_base v) n (s_map v)). apply runs_ret. by right.
Qed.

(** A tag that was built is freed again. *)
Lemma runs_unbuild K V X Y s p g :
  wfs K mem (<[p := g]> V) ({[p]} ∪ X) ({[p]} ∪ Y) s -> V !! p = None ->
  runs (OSFreeMem p) s (fun _ => wfs K mem V X Y).
Proof.
  intros Hw HV. eapply runs_mono; [apply (runs_OSFreeMem _ _ _ _ p Hw); [by rewrite lookup_insert_eq|set_solver|left; set_solver]|].
  intros [] s1 Hw1. rewrite delete_insert_id in Hw1 by done.
  eapply wfs_sets; [exact Hw1|..]; intros q [h Hq]; assert (q <> p) by congruence; set_solver.
Qed.

(** The outcome of adding a range as a free segment of a new tag. *)
Definition inserted K V base n p s : Prop :=
  (p = 0 /\ mem = false /\ wfs K mem V ∅ ∅ s) \/
  (p <> 0 /\ exists V', wfs K mem V' ∅ ∅ s /\ V' !! p = Some (mk_seg btt_free base n 0) /\
     extended top base n V V').

Lemma runs_InsertResource K V s base n :
  wfs K mem V ∅ ∅ s -> geom top V -> in_range top (mk_seg btt_free base n 0) ->
  (forall x, base <= x < base + n -> ~ covers V x) ->
  runs (_InsertResource base n) s (inserted K V base n).
Proof.
  intros Hw Hg Hr Hd. unfold _InsertResource. eapply runs_seq; [exact (runs_BuildBT _ _ _ _ _ base n Hw)|].
  clear Hw. intros p s1 [(-> & Hm & Hw)|(Hp & HV & Hw)]; [by apply runs_ret; left|].
  rewrite (proj2 (Z.eqb_neq _ _) Hp).
  pose proof (lookup_insert_eq V p (mk_seg btt_free base n 0)) as Hlk.
  eapply runs_seq; [apply (runs_seg_insert _ _ _ _ p Hw); [by rewrite Hlk|set_solver|done]|].
  clear Hw. intros e s2 [-> Hw]. cbn [negb Z.eqb PVRSRV_OK].
  destruct (Hr ltac:(done)) as (? & ? & ?). cbn [s_base s_size] in *.
  eapply runs_seq; [apply (runs_free_insert _ _ _ _ p _ Hw Hlk); [set_solver|done|cbn; lia]|].
  clear Hw. intros [] s3 Hw. rewrite insert_insert_eq in Hw. do 3 st_stats Hw. apply runs_ret. right. split; [done|].
  eexists. split; [|split; [apply lookup_insert_eq|by apply extend_free]].
  eapply wfs_sets; [exact Hw|set_solver..].
Qed.

(** The three tags of an import are linked in. *)
Lemma runs_link_span K V s a b c ga gb base n :
  wfs K mem (<[c := mk_seg btt_free base n 0]> (<[b := gb]> (<[a := ga]> V)))
    ({[c]} ∪ ({[b]} ∪ ({[a]} ∪ ∅))) ({[c]} ∪ ({[b]} ∪ ({[a]} ∪ ∅))) s ->
  a <> 0 -> b <> 0 -> c <> 0 -> a <> b -> c <> a -> c <> b ->
  s_kind ga = btt_span -> s_kind gb = btt_span -> 0 <= n < 2 ^ 32 ->
  runs (eError ← _SegmentListInsert a;
    if negb (eError =? PVRSRV_OK) then span_fail [c; b; a] else
    eError ← _SegmentListInsertAfter a c;
    if negb (eError =? PVRSRV_OK) then span_fail [c; b; a] else
    _FreeListInsert c;;
    eError ← _SegmentListInsertAfter c b;
    if negb (eError =? PVRSRV_OK) then span_fail [c; b; a] else
    stats (fun t => set_uTotalResourceCount (plus (uTotalResourceCount t) n) t);;
    mret c) s
    (fun p s' => p = c /\ wfs K mem (<[c := mk_seg btt_free base n 0]> (<[b := gb]> (<[a := ga]> V))) ∅ ∅ s').
Proof.
  intros Hw Ha Hb Hc Hab Hca Hcb Hka Hkb Hn. set (V3 := <[c := _]> _) in *.
  assert (V3 !! a = Some ga) as La by (unfold V3; by rewrite !lookup_insert_ne, lookup_insert_eq by congruence).
  assert (V3 !! b = Some gb) as Lb by (unfold V3; by rewrite lookup_insert_ne, lookup_insert_eq by congruence).
  assert (V3 !! c = Some (mk_seg btt_free base n 0)) as Lc by apply lookup_insert_eq.
  eapply runs_seq; [apply (runs_seg_insert _ _ _ _ a Hw); [by rewrite La|set_solver|done]|].
  clear Hw. intros e s1 [-> Hw]. cbn [negb Z.eqb PVRSRV_OK].
  eapply runs_seq; [apply (runs_insert_after _ _ _ _ a c Hw); [by rewrite La|set_solver|by rewrite Lc|set_solver|done]|].
  clear Hw. intros e s2 [-> Hw]. cbn [negb Z.eqb PVRSRV_OK].
  eapply runs_seq; [apply (runs_free_insert _ _ _ _ c _ Hw Lc); [set_solver|done|cbn; lia]|].
  clear Hw. intros [] s3 Hw. rewrite insert_id in Hw by done.
  eapply runs_seq; [apply (runs_insert_after _ _ _ _ c b Hw); [by rewrite Lc|set_solver|by rewrite Lb|set_solver|done]|].
  clear Hw. intros e s4 [-> Hw]. cbn [negb Z.eqb PVRSRV_OK]. st_stats Hw. apply runs_ret. split; [done|].
  apply (wfs_out _ _ _ _ a); [intros (? & ? & ?); congruence|].
  apply (wfs_out _ _ _ _ b); [intros (? & ? & ?); congruence|].
  eapply wfs_sets; [exact Hw|set_solver..].
Qed.

Lemma runs_InsertResourceSpan K V s base n :
  wfs K mem V ∅ ∅ s -> geom top V -> in_range top (mk_seg btt_free base n 0) ->
  (forall x, base <= x < base + n -> ~ covers V x) ->
  runs (_InsertResourceSpan base n) s (inserted K V base n).
Proof.
  intros Hw Hg Hr Hd. unfold _InsertResourceSpan.
  eapply runs_seq; [exact (runs_BuildSpanMarker _ _ _ _ _ base n Hw)|]. clear Hw.
  intros a s1 [(-> & Hm & Hw)|(Ha & HVa & Hw)]; [by apply runs_ret; left|]. rewrite (proj2 (Z.eqb_neq _ _) Ha).
  eapply runs_seq; [exact (runs_BuildSpanMarker _ _ _ _ _ (plus base n) 0 Hw)|].
  intros b s2 [(-> & Hm & Hw2)|(Hb & HVb & Hw2)].
  { eapply runs_seq; [by apply (runs_unbuild _ _ _ _ _ _ _ Hw2)|]. intros [] s3 Hw3. apply runs_ret. by left. }
  clear Hw. rewrite (proj2 (Z.eqb_neq _ _) Hb).
  eapply runs_seq; [exact (runs_BuildBT _ _ _ _ _ base n Hw2)|].
  intros c s3 [(-> & Hm & Hw3)|(Hc & HVc & Hw3)].
  { cbn [span_fail foldr]. eapply runs_seq; [by apply (runs_unbuild _ _ _ _ _ _ _ Hw3)|]. clear Hw3. intros [] s4 Hw3.
    eapply runs_seq; [by apply (runs_unbuild _ _ _ _ _ _ _ Hw3)|]. intros [] s5 Hw5. apply runs_ret. by left. }
  clear Hw2. rewrite (proj2 (Z.eqb_neq _ _) Hc). destruct (Hr ltac:(done)) as (? & ? & ?). cbn [s_base s_size] in *.
  assert (a <> b) as Hab by (intros ->; by rewrite lookup_insert_eq in HVb).
  assert (c <> b) as Hcb by (intros ->; by rewrite lookup_insert_eq in HVc).
  assert (c <> a) as Hca by (intros ->; by rewrite lookup_insert_ne, lookup_insert_eq in HVc).
  eapply runs_mono; [apply (runs_link_span _ _ _ _ _ _ _ _ _ _ Hw3); try done; lia|].
  intros p s4 [-> Hw]. right. split; [done|]. eexists. split; [exact Hw|]. split; [apply lookup_insert_eq|].
  destruct (extend_span top V a base n Hg HVa) as (Hga & Hca' & Hla).
  destruct (extend_span top _ b (plus base n) 0 Hga HVb) as (Hgb & Hcb' & Hlb).
  destruct (extend_free top _ c base n 0 Hgb HVc Hr) as [Hgc Hcc Hlc].
  { intros x Hx. rewrite Hcb', Hca'. by apply Hd. }
  constructor; [done|intros x; by rewrite Hcc, Hcb', Hca'|].
  intros t g Hk. by rewrite (Hlc t g Hk), (Hlb t g Hk), (Hla t g Hk).
Qed.

End resources.

(** ** Allocation *)

(** The addresses that the coming imports bring. *)
Definition offered (l : list (option (Z * Z * Z))) (x : Z) : Prop :=
  exists i b n m, l !! i = Some (Some (b, n, m)) /\ b <= x < b + n.

(** The range from [b] of size [n] is in no allocation. *)
Definition apart (A : gmap Z Z) (b n : Z) : Prop :=
  forall k j x, A !! k = Some j -> b <= x < b + n -> ~ k <= x < k + j.

Section alloc.
Context {H : Type} `{SegmentMap H} (ui32Flags : Z -> Z) {mem : bool} {top : Z}.
Implicit Types (K : kept (H := H)) (s : RA_ARENA H) (V : gmap Z seg) (A : gmap Z Z).

(** The arena may have taken an import, and covers nothing else new. *)
Definition grown K V K' V' : Prop :=
  k_quantum K' = k_quantum K /\
  (forall x, offered (k_imports K') x -> offered (k_imports K) x) /\
  (forall x, covers V' x -> covers V x \/ offered (k_imports K) x).

Lemma grown_same K V K' V' :
  kept_same K K' -> (forall x, covers V' x -> covers V x) -> grown K V K' V'.
Proof. intros (E1 & _ & _ & E2) Hc. unfold grown. rewrite E1, E2. auto. Qed.

Lemma grown_trans K V K1 V1 K2 V2 : grown K V K1 V1 -> grown K1 V1 K2 V2 -> grown K V K2 V2.
Proof. intros (E1 & O1 & C1) (E2 & O2 & C2). split_and!; [congruence|auto|]. intros x Hx. destruct (C2 x Hx); auto. Qed.

Definition alloc_result K V A uSize al off (r : option (Z * Z)) s' : Prop :=
  exists K' V', grown K V K' V' /\
  match r with
  | Some (b, _) => arena_at (mem := mem) (top := top) K' V' (<[b := uSize]> A) s' /\
      A !! b = None /\ aligned_at al off b /\ (forall x, b <= x < b + uSize -> covers V' x)
  | None => arena_at (mem := mem) (top := top) K' V' A s'
  end.

(** An allocation covers its range. *)
Lemma alloc_covers K V A s b n :
  arena_at (mem := mem) (top := top) K V A s -> A !! b = Some n -> forall x, b <= x < b + n -> covers V x.
Proof.
  intros Ha Hb x Hx. apply (hash_ok_lookup _ _ _ _ _ (aa_hash _ _ _ _ Ha)) in Hb as (t & g & Ht & Hk & Hb & Hn).
  exists t, g. split; [done|]. apply occupies_iff; [congruence|lia].
Qed.

(** Allocations are apart. *)
Lemma allocs_apart K V A s b n k j x :
  arena_at (mem := mem) (top := top) K V A s -> A !! b = Some n -> A !! k = Some j -> b <> k ->
  b <= x < b + n -> ~ k <= x < k + j.
Proof.
  intros Ha Hb Hk Hne Hx Hx'. pose proof (aa_hash _ _ _ _ Ha) as Hh.
  apply (hash_ok_lookup _ _ _ _ _ Hh) in Hb as (t & g & Ht & Hkt & Hbt & Hnt).
  apply (hash_ok_lookup _ _ _ _ _ Hh) in Hk as (u & h & Hu & Hku & Hbu & Hnu).
  assert (t = u) as ->; [|congruence].
  apply (geom_disjoint _ _ (aa_geom _ _ _ _ Ha) t u g h x); [done|done|..];
    (apply occupies_iff; [congruence|lia]).
Qed.

Lemma runs_attempt_result K V A s uSize uFlags al off :
  arena_at (mem := mem) (top := top) K V A s -> request_ok top uSize al off ->
  Z.of_nat (size A) + 1 < COUNT_LIMIT ->
  runs (_AttemptAllocAligned ui32Flags uSize uFlags al off) s (fun r s' =>
    alloc_result K V A uSize al off r s' /\
    (r = None -> forall x, mem = false \/ (s' = s /\ forall p g, V !! p = Some g -> s_kind g = btt_free ->
       flags_ok ui32Flags uFlags g = true -> s_base g <= x -> aligned_at al off x ->
       s_base g + s_size g < x + uSize)) /\
    forall b m, r = Some (b, m) -> exists K' V', kept_same K K' /\ k_events K' = k_events K /\
       (forall x, covers V' x <-> covers V x) /\ arena_at (mem := mem) (top := top) K' V' (<[b := uSize]> A) s').
Proof.
  intros Ha Hreq Hsz. pose proof (aa_geom _ _ _ _ Ha) as Hg.
  apply (runs_attempt ui32Flags K V A s uSize uFlags al off _ Ha Hreq Hsz).
  - intros p g r s' Hp Hk Hfit (K' & V' & HK & Hr).
    assert (in_range top g) as Hrg by (intros Hns; by apply (geom_range _ _ Hg p)).
    destruct (fits_spec ui32Flags uSize uFlags al off g Hreq Hrg ltac:(congruence)) as ([Hb Hal] & Hiff & _).
    apply Hiff in Hfit as [_ Hend]. destruct Hreq as ([? ?] & _). split_and!.
    + exists K', V'. destruct r as [[b m]|].
      * destruct Hr as (-> & -> & Ha' & Hc & _). split; [by apply grown_same; [|intros x; rewrite Hc]|].
        split_and!; [done| |done|].
        -- eapply (base_fresh _ V A p g); [apply Ha|done|done|done|lia].
        -- eapply alloc_covers; [exact Ha'|apply lookup_insert_eq].
      * destruct Hr as (_ & Ha' & Hc). split; [by apply grown_same|done].
    + intros ->. left. by destruct Hr.
    + intros b m ->. destruct Hr as (-> & _ & Ha' & Hc & Hev). by exists K', V'.
  - intros Hno. split_and!; [|intros _ x; right; split; [done|]|done].
    + exists K, V. split; [by apply grown_same|done].
    + intros p g Hp Hk Hfl Hx Hax. specialize (Hno p g Hp Hk).
      assert (in_range top g) as Hrg by (intros Hns; by apply (geom_range _ _ Hg p)).
      destruct (fits_spec ui32Flags uSize uFlags al off g Hreq Hrg ltac:(congruence)) as (_ & Hiff & Hleast).
      specialize (Hleast x Hx Hax).
      destruct (Z.lt_ge_cases (s_base g + s_size g) (x + uSize)) as [|Hge]; [done|exfalso].
      rewrite (proj2 Hiff) in Hno; [done|]. split; [done|lia].
Qed.

End alloc.
