(* ===== verification/PvrRATheorems.v ===== *)
(** * The resource allocator: correctness of an arena

    [RA_Create], [RA_Add], [RA_Alloc], [RA_Free] and [RA_Delete] against the
    allocations of an arena. *)

From stdpp Require Import base list numbers option gmap sets.
From Stdlib Require Import ZArith Lia.
From S2P Require Import Prelude PvrHash PvrHashFacts PvrRA PvrRALists PvrRAArena PvrRAOps PvrRAAlloc PvrRASpec.

Local Open Scope Z_scope.

Section calls.
Context {H : Type} `{SegmentMap H} {mem : bool} {top : Z}.
Implicit Types (K : kept (H := H)) (s : RA_ARENA H) (V : gmap Z seg) (A : gmap Z Z).

Abbreviation arena_is := (arena_at (mem := mem) (top := top)).

(** ** The import path *)

(** The range that the import function provides when it is called in [s]: it
    lies below [top], and the arena holds none of its addresses at that time. *)
Definition offer_fresh s : Prop := forall b n m l,
  import_alloc s = true -> imports s = Some (b, n, m) :: l ->
  in_range top (mk_seg btt_free b n m) /\ forall x, b <= x < b + n -> ~ covers (view <$> heap s) x.

Lemma runs_arena_stats K V A s f : arena_is K V A s -> runs (stats f) s (fun _ => arena_is K V A).
Proof.
  intros [Hw Hg Hh Hq]. eapply runs_mono; [apply (runs_stats _ _ _ _ f Hw)|]. by intros [] s' Hw'.
Qed.

Lemma arena_event K V A s ev :
  arena_is K V A s ->
  runs (update (fun s => set_events (ev :: events s) s)) s (fun _ => arena_is (with_events [ev] K) V A).
Proof.
  intros [Hw Hg Hh Hq]. eapply runs_mono; [apply (runs_event K V ∅ ∅ s ev Hw)|]. by intros [] s' Hw'.
Qed.

(** The arena after a call of the import function: the list of the coming
    imports is one shorter, and the import is fresh. *)
Lemma runs_pImportAlloc K V A s uSize uFlags :
  arena_is K V A s -> offer_fresh s ->
  runs (pImportAlloc uSize uFlags) s (fun r s' => exists K',
    arena_is K' V A s' /\ k_quantum K' = k_quantum K /\
    (forall x, offered (k_imports K') x -> offered (k_imports K) x) /\
    forall b n m, r = Some (b, n, m) -> k_imports K = Some (b, n, m) :: k_imports K' /\
      in_range top (mk_seg btt_free b n 0) /\ forall x, b <= x < b + n -> ~ covers V x).
Proof.
  intros [Hw Hg Hh Hq] Hoff. pose proof (w_kept _ _ _ _ _ _ Hw) as EK. unfold runs, pImportAlloc.
  pose proof (w_view _ _ _ _ _ _ Hw) as EV. unfold offer_fresh in Hoff. rewrite EV in Hoff.
  assert (import_alloc s = k_import K) as E1 by (by rewrite <- EK).
  assert (imports s = k_imports K) as E2 by (by rewrite <- EK).
  destruct (import_alloc s) eqn:Ea; [|by exists None, s; split; [done|]; exists K].
  cbn [imports set_events]. destruct (imports s) as [|r l] eqn:El.
  - eexists None, _. split; [done|]. eexists. split.
    { constructor; [eapply wfs_kept; [exact Hw|..]; try done; apply Hw|..]; cbn; rewrite <- ?EK in *; done. }
    cbn. rewrite El, <- EK. split_and!; [done| |done]. intros x (i & ? & ? & ? & [=] & _).
  - eexists r, _. split; [done|]. eexists. split.
    { constructor; [eapply wfs_kept; [exact Hw|..]; try done; apply Hw|..]; cbn; rewrite <- ?EK in *; done. }
    cbn. split; [by rewrite <- EK|]. rewrite <- E2. split.
    + intros x (i & b & n & m & Hl & Hx). by exists (S i), b, n, m.
    + intros b n m ->. split; [done|]. by apply (Hoff b n m l).
Qed.

(** The arena takes in the import. *)
Lemma runs_import K V A s b n :
  arena_is K V A s -> in_range top (mk_seg btt_free b n 0) -> (forall x, b <= x < b + n -> ~ covers V x) ->
  runs (_InsertResourceSpan b n) s (fun p s' =>
    (p = 0 /\ mem = false /\ arena_is K V A s') \/
    (p <> 0 /\ exists V', arena_is K V' A s' /\ V' !! p = Some (mk_seg btt_free b n 0) /\
       forall x, covers V' x <-> covers V x \/ b <= x < b + n)).
Proof.
  intros [Hw Hg Hh Hq] Hr Hd.
  eapply runs_mono; [apply (runs_InsertResourceSpan (top := top) ltac:(lia) K V s b n Hw Hg Hr Hd)|].
  intros p s' [(-> & Hm & Hw')|(Hp & V' & Hw' & HV' & [Hg' Hc' Hl'])]; [left|right].
  - by split_and!.
  - split; [done|]. exists V'. split_and!; [|done|done]. constructor; [done..| |done]. by eapply hash_ok_same.
Qed.

(** The mapping of a free segment does not matter to the arena. *)
Lemma runs_set_mapping K V A s p g m :
  arena_is K V A s -> V !! p = Some g -> s_kind g = btt_free ->
  runs (store p (set_psMapping m)) s (fun _ s' => exists V', arena_is K V' A s' /\
    forall x, covers V' x <-> covers V x).
Proof.
  intros [Hw Hg Hh Hq] Hp Hk.
  eapply runs_mono; [apply (runs_store _ _ _ _ p g _ (fun v => mk_seg (s_kind v) (s_base v) (s_size v) m) Hw Hp);
    [done|by right]|].
  intros [] s' Hw'. set (g' := mk_seg _ _ _ m) in *.
  destruct (geom_replace top V p g g' Hg Hp) as [Hg' Hc'].
  { intros Hns. exact (geom_range _ _ Hg p g Hp Hns). } { done. }
  exists (<[p := g']> V). split; [|done]. constructor; try done.
  - eapply hash_ok_same; [|exact Hh]. intros t h Hkh. rewrite lookup_insert_Some.
    split; [intros [[<- <-]|[_ ?]]; [cbn in Hkh; congruence|done]|].
    intros Ht. right. split; [congruence|done].
Qed.

(** ** RA_Alloc *)

(** Whenever the import function is called for the request, that is when no
    free segment could be used, what it provides is fresh. *)
Definition imports_fresh (ui32Flags : Z -> Z) uSize uFlags al off s : Prop := forall s1,
  _AttemptAllocAligned ui32Flags uSize uFlags al off s = Ok (None, s1) -> offer_fresh s1.

Lemma runs_RA_Alloc (ui32Flags : Z -> Z) K V A s uSize uFlags al off :
  arena_is K V A s -> request_ok top uSize al off -> Z.of_nat (size A) + 1 < COUNT_LIMIT ->
  imports_fresh ui32Flags uSize uFlags al off s ->
  runs (RA_Alloc ui32Flags uSize uFlags al off) s (alloc_result (mem := mem) (top := top) K V A uSize al off).
Proof.
  intros Ha Hreq Hsz Hfresh. unfold RA_Alloc.
  destruct (runs_attempt_result ui32Flags K V A s uSize uFlags al off Ha Hreq Hsz) as (r & s1 & E1 & Hr & _ & _).
  specialize (Hfresh s1). apply runs_bind. exists r, s1. split; [exact E1|]. rewrite E1 in Hfresh. clear E1.
  eapply (runs_seq _ _ _ (alloc_result (mem := mem) (top := top) K V A uSize al off)).
  2: { intros r2 s2 (K2 & V2 & HK2 & Hr2). eapply (runs_seq _ _ _ (fun _ => alloc_result K V A uSize al off r2)).
       - destruct r2 as [[b m]|].
         + destruct Hr2 as (Ha2 & Hrest). eapply runs_mono; [by apply (runs_arena_stats _ _ _ _ _ Ha2)|].
           intros [] s3 Ha3. exists K2, V2. done.
         + eapply runs_mono; [by apply (runs_arena_stats _ _ _ _ _ Hr2)|]. intros [] s3 Ha3. by exists K2, V2.
       - intros [] s3 Hr3. by apply runs_ret. }
  destruct r as [[b m]|]; [by apply runs_ret|]. destruct Hr as (K1 & V1 & HK1 & Ha1).
  specialize (Hfresh eq_refl). apply runs_bind, runs_arena. cbv zeta.
  eapply runs_seq; [apply (runs_pImportAlloc K1 V1 A s1 _ uFlags Ha1 Hfresh)|].
  intros r s2 (K2 & Ha2 & Eq & Ho & Himp).
  assert (grown K V K2 V1) as HK2 by (eapply grown_trans; [exact HK1|]; split_and!; [done|done|auto]).
  destruct r as [[[b n] m]|]; [|apply runs_ret; by exists K2, V1].
  destruct (Himp b n m eq_refl) as (EI & Hrange & Hd).
  eapply runs_seq; [apply (runs_import K2 V1 A s2 b n Ha2 Hrange Hd)|].
  intros p s3 [(-> & Hm & Ha3)|(Hp & V3 & Ha3 & HV3 & Hc3)].
  - eapply runs_seq; [by apply (arena_event _ _ _ _ _ Ha3)|]. intros [] s4 Ha4. apply runs_ret.
    by exists (with_events [EvImportFree b m] K2), V1.
  - rewrite (proj2 (Z.eqb_neq _ _) Hp).
    eapply runs_seq; [by apply (runs_set_mapping _ _ _ _ _ _ m Ha3 HV3)|]. clear Ha3. intros [] s4 (V4 & Ha4 & Hc4).
    do 4 (eapply runs_seq; [by apply (runs_arena_stats _ _ _ _ _ Ha4)|]; clear Ha4; intros [] ? Ha4).
    eapply runs_mono; [apply (runs_attempt_result ui32Flags K2 V4 A _ uSize uFlags al off Ha4 Hreq Hsz)|].
    intros r s9 ((K5 & V5 & HK5 & Hr5) & _ & _). exists K5, V5. split; [|done].
    eapply grown_trans; [exact HK1|]. eapply grown_trans; [|exact HK5]. split_and!; [done|done|].
    intros x. rewrite Hc4, Hc3. intros [?|?]; [by left|]. right. rewrite EI. by exists 0%nat, b, n, m.
Qed.

(** ** RA_Free *)

Lemma runs_RA_Free K V A s base bf :
  arena_is K V A s -> Z.of_nat (size A) < COUNT_LIMIT ->
  runs (RA_Free base bf) s (fun _ s' => exists K' V' evs,
    arena_is K' V' (delete base A) s' /\ kept_same K K' /\ k_events K' = evs ++ k_events K /\
    (A !! base = None -> evs = [] /\ V' = V) /\
    (forall n, A !! base = Some n -> exists p g, V !! p = Some g /\ s_kind g = btt_live /\ s_base g = base /\
       s_size g = n /\ freed top (k_quantum K) V p g V' evs)).
Proof.
  intros [Hw Hg Hh Hq] Hsz. unfold RA_Free.
  eapply runs_seq; [apply (runs_next_alloc _ _ _ _ Hw)|]. clear Hw. intros at_ s1 [Hw _].
  apply runs_bind, runs_arena.
  assert (pSegmentHash s1 = k_hash K) as -> by (by rewrite <- (w_kept _ _ _ _ _ _ Hw)).
  destruct (hash_ok_remove at_ (k_hash K) V A base Hh Hsz) as (t & h' & E & Hrem).
  eapply runs_bind, runs_lift; [exact E|]. cbv beta iota.
  eapply runs_seq; [by apply (runs_set_hash _ _ _ _ _ h' Hw)|]. clear Hw. intros [] s2 Hw.
  destruct (A !! base) as [n|] eqn:EA.
  2: { destruct Hrem as [-> Hh']. apply runs_ret. exists (with_hash h' K), V, [].
       rewrite delete_id by done. split; [by constructor|]. by split_and!. }
  destruct Hrem as [(g & Hp & Hk & Hb & Hn) Hdel].
  assert (t <> 0) as Ht0 by (eapply w_nonzero; [exact Hw|by rewrite Hp|set_solver]).
  rewrite (proj2 (Z.eqb_neq _ _) Ht0). st_stats Hw.
  eapply runs_mono; [apply (runs_FreeBT (top := top) _ V _ t g bf Hw Hp Hk Hg); by try apply Hq|].
  intros [] s4 (V' & evs & Hw' & Hf). exists (with_events evs (with_hash h' K)), V', evs. split.
  - constructor; [done|apply Hf|apply Hdel, (fr_live _ _ _ _ _ _ _ Hf)|done].
  - split_and!; [done|done|done|]. intros j [= <-]. by exists t, g.
Qed.

(** ** RA_Add and RA_Create *)

Lemma runs_RA_Add K V A s base uSize :
  arena_is K V A s -> let n := round_up uSize (k_quantum K) in
  in_range top (mk_seg btt_free base n 0) ->
  (forall x, base <= x < base + n -> ~ covers V x) ->
  runs (RA_Add base uSize) s (fun ok s' => (ok = false /\ mem = false /\ arena_is K V A s') \/
    (ok = true /\ exists V', arena_is K V' A s' /\
       forall x, covers V' x <-> covers V x \/ base <= x < base + n)).
Proof.
  intros [Hw Hg Hh Hq] n Hr Hd. unfold RA_Add. apply runs_bind, runs_arena.
  assert (uQuantum s = k_quantum K) as -> by (by rewrite <- (w_kept _ _ _ _ _ _ Hw)). fold n.
  eapply runs_seq; [apply (runs_InsertResource (top := top) ltac:(lia) K V s base n Hw Hg Hr)|].
  { done. }
  intros p s' [(-> & Hm & Hw')|(Hp & V' & Hw' & HV' & [Hg' Hc' Hl'])]; apply runs_ret; [left|right].
  - by split_and!.
  - rewrite (proj2 (Z.eqb_neq _ _) Hp). split; [done|]. exists V'. split; [|done].
    constructor; [done|done|by eapply hash_ok_same|done].
Qed.

(** The arena that [RA_Create] starts from. *)
Lemma initial_arena q ia bs h st al im :
  sm_rep h ∅ -> 0 < q -> top + q <= 2 ^ 32 -> (mem = true -> al = []) ->
  let s := mk_ra q ia bs (replicate (Z.to_nat FREE_TABLE_LIMIT) 0) 0 0 h st ∅ al im [] in
  arena_is (kept_of s) ∅ ∅ s.
Proof.
  intros Hh Hq1 Hq2 Ha s. constructor; [|by constructor| |done].
  - constructor; [done|done|done| |].
    + exists []. split; [by constructor; [constructor|..]|]. intros p. rewrite lookup_empty, elem_of_nil.
      split; [done|by intros [[] _]].
    + exists (replicate (Z.to_nat FREE_TABLE_LIMIT) []).
      assert (concat (replicate (Z.to_nat FREE_TABLE_LIMIT) ([] : list Z)) = []) as E by done. split.
      * constructor; [done|done|rewrite E; constructor|..].
        -- intros l Hl. apply elem_of_replicate in Hl as [-> _]. done.
        -- intros i l p b Hl Hp. apply lookup_replicate in Hl as [-> _]. by apply elem_of_nil in Hp.
      * intros p. rewrite E, elem_of_nil. split; [done|]. intros [(g & Hg & _) _]. by rewrite lookup_empty in Hg.
  - exists ∅. split; [done|]. split; [|by rewrite fmap_empty]. intros k t. rewrite lookup_empty.
    split; [done|]. intros (g & Hg & _). by rewrite lookup_empty in Hg.
Qed.

Lemma RA_Create_ok h base uSize map q ia bs al im :
  sm_rep h ∅ -> 0 < q -> top + q <= 2 ^ 32 -> (mem = true -> al = []) ->
  (0 < uSize -> in_range top (mk_seg btt_free base (round_up uSize q) 0)) ->
  exists o, RA_Create true (Some h) base uSize map q ia bs ∅ al im = Ok o /\
    match o with
    | None => mem = false
    | Some s => exists K V, arena_is K V ∅ s /\ k_quantum K = q /\ k_imports K = im /\
        forall x, covers V x <-> 0 < uSize /\ base <= x < base + round_up uSize q
    end.
Proof.
  intros Hh Hq1 Hq2 Ha Hres. unfold RA_Create. cbn [negb]. set (s := mk_ra _ _ _ _ _ _ _ _ _ _ _ _).
  pose proof (initial_arena q ia bs h (mk_stats 0 0 0 0 0 0 0 0 0 0) al im Hh Hq1 Hq2 Ha) as Har.
  change (arena_is (kept_of s) ∅ ∅ s) in Har. assert (forall x, ~ covers ∅ x) as Hno.
  { intros x (p & g & Hp & _). by rewrite lookup_empty in Hp. }
  destruct (Z.ltb_spec 0 uSize) as [Hu|Hu].
  2: { exists (Some s). split; [done|]. exists (kept_of s), ∅. split_and!; try done.
       intros x. specialize (Hno x). split; [done|lia]. }
  pose proof (Hres Hu) as Hr. destruct Har as [Hw Hg Hhash Hq].
  destruct (runs_InsertResource (top := top) ltac:(lia) _ _ _ base (round_up uSize q) Hw Hg Hr)
    as (p & s1 & E1 & Hp); [intros x _; apply Hno|].
  unfold mbind at 1, outcome_bind at 1. rewrite E1.
  destruct Hp as [(-> & Hm & _)|(Hp & V' & Hw' & HV' & [Hg' Hc' Hl'])]; [by exists None|].
  rewrite (proj2 (Z.eqb_neq _ _) Hp).
  assert (arena_is (kept_of s) V' ∅ s1) as Ha1.
  { constructor; [done|done|by eapply hash_ok_same|done]. }
  destruct (runs_set_mapping _ _ _ _ _ _ map Ha1 HV' eq_refl) as ([] & s2 & E2 & V2 & Ha2 & Hc2).
  unfold mbind, outcome_bind. rewrite E2. exists (Some s2). split; [done|]. exists (kept_of s), V2.
  split_and!; try done. intros x. rewrite Hc2, Hc'. specialize (Hno x). tauto.
Qed.

End calls.

(** ** Sequences of calls *)

Inductive call :=
| CallAlloc (uSize uFlags uAlignment uAlignmentOffset : Z)
| CallFree (base : Z) (bFreeBackingStore : bool).

Definition call_ok (top : Z) (c : call) : Prop :=
  match c with
  | CallAlloc uSize _ uAlignment uAlignmentOffset => request_ok top uSize uAlignment uAlignmentOffset
  | CallFree _ _ => True
  end.

(** What a call promises: [A] are the allocations before it, [U] the addresses
    that the arena was given or may import. *)
Inductive spec_call (U : Z -> Prop) (A : gmap Z Z) : call -> option Z -> gmap Z Z -> Prop :=
| spec_alloc uSize uFlags al off base :
    A !! base = None -> apart A base uSize -> aligned_at al off base ->
    (forall x, base <= x < base + uSize -> U x) ->
    spec_call U A (CallAlloc uSize uFlags al off) (Some base) (<[base := uSize]> A)
| spec_alloc_fails uSize uFlags al off : spec_call U A (CallAlloc uSize uFlags al off) None A
| spec_free base bf : spec_call U A (CallFree base bf) None (delete base A).

Inductive spec_calls (U : Z -> Prop) : gmap Z Z -> list call -> list (option Z) -> gmap Z Z -> Prop :=
| spec_nil A : spec_calls U A [] [] A
| spec_cons A A1 A2 c r cs rs :
    spec_call U A c r A1 -> spec_calls U A1 cs rs A2 -> spec_calls U A (c :: cs) (r :: rs) A2.

Section spec.
Context {H : Type} `{SegmentMap H} (ui32Flags : Z -> Z).
Implicit Types (K : kept (H := H)) (s : RA_ARENA H) (V : gmap Z seg) (A : gmap Z Z).

Definition run_call (c : call) : R (option Z) :=
  match c with
  | CallAlloc uSize uFlags al off => r ← RA_Alloc ui32Flags uSize uFlags al off; mret (fst <$> r)
  | CallFree base bf => RA_Free base bf;; mret None
  end.

Fixpoint run_calls (cs : list call) : R (list (option Z)) :=
  match cs with
  | [] => mret []
  | c :: cs => r ← run_call c; rs ← run_calls cs; mret (r :: rs)
  end.

(** The addresses of the segments of an arena. *)
Definition owns s (x : Z) : Prop := covers (view <$> heap s) x.

(** An arena in order, with the allocations [A]. *)
Definition in_order (mem : bool) (top : Z) A s : Prop :=
  arena_at (mem := mem) (top := top) (kept_of s) (view <$> heap s) A s.

Lemma in_order_intro mem top K V A s :
  arena_at (mem := mem) (top := top) K V A s ->
  in_order mem top A s /\ K = kept_of s /\ V = view <$> heap s.
Proof.
  intros Ha. pose proof (aa_wfs _ _ _ _ Ha) as Hw. unfold in_order.
  rewrite (w_kept _ _ _ _ _ _ Hw), (w_view _ _ _ _ _ _ Hw). done.
Qed.

(** Whenever the import function is called for [c], what it provides is fresh. *)
Definition call_imports_fresh top (c : call) s : Prop :=
  match c with
  | CallAlloc uSize uFlags al off => imports_fresh (top := top) ui32Flags uSize uFlags al off s
  | CallFree _ _ => True
  end.

(** And so for each call of a run, in the state that it is made in. *)
Fixpoint run_imports_fresh top (cs : list call) s : Prop :=
  match cs with
  | [] => True
  | c :: cs => call_imports_fresh top c s /\
      match run_call c s with Ok (_, s') => run_imports_fresh top cs s' | Fault _ => True end
  end.

Lemma runs_call mem top (U : Z -> Prop) K V A s c :
  arena_at (mem := mem) (top := top) K V A s ->
  (forall x, covers V x \/ offered (k_imports K) x -> U x) ->
  call_ok top c -> call_imports_fresh top c s -> Z.of_nat (size A) + 1 < COUNT_LIMIT ->
  runs (run_call c) s (fun r s' => exists K' V' A',
    arena_at (mem := mem) (top := top) K' V' A' s' /\ spec_call U A c r A' /\
    (forall x, covers V' x \/ offered (k_imports K') x -> U x) /\ (size A' <= S (size A))%nat).
Proof.
  intros Ha HU Hc Hfr Hsz. destruct c as [uSize uFlags al off|base bf]; cbn [run_call].
  - eapply runs_seq; [apply (runs_RA_Alloc ui32Flags K V A s uSize uFlags al off Ha Hc Hsz Hfr)|].
    intros r s1 (K' & V' & (_ & HO & HC) & Hr). apply runs_ret. exists K', V'.
    assert (forall x, covers V' x \/ offered (k_imports K') x -> U x) as HU'.
    { intros x [Hx|Hx]; apply HU; [by apply HC|right; by apply HO]. }
    destruct r as [[b m]|]; cbn.
    + destruct Hr as (Ha' & Hfresh & Hal & Hcov). exists (<[b := uSize]> A). split_and!; [done| |done|].
      * constructor; [done| |done|]; [|intros x Hx; apply HU'; left; by apply Hcov].
        intros k j x Hk Hx. assert (b <> k) by congruence.
        apply (allocs_apart _ _ _ _ b uSize k j x Ha'); [apply lookup_insert_eq| |done|done].
        by rewrite lookup_insert_ne.
      * rewrite map_size_insert, Hfresh. done.
    + exists A. split_and!; [done|constructor|done|lia].
  - eapply runs_seq; [apply (runs_RA_Free K V A s base bf Ha); lia|].
    intros [] s1 (K' & V' & evs & Ha' & (_ & _ & _ & EI) & _ & Hnone & Hsome). apply runs_ret.
    exists K', V', (delete base A). split_and!; [done|constructor| |].
    + rewrite EI. intros x [Hx|Hx]; apply HU; [left|by right].
      destruct (A !! base) as [n|] eqn:EA; [|by destruct (Hnone eq_refl) as [_ <-]].
      destruct (Hsome n eq_refl) as (p & g & _ & _ & _ & _ & Hf).
      destruct (fr_covers _ _ _ _ _ _ _ Hf) as [[HC _]|(b & j & _ & _ & _ & HC)]; apply HC in Hx; tauto.
    + etrans; [apply map_subseteq_size, (delete_subseteq A base)|lia].
Qed.

Lemma runs_calls mem top (U : Z -> Prop) cs K V A s :
  arena_at (mem := mem) (top := top) K V A s ->
  (forall x, covers V x \/ offered (k_imports K) x -> U x) ->
  Forall (call_ok top) cs -> run_imports_fresh top cs s -> Z.of_nat (size A) + Z.of_nat (length cs) < COUNT_LIMIT ->
  runs (run_calls cs) s (fun rs s' => exists A',
    spec_calls U A cs rs A' /\ in_order mem top A' s' /\ forall x, owns s' x -> U x).
Proof.
  intros Ha HU Hok. revert K V A s Ha HU. induction Hok as [|c cs Hc Hcs IH]; intros K V A s Ha HU Hfr Hsz.
  - apply runs_ret. exists A. destruct (in_order_intro _ _ _ _ _ _ Ha) as (Hk & -> & ->).
    split_and!; [constructor|done|]. intros x Hx. apply HU. by left.
  - cbn [run_calls run_imports_fresh length] in *. destruct Hfr as [Hf1 Hf2].
    destruct (runs_call mem top U K V A s c Ha HU Hc Hf1 ltac:(lia)) as (r & s1 & E1 & K1 & V1 & A1 & Ha1 & Hs1 & HU1 & Hsz1).
    rewrite E1 in Hf2. apply runs_bind. exists r, s1. split; [done|].
    eapply runs_seq; [apply (IH K1 V1 A1 s1 Ha1 HU1 Hf2); lia|]. intros rs s2 (A2 & Hs2 & Hok2).
    apply runs_ret. exists A2. split; [|done]. by econstructor.
Qed.

End spec.

(** ** Theorems *)

(** A hash table as [RA_Create] makes it. *)
Definition new_hash : HASH_TABLE :=
  mk_hash (replicate 64 []) 64 0 64 WORD HASH_Func_Default HASH_Key_Comp_Default.

Lemma new_hash_rep : sm_rep new_hash ∅.
Proof. by apply (create_rep MINIMUM_HASH_SIZE). Qed.

(** An arena with one segment of 4096 bytes at 0x10000. *)
Definition single (k : bt_type) (h : HASH_TABLE) : RA_ARENA HASH_TABLE :=
  mk_ra 0x1000 false true (if decide (k = btt_free) then <[12%nat := 1]> (replicate 32 0) else replicate 32 0)
    1 1 h (mk_stats 0 0 0 0 0 0 0 0 0 0) {[1 := mk_bt k 0x10000 0x1000 0 0 0 0 0]} [] [] [].

Lemma single_free k h :
  free_lists (single k h)
    (if decide (k = btt_free) then <[12%nat := [1]]> (replicate 32 []) else replicate 32 []).
Proof.
  assert (forall i (l : list Z), (if decide (k = btt_free) then <[12%nat := [1]]> (replicate 32 [])
    else replicate 32 []) !! i = Some l -> l = [] \/ (i = 12%nat /\ l = [1] /\ k = btt_free)) as Hl.
  { intros i l. case_decide; [|intros [-> _]%lookup_replicate; by left].
    rewrite list_lookup_insert_Some. intros [(-> & -> & _)|[_ [-> _]%lookup_replicate]]; [by right|by left]. }
  constructor.
  - by destruct k.
  - by destruct k.
  - destruct k; vm_compute; repeat constructor; set_solver.
  - intros l [i Hi]%list_elem_of_lookup. apply Hl in Hi as [->|(_ & -> & _)]; [done|]. vm_compute. by repeat split.
  - intros i l p b Hi Hp Hb. apply Hl in Hi as [->|(-> & -> & ->)]; [by apply elem_of_nil in Hp|].
    apply list_elem_of_singleton in Hp as ->. vm_compute in Hb. by injection Hb as <-.
Qed.

Lemma single_ok k h m A :
  k <> btt_span -> sm_rep h m -> live_in {[1 := mk_seg k 0x10000 0x1000 0]} m ->
  A = size_at {[1 := mk_seg k 0x10000 0x1000 0]} <$> m -> in_order true 0x100000 A (single k h).
Proof.
  intros Hns Hh Hm ->. assert (view <$> heap (single k h) = {[1 := mk_seg k 0x10000 0x1000 0]}) as EV
    by (cbn; by rewrite map_fmap_singleton).
  unfold in_order. rewrite EV. constructor; [|constructor|by exists m|cbn; lia].
  - constructor; [done|done|done| |].
    + exists [1]. split; [constructor; [apply NoDup_singleton|vm_compute; by repeat split|done|done]|].
      intros p. rewrite list_elem_of_singleton, lookup_singleton_is_Some. set_solver.
    + exists (if decide (k = btt_free) then <[12%nat := [1]]> (replicate 32 []) else replicate 32 []).
      split; [apply single_free|]. intros p. trans (p = 1 /\ k = btt_free).
      * destruct k; [done| |].
        -- change (p ∈ [1] <-> p = 1 /\ btt_free = btt_free). rewrite list_elem_of_singleton. tauto.
        -- change (p ∈ [] <-> p = 1 /\ btt_live = btt_free). rewrite elem_of_nil. naive_solver.
      * unfold is_free. split.
        -- intros [-> Hk]. split; [eexists; split; [apply lookup_singleton_eq|done]|set_solver].
        -- intros [(g & [<- <-]%lookup_singleton_Some & Hk) _]. done.
  - intros p g. rewrite lookup_singleton_Some. intros [<- <-]. cbn. lia.
  - intros p q g g' x. rewrite !lookup_singleton_Some. intros [<- <-] [<- <-]. done.
Qed.

Lemma single_free_ok : in_order true 0x100000 ∅ (single btt_free new_hash).
Proof.
  apply (single_ok _ _ ∅); [done|exact new_hash_rep| |by rewrite fmap_empty]. intros k t. rewrite lookup_empty.
  split; [done|]. intros (g & [_ <-]%lookup_singleton_Some & ? & _). done.
Qed.


(** C1: an arena made by [RA_Create], with a resource of its own, an import
    function or both, behaves as its specification under any sequence of fewer
    than 2^30 allocations and frees, for every outcome of the memory allocations
    and every import function that provides, each time it is called, a range
    below [top] of which the arena holds nothing at that time (it may provide
    again what was handed back to it): each call returns without following a
    stale pointer; an allocation that succeeds gives a range with the alignment
    asked for, inside what the arena was given or imports, that shares no
    address with any allocation not yet freed; a failed one changes nothing; and
    the structure of the arena stays whole. Addresses stay below [top], a
    quantum from the end of the 32-bit space, and a request asks for 1 byte or
    more and so little that [top] plus its size and twice its alignment do not
    pass 2^32, so that no rounding of ra.c wraps around. *)
Theorem RA_refines_spec {H} `{SegmentMap H} (ui32Flags : Z -> Z) h top base uSize map q ia bs al im :
  sm_rep h ∅ -> 0 < q -> top + q <= 2 ^ 32 ->
  (0 < uSize -> in_range top (mk_seg btt_free base (round_up uSize q) 0)) ->
  exists o, RA_Create true (Some h) base uSize map q ia bs ∅ al im = Ok o /\
  match o with
  | None => al <> []
  | Some s => forall cs, Forall (call_ok top) cs -> run_imports_fresh ui32Flags top cs s ->
      Z.of_nat (length cs) < COUNT_LIMIT ->
      let U x := (0 < uSize /\ base <= x < base + round_up uSize q) \/ offered im x in
      exists rs s' A, run_calls ui32Flags cs s = Ok (rs, s') /\ spec_calls U ∅ cs rs A /\
        in_order (bool_decide (al = [])) top A s' /\ forall x, owns s' x -> U x
  end.
Proof.
  intros Hh Hq1 Hq2 Hres.
  destruct (RA_Create_ok (mem := bool_decide (al = [])) h base uSize map q ia bs al im Hh Hq1 Hq2)
    as (o & E & Ho); [apply bool_decide_eq_true_1|done|].
  exists o. split; [done|]. destruct o as [s|]; [|by apply bool_decide_eq_false_1 in Ho].
  destruct Ho as (K & V & Ha & _ & EI & Hc). intros cs Hcs Hfr Hlen U.
  destruct (runs_calls ui32Flags _ top U cs K V ∅ s Ha) as (rs & s' & E' & A & Hspec); [|done|done|rewrite map_size_empty; lia|].
  - intros x. rewrite EI, Hc. done.
  - by exists rs, s', A.
Qed.

(** A decision procedure for [run_imports_fresh]. *)
Definition offer_freshb (top : Z) (s : RA_ARENA HASH_TABLE) : bool :=
  match imports s with
  | Some (b, n, _) :: _ => (0 <=? b) && (0 <? n) && (b + n <=? top) &&
      forallb (fun '(_, g) => match bt_kind g with
        | btt_span => true
        | _ => (b + n <=? bt_base g) || (bt_base g + bt_uSize g <=? b)
        end) (map_to_list (heap s))
  | _ => true
  end.

Lemma offer_freshb_ok top s : offer_freshb top s = true -> offer_fresh (top := top) s.
Proof.
  unfold offer_freshb. intros Hb b n m l _ El. rewrite El in Hb.
  apply andb_true_iff in Hb as [Hr Hall]. rewrite !andb_true_iff, !Z.leb_le, Z.ltb_lt in Hr. split; [intros _; cbn; tauto|].
  intros x Hx (p & g & Hp & Hk & Ho). rewrite lookup_fmap in Hp. destruct (heap s !! p) as [g'|] eqn:E; [|done].
  injection Hp as <-. pose proof (proj1 (forallb_forall _ _) Hall (p, g')) as Hg. cbv beta iota in Hg.
  specialize (Hg (proj1 (list_elem_of_In _ _) (proj2 (elem_of_map_to_list _ _ _) E))). cbn in Hk, Ho.
  destruct (bt_kind g'); [done|..]; apply orb_true_iff in Hg; rewrite !Z.leb_le in Hg; lia.
Qed.

Definition call_imports_freshb (ui32Flags : Z -> Z) (top : Z) (c : call) s : bool :=
  match c with
  | CallAlloc uSize uFlags al off =>
      match _AttemptAllocAligned ui32Flags uSize uFlags al off s with
      | Ok (None, s1) => offer_freshb top s1
      | _ => true
      end
  | CallFree _ _ => true
  end.

Fixpoint run_imports_freshb (ui32Flags : Z -> Z) (top : Z) (cs : list call) s : bool :=
  match cs with
  | [] => true
  | c :: cs => call_imports_freshb ui32Flags top c s &&
      match run_call ui32Flags c s with Ok (_, s') => run_imports_freshb ui32Flags top cs s' | Fault _ => true end
  end.

Lemma run_imports_freshb_ok ui32Flags top cs s :
  run_imports_freshb ui32Flags top cs s = true -> run_imports_fresh ui32Flags top cs s.
Proof.
  revert s. induction cs as [|c cs IH]; intros s; cbn [run_imports_fresh run_imports_freshb]; [done|].
  intros [H1 H2]%andb_true_iff. split.
  - destruct c as [uSize uFlags al off|]; [|done]. intros s1 E. cbn in H1. rewrite E in H1.
    by apply offer_freshb_ok.
  - destruct (run_call _ _ _) as [[r s']|]; [|done]. by apply IH.
Qed.

(** An arena whose import function provides the same range again after it was
    handed back. *)
Definition reimporter : RA_ARENA HASH_TABLE :=
  match RA_Create true (Some new_hash) 0x10000 0x3000 0 0x1000 true true ∅ []
          [Some (0x40000, 0x2000, 5); Some (0x40000, 0x2000, 5)] with
  | Ok (Some s) => s
  | _ => single btt_free new_hash
  end.

Lemma reimporter_created o :
  RA_Create true (Some new_hash) 0x10000 0x3000 0 0x1000 true true ∅ []
    [Some (0x40000, 0x2000, 5); Some (0x40000, 0x2000, 5)] = Ok o -> o = Some reimporter.
Proof.
  unfold reimporter. intros E. assert (match RA_Create true (Some new_hash) 0x10000 0x3000 0 0x1000 true true ∅ []
    [Some (0x40000, 0x2000, 5); Some (0x40000, 0x2000, 5)] with Ok (Some _) => true | _ => false end = true) as Hc
    by (vm_compute; reflexivity). rewrite E in *. by destruct o.
Qed.

Definition reimporting : list call :=
  [CallAlloc 0x1800 0 0x1000 0; CallAlloc 0x2000 7 0 0; CallFree 0x40000 true; CallAlloc 0x2000 7 0 0;
   CallFree 0x10000 true; CallAlloc 0x800 0 0x800 8].

Lemma RA_refines_spec_witness :
  let U x := (0 < 0x3000 /\ 0x10000 <= x < 0x10000 + round_up 0x3000 0x1000) \/
             offered [Some (0x40000, 0x2000, 5); Some (0x40000, 0x2000, 5)] x in
  exists rs s' A, run_calls (fun _ => 7) reimporting reimporter = Ok (rs, s') /\
    spec_calls U ∅ reimporting rs A /\
    in_order (bool_decide (([] : list bool) = [])) 0x100000 A s' /\ forall x, owns s' x -> U x.
Proof.
  destruct (RA_refines_spec (fun _ => 7) new_hash 0x100000 0x10000 0x3000 0 0x1000 true true []
    [Some (0x40000, 0x2000, 5); Some (0x40000, 0x2000, 5)]) as (o & E & Ho).
  - exact new_hash_rep.
  - lia.
  - lia.
  - intros _ _. change (round_up 0x3000 0x1000) with 0x3000. cbn. lia.
  - apply reimporter_created in E as ->. apply Ho.
    + repeat constructor; unfold request_ok; lia.
    + apply run_imports_freshb_ok. vm_compute. reflexivity.
    + cbn. unfold COUNT_LIMIT. lia.
Defined.

(** The range is provided, handed back and provided again. *)
Example reimports :
  match run_calls (fun _ => 7) reimporting reimporter with
  | Ok (rs, _) => rs = [Some 0x10000; Some 0x40000; None; Some 0x40000; None; Some 0x107f8]
  | Fault _ => False
  end.
Proof. vm_compute. reflexivity. Qed.

(** C20: while the memory for tags does not run out, an allocation fails only when
    it must: if some free segment, with fitting flags, has room for the request
    at an address with the alignment, [RA_Alloc] succeeds, without calling the
    import function and without changing what the arena covers. *)
Theorem RA_Alloc_complete {H} `{SegmentMap H} (ui32Flags : Z -> Z) top A (s : RA_ARENA H) uSize uFlags al off p b x :
  in_order true top A s -> request_ok top uSize al off -> Z.of_nat (size A) + 1 < COUNT_LIMIT ->
  heap s !! p = Some b -> bt_kind b = btt_free ->
  (psMapping b = 0 \/ ui32Flags (psMapping b) = uFlags) ->
  bt_base b <= x -> aligned_at al off x -> x + uSize <= bt_base b + bt_uSize b ->
  exists base m s', RA_Alloc ui32Flags uSize uFlags al off s = Ok (Some (base, m), s') /\
    in_order true top (<[base := uSize]> A) s' /\ events s' = events s /\ forall y, owns s' y <-> owns s y.
Proof.
  intros Ha Hreq Hsz Hb Hk Hfl Hx Hax Hend.
  assert ((view <$> heap s) !! p = Some (view b)) as HV by (by rewrite lookup_fmap, Hb).
  enough (runs (RA_Alloc ui32Flags uSize uFlags al off) s (fun r s' => exists base m K' V', r = Some (base, m) /\
    arena_at (mem := true) (top := top) K' V' (<[base := uSize]> A) s' /\ k_events K' = events s /\
    forall y, covers V' y <-> owns s y)) as (r & s' & E & base & m & K' & V' & -> & Ha' & Ev & Hc).
  { exists base, m, s'. destruct (in_order_intro _ _ _ _ _ _ Ha') as (Hok & -> & ->). done. }
  unfold RA_Alloc. eapply runs_seq; [apply (runs_attempt_result ui32Flags _ _ A s uSize uFlags al off Ha Hreq Hsz)|].
  intros [[base m]|] s1 (_ & Hnone & Hsome).
  - destruct (Hsome base m eq_refl) as (K' & V' & _ & Ev & Hc & Ha'). apply runs_bind, runs_ret.
    eapply runs_seq; [apply (runs_arena_stats _ _ _ _ _ Ha')|]. intros [] s2 Ha2. apply runs_ret.
    by exists base, m, K', V'.
  - exfalso. destruct (Hnone eq_refl x) as [?|[_ Hno]]; [done|].
    specialize (Hno p (view b) HV Hk). cbn in Hno.
    enough (bt_base b + bt_uSize b < x + uSize) by lia. apply Hno; [|done..].
    unfold flags_ok. cbn. apply orb_true_iff. rewrite !Z.eqb_eq. done.
Qed.

Lemma RA_Alloc_complete_witness :
  exists base m s', RA_Alloc (fun _ => 0) 0x400 3 0x800 0x10 (single btt_free new_hash) = Ok (Some (base, m), s') /\
    in_order true 0x100000 (<[base := 0x400]> ∅) s' /\ events s' = [] /\
    forall y, owns s' y <-> owns (single btt_free new_hash) y.
Proof.
  apply (RA_Alloc_complete (fun _ => 0) 0x100000 ∅ (single btt_free new_hash) 0x400 3 0x800 0x10 1
    (mk_bt btt_free 0x10000 0x1000 0 0 0 0 0) 0x107f0).
  - exact single_free_ok.
  - unfold request_ok. lia.
  - rewrite map_size_empty. unfold COUNT_LIMIT. lia.
  - reflexivity.
  - reflexivity.
  - left. reflexivity.
  - cbn. lia.
  - intros _. reflexivity.
  - cbn. lia.
Defined.



(** Adding a resource that is apart from what the arena covers either fails for lack of memory, with nothing changed, or makes exactly its
    range part of the arena; the allocations stay as they are. *)
Theorem RA_Add_extends {H} `{SegmentMap H} mem top A (s : RA_ARENA H) base uSize :
  in_order mem top A s -> let n := round_up uSize (uQuantum s) in
  in_range top (mk_seg btt_free base n 0) ->
  (forall x, base <= x < base + n -> ~ owns s x) ->
  exists ok s', RA_Add base uSize s = Ok (ok, s') /\ in_order mem top A s' /\
    (mem = true -> ok = true) /\
    forall x, owns s' x <-> owns s x \/ (ok = true /\ base <= x < base + n).
Proof.
  intros Ha n Hr Hd. destruct (runs_RA_Add _ _ A s base uSize Ha Hr Hd) as (ok & s' & E & Hok).
  exists ok, s'. split; [done|]. destruct Hok as [(-> & Hm & Ha')|(-> & V' & Ha' & Hc)].
  - destruct (in_order_intro _ _ _ _ _ _ Ha') as (Hok & _ & EV). split_and!; [done|congruence|].
    intros x. unfold owns. rewrite <- EV. naive_solver.
  - destruct (in_order_intro _ _ _ _ _ _ Ha') as (Hok & _ & ->). split_and!; [done|done|].
    intros x. unfold owns at 1. rewrite Hc. naive_solver.
Qed.

Lemma RA_Add_extends_witness :
  exists ok s', RA_Add 0x20000 0x1234 (single btt_free new_hash) = Ok (ok, s') /\ in_order true 0x100000 ∅ s' /\
    (true = true -> ok = true) /\
    forall x, owns s' x <-> owns (single btt_free new_hash) x \/
      (ok = true /\ 0x20000 <= x < 0x20000 + round_up 0x1234 0x1000).
Proof.
  apply (RA_Add_extends true 0x100000 ∅ (single btt_free new_hash) 0x20000 0x1234).
  - exact single_free_ok.
  - change (round_up 0x1234 _) with 0x2000. intros _. cbn. lia.
  - change (round_up 0x1234 _) with 0x2000. intros x Hx (p & g & Hp & Ho). unfold single in Hp. cbn in Hp. rewrite map_fmap_singleton in Hp.
    apply lookup_singleton_Some in Hp as [_ <-]. destruct Ho as [_ Ho]. cbn in Ho. lia.
Defined.

(** ** The end of an arena *)

Section delete.
Context {H : Type}.
Implicit Types (s : RA_ARENA H).

Lemma delete_segments_ok fuel s l :
  seg_list s l -> (forall p, is_Some (heap s !! p) <-> p ∈ l) -> (length l <= fuel)%nat ->
  exists s', delete_segments fuel s = Ok (tt, s') /\ heap s' = ∅ /\ pHeadSegment s' = 0 /\
    aHeadFree s' = aHeadFree s.
Proof.
  revert s l. induction fuel as [|fuel IH]; intros s l Hl Hin Hf; cbn [delete_segments];
    rewrite (R_bind_ok _ _ _ _ _ (arena_ok pHeadSegment s)), (sl_head _ _ Hl).
  all: destruct l as [|p l]; cbn [first].
  1, 3: exists s; split_and!; [done| |apply Hl|done]; apply map_empty; intros p;
    apply eq_None_not_Some; rewrite Hin; apply not_elem_of_nil.
  { cbn in Hf. lia. }
  rewrite (proj2 (Z.eqb_neq p 0)) by (eapply dll_nonzero; [apply Hl|set_solver]).
  destruct (seg_list_remove s [] p l Hl) as (s1 & E1 & Hl1 & Hf1 & Hp1). rewrite (R_bind_ok _ _ _ _ _ E1).
  destruct (proj2 (Hin p)) as [b Hb]; [set_solver|]. rewrite Hb in Hp1. unfold OSFreeMem.
  set (s2 := set_heap (delete p (heap s1)) s1). rewrite (R_bind_ok _ _ s1 tt s2).
  2: { by rewrite (R_bind_ok _ _ _ _ _ (load_ok p (fun _ => tt) s1 b Hp1)). }
  pose proof (sl_nodup _ _ Hl) as Hnd. apply NoDup_cons in Hnd as [Hpl _].
  rewrite (R_bind_ok _ _ s2 tt _ eq_refl). set (s3 := set_sStatistics _ s2).
  destruct (IH s3 l) as (s' & E & Hh & Hhd & Hfr).
  - apply (seg_list_ext s1); [done|done| |done]. intros q Hq. unfold links_of. cbn.
    rewrite lookup_delete_ne; [done|]. intros ->. done.
  - intros q. cbn. destruct (decide (q = p)) as [->|Hne].
    + rewrite lookup_delete_eq. split; [by intros []|by intros ?%Hpl].
    + rewrite lookup_delete_ne by done.
      assert (is_Some (heap s1 !! q) <-> is_Some (heap s !! q)) as ->.
      { pose proof (sf_heap _ _ Hf1 q) as Hq. destruct (heap s1 !! q), (heap s !! q); done. }
      rewrite Hin, elem_of_cons. tauto.
  - cbn in Hf. lia.
  - exists s'. split_and!; [done..|]. rewrite Hfr. cbn. by rewrite (sf_arena _ _ Hf1).
Qed.
End delete.

(** Deleting an arena frees every tag that it ever built and has not freed
    before, whatever is free, live or a span marker, and leaves no list behind:
    an arena leaks no memory. *)
Theorem RA_Delete_frees {H} `{SegmentMap H} mem top A (s : RA_ARENA H) :
  in_order mem top A s ->
  exists s', RA_Delete s = Ok (tt, s') /\ heap s' = ∅ /\ pHeadSegment s' = 0 /\
    Forall (fun p => p = 0) (aHeadFree s').
Proof.
  intros Ha. destruct (w_segs _ _ _ _ _ _ (aa_wfs _ _ _ _ Ha)) as (l & Hl & Hin). unfold RA_Delete.
  set (s1 := set_aHeadFree (replicate (Z.to_nat FREE_TABLE_LIMIT) 0) s).
  rewrite (R_bind_ok _ _ s tt s1) by done. rewrite (R_bind_ok _ _ _ _ _ (arena_ok (fun s => size (heap s)) s1)).
  destruct (delete_segments_ok (size (heap s1)) s1 l) as (s' & E & Hh & Hhd & Hfr).
  - apply (seg_list_ext s); done.
  - intros p. rewrite Hin, lookup_fmap, fmap_is_Some. set_solver.
  - apply (seg_list_length s l Hl).
  - exists s'. split_and!; [done..|]. rewrite Hfr. by apply Forall_replicate.
Qed.

Lemma RA_Delete_frees_witness :
  exists s', RA_Delete (single btt_free new_hash) = Ok (tt, s') /\ heap s' = ∅ /\ pHeadSegment s' = 0 /\
    Forall (fun p => p = 0) (aHeadFree s').
Proof. apply (RA_Delete_frees true 0x100000 ∅). exact single_free_ok. Defined.

(** A resource of the arena's own that lies between two imports is taken for
    an import when its last allocation is freed: the import function gets a
    range that it never provided, the two imports lose a marker each, and the
    range is lost, so that the same request fails afterwards. *)
Theorem RA_Free_between_imports :
  match RA_Create true (Some new_hash) 0x2000 0x1000 0 0x1000 true false ∅ []
          [Some (0x1000, 0x1000, 7); Some (0x3000, 0x1000, 8)] with
  | Ok (Some s) =>
      let a := CallAlloc 0x1000 0 0 0 in
      match run_calls (fun _ => 0) [a; a; a; CallFree 0x2000 false; a] s with
      | Ok (rs, s') =>
          rs = [Some 0x2000; Some 0x1000; Some 0x3000; None; None] /\
          events s' = [EvImportAlloc 0x1000 0; EvImportFree 0x2000 0; EvImportAlloc 0x1000 0;
                       EvImportAlloc 0x1000 0]
      | Fault _ => False
      end
  | _ => False
  end.
Proof. vm_compute. split; reflexivity. Qed.
