(* ===== verification/TestCmd.v ===== *)
(** * The [test] command of motobox (src/motobox/test.c)

    The expression evaluator behind [test] and [\[]: the operator table, the
    lexer with its look-ahead, the recursive descent over [oexpr], [aexpr],
    [nexpr] and [primary], the string, integer and file primaries, and the
    entry point.  The argument vector is a list of pointers ([None] is NULL);
    reading outside it is a fault.  The file system and the process
    credentials are the environment [env], constant during one run. *)

From stdpp Require Import base list numbers option strings.
From Stdlib Require Import Ascii String ZArith Lia.
From S2P Require Import Prelude CStrings.

Local Open Scope string_scope.
Local Open Scope Z_scope.

(** ** The C library on the strings of the argument vector *)

Definition byte_of (c : ascii) : Z := Z.of_nat (nat_of_ascii c).

(** [strcmp], on strings without NUL: the difference of the first unsigned
    characters that differ. *)
Fixpoint strcmp (a b : string) : Z :=
  match a, b with
  | EmptyString, EmptyString => 0
  | EmptyString, String d _ => - byte_of d
  | String c _, EmptyString => byte_of c
  | String c a, String d b => if Ascii.eqb c d then strcmp a b else byte_of c - byte_of d
  end.

(** [strrchr(s, c)]: the string that starts at the last [c]. *)
Fixpoint strrchr (c : ascii) (s : string) : option string :=
  match s with
  | EmptyString => None
  | String d t =>
      match strrchr c t with
      | Some r => Some r
      | None => if Ascii.eqb d c then Some s else None
      end
  end.

(** [isspace] of the C locale. *)
Definition isspace (c : ascii) : bool :=
  let n := byte_of c in ((9 <=? n) && (n <=? 13)) || (n =? 32).

Fixpoint skip_space (s : string) : string :=
  match s with
  | EmptyString => EmptyString
  | String c t => if isspace c then skip_space t else s
  end.

Definition digit_of (c : ascii) : option Z :=
  let n := byte_of c in if (48 <=? n) && (n <=? 57) then Some (n - 48) else None.

(** The value of the digits at the start of [s] (after [acc]), and the rest. *)
Fixpoint read_digits (acc : Z) (s : string) : Z * string :=
  match s with
  | EmptyString => (acc, s)
  | String c t => match digit_of c with
                  | Some d => read_digits (acc * 10 + d) t
                  | None => (acc, s)
                  end
  end.

(** [strtol]/[strtoimax] in base 10 for a type with range [lo .. hi]: [None]
    when there is no conversion, else the value, the rest of the string and
    whether [errno] became [ERANGE]. *)
Definition strto (lo hi : Z) (s : string) : option (Z * string * bool) :=
  let t := skip_space s in
  let '(neg, t) := match t with
                   | String c u => if Ascii.eqb c "-" then (true, u)
                                   else if Ascii.eqb c "+" then (false, u) else (false, t)
                   | EmptyString => (false, t)
                   end in
  match t with
  | String c _ =>
      match digit_of c with
      | Some _ =>
          let '(v, p) := read_digits 0 t in
          let v := if neg then - v else v in
          if v <? lo then Some (lo, p, true)
          else if hi <? v then Some (hi, p, true)
          else Some (v, p, false)
      | None => None
      end
  | EmptyString => None
  end.

(** [long] has 32 bits on this device, [intmax_t] 64. *)
Definition LONG_MIN : Z := - 2 ^ 31.
Definition LONG_MAX : Z := 2 ^ 31 - 1.
Definition INTMAX_MIN : Z := - 2 ^ 63.
Definition INTMAX_MAX : Z := 2 ^ 63 - 1.

(** ** The operators *)

Inductive token :=
| EOI | FILRD | FILWR | FILEX | FILEXIST | FILREG | FILDIR | FILCDEV | FILBDEV
| FILFIFO | FILSOCK | FILSYM | FILGZ | FILTT | FILSUID | FILSGID | FILSTCK
| FILNT | FILOT | FILEQ | FILUID | FILGID | STREZ | STRNZ | STREQ | STRNE
| STRLT | STRGT | INTEQ | INTNE | INTGE | INTGT | INTLE | INTLT | UNOT | BAND
| BOR | LPAREN | RPAREN | OPERAND.

Inductive token_types := UNOP | BINOP | BUNOP | BBINOP | PAREN.

#[export] Instance token_eq_dec : EqDecision token.
Proof. solve_decision. Defined.
#[export] Instance token_types_eq_dec : EqDecision token_types.
Proof. solve_decision. Defined.

Record t_op := { op_text : string; op_num : token; op_type : token_types }.

#[export] Instance t_op_eq_dec : EqDecision t_op.
Proof. solve_decision. Defined.

Definition ops : list t_op :=
  [ {| op_text := "-r"; op_num := FILRD; op_type := UNOP |};
    {| op_text := "-w"; op_num := FILWR; op_type := UNOP |};
    {| op_text := "-x"; op_num := FILEX; op_type := UNOP |};
    {| op_text := "-e"; op_num := FILEXIST; op_type := UNOP |};
    {| op_text := "-f"; op_num := FILREG; op_type := UNOP |};
    {| op_text := "-d"; op_num := FILDIR; op_type := UNOP |};
    {| op_text := "-c"; op_num := FILCDEV; op_type := UNOP |};
    {| op_text := "-b"; op_num := FILBDEV; op_type := UNOP |};
    {| op_text := "-p"; op_num := FILFIFO; op_type := UNOP |};
    {| op_text := "-u"; op_num := FILSUID; op_type := UNOP |};
    {| op_text := "-g"; op_num := FILSGID; op_type := UNOP |};
    {| op_text := "-k"; op_num := FILSTCK; op_type := UNOP |};
    {| op_text := "-s"; op_num := FILGZ; op_type := UNOP |};
    {| op_text := "-t"; op_num := FILTT; op_type := UNOP |};
    {| op_text := "-z"; op_num := STREZ; op_type := UNOP |};
    {| op_text := "-n"; op_num := STRNZ; op_type := UNOP |};
    {| op_text := "-h"; op_num := FILSYM; op_type := UNOP |};
    {| op_text := "-O"; op_num := FILUID; op_type := UNOP |};
    {| op_text := "-G"; op_num := FILGID; op_type := UNOP |};
    {| op_text := "-L"; op_num := FILSYM; op_type := UNOP |};
    {| op_text := "-S"; op_num := FILSOCK; op_type := UNOP |};
    {| op_text := "="; op_num := STREQ; op_type := BINOP |};
    {| op_text := "!="; op_num := STRNE; op_type := BINOP |};
    {| op_text := "<"; op_num := STRLT; op_type := BINOP |};
    {| op_text := ">"; op_num := STRGT; op_type := BINOP |};
    {| op_text := "-eq"; op_num := INTEQ; op_type := BINOP |};
    {| op_text := "-ne"; op_num := INTNE; op_type := BINOP |};
    {| op_text := "-ge"; op_num := INTGE; op_type := BINOP |};
    {| op_text := "-gt"; op_num := INTGT; op_type := BINOP |};
    {| op_text := "-le"; op_num := INTLE; op_type := BINOP |};
    {| op_text := "-lt"; op_num := INTLT; op_type := BINOP |};
    {| op_text := "-nt"; op_num := FILNT; op_type := BINOP |};
    {| op_text := "-ot"; op_num := FILOT; op_type := BINOP |};
    {| op_text := "-ef"; op_num := FILEQ; op_type := BINOP |};
    {| op_text := "!"; op_num := UNOT; op_type := BUNOP |};
    {| op_text := "-a"; op_num := BAND; op_type := BBINOP |};
    {| op_text := "-o"; op_num := BOR; op_type := BBINOP |};
    {| op_text := "("; op_num := LPAREN; op_type := PAREN |};
    {| op_text := ")"; op_num := RPAREN; op_type := PAREN |} ].

(** ** The environment: what the system calls answer *)

Record stat_buf := {
  st_mode : Z; st_size : Z; st_uid : Z; st_gid : Z; st_dev : Z; st_ino : Z;
  st_mtime : Z; st_mtime_nsec : Z }.

Record env := {
  stat : string -> option stat_buf;      (* [None]: the call fails *)
  lstat : string -> option stat_buf;
  access : string -> Z -> bool;          (* the call returns 0 *)
  isatty : Z -> Z;
  geteuid : Z;
  getegid : Z }.

Definition F_OK : Z := 0.
Definition X_OK : Z := 1.
Definition W_OK : Z := 2.
Definition R_OK : Z := 4.

Definition S_IFMT : Z := 61440.      (* 0170000 *)
Definition S_ISFMT (fmt m : Z) : bool := Z.land m S_IFMT =? fmt.
Definition S_ISSOCK : Z -> bool := S_ISFMT 49152.
Definition S_ISLNK : Z -> bool := S_ISFMT 40960.
Definition S_ISREG : Z -> bool := S_ISFMT 32768.
Definition S_ISBLK : Z -> bool := S_ISFMT 24576.
Definition S_ISDIR : Z -> bool := S_ISFMT 16384.
Definition S_ISCHR : Z -> bool := S_ISFMT 8192.
Definition S_ISFIFO : Z -> bool := S_ISFMT 4096.
Definition S_ISUID : Z := 2048.
Definition S_ISGID : Z := 1024.
Definition S_ISVTX : Z := 512.
Definition S_IXUSR : Z := 64.
Definition S_IXGRP : Z := 8.
Definition S_IXOTH : Z := 1.

(** ** Control: a run returns a value, exits through [error], or faults *)

Record tstate := mk_tstate { t_wp : Z; nargc : Z; t_wp_op : option t_op }.

Inductive tres (A : Type) :=
| TOk (a : A)
| TExit (msg : string)
| TFault (f : fault).
Arguments TOk {A} a.
Arguments TExit {A} msg.
Arguments TFault {A} f.

Definition tm (A : Type) : Type := tstate -> tres (A * tstate).

#[export] Instance tm_ret : MRet tm := fun A a s => TOk (a, s).
#[export] Instance tm_bind : MBind tm := fun A B f m s =>
  match m s with
  | TOk (a, s') => f a s'
  | TExit msg => TExit msg
  | TFault e => TFault e
  end.

(** [error(fmt, ...)]: print the message, [exit(1)]. *)
Definition error {A} (msg : string) : tm A := fun _ => TExit msg.

Definition tfault {A} (f : fault) : tm A := fun _ => TFault f.

Definition tget : tm tstate := fun s => TOk (s, s).
Definition tput (s : tstate) : tm unit := fun _ => TOk (tt, s).

Definition lift {A} (o : outcome A) : tm A := fun s =>
  match o with Ok a => TOk (a, s) | Fault e => TFault e end.

(** Dereferencing a [char *] that may be NULL. *)
Definition deref (p : option string) : tm string := fun s =>
  match p with Some x => TOk (x, s) | None => TFault OutOfBounds end.

Definition b2z (b : bool) : Z := if b then 1 else 0.

Definition syntax {A} (op : option string) (msg : string) : tm A :=
  match op with
  | Some (String c o) => error (String c o ++ ": " ++ msg)
  | _ => error msg
  end.

(** ** Numbers and files *)

(** [getn]/[getq] after the conversion: they differ in the type's range only. *)
Definition getnum (lo hi : Z) (s : string) : tm Z :=
  match strto lo hi s with
  | None => error (s ++ ": bad number")
  | Some (r, p, erange) =>
      if (erange : bool) then error (s ++ ": out of range")
      else match skip_space p with
           | EmptyString => mret r
           | _ => error (s ++ ": bad number")
           end
  end.

Definition getn (s : string) : tm Z := getnum LONG_MIN LONG_MAX s.
Definition getq (s : string) : tm Z := getnum INTMAX_MIN INTMAX_MAX s.

Definition intcmp (s1 s2 : string) : tm Z :=
  q1 ← getq s1; q2 ← getq s2;
  mret (if q2 <? q1 then 1 else if q1 <? q2 then -1 else 0).

Definition newerf (E : env) (f1 f2 : string) : bool :=
  match stat E f1, stat E f2 with
  | Some b1, Some b2 =>
      if st_mtime b2 <? st_mtime b1 then true
      else if st_mtime b1 <? st_mtime b2 then false
      else st_mtime_nsec b2 <? st_mtime_nsec b1
  | _, _ => false
  end.

Definition olderf (E : env) (f1 f2 : string) : bool := newerf E f2 f1.

Definition equalf (E : env) (f1 f2 : string) : bool :=
  match stat E f1, stat E f2 with
  | Some b1, Some b2 => (st_dev b1 =? st_dev b2) && (st_ino b1 =? st_ino b2)
  | _, _ => false
  end.

Definition filstat (E : env) (nm : string) (mode : token) : bool :=
  match (match mode with FILSYM => lstat E nm | _ => stat E nm end) with
  | None => false
  | Some s =>
      match mode with
      | FILRD => access E nm R_OK
      | FILWR => access E nm W_OK
      | FILEX =>
          if negb (access E nm X_OK) then false
          else if S_ISDIR (st_mode s) || negb (geteuid E =? 0) then true
          else truth (Z.land (st_mode s) (Z.lor (Z.lor S_IXUSR S_IXGRP) S_IXOTH))
      | FILEXIST => access E nm F_OK
      | FILREG => S_ISREG (st_mode s)
      | FILDIR => S_ISDIR (st_mode s)
      | FILCDEV => S_ISCHR (st_mode s)
      | FILBDEV => S_ISBLK (st_mode s)
      | FILFIFO => S_ISFIFO (st_mode s)
      | FILSOCK => S_ISSOCK (st_mode s)
      | FILSYM => S_ISLNK (st_mode s)
      | FILSUID => truth (Z.land (st_mode s) S_ISUID)
      | FILSGID => truth (Z.land (st_mode s) S_ISGID)
      | FILSTCK => truth (Z.land (st_mode s) S_ISVTX)
      | FILGZ => 0 <? st_size s
      | FILUID => st_uid s =? geteuid E
      | FILGID => st_gid s =? getegid E
      | _ => true
      end
  end.

(** ** The parser *)

Section Parser.
  Context (E : env) (argv : list (option string)).

  (** [t_wp\[i\]] *)
Definition word_at (i : Z) : tm (option string) :=
    s ← tget; lift (rd argv (t_wp s + i)).

  (** [nargc > 0 ? (--nargc, *++t_wp) : NULL] *)
Definition advance : tm (option string) :=
    s ← tget;
    if 0 <? nargc s then
      tput (mk_tstate (t_wp s + 1) (nargc s - 1) (t_wp_op s));; word_at 0
    else mret None.

  (** [t_wp--; nargc++;] *)
Definition push_back : tm unit :=
    s ← tget; tput (mk_tstate (t_wp s - 1) (nargc s + 1) (t_wp_op s)).

Definition set_op (op : option t_op) : tm unit :=
    s ← tget; tput (mk_tstate (t_wp s) (nargc s) op).

  (** The loop of [isoperand] over the table. *)
Fixpoint isoperand_in (l : list t_op) (s t : string) : bool :=
    match l with
    | [] => false
    | op :: l =>
        if strcmp s (op_text op) =? 0 then
          bool_decide (op_type op = BINOP) && negb (strcmp t ")" =? 0)
        else isoperand_in l s t
    end.

Definition isoperand : tm bool :=
    st ← tget;
    if nargc st =? 1 then mret true
    else if nargc st =? 2 then mret false
    else
      s ← word_at 1; t ← word_at 2;
      s ← deref s; t ← deref t;
      mret (isoperand_in ops s t).

  (** The loop of [t_lex] over the table. *)
Fixpoint t_lex_in (l : list t_op) (s : string) : tm token :=
    match l with
    | [] => set_op None;; mret OPERAND
    | op :: l =>
        if strcmp s (op_text op) =? 0 then
          st ← tget;
          b ← (if decide (op_type op = UNOP) then isoperand else mret false);
          if (b : bool) || (bool_decide (op_num op = LPAREN) && (nargc st =? 1)) then
            set_op None;; mret OPERAND
          else set_op (Some op);; mret (op_num op)
        else t_lex_in l s
    end.

Definition t_lex (s : option string) : tm token :=
    match s with
    | None => set_op None;; mret EOI
    | Some s => t_lex_in ops s
    end.

Definition next_token : tm token := s ← advance; t_lex s.

  (** The switch of [binop]. *)
Definition binop_switch (op : t_op) (o1 o2 : string) : tm Z :=
    match op_num op with
    | STREQ => mret (b2z (strcmp o1 o2 =? 0))
    | STRNE => mret (b2z (negb (strcmp o1 o2 =? 0)))
    | STRLT => mret (b2z (strcmp o1 o2 <? 0))
    | STRGT => mret (b2z (0 <? strcmp o1 o2))
    | INTEQ => c ← intcmp o1 o2; mret (b2z (c =? 0))
    | INTNE => c ← intcmp o1 o2; mret (b2z (negb (c =? 0)))
    | INTGE => c ← intcmp o1 o2; mret (b2z (0 <=? c))
    | INTGT => c ← intcmp o1 o2; mret (b2z (0 <? c))
    | INTLE => c ← intcmp o1 o2; mret (b2z (c <=? 0))
    | INTLT => c ← intcmp o1 o2; mret (b2z (c <? 0))
    | FILNT => mret (b2z (newerf E o1 o2))
    | FILOT => mret (b2z (olderf E o1 o2))
    | FILEQ => mret (b2z (equalf E o1 o2))
    | _ => tfault Indeterminate   (* [abort()] *)
    end.

Definition binop : tm Z :=
    opnd1 ← word_at 0;
    next_token;;
    st ← tget;
    opnd2 ← advance;
    match t_wp_op st, opnd2 with
    | None, _ => tfault OutOfBounds
    | Some op, None => syntax (Some (op_text op)) "argument expected"
    | Some op, Some o2 => o1 ← deref opnd1; binop_switch op o1 o2
    end.

  (** [*++t_wp], dereferenced by its user. *)
Definition next_word : tm string :=
    s ← tget;
    tput (mk_tstate (t_wp s + 1) (nargc s) (t_wp_op s));;
    w ← word_at 0; deref w.

  (** The switch of the unary primaries on their operand [w]. *)
Definition unary_switch (n : token) (w : string) : tm Z :=
    match n with
    | STREZ => mret (b2z (Nat.eqb (String.length w) 0))
    | STRNZ => mret (b2z (negb (Nat.eqb (String.length w) 0)))
    | FILTT => i ← getn w; mret (isatty E i)
    | _ => mret (b2z (filstat E w n))
    end.

  (** The unary primaries. *)
Definition unary (op : t_op) (n : token) : tm Z :=
    s ← tget;
    tput (mk_tstate (t_wp s) (nargc s - 1) (t_wp_op s));;
    if nargc s - 1 =? 0 then syntax (Some (op_text op)) "argument expected"
    else w ← next_word; unary_switch n w.

  (** The last part of [primary]: an operand, alone or before a binary
      operator. *)
Definition operand : tm Z :=
    s ← tget;
    p ← (if 0 <? nargc s then word_at 1 else mret None);
    t_lex p;;
    s ← tget;
    match t_wp_op s with
    | Some {| op_type := BINOP |} => binop
    | _ => w ← word_at 0; w ← deref w; mret (b2z (negb (Nat.eqb (String.length w) 0)))
    end.

Definition is_unop (o : option t_op) : option t_op :=
    match o with
    | Some {| op_type := UNOP |} => o
    | _ => None
    end.

Fixpoint oexpr (fuel : nat) (n : token) : tm Z :=
    match fuel with
    | O => tfault OutOfFuel
    | S fuel =>
        res ← aexpr fuel n;
        k ← next_token;
        if decide (k = BOR) then
          k ← next_token;
          r ← oexpr fuel k;
          mret (b2z (truth r || truth res))
        else push_back;; mret res
    end
with aexpr (fuel : nat) (n : token) : tm Z :=
    match fuel with
    | O => tfault OutOfFuel
    | S fuel =>
        res ← nexpr fuel n;
        k ← next_token;
        if decide (k = BAND) then
          k ← next_token;
          r ← aexpr fuel k;
          mret (b2z (truth r && truth res))
        else push_back;; mret res
    end
with nexpr (fuel : nat) (n : token) : tm Z :=
    match fuel with
    | O => tfault OutOfFuel
    | S fuel =>
        if decide (n = UNOT) then
          k ← next_token;
          r ← nexpr fuel k;
          mret (b2z (negb (truth r)))
        else primary fuel n
    end
with primary (fuel : nat) (n : token) : tm Z :=
    match fuel with
    | O => tfault OutOfFuel
    | S fuel =>
        if decide (n = EOI) then mret 0
        else if decide (n = LPAREN) then
          nn ← next_token;
          if decide (nn = RPAREN) then mret 0
          else
            res ← oexpr fuel nn;
            k ← next_token;
            if decide (k = RPAREN) then mret res
            else syntax None "closing paren expected"
        else
          s ← tget;
          match is_unop (t_wp_op s) with
          | Some op => unary op n
          | None => operand
          end
    end.
End Parser.

(** ** The entry point *)

(** The fuel that every run of the parser fits in: four calls per argument. *)
Definition parse_fuel (nargc : Z) : nat := 4 * Z.to_nat nargc + 4.

(** [p = rindex(argv\[0\], '/')]: the name the command was called by. *)
Definition basename (s : string) : string :=
  match strrchr "/"%char s with
  | None => s
  | Some p => str_drop 1 p
  end.

(** After the [\[] check: [argc] arguments are left and [argv\[argc\]] is NULL. *)
Definition test_expr (E : env) (argv : list (option string)) (argc : Z) : tres Z :=
  let argc := argc - 1 in
  if argc <=? 0 then TOk 1
  else
    let run :=
      w ← word_at argv 0;
      n ← t_lex argv w;
      r ← oexpr E argv (parse_fuel argc) n;
      let res := b2z (negb (truth r)) in
      s ← tget;
      tput (mk_tstate (t_wp s) (nargc s - 1) (t_wp_op s));;
      if 0 <? nargc s - 1 then
        w ← word_at argv 0;
        syntax w "unexpected operator"
      else mret res in
    match run (mk_tstate 1 argc None) with
    | TOk (res, _) => TOk res
    | TExit msg => TExit msg
    | TFault f => TFault f
    end.

(** [argv] holds the [argc] arguments; the vector ends with NULL. *)
Definition test_main (E : env) (args : list string) : tres Z :=
  let argv := ((Some <$> args) ++ [None])%list in
  let argc := Z.of_nat (List.length args) in
  match rd argv 0 with
  | Ok (Some a0) =>
      if strcmp (basename a0) "[" =? 0 then
        let argc := argc - 1 in
        match rd argv argc with
        | Ok (Some last) =>
            if negb (strcmp last "]" =? 0) then TExit "missing ]"
            else match wr argv argc None with
                 | Ok argv => test_expr E argv argc
                 | Fault f => TFault f
                 end
        | Ok None => TFault OutOfBounds
        | Fault f => TFault f
        end
      else test_expr E argv argc
  | Ok None => TFault OutOfBounds
  | Fault f => TFault f
  end.
