(* ===== verification/TestCmdFacts.v ===== *)
(** * Facts on the parser of [test]

    While an expression is parsed the globals [t_wp] and [nargc] always
    describe a suffix of the arguments: [st n op] is the state with [n]
    arguments left, [rem n] those arguments.  The lexer and the moves of the
    parser are equations on these states; from them follows that every run
    ends, without a fault, inside the argument vector. *)

From stdpp Require Import base list numbers option strings.
From Stdlib Require Import Ascii ZArith Lia.
From S2P Require Import Prelude CStrings TestCmd.

Local Open Scope string_scope.
Local Open Scope Z_scope.

(** ** Post-conditions of runs: a run that faults satisfies none *)

Definition tpost {A} (r : tres (A * tstate)) (Q : A -> tstate -> Prop) : Prop :=
  match r with
  | TOk (a, s) => Q a s
  | TExit _ => True
  | TFault _ => False
  end.

Lemma tpost_bind {A B} (m : tm A) (f : A -> tm B) (s : tstate) Q :
  tpost (m s) (fun a s' => tpost (f a s') Q) -> tpost ((m ≫= f) s) Q.
Proof. unfold mbind, tm_bind, tpost. by destruct (m s) as [[a s']| |]. Qed.

Lemma tpost_mono {A} (r : tres (A * tstate)) (P Q : A -> tstate -> Prop) :
  tpost r P -> (forall a s, P a s -> Q a s) -> tpost r Q.
Proof. unfold tpost. destruct r as [[a s]| |]; naive_solver. Qed.

Lemma bind_ok {A B} (m : tm A) (f : A -> tm B) (s s' : tstate) (a : A) :
  m s = TOk (a, s') -> (m ≫= f) s = f a s'.
Proof. intros H. unfold mbind, tm_bind. by rewrite H. Qed.

Lemma bind_exit {A B} (m : tm A) (f : A -> tm B) (s : tstate) (msg : string) :
  m s = TExit msg -> (m ≫= f) s = TExit msg.
Proof. intros H. unfold mbind, tm_bind. by rewrite H. Qed.

(** ** The lexer as a pure function of the arguments left *)

Definition find_op (w : string) : option t_op :=
  snd <$> list_find (fun op => strcmp w (op_text op) = 0) ops.

Definition isop (ws : list string) : bool :=
  match ws with
  | [_] => true
  | _ :: s :: t :: _ => isoperand_in ops s t
  | _ => false
  end.

Definition lex_op (ws : list string) (w : string) : option t_op :=
  op ← find_op w;
  if (bool_decide (op_type op = UNOP) && isop ws)
     || (bool_decide (op_num op = LPAREN) && (length ws =? 1)%nat)
  then None else Some op.

Definition tok_of (o : option t_op) : token :=
  match o with Some op => op_num op | None => OPERAND end.

Definition peek_op (ws : list string) (p : option string) : option t_op :=
  p ≫= lex_op ws.

Definition peek_tok (ws : list string) (p : option string) : token :=
  match p with Some w => tok_of (lex_op ws w) | None => EOI end.

(** The token that starts the arguments [ws]. *)
Definition cur_op (ws : list string) : option t_op := peek_op ws (head ws).
Definition cur_tok (ws : list string) : token := peek_tok ws (head ws).

Arguments ops : simpl never.
Arguments find_op : simpl never.
Arguments isop : simpl never.
Arguments lex_op : simpl never.

Lemma cur_op_cons (w : string) (ws : list string) : cur_op (w :: ws) = lex_op (w :: ws) w.
Proof. done. Qed.

Lemma cur_tok_cons (w : string) (ws : list string) :
  cur_tok (w :: ws) = tok_of (lex_op (w :: ws) w).
Proof. done. Qed.

(** ** The moves *)

Section Moves.
  Context (argv : list (option string)) (args : list string).
  Context (a0 : option string) (tl : list (option string)).
  Hypothesis Hargv : argv = a0 :: (Some <$> args) ++ None :: tl.

Definition rem (n : nat) : list string := drop (length args - n) args.
Definition st (n : nat) (op : option t_op) : tstate :=
    mk_tstate (Z.of_nat (length args) + 1 - Z.of_nat n) (Z.of_nat n) op.

Lemma rem_length (n : nat) : (n <= length args)%nat -> length (rem n) = n.
Proof. intros. unfold rem. rewrite length_drop. lia. Qed.

Lemma rem_lookup (n i : nat) :
    (n <= length args)%nat -> rem n !! i = args !! (length args - n + i)%nat.
Proof. intros. unfold rem. by rewrite lookup_drop. Qed.

Lemma rem_tail (n : nat) : (n < length args)%nat -> tail (rem (S n)) = rem n.
Proof.
    intros. unfold rem. replace (length args - n)%nat with (length args - S n + 1)%nat by lia.
    rewrite <- drop_drop. by destruct (drop _ args).
Qed.

Lemma rem_S (n : nat) (w : string) (ws : list string) :
    (S n <= length args)%nat -> rem (S n) = w :: ws -> rem n = ws.
Proof. intros Hn H. rewrite <- rem_tail by lia. by rewrite H. Qed.

Lemma word_at_st (n : nat) (i : Z) (op : option t_op) :
    (n <= length args)%nat -> 0 <= i <= Z.of_nat n ->
    word_at argv i (st n op) = TOk (rem n !! Z.to_nat i, st n op).
Proof.
    intros Hn Hi. unfold word_at, lift, mbind, tm_bind, tget. cbn [t_wp st].
    rewrite rem_lookup by done.
    erewrite rd_lookup; [done|lia|]. rewrite Hargv.
    replace (Z.to_nat _) with (S (length args - n + Z.to_nat i)) by lia.
    rewrite lookup_cons_ne_0 by lia. cbn [pred].
    destruct (decide (length args - n + Z.to_nat i < length args)%nat) as [Hlt|Hge].
    - rewrite lookup_app_l by (by rewrite length_fmap). rewrite list_lookup_fmap.
      by destruct (lookup_lt_is_Some_2 args _ Hlt) as [w ->].
    - rewrite lookup_app_r by (rewrite length_fmap; lia). rewrite length_fmap.
      replace (_ - _)%nat with O by lia. rewrite (lookup_ge_None_2 args) by lia. done.
Qed.

Lemma word_at_0 (n : nat) (op : option t_op) :
    (n <= length args)%nat -> word_at argv 0 (st n op) = TOk (head (rem n), st n op).
Proof. intros. rewrite word_at_st by lia. by destruct (rem n). Qed.

Lemma advance_st (n : nat) (op : option t_op) :
    (S n <= length args)%nat -> advance argv (st (S n) op) = TOk (head (rem n), st n op).
Proof.
    intros Hn. unfold advance, mbind, tm_bind, tget, tput. cbn [nargc t_wp t_wp_op st].
    destruct (Z.ltb_spec 0 (Z.of_nat (S n))); [|lia].
    replace (mk_tstate _ _ op) with (st n op) by (unfold st; f_equal; lia).
    by rewrite word_at_0 by lia.
Qed.

Lemma advance_end (op : option t_op) : advance argv (st 0 op) = TOk (None, st 0 op).
Proof. done. Qed.

Lemma push_back_st (n : nat) (op : option t_op) : push_back (st n op) = TOk (tt, st (S n) op).
Proof. unfold push_back, mbind, tm_bind, tget, tput, st. cbn. do 3 f_equal; lia. Qed.

Lemma isoperand_st (n : nat) (op : option t_op) :
    (1 <= n <= length args)%nat ->
    isoperand argv (st n op) = TOk (isop (rem n), st n op).
Proof.
    intros Hn. unfold isoperand. rewrite (bind_ok _ _ _ (st n op) (st n op)) by done.
    cbn [nargc st]. pose proof (rem_length n ltac:(lia)) as Hl.
    destruct (Z.eqb_spec (Z.of_nat n) 1).
    { destruct (rem n) as [|? [|]]; simpl in *; [lia|done|lia]. }
    destruct (Z.eqb_spec (Z.of_nat n) 2).
    { destruct (rem n) as [|? [|? [|]]]; simpl in *; [lia|lia|done|lia]. }
    destruct (rem n) as [|w [|u [|v ws]]] eqn:Hr; simpl in Hl; [lia..|].
    rewrite (bind_ok _ _ _ _ _ (word_at_st n 1 op ltac:(lia) ltac:(lia))).
    rewrite (bind_ok _ _ _ _ _ (word_at_st n 2 op ltac:(lia) ltac:(lia))).
    rewrite Hr. done.
Qed.

Lemma t_lex_in_st (l : list t_op) (n : nat) (op0 : option t_op) (w : string) :
    (1 <= n <= length args)%nat ->
    let o := op ← (snd <$> list_find (fun op => strcmp w (op_text op) = 0) l);
             if (bool_decide (op_type op = UNOP) && isop (rem n))
                || (bool_decide (op_num op = LPAREN) && (length (rem n) =? 1)%nat)
             then None else Some op in
    t_lex_in argv l w (st n op0) = TOk (tok_of o, st n o).
Proof.
    intros Hn. cbv zeta. induction l as [|op l IH]; cbn [t_lex_in list_find]; [done|].
    destruct (decide (strcmp w (op_text op) = 0)) as [Heq|Hne].
    - rewrite (proj2 (Z.eqb_eq _ _) Heq). cbn [fmap option_fmap option_map snd mbind option_bind].
      rewrite (bind_ok _ _ _ (st n op0) (st n op0)) by done.
      assert ((if decide (op_type op = UNOP) then isoperand argv else mret false) (st n op0)
              = TOk (bool_decide (op_type op = UNOP) && isop (rem n), st n op0)) as Hb.
      { case_decide as H; [rewrite isoperand_st by done; by rewrite bool_decide_true|].
        by rewrite bool_decide_false. }
      rewrite (bind_ok _ _ _ _ _ Hb). cbn [nargc st]. rewrite rem_length by lia.
      replace (Z.of_nat n =? 1) with (n =? 1)%nat
        by (destruct (Nat.eqb_spec n 1), (Z.eqb_spec (Z.of_nat n) 1); lia || done).
      by destruct (_ || _)%bool.
    - rewrite (proj2 (Z.eqb_neq _ _) Hne), IH.
      by destruct (list_find _ l) as [[]|].
Qed.

Lemma t_lex_st (n : nat) (op0 : option t_op) (p : option string) :
    (n <= length args)%nat -> (is_Some p -> n <> 0%nat) ->
    t_lex argv p (st n op0) = TOk (peek_tok (rem n) p, st n (peek_op (rem n) p)).
Proof.
    intros Hn Hp. destruct p as [w|]; [|done]. unfold t_lex.
    rewrite t_lex_in_st; [done|]. specialize (Hp ltac:(done)). lia.
Qed.

Lemma head_rem_some (n : nat) :
    (n <= length args)%nat -> is_Some (head (rem n)) <-> n <> 0%nat.
Proof.
    intros Hn. pose proof (rem_length n Hn). destruct (rem n); simpl in *.
    - split; [intros []; done|lia].
    - split; [lia|done].
Qed.

Lemma next_token_st (n : nat) (op : option t_op) :
    (S n <= length args)%nat ->
    next_token argv (st (S n) op) = TOk (cur_tok (rem n), st n (cur_op (rem n))).
Proof.
    intros Hn. unfold next_token. rewrite (bind_ok _ _ _ _ _ (advance_st n op Hn)).
    rewrite t_lex_st; [done|lia|]. apply head_rem_some. lia.
Qed.

Lemma next_token_end (op : option t_op) : next_token argv (st 0 op) = TOk (EOI, st 0 None).
Proof. done. Qed.

Lemma rem_0 : rem 0 = [].
Proof. unfold rem. rewrite Nat.sub_0_r. apply drop_all. Qed.

Lemma next_token_pred (n : nat) (op : option t_op) :
    (n <= length args)%nat ->
    next_token argv (st n op) = TOk (cur_tok (rem (pred n)), st (pred n) (cur_op (rem (pred n)))).
Proof.
    intros Hn. destruct n as [|n]; [|by apply next_token_st].
    rewrite next_token_end. cbn [pred]. by rewrite rem_0.
Qed.

Lemma cur_tok_EOI (n : nat) : (n <= length args)%nat -> cur_tok (rem n) <> EOI -> n <> 0%nat.
Proof. intros Hn H ->. by rewrite rem_0 in H. Qed.
End Moves.

(** ** The operator table *)

Lemma find_op_elem (w : string) (op : t_op) :
  find_op w = Some op -> op ∈ ops /\ strcmp w (op_text op) = 0.
Proof.
  unfold find_op. destruct (list_find _ ops) as [[i o]|] eqn:Hf; [|done]. intros [= ->].
  apply list_find_Some in Hf as (Hi & Heq & _). split; [by apply list_elem_of_lookup_2 in Hi|done].
Qed.

(** Only the parentheses have the tokens of parentheses, only [!] is [UNOT],
    no operator has the token EOI, and a binary operator has one of the
    tokens that the switch of [binop] knows. *)
Definition op_shape (op : t_op) : bool :=
  match op_num op with
  | EOI | OPERAND => false
  | LPAREN | RPAREN => bool_decide (op_type op = PAREN)
  | UNOT => bool_decide (op_type op = BUNOP)
  | BAND | BOR => bool_decide (op_type op = BBINOP)
  | STREQ | STRNE | STRLT | STRGT | INTEQ | INTNE | INTGE | INTGT | INTLE | INTLT
  | FILNT | FILOT | FILEQ => bool_decide (op_type op = BINOP)
  | _ => bool_decide (op_type op = UNOP)
  end.

Lemma ops_shape (op : t_op) : op ∈ ops -> op_shape op = true.
Proof.
  assert (Forall (fun op => op_shape op = true) ops) as H.
  { repeat constructor. }
  rewrite Forall_forall in H. apply H.
Qed.

Lemma lex_op_inv (ws : list string) (w : string) (op : t_op) :
  lex_op ws w = Some op -> find_op w = Some op /\ (op_type op = UNOP -> isop ws = false).
Proof.
  unfold lex_op. destruct (find_op w) as [o|]; [|done]. simpl.
  destruct (_ || _) eqn:Hb; [done|]. intros [= ->]. split; [done|].
  intros Hu. rewrite bool_decide_true in Hb by done. bool_prop. done.
Qed.

Lemma cur_op_inv (ws : list string) (op : t_op) :
  cur_op ws = Some op ->
  exists w ws', ws = w :: ws' /\ find_op w = Some op /\ cur_tok ws = op_num op /\
    (op_type op = UNOP -> isop ws = false).
Proof.
  destruct ws as [|w ws]; [done|]. unfold cur_op, cur_tok, peek_op, peek_tok. simpl.
  intros H. rewrite H. apply lex_op_inv in H as [H1 H2]. eauto 10.
Qed.

Lemma lex_op_other (ws : list string) (w : string) (op : t_op) :
  find_op w = Some op -> op_type op <> UNOP -> op_type op <> PAREN -> lex_op ws w = Some op.
Proof.
  intros Hf Hu Hp. unfold lex_op. rewrite Hf. simpl. rewrite bool_decide_false by done.
  destruct (find_op_elem _ _ Hf) as [Hin _]. pose proof (ops_shape _ Hin) as Hs.
  rewrite bool_decide_false; [done|]. intros Hn. unfold op_shape in Hs. rewrite Hn in Hs.
  by apply bool_decide_eq_true in Hs.
Qed.

(** A token that is not OPERAND or EOI comes from an operator. *)
Lemma cur_tok_op (ws : list string) :
  cur_tok ws <> OPERAND -> cur_tok ws <> EOI ->
  exists op, cur_op ws = Some op /\ op_num op = cur_tok ws.
Proof.
  destruct ws as [|w ws]; unfold cur_tok, cur_op, peek_tok, peek_op; simpl; [done|].
  destruct (lex_op (w :: ws) w) as [op|]; simpl; [eauto|done].
Qed.

(** ** Safety *)

Lemma getnum_post (lo hi : Z) (x : string) (s : tstate) :
  tpost (getnum lo hi x s) (fun _ s' => s' = s).
Proof.
  unfold getnum. destruct (strto lo hi x) as [[[r p] [|]]|]; [done| |done].
  by destruct (skip_space p).
Qed.

Lemma intcmp_post (a b : string) (s : tstate) : tpost (intcmp a b s) (fun _ s' => s' = s).
Proof.
  unfold intcmp. apply tpost_bind. eapply tpost_mono; [apply getnum_post|]. intros q1 ? ->.
  apply tpost_bind. eapply tpost_mono; [apply getnum_post|]. by intros q2 ? ->.
Qed.

Lemma intcmp_bind_post {B} (a b : string) (f : Z -> B) (s : tstate) :
  tpost ((c ← intcmp a b; mret (f c)) s) (fun _ s' => s' = s).
Proof. apply tpost_bind. eapply tpost_mono; [apply intcmp_post|]. by intros c ? ->. Qed.

Lemma binop_switch_post (E : env) (op : t_op) (a b : string) (s : tstate) :
  op ∈ ops -> op_type op = BINOP -> tpost (binop_switch E op a b s) (fun _ s' => s' = s).
Proof.
  intros Hin Ht. apply ops_shape in Hin. unfold op_shape in Hin. rewrite Ht in Hin.
  unfold binop_switch. destruct (op_num op); try discriminate Hin; try apply intcmp_bind_post; done.
Qed.

Lemma unary_switch_post (E : env) (n : token) (w : string) (s : tstate) :
  tpost (unary_switch E n w s) (fun _ s' => s' = s).
Proof.
  unfold unary_switch. destruct n; try done. apply tpost_bind.
  eapply tpost_mono; [apply getnum_post|]. by intros c ? ->.
Qed.

Section Safety.
  Context (E : env) (argv : list (option string)) (args : list string).
  Context (a0 : option string) (tl : list (option string)).
  Hypothesis Hargv : argv = a0 :: (Some <$> args) ++ None :: tl.

  (** The run ends in a state with at most [n] arguments left. *)
Definition leaves {A} (r : tres (A * tstate)) (lo hi : nat) : Prop :=
    tpost r (fun _ s => exists n op, s = st args n op /\ (lo <= n <= hi)%nat).

Lemma binop_post (n : nat) (w : string) (op : t_op) (op0 : option t_op) :
    (n <= length args)%nat -> rem args n !! 1%nat = Some w ->
    find_op w = Some op -> op_type op = BINOP ->
    leaves (binop E argv (st args n op0)) 0 n.
Proof.
    intros Hn Hw Hf Ht. pose proof (rem_length args n Hn) as Hl.
    destruct n as [|n]; [by rewrite rem_0 in Hw|].
    destruct (rem args (S n)) as [|x [|y ws]] eqn:Hr; [done..|]. injection Hw as ->.
    pose proof (rem_S args n x _ ltac:(lia) Hr) as Hr'.
    unfold leaves, binop. rewrite (bind_ok _ _ _ _ _ (word_at_0 _ _ _ _ Hargv (S n) op0 Hn)).
    rewrite (bind_ok _ _ _ _ _ (next_token_st _ _ _ _ Hargv n op0 Hn)).
    rewrite (bind_ok tget _ _ _ _ eq_refl).
    assert (cur_op (rem args n) = Some op) as Hc.
    { rewrite Hr', cur_op_cons. apply lex_op_other; [done|by rewrite Ht..]. }
    rewrite Hc, Hr. simpl in Hl.
    destruct n as [|n]; [lia|]. rewrite (bind_ok _ _ _ _ _ (advance_st _ _ _ _ Hargv n _ ltac:(lia))).
    cbn [t_wp_op st head deref]. destruct (head (rem args n)) as [o2|].
    - eapply tpost_mono; [apply binop_switch_post; [by apply find_op_elem in Hf as []|done]|].
      intros r s ->. exists n, (Some op). split; [done|lia].
    - by destruct (op_text op).
Qed.

  (** [strlen( *t_wp ) > 0] *)
Lemma bare_operand (n : nat) (op : option t_op) :
    (1 <= n <= length args)%nat ->
    leaves ((w ← word_at argv 0; w ← deref w;
             mret (b2z (negb (Nat.eqb (String.length w) 0)))) (st args n op)) 0 n.
Proof.
    intros Hn. pose proof (rem_length args n ltac:(lia)) as Hl. unfold leaves.
    rewrite (bind_ok _ _ _ _ _ (word_at_0 _ _ _ _ Hargv n op ltac:(lia))).
    destruct (rem args n) as [|u ws]; simpl in Hl; [lia|].
    exists n, op. split; [done|lia].
Qed.

Lemma operand_post (n : nat) (op0 : option t_op) :
    (1 <= n <= length args)%nat -> leaves (operand E argv (st args n op0)) 0 n.
Proof.
    intros Hn. pose proof (rem_length args n ltac:(lia)) as Hl.
    unfold leaves, operand. rewrite (bind_ok tget _ _ _ _ eq_refl). cbn [nargc st].
    destruct (Z.ltb_spec 0 (Z.of_nat n)); [|lia].
    rewrite (bind_ok _ _ _ _ _ (word_at_st _ _ _ _ Hargv n 1 op0 ltac:(lia) ltac:(lia))).
    change (Z.to_nat 1) with 1%nat.
    rewrite (bind_ok _ _ _ _ _ (t_lex_st _ _ _ _ Hargv n op0 (rem args n !! 1%nat) ltac:(lia) ltac:(lia))).
    rewrite (bind_ok tget _ _ _ _ eq_refl).
    cbn [t_wp_op st].
    destruct (peek_op (rem args n) (rem args n !! 1%nat)) as [[x k ty]|] eqn:Hp.
    - unfold peek_op in Hp. destruct (rem args n !! 1%nat) as [w|] eqn:Hw; [|done]. simpl in Hp.
      apply lex_op_inv in Hp as [Hf _].
      destruct ty; try (by apply bare_operand).
      apply (binop_post n w {| op_text := x; op_num := k; op_type := BINOP |}); done || lia.
    - by apply bare_operand.
Qed.

Lemma unary_post (n : nat) (op : t_op) (k : token) (op0 : option t_op) :
    (2 <= n <= length args)%nat -> leaves (unary E argv op k (st args n op0)) 0 n.
Proof.
    intros Hn. destruct n as [|n]; [lia|]. pose proof (rem_length args n ltac:(lia)) as Hl.
    unfold leaves, unary. rewrite (bind_ok tget _ _ _ _ eq_refl).
    rewrite (bind_ok (tput _) _ _ _ _ eq_refl). cbn [nargc st t_wp t_wp_op].
    destruct (Z.eqb_spec (Z.of_nat (S n) - 1) 0); [lia|].
    unfold next_word. apply tpost_bind. rewrite (bind_ok tget _ _ _ _ eq_refl).
    rewrite (bind_ok (tput _) _ _ _ _ eq_refl). cbn [nargc st t_wp t_wp_op].
    replace (mk_tstate _ _ _) with (st args n op0) by (unfold st; f_equal; lia).
    rewrite (bind_ok _ _ _ _ _ (word_at_0 _ _ _ _ Hargv n op0 ltac:(lia))).
    destruct (rem args n) as [|u ws]; simpl in Hl; [lia|]. cbn.
    eapply tpost_mono; [apply unary_switch_post|].
    intros r s ->. exists n, op0. split; [done|lia].
Qed.
Lemma leaves_weaken {A} (r : tres (A * tstate)) (lo hi lo' hi' : nat) :
    leaves r lo hi -> (lo' <= lo)%nat -> (hi <= hi')%nat -> leaves r lo' hi'.
Proof.
    intros H Hlo Hhi. eapply tpost_mono; [exact H|].
    intros a s (n & op & -> & Hn). exists n, op. split; [done|lia].
Qed.

Lemma leaves_bind {A B} (m : tm A) (f : A -> tm B) (s : tstate) (lo hi lo' hi' : nat) :
    leaves (m s) lo hi ->
    (forall a n op, (lo <= n <= hi)%nat -> leaves (f a (st args n op)) lo' hi') ->
    leaves ((m ≫= f) s) lo' hi'.
Proof.
    intros Hm Hf. apply tpost_bind. eapply tpost_mono; [exact Hm|].
    intros a s' (n & op & -> & Hn). by apply Hf.
Qed.

  (** The state in which a function of the parser is called with [n]
      arguments left, and its token. *)
Definition at_tok {A} (f : token -> tm A) (n : nat) : tres (A * tstate) :=
    f (cur_tok (rem args n)) (st args n (cur_op (rem args n))).

Lemma leaves_ret (r : Z) (n lo hi : nat) (op : option t_op) :
    (lo <= n <= hi)%nat -> leaves ((mret r : tm Z) (st args n op)) lo hi.
Proof. intros. exists n, op. done. Qed.

  (** The common shape of [oexpr] and [aexpr]: an operand, then either the
      connective [c] and the rest, or a step back. *)
Lemma chain_safe (m : token -> tm Z) (again : token -> tm Z) (c : token) (g : Z -> Z -> Z) (n lo : nat) :
    (1 <= length args)%nat -> (n <= length args)%nat -> c <> EOI ->
    leaves (at_tok m n) lo (Nat.max n 1) ->
    (forall k, (S k < n)%nat -> leaves (at_tok again k) 1 (Nat.max k 1)) ->
    leaves (at_tok (fun t => res ← m t; k ← next_token argv;
              if decide (k = c) then k ← next_token argv; r ← again k; mret (g r res)
              else push_back;; mret res) n) 1 (Nat.max n 1).
Proof.
    intros Hk Hn Hc Hm Hag. unfold at_tok. eapply leaves_bind; [exact Hm|].
    intros res j op Hj.
    rewrite (bind_ok _ _ _ _ _ (next_token_pred _ _ _ _ Hargv j op ltac:(lia))).
    case_decide as Ht.
    - rewrite <- Ht in Hc. apply cur_tok_EOI in Hc; [|lia].
      rewrite (bind_ok _ _ _ _ _ (next_token_pred _ _ _ _ Hargv (pred j) _ ltac:(lia))).
      eapply leaves_bind; [apply (Hag (pred (pred j))); lia|].
      intros r i op' Hi. apply leaves_ret. lia.
    - rewrite (bind_ok _ _ _ _ _ (push_back_st _ _ _)). apply leaves_ret. lia.
Qed.

Lemma expr_safe (fuel n : nat) :
    (1 <= length args)%nat -> (n <= length args)%nat ->
    ((4 * n + 4 <= fuel)%nat -> leaves (at_tok (oexpr E argv fuel) n) 1 (Nat.max n 1)) /\
    ((4 * n + 3 <= fuel)%nat -> leaves (at_tok (aexpr E argv fuel) n) 1 (Nat.max n 1)) /\
    ((4 * n + 2 <= fuel)%nat -> leaves (at_tok (nexpr E argv fuel) n) 0 n) /\
    ((4 * n + 1 <= fuel)%nat -> leaves (at_tok (primary E argv fuel) n) 0 n).
Proof.
    intros Hk. revert n. induction fuel as [|fuel IH]; intros n Hn; [lia|].
    split_and!; intros Hf.
    - apply (chain_safe (aexpr E argv fuel) (oexpr E argv fuel) BOR
               (fun r res => b2z (truth r || truth res)) n 1); [done|done|done|apply IH; lia|].
      intros k Hlt. apply IH; lia.
    - apply (chain_safe (nexpr E argv fuel) (aexpr E argv fuel) BAND
               (fun r res => b2z (truth r && truth res)) n 0); [done|done|done| |].
      + eapply leaves_weaken; [apply IH; lia|lia|lia].
      + intros k Hlt. apply IH; lia.
    - unfold at_tok. cbn [nexpr]. case_decide as Ht; [|apply IH; lia].
      assert (n <> 0%nat) by (apply (cur_tok_EOI args); [done|by rewrite Ht]).
      rewrite (bind_ok _ _ _ _ _ (next_token_pred _ _ _ _ Hargv n _ ltac:(lia))).
      eapply leaves_bind; [apply (IH (pred n)); lia|].
      intros r i op' Hi. apply leaves_ret. lia.
    - unfold at_tok. cbn [primary]. case_decide as He; [apply leaves_ret; lia|].
      apply cur_tok_EOI in He; [|done]. case_decide as Hl.
      + rewrite (bind_ok _ _ _ _ _ (next_token_pred _ _ _ _ Hargv n _ ltac:(lia))).
        case_decide; [apply leaves_ret; lia|].
        eapply leaves_bind; [apply (IH (pred n)); lia|]. intros r i op' Hi.
        rewrite (bind_ok _ _ _ _ _ (next_token_pred _ _ _ _ Hargv i _ ltac:(lia))).
        case_decide; [apply leaves_ret; lia|done].
      + rewrite (bind_ok tget _ _ _ _ eq_refl). cbn [t_wp_op st].
        destruct (cur_op (rem args n)) as [[x k ty]|] eqn:Ho; [|apply operand_post; lia].
        destruct ty; try (apply operand_post; lia). apply unary_post.
        apply cur_op_inv in Ho as (w & ws & Hr & _ & _ & Hi). specialize (Hi eq_refl).
        assert (n <> 1%nat); [|lia]. intros ->. pose proof (rem_length args 1 ltac:(lia)) as Hlen.
        rewrite Hr in Hi, Hlen. by destruct ws.
Qed.

Lemma test_expr_safe :
    exists r, test_expr E argv (Z.of_nat (length args) + 1) = r /\
      match r with TOk v => v = 0 \/ v = 1 | TExit _ => True | TFault _ => False end.
Proof.
    eexists; split; [done|]. unfold test_expr.
    replace (Z.of_nat (length args) + 1 - 1) with (Z.of_nat (length args)) by lia.
    destruct (Z.leb_spec (Z.of_nat (length args)) 0) as [|Hk]; [by right|].
    replace (mk_tstate 1 _ None) with (st args (length args) None) by (unfold st; f_equal; lia).
    rewrite (bind_ok _ _ _ _ _ (word_at_0 _ _ _ _ Hargv (length args) None ltac:(lia))).
    rewrite (bind_ok _ _ _ _ _ (t_lex_st _ _ _ _ Hargv (length args) None _ ltac:(lia)
               (proj1 (head_rem_some args (length args) ltac:(lia))))).
    destruct (expr_safe (parse_fuel (Z.of_nat (length args))) (length args)) as (Ho & _); [lia|lia|].
    specialize (Ho ltac:(unfold parse_fuel; lia)). unfold leaves, at_tok, tpost in Ho.
    unfold mbind at 1, tm_bind at 1.
    destruct (oexpr _ _ _ _ _) as [[r s]| |]; [|done..].
    destruct Ho as (n & op & -> & Hn). rewrite (bind_ok tget _ _ _ _ eq_refl).
    rewrite (bind_ok (tput _) _ _ _ _ eq_refl). cbn [nargc st t_wp t_wp_op].
    destruct (Z.ltb_spec 0 (Z.of_nat n - 1)).
    - unfold word_at, lift, mbind, tm_bind, tget. cbn [t_wp].
      destruct (rd_ok argv (Z.of_nat (length args) + 1 - Z.of_nat n + 0)) as [v ->].
      { rewrite Hargv. simpl. rewrite length_app, length_fmap. simpl. lia. }
      destruct v as [[]|]; done.
    - simpl. destruct (truth r); simpl; auto.
Qed.
End Safety.
