(* ===== verification/TestCmdSpec.v ===== *)
(** * What [test] means, and that the parser computes it

    The expressions of the grammar of src/motobox/test.c as an inductive type,
    their meaning in an environment and their canonical argument list.  The
    theorems: [test_main] ends on every argument list with status 0, 1 or an
    error message, without touching anything outside the argument vector, and
    on the arguments of an expression it returns the meaning of the expression.
    The integer primaries accept exactly a signed decimal number between
    blanks, within the range of [intmax_t]. *)

From stdpp Require Import base list numbers option strings sets.
From Stdlib Require Import Ascii ZArith Lia.
From S2P Require Import Prelude CStrings TestCmd TestCmdFacts.

Local Open Scope string_scope.
Local Open Scope Z_scope.

(** ** Expressions *)

Inductive expr :=
| Operand (w : string)
| Unary (op : t_op) (w : string)
| Binary (a : string) (op : t_op) (b : string)
| Not (e : expr)
| And (e1 e2 : expr)
| Or (e1 e2 : expr).

(** A value, or the message of the error that ends the run. *)
Definition evr (A : Type) : Type := (string + A)%type.

Definition emap2 {A B C} (f : A -> B -> C) (x : evr A) (y : evr B) : evr C :=
  match x, y with
  | inl m, _ => inl m
  | inr _, inl m => inl m
  | inr a, inr b => inr (f a b)
  end.

Definition emap {A B} (f : A -> B) (x : evr A) : evr B :=
  match x with inl m => inl m | inr a => inr (f a) end.

(** The number that [s] denotes in a type with the range [lo .. hi]. *)
Definition num_value (lo hi : Z) (s : string) : evr Z :=
  match strto lo hi s with
  | None => inl (s ++ ": bad number")
  | Some (_, _, true) => inl (s ++ ": out of range")
  | Some (r, p, false) =>
      match skip_space p with EmptyString => inr r | _ => inl (s ++ ": bad number") end
  end.

Definition int_value : string -> evr Z := num_value INTMAX_MIN INTMAX_MAX.

Definition eval_unary (E : env) (k : token) (w : string) : evr bool :=
  match k with
  | STREZ => inr (String.eqb w "")
  | STRNZ => inr (negb (String.eqb w ""))
  | FILTT => emap (fun fd => truth (isatty E fd)) (num_value LONG_MIN LONG_MAX w)
  | _ => inr (filstat E w k)
  end.

Definition eval_binary (E : env) (k : token) (a b : string) : evr bool :=
  match k with
  | STREQ => inr (bool_decide (a = b))
  | STRNE => inr (bool_decide (a <> b))
  | STRLT => inr (bool_decide (String.compare a b = Lt))
  | STRGT => inr (bool_decide (String.compare a b = Gt))
  | INTEQ => emap2 Z.eqb (int_value a) (int_value b)
  | INTNE => emap2 (fun x y => negb (x =? y)) (int_value a) (int_value b)
  | INTGE => emap2 Z.geb (int_value a) (int_value b)
  | INTGT => emap2 Z.gtb (int_value a) (int_value b)
  | INTLE => emap2 Z.leb (int_value a) (int_value b)
  | INTLT => emap2 Z.ltb (int_value a) (int_value b)
  | FILNT => inr (newerf E a b)
  | FILOT => inr (newerf E b a)
  | _ => inr (equalf E a b)
  end.

(** Both sides of a connective are evaluated, from left to right. *)
Fixpoint eval (E : env) (e : expr) : evr bool :=
  match e with
  | Operand w => inr (negb (String.eqb w ""))
  | Unary op w => eval_unary E (op_num op) w
  | Binary a op b => eval_binary E (op_num op) a b
  | Not e => emap negb (eval E e)
  | And e1 e2 => emap2 andb (eval E e1) (eval E e2)
  | Or e1 e2 => emap2 orb (eval E e1) (eval E e2)
  end.

(** The arguments of an expression; [lvl] is the level of the grammar it has
    to stand at (0 [oexpr], 1 [aexpr], 2 [nexpr], 3 [primary]). *)
Definition prec (e : expr) : nat :=
  match e with Or _ _ => 0 | And _ _ => 1 | Not _ => 2 | _ => 3 end.

Definition parens (b : bool) (ws : list string) : list string :=
  if b then "(" :: ws ++ [")"] else ws.

Fixpoint show (lvl : nat) (e : expr) : list string :=
  parens (prec e <? lvl)%nat
    match e with
    | Operand w => [w]
    | Unary op w => [op_text op; w]
    | Binary a op b => [a; op_text op; b]
    | Not e => "!" :: show 2 e
    | And e1 e2 => show 2 e1 ++ "-a" :: show 1 e2
    | Or e1 e2 => show 1 e1 ++ "-o" :: show 0 e2
    end.

(** The operands that the grammar can tell from operators: a lone operand is
    no operator; the operand of a unary operator is no binary operator; the
    left operand of a binary operator is no operator, or a unary one if the
    right operand is not [)]. *)
Definition is_type (ty : token_types) (w : string) : bool :=
  match find_op w with Some op => bool_decide (op_type op = ty) | None => false end.

Fixpoint wf (e : expr) : Prop :=
  match e with
  | Operand w => find_op w = None
  | Unary op w => op ∈ ops /\ op_type op = UNOP /\ is_type BINOP w = false
  | Binary a op b =>
      op ∈ ops /\ op_type op = BINOP /\ no_char NUL a /\ no_char NUL b /\
      (find_op a = None \/ is_type UNOP a = true /\ b <> ")")
  | Not e => wf e
  | And e1 e2 | Or e1 e2 => wf e1 /\ wf e2
  end.

(** Proves [wf e] for a concrete [e]. *)
Ltac wf_concrete :=
  cbn [wf no_char];
  repeat match goal with
  | |- _ /\ _ => split
  | |- _ ∈ ops => apply (bool_decide_unpack _); vm_compute; exact I
  | |- _ <> _ => discriminate
  | |- _ \/ _ => first [left; reflexivity | right; split; [reflexivity|discriminate]]
  | |- _ => reflexivity || exact I
  end.

(** ** Comparison of strings *)

Lemma byte_of_inj (c d : ascii) : byte_of c = byte_of d -> c = d.
Proof.
  unfold byte_of. intros H. rewrite <- (ascii_nat_embedding c), <- (ascii_nat_embedding d).
  f_equal. lia.
Qed.

Lemma byte_of_pos (c : ascii) : c <> NUL -> 0 < byte_of c.
Proof.
  intros H. assert (byte_of c <> byte_of NUL) as Hn by (intros E; by apply byte_of_inj in E).
  unfold byte_of in *. change (nat_of_ascii NUL) with 0%nat in Hn. lia.
Qed.

Lemma ascii_compare_byte (c d : ascii) : Ascii.compare c d = (byte_of c ?= byte_of d).
Proof. unfold Ascii.compare, byte_of, nat_of_ascii. rewrite !N_nat_Z. by rewrite N2Z.inj_compare. Qed.

Lemma strcmp_compare (a b : string) :
  no_char NUL a -> no_char NUL b -> (strcmp a b ?= 0) = String.compare a b.
Proof.
  revert b. induction a as [|c a IH]; intros [|d b]; simpl; [done|intros _ [Hd _]|intros [Hc _] _|].
  - apply byte_of_pos in Hd. apply Z.compare_lt_iff. lia.
  - apply byte_of_pos in Hc. apply Z.compare_gt_iff. lia.
  - intros [Hc Ha] [Hd Hb]. rewrite ascii_compare_byte. destruct (Ascii.eqb_spec c d) as [->|Hne].
    + rewrite Z.compare_refl. by apply IH.
    + destruct (Z.compare_spec (byte_of c) (byte_of d)) as [E|E|E];
        [by apply byte_of_inj in E|apply Z.compare_lt_iff; lia|apply Z.compare_gt_iff; lia].
Qed.

Lemma strcmp_refl (a : string) : strcmp a a = 0.
Proof. induction a as [|c a IH]; simpl; [done|]. by rewrite Ascii.eqb_refl. Qed.

Lemma strcmp_eq (a b : string) : no_char NUL a -> no_char NUL b -> strcmp a b = 0 <-> a = b.
Proof.
  intros Ha Hb. split; [|intros ->; apply strcmp_refl]. intros H.
  apply String.compare_eq_iff. rewrite <- strcmp_compare by done. by rewrite H.
Qed.

(** ** The primaries compute their meaning *)

(** The run returns the value [v] and leaves [n] arguments, or ends with its
    error. *)
Definition runs_as (args : list string) (r : tres (Z * tstate)) (v : evr bool) (n : nat) : Prop :=
  match v with
  | inl m => r = TExit m
  | inr b => exists z op, r = TOk (z, st args n op) /\ truth z = b
  end.

Lemma getnum_value (lo hi : Z) (x : string) (s : tstate) :
  getnum lo hi x s = match num_value lo hi x with inl m => TExit m | inr v => TOk (v, s) end.
Proof.
  unfold getnum, num_value. destruct (strto lo hi x) as [[[r p] [|]]|]; [done| |done].
  by destruct (skip_space p).
Qed.

Lemma truth_b2z (b : bool) : truth (b2z b) = b.
Proof. by destruct b. Qed.

Lemma intcmp_runs (args : list string) (a b : string) (f : Z -> Z -> bool) (g : Z -> bool)
    (n : nat) (op : option t_op) :
  (forall x y, g (if y <? x then 1 else if x <? y then -1 else 0) = f x y) ->
  runs_as args ((c ← intcmp a b; mret (b2z (g c))) (st args n op))
    (emap2 f (int_value a) (int_value b)) n.
Proof.
  intros Hg. unfold intcmp, getq, runs_as, int_value, mbind, tm_bind. rewrite !getnum_value.
  destruct (num_value _ _ a) as [m|x]; simpl; [done|]. rewrite getnum_value.
  destruct (num_value _ _ b) as [m|y]; simpl; [done|].
  eexists _, op. split; [done|]. by rewrite truth_b2z.
Qed.

Lemma binop_switch_runs (E : env) (args : list string) (op : t_op) (a b : string)
    (n : nat) (o : option t_op) :
  op ∈ ops -> op_type op = BINOP -> no_char NUL a -> no_char NUL b ->
  runs_as args (binop_switch E op a b (st args n o)) (eval_binary E (op_num op) a b) n.
Proof.
  intros Hin Ht Ha Hb. apply ops_shape in Hin. unfold op_shape in Hin. rewrite Ht in Hin.
  pose proof (strcmp_compare a b Ha Hb) as Hc. pose proof (strcmp_eq a b Ha Hb) as He.
  unfold binop_switch, eval_binary. destruct (op_num op); try discriminate Hin;
    try (apply intcmp_runs; intros x y;
         destruct (Z.ltb_spec y x), (Z.ltb_spec x y); simpl; symmetry;
         rewrite ?Z.geb_leb, ?Z.gtb_ltb, ?negb_true_iff, ?negb_false_iff, ?Z.eqb_eq, ?Z.eqb_neq,
           ?Z.leb_le, ?Z.leb_gt, ?Z.ltb_lt, ?Z.ltb_ge; lia);
    (eexists _, o; split; [reflexivity|rewrite truth_b2z]); try reflexivity.
  - destruct (Z.eqb_spec (strcmp a b) 0); symmetry;
      [apply bool_decide_eq_true|apply bool_decide_eq_false]; tauto.
  - destruct (Z.eqb_spec (strcmp a b) 0); symmetry;
      [apply bool_decide_eq_false|apply bool_decide_eq_true]; tauto.
  - rewrite <- Hc. destruct (Z.ltb_spec (strcmp a b) 0); symmetry;
      [apply bool_decide_eq_true|apply bool_decide_eq_false]; by rewrite Z.compare_lt_iff; lia.
  - rewrite <- Hc. destruct (Z.ltb_spec 0 (strcmp a b)); symmetry;
      [apply bool_decide_eq_true|apply bool_decide_eq_false]; by rewrite Z.compare_gt_iff; lia.
Qed.

Lemma length_eqb_0 (w : string) : (String.length w =? 0)%nat = String.eqb w "".
Proof. by destruct w. Qed.

Lemma unary_switch_runs (E : env) (args : list string) (k : token) (w : string) (n : nat) (o : option t_op) :
  runs_as args (unary_switch E k w (st args n o)) (eval_unary E k w) n.
Proof.
  unfold unary_switch, eval_unary, getn. rewrite length_eqb_0.
  destruct k; try (eexists _, o; split; [reflexivity|by rewrite truth_b2z]).
  unfold mbind, tm_bind. rewrite getnum_value.
  destruct (num_value _ _ w) as [m|v]; [done|]. by eexists _, o.
Qed.

(** ** The lexer on the canonical arguments *)

Lemma op_text_find (op : t_op) : op ∈ ops -> find_op (op_text op) = Some op.
Proof.
  assert (Forall (fun op => find_op (op_text op) = Some op) ops) as H.
  { repeat constructor. }
  rewrite Forall_forall in H. apply H.
Qed.

Lemma isoperand_in_find (s t : string) :
  isoperand_in ops s t = is_type BINOP s && negb (strcmp t ")" =? 0).
Proof.
  unfold is_type, find_op. induction ops as [|op l IH]; [done|]. cbn [isoperand_in list_find].
  destruct (decide (strcmp s (op_text op) = 0)) as [Heq|Hne].
  - by rewrite (proj2 (Z.eqb_eq _ _) Heq).
  - rewrite (proj2 (Z.eqb_neq _ _) Hne), IH. by destruct (list_find _ l) as [[]|].
Qed.

Lemma isop_cons3 (w s t : string) (ws : list string) :
  isop (w :: s :: t :: ws) = is_type BINOP s && negb (strcmp t ")" =? 0).
Proof. apply isoperand_in_find. Qed.

Lemma lex_unary (op : t_op) (w : string) (rest : list string) :
  op ∈ ops -> op_type op = UNOP -> is_type BINOP w = false ->
  lex_op (op_text op :: w :: rest) (op_text op) = Some op.
Proof.
  intros Hin Ht Hw. unfold lex_op. rewrite op_text_find by done. cbn [mbind option_bind].
  replace (isop _) with false.
  2: { destruct rest as [|t rest]; [done|]. by rewrite isop_cons3, Hw. }
  rewrite andb_false_r. apply ops_shape in Hin. unfold op_shape in Hin. rewrite Ht in Hin.
  by rewrite bool_decide_false by (intros E; by rewrite E in Hin).
Qed.

Lemma lex_left (a b : string) (op : t_op) (rest : list string) :
  op ∈ ops -> op_type op = BINOP -> no_char NUL b ->
  find_op a = None \/ is_type UNOP a = true /\ b <> ")" ->
  lex_op (a :: op_text op :: b :: rest) a = None.
Proof.
  intros Hin Ht Hb [Ha|[Ha Hp]]; unfold lex_op; [by rewrite Ha|].
  unfold is_type in Ha. destruct (find_op a) as [o|]; [|done]. cbn [mbind option_bind].
  rewrite Ha, isop_cons3. unfold is_type. rewrite op_text_find, Ht by done.
  destruct (Z.eqb_spec (strcmp b ")") 0) as [E|]; [|done].
  apply strcmp_eq in E; done.
Qed.

(** What may follow an expression of a level of the grammar. *)
Definition followed_by (cs rest : list string) : Prop :=
  match rest with [] => True | w :: _ => w ∈ cs end.

Definition follow (lvl : nat) : list string :=
  match lvl with O => [")"] | 1%nat => [")"; "-o"] | _ => [")"; "-o"; "-a"] end.

Lemma follow_op (lvl : nat) (w : string) :
  w ∈ follow lvl -> exists op, find_op w = Some op /\ op_type op <> UNOP /\ op_type op <> BINOP /\
    op_num op <> LPAREN /\ (lvl <= 1 -> op_num op <> BAND)%nat /\ (lvl = 0%nat -> op_num op <> BOR).
Proof.
  assert (follow lvl ⊆ follow 2) as Hsub by (destruct lvl as [|[|lvl]]; set_solver).
  intros Hw. assert (w = ")" \/ w = "-o" \/ w = "-a") as H by (apply Hsub in Hw; set_solver).
  destruct H as [->|[->| ->]];
    (eexists; split; [vm_compute; reflexivity|]); (split_and!; [done..| |]); intros; try done;
    destruct lvl as [|[|lvl]]; (lia || set_solver).
Qed.

Lemma follow_lex (lvl : nat) (ws : list string) (w : string) :
  w ∈ follow lvl -> exists op, lex_op ws w = Some op /\ op_type op <> BINOP /\
    (lvl <= 1 -> op_num op <> BAND)%nat /\ (lvl = 0%nat -> op_num op <> BOR).
Proof.
  intros Hw. destruct (follow_op _ _ Hw) as (op & Hf & Hu & Hb & Hl & Ha & Ho).
  exists op. split_and!; [|done..]. unfold lex_op. rewrite Hf. cbn [mbind option_bind].
  by rewrite !bool_decide_false by done.
Qed.

(** ** The parser on the canonical arguments *)

Section Sim.
  Context (E : env) (argv : list (option string)) (args : list string).
  Context (a0 : option string) (tl : list (option string)).
  Hypothesis Hargv : argv = a0 :: (Some <$> args) ++ None :: tl.

Lemma rem_split (n : nat) (pre rest : list string) :
    (n <= length args)%nat -> rem args n = (pre ++ rest)%list ->
    n = (length pre + length rest)%nat /\ rem args (length rest) = rest.
Proof.
    intros Hn Hr. pose proof (rem_length args n Hn) as Hl. rewrite Hr, length_app in Hl.
    split; [done|]. unfold rem in *.
    replace (length args - length rest)%nat with (length args - n + length pre)%nat by lia.
    by rewrite <- drop_drop, Hr, drop_app_length.
Qed.

Lemma binop_runs (n : nat) (a b : string) (op : t_op) (rest : list string) (o : option t_op) :
    (n <= length args)%nat -> rem args n = a :: op_text op :: b :: rest ->
    op ∈ ops -> op_type op = BINOP -> no_char NUL a -> no_char NUL b ->
    runs_as args (binop E argv (st args n o)) (eval_binary E (op_num op) a b) (S (length rest)).
Proof.
    intros Hn Hr Hin Ht Ha Hb.
    destruct (rem_split n [a; op_text op; b] rest Hn Hr) as [Hlen _].
    destruct (rem_split n [a; op_text op] (b :: rest) Hn Hr) as [_ Hrb].
    destruct (rem_split n [a] (op_text op :: b :: rest) Hn Hr) as [_ Hro].
    cbn [length Nat.add] in *. subst n.
    unfold binop. rewrite (bind_ok _ _ _ _ _ (word_at_0 _ _ _ _ Hargv _ o Hn)), Hr. cbn [head].
    rewrite (bind_ok _ _ _ _ _ (next_token_st _ _ _ _ Hargv _ o Hn)), Hro.
    rewrite (bind_ok tget _ _ _ _ eq_refl), cur_op_cons.
    rewrite lex_op_other with (op := op); [|by apply op_text_find|by rewrite Ht..].
    rewrite (bind_ok _ _ _ _ _ (advance_st _ _ _ _ Hargv (S (length rest)) _ ltac:(lia))), Hrb.
    cbn [t_wp_op st head]. rewrite (bind_ok (deref (Some a)) _ _ _ _ eq_refl).
    by apply binop_switch_runs.
Qed.

Lemma bare_operand_runs (n : nat) (w : string) (rest : list string) (o : option t_op) :
    (n <= length args)%nat -> rem args n = w :: rest ->
    runs_as args ((w ← word_at argv 0; w ← deref w;
                   mret (b2z (negb (Nat.eqb (String.length w) 0)))) (st args n o))
      (inr (negb (String.eqb w ""))) (S (length rest)).
Proof.
    intros Hn Hr. destruct (rem_split n [w] rest Hn Hr) as [-> _].
    rewrite (bind_ok _ _ _ _ _ (word_at_0 _ _ _ _ Hargv _ o Hn)), Hr.
    eexists _, o. split; [done|]. by rewrite truth_b2z, length_eqb_0.
Qed.

Lemma operand_peek (n : nat) (w : string) (rest : list string) (o : option t_op) :
    (n <= length args)%nat -> rem args n = w :: rest ->
    operand E argv (st args n o) =
      let o' := peek_op (rem args n) (head rest) in
      match o' with
      | Some {| op_type := BINOP |} => binop E argv (st args n o')
      | _ => (w ← word_at argv 0; w ← deref w;
              mret (b2z (negb (Nat.eqb (String.length w) 0)))) (st args n o')
      end.
Proof.
    intros Hn Hr. destruct (rem_split n [w] rest Hn Hr) as [Hlen _]. simpl in Hlen.
    unfold operand. rewrite (bind_ok tget _ _ _ _ eq_refl). cbn [nargc st].
    destruct (Z.ltb_spec 0 (Z.of_nat n)); [|lia].
    rewrite (bind_ok _ _ _ _ _ (word_at_st _ _ _ _ Hargv n 1 o ltac:(lia) ltac:(lia))).
    replace (rem args n !! Z.to_nat 1) with (head rest) by (rewrite Hr; by destruct rest).
    rewrite (bind_ok _ _ _ _ _ (t_lex_st _ _ _ _ Hargv n o (head rest) ltac:(lia) ltac:(lia))).
    rewrite (bind_ok tget _ _ _ _ eq_refl). cbn [t_wp_op st]. cbv zeta.
    by destruct (peek_op (rem args n) (head rest)) as [[x k []]|].
Qed.
Lemma runs_as_bind (m : tm Z) (f : Z -> tm Z) (s : tstate) (v : evr bool) (k : bool -> evr bool) (n n' : nat) :
    runs_as args (m s) v n ->
    (forall z op, runs_as args (f z (st args n op)) (k (truth z)) n') ->
    runs_as args ((m ≫= f) s) (match v with inl e => inl e | inr b => k b end) n'.
Proof.
    intros Hm Hf. destruct v as [e|b]; simpl in Hm; [by apply bind_exit|].
    destruct Hm as (z & op & Hm & <-). rewrite (bind_ok _ _ _ _ _ Hm). apply Hf.
Qed.

  (** The common shape of [oexpr] and [aexpr]. *)
Definition chain (m again : token -> tm Z) (c : token) (h : bool -> bool -> bool) (t : token) : tm Z :=
    res ← m t; k ← next_token argv;
    if decide (k = c) then k ← next_token argv; r ← again k; mret (b2z (h (truth r) (truth res)))
    else push_back;; mret res.

Lemma chain_stop (m again : token -> tm Z) (c : token) h (n : nat) (v : evr bool) (rest : list string) :
    (S (length rest) <= length args)%nat -> rem args (length rest) = rest -> cur_tok rest <> c ->
    runs_as args (at_tok args m n) v (S (length rest)) ->
    runs_as args (at_tok args (chain m again c h) n) v (S (length rest)).
Proof.
    intros Hn Hr Hc Hm. unfold at_tok, chain.
    replace v with (match v with inl e => inl e | inr b => inr b end) by (by destruct v).
    eapply runs_as_bind; [exact Hm|]. intros z op.
    rewrite (bind_ok _ _ _ _ _ (next_token_st _ _ _ _ Hargv _ op Hn)), Hr.
    rewrite decide_False by done. rewrite (bind_ok _ _ _ _ _ (push_back_st _ _ _)).
    by eexists _, _.
Qed.

Lemma chain_go (m again : token -> tm Z) (c : token) h (n : nat) (v1 v2 : evr bool)
    (w : string) (ws rest : list string) :
    (S (S (length ws)) <= length args)%nat -> rem args (S (length ws)) = w :: ws ->
    cur_tok (w :: ws) = c ->
    runs_as args (at_tok args m n) v1 (S (S (length ws))) ->
    runs_as args (at_tok args again (length ws)) v2 (S (length rest)) ->
    runs_as args (at_tok args (chain m again c h) n) (emap2 (fun x y => h y x) v1 v2) (S (length rest)).
Proof.
    intros Hn Hr Hc Hm Hag. unfold at_tok, chain.
    replace (emap2 _ v1 v2) with
      (match v1 with inl e => inl e | inr b => emap (fun y => h y b) v2 end) by (by destruct v1, v2).
    eapply runs_as_bind; [exact Hm|]. intros z op.
    rewrite (bind_ok _ _ _ _ _ (next_token_st _ _ _ _ Hargv _ op Hn)), Hr.
    rewrite decide_True by done.
    rewrite (bind_ok _ _ _ _ _ (next_token_st _ _ _ _ Hargv (length ws) _ ltac:(lia))).
    unfold emap. eapply runs_as_bind; [exact Hag|]. intros z' op'.
    eexists _, _. split; [done|]. by rewrite truth_b2z.
Qed.

  (** [f], called at the first of the words [ws], computes [v] and stops at
      their end, whenever what follows is allowed at the level [lvl]. *)
Definition parses (f : nat -> token -> tm Z) (d lvl : nat) (ws : list string) (v : evr bool) : Prop :=
    forall n rest fuel,
      (n <= length args)%nat -> rem args n = (ws ++ rest)%list -> followed_by (follow lvl) rest ->
      (4 * n + d <= fuel)%nat -> runs_as args (at_tok args (f fuel) n) v (S (length rest)).

Lemma follow_cur_tok (lvl : nat) (rest : list string) :
    followed_by (follow lvl) rest ->
    ((lvl <= 1)%nat -> cur_tok rest <> BAND) /\ (lvl = 0%nat -> cur_tok rest <> BOR).
Proof.
    destruct rest as [|w rest]; [done|]. intros Hw.
    destruct (follow_lex lvl (w :: rest) w Hw) as (op & Hl & _ & Ha & Ho).
    rewrite cur_tok_cons, Hl. done.
Qed.

Lemma parses_aexpr (ws : list string) (v : evr bool) :
    ws <> [] -> parses (nexpr E argv) 2 2 ws v -> parses (aexpr E argv) 3 1 ws v.
Proof.
    intros Hne H n rest fuel Hn Hr Hf Hfu. destruct fuel as [|fuel]; [lia|].
    destruct (rem_split n ws rest Hn Hr) as [Hlen Hrr]. destruct ws as [|w ws]; [done|]. simpl in Hlen.
    apply (chain_stop (nexpr E argv fuel) (aexpr E argv fuel) BAND andb); [lia|done| |].
    - by apply (follow_cur_tok 1).
    - apply H; [done..| |lia]. destruct rest; [done|]. simpl in *. set_solver.
Qed.

Lemma parses_oexpr (ws : list string) (v : evr bool) :
    ws <> [] -> parses (aexpr E argv) 3 1 ws v -> parses (oexpr E argv) 4 0 ws v.
Proof.
    intros Hne H n rest fuel Hn Hr Hf Hfu. destruct fuel as [|fuel]; [lia|].
    destruct (rem_split n ws rest Hn Hr) as [Hlen Hrr]. destruct ws as [|w ws]; [done|]. simpl in Hlen.
    apply (chain_stop (aexpr E argv fuel) (oexpr E argv fuel) BOR orb); [lia|done| |].
    - by apply (follow_cur_tok 0).
    - apply H; [done..| |lia]. destruct rest; [done|]. simpl in *. set_solver.
Qed.

Lemma parses_and (ws1 ws2 : list string) (v1 v2 : evr bool) :
    ws1 <> [] -> parses (nexpr E argv) 2 2 ws1 v1 -> parses (aexpr E argv) 3 1 ws2 v2 ->
    parses (aexpr E argv) 3 1 (ws1 ++ "-a" :: ws2) (emap2 andb v1 v2).
Proof.
    intros Hne H1 H2 n rest fuel Hn Hr Hf Hfu. destruct fuel as [|fuel]; [lia|].
    rewrite <- app_assoc in Hr. simpl in Hr.
    destruct (rem_split n ws1 _ Hn Hr) as [Hlen Hr1]. destruct ws1 as [|w ws1]; [done|].
    simpl in Hlen, Hr1.
    replace (emap2 andb v1 v2) with (emap2 (fun x y => y && x) v1 v2)
      by (destruct v1, v2; simpl; f_equal; apply andb_comm).
    apply (chain_go (nexpr E argv fuel) (aexpr E argv fuel) BAND andb n v1 v2 "-a" (ws2 ++ rest));
      [lia|done|done| |].
    - apply (H1 n _ fuel Hn Hr); [simpl; set_solver|lia].
    - apply H2; [lia|by apply rem_S in Hr1; [|lia]|done|lia].
Qed.

Lemma parses_or (ws1 ws2 : list string) (v1 v2 : evr bool) :
    ws1 <> [] -> parses (aexpr E argv) 3 1 ws1 v1 -> parses (oexpr E argv) 4 0 ws2 v2 ->
    parses (oexpr E argv) 4 0 (ws1 ++ "-o" :: ws2) (emap2 orb v1 v2).
Proof.
    intros Hne H1 H2 n rest fuel Hn Hr Hf Hfu. destruct fuel as [|fuel]; [lia|].
    rewrite <- app_assoc in Hr. simpl in Hr.
    destruct (rem_split n ws1 _ Hn Hr) as [Hlen Hr1]. destruct ws1 as [|w ws1]; [done|].
    simpl in Hlen, Hr1.
    replace (emap2 orb v1 v2) with (emap2 (fun x y => y || x) v1 v2)
      by (destruct v1, v2; simpl; f_equal; apply orb_comm).
    apply (chain_go (aexpr E argv fuel) (oexpr E argv fuel) BOR orb n v1 v2 "-o" (ws2 ++ rest));
      [lia|done|done| |].
    - apply (H1 n _ fuel Hn Hr); [simpl; set_solver|lia].
    - apply H2; [lia|by apply rem_S in Hr1; [|lia]|done|lia].
Qed.
Lemma parses_not (ws : list string) (v : evr bool) :
    parses (nexpr E argv) 2 2 ws v -> parses (nexpr E argv) 2 2 ("!" :: ws) (emap negb v).
Proof.
    intros H n rest fuel Hn Hr Hf Hfu. destruct fuel as [|fuel]; [lia|]. simpl in Hr.
    destruct (rem_split n ["!"] _ Hn Hr) as [Hlen Hr1]. simpl in Hlen. subst n.
    unfold at_tok. rewrite Hr. cbn [nexpr].
    replace (cur_tok ("!" :: (ws ++ rest)%list)) with UNOT by done. rewrite decide_True by done.
    rewrite (bind_ok _ _ _ _ _ (next_token_st _ _ _ _ Hargv _ _ Hn)).
    unfold emap. eapply runs_as_bind; [apply H; [lia|done|done|lia]|].
    intros z op. eexists _, _. split; [done|]. by rewrite truth_b2z.
Qed.

Lemma parses_nexpr (w : string) (ws : list string) (v : evr bool) :
    is_type BUNOP w = false -> parses (primary E argv) 1 2 (w :: ws) v ->
    parses (nexpr E argv) 2 2 (w :: ws) v.
Proof.
    intros Hw H n rest fuel Hn Hr Hf Hfu. destruct fuel as [|fuel]; [lia|].
    unfold at_tok. cbn [nexpr]. rewrite decide_False; [by apply H; [..|lia]|].
    rewrite Hr. cbn [app]. rewrite cur_tok_cons. destruct (lex_op _ w) as [op|] eqn:Hl; [|done].
    apply lex_op_inv in Hl as [Hfi _]. simpl. intros Hnum.
    unfold is_type in Hw. rewrite Hfi in Hw. apply bool_decide_eq_false in Hw. apply Hw.
    apply find_op_elem in Hfi as [Hin _]. apply ops_shape in Hin. unfold op_shape in Hin.
    rewrite Hnum in Hin. by apply bool_decide_eq_true in Hin.
Qed.

Lemma parses_paren (w : string) (ws : list string) (v : evr bool) :
    (forall op, find_op w = Some op -> op_num op <> RPAREN) ->
    parses (oexpr E argv) 4 0 (w :: ws) v ->
    parses (primary E argv) 1 2 ("(" :: (w :: ws) ++ [")"]) v.
Proof.
    intros Hw H n rest fuel Hn Hr Hf Hfu. destruct fuel as [|fuel]; [lia|].
    cbn [app] in Hr. rewrite <- app_assoc in Hr. cbn [app] in Hr.
    destruct (rem_split n ["("] _ Hn Hr) as [Hlen Hr1].
    destruct (rem_split n ("(" :: w :: ws) (")" :: rest) Hn Hr) as [Hlen2 Hr2].
    destruct (rem_split n ("(" :: w :: ws ++ [")"]) rest Hn) as [_ Hr3];
      [by rewrite Hr, <- !app_comm_cons, <- app_assoc|].
    cbn [length Nat.add] in *. subst n.
    unfold at_tok. cbn [primary]. rewrite Hr.
    replace (cur_tok ("(" :: w :: _)) with LPAREN by done.
    rewrite decide_False, decide_True by done.
    rewrite (bind_ok _ _ _ _ _ (next_token_st _ _ _ _ Hargv _ _ Hn)), Hr1.
    rewrite decide_False.
    2: { rewrite cur_tok_cons. destruct (lex_op _ w) as [op|] eqn:Hl; [|done].
         apply lex_op_inv in Hl as [Hfi _]. by apply Hw. }
    replace v with (match v with inl e => inl e | inr b => inr b end) by (by destruct v).
    eapply runs_as_bind.
    { pose proof (H (S (length (ws ++ ")" :: rest)%list)) (")" :: rest) fuel ltac:(lia) Hr1 ltac:(simpl; set_solver) ltac:(lia)) as Hrun.
      unfold at_tok in Hrun. rewrite Hr1 in Hrun. exact Hrun. }
    intros z op. cbn [length].
    rewrite (bind_ok _ _ _ _ _ (next_token_st _ _ _ _ Hargv (S (length rest)) op ltac:(lia))), Hr2.
    rewrite decide_True by done. by eexists _, _.
Qed.

Lemma parses_operand (w : string) :
    find_op w = None -> parses (primary E argv) 1 2 [w] (inr (negb (String.eqb w ""))).
Proof.
    intros Hw n rest fuel Hn Hr Hf Hfu. destruct fuel as [|fuel]; [lia|]. cbn [app] in Hr.
    assert (lex_op (w :: rest) w = None) as Hl by (unfold lex_op; by rewrite Hw).
    unfold at_tok. cbn [primary]. rewrite Hr, cur_tok_cons, cur_op_cons, Hl. cbn [tok_of].
    rewrite !decide_False by done. rewrite (bind_ok tget _ _ _ _ eq_refl). cbn [t_wp_op st is_unop].
    rewrite (operand_peek n w rest) by done. cbv zeta.
    destruct rest as [|u rest]; [by apply bare_operand_runs|]. cbn [head peek_op mbind option_bind].
    destruct (follow_lex 2 (rem args n) u Hf) as (op & -> & Hty & _).
    destruct op as [x k []]; try done; by apply bare_operand_runs.
Qed.

Lemma parses_unary (op : t_op) (w : string) :
    op ∈ ops -> op_type op = UNOP -> is_type BINOP w = false ->
    parses (primary E argv) 1 2 [op_text op; w] (eval_unary E (op_num op) w).
Proof.
    intros Hin Ht Hw n rest fuel Hn Hr Hf Hfu. destruct fuel as [|fuel]; [lia|]. cbn [app] in Hr.
    destruct (rem_split n [op_text op] _ Hn Hr) as [Hlen Hr1]. cbn [length Nat.add] in *. subst n.
    unfold at_tok. cbn [primary]. rewrite Hr, cur_tok_cons, cur_op_cons, lex_unary by done. cbn [tok_of].
    pose proof (ops_shape _ Hin) as Hs. unfold op_shape in Hs. rewrite Ht in Hs.
    rewrite !decide_False by (intros E0; by rewrite E0 in Hs).
    rewrite (bind_ok tget _ _ _ _ eq_refl). cbn [t_wp_op st].
    destruct op as [x k ty]. cbn in Ht. subst ty. cbn [is_unop op_num].
    unfold unary. rewrite (bind_ok tget _ _ _ _ eq_refl).
    rewrite (bind_ok (tput _) _ _ _ _ eq_refl). cbn [nargc st t_wp t_wp_op].
    destruct (Z.eqb_spec (Z.of_nat (S (S (length rest))) - 1) 0); [lia|].
    erewrite bind_ok; [apply unary_switch_runs|].
    unfold next_word. rewrite (bind_ok tget _ _ _ _ eq_refl).
    rewrite (bind_ok (tput _) _ _ _ _ eq_refl). cbn [nargc st t_wp t_wp_op].
    replace (mk_tstate _ _ _) with
      (st args (S (length rest)) (Some {| op_text := x; op_num := k; op_type := UNOP |}))
      by (unfold st; f_equal; lia).
    by rewrite (bind_ok _ _ _ _ _ (word_at_0 _ _ _ _ Hargv (S (length rest)) _ ltac:(lia))), Hr1.
Qed.
Lemma parses_binary (a b : string) (op : t_op) :
    op ∈ ops -> op_type op = BINOP -> no_char NUL a -> no_char NUL b ->
    find_op a = None \/ is_type UNOP a = true /\ b <> ")" ->
    parses (primary E argv) 1 2 [a; op_text op; b] (eval_binary E (op_num op) a b).
Proof.
    intros Hin Ht Ha Hb Hl n rest fuel Hn Hr Hf Hfu. destruct fuel as [|fuel]; [lia|]. cbn [app] in Hr.
    unfold at_tok. cbn [primary]. rewrite Hr, cur_tok_cons, cur_op_cons, lex_left by done. cbn [tok_of].
    rewrite !decide_False by done. rewrite (bind_ok tget _ _ _ _ eq_refl). cbn [t_wp_op st is_unop].
    rewrite (operand_peek n a (op_text op :: b :: rest)) by done. cbv zeta.
    cbn [head peek_op mbind option_bind].
    rewrite (lex_op_other _ _ op); [|by apply op_text_find|by rewrite Ht..].
    destruct op as [x k ty]. cbn in Ht. subst ty. cbv beta iota.
    by apply (binop_runs n a b {| op_text := x; op_num := k; op_type := BINOP |} rest).
Qed.

  (** How the arguments of an expression start. *)
Definition starter (lvl : nat) (w : string) : Prop :=
    (lvl = 3%nat -> is_type BUNOP w = false) /\
    (forall op, find_op w = Some op -> op_num op <> RPAREN).

Lemma starter_type (lvl : nat) (w : string) (op : t_op) :
    find_op w = Some op -> op_type op = UNOP -> starter lvl w.
Proof.
    intros Hf Ht. split; [unfold is_type; rewrite Hf, Ht; done|]. rewrite Hf. intros ? [= <-] Hn.
    apply find_op_elem in Hf as [Hin _]. apply ops_shape in Hin. unfold op_shape in Hin.
    by rewrite Hn, Ht in Hin.
Qed.

Lemma starter_None (lvl : nat) (w : string) : find_op w = None -> starter lvl w.
Proof. intros H. split; [unfold is_type; by rewrite H|]. by rewrite H. Qed.

Lemma starter_lparen (lvl : nat) : starter lvl "(".
Proof. split; [done|]. intros op. vm_compute. by intros [= <-]. Qed.

Lemma starter_not (lvl : nat) : lvl <> 3%nat -> starter lvl "!".
Proof. intros. split; [done|]. intros op. vm_compute. by intros [= <-]. Qed.

Lemma show_start (e : expr) (lvl : nat) :
    wf e -> (lvl <= 3)%nat -> exists w ws, show lvl e = w :: ws /\ starter lvl w.
Proof.
    revert lvl. induction e as [w|op w|a op b|e IH|e1 IH1 e2 IH2|e1 IH1 e2 IH2]; intros lvl Hw Hlvl.
    - exists w, []. destruct lvl as [|[|[|[|]]]]; try lia; (split; [done|by apply starter_None]).
    - destruct Hw as (Hin & Ht & _). exists (op_text op), [w].
      destruct lvl as [|[|[|[|]]]]; try lia;
        (split; [done|by eapply starter_type; [apply op_text_find|]]).
    - destruct Hw as (_ & _ & _ & _ & Ha). exists a, [op_text op; b].
      assert (starter lvl a) as Hst.
      { destruct Ha as [Ha|[Ha _]]; [by apply starter_None|]. unfold is_type in Ha.
        destruct (find_op a) as [o|] eqn:Hf; [|done]. apply bool_decide_eq_true in Ha.
        by eapply starter_type. }
      destruct lvl as [|[|[|[|]]]]; try lia; (split; [done|exact Hst]).
    - destruct lvl as [|[|[|[|]]]]; try lia; simpl; eexists _, _; (split; [reflexivity|]);
        apply starter_lparen || by apply starter_not.
    - destruct (IH1 2%nat (proj1 Hw) ltac:(lia)) as (w & ws & He & _ & Hr).
      destruct lvl as [|[|[|[|]]]]; try lia; simpl; rewrite ?He; eexists _, _; (split; [reflexivity|]);
        apply starter_lparen || by split.
    - destruct (IH1 1%nat (proj1 Hw) ltac:(lia)) as (w & ws & He & _ & Hr).
      destruct lvl as [|[|[|[|]]]]; try lia; simpl; rewrite ?He; eexists _, _; (split; [reflexivity|]);
        apply starter_lparen || by split.
Qed.

Lemma show_nonempty (e : expr) (lvl : nat) : wf e -> (lvl <= 3)%nat -> show lvl e <> [].
Proof. intros Hw Hl. by destruct (show_start e lvl Hw Hl) as (w & ws & -> & _). Qed.

  (** What the four functions of the parser do on the arguments of [e]. *)
Definition parses_expr (e : expr) : Prop :=
    parses (oexpr E argv) 4 0 (show 0 e) (eval E e) /\
    parses (aexpr E argv) 3 1 (show 1 e) (eval E e) /\
    parses (nexpr E argv) 2 2 (show 2 e) (eval E e) /\
    parses (primary E argv) 1 2 (show 3 e) (eval E e).

  (** An expression in parentheses is a primary; a primary is a [nexpr]. *)
Lemma parses_show_paren (e : expr) :
    wf e -> parses (oexpr E argv) 4 0 (show 0 e) (eval E e) ->
    parses (primary E argv) 1 2 ("(" :: show 0 e ++ [")"]) (eval E e).
Proof.
    intros Hw H. destruct (show_start e 0 Hw ltac:(lia)) as (w & ws & He & _ & Hs).
    rewrite He in *. by apply parses_paren.
Qed.

Lemma parses_show_nexpr (e : expr) :
    wf e -> parses (primary E argv) 1 2 (show 3 e) (eval E e) ->
    parses (nexpr E argv) 2 2 (show 3 e) (eval E e).
Proof.
    intros Hw H. destruct (show_start e 3 Hw ltac:(lia)) as (w & ws & He & Hs & _).
    rewrite He in *. apply parses_nexpr; [by apply Hs|done].
Qed.

Lemma parses_primary (e : expr) :
    wf e -> prec e = 3%nat -> parses (primary E argv) 1 2 (show 3 e) (eval E e) -> parses_expr e.
Proof.
    intros Hw Hp H. pose proof (parses_show_nexpr e Hw H) as Hn.
    assert (show 2 e = show 3 e /\ show 1 e = show 3 e /\ show 0 e = show 3 e) as (H2 & H1 & H0)
      by (by destruct e).
    pose proof (show_nonempty e 3 Hw ltac:(lia)) as Hne. unfold parses_expr. rewrite H2, H1, H0.
    pose proof (parses_aexpr _ _ Hne Hn) as Ha. pose proof (parses_oexpr _ _ Hne Ha). done.
Qed.

Lemma parses_show (e : expr) : wf e -> parses_expr e.
Proof.
    induction e as [w|op w|a op b|e IH|e1 IH1 e2 IH2|e1 IH1 e2 IH2]; intros Hw.
    - apply parses_primary; [done|done|]. by apply parses_operand.
    - apply parses_primary; [done|done|]. destruct Hw as (? & ? & ?). by apply parses_unary.
    - apply parses_primary; [done|done|]. destruct Hw as (? & ? & ? & ? & ?). by apply parses_binary.
    - destruct (IH Hw) as (_ & _ & Hn & _). apply parses_not in Hn.
      pose proof (parses_aexpr ("!" :: show 2 e) _ ltac:(done) Hn) as Ha.
      pose proof (parses_oexpr ("!" :: show 2 e) _ ltac:(done) Ha) as Ho.
      split_and!; [exact Ho|exact Ha|exact Hn|]. by apply (parses_show_paren (Not e)).
    - destruct Hw as [Hw1 Hw2]. destruct (IH1 Hw1) as (_ & _ & Hn & _), (IH2 Hw2) as (_ & Ha2 & _).
      pose proof (parses_and _ _ _ _ (show_nonempty e1 2 Hw1 ltac:(lia)) Hn Ha2) as Ha.
      pose proof (parses_oexpr (show 1 (And e1 e2)) _ (show_nonempty (And e1 e2) 1 (conj Hw1 Hw2) ltac:(lia)) Ha) as Ho.
      pose proof (parses_show_paren (And e1 e2) (conj Hw1 Hw2) Ho) as Hp.
      split_and!; [exact Ho|exact Ha| |exact Hp]. by apply (parses_show_nexpr (And e1 e2)).
    - destruct Hw as [Hw1 Hw2]. destruct (IH1 Hw1) as (_ & Ha & _), (IH2 Hw2) as (Ho2 & _).
      pose proof (parses_or _ _ _ _ (show_nonempty e1 1 Hw1 ltac:(lia)) Ha Ho2) as Ho.
      pose proof (parses_show_paren (Or e1 e2) (conj Hw1 Hw2) Ho) as Hp.
      pose proof (parses_show_nexpr (Or e1 e2) (conj Hw1 Hw2) Hp) as Hn.
      split_and!; [exact Ho| |exact Hn|exact Hp].
      apply (parses_aexpr (show 3 (Or e1 e2))); [|done].
      apply (show_nonempty (Or e1 e2) 3); [done|lia].
Qed.
End Sim.

(** ** The command *)

(** The exit status: 0 for true, 1 for false, 1 with a message for an error. *)
Definition status (v : evr bool) : tres Z :=
  match v with inl m => TExit m | inr b => TOk (if b then 0 else 1) end.

(** What [test_expr] does once [oexpr] has returned with [n] arguments left. *)
Lemma test_expr_after (E : env) (argv : list (option string)) (args : list string) a0 tl
    (v : evr bool) (n : nat) :
  argv = a0 :: (Some <$> args) ++ None :: tl -> args <> [] -> (1 <= n <= length args)%nat ->
  runs_as args (at_tok args (oexpr E argv (parse_fuel (Z.of_nat (length args)))) (length args)) v n ->
  test_expr E argv (Z.of_nat (length args) + 1) =
    match v with
    | inl m => TExit m
    | inr b => if decide (n = 1%nat) then TOk (if b then 0 else 1)
               else match head (rem args n) with
                    | Some (String c o) => TExit (String c o ++ ": unexpected operator")
                    | _ => TExit "unexpected operator"
                    end
    end.
Proof.
  intros Hargv Hne Hn Hrun. assert (length args <> 0%nat) by (by destruct args). unfold test_expr.
  replace (Z.of_nat (length args) + 1 - 1) with (Z.of_nat (length args)) by lia.
  destruct (Z.leb_spec (Z.of_nat (length args)) 0) as [|Hk]; [lia|].
  replace (mk_tstate 1 _ None) with (st args (length args) None) by (unfold st; f_equal; lia).
  rewrite (bind_ok _ _ _ _ _ (word_at_0 _ _ _ _ Hargv (length args) None ltac:(lia))).
  rewrite (bind_ok _ _ _ _ _ (t_lex_st _ _ _ _ Hargv (length args) None _ ltac:(lia)
             (proj1 (head_rem_some args (length args) ltac:(lia))))).
  destruct v as [m|b]; simpl in Hrun; [by rewrite (bind_exit _ _ _ _ Hrun)|].
  destruct Hrun as (z & op & Hz & <-). rewrite (bind_ok _ _ _ _ _ Hz).
  rewrite (bind_ok tget _ _ _ _ eq_refl).
  rewrite (bind_ok (tput _) _ _ _ _ eq_refl). cbn [nargc st t_wp t_wp_op].
  destruct (decide (n = 1%nat)) as [->|Hn1].
  - simpl. by destruct (truth z).
  - destruct (Z.ltb_spec 0 (Z.of_nat n - 1)); [|lia].
    pose proof (word_at_0 _ _ _ _ Hargv n op ltac:(lia)) as Hw.
    unfold word_at, lift, mbind, tm_bind, tget in *. cbn [t_wp st] in *.
    destruct (rd argv _); [|done]. injection Hw as ->.
    by destruct (head (rem args n)) as [[]|].
Qed.

(** The two ways to call the command: under another name, or as [\[] with a
    closing bracket. *)
Inductive calls (args : list string) : list string -> Prop :=
| CallTest (a0 : string) : strcmp (basename a0) "[" <> 0 -> calls args (a0 :: args)
| CallBracket (a0 r : string) :
    strcmp (basename a0) "[" = 0 -> strcmp r "]" = 0 -> calls args (a0 :: args ++ [r]).

Lemma test_main_calls (E : env) (args argv0 : list string) :
  calls args argv0 ->
  exists a0 tl, test_main E argv0 =
    test_expr E (a0 :: (Some <$> args) ++ None :: tl) (Z.of_nat (length args) + 1).
Proof.
  intros [a0 Hb|a0 r Hb Hbr]; unfold test_main.
  - exists (Some a0), []. simpl. rewrite (proj2 (Z.eqb_neq _ _) Hb). f_equal. lia.
  - exists (Some a0), [None]. cbn [fmap list_fmap app rd Z.ltb].
    change (rd (Some a0 :: _) 0) with (@Ok (option string) (Some a0)). cbv beta iota.
    rewrite (proj2 (Z.eqb_eq _ _) Hb).
    replace (Z.of_nat (length (a0 :: (args ++ [r])%list)) - 1) with (Z.of_nat (length args) + 1)
      by (cbn [length]; rewrite length_app; cbn [length]; lia).
    rewrite fmap_app, <- app_assoc. cbn [fmap list_fmap app].
    erewrite rd_lookup; [|lia|].
    2: { replace (Z.to_nat _) with (S (length args)) by lia.
         rewrite lookup_cons_ne_0 by lia. cbn [pred]. rewrite list_lookup_middle; [done|by rewrite length_fmap]. }
    cbv beta iota. rewrite Hbr. cbv beta iota delta [negb Z.eqb].
    rewrite wr_ok.
    2: { cbn [length]. rewrite length_app, length_fmap. cbn [length]. lia. }
    replace (Z.to_nat _) with (S (length args)) by lia.
    change (<[S (length args):=None]> (?x :: ?l)) with (x :: <[length args := None]> l).
    replace (length args) with (length (Some <$> args) + 0)%nat at 1 by (rewrite length_fmap; lia).
    by rewrite insert_app_r.
Qed.

(** An expression after an opening parenthesis that is not closed. *)
Lemma parses_unclosed (E : env) (argv : list (option string)) (args : list string) a0 tl (e : expr) :
  argv = a0 :: (Some <$> args) ++ None :: tl -> wf e -> args = "(" :: show 0 e ->
  exists msg,
    at_tok args (oexpr E argv (parse_fuel (Z.of_nat (length args)))) (length args) = TExit msg.
Proof.
  intros Hargv Hw Hargs. destruct (show_start e 0 Hw ltac:(lia)) as (w & ws & He & _ & Hs).
  destruct (parses_show E argv args a0 tl Hargv e Hw) as (Ho & _).
  assert (length args = S (length (show 0 e))) as Hlen by (by rewrite Hargs).
  assert (rem args (length args) = "(" :: show 0 e) as Hr0.
  { unfold rem. by rewrite Nat.sub_diag, drop_0. }
  assert (rem args (length (show 0 e)) = show 0 e) as Hr1.
  { apply (rem_S args _ "("); [lia|]. by rewrite <- Hlen. }
  set (n := length (show 0 e)) in *.
  assert (exists fuel, parse_fuel (Z.of_nat (length args)) = S (S (S (S fuel))) /\
                       (4 * n + 4 <= fuel)%nat) as (fuel & -> & Hfu).
  { exists (4 * S n)%nat. rewrite Hlen. unfold parse_fuel. split; lia. }
  specialize (Ho n [] fuel ltac:(lia) ltac:(rewrite app_nil_r; exact Hr1) I Hfu).
  unfold at_tok in *. rewrite Hr0, He, Hlen in *.
  replace (cur_tok ("(" :: w :: ws)) with LPAREN by done.
  assert (forall op, exists msg, primary E argv (S fuel) LPAREN (st args (S n) op) = TExit msg)
    as Hp.
  { intros op. cbn [primary]. rewrite decide_False, decide_True by done.
    rewrite (bind_ok _ _ _ _ _ (next_token_st _ _ _ _ Hargv n _ ltac:(lia))), Hr1.
    rewrite decide_False.
    2: { rewrite cur_tok_cons. destruct (lex_op _ w) as [o|] eqn:Hl; [|done].
         apply lex_op_inv in Hl as [Hfi _]. by apply Hs. }
    rewrite Hr1 in Ho. destruct (eval E e) as [m|b]; simpl in Ho; [exists m; by apply bind_exit|].
    destruct Ho as (z & op' & Hz & _). rewrite (bind_ok _ _ _ _ _ Hz).
    rewrite (bind_ok _ _ _ _ _ (next_token_st _ _ _ _ Hargv 0 op' ltac:(lia))), rem_0.
    eexists. done. }
  destruct (Hp (cur_op ("(" :: w :: ws))) as [msg Hm]. exists msg.
  change (nexpr E argv (S (S fuel)) LPAREN (st args (S n) (cur_op ("(" :: w :: ws))) = TExit msg) in Hm.
  do 2 apply bind_exit. exact Hm.
Qed.

(** C33: [test] ends on every argument list: it returns the status 0 or 1, or it
    exits with an error message; it never reads a word outside the argument
    vector, never follows a NULL word and never reaches [abort], and the depth
    of its recursion is at most four calls per argument. *)
Theorem test_main_total (E : env) (a0 : string) (rest : list string) :
  match test_main E (a0 :: rest) with
  | TOk v => v = 0 \/ v = 1
  | TExit _ => True
  | TFault _ => False
  end.
Proof.
  assert (forall args, calls args (a0 :: rest) ->
            match test_main E (a0 :: rest) with
            | TOk v => v = 0 \/ v = 1 | TExit _ => True | TFault _ => False end) as Hcall.
  { intros args Hc. destruct (test_main_calls E _ _ Hc) as (x & tl & ->).
    by destruct (test_expr_safe E _ args x tl eq_refl) as (r & -> & Hr). }
  destruct (decide (strcmp (basename a0) "[" = 0)) as [Hb|Hb].
  2: { apply (Hcall rest). by constructor. }
  destruct rest as [|l rest _] using rev_ind.
  - unfold test_main. cbn [fmap list_fmap app].
    change (rd [Some a0; None] _) with (@Ok (option string) (Some a0)). cbv beta iota.
    rewrite (proj2 (Z.eqb_eq _ _) Hb). by destruct (negb _); [|right].
  - destruct (decide (strcmp l "]" = 0)) as [Hl|Hl]; [apply (Hcall rest); by constructor|].
    unfold test_main. cbn [fmap list_fmap app].
    change (rd (Some a0 :: _) 0) with (@Ok (option string) (Some a0)). cbv beta iota.
    rewrite (proj2 (Z.eqb_eq _ _) Hb).
    erewrite (rd_lookup _ _ (Some l)); [|cbn [length]; lia|].
    2: { replace (Z.to_nat _) with (S (length rest))
           by (cbn [length]; rewrite length_app; cbn [length]; lia).
         rewrite lookup_cons_ne_0 by lia. cbn [pred]. rewrite fmap_app, <- app_assoc.
         cbn [fmap list_fmap app]. rewrite list_lookup_middle; [done|by rewrite length_fmap]. }
    by rewrite (proj2 (Z.eqb_neq _ _) Hl).
Qed.

(** C13: on the arguments of an expression, whatever the operands the grammar can
    tell from operators, [test] (and [\[] with its closing bracket) returns the
    meaning of the expression: 0 when it is true, 1 when it is false, and the
    error of the first operand that is no number otherwise. *)
Theorem test_main_evaluates (E : env) (e : expr) (argv0 : list string) :
  wf e -> calls (show 0 e) argv0 -> test_main E argv0 = status (eval E e).
Proof.
  intros Hw Hc. destruct (test_main_calls E _ _ Hc) as (a0 & tl & ->).
  pose proof (show_nonempty e 0 Hw ltac:(lia)) as Hne.
  assert (length (show 0 e) <> 0%nat) by (by destruct (show 0 e)).
  destruct (parses_show E _ (show 0 e) a0 tl eq_refl e Hw) as (Ho & _).
  erewrite (test_expr_after E _ _ _ _ (eval E e) 1 eq_refl Hne); [by destruct (eval E e)|lia|].
  apply (Ho (length (show 0 e)) []); [done| |done|unfold parse_fuel; lia].
  unfold rem. by rewrite Nat.sub_diag, drop_0, app_nil_r.
Qed.

(** A system without any file or terminal. *)
Definition bare_env : env :=
  {| stat := fun _ => None; lstat := fun _ => None; access := fun _ _ => false;
     isatty := fun _ => 0; geteuid := 0; getegid := 0 |}.

Lemma test_main_evaluates_witness :
  test_main bare_env
    ["/system/bin/["; "("; "3"; "-lt"; " 12"; "-o"; "-f"; "="; "x"; ")"; "-a"; "!"; "-e"; "f"; "]"]
  = TOk 0.
Proof.
  set (e := And (Or (Binary "3" (Build_t_op "-lt" INTLT BINOP) " 12")
                    (Binary "-f" (Build_t_op "=" STREQ BINOP) "x"))
                (Not (Unary (Build_t_op "-e" FILEXIST UNOP) "f"))).
  refine (test_main_evaluates bare_env e _ _ (CallBracket (show 0 e) "/system/bin/[" "]" eq_refl eq_refl)).
  subst e. wf_concrete.
Defined.

(** Parentheses must balance: an expression followed by a stray [)], and
    whatever comes after it, is an error, and so is an expression after an
    unclosed [(]. *)
Theorem test_main_unbalanced (E : env) (e : expr) (rest argv0 : list string) :
  wf e -> calls (show 0 e ++ ")" :: rest) argv0 \/ calls ("(" :: show 0 e) argv0 ->
  exists msg, test_main E argv0 = TExit msg.
Proof.
  intros Hw [Hc|Hc]; destruct (test_main_calls E _ _ Hc) as (a0 & tl & ->);
    pose proof (show_nonempty e 0 Hw ltac:(lia)) as Hne.
  - set (args := (show 0 e ++ ")" :: rest)%list).
    destruct (parses_show E _ args a0 tl eq_refl e Hw) as (Ho & _).
    assert (length args = length (show 0 e) + S (length rest))%nat as Hlen by apply length_app.
    assert (length (show 0 e) <> 0%nat) by (by destruct (show 0 e)).
    erewrite (test_expr_after E _ args a0 tl (eval E e) (S (S (length rest))) eq_refl);
      [|by destruct (show 0 e)|lia|].
    + destruct (eval E e); [eauto|]. rewrite decide_False by done.
      destruct (head _) as [[]|]; eauto.
    + apply (Ho (length args) (")" :: rest)); [done| |simpl; set_solver|unfold parse_fuel; lia].
      unfold rem. by rewrite Nat.sub_diag, drop_0.
  - set (args := "(" :: show 0 e). set (argv := a0 :: _).
    destruct (parses_unclosed E argv args a0 tl e eq_refl Hw eq_refl) as (msg & Hm).
    exists msg. apply (test_expr_after E argv args a0 tl (inl msg) 1 eq_refl); [done|simpl; lia|done].
Qed.

Lemma test_main_unbalanced_witness :
  exists msg, test_main bare_env ["test"; "a"; "="; "b"; ")"; "-o"; "c"] = TExit msg.
Proof.
  apply (test_main_unbalanced bare_env (Binary "a" (Build_t_op "=" STREQ BINOP) "b") ["-o"; "c"]).
  - wf_concrete.
  - left. apply (CallTest ["a"; "="; "b"; ")"; "-o"; "c"] "test"). vm_compute. discriminate.
Defined.

(** ** Numbers *)

#[local] Arguments String.append !_ _ : simpl nomatch.

Fixpoint all_chars (P : ascii -> bool) (s : string) : bool :=
  match s with
  | EmptyString => true
  | String c s => P c && all_chars P s
  end.

Definition is_digit (c : ascii) : bool := (48 <=? byte_of c) && (byte_of c <=? 57).

(** The value of a string of digits. *)
Fixpoint decimal (acc : Z) (s : string) : Z :=
  match s with
  | EmptyString => acc
  | String c s => decimal (acc * 10 + (byte_of c - 48)) s
  end.

(** A signed decimal number with the value [v]. *)
Inductive numeral : string -> Z -> Prop :=
| NumPlain ds : ds <> "" -> all_chars is_digit ds = true -> numeral ds (decimal 0 ds)
| NumPlus ds : ds <> "" -> all_chars is_digit ds = true -> numeral ("+" ++ ds) (decimal 0 ds)
| NumMinus ds : ds <> "" -> all_chars is_digit ds = true -> numeral ("-" ++ ds) (- decimal 0 ds).

Lemma digit_of_is_digit (c : ascii) :
  digit_of c = if is_digit c then Some (byte_of c - 48) else None.
Proof. done. Qed.

Lemma skip_space_split (s : string) :
  exists b, s = b ++ skip_space s /\ all_chars isspace b = true.
Proof.
  induction s as [|c s (b & Hs & Hb)]; simpl; [by exists ""|].
  destruct (isspace c) eqn:Hc; [|by exists ""].
  exists (String c b). simpl. rewrite Hc, Hb. split; [by rewrite <- Hs|done].
Qed.

Lemma skip_space_app (b s : string) :
  all_chars isspace b = true ->
  match s with EmptyString => True | String c _ => isspace c = false end ->
  skip_space (b ++ s) = s.
Proof.
  intros Hb Hs. induction b as [|c b IH]; simpl in *.
  - destruct s as [|c s]; [done|]. simpl. by rewrite Hs.
  - apply andb_true_iff in Hb as [-> Hb]. by apply IH.
Qed.

Lemma skip_space_all (b : string) : skip_space b = "" <-> all_chars isspace b = true.
Proof.
  split.
  - intros H. destruct (skip_space_split b) as (b' & Hb & Ha). by rewrite Hb, H, str_app_nil_r.
  - intros H. rewrite <- (str_app_nil_r b). by apply skip_space_app.
Qed.

Lemma read_digits_split (s : string) (acc : Z) :
  exists ds p, s = ds ++ p /\ all_chars is_digit ds = true /\
    read_digits acc s = (decimal acc ds, p) /\
    match p with EmptyString => True | String c _ => is_digit c = false end.
Proof.
  revert acc. induction s as [|c s IH]; intros acc; simpl; [by exists "", ""|].
  rewrite digit_of_is_digit. destruct (is_digit c) eqn:Hc.
  - destruct (IH (acc * 10 + (byte_of c - 48))) as (ds & p & Hs & Hd & Hr & Hp).
    exists (String c ds), p. simpl. rewrite Hc, Hd. split_and!; [by rewrite Hs|done|done|done].
  - by exists "", (String c s).
Qed.

Lemma read_digits_app (ds p : string) (acc : Z) :
  all_chars is_digit ds = true ->
  match p with EmptyString => True | String c _ => is_digit c = false end ->
  read_digits acc (ds ++ p) = (decimal acc ds, p).
Proof.
  intros Hd Hp. revert acc. induction ds as [|c ds IH]; intros acc; simpl in *.
  - destruct p as [|c p]; [done|]. simpl. by rewrite digit_of_is_digit, Hp.
  - apply andb_true_iff in Hd as [Hc Hd]. rewrite digit_of_is_digit, Hc. by apply IH.
Qed.

Lemma space_not_digit (c : ascii) : isspace c = true -> is_digit c = false.
Proof.
  unfold isspace, is_digit. intros H. apply orb_true_iff in H. apply andb_false_iff.
  destruct H as [H|H]; bool_prop; left; apply Z.leb_gt; lia.
Qed.

Definition no_digit_start (p : string) : Prop :=
  match p with EmptyString => True | String c _ => is_digit c = false end.

(** The conversion after the blanks and the sign. *)
Definition finish (lo hi : Z) (neg : bool) (t : string) : option (Z * string * bool) :=
  match t with
  | String c _ =>
      match digit_of c with
      | Some _ =>
          let '(v, p) := read_digits 0 t in
          let v := if neg then - v else v in
          if v <? lo then Some (lo, p, true)
          else if hi <? v then Some (hi, p, true)
          else Some (v, p, false)
      | None => None
      end
  | EmptyString => None
  end.

Lemma finish_digits (lo hi : Z) (neg : bool) (ds p : string) :
  ds <> "" -> all_chars is_digit ds = true -> no_digit_start p ->
  finish lo hi neg (ds ++ p) =
    let v := if neg then - decimal 0 ds else decimal 0 ds in
    if v <? lo then Some (lo, p, true) else if hi <? v then Some (hi, p, true) else Some (v, p, false).
Proof.
  intros Hne Hd Hp. unfold finish. destruct ds as [|c ds]; [done|].
  change (String c ds ++ p) with (String c (ds ++ p)) at 1. cbv iota.
  rewrite digit_of_is_digit. pose proof Hd as Hd'. simpl in Hd'. apply andb_true_iff in Hd' as [-> _].
  by rewrite read_digits_app.
Qed.

Lemma finish_inv (lo hi : Z) (neg : bool) (t p : string) (r : Z) :
  finish lo hi neg t = Some (r, p, false) ->
  exists ds, t = ds ++ p /\ ds <> "" /\ all_chars is_digit ds = true /\
    r = (if neg then - decimal 0 ds else decimal 0 ds) /\ lo <= r <= hi.
Proof.
  unfold finish. destruct t as [|c t]; [done|]. rewrite digit_of_is_digit.
  destruct (is_digit c) eqn:Hc; [|done].
  destruct (read_digits_split (String c t) 0) as (ds & q & Hs & Hd & -> & Hq).
  assert (ds <> "") as Hne.
  { intros ->. simpl in Hs. subst q. simpl in Hq. congruence. }
  cbv zeta. destruct (Z.ltb_spec (if neg then - decimal 0 ds else decimal 0 ds) lo); [done|].
  destruct (Z.ltb_spec hi (if neg then - decimal 0 ds else decimal 0 ds)); [done|].
  intros [= <- <-]. exists ds. split_and!; [done..|lia|lia].
Qed.

Lemma digit_cases (c : ascii) :
  is_digit c = true -> isspace c = false /\ Ascii.eqb c "-" = false /\ Ascii.eqb c "+" = false.
Proof.
  intros H. split_and!.
  - destruct (isspace c) eqn:E; [|done]. apply space_not_digit in E. congruence.
  - destruct (Ascii.eqb_spec c "-") as [->|]; done.
  - destruct (Ascii.eqb_spec c "+") as [->|]; done.
Qed.

Lemma strto_numeral (lo hi : Z) (b num p : string) (v : Z) :
  all_chars isspace b = true -> numeral num v -> no_digit_start p -> lo <= v <= hi ->
  strto lo hi (b ++ num ++ p) = Some (v, p, false).
Proof.
  intros Hb Hnum Hp Hr.
  assert (forall (neg : bool) (ds : string), ds <> "" -> all_chars is_digit ds = true ->
            v = (if neg then - decimal 0 ds else decimal 0 ds) ->
            finish lo hi neg (ds ++ p) = Some (v, p, false)) as Hfin.
  { intros neg ds Hne Hd ->. rewrite finish_digits by done. cbv zeta.
    destruct (Z.ltb_spec (if neg then - decimal 0 ds else decimal 0 ds) lo); [lia|].
    destruct (Z.ltb_spec hi (if neg then - decimal 0 ds else decimal 0 ds)); [lia|done]. }
  unfold strto. destruct Hnum as [ds Hne Hd|ds Hne Hd|ds Hne Hd].
  - destruct ds as [|c ds]; [done|].
    pose proof Hd as Hd'. simpl in Hd'. apply andb_true_iff in Hd' as [Hc _].
    destruct (digit_cases c Hc) as (Hsp & Hm & Hpl).
    rewrite skip_space_app by done. simpl. rewrite Hm, Hpl.
    by apply (Hfin false (String c ds)).
  - rewrite skip_space_app by done. by apply (Hfin false ds).
  - rewrite skip_space_app by done. by apply (Hfin true ds).
Qed.

Lemma strto_inv (lo hi : Z) (s p : string) (r : Z) :
  strto lo hi s = Some (r, p, false) ->
  exists b num, s = b ++ num ++ p /\ all_chars isspace b = true /\ numeral num r /\ lo <= r <= hi.
Proof.
  unfold strto. destruct (skip_space_split s) as (b & Hs & Hb). revert Hs.
  destruct (skip_space s) as [|c u]; [done|]. intros Hs.
  destruct (Ascii.eqb_spec c "-") as [->|Hm]; [|destruct (Ascii.eqb_spec c "+") as [->|Hp]]; intros H.
  - apply (finish_inv lo hi true) in H as (ds & -> & Hne & Hd & -> & Hr).
    exists b, ("-" ++ ds). split_and!; [done|done|by constructor|lia|lia].
  - apply (finish_inv lo hi false) in H as (ds & -> & Hne & Hd & -> & Hr).
    exists b, ("+" ++ ds). split_and!; [done|done|by constructor|lia|lia].
  - apply (finish_inv lo hi false (String c u)) in H as (ds & Hu & Hne & Hd & -> & Hr).
    exists b, ds. rewrite Hu in Hs. split_and!; [done|done|by constructor|lia|lia].
Qed.

(** [getq] accepts exactly the signed decimal numbers that fit in
    [intmax_t], with blanks around them, and returns their value; everything
    else ends the command with an error. *)
Theorem getq_numeral (s : string) (v : Z) (sigma : tstate) :
  getq s sigma = TOk (v, sigma) <->
  exists b1 num b2, s = b1 ++ num ++ b2 /\ all_chars isspace b1 = true /\
    all_chars isspace b2 = true /\ numeral num v /\ INTMAX_MIN <= v <= INTMAX_MAX.
Proof.
  unfold getq. rewrite getnum_value. unfold num_value. split.
  - destruct (strto _ _ s) as [[[r p] [|]]|] eqn:Hs; [done| |done].
    destruct (skip_space p) eqn:Hp; [|done]. intros [= ->].
    apply strto_inv in Hs as (b & num & -> & Hb & Hn & Hr).
    exists b, num, p. apply skip_space_all in Hp. done.
  - intros (b1 & num & b2 & -> & Hb1 & Hb2 & Hn & Hr).
    rewrite (strto_numeral _ _ b1 num b2 v); [|done|done| |done].
    + by rewrite (proj2 (skip_space_all b2) Hb2).
    + destruct b2 as [|c b2]; [done|]. simpl in *. apply andb_true_iff in Hb2 as [Hc _].
      by apply space_not_digit.
Qed.
