(* ===== verification/Md5.v ===== *)
(** * MD5 and the [md5sum] command of motobox (src/motobox/md5sum.c)

    The digest in its streaming form ([MD5Init], [MD5Update], [MD5Final] over
    the context [MD5_CTX]) with the straight-line [Transform], and the command
    on top of it.  A UINT4 is a [Z] with the wrap-around of 32 bits ([unsigned
    long] on this device).  The input buffer of the context starts
    uninitialised: its bytes are options, and reading one that was never
    written is a fault.  Files, the standard input and the clock are the
    environment of the command. *)

From stdpp Require Import base list numbers option strings pretty.
From Stdlib Require Import Ascii ZArith Lia.
From S2P Require Import Prelude CStrings TestCmd.

Local Open Scope string_scope.
Local Open Scope Z_scope.

(** ** The basic functions *)

Definition not32 (x : Z) : Z := u32 (Z.lnot x).

Definition F (x y z : Z) : Z := Z.lor (Z.land x y) (Z.land (not32 x) z).
Definition G (x y z : Z) : Z := Z.lor (Z.land x z) (Z.land y (not32 z)).
Definition H (x y z : Z) : Z := Z.lxor (Z.lxor x y) z.
Definition I (x y z : Z) : Z := Z.lxor y (Z.lor x (not32 z)).

Definition ROTATE_LEFT (x n : Z) : Z := Z.lor (u32 (Z.shiftl x n)) (Z.shiftr x (32 - n)).

(** ** Transform

    The body is a sequence of macro calls on four local variables; a call is
    the record of its arguments, in the order of the source. *)

Inductive reg := ra | rb | rc | rd_.

Inductive macro := FF | GG | HH | II.

Record call := mk_call
  { mac : macro; r1 : reg; r2 : reg; r3 : reg; r4 : reg; word : nat; rot : Z; ac : Z }.

#[export] Instance reg_eq_dec : EqDecision reg.
Proof. solve_decision. Defined.
#[export] Instance macro_eq_dec : EqDecision macro.
Proof. solve_decision. Defined.
#[export] Instance call_eq_dec : EqDecision call.
Proof. solve_decision. Defined.

Record regs := mk_regs { va : Z; vb : Z; vc : Z; vd : Z }.

Definition get (r : reg) (s : regs) : Z :=
  match r with ra => va s | rb => vb s | rc => vc s | rd_ => vd s end.

Definition set (r : reg) (v : Z) (s : regs) : regs :=
  match r with
  | ra => mk_regs v (vb s) (vc s) (vd s)
  | rb => mk_regs (va s) v (vc s) (vd s)
  | rc => mk_regs (va s) (vb s) v (vd s)
  | rd_ => mk_regs (va s) (vb s) (vc s) v
  end.

Definition fn (m : macro) : Z -> Z -> Z -> Z :=
  match m with FF => F | GG => G | HH => H | II => I end.

(** [(a) += fn((b), (c), (d)) + (x) + (UINT4)(ac); (a) = ROTATE_LEFT((a), (s)); (a) += (b);] *)
Definition exec_call (in_ : list Z) (s : regs) (k : call) : regs :=
  let s := set (r1 k) (u32 (get (r1 k) s +
             (fn (mac k) (get (r2 k) s) (get (r3 k) s) (get (r4 k) s) + in_ !!! word k + ac k))) s in
  let s := set (r1 k) (ROTATE_LEFT (get (r1 k) s) (rot k)) s in
  set (r1 k) (u32 (get (r1 k) s + get (r2 k) s)) s.

Definition S11 : Z := 7.
Definition S12 : Z := 12.
Definition S13 : Z := 17.
Definition S14 : Z := 22.
Definition S21 : Z := 5.
Definition S22 : Z := 9.
Definition S23 : Z := 14.
Definition S24 : Z := 20.
Definition S31 : Z := 4.
Definition S32 : Z := 11.
Definition S33 : Z := 16.
Definition S34 : Z := 23.
Definition S41 : Z := 6.
Definition S42 : Z := 10.
Definition S43 : Z := 15.
Definition S44 : Z := 21.

Definition Transform_body : list call := [
  mk_call FF ra rb rc rd_ 0 S11 3614090360;
  mk_call FF rd_ ra rb rc 1 S12 3905402710;
  mk_call FF rc rd_ ra rb 2 S13 606105819;
  mk_call FF rb rc rd_ ra 3 S14 3250441966;
  mk_call FF ra rb rc rd_ 4 S11 4118548399;
  mk_call FF rd_ ra rb rc 5 S12 1200080426;
  mk_call FF rc rd_ ra rb 6 S13 2821735955;
  mk_call FF rb rc rd_ ra 7 S14 4249261313;
  mk_call FF ra rb rc rd_ 8 S11 1770035416;
  mk_call FF rd_ ra rb rc 9 S12 2336552879;
  mk_call FF rc rd_ ra rb 10 S13 4294925233;
  mk_call FF rb rc rd_ ra 11 S14 2304563134;
  mk_call FF ra rb rc rd_ 12 S11 1804603682;
  mk_call FF rd_ ra rb rc 13 S12 4254626195;
  mk_call FF rc rd_ ra rb 14 S13 2792965006;
  mk_call FF rb rc rd_ ra 15 S14 1236535329;
  mk_call GG ra rb rc rd_ 1 S21 4129170786;
  mk_call GG rd_ ra rb rc 6 S22 3225465664;
  mk_call GG rc rd_ ra rb 11 S23 643717713;
  mk_call GG rb rc rd_ ra 0 S24 3921069994;
  mk_call GG ra rb rc rd_ 5 S21 3593408605;
  mk_call GG rd_ ra rb rc 10 S22 38016083;
  mk_call GG rc rd_ ra rb 15 S23 3634488961;
  mk_call GG rb rc rd_ ra 4 S24 3889429448;
  mk_call GG ra rb rc rd_ 9 S21 568446438;
  mk_call GG rd_ ra rb rc 14 S22 3275163606;
  mk_call GG rc rd_ ra rb 3 S23 4107603335;
  mk_call GG rb rc rd_ ra 8 S24 1163531501;
  mk_call GG ra rb rc rd_ 13 S21 2850285829;
  mk_call GG rd_ ra rb rc 2 S22 4243563512;
  mk_call GG rc rd_ ra rb 7 S23 1735328473;
  mk_call GG rb rc rd_ ra 12 S24 2368359562;
  mk_call HH ra rb rc rd_ 5 S31 4294588738;
  mk_call HH rd_ ra rb rc 8 S32 2272392833;
  mk_call HH rc rd_ ra rb 11 S33 1839030562;
  mk_call HH rb rc rd_ ra 14 S34 4259657740;
  mk_call HH ra rb rc rd_ 1 S31 2763975236;
  mk_call HH rd_ ra rb rc 4 S32 1272893353;
  mk_call HH rc rd_ ra rb 7 S33 4139469664;
  mk_call HH rb rc rd_ ra 10 S34 3200236656;
  mk_call HH ra rb rc rd_ 13 S31 681279174;
  mk_call HH rd_ ra rb rc 0 S32 3936430074;
  mk_call HH rc rd_ ra rb 3 S33 3572445317;
  mk_call HH rb rc rd_ ra 6 S34 76029189;
  mk_call HH ra rb rc rd_ 9 S31 3654602809;
  mk_call HH rd_ ra rb rc 12 S32 3873151461;
  mk_call HH rc rd_ ra rb 15 S33 530742520;
  mk_call HH rb rc rd_ ra 2 S34 3299628645;
  mk_call II ra rb rc rd_ 0 S41 4096336452;
  mk_call II rd_ ra rb rc 7 S42 1126891415;
  mk_call II rc rd_ ra rb 14 S43 2878612391;
  mk_call II rb rc rd_ ra 5 S44 4237533241;
  mk_call II ra rb rc rd_ 12 S41 1700485571;
  mk_call II rd_ ra rb rc 3 S42 2399980690;
  mk_call II rc rd_ ra rb 10 S43 4293915773;
  mk_call II rb rc rd_ ra 1 S44 2240044497;
  mk_call II ra rb rc rd_ 8 S41 1873313359;
  mk_call II rd_ ra rb rc 15 S42 4264355552;
  mk_call II rc rd_ ra rb 6 S43 2734768916;
  mk_call II rb rc rd_ ra 13 S44 1309151649;
  mk_call II ra rb rc rd_ 4 S41 4149444226;
  mk_call II rd_ ra rb rc 11 S42 3174756917;
  mk_call II rc rd_ ra rb 2 S43 718787259;
  mk_call II rb rc rd_ ra 9 S44 3951481745 ].

Definition Transform (buf in_ : list Z) : list Z :=
  let s := mk_regs (buf !!! 0%nat) (buf !!! 1%nat) (buf !!! 2%nat) (buf !!! 3%nat) in
  let s := fold_left (exec_call in_) Transform_body s in
  [ u32 (buf !!! 0%nat + va s); u32 (buf !!! 1%nat + vb s);
    u32 (buf !!! 2%nat + vc s); u32 (buf !!! 3%nat + vd s) ].

(** ** The context *)

Record MD5_CTX := mk_ctx {
  i0 : Z; i1 : Z;                   (* number of bits handled, mod 2^64 *)
  buf : list Z;                     (* the four words of the state *)
  in_ : list (option Z);            (* 64 bytes of input *)
  digest : list (option Z) }.       (* 16 bytes, written by [MD5Final] *)

(** An automatic variable: nothing in it is initialised. *)
Definition ctx_uninit : MD5_CTX := mk_ctx 0 0 [] (replicate 64 None) (replicate 16 None).

Definition MD5Init (x : MD5_CTX) : MD5_CTX :=
  mk_ctx 0 0 [1732584193; 4023233417; 2562383102; 271733878] (in_ x) (digest x).

Definition in_byte (l : list (option Z)) (i : Z) : outcome Z := o ← rd l i; use o.

(** [in\[ii/4\]], the little-endian word at [ii] of the input buffer. *)
Definition in_word (l : list (option Z)) (ii : Z) : outcome Z :=
  b3 ← in_byte l (ii + 3); b2 ← in_byte l (ii + 2);
  b1 ← in_byte l (ii + 1); b0 ← in_byte l ii;
  mret (Z.lor (Z.lor (Z.lor (u32 (Z.shiftl b3 24)) (u32 (Z.shiftl b2 16))) (u32 (Z.shiftl b1 8))) b0).

(** The decoding loop for [n] words from [ii] on. *)
Fixpoint in_words (n : nat) (ii : Z) (l : list (option Z)) : outcome (list Z) :=
  match n with
  | O => mret []
  | S n => w ← in_word l ii; ws ← in_words n (ii + 4) l; mret (w :: ws)
  end.

(** [while (inLen--)] *)
Fixpoint update_loop (inLen : nat) (inBuf : list Z) (mdi : Z) (x : MD5_CTX) : outcome MD5_CTX :=
  match inLen with
  | O => mret x
  | S inLen =>
      ch ← rd inBuf 0;
      l ← wr (in_ x) mdi (Some ch);
      let x := mk_ctx (i0 x) (i1 x) (buf x) l (digest x) in
      let mdi := mdi + 1 in
      if mdi =? 64 then
        ws ← in_words 16 0 (in_ x);
        update_loop inLen (tail inBuf) 0
          (mk_ctx (i0 x) (i1 x) (Transform (buf x) ws) (in_ x) (digest x))
      else update_loop inLen (tail inBuf) mdi x
  end.

(** [inLen] is an [unsigned int]. *)
Definition MD5Update (x : MD5_CTX) (inBuf : list Z) (inLen : Z) : outcome MD5_CTX :=
  let mdi := Z.land (Z.shiftr (i0 x) 3) 63 in
  let bits := u32 (Z.shiftl inLen 3) in
  let hi := if u32 (i0 x + bits) <? i0 x then u32 (i1 x + 1) else i1 x in
  let lo := u32 (i0 x + bits) in
  let hi := u32 (hi + Z.shiftr inLen 29) in
  update_loop (Z.to_nat inLen) inBuf mdi (mk_ctx lo hi (buf x) (in_ x) (digest x)).

Definition PADDING : list Z := 128 :: replicate 63 0.

(** [digest\[ii\] .. digest\[ii+3\]] of one word. *)
Definition word_bytes (w : Z) : list Z :=
  [ Z.land w 255; Z.land (Z.shiftr w 8) 255; Z.land (Z.shiftr w 16) 255; Z.land (Z.shiftr w 24) 255 ].

Definition MD5Final (x : MD5_CTX) : outcome MD5_CTX :=
  let in14 := i0 x in
  let in15 := i1 x in
  let mdi := Z.land (Z.shiftr (i0 x) 3) 63 in
  let padLen := if mdi <? 56 then 56 - mdi else 120 - mdi in
  x ← MD5Update x PADDING padLen;
  ws ← in_words 14 0 (in_ x);
  let st := Transform (buf x) (ws ++ [in14; in15])%list in
  mret (mk_ctx (i0 x) (i1 x) st (in_ x)
          (Some <$> (word_bytes (st !!! 0%nat) ++ word_bytes (st !!! 1%nat) ++
                     word_bytes (st !!! 2%nat) ++ word_bytes (st !!! 3%nat))%list)).

(** ** The command *)

Definition hex_digit (n : Z) : ascii :=
  ascii_of_nat (Z.to_nat (if n <? 10 then 48 + n else 87 + n)).

(** [printf("%02x", b)] of a byte. *)
Definition hex_byte (b : Z) : string :=
  String (hex_digit (Z.shiftr b 4)) (String (hex_digit (Z.land b 15)) EmptyString).

(** [for (i = 0; i < 16; i++) printf("%02x", mdContext->digest\[i\]);] *)
Fixpoint MDPrint_from (n : nat) (i : Z) (x : MD5_CTX) : outcome string :=
  match n with
  | O => mret ""
  | S n => o ← rd (digest x) i; v ← use o; r ← MDPrint_from n (i + 1) x; mret (hex_byte v ++ r)
  end.

Definition MDPrint (x : MD5_CTX) : outcome string := MDPrint_from 16 0 x.

Definition NL : string := String "010"%char EmptyString.
Definition QUOTE : string := String "034"%char EmptyString.

Fixpoint bytes_of (s : string) : list Z :=
  match s with
  | EmptyString => []
  | String c s => byte_of c :: bytes_of s
  end.

Definition MDString (inString : string) : outcome string :=
  let len := u32 (Z.of_nat (String.length inString)) in
  let x := MD5Init ctx_uninit in
  x ← MD5Update x (bytes_of inString) len;
  x ← MD5Final x;
  r ← MDPrint x;
  mret (r ++ " " ++ QUOTE ++ inString ++ QUOTE ++ NL ++ NL).

(** [while ((bytes = fread(data, 1, n, f)) != 0) MD5Update(...)]: each call
    reads [n] bytes, or what is left of the file. *)
Fixpoint read_loop (fuel n : nat) (file : list Z) (x : MD5_CTX) : outcome MD5_CTX :=
  match fuel with
  | O => Fault OutOfFuel
  | S fuel =>
      let data := take n file in
      match data with
      | [] => mret x
      | _ => x ← MD5Update x data (Z.of_nat (length data)); read_loop fuel n (drop n file) x
      end
  end.

Definition digest_file (n : nat) (file : list Z) : outcome string :=
  let x := MD5Init ctx_uninit in
  x ← read_loop (S (length file)) n file x;
  x ← MD5Final x;
  MDPrint x.

(** What the command sees: the files that can be opened, the standard input,
    and the seconds a time trial takes. *)
Record world := { files : string -> option (list Z); stdin : list Z; elapsed : Z }.

Definition MDFile (W : world) (filename : string) : outcome string :=
  match files W filename with
  | None => mret (filename ++ " can't be opened." ++ NL)
  | Some file => r ← digest_file 1024 file; mret (r ++ " " ++ filename ++ NL)
  end.

Definition MDFilter (W : world) : outcome string :=
  r ← digest_file 16 (stdin W); mret (r ++ NL).

Definition TEST_BLOCK_SIZE : nat := Z.to_nat 1000.
Definition TEST_BLOCKS : nat := Z.to_nat 10000.
Definition TEST_BYTES : Z := Z.of_nat TEST_BLOCK_SIZE * Z.of_nat TEST_BLOCKS.

Definition trial_data : list Z := (fun i => Z.land (Z.of_nat i) 255) <$> seq 0 TEST_BLOCK_SIZE.

Fixpoint trial_loop (n : nat) (x : MD5_CTX) : outcome MD5_CTX :=
  match n with
  | O => mret x
  | S n => x ← MD5Update x trial_data (Z.of_nat TEST_BLOCK_SIZE); trial_loop n x
  end.

(** The trial over [blocks] blocks; the last division has the elapsed seconds
    as its divisor. *)
Definition MDTimeTrial_blocks (blocks : nat) (W : world) : outcome string :=
  x ← trial_loop blocks (MD5Init ctx_uninit);
  x ← MD5Final x;
  r ← MDPrint x;
  if elapsed W =? 0 then Fault DivByZero
  else mret ("MD5 time trial. Processing " ++ pretty TEST_BYTES ++ " characters..." ++ NL ++
             r ++ " is digest of test input." ++ NL ++
             "Seconds to process test input: " ++ pretty (elapsed W) ++ NL ++
             "Characters processed per second: " ++ pretty (Z.quot TEST_BYTES (elapsed W)) ++ NL).

Definition MDTimeTrial (W : world) : outcome string := MDTimeTrial_blocks TEST_BLOCKS W.

Definition MDTestSuite (W : world) : outcome string :=
  s1 ← MDString ""; s2 ← MDString "a"; s3 ← MDString "abc"; s4 ← MDString "message digest";
  s5 ← MDString "abcdefghijklmnopqrstuvwxyz";
  s6 ← MDString "ABCDEFGHIJKLMNOPQRSTUVWXYZabcdefghijklmnopqrstuvwxyz0123456789";
  s7 ← MDString "12345678901234567890123456789012345678901234567890123456789012345678901234567890";
  s8 ← MDFile W "foo";
  mret ("MD5 test suite results:" ++ NL ++ NL ++ s1 ++ s2 ++ s3 ++ s4 ++ s5 ++ s6 ++ s7 ++ s8).

(** One command line argument. *)
Definition md5sum_arg (W : world) (arg : string) : outcome string :=
  if String.prefix "-s" arg then MDString (str_drop 2 arg)
  else if strcmp arg "-t" =? 0 then MDTimeTrial W
  else if strcmp arg "-x" =? 0 then MDTestSuite W
  else MDFile W arg.

Fixpoint md5sum_args (W : world) (args : list string) : outcome string :=
  match args with
  | [] => mret ""
  | arg :: args => r ← md5sum_arg W arg; rs ← md5sum_args W args; mret (r ++ rs)
  end.

(** [args] are the arguments after the name of the command; the result is what
    it prints. *)
Definition md5sum_main (W : world) (args : list string) : outcome string :=
  match args with
  | [] => MDFilter W
  | _ => md5sum_args W args
  end.
