(* ===== verification/Md5Facts.v ===== *)
(** * MD5 computes the digest of RFC 1321

    The reference definition: pad the message with one bit, zeros and its
    length in bits modulo 2^64, cut it into blocks of 64 bytes and fold the
    compression function over them; the compression function is the loop of
    64 steps with the sine table, its constants computed from the power series
    of the sine.  The theorems: the unrolled [Transform] is that loop; the
    streaming interface gives the reference digest of the concatenation of
    what it was fed, in whatever pieces it came; the command prints it. *)

From stdpp Require Import base list numbers option strings.
From Stdlib Require Import Ascii ZArith Lia.
From S2P Require Import Prelude CStrings TestCmd Md5.

Local Open Scope Z_scope.

(** ** The reference definition *)

Fixpoint le_words (bs : list Z) : list Z :=
  match bs with
  | b0 :: b1 :: b2 :: b3 :: r => (b0 + 2 ^ 8 * b1 + 2 ^ 16 * b2 + 2 ^ 24 * b3) :: le_words r
  | _ => []
  end.

Definition le_bytes (n : nat) (z : Z) : list Z :=
  (fun i => z / 2 ^ (8 * Z.of_nat i) mod 2 ^ 8) <$> seq 0 n.

(** [2^32 * |sin x|], rounded down, by the power series of the sine in fixed
    point with 100 fractional bits. *)
Fixpoint sin_series (n : nat) (k term x : Z) : Z :=
  match n with
  | O => 0
  | S n => term + sin_series n (k + 2) (- (term * (x * x) / ((k + 1) * (k + 2)))) x
  end.

Definition sine_constant (x : Z) : Z :=
  Z.abs (sin_series 120 1 (x * 2 ^ 100) x) / 2 ^ 68.

Definition rotl (x n : Z) : Z := (x * 2 ^ n) mod 2 ^ 32 + x / 2 ^ (32 - n).

Definition round_macro (i : nat) : macro :=
  match (i / 16)%nat with 0%nat => FF | 1%nat => GG | 2%nat => HH | _ => II end.

Definition round_word (i : nat) : nat :=
  match round_macro i with
  | FF => i
  | GG => (5 * i + 1) mod 16
  | HH => (3 * i + 5) mod 16
  | II => (7 * i) mod 16
  end.

Definition round_rot (i : nat) : Z :=
  match round_macro i with
  | FF => [7; 12; 17; 22]
  | GG => [5; 9; 14; 20]
  | HH => [4; 11; 16; 23]
  | II => [6; 10; 15; 21]
  end !!! (i mod 4)%nat.

Definition md5_step (X : list Z) (s : regs) (i : nat) : regs :=
  mk_regs (vd s)
    ((vb s + rotl ((va s + fn (round_macro i) (vb s) (vc s) (vd s) + X !!! round_word i
                    + sine_constant (Z.of_nat i + 1)) mod 2 ^ 32) (round_rot i)) mod 2 ^ 32)
    (vb s) (vc s).

Definition compress (st : list Z) (block : list Z) : list Z :=
  let s := mk_regs (st !!! 0%nat) (st !!! 1%nat) (st !!! 2%nat) (st !!! 3%nat) in
  let s := fold_left (md5_step (le_words block)) (seq 0 64) s in
  [ (st !!! 0%nat + va s) mod 2 ^ 32; (st !!! 1%nat + vb s) mod 2 ^ 32;
    (st !!! 2%nat + vc s) mod 2 ^ 32; (st !!! 3%nat + vd s) mod 2 ^ 32 ].

Definition md5_iv : list Z := [0x67452301; 0xefcdab89; 0x98badcfe; 0x10325476].

(** The blocks of 64 bytes that are complete in [m]. *)
Definition block (m : list Z) (i : nat) : list Z := take 64 (drop (64 * i) m).

Definition hash_blocks (m : list Z) : list Z :=
  fold_left (fun st i => compress st (block m i)) (seq 0 (length m / 64)) md5_iv.

Definition pad_zeros (n : nat) : nat := ((119 - n mod 64) mod 64)%nat.

Definition md5_pad (m : list Z) : list Z :=
  m ++ 0x80 :: replicate (pad_zeros (length m)) 0 ++ le_bytes 8 (8 * Z.of_nat (length m)).

Definition md5 (m : list Z) : list Z := flat_map (le_bytes 4) (hash_blocks (md5_pad m)).

Definition is_bytes (l : list Z) : Prop := Forall (fun b => 0 <= b < 2 ^ 8) l.

(** ** Transform is the loop *)

(** The registers in the order in which step [i] of the loop names them. *)
Definition step_regs (i : nat) : reg * reg * reg * reg :=
  match (i mod 4)%nat with
  | 0%nat => (ra, rb, rc, rd_)
  | 1%nat => (rd_, ra, rb, rc)
  | 2%nat => (rc, rd_, ra, rb)
  | _ => (rb, rc, rd_, ra)
  end.

Definition view (i : nat) (s : regs) : regs :=
  let '(p, q, r, t) := step_regs i in mk_regs (get p s) (get q s) (get r s) (get t s).

Definition call_of (i : nat) : call :=
  let '(p, q, r, t) := step_regs i in
  mk_call (round_macro i) p q r t (round_word i) (round_rot i) (sine_constant (Z.of_nat i + 1)).

Lemma Transform_body_calls : Transform_body = call_of <$> seq 0 64.
Proof. vm_compute. reflexivity. Qed.

Lemma land_shiftl_low (x y n : Z) : 0 <= n -> 0 <= y < 2 ^ n -> Z.land (Z.shiftl x n) y = 0.
Proof.
  intros Hn Hy. apply Z.bits_inj'. intros i Hi.
  rewrite Z.land_spec, Z.testbit_0_l, Z.shiftl_spec by done.
  destruct (Z.lt_ge_cases i n); [by rewrite Z.testbit_neg_r by lia|].
  rewrite (proj1 (Z.bounded_iff_bits_nonneg' n y Hn ltac:(lia)) ltac:(lia) i) by lia.
  apply andb_false_r.
Qed.

Lemma lor_shiftl_add (x y n : Z) :
  0 <= n -> 0 <= y < 2 ^ n -> Z.lor (Z.shiftl x n) y = x * 2 ^ n + y.
Proof.
  intros Hn Hy. pose proof (land_shiftl_low x y n Hn Hy) as H0.
  rewrite <- Z.shiftl_mul_pow2, <- Z.lxor_lor by done. symmetry. by apply Z.add_nocarry_lxor.
Qed.

Lemma ROTATE_LEFT_rotl (x n : Z) : 0 <= x < 2 ^ 32 -> 0 <= n <= 32 -> ROTATE_LEFT x n = rotl x n.
Proof.
  intros Hx Hn. unfold ROTATE_LEFT, rotl, wrapU. rewrite Z.shiftl_mul_pow2 by lia.
  replace (2 ^ 32) with (2 ^ (32 - n) * 2 ^ n) by (rewrite <- Z.pow_add_r by lia; f_equal; lia).
  rewrite Z.mul_mod_distr_r by lia. rewrite <- Z.shiftl_mul_pow2 by lia.
  rewrite lor_shiftl_add; [by rewrite Z.shiftl_mul_pow2, Z.shiftr_div_pow2 by lia|lia|].
  rewrite Z.shiftr_div_pow2 by lia. split; [apply Z.div_pos; lia|].
  apply Z.div_lt_upper_bound; [lia|]. rewrite <- Z.pow_add_r by lia.
  replace (32 - n + n) with 32 by lia. lia.
Qed.

Lemma round_rot_range (i : nat) : 0 <= round_rot i <= 32.
Proof.
  unfold round_rot. pose proof (Nat.mod_upper_bound i 4 ltac:(lia)).
  destruct (i mod 4)%nat as [|[|[|[|]]]]; [..|lia]; destruct (round_macro i); simpl; lia.
Qed.

Lemma exec_call_step (X : list Z) (s : regs) (i : nat) :
  view (S i) (exec_call X s (call_of i)) = md5_step X (view i s) i.
Proof.
  assert (forall x, ROTATE_LEFT (u32 x) (round_rot i) = rotl (x mod 2 ^ 32) (round_rot i)) as Hrot.
  { intros x. apply ROTATE_LEFT_rotl; [apply Z.mod_pos_bound; lia|apply round_rot_range]. }
  assert (S i mod 4 = S (i mod 4) mod 4)%nat as Hs.
  { symmetry. apply (Nat.Div0.add_mod_idemp_r 1 i 4). }
  unfold view, call_of, step_regs, exec_call, md5_step. rewrite Hs.
  pose proof (Nat.mod_upper_bound i 4 ltac:(lia)).
  destruct (i mod 4)%nat as [|[|[|[|]]]]; [..|lia]; cbn -[wrapU Z.pow ROTATE_LEFT rotl sine_constant fn];
    rewrite Hrot, !Z.add_assoc; f_equal; unfold wrapU; f_equal; apply Z.add_comm.
Qed.

Lemma exec_calls (X : list Z) (n i : nat) (s : regs) :
  view (i + n) (fold_left (exec_call X) (call_of <$> seq i n) s)
  = fold_left (md5_step X) (seq i n) (view i s).
Proof.
  revert i s. induction n as [|n IH]; intros i s; simpl; [by rewrite Nat.add_0_r|].
  rewrite <- exec_call_step, <- IH. f_equal. lia.
Qed.

Lemma view_id (i : nat) (s : regs) : (i mod 4 = 0)%nat -> view i s = s.
Proof. intros H. unfold view, step_regs. rewrite H. by destruct s. Qed.

Lemma Transform_loop (st X : list Z) :
  Transform st X =
    let s := mk_regs (st !!! 0%nat) (st !!! 1%nat) (st !!! 2%nat) (st !!! 3%nat) in
    let s := fold_left (md5_step X) (seq 0 64) s in
    [ (st !!! 0%nat + va s) mod 2 ^ 32; (st !!! 1%nat + vb s) mod 2 ^ 32;
      (st !!! 2%nat + vc s) mod 2 ^ 32; (st !!! 3%nat + vd s) mod 2 ^ 32 ].
Proof.
  unfold Transform. rewrite Transform_body_calls. cbv zeta.
  pose proof (exec_calls X 64 0 (mk_regs (st !!! 0%nat) (st !!! 1%nat) (st !!! 2%nat) (st !!! 3%nat))) as H.
  rewrite !view_id in H by done. rewrite H. done.
Qed.

Lemma Transform_compress (st blk : list Z) : Transform st (le_words blk) = compress st blk.
Proof. apply Transform_loop. Qed.

(** ** The input buffer *)

Lemma in_word_le (l : list (option Z)) (ii : nat) (b0 b1 b2 b3 : Z) :
  is_bytes [b0; b1; b2; b3] ->
  l !! ii = Some (Some b0) -> l !! (ii + 1)%nat = Some (Some b1) ->
  l !! (ii + 2)%nat = Some (Some b2) -> l !! (ii + 3)%nat = Some (Some b3) ->
  in_word l (Z.of_nat ii) = Ok (b0 + 2 ^ 8 * b1 + 2 ^ 16 * b2 + 2 ^ 24 * b3).
Proof.
  intros Hb H0 H1 H2 H3. unfold in_word, in_byte.
  assert (forall j v, l !! (ii + j)%nat = Some (Some v) ->
            rd l (Z.of_nat ii + Z.of_nat j) = Ok (Some v)) as Hrd.
  { intros j v Hj. apply rd_lookup; [lia|]. by replace (Z.to_nat _) with (ii + j)%nat by lia. }
  rewrite (Hrd 3%nat b3 H3 : rd l (Z.of_nat ii + 3) = _), (Hrd 2%nat b2 H2 : rd l (Z.of_nat ii + 2) = _),
    (Hrd 1%nat b1 H1 : rd l (Z.of_nat ii + 1) = _).
  rewrite (rd_lookup l (Z.of_nat ii) (Some b0)); [|lia|by rewrite Nat2Z.id]. cbn -[Z.pow Z.shiftl Z.lor wrapU].
  unfold is_bytes in Hb. rewrite !Forall_cons in Hb. destruct Hb as (? & ? & ? & ? & _).
  unfold wrapU. rewrite !Z.mod_small by (rewrite Z.shiftl_mul_pow2 by lia; lia).
  unfold mret, outcome_ret. f_equal.
  rewrite <- !Z.lor_assoc. rewrite (lor_shiftl_add b1 b0) by lia.
  rewrite (lor_shiftl_add b2) by lia. rewrite (lor_shiftl_add b3) by lia. lia.
Qed.

Lemma in_words_le (n ii : nat) (l : list (option Z)) (bs : list Z) :
  length bs = (4 * n)%nat -> is_bytes bs ->
  (forall j, (j < 4 * n)%nat -> l !! (ii + j)%nat = Some <$> bs !! j) ->
  in_words n (Z.of_nat ii) l = Ok (le_words bs).
Proof.
  revert ii bs. induction n as [|n IH]; intros ii bs Hlen Hb Hl.
  { by destruct bs. }
  destruct bs as [|b0 [|b1 [|b2 [|b3 bs]]]]; simpl in Hlen; try lia.
  cbn [in_words le_words]. unfold is_bytes in Hb. rewrite !Forall_cons in Hb.
  destruct Hb as (H0 & H1 & H2 & H3 & Hb).
  rewrite (in_word_le l ii b0 b1 b2 b3).
  - cbn [mbind outcome_bind]. replace (Z.of_nat ii + 4) with (Z.of_nat (ii + 4)) by lia.
    rewrite (IH (ii + 4)%nat bs); [done|lia|done|].
    intros j Hj. replace (ii + 4 + j)%nat with (ii + (4 + j))%nat by lia. rewrite Hl by lia. done.
  - unfold is_bytes. rewrite !Forall_cons. done.
  - rewrite <- (Nat.add_0_r ii). by rewrite Hl by lia.
  - by rewrite Hl by lia.
  - by rewrite Hl by lia.
  - by rewrite Hl by lia.
Qed.

(** ** The blocks of a growing message *)

Lemma fold_left_eq_on {A B} (f g : A -> B -> A) (l : list B) (s : A) :
  (forall s i, i ∈ l -> f s i = g s i) -> fold_left f l s = fold_left g l s.
Proof.
  revert s. induction l as [|i l IH]; intros s Hfg; simpl; [done|].
  rewrite Hfg by (by left). apply IH. intros. apply Hfg. by right.
Qed.

Lemma block_app (m m' : list Z) (i : nat) : (i < length m / 64)%nat -> block (m ++ m') i = block m i.
Proof.
  intros Hi. unfold block. pose proof (Nat.div_mod_eq (length m) 64).
  rewrite drop_app_le by lia. rewrite take_app_le; [done|]. rewrite length_drop. lia.
Qed.

Lemma hash_blocks_same (m m' : list Z) :
  (length (m ++ m') / 64 = length m / 64)%nat -> hash_blocks (m ++ m') = hash_blocks m.
Proof.
  intros Hl. unfold hash_blocks. rewrite Hl. apply fold_left_eq_on.
  intros s i Hi%elem_of_seq. by rewrite block_app by lia.
Qed.

Lemma hash_blocks_block (m b : list Z) :
  (length m mod 64 = 0)%nat -> length b = 64%nat -> hash_blocks (m ++ b) = compress (hash_blocks m) b.
Proof.
  intros Hm Hb. unfold hash_blocks. pose proof (Nat.div_mod_eq (length m) 64) as Hdm.
  assert (length (m ++ b) / 64 = S (length m / 64))%nat as ->.
  { rewrite length_app, Hb. replace (length m + 64)%nat with (length m + 1 * 64)%nat by lia.
    rewrite Nat.div_add by lia. lia. }
  rewrite seq_S, fold_left_app. cbn [fold_left Nat.add].
  rewrite (fold_left_eq_on _ (fun st i => compress st (block m i))).
  - f_equal. unfold block. rewrite drop_app_ge by lia.
    replace (64 * (length m / 64) - length m)%nat with 0%nat by lia.
    rewrite drop_0. by rewrite take_ge by lia.
  - intros s i Hi%elem_of_seq. by rewrite block_app by lia.
Qed.

(** The bytes of [m] after its last complete block. *)
Definition tail_bytes (m : list Z) : list Z := drop (64 * (length m / 64)) m.

Lemma tail_bytes_length (m : list Z) : length (tail_bytes m) = (length m mod 64)%nat.
Proof. unfold tail_bytes. rewrite length_drop. pose proof (Nat.div_mod_eq (length m) 64). lia. Qed.

Lemma tail_bytes_prefix (m : list Z) : exists q, m = q ++ tail_bytes m /\ (length q mod 64 = 0)%nat
  /\ hash_blocks q = hash_blocks m.
Proof.
  pose proof (Nat.div_mod_eq (length m) 64) as Hdm.
  assert (length (take (64 * (length m / 64)) m) = 64 * (length m / 64))%nat as Hl
    by (rewrite length_take; lia).
  exists (take (64 * (length m / 64)) m). unfold tail_bytes. split_and!.
  - by rewrite take_drop.
  - rewrite Hl, Nat.mul_comm. apply Nat.Div0.mod_mul.
  - rewrite <- (take_drop (64 * (length m / 64)) m) at 3. symmetry. apply hash_blocks_same.
    rewrite take_drop, Hl, Nat.mul_comm, Nat.div_mul by lia. done.
Qed.

Lemma grow_same (m m' : list Z) :
  (length m mod 64 + length m' < 64)%nat ->
  hash_blocks (m ++ m') = hash_blocks m /\ tail_bytes (m ++ m') = tail_bytes m ++ m'.
Proof.
  intros Hl. pose proof (Nat.div_mod_eq (length m) 64) as Hdm.
  assert (length (m ++ m') / 64 = length m / 64)%nat as Hd.
  { symmetry. apply (Nat.div_unique _ 64 _ (length m mod 64 + length m')); [lia|].
    rewrite length_app. lia. }
  split; [by apply hash_blocks_same|]. unfold tail_bytes. rewrite Hd.
  by rewrite drop_app_le by lia.
Qed.

Lemma grow_block (m m' : list Z) :
  (length m mod 64 + length m' = 64)%nat ->
  hash_blocks (m ++ m') = compress (hash_blocks m) (tail_bytes m ++ m') /\ tail_bytes (m ++ m') = [].
Proof.
  intros Hl. destruct (tail_bytes_prefix m) as (q & Hm & Hq & Hh). split.
  - rewrite <- Hh. rewrite Hm at 1. rewrite <- app_assoc. apply hash_blocks_block; [done|].
    rewrite length_app, tail_bytes_length. lia.
  - apply nil_length_inv. rewrite tail_bytes_length, length_app.
    pose proof (Nat.div_mod_eq (length m) 64) as Hdm.
    replace (length m + length m')%nat with ((length m / 64 + 1) * 64)%nat by lia.
    apply Nat.Div0.mod_mul.
Qed.

(** ** The update loop *)

(** The context has taken in the message [m], its bit count apart. *)
Record absorbed (x : MD5_CTX) (m : list Z) : Prop := {
  ab_buf : buf x = hash_blocks m;
  ab_len : length (in_ x) = 64%nat;
  ab_in : take (length m mod 64) (in_ x) = Some <$> tail_bytes m }.

Lemma absorbed_bytes (x : MD5_CTX) (l : list (option Z)) (bs : list Z) (n : nat) :
  take n l = Some <$> bs -> length bs = n -> forall j, (j < n)%nat -> l !! j = Some <$> bs !! j.
Proof. intros Ht Hl j Hj. by rewrite <- (lookup_take_lt l n j), Ht, list_lookup_fmap by lia. Qed.

Lemma update_loop_absorbs (inLen : nat) (inBuf m : list Z) (x : MD5_CTX) :
  absorbed x m -> (inLen <= length inBuf)%nat -> is_bytes m -> is_bytes inBuf ->
  exists x', update_loop inLen inBuf (Z.of_nat (length m mod 64)) x = Ok x' /\
    absorbed x' (m ++ take inLen inBuf) /\ i0 x' = i0 x /\ i1 x' = i1 x /\ digest x' = digest x.
Proof.
  revert inBuf m x. induction inLen as [|n IH]; intros inBuf m x [Hbuf Hlen Hin] Hn Hm Hb.
  { exists x. rewrite take_0, app_nil_r. done. }
  destruct inBuf as [|ch rest]; simpl in Hn; [lia|].
  unfold is_bytes in Hb. apply Forall_cons in Hb as [Hch Hb].
  pose proof (Nat.mod_upper_bound (length m) 64 ltac:(lia)) as Hmod.
  cbn [update_loop]. change (rd (ch :: rest) 0) with (@Ok Z ch). cbn [mbind outcome_bind].
  rewrite wr_ok by lia. rewrite Nat2Z.id. cbn [mbind outcome_bind in_ i0 i1 buf digest tail].
  set (l := <[(length m mod 64)%nat := Some ch]> (in_ x)).
  assert (take (S (length m mod 64)) l = Some <$> (tail_bytes m ++ [ch])) as Hl.
  { unfold l. rewrite (take_S_r _ _ (Some ch)) by (apply list_lookup_insert_eq; lia).
    by rewrite take_insert_ge, Hin, fmap_app by lia. }
  replace (m ++ take (S n) (ch :: rest)) with ((m ++ [ch]) ++ take n rest) by (by rewrite <- app_assoc).
  assert (is_bytes (m ++ [ch])) as Hm' by (apply Forall_app; split; [done|by apply Forall_singleton]).
  destruct (Z.eqb_spec (Z.of_nat (length m mod 64) + 1) 64) as [Hfull|Hpart].
  - destruct (grow_block m [ch] ltac:(cbn [length]; lia)) as [Hh Ht].
    assert (length (tail_bytes m ++ [ch]) = 64%nat) as Hbl
      by (rewrite length_app, tail_bytes_length; cbn [length]; lia).
    assert (in_words 16 0 l = Ok (le_words (tail_bytes m ++ [ch]))) as Hw.
    { apply (in_words_le 16 0); [done| |].
      - apply Forall_app. split; [by apply Forall_drop|by apply Forall_singleton].
      - apply (absorbed_bytes x l _ 64); [|done]. rewrite <- Hl. f_equal. lia. }
    rewrite Hw. cbn [mbind outcome_bind]. rewrite Hbuf, Transform_compress, <- Hh.
    assert (length (m ++ [ch]) mod 64 = 0)%nat as H0 by (by rewrite <- tail_bytes_length, Ht).
    edestruct (IH rest (m ++ [ch])) as (x' & Hx & Hab & H1 & H2 & H3); [|lia|done|done|].
    2: { rewrite H0 in Hx. exists x'. split; [exact Hx|done]. }
    split; cbn [buf in_]; [done|unfold l; by rewrite length_insert|by rewrite H0, Ht].
  - destruct (grow_same m [ch] ltac:(cbn [length]; lia)) as [Hh Ht].
    assert (length (m ++ [ch]) mod 64 = S (length m mod 64))%nat as H1.
    { rewrite <- tail_bytes_length, Ht, length_app, tail_bytes_length. cbn [length]. lia. }
    destruct (IH rest (m ++ [ch]) (mk_ctx (i0 x) (i1 x) (buf x) l (digest x)))
      as (x' & Hx & Hab & H2 & H3 & H4); [|lia|done|done|].
    2: { rewrite H1 in Hx. exists x'. split; [|done].
         replace (Z.of_nat (length m mod 64) + 1) with (Z.of_nat (S (length m mod 64))) by lia. exact Hx. }
    split; cbn [buf in_]; [by rewrite Hbuf, Hh|unfold l; by rewrite length_insert|by rewrite H1, Ht].
Qed.

(** ** The interface *)

(** The context has taken in [m], with the count of its bits modulo 2^64. *)
Record ctx_of (x : MD5_CTX) (m : list Z) : Prop := {
  co_abs : absorbed x m;
  co_bytes : is_bytes m;
  co_lo : i0 x = (8 * Z.of_nat (length m)) mod 2 ^ 32;
  co_hi : i1 x = (8 * Z.of_nat (length m)) / 2 ^ 32 mod 2 ^ 32 }.

Lemma bit_index (n : nat) :
  Z.land (Z.shiftr ((8 * Z.of_nat n) mod 2 ^ 32) 3) 63 = Z.of_nat (n mod 64).
Proof.
  change 63 with (Z.ones 6). rewrite Z.land_ones, Z.shiftr_div_pow2, Nat2Z.inj_mod by lia.
  change (2 ^ 32) with 4294967296. change (2 ^ 3) with 8. change (2 ^ 6) with 64.
  change (Z.of_nat 64) with 64. set (k := Z.of_nat n).
  pose proof (Z.div_mod (8 * k) 4294967296 ltac:(lia)) as Hd.
  replace ((8 * k) mod 4294967296) with ((k - 8388608 * (8 * k / 4294967296) * 64) * 8) by lia.
  rewrite Z.div_mul by lia. rewrite <- Z.add_opp_r, <- Z.mul_opp_l. apply Z.mod_add. lia.
Qed.

Lemma MD5Init_ctx (x : MD5_CTX) : length (in_ x) = 64%nat -> ctx_of (MD5Init x) [].
Proof. intros Hl. split; [|constructor|done|done]. by split. Qed.

(** The carry of an addition of two digits in base [M] shows in the low digit. *)
Lemma add_carry (p q M : Z) :
  0 < M ->
  (p + q) / M = p / M + q / M + (if (p mod M + q mod M) mod M <? p mod M then 1 else 0).
Proof.
  intros HM. pose proof (Z.div_mod p M ltac:(lia)) as Hp. pose proof (Z.div_mod q M ltac:(lia)) as Hq.
  pose proof (Z.mod_pos_bound p M HM). pose proof (Z.mod_pos_bound q M HM).
  set (r := p mod M) in *. set (t := q mod M) in *.
  replace (p + q) with ((r + t) + (p / M + q / M) * M) by lia. rewrite Z.div_add by lia.
  destruct (Z.lt_ge_cases (r + t) M).
  - rewrite Z.div_small, Z.mod_small by lia. destruct (Z.ltb_spec (r + t) r); lia.
  - replace (r + t) with ((r + t - M) + 1 * M) by lia. rewrite Z.div_add, Z.mod_add by lia.
    rewrite Z.div_small, Z.mod_small by lia. destruct (Z.ltb_spec (r + t - M) r); lia.
Qed.

Lemma MD5Update_ctx (x : MD5_CTX) (m inBuf : list Z) (inLen : Z) :
  ctx_of x m -> is_bytes inBuf -> 0 <= inLen < 2 ^ 32 -> inLen <= Z.of_nat (length inBuf) ->
  exists x', MD5Update x inBuf inLen = Ok x' /\ ctx_of x' (m ++ take (Z.to_nat inLen) inBuf).
Proof.
  intros [Hab Hm Hlo Hhi] Hb Hlen Hle. unfold MD5Update.
  set (y := mk_ctx _ _ (buf x) (in_ x) (digest x)).
  assert (absorbed y m) as Hy by (destruct Hab; by split).
  destruct (update_loop_absorbs (Z.to_nat inLen) inBuf m y Hy) as (x' & Hx & Hab' & H0 & H1 & _);
    [lia|done|done|].
  exists x'. rewrite Hlo, bit_index. split; [exact Hx|].
  split; [done|apply Forall_app; split; [done|by apply Forall_take]|..].
  - rewrite H0. cbn [i0 y]. rewrite Hlo. unfold wrapU. rewrite Z.shiftl_mul_pow2 by lia.
    rewrite <- Zplus_mod. f_equal. rewrite length_app, length_take. change (2 ^ 3) with 8. lia.
  - rewrite H1. cbn [i1 y]. rewrite Hlo, Hhi. unfold wrapU.
    rewrite Z.shiftl_mul_pow2, Z.shiftr_div_pow2 by lia.
    replace (8 * Z.of_nat (length (m ++ _))) with (8 * Z.of_nat (length m) + inLen * 2 ^ 3)
      by (rewrite length_app, length_take; change (2 ^ 3) with 8; lia).
    rewrite (add_carry _ (inLen * 2 ^ 3) (2 ^ 32)) by lia.
    replace (inLen * 2 ^ 3 / 2 ^ 32) with (inLen / 2 ^ 29)
      by (change (2 ^ 32) with (2 ^ 29 * 2 ^ 3); by rewrite Z.div_mul_cancel_r by lia).
    case_match; rewrite ?Z.add_mod_idemp_l by lia; [|by rewrite Z.add_0_r].
    rewrite <- (Z.add_assoc _ 1), Z.add_mod_idemp_l by lia. f_equal. lia.
Qed.

Lemma le_words_app (n : nat) (p q : list Z) :
  length p = (4 * n)%nat -> le_words (p ++ q) = le_words p ++ le_words q.
Proof.
  revert p. induction n as [|n IH]; intros p Hp; [by destruct p|].
  destruct p as [|b0 [|b1 [|b2 [|b3 p]]]]; simpl in Hp; try lia.
  simpl. f_equal. apply IH. lia.
Qed.

Lemma four_bytes (w : Z) :
  w mod 2 ^ 8 + 2 ^ 8 * (w / 2 ^ 8 mod 2 ^ 8) + 2 ^ 16 * (w / 2 ^ 16 mod 2 ^ 8)
  + 2 ^ 24 * (w / 2 ^ 24 mod 2 ^ 8) = w mod 2 ^ 32.
Proof.
  pose proof (Z.rem_mul_r w (2 ^ 24) (2 ^ 8) ltac:(lia) ltac:(lia)) as H3.
  pose proof (Z.rem_mul_r w (2 ^ 16) (2 ^ 8) ltac:(lia) ltac:(lia)) as H2.
  pose proof (Z.rem_mul_r w (2 ^ 8) (2 ^ 8) ltac:(lia) ltac:(lia)) as H1.
  change (2 ^ 24 * 2 ^ 8) with (2 ^ 32) in H3. change (2 ^ 16 * 2 ^ 8) with (2 ^ 24) in H2.
  change (2 ^ 8 * 2 ^ 8) with (2 ^ 16) in H1. by rewrite H3, H2, H1.
Qed.

Lemma le_words_length8 (z : Z) :
  le_words (le_bytes 8 z) = [z mod 2 ^ 32; z / 2 ^ 32 mod 2 ^ 32].
Proof.
  unfold le_bytes. cbn -[Z.pow Z.mul].
  change (2 ^ (8 * 0)) with 1. rewrite Z.div_1_r. rewrite four_bytes.
  rewrite <- (four_bytes (z / 2 ^ 32)), !Z.div_div by lia. done.
Qed.

Lemma word_bytes_le (w : Z) : word_bytes w = le_bytes 4 w.
Proof.
  unfold word_bytes, le_bytes. change 255 with (Z.ones 8).
  rewrite !Z.land_ones, !Z.shiftr_div_pow2 by lia. cbn -[Z.pow Z.mul].
  change (2 ^ (8 * 0)) with 1. by rewrite Z.div_1_r.
Qed.

Lemma pad_length (n : nat) :
  (if Z.of_nat (n mod 64) <? 56 then 56 - Z.of_nat (n mod 64) else 120 - Z.of_nat (n mod 64))
  = Z.of_nat (S (pad_zeros n)).
Proof.
  pose proof (Nat.mod_upper_bound n 64 ltac:(lia)) as Hmod. unfold pad_zeros.
  destruct (Z.ltb_spec (Z.of_nat (n mod 64)) 56) as [Hlt|Hge].
  - replace (119 - n mod 64)%nat with (55 - n mod 64 + 1 * 64)%nat by lia.
    rewrite Nat.Div0.mod_add, (Nat.mod_small (55 - _)) by lia. lia.
  - rewrite (Nat.mod_small (119 - _)) by lia. lia.
Qed.

Lemma pad_zeros_mod (n : nat) : ((n mod 64 + S (pad_zeros n)) mod 64 = 56)%nat.
Proof.
  unfold pad_zeros. pose proof (Nat.mod_upper_bound n 64 ltac:(lia)) as Hmod.
  replace (n mod 64 + S ((119 - n mod 64) mod 64))%nat
    with (S (n mod 64) + (119 - n mod 64) mod 64)%nat by lia.
  rewrite Nat.Div0.add_mod_idemp_r. by replace (S (n mod 64) + (119 - n mod 64))%nat with 120%nat by lia.
Qed.

Lemma is_bytes_PADDING : is_bytes PADDING.
Proof. unfold PADDING, is_bytes. apply Forall_cons. split; [lia|]. apply Forall_replicate. lia. Qed.

(** Padding and the length complete the last block. *)
Lemma MD5Final_digest (x : MD5_CTX) (m : list Z) :
  ctx_of x m -> exists x', MD5Final x = Ok x' /\ digest x' = Some <$> md5 m.
Proof.
  intros Hc. pose proof Hc as [_ _ Hlo Hhi]. unfold MD5Final.
  pose proof (Nat.mod_upper_bound (length m) 64 ltac:(lia)) as Hmod.
  assert (pad_zeros (length m) < 64)%nat as Hz by (apply Nat.mod_upper_bound; lia).
  rewrite Hlo, Hhi, bit_index, pad_length.
  destruct (MD5Update_ctx x m PADDING (Z.of_nat (S (pad_zeros (length m))))) as (x' & -> & [Hab Hb _ _]);
    [done|apply is_bytes_PADDING|lia|unfold PADDING; cbn [length]; rewrite length_replicate; lia|].
  cbn [mbind outcome_bind].
  assert (take (Z.to_nat (Z.of_nat (S (pad_zeros (length m))))) PADDING
          = 0x80 :: replicate (pad_zeros (length m)) 0) as Hpad.
  { rewrite Nat2Z.id. unfold PADDING. cbn [take]. by rewrite take_replicate, Nat.min_l by lia. }
  rewrite Hpad in *. set (m' := m ++ 0x80 :: _) in *. destruct Hab as [Hbuf Hlen Hin].
  assert (length m' mod 64 = 56)%nat as H56.
  { unfold m'. rewrite length_app. cbn [length]. rewrite length_replicate.
    rewrite <- Nat.Div0.add_mod_idemp_l. apply pad_zeros_mod. }
  assert (in_words 14 0 (in_ x') = Ok (le_words (tail_bytes m'))) as ->.
  { pose proof (tail_bytes_length m') as Htl. rewrite H56 in *.
    apply (in_words_le 14 0); [done|by apply Forall_drop|]. by apply (absorbed_bytes x' _ _ 56). }
  cbn [mbind outcome_bind]. eexists. split; [done|]. cbn [digest].
  rewrite <- le_words_length8, <- (le_words_app 14) by (by rewrite tail_bytes_length, H56).
  rewrite Hbuf, Transform_compress.
  destruct (grow_block m' (le_bytes 8 (8 * Z.of_nat (length m)))) as [<- _].
  { rewrite H56. done. }
  unfold md5, md5_pad. replace (m ++ 0x80 :: replicate (pad_zeros (length m)) 0 ++ _)
    with (m' ++ le_bytes 8 (8 * Z.of_nat (length m))) by (unfold m'; by rewrite <- app_assoc).
  rewrite !word_bytes_le. f_equal.
  destruct (grow_block m' (le_bytes 8 (8 * Z.of_nat (length m)))) as [-> _]; [by rewrite H56|].
  unfold compress. cbn [flat_map lookup_total list_lookup_total]. by rewrite app_nil_r.
Qed.

Fixpoint feed (chunks : list (list Z)) (x : MD5_CTX) : outcome MD5_CTX :=
  match chunks with
  | [] => mret x
  | p :: chunks => x ← MD5Update x p (Z.of_nat (length p)); feed chunks x
  end.

(** Pieces that a call of [MD5Update] can take. *)
Definition pieces (chunks : list (list Z)) : Prop :=
  Forall (fun p => is_bytes p /\ Z.of_nat (length p) < 2 ^ 32) chunks.

Lemma feed_ctx (chunks : list (list Z)) (x : MD5_CTX) (m : list Z) :
  ctx_of x m -> pieces chunks -> exists x', feed chunks x = Ok x' /\ ctx_of x' (m ++ concat chunks).
Proof.
  revert x m. induction chunks as [|p chunks IH]; intros x m Hc Hp; simpl.
  { exists x. rewrite app_nil_r. done. }
  apply Forall_cons in Hp as [[Hb Hl] Hp].
  destruct (MD5Update_ctx x m p (Z.of_nat (length p)) Hc Hb) as (x' & Hx & Hc'); [lia|lia|].
  rewrite Hx. cbn [mbind outcome_bind]. rewrite Nat2Z.id, firstn_all in Hc'.
  destruct (IH _ _ Hc' Hp) as (x'' & -> & Hc''). exists x''. by rewrite app_assoc.
Qed.

(** ** The command *)

Fixpoint hex_string (l : list Z) : string :=
  match l with
  | [] => ""
  | v :: l => (hex_byte v ++ hex_string l)%string
  end.

Lemma MDPrint_from_hex (n : nat) (x : MD5_CTX) (ds ds0 : list Z) :
  digest x = Some <$> (ds0 ++ ds) -> length ds = n ->
  MDPrint_from n (Z.of_nat (length ds0)) x = Ok (hex_string ds).
Proof.
  revert ds ds0. induction n as [|n IH]; intros ds ds0 Hd Hl.
  { by destruct ds. }
  destruct ds as [|v ds]; [done|]. cbn [MDPrint_from hex_string].
  rewrite (rd_lookup _ _ (Some v)); [|lia|].
  2: { rewrite Hd, Nat2Z.id, list_lookup_fmap, list_lookup_middle by done. done. }
  cbn [mbind outcome_bind use].
  replace (Z.of_nat (length ds0) + 1) with (Z.of_nat (length (ds0 ++ [v])))
    by (rewrite length_app; cbn [length]; lia).
  rewrite (IH ds (ds0 ++ [v])); [done|by rewrite Hd, <- app_assoc|by injection Hl].
Qed.

Lemma hash_blocks_length (m : list Z) : length (hash_blocks m) = 4%nat.
Proof.
  unfold hash_blocks. induction (length m / 64)%nat as [|k IH]; [done|].
  rewrite seq_S, fold_left_app. done.
Qed.

Lemma md5_length (m : list Z) : length (md5 m) = 16%nat.
Proof.
  unfold md5. pose proof (hash_blocks_length (md5_pad m)) as Hl.
  destruct (hash_blocks (md5_pad m)) as [|w0 [|w1 [|w2 [|w3 [|]]]]]; done.
Qed.

Lemma MDPrint_md5 (x : MD5_CTX) (m : list Z) :
  digest x = Some <$> md5 m -> MDPrint x = Ok (hex_string (md5 m)).
Proof. intros Hd. apply (MDPrint_from_hex 16 x (md5 m) []); [done|apply md5_length]. Qed.

Lemma init_ctx : ctx_of (MD5Init ctx_uninit) [].
Proof. by apply MD5Init_ctx. Qed.

Lemma final_print (x : MD5_CTX) (m : list Z) :
  ctx_of x m -> (x ← MD5Final x; MDPrint x) = Ok (hex_string (md5 m)).
Proof.
  intros Hc. destruct (MD5Final_digest x m Hc) as (x' & -> & Hd). by apply MDPrint_md5.
Qed.

Lemma bytes_of_length (s : string) : length (bytes_of s) = String.length s.
Proof. induction s as [|c s IH]; simpl; [done|]. by rewrite IH. Qed.

Lemma bytes_of_bytes (s : string) : is_bytes (bytes_of s).
Proof.
  induction s as [|c s IH]; simpl; [constructor|]. apply Forall_cons. split; [|done].
  unfold byte_of. pose proof (nat_ascii_bounded c). lia.
Qed.

Lemma MDString_prints (s : string) :
  Z.of_nat (String.length s) < 2 ^ 32 ->
  MDString s = Ok (hex_string (md5 (bytes_of s)) ++ " " ++ QUOTE ++ s ++ QUOTE ++ NL ++ NL)%string.
Proof.
  intros Hs. unfold MDString. unfold wrapU. rewrite Z.mod_small by lia.
  destruct (MD5Update_ctx _ [] (bytes_of s) (Z.of_nat (String.length s)) init_ctx) as (x & -> & Hc);
    [apply bytes_of_bytes|lia|by rewrite bytes_of_length|].
  rewrite Nat2Z.id, <- bytes_of_length, firstn_all in Hc. cbn [mbind outcome_bind app] in *.
  destruct (MD5Final_digest x _ Hc) as (x' & -> & Hd). cbn [mbind outcome_bind].
  by rewrite (MDPrint_md5 _ _ Hd).
Qed.

Lemma read_loop_ctx (fuel n : nat) (file m : list Z) (x : MD5_CTX) :
  ctx_of x m -> is_bytes file -> (0 < n)%nat -> Z.of_nat n < 2 ^ 32 -> (length file < fuel)%nat ->
  exists x', read_loop fuel n file x = Ok x' /\ ctx_of x' (m ++ file).
Proof.
  revert file m x. induction fuel as [|fuel IH]; intros file m x Hc Hb Hn Hn' Hf; [lia|].
  cbn [read_loop]. destruct file as [|c file].
  { exists x. rewrite take_nil, app_nil_r. done. }
  set (f := c :: file) in *. assert (take n f <> []) as Hne by (by destruct n; [lia|]).
  pose proof (length_take f n) as Hlt.
  destruct (MD5Update_ctx x m (take n f) (Z.of_nat (length (take n f))) Hc) as (x' & Hx & Hc');
    [by apply Forall_take|lia|lia|].
  destruct (take n f) as [|c' r] eqn:Ht; [done|]. rewrite Hx. cbn [mbind outcome_bind].
  rewrite Nat2Z.id, firstn_all in Hc'.
  destruct (IH (drop n f) _ _ Hc') as (x'' & -> & Hc''); [by apply Forall_drop|done|done| |].
  - rewrite length_drop. unfold f in *. cbn [length] in *. lia.
  - exists x''. split; [done|]. by rewrite <- app_assoc, <- Ht, take_drop in Hc''.
Qed.

Lemma digest_file_prints (n : nat) (file : list Z) :
  is_bytes file -> (0 < n)%nat -> Z.of_nat n < 2 ^ 32 ->
  digest_file n file = Ok (hex_string (md5 file)).
Proof.
  intros Hb Hn Hn'. unfold digest_file.
  destruct (read_loop_ctx (S (length file)) n file [] (MD5Init ctx_uninit) init_ctx)
    as (x & -> & Hc); [done|done|done|lia|]. by apply final_print.
Qed.

Lemma trial_loop_ctx (n : nat) (x : MD5_CTX) (m : list Z) :
  ctx_of x m -> exists x' m', trial_loop n x = Ok x' /\ ctx_of x' m'.
Proof.
  revert x m. induction n as [|n IH]; intros x m Hc; [by exists x, m|]. cbn [trial_loop].
  destruct (MD5Update_ctx x m trial_data (Z.of_nat TEST_BLOCK_SIZE) Hc) as (x' & -> & Hc').
  - unfold trial_data, is_bytes. apply Forall_fmap, Forall_forall. intros i _. simpl.
    apply (land_ones_range _ 8). lia.
  - done.
  - unfold trial_data. rewrite length_fmap, length_seq. done.
  - cbn [mbind outcome_bind]. by eapply IH.
Qed.

(** The line that the command prints for one argument that names a file or
    gives a string. *)
Definition md5_line (W : world) (arg : string) : string :=
  if String.prefix "-s" arg
  then (hex_string (md5 (bytes_of (str_drop 2 arg))) ++ " " ++ QUOTE ++ str_drop 2 arg ++ QUOTE ++ NL ++ NL)%string
  else match files W arg with
       | Some file => (hex_string (md5 file) ++ " " ++ arg ++ NL)%string
       | None => (arg ++ " can't be opened." ++ NL)%string
       end.

Definition digest_arg (arg : string) : Prop :=
  if String.prefix "-s" arg then Z.of_nat (String.length (str_drop 2 arg)) < 2 ^ 32
  else strcmp arg "-t" <> 0 /\ strcmp arg "-x" <> 0.

(** C14: whatever the pieces in which a message is fed to [MD5Update], between
    [MD5Init] and [MD5Final], the digest is the one that RFC 1321 defines for
    the whole message; no byte of the context is used before it is written. *)
Theorem md5_streaming (x : MD5_CTX) (chunks : list (list Z)) :
  length (in_ x) = 64%nat -> pieces chunks ->
  exists x', (y ← feed chunks (MD5Init x); MD5Final y) = Ok x' /\
    digest x' = Some <$> md5 (concat chunks).
Proof.
  intros Hx Hp. destruct (feed_ctx chunks (MD5Init x) [] (MD5Init_ctx x Hx) Hp) as (y & -> & Hc).
  apply (MD5Final_digest y _ Hc).
Qed.

Lemma md5_streaming_witness :
  exists x', (y ← feed [[97]; [98; 99]] (MD5Init ctx_uninit); MD5Final y) = Ok x' /\
    digest x' = Some <$> md5 (concat [[97]; [98; 99]]).
Proof.
  apply (md5_streaming ctx_uninit [[97]; [98; 99]]); [reflexivity|].
  unfold pieces, is_bytes. rewrite !Forall_cons. simpl. split_and!; try lia; by apply Forall_nil.
Defined.

(** [md5sum] prints, for its arguments in order, the digest of each string
    given with -s and of each file (all of it, in blocks of 1024 bytes), or
    that a file can't be opened; without arguments it prints the digest of
    the standard input. *)
Theorem md5sum_main_prints (W : world) (args : list string) :
  is_bytes (stdin W) -> (forall f l, files W f = Some l -> is_bytes l) -> Forall digest_arg args ->
  md5sum_main W args =
    Ok match args with
       | [] => (hex_string (md5 (stdin W)) ++ NL)%string
       | _ => foldr (fun arg r => (md5_line W arg ++ r)%string) ""%string args
       end.
Proof.
  intros Hs Hf Ha.
  assert (forall arg, digest_arg arg -> md5sum_arg W arg = Ok (md5_line W arg)) as Harg.
  { intros arg Hd. unfold md5sum_arg, md5_line, digest_arg in *.
    destruct (String.prefix "-s" arg); [by apply MDString_prints|]. destruct Hd as [Ht Hx].
    rewrite (proj2 (Z.eqb_neq _ _) Ht), (proj2 (Z.eqb_neq _ _) Hx). unfold MDFile.
    destruct (files W arg) as [l|] eqn:Hl; [|done].
    rewrite (digest_file_prints 1024 l) by (done || lia || by eapply Hf). done. }
  assert (md5sum_args W args = Ok (foldr (fun arg r => (md5_line W arg ++ r)%string) ""%string args))
    as Hargs.
  { induction Ha as [|arg args Hd Ha IH]; [done|]. cbn [md5sum_args foldr].
    rewrite Harg by done. cbn [mbind outcome_bind]. by rewrite IH. }
  destruct args as [|arg args]; [|exact Hargs].
  unfold md5sum_main, MDFilter. by rewrite (digest_file_prints 16) by (done || lia).
Qed.

Lemma md5sum_main_prints_witness :
  md5sum_main {| files := fun f => if String.eqb f "foo" then Some [97; 98; 99] else None;
                 stdin := []; elapsed := 1 |} ["foo"; "-sa"; "bar"]%string
  = Ok ((hex_string (md5 [97; 98; 99]) ++ " " ++ "foo" ++ NL) ++
        (hex_string (md5 [97]) ++ " " ++ QUOTE ++ "a" ++ QUOTE ++ NL ++ NL) ++
        ("bar" ++ " can't be opened." ++ NL) ++ "")%string.
Proof.
  set (W := {| files := _; stdin := _; elapsed := _ |}).
  refine (eq_trans (md5sum_main_prints W ["foo"; "-sa"; "bar"]%string _ _ _) _).
  - apply Forall_nil. exact Logic.I.
  - intros f l. simpl. case_match; [|done]. intros [= <-]. unfold is_bytes.
    rewrite !Forall_cons. split_and!; try lia. by apply Forall_nil.
  - repeat (apply Forall_cons; split); [split; vm_compute; discriminate|vm_compute; reflexivity
      |split; vm_compute; discriminate|by apply Forall_nil].
  - reflexivity.
Defined.

(** A time trial that takes less than a second ends in a division by zero:
    its last line divides by the elapsed seconds. *)
Theorem MDTimeTrial_division (W : world) :
  match MDTimeTrial W with
  | Ok _ => elapsed W <> 0
  | Fault f => elapsed W = 0 /\ f = DivByZero
  end.
Proof.
  unfold MDTimeTrial, MDTimeTrial_blocks.
  destruct (trial_loop_ctx TEST_BLOCKS _ [] init_ctx) as (x & m & -> & Hc). cbn [mbind outcome_bind].
  destruct (MD5Final_digest x m Hc) as (x' & -> & Hd). cbn [mbind outcome_bind].
  rewrite (MDPrint_md5 _ _ Hd). cbn [mbind outcome_bind].
  by destruct (Z.eqb_spec (elapsed W) 0).
Qed.
