(* ===== verification/Motobox.v ===== *)
(** * The other commands of motobox

    The multi-call binary (src/motobox/motobox.c), which picks a command by the
    name it was called with, and the small commands: [ptf], [getconfig], the
    argument checks of [setconfig], [swapon], [swapoff] and [mkswap].  What the
    system calls answer is the environment of each command.  A command yields
    what it prints and its exit status. *)

From stdpp Require Import base list numbers option strings pretty.
From Stdlib Require Import Ascii ZArith Lia.
From S2P Require Import Prelude CStrings TestCmd Md5.

Local Open Scope string_scope.
Local Open Scope Z_scope.

(** [(int)strtol(s, NULL, 10)]; [int] and [long] have the same range. *)
Definition atoi (s : string) : Z :=
  match strto LONG_MIN LONG_MAX s with
  | Some (v, _, _) => v
  | None => 0
  end.

(** ** Dispatch (motobox.c) *)

(** A command of the table, by name; [TMotobox] is motobox itself. *)
Inductive tool := TMotobox | TTest | TGetconfig | TPtf.

#[export] Instance tool_eq_dec : EqDecision tool.
Proof. solve_decision. Defined.

(** The table without the commands of the development utilities. *)
Definition tools : list (string * tool) :=
  [("motobox", TMotobox); ("[", TTest); ("test", TTest); ("getconfig", TGetconfig); ("ptf", TPtf)].

(** Which command runs, with which arguments, or what is printed instead. *)
Inductive dispatched :=
| Run (t : tool) (argv : list string)
| Banner
| NoSuchTool (name : string).

(** The loop over the table. *)
Fixpoint find_tool (l : list (string * tool)) (name : string) : option tool :=
  match l with
  | [] => None
  | (n, t) :: l => if strcmp n name =? 0 then Some t else find_tool l name
  end.

Definition tool_name (argv : list string) : option (string * list string) :=
  match argv with
  | [] => None
  | a0 :: rest =>
      match rest with
      | String "@" name :: _ => Some (name, rest)
      | _ => Some (basename a0, argv)
      end
  end.

(** [main]; the command motobox calls it again with its own arguments. *)
Fixpoint motobox (fuel : nat) (argv : list string) : outcome dispatched :=
  match fuel with
  | O => Fault OutOfFuel
  | S fuel =>
      match tool_name argv with
      | None => Fault OutOfBounds
      | Some (name, argv) =>
          match find_tool tools name with
          | Some TMotobox =>
              match argv with
              | _ :: (_ :: _) as rest => motobox fuel (tail argv)
              | _ => mret Banner
              end
          | Some t => mret (Run t argv)
          | None => mret (NoSuchTool (default "" (head argv)))
          end
      end
  end.

Definition main (argv : list string) : outcome dispatched := motobox (S (length argv)) argv.

(** ** ptf *)

(** The answer of FBIOGET_VSCREENINFO, in the order in which it is printed. *)
Definition vinfo_names : list string :=
  ["xres"; "yres"; "xres_virtual"; "yres_virtual"; "xoffset"; "yoffset"; "bits_per_pixel";
   "grayscale"; "nonstd"; "activate"; "height"; "width"; "rotate"].

(** [None]: the device cannot be opened; [Some (inl r)]: the ioctl fails with [r]. *)
Definition display := string -> option (Z + list Z).

Fixpoint print_vinfo (names : list string) (vals : list Z) : string :=
  match names, vals with
  | n :: names, v :: vals => n ++ ":" ++ pretty v ++ NL ++ print_vinfo names vals
  | _, _ => ""
  end.

(** [char device\[20\]] takes the path with its NUL. *)
Definition display_properties (D : display) (disp : string) : outcome string :=
  if (2 <? String.length disp)%nat then
    mret ("ERROR: invalid dispprops argument: " ++ disp ++ NL)
  else
    let device := "/dev/graphics/fb" ++ disp in
    if (20 <? S (String.length device))%nat then Fault OutOfBounds
    else match D device with
         | None => mret ("ERROR: cannot open device: " ++ device ++ NL)
         | Some (inl r) => mret ("ERROR: ioctl returned: " ++ pretty r ++ NL)
         | Some (inr vals) => mret (print_vinfo vinfo_names vals)
         end.

Definition ptf_main (D : display) (argv : list string) : outcome string :=
  match argv with
  | _ :: cmd :: rest =>
      if strcmp cmd "swversion" =? 0 then mret ("Sholes" ++ NL)
      else if strcmp cmd "dispprops" =? 0 then
        display_properties D (match rest with [] => "0" | d :: _ => d end)
      else mret ("ERROR: unexpected command: " ++ cmd ++ NL)
  | _ => mret ("argument expected" ++ NL)
  end.

(** ** getconfig *)

Definition ERR_NONE : Z := 0.
Definition ERR_INVALID_PARAM : Z := 81.
Definition ERR_FILE_OPERATION : Z := 82.
Definition ERR_INVALID_FORMAT : Z := 83.
Definition ERR_NOT_MULTICONFIG : Z := 87.
Definition CONFIG_ID_INVALID : Z := -2.
Definition CONFIG_ID_UNCONFIGURED : Z := -1.
Definition CONFIG_ID_MAX : Z := 2147483647.

Record config_files := {
  multiconfig : bool;                      (* /system/multiconfig exists *)
  config_id : option (option string);      (* absent; present but unreadable; contents *)
  master_config_id : option (option string);
  config_folders : option (list string) }. (* the entries of .../ap, if it opens *)

(** [fgets(confid, 255, fp)]: at most 254 characters, up to a newline. *)
Fixpoint fgets (n : nat) (s : string) : string :=
  match n, s with
  | O, _ => ""
  | _, EmptyString => ""
  | S n, String c s => if Ascii.eqb c "010" then String c "" else String c (fgets n s)
  end.

Fixpoint skip_zeros (s : string) : string :=
  match s with
  | String c t => if Ascii.eqb c "0" then skip_zeros t else s
  | EmptyString => s
  end.

(** The checks that getconfig and setconfig share: the value of a config-id. *)
Definition valid_id (confid : string) : option Z :=
  let value := atoi confid in
  let buf := pretty value in
  let rest := if (1 <? String.length confid)%nat then skip_zeros confid else confid in
  if negb (strcmp buf rest =? 0) then None
  else if (value <? CONFIG_ID_UNCONFIGURED) || (CONFIG_ID_MAX <? value) then None
  else Some value.

(** The status and the contents of the buffer of the caller. *)
Definition getconfig (C : config_files) : Z * string :=
  let fail status := (status, pretty CONFIG_ID_INVALID) in
  if negb (multiconfig C) then fail ERR_NOT_MULTICONFIG
  else match (match config_id C with None => master_config_id C | Some f => Some f end) with
       | None | Some None => fail ERR_FILE_OPERATION
       | Some (Some contents) =>
           match fgets 254 contents with
           | EmptyString => fail ERR_FILE_OPERATION
           | confid =>
               match valid_id confid with
               | None => fail ERR_INVALID_FORMAT
               | Some _ => (ERR_NONE, confid)
               end
           end
       end.

(** [snprintf(buffer, size, "%s ", d_name)] at the offset [off] of a buffer of
    255 bytes, with [size] as the loop passes it: 255 each time. *)
Definition append_name (buf : list (option ascii)) (off : nat) (d_name : string) :
    outcome (list (option ascii) * nat) :=
  let text := str_take 254 (d_name ++ " ") in
  if (length buf <? off + S (String.length text))%nat then Fault OutOfBounds
  else
    mret (take off buf ++ (Some <$> String.list_ascii_of_string text) ++ [Some NUL] ++
          drop (off + S (String.length text)) buf,
          off + S (String.length d_name))%nat%list.

Fixpoint list_names (names : list string) (buf : list (option ascii)) (off : nat) :
    outcome (list (option ascii)) :=
  match names with
  | [] => mret buf
  | d :: names =>
      if (strcmp d "." =? 0) || (strcmp d ".." =? 0) || (strcmp d "backup" =? 0) then
        list_names names buf off
      else '(buf, off) ← append_name buf off d; list_names names buf off
  end.

(** [printf("%s", confid)]: the characters up to the first NUL; one that was
    never written cannot be printed. *)
Fixpoint print_buf (buf : list (option ascii)) : outcome string :=
  match buf with
  | [] => Fault OutOfBounds
  | None :: _ => Fault Indeterminate
  | Some c :: buf =>
      if Ascii.eqb c NUL then mret "" else r ← print_buf buf; mret (String c r)
  end.

(** [list_configids] into the uninitialised buffer of [getconfig_main], and the
    line that prints it. *)
Definition list_configids (C : config_files) : outcome (Z * string) :=
  match config_folders C with
  | None => mret (ERR_NOT_MULTICONFIG, pretty CONFIG_ID_INVALID)
  | Some names =>
      buf ← list_names names (replicate 255 None) 0;
      r ← print_buf buf;
      mret (ERR_NONE, r)
  end.

Definition getconfig_main (C : config_files) (argv : list string) : outcome (Z * string) :=
  '(status, confid) ←
    match argv with
    | [_; a1] =>
        if strcmp a1 "-list" =? 0 then list_configids C
        else mret (ERR_INVALID_PARAM, pretty CONFIG_ID_INVALID)
    | [_] => mret (getconfig C)
    | _ => mret (ERR_INVALID_PARAM, pretty CONFIG_ID_INVALID)
    end;
  mret (status, confid ++ NL).

(** ** The swap commands *)

Definition SWAP_FLAG_PREFER : Z := 32768.
Definition SWAP_FLAG_PRIO_MASK : Z := 32767.
Definition SWAP_FLAG_PRIO_SHIFT : Z := 0.

(** What the command does: print its usage, or the system call. *)
Inductive swap_action := Usage | Swapon (device : string) (flags : Z).

(** [strncmp(a, b, n) == 0] on strings without NUL. *)
Definition strneq (a b : string) (n : nat) : bool := String.eqb (str_take n a) (str_take n b).

(** [strtoul] in base 10: a minus sign wraps the value around. *)
Definition strtoul (s : string) : option (Z * string) :=
  match strto (- (2 ^ 32 - 1)) (2 ^ 32 - 1) s with
  | None => None
  | Some (_, p, true) => Some (2 ^ 32 - 1, p)
  | Some (v, p, false) => Some (u32 v, p)
  end.

Definition swapon_main (argv : list string) : swap_action :=
  match argv with
  | [_; dev] => Swapon dev 0
  | [_; opt; num; dev] =>
      if strneq opt "-p" 4 then Usage
      else match strtoul num with
           | None => Usage
           | Some (prio, endptr) =>
               match endptr with
               | EmptyString => Usage
               | _ => Swapon dev (Z.lor SWAP_FLAG_PREFER
                        (Z.land (u32 (Z.shiftl prio SWAP_FLAG_PRIO_SHIFT)) SWAP_FLAG_PRIO_MASK))
               end
           end
  | _ => Usage
  end.
