(* ===== verification/MotoboxFacts.v ===== *)
(** * Facts on the small commands of motobox *)

From stdpp Require Import base list numbers option strings pretty.
From Stdlib Require Import Ascii ZArith Lia.
From S2P Require Import Prelude CStrings TestCmd TestCmdFacts TestCmdSpec Md5 Motobox.

Local Open Scope string_scope.
Local Open Scope Z_scope.

#[local] Arguments String.append !_ _ : simpl nomatch.

(** ** Dispatch *)

Lemma motobox_fuel (f1 f2 : nat) (argv : list string) :
  argv <> [] -> (length argv <= f1)%nat -> (length argv <= f2)%nat ->
  exists r, motobox f1 argv = Ok r /\ motobox f2 argv = Ok r.
Proof.
  revert f2 argv. induction f1 as [|f1 IH]; intros [|f2] argv Hne H1 H2;
    [destruct argv; [done|simpl in *; lia]..|].
  cbn [motobox].
  assert (exists name argv', tool_name argv = Some (name, argv') /\ argv' <> [] /\
            (length argv' <= length argv)%nat) as (name & argv' & -> & Hne' & Hl).
  { destruct argv as [|a0 [|a1 rest]]; [done|by exists (basename a0), [a0]|]. simpl.
    destruct a1 as [|c a1]; [by exists (basename a0), (a0 :: "" :: rest)|].
    destruct (decide (c = "@"%char)) as [->|Hc];
      [exists a1, (String "@" a1 :: rest); split_and!; [done|done|simpl; lia]|].
    exists (basename a0), (a0 :: String c a1 :: rest). split_and!; [|done|done].
    by destruct c as [[] [] [] [] [] [] [] []]. }
  destruct (find_tool tools name) as [[]|]; [|eexists; split; reflexivity..].
  destruct argv' as [|a0 [|a1 rest]]; [eexists; split; reflexivity..|]. cbn [tail].
  apply IH; [done|simpl in *; lia|simpl in *; lia].
Qed.

(** The multi-call binary always comes to a decision: a command of the table
    with its arguments, a banner, or a message; and "motobox foo ..." is
    equivalent to "foo ...", as its comment says. *)
Theorem main_decides (a0 : string) (argv : list string) :
  (exists r, main (a0 :: argv) = Ok r) /\
  (strcmp "motobox" (basename a0) = 0 ->
   match argv with String "@" _ :: _ => False | [] => False | _ => True end ->
   main (a0 :: argv) = main argv).
Proof.
  split.
  - destruct (motobox_fuel (S (length (a0 :: argv))) (S (length (a0 :: argv))) (a0 :: argv))
      as (r & Hr & _); [done|lia|lia|]. by exists r.
  - intros Hb Ha. destruct argv as [|a1 argv]; [done|]. unfold main.
    destruct (motobox_fuel (length (a0 :: a1 :: argv)) (S (length (a1 :: argv))) (a1 :: argv))
      as (r & H1 & ->); [done|simpl; lia|simpl; lia|].
    cbn [motobox].
    assert (tool_name (a0 :: a1 :: argv) = Some (basename a0, a0 :: a1 :: argv)) as ->.
    { destruct a1 as [|c a1]; [done|]. simpl in *.
      destruct c as [[] [] [] [] [] [] [] []]; done. }
    cbn [find_tool tools]. rewrite (proj2 (Z.eqb_eq _ _) Hb). exact H1.
Qed.

Lemma main_decides_witness :
  main ["/bin/motobox"; "test"; "-f"; "x"] = Ok (Run TTest ["test"; "-f"; "x"]).
Proof.
  refine (eq_trans (proj2 (main_decides "/bin/motobox" ["test"; "-f"; "x"]) _ _) _); reflexivity || exact Logic.I.
Defined.

(** ** Decimal numbers *)

Lemma pretty_char_digit (x : N) :
  (x < 10)%N -> is_digit (pretty_N_char x) = true /\ byte_of (pretty_N_char x) - 48 = Z.of_N x.
Proof.
  intros Hx. assert (x = 0 \/ x = 1 \/ x = 2 \/ x = 3 \/ x = 4 \/ x = 5 \/ x = 6 \/ x = 7 \/ x = 8 \/ x = 9)%N
    as H by lia.
  by repeat destruct H as [->|H]; subst.
Qed.

Lemma pretty_go_decimal (x : N) (s : string) :
  decimal 0 (pretty_N_go x s) = decimal (Z.of_N x) s /\
  (all_chars is_digit s = true -> all_chars is_digit (pretty_N_go x s) = true) /\
  ((0 < x)%N -> exists c t, pretty_N_go x s = String c t /\ c <> "0"%char).
Proof.
  revert s. induction (N.lt_wf_0 x) as [x _ IH]. intros s.
  destruct (decide (0 < x)%N) as [Hx|Hx].
  2: { assert (x = 0%N) as -> by lia. rewrite pretty_N_go_0. split_and!; [done|done|lia]. }
  rewrite pretty_N_go_step by done.
  destruct (pretty_char_digit (x mod 10)) as [Hd Hv]; [by apply N.mod_lt|].
  assert (x / 10 < x)%N as Hlt by (apply N.div_lt; lia).
  destruct (IH (x / 10)%N Hlt (String (pretty_N_char (x mod 10)) s)) as (H1 & H2 & H3). split_and!.
  - rewrite H1. simpl. rewrite Hv. f_equal. pose proof (N.div_mod x 10 ltac:(lia)). lia.
  - intros Hs. apply H2. simpl. by rewrite Hd.
  - intros _. destruct (decide (0 < x / 10)%N) as [Hp|Hp]; [by apply H3|].
    assert (x / 10 = 0)%N as Hz by (by apply N.le_0_r, N.nlt_ge).
    rewrite Hz, pretty_N_go_0. eexists _, _. split; [done|].
    intros Hc. rewrite Hc in Hv. change (byte_of "0" - 48) with 0 in Hv.
    pose proof (N.div_mod x 10 ltac:(lia)) as Hdm. rewrite Hz in Hdm. lia.
Qed.

Lemma pretty_pos (v : Z) :
  0 < v -> exists c t, pretty v = String c t /\ c <> "0"%char /\
    all_chars is_digit (pretty v) = true /\ decimal 0 (pretty v) = v.
Proof.
  intros Hv. destruct v as [|p|p]; try lia.
  assert (pretty (Zpos p) = pretty_N_go (Npos p) "") as ->.
  { change (pretty (Z.pos p)) with (pretty (N.pos p)). unfold pretty, pretty_N.
    by rewrite decide_False. }
  destruct (pretty_go_decimal (Npos p) "") as (H1 & H2 & H3).
  destruct (H3 ltac:(lia)) as (c & t & He & Hc). exists c, t. split_and!; [done|done|by apply H2|by rewrite H1].
Qed.

Lemma digits_no_nul (s : string) : all_chars is_digit s = true -> no_char NUL s.
Proof.
  induction s as [|c s IH]; simpl; [done|]. intros [Hc Hs]%andb_true_iff.
  split; [|by apply IH]. by intros ->.
Qed.

Lemma pretty_no_nul (v : Z) : no_char NUL (pretty v).
Proof.
  destruct v as [|p|p]; [by split| |].
  - destruct (pretty_pos (Zpos p)) as (? & ? & _ & _ & Hd & _); [lia|]. by apply digits_no_nul.
  - change (pretty (Zneg p)) with ("-" ++ pretty (Zpos p)).
    destruct (pretty_pos (Zpos p)) as (? & ? & _ & _ & Hd & _); [lia|].
    split; [done|]. by apply digits_no_nul.
Qed.

(** ** Config ids *)

Definition all_zeros : string -> bool := all_chars (fun c => Ascii.eqb c "0").

Lemma skip_zeros_split (s : string) :
  exists zs, s = zs ++ skip_zeros s /\ all_zeros zs = true /\
    match skip_zeros s with String c _ => c <> "0"%char | EmptyString => True end.
Proof.
  unfold all_zeros. induction s as [|c s (zs & Hs & Hz & Hr)]; simpl; [by exists ""|].
  destruct (Ascii.eqb_spec c "0") as [->|Hc]; [|by exists ""].
  exists (String "0" zs). simpl. rewrite <- Hs. done.
Qed.

Lemma skip_zeros_app (zs s : string) :
  all_zeros zs = true -> match s with String c _ => c <> "0"%char | EmptyString => True end ->
  skip_zeros (zs ++ s) = s.
Proof.
  unfold all_zeros. intros Hz Hs. induction zs as [|c zs IH]; simpl in *.
  - destruct s as [|c s]; [done|]. simpl. by destruct (Ascii.eqb_spec c "0").
  - apply andb_true_iff in Hz as [-> Hz]. by apply IH.
Qed.

Lemma zeros_digits (zs : string) : all_zeros zs = true -> all_chars is_digit zs = true.
Proof.
  unfold all_zeros. induction zs as [|c zs IH]; simpl; [done|].
  destruct (Ascii.eqb_spec c "0") as [->|]; [|done]. intros H. by apply IH.
Qed.

Lemma all_chars_app (P : ascii -> bool) (s t : string) :
  all_chars P (s ++ t) = all_chars P s && all_chars P t.
Proof. induction s as [|c s IH]; simpl; [done|]. by rewrite IH, andb_assoc. Qed.

Lemma decimal_zeros (zs ds : string) : all_zeros zs = true -> decimal 0 (zs ++ ds) = decimal 0 ds.
Proof.
  unfold all_zeros. induction zs as [|c zs IH]; simpl; [done|].
  destruct (Ascii.eqb_spec c "0") as [->|]; [|done]. intros H. by apply IH.
Qed.

Lemma atoi_numeral (num p : string) (v : Z) :
  numeral num v -> no_digit_start p -> LONG_MIN <= v <= LONG_MAX -> atoi (num ++ p) = v.
Proof.
  intros Hn Hp Hv. unfold atoi.
  pose proof (strto_numeral LONG_MIN LONG_MAX "" num p v eq_refl Hn Hp Hv) as H. simpl in H. by rewrite H.
Qed.

Lemma valid_id_cases (s : string) (v : Z) :
  no_char NUL s ->
  valid_id s = Some v <->
  v = atoi s /\ pretty v = (if (1 <? String.length s)%nat then skip_zeros s else s) /\
  -1 <= v <= CONFIG_ID_MAX.
Proof.
  intros Hs. unfold valid_id.
  set (rest := if (1 <? String.length s)%nat then skip_zeros s else s).
  assert (no_char NUL rest) as Hr.
  { unfold rest. destruct (1 <? String.length s)%nat; [|done]. clear rest.
    induction s as [|c s IH]; simpl in *; [done|]. case_match; naive_solver. }
  pose proof (strcmp_eq (pretty (atoi s)) rest (pretty_no_nul _) Hr) as He.
  unfold CONFIG_ID_UNCONFIGURED. cbv zeta.
  destruct (Z.eqb_spec (strcmp (pretty (atoi s)) rest) 0) as [H0|H0]; simpl.
  - destruct (Z.ltb_spec (atoi s) (-1)); simpl; [split; [done|lia]|].
    destruct (Z.ltb_spec CONFIG_ID_MAX (atoi s)); simpl; [split; [done|lia]|].
    split; [intros [= <-]; split_and!; [done|by apply He|lia|lia]|]. by intros (-> & _).
  - split; [done|]. intros (-> & Hp & _). by apply He in Hp.
Qed.

(** The check that getconfig and setconfig make accepts exactly "0", "-1" (not
    configured) and the positive numbers of 32 bits in decimal after any number
    of zeros, and yields their value; zero itself may have no leading zeros. *)
Theorem valid_id_accepts (s : string) (v : Z) :
  no_char NUL s ->
  valid_id s = Some v <->
  s = "0" /\ v = 0 \/ s = "-1" /\ v = -1 \/
  1 <= v <= CONFIG_ID_MAX /\ exists zs, all_zeros zs = true /\ s = zs ++ pretty v.
Proof.
  intros Hs. rewrite valid_id_cases by done. unfold CONFIG_ID_MAX. split.
  - intros (Hv & Hp & Hr).
    assert (exists zs, all_zeros zs = true /\ s = zs ++ pretty v /\
              ((1 < String.length s)%nat ->
               match pretty v with String c _ => c <> "0"%char | EmptyString => True end))
      as (zs & Hz & Hszs & Hlead).
    { destruct (Nat.ltb_spec 1 (String.length s)).
      - destruct (skip_zeros_split s) as (zs & Hs' & Hz & Hl). exists zs. rewrite Hp.
        split_and!; [done|done|done].
      - exists "". split_and!; [done|done|lia]. }
    destruct (Z.lt_trichotomy v 0) as [Hneg|[->|Hpos]].
    + assert (v = -1) as -> by lia. right; left. split; [|done].
      destruct zs as [|c zs]; [done|]. exfalso.
      assert (atoi s = 0) as H0; [|lia].
      rewrite Hszs. apply (atoi_numeral _ (pretty (-1)) 0); [|done|done].
      pose proof (NumPlain (String c zs) ltac:(done) (zeros_digits _ Hz)) as Hn.
      pose proof (decimal_zeros _ "" Hz) as Hd. rewrite str_app_nil_r in Hd. by rewrite Hd in Hn.
    + left. split; [|done]. destruct zs as [|c [|? ?]]; [done|..];
        exfalso; subst s; by apply (Hlead ltac:(simpl; lia)).
    + right; right. split; [lia|]. by exists zs.
  - intros [[-> ->]|[[-> ->]|[Hv (zs & Hz & ->)]]]; [by vm_compute..|].
    destruct (pretty_pos v) as (c & t & He & Hc & Hd & Hdec); [lia|]. split_and!; [|..|lia|lia].
    + rewrite <- (str_app_nil_r (zs ++ pretty v)). symmetry. apply atoi_numeral; [|done|].
      * rewrite <- Hdec at 2. rewrite <- (decimal_zeros zs) by done.
        constructor; [destruct zs; [by rewrite He|done]|].
        rewrite all_chars_app, Hd, andb_true_r. by apply zeros_digits.
      * unfold LONG_MIN, LONG_MAX. lia.
    + case_match eqn:Hlen.
      * symmetry. apply skip_zeros_app; [done|]. by rewrite He.
      * destruct zs as [|z zs]; [done|]. apply Nat.ltb_ge in Hlen.
        rewrite He, str_length_app in Hlen. simpl in Hlen. lia.
Qed.

Lemma valid_id_accepts_witness : valid_id "0042" = Some 42.
Proof.
  apply (proj2 (valid_id_accepts "0042" 42 ltac:(vm_compute; intuition discriminate))).
  right; right. split; [vm_compute; intuition discriminate|]. by exists "00".
Defined.

(** ** The list of config ids *)

Definition listed (d : string) : bool :=
  negb ((strcmp d "." =? 0) || (strcmp d ".." =? 0) || (strcmp d "backup" =? 0)).

Lemma list_names_cons (d : string) (names : list string) (buf : list (option ascii)) (off : nat) :
  list_names (d :: names) buf off =
    if listed d then '(buf, off) ← append_name buf off d; list_names names buf off
    else list_names names buf off.
Proof. unfold listed. simpl. by destruct (_ || _ || _). Qed.

(** The names with a blank after each. *)
Fixpoint name_list (names : list string) : string :=
  match names with
  | [] => ""
  | d :: names => if listed d then d ++ " " ++ name_list names else name_list names
  end.

Lemma print_buf_app (l : list (option ascii)) (t : string) (rest : list (option ascii)) :
  l = Some <$> String.list_ascii_of_string t -> no_char NUL t ->
  print_buf (l ++ Some NUL :: rest) = Ok t.
Proof.
  intros ->. induction t as [|c t IH]; [done|]. intros [Hc Ht].
  cbn [String.list_ascii_of_string]. rewrite fmap_cons. cbn [app print_buf].
  destruct (Ascii.eqb_spec c NUL); [done|]. by rewrite IH.
Qed.

Lemma list_ascii_length (t : string) : length (String.list_ascii_of_string t) = String.length t.
Proof. induction t as [|c t IH]; simpl; [done|]. by rewrite IH. Qed.

Lemma list_ascii_app (s t : string) :
  String.list_ascii_of_string (s ++ t) =
    (String.list_ascii_of_string s ++ String.list_ascii_of_string t)%list.
Proof. induction s as [|c s IH]; simpl; [done|]. by rewrite IH. Qed.

(** The buffer holds the text [t], followed by a NUL if it holds anything. *)
Definition holds (buf : list (option ascii)) (t : string) : Prop :=
  length buf = 255%nat /\
  (t <> "" -> exists rest, buf = ((Some <$> String.list_ascii_of_string t) ++ Some NUL :: rest)%list).

Lemma append_name_holds (buf : list (option ascii)) (t d : string) :
  holds buf t -> (String.length t + String.length d < 254)%nat ->
  exists buf', append_name buf (String.length t) d = Ok (buf', String.length (t ++ d ++ " ")) /\
    holds buf' (t ++ d ++ " ").
Proof.
  intros [Hl Ht] Hd. unfold append_name.
  assert (String.length (d ++ " ") = S (String.length d)) as Hd1
    by (rewrite str_length_app; simpl; lia).
  rewrite str_take_all by lia. rewrite Hl, Hd1.
  destruct (Nat.ltb_spec 255 (String.length t + S (S (String.length d)))); [lia|].
  assert (take (String.length t) buf = Some <$> String.list_ascii_of_string t) as Htk.
  { destruct t as [|c t]; [done|]. destruct (Ht ltac:(done)) as [rest ->].
    rewrite <- (list_ascii_length (String c t)), <- (length_fmap (Some (A:=ascii))).
    apply take_app_length. }
  eexists. split; [by rewrite (str_length_app t), Hd1|].
  split.
  - rewrite Htk, !length_app, length_drop, !length_fmap, !list_ascii_length, Hd1, Hl. simpl. lia.
  - intros _. eexists. rewrite Htk, (list_ascii_app t), fmap_app, <- app_assoc. reflexivity.
Qed.

Lemma list_names_holds (names : list string) (buf : list (option ascii)) (t : string) :
  holds buf t -> (String.length (t ++ name_list names) < 255)%nat ->
  exists buf', list_names names buf (String.length t) = Ok buf' /\ holds buf' (t ++ name_list names).
Proof.
  revert buf t. induction names as [|d names IH]; intros buf t Hh Hlen; simpl in *.
  { exists buf. by rewrite str_app_nil_r. }
  unfold listed in *. destruct (_ || _ || _); simpl in *; [by apply IH|].
  destruct (append_name_holds buf t d Hh) as (buf' & -> & Hh').
  { rewrite !str_length_app in Hlen. simpl in Hlen. lia. }
  cbn [mbind outcome_bind].
  assert ((t ++ d ++ " ") ++ name_list names = t ++ d ++ String " " (name_list names)) as Happ
    by (by rewrite !str_app_assoc).
  destruct (IH buf' (t ++ d ++ " ") Hh') as (b & Hb & Hh2); [by rewrite Happ|].
  rewrite Happ in Hh2. by exists b.
Qed.

Lemma list_names_overflow (names : list string) (buf : list (option ascii)) (off : nat) :
  (0 < off)%nat -> length buf = 255%nat -> (254 < off + String.length (name_list names))%nat ->
  (off <= 254 \/ name_list names <> "")%nat ->
  list_names names buf off = Fault OutOfBounds.
Proof.
  revert buf off. induction names as [|d names IH]; intros buf off Hoff Hl Hlen Hd; simpl in *.
  { destruct Hd; [lia|done]. }
  unfold listed in *. destruct (_ || _ || _); simpl in *; [by apply IH|].
  unfold append_name. rewrite Hl.
  destruct (Nat.ltb_spec 255 (off + S (String.length (str_take 254 (d ++ " "))))) as [|Hfit]; [done|].
  assert (String.length (d ++ " ") = S (String.length d)) as Hd1
    by (rewrite str_length_app; simpl; lia).
  destruct (Nat.le_gt_cases (S (String.length d)) 254) as [Hs|Hs].
  - rewrite str_take_all in * by lia. cbn [mbind outcome_bind]. apply IH; [lia| | |left; lia].
    + rewrite !length_app, length_take, length_drop, length_fmap, list_ascii_length, Hd1, Hl in *.
      cbn [length]. lia.
    + rewrite !str_length_app in Hlen. simpl in Hlen. lia.
  - exfalso. assert (String.length (str_take 254 (d ++ " ")) = 254%nat) as Ht; [|lia].
    assert (254 < String.length (d ++ " "))%nat as Hlt by lia. clear -Hlt.
    revert Hlt. generalize 254%nat as n. induction (d ++ " ") as [|c s IHs]; intros [|n]; simpl; try lia.
    intros. rewrite IHs; lia.
Qed.

Lemma name_list_no_nul (names : list string) :
  Forall (no_char NUL) names -> no_char NUL (name_list names).
Proof.
  induction 1 as [|d names Hd Hn IH]; simpl; [done|]. case_match; [|done].
  apply no_char_app; [done|]. by split.
Qed.

(** [getconfig -list] prints the names of the config folders when they fit,
    with a blank after each, in the 255 bytes of the buffer; it prints memory
    that was never written when there is none; and since the size it passes
    does not shrink, it writes past the buffer when two or more do not fit. *)
Theorem list_configids_bounds (C : config_files) (names : list string) :
  config_folders C = Some names -> Forall (no_char NUL) names ->
  let l := filter listed names in
  (l <> [] -> (String.length (name_list names) < 255)%nat ->
     list_configids C = Ok (ERR_NONE, name_list names)) /\
  (l = [] -> list_configids C = Fault Indeterminate) /\
  ((2 <= length l)%nat -> (255 <= String.length (name_list names))%nat ->
     list_configids C = Fault OutOfBounds).
Proof.
  intros Hf Hn. cbv zeta. unfold list_configids. rewrite Hf.
  assert (filter listed names = [] <-> name_list names = "") as Hempty.
  { clear. induction names as [|d names IH]; simpl; [done|].
    rewrite filter_cons. destruct (listed d); simpl; [|done]. destruct d; done. }
  assert (holds (replicate 255 None) "") as H0 by (by split).
  split_and!.
  - intros Hl Hlen. destruct (list_names_holds names _ "" H0) as (buf & Hb & _ & Hh); [done|].
    cbn [String.length String.append] in Hb, Hh. rewrite Hb. cbn [mbind outcome_bind].
    destruct Hh as [rest ->]; [by rewrite <- Hempty|].
    by rewrite (print_buf_app _ _ _ eq_refl (name_list_no_nul _ Hn)).
  - intros Hl. apply Hempty in Hl. destruct (list_names_holds names _ "" H0) as (buf & Hb & _);
      [rewrite Hl; simpl; lia|].
    cbn [String.length] in Hb. revert Hl Hb. clear. revert buf.
    assert (forall buf0 buf, name_list names = "" -> list_names names buf0 0 = Ok buf -> buf = buf0) as Hsame.
    { induction names as [|d names IH]; intros buf0 buf; simpl; [by intros _ [= ->]|].
      unfold listed. destruct (_ || _ || _); simpl; [by apply IH|by destruct d]. }
    intros buf Hl Hb. rewrite Hb. by apply Hsame in Hb as ->.
  - intros Hl Hlen. enough (list_names names (replicate 255 None) 0 = Fault OutOfBounds) as -> by done.
    revert Hl Hlen. clear. generalize (replicate 255 (@None ascii)) (length_replicate 255 (@None ascii)).
    intros buf Hbuf. induction names as [|d names IH]; [simpl; lia|].
    rewrite filter_cons, list_names_cons. cbn [name_list].
    destruct (listed d); simpl; [|done]. intros Hl Hlen.
    unfold append_name. rewrite Hbuf.
    assert (name_list names <> "") as Hne.
    { clear -Hl. induction names as [|e names IH]; simpl in *; [lia|]. rewrite filter_cons in Hl.
      destruct (listed e); [by destruct e|]. by apply IH. }
    case_match eqn:Hfit; [done|]. cbn [mbind outcome_bind].
    apply list_names_overflow; [lia| |rewrite !str_length_app in Hlen; simpl in Hlen; lia|by right].
    rewrite !length_app, length_take, length_drop, length_fmap, list_ascii_length, Hbuf. cbn [length].
    apply Nat.ltb_ge in Hfit. lia.
Qed.

Lemma list_configids_bounds_witness :
  let C := {| multiconfig := true; config_id := None; master_config_id := None;
              config_folders := Some ["."; "12"; ".."; "7"] |} in
  list_configids C = Ok (ERR_NONE, "12 7 ").
Proof.
  intros C.
  refine (proj1 (list_configids_bounds C ["."; "12"; ".."; "7"] eq_refl _) _ _).
  - repeat (apply Forall_cons; split); [vm_compute; intuition discriminate..|by apply Forall_nil].
  - vm_compute. discriminate.
  - vm_compute. lia.
Defined.

(** ** swapon *)

(** Both checks of [swapon -p] are inverted: the option -p is refused, and so
    is every priority that is a number; a call with a priority that the usage
    line describes never reaches the system call. *)
Theorem swapon_priority_refused (a0 num dev : string) (opt : string) (v : Z) :
  numeral num v -> Z.abs v < 2 ^ 32 -> swapon_main [a0; opt; num; dev] = Usage.
Proof.
  intros Hn Hv. unfold swapon_main. case_match; [done|]. unfold strtoul.
  pose proof (strto_numeral (- (2 ^ 32 - 1)) (2 ^ 32 - 1) "" num "" v eq_refl Hn Logic.I ltac:(lia)) as Hs.
  simpl in Hs. rewrite str_app_nil_r in Hs. by rewrite Hs.
Qed.

Lemma swapon_priority_refused_witness : swapon_main ["swapon"; "-p"; "5"; "/dev/block/zram0"] = Usage.
Proof.
  apply (swapon_priority_refused "swapon" "5" "/dev/block/zram0" "-p" 5); [|lia].
  apply (NumPlain "5"); [discriminate|reflexivity].
Defined.
