(* ===== verification/BootMode.v ===== *)
(** * The boot mode reader (src/mot_boot_mode/mot_boot_mode.c)

    Run once by init: from the boot information of the bootloader, the property
    ro.bootmode and the file that the charge-only mode leaves behind it decides
    which properties to set.  The environment holds what these sources contain;
    the buffers of 32 bytes for a property are modelled with their size. *)

From stdpp Require Import base list numbers option strings.
From Stdlib Require Import Ascii ZArith Lia.
From S2P Require Import Prelude CStrings TestCmd Motobox.

Local Open Scope string_scope.
Local Open Scope Z_scope.

Record boot_env := {
  bootinfo : option string;      (* /proc/bootinfo; [None]: open or read fails *)
  bootmode : option string;      (* the property ro.bootmode, if set *)
  com_file : option string }.    (* /data/chargeonlymode, if it opens *)

(** [strstr(hay, needle)]: the string from the first occurrence on. *)
Fixpoint strstr (hay needle : string) : option string :=
  if String.prefix needle hay then Some hay
  else match hay with EmptyString => None | String _ t => strstr t needle end.

(** [while ( *x && !isspace( *x )) ... if (n == 31) break;] *)
Fixpoint read_word (n : nat) (x : string) : string :=
  match n, x with
  | S n, String c x => if isspace c then "" else String c (read_word n x)
  | _, _ => ""
  end.

(** The value of a field, as [check_bootinfo] leaves it in [bootreason]. *)
Definition bootinfo_value (info field : string) : string :=
  let data := cstr (str_take 1023 info) in
  match strstr data field with
  | None => ""
  | Some pwrup_rsn =>
      match strstr pwrup_rsn ": " with
      | None => ""
      | Some x => read_word 31 (str_drop 2 x)
      end
  end.

Definition check_bootinfo (E : boot_env) (field value : string) : bool :=
  match bootinfo E with
  | None => false
  | Some info => strcmp (bootinfo_value info field) value =? 0
  end.

(** [property_get("ro.bootmode", buf, "unknown")] into 32 bytes; the value of a
    property has up to 91 characters. *)
Definition get_bootmode (E : boot_env) : outcome string :=
  let v := default "unknown" (bootmode E) in
  if (32 <? S (String.length v))%nat then Fault OutOfBounds else mret v.

Definition PU_CHARGE_ONLY : string := "0x00000100".
Definition PU_CPCAP_RESET : string := "0x00040000".
Definition PU_KPANIC : string := "0x00020000".
Definition PU_WDRESET : string := "0x00008000".
Definition CID_RECOVER_BOOT : string := "0x01".

Definition check_abnormal_reboot (E : boot_env) : outcome bool :=
  m ← get_bootmode E;
  mret (if strneq m "kpanic" 6 || strneq m "wdreset" 7 || strneq m "wdcpcap" 7 then true
        else check_bootinfo E "POWERUPREASON" PU_KPANIC || check_bootinfo E "POWERUPREASON" PU_WDRESET
             || check_bootinfo E "POWERUPREASON" PU_CPCAP_RESET).

(** The result, and whether the file was truncated and the descriptor closed
    (the statements after the last return are not reached). *)
Definition check_com_reset (E : boot_env) : bool * bool :=
  match com_file E with
  | None => (false, false)
  | Some contents =>
      let mode := str_take 20 contents in
      match mode with
      | EmptyString => (false, false)
      | _ => (strneq mode "charging" 8, false)
      end
  end.

Definition boot_reason_charge_only (E : boot_env) : outcome bool :=
  m ← get_bootmode E;
  if strneq m "charger" 7 then mret true
  else if check_bootinfo E "POWERUPREASON" PU_CHARGE_ONLY then mret true
  else
    r ← check_abnormal_reboot E;
    mret ((r : bool) && fst (check_com_reset E)).

Definition LF : string := String "010" EmptyString.

Definition check_cid_recover_boot (E : boot_env) : outcome bool :=
  m ← get_bootmode E;
  mret (if strneq m "cidtcmd" 7 then true
        else check_bootinfo E (LF ++ "CID_RECOVER_BOOT") CID_RECOVER_BOOT).

Definition check_data_12m : bool := false.

(** The properties that [main] sets, in order. *)
Definition boot_main (E : boot_env) : outcome (list (string * string)) :=
  cid ← check_cid_recover_boot E;
  if (cid : bool) then mret [("tcmd.cid.recover.boot", "1"); ("tcmd.suspend", "1")]
  else
    com ← boot_reason_charge_only E;
    if (com : bool) then mret [("sys.chargeonly.mode", "1")]
    else if check_data_12m then mret [("tcmd.12m.test", "1"); ("tcmd.suspend", "1")]
    else mret [("tcmd.suspend", "0")].
