(* ===== verification/BootModeFacts.v ===== *)
(** * What the boot mode reader decides

    A boot information file is read back field by field, and the decision of
    [main] follows from the power-up reason, ro.bootmode and the file of the
    charge-only mode. *)

From stdpp Require Import base list numbers option strings.
From Stdlib Require Import Ascii ZArith Lia.
From S2P Require Import Prelude CStrings TestCmd TestCmdSpec Motobox BootMode.

Local Open Scope string_scope.
Local Open Scope Z_scope.

#[local] Arguments String.append !_ _ : simpl nomatch.

(** ** Searching *)

Lemma prefix_app (a b : string) : String.prefix a (a ++ b) = true.
Proof.
  induction a as [|c a IH]; simpl; [by destruct b|]. by destruct (ascii_dec c c).
Qed.

Lemma prefix_before (c : ascii) (a p q : string) :
  no_char c a -> String.prefix a (p ++ String c q) = true -> String.prefix a p = true.
Proof.
  revert p. induction a as [|x a IH]; intros p Ha; [by destruct p|]. destruct Ha as [Hx Ha].
  destruct p as [|y p]; simpl.
  - destruct (ascii_dec x c); [done|]. by destruct (ascii_dec x c).
  - destruct (ascii_dec x y); [by apply IH|done].
Qed.

Lemma strstr_contains (hay needle : string) :
  contains needle hay = false -> strstr hay needle = None.
Proof.
  induction hay as [|c hay IH]; simpl; intros [Hp Hc]%orb_false_iff; rewrite Hp; [done|by apply IH].
Qed.

(** The text before the first occurrence ends a line and does not hold the
    word. *)
Lemma strstr_line (c : ascii) (pre needle rest : string) :
  no_char c needle -> needle <> "" -> contains needle pre = false ->
  pre = "" \/ (exists p, pre = p ++ String c "") ->
  strstr (pre ++ needle ++ rest) needle = Some (needle ++ rest).
Proof.
  intros Hc Hne. induction pre as [|x pre IH]; intros Hn Hend.
  - simpl. destruct needle as [|y n]; [done|].
    change (String y n ++ rest) with (String y (n ++ rest)). cbn [strstr].
    change (String y (n ++ rest)) with (String y n ++ rest). by rewrite prefix_app.
  - cbn [String.append strstr]. destruct Hend as [|[p Hp]]; [done|].
    assert (String.prefix needle (String x (pre ++ needle ++ rest)) = false) as ->.
    { destruct (String.prefix needle (String x (pre ++ needle ++ rest))) eqn:Hpre; [|done].
      change (String x (pre ++ needle ++ rest)) with (String x pre ++ needle ++ rest) in Hpre.
      rewrite Hp, str_app_assoc in Hpre. simpl in Hpre. apply prefix_before in Hpre; [|done].
      assert (String.prefix needle (String x pre) = true) as Hpp.
      { rewrite Hp. clear -Hpre. revert p Hpre. induction needle as [|y n IHn]; intros [|z p]; simpl; try done.
        destruct (ascii_dec y z); [by apply IHn|done]. }
      cbn [contains] in Hn. by rewrite Hpp in Hn. }
    cbn [contains] in Hn. apply orb_false_iff in Hn as [_ Hn]. apply IH; [done|].
    destruct p as [|z p]; simpl in Hp; injection Hp as -> ->; [by left|right; by exists p].
Qed.

Lemma strstr_sep (a r : string) :
  no_char ":" a -> strstr (a ++ ": " ++ r) ": " = Some (": " ++ r).
Proof.
  induction a as [|x a IH]; intros Ha; [by destruct r|]. destruct Ha as [Hx Ha].
  cbn [String.append strstr]. cbn [String.prefix].
  destruct (ascii_dec ":" x); [congruence|]. by apply IH.
Qed.

Lemma read_word_value (n : nat) (v r : string) (c : ascii) :
  all_chars (fun c => negb (isspace c)) v = true -> (String.length v <= n)%nat -> isspace c = true ->
  read_word n (v ++ String c r) = v.
Proof.
  intros Hv Hn Hc. revert n Hn. induction v as [|x v IH]; intros [|n] Hn; simpl in *; try lia; [done|by rewrite Hc|].
  apply andb_true_iff in Hv as [Hx Hv]. apply negb_true_iff in Hx. rewrite Hx.
  by rewrite IH by (done || lia).
Qed.

(** A file of lines in which the field [name] occurs first on the line
    [name : v]. *)
Record has_field (info name v : string) : Prop := {
  hf_split : exists pre post, info = pre ++ name ++ " : " ++ v ++ LF ++ post /\
      contains name pre = false /\ (pre = "" \/ exists p, pre = p ++ LF);
  hf_size : (String.length info <= 1023)%nat;
  hf_nul : no_char NUL info;
  hf_value : all_chars (fun c => negb (isspace c)) v = true /\ (String.length v <= 31)%nat }.

Lemma bootinfo_value_reads (info name v : string) :
  name <> "" -> no_char "010" name -> no_char ":" name -> has_field info name v ->
  bootinfo_value info name = v.
Proof.
  intros Hne Hnl Hcol [(pre & post & Hi & Hn & Hp) Hsz Hnul [Hv Hvl]]. unfold bootinfo_value.
  rewrite str_take_all, cstr_no_nul by done. rewrite Hi.
  rewrite (strstr_line "010" pre name) by done.
  replace (name ++ " : " ++ v ++ LF ++ post) with ((name ++ " ") ++ ": " ++ v ++ LF ++ post)
    by (by rewrite !str_app_assoc).
  rewrite strstr_sep by (by apply no_char_app).
  change (str_drop 2 (": " ++ v ++ LF ++ post)) with (v ++ String "010" post).
  by apply read_word_value.
Qed.

(** ** The decision *)

Definition abnormal_mode (m : string) : bool :=
  strneq m "kpanic" 6 || strneq m "wdreset" 7 || strneq m "wdcpcap" 7.

Definition abnormal_reason (v : string) : bool :=
  String.eqb v PU_KPANIC || String.eqb v PU_WDRESET || String.eqb v PU_CPCAP_RESET.

Lemma check_bootinfo_value (E : boot_env) (info field v w : string) :
  bootinfo E = Some info -> bootinfo_value info field = v -> no_char NUL v -> no_char NUL w ->
  check_bootinfo E field w = String.eqb v w.
Proof.
  intros Hi Hv Hnv Hnw. unfold check_bootinfo. rewrite Hi, Hv.
  destruct (String.eqb_spec v w) as [->|Hne].
  - by rewrite strcmp_refl.
  - apply Z.eqb_neq. intros H. by apply strcmp_eq in H.
Qed.

Lemma no_char_split (c : ascii) (a b : string) : no_char c (a ++ b) -> no_char c a /\ no_char c b.
Proof. induction a as [|x a IH]; simpl; [done|]. naive_solver. Qed.

(** C38: with a boot information file that names the power-up reason [v] and no
    recovery boot, [main] selects the charge-only mode exactly when the boot
    mode or the reason is the charger's, or the phone restarted abnormally out
    of the charge-only mode; otherwise the normal mode.  With a boot mode of 32
    characters or more it writes past the buffer for it. *)
Theorem boot_main_decides (E : boot_env) (info v m : string) :
  bootinfo E = Some info -> has_field info "POWERUPREASON" v ->
  contains (LF ++ "CID_RECOVER_BOOT") info = false ->
  bootmode E = Some m -> strneq m "cidtcmd" 7 = false ->
  boot_main E =
    if (32 <=? String.length m)%nat then Fault OutOfBounds
    else Ok (if strneq m "charger" 7 || String.eqb v PU_CHARGE_ONLY ||
                (abnormal_mode m || abnormal_reason v) && fst (check_com_reset E)
             then [("sys.chargeonly.mode", "1")] else [("tcmd.suspend", "0")]).
Proof.
  intros Hi Hf Hcid Hm Hmc.
  assert (no_char NUL v) as Hnv.
  { destruct Hf as [(pre & post & -> & _) _ Hnul _].
    do 3 apply no_char_split in Hnul as [_ Hnul]. by apply no_char_split in Hnul as [Hnul _]. }
  assert (forall w, no_char NUL w -> check_bootinfo E "POWERUPREASON" w = String.eqb v w) as Hpu.
  { intros w Hw. eapply check_bootinfo_value; [done| |done|done].
    apply bootinfo_value_reads; [done|vm_compute; intuition discriminate..|done]. }
  assert (check_bootinfo E (LF ++ "CID_RECOVER_BOOT") CID_RECOVER_BOOT = false) as Hc.
  { unfold check_bootinfo. rewrite Hi. unfold bootinfo_value.
    destruct Hf as [_ Hsz Hnul _]. rewrite str_take_all, cstr_no_nul by done.
    by rewrite strstr_contains. }
  unfold boot_main, check_cid_recover_boot, boot_reason_charge_only, check_abnormal_reboot, get_bootmode.
  rewrite Hm. cbn [default id from_option]. change (32 <? S (String.length m))%nat with (32 <=? String.length m)%nat.
  destruct (32 <=? String.length m)%nat; [done|]. cbn [mbind outcome_bind mret outcome_ret].
  rewrite Hmc, Hc. fold (abnormal_mode m).
  rewrite !Hpu by (vm_compute; intuition discriminate).
  fold (abnormal_reason v). destruct (strneq m "charger" 7); [done|].
  destruct (String.eqb v PU_CHARGE_ONLY); [done|]. simpl.
  by destruct (abnormal_mode m), (abnormal_reason v), (fst (check_com_reset E)).
Qed.

Lemma boot_main_decides_witness :
  let info := "SERIAL : 0x01" ++ LF ++ "POWERUPREASON : 0x00020000" ++ LF in
  boot_main {| bootinfo := Some info; bootmode := Some "reboot"; com_file := Some "charging" |}
  = Ok [("sys.chargeonly.mode", "1")].
Proof.
  intros info. set (E := {| bootinfo := _; bootmode := _; com_file := _ |}).
  refine (eq_trans (boot_main_decides E info PU_KPANIC "reboot" eq_refl _ eq_refl eq_refl eq_refl) eq_refl).
  split.
  - exists ("SERIAL : 0x01" ++ LF), "". split_and!; [reflexivity|reflexivity|right; by exists "SERIAL : 0x01"].
  - vm_compute. lia.
  - vm_compute. intuition discriminate.
  - split; [reflexivity|vm_compute; lia].
Defined.

(** The file of the charge-only mode is never emptied, though the code that
    follows the checks would do it. *)
Lemma check_com_reset_keeps (E : boot_env) : snd (check_com_reset E) = false.
Proof. unfold check_com_reset. destruct (com_file E) as [s|]; [|done]. by destruct (str_take 20 s). Qed.
