(* ===== verification/PvrHandleMap.v ===== *)
(** * The table of handle keys

    handle.c finds a handle by the data, the type and the parent it was made for,
    through a hash table with keys of three words.  [HandleMap] states what it
    needs of such a table; [hash_handle_map] shows that the tables of hash.c
    provide it. *)

From stdpp Require Import base list numbers option gmap fin_maps.
From Stdlib Require Import ZArith Lia.
From S2P Require Import Prelude PvrHash PvrHashFacts.

Local Open Scope Z_scope.

Definition HANDLE_HASH_TAB_INIT_SIZE : Z := 32.

(** [HAND_KEY_LEN] and [sizeof(HAND_KEY)] *)
Definition HAND_KEY_LEN : Z := 3.
Definition sizeof_HAND_KEY : Z := HAND_KEY_LEN * WORD.

(** The booleans are the outcomes of the allocations of the call: the two of the
    creation, the bucket and the resized table of an insertion, the resized table
    of a removal.  [hm_leaks] is whether the deletion of the table finds entries
    left in it. *)
Class HandleMap (H : Type) := {
  hm_create : bool -> bool -> option H;
  hm_insert : bool -> bool -> H -> list Z -> Z -> outcome (bool * H);
  hm_remove : bool -> H -> list Z -> outcome (Z * H);
  hm_retrieve : H -> list Z -> outcome Z;
  hm_leaks : H -> bool;
  hm_rep : H -> gmap (list Z) Z -> Prop;
  hm_create_ok a1 a2 :
    match hm_create a1 a2 with Some h => a1 && a2 = true /\ hm_rep h ∅ | None => a1 && a2 = false end;
  hm_insert_ok ab at_ h m k v :
    hm_rep h m -> length k = 3%nat -> m !! k = None -> Z.of_nat (size m) + 1 < COUNT_LIMIT ->
    exists h', hm_insert ab at_ h k v = Ok (ab, h') /\ hm_rep h' (if ab then <[k := v]> m else m);
  hm_remove_ok at_ h m k :
    hm_rep h m -> length k = 3%nat -> Z.of_nat (size m) < COUNT_LIMIT ->
    exists h', hm_remove at_ h k = Ok (default 0 (m !! k), h') /\ hm_rep h' (delete k m);
  hm_retrieve_ok h m k :
    hm_rep h m -> length k = 3%nat -> Z.of_nat (size m) < COUNT_LIMIT ->
    hm_retrieve h k = Ok (default 0 (m !! k));
  hm_leaks_ok h m : hm_rep h m -> hm_leaks h = negb (Nat.eqb (size m) 0) }.

(** A table made for handle keys, standing for a map. *)
Record key_rep (h : HASH_TABLE) (m : gmap (list Z) Z) : Prop := mk_key_rep {
  kr_rep : rep h m;
  kr_key : h_uKeySize h = sizeof_HAND_KEY;
  kr_comp : pfnKeyComp h = HASH_Key_Comp_Default }.

Lemma key_rep_words h m (k : list Z) :
  key_rep h m -> length k = 3%nat -> length k = key_words (h_uKeySize h).
Proof. intros Hr ->. by rewrite (kr_key _ _ Hr). Qed.

Lemma key_rep_create a1 a2 :
  match HASH_Create_Extended a1 a2 HANDLE_HASH_TAB_INIT_SIZE sizeof_HAND_KEY HASH_Func_Default
          HASH_Key_Comp_Default with
  | Some h => a1 && a2 = true /\ key_rep h ∅
  | None => a1 && a2 = false
  end.
Proof.
  destruct a1, a2; cbn [HASH_Create_Extended negb andb]; try done. split; [done|].
  constructor; [|done|done]. constructor; [|by cbn; constructor|done].
  constructor; cbn [ppBucketTable h_uSize h_uMinimumSize h_uCount]; [done|done|done|].
  apply placed_replicate.
Qed.

Lemma key_rep_insert ab at_ h m k v :
  key_rep h m -> length k = 3%nat -> m !! k = None -> Z.of_nat (size m) + 1 < COUNT_LIMIT ->
  exists h', HASH_Insert_Extended ab at_ h k v = Ok (ab, h') /\
    key_rep h' (if ab then <[k := v]> m else m).
Proof.
  intros Hr Hk Hn Hc. pose proof (key_rep_words _ _ _ Hr Hk). destruct Hr as [Hr Hs Hp].
  destruct (rep_insert ab at_ h m k v Hr) as (h' & H1 & H2 & H3 & H4); [|done|done|].
  { rewrite (rep_count _ _ Hr). lia. }
  exists h'. split; [done|]. constructor; [done|congruence..].
Qed.

Lemma key_rep_remove at_ h m k :
  key_rep h m -> length k = 3%nat -> Z.of_nat (size m) < COUNT_LIMIT ->
  (exists h', HASH_Remove_Extended at_ h k = Ok (default 0 (m !! k), h') /\ key_rep h' (delete k m)) /\
  HASH_Retrieve_Extended h k = Ok (default 0 (m !! k)).
Proof.
  intros Hr Hk Hc. pose proof (key_rep_words _ _ _ Hr Hk). destruct Hr as [Hr Hs Hp].
  assert (KeyFunctions (h_uKeySize h) (pfnKeyComp h)) by (rewrite Hp; apply _).
  destruct (rep_remove h m at_ k Hr) as (h' & H1 & H2 & H3 & H4 & H5); [|done|].
  { rewrite (rep_count _ _ Hr). lia. }
  split; [|done]. exists h'. split; [done|]. constructor; [done|congruence..].
Qed.

#[export, refine] Instance hash_handle_map : HandleMap HASH_TABLE := {|
  hm_create a1 a2 := HASH_Create_Extended a1 a2 HANDLE_HASH_TAB_INIT_SIZE sizeof_HAND_KEY
                       HASH_Func_Default HASH_Key_Comp_Default;
  hm_insert := HASH_Insert_Extended; hm_remove := HASH_Remove_Extended;
  hm_retrieve := HASH_Retrieve_Extended; hm_leaks := HASH_Delete; hm_rep := key_rep |}.
Proof.
  - apply key_rep_create.
  - intros. by apply key_rep_insert.
  - intros at_ h m k Hr Hk Hc. apply (key_rep_remove at_ h m k Hr Hk Hc).
  - intros h m k Hr Hk Hc. apply (key_rep_remove true h m k Hr Hk Hc).
  - intros h m Hr. unfold HASH_Delete. rewrite (rep_count _ _ (kr_rep _ _ Hr)).
    destruct (size m); done.
Defined.
