(* ===== verification/PvrHandle.v ===== *)
(** * The handle table of the PowerVR services

    src/imgtec/eurasia_km/services4/srvkm/common/handle.c and the types of
    src/imgtec/eurasia_km/services4/srvkm/include/handle.h, in the build with
    [PVR_SECURE_HANDLES] and without [SUPPORT_SID_INTERFACE], where [PVR_ASSERT]
    is empty.  A handle base is a record with the fields of the source; the
    handle array is the list of its blocks.  A pointer to a handle structure is
    the position of the structure in the array, which the code also keeps in its
    field [ui32Index] (the blocks never move); a pointer to a list head in a
    structure is the position and the field.  A position past the array or in a
    block that was not allocated is [Fault OutOfBounds].

    [allocs] holds the outcomes of the coming calls of [OSAllocMem], with the
    contents of the memory it returns; an empty list stands for success.  The
    block size is a parameter, as it is a build option in the source (256 handles,
    4 in debug builds), and so is the hash table ([HandleMap]).  The freed memory,
    the allocation cookies and the log are not modelled. *)

From stdpp Require Import base list numbers option gmap.
From Stdlib Require Import ZArith Lia.
From S2P Require Import Prelude PvrHash PvrHandleMap.

Local Open Scope Z_scope.

(** ** Constants *)

Definition PVRSRV_ERROR_NOT_SUPPORTED : Z := 19.
Definition PVRSRV_ERROR_HANDLE_INDEX_OUT_OF_RANGE : Z := 149.
Definition PVRSRV_ERROR_HANDLE_NOT_ALLOCATED : Z := 150.
Definition PVRSRV_ERROR_HANDLE_TYPE_MISMATCH : Z := 151.
Definition PVRSRV_ERROR_UNABLE_TO_ADD_HANDLE : Z := 152.
Definition PVRSRV_ERROR_HANDLE_NOT_SHAREABLE : Z := 153.
Definition PVRSRV_ERROR_HANDLE_NOT_FOUND : Z := 154.
Definition PVRSRV_ERROR_INVALID_SUBHANDLE : Z := 155.
Definition PVRSRV_ERROR_HANDLE_BATCH_IN_USE : Z := 156.
Definition PVRSRV_ERROR_HANDLE_BATCH_COMMIT_FAILURE : Z := 157.
Definition PVRSRV_ERROR_UNABLE_TO_CREATE_HASH_TABLE : Z := 158.

Inductive PVRSRV_HANDLE_TYPE :=
| PVRSRV_HANDLE_TYPE_NONE
| PVRSRV_HANDLE_TYPE_PERPROC_DATA
| PVRSRV_HANDLE_TYPE_DEV_NODE
| PVRSRV_HANDLE_TYPE_DEV_MEM_CONTEXT
| PVRSRV_HANDLE_TYPE_DEV_MEM_HEAP
| PVRSRV_HANDLE_TYPE_MEM_INFO
| PVRSRV_HANDLE_TYPE_SYNC_INFO
| PVRSRV_HANDLE_TYPE_DISP_INFO
| PVRSRV_HANDLE_TYPE_DISP_SWAP_CHAIN
| PVRSRV_HANDLE_TYPE_BUF_INFO
| PVRSRV_HANDLE_TYPE_DISP_BUFFER
| PVRSRV_HANDLE_TYPE_BUF_BUFFER
| PVRSRV_HANDLE_TYPE_SGX_HW_RENDER_CONTEXT
| PVRSRV_HANDLE_TYPE_SGX_HW_TRANSFER_CONTEXT
| PVRSRV_HANDLE_TYPE_SGX_HW_2D_CONTEXT
| PVRSRV_HANDLE_TYPE_SHARED_PB_DESC
| PVRSRV_HANDLE_TYPE_MEM_INFO_REF
| PVRSRV_HANDLE_TYPE_SHARED_SYS_MEM_INFO
| PVRSRV_HANDLE_TYPE_SHARED_EVENT_OBJECT
| PVRSRV_HANDLE_TYPE_EVENT_OBJECT_CONNECT
| PVRSRV_HANDLE_TYPE_MMAP_INFO
| PVRSRV_HANDLE_TYPE_SOC_TIMER
| PVRSRV_HANDLE_TYPE_SYNC_INFO_MOD_OBJ
| PVRSRV_HANDLE_TYPE_RESITEM_INFO.

#[export] Instance handle_type_eq_dec : EqDecision PVRSRV_HANDLE_TYPE.
Proof. solve_decision. Defined.

(** The value of the enumerator. *)
Definition type_code (t : PVRSRV_HANDLE_TYPE) : Z :=
  match t with
  | PVRSRV_HANDLE_TYPE_NONE => 0
  | PVRSRV_HANDLE_TYPE_PERPROC_DATA => 1
  | PVRSRV_HANDLE_TYPE_DEV_NODE => 2
  | PVRSRV_HANDLE_TYPE_DEV_MEM_CONTEXT => 3
  | PVRSRV_HANDLE_TYPE_DEV_MEM_HEAP => 4
  | PVRSRV_HANDLE_TYPE_MEM_INFO => 5
  | PVRSRV_HANDLE_TYPE_SYNC_INFO => 6
  | PVRSRV_HANDLE_TYPE_DISP_INFO => 7
  | PVRSRV_HANDLE_TYPE_DISP_SWAP_CHAIN => 8
  | PVRSRV_HANDLE_TYPE_BUF_INFO => 9
  | PVRSRV_HANDLE_TYPE_DISP_BUFFER => 10
  | PVRSRV_HANDLE_TYPE_BUF_BUFFER => 11
  | PVRSRV_HANDLE_TYPE_SGX_HW_RENDER_CONTEXT => 12
  | PVRSRV_HANDLE_TYPE_SGX_HW_TRANSFER_CONTEXT => 13
  | PVRSRV_HANDLE_TYPE_SGX_HW_2D_CONTEXT => 14
  | PVRSRV_HANDLE_TYPE_SHARED_PB_DESC => 15
  | PVRSRV_HANDLE_TYPE_MEM_INFO_REF => 16
  | PVRSRV_HANDLE_TYPE_SHARED_SYS_MEM_INFO => 17
  | PVRSRV_HANDLE_TYPE_SHARED_EVENT_OBJECT => 18
  | PVRSRV_HANDLE_TYPE_EVENT_OBJECT_CONNECT => 19
  | PVRSRV_HANDLE_TYPE_MMAP_INFO => 20
  | PVRSRV_HANDLE_TYPE_SOC_TIMER => 21
  | PVRSRV_HANDLE_TYPE_SYNC_INFO_MOD_OBJ => 22
  | PVRSRV_HANDLE_TYPE_RESITEM_INFO => 23
  end.

Definition is_none (t : PVRSRV_HANDLE_TYPE) : bool := bool_decide (t = PVRSRV_HANDLE_TYPE_NONE).

Definition PVRSRV_HANDLE_ALLOC_FLAG_SHARED : Z := 1.
Definition PVRSRV_HANDLE_ALLOC_FLAG_MULTI : Z := 2.
Definition PVRSRV_HANDLE_ALLOC_FLAG_PRIVATE : Z := 4.

Definition INTERNAL_HANDLE_FLAG_NONE : Z := 0.
Definition INTERNAL_HANDLE_FLAG_BATCHED : Z := 1.
Definition INTERNAL_HANDLE_FLAG_BATCHED_PARTIALLY_FREE : Z := 2.

(** [HANDLE_BLOCK_SHIFT] depends on the build. *)
Class BlockShift := {
  HANDLE_BLOCK_SHIFT : Z;
  block_shift_range : 1 <= HANDLE_BLOCK_SHIFT <= 16 }.

#[refine] Definition release_shift : BlockShift := {| HANDLE_BLOCK_SHIFT := 8 |}.
Proof. lia. Defined.
#[refine] Definition debug_shift : BlockShift := {| HANDLE_BLOCK_SHIFT := 2 |}.
Proof. lia. Defined.

Definition DEFAULT_MAX_HANDLE : Z := 0x7fffffff.

(** Handles are positions plus one; 0 is [IMG_NULL]. *)
Definition INDEX_TO_HANDLE (i : Z) : Z := u32 (i + 1).
Definition HANDLE_TO_INDEX (h : Z) : Z := u32 (h - 1).

Definition SET_FLAG (v f : Z) : Z := Z.lor v f.
Definition CLEAR_FLAG (v f : Z) : Z := Z.ldiff v f.
Definition TEST_FLAG (v f : Z) : bool := truth (Z.land v f).

(** ** Data *)

Record sHandleList := mk_list {
  ui32Prev : Z;
  ui32Next : Z;
  hParent : Z }.

Definition set_ui32Prev (x : Z) (r : sHandleList) : sHandleList :=
  mk_list x (ui32Next r) (hParent r).
Definition set_ui32Next (x : Z) (r : sHandleList) : sHandleList :=
  mk_list (ui32Prev r) x (hParent r).
Definition set_hParent (x : Z) (r : sHandleList) : sHandleList :=
  mk_list (ui32Prev r) (ui32Next r) x.

Record sHandle := mk_handle {
  eType : PVRSRV_HANDLE_TYPE;
  pvData : Z;
  ui32NextIndexPlusOne : Z;
  eInternalFlag : Z;
  eFlag : Z;
  ui32Index : Z;
  sChildren : sHandleList;
  sSiblings : sHandleList }.

Definition set_eType (x : PVRSRV_HANDLE_TYPE) (r : sHandle) : sHandle :=
  mk_handle x (pvData r) (ui32NextIndexPlusOne r) (eInternalFlag r) (eFlag r) (ui32Index r)
    (sChildren r) (sSiblings r).
Definition set_pvData (x : Z) (r : sHandle) : sHandle :=
  mk_handle (eType r) x (ui32NextIndexPlusOne r) (eInternalFlag r) (eFlag r) (ui32Index r)
    (sChildren r) (sSiblings r).
Definition set_ui32NextIndexPlusOne (x : Z) (r : sHandle) : sHandle :=
  mk_handle (eType r) (pvData r) x (eInternalFlag r) (eFlag r) (ui32Index r) (sChildren r)
    (sSiblings r).
Definition set_eInternalFlag (x : Z) (r : sHandle) : sHandle :=
  mk_handle (eType r) (pvData r) (ui32NextIndexPlusOne r) x (eFlag r) (ui32Index r) (sChildren r)
    (sSiblings r).
Definition set_eFlag (x : Z) (r : sHandle) : sHandle :=
  mk_handle (eType r) (pvData r) (ui32NextIndexPlusOne r) (eInternalFlag r) x (ui32Index r)
    (sChildren r) (sSiblings r).
Definition set_ui32Index (x : Z) (r : sHandle) : sHandle :=
  mk_handle (eType r) (pvData r) (ui32NextIndexPlusOne r) (eInternalFlag r) (eFlag r) x
    (sChildren r) (sSiblings r).
Definition set_sChildren (x : sHandleList) (r : sHandle) : sHandle :=
  mk_handle (eType r) (pvData r) (ui32NextIndexPlusOne r) (eInternalFlag r) (eFlag r)
    (ui32Index r) x (sSiblings r).
Definition set_sSiblings (x : sHandleList) (r : sHandle) : sHandle :=
  mk_handle (eType r) (pvData r) (ui32NextIndexPlusOne r) (eInternalFlag r) (eFlag r)
    (ui32Index r) (sChildren r) x.

Record sHandleIndex := mk_index {
  psHandle : option (list sHandle);
  ui32FreeHandBlockCount : Z }.

Definition set_psHandle (x : option (list sHandle)) (r : sHandleIndex) : sHandleIndex :=
  mk_index x (ui32FreeHandBlockCount r).
Definition set_ui32FreeHandBlockCount (x : Z) (r : sHandleIndex) : sHandleIndex :=
  mk_index (psHandle r) x.

Definition BATCHED_HANDLE (h : sHandle) : bool :=
  TEST_FLAG (eInternalFlag h) INTERNAL_HANDLE_FLAG_BATCHED.
Definition BATCHED_HANDLE_PARTIALLY_FREE (h : sHandle) : bool :=
  TEST_FLAG (eInternalFlag h) INTERNAL_HANDLE_FLAG_BATCHED_PARTIALLY_FREE.
Definition SET_BATCHED_HANDLE (h : sHandle) : sHandle :=
  set_eInternalFlag (SET_FLAG (eInternalFlag h) INTERNAL_HANDLE_FLAG_BATCHED) h.
Definition SET_UNBATCHED_HANDLE (h : sHandle) : sHandle :=
  set_eInternalFlag (CLEAR_FLAG (eInternalFlag h) INTERNAL_HANDLE_FLAG_BATCHED) h.
Definition SET_BATCHED_HANDLE_PARTIALLY_FREE (h : sHandle) : sHandle :=
  set_eInternalFlag (SET_FLAG (eInternalFlag h) INTERNAL_HANDLE_FLAG_BATCHED_PARTIALLY_FREE) h.
Definition HANDLE_STRUCT_IS_FREE (h : sHandle) : bool :=
  is_none (eType h) && (eInternalFlag h =? INTERNAL_HANDLE_FLAG_NONE).

(** The outcome of an [OSAllocMem]: [junk] is what the memory holds, here for
    the structure of each position. *)
Inductive alloc_result :=
| AllocFails
| AllocGives (junk : Z -> sHandle).

Definition zero_handle : sHandle :=
  mk_handle PVRSRV_HANDLE_TYPE_NONE 0 0 0 0 0 (mk_list 0 0 0) (mk_list 0 0 0).

Record PVRSRV_HANDLE_BASE (H : Type) := mk_base {
  psHandleArray : list sHandleIndex;
  psHashTab : option H;
  ui32FreeHandCount : Z;
  ui32FirstFreeIndex : Z;
  ui32MaxIndexPlusOne : Z;
  ui32TotalHandCount : Z;
  ui32LastFreeIndexPlusOne : Z;
  ui32HandBatchSize : Z;
  ui32TotalHandCountPreBatch : Z;
  ui32FirstBatchIndexPlusOne : Z;
  ui32BatchHandAllocFailures : Z;
  bPurgingEnabled : bool;
  allocs : list alloc_result }.
Arguments psHandleArray {H} _.
Arguments psHashTab {H} _.
Arguments ui32FreeHandCount {H} _.
Arguments ui32FirstFreeIndex {H} _.
Arguments ui32MaxIndexPlusOne {H} _.
Arguments ui32TotalHandCount {H} _.
Arguments ui32LastFreeIndexPlusOne {H} _.
Arguments ui32HandBatchSize {H} _.
Arguments ui32TotalHandCountPreBatch {H} _.
Arguments ui32FirstBatchIndexPlusOne {H} _.
Arguments ui32BatchHandAllocFailures {H} _.
Arguments bPurgingEnabled {H} _.
Arguments allocs {H} _.
Arguments mk_base {H} _ _ _ _ _ _ _ _ _ _ _ _ _.

(** The offset of a list head in a handle structure. *)
Inductive list_field := fChildren | fSiblings.

Definition get_list (f : list_field) (h : sHandle) : sHandleList :=
  match f with fChildren => sChildren h | fSiblings => sSiblings h end.
Definition set_list (f : list_field) (l : sHandleList) (h : sHandle) : sHandle :=
  match f with fChildren => set_sChildren l h | fSiblings => set_sSiblings l h end.

Section Handle.
Context {H : Type} `{HandleMap H} `{BlockShift}.

Definition set_psHandleArray (x : list sHandleIndex) (r : PVRSRV_HANDLE_BASE H) : PVRSRV_HANDLE_BASE H :=
  mk_base x (psHashTab r) (ui32FreeHandCount r) (ui32FirstFreeIndex r) (ui32MaxIndexPlusOne r)
    (ui32TotalHandCount r) (ui32LastFreeIndexPlusOne r) (ui32HandBatchSize r)
    (ui32TotalHandCountPreBatch r) (ui32FirstBatchIndexPlusOne r) (ui32BatchHandAllocFailures r)
    (bPurgingEnabled r) (allocs r).
Definition set_psHashTab (x : option H) (r : PVRSRV_HANDLE_BASE H) : PVRSRV_HANDLE_BASE H :=
  mk_base (psHandleArray r) x (ui32FreeHandCount r) (ui32FirstFreeIndex r)
    (ui32MaxIndexPlusOne r) (ui32TotalHandCount r) (ui32LastFreeIndexPlusOne r)
    (ui32HandBatchSize r) (ui32TotalHandCountPreBatch r) (ui32FirstBatchIndexPlusOne r)
    (ui32BatchHandAllocFailures r) (bPurgingEnabled r) (allocs r).
Definition set_ui32FreeHandCount (x : Z) (r : PVRSRV_HANDLE_BASE H) : PVRSRV_HANDLE_BASE H :=
  mk_base (psHandleArray r) (psHashTab r) x (ui32FirstFreeIndex r) (ui32MaxIndexPlusOne r)
    (ui32TotalHandCount r) (ui32LastFreeIndexPlusOne r) (ui32HandBatchSize r)
    (ui32TotalHandCountPreBatch r) (ui32FirstBatchIndexPlusOne r) (ui32BatchHandAllocFailures r)
    (bPurgingEnabled r) (allocs r).
Definition set_ui32FirstFreeIndex (x : Z) (r : PVRSRV_HANDLE_BASE H) : PVRSRV_HANDLE_BASE H :=
  mk_base (psHandleArray r) (psHashTab r) (ui32FreeHandCount r) x (ui32MaxIndexPlusOne r)
    (ui32TotalHandCount r) (ui32LastFreeIndexPlusOne r) (ui32HandBatchSize r)
    (ui32TotalHandCountPreBatch r) (ui32FirstBatchIndexPlusOne r) (ui32BatchHandAllocFailures r)
    (bPurgingEnabled r) (allocs r).
Definition set_ui32MaxIndexPlusOne (x : Z) (r : PVRSRV_HANDLE_BASE H) : PVRSRV_HANDLE_BASE H :=
  mk_base (psHandleArray r) (psHashTab r) (ui32FreeHandCount r) (ui32FirstFreeIndex r) x
    (ui32TotalHandCount r) (ui32LastFreeIndexPlusOne r) (ui32HandBatchSize r)
    (ui32TotalHandCountPreBatch r) (ui32FirstBatchIndexPlusOne r) (ui32BatchHandAllocFailures r)
    (bPurgingEnabled r) (allocs r).
Definition set_ui32TotalHandCount (x : Z) (r : PVRSRV_HANDLE_BASE H) : PVRSRV_HANDLE_BASE H :=
  mk_base (psHandleArray r) (psHashTab r) (ui32FreeHandCount r) (ui32FirstFreeIndex r)
    (ui32MaxIndexPlusOne r) x (ui32LastFreeIndexPlusOne r) (ui32HandBatchSize r)
    (ui32TotalHandCountPreBatch r) (ui32FirstBatchIndexPlusOne r) (ui32BatchHandAllocFailures r)
    (bPurgingEnabled r) (allocs r).
Definition set_ui32LastFreeIndexPlusOne (x : Z) (r : PVRSRV_HANDLE_BASE H) : PVRSRV_HANDLE_BASE H :=
  mk_base (psHandleArray r) (psHashTab r) (ui32FreeHandCount r) (ui32FirstFreeIndex r)
    (ui32MaxIndexPlusOne r) (ui32TotalHandCount r) x (ui32HandBatchSize r)
    (ui32TotalHandCountPreBatch r) (ui32FirstBatchIndexPlusOne r) (ui32BatchHandAllocFailures r)
    (bPurgingEnabled r) (allocs r).
Definition set_ui32HandBatchSize (x : Z) (r : PVRSRV_HANDLE_BASE H) : PVRSRV_HANDLE_BASE H :=
  mk_base (psHandleArray r) (psHashTab r) (ui32FreeHandCount r) (ui32FirstFreeIndex r)
    (ui32MaxIndexPlusOne r) (ui32TotalHandCount r) (ui32LastFreeIndexPlusOne r) x
    (ui32TotalHandCountPreBatch r) (ui32FirstBatchIndexPlusOne r) (ui32BatchHandAllocFailures r)
    (bPurgingEnabled r) (allocs r).
Definition set_ui32TotalHandCountPreBatch (x : Z) (r : PVRSRV_HANDLE_BASE H) : PVRSRV_HANDLE_BASE H :=
  mk_base (psHandleArray r) (psHashTab r) (ui32FreeHandCount r) (ui32FirstFreeIndex r)
    (ui32MaxIndexPlusOne r) (ui32TotalHandCount r) (ui32LastFreeIndexPlusOne r)
    (ui32HandBatchSize r) x (ui32FirstBatchIndexPlusOne r) (ui32BatchHandAllocFailures r)
    (bPurgingEnabled r) (allocs r).
Definition set_ui32FirstBatchIndexPlusOne (x : Z) (r : PVRSRV_HANDLE_BASE H) : PVRSRV_HANDLE_BASE H :=
  mk_base (psHandleArray r) (psHashTab r) (ui32FreeHandCount r) (ui32FirstFreeIndex r)
    (ui32MaxIndexPlusOne r) (ui32TotalHandCount r) (ui32LastFreeIndexPlusOne r)
    (ui32HandBatchSize r) (ui32TotalHandCountPreBatch r) x (ui32BatchHandAllocFailures r)
    (bPurgingEnabled r) (allocs r).
Definition set_ui32BatchHandAllocFailures (x : Z) (r : PVRSRV_HANDLE_BASE H) : PVRSRV_HANDLE_BASE H :=
  mk_base (psHandleArray r) (psHashTab r) (ui32FreeHandCount r) (ui32FirstFreeIndex r)
    (ui32MaxIndexPlusOne r) (ui32TotalHandCount r) (ui32LastFreeIndexPlusOne r)
    (ui32HandBatchSize r) (ui32TotalHandCountPreBatch r) (ui32FirstBatchIndexPlusOne r) x
    (bPurgingEnabled r) (allocs r).
Definition set_bPurgingEnabled (x : bool) (r : PVRSRV_HANDLE_BASE H) : PVRSRV_HANDLE_BASE H :=
  mk_base (psHandleArray r) (psHashTab r) (ui32FreeHandCount r) (ui32FirstFreeIndex r)
    (ui32MaxIndexPlusOne r) (ui32TotalHandCount r) (ui32LastFreeIndexPlusOne r)
    (ui32HandBatchSize r) (ui32TotalHandCountPreBatch r) (ui32FirstBatchIndexPlusOne r)
    (ui32BatchHandAllocFailures r) x (allocs r).
Definition set_allocs (x : list alloc_result) (r : PVRSRV_HANDLE_BASE H) : PVRSRV_HANDLE_BASE H :=
  mk_base (psHandleArray r) (psHashTab r) (ui32FreeHandCount r) (ui32FirstFreeIndex r)
    (ui32MaxIndexPlusOne r) (ui32TotalHandCount r) (ui32LastFreeIndexPlusOne r)
    (ui32HandBatchSize r) (ui32TotalHandCountPreBatch r) (ui32FirstBatchIndexPlusOne r)
    (ui32BatchHandAllocFailures r) (bPurgingEnabled r) x.

Definition DIVIDE_BY_BLOCK_SIZE (i : Z) : Z := Z.shiftr i HANDLE_BLOCK_SHIFT.
Definition MULTIPLY_BY_BLOCK_SIZE (i : Z) : Z := u32 (Z.shiftl i HANDLE_BLOCK_SHIFT).
Definition HANDLE_BLOCK_SIZE : Z := MULTIPLY_BY_BLOCK_SIZE 1.
Definition HANDLE_SUB_BLOCK_MASK : Z := u32 (HANDLE_BLOCK_SIZE - 1).
(** [~x] of an [IMG_UINT32] is [2^32 - 1 - x]. *)
Definition HANDLE_BLOCK_MASK : Z := 2 ^ 32 - 1 - HANDLE_SUB_BLOCK_MASK.
Definition INDEX_TO_SUB_BLOCK_INDEX (i : Z) : Z := Z.land i HANDLE_SUB_BLOCK_MASK.
Definition ROUND_DOWN_TO_MULTIPLE_OF_BLOCK_SIZE (a : Z) : Z := Z.land HANDLE_BLOCK_MASK a.
Definition ROUND_UP_TO_MULTIPLE_OF_BLOCK_SIZE (a : Z) : Z :=
  ROUND_DOWN_TO_MULTIPLE_OF_BLOCK_SIZE (u32 (a + HANDLE_BLOCK_SIZE - 1)).
Definition HANDLE_ARRAY_SIZE (handleCount : Z) : Z :=
  DIVIDE_BY_BLOCK_SIZE (ROUND_UP_TO_MULTIPLE_OF_BLOCK_SIZE handleCount).
Definition DEFAULT_MAX_INDEX_PLUS_ONE : Z := ROUND_DOWN_TO_MULTIPLE_OF_BLOCK_SIZE DEFAULT_MAX_HANDLE.

(** ** The monad *)

Definition HB (A : Type) : Type := PVRSRV_HANDLE_BASE H -> outcome (A * PVRSRV_HANDLE_BASE H).

#[local] Instance HB_ret : MRet HB := fun A a s => Ok (a, s).
#[local] Instance HB_bind : MBind HB := fun A B f m s =>
  match m s with Ok (a, s') => f a s' | Fault e => Fault e end.

Definition base {A} (f : PVRSRV_HANDLE_BASE H -> A) : HB A := fun s => Ok (f s, s).
Definition modify (f : PVRSRV_HANDLE_BASE H -> PVRSRV_HANDLE_BASE H) : HB unit := fun s => Ok (tt, f s).
Definition hb_fault {A} (e : fault) : HB A := fun _ => Fault e.
Definition hb_lift {A} (m : outcome A) : HB A := fun s =>
  match m with Ok a => Ok (a, s) | Fault e => Fault e end.
Definition hb_when (c : bool) (m : HB unit) : HB unit := if c then m else mret tt.

(** [x++], [x--], [x += n] of an [IMG_UINT32] *)
Definition add32 (x n : Z) : Z := u32 (x + n).
Definition sub32 (x n : Z) : Z := u32 (x - n).

Definition HANDLES_BATCHED (s : PVRSRV_HANDLE_BASE H) : bool := truth (ui32HandBatchSize s).
Definition INDEX_IS_VALID (s : PVRSRV_HANDLE_BASE H) (i : Z) : bool := i <? ui32TotalHandCount s.

(** Reading and writing the structure at a position. *)
Definition read_handle (a : list sHandleIndex) (i : Z) : outcome sHandle :=
  ix ← rd a (DIVIDE_BY_BLOCK_SIZE i);
  match psHandle ix with
  | None => Fault OutOfBounds
  | Some blk => rd blk (INDEX_TO_SUB_BLOCK_INDEX i)
  end.

Definition write_handle (a : list sHandleIndex) (i : Z) (h : sHandle) : outcome (list sHandleIndex) :=
  ix ← rd a (DIVIDE_BY_BLOCK_SIZE i);
  match psHandle ix with
  | None => Fault OutOfBounds
  | Some blk =>
      blk ← wr blk (INDEX_TO_SUB_BLOCK_INDEX i) h;
      wr a (DIVIDE_BY_BLOCK_SIZE i) (set_psHandle (Some blk) ix)
  end.

(** [p->f] and an assignment to fields of [*p] *)
Definition hload {A} (p : Z) (f : sHandle -> A) : HB A :=
  a ← base psHandleArray; h ← hb_lift (read_handle a p); mret (f h).
Definition hstore (p : Z) (f : sHandle -> sHandle) : HB unit :=
  a ← base psHandleArray;
  h ← hb_lift (read_handle a p);
  a ← hb_lift (write_handle a p (f h));
  modify (set_psHandleArray a).

(** The same through a pointer to a list head. *)
Definition lload {A} (p : Z * list_field) (f : sHandleList -> A) : HB A :=
  hload p.1 (fun h => f (get_list p.2 h)).
Definition lstore (p : Z * list_field) (f : sHandleList -> sHandleList) : HB unit :=
  hstore p.1 (fun h => set_list p.2 (f (get_list p.2 h)) h).

(** [INDEX_TO_FREE_HAND_BLOCK_COUNT(psBase, i)], read and updated. *)
Definition block_count (i : Z) : HB Z :=
  a ← base psHandleArray;
  ix ← hb_lift (rd a (DIVIDE_BY_BLOCK_SIZE i));
  mret (ui32FreeHandBlockCount ix).
Definition count_block (i : Z) (f : Z -> Z) : HB unit :=
  a ← base psHandleArray;
  ix ← hb_lift (rd a (DIVIDE_BY_BLOCK_SIZE i));
  a ← hb_lift (wr a (DIVIDE_BY_BLOCK_SIZE i)
                 (set_ui32FreeHandBlockCount (f (ui32FreeHandBlockCount ix)) ix));
  modify (set_psHandleArray a).

(** The next outcome of the allocator. *)
Definition OSAllocMem : HB alloc_result := fun s =>
  match allocs s with
  | [] => Ok (AllocGives (fun _ => zero_handle), s)
  | r :: l => Ok (r, set_allocs l s)
  end.
Definition alloc_ok : HB bool :=
  r ← OSAllocMem; mret (match r with AllocFails => false | AllocGives _ => true end).

Definition hash_tab : HB H :=
  o ← base psHashTab;
  match o with Some h => mret h | None => hb_fault OutOfBounds end.

Definition HASH_Insert_Key (aKey : list Z) (v : Z) : HB bool :=
  alloc_bucket ← alloc_ok;
  alloc_table ← alloc_ok;
  h ← hash_tab;
  '(ok, h) ← hb_lift (hm_insert alloc_bucket alloc_table h aKey v);
  modify (set_psHashTab (Some h));;
  mret ok.
Definition HASH_Remove_Key (aKey : list Z) : HB Z :=
  alloc_table ← alloc_ok;
  h ← hash_tab;
  '(v, h) ← hb_lift (hm_remove alloc_table h aKey);
  modify (set_psHashTab (Some h));;
  mret v.
Definition HASH_Retrieve_Key (aKey : list Z) : HB Z :=
  h ← hash_tab; hb_lift (hm_retrieve h aKey).

(** ** The lists of children *)

Definition HandleListInit (index : Z) (parent : Z) : sHandleList := mk_list index index parent.

Definition InitParentList (psHandle : Z) : HB unit :=
  ui32Parent ← hload psHandle ui32Index;
  hstore psHandle (set_sChildren (HandleListInit ui32Parent (INDEX_TO_HANDLE ui32Parent))).

Definition InitChildEntry (psHandle : Z) : HB unit :=
  i ← hload psHandle ui32Index;
  hstore psHandle (set_sSiblings (HandleListInit i 0)).

Definition HandleListIsEmpty (index : Z) (psList : sHandleList) : bool := ui32Next psList =? index.

Definition ParentHandle (psHandle : Z) : HB Z := hload psHandle (fun h => hParent (sSiblings h)).

Definition LIST_PTR_FROM_INDEX_AND_OFFSET (i p : Z) (po eo : list_field) : Z * list_field :=
  (i, if i =? p then po else eo).

Definition HandleListInsertBefore (ui32InsIndex : Z) (psIns : Z * list_field)
    (uiParentOffset : list_field) (ui32EntryIndex : Z) (psEntry : Z * list_field)
    (uiEntryOffset : list_field) (ui32ParentIndex : Z) : HB unit :=
  prev ← lload psIns ui32Prev;
  let psPrevIns := LIST_PTR_FROM_INDEX_AND_OFFSET prev ui32ParentIndex uiParentOffset uiEntryOffset in
  prev ← lload psIns ui32Prev;
  lstore psEntry (set_ui32Prev prev);;
  lstore psIns (set_ui32Prev ui32EntryIndex);;
  lstore psEntry (set_ui32Next ui32InsIndex);;
  lstore psPrevIns (set_ui32Next ui32EntryIndex);;
  lstore psEntry (set_hParent (INDEX_TO_HANDLE ui32ParentIndex)).

Definition AdoptChild (psParent psChild : Z) : HB unit :=
  hp ← hload psParent (fun h => hParent (sChildren h));
  let ui32Parent := HANDLE_TO_INDEX hp in
  ci ← hload psChild ui32Index;
  HandleListInsertBefore ui32Parent (psParent, fChildren) fChildren ci (psChild, fSiblings)
    fSiblings ui32Parent.

Definition HandleListRemove (ui32EntryIndex : Z) (psEntry : Z * list_field)
    (uiEntryOffset uiParentOffset : list_field) : HB unit :=
  e ← lload psEntry id;
  if HandleListIsEmpty ui32EntryIndex e then mret tt else
  let psPrev := LIST_PTR_FROM_INDEX_AND_OFFSET (ui32Prev e) (HANDLE_TO_INDEX (hParent e))
                  uiParentOffset uiEntryOffset in
  let psNext := LIST_PTR_FROM_INDEX_AND_OFFSET (ui32Next e) (HANDLE_TO_INDEX (hParent e))
                  uiParentOffset uiEntryOffset in
  n ← lload psEntry ui32Next;
  lstore psPrev (set_ui32Next n);;
  p ← lload psEntry ui32Prev;
  lstore psNext (set_ui32Prev p);;
  lstore psEntry (fun _ => HandleListInit ui32EntryIndex 0).

Definition UnlinkFromParent (psHandle : Z) : HB unit :=
  i ← hload psHandle ui32Index;
  HandleListRemove i (psHandle, fSiblings) fSiblings fChildren.

(** The loop of [HandleListIterate]: the successor is read before the function
    is called. *)
Fixpoint iterate_list (fuel : nat) (ui32Parent : Z) (uiParentOffset uiEntryOffset : list_field)
    (pfnIterFunc : Z -> HB Z) (index : Z) : HB Z :=
  if index =? ui32Parent then mret PVRSRV_OK else
  match fuel with
  | O => hb_fault OutOfFuel
  | S fuel =>
      let psEntry := LIST_PTR_FROM_INDEX_AND_OFFSET index ui32Parent uiParentOffset uiEntryOffset in
      next ← lload psEntry ui32Next;
      eError ← pfnIterFunc index;
      if negb (eError =? PVRSRV_OK) then mret eError else
      iterate_list fuel ui32Parent uiParentOffset uiEntryOffset pfnIterFunc next
  end.

Definition handle_fuel (s : PVRSRV_HANDLE_BASE H) : nat := S (Z.to_nat (ui32TotalHandCount s)).

Definition HandleListIterate (psHead : Z * list_field) (uiParentOffset uiEntryOffset : list_field)
    (pfnIterFunc : Z -> HB Z) : HB Z :=
  hp ← lload psHead hParent;
  next ← lload psHead ui32Next;
  fuel ← base handle_fuel;
  iterate_list fuel (HANDLE_TO_INDEX hp) uiParentOffset uiEntryOffset pfnIterFunc next.

Definition IterateOverChildren (psParent : Z) (pfnIterFunc : Z -> HB Z) : HB Z :=
  HandleListIterate (psParent, fChildren) fChildren fSiblings pfnIterFunc.

(** ** Access *)

(** The error and, when there is none, the position of the structure. *)
Definition GetHandleStructure (hHandle : Z) (type : PVRSRV_HANDLE_TYPE) : HB (Z * Z) :=
  let index := HANDLE_TO_INDEX hHandle in
  valid ← base (fun s => INDEX_IS_VALID s index);
  if negb valid then mret (PVRSRV_ERROR_HANDLE_INDEX_OUT_OF_RANGE, 0) else
  t ← hload index eType;
  if is_none t then mret (PVRSRV_ERROR_HANDLE_NOT_ALLOCATED, 0) else
  if negb (is_none type) && negb (bool_decide (type = t)) then
    mret (PVRSRV_ERROR_HANDLE_TYPE_MISMATCH, 0)
  else mret (PVRSRV_OK, index).

Definition ParentIfPrivate (h : sHandle) : Z :=
  if TEST_FLAG (eFlag h) PVRSRV_HANDLE_ALLOC_FLAG_PRIVATE then hParent (sSiblings h) else 0.

Definition InitKey (data : Z) (type : PVRSRV_HANDLE_TYPE) (parent : Z) : list Z :=
  [data; type_code type; parent].

Definition FindHandle (data : Z) (type : PVRSRV_HANDLE_TYPE) (parent : Z) : HB Z :=
  HASH_Retrieve_Key (InitKey data type parent).

(** ** The handle array *)

(** A new structure: what the loop over a new block assigns. *)
Definition init_handle (junk : Z -> sHandle) (i : Z) : sHandle :=
  set_ui32NextIndexPlusOne 0
    (set_eInternalFlag INTERNAL_HANDLE_FLAG_NONE
       (set_eType PVRSRV_HANDLE_TYPE_NONE (set_ui32Index i (junk i)))).

Definition new_block (junk : Z -> sHandle) (index : Z) : list sHandle :=
  (fun sub => init_handle junk (index + Z.of_nat sub)) <$> seq 0 (Z.to_nat HANDLE_BLOCK_SIZE).

(** The loop over the [n] new blocks from [index] on: the error and the blocks. *)
Fixpoint alloc_blocks (n : nat) (index eReturn : Z) : HB (Z * list sHandleIndex) :=
  match n with
  | O => mret (eReturn, [])
  | S n =>
      r ← OSAllocMem;
      match r with
      | AllocFails =>
          '(e, l) ← alloc_blocks n (add32 index HANDLE_BLOCK_SIZE) PVRSRV_ERROR_OUT_OF_MEMORY;
          mret (e, mk_index None 0 :: l)
      | AllocGives junk =>
          '(e, l) ← alloc_blocks n (add32 index HANDLE_BLOCK_SIZE) eReturn;
          mret (e, mk_index (Some (new_block junk index)) HANDLE_BLOCK_SIZE :: l)
      end
  end.

Definition MIN (x y : Z) : Z := if x <? y then x else y.

(** What the array takes over of the old one, and the blocks that are new. *)
Definition realloc_blocks (oldArray : list sHandleIndex) (ui32OldCount ui32NewCount : Z)
    : HB (Z * list sHandleIndex) :=
  let kept := if negb (ui32NewCount =? 0) && negb (ui32OldCount =? 0)
              then take (Z.to_nat (HANDLE_ARRAY_SIZE (MIN ui32NewCount ui32OldCount))) oldArray
              else [] in
  '(eReturn, fresh) ← alloc_blocks (Z.to_nat (DIVIDE_BY_BLOCK_SIZE (ui32NewCount - ui32OldCount)))
                        ui32OldCount PVRSRV_OK;
  mret (eReturn, (kept ++ fresh)%list).

(** The counts and the free list after the array has changed size. *)
Definition resized (ui32OldCount ui32NewCount : Z) : HB unit :=
  if ui32OldCount <? ui32NewCount then
    modify (fun s => set_ui32FreeHandCount
                       (add32 (ui32FreeHandCount s) (sub32 ui32NewCount ui32OldCount)) s);;
    first ← base ui32FirstFreeIndex;
    purging ← base bPurgingEnabled;
    (if first =? 0 then modify (set_ui32FirstFreeIndex ui32OldCount)
     else hb_when (negb purging)
            (last ← base ui32LastFreeIndexPlusOne;
             hstore (sub32 last 1) (set_ui32NextIndexPlusOne (add32 ui32OldCount 1))));;
    hb_when (negb purging) (modify (set_ui32LastFreeIndexPlusOne ui32NewCount))
  else
    modify (fun s => set_ui32FreeHandCount
                       (sub32 (ui32FreeHandCount s) (sub32 ui32OldCount ui32NewCount)) s);;
    hb_when (ui32NewCount =? 0)
      (modify (set_ui32FirstFreeIndex 0);; modify (set_ui32LastFreeIndexPlusOne 0)).

Definition ReallocHandleArray (ui32NewCount : Z) : HB Z :=
  oldArray ← base psHandleArray;
  ui32OldCount ← base ui32TotalHandCount;
  if ui32NewCount =? ui32OldCount then mret PVRSRV_OK else
  purging ← base bPurgingEnabled;
  if negb (ui32NewCount =? 0) && negb purging && (ui32NewCount <? ui32OldCount)
  then mret PVRSRV_ERROR_INVALID_PARAMS else
  if negb (ui32OldCount mod HANDLE_BLOCK_SIZE =? 0) || negb (ui32NewCount mod HANDLE_BLOCK_SIZE =? 0)
  then mret PVRSRV_ERROR_INVALID_PARAMS else
  got ← (if ui32NewCount =? 0 then mret true else alloc_ok);
  if negb got then mret PVRSRV_ERROR_OUT_OF_MEMORY else
  '(eReturn, newArray) ← realloc_blocks oldArray ui32OldCount ui32NewCount;
  if negb (eReturn =? PVRSRV_OK) then mret eReturn else
  modify (set_psHandleArray newArray);;
  modify (set_ui32TotalHandCount ui32NewCount);;
  resized ui32OldCount ui32NewCount;;
  mret PVRSRV_OK.

Definition FreeHandleArray : HB Z := ReallocHandleArray 0.

Definition IncreaseHandleArraySize (ui32Delta : Z) : HB Z :=
  total ← base ui32TotalHandCount;
  max ← base ui32MaxIndexPlusOne;
  let ui32DeltaAdjusted := ROUND_UP_TO_MULTIPLE_OF_BLOCK_SIZE ui32Delta in
  let ui32NewTotalHandCount := add32 total ui32DeltaAdjusted in
  if (max <? ui32NewTotalHandCount) || (ui32NewTotalHandCount <=? total) then
    let ui32NewTotalHandCount := max in
    let ui32DeltaAdjusted := sub32 ui32NewTotalHandCount total in
    if ui32DeltaAdjusted <? ui32Delta then mret PVRSRV_ERROR_OUT_OF_MEMORY
    else ReallocHandleArray ui32NewTotalHandCount
  else ReallocHandleArray ui32NewTotalHandCount.

Definition EnsureFreeHandles (ui32Free : Z) : HB Z :=
  free ← base ui32FreeHandCount;
  if free <? ui32Free then IncreaseHandleArraySize (sub32 ui32Free free) else mret PVRSRV_OK.

(** ** Freeing *)

(** The end of [FreeHandle]: the structure joins the free handles. *)
Definition free_handle_struct (index : Z) : HB unit :=
  purging ← base bPurgingEnabled;
  hb_when (negb purging)
    (free ← base ui32FreeHandCount;
     (if free =? 0 then modify (set_ui32FirstFreeIndex index)
      else last ← base ui32LastFreeIndexPlusOne;
           hstore (sub32 last 1) (set_ui32NextIndexPlusOne (add32 index 1)));;
     modify (set_ui32LastFreeIndexPlusOne (add32 index 1)));;
  modify (fun s => set_ui32FreeHandCount (add32 (ui32FreeHandCount s) 1) s);;
  count_block index (fun c => add32 c 1).

(** The recursion descends to the children. *)
Fixpoint FreeHandle (fuel : nat) (psHandle : Z) : HB Z :=
  match fuel with
  | O => hb_fault OutOfFuel
  | S fuel =>
      h ← hload psHandle id;
      let index := ui32Index h in
      let aKey := InitKey (pvData h) (eType h) (ParentIfPrivate h) in
      hb_when (negb (TEST_FLAG (eFlag h) PVRSRV_HANDLE_ALLOC_FLAG_MULTI) &&
               negb (BATCHED_HANDLE_PARTIALLY_FREE h))
        (HASH_Remove_Key aKey;; mret tt);;
      UnlinkFromParent psHandle;;
      eError ← IterateOverChildren psHandle (FreeHandle fuel);
      if negb (eError =? PVRSRV_OK) then mret eError else
      hstore psHandle (set_eType PVRSRV_HANDLE_TYPE_NONE);;
      h ← hload psHandle id;
      if BATCHED_HANDLE h && negb (BATCHED_HANDLE_PARTIALLY_FREE h) then
        hstore psHandle SET_BATCHED_HANDLE_PARTIALLY_FREE;;
        mret PVRSRV_OK
      else
        free_handle_struct index;;
        mret PVRSRV_OK
  end.

Definition Free_Handle (psHandle : Z) : HB Z := fuel ← base handle_fuel; FreeHandle fuel psHandle.

(** The loop of [FreeAllHandles], from position [i] on. *)
Fixpoint free_all_loop (n : nat) (i : Z) : HB Z :=
  total ← base ui32TotalHandCount;
  if negb (i <? total) then mret PVRSRV_OK else
  match n with
  | O => hb_fault OutOfFuel
  | S n =>
      t ← hload i eType;
      if is_none t then free_all_loop n (add32 i 1) else
      eError ← Free_Handle i;
      if negb (eError =? PVRSRV_OK) then mret eError else
      done ← base (fun s => ui32FreeHandCount s =? ui32TotalHandCount s);
      if (done : bool) then mret eError else free_all_loop n (add32 i 1)
  end.

Definition FreeAllHandles : HB Z :=
  done ← base (fun s => ui32FreeHandCount s =? ui32TotalHandCount s);
  if (done : bool) then mret PVRSRV_OK else
  fuel ← base handle_fuel;
  free_all_loop fuel 0.

(** ** Allocation *)

(** The scan of one block for a free structure: the index it stops at and the
    last structure it looked at. *)
Fixpoint scan_block (n : nat) (ui32NewIndex : Z) (psNewHandle : option Z) : HB (Z * option Z) :=
  match n with
  | O => mret (ui32NewIndex, psNewHandle)
  | S n =>
      h ← hload ui32NewIndex id;
      if HANDLE_STRUCT_IS_FREE h then mret (ui32NewIndex, Some ui32NewIndex)
      else scan_block n (add32 ui32NewIndex 1) (Some ui32NewIndex)
  end.

(** The scan over the blocks: finding a free structure leaves the inner loop
    only. *)
Fixpoint scan_blocks (n : nat) (ui32BlockedIndex ui32NewIndex : Z) (psNewHandle : option Z)
    : HB (Z * option Z) :=
  total ← base ui32TotalHandCount;
  if negb (ui32BlockedIndex <? total) then mret (ui32NewIndex, psNewHandle) else
  match n with
  | O => hb_fault OutOfFuel
  | S n =>
      c ← block_count ui32BlockedIndex;
      if c =? 0 then scan_blocks n (add32 ui32BlockedIndex HANDLE_BLOCK_SIZE) ui32NewIndex psNewHandle
      else
        '(ui32NewIndex, psNewHandle) ←
          scan_block (Z.to_nat HANDLE_BLOCK_SIZE) ui32BlockedIndex psNewHandle;
        scan_blocks n (add32 ui32BlockedIndex HANDLE_BLOCK_SIZE) ui32NewIndex psNewHandle
  end.

(** Which index and structure the new handle gets. *)
Definition pick_handle : HB (Z * option Z) :=
  purging ← base bPurgingEnabled;
  first ← base ui32FirstFreeIndex;
  if negb purging then mret (first, Some first) else
  fuel ← base handle_fuel;
  r ← scan_blocks fuel (ROUND_DOWN_TO_MULTIPLE_OF_BLOCK_SIZE first) DEFAULT_MAX_INDEX_PLUS_ONE None;
  modify (set_ui32FirstFreeIndex 0);;
  mret r.

Definition deref (p : option Z) : HB Z :=
  match p with Some p => mret p | None => hb_fault OutOfBounds end.

(** The counts and the head of the free list after an allocation. *)
Definition take_handle (ui32NewIndex : Z) (psNewHandle : option Z) : HB unit :=
  modify (fun s => set_ui32FreeHandCount (sub32 (ui32FreeHandCount s) 1) s);;
  count_block ui32NewIndex (fun c => sub32 c 1);;
  purging ← base bPurgingEnabled;
  hb_when (negb purging)
    (free ← base ui32FreeHandCount;
     if free =? 0 then
       modify (set_ui32LastFreeIndexPlusOne 0);;
       modify (set_ui32FirstFreeIndex 0)
     else
       p ← deref psNewHandle;
       next ← hload p ui32NextIndexPlusOne;
       modify (set_ui32FirstFreeIndex
                 (if next =? 0 then add32 ui32NewIndex 1 else sub32 next 1))).

(** The fields of the new handle. *)
Definition init_new_handle (psNewHandle : option Z) (ui32NewIndex data : Z) (type : PVRSRV_HANDLE_TYPE)
    (flag : Z) : HB unit :=
  p ← deref psNewHandle;
  hstore p (set_eType type);;
  hstore p (set_pvData data);;
  hstore p (set_eInternalFlag INTERNAL_HANDLE_FLAG_NONE);;
  hstore p (set_eFlag flag);;
  InitParentList p;;
  InitChildEntry p;;
  batched ← base HANDLES_BATCHED;
  if (batched : bool) then
    first ← base ui32FirstBatchIndexPlusOne;
    hstore p (set_ui32NextIndexPlusOne first);;
    modify (set_ui32FirstBatchIndexPlusOne (add32 ui32NewIndex 1));;
    hstore p SET_BATCHED_HANDLE
  else hstore p (set_ui32NextIndexPlusOne 0).

(** The error and the handle ([*phHandle], 0 when it is not written). *)
Definition AllocHandle (data : Z) (type : PVRSRV_HANDLE_TYPE) (flag parent : Z) : HB (Z * Z) :=
  eError ← EnsureFreeHandles 1;
  if negb (eError =? PVRSRV_OK) then mret (eError, 0) else
  '(ui32NewIndex, psNewHandle) ← pick_handle;
  let hHandle := INDEX_TO_HANDLE ui32NewIndex in
  ok ← (if negb (TEST_FLAG flag PVRSRV_HANDLE_ALLOC_FLAG_MULTI)
        then HASH_Insert_Key (InitKey data type parent) hHandle else mret true);
  if negb ok then mret (PVRSRV_ERROR_UNABLE_TO_ADD_HANDLE, 0) else
  take_handle ui32NewIndex psNewHandle;;
  init_new_handle psNewHandle ui32NewIndex data type flag;;
  mret (PVRSRV_OK, hHandle).

(** [psBase->ui32BatchHandAllocFailures] goes up before an allocation in a batch
    and down after its success. *)
Definition count_failure (f : Z -> Z) : HB unit :=
  batched ← base HANDLES_BATCHED;
  hb_when batched
    (modify (fun s => set_ui32BatchHandAllocFailures (f (ui32BatchHandAllocFailures s)) s)).

Definition PVRSRVAllocHandle (data : Z) (type : PVRSRV_HANDLE_TYPE) (flag : Z) : HB (Z * Z) :=
  count_failure (fun n => add32 n 1);;
  hHandle ← (if negb (TEST_FLAG flag PVRSRV_HANDLE_ALLOC_FLAG_MULTI)
             then FindHandle data type 0 else mret 0);
  if negb (hHandle =? 0) then
    '(eError, p) ← GetHandleStructure hHandle type;
    if negb (eError =? PVRSRV_OK) then mret (eError, 0) else
    f ← hload p eFlag;
    if TEST_FLAG (Z.land f flag) PVRSRV_HANDLE_ALLOC_FLAG_SHARED then
      count_failure (fun n => sub32 n 1);;
      mret (PVRSRV_OK, hHandle)
    else mret (PVRSRV_ERROR_HANDLE_NOT_SHAREABLE, 0)
  else
    '(eError, hHandle) ← AllocHandle data type flag 0;
    hb_when (eError =? PVRSRV_OK) (count_failure (fun n => sub32 n 1));;
    mret (eError, hHandle).

Definition PVRSRVAllocSubHandle (data : Z) (type : PVRSRV_HANDLE_TYPE) (flag parent : Z) : HB (Z * Z) :=
  count_failure (fun n => add32 n 1);;
  let hParentKey := if TEST_FLAG flag PVRSRV_HANDLE_ALLOC_FLAG_PRIVATE then parent else 0 in
  '(eError, _) ← GetHandleStructure parent PVRSRV_HANDLE_TYPE_NONE;
  if negb (eError =? PVRSRV_OK) then mret (eError, 0) else
  hHandle ← (if negb (TEST_FLAG flag PVRSRV_HANDLE_ALLOC_FLAG_MULTI)
             then FindHandle data type hParentKey else mret 0);
  if negb (hHandle =? 0) then
    '(eErr, p) ← GetHandleStructure hHandle type;
    if negb (eErr =? PVRSRV_OK) then mret (eErr, 0) else
    f ← hload p eFlag;
    pp ← ParentHandle (HANDLE_TO_INDEX hHandle);
    if TEST_FLAG (Z.land f flag) PVRSRV_HANDLE_ALLOC_FLAG_SHARED && (pp =? parent) then
      count_failure (fun n => sub32 n 1);;
      mret (PVRSRV_OK, hHandle)
    else mret (PVRSRV_ERROR_HANDLE_NOT_SHAREABLE, 0)
  else
    '(eError, hHandle) ← AllocHandle data type flag hParentKey;
    if negb (eError =? PVRSRV_OK) then mret (eError, 0) else
    AdoptChild (HANDLE_TO_INDEX parent) (HANDLE_TO_INDEX hHandle);;
    count_failure (fun n => sub32 n 1);;
    mret (PVRSRV_OK, hHandle).

(** ** Lookup and release

    What a call writes through its pointers is an option, [None] when it writes
    nothing. *)

Definition PVRSRVFindHandle (data : Z) (type : PVRSRV_HANDLE_TYPE) : HB (Z * option Z) :=
  hHandle ← FindHandle data type 0;
  if hHandle =? 0 then mret (PVRSRV_ERROR_HANDLE_NOT_FOUND, None)
  else mret (PVRSRV_OK, Some hHandle).

Definition PVRSRVLookupHandleAnyType (hHandle : Z) : HB (Z * option (Z * PVRSRV_HANDLE_TYPE)) :=
  '(eError, p) ← GetHandleStructure hHandle PVRSRV_HANDLE_TYPE_NONE;
  if negb (eError =? PVRSRV_OK) then mret (eError, None) else
  data ← hload p pvData;
  type ← hload p eType;
  mret (PVRSRV_OK, Some (data, type)).

Definition PVRSRVLookupHandle (hHandle : Z) (type : PVRSRV_HANDLE_TYPE) : HB (Z * option Z) :=
  '(eError, p) ← GetHandleStructure hHandle type;
  if negb (eError =? PVRSRV_OK) then mret (eError, None) else
  data ← hload p pvData;
  mret (PVRSRV_OK, Some data).

(** The walk up the parents. *)
Fixpoint ancestor_loop (fuel : nat) (psPHand hAncestor : Z) : HB Z :=
  parent ← ParentHandle psPHand;
  if parent =? hAncestor then mret PVRSRV_OK else
  match fuel with
  | O => hb_fault OutOfFuel
  | S fuel =>
      '(eError, p) ← GetHandleStructure parent PVRSRV_HANDLE_TYPE_NONE;
      if negb (eError =? PVRSRV_OK) then mret PVRSRV_ERROR_INVALID_SUBHANDLE
      else ancestor_loop fuel p hAncestor
  end.

Definition PVRSRVLookupSubHandle (hHandle : Z) (type : PVRSRV_HANDLE_TYPE) (hAncestor : Z)
    : HB (Z * option Z) :=
  '(eError, psCHand) ← GetHandleStructure hHandle type;
  if negb (eError =? PVRSRV_OK) then mret (eError, None) else
  fuel ← base handle_fuel;
  eError ← ancestor_loop fuel psCHand hAncestor;
  if negb (eError =? PVRSRV_OK) then mret (eError, None) else
  data ← hload psCHand pvData;
  mret (PVRSRV_OK, Some data).

Definition PVRSRVGetParentHandle (hHandle : Z) (type : PVRSRV_HANDLE_TYPE) : HB (Z * option Z) :=
  '(eError, p) ← GetHandleStructure hHandle type;
  if negb (eError =? PVRSRV_OK) then mret (eError, None) else
  parent ← ParentHandle p;
  mret (PVRSRV_OK, Some parent).

Definition PVRSRVLookupAndReleaseHandle (hHandle : Z) (type : PVRSRV_HANDLE_TYPE)
    : HB (Z * option Z) :=
  '(eError, p) ← GetHandleStructure hHandle type;
  if negb (eError =? PVRSRV_OK) then mret (eError, None) else
  data ← hload p pvData;
  eError ← Free_Handle p;
  mret (eError, Some data).

Definition PVRSRVReleaseHandle (hHandle : Z) (type : PVRSRV_HANDLE_TYPE) : HB Z :=
  '(eError, p) ← GetHandleStructure hHandle type;
  if negb (eError =? PVRSRV_OK) then mret eError else
  Free_Handle p.

(** ** Batches *)

Definition PVRSRVNewHandleBatch (ui32BatchSize : Z) : HB Z :=
  batched ← base HANDLES_BATCHED;
  if (batched : bool) then mret PVRSRV_ERROR_HANDLE_BATCH_IN_USE else
  if ui32BatchSize =? 0 then mret PVRSRV_ERROR_INVALID_PARAMS else
  eError ← EnsureFreeHandles ui32BatchSize;
  if negb (eError =? PVRSRV_OK) then mret eError else
  modify (set_ui32HandBatchSize ui32BatchSize);;
  modify (fun s => set_ui32TotalHandCountPreBatch (ui32TotalHandCount s) s);;
  mret PVRSRV_OK.

(** The loop over the handles of the batch. *)
Fixpoint batch_loop (fuel : nat) (bCommitBatch : bool) (ui32IndexPlusOne : Z) : HB unit :=
  if ui32IndexPlusOne =? 0 then mret tt else
  match fuel with
  | O => hb_fault OutOfFuel
  | S fuel =>
      let psHandle := sub32 ui32IndexPlusOne 1 in
      next ← hload psHandle ui32NextIndexPlusOne;
      hstore psHandle (set_ui32NextIndexPlusOne 0);;
      h ← hload psHandle id;
      (if negb bCommitBatch || BATCHED_HANDLE_PARTIALLY_FREE h then
         hb_when (negb (BATCHED_HANDLE_PARTIALLY_FREE h)) (hstore psHandle SET_UNBATCHED_HANDLE);;
         Free_Handle psHandle;; mret tt
       else hstore psHandle SET_UNBATCHED_HANDLE);;
      batch_loop fuel bCommitBatch next
  end.

Definition PVRSRVHandleBatchCommitOrRelease (bCommit : bool) : HB Z :=
  batched ← base HANDLES_BATCHED;
  if negb batched then mret PVRSRV_ERROR_INVALID_PARAMS else
  failures ← base ui32BatchHandAllocFailures;
  let bCommitBatch := if negb (failures =? 0) then false else bCommit in
  first ← base ui32FirstBatchIndexPlusOne;
  fuel ← base handle_fuel;
  batch_loop fuel bCommitBatch first;;
  modify (set_ui32HandBatchSize 0);;
  modify (set_ui32FirstBatchIndexPlusOne 0);;
  modify (set_ui32TotalHandCountPreBatch 0);;
  modify (set_ui32BatchHandAllocFailures 0);;
  failures ← base ui32BatchHandAllocFailures;
  if negb (failures =? 0) && bCommit then mret PVRSRV_ERROR_HANDLE_BATCH_COMMIT_FAILURE
  else mret PVRSRV_OK.

Definition PVRSRVCommitHandleBatch : HB Z := PVRSRVHandleBatchCommitOrRelease true.

Definition PVRSRVReleaseHandleBatch : HB unit :=
  PVRSRVHandleBatchCommitOrRelease false;; mret tt.

(** ** Limits and purging *)

Definition PVRSRVSetMaxHandle (ui32MaxHandle : Z) : HB Z :=
  batched ← base HANDLES_BATCHED;
  if (batched : bool) then mret PVRSRV_ERROR_INVALID_PARAMS else
  if (ui32MaxHandle =? 0) || (DEFAULT_MAX_HANDLE <? ui32MaxHandle)
  then mret PVRSRV_ERROR_INVALID_PARAMS else
  total ← base ui32TotalHandCount;
  if negb (total =? 0) then mret PVRSRV_ERROR_INVALID_PARAMS else
  let ui32MaxHandleRounded := ROUND_DOWN_TO_MULTIPLE_OF_BLOCK_SIZE ui32MaxHandle in
  max ← base ui32MaxIndexPlusOne;
  hb_when (negb (ui32MaxHandleRounded =? 0) && (ui32MaxHandleRounded <? max))
    (modify (set_ui32MaxIndexPlusOne ui32MaxHandleRounded));;
  mret PVRSRV_OK.

Definition PVRSRVGetMaxHandle : HB Z := base ui32MaxIndexPlusOne.

Definition PVRSRVEnableHandlePurging : HB Z :=
  purging ← base bPurgingEnabled;
  if (purging : bool) then mret PVRSRV_OK else
  total ← base ui32TotalHandCount;
  if negb (total =? 0) then mret PVRSRV_ERROR_INVALID_PARAMS else
  modify (set_bPurgingEnabled true);;
  mret PVRSRV_OK.

(** The scan back over the blocks that are entirely free. *)
Fixpoint purge_scan (ui32BlockIndex : nat) : HB Z :=
  match ui32BlockIndex with
  | O => mret 0
  | S n =>
      a ← base psHandleArray;
      ix ← hb_lift (rd a (Z.of_nat n));
      if negb (ui32FreeHandBlockCount ix =? HANDLE_BLOCK_SIZE)
      then mret (Z.of_nat ui32BlockIndex) else purge_scan n
  end.

Definition PVRSRVPurgeHandles : HB Z :=
  purging ← base bPurgingEnabled;
  if negb purging then mret PVRSRV_ERROR_NOT_SUPPORTED else
  batched ← base HANDLES_BATCHED;
  if (batched : bool) then mret PVRSRV_ERROR_INVALID_PARAMS else
  total ← base ui32TotalHandCount;
  ui32BlockIndex ← purge_scan (Z.to_nat (DIVIDE_BY_BLOCK_SIZE total));
  let ui32NewHandCount := MULTIPLY_BY_BLOCK_SIZE ui32BlockIndex in
  if ui32NewHandCount <=? total / 2 then
    eError ← ReallocHandleArray ui32NewHandCount;
    if negb (eError =? PVRSRV_OK) then mret eError else mret PVRSRV_OK
  else mret PVRSRV_OK.

(** ** Handle bases *)

(** The error, and whether the hash table was deleted with entries in it. *)
Definition FreeHandleBase : HB (Z * bool) :=
  batched ← base HANDLES_BATCHED;
  hb_when batched PVRSRVReleaseHandleBatch;;
  eError ← FreeAllHandles;
  if negb (eError =? PVRSRV_OK) then mret (eError, false) else
  eError ← FreeHandleArray;
  if negb (eError =? PVRSRV_OK) then mret (eError, false) else
  o ← base psHashTab;
  mret (PVRSRV_OK, match o with Some h => hm_leaks h | None => false end).

Definition PVRSRVFreeHandleBase : HB (Z * bool) := FreeHandleBase.

(** The base that [OSMemSet] clears, with the coming outcomes of the allocator. *)
Definition zero_base (al : list alloc_result) : PVRSRV_HANDLE_BASE H :=
  mk_base [] None 0 0 0 0 0 0 0 0 0 false al.

(** The error, and the base unless there is one. *)
Definition PVRSRVAllocHandleBase (al : list alloc_result)
    : outcome (Z * option (PVRSRV_HANDLE_BASE H)) :=
  '(got, s) ← alloc_ok (zero_base al);
  if negb got then Ok (PVRSRV_ERROR_OUT_OF_MEMORY, None) else
  '(alloc_hash, s) ← alloc_ok s;
  '(alloc_table, s) ← alloc_ok s;
  match hm_create alloc_hash alloc_table with
  | None =>
      '(_, _) ← PVRSRVFreeHandleBase s;
      Ok (PVRSRV_ERROR_UNABLE_TO_CREATE_HASH_TABLE, None)
  | Some h =>
      Ok (PVRSRV_OK,
          Some (set_ui32MaxIndexPlusOne DEFAULT_MAX_INDEX_PLUS_ONE (set_psHashTab (Some h) s)))
  end.

(** The kernel's own base, [gpsKernelHandleBase]. *)
Definition PVRSRVHandleDeInit (kernel : option (PVRSRV_HANDLE_BASE H))
    : outcome (Z * option (PVRSRV_HANDLE_BASE H)) :=
  match kernel with
  | None => Ok (PVRSRV_OK, None)
  | Some b =>
      '(eError, _, b) ← FreeHandleBase b;
      if eError =? PVRSRV_OK then Ok (eError, None) else Ok (eError, Some b)
  end.

Definition PVRSRVHandleInit (al : list alloc_result) : outcome (Z * option (PVRSRV_HANDLE_BASE H)) :=
  '(eError, kernel) ← PVRSRVAllocHandleBase al;
  match kernel with
  | Some b =>
      '(eError, b) ← PVRSRVEnableHandlePurging b;
      if eError =? PVRSRV_OK then Ok (PVRSRV_OK, Some b) else
      '(_, kernel) ← PVRSRVHandleDeInit (Some b);
      Ok (eError, kernel)
  | None =>
      '(_, kernel) ← PVRSRVHandleDeInit None;
      Ok (eError, kernel)
  end.

End Handle.

#[export] Existing Instance HB_ret.
#[export] Existing Instance HB_bind.
