(* ===== verification/PvrHandleArray.v ===== *)
(** * The handle array

    The arithmetic of block indices, and the array of a handle base as a partial
    function [hnd] from positions to structures, with what reads and writes of
    structures and of block counts do to it. *)

From stdpp Require Import base list numbers option gmap.
From Stdlib Require Import ZArith Lia.
From S2P Require Import Prelude PvrHash PvrHandleMap PvrHandle.

Local Open Scope Z_scope.

Section Array.
Context {H : Type} {HM : HandleMap H} {BSH : BlockShift}.

(** ** Block arithmetic *)

Abbreviation BS := HANDLE_BLOCK_SIZE.

Lemma BS_pow : BS = 2 ^ HANDLE_BLOCK_SHIFT.
Proof.
  pose proof block_shift_range. unfold BS, MULTIPLY_BY_BLOCK_SIZE. rewrite Z.shiftl_1_l.
  apply wrapU_small. split; [apply Z.pow_nonneg; lia|]. apply Z.pow_lt_mono_r; lia.
Qed.

Lemma BS_range : 1 < BS <= 2 ^ 16.
Proof.
  rewrite BS_pow. pose proof block_shift_range. split; [apply Z.pow_gt_1; lia|].
  apply Z.pow_le_mono_r; lia.
Qed.

Lemma block_div i : DIVIDE_BY_BLOCK_SIZE i = i / BS.
Proof. unfold DIVIDE_BY_BLOCK_SIZE. rewrite Z.shiftr_div_pow2, BS_pow; [done|]. pose proof block_shift_range. lia. Qed.

Lemma mask_ones : HANDLE_SUB_BLOCK_MASK = Z.ones HANDLE_BLOCK_SHIFT.
Proof.
  unfold HANDLE_SUB_BLOCK_MASK. pose proof BS_range. rewrite wrapU_small by lia.
  rewrite Z.ones_equiv, BS_pow. lia.
Qed.

Lemma sub_mod i : INDEX_TO_SUB_BLOCK_INDEX i = i mod BS.
Proof.
  unfold INDEX_TO_SUB_BLOCK_INDEX. rewrite mask_ones, BS_pow.
  apply Z.land_ones. pose proof block_shift_range. lia.
Qed.

Lemma block_mask : HANDLE_BLOCK_MASK = Z.shiftl (Z.ones (32 - HANDLE_BLOCK_SHIFT)) HANDLE_BLOCK_SHIFT.
Proof.
  pose proof block_shift_range. unfold HANDLE_BLOCK_MASK. rewrite mask_ones, !Z.ones_equiv.
  rewrite Z.shiftl_mul_pow2 by lia.
  assert (2 ^ 32 = 2 ^ (32 - HANDLE_BLOCK_SHIFT) * 2 ^ HANDLE_BLOCK_SHIFT) as ->; [|lia].
  rewrite <- Z.pow_add_r by lia. f_equal. lia.
Qed.

Lemma round_down_eq a : 0 <= a < 2 ^ 32 -> ROUND_DOWN_TO_MULTIPLE_OF_BLOCK_SIZE a = BS * (a / BS).
Proof.
  intros Ha. pose proof block_shift_range. unfold ROUND_DOWN_TO_MULTIPLE_OF_BLOCK_SIZE.
  rewrite block_mask. replace (BS * (a / BS)) with (Z.shiftl (Z.shiftr a HANDLE_BLOCK_SHIFT) HANDLE_BLOCK_SHIFT)
    by (rewrite Z.shiftl_mul_pow2, Z.shiftr_div_pow2, BS_pow by lia; lia).
  apply Z.bits_inj'. intros n Hn. rewrite Z.land_spec.
  destruct (Z.lt_ge_cases n HANDLE_BLOCK_SHIFT).
  - by rewrite !Z.shiftl_spec_low by lia.
  - rewrite !Z.shiftl_spec, Z.shiftr_spec by lia. replace (n - _ + _) with n by lia.
    destruct (Z.lt_ge_cases n 32).
    + rewrite Z.ones_spec_low by lia. done.
    + rewrite Z.ones_spec_high by lia. cbn. symmetry.
      apply Z.bits_above_log2; [lia|]. apply Z.lt_le_trans with 32; [|lia].
      destruct (Z.eq_dec a 0) as [->|]; [done|]. apply Z.log2_lt_pow2; lia.
Qed.

Lemma round_up_eq a :
  0 <= a -> a + BS < 2 ^ 32 -> ROUND_UP_TO_MULTIPLE_OF_BLOCK_SIZE a = BS * ((a + BS - 1) / BS).
Proof.
  intros Ha Hb. pose proof BS_range. unfold ROUND_UP_TO_MULTIPLE_OF_BLOCK_SIZE.
  rewrite wrapU_small by lia. apply round_down_eq. lia.
Qed.

Lemma array_size_eq a :
  0 <= a -> a + BS < 2 ^ 32 -> a mod BS = 0 -> HANDLE_ARRAY_SIZE a = a / BS.
Proof.
  intros Ha Hb Hm. unfold HANDLE_ARRAY_SIZE. rewrite round_up_eq, block_div by done.
  pose proof BS_range. pose proof (Z.div_mod a BS). rewrite Z.mul_comm, Z.div_mul by lia.
  symmetry. apply (Z.div_unique _ _ _ (BS - 1)); lia.
Qed.

(** ** Structures by position *)

Definition hnd (s : PVRSRV_HANDLE_BASE H) (i : Z) : option sHandle :=
  if i <? 0 then None
  else match psHandleArray s !! Z.to_nat (i / BS) with
       | Some ix =>
           match psHandle ix with Some blk => blk !! Z.to_nat (i mod BS) | None => None end
       | None => None
       end.

(** The array has whole blocks, all allocated, and as many structures as the
    count says. *)
Record array_ok (s : PVRSRV_HANDLE_BASE H) : Prop := mk_array_ok {
  ao_total : ui32TotalHandCount s = BS * Z.of_nat (length (psHandleArray s));
  ao_blocks : forall ix, ix ∈ psHandleArray s ->
    exists blk, psHandle ix = Some blk /\ length blk = Z.to_nat BS;
  ao_max : ui32TotalHandCount s <= ui32MaxIndexPlusOne s;
  ao_max_range : 0 < ui32MaxIndexPlusOne s <= DEFAULT_MAX_HANDLE;
  ao_max_mod : ui32MaxIndexPlusOne s mod BS = 0 }.

Lemma array_total_range s : array_ok s -> 0 <= ui32TotalHandCount s < 2 ^ 31.
Proof.
  intros Ho. pose proof (ao_total _ Ho). pose proof (ao_max _ Ho). pose proof (ao_max_range _ Ho).
  pose proof BS_range. unfold DEFAULT_MAX_HANDLE in *. nia.
Qed.

(** The block of a position and its place in it. *)
Lemma hnd_block s i h :
  hnd s i = Some h -> exists ix blk,
    rd (psHandleArray s) (i / BS) = Ok ix /\ psHandle ix = Some blk /\ rd blk (i mod BS) = Ok h /\
    0 <= i.
Proof.
  unfold hnd. destruct (Z.ltb_spec i 0); [done|]. pose proof BS_range.
  pose proof (Z.div_pos i BS). pose proof (Z.mod_pos_bound i BS).
  destruct (psHandleArray s !! _) as [ix|] eqn:E1; [|done]. cbn. destruct (psHandle ix) as [blk|] eqn:E2; [|done].
  cbn. intros E3. exists ix, blk. split_and!; [apply rd_lookup; [lia|done]|done|apply rd_lookup; [lia|done]|done].
Qed.

Lemma read_handle_hnd s i h : hnd s i = Some h -> read_handle (psHandleArray s) i = Ok h.
Proof.
  intros Hi. destruct (hnd_block _ _ _ Hi) as (ix & blk & H1 & H2 & H3 & _).
  unfold read_handle. rewrite block_div, sub_mod, H1. unfold mbind, outcome_bind. by rewrite H2.
Qed.

Lemma hnd_in_range s i : array_ok s -> is_Some (hnd s i) <-> 0 <= i < ui32TotalHandCount s.
Proof.
  intros Ho. pose proof (ao_total _ Ho) as Ht. pose proof BS_range. unfold hnd. split.
  - intros [h Hh]. destruct (Z.ltb_spec i 0); [done|].
    destruct (psHandleArray s !! _) as [ix|] eqn:E; [|done]. apply lookup_lt_Some in E.
    pose proof (Z.div_mod i BS). pose proof (Z.mod_pos_bound i BS). pose proof (Z.div_pos i BS). nia.
  - intros Hi. destruct (Z.ltb_spec i 0); [lia|].
    destruct (lookup_lt_is_Some_2 (psHandleArray s) (Z.to_nat (i / BS))) as [ix Hix].
    { pose proof (Z.div_pos i BS). assert (i / BS < Z.of_nat (length (psHandleArray s))); [|lia].
      apply Z.div_lt_upper_bound; lia. }
    destruct (ao_blocks _ Ho ix) as (blk & Hb & Hl); [by eapply list_elem_of_lookup_2|].
    rewrite Hix. cbn. rewrite Hb. cbn. apply lookup_lt_is_Some_2.
    pose proof (Z.mod_pos_bound i BS). lia.
Qed.

Lemma hnd_range s i h : array_ok s -> hnd s i = Some h -> 0 <= i < 2 ^ 31.
Proof.
  intros Ho Hi. assert (is_Some (hnd s i)) as Hr by eauto. apply hnd_in_range in Hr; [|done].
  pose proof (array_total_range _ Ho). lia.
Qed.

(** The base with the structure at a position replaced. *)
Definition put (i : Z) (h : sHandle) (s : PVRSRV_HANDLE_BASE H) : PVRSRV_HANDLE_BASE H :=
  set_psHandleArray
    (alter (fun ix => set_psHandle (insert (Z.to_nat (i mod BS)) h <$> psHandle ix) ix)
       (Z.to_nat (i / BS)) (psHandleArray s)) s.

Lemma write_handle_put s i h h' :
  hnd s i = Some h ->
  write_handle (psHandleArray s) i h' = Ok (psHandleArray (put i h' s)).
Proof.
  intros Hi. destruct (hnd_block _ _ _ Hi) as (ix & blk & H1 & H2 & H3 & _).
  apply rd_inv in H3 as [Hr3 _]. unfold write_handle. rewrite block_div, sub_mod, H1.
  unfold mbind, outcome_bind. rewrite H2, wr_ok by done. apply rd_inv in H1 as [Hr1 H1].
  rewrite wr_ok by lia. f_equal. unfold put. cbn [psHandleArray set_psHandleArray].
  apply list_eq. intros j. destruct (decide (j = Z.to_nat (i / BS))) as [->|Hne].
  - rewrite list_lookup_insert_eq by lia. rewrite list_lookup_alter_eq, H1. cbn. by rewrite H2.
  - by rewrite list_lookup_insert_ne, list_lookup_alter_ne by done.
Qed.

Lemma hnd_put s i h h' j :
  hnd s i = Some h -> hnd (put i h' s) j = if decide (j = i) then Some h' else hnd s j.
Proof.
  intros Hi. destruct (hnd_block _ _ _ Hi) as (ix & blk & H1 & H2 & H3 & Hi0).
  apply rd_inv in H1 as [Hr1 H1]. apply rd_inv in H3 as [Hr3 H3]. pose proof BS_range.
  unfold hnd, put. cbn [psHandleArray set_psHandleArray].
  destruct (decide (j = i)) as [->|Hne].
  - destruct (Z.ltb_spec i 0); [lia|]. rewrite list_lookup_alter_eq, H1. cbn. rewrite H2. cbn.
    apply list_lookup_insert_eq. lia.
  - destruct (Z.ltb_spec j 0); [done|].
    destruct (decide (Z.to_nat (j / BS) = Z.to_nat (i / BS))) as [He|He].
    + rewrite He, list_lookup_alter_eq, H1. cbn. rewrite H2. cbn.
      apply list_lookup_insert_ne. intros Hm. apply Hne.
      pose proof (Z.div_pos j BS). pose proof (Z.div_pos i BS).
      pose proof (Z.mod_pos_bound i BS). pose proof (Z.mod_pos_bound j BS).
      rewrite (Z.div_mod i BS), (Z.div_mod j BS) by lia.
      assert (j / BS = i / BS) by lia. assert (j mod BS = i mod BS) by lia. congruence.
    + by rewrite list_lookup_alter_ne by done.
Qed.

Lemma put_array_ok s i h : array_ok s -> array_ok (put i h s).
Proof.
  intros [H1 H2 H3 H4 H5]. constructor; cbn; [by rewrite length_alter|..|done|done|done].
  intros ix Hix. apply list_elem_of_lookup in Hix as [j Hj].
  destruct (decide (j = Z.to_nat (i / BS))) as [->|Hne].
  - rewrite list_lookup_alter_eq in Hj. destruct (_ !! _) as [ix0|] eqn:E; [|done].
    injection Hj as <-. destruct (H2 ix0) as (blk & Hb & Hl); [by eapply list_elem_of_lookup_2|].
    cbn. rewrite Hb. eexists. split; [done|]. by rewrite length_insert.
  - rewrite list_lookup_alter_ne in Hj by done. apply H2. by eapply list_elem_of_lookup_2.
Qed.

(** ** Loads and stores *)

Lemma hload_ok {A} (f : sHandle -> A) s p h : hnd s p = Some h -> hload p f s = Ok (f h, s).
Proof.
  intros Hp. unfold hload, base, hb_lift, mbind, HB_bind, mret, HB_ret.
  by rewrite (read_handle_hnd _ _ _ Hp).
Qed.

Lemma hstore_ok f s p h : hnd s p = Some h -> hstore p f s = Ok (tt, put p (f h) s).
Proof.
  intros Hp. unfold hstore, base, hb_lift, mbind, HB_bind, mret, HB_ret, modify.
  rewrite (read_handle_hnd _ _ _ Hp), (write_handle_put s p h (f h) Hp). done.
Qed.

Lemma lload_ok {A} (f : sHandleList -> A) s p h :
  hnd s p.1 = Some h -> lload p f s = Ok (f (get_list p.2 h), s).
Proof. apply (hload_ok (fun h => f (get_list p.2 h))). Qed.

Lemma lstore_ok f s p h :
  hnd s p.1 = Some h -> lstore p f s = Ok (tt, put p.1 (set_list p.2 (f (get_list p.2 h)) h) s).
Proof. apply (hstore_ok (fun h => set_list p.2 (f (get_list p.2 h)) h)). Qed.

(** ** Block counts *)

Definition cnt (s : PVRSRV_HANDLE_BASE H) (b : Z) : option Z :=
  if b <? 0 then None else ui32FreeHandBlockCount <$> psHandleArray s !! Z.to_nat b.

Definition put_cnt (b c : Z) (s : PVRSRV_HANDLE_BASE H) : PVRSRV_HANDLE_BASE H :=
  set_psHandleArray (alter (set_ui32FreeHandBlockCount c) (Z.to_nat b) (psHandleArray s)) s.

Lemma cnt_put s i h b : cnt (put i h s) b = cnt s b.
Proof.
  unfold cnt, put. cbn [psHandleArray set_psHandleArray]. destruct (b <? 0); [done|].
  destruct (decide (Z.to_nat b = Z.to_nat (i / BS))) as [->|Hne].
  - rewrite list_lookup_alter_eq. by destruct (_ !! _).
  - by rewrite list_lookup_alter_ne by done.
Qed.

Lemma hnd_put_cnt s b c j : hnd (put_cnt b c s) j = hnd s j.
Proof.
  unfold hnd, put_cnt. cbn [psHandleArray set_psHandleArray]. destruct (j <? 0); [done|].
  destruct (decide (Z.to_nat (j / BS) = Z.to_nat b)) as [->|Hne].
  - rewrite list_lookup_alter_eq. by destruct (_ !! _).
  - by rewrite list_lookup_alter_ne by done.
Qed.

Lemma cnt_put_cnt s b c0 c b' :
  cnt s b = Some c0 -> cnt (put_cnt b c s) b' = if decide (b' = b) then Some c else cnt s b'.
Proof.
  unfold cnt, put_cnt. cbn [psHandleArray set_psHandleArray]. intros Hb.
  destruct (Z.ltb_spec b 0); [done|]. destruct (decide (b' = b)) as [->|Hne].
  - destruct (Z.ltb_spec b 0); [lia|]. rewrite list_lookup_alter_eq.
    destruct (_ !! _); [done|discriminate].
  - destruct (Z.ltb_spec b' 0); [done|]. by rewrite list_lookup_alter_ne by lia.
Qed.

Lemma put_cnt_array_ok s b c : array_ok s -> array_ok (put_cnt b c s).
Proof.
  intros [H1 H2 H3 H4 H5]. constructor; cbn; [by rewrite length_alter|..|done|done|done].
  intros ix Hix. apply list_elem_of_lookup in Hix as [j Hj].
  destruct (decide (j = Z.to_nat b)) as [->|Hne].
  - rewrite list_lookup_alter_eq in Hj. destruct (_ !! _) as [ix0|] eqn:E; [|done].
    injection Hj as <-. apply (H2 ix0). by eapply list_elem_of_lookup_2.
  - rewrite list_lookup_alter_ne in Hj by done. apply H2. by eapply list_elem_of_lookup_2.
Qed.

Lemma cnt_rd s b c :
  cnt s b = Some c -> exists ix, rd (psHandleArray s) b = Ok ix /\ ui32FreeHandBlockCount ix = c.
Proof.
  unfold cnt. destruct (Z.ltb_spec b 0); [done|]. destruct (_ !! _) as [ix|] eqn:E; [|done].
  intros [= <-]. exists ix. split; [by apply rd_lookup|done].
Qed.

Lemma block_count_ok s i c : cnt s (i / BS) = Some c -> block_count i s = Ok (c, s).
Proof.
  intros (ix & Hr & <-)%cnt_rd. unfold block_count, base, hb_lift, mbind, HB_bind, mret, HB_ret.
  by rewrite block_div, Hr.
Qed.

Lemma count_block_ok s i c f :
  cnt s (i / BS) = Some c -> count_block i f s = Ok (tt, put_cnt (i / BS) (f c) s).
Proof.
  intros (ix & Hr & <-)%cnt_rd. unfold count_block, base, hb_lift, mbind, HB_bind, mret, HB_ret, modify.
  rewrite block_div, Hr. apply rd_inv in Hr as [Hr Hl]. rewrite wr_ok by done. do 3 f_equal.
  unfold put_cnt. f_equal.
  apply list_eq. intros j. destruct (decide (j = Z.to_nat (i / BS))) as [->|Hne].
  - rewrite list_lookup_insert_eq by lia. by rewrite list_lookup_alter_eq, Hl.
  - by rewrite list_lookup_insert_ne, list_lookup_alter_ne by done.
Qed.

Lemma cnt_in_range s i : array_ok s -> 0 <= i < ui32TotalHandCount s -> is_Some (cnt s (i / BS)).
Proof.
  intros Ho Hi. pose proof (ao_total _ Ho). pose proof BS_range. unfold cnt.
  destruct (Z.ltb_spec (i / BS) 0) as [Hn|_]; [pose proof (Z.div_pos i BS); lia|].
  apply fmap_is_Some, lookup_lt_is_Some_2. pose proof (Z.div_pos i BS).
  assert (i / BS < Z.of_nat (length (psHandleArray s))); [|lia]. apply Z.div_lt_upper_bound; lia.
Qed.

End Array.
