(* ===== verification/PvrHandleForest.v ===== *)
(** * The forest of handles

    The rings and trees of handles, then the list operations that keep them. *)

From stdpp Require Import base list numbers option gmap relations.
From Stdlib Require Import ZArith Lia.
From S2P Require Import Prelude PvrHash PvrHandleMap PvrHandle PvrHandleArray.

Local Open Scope Z_scope.

(** * The forest of handles

    The children of a handle are a circular list through the structures: the
    parent's [sChildren] and the [sSiblings] of the children, linked by
    positions.  [forest t K] says that the links [t] of the structures in use
    form the lists [K], one for each structure, and that the parents form no
    cycle: every structure has the list of its subtree in the order in which
    [FreeHandle] frees it ([post]).  Then the operations of handle.c on the links
    are operations on [K]. *)

(** ** Subtrees *)

Section Post.
Context (K : Z -> list Z).

(** The nodes of the subtree at [p], every node after its children. *)
Inductive post : Z -> list Z -> Prop :=
| post_node p l : posts (K p) l -> post p (l ++ [p])
with posts : list Z -> list Z -> Prop :=
| posts_nil : posts [] []
| posts_cons c cs l1 l2 : post c l1 -> posts cs l2 -> posts (c :: cs) (l1 ++ l2).

Scheme post_mut := Minimality for post Sort Prop
  with posts_mut := Minimality for posts Sort Prop.
Combined Scheme post_posts_ind from post_mut, posts_mut.

Lemma post_self p l : post p l -> p ∈ l.
Proof. destruct 1. set_solver. Qed.

Lemma posts_app cs1 cs2 l1 l2 : posts cs1 l1 -> posts cs2 l2 -> posts (cs1 ++ cs2) (l1 ++ l2).
Proof.
  revert l1. induction cs1 as [|c cs1 IH]; intros l1 H1 H2; inversion H1; subst; cbn; [done|].
  rewrite <- app_assoc. constructor; [done|]. by apply IH.
Qed.

Lemma post_functional p l l' : post p l -> post p l' -> l = l'.
Proof.
  revert p l l'. cut ((forall p l, post p l -> forall l', post p l' -> l = l') /\
    (forall cs l, posts cs l -> forall l', posts cs l' -> l = l')); [naive_solver|].
  apply post_posts_ind.
  - intros p l _ IH l' Hl'. inversion Hl' as [? l0 Hl0]; subst. by rewrite (IH _ Hl0).
  - intros l' Hl'. by inversion Hl'.
  - intros c cs l1 l2 _ IH1 _ IH2 l' Hl'. inversion Hl' as [|? ? l1' l2' Hl1 Hl2]; subst.
    by rewrite (IH1 _ Hl1), (IH2 _ Hl2).
Qed.

Lemma posts_elem cs l x : posts cs l -> x ∈ l -> exists c lc, c ∈ cs /\ post c lc /\ x ∈ lc /\ (length lc <= length l)%nat /\ lc ⊆ l.
Proof.
  induction 1 as [|c cs l1 l2 H1 H2 IH]; intros Hx; [by apply elem_of_nil in Hx|].
  apply elem_of_app in Hx as [Hx|Hx].
  - exists c, l1. rewrite length_app. split_and!; [set_solver|done|done|lia|set_solver].
  - destruct (IH Hx) as (c' & lc & ? & ? & ? & ? & ?). exists c', lc. rewrite length_app.
    split_and!; [set_solver|done|done|lia|set_solver].
Qed.

Lemma posts_child cs l c : posts cs l -> c ∈ cs -> exists lc, post c lc /\ (length lc <= length l)%nat /\ lc ⊆ l.
Proof.
  induction 1 as [|c' cs l1 l2 H1 H2 IH]; intros Hc; [by apply elem_of_nil in Hc|].
  rewrite length_app. apply elem_of_cons in Hc as [->|Hc].
  - exists l1. split_and!; [done|lia|set_solver].
  - destruct (IH Hc) as (lc & ? & ? & ?). exists lc. split_and!; [done|lia|set_solver].
Qed.

(** Subtrees of nodes of a subtree, and of children. *)
Lemma post_sub p l x : post p l -> x ∈ l -> exists lx, post x lx /\ (length lx <= length l)%nat /\ lx ⊆ l.
Proof.
  intros Hp. revert x. remember (length l) as n eqn:Hn. revert p l Hn Hp.
  induction (lt_wf n) as [n _ IH]. intros p l -> Hp x Hx. inversion Hp as [? l0 Hl0]; subst.
  rewrite length_app in IH |- *. cbn [length] in IH |- *.
  apply elem_of_app in Hx as [Hx|Hx].
  - destruct (posts_elem _ _ _ Hl0 Hx) as (c & lc & Hc & Hlc & Hxc & Hlen & Hsub).
    destruct (IH (length lc) ltac:(lia) c lc eq_refl Hlc x Hxc) as (lx & ? & ? & ?).
    exists lx. split_and!; [done|lia|set_solver].
  - apply list_elem_of_singleton in Hx as ->. exists (l0 ++ [p]). rewrite length_app. cbn. done.
Qed.

Lemma post_child_shorter p l c lc : post p l -> c ∈ K p -> post c lc -> (length lc < length l)%nat /\ lc ⊆ l.
Proof.
  intros Hp Hc Hlc. inversion Hp as [? l0 Hl0]; subst.
  destruct (posts_child _ _ _ Hl0 Hc) as (lc' & Hlc' & Hlen & Hsub).
  rewrite (post_functional _ _ _ Hlc Hlc'), length_app. cbn. split; [lia|set_solver].
Qed.

Lemma post_closed p l q c : post p l -> q ∈ l -> c ∈ K q -> c ∈ l.
Proof.
  intros Hp Hq Hc. destruct (post_sub _ _ _ Hp Hq) as (lq & Hlq & _ & Hsub).
  inversion Hlq as [? l0 Hl0]; subst. destruct (posts_child _ _ _ Hl0 Hc) as (lc & Hlc & _ & Hsub').
  apply post_self in Hlc. set_solver.
Qed.

(** A node is not a child in its own subtree. *)
Lemma post_acyclic p l q : post p l -> q ∈ l -> p ∉ K q.
Proof.
  intros Hp Hq Hc. destruct (post_sub _ _ _ Hp Hq) as (lq & Hlq & Hlen & _).
  destruct (post_child_shorter _ _ _ _ Hlq Hc Hp). lia.
Qed.

(** Going up from a node of the subtree leads to its root. *)
Lemma post_up p l x : post p l -> x ∈ l -> rtc (fun x y => x ∈ K y) x p.
Proof.
  intros Hp. remember (length l) as n eqn:Hn. revert x p l Hn Hp.
  induction (lt_wf n) as [n _ IH]. intros x p l -> Hp Hx. inversion Hp as [? l0 Hl0]; subst.
  rewrite length_app in IH. cbn [length] in IH.
  apply elem_of_app in Hx as [Hx|Hx]; [|by apply list_elem_of_singleton in Hx as ->].
  destruct (posts_elem _ _ _ Hl0 Hx) as (c & lc & Hc & Hlc & Hxc & Hlen & _).
  apply rtc_r with c; [|done]. by apply (IH (length lc) ltac:(lia) x c lc).
Qed.

Lemma post_down p l x : post p l -> rtc (fun x y => x ∈ K y) x p -> x ∈ l.
Proof.
  intros Hp. induction 1 as [|x y z Hxy _ IH]; [by apply post_self|].
  eapply post_closed; [exact Hp|by apply IH|done].
Qed.
End Post.

(** The subtree depends on the children of its nodes only. *)
Lemma post_ext K K' p l : post K p l -> (forall q, q ∈ l -> K' q = K q) -> post K' p l.
Proof.
  revert p l. cut ((forall p l, post K p l -> (forall q, q ∈ l -> K' q = K q) -> post K' p l) /\
    (forall cs l, posts K cs l -> (forall q, q ∈ l -> K' q = K q) -> posts K' cs l)); [naive_solver|].
  apply post_posts_ind.
  - intros p l _ IH Hk. constructor. rewrite Hk by set_solver. apply IH. set_solver.
  - constructor.
  - intros c cs l1 l2 _ IH1 _ IH2 Hk. constructor; [apply IH1|apply IH2]; set_solver.
Qed.

Lemma posts_ext K K' cs l : posts K cs l -> (forall q, q ∈ l -> K' q = K q) -> posts K' cs l.
Proof.
  induction 1 as [|c cs l1 l2 H1 H2 IH]; intros Hk; [constructor|].
  constructor; [|apply IH; set_solver]. eapply post_ext; [exact H1|set_solver].
Qed.

(** Pruning the lists of children keeps subtrees finite. *)
Lemma post_filter K (P : Z -> Prop) `{forall x, Decision (P x)} p l :
  post K p l -> exists l', post (fun q => filter P (K q)) p l'.
Proof.
  revert p l. set (K' := fun q => filter P (K q)).
  cut ((forall p l, post K p l -> exists l', post K' p l') /\
    (forall cs l, posts K cs l -> exists l', posts K' (filter P cs) l')); [naive_solver|].
  apply post_posts_ind.
  - intros p l _ [l' IH]. exists (l' ++ [p]). by constructor.
  - exists []. constructor.
  - intros c cs l1 l2 _ [l1' IH1] _ [l2' IH2]. rewrite filter_cons. destruct (decide (P c)).
    + exists (l1' ++ l2'). by constructor.
    + by exists l2'.
Qed.

(** A new leaf under [p]. *)
Lemma post_adopt K p c q l :
  K c = [] -> post K q l -> p <> c ->
  exists l', post (fun x => if decide (x = p) then K x ++ [c] else K x) q l'.
Proof.
  intros Hc Hq Hpc. set (K' := fun x => if decide (x = p) then K x ++ [c] else K x). revert q l Hq.
  cut ((forall q l, post K q l -> exists l', post K' q l') /\
    (forall cs l, posts K cs l -> exists l', posts K' cs l')); [naive_solver|].
  apply post_posts_ind.
  - intros q l _ [l' IH]. destruct (decide (q = p)) as [->|Hne].
    + exists ((l' ++ [c]) ++ [p]). constructor. unfold K'. rewrite decide_True by done.
      apply posts_app; [done|]. replace [c] with (([] ++ [c]) ++ []) at 2 by done.
      constructor; [|constructor]. constructor. unfold K'.
      rewrite decide_False by congruence. rewrite Hc. constructor.
    + exists (l' ++ [q]). constructor. unfold K'. by rewrite decide_False.
  - exists []. constructor.
  - intros c' cs l1 l2 _ [l1' IH1] _ [l2' IH2]. exists (l1' ++ l2'). by constructor.
Qed.

(** ** Links *)

Definition links : Type := Z -> option (sHandleList * sHandleList).

Definition head_or (p : Z) (l : list Z) : Z := default p (head l).
Definition last_or (p : Z) (l : list Z) : Z := default p (last l).

Lemma last_or_mid p l1 x l2 : last_or p (l1 ++ x :: l2) = last_or x l2.
Proof.
  unfold last_or. rewrite last_app_cons, last_cons. by destruct (last l2).
Qed.

Lemma head_or_app p l1 l2 : head_or p (l1 ++ l2) = head_or (head_or p l2) l1.
Proof. unfold head_or. by destruct l1. Qed.

Lemma last_or_app p l1 l2 : last_or p (l1 ++ l2) = last_or (last_or p l1) l2.
Proof. unfold last_or. rewrite last_app. by destruct (last l2). Qed.

Lemma head_or_elem p l : head_or p l = p \/ head_or p l ∈ l.
Proof. unfold head_or. destruct l; [by left|]. right. set_solver. Qed.

Lemma last_or_elem p l : last_or p l = p \/ last_or p l ∈ l.
Proof.
  unfold last_or. destruct (last l) eqn:E; [|by left]. right. apply last_Some_elem_of in E. done.
Qed.

Lemma head_or_self p l : p ∉ l -> head_or p l = p <-> l = [].
Proof. destruct l; [done|]. unfold head_or. cbn. set_solver. Qed.

Lemma last_or_self p l : p ∉ l -> last_or p l = p <-> l = [].
Proof.
  intros Hp. split; [|by intros ->]. intros E. destruct (last_or_elem p l) as [_|Hin]; [|congruence].
  destruct l as [|x l]; [done|]. exfalso. revert E. unfold last_or. rewrite last_cons.
  destruct (last l) eqn:El; cbn; intros ->; [|set_solver]. apply last_Some_elem_of in El. set_solver.
Qed.

Record forest (t : links) (K : Z -> list Z) : Prop := mk_forest {
  fo_head p l : t p = Some l -> l.1 = mk_list (last_or p (K p)) (head_or p (K p)) (p + 1);
  fo_entry p l1 c l2 : is_Some (t p) -> K p = l1 ++ c :: l2 ->
    exists l, t c = Some l /\ l.2 = mk_list (last_or p l1) (head_or p l2) (p + 1);
  fo_root c l : t c = Some l -> l.2 = mk_list c c 0 \/ exists p, is_Some (t p) /\ c ∈ K p;
  fo_nodup p : is_Some (t p) -> NoDup (K p);
  fo_post p : is_Some (t p) -> exists l, post K p l;
  fo_range p : is_Some (t p) -> 0 <= p < 2 ^ 31 }.

Lemma forest_ext t t' K K' :
  forest t K -> (forall j, t' j = t j) -> (forall p, is_Some (t p) -> K' p = K p) -> forest t' K'.
Proof.
  intros [F1 F2 F3 F4 F5 F6] Ht HK.
  assert (forall p l, post K p l -> is_Some (t p) -> forall x, x ∈ l -> is_Some (t x)) as Hlive.
  { intros p l Hp Hs x Hx. apply (post_up _ _ _ _ Hp) in Hx. clear Hp.
    induction Hx as [|x y z Hxy _ IH]; [done|].
    apply list_elem_of_split in Hxy as (l1 & l2 & Hl). destruct (F2 y l1 x l2 (IH Hs) Hl) as (? & ? & _). eauto. }
  constructor.
  - intros p l. rewrite Ht. intros Hp. rewrite HK by eauto. by apply F1.
  - intros p l1 c l2 Hp Hc. rewrite Ht in *. rewrite HK in Hc by done. by apply F2.
  - intros c l. rewrite Ht. intros Hc. destruct (F3 c l Hc) as [?|(p & Hp & Hin)]; [by left|right].
    exists p. rewrite Ht, HK by done. done.
  - intros p. rewrite Ht. intros Hp. rewrite HK by done. by apply F4.
  - intros p. rewrite Ht. intros Hp. destruct (F5 p Hp) as [l Hl]. exists l.
    eapply post_ext; [exact Hl|]. intros q Hq. apply HK. by eapply Hlive.
  - intros p. rewrite Ht. apply F6.
Qed.

Section Forest.
Context {t : links} {K : Z -> list Z} (F : forest t K).

Lemma forest_child p c :
  is_Some (t p) -> c ∈ K p -> exists l, t c = Some l /\ hParent l.2 = p + 1.
Proof.
  intros Hp Hc. apply list_elem_of_split in Hc as (l1 & l2 & Hl).
  destruct (fo_entry _ _ F p l1 c l2 Hp Hl) as (l & Hc & E).
  exists l. by rewrite E.
Qed.

Lemma forest_parent_unique p q c :
  is_Some (t p) -> is_Some (t q) -> c ∈ K p -> c ∈ K q -> p = q.
Proof.
  intros Hp Hq Hcp Hcq. destruct (forest_child _ _ Hp Hcp) as (l & Hl & E1).
  destruct (forest_child _ _ Hq Hcq) as (l' & Hl' & E2). assert (l = l') as -> by congruence. lia.
Qed.

Lemma forest_irrefl p : is_Some (t p) -> p ∉ K p.
Proof.
  intros Hp. destruct (fo_post _ _ F p Hp) as [l Hl]. eapply post_acyclic; [exact Hl|].
  by eapply post_self.
Qed.

(** The parent field tells the parent. *)
Lemma forest_parent_field c l :
  t c = Some l ->
  (hParent l.2 = 0 /\ l.2 = mk_list c c 0 /\ forall p, is_Some (t p) -> c ∉ K p) \/
  (exists p, is_Some (t p) /\ c ∈ K p /\ hParent l.2 = p + 1).
Proof.
  intros Hc. destruct (fo_root _ _ F c l Hc) as [Hr|(p & Hp & Hin)].
  - left. rewrite Hr. split_and!; [done..|]. intros p Hp Hin.
    destruct (forest_child _ _ Hp Hin) as (l' & Hl' & E). pose proof (fo_range _ _ F p Hp).
    assert (l = l') as <- by congruence. rewrite Hr in E. cbn in E. lia.
  - right. exists p. split_and!; [done..|]. destruct (forest_child _ _ Hp Hin) as (l' & Hl' & E). congruence.
Qed.

Lemma forest_post_live p l x : is_Some (t p) -> post K p l -> x ∈ l -> is_Some (t x).
Proof.
  intros Hs Hp Hx. apply (post_up _ _ _ _ Hp) in Hx. clear Hp.
  induction Hx as [|x y z Hxy _ IH]; [done|]. destruct (forest_child _ _ (IH Hs) Hxy) as (? & ? & _). eauto.
Qed.

Lemma up_linear x y z :
  is_Some (t y) -> is_Some (t z) ->
  rtc (fun x y => x ∈ K y) x y -> rtc (fun x y => x ∈ K y) x z ->
  rtc (fun x y => x ∈ K y) y z \/ rtc (fun x y => x ∈ K y) z y.
Proof.
  intros Hy Hz Hxy. revert Hz. induction Hxy as [x|x x' y Hx Hxy IH]; intros Hz Hxz; [by left|].
  destruct Hxz as [x|x x'' z Hx' Hxz]; [right; by eapply rtc_l|].
  assert (forall a b, rtc (fun x y => x ∈ K y) a b -> is_Some (t b) -> is_Some (t a)) as Hlive.
  { intros a b Hab Hb. destruct (fo_post _ _ F b Hb) as [l Hl]. eapply forest_post_live; [exact Hb|exact Hl|].
    by eapply post_down. }
  assert (x' = x'') as <-; [|by apply IH].
  eapply forest_parent_unique; [| |exact Hx|exact Hx']; eapply Hlive; eassumption.
Qed.

Lemma posts_nodup p cs l :
  is_Some (t p) -> NoDup cs -> (forall c, c ∈ cs -> c ∈ K p) -> posts K cs l ->
  (forall c lc, c ∈ cs -> post K c lc -> NoDup lc) -> NoDup l.
Proof.
  intros Hp Hnd Hcs Hl Hsub. induction Hl as [|c cs l1 l2 Hc Hl IH]; [constructor|].
  apply NoDup_cons in Hnd as [Hn1 Hn2].
  apply NoDup_app. split_and!; [eapply Hsub; [|exact Hc]; set_solver| |].
  2: { apply IH; [done|set_solver|]. intros c' lc' Hc'. apply Hsub. set_solver. }
  intros x Hx1 Hx2. destruct (posts_elem _ _ _ _ Hl Hx2) as (c' & lc' & Hc' & Hlc' & Hx' & _).
  apply (post_up _ _ _ _ Hc) in Hx1. apply (post_up _ _ _ _ Hlc') in Hx'.
  assert (c ∈ K p) as Hcp by (apply Hcs; set_solver). assert (c' ∈ K p) as Hcp' by (apply Hcs; set_solver).
  destruct (forest_child _ _ Hp Hcp) as (? & Htc & _). destruct (forest_child _ _ Hp Hcp') as (? & Htc' & _).
  assert (forall a b la, a ∈ K p -> b ∈ K p -> a <> b -> is_Some (t a) -> post K b la ->
    ~ rtc (fun x y => x ∈ K y) a b) as Hno.
  { intros a b la Ha Hb Hne Hta Hlb Hr. inversion Hr as [|? y ? Hay Hyb]; subst; [done|].
    assert (is_Some (t b)) as Htb by (destruct (forest_child _ _ Hp Hb) as (? & ? & _); eauto).
    assert (y ∈ la) as Hy by (by eapply post_down).
    assert (y = p) as ->. { eapply forest_parent_unique; [|exact Hp|exact Hay|done]. by eapply forest_post_live. }
    by eapply post_acyclic. }
  assert (c <> c') by set_solver.
  destruct (up_linear x c c') as [Hr|Hr]; [eauto..| |].
  - by eapply (Hno c c').
  - eapply (Hno c' c); [done|done|done|by eauto|exact Hc|done].
Qed.

Lemma post_nodup p l : is_Some (t p) -> post K p l -> NoDup l.
Proof.
  intros Hp Hl. remember (length l) as n eqn:Hn. revert p l Hn Hp Hl.
  induction (lt_wf n) as [n _ IH]. intros p l -> Hp Hl.
  assert (forall c lc, c ∈ K p -> post K c lc -> NoDup lc) as Hsub.
  { intros c lc Hc Hlc. destruct (post_child_shorter _ _ _ _ _ Hl Hc Hlc) as [Hlt _].
    destruct (forest_child _ _ Hp Hc) as (? & ? & _). eapply (IH _ Hlt c lc); eauto. }
  inversion Hl as [? l0 Hl0]; subst. apply NoDup_snoc.
  - eapply (posts_nodup p (K p)); [done|by apply (fo_nodup _ _ F)|done|done|done].
  - intros Hin. destruct (posts_elem _ _ _ _ Hl0 Hin) as (c & lc & Hc & Hlc & Hx & _).
    by eapply (post_acyclic _ c lc p).
Qed.
End Forest.

(** ** Changing links *)

(** An assignment to a list head. *)
Definition lset (t : links) (p : Z * list_field) (f : sHandleList -> sHandleList) : links := fun j =>
  if decide (j = p.1) then
    (fun l => match p.2 with fChildren => (f l.1, l.2) | fSiblings => (l.1, f l.2) end) <$> t j
  else t j.

Lemma lset_is_Some t p f j : is_Some (lset t p f j) <-> is_Some (t j).
Proof. unfold lset. case_decide; [apply fmap_is_Some|done]. Qed.

#[export] Instance list_field_eq_dec : EqDecision list_field.
Proof. solve_decision. Defined.

(** The head of a node after an assignment, and its entry. *)
Lemma lset_fst t p f j l :
  lset t p f j = Some l -> exists l0, t j = Some l0 /\
    l.1 = (if decide (p = (j, fChildren)) then f l0.1 else l0.1) /\
    l.2 = (if decide (p = (j, fSiblings)) then f l0.2 else l0.2).
Proof.
  unfold lset. destruct p as [i []]; cbn [fst snd].
  all: case_decide as Hj; [destruct (t j) as [l0|]; [|done]; intros [= <-]; exists l0; subst;
    split_and!; [done|..]; repeat case_decide; cbn in *; congruence|].
  all: intros Hl; exists l; split_and!; [done|..]; case_decide; congruence.
Qed.

(** The list head at position [i] of the ring of [p]. *)
Definition ring_ptr (p i : Z) : Z * list_field := LIST_PTR_FROM_INDEX_AND_OFFSET i p fChildren fSiblings.

Lemma ring_ptr_children p i j : ring_ptr p i = (j, fChildren) <-> i = p /\ j = p.
Proof.
  unfold ring_ptr, LIST_PTR_FROM_INDEX_AND_OFFSET. destruct (Z.eqb_spec i p); naive_solver.
Qed.

Lemma ring_ptr_siblings p i j : ring_ptr p i = (j, fSiblings) <-> i = j /\ j <> p.
Proof.
  unfold ring_ptr, LIST_PTR_FROM_INDEX_AND_OFFSET. destruct (Z.eqb_spec i p); naive_solver.
Qed.

(** What [HandleListRemove] does to the links. *)
Definition unlink_links (t : links) (p c prev next : Z) : links :=
  lset (lset (lset t (ring_ptr p prev) (set_ui32Next next)) (ring_ptr p next) (set_ui32Prev prev))
    (c, fSiblings) (fun _ => mk_list c c 0).

Lemma unlink_links_Some t p c prev next j :
  is_Some (unlink_links t p c prev next j) <-> is_Some (t j).
Proof. unfold unlink_links. by rewrite !lset_is_Some. Qed.

Lemma unlink_links_eq t p c prev next j l :
  c <> p -> unlink_links t p c prev next j = Some l -> exists l0, t j = Some l0 /\
    l.1 = (if decide (j = p) then
             mk_list (if decide (next = p) then prev else ui32Prev l0.1)
                     (if decide (prev = p) then next else ui32Next l0.1) (hParent l0.1)
           else l0.1) /\
    l.2 = (if decide (j = c) then mk_list c c 0
           else if decide (j = p) then l0.2 else
             mk_list (if decide (j = next) then prev else ui32Prev l0.2)
                     (if decide (j = prev) then next else ui32Next l0.2) (hParent l0.2)).
Proof.
  intros Hcp Hl. unfold unlink_links in Hl.
  apply lset_fst in Hl as (l1 & Hl & E1 & E2). apply lset_fst in Hl as (l2 & Hl & E3 & E4).
  apply lset_fst in Hl as (l0 & Hl & E5 & E6). exists l0. split; [done|].
  destruct l0 as [[] []]. cbn [fst snd] in *.
  rewrite E1, E2, E3, E4, E5, E6. clear Hl E1 E2 E3 E4 E5 E6.
  split.
  - rewrite (decide_False (P := (c, fSiblings) = _)) by done.
    rewrite (decide_ext _ _ _ _ (ring_ptr_children p prev j)), (decide_ext _ _ _ _ (ring_ptr_children p next j)).
    repeat (case_decide; simplify_eq); naive_solver.
  - rewrite (decide_ext _ _ _ _ (ring_ptr_siblings p prev j)), (decide_ext _ _ _ _ (ring_ptr_siblings p next j)).
    destruct (decide (j = c)) as [->|Hjc]; [by rewrite decide_True|].
    rewrite decide_False by congruence. repeat (case_decide; simplify_eq); naive_solver.
Qed.

Definition prune (L : list Z) (K : Z -> list Z) : Z -> list Z := fun q => filter (fun x => x ∉ L) (K q).

Lemma filter_notin_id (L l : list Z) : (forall x, x ∈ l -> x ∉ L) -> filter (fun x => x ∉ L) l = l.
Proof. intros Hl. induction l as [|x l IH]; [done|]. rewrite filter_cons, decide_True, IH; [done|set_solver..]. Qed.

Lemma prune_mid K p c l1 l2 :
  K p = l1 ++ c :: l2 -> NoDup (K p) -> prune [c] K p = l1 ++ l2.
Proof.
  intros HK Hnd. unfold prune. rewrite HK in *. apply NoDup_app in Hnd as (_ & Hd & Hnd).
  apply NoDup_cons in Hnd as [Hc _]. rewrite filter_app, filter_cons, decide_False by set_solver.
  rewrite !filter_notin_id; [done|..]; set_solver.
Qed.

Section Unlink.
Context {t : links} {K : Z -> list Z} (F : forest t K) (p c : Z) (l1 l2 : list Z).
Context (Hp : is_Some (t p)) (HK : K p = l1 ++ c :: l2).

Let t' := unlink_links t p c (last_or p l1) (head_or p l2).

Lemma unlink_distinct :
  c <> p /\ (p ∉ l1) /\ (p ∉ l2) /\ (c ∉ l1) /\ (c ∉ l2) /\ NoDup l1 /\ NoDup l2 /\
    (forall x, x ∈ l1 -> x ∉ l2).
Proof.
  pose proof (fo_nodup _ _ F p Hp) as Hnd. pose proof (forest_irrefl F p Hp) as Hirr.
  rewrite HK in Hnd, Hirr. apply NoDup_app in Hnd as (? & ? & Hnd). apply NoDup_cons in Hnd as [? ?].
  set_solver.
Qed.

Lemma prune_other q : is_Some (t q) -> q <> p -> prune [c] K q = K q.
Proof.
  intros Hq Hne. apply filter_notin_id. intros x Hx Hin. apply list_elem_of_singleton in Hin as ->.
  apply Hne. apply (forest_parent_unique F q p c); [done|done|done|rewrite HK; set_solver].
Qed.

Lemma unlink_head q l :
  t' q = Some l ->
  l.1 = mk_list (last_or q (prune [c] K q)) (head_or q (prune [c] K q)) (q + 1).
Proof.
  destruct unlink_distinct as (Hcp & Hp1 & Hp2 & Hc1 & Hc2 & _). intros Hq.
  apply unlink_links_eq in Hq as (l0 & Hq & E & _); [|done]. rewrite E, (fo_head _ _ F q l0 Hq).
  destruct (decide (q = p)) as [->|Hne].
  - rewrite (prune_mid K p c l1 l2 HK (fo_nodup _ _ F p Hp)), HK. cbn [ui32Prev ui32Next hParent].
    rewrite last_or_mid, last_or_app, !head_or_app.
    rewrite (decide_ext _ _ _ _ (head_or_self p l2 Hp2)), (decide_ext _ _ _ _ (last_or_self p l1 Hp1)).
    clear E. f_equal; case_decide as E0.
    + by rewrite E0.
    + destruct l2 as [|x k]; [done|]. unfold last_or. rewrite !last_cons. by destruct (last k).
    + by rewrite E0.
    + by destruct l1.
  - by rewrite prune_other by eauto.
Qed.

(** The other children see the gap closed. *)
Lemma unlink_entry q k1 x k2 :
  is_Some (t' q) -> prune [c] K q = k1 ++ x :: k2 ->
  exists l, t' x = Some l /\ l.2 = mk_list (last_or q k1) (head_or q k2) (q + 1).
Proof.
  destruct unlink_distinct as (Hcp & Hp1 & Hp2 & Hc1 & Hc2 & Hn1 & Hn2 & Hd). intros Hq HKq.
  apply unlink_links_Some in Hq.
  assert (x ∈ prune [c] K q) as Hx by (rewrite HKq; set_solver).
  apply list_elem_of_filter in Hx as [Hxc HxK].
  destruct (forest_child F q x Hq HxK) as (l0 & Hl0 & _).
  assert (is_Some (t' x)) as [l Hl] by (apply unlink_links_Some; eauto).
  exists l. split; [done|]. apply unlink_links_eq in Hl as (l0' & Hl0' & _ & E); [|done].
  assert (l0' = l0) as -> by congruence. rewrite E. clear E Hl0'.
  rewrite decide_False by set_solver.
  destruct (decide (q = p)) as [->|Hne].
  2: { rewrite prune_other in HKq by done. destruct (fo_entry _ _ F q k1 x k2 Hq HKq) as (l0' & Hl0' & E).
       assert (l0' = l0) as -> by congruence. rewrite E.
       assert (x ∉ l1 ++ l2) as Hx12.
       { intros Hin. apply Hne. apply (forest_parent_unique F q p x); [done..|rewrite HK; set_solver]. }
       destruct (decide (x = p)) as [->|Hxp]; [done|]. cbn.
       destruct (head_or_elem p l2) as [->|?]; [rewrite decide_False by done|rewrite decide_False by set_solver];
       destruct (last_or_elem p l1) as [->|?]; [rewrite decide_False by done|rewrite decide_False by set_solver|
         rewrite decide_False by done|rewrite decide_False by set_solver]; done. }
  rewrite (prune_mid K p c l1 l2 HK (fo_nodup _ _ F p Hp)) in HKq.
  assert (x ≠ p) as Hxp by (intros ->; by apply (forest_irrefl F p)).
  rewrite decide_False by done.
  assert ((exists k, l1 = k1 ++ x :: k /\ k2 = k ++ l2) \/ (exists k, k1 = l1 ++ k /\ l2 = k ++ x :: k2))
    as [(k & E1 & E2)|(k & E1 & E2)].
  { apply app_eq_inv in HKq as [([|y k] & E1 & E2)|(k & E1 & E2)]; [right; exists []|left; exists k|right; by exists k].
    - by rewrite app_nil_r in *.
    - cbn in E2. naive_solver. }
  - destruct (fo_entry _ _ F p k1 x (k ++ c :: l2) Hp) as (l0' & Hl0' & E); [rewrite HK, E1; by rewrite <- app_assoc|].
    assert (l0' = l0) as -> by congruence. rewrite E. cbn [ui32Prev ui32Next hParent].
    assert (x ∈ l1) as Hx1 by (rewrite E1; set_solver).
    rewrite (decide_False (P := x = head_or p l2)) by (destruct (head_or_elem p l2); set_solver).
    f_equal. rewrite E2, E1, last_or_mid, !head_or_app. rewrite E1 in Hn1.
    apply NoDup_app in Hn1 as (_ & _ & Hn1). apply NoDup_cons in Hn1 as [Hn1 _].
    assert (x = last_or x k <-> k = []) as Hiff by (rewrite <- (last_or_self x k Hn1); done).
    rewrite (decide_ext _ _ _ _ Hiff). case_decide as Ek; [by rewrite Ek|]. by destruct k.
  - destruct (fo_entry _ _ F p (l1 ++ c :: k) x k2 Hp) as (l0' & Hl0' & E); [rewrite HK, E2; by rewrite <- app_assoc|].
    assert (l0' = l0) as -> by congruence. rewrite E. cbn [ui32Prev ui32Next hParent].
    assert (x ∈ l2) as Hx2 by (rewrite E2; set_solver).
    rewrite (decide_False (P := x = last_or p l1)) by (destruct (last_or_elem p l1); set_solver).
    f_equal. rewrite E1, last_or_mid, last_or_app. rewrite E2, head_or_app.
    rewrite E2 in Hn2. apply NoDup_app in Hn2 as (_ & Hn2 & _).
    assert (x = head_or (head_or p (x :: k2)) k <-> k = []) as Hiff.
    { cbn. rewrite <- (head_or_self x k); [done|]. intros Hin. apply (Hn2 x Hin). set_solver. }
    rewrite (decide_ext _ _ _ _ Hiff). case_decide as Ek; [by rewrite Ek|].
    destruct k as [|y k]; [done|]. unfold last_or. rewrite !last_cons. by destruct (last k).
Qed.

Lemma forest_unlink : forest t' (prune [c] K).
Proof.
  destruct unlink_distinct as (Hcp & _). constructor.
  - apply unlink_head.
  - apply unlink_entry.
  - intros x l Hl.
    destruct (decide (x = c)) as [->|Hxc].
    { left. apply unlink_links_eq in Hl as (l0 & _ & _ & E); [|done]. by rewrite decide_True in E. }
    apply unlink_links_eq in Hl as (l0 & Hl & _ & E); [|done].
    destruct (forest_parent_field F x l0 Hl) as [(_ & Hr & Hno)|(q & Hq & Hin & _)].
    + left. rewrite E, decide_False by done. clear E. case_decide; [done|]. rewrite Hr. cbn.
      assert (x ∉ l1 ++ c :: l2) by (rewrite <- HK; by apply Hno).
      rewrite !decide_False; [done|..].
      * destruct (last_or_elem p l1) as [->|?]; [done|]. intros ->. set_solver.
      * destruct (head_or_elem p l2) as [->|?]; [done|]. intros ->. set_solver.
    + right. exists q. split; [by apply unlink_links_Some|].
      apply list_elem_of_filter. split; [set_solver|done].
  - intros q Hq. apply unlink_links_Some in Hq. apply NoDup_filter. by apply (fo_nodup _ _ F).
  - intros q Hq. apply unlink_links_Some in Hq. destruct (fo_post _ _ F q Hq) as [l Hl].
    by eapply post_filter.
  - intros q Hq. apply unlink_links_Some in Hq. by apply (fo_range _ _ F).
Qed.
End Unlink.

(** What [HandleListInsertBefore] does to the links. *)
Definition adopt_links (t : links) (p c prev : Z) : links :=
  lset (lset (lset (lset (lset t (c, fSiblings) (set_ui32Prev prev)) (p, fChildren) (set_ui32Prev c))
    (c, fSiblings) (set_ui32Next p)) (ring_ptr p prev) (set_ui32Next c))
    (c, fSiblings) (set_hParent (p + 1)).

Lemma adopt_links_Some t p c prev j : is_Some (adopt_links t p c prev j) <-> is_Some (t j).
Proof. unfold adopt_links. by rewrite !lset_is_Some. Qed.

Lemma adopt_links_eq t p c prev j l :
  c <> p -> prev <> c -> adopt_links t p c prev j = Some l -> exists l0, t j = Some l0 /\
    l.1 = (if decide (j = p) then mk_list c (if decide (prev = p) then c else ui32Next l0.1) (hParent l0.1)
           else l0.1) /\
    l.2 = (if decide (j = c) then mk_list prev p (p + 1)
           else if decide (j = p) then l0.2 else
             mk_list (ui32Prev l0.2) (if decide (j = prev) then c else ui32Next l0.2) (hParent l0.2)).
Proof.
  intros Hcp Hpc Hl. unfold adopt_links in Hl.
  apply lset_fst in Hl as (l5 & Hl & A5 & B5). apply lset_fst in Hl as (l4 & Hl & A4 & B4).
  apply lset_fst in Hl as (l3 & Hl & A3 & B3). apply lset_fst in Hl as (l2 & Hl & A2 & B2).
  apply lset_fst in Hl as (l0 & Hl & A1 & B1). exists l0. split; [done|].
  destruct l0 as [[] []]. cbn [fst snd] in *. rewrite A5, B5, A4, B4, A3, B3, A2, B2, A1, B1.
  clear Hl A1 A2 A3 A4 A5 B1 B2 B3 B4 B5. split.
  - rewrite !(decide_False (P := (c, fSiblings) = _)) by done.
    rewrite (decide_ext _ _ _ _ (ring_ptr_children p prev j)).
    repeat (case_decide; simplify_eq); naive_solver.
  - rewrite (decide_ext _ _ _ _ (ring_ptr_siblings p prev j)).
    destruct (decide (j = c)) as [->|Hjc].
    + rewrite !(decide_True (P := (c, fSiblings) = _)) by done. repeat (case_decide; simplify_eq); naive_solver.
    + rewrite !(decide_False (P := (c, fSiblings) = _)) by congruence.
      repeat (case_decide; simplify_eq); naive_solver.
Qed.

Section Adopt.
Context {t : links} {K : Z -> list Z} (F : forest t K) (p c : Z).
Context (Hp : is_Some (t p)) (lc : sHandleList * sHandleList) (Hc : t c = Some lc).
Context (Hroot : hParent lc.2 = 0) (Hleaf : K c = []) (Hpc : p <> c).

Definition adopt_kids (x : Z) : list Z := if decide (x = p) then K x ++ [c] else K x.
Let t' := adopt_links t p c (last_or p (K p)).

Lemma adopt_fresh q : is_Some (t q) -> c ∉ K q.
Proof.
  intros Hq. destruct (forest_parent_field F c lc Hc) as [(_ & _ & Hno)|(q' & Hq' & _ & E)]; [by apply Hno|].
  pose proof (fo_range _ _ F q' Hq'). lia.
Qed.

Lemma adopt_prev : last_or p (K p) <> c.
Proof. pose proof (adopt_fresh p Hp). destruct (last_or_elem p (K p)) as [->|?]; [done|]. set_solver. Qed.

Lemma adopt_entry q k1 x k2 :
  is_Some (t q) -> adopt_kids q = k1 ++ x :: k2 ->
  exists l, t' x = Some l /\ l.2 = mk_list (last_or q k1) (head_or q k2) (q + 1).
Proof.
  intros Hq HKq.
  assert (is_Some (t x)) as Hx.
  { assert (x ∈ adopt_kids q) as Hx by (rewrite HKq; set_solver). unfold adopt_kids in Hx.
    assert (x ∈ K q \/ x = c) as [Hin| ->] by (case_decide; set_solver); [|eauto].
    destruct (forest_child F q x Hq Hin) as (? & ? & _). eauto. }
  assert (is_Some (t' x)) as [l Hl] by (by apply adopt_links_Some).
  exists l. split; [done|]. apply adopt_links_eq in Hl as (l0 & Hl0 & _ & E); [|done|apply adopt_prev].
  rewrite E. clear E. unfold adopt_kids in HKq. destruct (decide (q = p)) as [->|Hne].
  2: { assert (x ∈ K q) as HxK by (rewrite HKq; set_solver).
       rewrite decide_False by (intros ->; by apply (adopt_fresh q)).
       destruct (fo_entry _ _ F q k1 x k2 Hq HKq) as (l0' & Hl0' & E). assert (l0' = l0) as -> by congruence.
       rewrite E. destruct (decide (x = p)) as [->|Hxp]; [done|]. cbn. rewrite decide_False; [done|].
       intros ->. destruct (last_or_elem p (K p)) as [?|Hin]; [done|]. apply Hne.
       by eapply (forest_parent_unique F q p). }
  assert ((exists k, K p = k1 ++ x :: k /\ k2 = k ++ [c]) \/ (k1 = K p /\ x = c /\ k2 = [])) as [(k & E1 & E2)|(-> & -> & ->)].
  { apply app_eq_inv in HKq as [([|y k] & E1 & E2)|(k & E1 & E2)].
    - right. rewrite app_nil_r in E1. naive_solver.
    - left. exists k. naive_solver.
    - right. destruct k as [|y k]; [rewrite app_nil_r in E1; naive_solver|].
      destruct k; naive_solver. }
  - assert (x ∈ K p) as HxK by (rewrite E1; set_solver).
    rewrite decide_False by (intros ->; by apply (adopt_fresh p)).
    rewrite decide_False by (intros ->; by apply (forest_irrefl F p)).
    destruct (fo_entry _ _ F p k1 x k Hp E1) as (l0' & Hl0' & E). assert (l0' = l0) as -> by congruence.
    rewrite E. cbn. f_equal. rewrite E2, head_or_app, E1, last_or_mid.
    pose proof (fo_nodup _ _ F p Hp) as Hnd. rewrite E1 in Hnd. apply NoDup_app in Hnd as (_ & _ & Hnd).
    apply NoDup_cons in Hnd as [Hnd _].
    assert (x = last_or x k <-> k = []) as Hiff by (rewrite <- (last_or_self x k Hnd); done).
    rewrite (decide_ext _ _ _ _ Hiff). case_decide as Ek; [by rewrite Ek|]. by destruct k.
  - by rewrite decide_True.
Qed.

Lemma forest_adopt : forest t' adopt_kids.
Proof.
  constructor.
  - intros q l Hl. apply adopt_links_eq in Hl as (l0 & Hl & E & _); [|done|apply adopt_prev].
    rewrite E, (fo_head _ _ F q l0 Hl). clear E. unfold adopt_kids. case_decide as Hq; [subst q|done].
    rewrite last_or_app, head_or_app. cbn. f_equal.
    rewrite (decide_ext _ _ _ _ (last_or_self p (K p) (forest_irrefl F p Hp))).
    case_decide as E0; [by rewrite E0|]. by destruct (K p).
  - intros q k1 x k2 Hq. apply adopt_links_Some in Hq. by apply adopt_entry.
  - intros x l Hl. apply adopt_links_eq in Hl as (l0 & Hl & _ & E); [|done|apply adopt_prev].
    destruct (decide (x = c)) as [->|Hxc].
    { right. exists p. split; [by apply adopt_links_Some|]. unfold adopt_kids. rewrite decide_True by done. set_solver. }
    destruct (forest_parent_field F x l0 Hl) as [(_ & Hr & Hno)|(q & Hq & Hin & _)].
    + left. rewrite E. clear E. case_decide; [done|]. rewrite Hr. cbn. rewrite decide_False; [done|].
      intros ->. destruct (last_or_elem p (K p)) as [?|Hin]; [done|]. by apply (Hno p).
    + right. exists q. split; [by apply adopt_links_Some|]. unfold adopt_kids. clear E.
      case_decide; [|done]. apply elem_of_app. by left.
  - intros q Hq. apply adopt_links_Some in Hq. unfold adopt_kids. pose proof (fo_nodup _ _ F q Hq).
    case_decide; [|done]. apply NoDup_snoc; [done|by apply adopt_fresh].
  - intros q Hq. apply adopt_links_Some in Hq. destruct (fo_post _ _ F q Hq) as [l Hl].
    by eapply post_adopt.
  - intros q Hq. apply adopt_links_Some in Hq. by apply (fo_range _ _ F).
Qed.
End Adopt.

(** A structure without parent and children may be initialised or go out of use. *)
Lemma forest_isolated t K t' i :
  forest t K -> 0 <= i < 2 ^ 31 ->
  (forall l, t i = Some l -> hParent l.2 = 0 /\ K i = []) ->
  (forall j, j <> i -> t' j = t j) ->
  t' i = None \/ t' i = Some (mk_list i i (i + 1), mk_list i i 0) ->
  forest t' (fun q => if decide (q = i) then [] else K q).
Proof.
  intros F Hi Hiso Ht' Hti.
  assert (forall q, is_Some (t q) -> i ∉ K q) as Hno.
  { intros q Hq Hin. destruct (forest_child F q i Hq Hin) as (l & Hl & E). destruct (Hiso l Hl) as [E' _].
    pose proof (fo_range _ _ F q Hq). lia. }
  assert (forall q, is_Some (t q) -> forall x, x ∈ K q -> x <> i) as Hno' by (intros q Hq x Hx ->; by apply (Hno q)).
  constructor.
  - intros p l Hl. case_decide as Hpi; [subst p|rewrite Ht' in Hl by done; by apply (fo_head _ _ F)].
    destruct Hti as [E|E]; rewrite E in Hl; [done|]. by injection Hl as <-.
  - intros p l1 c l2 Hp. case_decide as Hpi; [by destruct l1|]. rewrite Ht' in Hp by done.
    intros HK. rewrite Ht'; [by apply (fo_entry _ _ F)|]. apply (Hno' p Hp). rewrite HK. set_solver.
  - intros c l Hl. destruct (decide (c = i)) as [->|Hci].
    { left. destruct Hti as [E|E]; rewrite E in Hl; [done|]. by injection Hl as <-. }
    rewrite Ht' in Hl by done. destruct (fo_root _ _ F c l Hl) as [?|(p & Hp & Hin)]; [by left|right].
    exists p. destruct (decide (p = i)) as [->|Hpi].
    + destruct Hp as [l' Hl']. destruct (Hiso l' Hl') as [_ E]. rewrite E in Hin. by apply elem_of_nil in Hin.
    + by rewrite Ht'.
  - intros p Hp. case_decide as Hpi; [constructor|]. rewrite Ht' in Hp by done. by apply (fo_nodup _ _ F).
  - intros p Hp. destruct (decide (p = i)) as [->|Hpi].
    + exists ([] ++ [i]). constructor. rewrite decide_True by done. constructor.
    + rewrite Ht' in Hp by done. destruct (fo_post _ _ F p Hp) as [l Hl]. exists l.
      eapply post_ext; [exact Hl|]. intros q Hq. cbn. rewrite decide_False; [done|]. intros ->.
      apply (post_up _ _ _ _ Hl) in Hq. inversion Hq as [|? y ? Hiy Hyp]; subst; [done|].
      assert (y ∈ l) as Hy by (by eapply post_down).
      apply (Hno y); [by eapply (forest_post_live F p l)|done].
  - intros p Hp. destruct (decide (p = i)) as [->|Hpi]; [done|]. rewrite Ht' in Hp by done.
    by apply (fo_range _ _ F).
Qed.

(** * The links of the forest in a handle base

    The links of the structures in use as a function of the base ([tn]), what the
    list operations of handle.c do to them, and what they leave alone
    ([tree_frame]). *)

#[global] Arguments HANDLE_STRUCT_IS_FREE : simpl never.

Lemma handle_index_inv i : 0 <= i < 2 ^ 31 -> HANDLE_TO_INDEX (i + 1) = i.
Proof. intros. unfold HANDLE_TO_INDEX. replace (i + 1 - 1) with i by lia. apply wrapU_small. lia. Qed.

Lemma index_handle i : 0 <= i < 2 ^ 31 -> INDEX_TO_HANDLE i = i + 1.
Proof. intros. apply wrapU_small. lia. Qed.

Section Monad.
Context {H : Type}.
Implicit Types s : PVRSRV_HANDLE_BASE H.

Lemma hb_bind_ok {A B} (m : HB A) (k : A -> HB B) s a s' :
  m s = Ok (a, s') -> (m ≫= k) s = k a s'.
Proof. intros E. unfold mbind, HB_bind. by rewrite E. Qed.

Lemma hb_base_bind {A B} (f : PVRSRV_HANDLE_BASE H -> A) (k : A -> HB B) s :
  (base f ≫= k) s = k (f s) s.
Proof. done. Qed.

Lemma hb_modify_bind {B} f (k : unit -> HB B) s : (modify f ≫= k) s = k tt (f s).
Proof. done. Qed.
End Monad.

(** Run the first action of a sequence, known by the equation. *)
Ltac hb_run E := rewrite (hb_bind_ok _ _ _ _ _ E).

Section ListOps.
Context {H : Type} {HM : HandleMap H} {BSH : BlockShift}.

Implicit Types s : PVRSRV_HANDLE_BASE H.

(** The links of the structures in use. *)
Definition tn s : links := fun i =>
  h ← hnd s i; if HANDLE_STRUCT_IS_FREE h then None else Some (sChildren h, sSiblings h).

Lemma tn_Some s i l :
  tn s i = Some l <-> exists h, hnd s i = Some h /\ HANDLE_STRUCT_IS_FREE h = false /\
    l = (sChildren h, sSiblings h).
Proof.
  unfold tn. destruct (hnd s i) as [h|]; cbn.
  - destruct (HANDLE_STRUCT_IS_FREE h) eqn:E; split; [done| |intros [= <-]; eauto|]; intros (? & [= <-] & ? & ->); congruence.
  - split; [done|]. by intros (? & ? & _).
Qed.

(** Everything in a structure but the links of the forest. *)
Definition rest (h : sHandle) :=
  (eType h, pvData h, ui32NextIndexPlusOne h, eInternalFlag h, eFlag h, ui32Index h).

(** The second base differs from the first in links of the forest only. *)
Record tree_frame s s' : Prop := mk_tree_frame {
  tf_fields : s' = set_psHandleArray (psHandleArray s') s;
  tf_cnt b : cnt s' b = cnt s b;
  tf_rest j : rest <$> hnd s' j = rest <$> hnd s j;
  tf_array : array_ok s -> array_ok s' }.

#[export] Instance tree_frame_preorder : PreOrder tree_frame.
Proof.
  split.
  - intros s. split; try done. by destruct s.
  - intros s1 s2 s3 [A1 B1 C1 D1] [A2 B2 C2 D2]. split.
    + rewrite A2, A1. done.
    + intros b. by rewrite B2.
    + intros j. by rewrite C2.
    + auto.
Qed.

Definition index_ok s : Prop := forall i h, hnd s i = Some h -> ui32Index h = i.

Lemma tree_frame_lookup s s' i h :
  tree_frame s s' -> hnd s i = Some h -> exists h', hnd s' i = Some h' /\ rest h' = rest h.
Proof.
  intros Hf Hi. pose proof (tf_rest _ _ Hf i) as E. rewrite Hi in E.
  destruct (hnd s' i) as [h'|]; [|done]. injection E as E. exists h'. split; [done|]. unfold rest. congruence.
Qed.

Lemma tree_frame_lookup_inv s s' i h' :
  tree_frame s s' -> hnd s' i = Some h' -> exists h, hnd s i = Some h /\ rest h' = rest h.
Proof.
  intros Hf Hi. pose proof (tf_rest _ _ Hf i) as E. rewrite Hi in E.
  destruct (hnd s i) as [h|]; [|done]. injection E as E. exists h. split; [done|]. unfold rest. congruence.
Qed.

Lemma tree_frame_index s s' : tree_frame s s' -> index_ok s -> index_ok s'.
Proof.
  intros Hf Hi i h' Hh. destruct (tree_frame_lookup_inv _ _ _ _ Hf Hh) as (h & Hh' & E).
  rewrite <- (Hi _ _ Hh'). unfold rest in E. congruence.
Qed.

Lemma set_list_free f l h : HANDLE_STRUCT_IS_FREE (set_list f l h) = HANDLE_STRUCT_IS_FREE h.
Proof. by destruct f. Qed.

Lemma lstore_links s p f l :
  tn s p.1 = Some l ->
  exists s', lstore p f s = Ok (tt, s') /\ tree_frame s s' /\ forall j, tn s' j = lset (tn s) p f j.
Proof.
  intros (h & Hh & Hfree & ->)%tn_Some. eexists. split; [by apply lstore_ok|]. split.
  - split; [by destruct s|intros b; apply cnt_put| |apply put_array_ok].
    intros j. rewrite (hnd_put _ _ h) by done. case_decide as Hj; [subst j|done].
    rewrite Hh. cbn. by destruct p as [i []].
  - intros j. unfold tn, lset. rewrite (hnd_put _ _ h) by done. case_decide as Hj; [subst j|done].
    rewrite Hh. cbn. rewrite set_list_free, Hfree. by destruct p as [i []].
Qed.

Lemma lload_links {A} (f : sHandleList -> A) s p l :
  tn s p.1 = Some l ->
  lload p f s = Ok (f match p.2 with fChildren => l.1 | fSiblings => l.2 end, s).
Proof. intros (h & Hh & _ & ->)%tn_Some. rewrite (lload_ok _ _ _ h Hh). by destruct p as [i []]. Qed.

Lemma lset_ext t t' p f j : (forall j, t j = t' j) -> lset t p f j = lset t' p f j.
Proof. intros Ht. unfold lset. by rewrite Ht. Qed.

Lemma ring_ptr_fst p i : (ring_ptr p i).1 = i.
Proof. done. Qed.

Lemma lset_Some t p f j l : t j = Some l -> exists l', lset t p f j = Some l'.
Proof. intros Hl. apply (lset_is_Some t p f j). eauto. Qed.

(** A handle leaves the children of its parent; the parents of the others stay. *)
Lemma UnlinkFromParent_ok s K c lc :
  forest (tn s) K -> index_ok s -> tn s c = Some lc ->
  exists s', UnlinkFromParent c s = Ok (tt, s') /\ tree_frame s s' /\ forest (tn s') (prune [c] K) /\
    (forall l, tn s' c = Some l -> hParent l.2 = 0) /\
    (forall j, j <> c -> (fun l => hParent l.2) <$> tn s' j = (fun l => hParent l.2) <$> tn s j).
Proof.
  intros F Hi Hc. pose proof Hc as (h & Hh & _)%tn_Some. unfold UnlinkFromParent.
  hb_run (hload_ok ui32Index s c h Hh). rewrite (Hi c h Hh). unfold HandleListRemove.
  hb_run (lload_links id s (c, fSiblings) lc Hc). cbn [fst snd id].
  destruct (forest_parent_field F c lc Hc) as [(E0 & E & Hno)|(p & Hp & Hin & E0)].
  { unfold HandleListIsEmpty. rewrite E. cbn [ui32Next]. rewrite Z.eqb_refl. exists s. split; [done|].
    split; [done|]. split; [|split; [|done]].
    - eapply forest_ext; [exact F|done|]. intros p Hp. apply filter_notin_id. intros x Hx Hxc.
      apply list_elem_of_singleton in Hxc as ->. by apply (Hno p).
    - intros l Hl. congruence. }
  pose proof (fo_range _ _ F p Hp) as Hrp. pose proof Hin as (l1 & l2 & HK)%list_elem_of_split.
  destruct (fo_entry _ _ F p l1 c l2 Hp HK) as (lc' & Hlc' & E). assert (lc' = lc) as -> by congruence.
  destruct (unlink_distinct F p c l1 l2 Hp HK) as (Hcp & _ & _ & Hc1 & Hc2 & _).
  rewrite E. unfold HandleListIsEmpty. cbn [ui32Next ui32Prev hParent].
  rewrite (proj2 (Z.eqb_neq _ _)) by (destruct (head_or_elem p l2) as [->|?]; congruence).
  rewrite handle_index_inv by done. fold (ring_ptr p (last_or p l1)) (ring_ptr p (head_or p l2)).
  set (prev := last_or p l1) in *. set (next := head_or p l2) in *.
  assert (prev <> c) as Hprev by (unfold prev; destruct (last_or_elem p l1) as [->|?]; congruence).
  assert (is_Some (tn s prev) /\ is_Some (tn s next)) as [[lp Hlp] [ln Hln]].
  { assert (forall x, x = p \/ x ∈ l1 \/ x ∈ l2 -> is_Some (tn s x)) as Hx.
    { intros x [->|Hx]; [done|]. destruct (forest_child F p x Hp) as (? & ? & _); [rewrite HK; set_solver|eauto]. }
    split; apply Hx; unfold prev, next; [destruct (last_or_elem p l1) as [->|?]|destruct (head_or_elem p l2) as [->|?]]; auto. }
  hb_run (lload_links ui32Next s (c, fSiblings) lc Hc). cbn [fst snd]. rewrite E. cbn [ui32Next].
  destruct (lstore_links s (ring_ptr p prev) (set_ui32Next next) lp) as (s1 & E1 & Hf1 & T1); [by rewrite ring_ptr_fst|].
  hb_run E1. destruct (lset_Some (tn s) (ring_ptr p prev) (set_ui32Next next) c lc Hc) as [l1' Hl1'].
  pose proof (lset_fst _ _ _ _ _ Hl1') as (lc' & Hlc1 & _ & El1'). assert (lc' = lc) as -> by congruence.
  rewrite decide_False in El1' by (rewrite ring_ptr_siblings; naive_solver). rewrite <- T1 in Hl1'.
  hb_run (lload_links ui32Prev s1 (c, fSiblings) l1' Hl1'). cbn [fst snd]. rewrite El1', E. cbn [ui32Prev].
  destruct (lset_Some (tn s) (ring_ptr p prev) (set_ui32Next next) next ln Hln) as [ln' Hln'].
  rewrite <- T1 in Hln'.
  destruct (lstore_links s1 (ring_ptr p next) (set_ui32Prev prev) ln') as (s2 & E2 & Hf2 & T2); [by rewrite ring_ptr_fst|].
  hb_run E2. destruct (lset_Some (tn s1) (ring_ptr p next) (set_ui32Prev prev) c l1' Hl1') as [l2' Hl2'].
  rewrite <- T2 in Hl2'.
  destruct (lstore_links s2 (c, fSiblings) (fun _ => HandleListInit c 0) l2' Hl2') as (s3 & E3 & Hf3 & T3).
  exists s3. split; [exact E3|]. split; [by rewrite Hf1, Hf2|].
  assert (forall j, tn s3 j = unlink_links (tn s) p c prev next j) as T.
  { intros j. rewrite T3. unfold unlink_links. apply lset_ext. intros k. rewrite T2. apply lset_ext, T1. }
  split; [|split].
  - eapply forest_ext; [by apply (forest_unlink F p c l1 l2 Hp HK)|exact T|done].
  - intros l. rewrite T. intros Hl. apply unlink_links_eq in Hl as (l0 & _ & _ & El); [|done].
    by rewrite decide_True in El; [rewrite El|].
  - intros j Hj. rewrite T. destruct (unlink_links (tn s) p c prev next j) as [l|] eqn:El.
    + apply unlink_links_eq in El as (l0 & Hl0 & _ & El); [|done]. rewrite Hl0. cbn. f_equal.
      rewrite El, decide_False by done. clear El. by case_decide.
    + destruct (tn s j) as [l0|] eqn:E0'; [|done]. exfalso.
      assert (is_Some (unlink_links (tn s) p c prev next j)) as [? ?]; [|congruence].
      apply unlink_links_Some. eauto.
Qed.

(** A new handle becomes the last child of its parent. *)
Lemma AdoptChild_ok s K p c lc :
  forest (tn s) K -> index_ok s -> is_Some (tn s p) -> tn s c = Some lc -> hParent lc.2 = 0 ->
  K c = [] -> p <> c ->
  exists s', AdoptChild p c s = Ok (tt, s') /\ tree_frame s s' /\ forest (tn s') (adopt_kids (K := K) p c) /\
    (forall l, tn s' c = Some l -> hParent l.2 = p + 1) /\
    (forall j, j <> c -> (fun l => hParent l.2) <$> tn s' j = (fun l => hParent l.2) <$> tn s j).
Proof.
  intros F Hi [lp Hlp] Hc Hroot Hleaf Hpc. pose proof (fo_range _ _ F p ltac:(eauto)) as Hrp.
  pose proof Hc as (h & Hh & _)%tn_Some. pose proof Hlp as (hp & Hhp & _ & Elp)%tn_Some.
  pose proof (fo_head _ _ F p lp Hlp) as Ehd.
  pose proof (adopt_fresh F c lc Hc Hroot) as Hfresh. pose proof (adopt_prev F p c ltac:(eauto) lc Hc Hroot Hleaf Hpc) as Hprev.
  set (prev := last_or p (K p)) in *.
  assert (is_Some (tn s prev)) as [lv Hlv].
  { unfold prev. destruct (last_or_elem p (K p)) as [->|Hin]; [eauto|].
    destruct (forest_child F p _ ltac:(eauto) Hin) as (? & ? & _). eauto. }
  unfold AdoptChild. hb_run (hload_ok (fun h => hParent (sChildren h)) s p hp Hhp).
  replace (sChildren hp) with lp.1 by (by rewrite Elp). rewrite Ehd. cbn [hParent].
  rewrite handle_index_inv by done. hb_run (hload_ok ui32Index s c h Hh). rewrite (Hi c h Hh).
  unfold HandleListInsertBefore. hb_run (lload_links ui32Prev s (p, fChildren) lp Hlp). cbn [fst snd].
  hb_run (lload_links ui32Prev s (p, fChildren) lp Hlp). cbn [fst snd]. rewrite Ehd. cbn [ui32Prev].
  fold prev (ring_ptr p prev). rewrite index_handle by done.
  destruct (lstore_links s (c, fSiblings) (set_ui32Prev prev) lc Hc) as (s1 & E1 & Hf1 & T1). hb_run E1.
  destruct (lset_Some (tn s) (c, fSiblings) (set_ui32Prev prev) p lp Hlp) as [lp1 Hlp1]. rewrite <- T1 in Hlp1.
  destruct (lstore_links s1 (p, fChildren) (set_ui32Prev c) lp1 Hlp1) as (s2 & E2 & Hf2 & T2). hb_run E2.
  assert (forall j, is_Some (tn s j) -> is_Some (tn s2 j)) as Hs2.
  { intros j Hj. rewrite T2, lset_is_Some, T1, lset_is_Some. done. }
  destruct (Hs2 c ltac:(eauto)) as [lc2 Hlc2].
  destruct (lstore_links s2 (c, fSiblings) (set_ui32Next p) lc2 Hlc2) as (s3 & E3 & Hf3 & T3). hb_run E3.
  assert (forall j, is_Some (tn s j) -> is_Some (tn s3 j)) as Hs3.
  { intros j Hj. rewrite T3, lset_is_Some. by apply Hs2. }
  destruct (Hs3 prev ltac:(eauto)) as [lv3 Hlv3].
  destruct (lstore_links s3 (ring_ptr p prev) (set_ui32Next c) lv3) as (s4 & E4 & Hf4 & T4); [done|]. hb_run E4.
  assert (is_Some (tn s4 c)) as [lc4 Hlc4] by (rewrite T4, lset_is_Some; apply Hs3; eauto).
  destruct (lstore_links s4 (c, fSiblings) (set_hParent (p + 1)) lc4 Hlc4) as (s5 & E5 & Hf5 & T5).
  exists s5. split; [exact E5|]. split; [by rewrite Hf1, Hf2, Hf3, Hf4|].
  assert (forall j, tn s5 j = adopt_links (tn s) p c prev j) as T.
  { intros j. rewrite T5. unfold adopt_links. apply lset_ext. intros k. rewrite T4. apply lset_ext. intros k'.
    rewrite T3. apply lset_ext. intros k''. rewrite T2. apply lset_ext, T1. }
  split; [|split].
  - eapply forest_ext; [by apply (forest_adopt F p c ltac:(eauto) lc Hc Hroot Hleaf Hpc)|exact T|done].
  - intros l. rewrite T. intros Hl. apply adopt_links_eq in Hl as (l0 & _ & _ & El); [|done|done].
    by rewrite decide_True in El; [rewrite El|].
  - intros j Hj. rewrite T. destruct (adopt_links (tn s) p c prev j) as [l|] eqn:El.
    + apply adopt_links_eq in El as (l0 & Hl0 & _ & El); [|done|done]. rewrite Hl0. cbn. f_equal.
      rewrite El, decide_False by done. clear El. by case_decide.
    + destruct (tn s j) as [l0|] eqn:E0'; [|done]. exfalso.
      assert (is_Some (adopt_links (tn s) p c prev j)) as [? ?]; [|congruence].
      apply adopt_links_Some. eauto.
Qed.

End ListOps.
