(* ===== verification/PvrHandlePool.v ===== *)
(** * Free and batched handles

    The structures that are not handles: those on the free list (linked through
    [ui32NextIndexPlusOne], where 0 stands for the next position), with the
    counts per block, and those that were freed in a batch and wait for its end.
    [pool] states the books, with the structures [D] that are being freed left
    out, and [first] the start of the batch's list.  In a base with purging there
    is no free list and no batch. *)

From stdpp Require Import base list numbers option gmap relations.
From Stdlib Require Import ZArith Lia.
From S2P Require Import Prelude PvrHash PvrHandleMap PvrHandle PvrHandleArray PvrHandleForest.

Local Open Scope Z_scope.

(** ** Chains of positions *)

(** The free list, given the link of each structure. *)
Fixpoint fchain (n : Z -> option Z) (l : list Z) : Prop :=
  match l with
  | [] => True
  | i :: l =>
      (exists x, n i = Some x /\
        match l with [] => x = 0 | j :: _ => x = j + 1 \/ (x = 0 /\ j = i + 1) end) /\ fchain n l
  end.

(** The list of a batch, from its first element (plus one). *)
Fixpoint bchain (n : Z -> option Z) (first : Z) (l : list Z) : Prop :=
  match l with
  | [] => first = 0
  | i :: l => first = i + 1 /\ exists x, n i = Some x /\ bchain n x l
  end.

Lemma fchain_ext n n' l : fchain n l -> (forall i, i ∈ l -> n' i = n i) -> fchain n' l.
Proof.
  induction l as [|i l IH]; intros Hc Hn; [done|]. destruct Hc as [Hx Hc]. split.
  - rewrite Hn by set_solver. done.
  - apply IH; [done|set_solver].
Qed.

Lemma bchain_ext n n' first l : bchain n first l -> (forall i, i ∈ l -> n' i = n i) -> bchain n' first l.
Proof.
  revert first. induction l as [|i l IH]; intros first Hc Hn; [done|].
  destruct Hc as [Hf (x & Hx & Hc)]. split; [done|]. exists x. rewrite Hn by set_solver.
  split; [done|]. apply IH; [done|set_solver].
Qed.

(** Appending at the end, where the last structure is linked to the new one. *)
Lemma fchain_app n n' l j k :
  fchain n l -> fchain n' (j :: k) -> NoDup l ->
  (forall i, i ∈ l -> n' i = if decide (i = last_or j l) then Some (j + 1) else n i) ->
  fchain n' (l ++ j :: k).
Proof.
  induction l as [|i l IH]; intros Hc Hk Hnd Hn; [done|].
  destruct Hc as [(x & Hx & Hxl) Hc]. apply NoDup_cons in Hnd as [Hi Hnd].
  assert (last_or j (i :: l) = last_or i l) as El by (unfold last_or; rewrite last_cons; by destruct (last l)).
  change ((i :: l) ++ j :: k) with (i :: (l ++ j :: k)).
  split.
  - assert (i = last_or i l <-> l = []) as Hiff by (rewrite <- (last_or_self i l Hi); done).
    rewrite Hn, El by set_solver. rewrite (decide_ext _ _ _ _ Hiff).
    destruct l as [|y l]; [exists (j + 1); cbn; auto|]. rewrite decide_False by done. exists x. done.
  - apply IH; [done|done|done|]. intros y Hy. rewrite Hn, El by set_solver.
    destruct l as [|z l]; [by apply elem_of_nil in Hy|].
    change (z :: l) with ([] ++ z :: l). by rewrite !last_or_mid.
Qed.

Section Pool.
Context {H : Type} {HM : HandleMap H} {BSH : BlockShift}.

Implicit Types s : PVRSRV_HANDLE_BASE H.
Abbreviation BS := HANDLE_BLOCK_SIZE.

Definition nexts s : Z -> option Z := fun i => ui32NextIndexPlusOne <$> hnd s i.

(** How many of the positions are in block [b]. *)
Definition in_block (b : Z) (l : list Z) : Z := Z.of_nat (length (filter (fun i => i / BS = b) l)).

(** The free list as the fields of the base give it. *)
Definition flist s (l : list Z) : Prop :=
  match l with
  | [] => ui32FirstFreeIndex s = 0 /\ ui32LastFreeIndexPlusOne s = 0
  | i :: _ => ui32FirstFreeIndex s = i /\ ui32LastFreeIndexPlusOne s = last_or i l + 1 /\ fchain (nexts s) l
  end.

Lemma flist_intro s l x :
  l <> [] -> ui32FirstFreeIndex s = head_or x l -> ui32LastFreeIndexPlusOne s = last_or x l + 1 ->
  fchain (nexts s) l -> flist s l.
Proof.
  destruct l as [|i l]; [done|]. intros _ Hf Hl Hc. split; [done|]. split; [|done]. rewrite Hl.
  unfold last_or. rewrite !last_cons. by destruct (last l).
Qed.

(** With purging, a scan from [ui32FirstFreeIndex] on finds the free structures. *)
Definition purge_links s (l : list Z) : Prop :=
  ui32HandBatchSize s = 0 /\ 0 <= ui32FirstFreeIndex s <= ui32TotalHandCount s /\
  ui32FirstFreeIndex s mod BS = 0 /\ (forall i, i ∈ l -> ui32FirstFreeIndex s <= i) /\
  (forall i h, i ∈ l -> hnd s i = Some h -> eInternalFlag h = 0).

Record pool (D : list Z) s (fl bl : list Z) (first : Z) : Prop := mk_pool {
  po_array : array_ok s;
  po_index : index_ok s;
  po_fl_nodup : NoDup fl;
  po_fl i : i ∈ fl <-> exists h, hnd s i = Some h /\ eType h = PVRSRV_HANDLE_TYPE_NONE /\
    (i ∉ bl) /\ (i ∉ D);
  po_count : ui32FreeHandCount s = Z.of_nat (length fl);
  po_cnt b c : cnt s b = Some c -> c = in_block b fl;
  po_links : if bPurgingEnabled s then purge_links s fl else flist s fl;
  po_bl_nodup : NoDup bl;
  po_bl i : i ∈ bl -> exists h, hnd s i = Some h /\
    ((eType h = PVRSRV_HANDLE_TYPE_NONE /\ eInternalFlag h = 3) \/
     (eType h <> PVRSRV_HANDLE_TYPE_NONE /\ eInternalFlag h = 1));
  po_chain : bchain (nexts s) first bl;
  po_live i h : hnd s i = Some h -> eType h <> PVRSRV_HANDLE_TYPE_NONE -> i ∉ bl ->
    ui32NextIndexPlusOne h = 0 /\ eInternalFlag h = 0;
  po_batch : HANDLES_BATCHED s = false -> bl = [] }.

Lemma pool_fl_range D s fl bl first i :
  pool D s fl bl first -> i ∈ fl -> 0 <= i < ui32TotalHandCount s.
Proof.
  intros P Hi. apply (po_fl _ _ _ _ _ P) in Hi as (h & Hh & _). apply hnd_in_range; [apply P|eauto].
Qed.

Lemma pool_fl_length D s fl bl first :
  pool D s fl bl first -> Z.of_nat (length fl) <= ui32TotalHandCount s.
Proof.
  intros P. pose proof (array_total_range _ (po_array _ _ _ _ _ P)).
  rewrite <- (Z.max_r 0 (ui32TotalHandCount s)) by lia. apply NoDup_bounded; [apply P|].
  apply Forall_forall. intros i Hi. by eapply pool_fl_range.
Qed.

(** The rest of the structures decides. *)
Lemma pool_tree_frame D s s' fl bl first :
  tree_frame s s' -> pool D s fl bl first -> pool D s' fl bl first.
Proof.
  intros Hf [P1 P2 P3 P4 P5 P6 P7 P8 P9 P10 P11 P12]. pose proof (tf_fields _ _ Hf) as Hs.
  assert (forall i h', hnd s' i = Some h' -> exists h, hnd s i = Some h /\ rest h' = rest h) as Hinv.
  { intros i h'. by apply tree_frame_lookup_inv. }
  assert (forall i, nexts s' i = nexts s i) as Hn.
  { intros i. unfold nexts. pose proof (tf_rest _ _ Hf i) as E.
    destruct (hnd s' i), (hnd s i); try done. cbn in *. unfold rest in E. congruence. }
  unfold rest in Hinv. constructor.
  - by apply (tf_array _ _ Hf).
  - by eapply tree_frame_index.
  - done.
  - intros i. rewrite P4. split.
    + intros (h & Hh & ? & ? & ?). destruct (tree_frame_lookup _ _ _ _ Hf Hh) as (h' & Hh' & E).
      exists h'. unfold rest in E. split_and!; [done|congruence|done|done].
    + intros (h & Hh & ? & ? & ?). destruct (Hinv _ _ Hh) as (h' & Hh' & E).
      exists h'. split_and!; [done|congruence|done|done].
  - by rewrite Hs.
  - intros b c. rewrite (tf_cnt _ _ Hf). apply P6.
  - assert (bPurgingEnabled s' = bPurgingEnabled s) as -> by (by rewrite Hs).
    assert (ui32FirstFreeIndex s' = ui32FirstFreeIndex s) as Ef by (by rewrite Hs).
    assert (ui32LastFreeIndexPlusOne s' = ui32LastFreeIndexPlusOne s) as El by (by rewrite Hs).
    destruct (bPurgingEnabled s).
    + destruct P7 as (Hb & Hr & Hm & Hle & Hz). unfold purge_links. rewrite !Ef.
      replace (ui32HandBatchSize s') with (ui32HandBatchSize s) by (by rewrite Hs).
      replace (ui32TotalHandCount s') with (ui32TotalHandCount s) by (by rewrite Hs).
      split; [done|]. split; [done|]. split; [done|]. split; [done|]. intros i h' Hi Hh'.
      destruct (Hinv _ _ Hh') as (h & Hh & E). injection E as _ _ _ -> _ _. eauto.
    + destruct fl as [|i fl]; cbn [flist] in *; rewrite Ef, El; [done|]. destruct P7 as (? & ? & Hc).
      split; [done|]. split; [done|]. eapply fchain_ext; [exact Hc|]. intros j _. apply Hn.
  - done.
  - intros i Hi. destruct (P9 i Hi) as (h & Hh & Hd). destruct (tree_frame_lookup _ _ _ _ Hf Hh) as (h' & Hh' & E).
    exists h'. split; [done|]. injection E as -> _ _ -> _ _. done.
  - eapply bchain_ext; [exact P10|]. intros j _. apply Hn.
  - intros i h' Hh'. destruct (Hinv _ _ Hh') as (h & Hh & E). injection E as -> _ -> -> _ _. by apply P11.
  - rewrite Hs. exact P12.
Qed.

(** ** Handles as the clients see them *)

Record entry := mk_entry { e_type : PVRSRV_HANDLE_TYPE; e_data : Z; e_flag : Z; e_parent : Z }.

Definition ent s (i : Z) : option entry :=
  h ← hnd s i;
  if is_none (eType h) then None
  else Some (mk_entry (eType h) (pvData h) (eFlag h) (hParent (sSiblings h))).

(** Two bases with the same handles, forest, hash table and batch. *)
Record same_handles s s' : Prop := mk_same {
  sh_hash : psHashTab s' = psHashTab s;
  sh_max : ui32MaxIndexPlusOne s' = ui32MaxIndexPlusOne s;
  sh_size : ui32HandBatchSize s' = ui32HandBatchSize s;
  sh_batch : ui32FirstBatchIndexPlusOne s' = ui32FirstBatchIndexPlusOne s;
  sh_failures : ui32BatchHandAllocFailures s' = ui32BatchHandAllocFailures s;
  sh_purging : bPurgingEnabled s' = bPurgingEnabled s;
  sh_total : ui32TotalHandCount s <= ui32TotalHandCount s';
  sh_tn j : tn s' j = tn s j;
  sh_ent j : ent s' j = ent s j }.

#[export] Instance same_handles_preorder : PreOrder same_handles.
Proof.
  split; [by constructor|]. intros s1 s2 s3 [] []. constructor; try congruence; [lia|intros j; congruence..].
Qed.

(** [D] matters for the structures without a type outside the batch only. *)
Lemma pool_relax D D' s fl bl first :
  pool D s fl bl first ->
  (forall i h, hnd s i = Some h -> eType h = PVRSRV_HANDLE_TYPE_NONE -> i ∉ bl -> i ∈ D <-> i ∈ D') ->
  pool D' s fl bl first.
Proof.
  intros [P1 P2 P3 P4 P5 P6 P7 P8 P9 P10 P11 P12] HD. constructor; try done.
  intros i. rewrite P4. split; intros (h & Hh & Ht & Hb & Hd); exists h; pose proof (HD i h Hh Ht Hb); naive_solver.
Qed.

(** The base is the first one with structure [h] at position [p]. *)
Record stored s (p : Z) (h : sHandle) s' : Prop := mk_stored {
  st_fields : s' = set_psHandleArray (psHandleArray s') s;
  st_cnt b : cnt s' b = cnt s b;
  st_hnd j : hnd s' j = if decide (j = p) then Some h else hnd s j;
  st_array : array_ok s -> array_ok s' }.

Lemma stored_refl s p h : hnd s p = Some h -> stored s p h s.
Proof.
  intros Hp. split; [by destruct s|done| |done]. intros j. case_decide; [by subst|done].
Qed.

Lemma hstore_stored s p h s1 f :
  stored s p h s1 -> exists s2, hstore p f s1 = Ok (tt, s2) /\ stored s p (f h) s2.
Proof.
  intros [S1 S2 S3 S4]. assert (hnd s1 p = Some h) as Hp by (rewrite S3; by rewrite decide_True).
  exists (put p (f h) s1). split; [by apply hstore_ok|]. split.
  - rewrite S1. done.
  - intros b. by rewrite cnt_put.
  - intros j. rewrite (hnd_put s1 p h) by done. rewrite S3. by case_decide.
  - intros Ha. by apply put_array_ok, S4.
Qed.

Lemma hload_stored {A} (f : sHandle -> A) s p h s1 : stored s p h s1 -> hload p f s1 = Ok (f h, s1).
Proof. intros Hs. apply hload_ok. rewrite (st_hnd _ _ _ _ Hs). by rewrite decide_True. Qed.

(** Writing a structure that is being freed or in the batch. *)
Lemma pool_stored D s s' fl bl first p h h' :
  pool D s fl bl first -> hnd s p = Some h -> stored s p h' s' -> p ∈ D \/ p ∈ bl -> ui32Index h' = p ->
  (p ∈ bl -> ui32NextIndexPlusOne h' = ui32NextIndexPlusOne h /\
    ((eType h' = PVRSRV_HANDLE_TYPE_NONE /\ eInternalFlag h' = 3) \/
     (eType h' <> PVRSRV_HANDLE_TYPE_NONE /\ eInternalFlag h' = 1))) ->
  (p ∉ bl -> eType h' <> PVRSRV_HANDLE_TYPE_NONE -> ui32NextIndexPlusOne h' = 0 /\ eInternalFlag h' = 0) ->
  pool D s' fl bl first.
Proof.
  intros [P1 P2 P3 P4 P5 P6 P7 P8 P9 P10 P11 P12] Hp [S1 S2 S3 S4] Hpd Hix Hbl Hnb.
  assert (p ∉ fl) as Hfl by (rewrite P4; naive_solver).
  assert (forall i, nexts s' i = if decide (i = p) then Some (ui32NextIndexPlusOne h') else nexts s i) as Hn.
  { intros i. unfold nexts. rewrite S3. by case_decide. }
  constructor; try done.
  - by apply S4.
  - intros i hi. rewrite S3. case_decide; [intros [= <-]; by subst|apply P2].
  - intros i. rewrite P4, S3. split.
    + intros (hi & Hi & Ht & Hb & Hd). exists hi. rewrite decide_False by naive_solver. done.
    + intros (hi & Hi & Ht & Hb & Hd). rewrite decide_False in Hi by naive_solver. eauto.
  - by rewrite S1.
  - intros b c. rewrite S2. apply P6.
  - assert (bPurgingEnabled s' = bPurgingEnabled s /\ ui32FirstFreeIndex s' = ui32FirstFreeIndex s /\
      ui32LastFreeIndexPlusOne s' = ui32LastFreeIndexPlusOne s /\ ui32HandBatchSize s' = ui32HandBatchSize s /\
      ui32TotalHandCount s' = ui32TotalHandCount s) as (-> & Ef & El & Eb & Et) by (rewrite S1; done).
    destruct (bPurgingEnabled s).
    + unfold purge_links. rewrite Ef, Eb, Et. destruct P7 as (? & ? & ? & ? & Hz).
      split; [done|]. split; [done|]. split; [done|]. split; [done|]. intros i hi Hi.
      rewrite S3, decide_False by (intros ->; done). by apply Hz.
    + destruct fl as [|i fl]; cbn [flist] in *; rewrite Ef, El; [done|]. destruct P7 as (? & ? & Hc).
      split; [done|]. split; [done|]. eapply fchain_ext; [exact Hc|]. intros j Hj. rewrite Hn.
      by rewrite decide_False by (intros ->; done).
  - intros i Hi. rewrite S3. case_decide as Hip; [|by apply P9]. subst i. exists h'. naive_solver.
  - eapply bchain_ext; [exact P10|]. intros j Hj. rewrite Hn. case_decide; [|done]. subst j.
    unfold nexts. rewrite Hp. cbn. f_equal. by apply Hbl.
  - intros i hi. rewrite S3. case_decide as Hip; [|by apply P11]. subst i. intros [= <-]. naive_solver.
  - intros Hb. apply P12. unfold HANDLES_BATCHED in *. by rewrite S1 in Hb.
Qed.

(** Two bases that differ in the free list only. *)
Record pool_frame s s' : Prop := mk_pool_frame {
  pf_hash : psHashTab s' = psHashTab s;
  pf_max : ui32MaxIndexPlusOne s' = ui32MaxIndexPlusOne s;
  pf_total : ui32TotalHandCount s' = ui32TotalHandCount s;
  pf_size : ui32HandBatchSize s' = ui32HandBatchSize s;
  pf_batch : ui32FirstBatchIndexPlusOne s' = ui32FirstBatchIndexPlusOne s;
  pf_failures : ui32BatchHandAllocFailures s' = ui32BatchHandAllocFailures s;
  pf_purging : bPurgingEnabled s' = bPurgingEnabled s;
  pf_hnd j : set_ui32NextIndexPlusOne 0 <$> hnd s' j = set_ui32NextIndexPlusOne 0 <$> hnd s j }.

Lemma pool_frame_tn s s' : pool_frame s s' -> forall j, tn s' j = tn s j.
Proof.
  intros Hf j. pose proof (pf_hnd _ _ Hf j) as E. unfold tn.
  destruct (hnd s' j) as [h'|], (hnd s j) as [h|]; try done. destruct h, h'. cbn in *.
  injection E as -> -> -> -> -> -> ->. done.
Qed.

Lemma pool_frame_same s s' : pool_frame s s' -> same_handles s s'.
Proof.
  intros Hf. constructor; try apply Hf; [by rewrite (pf_total _ _ Hf)|by apply pool_frame_tn|]. intros j. unfold ent.
  pose proof (pf_hnd _ _ Hf j) as E. destruct (hnd s' j) as [h'|], (hnd s j) as [h|]; try done.
  destruct h, h'. cbn in *. injection E as -> -> -> -> -> -> ->. done.
Qed.

Lemma nonext_eq h h' :
  set_ui32NextIndexPlusOne 0 h' = set_ui32NextIndexPlusOne 0 h ->
  eType h' = eType h /\ eInternalFlag h' = eInternalFlag h /\ ui32Index h' = ui32Index h.
Proof. destruct h, h'. cbn. intros [=]. done. Qed.

Lemma pool_frame_lookup s s' j h :
  pool_frame s s' -> hnd s j = Some h -> exists h', hnd s' j = Some h' /\
    eType h' = eType h /\ eInternalFlag h' = eInternalFlag h /\ ui32Index h' = ui32Index h.
Proof.
  intros Hf Hj. pose proof (pf_hnd _ _ Hf j) as E. rewrite Hj in E. destruct (hnd s' j) as [h'|]; [|done].
  exists h'. split; [done|]. injection E as E. apply nonext_eq. unfold set_ui32NextIndexPlusOne. congruence.
Qed.

Lemma pool_frame_lookup_inv s s' j h' :
  pool_frame s s' -> hnd s' j = Some h' -> exists h, hnd s j = Some h /\
    eType h' = eType h /\ eInternalFlag h' = eInternalFlag h /\ ui32Index h' = ui32Index h.
Proof.
  intros Hf Hj. pose proof (pf_hnd _ _ Hf j) as E. rewrite Hj in E. destruct (hnd s j) as [h|]; [|done].
  exists h. split; [done|]. injection E as E. apply nonext_eq. unfold set_ui32NextIndexPlusOne. congruence.
Qed.

(** A base with another free list, when the other structures are the same. *)
Lemma pool_reframe D D' s s' fl fl' bl first :
  pool D s fl bl first -> array_ok s' -> pool_frame s s' -> (forall j, j ∉ fl -> hnd s' j = hnd s j) ->
  NoDup fl' ->
  (forall i h, hnd s i = Some h -> eType h = PVRSRV_HANDLE_TYPE_NONE -> i ∉ bl -> i ∈ fl' <-> i ∉ D') ->
  (forall i, i ∈ fl' -> exists h, hnd s i = Some h /\ eType h = PVRSRV_HANDLE_TYPE_NONE /\ i ∉ bl) ->
  ui32FreeHandCount s' = Z.of_nat (length fl') ->
  (forall b c, cnt s' b = Some c -> c = in_block b fl') ->
  (if bPurgingEnabled s' then purge_links s' fl' else flist s' fl') ->
  pool D' s' fl' bl first.
Proof.
  intros [P1 P2 P3 P4 P5 P6 P7 P8 P9 P10 P11 P12] Ha Hf Hh Hnd Hin Hin' Hc Hcnt Hl.
  assert (forall i, i ∈ bl -> hnd s' i = hnd s i) as Hbl.
  { intros i Hi. apply Hh. rewrite P4. naive_solver. }
  constructor; try done.
  - intros i h' Hi. destruct (pool_frame_lookup_inv _ _ _ _ Hf Hi) as (h & Hh' & _ & _ & ->). by apply P2.
  - intros i. split.
    + intros Hi. destruct (Hin' i Hi) as (h & Hh' & Ht & Hb).
      destruct (pool_frame_lookup _ _ _ _ Hf Hh') as (h' & Hi' & Et & _). exists h'.
      split; [done|]. split; [congruence|]. split; [done|]. by apply (Hin i h).
    + intros (h' & Hi & Ht & Hb & Hd). destruct (pool_frame_lookup_inv _ _ _ _ Hf Hi) as (h & Hh' & Et & _).
      apply (Hin i h); [done|congruence|done|done].
  - intros i Hi. rewrite Hbl by done. by apply P9.
  - eapply bchain_ext; [exact P10|]. intros i Hi. unfold nexts. by rewrite Hbl.
  - intros i h Hi Ht Hb. destruct (decide (i ∈ fl)) as [Hfl|Hfl]; [|rewrite Hh in Hi by done; by apply (P11 i)].
    apply P4 in Hfl as (h0 & Hh0 & Ht0 & _). destruct (pool_frame_lookup _ _ _ _ Hf Hh0) as (h' & Hh' & Et & _).
    congruence.
  - intros Hb. apply P12. unfold HANDLES_BATCHED in *. by rewrite <- (pf_size _ _ Hf).
Qed.

(** ** Freeing a structure *)

(** The free list gets the structure as its last. *)
Lemma push_link D s fl bl first p h :
  pool (p :: D) s fl bl first -> hnd s p = Some h -> ui32NextIndexPlusOne h = 0 ->
  bPurgingEnabled s = false ->
  exists s1, (free ← base ui32FreeHandCount;
     (if free =? 0 then modify (set_ui32FirstFreeIndex p)
      else last ← base ui32LastFreeIndexPlusOne;
           hstore (sub32 last 1) (set_ui32NextIndexPlusOne (add32 p 1)));;
     modify (set_ui32LastFreeIndexPlusOne (add32 p 1))) s = Ok (tt, s1) /\
    flist s1 (fl ++ [p]) /\ pool_frame s s1 /\ array_ok s1 /\ (forall b, cnt s1 b = cnt s b) /\
    ui32FreeHandCount s1 = ui32FreeHandCount s /\ (forall j, j ∉ fl -> hnd s1 j = hnd s j).
Proof.
  intros P Hp Hnx Hpu. pose proof (po_array _ _ _ _ _ P) as Ha. pose proof (hnd_range _ _ _ Ha Hp) as Hr.
  assert (p ∉ fl) as Hfl by (rewrite (po_fl _ _ _ _ _ P); set_solver).
  pose proof (po_links _ _ _ _ _ P) as Hl. rewrite Hpu in Hl. rewrite hb_base_bind.
  pose proof (po_count _ _ _ _ _ P) as Hcount.
  assert (add32 p 1 = p + 1) as Ep by (apply wrapU_small; lia).
  destruct fl as [|i fl].
  - rewrite (proj2 (Z.eqb_eq _ _)) by done. eexists. split; [done|]. rewrite Ep. cbn. split.
    { split; [done|]. split; [done|]. split; [|done]. exists 0. split; [|done].
      unfold nexts. change (hnd _ p) with (hnd s p). rewrite Hp. cbn. by f_equal. }
    split; [by constructor|]. split; [by destruct Ha; constructor|]. done.
  - destruct Hl as (Hfirst & Hlast & Hc). rewrite (proj2 (Z.eqb_neq _ _)) by (rewrite Hcount; cbn [length]; lia).
    set (q := last_or i (i :: fl)) in *.
    assert (q ∈ i :: fl) as Hq by (unfold q; destruct (last_or_elem i (i :: fl)) as [->|?]; [set_solver|done]).
    pose proof (pool_fl_range _ _ _ _ _ _ P Hq) as Hqr. pose proof (array_total_range _ Ha).
    destruct (proj2 (hnd_in_range s q Ha) Hqr) as [hq Hhq].
    assert ((last ← base ui32LastFreeIndexPlusOne; hstore (sub32 last 1) (set_ui32NextIndexPlusOne (add32 p 1))) s
      = Ok (tt, put q (set_ui32NextIndexPlusOne (p + 1) hq) s)) as E.
    { rewrite hb_base_bind, Hlast, Ep.
      assert (sub32 (q + 1) 1 = q) as -> by (unfold sub32; replace (q + 1 - 1) with q by lia; apply wrapU_small; lia).
      by rewrite (hstore_ok _ s q hq Hhq). }
    hb_run E. rewrite Ep. eexists. split; [done|].
    set (s1 := put q (set_ui32NextIndexPlusOne (p + 1) hq) s).
    assert (forall j, hnd (set_ui32LastFreeIndexPlusOne (p + 1) s1) j =
      if decide (j = q) then Some (set_ui32NextIndexPlusOne (p + 1) hq) else hnd s j) as Hh.
    { intros j. change (hnd s1 j = if decide (j = q) then Some (set_ui32NextIndexPlusOne (p + 1) hq) else hnd s j).
      by apply (hnd_put s q hq). }
    split; [|split; [|split; [|split; [|split]]]].
    + cbn [flist app]. change (i :: fl ++ [p]) with ((i :: fl) ++ [p]).
      split; [done|]. split; [by rewrite last_or_app|].
      apply (fchain_app (nexts s)); [done| |apply P|].
      * split; [|done]. exists 0. split; [|done]. unfold nexts. rewrite Hh, decide_False by set_solver.
        rewrite Hp. cbn. by f_equal.
      * intros j Hj. unfold nexts. rewrite Hh.
        assert (last_or p (i :: fl) = q) as -> by (unfold q, last_or; rewrite !last_cons; by destruct (last fl)).
        by case_decide.
    + constructor; try done. intros j. rewrite Hh. case_decide; [subst j; by rewrite Hhq|done].
    + destruct (put_array_ok s q (set_ui32NextIndexPlusOne (p + 1) hq) Ha). by constructor.
    + intros b. change (cnt s1 b = cnt s b). apply cnt_put.
    + done.
    + intros j Hj. rewrite Hh, decide_False; [done|]. intros ->. done.
Qed.

Lemma in_block_app b l1 l2 : in_block b (l1 ++ l2) = in_block b l1 + in_block b l2.
Proof. unfold in_block. rewrite filter_app, length_app. lia. Qed.

Lemma in_block_one b i : in_block b [i] = if decide (i / BS = b) then 1 else 0.
Proof. unfold in_block. rewrite filter_cons. by case_decide. Qed.

Lemma push_ok D s fl bl first p h :
  pool (p :: D) s fl bl first -> p ∉ D -> hnd s p = Some h -> eType h = PVRSRV_HANDLE_TYPE_NONE ->
  p ∉ bl -> ui32NextIndexPlusOne h = 0 ->
  (bPurgingEnabled s = true -> ui32FirstFreeIndex s = 0 /\ eInternalFlag h = 0) ->
  exists s', free_handle_struct p s = Ok (tt, s') /\ pool D s' (fl ++ [p]) bl first /\ pool_frame s s' /\
    (forall j, j ∉ fl -> hnd s' j = hnd s j) /\ (bPurgingEnabled s = true -> ui32FirstFreeIndex s' = 0).
Proof.
  intros P HpD Hp Ht Hpb Hnx Hpu. pose proof (po_array _ _ _ _ _ P) as Ha.
  assert (p ∉ fl) as Hfl by (rewrite (po_fl _ _ _ _ _ P); set_solver).
  assert (exists s1, hb_when (negb (bPurgingEnabled s))
    (free ← base ui32FreeHandCount;
     (if free =? 0 then modify (set_ui32FirstFreeIndex p)
      else last ← base ui32LastFreeIndexPlusOne;
           hstore (sub32 last 1) (set_ui32NextIndexPlusOne (add32 p 1)));;
     modify (set_ui32LastFreeIndexPlusOne (add32 p 1))) s = Ok (tt, s1) /\
    (if bPurgingEnabled s then purge_links s1 (fl ++ [p]) /\ ui32FirstFreeIndex s1 = 0 else flist s1 (fl ++ [p])) /\
    pool_frame s s1 /\ array_ok s1 /\ (forall b, cnt s1 b = cnt s b) /\
    ui32FreeHandCount s1 = ui32FreeHandCount s /\ (forall j, j ∉ fl -> hnd s1 j = hnd s j))
    as (s1 & E1 & L1 & F1 & A1 & C1 & N1 & H1).
  { destruct (bPurgingEnabled s) eqn:Epu.
    - destruct (Hpu eq_refl) as [Hz Hflag]. pose proof (po_links _ _ _ _ _ P) as Hl. rewrite Epu in Hl.
      exists s. split; [done|]. split; [|done]. split; [|done]. destruct Hl as (Hb & Hr & Hm & Hle & Hfz).
      pose proof (hnd_range _ _ _ Ha Hp). split; [done|]. split; [done|]. split; [done|]. split.
      + intros i Hi. rewrite Hz. apply elem_of_app in Hi as [Hi|Hi]; [apply Hle in Hi; lia|].
        apply list_elem_of_singleton in Hi as ->. lia.
      + intros i hi Hi Hhi. apply elem_of_app in Hi as [Hi|Hi]; [by eapply Hfz|].
        apply list_elem_of_singleton in Hi as ->. congruence.
    - by apply (push_link D s fl bl first p h). }
  unfold free_handle_struct. rewrite hb_base_bind. hb_run E1. rewrite hb_modify_bind.
  destruct (cnt_in_range s p Ha) as [c Hc]; [apply hnd_in_range; eauto|].
  pose proof (po_cnt _ _ _ _ _ P _ _ Hc) as Hcv. pose proof (po_count _ _ _ _ _ P) as Hcount.
  assert (Z.of_nat (length (fl ++ [p])) <= ui32TotalHandCount s) as Hlen.
  { pose proof (array_total_range _ Ha). rewrite <- (Z.max_r 0 (ui32TotalHandCount s)) by lia.
    apply NoDup_bounded; [apply NoDup_snoc; [apply P|done]|]. apply Forall_forall. intros i Hi.
    apply elem_of_app in Hi as [Hi|Hi]; [by eapply pool_fl_range|]. apply list_elem_of_singleton in Hi as ->.
    apply hnd_in_range; eauto. }
  rewrite length_app in Hlen. cbn [length] in Hlen. pose proof (array_total_range _ Ha) as Htot.
  assert (c <= Z.of_nat (length fl)) as Hcl.
  { rewrite Hcv. unfold in_block. pose proof (length_filter (fun i => i / BS = p / BS) fl). lia. }
  set (s2 := set_ui32FreeHandCount (add32 (ui32FreeHandCount s1) 1) s1).
  rewrite (count_block_ok s2 p c) by (change (cnt s1 (p / BS) = Some c); by rewrite C1).
  eexists. split; [done|]. assert (0 <= c) as Hc0 by (rewrite Hcv; unfold in_block; lia).
  replace (add32 c 1) with (c + 1) by (symmetry; apply wrapU_small; lia).
  assert (forall j, hnd (put_cnt (p / BS) (c + 1) s2) j = hnd s1 j) as Hh by (intros j; by rewrite hnd_put_cnt).
  split; [|split; [|split]].
  - eapply (pool_reframe (p :: D) D s); [exact P| | | |..].
    + by apply put_cnt_array_ok; destruct A1.
    + destruct F1. constructor; try done. intros j. by rewrite Hh.
    + intros j Hj. rewrite Hh. by apply H1.
    + apply NoDup_snoc; [apply P|done].
    + intros i hi Hi Hti Hbi. rewrite elem_of_app, list_elem_of_singleton, (po_fl _ _ _ _ _ P). split.
      * intros [(hi' & Hi' & _ & _ & Hd)| ->]; set_solver.
      * intros Hd. destruct (decide (i = p)); [by right|left]. exists hi. set_solver.
    + intros i [Hi|Hi]%elem_of_app; [by apply (po_fl _ _ _ _ _ P) in Hi as (hi & ? & ? & ? & _); eauto|].
      apply list_elem_of_singleton in Hi as ->. eauto.
    + cbn. rewrite length_app, N1. cbn [length]. unfold add32. rewrite wrapU_small; lia.
    + intros b c' Hb. rewrite in_block_app, in_block_one.
      rewrite (cnt_put_cnt s2 (p / BS) c) in Hb by (change (cnt s1 (p / BS) = Some c); by rewrite C1).
      case_decide as Eb; [subst b; rewrite decide_True by done; naive_solver lia|].
      rewrite decide_False by done. change (cnt s1 b = Some c') in Hb. rewrite C1 in Hb.
      rewrite (po_cnt _ _ _ _ _ P _ _ Hb). lia.
    + cbn. rewrite (pf_purging _ _ F1). destruct (bPurgingEnabled s); [|].
      * destruct L1 as [(? & ? & ? & ? & Hz) _]. split; [done|]. split; [done|]. split; [done|]. split; [done|].
        intros i hi Hi. rewrite Hh. by apply Hz.
      * destruct fl as [|k fl]; cbn [app flist] in *; destruct L1 as (? & ? & Hch); (split; [done|]); (split; [done|]);
          (eapply fchain_ext; [exact Hch|]); intros j _; unfold nexts; by rewrite Hh.
  - destruct F1. constructor; try done. intros j. by rewrite Hh.
  - intros j Hj. rewrite Hh. by apply H1.
  - intros E. rewrite E in L1. by destruct L1.
Qed.

(** ** Growing the array *)

Lemma alloc_blocks_ok n i e s :
  0 <= i -> i + BS * Z.of_nat n < 2 ^ 32 ->
  exists e' l al, alloc_blocks n i e s = Ok (e', l, set_allocs al s) /\ length l = n /\
    (e' = e \/ e' = PVRSRV_ERROR_OUT_OF_MEMORY) /\
    (e' = PVRSRV_OK -> forall k, (k < n)%nat -> exists junk,
      l !! k = Some (mk_index (Some (new_block junk (i + BS * Z.of_nat k))) BS)).
Proof.
  pose proof BS_range. revert i e s. induction n as [|n IH]; intros i e s Hi Hn.
  { exists e, [], (allocs s). split; [by destruct s|]. split; [done|]. split; [by left|]. lia. }
  assert (n = 0%nat \/ add32 i BS = i + BS) as Hi'.
  { destruct n; [by left|right]. apply wrapU_small. nia. }
  assert (exists r al, OSAllocMem s = Ok (r, set_allocs al s)) as (r & al & Er).
  { unfold OSAllocMem. destruct (allocs s) as [|r al] eqn:E; [|by eauto].
    eexists _, []. rewrite <- E. by destruct s. }
  cbn [alloc_blocks]. hb_run Er.
  assert (forall e0 : Z, exists e' l al', alloc_blocks n (add32 i BS) e0 (set_allocs al s) = Ok (e', l, set_allocs al' s) /\
    length l = n /\ (e' = e0 \/ e' = PVRSRV_ERROR_OUT_OF_MEMORY) /\
    (e' = PVRSRV_OK -> forall k, (k < n)%nat -> exists junk,
      l !! k = Some (mk_index (Some (new_block junk (i + BS + BS * Z.of_nat k))) BS))) as IH'.
  { intros e0. destruct Hi' as [->| ->].
    - exists e0, [], al. split; [done|]. split; [done|]. split; [by left|]. lia.
    - destruct (IH (i + BS) e0 (set_allocs al s)) as (e' & l & al' & E & ?); [lia|lia|].
      exists e', l, al'. done. }
  destruct r as [|junk].
  - destruct (IH' PVRSRV_ERROR_OUT_OF_MEMORY) as (e' & l & al' & E & Hl & He & _). hb_run E.
    eexists _, _, _. split; [done|]. split; [by cbn; rewrite Hl|]. split; [right; naive_solver|].
    intros ->. by destruct He.
  - destruct (IH' e) as (e' & l & al' & E & Hl & He & Hk). hb_run E.
    eexists _, _, _. split; [done|]. split; [by cbn; rewrite Hl|]. split; [done|].
    intros He' [|k] Hkn; [exists junk; cbn; by rewrite Z.mul_0_r, Z.add_0_r|].
    destruct (Hk He' k ltac:(lia)) as [j Hj]. exists j. transitivity (l !! k); [done|]. rewrite Hj.
    do 4 f_equal. lia.
Qed.

Lemma new_block_lookup junk i k :
  (k < Z.to_nat BS)%nat -> new_block junk i !! k = Some (init_handle junk (i + Z.of_nat k)).
Proof. intros Hk. unfold new_block. rewrite list_lookup_fmap, lookup_seq_lt by done. done. Qed.

(** The new blocks hold structures that are free. *)
Definition fresh_blocks (total : Z) (l : list sHandleIndex) : Prop :=
  forall k, (k < length l)%nat -> exists junk,
    l !! k = Some (mk_index (Some (new_block junk (total + BS * Z.of_nat k))) BS).

Lemma grown_hnd s s1 l j :
  array_ok s -> psHandleArray s1 = psHandleArray s ++ l -> fresh_blocks (ui32TotalHandCount s) l ->
  hnd s1 j = (if j <? ui32TotalHandCount s then hnd s j else hnd s1 j) /\
  (ui32TotalHandCount s <= j < ui32TotalHandCount s + BS * Z.of_nat (length l) ->
    exists junk, hnd s1 j = Some (init_handle junk j)) /\
  (ui32TotalHandCount s + BS * Z.of_nat (length l) <= j -> hnd s1 j = None).
Proof.
  intros Ha Hl Hfresh. pose proof (ao_total _ Ha) as Ht. pose proof BS_range.
  pose proof (Z.div_mod j BS). pose proof (Z.mod_pos_bound j BS). split; [|split].
  - destruct (Z.ltb_spec j (ui32TotalHandCount s)) as [Hj|]; [|done]. unfold hnd.
    destruct (Z.ltb_spec j 0); [done|]. rewrite Hl, lookup_app_l; [done|].
    pose proof (Z.div_pos j BS). assert (j / BS < Z.of_nat (length (psHandleArray s))); [|lia].
    apply Z.div_lt_upper_bound; lia.
  - intros Hj. assert (Z.of_nat (length (psHandleArray s)) <= j / BS < Z.of_nat (length (psHandleArray s) + length l)) as Hb.
    { split; [apply Z.div_le_lower_bound; lia|apply Z.div_lt_upper_bound; lia]. }
    destruct (Hfresh (Z.to_nat (j / BS) - length (psHandleArray s))%nat ltac:(lia)) as [junk Hk].
    exists junk. unfold hnd. destruct (Z.ltb_spec j 0); [lia|]. rewrite Hl, lookup_app_r, Hk by lia.
    cbn [psHandle]. rewrite new_block_lookup by lia. do 2 f_equal. nia.
  - intros Hj. unfold hnd. destruct (Z.ltb_spec j 0); [done|].
    rewrite lookup_ge_None_2; [done|]. rewrite Hl, length_app.
    assert (Z.of_nat (length (psHandleArray s) + length l) <= j / BS); [|lia]. apply Z.div_le_lower_bound; lia.
Qed.

Lemma grown_cnt s s1 l b :
  psHandleArray s1 = psHandleArray s ++ l -> fresh_blocks (ui32TotalHandCount s) l ->
  let len := Z.of_nat (length (psHandleArray s)) in
  (b < len -> cnt s1 b = cnt s b) /\
  (forall c, len <= b -> cnt s1 b = Some c -> b < len + Z.of_nat (length l) /\ c = BS).
Proof.
  intros Hl Hfresh len. unfold cnt. split.
  - intros Hb. destruct (Z.ltb_spec b 0); [done|]. rewrite Hl, lookup_app_l by lia. done.
  - intros c Hb. destruct (Z.ltb_spec b 0); [done|]. rewrite Hl, lookup_app_r by lia.
    intros Hc. destruct (l !! _) as [ix|] eqn:E; [|done]. pose proof (lookup_lt_Some _ _ _ E) as Hlt.
    destruct (Hfresh _ Hlt) as [junk Hj]. rewrite E in Hj. injection Hj as ->. injection Hc as <-.
    split; [lia|done].
Qed.

Lemma grown_array s s1 l :
  array_ok s -> psHandleArray s1 = psHandleArray s ++ l -> fresh_blocks (ui32TotalHandCount s) l ->
  ui32TotalHandCount s1 = ui32TotalHandCount s + BS * Z.of_nat (length l) ->
  ui32MaxIndexPlusOne s1 = ui32MaxIndexPlusOne s -> ui32TotalHandCount s1 <= ui32MaxIndexPlusOne s ->
  array_ok s1.
Proof.
  intros [A1 A2 A3 A4 A5] Hl Hfresh Ht Hm Hle. constructor; [|..|congruence|congruence|congruence].
  - rewrite Ht, A1, Hl, length_app. lia.
  - intros ix Hix. rewrite Hl in Hix. apply elem_of_app in Hix as [Hix|Hix]; [by apply A2|].
    apply list_elem_of_lookup in Hix as [k Hk]. pose proof (lookup_lt_Some _ _ _ Hk) as Hlt.
    destruct (Hfresh k Hlt) as [junk Hj]. rewrite Hk in Hj. injection Hj as ->.
    eexists. split; [done|]. unfold new_block. by rewrite length_fmap, length_seq.
Qed.

(** The positions of whole blocks, counted by block. *)
Lemma in_block_seqZ b a n :
  0 <= a -> in_block b (seqZ (BS * a) (BS * Z.of_nat n)) =
    if decide (a <= b < a + Z.of_nat n) then BS else 0.
Proof.
  pose proof BS_range. revert a. induction n as [|n IH]; intros a Ha.
  { rewrite Z.mul_0_r. rewrite decide_False by lia. done. }
  replace (BS * Z.of_nat (S n)) with (BS + BS * Z.of_nat n) by lia.
  rewrite seqZ_app, in_block_app by lia. replace (BS * a + BS) with (BS * (a + 1)) by lia.
  rewrite IH by lia.
  assert (in_block b (seqZ (BS * a) BS) = if decide (b = a) then BS else 0) as ->.
  { unfold in_block. assert (forall i, i ∈ seqZ (BS * a) BS -> i / BS = a) as Hi.
    { intros i Hi. apply elem_of_seqZ in Hi. symmetry. apply (Z.div_unique _ _ _ (i - BS * a)); lia. }
    case_decide as Hb.
    - subst b. transitivity (Z.of_nat (length (seqZ (BS * a) BS))); [|rewrite length_seqZ; lia]. do 2 f_equal.
      revert Hi. induction (seqZ (BS * a) BS) as [|x l IHl]; [done|]. intros Hi.
      rewrite filter_cons, decide_True, IHl; [done|set_solver|apply Hi; set_solver].
    - revert Hi. induction (seqZ (BS * a) BS) as [|x l IHl]; [done|]. intros Hi.
      rewrite filter_cons, decide_False, IHl; [done|set_solver|rewrite Hi; [congruence|set_solver]]. }
  repeat case_decide; lia.
Qed.

(** A run of fresh structures is a free list. *)
Lemma fchain_seqZ n a k :
  (forall j, a <= j < a + Z.of_nat k -> n j = Some 0) -> fchain n (seqZ a (Z.of_nat k)).
Proof.
  revert a. induction k as [|k IH]; intros a Hn; [done|].
  rewrite seqZ_cons by lia. replace (Z.pred (Z.of_nat (S k))) with (Z.of_nat k) by lia. split.
  - exists 0. split; [apply Hn; lia|]. destruct k; [done|]. rewrite seqZ_cons by lia. right. split; [done|lia].
  - apply IH. intros j Hj. apply Hn. lia.
Qed.

Lemma last_or_seqZ x a k : 0 < k -> last_or x (seqZ a k) = a + k - 1.
Proof.
  intros Hk. replace k with (Z.of_nat (S (Z.to_nat (k - 1)))) at 1 by lia.
  rewrite seqZ_S, last_or_app. cbn. lia.
Qed.

(** When the list of free structures can grow at its end: the code takes a first
    index of 0 for an empty list. *)
Definition grow_safe s (fl : list Z) : Prop :=
  if bPurgingEnabled s then ui32FirstFreeIndex s = 0 /\ fl = []
  else fl = [] \/ ui32FirstFreeIndex s <> 0.

Lemma resized_grow s fl old new :
  array_ok s -> NoDup fl -> (forall i, i ∈ fl -> 0 <= i < old) -> old < new -> ui32TotalHandCount s = new ->
  ui32FreeHandCount s = Z.of_nat (length fl) -> 0 <= old -> old mod BS = 0 ->
  (forall j, old <= j < new -> exists h, hnd s j = Some h /\ ui32NextIndexPlusOne h = 0 /\ eInternalFlag h = 0) ->
  (if bPurgingEnabled s then ui32HandBatchSize s = 0 else flist s fl) -> grow_safe s fl ->
  let fl' := fl ++ seqZ old (new - old) in
  exists s', resized old new s = Ok (tt, s') /\ pool_frame s s' /\ array_ok s' /\
    (forall b, cnt s' b = cnt s b) /\ ui32FreeHandCount s' = Z.of_nat (length fl') /\
    (forall j, j ∉ fl -> hnd s' j = hnd s j) /\
    (if bPurgingEnabled s' then purge_links s' fl' else flist s' fl').
Proof.
  intros Ha Hnd Hfl Hlt Ht Hc Ho Hom Hfresh Hl Hsafe fl'. pose proof (array_total_range _ Ha) as Htr.
  pose proof (NoDup_bounded fl old Hnd ltac:(by apply Forall_forall)) as Hlen.
  assert (seqZ old (new - old) = old :: seqZ (old + 1) (new - old - 1)) as Eseq by (rewrite seqZ_cons by lia; do 2 f_equal; lia).
  assert (forall j, j ∈ seqZ old (new - old) -> nexts s j = Some 0) as Hn0.
  { intros j Hj. apply elem_of_seqZ in Hj. destruct (Hfresh j ltac:(lia)) as (h & Hh & Hx & _).
    unfold nexts. rewrite Hh. cbn. by f_equal. }
  assert (fchain (nexts s) (seqZ old (new - old))) as Hch.
  { replace (new - old) with (Z.of_nat (Z.to_nat (new - old))) by lia. apply fchain_seqZ. intros j Hj.
    apply Hn0, elem_of_seqZ. lia. }
  assert (Z.of_nat (length fl') = Z.of_nat (length fl) + (new - old)) as Hlen' by (unfold fl'; rewrite length_app, length_seqZ; lia).
  assert (add32 (ui32FreeHandCount s) (sub32 new old) = Z.of_nat (length fl')) as Ec.
  { unfold sub32, add32. rewrite Hc, (wrapU_small 32 (new - old)), wrapU_small by lia. lia. }
  unfold resized. rewrite (proj2 (Z.ltb_lt _ _) Hlt). rewrite hb_modify_bind, !hb_base_bind. cbn [ui32FirstFreeIndex bPurgingEnabled set_ui32FreeHandCount].
  rewrite Ec. unfold grow_safe in Hsafe. set (s1 := set_ui32FreeHandCount _ s).
  destruct (bPurgingEnabled s) eqn:Epu.
  - destruct Hsafe as [Hz ->]. rewrite Hz. cbn [Z.eqb negb hb_when]. eexists. split; [done|].
    split; [by constructor|]. split; [by destruct Ha; constructor|]. split; [done|]. split; [done|]. split; [done|].
    cbn. rewrite Epu. split; [done|]. cbn. split; [lia|]. split; [done|]. split.
    + intros i Hi. apply elem_of_seqZ in Hi. lia.
    + intros i h Hi Hh. apply elem_of_seqZ in Hi. destruct (Hfresh i ltac:(lia)) as (h' & Hh' & _ & E).
      change (hnd s i = Some h) in Hh. congruence.
  - destruct fl as [|i fl].
    + destruct Hl as [Hz _]. rewrite Hz. cbn [Z.eqb negb hb_when]. eexists. split; [done|].
      split; [by constructor|]. split; [by destruct Ha; constructor|]. split; [done|]. split; [done|]. split; [done|].
      cbn [bPurgingEnabled set_ui32LastFreeIndexPlusOne set_ui32FirstFreeIndex s1 set_ui32FreeHandCount].
      rewrite Epu. apply (flist_intro _ _ 0); unfold fl'; cbn [app].
      * by rewrite Eseq.
      * by rewrite Eseq.
      * rewrite last_or_seqZ by lia. cbn. lia.
      * exact Hch.
    + destruct Hsafe as [?|Hz]; [done|]. rewrite (proj2 (Z.eqb_neq _ _) Hz). destruct Hl as (Hf & Hla & Hcf).
      set (q := last_or i (i :: fl)) in *.
      assert (q ∈ i :: fl) as Hq by (unfold q; destruct (last_or_elem i (i :: fl)) as [->|?]; [set_solver|done]).
      pose proof (Hfl q Hq) as Hqr. destruct (proj2 (hnd_in_range s q Ha) ltac:(lia)) as [hq Hhq].
      assert (sub32 (q + 1) 1 = q) as Eq by (unfold sub32; replace (q + 1 - 1) with q by lia; apply wrapU_small; lia).
      assert (add32 old 1 = old + 1) as Eo by (apply wrapU_small; lia).
      assert (hb_when (negb false) (last ← base ui32LastFreeIndexPlusOne;
        hstore (sub32 last 1) (set_ui32NextIndexPlusOne (add32 old 1))) s1
        = Ok (tt, put q (set_ui32NextIndexPlusOne (old + 1) hq) s1)) as E.
      { cbn [negb hb_when]. rewrite hb_base_bind. change (ui32LastFreeIndexPlusOne s1) with (ui32LastFreeIndexPlusOne s).
        rewrite Hla, Eq, Eo. by rewrite (hstore_ok _ s1 q hq Hhq). }
      hb_run E. cbn [negb hb_when]. eexists. split; [done|].
      set (s2 := set_ui32LastFreeIndexPlusOne new (put q _ s1)).
      assert (forall j, hnd s2 j = if decide (j = q) then Some (set_ui32NextIndexPlusOne (old + 1) hq) else hnd s j) as Hh.
      { intros j. transitivity (hnd (put q (set_ui32NextIndexPlusOne (old + 1) hq) s1) j); [done|].
        by rewrite (hnd_put s1 q hq). }
      split; [|split; [|split; [|split; [|split]]]].
      * constructor; try done. intros j. rewrite Hh. case_decide; [subst j; by rewrite Hhq|done].
      * assert (array_ok s1) as Ha1 by (by destruct Ha; constructor).
        destruct (put_array_ok s1 q (set_ui32NextIndexPlusOne (old + 1) hq) Ha1). by constructor.
      * intros b. transitivity (cnt (put q (set_ui32NextIndexPlusOne (old + 1) hq) s1) b); [done|]. by rewrite cnt_put.
      * done.
      * intros j Hj. rewrite Hh, decide_False; [done|]. intros ->. done.
      * cbn [bPurgingEnabled set_ui32LastFreeIndexPlusOne put set_psHandleArray s1 s2 set_ui32FreeHandCount]. rewrite Epu.
        apply (flist_intro _ _ 0); unfold fl'; [done|done| |].
        { rewrite last_or_app, last_or_seqZ by lia. cbn. lia. }
        rewrite Eseq. apply (fchain_app (nexts s)); [done| |done|].
        { rewrite <- Eseq. eapply fchain_ext; [exact Hch|]. intros j Hj. apply elem_of_seqZ in Hj.
          unfold nexts. rewrite Hh, decide_False by lia. done. }
        intros j Hj. unfold nexts. rewrite Hh.
        assert (last_or old (i :: fl) = q) as -> by (unfold q, last_or; rewrite !last_cons; by destruct (last fl)).
        by case_decide.
Qed.

Lemma pool_set_allocs D s fl bl first al : pool D s fl bl first -> pool D (set_allocs al s) fl bl first.
Proof. intros [P1 P2 P3 P4 P5 P6 P7 P8 P9 P10 P11 P12]. by destruct P1; constructor. Qed.

Lemma alloc_ok_run s : exists b al, alloc_ok s = Ok (b, set_allocs al s).
Proof.
  unfold alloc_ok, OSAllocMem, mbind, HB_bind, mret, HB_ret. destruct (allocs s) as [|r al] eqn:E; [|by eauto].
  eexists _, []. rewrite <- E. by destruct s.
Qed.

Lemma same_set_allocs s al : same_handles s (set_allocs al s).
Proof. by constructor. Qed.

(** Fresh structures keep the books. *)
Lemma pool_grown s s1 fl bl first l :
  pool [] s fl bl first -> psHandleArray s1 = psHandleArray s ++ l -> fresh_blocks (ui32TotalHandCount s) l ->
  (forall i, i ∈ fl -> i < ui32TotalHandCount s) ->
  let new := ui32TotalHandCount s + BS * Z.of_nat (length l) in
  let fl' := fl ++ seqZ (ui32TotalHandCount s) (new - ui32TotalHandCount s) in
  index_ok s1 /\ NoDup fl' /\
  (forall i, i ∈ fl' <-> exists h, hnd s1 i = Some h /\ eType h = PVRSRV_HANDLE_TYPE_NONE /\ (i ∉ bl) /\ (i ∉ @nil Z)) /\
  (forall b c, cnt s1 b = Some c -> c = in_block b fl') /\
  (forall i h, hnd s1 i = Some h -> i < ui32TotalHandCount s -> hnd s i = Some h) /\
  (forall j, tn s1 j = tn s j /\ ent s1 j = ent s j).
Proof.
  intros P Hl Hfresh Hr new fl'. pose proof (po_array _ _ _ _ _ P) as Ha. pose proof BS_range as Hbs.
  assert (forall j h, hnd s1 j = Some h -> ui32TotalHandCount s <= j -> j < new /\ exists junk, h = init_handle junk j) as Hnew.
  { intros j h Hj Hle. destruct (grown_hnd s s1 l j Ha Hl Hfresh) as (_ & Hin & Hout).
    destruct (Z.lt_ge_cases j new) as [Hlt|Hge]; [|by rewrite Hout in Hj]. split; [done|].
    destruct (Hin ltac:(lia)) as [junk Hj']. exists junk. congruence. }
  assert (forall j, j < ui32TotalHandCount s -> hnd s1 j = hnd s j) as Hold.
  { intros j Hj. destruct (grown_hnd s s1 l j Ha Hl Hfresh) as (E & _ & _).
    by rewrite (proj2 (Z.ltb_lt _ _) Hj) in E. }
  assert (forall j, ui32TotalHandCount s <= j -> hnd s j = None) as Hnone.
  { intros j Hj. destruct (hnd s j) eqn:E; [|done]. assert (is_Some (hnd s j)) as Hs by eauto.
    apply hnd_in_range in Hs; [lia|done]. }
  split_and!.
  - intros i h Hi. destruct (Z.lt_ge_cases i (ui32TotalHandCount s)).
    + rewrite Hold in Hi by done. by apply (po_index _ _ _ _ _ P).
    + by destruct (Hnew i h Hi ltac:(lia)) as (_ & junk & ->).
  - apply NoDup_app. split_and!; [apply P| |apply NoDup_seqZ]. intros i Hi Hi'.
    apply elem_of_seqZ in Hi'. specialize (Hr i Hi). lia.
  - intros i. unfold fl'. rewrite elem_of_app, elem_of_seqZ. split.
    + intros [Hi|Hi].
      * pose proof (Hr i Hi). apply (po_fl _ _ _ _ _ P) in Hi as (h & Hh & ?). exists h. by rewrite Hold.
      * destruct (grown_hnd s s1 l i Ha Hl Hfresh) as (_ & Hin & _). destruct (Hin ltac:(lia)) as [junk Hj].
        exists (init_handle junk i). split; [done|]. split; [done|]. split; [|apply not_elem_of_nil].
        intros Hb. apply (po_bl _ _ _ _ _ P) in Hb as (h & Hh & _). rewrite Hnone in Hh by lia. done.
    + intros (h & Hh & Ht & Hb & Hd). destruct (Z.lt_ge_cases i (ui32TotalHandCount s)).
      * left. rewrite Hold in Hh by done. apply (po_fl _ _ _ _ _ P). eauto.
      * right. destruct (Hnew i h Hh ltac:(lia)). lia.
  - intros b c Hc. pose proof (ao_total _ Ha) as Ht. set (len := Z.of_nat (length (psHandleArray s))) in *.
    assert (in_block b fl' = in_block b fl + if decide (len <= b < len + Z.of_nat (length l)) then BS else 0) as ->.
    { unfold fl'. rewrite in_block_app. f_equal. rewrite Ht.
      replace (new - BS * len) with (BS * Z.of_nat (length l)) by (unfold new; lia). apply in_block_seqZ. lia. }
    destruct (grown_cnt s s1 l b Hl Hfresh) as [Hlo Hhi]. fold len in Hlo, Hhi.
    destruct (Z.lt_ge_cases b len) as [Hb|Hb].
    + rewrite Hlo in Hc by done. rewrite decide_False by lia. rewrite (po_cnt _ _ _ _ _ P _ _ Hc). lia.
    + destruct (Hhi c Hb Hc) as [Hb' ->]. rewrite decide_True by lia.
      assert (in_block b fl = 0) as ->; [|lia]. unfold in_block.
      assert (filter (fun i => i / BS = b) fl = []) as ->; [|done]. clear -Hr Ht Hb Hbs.
      induction fl as [|x fl IH]; [done|]. rewrite filter_cons, decide_False, IH; [done|set_solver|].
      specialize (Hr x ltac:(set_solver)). intros <-. pose proof (Z.div_mod x BS). pose proof (Z.mod_pos_bound x BS). nia.
  - intros i h Hi Hlt. by rewrite <- Hold.
  - intros j. destruct (Z.lt_ge_cases j (ui32TotalHandCount s)) as [Hj|Hj].
    + unfold tn, ent. by rewrite Hold.
    + unfold tn, ent. rewrite (Hnone j Hj). destruct (hnd s1 j) as [h|] eqn:E; [|done].
      destruct (Hnew j h E Hj) as (_ & junk & ->). done.
Qed.

(** A growing array: either the memory is missing or fresh blocks are appended. *)
Lemma Realloc_grow_run s new :
  array_ok s -> ui32TotalHandCount s < new <= ui32MaxIndexPlusOne s -> new mod BS = 0 ->
  (exists al, ReallocHandleArray new s = Ok (PVRSRV_ERROR_OUT_OF_MEMORY, set_allocs al s)) \/
  (exists l al, fresh_blocks (ui32TotalHandCount s) l /\ BS * Z.of_nat (length l) = new - ui32TotalHandCount s /\
    ReallocHandleArray new s = (resized (ui32TotalHandCount s) new;; mret PVRSRV_OK)
      (set_ui32TotalHandCount new (set_psHandleArray (psHandleArray s ++ l) (set_allocs al s)))).
Proof.
  intros Ha Hnew Hmod. pose proof BS_range as Hbs.
  pose proof (ao_max_range _ Ha) as Hmax. unfold DEFAULT_MAX_HANDLE in Hmax.
  pose proof (array_total_range _ Ha) as Htr. set (old := ui32TotalHandCount s) in *.
  pose proof (ao_total _ Ha) as Htot. fold old in Htot.
  assert (old mod BS = 0) as Hom by (rewrite Htot, Z.mul_comm; apply Z.mod_mul; lia).
  unfold ReallocHandleArray. rewrite !hb_base_bind. fold old. rewrite (proj2 (Z.eqb_neq new old)) by lia.
  rewrite hb_base_bind. rewrite (proj2 (Z.ltb_ge new old)) by lia. rewrite andb_false_r, Hom, Hmod.
  rewrite (proj2 (Z.eqb_neq new 0)) by lia. cbn [Z.eqb negb orb].
  destruct (alloc_ok_run s) as (got & al & Eg).
  hb_run Eg. destruct got; cbn [negb]; [|left; by eexists].
  unfold realloc_blocks. set (n := Z.to_nat (DIVIDE_BY_BLOCK_SIZE (new - old))).
  assert (BS * Z.of_nat n = new - old) as Hn.
  { unfold n. rewrite block_div. assert (BS <> 0) as Hb0 by lia.
    assert ((new - old) mod BS = 0) as Hdm by (by rewrite Zminus_mod, Hom, Hmod).
    pose proof (Z.div_mod (new - old) BS Hb0). pose proof (Z.div_pos (new - old) BS). lia. }
  clearbody n.
  destruct (alloc_blocks_ok n old PVRSRV_OK (set_allocs al s)) as (e & l & al' & El & Hlen & He & Hk); [lia|lia|].
  set (kept := if negb (new =? 0) && negb (old =? 0) then _ else _).
  assert (kept = psHandleArray s) as Ekept.
  { unfold kept. rewrite (proj2 (Z.eqb_neq new 0)) by lia. destruct (Z.eqb_spec old 0) as [E0|E0]; cbn [negb andb].
    - destruct (psHandleArray s) as [|x k]; [done|]. cbn [length] in Htot. nia.
    - unfold MIN. rewrite (proj2 (Z.ltb_ge new old)) by lia.
      rewrite array_size_eq by lia. apply take_ge.
      replace (old / BS) with (Z.of_nat (length (psHandleArray s))); [lia|].
      rewrite Htot, Z.mul_comm, Z.div_mul by lia. done. }
  assert (forall k : Z * list sHandleIndex -> HB Z, ((x ← alloc_blocks n old PVRSRV_OK;
      (let '(eReturn, fresh) := x in mret (eReturn, kept ++ fresh))) ≫= k) (set_allocs al s)
      = k (e, kept ++ l) (set_allocs al' s)) as Erun.
  { intros k. unfold mbind, HB_bind. rewrite El. done. }
  rewrite Erun. clear Erun Eg El. rewrite Ekept.
  destruct (Z.eqb_spec e PVRSRV_OK) as [->|Hne]; cbn [negb].
  - right. exists l, al'. split; [intros k Hkl; apply (Hk eq_refl); lia|]. split; [lia|]. by rewrite !hb_modify_bind.
  - left. destruct He as [->| ->]; [done|]. by eexists.
Qed.

(** The books of the grown array, once the free list reaches its end. *)
Lemma pool_regrown s s1 s2 fl bl first l new :
  pool [] s fl bl first -> psHandleArray s1 = psHandleArray s ++ l -> fresh_blocks (ui32TotalHandCount s) l ->
  ui32HandBatchSize s1 = ui32HandBatchSize s ->
  BS * Z.of_nat (length l) = new - ui32TotalHandCount s ->
  let fl' := fl ++ seqZ (ui32TotalHandCount s) (new - ui32TotalHandCount s) in
  pool_frame s1 s2 -> array_ok s2 -> (forall b, cnt s2 b = cnt s1 b) -> ui32FreeHandCount s2 = Z.of_nat (length fl') ->
  (forall j, j ∉ fl -> hnd s2 j = hnd s1 j) ->
  (if bPurgingEnabled s2 then purge_links s2 fl' else flist s2 fl') -> pool [] s2 fl' bl first.
Proof.
  intros P Ea Hfresh Hbs Hlen fl' F2 A2 C2 N2 H2 L2. pose proof (po_array _ _ _ _ _ P) as Ha.
  pose proof (pool_grown s s1 fl bl first l P Ea Hfresh ltac:(intros i Hi; by apply (pool_fl_range _ _ _ _ _ _ P Hi))) as Hg.
  cbv zeta in Hg. rewrite Hlen in Hg. set (old := ui32TotalHandCount s) in *.
  replace (old + (new - old) - old) with (new - old) in Hg by lia. fold fl' in Hg.
  destruct Hg as (G1 & G2 & G3 & G4 & G5 & G6).
  assert (forall i, is_Some (hnd s i) -> hnd s1 i = hnd s i) as Hold.
  { intros i Hs. pose proof Hs as Hr. apply hnd_in_range in Hr; [|done]. fold old in Hr.
    destruct (grown_hnd s s1 l i Ha Ea Hfresh) as (E & _). fold old in E. by rewrite (proj2 (Z.ltb_lt i old)) in E by lia. }
  destruct P as [P1 P2 P3 P4 P5 P6 P7 P8 P9 P10 P11 P12].
  assert (forall i, i ∈ bl -> hnd s2 i = hnd s i) as Hbl.
  { intros i Hi. rewrite H2 by (rewrite P4; naive_solver). destruct (P9 i Hi) as (h & Hh & _). apply Hold. eauto. }
  constructor; try done.
  - intros i h Hi. destruct (pool_frame_lookup_inv _ _ _ _ F2 Hi) as (h' & Hh' & _ & _ & ->). by apply G1.
  - intros i. rewrite G3. split; intros (h & Hh & Ht & Hb & Hd).
    + destruct (pool_frame_lookup _ _ _ _ F2 Hh) as (h' & Hh' & Et & _). exists h'.
      split; [done|]. split; [congruence|done].
    + destruct (pool_frame_lookup_inv _ _ _ _ F2 Hh) as (h' & Hh' & Et & _). exists h'.
      split; [done|]. split; [congruence|done].
  - intros b c. rewrite C2. apply G4.
  - intros i Hi. rewrite Hbl by done. by apply P9.
  - eapply bchain_ext; [exact P10|]. intros i Hi. unfold nexts. by rewrite Hbl.
  - intros i h Hi Ht Hb. assert (i ∉ fl') as Hfl.
    { intros (h' & Hh' & Ht' & _)%G3. destruct (pool_frame_lookup _ _ _ _ F2 Hh') as (h'' & ? & ? & _). congruence. }
    rewrite H2 in Hi by set_solver. apply (P11 i); [|done|done]. apply G5; [done|].
    destruct (Z.lt_ge_cases i old) as [|Hge]; [done|]. destruct Hfl. apply elem_of_app. right. apply elem_of_seqZ.
    destruct (Z.lt_ge_cases i new) as [|Hge']; [lia|]. destruct (grown_hnd s s1 l i Ha Ea Hfresh) as (_ & _ & Hno).
    fold old in Hno. rewrite Hno in Hi by lia. done.
  - unfold HANDLES_BATCHED. rewrite (pf_size _ _ F2), Hbs. exact P12.
Qed.

Lemma Realloc_grow s fl bl first new :
  pool [] s fl bl first -> ui32TotalHandCount s < new <= ui32MaxIndexPlusOne s -> new mod BS = 0 ->
  grow_safe s fl ->
  exists e s', ReallocHandleArray new s = Ok (e, s') /\ same_handles s s' /\
    ((e = PVRSRV_OK /\ ui32TotalHandCount s' = new /\
      pool [] s' (fl ++ seqZ (ui32TotalHandCount s) (new - ui32TotalHandCount s)) bl first) \/
     (e = PVRSRV_ERROR_OUT_OF_MEMORY /\ s' = set_allocs (allocs s') s)).
Proof.
  intros P Hnew Hmod Hsafe. pose proof (po_array _ _ _ _ _ P) as Ha. pose proof BS_range as Hbs.
  pose proof (array_total_range _ Ha) as Htr. pose proof (ao_total _ Ha) as Htot.
  destruct (Realloc_grow_run s new Ha Hnew Hmod) as [(al & E)|(l & al & Hfresh & Hlen & E)]; rewrite E; clear E.
  { eexists _, _. split; [done|]. split; [apply same_set_allocs|by right]. }
  set (s1 := set_ui32TotalHandCount new (set_psHandleArray (psHandleArray s ++ l) (set_allocs al s))).
  assert (array_ok s1) as Ha1.
  { apply (grown_array s s1 l Ha eq_refl Hfresh); [|done|]; cbn [s1 ui32TotalHandCount set_ui32TotalHandCount]; lia. }
  pose proof (pool_grown s s1 fl bl first l P eq_refl Hfresh ltac:(intros i Hi; by apply (pool_fl_range _ _ _ _ _ _ P Hi)))
    as (_ & _ & _ & _ & _ & Hsame1).
  destruct (resized_grow s1 fl (ui32TotalHandCount s) new) as (s2 & E2 & F2 & A2 & C2 & N2 & H2 & L2); try done.
  - apply P.
  - intros i Hi. by apply (pool_fl_range _ _ _ _ _ _ P Hi).
  - lia.
  - apply P.
  - lia.
  - rewrite Htot, Z.mul_comm. apply Z.mod_mul. lia.
  - intros j Hj. destruct (grown_hnd s s1 l j Ha eq_refl Hfresh) as (_ & Hin & _).
    destruct (Hin ltac:(lia)) as [junk Hj']. exists (init_handle junk j). done.
  - pose proof (po_links _ _ _ _ _ P) as Hl. cbn [s1 bPurgingEnabled set_ui32TotalHandCount set_psHandleArray set_allocs].
    destruct (bPurgingEnabled s); [apply Hl|]. destruct fl as [|i fl]; [done|]. destruct Hl as (Hf & Hla & Hc).
    split; [done|]. split; [done|]. eapply fchain_ext; [exact Hc|]. intros j Hj. unfold nexts.
    destruct (grown_hnd s s1 l j Ha eq_refl Hfresh) as (E & _). pose proof (pool_fl_range _ _ _ _ _ _ P Hj).
    rewrite (proj2 (Z.ltb_lt j _)) in E by lia. by rewrite E.
  - hb_run E2. exists PVRSRV_OK, s2. split; [done|]. split.
    + transitivity s1; [|by apply pool_frame_same].
      constructor; try done; [cbn; lia|intros j; apply Hsame1..].
    + left. split; [done|]. split; [apply (pf_total _ _ F2)|]. by eapply (pool_regrown s s1 s2).
Qed.

Lemma round_up_wraps a :
  0 <= a < 2 ^ 32 -> 2 ^ 32 <= a + BS - 1 -> ROUND_UP_TO_MULTIPLE_OF_BLOCK_SIZE a = 0.
Proof.
  intros Ha Hw. pose proof BS_range. unfold ROUND_UP_TO_MULTIPLE_OF_BLOCK_SIZE.
  assert (u32 (a + BS - 1) = a + BS - 1 - 2 ^ 32) as ->.
  { unfold wrapU. symmetry. apply (Z.mod_unique _ _ 1); lia. }
  rewrite round_down_eq by lia. rewrite Z.div_small by lia. lia.
Qed.

(** The new size of the array: enough for the request, within the limit. *)
Lemma IncreaseHandleArraySize_eq s d :
  array_ok s -> 0 < d < 2 ^ 32 ->
  exists new, ui32TotalHandCount s + d <= new <= ui32MaxIndexPlusOne s /\ new mod BS = 0 /\
    IncreaseHandleArraySize d s = ReallocHandleArray new s \/
  IncreaseHandleArraySize d s = Ok (PVRSRV_ERROR_OUT_OF_MEMORY, s).
Proof.
  intros Ha Hd. pose proof (ao_max_range _ Ha) as Hmax. pose proof (ao_max _ Ha) as Hle.
  pose proof (array_total_range _ Ha) as Ht. unfold DEFAULT_MAX_HANDLE in Hmax. pose proof BS_range as Hbs.
  assert (ui32TotalHandCount s mod BS = 0) as Hm0 by (rewrite (ao_total _ Ha), Z.mul_comm; apply Z.mod_mul; lia).
  set (adj := ROUND_UP_TO_MULTIPLE_OF_BLOCK_SIZE d).
  assert (adj = 0 \/ (d <= adj < 2 ^ 32 /\ adj mod BS = 0)) as Hadj.
  { unfold adj. destruct (Z.lt_ge_cases (d + BS - 1) (2 ^ 32)) as [Hlt|Hge]; [right|left; apply round_up_wraps; lia].
    unfold ROUND_UP_TO_MULTIPLE_OF_BLOCK_SIZE. rewrite wrapU_small, round_down_eq by lia.
    pose proof (Z.div_mod (d + BS - 1) BS). pose proof (Z.mod_pos_bound (d + BS - 1) BS).
    split; [lia|]. rewrite Z.mul_comm. apply Z.mod_mul. lia. }
  unfold IncreaseHandleArraySize. rewrite !hb_base_bind. fold adj. set (total := ui32TotalHandCount s) in *.
  set (max := ui32MaxIndexPlusOne s) in *.
  destruct ((max <? add32 total adj) || (add32 total adj <=? total)) eqn:E.
  - exists max. assert (sub32 max total = max - total) as -> by (apply wrapU_small; lia).
    destruct (Z.ltb_spec (max - total) d); [by right|left].
    split; [lia|]. split; [apply (ao_max_mod _ Ha)|done].
  - apply orb_false_iff in E as [E1 E2]. apply Z.ltb_ge in E1. apply Z.leb_gt in E2.
    assert (add32 total adj = total + adj) as Ea.
    { destruct (Z.lt_ge_cases (total + adj) (2 ^ 32)); [apply wrapU_small; lia|].
      assert (add32 total adj = total + adj - 2 ^ 32); [|lia]. unfold add32, wrapU. symmetry.
      apply (Z.mod_unique _ _ 1); lia. }
    rewrite Ea in *. exists (total + adj). left. split; [lia|]. split; [|done].
    destruct Hadj as [?|[_ Hm]]; [lia|]. by rewrite Z.add_mod, Hm0, Hm by lia.
Qed.

Lemma EnsureFreeHandles_ok s fl bl first n :
  pool [] s fl bl first -> 0 <= n < 2 ^ 32 -> n <= ui32FreeHandCount s \/ grow_safe s fl ->
  exists e s' fl', EnsureFreeHandles n s = Ok (e, s') /\ same_handles s s' /\ pool [] s' fl' bl first /\
    ((e = PVRSRV_OK /\ n <= ui32FreeHandCount s') \/
     (e = PVRSRV_ERROR_OUT_OF_MEMORY /\ ui32FirstFreeIndex s' = ui32FirstFreeIndex s)).
Proof.
  intros P Hn Hsafe. unfold EnsureFreeHandles. rewrite hb_base_bind.
  pose proof (po_count _ _ _ _ _ P) as Hc. pose proof (pool_fl_length _ _ _ _ _ P) as Hl.
  pose proof (array_total_range _ (po_array _ _ _ _ _ P)) as Ht.
  destruct (Z.ltb_spec (ui32FreeHandCount s) n) as [Hlt|Hge].
  2: { exists PVRSRV_OK, s, fl. split; [done|]. split; [done|]. split; [done|]. by left. }
  destruct Hsafe as [?|Hsafe]; [lia|].
  assert (sub32 n (ui32FreeHandCount s) = n - ui32FreeHandCount s) as -> by (apply wrapU_small; lia).
  destruct (IncreaseHandleArraySize_eq s (n - ui32FreeHandCount s)) as (new & [(Hnew & Hm & ->)| ->]).
  { apply P. } { lia. }
  - destruct (Realloc_grow s fl bl first new P ltac:(lia) Hm Hsafe) as (e & s' & -> & Hsame & [(-> & Et & P')|[-> Es]]).
    + eexists _, _, _. split; [done|]. split; [done|]. split; [exact P'|]. left. split; [done|].
      rewrite (po_count _ _ _ _ _ P'), length_app, length_seqZ. lia.
    + exists PVRSRV_ERROR_OUT_OF_MEMORY, s', fl. split; [done|]. split; [done|].
      split; [rewrite Es; by apply pool_set_allocs|]. right. split; [done|]. by rewrite Es.
  - exists PVRSRV_ERROR_OUT_OF_MEMORY, s, fl. split; [done|]. split; [done|]. split; [done|]. by right.
Qed.

End Pool.
