(* ===== verification/PvrHandlePick.v ===== *)
(** * Taking a free structure

    Which structure an allocation takes, in a base with a free list and in one
    with purging, and what the allocation does to the free handles. *)

From stdpp Require Import base list numbers option gmap relations.
From Stdlib Require Import ZArith Lia.
From S2P Require Import Prelude PvrHash PvrHandleMap PvrHandle PvrHandleArray PvrHandleForest.
From S2P Require Import PvrHandlePool.

Local Open Scope Z_scope.

Section Pick.
Context {H : Type} {HM : HandleMap H} {BSH : BlockShift}.

Implicit Types s : PVRSRV_HANDLE_BASE H.
Abbreviation BS := HANDLE_BLOCK_SIZE.

(** ** The scan of a base with purging *)

Definition is_free s (i : Z) : Prop := exists h, hnd s i = Some h /\ HANDLE_STRUCT_IS_FREE h = true.

Lemma scan_block_ok s n i p :
  (forall j, i <= j < i + Z.of_nat n -> is_Some (hnd s j)) -> 0 <= i -> i + Z.of_nat n < 2 ^ 32 ->
  (exists j, i <= j < i + Z.of_nat n /\ is_free s j) ->
  exists k, scan_block n i p s = Ok (k, Some k, s) /\ i <= k < i + Z.of_nat n /\ is_free s k /\
    (forall j, i <= j -> is_free s j -> k <= j).
Proof.
  revert i p. induction n as [|n IH]; intros i p Hs Hi Hn (j & Hj & Hfree); [lia|].
  destruct (Hs i ltac:(lia)) as [h Hh]. cbn [scan_block]. hb_run (hload_ok id s i h Hh). cbn [id].
  destruct (HANDLE_STRUCT_IS_FREE h) eqn:E.
  - exists i. split; [done|]. split; [lia|]. split; [by exists h|]. done.
  - assert (j <> i) by (intros ->; destruct Hfree as (h' & ? & ?); congruence).
    replace (add32 i 1) with (i + 1) by (symmetry; apply wrapU_small; lia).
    destruct (IH (i + 1) (Some i)) as (k & Ek & Hk & Hkf & Hmin); [|lia|lia|exists j; split; [lia|done]|].
    { intros j' Hj'. apply Hs. lia. }
    exists k. split; [done|]. split; [lia|]. split; [done|]. intros j' Hj' Hf'.
    apply Hmin; [|done]. destruct (decide (j' = i)) as [->|]; [|lia]. destruct Hf' as (h' & ? & ?). congruence.
Qed.

(** What the scan over the blocks finds: the first free structure of the last
    block that has one. *)
Definition last_block_first (fl : list Z) (i : Z) : Prop :=
  i ∈ fl /\ (forall j, j ∈ fl -> j / BS <= i / BS) /\ (forall j, j ∈ fl -> j / BS = i / BS -> i <= j).

Section Purging.
Context (s : PVRSRV_HANDLE_BASE H) (fl bl : list Z) (first : Z).
Context (P : pool [] s fl bl first) (Hpu : bPurgingEnabled s = true).

Lemma purging_free i : is_free s i <-> i ∈ fl.
Proof.
  pose proof (po_links _ _ _ _ _ P) as Hl. rewrite Hpu in Hl. destruct Hl as (Hb & _ & _ & _ & Hz).
  assert (bl = []) as Ebl by (apply (po_batch _ _ _ _ _ P); unfold HANDLES_BATCHED; by rewrite Hb).
  split.
  - intros (h & Hh & Hf). apply (po_fl _ _ _ _ _ P). exists h. rewrite Ebl. unfold HANDLE_STRUCT_IS_FREE, is_none in Hf.
    apply andb_true_iff in Hf as [Hf _]. apply bool_decide_eq_true in Hf.
    split; [done|]. split; [done|]. split; apply not_elem_of_nil.
  - intros Hi. pose proof Hi as Hi'. apply (po_fl _ _ _ _ _ P) in Hi as (h & Hh & Ht & _). exists h. split; [done|].
    unfold HANDLE_STRUCT_IS_FREE, is_none. rewrite Ht, (Hz i h Hi' Hh). done.
Qed.

Lemma block_positions b : 0 <= b -> b mod BS = 0 -> b < ui32TotalHandCount s -> b + BS <= ui32TotalHandCount s.
Proof.
  intros Hb Hm Hlt. pose proof (ao_total _ (po_array _ _ _ _ _ P)) as Ht. pose proof BS_range as Hbs.
  assert (b / BS < Z.of_nat (length (psHandleArray s))) by (apply Z.div_lt_upper_bound; lia).
  pose proof (Z.div_mod b BS). nia.
Qed.

(** The result of the scan from block [b] on, with the result so far. *)
Definition scan_found (b : Z) (r : Z * option Z) (r' : Z * option Z) : Prop :=
  (r' = r /\ forall j, j ∈ fl -> j < b) \/
  (exists i, r' = (i, Some i) /\ b <= i /\ last_block_first fl i).

Lemma scan_blocks_ok n b r :
  0 <= b -> b mod BS = 0 -> ui32TotalHandCount s <= b + BS * Z.of_nat n ->
  exists r', scan_blocks n b r.1 r.2 s = Ok (r', s) /\ scan_found b r r'.
Proof.
  pose proof BS_range as Hbs. pose proof (array_total_range _ (po_array _ _ _ _ _ P)) as Htr.
  assert (forall b r, ui32TotalHandCount s <= b -> scan_found b r r) as Hdone.
  { intros b0 r0 Hb0. left. split; [done|]. intros j Hj. pose proof (pool_fl_range _ _ _ _ _ _ P Hj). lia. }
  revert b r. induction n as [|n IH]; intros b r Hb Hm Hn; cbn [scan_blocks]; rewrite hb_base_bind.
  { rewrite (proj2 (Z.ltb_ge _ _)) by lia. exists r. split; [by destruct r|]. apply Hdone. lia. }
  destruct (Z.ltb_spec b (ui32TotalHandCount s)) as [Hlt|Hge]; cbn [negb].
  2: { exists r. split; [by destruct r|]. by apply Hdone. }
  pose proof (block_positions b Hb Hm Hlt) as Hbp. pose proof (Z.div_mod b BS) as Hdm.
  destruct (cnt_in_range s b (po_array _ _ _ _ _ P) ltac:(lia)) as [c Hc]. hb_run (block_count_ok s b c Hc).
  pose proof (po_cnt _ _ _ _ _ P _ _ Hc) as Hcv.
  replace (add32 b BS) with (b + BS) by (symmetry; apply wrapU_small; lia).
  assert (forall r0, exists r', scan_blocks n (b + BS) r0.1 r0.2 s = Ok (r', s) /\ scan_found (b + BS) r0 r') as IH'.
  { intros r0. apply IH; [lia| |lia]. rewrite <- (Z.mul_1_l BS) at 1. by rewrite Z.mod_add by lia. }
  assert (forall j, b <= j < b + BS <-> j / BS = b / BS) as Hblk.
  { intros j. split.
    - intros Hj. symmetry. apply (Z.div_unique _ _ _ (j - b)); lia.
    - intros Hj. pose proof (Z.div_mod j BS). pose proof (Z.mod_pos_bound j BS). rewrite Hj in *. lia. }
  destruct (Z.eqb_spec c 0) as [Ec|Ec].
  - destruct (IH' r) as (r' & Er & Hf). exists r'. split; [done|].
    assert (forall j, j ∈ fl -> j / BS <> b / BS) as Hno.
    { intros j Hj Ej. assert (j ∈ filter (fun i => i / BS = b / BS) fl) as Hin by (by apply list_elem_of_filter).
      rewrite Ec in Hcv. unfold in_block in Hcv. destruct (filter _ fl); [by apply elem_of_nil in Hin|done]. }
    destruct Hf as [[-> Hlo]|(i & -> & Hi & Hl)]; [left|right].
    + split; [done|]. intros j Hj. specialize (Hlo j Hj). specialize (Hno j Hj).
      destruct (Z.lt_ge_cases j b); [done|]. destruct Hno. apply Hblk. lia.
    + exists i. split; [done|]. split; [lia|done].
  - assert (exists j, j ∈ fl /\ j / BS = b / BS) as (j & Hj & Ej).
    { unfold in_block in Hcv. destruct (filter (fun i => i / BS = b / BS) fl) as [|j l] eqn:El; [done|].
      exists j. assert (j ∈ filter (fun i => i / BS = b / BS) fl) as Hj by (rewrite El; set_solver).
      by apply list_elem_of_filter in Hj as [? ?]. }
    destruct (scan_block_ok s (Z.to_nat BS) b r.2) as (k & Ek & Hk & Hkf & Hmin); [|lia|lia| |].
    { intros x Hx. apply hnd_in_range; [apply P|lia]. }
    { exists j. apply Hblk in Ej. split; [lia|]. by apply purging_free. }
    hb_run Ek. destruct (IH' (k, Some k)) as (r' & Er & Hf). exists r'. split; [done|]. right.
    destruct Hf as [[-> Hlo]|(i & -> & Hi & Hl)].
    + exists k. split; [done|]. split; [lia|]. apply purging_free in Hkf. split; [done|].
      assert (k / BS = b / BS) as Ekb by (apply Hblk; lia). split.
      * intros x Hx. rewrite Ekb. specialize (Hlo x Hx).
        destruct (Z.lt_ge_cases x b); [apply Z.div_le_mono; lia|]. assert (x / BS = b / BS); [apply Hblk; lia|lia].
      * intros x Hx Ex. rewrite Ekb in Ex. apply Hblk in Ex. apply Hmin; [lia|]. by apply purging_free.
    + exists i. split; [done|]. split; [lia|done].
Qed.
End Purging.

(** ** Taking the structure *)

Lemma pool_purge_first0 D s fl bl first :
  pool D s fl bl first -> bPurgingEnabled s = true -> pool D (set_ui32FirstFreeIndex 0 s) fl bl first.
Proof.
  intros [P1 P2 P3 P4 P5 P6 P7 P8 P9 P10 P11 P12] Hpu. destruct P1. constructor; try done.
  cbn. rewrite Hpu in *. destruct P7 as (? & Hr & ? & ? & ?). split; [done|]. cbn. split; [lia|].
  split; [apply Z.mod_0_l; pose proof BS_range; lia|]. split; [|done].
  intros i Hi. apply P4 in Hi as (h & Hh & _). eapply hnd_range in Hh; [lia|done].
Qed.

Lemma pick_ok s fl bl first :
  pool [] s fl bl first -> fl <> [] ->
  exists i s', pick_handle s = Ok (i, Some i, s') /\ i ∈ fl /\ same_handles s s' /\ pool [] s' fl bl first /\
    (if bPurgingEnabled s then ui32FirstFreeIndex s' = 0 /\ last_block_first fl i
     else s' = s /\ head fl = Some i).
Proof.
  intros P Hne. unfold pick_handle. rewrite !hb_base_bind. pose proof (po_links _ _ _ _ _ P) as Hl.
  destruct (bPurgingEnabled s) eqn:Epu; cbn [negb].
  2: { destruct fl as [|i fl]; [done|]. destruct Hl as (-> & _). exists i, s.
       split; [done|]. split; [set_solver|]. split; [done|]. split; [done|]. split; done. }
  destruct Hl as (Hb & Hr & Hm & Hle & Hz). pose proof (array_total_range _ (po_array _ _ _ _ _ P)) as Ht.
  pose proof BS_range as Hbs. rewrite round_down_eq by lia.
  replace (BS * (ui32FirstFreeIndex s / BS)) with (ui32FirstFreeIndex s)
    by (pose proof (Z.div_mod (ui32FirstFreeIndex s) BS); lia).
  destruct (scan_blocks_ok s fl bl first P Epu (handle_fuel s) (ui32FirstFreeIndex s)
    (DEFAULT_MAX_INDEX_PLUS_ONE, None)) as (r & Er & Hf); [lia|done|unfold handle_fuel; nia|].
  rewrite hb_base_bind. cbn [fst snd] in Er. hb_run Er. rewrite hb_modify_bind.
  destruct Hf as [[_ Hlo]|(i & -> & Hi & Hlb)].
  { destruct fl as [|j fl]; [done|]. specialize (Hlo j ltac:(set_solver)). specialize (Hle j ltac:(set_solver)). lia. }
  exists i, (set_ui32FirstFreeIndex 0 s). split; [done|]. split; [apply Hlb|]. split; [by constructor|].
  split; [by apply pool_purge_first0|done].
Qed.

(** The free handles without the one that is taken. *)
Definition rest_of (i : Z) (fl : list Z) : list Z := filter (fun j => j <> i) fl.

Lemma rest_of_head i fl : NoDup (i :: fl) -> rest_of i (i :: fl) = fl.
Proof.
  intros [Hi Hnd]%NoDup_cons. unfold rest_of. rewrite filter_cons, decide_False by naive_solver.
  clear Hnd. induction fl as [|j fl IH]; [done|]. rewrite filter_cons, decide_True, IH; set_solver.
Qed.

Lemma rest_of_split i fl : i ∈ fl -> NoDup fl -> exists l1 l2, fl = l1 ++ i :: l2 /\ rest_of i fl = l1 ++ l2.
Proof.
  intros (l1 & l2 & ->)%list_elem_of_split Hnd. exists l1, l2. split; [done|]. unfold rest_of.
  apply NoDup_app in Hnd as (_ & Hd & [Hi _]%NoDup_cons). rewrite filter_app, filter_cons, decide_False by naive_solver.
  assert (forall l : list Z, i ∉ l -> filter (fun j => j <> i) l = l) as Hid.
  { induction l as [|j l IH]; [done|]. intros Hn. rewrite filter_cons, decide_True, IH; set_solver. }
  rewrite !Hid; [done|done|]. intros Hin. apply (Hd i Hin). set_solver.
Qed.

Lemma take_link s fl bl first i s1 :
  pool [] s fl bl first -> i ∈ fl -> bPurgingEnabled s = false -> head fl = Some i ->
  (forall j, hnd s1 j = hnd s j) -> ui32FreeHandCount s1 = ui32FreeHandCount s - 1 ->
  ui32LastFreeIndexPlusOne s1 = ui32LastFreeIndexPlusOne s ->
  exists s2, (free ← base ui32FreeHandCount;
     if free =? 0 then
       modify (set_ui32LastFreeIndexPlusOne 0);;
       modify (set_ui32FirstFreeIndex 0)
     else
       p ← deref (Some i);
       next ← hload p ui32NextIndexPlusOne;
       modify (set_ui32FirstFreeIndex
                 (if next =? 0 then add32 i 1 else sub32 next 1))) s1 = Ok (tt, s2) /\
    flist s2 (rest_of i fl) /\
    (s2 = set_ui32FirstFreeIndex 0 (set_ui32LastFreeIndexPlusOne 0 s1) \/ exists x, s2 = set_ui32FirstFreeIndex x s1).
Proof.
  intros P Hi Hpu Hhd Hh Hc Hla. destruct fl as [|i' fl]; [done|]. injection Hhd as ->.
  pose proof (po_links _ _ _ _ _ P) as Hl. rewrite Hpu in Hl. destruct Hl as (_ & Hlast & (x & Hx & Hxl) & Hch).
  pose proof (po_count _ _ _ _ _ P) as Hcount. cbn [length] in Hcount.
  rewrite (rest_of_head i fl (po_fl_nodup _ _ _ _ _ P)), hb_base_bind, Hc, Hcount.
  destruct fl as [|j fl].
  - eexists. split; [done|]. split; [done|]. by left.
  - rewrite (proj2 (Z.eqb_neq _ _)) by (cbn [length]; lia).
    assert (exists h, hnd s1 i = Some h /\ ui32NextIndexPlusOne h = x) as (h & Hi1 & Ex).
    { unfold nexts in Hx. rewrite Hh. destruct (hnd s i); [|done]. injection Hx as <-. eauto. }
    unfold deref. rewrite (hb_bind_ok (mret i) _ s1 i s1 eq_refl).
    hb_run (hload_ok ui32NextIndexPlusOne s1 i h Hi1). rewrite Ex. eexists. split; [done|]. split; [|by right; eauto].
    pose proof (pool_fl_range _ _ _ _ _ _ P Hi) as Hir.
    pose proof (pool_fl_range _ _ _ _ _ j P ltac:(set_solver)) as Hjr.
    pose proof (array_total_range _ (po_array _ _ _ _ _ P)) as Ht.
    apply (flist_intro _ _ i); [done| | |].
    + cbn [ui32FirstFreeIndex set_ui32FirstFreeIndex head_or head default id].
      destruct Hxl as [->|[-> ->]].
      * rewrite (proj2 (Z.eqb_neq _ _)) by lia. unfold sub32. replace (j + 1 - 1) with j by lia. apply wrapU_small. lia.
      * cbn [Z.eqb]. apply wrapU_small. lia.
    + cbn [ui32LastFreeIndexPlusOne set_ui32FirstFreeIndex]. by rewrite Hla, Hlast.
    + eapply fchain_ext; [exact Hch|]. intros k _. unfold nexts. change (hnd _ k) with (hnd s1 k) at 1. by rewrite Hh.
Qed.

Lemma take_ok s fl bl first i :
  pool [] s fl bl first -> i ∈ fl -> (bPurgingEnabled s = false -> head fl = Some i) ->
  exists s', take_handle i (Some i) s = Ok (tt, s') /\ pool [i] s' (rest_of i fl) bl first /\ pool_frame s s' /\
    (forall j, hnd s' j = hnd s j) /\
    (bPurgingEnabled s = true -> ui32FirstFreeIndex s' = ui32FirstFreeIndex s).
Proof.
  intros P Hi Hhd. pose proof (po_array _ _ _ _ _ P) as Ha. pose proof (pool_fl_range _ _ _ _ _ _ P Hi) as Hir.
  destruct (cnt_in_range s i Ha Hir) as [c Hc]. pose proof (po_cnt _ _ _ _ _ P _ _ Hc) as Hcv.
  pose proof (po_count _ _ _ _ _ P) as Hcount. pose proof (pool_fl_length _ _ _ _ _ P) as Hlen.
  pose proof (array_total_range _ Ha) as Ht.
  destruct (rest_of_split i fl Hi (po_fl_nodup _ _ _ _ _ P)) as (l1 & l2 & Hfl & Hrest).
  assert (forall b, in_block b fl = in_block b (rest_of i fl) + if decide (i / BS = b) then 1 else 0) as Hblk.
  { intros b. rewrite Hrest, Hfl. change (i :: l2) with ([i] ++ l2). rewrite !in_block_app, in_block_one. lia. }
  assert (length fl = S (length (rest_of i fl))) as Hl1 by (rewrite Hrest, Hfl, !length_app; cbn; lia).
  assert (1 <= c <= Z.of_nat (length fl)) as Hc1.
  { rewrite Hcv, Hblk, decide_True by done. unfold in_block.
    pose proof (length_filter (fun j => j / BS = i / BS) (rest_of i fl)). lia. }
  unfold take_handle. rewrite hb_modify_bind.
  replace (sub32 (ui32FreeHandCount s) 1) with (ui32FreeHandCount s - 1) by (symmetry; apply wrapU_small; lia).
  set (s1 := set_ui32FreeHandCount _ s).
  hb_run (count_block_ok s1 i c (fun c => sub32 c 1) Hc).
  replace (sub32 c 1) with (c - 1) by (symmetry; apply wrapU_small; lia). set (s2 := put_cnt _ _ s1).
  assert (forall j, hnd s2 j = hnd s j) as Hh by (intros j; unfold s2; by rewrite hnd_put_cnt).
  rewrite hb_base_bind. change (bPurgingEnabled s2) with (bPurgingEnabled s).
  assert (exists s3, hb_when (negb (bPurgingEnabled s)) (free ← base ui32FreeHandCount;
     if free =? 0 then
       modify (set_ui32LastFreeIndexPlusOne 0);;
       modify (set_ui32FirstFreeIndex 0)
     else
       p ← deref (Some i);
       next ← hload p ui32NextIndexPlusOne;
       modify (set_ui32FirstFreeIndex
                 (if next =? 0 then add32 i 1 else sub32 next 1))) s2 = Ok (tt, s3) /\
    (if bPurgingEnabled s then s3 = s2 else flist s3 (rest_of i fl) /\
      (s3 = set_ui32FirstFreeIndex 0 (set_ui32LastFreeIndexPlusOne 0 s2) \/ exists x, s3 = set_ui32FirstFreeIndex x s2)))
    as (s3 & E3 & Hs3).
  { destruct (bPurgingEnabled s) eqn:Epu; [by exists s2|]. cbn [negb hb_when].
    destruct (take_link s fl bl first i s2) as (s3 & ? & ? & ?); eauto. }
  exists s3. split; [exact E3|].
  assert (psHandleArray s3 = psHandleArray s2 /\ ui32FreeHandCount s3 = ui32FreeHandCount s2 /\
    (bPurgingEnabled s = true -> s3 = s2) /\ pool_frame s s3) as (Harr & Hfc & Hpe & Hpf).
  { assert (pool_frame s s2) as F2 by (constructor; try done; intros j; by rewrite Hh).
    destruct (bPurgingEnabled s); [by subst s3|]. destruct Hs3 as [_ [->|[x ->]]]; (split; [done|]); (split; [done|]); (split; [done|]);
      destruct F2 as [? ? ? ? ? ? ? F8]; (constructor; [done..|exact F8]). }
  assert (forall j, hnd s3 j = hnd s j) as Hh3 by (intros j; rewrite <- Hh; unfold hnd; by rewrite Harr).
  split; [|split; [done|split; [done|intros E; by rewrite (Hpe E)]]].
  eapply (pool_reframe [] [i] s); [exact P| |done|by intros; apply Hh3|apply NoDup_filter, (po_fl_nodup _ _ _ _ _ P)|..].
  - assert (array_ok s2) as Ha2 by (apply put_cnt_array_ok; by destruct Ha; constructor).
    destruct Ha2 as [B1 B2 B3 B4 B5]. constructor; rewrite ?Harr, ?(pf_total _ _ Hpf), ?(pf_max _ _ Hpf); done.
  - intros j h Hj Htj Hbj. rewrite list_elem_of_singleton. unfold rest_of. rewrite list_elem_of_filter, (po_fl _ _ _ _ _ P).
    split; [naive_solver|]. intros Hne. split; [done|]. exists h. set_solver.
  - intros j Hj. apply list_elem_of_filter in Hj as [_ Hj]. apply (po_fl _ _ _ _ _ P) in Hj as (h & ? & ? & ? & _). eauto.
  - rewrite Hfc. change (ui32FreeHandCount s2) with (ui32FreeHandCount s - 1). lia.
  - intros b c' Hb. assert (cnt s2 b = Some c') as Hb2 by (unfold cnt in *; by rewrite <- Harr).
    unfold s2 in Hb2. rewrite (cnt_put_cnt s1 (i / BS) c) in Hb2 by done. specialize (Hblk b).
    case_decide as Eb; [subst b; rewrite decide_True in Hblk by done; injection Hb2 as <-; lia|].
    rewrite decide_False in Hblk by done. change (cnt s b = Some c') in Hb2.
    rewrite (po_cnt _ _ _ _ _ P _ _ Hb2). lia.
  - rewrite (pf_purging _ _ Hpf). destruct (bPurgingEnabled s) eqn:Epu; [|apply Hs3]. rewrite (Hpe eq_refl).
    pose proof (po_links _ _ _ _ _ P) as Hl. rewrite Epu in Hl. destruct Hl as (? & ? & ? & Hle & Hz).
    split; [done|]. split; [done|]. split; [done|]. split.
    + intros j Hj. apply list_elem_of_filter in Hj as [_ Hj]. by apply Hle.
    + intros j h Hj. apply list_elem_of_filter in Hj as [_ Hj]. rewrite Hh. by apply Hz.
Qed.

(** ** Initialising the structure *)

(** The fields of a new handle, up to the list of the batch. *)
Lemma init_fields s p h data type flag :
  hnd s p = Some h -> ui32Index h = p -> 0 <= p < 2 ^ 31 ->
  exists s', (hstore p (set_eType type);;
    hstore p (set_pvData data);;
    hstore p (set_eInternalFlag INTERNAL_HANDLE_FLAG_NONE);;
    hstore p (set_eFlag flag);;
    InitParentList p;;
    InitChildEntry p) s = Ok (tt, s') /\
    stored s p (mk_handle type data (ui32NextIndexPlusOne h) 0 flag p (mk_list p p (p + 1)) (mk_list p p 0)) s'.
Proof.
  intros Hp Hix Hr. pose proof (stored_refl s p h Hp) as H0.
  destruct (hstore_stored _ _ _ _ (set_eType type) H0) as (s1 & E1 & H1). hb_run E1.
  destruct (hstore_stored _ _ _ _ (set_pvData data) H1) as (s2 & E2 & H2). hb_run E2.
  destruct (hstore_stored _ _ _ _ (set_eInternalFlag INTERNAL_HANDLE_FLAG_NONE) H2) as (s3 & E3 & H3). hb_run E3.
  destruct (hstore_stored _ _ _ _ (set_eFlag flag) H3) as (s4 & E4 & H4). hb_run E4.
  destruct (hstore_stored _ _ _ _ (set_sChildren (mk_list p p (p + 1))) H4) as (s5 & E5 & H5).
  assert (InitParentList p s4 = Ok (tt, s5)) as E5'.
  { unfold InitParentList. hb_run (hload_stored ui32Index _ _ _ _ H4). cbn [ui32Index set_eFlag set_eInternalFlag set_pvData set_eType].
    rewrite Hix, index_handle by done. exact E5. }
  hb_run E5'. destruct (hstore_stored _ _ _ _ (set_sSiblings (mk_list p p 0)) H5) as (s6 & E6 & H6).
  exists s6. split.
  - unfold InitChildEntry. hb_run (hload_stored ui32Index _ _ _ _ H5).
    cbn [ui32Index set_eFlag set_eInternalFlag set_pvData set_eType set_sChildren]. rewrite Hix. exact E6.
  - destruct h as [? ? ? ? ? ix ? ?]. change (ix = p) in Hix. subst ix. exact H6.
Qed.

Lemma stored_batch s p h s' x :
  stored s p h s' -> stored (set_ui32FirstBatchIndexPlusOne x s) p h (set_ui32FirstBatchIndexPlusOne x s').
Proof.
  intros [S1 S2 S3 S4]. split; [rewrite S1; done|exact S2|exact S3|].
  intros Ha. assert (array_ok s) as Ha' by (by destruct Ha; constructor). destruct (S4 Ha'). by constructor.
Qed.

(** A structure that was taken becomes a handle, perhaps of the batch. *)
Lemma pool_new_handle s s' fl bl bl' first first' p h h' :
  pool [p] s fl bl first -> p ∉ bl -> hnd s p = Some h ->
  (exists s0, stored s0 p h' s' /\ (s0 = s \/ exists x, s0 = set_ui32FirstBatchIndexPlusOne x s)) ->
  eType h' <> PVRSRV_HANDLE_TYPE_NONE -> ui32Index h' = p ->
  (ui32NextIndexPlusOne h' = 0 /\ eInternalFlag h' = 0 /\ bl' = bl /\ first' = first) \/
  (ui32NextIndexPlusOne h' = first /\ eInternalFlag h' = 1 /\ bl' = p :: bl /\ first' = p + 1 /\
   HANDLES_BATCHED s = true) ->
  pool [] s' fl bl' first'.
Proof.
  intros P Hpb Hp (s0 & S0 & Hs0) Ht Hix Hcase.
  assert (p ∉ fl) as Hpf by (rewrite (po_fl _ _ _ _ _ P); set_solver).
  assert (forall j, hnd s' j = if decide (j = p) then Some h' else hnd s j) as Hh.
  { intros j. rewrite (st_hnd _ _ _ _ S0). by destruct Hs0 as [->|[x ->]]. }
  assert (forall j, j <> p -> nexts s' j = nexts s j) as Hn.
  { intros j Hj. unfold nexts. by rewrite Hh, decide_False. }
  assert (bl <> p :: bl) as Hcons by (intros Hl; apply (f_equal length) in Hl; cbn in Hl; lia).
  assert (forall j, j ∈ bl' <-> j ∈ bl \/ (bl' = p :: bl /\ j = p)) as Hbl'.
  { intros j. destruct Hcase as [(_ & _ & -> & _)|(_ & _ & -> & _)]; [naive_solver|]. rewrite elem_of_cons. naive_solver. }
  destruct P as [P1 P2 P3 P4 P5 P6 P7 P8 P9 P10 P11 P12].
  assert (array_ok s') as Ha.
  { apply (st_array _ _ _ _ S0). destruct Hs0 as [->|[x ->]]; [done|]. by destruct P1; constructor. }
  pose proof (st_fields _ _ _ _ S0) as Hs'. constructor; [done|..].
  - intros j hj. rewrite Hh. case_decide; [by intros [= <-]; subst|apply P2].
  - done.
  - intros j. rewrite P4. split.
    + intros (hj & Hj & Htj & Hbj & Hd). exists hj. rewrite Hh, decide_False by set_solver.
      split; [done|]. split; [done|]. split; [|apply not_elem_of_nil]. rewrite Hbl'. set_solver.
    + intros (hj & Hj & Htj & Hbj & _). rewrite Hh in Hj. case_decide; [congruence|]. exists hj.
      split; [done|]. split; [done|]. rewrite Hbl' in Hbj. set_solver.
  - rewrite Hs'. by destruct Hs0 as [->|[x ->]].
  - intros b c Hb. rewrite (st_cnt _ _ _ _ S0) in Hb. apply P6. by destruct Hs0 as [->|[x ->]].
  - assert (bPurgingEnabled s' = bPurgingEnabled s /\ ui32FirstFreeIndex s' = ui32FirstFreeIndex s /\
      ui32LastFreeIndexPlusOne s' = ui32LastFreeIndexPlusOne s /\ ui32HandBatchSize s' = ui32HandBatchSize s /\
      ui32TotalHandCount s' = ui32TotalHandCount s) as (-> & Ef & El & Eb & Et)
      by (rewrite Hs'; by destruct Hs0 as [->|[x ->]]).
    destruct (bPurgingEnabled s).
    + unfold purge_links. rewrite Ef, Eb, Et. destruct P7 as (? & ? & ? & ? & Hz).
      split; [done|]. split; [done|]. split; [done|]. split; [done|]. intros j hj Hj. rewrite Hh, decide_False by (intros ->; done). by apply Hz.
    + destruct fl as [|j fl]; cbn [flist] in *; rewrite Ef, El; [done|]. destruct P7 as (? & ? & Hc).
      split; [done|]. split; [done|]. eapply fchain_ext; [exact Hc|]. intros k Hk. apply Hn. intros ->. done.
  - destruct Hcase as [(_ & _ & -> & _)|(_ & _ & -> & _)]; [done|]. by apply NoDup_cons.
  - intros j Hj. apply Hbl' in Hj. rewrite Hh. destruct (decide (j = p)) as [->|Hne].
    + destruct Hcase as [(_ & _ & -> & _)|(_ & ? & _)]; [|by eauto].
      naive_solver.
    + destruct Hj as [Hj|[_ ->]]; [by apply P9|done].
  - assert (bchain (nexts s') first bl) as Hc by (eapply bchain_ext; [exact P10|]; intros j Hj; apply Hn; set_solver).
    destruct Hcase as [(_ & _ & -> & ->)|(En & _ & -> & -> & _)]; [done|]. split; [done|].
    exists first. unfold nexts at 1. rewrite Hh, decide_True by done. cbn. split; [by f_equal|done].
  - intros j hj Hj Htj Hbj. rewrite Hh in Hj. case_decide as Ej.
    + injection Hj as <-. subst j. destruct Hcase as [(? & ? & _)|(_ & _ & -> & _)]; [done|set_solver].
    + apply (P11 j); [done|done|]. rewrite Hbl' in Hbj. set_solver.
  - intros Hb. assert (HANDLES_BATCHED s = false) as Hb'.
    { revert Hb. unfold HANDLES_BATCHED. rewrite Hs'. by destruct Hs0 as [->|[x ->]]. }
    destruct Hcase as [(_ & _ & -> & _)|(_ & _ & _ & _ & E)]; [by apply P12|congruence].
Qed.

Lemma init_ok s fl bl p h data type flag :
  pool [p] s fl bl (ui32FirstBatchIndexPlusOne s) -> hnd s p = Some h -> p ∉ bl ->
  type <> PVRSRV_HANDLE_TYPE_NONE ->
  exists s' nx fg, init_new_handle (Some p) p data type flag s = Ok (tt, s') /\
    pool [] s' fl (if HANDLES_BATCHED s then p :: bl else bl) (ui32FirstBatchIndexPlusOne s') /\
    (forall j, hnd s' j = if decide (j = p) then
       Some (mk_handle type data nx fg flag p (mk_list p p (p + 1)) (mk_list p p 0)) else hnd s j) /\
    psHashTab s' = psHashTab s /\ ui32MaxIndexPlusOne s' = ui32MaxIndexPlusOne s /\
    ui32HandBatchSize s' = ui32HandBatchSize s /\
    ui32BatchHandAllocFailures s' = ui32BatchHandAllocFailures s /\ bPurgingEnabled s' = bPurgingEnabled s /\
    ui32FirstFreeIndex s' = ui32FirstFreeIndex s /\ ui32TotalHandCount s' = ui32TotalHandCount s.
Proof.
  intros P Hp Hpb Ht. pose proof (po_array _ _ _ _ _ P) as Ha. pose proof (hnd_range _ _ _ Ha Hp) as Hr.
  pose proof (po_index _ _ _ _ _ P p h Hp) as Hix.
  assert (p ∉ fl) as Hpf by (rewrite (po_fl _ _ _ _ _ P); set_solver).
  destruct (init_fields s p h data type flag Hp Hix Hr) as (s1 & E1 & S1).
  assert (forall k : unit -> HB unit, (hstore p (set_eType type);;
    hstore p (set_pvData data);; hstore p (set_eInternalFlag INTERNAL_HANDLE_FLAG_NONE);;
    hstore p (set_eFlag flag);; InitParentList p;; InitChildEntry p;; k tt) s = k tt s1) as Erun.
  { intros k. rewrite <- (hb_bind_ok _ k _ _ _ E1). unfold mbind, HB_bind.
    repeat (match goal with |- context [match ?m with Ok _ => _ | Fault _ => _ end] => destruct m as [[[] ?]|] end; try done). }
  unfold init_new_handle, deref. rewrite (hb_bind_ok (mret p) _ s p s eq_refl).
  rewrite (Erun (fun _ => _)). clear Erun E1. rewrite hb_base_bind.
  assert (HANDLES_BATCHED s1 = HANDLES_BATCHED s) as -> by (rewrite (st_fields _ _ _ _ S1); done).
  destruct (HANDLES_BATCHED s) eqn:Eb.
  - rewrite hb_base_bind.
    assert (ui32FirstBatchIndexPlusOne s1 = ui32FirstBatchIndexPlusOne s) as -> by (rewrite (st_fields _ _ _ _ S1); done).
    destruct (hstore_stored _ _ _ _ (set_ui32NextIndexPlusOne (ui32FirstBatchIndexPlusOne s)) S1) as (s2 & E2 & S2).
    hb_run E2. rewrite hb_modify_bind. replace (add32 p 1) with (p + 1) by (symmetry; apply wrapU_small; lia).
    apply (stored_batch _ _ _ _ (p + 1)) in S2.
    destruct (hstore_stored _ _ _ _ SET_BATCHED_HANDLE S2) as (s3 & E3 & S3).
    exists s3, (ui32FirstBatchIndexPlusOne s), 1. split; [exact E3|].
    assert (ui32FirstBatchIndexPlusOne s3 = p + 1) as -> by (rewrite (st_fields _ _ _ _ S3); done).
    split; [|split; [intros j; apply (st_hnd _ _ _ _ S3)|by rewrite (st_fields _ _ _ _ S3)]].
    eapply (pool_new_handle s s3); [exact P|done|exact Hp|eexists; split; [exact S3|by right; eauto]|done|done|].
    by right.
  - destruct (hstore_stored _ _ _ _ (set_ui32NextIndexPlusOne 0) S1) as (s2 & E2 & S2).
    exists s2, 0, 0. split; [exact E2|].
    assert (ui32FirstBatchIndexPlusOne s2 = ui32FirstBatchIndexPlusOne s) as -> by (rewrite (st_fields _ _ _ _ S2); done).
    split; [|split; [intros j; apply (st_hnd _ _ _ _ S2)|by rewrite (st_fields _ _ _ _ S2)]].
    eapply (pool_new_handle s s2); [exact P|done|exact Hp|eexists; split; [exact S2|by left]|done|done|].
    by left.
Qed.

End Pick.
