(* ===== verification/PvrHandleFree.v ===== *)
(** * Freeing handles

    The invariant of a handle base ([hinv]: free and batched structures, forest,
    hash table), and [FreeHandle]: it frees a handle and everything below it, and
    keeps the invariant. *)

From stdpp Require Import base list numbers option gmap relations.
From Stdlib Require Import ZArith Lia.
From S2P Require Import Prelude PvrHash PvrHashFacts PvrHandleMap PvrHandle PvrHandleArray.
From S2P Require Import PvrHandleForest PvrHandlePool PvrHandlePick.

Local Open Scope Z_scope.

(** ** Keys *)

Definition multi (e : entry) : bool := TEST_FLAG (e_flag e) PVRSRV_HANDLE_ALLOC_FLAG_MULTI.
Definition private (e : entry) : bool := TEST_FLAG (e_flag e) PVRSRV_HANDLE_ALLOC_FLAG_PRIVATE.

(** The key under which a handle is found. *)
Definition key_of (e : entry) : list Z :=
  InitKey (e_data e) (e_type e) (if private e then e_parent e else 0).

(** The map has the keys of the handles, but for those that may occur several
    times and those that are being freed. *)
Record keyed (D : list Z) (e : Z -> option entry) (m : gmap (list Z) Z) : Prop := mk_keyed {
  ky_in i x : e i = Some x -> multi x = false -> i ∉ D -> m !! key_of x = Some (i + 1);
  ky_out k v : m !! k = Some v ->
    exists i x, v = i + 1 /\ e i = Some x /\ multi x = false /\ (i ∉ D) /\ key_of x = k }.

Section Free.
Context {H : Type} {HM : HandleMap H} {BSH : BlockShift}.

Implicit Types s : PVRSRV_HANDLE_BASE H.
Abbreviation BS := HANDLE_BLOCK_SIZE.

Record hinv (D : list Z) s (K : Z -> list Z) (fl bl : list Z) (first : Z) (m : gmap (list Z) Z) : Prop := mk_hinv {
  hi_pool : pool D s fl bl first;
  hi_forest : forest (tn s) K;
  hi_idle i h : hnd s i = Some h -> eType h = PVRSRV_HANDLE_TYPE_NONE -> eInternalFlag h <> 0 ->
    K i = [] /\ hParent (sSiblings h) = 0;
  hi_hash : exists t, psHashTab s = Some t /\ hm_rep t m;
  hi_keyed : keyed D (ent s) m;
  hi_size : Z.of_nat (size m) < COUNT_LIMIT }.

(** With purging the search for a free structure starts at the first block. *)
Definition purge0 s : Prop := bPurgingEnabled s = true -> ui32FirstFreeIndex s = 0.

(** The structures that are being freed have no parent any more. *)
Definition roots (D : list Z) s : Prop := forall i l, i ∈ D -> tn s i = Some l -> hParent l.2 = 0.

Lemma ent_Some s i x :
  ent s i = Some x <-> exists h, hnd s i = Some h /\ eType h <> PVRSRV_HANDLE_TYPE_NONE /\
    x = mk_entry (eType h) (pvData h) (eFlag h) (hParent (sSiblings h)).
Proof.
  unfold ent, is_none. destruct (hnd s i) as [h|]; cbn; [|naive_solver].
  destruct (bool_decide_reflect (eType h = PVRSRV_HANDLE_TYPE_NONE)) as [Ht|Ht].
  - split; [done|]. intros (? & [= <-] & ? & _). done.
  - split; [intros [= <-]; eauto|]. intros (? & [= <-] & _ & ->). done.
Qed.

Lemma live_used h : eType h <> PVRSRV_HANDLE_TYPE_NONE -> HANDLE_STRUCT_IS_FREE h = false.
Proof. intros Ht. unfold HANDLE_STRUCT_IS_FREE, is_none. by rewrite bool_decide_eq_false_2. Qed.

Lemma flagged_used h : eInternalFlag h <> 0 -> HANDLE_STRUCT_IS_FREE h = false.
Proof.
  intros Hf. unfold HANDLE_STRUCT_IS_FREE, INTERNAL_HANDLE_FLAG_NONE. rewrite (proj2 (Z.eqb_neq _ _) Hf).
  apply andb_false_r.
Qed.

Lemma live_tn s i x : ent s i = Some x -> exists l, tn s i = Some l /\ hParent l.2 = e_parent x.
Proof.
  intros (h & Hh & Ht & ->)%ent_Some. exists (sChildren h, sSiblings h). split; [|done].
  apply tn_Some. exists h. split; [done|]. split; [by apply live_used|done].
Qed.

Lemma hinv_ext D s K K' fl bl first m :
  hinv D s K fl bl first m -> (forall q, K' q = K q) -> hinv D s K' fl bl first m.
Proof.
  intros [I1 I2 I3 I4 I5 I6] HK. constructor; try done.
  - eapply forest_ext; [exact I2|done|]. intros p _. apply HK.
  - intros i h. rewrite HK. apply I3.
Qed.

Lemma prune_prune L1 L2 K q : prune L2 (prune L1 K) q = prune (L1 ++ L2) K q.
Proof.
  unfold prune. induction (K q) as [|x l IH]; [done|]. rewrite !filter_cons.
  destruct (decide (x ∉ L1)) as [H1|H1]; [rewrite filter_cons; destruct (decide (x ∉ L2))|].
  - rewrite decide_True by set_solver. by rewrite IH.
  - rewrite decide_False by set_solver. by rewrite IH.
  - rewrite decide_False by set_solver. by rewrite IH.
Qed.

Lemma prune_perm L L' K q : (forall x, x ∈ L <-> x ∈ L') -> prune L K q = prune L' K q.
Proof. intros HL. unfold prune. apply list_filter_iff. intros x. by rewrite HL. Qed.

(** ** What freeing the structures [l] does *)

Record freed s s' (fl fl' l : list Z) : Prop := mk_freed {
  fd_ent i : ent s' i = if decide (i ∈ l) then None else ent s i;
  fd_rest i h : i ∉ l -> i ∉ fl -> hnd s i = Some h -> exists h', hnd s' i = Some h' /\ rest h' = rest h;
  fd_parent i : i ∉ l -> (fun x => hParent x.2) <$> tn s' i = (fun x => hParent x.2) <$> tn s i;
  fd_fl i : i ∈ fl' -> i ∈ fl \/ i ∈ l;
  fd_max : ui32MaxIndexPlusOne s' = ui32MaxIndexPlusOne s;
  fd_total : ui32TotalHandCount s' = ui32TotalHandCount s;
  fd_size : ui32HandBatchSize s' = ui32HandBatchSize s;
  fd_batch : ui32FirstBatchIndexPlusOne s' = ui32FirstBatchIndexPlusOne s;
  fd_failures : ui32BatchHandAllocFailures s' = ui32BatchHandAllocFailures s;
  fd_purging : bPurgingEnabled s' = bPurgingEnabled s;
  fd_purge0 : purge0 s -> purge0 s' }.

Lemma freed_refl s fl : freed s s fl fl [].
Proof. constructor; try done; eauto. Qed.

Lemma freed_trans s s1 s2 fl fl1 fl2 l1 l2 :
  freed s s1 fl fl1 l1 -> freed s1 s2 fl1 fl2 l2 -> freed s s2 fl fl2 (l1 ++ l2).
Proof.
  intros [A1 A2 A3 A4 A5 A6 A7 A8 A9 A10 A11] [B1 B2 B3 B4 B5 B6 B7 B8 B9 B10 B11].
  constructor; try congruence; auto.
  - intros i. rewrite B1, A1. repeat case_decide; set_solver.
  - intros i h Hi Hfl Hh. destruct (A2 i h ltac:(set_solver) Hfl Hh) as (h1 & Hh1 & E1).
    destruct (B2 i h1 ltac:(set_solver) ltac:(intros Hin; apply A4 in Hin; set_solver) Hh1) as (h2 & Hh2 & E2).
    exists h2. split; [done|congruence].
  - intros i Hi. rewrite B3, A3 by set_solver. done.
  - intros i Hi. apply B4 in Hi as [Hi|Hi]; [apply A4 in Hi|]; set_solver.
Qed.

Lemma freed_roots D s s' fl fl' l : freed s s' fl fl' l -> roots D s -> (forall i, i ∈ D -> i ∉ l) -> roots D s'.
Proof.
  intros Hf Hr Hd i x Hi Hx. pose proof (fd_parent _ _ _ _ _ Hf i (Hd i Hi)) as E. rewrite Hx in E.
  destruct (tn s i) as [y|] eqn:Ey; [|done]. injection E as ->. by apply (Hr i).
Qed.

(** ** The steps of [FreeHandle] *)

Lemma pool_set_hash D s fl bl first o : pool D s fl bl first -> pool D (set_psHashTab o s) fl bl first.
Proof. intros [P1 P2 P3 P4 P5 P6 P7 P8 P9 P10 P11 P12]. by destruct P1; constructor. Qed.

(** A handle that may occur several times has no key. *)
Lemma keyed_multi D e m p x :
  keyed D e m -> e p = Some x -> multi x = true -> keyed (p :: D) e m.
Proof.
  intros [K1 K2] Hp Hx. constructor.
  - intros i y Hi Hy Hd. apply K1; [done|done|set_solver].
  - intros k v Hk. destruct (K2 k v Hk) as (i & y & -> & Hi & Hy & Hd & <-). exists i, y.
    split_and!; try done. intros [->|]%elem_of_cons; [congruence|done].
Qed.

Lemma keyed_delete D e m p x :
  keyed D e m -> e p = Some x -> multi x = false -> p ∉ D -> keyed (p :: D) e (delete (key_of x) m).
Proof.
  intros [K1 K2] Hp Hx Hd. pose proof (K1 p x Hp Hx Hd) as Hm. constructor.
  - intros i y Hi Hy Hid. pose proof (K1 i y Hi Hy ltac:(set_solver)) as Hmi. rewrite lookup_delete_ne; [done|].
    intros E. rewrite <- E, Hm in Hmi. injection Hmi as Hmi. assert (i = p) by lia. set_solver.
  - intros k v Hk. apply lookup_delete_Some in Hk as [Hne Hk]. destruct (K2 k v Hk) as (i & y & -> & Hi & Hy & Hid & <-).
    exists i, y. split_and!; try done. intros [->|]%elem_of_cons; [|done]. congruence.
Qed.

Lemma size_delete_le (k : list Z) (m : gmap (list Z) Z) : (size (delete k m) <= size m)%nat.
Proof. rewrite map_size_delete. case_match; unfold id; lia. Qed.

(** Taking the key of a handle out of the table. *)
Lemma remove_key_ok D s K fl bl first m p x :
  hinv D s K fl bl first m -> ent s p = Some x -> multi x = false -> p ∉ D ->
  exists v t al, HASH_Remove_Key (key_of x) s = Ok (v, set_psHashTab (Some t) (set_allocs al s)) /\
    hinv (p :: D) (set_psHashTab (Some t) (set_allocs al s)) K fl bl first (delete (key_of x) m).
Proof.
  intros [I1 I2 I3 (t & Ht & Hrep) I5 I6] Hp Hx Hd.
  destruct (alloc_ok_run s) as (b & al & Ea).
  destruct (hm_remove_ok b t m (key_of x) Hrep eq_refl I6) as (t' & Er & Hrep').
  exists (default 0 (m !! key_of x)), t', al. split.
  - unfold HASH_Remove_Key. hb_run Ea. unfold hash_tab. unfold mbind, HB_bind, base. cbn [psHashTab set_allocs].
    rewrite Ht. cbn [mret HB_ret]. unfold hb_lift. by rewrite Er.
  - pose proof Hp as (h & Hh & Htype & _)%ent_Some. constructor; try done.
    + apply pool_set_hash, pool_set_allocs. eapply pool_relax; [exact I1|]. intros i hi Hi Hti _.
      assert (i <> p) by (intros ->; congruence). set_solver.
    + exists t'. done.
    + by apply keyed_delete.
    + pose proof (size_delete_le (key_of x) m). lia.
Qed.

(** The hash step of [FreeHandle] on a handle. *)
Lemma unhash_ok D s K fl bl first m p x :
  hinv D s K fl bl first m -> ent s p = Some x -> p ∉ D ->
  exists t al m', hb_when (negb (multi x)) (HASH_Remove_Key (key_of x);; mret tt) s
      = Ok (tt, set_psHashTab (Some t) (set_allocs al s)) /\
    hinv (p :: D) (set_psHashTab (Some t) (set_allocs al s)) K fl bl first m' /\ (size m' <= size m)%nat.
Proof.
  intros I Hp Hd. destruct (multi x) eqn:Hx; cbn [negb hb_when].
  - destruct I as [I1 I2 I3 (t & Ht & Hrep) I5 I6]. exists t, (allocs s), m.
    assert (set_psHashTab (Some t) (set_allocs (allocs s) s) = s) as -> by (rewrite <- Ht; by destruct s).
    split; [done|]. split; [|done]. pose proof Hp as (h & Hh & Htype & _)%ent_Some.
    constructor; try done; [|by eauto|by eapply keyed_multi].
    eapply pool_relax; [exact I1|]. intros i hi Hi Hti _. assert (i <> p) by (intros ->; congruence). set_solver.
  - destruct (remove_key_ok D s K fl bl first m p x I Hp Hx Hd) as (v & t & al & E & I').
    exists t, al, (delete (key_of x) m). split; [by hb_run E|]. split; [done|].
    apply size_delete_le.
Qed.

Lemma keyed_ext D e e' m : keyed D e m -> (forall i, i ∉ D -> e' i = e i) -> keyed D e' m.
Proof.
  intros [K1 K2] He. constructor.
  - intros i x Hi Hx Hd. rewrite He in Hi by done. by apply K1.
  - intros k v Hk. destruct (K2 k v Hk) as (i & x & ? & ? & ? & Hd & ?). exists i, x. rewrite He by done. done.
Qed.

Lemma ent_tree_frame s s' j :
  tree_frame s s' -> (fun x => hParent x.2) <$> tn s' j = (fun x => hParent x.2) <$> tn s j -> ent s' j = ent s j.
Proof.
  intros Hf Hp. pose proof (tf_rest _ _ Hf j) as E. unfold ent, tn in *.
  destruct (hnd s' j) as [h'|], (hnd s j) as [h|]; try done. cbn in *.
  injection E as Et Ed En Ei Ef Ex. rewrite Et, Ed, Ef. destruct (is_none (eType h)) eqn:Hn; [done|].
  unfold HANDLE_STRUCT_IS_FREE in Hp. rewrite Et, Hn in Hp. cbn in Hp. by injection Hp as ->.
Qed.

(** Unlinking a handle that is being freed. *)
Lemma unlink_step D s K fl bl first m p lp :
  hinv (p :: D) s K fl bl first m -> tn s p = Some lp ->
  exists s', UnlinkFromParent p s = Ok (tt, s') /\ hinv (p :: D) s' (prune [p] K) fl bl first m /\
    tree_frame s s' /\ (forall l, tn s' p = Some l -> hParent l.2 = 0) /\
    (forall j, j <> p -> (fun x => hParent x.2) <$> tn s' j = (fun x => hParent x.2) <$> tn s j).
Proof.
  intros [I1 I2 I3 I4 I5 I6] Hp.
  destruct (UnlinkFromParent_ok s K p lp I2 (po_index _ _ _ _ _ I1) Hp) as (s' & E & Hf & F' & Hroot & Hpar).
  exists s'. split; [done|]. split; [|done]. constructor.
  - by eapply pool_tree_frame.
  - done.
  - intros i h' Hh' Ht Hflag. destruct (tree_frame_lookup_inv _ _ _ _ Hf Hh') as (h & Hh & Er).
    injection Er as Et _ _ Ei _ _. destruct (I3 i h Hh ltac:(congruence) ltac:(congruence)) as [HK HP].
    unfold prune. rewrite HK. split; [done|].
    assert (tn s' i = Some (sChildren h', sSiblings h')) as Htn.
    { apply tn_Some. exists h'. split; [done|]. split; [by apply flagged_used|done]. }
    destruct (decide (i = p)) as [->|Hne]; [by apply (Hroot _ Htn)|].
    pose proof (Hpar i Hne) as Ep. rewrite Htn in Ep. destruct (tn s i) as [x|] eqn:Ex; [|done].
    injection Ep as Ep. apply tn_Some in Ex as (h0 & Hh0 & _ & ->). assert (h0 = h) as -> by congruence.
    cbn in Ep. congruence.
  - rewrite (tf_fields _ _ Hf). exact I4.
  - eapply keyed_ext; [exact I5|]. intros i Hi. apply ent_tree_frame; [done|]. apply Hpar. set_solver.
  - done.
Qed.

(** The end of [FreeHandle]: the handle loses its type, and either waits for the
    end of its batch or joins the free structures. *)
Definition finish_free (p index : Z) : HB (H := H) Z :=
  hstore p (set_eType PVRSRV_HANDLE_TYPE_NONE);;
  h ← hload p id;
  if BATCHED_HANDLE h && negb (BATCHED_HANDLE_PARTIALLY_FREE h) then
    hstore p SET_BATCHED_HANDLE_PARTIALLY_FREE;;
    mret PVRSRV_OK
  else
    free_handle_struct index;;
    mret PVRSRV_OK.

(** Where a structure that is being freed stands: in the batch, or outside of it
    and on no list. *)
Definition freeable (purging : bool) (bl : list Z) (p : Z) (h : sHandle) : Prop :=
  (p ∈ bl /\ eType h <> PVRSRV_HANDLE_TYPE_NONE /\ eInternalFlag h = 1) \/
  ((p ∉ bl) /\ ui32NextIndexPlusOne h = 0 /\
   (eInternalFlag h = 0 \/ (eInternalFlag h = 3 /\ purging = false))).

Lemma keyed_dead D e e' m p :
  keyed (p :: D) e m -> e' p = None -> (forall i, i <> p -> e' i = e i) -> keyed D e' m.
Proof.
  intros [K1 K2] Hp He. constructor.
  - intros i x Hi Hx Hd. assert (i <> p) by congruence. rewrite He in Hi by done. apply K1; [done|done|set_solver].
  - intros k v Hk. destruct (K2 k v Hk) as (i & x & ? & ? & ? & Hd & ?). exists i, x.
    rewrite He by set_solver. split_and!; try done. set_solver.
Qed.

(** The structure [p] alone stops being a handle. *)
Lemma stored_dead s s' p h h' :
  stored s p h' s' -> hnd s p = Some h -> eType h' = PVRSRV_HANDLE_TYPE_NONE ->
  (forall i, ent s' i = if decide (i ∈ [p]) then None else ent s i) /\
  (forall i, i <> p -> tn s' i = tn s i).
Proof.
  intros S Hp Ht. split.
  - intros i. unfold ent. rewrite (st_hnd _ _ _ _ S). destruct (decide (i = p)) as [->|Hne].
    + rewrite decide_True by set_solver. cbn. unfold is_none. by rewrite bool_decide_true.
    + rewrite decide_False by set_solver. done.
  - intros i Hi. unfold tn. by rewrite (st_hnd _ _ _ _ S), decide_False.
Qed.

Lemma finish_batched D s K fl bl first m p h :
  hinv (p :: D) s K fl bl first m -> hnd s p = Some h -> p ∈ bl ->
  eType h <> PVRSRV_HANDLE_TYPE_NONE -> eInternalFlag h = 1 ->
  K p = [] -> hParent (sSiblings h) = 0 ->
  exists s', finish_free p p s = Ok (PVRSRV_OK, s') /\ hinv D s' K fl bl first m /\ freed s s' fl fl [p].
Proof.
  intros [I1 I2 I3 I4 I5 I6] Hp Hbl Ht Hflag HK HP. pose proof (stored_refl s p h Hp) as S0.
  destruct (hstore_stored _ _ _ _ (set_eType PVRSRV_HANDLE_TYPE_NONE) S0) as (s1 & E1 & S1).
  destruct (hstore_stored _ _ _ _ SET_BATCHED_HANDLE_PARTIALLY_FREE S1) as (s2 & E2 & S2).
  set (h2 := SET_BATCHED_HANDLE_PARTIALLY_FREE _) in S2.
  assert (eType h2 = PVRSRV_HANDLE_TYPE_NONE /\ eInternalFlag h2 = 3 /\ sSiblings h2 = sSiblings h /\
    sChildren h2 = sChildren h /\ ui32Index h2 = p /\ ui32NextIndexPlusOne h2 = ui32NextIndexPlusOne h) as (T2 & F2 & Sb2 & C2 & X2 & N2).
  { unfold h2. cbn. rewrite Hflag. rewrite (po_index _ _ _ _ _ I1 p h Hp). done. }
  clearbody h2.
  destruct (stored_dead s s2 p h h2 S2 Hp T2) as [Hent Htn].
  assert (forall j, tn s2 j = tn s j) as Htn'.
  { intros j. destruct (decide (j = p)) as [->|Hj]; [|by apply Htn]. unfold tn.
    rewrite (st_hnd _ _ _ _ S2), decide_True, Hp by done. cbn.
    rewrite (live_used h Ht), (flagged_used h2) by (rewrite F2; done). by rewrite C2, Sb2. }
  exists s2. split; [|split].
  - unfold finish_free. hb_run E1. hb_run (hload_stored id _ _ _ _ S1). cbn [id].
    unfold BATCHED_HANDLE, BATCHED_HANDLE_PARTIALLY_FREE. cbn [eInternalFlag set_eType]. rewrite Hflag.
    change (TEST_FLAG 1 _) with true at 1. change (TEST_FLAG 1 _) with false. cbn [andb negb].
    by hb_run E2.
  - constructor; try done.
    + eapply pool_relax; [eapply (pool_stored (p :: D) s s2); [exact I1|exact Hp|exact S2|set_solver|done|by auto|done]|].
      intros i hi _ _ Hib. assert (i <> p) by (intros ->; done). set_solver.
    + eapply forest_ext; [exact I2|exact Htn'|done].
    + intros i hi Hi. rewrite (st_hnd _ _ _ _ S2) in Hi. case_decide; [|by apply I3].
      subst i. injection Hi as <-. rewrite Sb2. done.
    + rewrite (st_fields _ _ _ _ S2). exact I4.
    + eapply keyed_dead; [exact I5|rewrite Hent; rewrite decide_True by set_solver; done|].
      intros i Hi. rewrite Hent, decide_False by set_solver. done.
  - constructor; [exact Hent| | |by left|(rewrite (st_fields _ _ _ _ S2); done)..|].
    + intros i hi Hi _ Hhi. exists hi. rewrite (st_hnd _ _ _ _ S2), decide_False by set_solver. done.
    + intros i Hi. by rewrite Htn'.
    + intros Hz. unfold purge0. rewrite (st_fields _ _ _ _ S2). exact Hz.
Qed.

(** The links of a base in which a structure without relatives lost its type. *)
Lemma dead_forest s s1 K p h :
  forest (tn s) K -> hnd s p = Some h -> HANDLE_STRUCT_IS_FREE h = false ->
  stored s p (set_eType PVRSRV_HANDLE_TYPE_NONE h) s1 -> K p = [] -> hParent (sSiblings h) = 0 ->
  forest (tn s1) K /\ (eInternalFlag h <> 0 -> forall j, tn s1 j = tn s j).
Proof.
  intros F Hp Hu S HK HP. destruct (stored_dead s s1 p h _ S Hp eq_refl) as [_ Htn].
  assert (tn s p = Some (sChildren h, sSiblings h)) as Htp by (apply tn_Some; eauto).
  assert (tn s1 p = if eInternalFlag h =? 0 then None else Some (sChildren h, sSiblings h)) as Ht1.
  { unfold tn. rewrite (st_hnd _ _ _ _ S), decide_True by done. cbn. unfold HANDLE_STRUCT_IS_FREE, INTERNAL_HANDLE_FLAG_NONE.
    cbn. by destruct (eInternalFlag h =? 0). }
  split.
  - eapply (forest_ext (tn s1)); [eapply (forest_isolated (tn s) K (tn s1) p); [exact F| | |exact Htn|]|done|].
    + apply (fo_range _ _ F). eauto.
    + intros l Hl. rewrite Htp in Hl. injection Hl as <-. done.
    + rewrite Ht1. destruct (eInternalFlag h =? 0); [by left|right]. f_equal.
      pose proof (fo_head _ _ F p _ Htp) as E1. rewrite HK in E1. cbn in E1.
      destruct (forest_parent_field F p _ Htp) as [(_ & E2 & _)|(q & Hq & _ & E2)].
      * cbn in E2. by rewrite E1, E2.
      * pose proof (fo_range _ _ F q Hq). cbn in E2. lia.
    + intros q Hq. cbn. case_decide; [by subst|done].
  - intros Hf j. destruct (decide (j = p)) as [->|Hj]; [|by apply Htn].
    by rewrite Ht1, (proj2 (Z.eqb_neq _ _) Hf), Htp.
Qed.

Lemma finish_unbatched D s K fl bl first m p h :
  hinv (p :: D) s K fl bl first m -> p ∉ D -> hnd s p = Some h -> HANDLE_STRUCT_IS_FREE h = false -> p ∉ bl ->
  ui32NextIndexPlusOne h = 0 -> eInternalFlag h = 0 \/ eInternalFlag h = 3 ->
  (bPurgingEnabled s = true -> eInternalFlag h = 0) -> purge0 s -> K p = [] -> hParent (sSiblings h) = 0 ->
  exists s', finish_free p p s = Ok (PVRSRV_OK, s') /\ hinv D s' K (fl ++ [p]) bl first m /\
    freed s s' fl (fl ++ [p]) [p].
Proof.
  intros [I1 I2 I3 I4 I5 I6] HD Hp Hu Hbl Hnx Hflag Hpu Hz HK HP. pose proof (stored_refl s p h Hp) as S0.
  destruct (hstore_stored _ _ _ _ (set_eType PVRSRV_HANDLE_TYPE_NONE) S0) as (s1 & E1 & S1).
  destruct (dead_forest s s1 K p h I2 Hp Hu S1 HK HP) as [F1 _].
  destruct (stored_dead s s1 p h _ S1 Hp eq_refl) as [Hent Htn].
  assert (hnd s1 p = Some (set_eType PVRSRV_HANDLE_TYPE_NONE h)) as Hp1 by (rewrite (st_hnd _ _ _ _ S1); by rewrite decide_True).
  assert (pool (p :: D) s1 fl bl first) as P1.
  { eapply (pool_stored (p :: D) s s1); [exact I1|exact Hp|exact S1|set_solver|exact (po_index _ _ _ _ _ I1 p h Hp)|done|done]. }
  assert (bPurgingEnabled s1 = bPurgingEnabled s /\ ui32FirstFreeIndex s1 = ui32FirstFreeIndex s) as [Epu Eff]
    by (rewrite (st_fields _ _ _ _ S1); done).
  destruct (push_ok D s1 fl bl first p _ P1 HD Hp1 eq_refl Hbl Hnx) as (s2 & E2 & P2 & F2 & H2 & Z2).
  { intros E. rewrite Epu in E. rewrite Eff. split; [by apply Hz|by apply Hpu]. }
  pose proof (pool_frame_same _ _ F2) as Same2.
  exists s2. split; [|split].
  - unfold finish_free. hb_run E1. hb_run (hload_stored id _ _ _ _ S1). cbn [id].
    unfold BATCHED_HANDLE, BATCHED_HANDLE_PARTIALLY_FREE. cbn [eInternalFlag set_eType].
    assert (TEST_FLAG (eInternalFlag h) INTERNAL_HANDLE_FLAG_BATCHED &&
      negb (TEST_FLAG (eInternalFlag h) INTERNAL_HANDLE_FLAG_BATCHED_PARTIALLY_FREE) = false) as ->
      by (by destruct Hflag as [->| ->]).
    by hb_run E2.
  - constructor; try done.
    + eapply forest_ext; [exact F1|apply (sh_tn _ _ Same2)|done].
    + intros i hi Hi. destruct (pool_frame_lookup_inv _ _ _ _ F2 Hi) as (h1 & Hh1 & Et & Ei & _).
      pose proof (pf_hnd _ _ F2 i) as E. rewrite Hi, Hh1 in E. cbn in E. injection E as E.
      rewrite (st_hnd _ _ _ _ S1) in Hh1. rewrite Et, Ei. case_decide.
      * subst i. injection Hh1 as <-. intros _ _. split; [done|]. destruct hi. cbn in *. congruence.
      * intros Ht Hf. destruct (I3 i h1 Hh1 Ht Hf) as [? Hpar]. split; [done|]. destruct hi, h1. cbn in *. congruence.
    + rewrite (sh_hash _ _ Same2), (st_fields _ _ _ _ S1). exact I4.
    + eapply keyed_dead; [exact I5|rewrite (sh_ent _ _ Same2), Hent; rewrite decide_True by set_solver; done|].
      intros i Hi. rewrite (sh_ent _ _ Same2), Hent, decide_False by set_solver. done.
  - constructor; [| | |set_solver|(destruct F2; rewrite (st_fields _ _ _ _ S1) in *; done)..|].
    + intros i. by rewrite (sh_ent _ _ Same2).
    + intros i hi Hi Hfl Hhi. exists hi. rewrite H2, (st_hnd _ _ _ _ S1), decide_False by set_solver. done.
    + intros i Hi. rewrite (sh_tn _ _ Same2), Htn by set_solver. done.
    + intros _ E. apply Z2. by rewrite <- (pf_purging _ _ F2).
Qed.

Lemma finish_ok D s K fl bl first m p h :
  hinv (p :: D) s K fl bl first m -> p ∉ D -> hnd s p = Some h -> HANDLE_STRUCT_IS_FREE h = false ->
  freeable (bPurgingEnabled s) bl p h -> purge0 s -> K p = [] -> hParent (sSiblings h) = 0 ->
  exists s' fl', finish_free p p s = Ok (PVRSRV_OK, s') /\ hinv D s' K fl' bl first m /\ freed s s' fl fl' [p].
Proof.
  intros I HD Hp Hu [(Hbl & Ht & Hflag)|(Hbl & Hnx & Hflag)] Hz HK HP.
  - destruct (finish_batched D s K fl bl first m p h) as (s' & ? & ? & ?); eauto.
  - destruct (finish_unbatched D s K fl bl first m p h) as (s' & ? & ? & ?); eauto; [naive_solver|].
    intros Hpu. destruct Hflag as [|[_ ?]]; [done|congruence].
Qed.

(** ** Children *)

(** What follows the hash step of [FreeHandle]. *)
Definition free_rest (n : nat) (p index : Z) : HB Z :=
  UnlinkFromParent p;;
  eError ← IterateOverChildren p (FreeHandle n);
  if negb (eError =? PVRSRV_OK) then mret eError else finish_free p index.

Lemma FreeHandle_S n p s :
  FreeHandle (S n) p s = (h ← hload p id;
    hb_when (negb (TEST_FLAG (eFlag h) PVRSRV_HANDLE_ALLOC_FLAG_MULTI) && negb (BATCHED_HANDLE_PARTIALLY_FREE h))
      (HASH_Remove_Key (InitKey (pvData h) (eType h) (ParentIfPrivate h));; mret tt);;
    free_rest n p (ui32Index h)) s.
Proof. done. Qed.

(** [FreeHandle] with fuel [n] frees handles whose subtree has at most [n] nodes. *)
Definition frees (n : nat) : Prop := forall D s K fl bl first m p x l,
  hinv D s K fl bl first m -> roots D s -> p ∉ D -> ent s p = Some x -> post K p l -> (length l <= n)%nat ->
  purge0 s ->
  exists s' fl' m', FreeHandle n p s = Ok (PVRSRV_OK, s') /\ hinv D s' (prune l K) fl' bl first m' /\
    freed s s' fl fl' l /\ (size m' <= size m)%nat.

(** A child is a handle. *)
Lemma child_live D s K fl bl first m p c :
  hinv D s K fl bl first m -> is_Some (tn s p) -> c ∈ K p -> exists x, ent s c = Some x /\ e_parent x = p + 1.
Proof.
  intros I Hp Hc. pose proof (hi_forest _ _ _ _ _ _ _ I) as F. destruct (forest_child F p c Hp Hc) as (l & Hl & El).
  pose proof (fo_range _ _ F p Hp). apply tn_Some in Hl as (h & Hh & Hu & ->). cbn in El.
  destruct (decide (eType h = PVRSRV_HANDLE_TYPE_NONE)) as [Ht|Ht].
  - assert (eInternalFlag h <> 0) as Hf.
    { intros E. unfold HANDLE_STRUCT_IS_FREE, is_none in Hu. rewrite Ht, E in Hu. done. }
    destruct (hi_idle _ _ _ _ _ _ _ I c h Hh Ht Hf). lia.
  - eexists. split; [apply ent_Some; eauto|done].
Qed.

(** The nodes below a handle are not being freed. *)
Lemma below_not_dying D s K fl bl first m p l x :
  hinv D s K fl bl first m -> roots D s -> is_Some (tn s p) -> post K p l -> x ∈ l -> x <> p -> x ∉ D.
Proof.
  intros I Hr Hp Hl Hx Hne Hin. pose proof (hi_forest _ _ _ _ _ _ _ I) as F.
  pose proof (post_up _ _ _ _ Hl Hx) as Hup. inversion Hup as [|? y ? Hxy Hyp]; subst; [done|].
  assert (is_Some (tn s y)) as Hy by (eapply (forest_post_live F p l); [done|done|by eapply post_down]).
  destruct (forest_child F y x Hy Hxy) as (lx & Hlx & E). pose proof (Hr x lx Hin Hlx).
  pose proof (fo_range _ _ F y Hy). lia.
Qed.

Lemma iterate_ok n D p bl first :
  frees n -> p ∉ D -> forall cs fuel s K fl m ls,
  hinv (p :: D) s K fl bl first m -> roots (p :: D) s -> is_Some (tn s p) -> K p = cs -> posts K cs ls ->
  (length ls <= n)%nat -> (length cs <= fuel)%nat -> purge0 s ->
  exists s' fl' m', iterate_list fuel p fChildren fSiblings (FreeHandle n) (head_or p cs) s = Ok (PVRSRV_OK, s') /\
    hinv (p :: D) s' (prune ls K) fl' bl first m' /\ freed s s' fl fl' ls /\ (size m' <= size m)%nat.
Proof.
  intros IH HpD cs. induction cs as [|c cs IHcs]; intros fuel s K fl m ls I Hr Hp HK Hls Hn Hfuel Hz.
  { inversion Hls; subst. exists s, fl, m. split; [destruct fuel; cbn; by rewrite Z.eqb_refl|].
    split; [|split; [apply freed_refl|done]]. eapply hinv_ext; [exact I|]. intros q. apply filter_notin_id. set_solver. }
  inversion Hls as [|? ? l1 l2 Hl1 Hl2]; subst. pose proof (hi_forest _ _ _ _ _ _ _ I) as F.
  assert (c ∈ K p) as Hcp by (rewrite HK; set_solver).
  assert (NoDup (l1 ++ l2)) as Hnd.
  { eapply (posts_nodup F p (c :: cs)); [done|rewrite <- HK; by apply (fo_nodup _ _ F)|by rewrite HK|done|].
    intros c' lc' Hc' Hlc'. destruct (forest_child F p c' Hp ltac:(by rewrite HK)) as (? & ? & _).
    eapply (post_nodup F c'); eauto. }
  apply NoDup_app in Hnd as (_ & Hdisj & _).
  destruct (child_live _ _ _ _ _ _ _ _ _ I Hp Hcp) as (x & Hx & Hxp). pose proof (fo_range _ _ F p Hp) as Hpr.
  destruct (fo_entry _ _ F p [] c cs Hp HK) as (lc & Hlc & Elc).
  assert (c ∉ p :: D) as HcD.
  { intros Hin. pose proof (Hr c lc Hin Hlc) as E. rewrite Elc in E. cbn in E. lia. }
  destruct fuel as [|fuel]; [cbn in Hfuel; lia|]. rewrite length_app in Hn.
  destruct (IH (p :: D) s K fl bl first m c x l1 I Hr HcD Hx Hl1 ltac:(lia) Hz) as (s1 & fl1 & m1 & E1 & I1 & Fr1 & Hm1).
  assert (forall y, y ∈ p :: D -> y ∉ l1) as HD1.
  { intros y Hy Hin. destruct (decide (y = c)) as [->|Hne]; [done|].
    by eapply (below_not_dying _ _ _ _ _ _ _ c l1 y I Hr). }
  assert (is_Some (tn s1 p)) as Hp1.
  { pose proof (fd_parent _ _ _ _ _ Fr1 p (HD1 p ltac:(set_solver))) as E. destruct Hp as [lp Hlp]. rewrite Hlp in E.
    destruct (tn s1 p); [by eauto|done]. }
  assert (forall c', c' ∈ cs -> c' ∈ l2) as Hcs2.
  { intros c' Hc'. destruct (posts_child _ _ _ _ Hl2 Hc') as (lc' & Hlc' & _ & Hsub). apply Hsub. by eapply post_self. }
  destruct (IHcs fuel s1 (prune l1 K) fl1 m1 l2) as (s2 & fl2 & m2 & E2 & I2 & Fr2 & Hm2); try done.
  - by eapply freed_roots.
  - unfold prune. rewrite HK, filter_cons, decide_False by (intros Hn'; apply Hn'; by eapply post_self).
    apply filter_notin_id. intros c' Hc' Hin. by apply (Hdisj c'), Hcs2.
  - eapply posts_ext; [exact Hl2|]. intros q Hq. apply filter_notin_id. intros y Hy Hin.
    apply (Hdisj y Hin). destruct (posts_elem _ _ _ _ Hl2 Hq) as (c' & lc' & _ & Hlc' & Hqc & _ & Hsub).
    apply Hsub. by eapply post_closed.
  - lia.
  - cbn in Hfuel. lia.
  - by apply (fd_purge0 _ _ _ _ _ Fr1).
  - exists s2, fl2, m2. split; [|split; [|split; [by eapply freed_trans|lia]]].
    + cbn [iterate_list head_or head default id]. rewrite (proj2 (Z.eqb_neq c p)) by set_solver.
      unfold LIST_PTR_FROM_INDEX_AND_OFFSET. rewrite (proj2 (Z.eqb_neq c p)) by set_solver.
      hb_run (lload_links ui32Next s (c, fSiblings) lc Hlc). cbn [fst snd]. rewrite Elc. cbn [ui32Next].
      hb_run E1. exact E2.
    + eapply hinv_ext; [exact I2|]. intros q. symmetry. apply prune_prune.
Qed.

(** The count of structures bounds lists of them. *)
Lemma used_length D s K fl bl first m l :
  hinv D s K fl bl first m -> NoDup l -> (forall i, i ∈ l -> is_Some (tn s i)) ->
  (length l <= Z.to_nat (ui32TotalHandCount s))%nat.
Proof.
  intros I Hnd Hl. pose proof (po_array _ _ _ _ _ (hi_pool _ _ _ _ _ _ _ I)) as Ha.
  pose proof (array_total_range _ Ha) as Ht.
  pose proof (NoDup_bounded l (ui32TotalHandCount s) Hnd) as Hb. cut (Z.of_nat (length l) <= Z.max 0 (ui32TotalHandCount s)); [lia|].
  apply Hb, Forall_forall. intros i Hi. destruct (Hl i Hi) as [x (h & Hh & _)%tn_Some]. apply hnd_in_range; eauto.
Qed.

Lemma posts_children_gone K cs ls : posts K cs ls -> filter (fun x => x ∉ ls) cs = [].
Proof.
  intros Hls. assert (forall c, c ∈ cs -> c ∈ ls) as Hin.
  { intros c Hc. destruct (posts_child _ _ _ _ Hls Hc) as (lc & Hlc & _ & Hsub). apply Hsub. by eapply post_self. }
  clear Hls. induction cs as [|c cs IH]; [done|]. rewrite filter_cons, decide_False, IH; set_solver.
Qed.

Lemma unlinked_freed s s1 s' fl fl' l p :
  tree_frame s s1 -> (forall j, j <> p -> (fun x => hParent x.2) <$> tn s1 j = (fun x => hParent x.2) <$> tn s j) ->
  p ∈ l -> freed s1 s' fl fl' l -> freed s s' fl fl' l.
Proof.
  intros Hf Hpar Hp [A1 A2 A3 A4 A5 A6 A7 A8 A9 A10 A11]. pose proof (tf_fields _ _ Hf) as Hs1.
  constructor; [| | |exact A4|by rewrite Hs1 in A5|by rewrite Hs1 in A6|by rewrite Hs1 in A7|by rewrite Hs1 in A8|
    by rewrite Hs1 in A9|by rewrite Hs1 in A10|].
  - intros i. rewrite A1. case_decide as Hi; [done|]. apply ent_tree_frame; [done|]. apply Hpar. by intros ->.
  - intros i h Hi Hfl Hh. destruct (tree_frame_lookup _ _ _ _ Hf Hh) as (h1 & Hh1 & E1).
    destruct (A2 i h1 Hi Hfl Hh1) as (h' & Hh' & E'). exists h'. split; [done|congruence].
  - intros i Hi. rewrite A3 by done. apply Hpar. by intros ->.
  - intros Hz. apply A11. unfold purge0. rewrite Hs1. exact Hz.
Qed.

(** The iteration over the children starts at the first of them. *)
Lemma run_children s p K l f (k : Z -> HB Z) :
  forest (tn s) K -> tn s p = Some l ->
  ((hp ← lload (p, fChildren) hParent;
    next ← lload (p, fChildren) ui32Next;
    fuel ← base handle_fuel;
    iterate_list fuel (HANDLE_TO_INDEX hp) fChildren fSiblings f next) ≫= k) s =
  match iterate_list (handle_fuel s) p fChildren fSiblings f (head_or p (K p)) s with
  | Ok (e, s') => k e s'
  | Fault x => Fault x
  end.
Proof.
  intros F Hp. pose proof (fo_head _ _ F p l Hp) as El.
  unfold mbind, HB_bind. rewrite (lload_links hParent s (p, fChildren) l Hp), (lload_links ui32Next s (p, fChildren) l Hp).
  cbn [fst snd base]. rewrite El. cbn [hParent ui32Next]. rewrite handle_index_inv; [done|].
  apply (fo_range _ _ F). eauto.
Qed.

Lemma freeable_rest pu bl p h h' : rest h' = rest h -> freeable pu bl p h -> freeable pu bl p h'.
Proof. intros [= E1 _ E2 E3 _ _]. unfold freeable. by rewrite E1, E2, E3. Qed.

Lemma used_rest h h' : rest h' = rest h -> HANDLE_STRUCT_IS_FREE h' = HANDLE_STRUCT_IS_FREE h.
Proof. intros [= E1 _ _ E3 _ _]. unfold HANDLE_STRUCT_IS_FREE. by rewrite E1, E3. Qed.

Lemma free_rest_ok n D s K fl bl first m p h ls :
  frees n -> hinv (p :: D) s K fl bl first m -> roots D s -> p ∉ D -> hnd s p = Some h ->
  HANDLE_STRUCT_IS_FREE h = false -> freeable (bPurgingEnabled s) bl p h ->
  posts K (K p) ls -> (length ls <= n)%nat -> purge0 s ->
  exists s' fl' m', free_rest n p p s = Ok (PVRSRV_OK, s') /\ hinv D s' (prune (ls ++ [p]) K) fl' bl first m' /\
    freed s s' fl fl' (ls ++ [p]) /\ (size m' <= size m)%nat.
Proof.
  intros IH I Hr HpD Hp Hu Hfree Hls Hn Hz. pose proof (hi_forest _ _ _ _ _ _ _ I) as F.
  assert (tn s p = Some (sChildren h, sSiblings h)) as Htp by (apply tn_Some; eauto).
  assert (post K p (ls ++ [p])) as Hpost by (by constructor).
  destruct (unlink_step D s K fl bl first m p _ I Htp) as (s1 & E1 & I1 & Hf1 & Hroot1 & Hpar1).
  destruct (tree_frame_lookup _ _ _ _ Hf1 Hp) as (h1 & Hh1 & R1). pose proof (tf_fields _ _ Hf1) as Hs1.
  assert (tn s1 p = Some (sChildren h1, sSiblings h1)) as Htp1.
  { apply tn_Some. exists h1. by rewrite (used_rest h h1 R1). }
  assert (forall q, q ∈ ls ++ [p] -> prune [p] K q = K q) as HK1.
  { intros q Hq. apply filter_notin_id. intros y Hy Hyp. apply list_elem_of_singleton in Hyp as ->.
    by apply (post_acyclic K p _ q Hpost Hq). }
  assert (p ∉ ls) as Hpls.
  { pose proof (post_nodup F p _ ltac:(eauto) Hpost) as Hnd. apply NoDup_app in Hnd as (_ & Hd & _). intros Hin. apply (Hd p Hin). set_solver. }
  assert (roots (p :: D) s1) as Hr1.
  { intros i l [->|Hi]%elem_of_cons Hl; [by apply Hroot1|].
    assert (i <> p) as Hne by (intros ->; done). pose proof (Hpar1 i Hne) as E. rewrite Hl in E.
    destruct (tn s i) as [y|] eqn:Ey; [|done]. injection E as ->. by apply (Hr i). }
  destruct (iterate_ok n D p bl first IH HpD (K p) (handle_fuel s1) s1 (prune [p] K) fl m ls)
    as (s2 & fl2 & m2 & E2 & I2 & Fr2 & Hm2); try done.
  - apply HK1. set_solver.
  - eapply posts_ext; [exact Hls|]. intros q Hq. apply HK1. set_solver.
  - unfold handle_fuel. transitivity (Z.to_nat (ui32TotalHandCount s1)); [|lia].
    replace (ui32TotalHandCount s1) with (ui32TotalHandCount s) by (by rewrite Hs1).
    eapply used_length; [exact I|apply (fo_nodup _ _ F); eauto|].
    intros c Hc. destruct (forest_child F p c ltac:(eauto) Hc) as (? & ? & _). eauto.
  - unfold purge0. rewrite Hs1. exact Hz.
  - assert (p ∉ fl) as Hpfl by (rewrite (po_fl _ _ _ _ _ (hi_pool _ _ _ _ _ _ _ I)); set_solver).
    destruct (fd_rest _ _ _ _ _ Fr2 p h1 Hpls Hpfl Hh1) as (h2 & Hh2 & R2).
    assert (HANDLE_STRUCT_IS_FREE h2 = false) as Hu2 by (by rewrite (used_rest h1 h2 R2), (used_rest h h1 R1)).
    assert (tn s2 p = Some (sChildren h2, sSiblings h2)) as Htp2 by (apply tn_Some; eauto).
    destruct (finish_ok D s2 (prune ls (prune [p] K)) fl2 bl first m2 p h2) as (s3 & fl3 & E3 & I3 & Fr3); try done.
    + rewrite (fd_purging _ _ _ _ _ Fr2). replace (bPurgingEnabled s1) with (bPurgingEnabled s) by (by rewrite Hs1).
      eapply freeable_rest; [|exact Hfree]. congruence.
    + apply (fd_purge0 _ _ _ _ _ Fr2). unfold purge0. rewrite Hs1. exact Hz.
    + unfold prune at 1. rewrite HK1 by set_solver. by eapply posts_children_gone.
    + pose proof (fd_parent _ _ _ _ _ Fr2 p Hpls) as E. rewrite Htp2, Htp1 in E. injection E as E. cbn in E. rewrite E.
      by apply (Hroot1 _ Htp1).
    + exists s3, fl3, m2. split; [|split; [|split; [|done]]].
      * unfold free_rest. hb_run E1. unfold IterateOverChildren, HandleListIterate.
        rewrite (run_children s1 p (prune [p] K) (sChildren h1, sSiblings h1) _ _ (hi_forest _ _ _ _ _ _ _ I1) Htp1).
        rewrite HK1 by set_solver. rewrite E2. exact E3.
      * eapply hinv_ext; [exact I3|]. intros q. rewrite prune_prune. apply prune_perm. set_solver.
      * eapply unlinked_freed; [exact Hf1|exact Hpar1|set_solver|]. by eapply freed_trans.
Qed.

(** A handle is in the batch or linked nowhere. *)
Lemma live_freeable D s fl bl first p h :
  pool D s fl bl first -> hnd s p = Some h -> eType h <> PVRSRV_HANDLE_TYPE_NONE ->
  freeable (bPurgingEnabled s) bl p h /\ BATCHED_HANDLE_PARTIALLY_FREE h = false.
Proof.
  intros P Hp Ht. destruct (decide (p ∈ bl)) as [Hbl|Hbl].
  - destruct (po_bl _ _ _ _ _ P p Hbl) as (h' & Hh' & [[? _]|[_ Hf]]); simplify_eq; try done.
    split; [by left|]. unfold BATCHED_HANDLE_PARTIALLY_FREE. by rewrite Hf.
  - destruct (po_live _ _ _ _ _ P p h Hp Ht Hbl) as [Hn Hf].
    split; [right; auto|]. unfold BATCHED_HANDLE_PARTIALLY_FREE. by rewrite Hf.
Qed.

(** Taking out the key leaves the handles alone. *)
Lemma freed_unhashed s s' fl fl' l t al :
  freed (set_psHashTab t (set_allocs al s)) s' fl fl' l -> freed s s' fl fl' l.
Proof. by intros []. Qed.

Lemma frees_all n : frees n.
Proof.
  induction n as [|n IH]; intros D s K fl bl first m p x l I Hr HpD Hx Hl Hn Hz.
  { pose proof (post_self _ _ _ Hl). destruct l; [set_solver|cbn in Hn; lia]. }
  inversion Hl as [? ls Hls]; subst. rewrite length_app in Hn. cbn in Hn.
  pose proof (hi_pool _ _ _ _ _ _ _ I) as P. pose proof Hx as (h & Hh & Ht & ->)%ent_Some.
  destruct (live_freeable _ _ _ _ _ _ _ P Hh Ht) as [Hfree Hpf].
  destruct (unhash_ok D s K fl bl first m p _ I Hx HpD) as (t & al & m1 & E1 & I1 & Hm1).
  destruct (free_rest_ok n D (set_psHashTab (Some t) (set_allocs al s)) K fl bl first m1 p h ls)
    as (s' & fl' & m' & E2 & I2 & Fr & Hm2); try done; [by apply live_used|lia|].
  exists s', fl', m'. split; [|split; [done|split; [by eapply freed_unhashed|lia]]].
  rewrite FreeHandle_S. hb_run (hload_ok id s p h Hh). cbn [id]. rewrite Hpf, andb_true_r.
  rewrite (po_index _ _ _ _ _ P p h Hh). hb_run E1. exact E2.
Qed.

(** [FreeHandle] of a handle frees it and everything below it, and nothing else. *)
Lemma Free_Handle_ok s K fl bl first m p x l :
  hinv [] s K fl bl first m -> ent s p = Some x -> post K p l -> purge0 s ->
  exists s' fl' m', Free_Handle p s = Ok (PVRSRV_OK, s') /\ hinv [] s' (prune l K) fl' bl first m' /\
    freed s s' fl fl' l /\ (size m' <= size m)%nat.
Proof.
  intros I Hx Hl Hz. pose proof (hi_forest _ _ _ _ _ _ _ I) as F.
  destruct (live_tn _ _ _ Hx) as (lp & Hlp & _). unfold Free_Handle.
  apply (frees_all (handle_fuel s) [] s K fl bl first m p x l); try done; [by intros ? ? ?%elem_of_nil|set_solver|].
  unfold handle_fuel. apply Nat.le_le_succ_r. eapply used_length; [exact I|eapply (post_nodup F p); eauto|].
  intros i Hi. eapply (forest_post_live F p l); eauto.
Qed.

(** A structure that lost its type in the batch joins the free ones at its end. *)
Lemma Free_Handle_idle s K fl bl first m p h :
  hinv [p] s K fl bl first m -> hnd s p = Some h -> eType h = PVRSRV_HANDLE_TYPE_NONE -> eInternalFlag h = 3 ->
  p ∉ bl -> ui32NextIndexPlusOne h = 0 -> bPurgingEnabled s = false ->
  exists s' fl' m', Free_Handle p s = Ok (PVRSRV_OK, s') /\ hinv [] s' (prune [p] K) fl' bl first m' /\
    freed s s' fl fl' [p] /\ (size m' <= size m)%nat.
Proof.
  intros I Hp Ht Hf Hbl Hn Hpu. pose proof (hi_forest _ _ _ _ _ _ _ I) as F.
  pose proof (hi_pool _ _ _ _ _ _ _ I) as P.
  destruct (hi_idle _ _ _ _ _ _ _ I p h Hp Ht ltac:(lia)) as [HK HP].
  destruct (free_rest_ok (Z.to_nat (ui32TotalHandCount s)) [] s K fl bl first m p h [])
    as (s' & fl' & m' & E & I' & Fr & Hm); try done.
  - apply frees_all.
  - by intros ? ? ?%elem_of_nil.
  - set_solver.
  - apply flagged_used. lia.
  - right. auto.
  - rewrite HK. constructor.
  - cbn. lia.
  - intros ?. congruence.
  - exists s', fl', m'. split; [|done].
    unfold Free_Handle. rewrite hb_base_bind. unfold handle_fuel. rewrite FreeHandle_S.
    hb_run (hload_ok id s p h Hp). cbn [id]. unfold BATCHED_HANDLE_PARTIALLY_FREE. rewrite Hf.
    change (TEST_FLAG 3 _) with true. cbn [negb]. rewrite andb_false_r. cbn [hb_when].
    rewrite (po_index _ _ _ _ _ P p h Hp). exact E.
Qed.

End Free.
