(* ===== verification/PvrHandleAlloc.v ===== *)
(** * Allocating handles

    [AllocHandle] takes a free structure, growing the array when there is none,
    and enters its key; the interface to clients adds the search for an existing
    handle and the parent. *)

From stdpp Require Import base list numbers option gmap relations.
From Stdlib Require Import ZArith Lia.
From S2P Require Import Prelude PvrHash PvrHashFacts PvrHandleMap PvrHandle PvrHandleArray.
From S2P Require Import PvrHandleForest PvrHandlePool PvrHandlePick.
From S2P Require Import PvrHandleFree.

Local Open Scope Z_scope.

(** ** Keys of a new handle *)

(** The handles with a new one. *)
Definition with_entry (i : Z) (x : entry) (e : Z -> option entry) : Z -> option entry := fun j =>
  if decide (j = i) then Some x else e j.

Lemma keyed_new D e e' m i x :
  keyed D e m -> e i = None -> (forall j, e' j = with_entry i x e j) -> i ∉ D ->
  (multi x = false -> m !! key_of x = None) ->
  keyed D e' (if multi x then m else <[key_of x := i + 1]> m).
Proof.
  intros [K1 K2] Hi He HD Hm. unfold with_entry in He. constructor.
  - intros j y Hj Hy Hjd. rewrite He in Hj. case_decide as Hji.
    + subst j. injection Hj as ->. rewrite Hy. apply lookup_insert_eq.
    + pose proof (K1 j y Hj Hy Hjd) as Hk. destruct (multi x); [done|]. rewrite lookup_insert_ne; [done|].
      intros E. rewrite <- E, Hm in Hk by done. done.
  - intros k v Hk. assert (m !! k = Some v \/ (multi x = false /\ k = key_of x /\ v = i + 1)) as [Hk'|(Hx & -> & ->)].
    { destruct (multi x) eqn:Hx; [by left|]. apply lookup_insert_Some in Hk as [[? ?]|[_ ?]]; auto. }
    + destruct (K2 k v Hk') as (j & y & -> & Hj & Hy & Hjd & <-). exists j, y. rewrite He, decide_False by congruence. done.
    + exists i, x. rewrite He, decide_True by done. done.
Qed.

Section Alloc.
Context {H : Type} {HM : HandleMap H} {BSH : BlockShift}.

Implicit Types s : PVRSRV_HANDLE_BASE H.
Abbreviation BS := HANDLE_BLOCK_SIZE.

(** There are no more keys than structures. *)
Lemma keys_bound D s K fl bl first m :
  hinv D s K fl bl first m -> Z.of_nat (size m) <= ui32TotalHandCount s.
Proof.
  intros I. pose proof (po_array _ _ _ _ _ (hi_pool _ _ _ _ _ _ _ I)) as Ha.
  pose proof (array_total_range _ Ha) as Ht. pose proof (hi_keyed _ _ _ _ _ _ _ I) as Hk.
  assert (length (map_to_list m).*2 = size m) as <- by (by rewrite length_fmap, length_map_to_list).
  rewrite <- (Z.max_r 0 (ui32TotalHandCount s)) by lia.
  assert (forall k v, (k, v) ∈ map_to_list m -> exists i x, v = i + 1 /\ ent s i = Some x /\ key_of x = k) as Hv.
  { intros k v Hkv%elem_of_map_to_list. destruct (ky_out _ _ _ Hk k v Hkv) as (i & x & ? & ? & _ & _ & ?). eauto. }
  rewrite <- (length_fmap (fun v => v - 1)). apply NoDup_bounded.
  - pose proof (NoDup_map_to_list m) as Hnd. rewrite <- list_fmap_compose. apply NoDup_fmap_2_strong; [|done].
    intros [k v] [k' v'] H1 H2 E. cbn in E. destruct (Hv k v H1) as (i & x & -> & Hx & <-).
    destruct (Hv k' v' H2) as (i' & x' & -> & Hx' & <-). assert (i = i') as <- by lia. congruence.
  - apply Forall_forall. intros i Hi. apply list_elem_of_fmap in Hi as (v & -> & Hi).
    apply list_elem_of_fmap in Hi as ([k v'] & -> & Hi). destruct (Hv k v' Hi) as (i & x & -> & Hx & _).
    apply ent_Some in Hx as (h & Hh & _ & _). apply hnd_in_range; [done|]. cbn. replace (i + 1 - 1) with i by lia. eauto.
Qed.

(** The structures that wait are without type and without relatives. *)
Definition idle s (K : Z -> list Z) : Prop := forall i l,
  tn s i = Some l -> ent s i = None -> K i = [] /\ hParent l.2 = 0.

Lemma idle_hnd s K :
  idle s K <-> forall i h, hnd s i = Some h -> eType h = PVRSRV_HANDLE_TYPE_NONE -> eInternalFlag h <> 0 ->
    K i = [] /\ hParent (sSiblings h) = 0.
Proof.
  split.
  - intros Hi i h Hh Ht Hf. apply (Hi i (sChildren h, sSiblings h)).
    + apply tn_Some. exists h. split; [done|]. split; [by apply flagged_used|done].
    + unfold ent, is_none. rewrite Hh. cbn. by rewrite bool_decide_true.
  - intros Hi i l (h & Hh & Hu & ->)%tn_Some He. unfold ent, is_none in He. rewrite Hh in He. cbn in He.
    case_bool_decide as Ht; [|done]. apply (Hi i h Hh Ht). intros E. unfold HANDLE_STRUCT_IS_FREE, is_none in Hu.
    rewrite Ht, E in Hu. done.
Qed.

Lemma hinv_idle D s K fl bl first m : hinv D s K fl bl first m -> idle s K.
Proof. intros I. apply idle_hnd, I. Qed.

(** The invariant follows the handles, the forest and the table. *)
Lemma hinv_same D s s' K fl fl' bl first m :
  hinv D s K fl bl first m -> same_handles s s' -> pool D s' fl' bl first -> hinv D s' K fl' bl first m.
Proof.
  intros I S P. pose proof (hinv_idle _ _ _ _ _ _ _ I) as Hi. destruct I as [I1 I2 I3 I4 I5 I6]. constructor; [done| | | | |done].
  - eapply forest_ext; [exact I2|apply S|done].
  - apply idle_hnd. intros i l. rewrite (sh_tn _ _ S), (sh_ent _ _ S). apply Hi.
  - by rewrite (sh_hash _ _ S).
  - eapply keyed_ext; [exact I5|]. intros i _. apply S.
Qed.

(** ** The new handle *)

(** Two bases with the same limit, batch and mode. *)
Record same_mode s s' : Prop := mk_mode {
  sm_max : ui32MaxIndexPlusOne s' = ui32MaxIndexPlusOne s;
  sm_size : ui32HandBatchSize s' = ui32HandBatchSize s;
  sm_failures : ui32BatchHandAllocFailures s' = ui32BatchHandAllocFailures s;
  sm_purging : bPurgingEnabled s' = bPurgingEnabled s;
  sm_total : ui32TotalHandCount s <= ui32TotalHandCount s' }.

#[export] Instance same_mode_preorder : PreOrder same_mode.
Proof. split; [done|]. intros s1 s2 s3 [] []. split; [congruence..|lia]. Qed.

Lemma same_handles_mode s s' : same_handles s s' -> same_mode s s'.
Proof. by intros []. Qed.

Lemma pool_frame_mode s s' : pool_frame s s' -> same_mode s s'.
Proof. intros []. split; [done..|lia]. Qed.

(** The handle at [i] is new, without parent; its key may be of another parent. *)
Record allocated s s' (K : Z -> list Z) (fl' bl' : list Z) (m' : gmap (list Z) Z) (i : Z) (x : entry) : Prop := mk_allocated {
  al_pool : pool [] s' fl' bl' (ui32FirstBatchIndexPlusOne s');
  al_forest : forest (tn s') (fun q => if decide (q = i) then [] else K q);
  al_idle : idle s' (fun q => if decide (q = i) then [] else K q);
  al_hash : exists t, psHashTab s' = Some t /\ hm_rep t m';
  al_fresh : ent s i = None;
  al_ent j : ent s' j = with_entry i x (ent s) j;
  al_mode : same_mode s s';
  al_purge : purge0 s' }.

(** Entering a key, which fails when there is no memory for it. *)
Lemma insert_key_ok s m k v t :
  psHashTab s = Some t -> hm_rep t m -> length k = 3%nat -> m !! k = None -> Z.of_nat (size m) + 1 < COUNT_LIMIT ->
  exists b t' al, HASH_Insert_Key k v s = Ok (b, set_psHashTab (Some t') (set_allocs al s)) /\
    hm_rep t' (if b then <[k := v]> m else m).
Proof.
  intros Ht Hrep Hk Hm Hsz. destruct (alloc_ok_run s) as (b & al & E1).
  destruct (alloc_ok_run (set_allocs al s)) as (b2 & al2 & E2).
  destruct (hm_insert_ok b b2 t m k v Hrep Hk Hm Hsz) as (t' & E3 & Hrep').
  exists b, t', al2. split; [|done]. unfold HASH_Insert_Key. hb_run E1. hb_run E2.
  unfold hash_tab, mbind, HB_bind, base. cbn [psHashTab set_allocs]. rewrite Ht. cbn [mret HB_ret].
  unfold hb_lift. by rewrite E3.
Qed.

Lemma purge0_same s s' : bPurgingEnabled s' = bPurgingEnabled s -> ui32FirstFreeIndex s' = ui32FirstFreeIndex s -> purge0 s -> purge0 s'.
Proof. unfold purge0. by intros -> ->. Qed.

(** The structure [i], taken from the free ones, becomes a handle. *)
Lemma new_handle_ok s K fl bl i data type flag t m' :
  pool [] s fl bl (ui32FirstBatchIndexPlusOne s) -> forest (tn s) K -> idle s K ->
  psHashTab s = Some t -> hm_rep t m' -> i ∈ fl -> (bPurgingEnabled s = false -> head fl = Some i) ->
  purge0 s -> type <> PVRSRV_HANDLE_TYPE_NONE ->
  exists s' fl', (take_handle i (Some i);; init_new_handle (Some i) i data type flag) s = Ok (tt, s') /\
    allocated s s' K fl' (if HANDLES_BATCHED s then i :: bl else bl) m' i (mk_entry type data flag 0).
Proof.
  intros P F Hidle Ht Hrep Hi Hhd Hz Hty.
  destruct (take_ok s fl bl _ i P Hi Hhd) as (s1 & E1 & P1 & F1 & H1 & Z1).
  pose proof (proj1 (po_fl _ _ _ _ _ P i) Hi) as (h & Hh & Hn & Hbl & _).
  rewrite <- (pf_batch _ _ F1) in P1.
  destruct (init_ok s1 (rest_of i fl) bl i h data type flag P1 ltac:(by rewrite H1) Hbl Hty)
    as (s2 & nx & fg & E2 & P2 & H2 & Hh2 & Hmax & Hsz & Hfa & Hpu & Hff & Htot).
  assert (forall j, j <> i -> tn s2 j = tn s j /\ ent s2 j = ent s j) as Hother.
  { intros j Hj. unfold tn, ent. rewrite H2, decide_False, H1 by done. done. }
  assert (ent s i = None) as Hei by (unfold ent, is_none; rewrite Hh; cbn; by rewrite bool_decide_true).
  assert (ent s2 i = Some (mk_entry type data flag 0)) as He2.
  { apply ent_Some. eexists. rewrite H2, decide_True by done. split; [done|]. done. }
  assert (HANDLES_BATCHED s1 = HANDLES_BATCHED s) as Eb by (unfold HANDLES_BATCHED; by rewrite (pf_size _ _ F1)).
  exists s2, (rest_of i fl). split; [hb_run E1; exact E2|]. rewrite Eb in P2. constructor; [done| | | |done| | |].
  - eapply (forest_isolated (tn s) K (tn s2) i); [done|apply (hnd_range s i h); [apply P|done]| | |].
    + intros l Hl. by apply and_comm, (Hidle i l).
    + intros j Hj. by apply Hother.
    + right. apply tn_Some. eexists. rewrite H2, decide_True by done. split; [done|]. split; [by apply live_used|done].
  - intros j l Hl He. case_decide as Hj; [subst; congruence|]. destruct (Hother j Hj) as [Et Ee].
    rewrite Et in Hl. rewrite Ee in He. by apply (Hidle j l).
  - exists t. split; [|done]. rewrite Hh2, (pf_hash _ _ F1). done.
  - intros j. unfold with_entry. case_decide as Hj; [by subst|]. by apply Hother.
  - transitivity s1; [by apply pool_frame_mode|]. split; [done..|lia].
  - intros E. rewrite Hpu, (pf_purging _ _ F1) in E. rewrite Hff, Z1 by done. by apply Hz.
Qed.

(** The key step of [AllocHandle]. *)
Lemma enter_key_ok s m k v t (multiple : bool) :
  psHashTab s = Some t -> hm_rep t m -> length k = 3%nat -> (multiple = false -> m !! k = None) ->
  Z.of_nat (size m) + 1 < COUNT_LIMIT ->
  exists b t' al, (if negb multiple then HASH_Insert_Key k v else mret true) s =
      Ok (b, set_psHashTab (Some t') (set_allocs al s)) /\
    hm_rep t' (if b then (if multiple then m else <[k := v]> m) else m).
Proof.
  intros Ht Hrep Hk Hm Hsz. destruct multiple; cbn [negb].
  - exists true, t, (allocs s). split; [|done]. unfold mret, HB_ret. do 2 f_equal. rewrite <- Ht. by destruct s.
  - apply (insert_key_ok s m k v t); auto.
Qed.

Lemma allocated_from s1 s s' K fl' bl' m' i x :
  (forall j, ent s j = ent s1 j) -> same_mode s1 s -> allocated s s' K fl' bl' m' i x -> allocated s1 s' K fl' bl' m' i x.
Proof.
  intros He Hm [A1 A2 A3 A4 A5 A6 A7 A8]. constructor; try done.
  - by rewrite <- He.
  - intros j. rewrite A6. unfold with_entry. by rewrite He.
  - by transitivity s.
Qed.

(** A failed allocation leaves the handles as they are. *)
Record unchanged s s' (K : Z -> list Z) (bl : list Z) (m : gmap (list Z) Z) : Prop := mk_unchanged {
  un_inv : exists fl', hinv [] s' K fl' bl (ui32FirstBatchIndexPlusOne s') m;
  un_ent j : ent s' j = ent s j;
  un_mode : same_mode s s';
  un_purge : purge0 s' }.

Lemma AllocHandle_ok s K fl bl m data type flag parent :
  hinv [] s K fl bl (ui32FirstBatchIndexPlusOne s) m -> purge0 s -> type <> PVRSRV_HANDLE_TYPE_NONE ->
  (TEST_FLAG flag PVRSRV_HANDLE_ALLOC_FLAG_MULTI = false -> m !! InitKey data type parent = None) ->
  Z.of_nat (size m) + 1 < COUNT_LIMIT ->
  (exists e s', AllocHandle data type flag parent s = Ok (e, 0, s') /\
    (e = PVRSRV_ERROR_OUT_OF_MEMORY \/ e = PVRSRV_ERROR_UNABLE_TO_ADD_HANDLE) /\ unchanged s s' K bl m) \/
  (exists i s' fl', AllocHandle data type flag parent s = Ok (PVRSRV_OK, i + 1, s') /\
    allocated s s' K fl' (if HANDLES_BATCHED s then i :: bl else bl)
      (if TEST_FLAG flag PVRSRV_HANDLE_ALLOC_FLAG_MULTI then m else <[InitKey data type parent := i + 1]> m)
      i (mk_entry type data flag 0)).
Proof.
  intros I Hz Hty Hk Hsz. pose proof (hi_pool _ _ _ _ _ _ _ I) as P. unfold AllocHandle.
  destruct (EnsureFreeHandles_ok s fl bl _ 1 P ltac:(lia)) as (e & s1 & fl1 & E1 & S1 & P1 & He).
  { rewrite (po_count _ _ _ _ _ P). destruct fl as [|i fl]; [right|left; cbn; lia].
    unfold grow_safe. destruct (bPurgingEnabled s) eqn:E; [|by left]. split; [by apply Hz|done]. }
  hb_run E1. pose proof (hinv_same _ _ _ _ _ _ _ _ _ I S1 P1) as I1. rewrite <- (sh_batch _ _ S1) in P1, I1.
  destruct He as [[-> Hfree]|[-> Hff]]; cbn [negb Z.eqb PVRSRV_OK PVRSRV_ERROR_OUT_OF_MEMORY].
  2: { left. eexists _, s1. split; [done|]. split; [by left|]. constructor; [by eauto|apply S1|by apply same_handles_mode|].
       eapply purge0_same; [apply S1|exact Hff|done]. }
  destruct (pick_ok s1 fl1 bl _ P1) as (i & s2 & E2 & Hi & S2 & P2 & Hpick).
  { intros ->. rewrite (po_count _ _ _ _ _ P1) in Hfree. cbn in Hfree. lia. }
  pose proof (hinv_same _ _ _ _ _ _ _ _ _ I1 S2 P2) as I2. rewrite <- (sh_batch _ _ S2) in P2, I2.
  assert (same_handles s s2) as S by (by transitivity s1).
  assert (purge0 s2) as Hz2.
  { unfold purge0. rewrite (sh_purging _ _ S2). intros E. rewrite E in Hpick. apply Hpick. }
  assert (bPurgingEnabled s2 = false -> head fl1 = Some i) as Hhd.
  { rewrite (sh_purging _ _ S2). intros E. rewrite E in Hpick. apply Hpick. }
  assert (0 <= i < 2 ^ 31) as Hir.
  { pose proof (array_total_range _ (po_array _ _ _ _ _ P2)). pose proof (pool_fl_range _ _ _ _ _ _ P2 Hi). lia. }
  hb_run E2. rewrite (index_handle i Hir). destruct (hi_hash _ _ _ _ _ _ _ I2) as (t & Ht & Hrep).
  destruct (enter_key_ok s2 m (InitKey data type parent) (i + 1) t _ Ht Hrep eq_refl Hk Hsz) as (b & t' & al & E3 & Hrep').
  set (s3 := set_psHashTab (Some t') (set_allocs al s2)) in *. hb_run E3.
  assert (pool [] s3 fl1 bl (ui32FirstBatchIndexPlusOne s3)) as P3 by (by apply pool_set_hash, pool_set_allocs).
  destruct b; cbn [negb].
  - right. destruct (new_handle_ok s3 K fl1 bl i data type flag t' _ P3 (hi_forest _ _ _ _ _ _ _ I2)
      (hinv_idle _ _ _ _ _ _ _ I2) eq_refl Hrep' Hi Hhd Hz2 Hty) as (s4 & fl' & E4 & A).
    exists i, s4, fl'. split.
    + destruct (take_handle i (Some i) s3) as [[[] s3']|f] eqn:Et; unfold mbind at 1, HB_bind in E4; rewrite Et in E4; [|done].
      hb_run Et. by hb_run E4.
    + eapply (allocated_from s s3); [apply (sh_ent _ _ S)|transitivity s2; [by apply same_handles_mode|done]|].
      assert (HANDLES_BATCHED s3 = HANDLES_BATCHED s) as <- by (unfold HANDLES_BATCHED; by rewrite <- (sh_size _ _ S)). done.
  - left. eexists _, s3. split; [done|]. split; [by right|]. constructor.
    + exists fl1. destruct I2 as [J1 J2 J3 J4 J5 J6]. constructor; try done. by exists t'.
    + apply (sh_ent _ _ S).
    + transitivity s2; [by apply same_handles_mode|done].
    + done.
Qed.

End Alloc.
