(* ===== verification/PvrHandleSpec.v ===== *)
(** * What a handle base promises its clients

    The abstract state of a handle base: which handles there are, with their type,
    data, flags and parent; the handles of the batch that is open; the limits.
    [spec] says what each operation of handle.c may answer and do in these terms:
    no free list, no blocks, no hash table, no sibling lists.  [models] relates a
    base to its abstract state. *)

From stdpp Require Import base list numbers option gmap relations.
From Stdlib Require Import ZArith Lia.
From S2P Require Import Prelude PvrHash PvrHashFacts PvrHandleMap PvrHandle PvrHandleArray.
From S2P Require Import PvrHandleForest PvrHandlePool PvrHandlePick.
From S2P Require Import PvrHandleFree PvrHandleAlloc.

Local Open Scope Z_scope.

(** ** Abstract states *)

Record abs := mk_abs {
  a_handles : Z -> option entry;
  a_batch : option (list Z);
  a_failures : Z;
  a_purging : bool;
  a_max : Z;
  a_total : Z }.

(** [y] is the parent of handle [x]; the parent of a root is 0. *)
Definition child_of (A : Z -> option entry) (x y : Z) : Prop := exists e, A x = Some e /\ e_parent e = y.

(** The handle is one of [S] or below one of them. *)
Definition below (A : Z -> option entry) (S : list Z) (x : Z) : Prop := exists h, h ∈ S /\ rtc (child_of A) x h.

(** The second table is the first without what is below [S]. *)
Definition removed (A : Z -> option entry) (S : list Z) (A' : Z -> option entry) : Prop := forall x,
  (A' x = None /\ (below A S x \/ A x = None)) \/ (A' x = A x /\ ~ below A S x).

(** Removing twice is removing both. *)
Lemma removed_trans A S A1 T A2 : removed A S A1 -> removed A1 T A2 -> removed A (S ++ T) A2.
Proof.
  intros H1 H2 x.
  assert (forall y z, rtc (child_of A) y z -> ~ below A S y -> rtc (child_of A1) y z) as Hkeep.
  { intros y z Hr. induction Hr as [|y y' z Hy Hr IH]; intros Hn; [done|]. destruct Hy as (e & He & Ep).
    assert (~ below A S y') as Hn'.
    { intros (h & Hh & Hyh). apply Hn. exists h. split; [done|]. econstructor; [|exact Hyh]. by exists e. }
    econstructor; [|by apply IH]. exists e. split; [|done].
    destruct (H1 y) as [[_ [?|?]]|[-> _]]; [done|congruence|done]. }
  assert (forall y z, rtc (child_of A1) y z -> rtc (child_of A) y z) as Hback.
  { intros y z Hr. induction Hr as [|y y' z (e & He & Ep) _ IH]; [done|]. econstructor; [|exact IH]. exists e.
    destruct (H1 y) as [[? _]|[<- _]]; [congruence|done]. }
  assert (below A1 T x -> below A T x) as HT by (intros (h & ? & ?); exists h; auto).
  assert (forall U, U = S \/ U = T -> below A U x -> below A (S ++ T) x) as Happ.
  { intros U HU (h & Hh & Hr). exists h. split; [|done]. destruct HU as [->| ->]; set_solver. }
  destruct (H2 x) as [[E2 HB2]|[E2 HB2]].
  - left. split; [done|]. destruct HB2 as [HB2|E1]; [left; eauto|].
    destruct (H1 x) as [[_ [HB1|?]]|[? _]]; [left; eauto|by right|right; congruence].
  - destruct (H1 x) as [[E1 HB1]|[E1 HB1]].
    + left. split; [congruence|]. destruct HB1 as [HB1|?]; [left; eauto|by right].
    + right. split; [congruence|]. intros (h & Hh & Hr). apply elem_of_app in Hh as [Hh|Hh]; [by apply HB1; exists h|].
      apply HB2. exists h. auto.
Qed.

Lemma removed_ext A S A' B B' :
  removed A S A' -> (forall x, B x = A x) -> (forall x, B' x = A' x) -> removed B S B'.
Proof.
  intros Hr HB HB' x. assert (forall y z, child_of B y z <-> child_of A y z) as Hc.
  { intros y z. unfold child_of. by rewrite HB. }
  assert (forall R R' : relation Z, (forall y z, R y z -> R' y z) -> forall y z, rtc R y z -> rtc R' y z) as Hrtc.
  { intros R R' HR y z Hyz. induction Hyz; econstructor; eauto. }
  assert (below B S x <-> below A S x) as ->.
  { split; intros (h & ? & ?); exists h; (split; [done|]); (eapply Hrtc; [|done]); intros; by apply Hc. }
  rewrite HB, HB'. apply Hr.
Qed.

(** The error of an access to handle [h] as one of the given type. *)
Definition check (a : abs) (h : Z) (type : PVRSRV_HANDLE_TYPE) : Z :=
  if (1 <=? h) && (h <=? a_total a) then
    match a_handles a h with
    | None => PVRSRV_ERROR_HANDLE_NOT_ALLOCATED
    | Some x =>
        if negb (is_none type) && negb (bool_decide (type = e_type x))
        then PVRSRV_ERROR_HANDLE_TYPE_MISMATCH else PVRSRV_OK
    end
  else PVRSRV_ERROR_HANDLE_INDEX_OUT_OF_RANGE.

(** The handle that is found under a key. *)
Definition finds (a : abs) (k : list Z) (h : Z) : Prop :=
  exists x, a_handles a h = Some x /\ multi x = false /\ key_of x = k.

(** The state after an operation: the handles, the batch, the failures. *)
Record becomes (a a' : abs) (A' : Z -> option entry) (b' : option (list Z)) (f' : Z) : Prop := mk_becomes {
  bc_handles h : a_handles a' h = A' h;
  bc_batch : a_batch a' = b';
  bc_failures : a_failures a' = f';
  bc_purging : a_purging a' = a_purging a;
  bc_max : a_max a' = a_max a;
  bc_total : a_total a <= a_total a' <= a_max a }.

(** An allocation that fails in a batch is counted. *)
Definition failed (a a' : abs) : Prop :=
  becomes a a' (a_handles a) (a_batch a) (match a_batch a with Some _ => add32 (a_failures a) 1 | None => a_failures a end).

(** The answers of an allocation with the key of parent [pkey], under [parent]
    when it makes a subhandle. *)
Inductive alloc_spec (data : Z) (type : PVRSRV_HANDLE_TYPE) (flag pkey : Z) (parent : option Z) (a : abs)
    : Z -> Z -> abs -> Prop :=
| as_shared h x :
    TEST_FLAG flag PVRSRV_HANDLE_ALLOC_FLAG_MULTI = false -> finds a (InitKey data type pkey) h ->
    a_handles a h = Some x -> TEST_FLAG (Z.land (e_flag x) flag) PVRSRV_HANDLE_ALLOC_FLAG_SHARED = true ->
    (forall p, parent = Some p -> e_parent x = p) ->
    alloc_spec data type flag pkey parent a PVRSRV_OK h a
| as_exists h x a' :
    TEST_FLAG flag PVRSRV_HANDLE_ALLOC_FLAG_MULTI = false -> finds a (InitKey data type pkey) h ->
    a_handles a h = Some x ->
    TEST_FLAG (Z.land (e_flag x) flag) PVRSRV_HANDLE_ALLOC_FLAG_SHARED = false \/
      (exists p, parent = Some p /\ e_parent x <> p) ->
    failed a a' -> alloc_spec data type flag pkey parent a PVRSRV_ERROR_HANDLE_NOT_SHAREABLE 0 a'
| as_no_memory e a' :
    (TEST_FLAG flag PVRSRV_HANDLE_ALLOC_FLAG_MULTI = false -> forall h, ~ finds a (InitKey data type pkey) h) ->
    e = PVRSRV_ERROR_OUT_OF_MEMORY \/ e = PVRSRV_ERROR_UNABLE_TO_ADD_HANDLE ->
    failed a a' -> alloc_spec data type flag pkey parent a e 0 a'
| as_new h a' :
    (TEST_FLAG flag PVRSRV_HANDLE_ALLOC_FLAG_MULTI = false -> forall h, ~ finds a (InitKey data type pkey) h) ->
    a_handles a h = None -> 1 <= h <= a_total a' ->
    becomes a a' (with_entry h (mk_entry type data flag (default 0 parent)) (a_handles a))
      ((fun l => h :: l) <$> a_batch a) (a_failures a) ->
    alloc_spec data type flag pkey parent a PVRSRV_OK h a'.

(** ** Operations *)

Inductive op :=
| OpAlloc (data : Z) (type : PVRSRV_HANDLE_TYPE) (flag : Z)
| OpAllocSub (data : Z) (type : PVRSRV_HANDLE_TYPE) (flag parent : Z)
| OpFind (data : Z) (type : PVRSRV_HANDLE_TYPE)
| OpLookupAny (h : Z)
| OpLookup (h : Z) (type : PVRSRV_HANDLE_TYPE)
| OpLookupSub (h : Z) (type : PVRSRV_HANDLE_TYPE) (ancestor : Z)
| OpGetParent (h : Z) (type : PVRSRV_HANDLE_TYPE)
| OpLookupAndRelease (h : Z) (type : PVRSRV_HANDLE_TYPE)
| OpRelease (h : Z) (type : PVRSRV_HANDLE_TYPE)
| OpNewBatch (n : Z)
| OpCommitBatch
| OpReleaseBatch
| OpSetMax (n : Z)
| OpEnablePurging
| OpPurge.

(** What a call hands back besides its error. *)
Inductive value :=
| VNone
| VHandle (h : Z)
| VData (d : Z)
| VTyped (d : Z) (type : PVRSRV_HANDLE_TYPE).

(** The end of a batch: its handles stay, or what is below them goes. *)
Definition ends_batch (commit : bool) (a a' : abs) (l : list Z) : Prop :=
  exists A', becomes a a' A' None 0 /\
    if commit && (a_failures a =? 0) then (forall h, A' h = a_handles a h) else removed (a_handles a) l A'.

Definition spec `{BlockShift} (o : op) (a : abs) (e : Z) (v : value) (a' : abs) : Prop :=
  match o with
  | OpAlloc data type flag =>
      exists h, v = VHandle h /\ alloc_spec data type flag 0 None a e h a'
  | OpAllocSub data type flag parent =>
      exists h, v = VHandle h /\
        let c := check a parent PVRSRV_HANDLE_TYPE_NONE in
        if c =? PVRSRV_OK then
          alloc_spec data type flag (if TEST_FLAG flag PVRSRV_HANDLE_ALLOC_FLAG_PRIVATE then parent else 0)
            (Some parent) a e h a'
        else e = c /\ h = 0 /\ failed a a'
  | OpFind data type =>
      a' = a /\
      ((exists h, e = PVRSRV_OK /\ v = VHandle h /\ finds a (InitKey data type 0) h) \/
       (e = PVRSRV_ERROR_HANDLE_NOT_FOUND /\ v = VNone /\ forall h, ~ finds a (InitKey data type 0) h))
  | OpLookupAny h =>
      a' = a /\ e = check a h PVRSRV_HANDLE_TYPE_NONE /\
      v = match a_handles a h with Some x => VTyped (e_data x) (e_type x) | None => VNone end
  | OpLookup h type =>
      a' = a /\ e = check a h type /\
      v = match a_handles a h with
          | Some x => if e =? PVRSRV_OK then VData (e_data x) else VNone | None => VNone end
  | OpLookupSub h type ancestor =>
      a' = a /\
      if check a h type =? PVRSRV_OK then
        (tc (child_of (a_handles a)) h ancestor /\ e = PVRSRV_OK /\
         exists x, a_handles a h = Some x /\ v = VData (e_data x)) \/
        (~ tc (child_of (a_handles a)) h ancestor /\ e = PVRSRV_ERROR_INVALID_SUBHANDLE /\ v = VNone)
      else e = check a h type /\ v = VNone
  | OpGetParent h type =>
      a' = a /\ e = check a h type /\
      v = match a_handles a h with
          | Some x => if e =? PVRSRV_OK then VHandle (e_parent x) else VNone | None => VNone end
  | OpLookupAndRelease h type =>
      e = check a h type /\
      if e =? PVRSRV_OK then
        exists A' x, a_handles a h = Some x /\ v = VData (e_data x) /\ removed (a_handles a) [h] A' /\
          becomes a a' A' (a_batch a) (a_failures a) /\ a_total a' = a_total a
      else v = VNone /\ a' = a
  | OpRelease h type =>
      v = VNone /\ e = check a h type /\
      if e =? PVRSRV_OK then
        exists A', removed (a_handles a) [h] A' /\ becomes a a' A' (a_batch a) (a_failures a) /\
          a_total a' = a_total a
      else a' = a
  | OpNewBatch n =>
      v = VNone /\
      match a_batch a with
      | Some _ => e = PVRSRV_ERROR_HANDLE_BATCH_IN_USE /\ a' = a
      | None =>
          if n =? 0 then e = PVRSRV_ERROR_INVALID_PARAMS /\ a' = a else
          (e = PVRSRV_ERROR_OUT_OF_MEMORY /\ becomes a a' (a_handles a) None (a_failures a)) \/
          (e = PVRSRV_OK /\ becomes a a' (a_handles a) (Some []) (a_failures a))
      end
  | OpCommitBatch =>
      v = VNone /\
      match a_batch a with
      | Some l => e = PVRSRV_OK /\ ends_batch true a a' l
      | None => e = PVRSRV_ERROR_INVALID_PARAMS /\ a' = a
      end
  | OpReleaseBatch =>
      v = VNone /\ e = PVRSRV_OK /\
      match a_batch a with Some l => ends_batch false a a' l | None => a' = a end
  | OpSetMax n =>
      v = VNone /\
      if negb (bool_decide (a_batch a = None)) || (n =? 0) || (DEFAULT_MAX_HANDLE <? n) || negb (a_total a =? 0)
      then e = PVRSRV_ERROR_INVALID_PARAMS /\ a' = a
      else e = PVRSRV_OK /\
        a' = mk_abs (a_handles a) (a_batch a) (a_failures a) (a_purging a)
               (if n <? HANDLE_BLOCK_SIZE then a_max a
                else Z.min (a_max a) (HANDLE_BLOCK_SIZE * (n / HANDLE_BLOCK_SIZE))) (a_total a)
  | OpEnablePurging =>
      v = VNone /\
      if a_purging a then e = PVRSRV_OK /\ a' = a
      else if a_total a =? 0 then
        e = PVRSRV_OK /\ a' = mk_abs (a_handles a) (a_batch a) (a_failures a) true (a_max a) (a_total a)
      else e = PVRSRV_ERROR_INVALID_PARAMS /\ a' = a
  | OpPurge =>
      v = VNone /\
      if negb (a_purging a) then e = PVRSRV_ERROR_NOT_SUPPORTED /\ a' = a
      else if negb (bool_decide (a_batch a = None)) then e = PVRSRV_ERROR_INVALID_PARAMS /\ a' = a
      else (e = PVRSRV_ERROR_OUT_OF_MEMORY /\ a' = a) \/
        (e = PVRSRV_OK /\ exists n, 0 <= n <= a_total a /\
          a' = mk_abs (a_handles a) (a_batch a) (a_failures a) (a_purging a) (a_max a) n)
  end.

(** ** Concrete operations *)

Section Models.
Context {H : Type} {HM : HandleMap H} {BSH : BlockShift}.

Implicit Types s : PVRSRV_HANDLE_BASE H.

(** Run a call and say how its result is read. *)
Definition answer {A} (m : HB (H := H) A) (f : A -> Z * value) : HB (Z * value) := r ← m; mret (f r).

Definition handle_answer (r : Z * option Z) : Z * value := (r.1, match r.2 with Some h => VHandle h | None => VNone end).
Definition data_answer (r : Z * option Z) : Z * value := (r.1, match r.2 with Some d => VData d | None => VNone end).
Definition typed_answer (r : Z * option (Z * PVRSRV_HANDLE_TYPE)) : Z * value :=
  (r.1, match r.2 with Some (d, t) => VTyped d t | None => VNone end).
Definition error_answer (e : Z) : Z * value := (e, VNone).

Definition exec (o : op) : HB (Z * value) :=
  match o with
  | OpAlloc data type flag => answer (PVRSRVAllocHandle data type flag) (fun r => (r.1, VHandle r.2))
  | OpAllocSub data type flag parent =>
      answer (PVRSRVAllocSubHandle data type flag parent) (fun r => (r.1, VHandle r.2))
  | OpFind data type => answer (PVRSRVFindHandle data type) handle_answer
  | OpLookupAny h => answer (PVRSRVLookupHandleAnyType h) typed_answer
  | OpLookup h type => answer (PVRSRVLookupHandle h type) data_answer
  | OpLookupSub h type ancestor => answer (PVRSRVLookupSubHandle h type ancestor) data_answer
  | OpGetParent h type => answer (PVRSRVGetParentHandle h type) handle_answer
  | OpLookupAndRelease h type => answer (PVRSRVLookupAndReleaseHandle h type) data_answer
  | OpRelease h type => answer (PVRSRVReleaseHandle h type) error_answer
  | OpNewBatch n => answer (PVRSRVNewHandleBatch n) error_answer
  | OpCommitBatch => answer PVRSRVCommitHandleBatch error_answer
  | OpReleaseBatch => answer PVRSRVReleaseHandleBatch (fun _ => (PVRSRV_OK, VNone))
  | OpSetMax n => answer (PVRSRVSetMaxHandle n) error_answer
  | OpEnablePurging => answer PVRSRVEnableHandlePurging error_answer
  | OpPurge => answer PVRSRVPurgeHandles error_answer
  end.

(** A 32-bit argument. *)
Definition word (x : Z) : Prop := 0 <= x < 2 ^ 32.

(** The calls that keep the books: a type is given, the hash table has room for
    one more key, and a batch is opened neither in a base with purging nor when
    it would have to grow a free list that starts at position 0. *)
Definition admissible (o : op) s : Prop :=
  match o with
  | OpAlloc _ type _ => type <> PVRSRV_HANDLE_TYPE_NONE /\ ui32TotalHandCount s + 1 < COUNT_LIMIT
  | OpAllocSub _ type _ parent =>
      type <> PVRSRV_HANDLE_TYPE_NONE /\ ui32TotalHandCount s + 1 < COUNT_LIMIT /\ word parent
  | OpLookupAny h | OpLookup h _ | OpLookupSub h _ _ | OpGetParent h _ | OpLookupAndRelease h _ | OpRelease h _ =>
      word h
  | OpNewBatch n =>
      word n /\ bPurgingEnabled s = false /\
      (n <= ui32FreeHandCount s \/ ui32FreeHandCount s = 0 \/ ui32FirstFreeIndex s <> 0)
  | OpSetMax n => word n
  | OpEnablePurging => HANDLES_BATCHED s = false
  | OpFind _ _ | OpCommitBatch | OpReleaseBatch | OpPurge => True
  end.

(** The base is in order and has this abstract state; the lists and maps are
    those of the invariant. *)
Record models_by (K : Z -> list Z) (fl bl : list Z) (m : gmap (list Z) Z) s (a : abs) : Prop := mk_models {
  mo_inv : hinv [] s K fl bl (ui32FirstBatchIndexPlusOne s) m;
  mo_purge : purge0 s;
  mo_handles h : a_handles a h = ent s (h - 1);
  mo_batch : a_batch a = if HANDLES_BATCHED s then Some ((fun i => i + 1) <$> bl) else None;
  mo_failures : a_failures a = ui32BatchHandAllocFailures s;
  mo_word : word (ui32BatchHandAllocFailures s);
  mo_purging : a_purging a = bPurgingEnabled s;
  mo_max : a_max a = ui32MaxIndexPlusOne s;
  mo_total : a_total a = ui32TotalHandCount s }.

Definition models s (a : abs) : Prop := exists K fl bl m, models_by K fl bl m s a.

(** The abstract state of a base whose batch is [bl]. *)
Definition view (bl : list Z) s : abs :=
  mk_abs (fun h => ent s (h - 1)) (if HANDLES_BATCHED s then Some ((fun i => i + 1) <$> bl) else None)
    (ui32BatchHandAllocFailures s) (bPurgingEnabled s) (ui32MaxIndexPlusOne s) (ui32TotalHandCount s).

Lemma models_view K fl bl m s :
  hinv [] s K fl bl (ui32FirstBatchIndexPlusOne s) m -> purge0 s -> word (ui32BatchHandAllocFailures s) ->
  models s (view bl s).
Proof. intros I Hz Hw. by exists K, fl, bl, m. Qed.

End Models.
