(* ===== verification/PvrHandleClient.v ===== *)
(** * The calls on single handles

    Lookup and release, then allocation. *)

From stdpp Require Import base list numbers option gmap relations.
From Stdlib Require Import ZArith Lia.
From S2P Require Import Prelude PvrHash PvrHashFacts PvrHandleMap PvrHandle PvrHandleArray PvrHandleForest PvrHandlePool PvrHandlePick PvrHandleFree PvrHandleAlloc PvrHandleSpec.

Local Open Scope Z_scope.

(** * Lookup, release and allocation for clients

    The operations on single handles do what [spec] says, in every base that
    models an abstract state. *)

Lemma type_code_inj t t' : type_code t = type_code t' -> t = t'.
Proof. by destruct t, t'. Qed.

Section Client.
Context {H : Type} {HM : HandleMap H} {BSH : BlockShift}.

Implicit Types s : PVRSRV_HANDLE_BASE H.

(** ** Handles below a handle *)

Section Below.
Context {D : list Z} {K : Z -> list Z} {fl bl : list Z} {first : Z} {m : gmap (list Z) Z} {s : PVRSRV_HANDLE_BASE H}.
Context (I : hinv D s K fl bl first m) (A : Z -> option entry) (HA : forall h, A h = ent s (h - 1)).

Lemma child_kid x y : is_Some (tn s y) -> child_of A x (y + 1) <-> x - 1 ∈ K y.
Proof.
  intros Hy. pose proof (hi_forest _ _ _ _ _ _ _ I) as F.
  pose proof (fo_range _ _ F y Hy) as Hr. unfold child_of. rewrite HA. split.
  - intros (e & He & Hp). destruct (live_tn _ _ _ He) as (l & Hl & El).
    destruct (forest_parent_field F _ l Hl) as [(E & _)|(q & Hq & Hin & E)]; [lia|].
    assert (q = y) as -> by lia. done.
  - intros Hin. destruct (child_live _ _ _ _ _ _ _ _ _ I Hy Hin) as (e & He & Hp). eauto.
Qed.

(** They are its subtree. *)
Lemma below_subtree p l x : is_Some (tn s p) -> post K p l -> below A [p + 1] x <-> x - 1 ∈ l.
Proof.
  intros Hp Hl. pose proof (hi_forest _ _ _ _ _ _ _ I) as F. split.
  - intros (h & ->%list_elem_of_singleton & Hr). remember (p + 1) as q eqn:Eq.
    induction Hr as [q|x y q Hxy _ IH]; [subst; replace (p + 1 - 1) with p by lia; by eapply post_self|].
    specialize (IH Eq). eapply post_closed; [exact Hl|exact IH|]. apply child_kid.
    + by eapply (forest_post_live F p l).
    + by replace (y - 1 + 1) with y by lia.
  - intros Hx. exists (p + 1). split; [set_solver|]. replace x with (x - 1 + 1) by lia.
    pose proof (post_up _ _ _ _ Hl Hx) as Hr. revert Hr. generalize (x - 1). clear x Hx. intros i Hr.
    induction Hr as [|i y q Hxy Hyq IH]; [done|]. econstructor; [|apply IH; done]. apply child_kid.
    + eapply (forest_post_live F q l); [done|done|by eapply post_down].
    + by replace (i + 1 - 1) with i by lia.
Qed.

Lemma freed_removed s' fl' p l :
  is_Some (tn s p) -> post K p l -> freed s s' fl fl' l -> removed A [p + 1] (fun h => ent s' (h - 1)).
Proof.
  intros Hp Hl Hf x. rewrite (fd_ent _ _ _ _ _ Hf (x - 1)), (below_subtree p l x Hp Hl), <- HA.
  case_decide; [left; auto|right; done].
Qed.

End Below.

(** ** Access *)

Section Access.
Context {K : Z -> list Z} {fl bl : list Z} {m : gmap (list Z) Z} {s : PVRSRV_HANDLE_BASE H} {a : abs}.
Context (M : models_by K fl bl m s a).

Lemma models_array : array_ok s.
Proof. apply (po_array _ _ _ _ _ (hi_pool _ _ _ _ _ _ _ (mo_inv _ _ _ _ _ _ M))). Qed.

Lemma models_total : 0 <= a_total a <= a_max a /\ a_max a < 2 ^ 31.
Proof.
  pose proof models_array as Ha. pose proof (array_total_range _ Ha). pose proof (ao_max _ Ha).
  pose proof (ao_max_range _ Ha). unfold DEFAULT_MAX_HANDLE in *. rewrite (mo_total _ _ _ _ _ _ M), (mo_max _ _ _ _ _ _ M). lia.
Qed.

(** A handle is a position of the array. *)
Lemma handle_range h x : a_handles a h = Some x -> 1 <= h <= a_total a.
Proof.
  rewrite (mo_handles _ _ _ _ _ _ M), (mo_total _ _ _ _ _ _ M). intros (hh & Hh & _)%ent_Some.
  assert (is_Some (hnd s (h - 1))) as Hs by eauto. apply (hnd_in_range _ _ models_array) in Hs. lia.
Qed.

Lemma GetHandleStructure_ok h type :
  word h ->
  GetHandleStructure h type s = Ok (check a h type, if check a h type =? PVRSRV_OK then h - 1 else 0, s).
Proof.
  intros Hw. pose proof models_total as Ht. unfold GetHandleStructure. rewrite hb_base_bind.
  unfold INDEX_IS_VALID, check. rewrite <- (mo_total _ _ _ _ _ _ M).
  destruct (Z.leb_spec 1 h) as [H1|H1]; cbn [andb].
  2: { assert (h = 0) as -> by (unfold word in Hw; lia). change (HANDLE_TO_INDEX 0) with (2 ^ 32 - 1).
       rewrite (proj2 (Z.ltb_ge _ _)) by lia. done. }
  assert (HANDLE_TO_INDEX h = h - 1) as -> by (unfold word in Hw; apply wrapU_small; lia).
  destruct (Z.leb_spec h (a_total a)) as [H2|H2].
  2: { rewrite (proj2 (Z.ltb_ge _ _)) by lia. done. }
  rewrite (proj2 (Z.ltb_lt _ _)) by lia. cbn [negb].
  destruct (proj2 (hnd_in_range s (h - 1) models_array)) as [hh Hh]; [rewrite <- (mo_total _ _ _ _ _ _ M); lia|].
  hb_run (hload_ok eType s _ hh Hh). rewrite (mo_handles _ _ _ _ _ _ M). unfold ent. rewrite Hh. cbn [mbind option_bind].
  destruct (is_none (eType hh)); [done|]. cbn [e_type].
  by destruct (negb (is_none type) && negb (bool_decide (type = eType hh))).
Qed.

Lemma check_live h type :
  check a h type = PVRSRV_OK ->
  exists x, a_handles a h = Some x /\ ent s (h - 1) = Some x /\ (type = PVRSRV_HANDLE_TYPE_NONE \/ type = e_type x).
Proof.
  unfold check. destruct (_ && _); [|done]. destruct (a_handles a h) as [x|] eqn:E; [|done].
  destruct (negb (is_none type) && _) eqn:Et; [done|]. intros _. exists x.
  rewrite <- (mo_handles _ _ _ _ _ _ M), E. split; [done|]. split; [done|].
  unfold is_none in Et. destruct (bool_decide_reflect (type = PVRSRV_HANDLE_TYPE_NONE)); [by left|right].
  destruct (bool_decide_reflect (type = e_type x)); [done|]. done.
Qed.

Lemma live_check h x type :
  a_handles a h = Some x -> type = PVRSRV_HANDLE_TYPE_NONE \/ type = e_type x -> check a h type = PVRSRV_OK.
Proof.
  intros Hx Ht. pose proof (handle_range h x Hx). unfold check.
  rewrite (proj2 (Z.leb_le 1 h)), (proj2 (Z.leb_le h (a_total a))) by lia. cbn [andb]. rewrite Hx.
  unfold is_none. destruct Ht as [->| ->]; [by rewrite bool_decide_true|].
  rewrite (bool_decide_true (e_type x = e_type x)) by done. by rewrite andb_false_r.
Qed.

(** ** Search by key *)

Lemma finds_key k h : m !! k = Some h <-> finds a k h.
Proof.
  pose proof (hi_keyed _ _ _ _ _ _ _ (mo_inv _ _ _ _ _ _ M)) as [K1 K2]. unfold finds. split.
  - intros Hk. destruct (K2 k h Hk) as (i & x & -> & Hx & Hm & _ & <-). exists x.
    rewrite (mo_handles _ _ _ _ _ _ M). replace (i + 1 - 1) with i by lia. done.
  - intros (x & Hx & Hm & <-). rewrite (mo_handles _ _ _ _ _ _ M) in Hx.
    rewrite (K1 (h - 1) x Hx Hm) by set_solver. f_equal. lia.
Qed.

Lemma FindHandle_ok data type p :
  exists h, FindHandle data type p s = Ok (h, s) /\
    ((m !! InitKey data type p = Some h /\ finds a (InitKey data type p) h /\ 1 <= h) \/
     (m !! InitKey data type p = None /\ h = 0 /\ forall h', ~ finds a (InitKey data type p) h')).
Proof.
  pose proof (mo_inv _ _ _ _ _ _ M) as I. destruct (hi_hash _ _ _ _ _ _ _ I) as (t & Ht & Hrep).
  exists (default 0 (m !! InitKey data type p)). split.
  - unfold FindHandle, HASH_Retrieve_Key, hash_tab, mbind, HB_bind, base. rewrite Ht. cbn [mret HB_ret]. unfold hb_lift.
    by rewrite (hm_retrieve_ok t m (InitKey data type p) Hrep eq_refl (hi_size _ _ _ _ _ _ _ I)).
  - destruct (m !! InitKey data type p) as [h|] eqn:E; cbn.
    + left. apply finds_key in E as Hf. split; [done|]. split; [done|]. destruct Hf as (x & Hx & _).
      apply handle_range in Hx. lia.
    + right. split; [done|]. split; [done|]. intros h' Hf%finds_key. congruence.
Qed.

(** ** Release *)

Lemma Free_Handle_spec h x :
  a_handles a h = Some x ->
  exists s' fl' A', Free_Handle (h - 1) s = Ok (PVRSRV_OK, s') /\ removed (a_handles a) [h] A' /\
    (exists K' m', models_by K' fl' bl m' s' (view bl s')) /\ becomes a (view bl s') A' (a_batch a) (a_failures a) /\
    a_total (view bl s') = a_total a.
Proof.
  intros Hx. pose proof (mo_inv _ _ _ _ _ _ M) as I. pose proof (hi_forest _ _ _ _ _ _ _ I) as F.
  rewrite (mo_handles _ _ _ _ _ _ M) in Hx. destruct (live_tn _ _ _ Hx) as (lp & Hlp & _).
  destruct (fo_post _ _ F (h - 1)) as [l Hl]; [by eauto|].
  destruct (Free_Handle_ok _ _ _ _ _ _ _ _ _ I Hx Hl (mo_purge _ _ _ _ _ _ M)) as (s' & fl' & m' & E & I' & Fr & _).
  exists s', fl', (fun x => ent s' (x - 1)). split; [done|]. split; [|split; [|split]].
  - replace h with (h - 1 + 1) at 1 by lia. eapply (freed_removed I _ (mo_handles _ _ _ _ _ _ M)); [by eauto|exact Hl|exact Fr].
  - exists (prune l K), m'. constructor; try done.
    + by rewrite (fd_batch _ _ _ _ _ Fr).
    + by apply (fd_purge0 _ _ _ _ _ Fr), (mo_purge _ _ _ _ _ _ M).
    + rewrite (fd_failures _ _ _ _ _ Fr). apply M.
  - constructor; cbn.
    + done.
    + unfold HANDLES_BATCHED. rewrite (fd_size _ _ _ _ _ Fr), (mo_batch _ _ _ _ _ _ M). done.
    + rewrite (fd_failures _ _ _ _ _ Fr). symmetry. apply M.
    + rewrite (fd_purging _ _ _ _ _ Fr). symmetry. apply M.
    + rewrite (fd_max _ _ _ _ _ Fr). symmetry. apply M.
    + pose proof models_total. rewrite (fd_total _ _ _ _ _ Fr), <- (mo_total _ _ _ _ _ _ M). lia.
  - cbn. rewrite (fd_total _ _ _ _ _ Fr). symmetry. apply M.
Qed.

(** ** The walk up the parents *)

Lemma parent_of i x :
  ent s i = Some x ->
  e_parent x = 0 \/ exists q y, e_parent x = q + 1 /\ ent s q = Some y /\ i ∈ K q /\ 0 <= q < 2 ^ 31.
Proof.
  intros Hx. pose proof (mo_inv _ _ _ _ _ _ M) as I. pose proof (hi_forest _ _ _ _ _ _ _ I) as F.
  destruct (live_tn _ _ _ Hx) as (l & Hl & <-).
  destruct (forest_parent_field F i l Hl) as [(E & _)|(q & [lq Hq] & Hin & E)]; [by left|right].
  destruct (ent s q) as [y|] eqn:Ey.
  - exists q, y. split; [done|]. split; [done|]. split; [done|]. apply (fo_range _ _ F). eauto.
  - destruct (hinv_idle _ _ _ _ _ _ _ I q lq Hq Ey) as [EK _]. rewrite EK in Hin. set_solver.
Qed.

Lemma no_handle_0 : a_handles a 0 = None.
Proof. destruct (a_handles a 0) as [x|] eqn:E; [|done]. apply handle_range in E. lia. Qed.

Lemma subtree_size i x l : ent s i = Some x -> post K i l -> (length l <= Z.to_nat (ui32TotalHandCount s))%nat.
Proof.
  intros Hx Hl. pose proof (mo_inv _ _ _ _ _ _ M) as I. pose proof (hi_forest _ _ _ _ _ _ _ I) as F.
  destruct (live_tn _ _ _ Hx) as (lp & Hlp & _).
  eapply used_length; [exact I|eapply (post_nodup F i); eauto|].
  intros j Hj. eapply (forest_post_live F i l); eauto.
Qed.

Lemma tc_parent h x z :
  a_handles a h = Some x ->
  tc (child_of (a_handles a)) h z <-> e_parent x = z \/ tc (child_of (a_handles a)) (e_parent x) z.
Proof.
  intros Hx. split.
  - intros Hz. inversion Hz as [? ? (e & He & <-)|? y ? (e & He & <-) Hy]; subst; assert (e = x) as -> by congruence; auto.
  - intros [<-|Hz]; [apply tc_once|eapply tc_l; [|exact Hz]]; exists x; auto.
Qed.

(** The walk ends at the ancestor or above the root. *)
Lemma ancestor_loop_ok fuel : forall i x l z,
  ent s i = Some x -> post K i l -> (Z.to_nat (ui32TotalHandCount s) < fuel + length l)%nat ->
  exists r, ancestor_loop fuel i z s = Ok (r, s) /\
    ((tc (child_of (a_handles a)) (i + 1) z /\ r = PVRSRV_OK) \/
     (~ tc (child_of (a_handles a)) (i + 1) z /\ r = PVRSRV_ERROR_INVALID_SUBHANDLE)).
Proof.
  pose proof (mo_inv _ _ _ _ _ _ M) as I. pose proof (hi_forest _ _ _ _ _ _ _ I) as F.
  induction fuel as [|fuel IH]; intros i x l z Hx Hl Hf; [pose proof (subtree_size i x l Hx Hl); lia|].
  pose proof Hx as (h & Hh & Ht & Ex)%ent_Some. cbn [ancestor_loop].
  unfold ParentHandle. hb_run (hload_ok (fun h => hParent (sSiblings h)) s i h Hh).
  replace (hParent (sSiblings h)) with (e_parent x) by (by subst x).
  assert (a_handles a (i + 1) = Some x) as Ha.
  { rewrite (mo_handles _ _ _ _ _ _ M). by replace (i + 1 - 1) with i by lia. }
  setoid_rewrite (tc_parent _ _ z Ha). destruct (Z.eqb_spec (e_parent x) z) as [E|E]; [eexists; split; [done|]; auto|].
  destruct (parent_of i x Hx) as [Ep|(q & y & Ep & Hy & Hin & Hq)]; rewrite Ep in *.
  - hb_run (GetHandleStructure_ok 0 PVRSRV_HANDLE_TYPE_NONE ltac:(done)). eexists. split; [done|].
    right. split; [|done]. intros [?|Hz]; [done|].
    inversion Hz as [? ? (e & He & _)|? ? ? (e & He & _) _]; subst; rewrite no_handle_0 in He; done.
  - assert (a_handles a (q + 1) = Some y) as Hq1.
    { rewrite (mo_handles _ _ _ _ _ _ M). by replace (q + 1 - 1) with q by lia. }
    hb_run (GetHandleStructure_ok (q + 1) PVRSRV_HANDLE_TYPE_NONE ltac:(unfold word; lia)).
    rewrite (live_check _ _ _ Hq1) by auto. cbn [negb Z.eqb PVRSRV_OK]. replace (q + 1 - 1) with q by lia.
    destruct (live_tn _ _ _ Hy) as (lq & Hlq & _). destruct (fo_post _ _ F q) as [lp Hlp]; [by eauto|].
    destruct (post_child_shorter _ _ _ _ _ Hlp Hin Hl) as [Hlt _].
    destruct (IH q y lp z Hy Hlp ltac:(lia)) as (r & Er & Hr). exists r. split; [done|].
    destruct Hr as [[Hr ->]|[Hr ->]]; [left|right]; split; try done; [by right|]. by intros [?|?].
Qed.

End Access.

(** ** The operations without effects *)

(** An operation meets its specification. *)
Definition meets (o : op) : Prop := forall s a, models s a -> admissible o s ->
  exists e v s' a', exec (H := H) o s = Ok (e, v, s') /\ spec o a e v a' /\ models s' a'.

(** Run an operation that starts with an access. *)
Ltac run_access M h type Hw :=
  rewrite (hb_bind_ok _ _ _ _ _ (GetHandleStructure_ok M h type Hw)).

Lemma answer_run {A} (c : HB (H := H) A) f s r s' : c s = Ok (r, s') -> answer c f s = Ok ((f r).1, (f r).2, s').
Proof. intros E. unfold answer. hb_run E. by destruct (f r). Qed.

Lemma Find_ok data type : meets (OpFind data type).
Proof.
  intros s a Hm _. pose proof Hm as (K & fl & bl & m & M).
  destruct (FindHandle_ok M data type 0) as (h & E & [(_ & Hf & H1)|(_ & -> & Hf)]).
  - eexists _, _, s, a. split; [apply answer_run; unfold PVRSRVFindHandle; hb_run E; rewrite (proj2 (Z.eqb_neq h 0)) by lia; done|].
    split; [|done]. split; [done|]. left. by exists h.
  - eexists _, _, s, a. split; [apply answer_run; unfold PVRSRVFindHandle; by hb_run E|].
    split; [|done]. split; [done|]. by right.
Qed.

(** What an access finds: an error, or the structure of a handle. *)
Lemma access_cases K fl bl m s a h type :
  models_by K fl bl m s a -> word h ->
  (exists e, check a h type = e /\ e <> PVRSRV_OK /\ GetHandleStructure h type s = Ok (e, 0, s)) \/
  (exists x hh, check a h type = PVRSRV_OK /\ GetHandleStructure h type s = Ok (PVRSRV_OK, h - 1, s) /\
    a_handles a h = Some x /\ ent s (h - 1) = Some x /\ hnd s (h - 1) = Some hh /\
    x = mk_entry (eType hh) (pvData hh) (eFlag hh) (hParent (sSiblings hh)) /\
    (type = PVRSRV_HANDLE_TYPE_NONE \/ type = e_type x)).
Proof.
  intros M Hw. rewrite (GetHandleStructure_ok M h type Hw). destruct (Z.eqb_spec (check a h type) PVRSRV_OK) as [E|E].
  - right. destruct (check_live M h type E) as (x & Hx & He & Ht). pose proof He as (hh & Hh & _ & Ex)%ent_Some.
    exists x, hh. rewrite E. done.
  - left. by eexists.
Qed.

(** The branches of an operation in which the access fails and succeeds. *)
Ltac access_failed E Hne :=
  apply answer_run; hb_run E; rewrite (proj2 (Z.eqb_neq _ _) Hne); reflexivity.
Ltac access_found E := hb_run E; change (PVRSRV_OK =? PVRSRV_OK) with true; cbn [negb].

Lemma LookupAny_run K fl bl m s a h :
  models_by K fl bl m s a -> word h ->
  PVRSRVLookupHandleAnyType h s =
    Ok (check a h PVRSRV_HANDLE_TYPE_NONE, (fun x => (e_data x, e_type x)) <$> a_handles a h, s).
Proof.
  intros M Hw. unfold PVRSRVLookupHandleAnyType.
  destruct (access_cases _ _ _ _ _ _ h PVRSRV_HANDLE_TYPE_NONE M Hw) as [(e & Ec & Hne & E)|(x & hh & Ec & E & Hx & _ & Hh & Ex & _)].
  - hb_run E. rewrite (proj2 (Z.eqb_neq _ _) Hne), Ec. destruct (a_handles a h) as [x|] eqn:Hx; [|done].
    rewrite (live_check M h x PVRSRV_HANDLE_TYPE_NONE Hx) in Ec by auto. congruence.
  - access_found E. hb_run (hload_ok pvData s _ hh Hh). hb_run (hload_ok eType s _ hh Hh). by rewrite Ec, Hx, Ex.
Qed.

Lemma LookupAny_ok h : meets (OpLookupAny h).
Proof.
  intros s a Hm Hw. pose proof Hm as (K & fl & bl & m & M). eexists _, _, s, a.
  split; [apply answer_run, (LookupAny_run _ _ _ _ _ _ h M Hw)|]. cbn. split; [|done]. split; [done|]. split; [done|].
  by destruct (a_handles a h).
Qed.

Lemma Lookup_ok h type : meets (OpLookup h type).
Proof.
  intros s a Hm Hw. pose proof Hm as (K & fl & bl & m & M).
  destruct (access_cases _ _ _ _ _ _ h type M Hw) as [(e & Ec & Hne & E)|(x & hh & Ec & E & Hx & _ & Hh & Ex & _)].
  - eexists _, _, s, a. split; [unfold exec, PVRSRVLookupHandle; access_failed E Hne|]. cbn.
    split; [|done]. split; [done|]. rewrite Ec. split; [done|]. destruct (a_handles a h); [|done].
    by rewrite (proj2 (Z.eqb_neq _ _) Hne).
  - eexists _, _, s, a. split.
    + apply answer_run. unfold PVRSRVLookupHandle. access_found E. by hb_run (hload_ok pvData s _ hh Hh).
    + cbn. by rewrite Ec, Hx, Ex.
Qed.

Lemma GetParent_ok h type : meets (OpGetParent h type).
Proof.
  intros s a Hm Hw. pose proof Hm as (K & fl & bl & m & M).
  destruct (access_cases _ _ _ _ _ _ h type M Hw) as [(e & Ec & Hne & E)|(x & hh & Ec & E & Hx & _ & Hh & Ex & _)].
  - eexists _, _, s, a. split; [unfold exec, PVRSRVGetParentHandle; access_failed E Hne|]. cbn.
    split; [|done]. split; [done|]. rewrite Ec. split; [done|]. destruct (a_handles a h); [|done].
    by rewrite (proj2 (Z.eqb_neq _ _) Hne).
  - eexists _, _, s, a. split.
    + apply answer_run. unfold PVRSRVGetParentHandle, ParentHandle. access_found E.
      by hb_run (hload_ok (fun h => hParent (sSiblings h)) s _ hh Hh).
    + cbn. by rewrite Ec, Hx, Ex.
Qed.

Lemma LookupSub_run K fl bl m s a h type z :
  models_by K fl bl m s a -> word h ->
  exists e v, PVRSRVLookupSubHandle h type z s = Ok (e, v, s) /\
    spec (OpLookupSub h type z) a e (data_answer (e, v)).2 a.
Proof.
  intros M Hw. unfold PVRSRVLookupSubHandle.
  destruct (access_cases _ _ _ _ _ _ h type M Hw) as [(e & Ec & Hne & E)|(x & hh & Ec & E & Hx & He & Hh & Ex & _)].
  - exists e, None. hb_run E. rewrite (proj2 (Z.eqb_neq _ _) Hne). split; [done|]. cbn.
    rewrite Ec. by rewrite (proj2 (Z.eqb_neq _ _) Hne).
  - destruct (live_tn _ _ _ He) as (l & Hl & _).
    destruct (fo_post _ _ (hi_forest _ _ _ _ _ _ _ (mo_inv _ _ _ _ _ _ M)) (h - 1)) as [lp Hlp]; [by eauto|].
    destruct (ancestor_loop_ok M (handle_fuel s) (h - 1) x lp z He Hlp) as (r & Er & Hr).
    { unfold handle_fuel. lia. }
    replace (h - 1 + 1) with h in Hr by lia. access_found E. rewrite hb_base_bind. hb_run Er.
    destruct Hr as [[Hr ->]|[Hr ->]].
    + exists PVRSRV_OK, (Some (pvData hh)). change (PVRSRV_OK =? PVRSRV_OK) with true. cbn [negb].
      hb_run (hload_ok pvData s _ hh Hh). split; [done|]. cbn. rewrite Ec. split; [done|]. left. split; [done|].
      split; [done|]. exists x. by rewrite Hx, Ex.
    + exists PVRSRV_ERROR_INVALID_SUBHANDLE, None. split; [done|]. cbn. rewrite Ec. split; [done|]. by right.
Qed.

Lemma LookupSub_ok h type z : meets (OpLookupSub h type z).
Proof.
  intros s a Hm Hw. pose proof Hm as (K & fl & bl & m & M).
  destruct (LookupSub_run _ _ _ _ _ _ h type z M Hw) as (e & v & E & Hs). eexists _, _, s, a.
  split; [by apply answer_run|]. done.
Qed.

(** ** Release *)

Lemma Release_ok h type : meets (OpRelease h type).
Proof.
  intros s a Hm Hw. pose proof Hm as (K & fl & bl & m & M).
  destruct (access_cases _ _ _ _ _ _ h type M Hw) as [(e & Ec & Hne & E)|(x & hh & Ec & E & Hx & He & Hh & Ex & _)].
  - eexists _, _, s, a. split; [unfold exec, PVRSRVReleaseHandle; access_failed E Hne|]. cbn.
    by rewrite Ec, (proj2 (Z.eqb_neq _ _) Hne).
  - destruct (Free_Handle_spec M h x Hx) as (s' & fl' & A' & Ef & Hr & (K' & m' & M') & Hb & Htot).
    eexists _, _, s', _. split; [apply answer_run; unfold PVRSRVReleaseHandle; access_found E; exact Ef|].
    cbn. rewrite Ec. split; [|by exists K', fl', bl, m']. split; [done|]. split; [done|]. by exists A'.
Qed.

Lemma LookupAndRelease_ok h type : meets (OpLookupAndRelease h type).
Proof.
  intros s a Hm Hw. pose proof Hm as (K & fl & bl & m & M).
  destruct (access_cases _ _ _ _ _ _ h type M Hw) as [(e & Ec & Hne & E)|(x & hh & Ec & E & Hx & He & Hh & Ex & _)].
  - eexists _, _, s, a. split; [unfold exec, PVRSRVLookupAndReleaseHandle; access_failed E Hne|]. cbn.
    by rewrite Ec, (proj2 (Z.eqb_neq _ _) Hne).
  - destruct (Free_Handle_spec M h x Hx) as (s' & fl' & A' & Ef & Hr & (K' & m' & M') & Hb & Htot).
    eexists _, _, s', _. split.
    + apply answer_run. unfold PVRSRVLookupAndReleaseHandle. access_found E. hb_run (hload_ok pvData s _ hh Hh).
      by hb_run Ef.
    + cbn. rewrite Ec. split; [|by exists K', fl', bl, m']. split; [done|]. exists A', x. rewrite Ex at 2. done.
Qed.

End Client.

(** * Allocation for clients

    [PVRSRVAllocHandle] and [PVRSRVAllocSubHandle] do what [spec] says. *)

Section ClientAlloc.
Context {H : Type} {HM : HandleMap H} {BSH : BlockShift}.

Implicit Types s : PVRSRV_HANDLE_BASE H.

(** ** The count of failures *)

Definition bump (f : Z -> Z) s : PVRSRV_HANDLE_BASE H :=
  if HANDLES_BATCHED s then set_ui32BatchHandAllocFailures (f (ui32BatchHandAllocFailures s)) s else s.

Lemma count_failure_run f s : count_failure f s = Ok (tt, bump f s).
Proof. unfold count_failure, bump. rewrite hb_base_bind. by destruct (HANDLES_BATCHED s). Qed.

Lemma bump_handles f s : (forall j, ent (bump f s) j = ent s j) /\ (forall j, tn (bump f s) j = tn s j) /\
  (forall j, hnd (bump f s) j = hnd s j).
Proof. unfold bump. by destruct (HANDLES_BATCHED s). Qed.

Lemma bump_mode f s :
  ui32MaxIndexPlusOne (bump f s) = ui32MaxIndexPlusOne s /\ ui32TotalHandCount (bump f s) = ui32TotalHandCount s /\
  HANDLES_BATCHED (bump f s) = HANDLES_BATCHED s /\ bPurgingEnabled (bump f s) = bPurgingEnabled s /\
  ui32FirstBatchIndexPlusOne (bump f s) = ui32FirstBatchIndexPlusOne s /\
  ui32BatchHandAllocFailures (bump f s) =
    (if HANDLES_BATCHED s then f (ui32BatchHandAllocFailures s) else ui32BatchHandAllocFailures s).
Proof. unfold bump. by destruct (HANDLES_BATCHED s) eqn:E; rewrite ?E. Qed.

Lemma add_sub32 x : word x -> sub32 (add32 x 1) 1 = x.
Proof.
  intros Hx. unfold word in Hx. unfold sub32, add32, wrapU. rewrite Zminus_mod_idemp_l.
  replace (x + 1 - 1) with x by lia. by apply Z.mod_small.
Qed.

Lemma word_add32 x : word (add32 x 1).
Proof. unfold word, add32, wrapU. apply Z.mod_pos_bound. lia. Qed.

Lemma bump_undo s : word (ui32BatchHandAllocFailures s) -> bump (fun n => sub32 n 1) (bump (fun n => add32 n 1) s) = s.
Proof.
  intros Hw. unfold bump. destruct (HANDLES_BATCHED s) eqn:E; [|by rewrite E].
  change (HANDLES_BATCHED (set_ui32BatchHandAllocFailures _ s)) with (HANDLES_BATCHED s). rewrite E.
  cbn [ui32BatchHandAllocFailures set_ui32BatchHandAllocFailures]. rewrite add_sub32 by done. by destruct s.
Qed.

Lemma hinv_bump f D s K fl bl first m : hinv D s K fl bl first m -> hinv D (bump f s) K fl bl first m.
Proof.
  unfold bump. destruct (HANDLES_BATCHED s); [|done].
  intros [[P1 P2 P3 P4 P5 P6 P7 P8 P9 P10 P11 P12] I2 I3 I4 I5 I6]. constructor; try done.
  constructor; try done. by destruct P1.
Qed.

(** The state while an allocation runs. *)
Definition counted (a : abs) : abs :=
  mk_abs (a_handles a) (a_batch a)
    (match a_batch a with Some _ => add32 (a_failures a) 1 | None => a_failures a end)
    (a_purging a) (a_max a) (a_total a).

Lemma models_counted K fl bl m s a :
  models_by K fl bl m s a -> models_by K fl bl m (bump (fun n => add32 n 1) s) (counted a).
Proof.
  intros M. pose proof (bump_mode (fun n => add32 n 1) s) as (B1 & B2 & B3 & B4 & B5 & B6).
  destruct M as [M1 M2 M3 M4 M5 M6 M7 M8 M9]. constructor; cbn [counted a_handles a_batch a_failures a_purging a_max a_total].
  - rewrite B5. by apply hinv_bump.
  - unfold purge0, bump. destruct (HANDLES_BATCHED s); exact M2.
  - intros h. rewrite M3. symmetry. apply bump_handles.
  - by rewrite B3.
  - rewrite B6, M4, M5. by destruct (HANDLES_BATCHED s).
  - rewrite B6. destruct (HANDLES_BATCHED s); [apply word_add32|done].
  - congruence.
  - congruence.
  - congruence.
Qed.

Lemma failed_counted K fl bl m s a : models_by K fl bl m s a -> failed a (counted a).
Proof. intros M. pose proof (models_total M). constructor; cbn; try done. lia. Qed.

(** An allocation that left the handles alone. *)
Lemma unchanged_failed K fl bl m s a s' :
  models_by K fl bl m s a -> unchanged (bump (fun n => add32 n 1) s) s' K bl m ->
  failed a (view bl s') /\ models s' (view bl s').
Proof.
  intros M [(fl' & U1) U2 [N1 N2 N3 N4 N5] U4].
  pose proof (bump_mode (fun n => add32 n 1) s) as (B1 & B2 & B3 & B4 & B5 & B6).
  assert (HANDLES_BATCHED s' = HANDLES_BATCHED s) as Eb by (unfold HANDLES_BATCHED in *; congruence).
  pose proof (po_array _ _ _ _ _ (hi_pool _ _ _ _ _ _ _ U1)) as Ha. destruct M as [M1 M2 M3 M4 M5 M6 M7 M8 M9]. split.
  - constructor; cbn [view a_handles a_batch a_failures a_purging a_max a_total].
    + intros h. rewrite M3, U2. apply bump_handles.
    + by rewrite Eb.
    + rewrite N3, B6, M4, M5. by destruct (HANDLES_BATCHED s).
    + congruence.
    + congruence.
    + pose proof (ao_max _ Ha). rewrite M8, M9. lia.
  - eapply models_view; [exact U1|done|]. rewrite N3, B6. destruct (HANDLES_BATCHED s); [apply word_add32|done].
Qed.

(** ** The new handle *)

Lemma allocated_hinv s s' K fl' bl' m i x :
  allocated s s' K fl' bl' (if multi x then m else <[key_of x := i + 1]> m) i x -> keyed [] (ent s) m ->
  (multi x = false -> m !! key_of x = None) -> Z.of_nat (size m) + 1 < COUNT_LIMIT ->
  hinv [] s' (fun q => if decide (q = i) then [] else K q) fl' bl' (ui32FirstBatchIndexPlusOne s')
    (if multi x then m else <[key_of x := i + 1]> m).
Proof.
  intros [A1 A2 A3 A4 A5 A6 A7 A8] Hk Hm Hsz. constructor; try done.
  - by apply idle_hnd.
  - eapply (keyed_new [] (ent s)); [done|done|done|set_solver|done].
  - destruct (multi x); [lia|]. rewrite map_size_insert_None by auto. lia.
Qed.

(** The new handle becomes a child. *)
Lemma adopt_allocated s s' K fl' bl' m m' i data type flag p y :
  allocated s s' K fl' bl' m' i (mk_entry type data flag 0) -> ent s p = Some y ->
  let x := mk_entry type data flag (p + 1) in
  m' = (if multi x then m else <[key_of x := i + 1]> m) -> keyed [] (ent s) m ->
  (multi x = false -> m !! key_of x = None) -> Z.of_nat (size m) + 1 < COUNT_LIMIT ->
  exists s'' K', AdoptChild p i s' = Ok (tt, s'') /\
    hinv [] s'' K' fl' bl' (ui32FirstBatchIndexPlusOne s'') m' /\
    (forall j, ent s'' j = with_entry i x (ent s) j) /\ same_mode s' s'' /\ purge0 s''.
Proof.
  intros [A1 A2 A3 A4 A5 A6 A7 A8] Hp x -> Hk Hm Hsz.
  assert (p <> i) as Hpi by (intros ->; congruence).
  assert (ent s' p = Some y) as Hp' by (rewrite A6; unfold with_entry; by rewrite decide_False).
  assert (ent s' i = Some (mk_entry type data flag 0)) as Hi' by (rewrite A6; unfold with_entry; by rewrite decide_True).
  destruct (live_tn _ _ _ Hp') as (lp & Hlp & _). destruct (live_tn _ _ _ Hi') as (li & Hli & Eli).
  destruct (AdoptChild_ok s' (fun q => if decide (q = i) then [] else K q) p i li A2 (po_index _ _ _ _ _ A1)
      ltac:(eauto) Hli Eli ltac:(cbv beta; by rewrite decide_True) Hpi)
    as (s'' & E & Hf & F'' & Hpar & Hother).
  assert (forall j, ent s'' j = with_entry i x (ent s) j) as Hent.
  { intros j. unfold with_entry. case_decide as Hj.
    - subst j. apply ent_Some in Hi' as (h & Hh & Ht & Ex). injection Ex as Et Ed Efl Epa.
      destruct (tree_frame_lookup _ _ _ _ Hf Hh) as (h' & Hh' & R). injection R as R1 R2 R3 R4 R5 R6.
      apply ent_Some. exists h'. split; [done|]. split; [congruence|]. unfold x. rewrite R1, R2, R5, <- Et, <- Ed, <- Efl.
      f_equal. symmetry. apply (Hpar (sChildren h', sSiblings h')). apply tn_Some. exists h'.
      split; [done|]. split; [apply live_used; congruence|done].
    - rewrite (ent_tree_frame s' s'' j Hf (Hother j Hj)), A6. unfold with_entry. by rewrite decide_False. }
  pose proof (tf_fields _ _ Hf) as Es.
  eexists s'', _. split; [done|]. split; [|split; [done|split; [rewrite Es; done|unfold purge0; rewrite Es; exact A8]]].
  constructor.
  - replace (ui32FirstBatchIndexPlusOne s'') with (ui32FirstBatchIndexPlusOne s') by (by rewrite Es). by eapply pool_tree_frame.
  - exact F''.
  - apply idle_hnd. intros j l Hl Hj. unfold adopt_kids. rewrite Hent in Hj. unfold with_entry in Hj. case_decide as Hji; [done|].
    assert (j <> p) as Hjp by (intros ->; congruence). rewrite decide_False by done.
    pose proof (Hother j Hji) as Eo. rewrite Hl in Eo. destruct (tn s' j) as [l'|] eqn:El'; [|done]. injection Eo as ->.
    assert (ent s' j = None) as Hj' by (rewrite A6; unfold with_entry; by rewrite decide_False).
    pose proof (A3 j l' El' Hj') as Hres. cbv beta in Hres. by rewrite decide_False in Hres by done.
  - rewrite Es. exact A4.
  - eapply (keyed_new [] (ent s)); [done|done|done|set_solver|done].
  - destruct (multi x); [lia|]. rewrite map_size_insert_None by auto. lia.
Qed.

(** The end of an allocation that made handle [i + 1]. *)
Lemma alloc_done K fl bl m s a s2 K2 fl2 m2 i x :
  models_by K fl bl m s a -> let bl2 := if HANDLES_BATCHED s then i :: bl else bl in
  hinv [] s2 K2 fl2 bl2 (ui32FirstBatchIndexPlusOne s2) m2 -> purge0 s2 ->
  (forall j, ent s2 j = with_entry i x (ent s) j) -> same_mode (bump (fun n => add32 n 1) s) s2 ->
  let s3 := bump (fun n => sub32 n 1) s2 in
  becomes a (view bl2 s3) (with_entry (i + 1) x (a_handles a)) ((fun l => i + 1 :: l) <$> a_batch a) (a_failures a) /\
  models s3 (view bl2 s3) /\ 1 <= i + 1 <= a_total (view bl2 s3).
Proof.
  intros M bl2 I2 Hz Hent [N1 N2 N3 N4 N5] s3. pose proof (models_total M) as Ht.
  pose proof (bump_mode (fun n => add32 n 1) s) as (B1 & B2 & B3 & B4 & B5 & B6).
  pose proof (bump_mode (fun n => sub32 n 1) s2) as (C1 & C2 & C3 & C4 & C5 & C6). fold s3 in C1, C2, C3, C4, C5, C6.
  assert (HANDLES_BATCHED s2 = HANDLES_BATCHED s) as Eb by (unfold HANDLES_BATCHED in *; congruence).
  pose proof (po_array _ _ _ _ _ (hi_pool _ _ _ _ _ _ _ I2)) as Ha. destruct M as [M1 M2 M3 M4 M5 M6 M7 M8 M9].
  assert (ui32BatchHandAllocFailures s3 = ui32BatchHandAllocFailures s) as Ef.
  { rewrite C6, Eb, N3, B6. destruct (HANDLES_BATCHED s); [by apply add_sub32|done]. }
  assert (forall j, ent s3 j = with_entry i x (ent s) j) as Hent3 by (intros j; rewrite <- Hent; apply bump_handles).
  split; [|split].
  - constructor; cbn [view a_handles a_batch a_failures a_purging a_max a_total].
    + intros h. rewrite Hent3. unfold with_entry. destruct (decide (h = i + 1)) as [->|Hne].
      * by rewrite decide_True by lia.
      * rewrite decide_False by lia. by rewrite M3.
    + rewrite C3, Eb, M4. unfold bl2. by destruct (HANDLES_BATCHED s).
    + congruence.
    + congruence.
    + congruence.
    + pose proof (ao_max _ Ha). rewrite C2, M8, M9. lia.
  - eapply models_view; [rewrite C5; by apply hinv_bump| |by rewrite Ef].
    unfold purge0, s3, bump. destruct (HANDLES_BATCHED s2); exact Hz.
  - cbn. assert (ent s2 i = Some x) as (h & Hh & _)%ent_Some by (rewrite Hent; unfold with_entry; by rewrite decide_True).
    assert (is_Some (hnd s2 i)) as Hr%hnd_in_range by eauto; [|done]. rewrite C2. lia.
Qed.

(** ** The calls *)

(** The search that precedes an allocation. *)
Lemma search_ok K fl bl m s a data type pkey (multiple : bool) :
  models_by K fl bl m s a ->
  exists h, (if negb multiple then FindHandle data type pkey else mret 0) s = Ok (h, s) /\
    ((multiple = false /\ finds a (InitKey data type pkey) h /\ 1 <= h) \/
     (h = 0 /\ (multiple = false -> m !! InitKey data type pkey = None /\ forall h, ~ finds a (InitKey data type pkey) h))).
Proof.
  intros M. destruct multiple; cbn [negb]; [exists 0; split; [done|]; by right|].
  destruct (FindHandle_ok M data type pkey) as (h & E & Hh). exists h. split; [done|].
  destruct Hh as [(_ & ? & ?)|(? & -> & ?)]; [left|right]; auto.
Qed.

(** The handle that is found has the type that was asked for. *)
Lemma found_access K fl bl m s a data type pkey h :
  models_by K fl bl m s a -> finds a (InitKey data type pkey) h ->
  exists x hh, GetHandleStructure h type s = Ok (PVRSRV_OK, h - 1, s) /\ a_handles a h = Some x /\
    hnd s (h - 1) = Some hh /\ eFlag hh = e_flag x /\ hParent (sSiblings hh) = e_parent x /\ HANDLE_TO_INDEX h = h - 1.
Proof.
  intros M (x & Hx & Hm & Hk). pose proof (handle_range M h x Hx) as Hr. pose proof (models_total M) as Ht.
  unfold key_of, InitKey in Hk. injection Hk as _ Hty _. apply type_code_inj in Hty.
  assert (word h) as Hw by (unfold word; lia).
  destruct (access_cases _ _ _ _ _ _ h type M Hw) as [(e & Ec & Hne & _)|(x' & hh & _ & E & Hx' & _ & Hh & -> & _)].
  - rewrite (live_check M h x type Hx) in Ec by auto. congruence.
  - eexists _, hh. split; [done|]. split; [done|]. split; [done|]. split; [done|]. split; [done|].
    apply wrapU_small. lia.
Qed.

Lemma room s K fl bl first m : hinv [] s K fl bl first m -> ui32TotalHandCount s + 1 < COUNT_LIMIT ->
  Z.of_nat (size m) + 1 < COUNT_LIMIT.
Proof. intros I Ht. pose proof (keys_bound _ _ _ _ _ _ _ I). lia. Qed.

Lemma bump_keyed f s m : keyed [] (ent s) m -> keyed [] (ent (bump f s)) m.
Proof. intros Hk. eapply keyed_ext; [exact Hk|]. intros i _. apply bump_handles. Qed.

(** The new handle of [PVRSRVAllocHandle]. *)
Lemma alloc_root K fl bl m s a data type flag :
  models_by K fl bl m s a -> type <> PVRSRV_HANDLE_TYPE_NONE -> ui32TotalHandCount s + 1 < COUNT_LIMIT ->
  (TEST_FLAG flag PVRSRV_HANDLE_ALLOC_FLAG_MULTI = false ->
    m !! InitKey data type 0 = None /\ forall h, ~ finds a (InitKey data type 0) h) ->
  exists e h s' a',
    ('(eError, hHandle) ← AllocHandle data type flag 0;
     hb_when (eError =? PVRSRV_OK) (count_failure (fun n => sub32 n 1));;
     mret (eError, hHandle)) (bump (fun n => add32 n 1) s) = Ok (e, h, s') /\
    alloc_spec data type flag 0 None a e h a' /\ models s' a'.
Proof.
  intros M Hty Hroom Hmiss. pose proof (models_counted _ _ _ _ _ _ M) as M1.
  pose proof (mo_inv _ _ _ _ _ _ M1) as I1. set (s1 := bump (fun n => add32 n 1) s) in *.
  set (x := mk_entry type data flag 0).
  assert (key_of x = InitKey data type 0) as Ekey by (unfold key_of; by destruct (private x)).
  pose proof (room _ _ _ _ _ _ (mo_inv _ _ _ _ _ _ M) Hroom) as Hsz.
  destruct (AllocHandle_ok s1 K fl bl m data type flag 0 I1 (mo_purge _ _ _ _ _ _ M1) Hty) as
    [(e & s2 & E2 & He & U)|(i & s2 & fl2 & E2 & A)]; [intros Hmu; by apply Hmiss|done| |]; hb_run E2.
  - destruct (unchanged_failed _ _ _ _ _ _ _ M U) as [Hfa Hmo]. exists e, 0, s2, (view bl s2).
    split; [by destruct He as [->| ->]|]. split; [|done]. eapply as_no_memory; [|done|done]. intros Hmu. by apply Hmiss.
  - change (PVRSRV_OK =? PVRSRV_OK) with true. cbn [hb_when]. hb_run (count_failure_run (fun n => sub32 n 1) s2).
    rewrite <- Ekey in A, Hmiss. change (TEST_FLAG flag PVRSRV_HANDLE_ALLOC_FLAG_MULTI) with (multi x) in A, Hmiss.
    pose proof (allocated_hinv s1 s2 K fl2 _ m i x A (hi_keyed _ _ _ _ _ _ _ I1) ltac:(intros Hmu; by apply Hmiss) Hsz) as I2.
    replace (HANDLES_BATCHED s1) with (HANDLES_BATCHED s) in I2 by (symmetry; apply bump_mode).
    destruct (alloc_done _ _ _ _ _ _ s2 _ _ _ i x M I2 (al_purge _ _ _ _ _ _ _ _ A)) as (Hb & Hmo & Hr).
    + intros j. rewrite (al_ent _ _ _ _ _ _ _ _ A). unfold with_entry. case_decide; [done|]. apply bump_handles.
    + apply A.
    + eexists _, _, _, _. split; [done|]. split; [|exact Hmo].
      eapply as_new; [intros Hmu; rewrite <- Ekey; by apply Hmiss|rewrite (mo_handles _ _ _ _ _ _ M)|exact Hr|exact Hb].
      replace (i + 1 - 1) with i by lia. rewrite <- (al_fresh _ _ _ _ _ _ _ _ A). symmetry. apply bump_handles.
Qed.

Lemma Alloc_ok data type flag : meets (H := H) (OpAlloc data type flag).
Proof.
  intros s a Hm [Hty Hroom]. pose proof Hm as (K & fl & bl & m & M). pose proof (models_counted _ _ _ _ _ _ M) as M1.
  cut (exists e h s' a', PVRSRVAllocHandle data type flag s = Ok (e, h, s') /\ alloc_spec data type flag 0 None a e h a' /\ models s' a').
  { intros (e & h & s' & a' & E & Hs & Hmo). eexists _, _, s', a'. split; [by apply answer_run|]. split; [|done]. by exists h. }
  unfold PVRSRVAllocHandle. hb_run (count_failure_run (fun n => add32 n 1) s). set (s1 := bump _ s) in *.
  destruct (search_ok _ _ _ _ _ _ data type 0 (TEST_FLAG flag PVRSRV_HANDLE_ALLOC_FLAG_MULTI) M1) as (h & Es & Hs).
  hb_run Es. destruct Hs as [(Hmu & Hf & H1)|(-> & Hmiss)]; [|by eapply alloc_root].
  destruct (found_access _ _ _ _ _ _ data type 0 h M1 Hf) as (x & hh & Eg & Hx & Hh & Efl & _).
  rewrite (proj2 (Z.eqb_neq h 0)) by lia. cbn [negb]. hb_run Eg. change (PVRSRV_OK =? PVRSRV_OK) with true. cbn [negb].
  hb_run (hload_ok eFlag s1 _ hh Hh). rewrite Efl.
  destruct (TEST_FLAG (Z.land (e_flag x) flag) PVRSRV_HANDLE_ALLOC_FLAG_SHARED) eqn:Esh.
  - hb_run (count_failure_run (fun n => sub32 n 1) s1). unfold s1. rewrite bump_undo by apply M.
    exists PVRSRV_OK, h, s, a. split; [done|]. split; [|done]. by eapply as_shared.
  - eexists _, _, s1, (counted a). split; [done|]. split; [|by exists K, fl, bl, m].
    eapply as_exists; [done|done|done|by left|]. by eapply failed_counted.
Qed.

(** The new handle of [PVRSRVAllocSubHandle]. *)
Lemma alloc_child K fl bl m s a data type flag parent y :
  models_by K fl bl m s a -> type <> PVRSRV_HANDLE_TYPE_NONE -> ui32TotalHandCount s + 1 < COUNT_LIMIT ->
  a_handles a parent = Some y ->
  let pkey := if TEST_FLAG flag PVRSRV_HANDLE_ALLOC_FLAG_PRIVATE then parent else 0 in
  (TEST_FLAG flag PVRSRV_HANDLE_ALLOC_FLAG_MULTI = false ->
    m !! InitKey data type pkey = None /\ forall h, ~ finds a (InitKey data type pkey) h) ->
  exists e h s' a',
    ('(eError, hHandle) ← AllocHandle data type flag pkey;
     if negb (eError =? PVRSRV_OK) then mret (eError, 0) else
     AdoptChild (HANDLE_TO_INDEX parent) (HANDLE_TO_INDEX hHandle);;
     count_failure (fun n => sub32 n 1);;
     mret (PVRSRV_OK, hHandle)) (bump (fun n => add32 n 1) s) = Ok (e, h, s') /\
    alloc_spec data type flag pkey (Some parent) a e h a' /\ models s' a'.
Proof.
  intros M Hty Hroom Hy pkey Hmiss. pose proof (models_counted _ _ _ _ _ _ M) as M1.
  pose proof (handle_range M parent y Hy) as Hpr. pose proof (models_total M) as Htot.
  pose proof (mo_inv _ _ _ _ _ _ M1) as I1. set (s1 := bump (fun n => add32 n 1) s) in *.
  set (x := mk_entry type data flag parent).
  pose proof (room _ _ _ _ _ _ (mo_inv _ _ _ _ _ _ M) Hroom) as Hsz.
  destruct (AllocHandle_ok s1 K fl bl m data type flag pkey I1 (mo_purge _ _ _ _ _ _ M1) Hty) as
    [(e & s2 & E2 & He & U)|(i & s2 & fl2 & E2 & A)]; [intros Hmu; by apply Hmiss|done| |]; hb_run E2.
  - destruct (unchanged_failed _ _ _ _ _ _ _ M U) as [Hfa Hmo]. exists e, 0, s2, (view bl s2).
    split; [by destruct He as [->| ->]|]. split; [|done]. eapply as_no_memory; [|done|done]. intros Hmu. by apply Hmiss.
  - change (PVRSRV_OK =? PVRSRV_OK) with true. cbn [negb].
    assert (ent s1 (parent - 1) = Some y) as Hp1.
    { rewrite (mo_handles _ _ _ _ _ _ M) in Hy. rewrite <- Hy. apply bump_handles. }
    assert (is_Some (hnd s2 i)) as [hi Hhi].
    { pose proof (al_ent _ _ _ _ _ _ _ _ A i) as Ei. unfold with_entry in Ei. rewrite decide_True in Ei by done.
      apply ent_Some in Ei as (hi & ? & _). eauto. }
    pose proof (hnd_range _ _ _ (po_array _ _ _ _ _ (al_pool _ _ _ _ _ _ _ _ A)) Hhi) as Hir.
    rewrite (handle_index_inv i Hir). replace (HANDLE_TO_INDEX parent) with (parent - 1) by (symmetry; apply wrapU_small; lia).
    destruct (adopt_allocated s1 s2 K fl2 _ m _ i data type flag (parent - 1) y A Hp1) as (s3 & K3 & E3 & I3 & He3 & Hm3 & Hz3).
    { by replace (parent - 1 + 1) with parent by lia. }
    { apply I1. }
    { replace (parent - 1 + 1) with parent by lia. intros Hmu. by apply Hmiss. }
    { done. }
    hb_run E3. hb_run (count_failure_run (fun n => sub32 n 1) s3). replace (parent - 1 + 1) with parent in He3 by lia.
    replace (HANDLES_BATCHED s1) with (HANDLES_BATCHED s) in I3 by (symmetry; apply bump_mode).
    destruct (alloc_done _ _ _ _ _ _ s3 _ _ _ i x M I3 Hz3) as (Hb & Hmo & Hr).
    + intros j. rewrite He3. unfold with_entry. case_decide; [done|]. apply bump_handles.
    + transitivity s2; [apply A|done].
    + eexists _, _, _, _. split; [done|]. split; [|exact Hmo].
      eapply as_new; [intros Hmu; by apply Hmiss|rewrite (mo_handles _ _ _ _ _ _ M)|exact Hr|exact Hb].
      replace (i + 1 - 1) with i by lia. rewrite <- (al_fresh _ _ _ _ _ _ _ _ A). symmetry. apply bump_handles.
Qed.

(** What [PVRSRVAllocSubHandle] does once it knows the parent. *)
Definition alloc_under (data : Z) (type : PVRSRV_HANDLE_TYPE) (flag parent pkey : Z) : HB (H := H) (Z * Z) :=
  hHandle ← (if negb (TEST_FLAG flag PVRSRV_HANDLE_ALLOC_FLAG_MULTI)
             then FindHandle data type pkey else mret 0);
  if negb (hHandle =? 0) then
    '(eErr, p) ← GetHandleStructure hHandle type;
    if negb (eErr =? PVRSRV_OK) then mret (eErr, 0) else
    f ← hload p eFlag;
    pp ← ParentHandle (HANDLE_TO_INDEX hHandle);
    if TEST_FLAG (Z.land f flag) PVRSRV_HANDLE_ALLOC_FLAG_SHARED && (pp =? parent) then
      count_failure (fun n => sub32 n 1);;
      mret (PVRSRV_OK, hHandle)
    else mret (PVRSRV_ERROR_HANDLE_NOT_SHAREABLE, 0)
  else
    '(eError, hHandle) ← AllocHandle data type flag pkey;
    if negb (eError =? PVRSRV_OK) then mret (eError, 0) else
    AdoptChild (HANDLE_TO_INDEX parent) (HANDLE_TO_INDEX hHandle);;
    count_failure (fun n => sub32 n 1);;
    mret (PVRSRV_OK, hHandle).

Lemma alloc_under_ok K fl bl m s a data type flag parent y :
  models_by K fl bl m s a -> type <> PVRSRV_HANDLE_TYPE_NONE -> ui32TotalHandCount s + 1 < COUNT_LIMIT ->
  a_handles a parent = Some y ->
  let pkey := if TEST_FLAG flag PVRSRV_HANDLE_ALLOC_FLAG_PRIVATE then parent else 0 in
  exists e h s' a', alloc_under data type flag parent pkey (bump (fun n => add32 n 1) s) = Ok (e, h, s') /\
    alloc_spec data type flag pkey (Some parent) a e h a' /\ models s' a'.
Proof.
  intros M Hty Hroom Hy pkey. pose proof (models_counted _ _ _ _ _ _ M) as M1. set (s1 := bump _ s) in *.
  destruct (search_ok _ _ _ _ _ _ data type pkey (TEST_FLAG flag PVRSRV_HANDLE_ALLOC_FLAG_MULTI) M1) as (h & Es & Hs).
  unfold alloc_under. hb_run Es. destruct Hs as [(Hmu & Hf & H1)|(-> & Hmiss)]; [|by eapply alloc_child].
  destruct (found_access _ _ _ _ _ _ data type pkey h M1 Hf) as (x & hh & Eg & Hx & Hh & Efl & Epa & Ei).
  rewrite (proj2 (Z.eqb_neq h 0)) by lia. cbn [negb]. hb_run Eg. change (PVRSRV_OK =? PVRSRV_OK) with true. cbn [negb].
  hb_run (hload_ok eFlag s1 _ hh Hh). unfold ParentHandle. rewrite Ei.
  hb_run (hload_ok (fun h => hParent (sSiblings h)) s1 _ hh Hh). rewrite Efl, Epa.
  destruct (TEST_FLAG (Z.land (e_flag x) flag) PVRSRV_HANDLE_ALLOC_FLAG_SHARED) eqn:Esh;
    destruct (Z.eqb_spec (e_parent x) parent) as [Ep|Ep]; cbn [andb].
  1: { hb_run (count_failure_run (fun n => sub32 n 1) s1). unfold s1. rewrite bump_undo by apply M.
    exists PVRSRV_OK, h, s, a. split; [done|]. split; [|by exists K, fl, bl, m]. eapply as_shared; try done. by intros ? [= <-]. }
  all: eexists _, _, s1, (counted a); (split; [done|]); (split; [|by exists K, fl, bl, m]);
    eapply as_exists; [done|done|done|by eauto|by eapply failed_counted].
Qed.

Lemma AllocSub_ok data type flag parent : meets (H := H) (OpAllocSub data type flag parent).
Proof.
  intros s a Hm (Hty & Hroom & Hw). pose proof Hm as (K & fl & bl & m & M). pose proof (models_counted _ _ _ _ _ _ M) as M1.
  cut (exists e h s' a', PVRSRVAllocSubHandle data type flag parent s = Ok (e, h, s') /\
    spec (OpAllocSub data type flag parent) a e (VHandle h) a' /\ models s' a').
  { intros (e & h & s' & a' & E & Hs & Hmo). eexists _, _, s', a'. split; [by apply answer_run|]. done. }
  unfold PVRSRVAllocSubHandle. hb_run (count_failure_run (fun n => add32 n 1) s). cbv zeta.
  assert (check a parent PVRSRV_HANDLE_TYPE_NONE = check (counted a) parent PVRSRV_HANDLE_TYPE_NONE) as Eck by done.
  destruct (access_cases _ _ _ _ _ _ parent PVRSRV_HANDLE_TYPE_NONE M1 Hw) as [(e & Ec & Hne & E)|(y & hy & Ec & E & Hy & _)];
    hb_run E; rewrite Ec in Eck.
  - eexists e, 0, _, (counted a). split; [by rewrite (proj2 (Z.eqb_neq _ _) Hne)|]. split; [|by exists K, fl, bl, m].
    exists 0. split; [done|]. cbv zeta. rewrite Eck, (proj2 (Z.eqb_neq _ _) Hne). split; [done|]. split; [done|]. by eapply failed_counted.
  - destruct (alloc_under_ok _ _ _ _ _ _ data type flag parent y M Hty Hroom Hy) as (e & h & s' & a' & Ee & Hs & Hmo).
    exists e, h, s', a'. split; [exact Ee|]. split; [|done]. exists h. split; [done|]. cbv zeta. by rewrite Eck.
Qed.

End ClientAlloc.
