(* ===== verification/PvrHandleBatch.v ===== *)
(** * Batches, limits and purging

    The calls on batches, then those on whole bases. *)

From stdpp Require Import base list numbers option gmap relations.
From Stdlib Require Import ZArith Lia.
From S2P Require Import Prelude PvrHash PvrHashFacts PvrHandleMap PvrHandle PvrHandleArray PvrHandleForest PvrHandlePool PvrHandlePick PvrHandleFree PvrHandleAlloc PvrHandleSpec PvrHandleClient.

Local Open Scope Z_scope.

(** * Batches of handles

    Opening a batch, and its end: the handles of the batch stay, or they go with
    everything below them; the structures that were freed during the batch join
    the free ones. *)

Section Batch.
Context {H : Type} {HM : HandleMap H} {BSH : BlockShift}.

Implicit Types s : PVRSRV_HANDLE_BASE H.

(** ** The first structure leaves the batch *)

(** Its next link is cleared; a handle is not marked as batched any more. *)
Record unbatched (h h' : sHandle) (D : list Z) (p : Z) : Prop := mk_unbatched {
  ub_type : eType h' = eType h;
  ub_data : pvData h' = pvData h;
  ub_flag : eFlag h' = eFlag h;
  ub_index : ui32Index h' = ui32Index h;
  ub_children : sChildren h' = sChildren h;
  ub_siblings : sSiblings h' = sSiblings h;
  ub_next : ui32NextIndexPlusOne h' = 0;
  ub_state : (eType h = PVRSRV_HANDLE_TYPE_NONE /\ eInternalFlag h = 3 /\ eInternalFlag h' = 3 /\ D = [p]) \/
    (eType h <> PVRSRV_HANDLE_TYPE_NONE /\ eInternalFlag h' = 0 /\ D = []) }.

Lemma pool_unbatch s s' fl bl first p h h' D :
  pool [] s fl (p :: bl) first -> hnd s p = Some h -> stored s p h' s' -> unbatched h h' D p ->
  pool D s' fl bl (ui32NextIndexPlusOne h).
Proof.
  intros [P1 P2 P3 P4 P5 P6 P7 P8 P9 P10 P11 P12] Hp S U. pose proof (st_fields _ _ _ _ S) as Es.
  apply NoDup_cons in P8 as [Hpb Hnd]. destruct P10 as [Hfirst (x & Hx & Hc)].
  assert (x = ui32NextIndexPlusOne h) as -> by (unfold nexts in Hx; rewrite Hp in Hx; by injection Hx).
  assert (forall i, i <> p -> hnd s' i = hnd s i) as Hne by (intros i Hi; by rewrite (st_hnd _ _ _ _ S), decide_False).
  assert (hnd s' p = Some h') as Hp' by (by rewrite (st_hnd _ _ _ _ S), decide_True).
  assert (p ∉ fl) as Hpf by (rewrite P4; intros (? & _ & _ & Hn & _); set_solver).
  constructor; [by apply S| |done| |rewrite Es; exact P5| | |done| | | |].
  - intros i hi Hi. destruct (decide (i = p)) as [->|Hne']; [|rewrite Hne in Hi by done; by apply P2].
    rewrite Hp' in Hi. injection Hi as <-. rewrite (ub_index _ _ _ _ U). by apply P2.
  - intros i. rewrite P4. destruct (decide (i = p)) as [->|Hne'].
    + rewrite Hp'. split; [intros (? & _ & _ & Hn & _); set_solver|]. intros (? & [= <-] & Ht & _ & HD).
      destruct (ub_state _ _ _ _ U) as [(_ & _ & _ & ->)|(Hty & _ & _)]; [set_solver|].
      rewrite (ub_type _ _ _ _ U) in Ht. done.
    + rewrite Hne by done. split; intros (hi & ? & ? & Hb & _); exists hi; (split_and!; [done|done|set_solver|]); [|set_solver].
      destruct (ub_state _ _ _ _ U) as [(_ & _ & _ & ->)|(_ & _ & ->)]; set_solver.
  - intros b c. rewrite (st_cnt _ _ _ _ S). apply P6.
  - replace (bPurgingEnabled s') with (bPurgingEnabled s) by (by rewrite Es). destruct (bPurgingEnabled s).
    + destruct P7 as (L1 & L2 & L3 & L4 & L5). split; [by rewrite Es|]. split; [by rewrite Es|]. split; [by rewrite Es|].
      split; [by rewrite Es|]. intros i hi Hi Hhi. rewrite Hne in Hhi by set_solver. by apply (L5 i).
    + destruct fl as [|i fl]; [by rewrite Es|]. destruct P7 as (L1 & L2 & L3). split; [by rewrite Es|]. split; [by rewrite Es|].
      eapply fchain_ext; [exact L3|]. intros j Hj. unfold nexts. rewrite Hne; [done|set_solver].
  - intros i Hi. rewrite Hne by set_solver. apply P9. set_solver.
  - eapply bchain_ext; [exact Hc|]. intros i Hi. unfold nexts. rewrite Hne; [done|set_solver].
  - intros i hi Hi Ht Hb. destruct (decide (i = p)) as [->|Hne'].
    + rewrite Hp' in Hi. injection Hi as <-. split; [apply U|].
      destruct (ub_state _ _ _ _ U) as [(Hty & _)|(_ & ? & _)]; [|done]. rewrite (ub_type _ _ _ _ U) in Ht. done.
    + rewrite Hne in Hi by done. apply (P11 i); [done|done|set_solver].
  - intros Hb. assert (HANDLES_BATCHED s = false) as Hb' by (by rewrite Es in Hb). by discriminate (P12 Hb').
Qed.

Lemma hinv_unbatch s s' K fl bl first m p h h' D :
  hinv [] s K fl (p :: bl) first m -> hnd s p = Some h -> stored s p h' s' -> unbatched h h' D p ->
  hinv D s' K fl bl (ui32NextIndexPlusOne h) m /\ (forall j, ent s' j = ent s j).
Proof.
  intros I Hp S U. pose proof (hinv_idle _ _ _ _ _ _ _ I) as Hi. destruct I as [I1 I2 I3 I4 I5 I6].
  assert (HANDLE_STRUCT_IS_FREE h = false) as Hu.
  { destruct (po_bl _ _ _ _ _ I1 p ltac:(set_solver)) as (h0 & Hh0 & [[_ Hf]|[Ht _]]); simplify_eq;
      [apply flagged_used; lia|by apply live_used]. }
  assert (HANDLE_STRUCT_IS_FREE h' = false) as Hu'.
  { destruct (ub_state _ _ _ _ U) as [(_ & _ & Hf & _)|(Ht & _)]; [apply flagged_used; lia|].
    apply live_used. by rewrite (ub_type _ _ _ _ U). }
  assert (forall j, tn s' j = tn s j) as Htn.
  { intros j. unfold tn. rewrite (st_hnd _ _ _ _ S). case_decide; [|done]. subst j. rewrite Hp. cbn.
    by rewrite Hu, Hu', (ub_children _ _ _ _ U), (ub_siblings _ _ _ _ U). }
  assert (forall j, ent s' j = ent s j) as Hent.
  { intros j. unfold ent. rewrite (st_hnd _ _ _ _ S). case_decide; [|done]. subst j. rewrite Hp. cbn.
    by rewrite (ub_type _ _ _ _ U), (ub_data _ _ _ _ U), (ub_flag _ _ _ _ U), (ub_siblings _ _ _ _ U). }
  split; [|done]. constructor; [by eapply pool_unbatch|eapply forest_ext; [exact I2|exact Htn|done]| | | |done].
  - apply idle_hnd. intros j l. rewrite Htn, Hent. apply Hi.
  - rewrite (st_fields _ _ _ _ S). exact I4.
  - destruct I5 as [K1 K2]. constructor.
    + intros i x Hx Hm Hd. rewrite Hent in Hx. apply K1; [done|done|set_solver].
    + intros k v Hk. destruct (K2 k v Hk) as (i & x & ? & Hx & ? & _ & ?). exists i, x. rewrite Hent. split_and!; try done.
      destruct (ub_state _ _ _ _ U) as [(Ht & _ & _ & ->)|(_ & _ & ->)]; [|set_solver].
      intros ->%list_elem_of_singleton. apply ent_Some in Hx as (h0 & Hh0 & ? & _). simplify_eq.
Qed.

(** ** The loop over the batch *)

(** What the loop keeps. *)
Record batch_frame s s' : Prop := mk_batch_frame {
  bf_max : ui32MaxIndexPlusOne s' = ui32MaxIndexPlusOne s;
  bf_total : ui32TotalHandCount s' = ui32TotalHandCount s;
  bf_purging : bPurgingEnabled s' = bPurgingEnabled s }.

#[export] Instance batch_frame_preorder : PreOrder batch_frame.
Proof. split; [done|]. intros s1 s2 s3 [] []. split; congruence. Qed.

Lemma freed_frame s s' fl fl' l : freed s s' fl fl' l -> batch_frame s s'.
Proof. by intros []. Qed.

Lemma stored_frame s s' p h : stored s p h s' -> batch_frame s s'.
Proof. intros S. by rewrite (st_fields _ _ _ _ S). Qed.

(** The handles after a step: all, or those not below the structure. *)
Definition stepped (commit : bool) s s' (S : list Z) : Prop :=
  if commit then forall j, ent s' j = ent s j
  else removed (fun h => ent s (h - 1)) ((fun i => i + 1) <$> S) (fun h => ent s' (h - 1)).

Definition batch_step (commit : bool) (p : Z) : HB (H := H) unit :=
  h ← hload p id;
  if negb commit || BATCHED_HANDLE_PARTIALLY_FREE h then
    hb_when (negb (BATCHED_HANDLE_PARTIALLY_FREE h)) (hstore p SET_UNBATCHED_HANDLE);;
    Free_Handle p;; mret tt
  else hstore p SET_UNBATCHED_HANDLE.

(** A structure that was freed during the batch. *)
Lemma batch_step_idle commit s s1 K fl bl first m p h :
  hinv [] s K fl (p :: bl) first m -> bPurgingEnabled s = false -> hnd s p = Some h ->
  stored s p (set_ui32NextIndexPlusOne 0 h) s1 -> eType h = PVRSRV_HANDLE_TYPE_NONE -> eInternalFlag h = 3 ->
  exists s' K' fl' m', batch_step commit p s1 = Ok (tt, s') /\
    hinv [] s' K' fl' bl (ui32NextIndexPlusOne h) m' /\ batch_frame s s' /\ stepped commit s s' [p].
Proof.
  intros I Hpu Hp S1 Ht Hf. pose proof (hi_pool _ _ _ _ _ _ _ I) as P.
  assert (p ∉ bl) as Hpb by (pose proof (po_bl_nodup _ _ _ _ _ P) as Hnd; by apply NoDup_cons in Hnd as [? _]).
  destruct (hinv_unbatch s s1 K fl bl first m p h _ [p] I Hp S1) as [I1 Hent1]; [by constructor; auto|].
  assert (hnd s1 p = Some (set_ui32NextIndexPlusOne 0 h)) as Hp1 by (by rewrite (st_hnd _ _ _ _ S1), decide_True).
  assert (bPurgingEnabled s1 = false) as Hpu1 by (by rewrite (st_fields _ _ _ _ S1)).
  destruct (Free_Handle_idle s1 K fl bl _ m p _ I1 Hp1 Ht Hf Hpb eq_refl Hpu1) as (s2 & fl2 & m2 & E2 & I2 & Fr & _).
  exists s2, (prune [p] K), fl2, m2. split; [|split; [done|split]].
  - unfold batch_step. hb_run (hload_ok id s1 p _ Hp1). unfold BATCHED_HANDLE_PARTIALLY_FREE. cbn [id eInternalFlag set_ui32NextIndexPlusOne].
    rewrite Hf. change (TEST_FLAG 3 _) with true. rewrite orb_true_r. cbn [negb hb_when].
    rewrite (hb_bind_ok (mret tt) _ s1 tt s1 eq_refl). by hb_run E2.
  - transitivity s1; [by eapply stored_frame|by eapply freed_frame].
  - assert (ent s p = None) as Hep by (unfold ent, is_none; rewrite Hp; cbn; by rewrite bool_decide_true).
    assert (tn s1 p = Some (sChildren h, sSiblings h)) as Htp.
    { apply tn_Some. eexists. split; [exact Hp1|]. split; [apply flagged_used; cbn; lia|done]. }
    destruct commit; cbn [stepped].
    + intros j. rewrite (fd_ent _ _ _ _ _ Fr), Hent1. case_decide as Hj; [|done].
      apply list_elem_of_singleton in Hj as ->. by rewrite Hep.
    + eapply (freed_removed I1 _ (fun x => eq_sym (Hent1 (x - 1))) s2 fl2 p [p]); [by eauto| |done].
      replace [p] with ([] ++ [p]) by done. constructor.
      destruct (hinv_idle _ _ _ _ _ _ _ I1 p _ Htp ltac:(by rewrite Hent1)) as [-> _]. constructor.
Qed.

(** A handle of the batch. *)
Lemma batch_step_live commit s s1 K fl bl first m p h :
  hinv [] s K fl (p :: bl) first m -> bPurgingEnabled s = false -> hnd s p = Some h ->
  stored s p (set_ui32NextIndexPlusOne 0 h) s1 -> eType h <> PVRSRV_HANDLE_TYPE_NONE -> eInternalFlag h = 1 ->
  exists s' K' fl' m', batch_step commit p s1 = Ok (tt, s') /\
    hinv [] s' K' fl' bl (ui32NextIndexPlusOne h) m' /\ batch_frame s s' /\ stepped commit s s' [p].
Proof.
  intros I Hpu Hp S1 Ht Hf.
  assert (hnd s1 p = Some (set_ui32NextIndexPlusOne 0 h)) as Hp1 by (by rewrite (st_hnd _ _ _ _ S1), decide_True).
  destruct (hstore_stored _ _ _ _ SET_UNBATCHED_HANDLE S1) as (s2 & E2 & S2).
  destruct (hinv_unbatch s s2 K fl bl first m p h _ [] I Hp S2) as [I2 Hent2].
  { constructor; try done. right. cbn. by rewrite Hf. }
  assert (batch_step commit p s1 = (if commit then mret tt else Free_Handle p;; mret tt) s2) as Eb.
  { unfold batch_step. hb_run (hload_ok id s1 p _ Hp1). unfold BATCHED_HANDLE_PARTIALLY_FREE. cbn [id eInternalFlag set_ui32NextIndexPlusOne].
    rewrite Hf. change (TEST_FLAG 1 _) with false. rewrite orb_false_r. cbn [negb hb_when].
    destruct commit; cbn [negb]; [done|]. by hb_run E2. }
  destruct commit.
  - exists s2, K, fl, m. split; [done|]. split; [done|]. split; [by eapply stored_frame|done].
  - assert (is_Some (ent s p)) as [x Hx] by (eexists; apply ent_Some; eauto).
    destruct (live_tn s2 p x) as (l & Hl & _); [by rewrite Hent2|].
    destruct (fo_post _ _ (hi_forest _ _ _ _ _ _ _ I2) p) as [lp Hlp]; [by eauto|].
    destruct (Free_Handle_ok s2 K fl bl _ m p x lp I2) as (s3 & fl3 & m3 & E3 & I3 & Fr & _); [by rewrite Hent2|done| |].
    { intros E. rewrite (st_fields _ _ _ _ S2) in E. cbn in E. congruence. }
    exists s3, (prune lp K), fl3, m3. split; [rewrite Eb; by hb_run E3|]. split; [done|]. split.
    + transitivity s2; [by eapply stored_frame|by eapply freed_frame].
    + cbn [stepped]. eapply (freed_removed I2 _ (fun x => eq_sym (Hent2 (x - 1)))); [by eauto|exact Hlp|exact Fr].
Qed.

Lemma batch_step_ok commit s K fl bl first m p :
  hinv [] s K fl (p :: bl) first m -> bPurgingEnabled s = false ->
  exists s1 s' K' fl' first' m', hload p ui32NextIndexPlusOne s = Ok (first', s) /\
    hstore p (set_ui32NextIndexPlusOne 0) s = Ok (tt, s1) /\ batch_step commit p s1 = Ok (tt, s') /\
    hinv [] s' K' fl' bl first' m' /\ batch_frame s s' /\ stepped commit s s' [p].
Proof.
  intros I Hpu. destruct (po_bl _ _ _ _ _ (hi_pool _ _ _ _ _ _ _ I) p ltac:(set_solver)) as (h & Hp & Hst).
  destruct (hstore_stored _ _ _ _ (set_ui32NextIndexPlusOne 0) (stored_refl s p h Hp)) as (s1 & E1 & S1).
  assert (exists s' K' fl' m', batch_step commit p s1 = Ok (tt, s') /\
    hinv [] s' K' fl' bl (ui32NextIndexPlusOne h) m' /\ batch_frame s s' /\ stepped commit s s' [p])
    as (s' & K' & fl' & m' & ?).
  { destruct Hst as [[Ht Hf]|[Ht Hf]]; [by eapply batch_step_idle|by eapply batch_step_live]. }
  exists s1, s', K', fl', (ui32NextIndexPlusOne h), m'. split; [by apply hload_ok|done].
Qed.

Lemma batch_loop_S n commit p s :
  0 <= p < 2 ^ 31 ->
  batch_loop (S n) commit (p + 1) s = (next ← hload p ui32NextIndexPlusOne;
    hstore p (set_ui32NextIndexPlusOne 0);; batch_step commit p;; batch_loop n commit next) s.
Proof.
  intros Hp. cbn [batch_loop]. rewrite (proj2 (Z.eqb_neq (p + 1) 0)) by lia.
  replace (sub32 (p + 1) 1) with p by (symmetry; unfold sub32; rewrite wrapU_small; lia).
  unfold batch_step, mbind, HB_bind. destruct (hload p ui32NextIndexPlusOne s) as [[next s0]|]; [|done].
  destruct (hstore p (set_ui32NextIndexPlusOne 0) s0) as [[[] s1]|]; [|done].
  by destruct (hload p id s1) as [[h s2]|].
Qed.

Lemma batch_loop_ok commit bl : forall n s K fl first m,
  hinv [] s K fl bl first m -> bPurgingEnabled s = false -> (length bl <= n)%nat ->
  exists s' K' fl' m', batch_loop n commit first s = Ok (tt, s') /\ hinv [] s' K' fl' [] 0 m' /\ batch_frame s s' /\
    stepped commit s s' bl.
Proof.
  induction bl as [|p bl IH]; intros n s K fl first m I Hpu Hn.
  { assert (first = 0) as -> by exact (po_chain _ _ _ _ _ (hi_pool _ _ _ _ _ _ _ I)). exists s, K, fl, m.
    split; [by destruct n|]. split; [done|]. split; [done|]. destruct commit; [done|]. intros x. right. split; [done|].
    intros (h & Hh & _). set_solver. }
  destruct n as [|n]; [cbn in Hn; lia|]. pose proof (hi_pool _ _ _ _ _ _ _ I) as P.
  destruct (po_chain _ _ _ _ _ P) as [-> _].
  assert (0 <= p < 2 ^ 31) as Hp.
  { destruct (po_bl _ _ _ _ _ P p ltac:(set_solver)) as (h & Hh & _). eapply hnd_range; [apply P|exact Hh]. }
  destruct (batch_step_ok commit s K fl bl _ m p I Hpu) as (s1 & s2 & K2 & fl2 & first2 & m2 & E1 & E2 & E3 & I2 & F2 & St).
  rewrite batch_loop_S by done. hb_run E1. hb_run E2. hb_run E3.
  destruct (IH n s2 K2 fl2 first2 m2 I2) as (s3 & K3 & fl3 & m3 & E4 & I3 & F3 & St3); [|cbn in Hn; lia|].
  { by rewrite (bf_purging _ _ F2). }
  exists s3, K3, fl3, m3. split; [done|]. split; [done|]. split; [by transitivity s2|].
  destruct commit; cbn [stepped] in *; [intros j; by rewrite St3|].
  exact (removed_trans _ _ _ _ _ St St3).
Qed.

(** ** The end of a batch *)

Lemma batched_not_purging D s fl bl first : pool D s fl bl first -> HANDLES_BATCHED s = true -> bPurgingEnabled s = false.
Proof.
  intros P Hb. destruct (bPurgingEnabled s) eqn:E; [|done]. pose proof (po_links _ _ _ _ _ P) as Hl. rewrite E in Hl.
  destruct Hl as [Hsz _]. unfold HANDLES_BATCHED in Hb. by rewrite Hsz in Hb.
Qed.

Lemma batch_length D s K fl bl first m : hinv D s K fl bl first m -> (length bl <= handle_fuel s)%nat.
Proof.
  intros I. pose proof (hi_pool _ _ _ _ _ _ _ I) as P. unfold handle_fuel. apply Nat.le_le_succ_r.
  eapply used_length; [exact I|apply P|]. intros i Hi. destruct (po_bl _ _ _ _ _ P i Hi) as (h & Hh & Hst).
  eexists. apply tn_Some. exists h. split; [done|]. split; [|done].
  destruct Hst as [[_ Hf]|[Ht _]]; [apply flagged_used; lia|by apply live_used].
Qed.

Definition closed s : PVRSRV_HANDLE_BASE H :=
  set_ui32BatchHandAllocFailures 0 (set_ui32TotalHandCountPreBatch 0
    (set_ui32FirstBatchIndexPlusOne 0 (set_ui32HandBatchSize 0 s))).

Lemma hinv_closed s K fl m : hinv [] s K fl [] 0 m -> hinv [] (closed s) K fl [] 0 m.
Proof.
  intros [[P1 P2 P3 P4 P5 P6 P7 P8 P9 P10 P11 P12] I2 I3 I4 I5 I6]. constructor; try done. constructor; try done.
  - by destruct P1.
  - cbn. destruct (bPurgingEnabled s); [|done]. split; [done|apply P7].
Qed.

Lemma end_batch_ok commit s a l :
  models s a -> a_batch a = Some l ->
  exists s' a', PVRSRVHandleBatchCommitOrRelease commit s = Ok (PVRSRV_OK, s') /\ ends_batch commit a a' l /\ models s' a'.
Proof.
  intros (K & fl & bl & m & M) Hl. pose proof (mo_inv _ _ _ _ _ _ M) as I. pose proof (models_total M) as Ht.
  pose proof (mo_batch _ _ _ _ _ _ M) as Hb. rewrite Hl in Hb. destruct (HANDLES_BATCHED s) eqn:Eb; [|done].
  injection Hb as ->. pose proof (batched_not_purging _ _ _ _ _ (hi_pool _ _ _ _ _ _ _ I) Eb) as Hpu.
  set (c := if negb (ui32BatchHandAllocFailures s =? 0) then false else commit).
  destruct (batch_loop_ok c bl (handle_fuel s) s K fl _ m I Hpu (batch_length _ _ _ _ _ _ _ I))
    as (s1 & K1 & fl1 & m1 & E1 & I1 & F1 & St).
  pose proof (hinv_closed _ _ _ _ I1) as I2. exists (closed s1), (view [] (closed s1)). split; [|split].
  - unfold PVRSRVHandleBatchCommitOrRelease. rewrite hb_base_bind, Eb. cbn [negb]. rewrite !hb_base_bind.
    fold c. hb_run E1. by rewrite !hb_modify_bind.
  - exists (fun h => ent s1 (h - 1)). split.
    + constructor; cbn.
      * done.
      * done.
      * done.
      * rewrite (bf_purging _ _ F1). symmetry. apply M.
      * rewrite (bf_max _ _ F1). symmetry. apply M.
      * rewrite (bf_total _ _ F1), <- (mo_total _ _ _ _ _ _ M). lia.
    + rewrite (mo_failures _ _ _ _ _ _ M). unfold stepped in St.
      destruct (ui32BatchHandAllocFailures s =? 0), commit; cbn [andb negb c] in *;
        [intros h; rewrite (mo_handles _ _ _ _ _ _ M); apply St|
         eapply removed_ext; [exact St|intros x; apply (mo_handles _ _ _ _ _ _ M)|done]..].
  - eapply models_view; [exact I2| |done]. intros E. cbn in E. rewrite (bf_purging _ _ F1) in E. congruence.
Qed.

Lemma no_batch_run commit s a :
  models s a -> a_batch a = None -> PVRSRVHandleBatchCommitOrRelease commit s = Ok (PVRSRV_ERROR_INVALID_PARAMS, s).
Proof.
  intros (K & fl & bl & m & M) Hl. pose proof (mo_batch _ _ _ _ _ _ M) as Hb. rewrite Hl in Hb.
  unfold PVRSRVHandleBatchCommitOrRelease. rewrite hb_base_bind. by destruct (HANDLES_BATCHED s).
Qed.

Lemma CommitBatch_ok : meets (H := H) OpCommitBatch.
Proof.
  intros s a Hm _. destruct (a_batch a) as [l|] eqn:El.
  - destruct (end_batch_ok true s a l Hm El) as (s' & a' & E & He & Hm'). eexists _, _, s', a'.
    split; [by apply answer_run|]. cbn. by rewrite El.
  - eexists _, _, s, a. split; [by apply answer_run, (no_batch_run true s a)|]. cbn. by rewrite El.
Qed.

Lemma ReleaseBatch_ok : meets (H := H) OpReleaseBatch.
Proof.
  intros s a Hm _. destruct (a_batch a) as [l|] eqn:El.
  - destruct (end_batch_ok false s a l Hm El) as (s' & a' & E & He & Hm'). eexists _, _, s', a'.
    split; [apply answer_run; unfold PVRSRVReleaseHandleBatch; by hb_run E|]. cbn. by rewrite El.
  - eexists _, _, s, a. split; [apply answer_run; unfold PVRSRVReleaseHandleBatch; by hb_run (no_batch_run false s a Hm El)|].
    cbn. by rewrite El.
Qed.

(** ** Opening a batch *)

Definition opened n s : PVRSRV_HANDLE_BASE H :=
  set_ui32TotalHandCountPreBatch (ui32TotalHandCount s) (set_ui32HandBatchSize n s).

Lemma hinv_opened n s K fl m :
  hinv [] s K fl [] (ui32FirstBatchIndexPlusOne s) m -> bPurgingEnabled s = false ->
  hinv [] (opened n s) K fl [] (ui32FirstBatchIndexPlusOne (opened n s)) m.
Proof.
  intros [[P1 P2 P3 P4 P5 P6 P7 P8 P9 P10 P11 P12] I2 I3 I4 I5 I6] Hpu. constructor; try done. constructor; try done.
  - by destruct P1.
  - cbn. rewrite Hpu in *. done.
Qed.

(** The state after the array may have grown. *)
Lemma becomes_same K fl bl m s a s1 a' b' :
  models_by K fl bl m s a -> same_handles s s1 -> array_ok s1 ->
  a' = mk_abs (fun h => ent s1 (h - 1)) b' (ui32BatchHandAllocFailures s1) (bPurgingEnabled s1)
         (ui32MaxIndexPlusOne s1) (ui32TotalHandCount s1) ->
  becomes a a' (a_handles a) b' (a_failures a).
Proof.
  intros M S1 Ha ->. pose proof (ao_max _ Ha). pose proof (sh_total _ _ S1). destruct M as [M1 M2 M3 M4 M5 M6 M7 M8 M9].
  destruct S1 as [N1 N2 N3 N4 N5 N6 N7 N8 N9]. constructor; cbn; try congruence; lia.
Qed.

Lemma NewBatch_ok n : meets (H := H) (OpNewBatch n).
Proof.
  intros s a Hm (Hw & Hpu & Hsafe). pose proof Hm as (K & fl & bl & m & M). pose proof (mo_inv _ _ _ _ _ _ M) as I.
  pose proof (mo_batch _ _ _ _ _ _ M) as Hb. pose proof (hi_pool _ _ _ _ _ _ _ I) as P.
  cut (exists e s' a', PVRSRVNewHandleBatch n s = Ok (e, s') /\ spec (OpNewBatch n) a e VNone a' /\ models s' a').
  { intros (e & s' & a' & E & ?). eexists _, _, s', a'. split; [by apply answer_run|done]. }
  unfold PVRSRVNewHandleBatch, spec. rewrite hb_base_bind. destruct (HANDLES_BATCHED s) eqn:Eb; rewrite Hb; [by eexists _, s, a|].
  destruct (Z.eqb_spec n 0) as [->|Hn]; [by eexists _, s, a|].
  assert (bl = []) as -> by (by apply (po_batch _ _ _ _ _ P)).
  destruct (EnsureFreeHandles_ok s fl [] _ n P Hw) as (e & s1 & fl1 & E1 & S1 & P1 & He).
  { destruct Hsafe as [?|Hsafe]; [by left|right]. unfold grow_safe. rewrite Hpu.
    destruct Hsafe as [Hz|?]; [left|by right]. rewrite (po_count _ _ _ _ _ P) in Hz. by destruct fl. }
  pose proof (hinv_same _ _ _ _ _ _ _ _ _ I S1 P1) as I1. rewrite <- (sh_batch _ _ S1) in I1.
  assert (HANDLES_BATCHED s1 = false) as Eb1 by (unfold HANDLES_BATCHED in *; by rewrite (sh_size _ _ S1)).
  assert (bPurgingEnabled s1 = false) as Hpu1 by (by rewrite (sh_purging _ _ S1)).
  hb_run E1. destruct He as [[-> _]|[-> _]]; cbn [negb Z.eqb PVRSRV_OK PVRSRV_ERROR_OUT_OF_MEMORY].
  - rewrite !hb_modify_bind. fold (opened n s1). exists PVRSRV_OK, (opened n s1), (view [] (opened n s1)).
    split; [done|]. split; [|eapply models_view; [by apply hinv_opened|intros E; cbn in E; congruence|]].
    + split; [done|]. right. split; [done|]. eapply (becomes_same _ _ _ _ _ _ s1); [exact M|done|apply P1|].
      unfold view, HANDLES_BATCHED, truth. cbn. by rewrite (proj2 (Z.eqb_neq n 0)).
    + cbn. rewrite (sh_failures _ _ S1). apply M.
  - exists PVRSRV_ERROR_OUT_OF_MEMORY, s1, (view [] s1).
    split; [done|]. split; [|eapply models_view; [exact I1|intros E; congruence|rewrite (sh_failures _ _ S1); apply M]].
    split; [done|]. left. split; [done|]. eapply (becomes_same _ _ _ _ _ _ s1); [exact M|done|apply P1|].
    unfold view. by rewrite Eb1.
Qed.

End Batch.

(** * Limits, purging, and the end of a base

    The limit on handles, the return of unused blocks at the end of the array,
    and the operations on whole bases. *)

Section Purge.
Context {H : Type} {HM : HandleMap H} {BSH : BlockShift}.

Implicit Types s : PVRSRV_HANDLE_BASE H.
Abbreviation BS := HANDLE_BLOCK_SIZE.

(** ** Limits *)

Lemma hinv_set_max s K fl bl first m n :
  hinv [] s K fl bl first m -> ui32TotalHandCount s = 0 -> 0 < n <= ui32MaxIndexPlusOne s -> n mod BS = 0 ->
  hinv [] (set_ui32MaxIndexPlusOne n s) K fl bl first m.
Proof.
  intros [[[A1 A2 A3 A4 A5] P2 P3 P4 P5 P6 P7 P8 P9 P10 P11 P12] I2 I3 I4 I5 I6] Ht Hn Hm.
  constructor; try done. constructor; try done. constructor; cbn; try done; lia.
Qed.

Lemma SetMax_ok n : meets (H := H) (OpSetMax n).
Proof.
  intros s a Hm Hw. pose proof Hm as (K & fl & bl & m & M). pose proof (mo_inv _ _ _ _ _ _ M) as I.
  pose proof (mo_batch _ _ _ _ _ _ M) as Hb. pose proof (models_array M) as Ha. pose proof BS_range as Hbs.
  cut (exists e s' a', PVRSRVSetMaxHandle n s = Ok (e, s') /\ spec (OpSetMax n) a e VNone a' /\ models s' a').
  { intros (e & s' & a' & E & ?). eexists _, _, s', a'. split; [by apply answer_run|done]. }
  unfold PVRSRVSetMaxHandle, spec. rewrite hb_base_bind, (mo_total _ _ _ _ _ _ M), (mo_max _ _ _ _ _ _ M).
  destruct (HANDLES_BATCHED s) eqn:Eb; rewrite Hb; [by eexists _, s, a|]. rewrite bool_decide_true by done. cbn [negb orb].
  destruct ((n =? 0) || (DEFAULT_MAX_HANDLE <? n)) eqn:En; [by eexists _, s, a|]. cbn [orb]. rewrite hb_base_bind.
  destruct (Z.eqb_spec (ui32TotalHandCount s) 0) as [Et|Et]; cbn [negb]; [|by eexists _, s, a].
  apply orb_false_iff in En as [En1%Z.eqb_neq En2%Z.ltb_ge]. cbn in Hw; unfold word in Hw. rewrite hb_base_bind, round_down_eq by lia.
  assert (BS <> 0) as Hb0 by lia. assert (0 < BS) as Hb1 by lia.
  pose proof (Z.div_mod n BS Hb0) as Hd. pose proof (Z.mod_pos_bound n BS Hb1) as Hmb.
  set (r := BS * (n / BS)) in *. assert (r mod BS = 0) as Hr by (unfold r; rewrite Z.mul_comm; apply Z.mod_mul; lia).
  assert (n < BS \/ (BS <= n /\ 0 < r)) as Hcase.
  { destruct (Z.lt_ge_cases n BS) as [|Hge]; [by left|right]. split; [done|]. unfold r.
    pose proof (Z.div_le_mono BS n BS Hb1 Hge) as Hle. rewrite Z.div_same in Hle by lia. nia. }
  assert ((r =? 0) = (n <? BS)) as ->.
  { destruct Hcase as [Hlt|[Hge Hr0]].
    - rewrite (proj2 (Z.ltb_lt n BS) Hlt). apply Z.eqb_eq. unfold r. rewrite Z.div_small by lia. lia.
    - rewrite (proj2 (Z.ltb_ge n BS) Hge). apply Z.eqb_neq. lia. }
  pose proof (ao_max_range _ Ha) as Hmr.
  destruct (Z.ltb_spec n BS) as [Hlt|Hge]; cbn [negb andb hb_when].
  - exists PVRSRV_OK, s, a. split; [done|]. split; [|done]. split; [done|]. split; [done|].
    rewrite <- Hb, <- (mo_total _ _ _ _ _ _ M), <- (mo_max _ _ _ _ _ _ M). by destruct a.
  - assert (0 < r) as Hr0 by lia.
    eexists PVRSRV_OK, _, _. split; [|split; [split; [done|split; [done|reflexivity]]|]].
    { instantiate (1 := if r <? ui32MaxIndexPlusOne s then _ else _). destruct (r <? ui32MaxIndexPlusOne s); reflexivity. }
    destruct (Z.ltb_spec r (ui32MaxIndexPlusOne s)) as [Hlr|Hgr]; exists K, fl, bl, m; destruct M as [M1 M2 M3 M4 M5 M6 M7 M8 M9].
    + constructor; cbn; try done; [apply hinv_set_max; [done|done|lia|done]| |lia].
      unfold HANDLES_BATCHED in *. cbn. by rewrite Eb.
    + constructor; cbn; try done; [by rewrite Eb|lia].
Qed.

Lemma EnablePurging_ok : meets (H := H) OpEnablePurging.
Proof.
  intros s a Hm Hb. change (HANDLES_BATCHED s = false) in Hb.
  pose proof Hm as (K & fl & bl & m & M). pose proof (mo_inv _ _ _ _ _ _ M) as I.
  cut (exists e s' a', PVRSRVEnableHandlePurging s = Ok (e, s') /\ spec OpEnablePurging a e VNone a' /\ models s' a').
  { intros (e & s' & a' & E & ?). eexists _, _, s', a'. split; [by apply answer_run|done]. }
  unfold PVRSRVEnableHandlePurging, spec. rewrite hb_base_bind, (mo_purging _ _ _ _ _ _ M).
  destruct (bPurgingEnabled s) eqn:Ep; [by exists PVRSRV_OK, s, a|].
  rewrite hb_base_bind, (mo_total _ _ _ _ _ _ M). destruct (Z.eqb_spec (ui32TotalHandCount s) 0) as [Et|Et]; cbn [negb];
    [|by eexists _, s, a].
  rewrite hb_modify_bind. eexists PVRSRV_OK, _, _. split; [done|]. split; [split; [done|split; [done|reflexivity]]|].
  pose proof (pool_fl_length _ _ _ _ _ (hi_pool _ _ _ _ _ _ _ I)) as Hl. rewrite Et in Hl. destruct fl as [|i fl]; [|cbn in Hl; lia].
  exists K, [], bl, m. destruct M as [M1 M2 M3 M4 M5 M6 M7 M8 M9].
  assert (ui32FirstFreeIndex s = 0 /\ ui32HandBatchSize s = 0) as [Hf Hs].
  { pose proof (po_links _ _ _ _ _ (hi_pool _ _ _ _ _ _ _ I)) as Hli. rewrite Ep in Hli. split; [apply Hli|].
    unfold HANDLES_BATCHED, truth in Hb. by destruct (Z.eqb_spec (ui32HandBatchSize s) 0). }
  constructor; cbn; try done; [|intros ?; cbn; done].
  destruct I as [[P1 P2 P3 P4 P5 P6 P7 P8 P9 P10 P11 P12] I2 I3 I4 I5 I6]. constructor; try done. constructor; try done.
  - by destruct P1.
  - cbn. split; [done|]. cbn. rewrite Hf, Et. split; [lia|]. split; [done|]. split; [set_solver|]. intros ? ? Hn. set_solver.
Qed.

(** ** Shrinking the array *)

(** The base with the first [k] blocks only. *)
Definition shrunk (k : Z) (al : list alloc_result) s : PVRSRV_HANDLE_BASE H :=
  let s1 := set_ui32FreeHandCount (sub32 (ui32FreeHandCount s) (sub32 (ui32TotalHandCount s) (BS * k)))
              (set_ui32TotalHandCount (BS * k)
                 (set_psHandleArray (take (Z.to_nat k) (psHandleArray s)) (set_allocs al s))) in
  if k =? 0 then set_ui32LastFreeIndexPlusOne 0 (set_ui32FirstFreeIndex 0 s1) else s1.

Lemma Realloc_shrink_run s k :
  array_ok s -> 0 <= k -> BS * k < ui32TotalHandCount s -> bPurgingEnabled s = true \/ k = 0 ->
  exists al, (k <> 0 /\ ReallocHandleArray (BS * k) s = Ok (PVRSRV_ERROR_OUT_OF_MEMORY, set_allocs al s)) \/
    ReallocHandleArray (BS * k) s = Ok (PVRSRV_OK, shrunk k al s).
Proof.
  intros Ha Hk Hlt Hpu. pose proof BS_range as Hbs. pose proof (array_total_range _ Ha) as Htr.
  pose proof (ao_total _ Ha) as Htot. set (old := ui32TotalHandCount s) in *.
  assert (old mod BS = 0) as Hom by (rewrite Htot, Z.mul_comm; apply Z.mod_mul; lia).
  assert ((BS * k) mod BS = 0) as Hkm by (rewrite Z.mul_comm; apply Z.mod_mul; lia).
  assert ((BS * k =? 0) = (k =? 0)) as Ek by (destruct (Z.eqb_spec k 0) as [->|]; [by rewrite Z.mul_0_r|apply Z.eqb_neq; nia]).
  unfold ReallocHandleArray. rewrite !hb_base_bind. fold old. rewrite (proj2 (Z.eqb_neq (BS * k) old)) by lia.
  rewrite hb_base_bind, Hom, Hkm, Ek. change (negb (0 =? 0)) with false. cbn [orb].
  replace (negb (k =? 0) && negb (bPurgingEnabled s) && (BS * k <? old)) with false
    by (destruct Hpu as [->| ->]; [by rewrite andb_false_r|done]).
  assert (exists got al, (if k =? 0 then mret true else alloc_ok) s = Ok (got, set_allocs al s) /\ (got = false -> k <> 0))
    as (got & al & Eg & Hgot).
  { destruct (Z.eqb_spec k 0); [exists true, (allocs s); split; [by destruct s|done]|].
    destruct (alloc_ok_run s) as (b & al & E). eauto. }
  hb_run Eg. exists al. destruct got; cbn [negb]; [right|left; split; [by apply Hgot|done]].
  unfold realloc_blocks. rewrite Ek.
  replace (Z.to_nat (DIVIDE_BY_BLOCK_SIZE (BS * k - old))) with O by (rewrite block_div; pose proof (Z.div_lt_upper_bound (BS * k - old) BS 0); lia).
  cbn [alloc_blocks].
  assert ((if negb (k =? 0) && negb (old =? 0) then take (Z.to_nat (HANDLE_ARRAY_SIZE (MIN (BS * k) old))) (psHandleArray s) else [])
    = take (Z.to_nat k) (psHandleArray s)) as ->.
  { destruct (Z.eqb_spec k 0) as [->|Hk0]; [done|]. rewrite (proj2 (Z.eqb_neq old 0)) by nia. cbn [negb andb].
    unfold MIN. rewrite (proj2 (Z.ltb_lt (BS * k) old)) by lia. rewrite array_size_eq by lia.
    by rewrite Z.mul_comm, Z.div_mul by lia. }
  unfold mbind, HB_bind, mret, HB_ret. cbn [negb Z.eqb PVRSRV_OK modify]. rewrite app_nil_r.
  unfold resized. rewrite (proj2 (Z.ltb_ge old (BS * k))) by lia. rewrite Ek.
  unfold shrunk, mbind, HB_bind, modify, hb_when. fold old. by destruct (k =? 0).
Qed.

Lemma shrunk_fields k al s :
  psHandleArray (shrunk k al s) = take (Z.to_nat k) (psHandleArray s) /\ psHashTab (shrunk k al s) = psHashTab s /\
  ui32MaxIndexPlusOne (shrunk k al s) = ui32MaxIndexPlusOne s /\ ui32TotalHandCount (shrunk k al s) = BS * k /\
  ui32HandBatchSize (shrunk k al s) = ui32HandBatchSize s /\
  ui32FirstBatchIndexPlusOne (shrunk k al s) = ui32FirstBatchIndexPlusOne s /\
  ui32BatchHandAllocFailures (shrunk k al s) = ui32BatchHandAllocFailures s /\
  bPurgingEnabled (shrunk k al s) = bPurgingEnabled s /\
  ui32FreeHandCount (shrunk k al s) = sub32 (ui32FreeHandCount s) (sub32 (ui32TotalHandCount s) (BS * k)) /\
  (ui32FirstFreeIndex s = 0 -> ui32FirstFreeIndex (shrunk k al s) = 0).
Proof. unfold shrunk. destruct (k =? 0); done. Qed.

Lemma shrunk_hnd k al s j : 0 <= k -> hnd (shrunk k al s) j = if j <? BS * k then hnd s j else None.
Proof.
  intros Hk. pose proof BS_range as Hbs. unfold hnd. rewrite (proj1 (shrunk_fields k al s)).
  destruct (Z.ltb_spec j 0) as [|Hj]; [by destruct (j <? _)|].
  destruct (Z.ltb_spec j (BS * k)) as [Hlt|Hge].
  - rewrite lookup_take_lt; [done|]. pose proof (Z.div_lt_upper_bound j BS k). pose proof (Z.div_pos j BS). lia.
  - rewrite lookup_take_ge; [done|]. pose proof (Z.div_le_lower_bound j BS k). lia.
Qed.

Lemma shrunk_cnt k al s b c : 0 <= k -> cnt (shrunk k al s) b = Some c -> cnt s b = Some c /\ b < k.
Proof.
  intros Hk. unfold cnt. rewrite (proj1 (shrunk_fields k al s)). destruct (Z.ltb_spec b 0) as [|Hb]; [done|].
  rewrite lookup_take. case_decide; [|done]. split; [done|lia].
Qed.

Lemma shrunk_array k al s :
  array_ok s -> 0 <= k -> BS * k < ui32TotalHandCount s -> array_ok (shrunk k al s).
Proof.
  intros [A1 A2 A3 A4 A5] Hk Hlt. pose proof BS_range as Hbs.
  destruct (shrunk_fields k al s) as (F1 & _ & F3 & F4 & _). constructor; rewrite ?F1, ?F3, ?F4; try done; [| |lia].
  - rewrite length_take. f_equal. nia.
  - intros ix Hix. apply A2. apply elem_of_take in Hix as (? & ?%list_elem_of_lookup_2 & _). done.
Qed.

(** A block whose count is full has free structures only. *)
Lemma full_block s fl bl first b :
  pool [] s fl bl first -> in_block b fl = BS -> forall i, i / BS = b -> i ∈ fl.
Proof.
  intros P Hb i Hi. pose proof BS_range as Hbs. unfold in_block in Hb.
  assert (filter (fun j => j / BS = b) fl ⊆+ seqZ (BS * b) BS) as Hsub.
  { apply NoDup_submseteq; [apply NoDup_filter, P|]. intros j [Hj _]%list_elem_of_filter. apply elem_of_seqZ.
    pose proof (Z.div_mod j BS). pose proof (Z.mod_pos_bound j BS). lia. }
  apply submseteq_length_Permutation in Hsub; [|rewrite length_seqZ; lia].
  assert (i ∈ seqZ (BS * b) BS) as Hin.
  { apply elem_of_seqZ. pose proof (Z.div_mod i BS). pose proof (Z.mod_pos_bound i BS). lia. }
  rewrite <- Hsub in Hin. by apply list_elem_of_filter in Hin as [_ ?].
Qed.

(** The free structures below [n], when all from [n] on are free. *)
Lemma length_free_below (fl : list Z) n total :
  NoDup fl -> (forall i, i ∈ fl -> 0 <= i < total) -> 0 <= n <= total -> (forall i, n <= i < total -> i ∈ fl) ->
  Z.of_nat (length fl) = Z.of_nat (length (filter (fun i => i < n) fl)) + (total - n).
Proof.
  intros Hnd Hr Hn Hall.
  assert (filter (fun i => ~ i < n) fl ≡ₚ seqZ n (total - n)) as Hp.
  { apply NoDup_Permutation; [by apply NoDup_filter|apply NoDup_seqZ|]. intros i. rewrite list_elem_of_filter, elem_of_seqZ.
    split; [intros [? Hi%Hr]; lia|]. intros Hi. split; [lia|]. apply Hall. lia. }
  apply Permutation_length in Hp. rewrite length_seqZ in Hp.
  pose proof (Permutation_length (filter_app_complement (fun i => i < n) fl)) as Hs. rewrite length_app in Hs. lia.
Qed.

Lemma in_block_below b fl n : (forall i, i / BS = b -> i < n) -> in_block b (filter (fun i => i < n) fl) = in_block b fl.
Proof.
  intros Hb. unfold in_block. rewrite list_filter_filter. do 2 f_equal. apply list_filter_iff. intros i. naive_solver.
Qed.

(** The base after unused blocks were returned. *)
Section Shrink.
Context (s : PVRSRV_HANDLE_BASE H) (K : Z -> list Z) (fl : list Z) (m : gmap (list Z) Z) (k : Z) (al : list alloc_result).
Context (I : hinv [] s K fl [] (ui32FirstBatchIndexPlusOne s) m) (Hz : purge0 s) (Hpu : bPurgingEnabled s = true).
Context (Hk : 0 <= k) (Hlt : BS * k < ui32TotalHandCount s).
Context (Hfull : forall i, BS * k <= i < ui32TotalHandCount s -> i ∈ fl).

Let P := hi_pool _ _ _ _ _ _ _ I.

(** The structures that go are free and unmarked. *)
Lemma shrunk_gone j h : hnd s j = Some h -> BS * k <= j -> eType h = PVRSRV_HANDLE_TYPE_NONE /\ eInternalFlag h = 0.
Proof.
  intros Hj Hge. assert (is_Some (hnd s j)) as Hr%hnd_in_range by eauto; [|apply P].
  assert (j ∈ fl) as Hfl by (apply Hfull; lia). pose proof (po_links _ _ _ _ _ P) as Hl. rewrite Hpu in Hl.
  destruct Hl as (_ & _ & _ & _ & Hfree). split; [|by eapply Hfree].
  apply (po_fl _ _ _ _ _ P) in Hfl as (h' & ? & ? & _). by simplify_eq.
Qed.

Lemma shrunk_same j : tn (shrunk k al s) j = tn s j /\ ent (shrunk k al s) j = ent s j.
Proof.
  unfold tn, ent. rewrite shrunk_hnd by done. destruct (Z.ltb_spec j (BS * k)) as [|Hge]; [done|].
  destruct (hnd s j) as [h|] eqn:Hj; [|done]. destruct (shrunk_gone j h Hj Hge) as [Ht Hf]. cbn.
  unfold HANDLE_STRUCT_IS_FREE, is_none. by rewrite Ht, Hf.
Qed.

Lemma pool_shrunk : pool [] (shrunk k al s) (filter (fun i => i < BS * k) fl) [] (ui32FirstBatchIndexPlusOne s).
Proof.
  pose proof (po_array _ _ _ _ _ P) as Ha. pose proof (array_total_range _ Ha) as Htr. pose proof BS_range as Hbs.
  destruct (shrunk_fields k al s) as (F1 & F2 & F3 & F4 & F5 & F6 & F7 & F8 & F9 & F10).
  assert (forall j h, hnd (shrunk k al s) j = Some h -> hnd s j = Some h) as Hsub.
  { intros j h. rewrite shrunk_hnd by done. by destruct (j <? BS * k). }
  pose proof (pool_fl_length _ _ _ _ _ P) as Hlen. pose proof (po_links _ _ _ _ _ P) as Hl. rewrite Hpu in Hl.
  assert (0 <= BS * k <= ui32TotalHandCount s) as Hkr by lia.
  pose proof (length_free_below fl (BS * k) (ui32TotalHandCount s) (po_fl_nodup _ _ _ _ _ P)
    (fun i Hi => pool_fl_range _ _ _ _ _ _ P Hi) Hkr Hfull) as Hcount.
  pose proof P as [P1 P2 P3 P4 P5 P6 P7 P8 P9 P10 P11 P12]. constructor; try done.
  - by apply shrunk_array.
  - intros i h Hi. apply P2. by apply Hsub.
  - by apply NoDup_filter.
  - intros i. rewrite list_elem_of_filter, P4, shrunk_hnd by done. destruct (Z.ltb_spec i (BS * k)) as [|Hge]; [naive_solver|].
    split; [intros [? _]; lia|]. intros (? & ? & _). done.
  - rewrite F9, P5.
    assert (sub32 (ui32TotalHandCount s) (BS * k) = ui32TotalHandCount s - BS * k) as -> by (apply wrapU_small; lia).
    unfold sub32. rewrite wrapU_small by lia. lia.
  - intros b c Hc. apply shrunk_cnt in Hc as [Hc Hb]; [|done]. rewrite in_block_below; [by apply P6|].
    intros i <-. pose proof (Z.div_mod i BS). pose proof (Z.mod_pos_bound i BS). nia.
  - rewrite F8, Hpu. destruct Hl as (L1 & L2 & L3 & L4 & L5). specialize (F10 (Hz Hpu)). split; [congruence|].
    rewrite F10, F4. split; [lia|]. split; [done|]. split.
    + intros i [_ Hi]%list_elem_of_filter. apply (pool_fl_range _ _ _ _ _ _ P) in Hi. lia.
    + intros i h [_ Hi]%list_elem_of_filter Hh. apply (L5 i); [done|]. by apply Hsub.
  - intros i ?%elem_of_nil. done.
  - intros i h Hi. apply P11. by apply Hsub.
Qed.

Lemma hinv_shrunk : hinv [] (shrunk k al s) K (filter (fun i => i < BS * k) fl) [] (ui32FirstBatchIndexPlusOne s) m.
Proof.
  destruct (shrunk_fields k al s) as (F1 & F2 & _). pose proof (hinv_idle _ _ _ _ _ _ _ I) as Hi.
  pose proof I as [I1 I2 I3 I4 I5 I6]. constructor; [apply pool_shrunk| | | | |done].
  - eapply forest_ext; [exact I2|intros j; apply shrunk_same|done].
  - apply idle_hnd. intros i l. destruct (shrunk_same i) as [-> ->]. apply Hi.
  - by rewrite F2.
  - eapply keyed_ext; [exact I5|]. intros i _. apply shrunk_same.
Qed.

Lemma models_shrunk a :
  models_by K fl [] m s a ->
  models (shrunk k al s) (mk_abs (a_handles a) (a_batch a) (a_failures a) (a_purging a) (a_max a) (BS * k)).
Proof.
  intros [M1 M2 M3 M4 M5 M6 M7 M8 M9]. destruct (shrunk_fields k al s) as (F1 & F2 & F3 & F4 & F5 & F6 & F7 & F8 & F9 & F10).
  exists K, (filter (fun i => i < BS * k) fl), [], m. constructor; cbn; try congruence.
  - rewrite F6. apply hinv_shrunk.
  - intros E. apply F10, Hz, Hpu.
  - intros h. rewrite M3. symmetry. apply shrunk_same.
  - unfold HANDLES_BATCHED in *. by rewrite F5.
Qed.

End Shrink.

(** ** Purging *)

Lemma purge_scan_ok s n :
  (n <= length (psHandleArray s))%nat ->
  exists k, purge_scan n s = Ok (k, s) /\ 0 <= k <= Z.of_nat n /\
    forall b, k <= b < Z.of_nat n -> cnt s b = Some BS.
Proof.
  induction n as [|n IH]; intros Hn; [exists 0; split; [done|]; split; [lia|intros b; lia]|].
  destruct (lookup_lt_is_Some_2 (psHandleArray s) n) as [ix Hix]; [lia|].
  assert (rd (psHandleArray s) (Z.of_nat n) = Ok ix) as Erd.
  { unfold rd. rewrite (proj2 (Z.ltb_ge (Z.of_nat n) 0)) by lia. by rewrite Nat2Z.id, Hix. }
  cbn [purge_scan]. rewrite hb_base_bind. unfold mbind at 1, HB_bind, hb_lift. rewrite Erd.
  destruct (Z.eqb_spec (ui32FreeHandBlockCount ix) BS) as [E|E]; cbn [negb].
  - destruct (IH ltac:(lia)) as (k & Ek & Hk & Hall). exists k. split; [done|]. split; [lia|]. intros b Hb.
    destruct (decide (b = Z.of_nat n)) as [->|]; [|apply Hall; lia].
    unfold cnt. rewrite (proj2 (Z.ltb_ge (Z.of_nat n) 0)) by lia. rewrite Nat2Z.id, Hix. cbn. by rewrite E.
  - exists (Z.of_nat (S n)). split; [done|]. split; [lia|]. intros b. lia.
Qed.

Lemma models_set_allocs s a al : models s a -> models (set_allocs al s) a.
Proof.
  intros (K & fl & bl & m & [M1 M2 M3 M4 M5 M6 M7 M8 M9]). exists K, fl, bl, m. constructor; try done.
  eapply hinv_same; [exact M1|apply same_set_allocs|]. apply pool_set_allocs, M1.
Qed.

(** The scan finds where the last run of free blocks starts. *)
Lemma purge_target s fl bl first :
  pool [] s fl bl first ->
  exists k, purge_scan (Z.to_nat (DIVIDE_BY_BLOCK_SIZE (ui32TotalHandCount s))) s = Ok (k, s) /\
    0 <= k /\ MULTIPLY_BY_BLOCK_SIZE k = BS * k /\ BS * k <= ui32TotalHandCount s /\
    forall i, BS * k <= i < ui32TotalHandCount s -> i ∈ fl.
Proof.
  intros P. pose proof (po_array _ _ _ _ _ P) as Ha. pose proof BS_range as Hbs.
  pose proof (array_total_range _ Ha) as Htr. pose proof (ao_total _ Ha) as Htot.
  assert (DIVIDE_BY_BLOCK_SIZE (ui32TotalHandCount s) = Z.of_nat (length (psHandleArray s))) as ->
    by (rewrite block_div, Htot, Z.mul_comm, Z.div_mul; lia).
  rewrite Nat2Z.id. destruct (purge_scan_ok s (length (psHandleArray s))) as (k & Ek & Hk & Hall); [lia|].
  exists k. split; [done|]. split; [lia|]. split; [|split; [nia|]].
  - unfold MULTIPLY_BY_BLOCK_SIZE. rewrite Z.shiftl_mul_pow2 by (pose proof block_shift_range; lia). rewrite <- BS_pow.
    rewrite wrapU_small by nia. lia.
  - intros i Hi. eapply full_block; [exact P| |reflexivity]. symmetry. eapply po_cnt; [exact P|]. apply Hall.
    assert (BS <> 0) as Hb0 by lia. assert (0 < BS) as Hb1 by lia.
    pose proof (Z.div_mod i BS Hb0). pose proof (Z.mod_pos_bound i BS Hb1). nia.
Qed.

Lemma Realloc_same s : ReallocHandleArray (ui32TotalHandCount s) s = Ok (PVRSRV_OK, s).
Proof. unfold ReallocHandleArray, mbind, HB_bind, base. by rewrite Z.eqb_refl. Qed.

Lemma purged_spec a n :
  a_purging a = true -> a_batch a = None -> 0 <= n <= a_total a ->
  spec OpPurge a PVRSRV_OK VNone (mk_abs (a_handles a) (a_batch a) (a_failures a) (a_purging a) (a_max a) n).
Proof.
  intros Hp Hb Hn. split; [done|]. rewrite Hp. cbn [negb]. rewrite bool_decide_true by done. cbn [negb].
  right. split; [done|]. by exists n.
Qed.

Lemma Purge_ok : meets (H := H) OpPurge.
Proof.
  intros s a Hm _. pose proof Hm as (K & fl & bl & m & M). pose proof (mo_inv _ _ _ _ _ _ M) as I.
  pose proof (hi_pool _ _ _ _ _ _ _ I) as P. pose proof (mo_batch _ _ _ _ _ _ M) as Hb. pose proof (models_array M) as Ha.
  pose proof (array_total_range _ Ha) as Htr. pose proof BS_range as Hbs.
  cut (exists e s' a', PVRSRVPurgeHandles s = Ok (e, s') /\ spec OpPurge a e VNone a' /\ models s' a').
  { intros (e & s' & a' & E & ?). eexists _, _, s', a'. split; [by apply answer_run|done]. }
  unfold PVRSRVPurgeHandles. rewrite hb_base_bind, <- (mo_purging _ _ _ _ _ _ M).
  destruct (a_purging a) eqn:Hpa; cbn [negb]; [|eexists _, s, a; split; [done|]; cbn; by rewrite Hpa].
  assert (bPurgingEnabled s = true) as Hpu by (by rewrite <- (mo_purging _ _ _ _ _ _ M)).
  rewrite hb_base_bind. destruct (HANDLES_BATCHED s) eqn:Eb; [by rewrite (batched_not_purging _ _ _ _ _ P Eb) in Hpu|].
  assert (bl = []) as -> by (by apply (po_batch _ _ _ _ _ P)).
  rewrite hb_base_bind. destruct (purge_target s fl [] _ P) as (k & Ek & Hk & Emul & Hkt & Hfull). hb_run Ek. rewrite Emul.
  assert (0 <= a_total a <= a_total a) as Hstay by (rewrite (mo_total _ _ _ _ _ _ M); lia).
  apply (purged_spec a _ Hpa Hb) in Hstay. replace (mk_abs _ _ _ _ _ (a_total a)) with a in Hstay by (by destruct a).
  destruct (Z.leb_spec (BS * k) (ui32TotalHandCount s / 2)) as [Hle|Hgt]; [|by exists PVRSRV_OK, s, a].
  destruct (decide (BS * k = ui32TotalHandCount s)) as [Eq|Hne].
  { rewrite Eq. hb_run (Realloc_same s). by exists PVRSRV_OK, s, a. }
  destruct (Realloc_shrink_run s k Ha Hk ltac:(lia) ltac:(auto)) as (al & [[_ E]|E]); hb_run E.
  - exists PVRSRV_ERROR_OUT_OF_MEMORY, (set_allocs al s), a. split; [done|]. split; [|by apply models_set_allocs].
    cbn. rewrite Hpa, bool_decide_true by done. split; [done|]. by left.
  - eexists PVRSRV_OK, (shrunk k al s), _. split; [done|]. split.
    + apply purged_spec; [done|done|]. instantiate (1 := BS * k). rewrite (mo_total _ _ _ _ _ _ M). nia.
    + eapply (models_shrunk s K fl m k al); try done; [apply M|lia].
Qed.

End Purge.
