(* ===== verification/PvrHandleClose.v ===== *)
(** * Creating and deleting handle bases

    A new base models the empty state; deleting a base frees every handle, so
    that its hash table is empty when it goes. *)

From stdpp Require Import base list numbers option gmap relations.
From Stdlib Require Import ZArith Lia.
From S2P Require Import Prelude PvrHash PvrHashFacts PvrHandleMap PvrHandle PvrHandleArray.
From S2P Require Import PvrHandleForest PvrHandlePool PvrHandlePick.
From S2P Require Import PvrHandleFree PvrHandleAlloc PvrHandleSpec PvrHandleClient.
From S2P Require Import PvrHandleBatch.

Local Open Scope Z_scope.

Section Close.
Context {H : Type} {HM : HandleMap H} {BSH : BlockShift}.

Implicit Types s : PVRSRV_HANDLE_BASE H.
Abbreviation BS := HANDLE_BLOCK_SIZE.

(** ** Freeing all handles *)

(** When every structure is free there is no handle. *)
Lemma all_free_empty D s fl bl first :
  pool D s fl bl first -> ui32FreeHandCount s = ui32TotalHandCount s -> forall j, ent s j = None.
Proof.
  intros P Hc j. destruct (ent s j) as [x|] eqn:Hx; [|done]. apply ent_Some in Hx as (h & Hh & Ht & _).
  pose proof (array_total_range _ (po_array _ _ _ _ _ P)) as Htr.
  assert (fl ⊆+ seqZ 0 (ui32TotalHandCount s)) as Hsub.
  { apply NoDup_submseteq; [apply P|]. intros i Hi%(pool_fl_range _ _ _ _ _ _ P). apply elem_of_seqZ. lia. }
  apply submseteq_length_Permutation in Hsub; [|rewrite length_seqZ; rewrite (po_count _ _ _ _ _ P) in Hc; lia].
  assert (j ∈ seqZ 0 (ui32TotalHandCount s)) as Hin.
  { apply elem_of_seqZ. assert (is_Some (hnd s j)) as Hr%hnd_in_range by eauto; [lia|apply P]. }
  rewrite <- Hsub in Hin. apply (po_fl _ _ _ _ _ P) in Hin as (h' & ? & ? & _). by simplify_eq.
Qed.

Lemma free_all_loop_ok n : forall s K fl m i,
  hinv [] s K fl [] 0 m -> purge0 s -> 0 <= i -> (forall j, j < i -> ent s j = None) ->
  ui32TotalHandCount s <= i + Z.of_nat n ->
  exists s' K' fl' m', free_all_loop n i s = Ok (PVRSRV_OK, s') /\ hinv [] s' K' fl' [] 0 m' /\
    batch_frame s s' /\ forall j, ent s' j = None.
Proof.
  induction n as [|n IH]; intros s K fl m i I Hz Hi Hnone Hn; pose proof (hi_pool _ _ _ _ _ _ _ I) as P;
    pose proof (po_array _ _ _ _ _ P) as Ha; pose proof (array_total_range _ Ha) as Htr; cbn [free_all_loop];
    rewrite hb_base_bind; destruct (Z.ltb_spec i (ui32TotalHandCount s)) as [Hlt|Hge]; cbn [negb]; try lia.
  1, 3: exists s, K, fl, m; split_and!; try done; intros j; destruct (ent s j) as [x|] eqn:Hx; [|done];
    pose proof Hx as (h & Hh & _)%ent_Some; assert (is_Some (hnd s j)) as Hr%hnd_in_range by eauto; [|done];
    rewrite Hnone in Hx by lia; done.
  destruct (proj2 (hnd_in_range s i Ha)) as [h Hh]; [lia|]. hb_run (hload_ok eType s i h Hh).
  replace (add32 i 1) with (i + 1) by (symmetry; apply wrapU_small; lia). unfold is_none.
  destruct (bool_decide_reflect (eType h = PVRSRV_HANDLE_TYPE_NONE)) as [Ht|Ht].
  - apply (IH s K fl m (i + 1)); try done; [lia| |lia]. intros j Hj. destruct (decide (j = i)) as [->|]; [|apply Hnone; lia].
    unfold ent, is_none. rewrite Hh. cbn. by rewrite bool_decide_true.
  - assert (exists x, ent s i = Some x) as [x Hx] by (eexists; apply ent_Some; eauto).
    destruct (live_tn _ _ _ Hx) as (l & Hl & _). destruct (fo_post _ _ (hi_forest _ _ _ _ _ _ _ I) i) as [lp Hlp]; [by eauto|].
    destruct (Free_Handle_ok s K fl [] 0 m i x lp I Hx Hlp Hz) as (s1 & fl1 & m1 & E1 & I1 & Fr & _).
    hb_run E1. change (PVRSRV_OK =? PVRSRV_OK) with true. cbn [negb]. rewrite hb_base_bind.
    destruct (Z.eqb_spec (ui32FreeHandCount s1) (ui32TotalHandCount s1)) as [Ec|Ec].
    + exists s1, (prune lp K), fl1, m1. split; [done|]. split; [done|]. split; [by eapply freed_frame|].
      by eapply all_free_empty; [apply I1|].
    + destruct (IH s1 _ _ _ (i + 1) I1) as (s2 & K2 & fl2 & m2 & E2 & I2 & F2 & He2); [|lia| | |].
      * by apply (fd_purge0 _ _ _ _ _ Fr).
      * intros j Hj. rewrite (fd_ent _ _ _ _ _ Fr). case_decide as Hin; [done|].
        destruct (decide (j = i)) as [->|]; [destruct Hin; by eapply post_self|]. apply Hnone. lia.
      * rewrite (fd_total _ _ _ _ _ Fr). lia.
      * exists s2, K2, fl2, m2. split; [done|]. split; [done|]. split; [|done].
        transitivity s1; [by eapply freed_frame|done].
Qed.

Lemma FreeAllHandles_ok s K fl m :
  hinv [] s K fl [] 0 m -> purge0 s ->
  exists s' K' fl' m', FreeAllHandles s = Ok (PVRSRV_OK, s') /\ hinv [] s' K' fl' [] 0 m' /\ forall j, ent s' j = None.
Proof.
  intros I Hz. pose proof (hi_pool _ _ _ _ _ _ _ I) as P. unfold FreeAllHandles. rewrite hb_base_bind.
  destruct (Z.eqb_spec (ui32FreeHandCount s) (ui32TotalHandCount s)) as [Ec|Ec].
  - exists s, K, fl, m. split; [done|]. split; [done|]. by eapply all_free_empty.
  - rewrite hb_base_bind. destruct (free_all_loop_ok (handle_fuel s) s K fl m 0 I Hz) as (s' & K' & fl' & m' & E & I' & _ & He).
    + lia.
    + intros j Hj. destruct (ent s j) as [x|] eqn:Hx; [|done]. apply ent_Some in Hx as (h & Hh & _).
      assert (is_Some (hnd s j)) as Hr%hnd_in_range by eauto; [lia|apply P].
    + unfold handle_fuel. lia.
    + by exists s', K', fl', m'.
Qed.

Lemma FreeHandleArray_ok s :
  array_ok s -> exists s', FreeHandleArray s = Ok (PVRSRV_OK, s') /\ psHashTab s' = psHashTab s.
Proof.
  intros Ha. unfold FreeHandleArray. pose proof (array_total_range _ Ha) as Htr.
  destruct (decide (ui32TotalHandCount s = 0)) as [E|E]; [exists s; split; [rewrite <- E; apply Realloc_same|done]|].
  assert (0 <= 0) as H0 by lia. assert (BS * 0 < ui32TotalHandCount s) as Hlt by lia.
  destruct (Realloc_shrink_run s 0 Ha H0 Hlt ltac:(auto)) as (al & [[? _]|Er]); [done|].
  rewrite Z.mul_0_r in Er. exists (shrunk 0 al s). split; [exact Er|]. by destruct (shrunk_fields 0 al s) as (_ & ? & _).
Qed.

(** A table without handles has no keys. *)
Lemma keyed_empty e m : keyed [] e m -> (forall j, e j = None) -> m = ∅.
Proof.
  intros [_ K2] He. apply map_eq. intros k. rewrite lookup_empty. destruct (m !! k) as [v|] eqn:E; [|done].
  destruct (K2 k v E) as (i & x & _ & Hx & _). rewrite He in Hx. done.
Qed.

Lemma FreeHandleBase_ok s a : models s a -> exists s', FreeHandleBase s = Ok (PVRSRV_OK, false, s').
Proof.
  intros Hm. unfold FreeHandleBase. rewrite hb_base_bind.
  assert (exists s1 K fl m, hb_when (HANDLES_BATCHED s) PVRSRVReleaseHandleBatch s = Ok (tt, s1) /\
    hinv [] s1 K fl [] 0 m /\ purge0 s1) as (s1 & K & fl & m & E1 & I1 & Hz1).
  { assert (forall s a, models s a -> HANDLES_BATCHED s = false -> exists K fl m, hinv [] s K fl [] 0 m /\ purge0 s) as Hun.
    { intros s0 a0 (K & fl & bl & m & M) Eb. pose proof (mo_inv _ _ _ _ _ _ M) as I. pose proof (hi_pool _ _ _ _ _ _ _ I) as P.
      assert (bl = []) as -> by (by apply (po_batch _ _ _ _ _ P)). pose proof (po_chain _ _ _ _ _ P) as Hc. cbn in Hc.
      rewrite Hc in I. exists K, fl, m. split; [done|]. apply M. }
    destruct (HANDLES_BATCHED s) eqn:Eb; cbn [hb_when]; [|destruct (Hun s a Hm Eb) as (K & fl & m & ? & ?); by exists s, K, fl, m].
    pose proof Hm as (K0 & fl0 & bl0 & m0 & M0). pose proof (mo_batch _ _ _ _ _ _ M0) as Hb. rewrite Eb in Hb.
    destruct (end_batch_ok false s a _ Hm Hb) as (s1 & a1 & E & (A' & Hbc & _) & Hm1).
    assert (HANDLES_BATCHED s1 = false) as Eb1.
    { destruct Hm1 as (K1 & fl1 & bl1 & m1 & M1). pose proof (mo_batch _ _ _ _ _ _ M1) as Hb1.
      rewrite (bc_batch _ _ _ _ _ Hbc) in Hb1. by destruct (HANDLES_BATCHED s1). }
    destruct (Hun s1 a1 Hm1 Eb1) as (K & fl & m & ? & ?). exists s1, K, fl, m.
    split; [unfold PVRSRVReleaseHandleBatch; by hb_run E|done]. }
  hb_run E1. destruct (FreeAllHandles_ok s1 K fl m I1 Hz1) as (s2 & K2 & fl2 & m2 & E2 & I2 & He). hb_run E2.
  change (PVRSRV_OK =? PVRSRV_OK) with true. cbn [negb].
  destruct (FreeHandleArray_ok s2 (po_array _ _ _ _ _ (hi_pool _ _ _ _ _ _ _ I2))) as (s3 & E3 & Eh). hb_run E3.
  change (PVRSRV_OK =? PVRSRV_OK) with true. cbn [negb]. rewrite hb_base_bind, Eh.
  destruct (hi_hash _ _ _ _ _ _ _ I2) as (t & -> & Hrep). rewrite (hm_leaks_ok t m2 Hrep).
  rewrite (keyed_empty _ _ (hi_keyed _ _ _ _ _ _ _ I2) He), map_size_empty. by exists s3.
Qed.

(** ** New bases *)

Definition empty_abs (purging : bool) : abs := mk_abs (fun _ => None) None 0 purging DEFAULT_MAX_INDEX_PLUS_ONE 0.

Lemma default_max_range : 0 < DEFAULT_MAX_INDEX_PLUS_ONE <= DEFAULT_MAX_HANDLE /\ DEFAULT_MAX_INDEX_PLUS_ONE mod BS = 0.
Proof.
  pose proof BS_range as Hbs. unfold DEFAULT_MAX_INDEX_PLUS_ONE, DEFAULT_MAX_HANDLE. rewrite round_down_eq by lia.
  assert (BS <> 0) as Hb0 by lia. pose proof (Z.div_mod 0x7fffffff BS Hb0) as Hd.
  assert (0 < BS) as Hb1 by lia. pose proof (Z.mod_pos_bound 0x7fffffff BS Hb1) as Hm.
  split; [lia|]. rewrite Z.mul_comm. apply Z.mod_mul. lia.
Qed.

Lemma new_base_models al t :
  hm_rep t ∅ ->
  models (set_ui32MaxIndexPlusOne DEFAULT_MAX_INDEX_PLUS_ONE (set_psHashTab (Some t) (set_allocs al (zero_base []))))
    (empty_abs false).
Proof.
  intros Hrep. pose proof default_max_range as [Hm Hmod]. set (s := set_ui32MaxIndexPlusOne _ _).
  assert (forall i, hnd s i = None) as Hh by (intros i; unfold hnd; by destruct (i <? 0)).
  assert (forall i, tn s i = None) as Ht by (intros i; unfold tn; by rewrite Hh).
  assert (forall i, ent s i = None) as He by (intros i; unfold ent; by rewrite Hh).
  exists (fun _ => []), [], [], ∅. constructor; try done.
  - constructor; [constructor| | | | |].
    + constructor; cbn; try done; [lia|intros ix ?%elem_of_nil; done|lia].
    + intros i h. by rewrite Hh.
    + constructor.
    + intros i. rewrite Hh. split; [intros ?%elem_of_nil; done|]. by intros (? & ? & _).
    + done.
    + intros b c. unfold cnt. by destruct (b <? 0).
    + done.
    + constructor.
    + intros i ?%elem_of_nil. done.
    + done.
    + intros i h. by rewrite Hh.
    + done.
    + constructor; intros *; rewrite ?Ht; try done; by intros [? ?].
    + intros i h. by rewrite Hh.
    + by exists t.
    + constructor; intros *; [by rewrite He|by rewrite lookup_empty].
    + by rewrite map_size_empty.
Qed.

(** The answers of [PVRSRVAllocHandleBase]. *)
Lemma AllocHandleBase_ok al :
  exists e b, PVRSRVAllocHandleBase al = Ok (e, b) /\
    ((b = None /\ (e = PVRSRV_ERROR_OUT_OF_MEMORY \/ e = PVRSRV_ERROR_UNABLE_TO_CREATE_HASH_TABLE)) \/
     (e = PVRSRV_OK /\ exists s, b = Some s /\ models s (empty_abs false))).
Proof.
  destruct (alloc_ok_run (H := H) (zero_base al)) as (b0 & al0 & E0).
  destruct (alloc_ok_run (H := H) (set_allocs al0 (zero_base al))) as (b1 & al1 & E1).
  destruct (alloc_ok_run (H := H) (set_allocs al1 (zero_base al))) as (b2 & al2 & E2).
  unfold PVRSRVAllocHandleBase. rewrite E0. cbn [mbind outcome_bind]. destruct b0; cbn [negb]; [|eexists _, _; split; [done|]; auto].
  rewrite E1. cbn [mbind outcome_bind]. change (set_allocs al1 (set_allocs al0 (zero_base al))) with (set_allocs (H := H) al1 (zero_base al)).
  rewrite E2. cbn [mbind outcome_bind]. pose proof (hm_create_ok b1 b2) as Hc. destruct (hm_create b1 b2) as [t|].
  - eexists _, _. split; [done|]. right. split; [done|]. eexists. split; [done|]. apply (new_base_models al2 t), Hc.
  - eexists _, _. split; [reflexivity|]. auto.
Qed.

(** The base of the kernel purges. *)
Lemma HandleInit_ok al :
  exists e b, PVRSRVHandleInit al = Ok (e, b) /\
    ((b = None /\ (e = PVRSRV_ERROR_OUT_OF_MEMORY \/ e = PVRSRV_ERROR_UNABLE_TO_CREATE_HASH_TABLE)) \/
     (e = PVRSRV_OK /\ exists s, b = Some s /\ models s (empty_abs true))).
Proof.
  destruct (AllocHandleBase_ok al) as (e & b & E & Hb). unfold PVRSRVHandleInit. rewrite E. cbn [mbind outcome_bind].
  destruct Hb as [[-> He]|(-> & s & -> & Hm)]; [eexists e, None; split; [done|]; by left|].
  assert (HANDLES_BATCHED s = false) as Eb.
  { destruct Hm as (K & fl & bl & m & M). pose proof (mo_batch _ _ _ _ _ _ M) as Hb. by destruct (HANDLES_BATCHED s). }
  destruct (EnablePurging_ok s _ Hm Eb) as (e & v & s' & a' & Ee & Hs & Hm').
  cbn in Hs. destruct Hs as (-> & -> & ->). unfold exec, answer, mbind, HB_bind in Ee.
  destruct (PVRSRVEnableHandlePurging s) as [[e0 s0]|]; [|done]. injection Ee as -> ->.
  eexists _, _. split; [reflexivity|]. right. split; [done|]. by exists s'.
Qed.

End Close.
