(* ===== verification/PvrHandleTheorems.v ===== *)
(** * The handle table: theorems

    Every admissible sequence of calls on a handle base, over the hash tables of
    hash.c, runs to its end and answers as the abstract specification says; what
    this means for lookups, types, subhandles, releases and the deletion of a
    base; and the runs in which the code does not do what it means to. *)

From stdpp Require Import base list numbers option gmap relations.
From Stdlib Require Import ZArith Lia.
From S2P Require Import Prelude PvrHash PvrHashFacts PvrHandleMap PvrHandle PvrHandleArray.
From S2P Require Import PvrHandleForest PvrHandlePool PvrHandlePick.
From S2P Require Import PvrHandleFree PvrHandleAlloc PvrHandleSpec PvrHandleClient.
From S2P Require Import PvrHandleBatch PvrHandleClose.

Local Open Scope Z_scope.

(** A handle base with a table of hash.c. *)
Abbreviation handle_base := (PVRSRV_HANDLE_BASE HASH_TABLE).

Section Theorems.
Context {BSH : BlockShift}.

Implicit Types s : handle_base.

(** ** Sequences of calls *)

Lemma every_op_meets {H} {HM : HandleMap H} o : meets (H := H) o.
Proof.
  destruct o; [apply Alloc_ok|apply AllocSub_ok|apply Find_ok|apply LookupAny_ok|apply Lookup_ok|apply LookupSub_ok|
    apply GetParent_ok|apply LookupAndRelease_ok|apply Release_ok|apply NewBatch_ok|apply CommitBatch_ok|
    apply ReleaseBatch_ok|apply SetMax_ok|apply EnablePurging_ok|apply Purge_ok].
Qed.

Fixpoint exec_all (ops : list op) : HB (H := HASH_TABLE) (list (Z * value)) :=
  match ops with
  | [] => mret []
  | o :: ops => r ← exec o; rs ← exec_all ops; mret (r :: rs)
  end.

(** Every call of the sequence is admissible in the state that it is made in. *)
Fixpoint admissible_all (ops : list op) s : Prop :=
  match ops with
  | [] => True
  | o :: ops => admissible o s /\ match exec o s with Ok (_, s') => admissible_all ops s' | Fault _ => True end
  end.

Inductive spec_all : list op -> abs -> list (Z * value) -> abs -> Prop :=
| spec_nil a : spec_all [] a [] a
| spec_cons o ops a e v a1 rs a' :
    spec o a e v a1 -> spec_all ops a1 rs a' -> spec_all (o :: ops) a ((e, v) :: rs) a'.

Lemma exec_all_meets ops : forall s a, models s a -> admissible_all ops s ->
  exists rs s' a', exec_all ops s = Ok (rs, s') /\ spec_all ops a rs a' /\ models s' a'.
Proof.
  induction ops as [|o ops IH]; intros s a Hm Hadm; [exists [], s, a; split; [done|]; split; [constructor|done]|].
  destruct Hadm as [Ho Hrest]. destruct (every_op_meets o s a Hm Ho) as (e & v & s1 & a1 & E & Hs & Hm1). rewrite E in Hrest.
  destruct (IH s1 a1 Hm1 Hrest) as (rs & s' & a' & Er & Hss & Hm'). exists ((e, v) :: rs), s', a'.
  cbn [exec_all]. hb_run E. hb_run Er. split; [done|]. split; [|done]. by econstructor.
Qed.

(** The bases that calls lead to. *)
Inductive reachable : handle_base -> Prop :=
| reach_new al s : PVRSRVAllocHandleBase al = Ok (PVRSRV_OK, Some s) -> reachable s
| reach_init al s : PVRSRVHandleInit al = Ok (PVRSRV_OK, Some s) -> reachable s
| reach_step o s r s' : reachable s -> admissible o s -> exec o s = Ok (r, s') -> reachable s'.

Lemma reachable_models s : reachable s -> exists a, models s a.
Proof.
  induction 1 as [al s E|al s E|o s r s' _ [a IH] Hadm E].
  - destruct (AllocHandleBase_ok (H := HASH_TABLE) al) as (e & b & E' & Hb). rewrite E' in E. injection E as -> ->.
    destruct Hb as [[? _]|(_ & s0 & [= <-] & ?)]; [done|by eexists].
  - destruct (HandleInit_ok (H := HASH_TABLE) al) as (e & b & E' & Hb). rewrite E' in E. injection E as -> ->.
    destruct Hb as [[? _]|(_ & s0 & [= <-] & ?)]; [done|by eexists].
  - destruct (every_op_meets o s a IH Hadm) as (e & v & s1 & a1 & E1 & _ & Hm1). rewrite E1 in E. injection E as _ <-. by eexists.
Qed.

(** The handles of a base. *)
Definition handles s : Z -> option entry := fun h => ent s (h - 1).

(** A base models its own view. *)
Lemma reachable_view s : reachable s -> exists bl, models s (view bl s) /\ (HANDLES_BATCHED s = false -> bl = []).
Proof.
  intros (a & K & fl & bl & m & M)%reachable_models. exists bl. split.
  - eapply models_view; [apply M|apply M|apply M].
  - apply (po_batch _ _ _ _ _ (hi_pool _ _ _ _ _ _ _ (mo_inv _ _ _ _ _ _ M))).
Qed.

Lemma answer_inv {A} (c : HB (H := HASH_TABLE) A) f s r s' e v s1 :
  answer c f s = Ok (e, v, s1) -> c s = Ok (r, s') -> f r = (e, v) /\ s1 = s'.
Proof. intros E Ec. rewrite (answer_run c f s r s' Ec) in E. injection E as <- <- <-. by destruct (f r). Qed.

(** ** Refinement *)

(** C4: from a new handle base, every sequence of the fifteen calls of handle.c
    on a base, for every outcome of the allocations, returns without an access
    outside the handle array, and its answers and its last state are those of
    the abstract specification from the empty state. Each call keeps to the
    conditions of [admissible] in the state that it is made in: its numbers are
    32-bit words, a new handle has a type and finds fewer than 2^30 in the base,
    and a batch is opened neither in a base with purging nor, while position 0
    is free, for more handles than are free (where handle.c loses the free
    list); [admissible_all] asks for nothing of a call that does not return. *)
Theorem handle_ops_refine al s0 ops :
  PVRSRVAllocHandleBase al = Ok (PVRSRV_OK, Some s0) -> admissible_all ops s0 ->
  exists rs s' a', exec_all ops s0 = Ok (rs, s') /\ spec_all ops (empty_abs false) rs a' /\ models s' a'.
Proof.
  intros E Hadm. destruct (AllocHandleBase_ok (H := HASH_TABLE) al) as (e & b & E' & Hb). rewrite E' in E. injection E as -> ->.
  destruct Hb as [[? _]|(_ & s & [= <-] & Hm)]; [done|]. by apply exec_all_meets.
Qed.

(** C23: in every base that calls lead to, the free list links exactly the free
    structures, the block counts and totals agree with it, the list of the batch
    and the sibling rings are intact and acyclic, and the hash table holds
    exactly the keys of the handles that are entered once. *)
Theorem handle_base_invariant s :
  reachable s -> exists K fl bl m, hinv [] s K fl bl (ui32FirstBatchIndexPlusOne s) m /\ purge0 s.
Proof. intros (a & K & fl & bl & m & M)%reachable_models. exists K, fl, bl, m. split; apply M. Qed.

(** ** Allocation and lookup *)

(** The entry of a handle that was just handed out. *)
Lemma alloc_spec_entry data type flag a h a' :
  alloc_spec data type flag 0 None a PVRSRV_OK h a' ->
  exists x, a_handles a' h = Some x /\ e_type x = type /\ e_data x = data /\
    (TEST_FLAG flag PVRSRV_HANDLE_ALLOC_FLAG_MULTI = false -> finds a' (InitKey data type 0) h).
Proof.
  inversion 1 as [h0 x Hmu Hf Hx Hsh _| |e a0 _ He _|h0 a0 Hmiss Hfresh Hr Hb]; subst.
  - exists x. split; [done|]. pose proof Hf as (x' & Hx' & _ & Hk). assert (x' = x) as -> by congruence.
    unfold key_of, InitKey in Hk. injection Hk as Ed Et _. apply type_code_inj in Et. done.
  - by destruct He.
  - eexists. rewrite (bc_handles _ _ _ _ _ Hb). unfold with_entry. rewrite decide_True by done. split; [done|].
    split; [done|]. split; [done|]. intros Hmu. eexists. rewrite (bc_handles _ _ _ _ _ Hb). unfold with_entry.
    rewrite decide_True by done. split; [done|]. split; [done|]. unfold key_of. by destruct (private _).
Qed.

(** A handle that an allocation returns is within the limit of the base,
    leads back to its data under its type, and is found again by data and type
    unless several handles for the same data were asked for. *)
Theorem handle_alloc_lookup s data type flag h s' :
  reachable s -> admissible (OpAlloc data type flag) s ->
  PVRSRVAllocHandle data type flag s = Ok (PVRSRV_OK, h, s') ->
  1 <= h <= ui32MaxIndexPlusOne s' /\ PVRSRVLookupHandle h type s' = Ok (PVRSRV_OK, Some data, s') /\
  (TEST_FLAG flag PVRSRV_HANDLE_ALLOC_FLAG_MULTI = false -> PVRSRVFindHandle data type s' = Ok (PVRSRV_OK, Some h, s')).
Proof.
  intros (a & Hm)%reachable_models Hadm E. destruct (Alloc_ok data type flag s a Hm Hadm) as (e & v & s1 & a' & Ee & Hs & Hm').
  destruct (answer_inv _ _ _ _ _ _ _ _ Ee E) as [[= <- <-] ->]. destruct Hs as (h' & [= <-] & Hs).
  pose proof Hm' as (K & fl & bl & m & M'). destruct (alloc_spec_entry _ _ _ _ _ _ Hs) as (x & Hx & <- & <- & Hf).
  pose proof (handle_range M' h x Hx) as Hr. pose proof (models_total M') as Ht. rewrite (mo_max _ _ _ _ _ _ M') in Ht.
  assert (word h) as Hw by (unfold word; lia). split; [lia|]. split.
  - destruct (access_cases _ _ _ _ _ _ h (e_type x) M' Hw) as [(e & Ec & Hne & _)|(x' & hh & _ & Eg & Hx' & _ & Hh & Ex & _)].
    + rewrite (live_check M' h x (e_type x) Hx) in Ec by auto. congruence.
    + assert (x' = x) as -> by congruence. unfold PVRSRVLookupHandle. hb_run Eg. change (PVRSRV_OK =? PVRSRV_OK) with true.
      cbn [negb]. hb_run (hload_ok pvData s' _ hh Hh). by rewrite Ex.
  - intros Hmu. destruct (FindHandle_ok M' (e_data x) (e_type x) 0) as (h' & Eh & [(Hk & _ & H1)|(Hk & _)]).
    + apply Hf in Hmu. apply (finds_key M') in Hmu. rewrite Hk in Hmu. injection Hmu as ->.
      unfold PVRSRVFindHandle. hb_run Eh. by rewrite (proj2 (Z.eqb_neq h 0)) by lia.
    + apply Hf, (finds_key M') in Hmu. congruence.
Qed.

(** C26: a lookup under a type gives the data of the handle when it was allocated
    with that type, and otherwise the type mismatch, and no data. *)
Theorem handle_type_checked s h x type :
  reachable s -> handles s h = Some x -> type <> PVRSRV_HANDLE_TYPE_NONE ->
  PVRSRVLookupHandle h type s =
    Ok (if decide (type = e_type x) then (PVRSRV_OK, Some (e_data x)) else (PVRSRV_ERROR_HANDLE_TYPE_MISMATCH, None), s).
Proof.
  intros (bl & (K & fl & bl' & m & M) & _)%reachable_view Hx Hty. change (a_handles (view bl s) h = Some x) in Hx.
  pose proof (handle_range M h x Hx) as Hr. pose proof (models_total M) as Ht.
  assert (word h) as Hw by (unfold word; lia). unfold PVRSRVLookupHandle.
  destruct (access_cases _ _ _ _ _ _ h type M Hw) as [(e & Ec & Hne & Eg)|(x' & hh & _ & Eg & Hx' & _ & Hh & Ex & Ht')]; hb_run Eg.
  - rewrite (proj2 (Z.eqb_neq _ _) Hne). cbn [negb]. unfold check in Ec.
    rewrite (proj2 (Z.leb_le 1 h)), (proj2 (Z.leb_le h (a_total (view bl s)))), Hx in Ec by lia. cbn [andb] in Ec.
    destruct (decide (type = e_type x)) as [->|Hn].
    + rewrite (bool_decide_true (e_type x = e_type x)), andb_false_r in Ec by done. congruence.
    + unfold is_none in Ec. rewrite !bool_decide_false in Ec by done. cbn in Ec. by rewrite <- Ec.
  - change (PVRSRV_OK =? PVRSRV_OK) with true. cbn [negb]. hb_run (hload_ok pvData s _ hh Hh). simplify_eq.
    destruct Ht' as [?|Ht']; [done|]. by rewrite decide_True by done.
Qed.

(** C25: the check that a handle is below another one ends, and succeeds exactly
    when the handle has the type and the other one is a proper ancestor. *)
Theorem handle_lookup_sub_decides s h type ancestor :
  reachable s -> word h ->
  exists e v, PVRSRVLookupSubHandle h type ancestor s = Ok (e, v, s) /\
    (e = PVRSRV_OK <->
      (exists x, handles s h = Some x /\ (type = PVRSRV_HANDLE_TYPE_NONE \/ type = e_type x)) /\
      tc (child_of (handles s)) h ancestor).
Proof.
  intros (bl & (K & fl & bl' & m & M) & _)%reachable_view Hw.
  destruct (LookupSub_run _ _ _ _ _ _ h type ancestor M Hw) as (e & v & E & [_ Hs]). exists e, v. split; [done|].
  destruct (Z.eqb_spec (check (view bl s) h type) PVRSRV_OK) as [Ec|Ec].
  - destruct (check_live M h type Ec) as (x & Hx & _ & Ht).
    destruct Hs as [(Htc & -> & _)|(Htc & -> & _)]; [split; [by eauto|done]|]. split; [done|]. by intros [_ ?].
  - destruct Hs as [-> _]. split; [done|]. intros [(x & Hx & Ht) _]. destruct Ec. by apply (live_check M h x).
Qed.

(** ** Release *)

(** C24: releasing a handle takes away the handle and everything below it, and
    nothing else: the others are looked up as before. *)
Theorem handle_release_subtree s h type s' :
  reachable s -> word h -> PVRSRVReleaseHandle h type s = Ok (PVRSRV_OK, s') -> forall x, word x ->
  (below (handles s) [h] x -> PVRSRVLookupHandleAnyType x s' = Ok (PVRSRV_ERROR_HANDLE_NOT_ALLOCATED, None, s')) /\
  (~ below (handles s) [h] x -> exists r, PVRSRVLookupHandleAnyType x s = Ok (r, s) /\
     PVRSRVLookupHandleAnyType x s' = Ok (r, s')).
Proof.
  intros (bl & Hm & _)%reachable_view Hw E x Hwx. pose proof Hm as (K & fl & bl0 & m & M).
  destruct (Release_ok h type s _ Hm Hw) as (e & v & s1 & a' & Ee & (_ & Ec & Hs) & (K' & fl' & bl' & m' & M')).
  destruct (answer_inv _ _ _ _ _ _ _ _ Ee E) as [[= <- _] ->]. destruct Hs as (A' & Hrem & Hb & Htot).
  rewrite (LookupAny_run _ _ _ _ _ _ x M Hwx), (LookupAny_run _ _ _ _ _ _ x M' Hwx). unfold check.
  rewrite (bc_handles _ _ _ _ _ Hb), Htot. change (a_handles (view bl s)) with (handles s) in *. split; intros Hbe.
  - destruct (Hrem x) as [[-> _]|[_ Hn]]; [|done]. destruct (_ && _) eqn:Er; [done|].
    assert (exists y, handles s x = Some y) as [y Hy].
    { symmetry in Ec. apply (check_live M) in Ec as (y & Hy & _). destruct Hbe as (h' & ->%list_elem_of_singleton & Hr).
      inversion Hr as [|? ? ? (z & Hz & _) _]; subst; eauto. }
    apply (handle_range M x y) in Hy. apply andb_false_iff in Er as [?%Z.leb_gt|?%Z.leb_gt]; lia.
  - eexists. split; [reflexivity|]. destruct (Hrem x) as [[-> [?|Hn]]|[-> _]]; [done|by rewrite Hn|done].
Qed.

(** ** Batches *)

(** The end of a batch in which an allocation failed: the commit releases the
    handles of the batch, and still answers that all went well. *)
Theorem handle_commit_failed_ok s :
  reachable s -> HANDLES_BATCHED s = true -> ui32BatchHandAllocFailures s <> 0 ->
  exists l s', PVRSRVCommitHandleBatch s = Ok (PVRSRV_OK, s') /\ removed (handles s) l (handles s') /\
    (forall i h, hnd s i = Some h -> eType h <> PVRSRV_HANDLE_TYPE_NONE -> BATCHED_HANDLE h = true -> i + 1 ∈ l) /\
    HANDLES_BATCHED s' = false.
Proof.
  intros (a & K & fl & bl & m & M)%reachable_models Hb Hf. pose proof (mo_batch _ _ _ _ _ _ M) as Hl. rewrite Hb in Hl.
  destruct (end_batch_ok true s a _ ltac:(by exists K, fl, bl, m) Hl) as (s' & a' & E & (A' & Hbc & Hrem) & (K' & fl' & bl' & m' & M')).
  rewrite (mo_failures _ _ _ _ _ _ M), (proj2 (Z.eqb_neq _ _) Hf) in Hrem. cbn in Hrem.
  exists ((fun i => i + 1) <$> bl), s'. split; [done|]. split; [|split].
  - eapply removed_ext; [exact Hrem|intros x; symmetry; apply M|]. intros x. rewrite <- (bc_handles _ _ _ _ _ Hbc). symmetry. apply M'.
  - intros i h Hi Ht Hba. apply list_elem_of_fmap. exists i. split; [done|]. destruct (decide (i ∈ bl)) as [|Hn]; [done|].
    destruct (po_live _ _ _ _ _ (hi_pool _ _ _ _ _ _ _ (mo_inv _ _ _ _ _ _ M)) i h Hi Ht Hn) as [_ Hz].
    unfold BATCHED_HANDLE in Hba. by rewrite Hz in Hba.
  - pose proof (mo_batch _ _ _ _ _ _ M') as Hl'. rewrite (bc_batch _ _ _ _ _ Hbc) in Hl'. by destruct (HANDLES_BATCHED s').
Qed.

(** ** The end of a base *)

(** A base can always be deleted: an open batch is released, every handle is
    freed, and the hash table has no entry left when it is deleted. *)
Theorem handle_base_freed s :
  reachable s -> exists s', PVRSRVFreeHandleBase s = Ok (PVRSRV_OK, false, s').
Proof. intros (a & Hm)%reachable_models. by eapply FreeHandleBase_ok. Qed.

End Theorems.

(** ** Runs

    Concrete runs with blocks of 256 handles, the size of release builds. *)

#[local] Existing Instance release_shift.

Definition new_base : handle_base :=
  match PVRSRVAllocHandleBase [] with Ok (_, Some s) => s | _ => zero_base [] end.

(** The base after calls on a new one. *)
Definition after (ops : list op) : handle_base :=
  match exec_all ops new_base with Ok (_, s) => s | Fault _ => new_base end.

Lemma new_base_run : PVRSRVAllocHandleBase [] = Ok (PVRSRV_OK, Some new_base).
Proof.
  assert (match PVRSRVAllocHandleBase (H := HASH_TABLE) [] with Ok (e, Some _) => e =? PVRSRV_OK | _ => false end = true) as E
    by (vm_compute; reflexivity).
  unfold new_base. destruct (PVRSRVAllocHandleBase []) as [[e [s|]]|]; try done. by apply Z.eqb_eq in E as ->.
Qed.

Lemma reach_all ops : forall s, reachable s -> admissible_all ops s ->
  match exec_all ops s with Ok (_, s') => reachable s' | Fault _ => True end.
Proof.
  induction ops as [|o ops IH]; intros s Hs Hadm; [done|]. destruct Hadm as [Ho Hrest]. cbn [exec_all].
  unfold mbind, HB_bind. destruct (exec o s) as [[r s1]|] eqn:E; [|done].
  specialize (IH s1 (reach_step _ _ _ _ Hs Ho E) Hrest). by destruct (exec_all ops s1) as [[rs s2]|].
Qed.

Lemma after_reachable ops : admissible_all ops new_base -> reachable (after ops).
Proof.
  intros Hadm. pose proof (reach_new [] new_base new_base_run) as H0. pose proof (reach_all ops new_base H0 Hadm) as Hr.
  unfold after. destruct (exec_all ops new_base) as [[rs s]|]; done.
Qed.

(** Two handles, the second below the first. *)
Definition family : list op :=
  [OpAlloc 100 PVRSRV_HANDLE_TYPE_DEV_NODE 0;
   OpAllocSub 200 PVRSRV_HANDLE_TYPE_MEM_INFO 0 1].

(** A batch of one handle in which the next allocation fails: the data already
    has a handle that is not shared. *)
Definition failed_batch : list op :=
  [OpNewBatch 2; OpAlloc 100 PVRSRV_HANDLE_TYPE_DEV_NODE 0; OpAlloc 100 PVRSRV_HANDLE_TYPE_DEV_NODE 0].

(** The conditions of the calls, evaluated. *)
Ltac run_admissible :=
  vm_compute; repeat split; first [discriminate | left; discriminate | right; left; reflexivity | right; right; discriminate].

Lemma family_admissible : admissible_all family new_base.
Proof. run_admissible. Qed.

Lemma failed_batch_admissible : admissible_all failed_batch new_base.
Proof. run_admissible. Qed.

(** The state a call leads to. *)
Definition state_of {A} (c : HB (H := HASH_TABLE) A) (s : handle_base) : handle_base :=
  match c s with Ok (_, s') => s' | Fault _ => s end.

Lemma state_of_run {A} `{EqDecision A} (c : HB (H := HASH_TABLE) A) s r :
  match c s with Ok (r', _) => bool_decide (r' = r) | Fault _ => false end = true -> c s = Ok (r, state_of c s).
Proof. unfold state_of. destruct (c s) as [[r' s']|]; [|done]. by intros ->%bool_decide_eq_true. Qed.

Lemma handle_ops_refine_witness :
  exists rs s' a', exec_all family new_base = Ok (rs, s') /\ spec_all family (empty_abs false) rs a' /\ models s' a'.
Proof. exact (handle_ops_refine [] new_base family new_base_run family_admissible). Defined.

Lemma handle_base_invariant_witness :
  exists K fl bl m, hinv [] (after family) K fl bl (ui32FirstBatchIndexPlusOne (after family)) m /\ purge0 (after family).
Proof. exact (handle_base_invariant (after family) (after_reachable family family_admissible)). Defined.

Lemma handle_alloc_lookup_witness :
  let s' := state_of (PVRSRVAllocHandle 300 PVRSRV_HANDLE_TYPE_SYNC_INFO 0) (after family) in
  1 <= 3 <= ui32MaxIndexPlusOne s' /\
  PVRSRVLookupHandle 3 PVRSRV_HANDLE_TYPE_SYNC_INFO s' = Ok (PVRSRV_OK, Some 300, s') /\
  (TEST_FLAG 0 PVRSRV_HANDLE_ALLOC_FLAG_MULTI = false ->
   PVRSRVFindHandle 300 PVRSRV_HANDLE_TYPE_SYNC_INFO s' = Ok (PVRSRV_OK, Some 3, s')).
Proof.
  apply (handle_alloc_lookup (after family) 300 PVRSRV_HANDLE_TYPE_SYNC_INFO 0 3).
  - exact (after_reachable family family_admissible).
  - run_admissible.
  - apply state_of_run. vm_compute. reflexivity.
Defined.

Lemma handle_type_checked_witness :
  PVRSRVLookupHandle 2 PVRSRV_HANDLE_TYPE_MEM_INFO (after family) = Ok (PVRSRV_OK, Some 200, after family) /\
  PVRSRVLookupHandle 2 PVRSRV_HANDLE_TYPE_DEV_NODE (after family) =
    Ok (PVRSRV_ERROR_HANDLE_TYPE_MISMATCH, None, after family).
Proof.
  split;
    [apply (handle_type_checked (after family) 2 (mk_entry PVRSRV_HANDLE_TYPE_MEM_INFO 200 0 1) PVRSRV_HANDLE_TYPE_MEM_INFO)|
     apply (handle_type_checked (after family) 2 (mk_entry PVRSRV_HANDLE_TYPE_MEM_INFO 200 0 1) PVRSRV_HANDLE_TYPE_DEV_NODE)];
    first [exact (after_reachable family family_admissible) | vm_compute; reflexivity | discriminate].
Defined.

Lemma handle_lookup_sub_decides_witness :
  exists e v, PVRSRVLookupSubHandle 2 PVRSRV_HANDLE_TYPE_MEM_INFO 1 (after family) = Ok (e, v, after family) /\
    (e = PVRSRV_OK <->
      (exists x, handles (after family) 2 = Some x /\
        (PVRSRV_HANDLE_TYPE_MEM_INFO = PVRSRV_HANDLE_TYPE_NONE \/ PVRSRV_HANDLE_TYPE_MEM_INFO = e_type x)) /\
      tc (child_of (handles (after family))) 2 1).
Proof.
  apply (handle_lookup_sub_decides (after family) 2 PVRSRV_HANDLE_TYPE_MEM_INFO 1).
  - exact (after_reachable family family_admissible).
  - unfold word. lia.
Defined.

Lemma handle_release_subtree_witness :
  let s' := state_of (PVRSRVReleaseHandle 1 PVRSRV_HANDLE_TYPE_DEV_NODE) (after family) in
  PVRSRVLookupHandleAnyType 2 s' = Ok (PVRSRV_ERROR_HANDLE_NOT_ALLOCATED, None, s').
Proof.
  apply (handle_release_subtree (after family) 1 PVRSRV_HANDLE_TYPE_DEV_NODE _ (after_reachable family family_admissible)).
  - unfold word. lia.
  - apply state_of_run. vm_compute. reflexivity.
  - unfold word. lia.
  - exists 1. split; [set_solver|]. apply rtc_once. eexists. split; [vm_compute; reflexivity|reflexivity].
Defined.

Lemma handle_commit_failed_ok_witness :
  exists l s', PVRSRVCommitHandleBatch (after failed_batch) = Ok (PVRSRV_OK, s') /\
    removed (handles (after failed_batch)) l (handles s') /\
    (forall i h, hnd (after failed_batch) i = Some h -> eType h <> PVRSRV_HANDLE_TYPE_NONE -> BATCHED_HANDLE h = true ->
      i + 1 ∈ l) /\ HANDLES_BATCHED s' = false.
Proof.
  apply (handle_commit_failed_ok (after failed_batch)).
  - exact (after_reachable failed_batch failed_batch_admissible).
  - vm_compute. reflexivity.
  - vm_compute. discriminate.
Defined.

Lemma handle_base_freed_witness : exists s', PVRSRVFreeHandleBase (after failed_batch) = Ok (PVRSRV_OK, false, s').
Proof. exact (handle_base_freed (after failed_batch) (after_reachable failed_batch failed_batch_admissible)). Defined.

(** ** Where the code does not do what it means to *)

Definition alloc_any (n : Z) : op := OpAlloc n PVRSRV_HANDLE_TYPE_MEM_INFO 0.

(** Allocations for the data 1 to [n]. *)
Definition fill (n : nat) : list op := (fun i => alloc_any (Z.of_nat i)) <$> seq 1 n.

(** A batch that has to grow the array while position 0 is the first free
    structure: the code takes the free list for empty and drops it, so that an
    allocation in the batch, for which there is room, reads past the array. *)
Theorem new_batch_drops_free_list :
  exec_all ([OpNewBatch 1; OpReleaseBatch; OpNewBatch 257] ++ fill 257) new_base = Fault OutOfBounds.
Proof. vm_compute. reflexivity. Qed.

(** A handle freed in a batch keeps its mark when the batch ends; a base with
    purging does not recognise its structure as free and searches past the block. *)
Theorem purging_batch_loses_handle :
  exec_all ([OpEnablePurging; OpNewBatch 1; alloc_any 1; OpRelease 1 PVRSRV_HANDLE_TYPE_MEM_INFO; OpCommitBatch] ++
            fill 256) new_base = Fault OutOfBounds.
Proof. vm_compute. reflexivity. Qed.

(** The answers of a sequence of calls on a new base. *)
Definition answers (ops : list op) : option (list (Z * value)) :=
  match exec_all ops new_base with Ok (rs, _) => Some rs | Fault _ => None end.

(** With purging, a new handle takes the last block with a free structure, not
    the first: the search leaves its inner loop only.  Here handle 1 is free, and
    the allocation takes 258, of the second block. *)
Theorem purging_fills_last_block :
  last <$> answers ([OpEnablePurging] ++ fill 257 ++ [OpRelease 1 PVRSRV_HANDLE_TYPE_MEM_INFO; alloc_any 300]) =
  Some (Some (PVRSRV_OK, VHandle 258)).
Proof. vm_compute. reflexivity. Qed.

(** A limit below the size of a block is answered with success and ignored. *)
Theorem set_max_below_block_ignored (n : Z) (s : handle_base) :
  HANDLES_BATCHED s = false -> ui32TotalHandCount s = 0 -> 0 < n < HANDLE_BLOCK_SIZE ->
  PVRSRVSetMaxHandle n s = Ok (PVRSRV_OK, s).
Proof.
  intros Hb Ht Hn. change HANDLE_BLOCK_SIZE with 256 in Hn. unfold PVRSRVSetMaxHandle. rewrite hb_base_bind, Hb.
  rewrite (proj2 (Z.eqb_neq n 0)), (proj2 (Z.ltb_ge DEFAULT_MAX_HANDLE n)) by (unfold DEFAULT_MAX_HANDLE; lia).
  cbn [orb]. rewrite hb_base_bind, Ht. cbn [negb Z.eqb]. rewrite round_down_eq by lia.
  change HANDLE_BLOCK_SIZE with 256. rewrite Z.div_small by lia. by rewrite hb_base_bind.
Qed.
