(* ===== verification/Stateful.v ===== *)
(** * A monad for code that changes a state and may fault

    [ST S A] is a computation on a state [S] that returns an [A] or ends in a
    fault.  [runs] states what a computation does from a state, [guards] that it
    does no harm there: it may only run out of the fuel of its loops.  The rules
    below take a proof through a computation step by step. *)

From stdpp Require Import base list numbers option.
From Stdlib Require Import ZArith Lia.
From S2P Require Import Prelude.

Local Open Scope Z_scope.

Definition ST (S A : Type) : Type := S -> outcome (A * S).

#[export] Instance st_ret {S} : MRet (ST S) := fun A a s => Ok (a, s).
#[export] Instance st_bind {S} : MBind (ST S) := fun A B f m s =>
  match m s with Ok (a, s') => f a s' | Fault e => Fault e end.

Definition st_fault {S A} (f : fault) : ST S A := fun _ => Fault f.
Definition gets {S A} (f : S -> A) : ST S A := fun s => Ok (f s, s).
Definition modify {S} (f : S -> S) : ST S unit := fun s => Ok (tt, f s).
Definition st_when {S} (b : bool) (m : ST S unit) : ST S unit := if b then m else mret tt.

(** What is there, or a bad address. *)
Definition found {S A} (f : S -> option A) : ST S A := fun s =>
  match f s with Some a => Ok (a, s) | None => Fault OutOfBounds end.

Section Rules.
Context {S : Type}.
Implicit Types (s : S).

(** From [s] the computation returns, with a result and a state in [Q]. *)
Definition runs {A} (m : ST S A) (s : S) (Q : A -> S -> Prop) : Prop :=
  exists a s', m s = Ok (a, s') /\ Q a s'.

(** From [s] the computation returns in [Q] or exhausts its fuel. *)
Definition guards {A} (m : ST S A) (s : S) (Q : A -> S -> Prop) : Prop :=
  match m s with Ok (a, s') => Q a s' | Fault OutOfFuel => True | Fault _ => False end.

Lemma st_bind_ok {A B} (m : ST S A) (k : A -> ST S B) s a s' :
  m s = Ok (a, s') -> (m ≫= k) s = k a s'.
Proof. intros E. unfold mbind, st_bind. by rewrite E. Qed.

Lemma st_runs_ret {A} (a : A) s (Q : A -> S -> Prop) : Q a s -> runs (mret a) s Q.
Proof. intros. by exists a, s. Qed.

Lemma st_runs_bind {A B} (m : ST S A) (k : A -> ST S B) s (R : A -> S -> Prop) (Q : B -> S -> Prop) :
  runs m s R -> (forall a s', R a s' -> runs (k a) s' Q) -> runs (m ≫= k) s Q.
Proof.
  intros (a & s' & E & HR) Hk. destruct (Hk a s' HR) as (b & s'' & E' & HQ).
  exists b, s''. split; [|done]. by rewrite (st_bind_ok _ _ _ _ _ E).
Qed.

Lemma runs_step {A B} (m : ST S A) (k : A -> ST S B) s a s' (Q : B -> S -> Prop) :
  m s = Ok (a, s') -> runs (k a) s' Q -> runs (m ≫= k) s Q.
Proof. intros E. unfold runs. by rewrite (st_bind_ok _ _ _ _ _ E). Qed.

Lemma guards_step {A B} (m : ST S A) (k : A -> ST S B) s a s' (Q : B -> S -> Prop) :
  m s = Ok (a, s') -> guards (k a) s' Q -> guards (m ≫= k) s Q.
Proof. intros E. unfold guards. by rewrite (st_bind_ok _ _ _ _ _ E). Qed.

Lemma st_runs_mono {A} (m : ST S A) s (R Q : A -> S -> Prop) :
  runs m s R -> (forall a s', R a s' -> Q a s') -> runs m s Q.
Proof. intros (a & s' & E & HR) Hm. exists a, s'. eauto. Qed.

Lemma guards_ret {A} (a : A) s (Q : A -> S -> Prop) : Q a s -> guards (mret a) s Q.
Proof. done. Qed.

Lemma guards_runs {A} (m : ST S A) s (Q : A -> S -> Prop) : runs m s Q -> guards m s Q.
Proof. intros (a & s' & E & HQ). unfold guards. by rewrite E. Qed.

Lemma guards_bind {A B} (m : ST S A) (k : A -> ST S B) s (R : A -> S -> Prop) (Q : B -> S -> Prop) :
  guards m s R -> (forall a s', R a s' -> guards (k a) s' Q) -> guards (m ≫= k) s Q.
Proof.
  unfold guards, mbind, st_bind. intros Hm Hk.
  destruct (m s) as [[a s']|[]]; try done. by apply Hk.
Qed.

Lemma guards_mono {A} (m : ST S A) s (R Q : A -> S -> Prop) :
  guards m s R -> (forall a s', R a s' -> Q a s') -> guards m s Q.
Proof. unfold guards. intros Hm HQ. destruct (m s) as [[a s']|[]]; try done. by apply HQ. Qed.

(** Two steps known to run, followed by the result. *)
Lemma runs_seq_ret {A} (m k : ST S unit) (a : A) s (Q : unit -> S -> Prop) (Q' : A -> S -> Prop) :
  runs (m;; k) s Q -> (forall s', Q tt s' -> Q' a s') -> runs (m;; k;; mret a) s Q'.
Proof.
  unfold runs, mbind, st_bind. intros ([] & s' & E & HQ) HQ'. exists a, s'.
  destruct (m s) as [[? s1]|]; [|done]. rewrite E. auto.
Qed.

Lemma found_ok {A} (f : S -> option A) s a : f s = Some a -> found f s = Ok (a, s).
Proof. intros E. unfold found. by rewrite E. Qed.

Lemma gets_ok {A} (f : S -> A) s : gets f s = Ok (f s, s).
Proof. done. Qed.

Lemma modify_ok (f : S -> S) s : modify f s = Ok (tt, f s).
Proof. done. Qed.
End Rules.

(** Run the first steps of a computation whose results are known. *)
Tactic Notation "st_run" uconstr(E) :=
  first [ refine (runs_step _ _ _ _ _ _ E _)
        | refine (guards_step _ _ _ _ _ _ E _)
        | refine (eq_trans (st_bind_ok _ _ _ _ _ E) _) ]; cbv beta.

(** Run a step that reads the state, or one that changes it. *)
Ltac st_get :=
  first [ refine (runs_step _ _ _ _ _ _ (gets_ok _ _) _)
        | refine (guards_step _ _ _ _ _ _ (gets_ok _ _) _)
        | refine (eq_trans (st_bind_ok _ _ _ _ _ (gets_ok _ _)) _) ]; cbv beta.
Ltac st_mod :=
  first [ refine (runs_step _ _ _ _ _ _ (modify_ok _ _) _)
        | refine (guards_step _ _ _ _ _ _ (modify_ok _ _) _)
        | refine (eq_trans (st_bind_ok _ _ _ _ _ (modify_ok _ _)) _) ]; cbv beta.
