(* ===== verification/PvrLists.v ===== *)
(** * The linked lists of the PowerVR services

    src/imgtec/eurasia_km/services4/srvkm/include/lists.h: the macros that
    implement lists of nodes with a pointer [psNext] to the next node and a
    pointer [ppsThis] to the place that points at the node (the head of the list
    or the [psNext] of the node before).  The macros are generic in the type of
    the nodes; here they are generic in a state [S] that holds nodes and heads
    ([Nodes]), and the theorems in what else the state holds ([rest]).  Addresses
    are integers, 0 is [IMG_NULL]; following an address where there is no node is
    [Fault OutOfBounds]. *)

From stdpp Require Import base list numbers option.
From Stdlib Require Import ZArith Lia.
From S2P Require Import Prelude Stateful.

Local Open Scope Z_scope.

(** The address of a pointer to a node: the head of a list in the object at
    [h], or the field [psNext] of the node [n]. *)
Inductive slot := Head (h : Z) | Next (n : Z).

#[export] Instance slot_eq_dec : EqDecision slot.
Proof. solve_decision. Defined.

(** The two fields that the macros use. *)
Record link := Link { ppsThis : slot; psNext : Z }.

(** What the macros need of the memory: heads and nodes by address.
    [node_bound] is at least the number of nodes, the fuel of the loops. *)
Class Nodes (S : Type) := {
  head_at : S -> Z -> option Z;
  link_at : S -> Z -> option link;
  put_head : Z -> Z -> S -> S;
  put_link : Z -> link -> S -> S;
  node_bound : S -> nat }.

Class NodesLaws (S R : Type) `{Nodes S} (rest : S -> R) := {
  head_put_head s h h' v :
    is_Some (head_at s h) ->
    head_at (put_head h v s) h' = if decide (h = h') then Some v else head_at s h';
  link_put_head s h v n : link_at (put_head h v s) n = link_at s n;
  rest_put_head s h v : is_Some (head_at s h) -> rest (put_head h v s) = rest s;
  head_put_link s n l h : head_at (put_link n l s) h = head_at s h;
  link_put_link s n n' l :
    is_Some (link_at s n) ->
    link_at (put_link n l s) n' = if decide (n = n') then Some l else link_at s n';
  rest_put_link s n l : is_Some (link_at s n) -> rest (put_link n l s) = rest s;
  node_bound_spec s l :
    NoDup l -> (forall n, n ∈ l -> is_Some (link_at s n)) -> (length l <= node_bound s)%nat }.

Section Lists.
Context {S : Type} `{Nodes S}.

(** ** Memory access *)

Definition node (n : Z) : ST S link := found (fun s => link_at s n).

Definition slot_val (s : S) (p : slot) : option Z :=
  match p with Head h => head_at s h | Next n => psNext <$> link_at s n end.

Definition load_slot (p : slot) : ST S Z := found (fun s => slot_val s p).

Definition store_slot (p : slot) (v : Z) : ST S unit :=
  match p with
  | Head h => found (fun s => head_at s h);; modify (put_head h v)
  | Next n => l ← node n; modify (put_link n (Link (ppsThis l) v))
  end.

Definition store_ppsThis (n : Z) (p : slot) : ST S unit :=
  l ← node n; modify (put_link n (Link p (psNext l))).

(** ** The macros *)

Fixpoint List_ForEach (fuel : nat) (psHead : Z) (pfnCallBack : Z -> ST S unit) : ST S unit :=
  if psHead =? 0 then mret tt else
  match fuel with
  | O => st_fault OutOfFuel
  | Datatypes.S fuel =>
      pfnCallBack psHead;;
      l ← node psHead;
      List_ForEach fuel (psNext l) pfnCallBack
  end.

(** [while(psHead && result == CONTINUE)]; [IMPLEMENT_LIST_ANY_VA] is the case of
    pointers, with [IMG_NULL] to continue. *)
Fixpoint List_Any_va_2 {R} `{EqDecision R} (CONTINUE : R) (fuel : nat) (psHead : Z)
    (pfnCallBack : Z -> ST S R) (result : R) : ST S R :=
  if (psHead =? 0) || negb (bool_decide (result = CONTINUE)) then mret result else
  match fuel with
  | O => st_fault OutOfFuel
  | Datatypes.S fuel =>
      l ← node psHead;
      result ← pfnCallBack psHead;
      List_Any_va_2 CONTINUE fuel (psNext l) pfnCallBack result
  end.

Definition List_Any_va (fuel : nat) (psHead : Z) (pfnCallBack : Z -> ST S Z) : ST S Z :=
  List_Any_va_2 0 fuel psHead pfnCallBack 0.

Definition List_Remove (psNode : Z) : ST S unit :=
  l ← node psNode;
  store_slot (ppsThis l) (psNext l);;
  l ← node psNode;
  if psNext l =? 0 then mret tt
  else store_ppsThis (psNext l) (ppsThis l).

Definition List_Insert (ppsHead : slot) (psNewNode : Z) : ST S unit :=
  store_ppsThis psNewNode ppsHead;;
  v ← load_slot ppsHead;
  store_slot (Next psNewNode) v;;
  store_slot ppsHead psNewNode;;
  l ← node psNewNode;
  if psNext l =? 0 then mret tt
  else store_ppsThis (psNext l) (Next psNewNode).

Fixpoint reverse_loop (fuel : nat) (ppsHead : slot) (psTmpNode1 psCurNode : Z) : ST S Z :=
  if psCurNode =? 0 then mret psTmpNode1 else
  match fuel with
  | O => st_fault OutOfFuel
  | Datatypes.S fuel =>
      psTmpNode2 ← load_slot (Next psCurNode);
      store_slot (Next psCurNode) psTmpNode1;;
      let psTmpNode1 := psCurNode in
      let psCurNode := psTmpNode2 in
      (if psCurNode =? 0 then store_ppsThis psTmpNode1 ppsHead
       else store_ppsThis psTmpNode1 (Next psCurNode));;
      reverse_loop fuel ppsHead psTmpNode1 psCurNode
  end.

Definition List_Reverse (fuel : nat) (ppsHead : slot) : ST S unit :=
  psCurNode ← load_slot ppsHead;
  psTmpNode1 ← reverse_loop fuel ppsHead 0 psCurNode;
  store_slot ppsHead psTmpNode1.

(** The nodes of the list that starts at [n], as far as [fuel] goes. *)
Fixpoint walk (s : S) (fuel : nat) (n : Z) : list Z :=
  match fuel with
  | O => []
  | Datatypes.S fuel =>
      match link_at s n with
      | Some l => n :: walk s fuel (psNext l)
      | None => []
      end
  end.

(** The list whose head is in the object at [h]. *)
Definition list_at (s : S) (h : Z) : list Z :=
  match head_at s h with Some n => walk s (node_bound s) n | None => [] end.

(** ** What a list is

    [links s p l]: the nodes [l] are linked one after the other, the first one
    from the place [p]. *)

Definition first (l : list Z) : Z := default 0 (head l).

Fixpoint links (s : S) (p : slot) (l : list Z) : Prop :=
  match l with
  | [] => True
  | n :: l' => n <> 0 /\ link_at s n = Some (Link p (first l')) /\ links s (Next n) l'
  end.

Record is_list (s : S) (h : Z) (l : list Z) : Prop := {
  il_head : head_at s h = Some (first l);
  il_links : links s (Head h) l;
  il_nodup : NoDup l }.
End Lists.
