(* ===== verification/PvrListFacts.v ===== *)
(** * Theorems on the linked lists of the PowerVR services

    Each macro of lists.h does to the list what its name says, and changes
    neither the other lists nor the rest of the state ([same_but]). *)

From stdpp Require Import base list numbers option sets.
From Stdlib Require Import ZArith Lia.
From S2P Require Import Prelude Stateful PvrLists.

Local Open Scope Z_scope.

Section ListFacts.
Context {S R : Type} `{Nodes S} {rest : S -> R} `{!NodesLaws S R rest}.
Implicit Types (s : S) (l : list Z) (p : slot).

(** ** Frames *)

(** The states agree outside the head at [h] and the links of the nodes [l]. *)
Record same_but (h : Z) (l : list Z) (s s' : S) : Prop := {
  sb_head h' : h' <> h -> head_at s' h' = head_at s h';
  sb_link n : n ∉ l -> link_at s' n = link_at s n;
  sb_node n : is_Some (link_at s' n) <-> is_Some (link_at s n);
  sb_rest : rest s' = rest s }.

Lemma same_but_refl h l s : same_but h l s s.
Proof. by split. Qed.

Lemma same_but_trans h l s s' s'' :
  same_but h l s s' -> same_but h l s' s'' -> same_but h l s s''.
Proof.
  intros [H1 H2 H3 H4] [G1 G2 G3 G4]. split.
  - intros h' Hh. by rewrite G1, H1.
  - intros n Hn. by rewrite G2, H2.
  - intros n. by rewrite G3, H3.
  - by rewrite G4.
Qed.

Lemma same_but_mono h l l' s s' : l ⊆ l' -> same_but h l s s' -> same_but h l' s s'.
Proof. intros Hl [H1 H2 H3 H4]. split; [done| |done..]. intros n Hn. apply H2. set_solver. Qed.

Lemma links_frame p l s s' :
  (forall n, n ∈ l -> link_at s' n = link_at s n) -> links s p l -> links s' p l.
Proof.
  revert p. induction l as [|n l IH]; intros p Hf; [done|]. intros (Hn & Hl & Hr).
  split_and!; [done|rewrite Hf by set_solver; done|]. apply IH; [set_solver|done].
Qed.

Lemma is_list_frame h h' l l' s s' :
  same_but h l s s' -> h' <> h -> (forall n, n ∈ l' -> n ∉ l) -> is_list s h' l' -> is_list s' h' l'.
Proof.
  intros Hs Hh Hd [H1 H2 H3]. split; [by rewrite (sb_head _ _ _ _ Hs)| |done].
  eapply links_frame; [|done]. intros n Hn. apply (sb_link _ _ _ _ Hs). auto.
Qed.

Lemma links_node p l s n : links s p l -> n ∈ l -> n <> 0 /\ is_Some (link_at s n).
Proof.
  revert p. induction l as [|m l IH]; intros p Hl Hn; [set_solver|].
  destruct Hl as (Hm & E & Hr). apply list_elem_of_In in Hn as [->|Hn]; [by rewrite E|].
  apply (IH _ Hr). by apply list_elem_of_In.
Qed.

Lemma is_list_node s h l n : is_list s h l -> n ∈ l -> n <> 0 /\ is_Some (link_at s n).
Proof. intros [_ Hl _]. by eapply links_node. Qed.

(** The address of a node at the end of a run of nodes. *)
Definition last_slot (p : slot) (l : list Z) : slot :=
  match last l with Some n => Next n | None => p end.

Lemma last_slot_cons p n l : last_slot p (n :: l) = last_slot (Next n) l.
Proof. unfold last_slot. rewrite last_cons. by destruct (last l). Qed.

Lemma first_of_app l1 l2 : first (l1 ++ l2) = match l1 with [] => first l2 | n :: _ => n end.
Proof. by destruct l1. Qed.

Lemma links_mid p l1 n l2 s :
  links s p (l1 ++ n :: l2) -> link_at s n = Some (Link (last_slot p l1) (first l2)) /\
  links s (Next n) l2 /\ n <> 0.
Proof.
  revert p. induction l1 as [|m l1 IH]; intros p; [by intros (?&?&?)|].
  intros (_ & _ & Hr). rewrite last_slot_cons. by apply IH.
Qed.

(** ** Memory access *)

Lemma node_ok s n k : link_at s n = Some k -> node n s = Ok (k, s).
Proof. apply (found_ok (fun s => link_at s n)). Qed.

Lemma load_slot_ok s p v : slot_val s p = Some v -> load_slot p s = Ok (v, s).
Proof. apply (found_ok (fun s => slot_val s p)). Qed.

Lemma store_next_ok s n k v :
  link_at s n = Some k -> store_slot (Next n) v s = Ok (tt, put_link n (Link (ppsThis k) v) s).
Proof. intros E. unfold store_slot. by st_run (node_ok _ _ _ E). Qed.

Lemma store_head_ok s h x v :
  head_at s h = Some x -> store_slot (Head h) v s = Ok (tt, put_head h v s).
Proof. intros E. unfold store_slot. by st_run (found_ok (fun s => head_at s h) s x E). Qed.

Lemma store_ppsThis_ok s n k p :
  link_at s n = Some k -> store_ppsThis n p s = Ok (tt, put_link n (Link p (psNext k)) s).
Proof. intros E. unfold store_ppsThis. by st_run (node_ok _ _ _ E). Qed.

Lemma put_link_same h l s n k : n ∈ l -> is_Some (link_at s n) -> same_but h l s (put_link n k s).
Proof.
  intros Hn Hs. split.
  - intros. apply head_put_link.
  - intros m Hm. rewrite link_put_link by done. by rewrite decide_False by set_solver.
  - intros m. rewrite link_put_link by done. case_decide; [subst|done].
    split; [done|]. by eexists.
  - by apply rest_put_link.
Qed.

Lemma put_head_same h l s v : is_Some (head_at s h) -> same_but h l s (put_head h v s).
Proof.
  intros Hs. split.
  - intros. rewrite head_put_head by done. by rewrite decide_False.
  - intros. apply link_put_head.
  - intros. by rewrite link_put_head.
  - by apply rest_put_head.
Qed.

Lemma first_0 l p s : links s p l -> first l = 0 -> l = [].
Proof. destruct l; [done|]. by intros (? & _). Qed.

(** Read a pointer in a state built by writes. *)
Ltac mem :=
  repeat first
    [ rewrite head_put_link | rewrite link_put_head
    | rewrite head_put_head by (rewrite ?head_put_link; eauto)
    | rewrite link_put_link by mem_some
    | rewrite decide_True by done | rewrite decide_False by done ]
with mem_some := rewrite ?link_put_head; first [by eauto | mem; by eauto].

(** ** Insertion *)

Lemma List_Insert_spec s h l n :
  is_list s h l -> n ∉ l -> n <> 0 -> is_Some (link_at s n) ->
  runs (List_Insert (Head h) n) s (fun _ s' => is_list s' h (n :: l) /\ same_but h (n :: l) s s').
Proof.
  intros [Hh Hl Hnd] Hn H0 [k Hk]. unfold List_Insert.
  st_run (store_ppsThis_ok s n k (Head h) Hk).
  set (s1 := put_link n _ s).
  assert (link_at s1 n = Some (Link (Head h) (psNext k))) as H1 by (subst s1; by mem).
  st_run (load_slot_ok s1 (Head h) (first l) ltac:(subst s1; simpl; by mem)).
  st_run (store_next_ok s1 n _ (first l) H1).
  set (s2 := put_link n _ s1). cbn [ppsThis] in s2.
  assert (head_at s2 h = Some (first l)) as H2 by (subst s2 s1; by mem).
  st_run (store_head_ok s2 h _ n H2). set (s3 := put_head h n s2).
  assert (link_at s3 n = Some (Link (Head h) (first l))) as H3 by (subst s3 s2; by mem).
  assert (forall m, m <> n -> link_at s3 m = link_at s m) as Hfr.
  { intros m Hm. subst s3 s2 s1. by mem. }
  assert (head_at s3 h = Some n) as Hh3 by (subst s3; by mem).
  assert (same_but h (n :: l) s s3) as Hsb.
  { subst s3. eapply same_but_trans; [|apply put_head_same; eauto]. subst s2.
    eapply same_but_trans; apply put_link_same; eauto; set_solver. }
  clearbody s3. clear s1 H1 s2 H2.
  st_run (node_ok s3 n _ H3). simpl. destruct (Z.eqb_spec (first l) 0) as [E|E].
  - apply (first_0 _ _ _ Hl) in E as ->. exists tt, s3. split_and!; [done| |done].
    split; [done| |apply NoDup_singleton]. by split_and!.
  - destruct l as [|m l]; [done|]. change (first (m :: l)) with m in *. destruct Hl as (Hm & Em & Hr).
    assert (m <> n) as Hmn by set_solver.
    exists tt, (put_link m (Link (Next n) (first l)) s3).
    split; [by rewrite (store_ppsThis_ok s3 m _ (Next n) (eq_trans (Hfr m Hmn) Em))|].
    assert (is_Some (link_at s3 m)) as Hsm by (rewrite Hfr, Em by done; eauto).
    split; [|eapply same_but_trans; [done|]; apply put_link_same; [set_solver|done]].
    split; [by rewrite head_put_link| |by constructor].
    apply NoDup_cons in Hnd as [Hml Hnd].
    split_and!; [done|by mem|]. split_and!; [done|by mem|].
    apply (links_frame _ _ s); [|done]. intros x Hx.
    rewrite link_put_link by done. rewrite decide_False by set_solver. apply Hfr. set_solver.
Qed.

(** ** Removal *)

Lemma links_redirect s s' p l1 x r l3 :
  links s p (l1 ++ x :: r) ->
  (forall m, m ∈ l1 -> link_at s' m = link_at s m) ->
  link_at s' x = Some (Link (last_slot p l1) (first l3)) ->
  links s' (Next x) l3 -> links s' p (l1 ++ x :: l3).
Proof.
  revert p. induction l1 as [|m l1 IH]; intros p Hl Hf Hx H3.
  - destruct Hl as (Hx0 & _). by split_and!.
  - destruct Hl as (Hm & Em & Hr). split_and!; [done| |].
    + rewrite Hf, Em by set_solver. by destruct l1.
    + rewrite last_slot_cons in Hx. apply IH; [done|set_solver|done|done].
Qed.

(** Writing through the address of a node redirects what points at it. *)
Lemma store_last s h l1 l2 n v :
  is_list s h (l1 ++ n :: l2) ->
  runs (store_slot (last_slot (Head h) l1) v) s (fun _ s' =>
    head_at s' h = Some (match l1 with [] => v | m :: _ => m end) /\
    (forall m, m ∈ n :: l2 -> link_at s' m = link_at s m) /\
    (forall s'' l3, (forall m, m ∈ l1 -> link_at s'' m = link_at s' m) ->
       v = first l3 -> links s'' (last_slot (Head h) l1) l3 -> links s'' (Head h) (l1 ++ l3)) /\
    same_but h (l1 ++ n :: l2) s s').
Proof.
  intros [Hh Hl Hnd]. destruct l1 as [|x l1 _] using rev_ind.
  - eexists tt, _. split; [by apply (store_head_ok s h _ v Hh)|].
    split_and!; [by mem|intros; by mem|done|]. apply put_head_same. eauto.
  - unfold last_slot. rewrite last_snoc.
    destruct (links_mid _ _ _ _ _ ltac:(by rewrite <- app_assoc in Hl)) as (Ex & _).
    eexists tt, _. split; [by apply (store_next_ok s x _ v Ex)|].
    apply NoDup_app in Hnd as (Hnd1 & Hd & _).
    split_and!.
    + rewrite head_put_link, Hh. destruct l1; done.
    + intros m Hm. mem. rewrite decide_False; [done|]. intros <-. apply (Hd x); set_solver.
    + intros s'' l3 Hf -> H3. apply NoDup_app in Hnd1 as (_ & Hd1 & _).
      rewrite <- !app_assoc in *.
      apply (links_redirect s _ _ _ _ _ _ Hl); [|rewrite Hf by set_solver; by mem|done].
      intros m Hm. rewrite Hf by set_solver. mem. rewrite decide_False; [done|]. intros ->. apply (Hd1 m Hm). set_solver.
    + apply put_link_same; [set_solver|eauto].
Qed.

Lemma List_Remove_spec s h l1 l2 n :
  is_list s h (l1 ++ n :: l2) ->
  runs (List_Remove n) s (fun _ s' =>
    is_list s' h (l1 ++ l2) /\ same_but h (l1 ++ n :: l2) s s').
Proof.
  intros Hs. pose proof Hs as [Hh Hl Hnd].
  destruct (links_mid _ _ _ _ _ Hl) as (En & H2 & _). unfold List_Remove.
  st_run (node_ok s n _ En). cbn [ppsThis psNext].
  eapply st_runs_bind; [apply (store_last _ _ _ _ _ (first l2) Hs)|].
  intros _ s1 (Hh1 & Hf1 & Hl1 & Hsb1).
  st_run (node_ok s1 n _ (eq_trans (Hf1 n ltac:(set_solver)) En)). cbn [ppsThis psNext].
  apply NoDup_app in Hnd as (Hnd1 & Hd & [Hn2 Hnd2]%NoDup_cons).
  assert (NoDup (l1 ++ l2)) by (apply NoDup_app; split_and!; [done|set_solver|done]).
  destruct (Z.eqb_spec (first l2) 0) as [E|E].
  - apply (first_0 _ _ _ H2) in E as ->. apply st_runs_ret. split; [|done].
    split; [by rewrite first_of_app|by apply (Hl1 s1)|done].
  - destruct l2 as [|m l2]; [done|]. change (first (m :: l2)) with m in *.
    destruct H2 as (Hm & Em & Hr). apply NoDup_cons in Hnd2 as [Hm2 Hnd2].
    pose proof (eq_trans (Hf1 m ltac:(set_solver)) Em) as Em1.
    eexists tt, _. split; [by apply (store_ppsThis_ok s1 m _ (last_slot (Head h) l1) Em1)|].
    split; [|eapply same_but_trans; [done|]; apply put_link_same; [set_solver|eauto]].
    split; [|apply Hl1; [|done|]|done].
    + rewrite head_put_link, first_of_app. done.
    + intros x Hx. mem. rewrite decide_False; [done|]. intros ->. apply (Hd x Hx). set_solver.
    + split_and!; [done|by mem|]. apply (links_frame _ _ s); [|done]. intros x Hx. mem.
      rewrite decide_False by set_solver. apply Hf1. set_solver.
Qed.

(** ** Reversal *)

Lemma reverse_loop_spec fuel s h d r :
  links s (match d with [] => Head h | x :: _ => Next x end) r ->
  links s (match r with [] => Head h | c :: _ => Next c end) d ->
  NoDup (d ++ r) -> (length r <= fuel)%nat ->
  runs (reverse_loop fuel (Head h) (first d) (first r)) s (fun v s' =>
    v = first (reverse r ++ d) /\ links s' (Head h) (reverse r ++ d) /\
    head_at s' h = head_at s h /\ same_but h (d ++ r) s s').
Proof.
  revert s d r. induction fuel as [|fuel IH]; intros s d r Hr Hd Hnd Hf.
  { destruct r; [|simpl in Hf; lia]. apply st_runs_ret. split_and!; [done..|apply same_but_refl]. }
  destruct r as [|c r].
  { apply st_runs_ret. split_and!; [done..|apply same_but_refl]. }
  destruct Hr as (Hc & Ec & Hr). change (first (c :: r)) with c. cbn [reverse_loop].
  destruct (Z.eqb_spec c 0) as [|_]; [done|].
  st_run (load_slot_ok s (Next c) (first r) ltac:(simpl; by rewrite Ec)).
  st_run (store_next_ok s c _ (first d) Ec). cbn [ppsThis].
  set (s1 := put_link c _ s). set (p := match r with [] => Head h | x :: _ => Next x end).
  assert (link_at s1 c = Some (Link (match d with [] => Head h | x :: _ => Next x end) (first d)))
    as E1 by (subst s1; by mem).
  assert ((if first r =? 0 then store_ppsThis c (Head h) else store_ppsThis c (Next (first r))) s1 =
          Ok (tt, put_link c (Link p (first d)) s1)) as Es.
  { subst p. destruct r as [|x r]; [apply (store_ppsThis_ok _ _ _ _ E1)|].
    destruct Hr as (Hx & _). change (first (x :: r)) with x.
    destruct (Z.eqb_spec x 0); [done|]. apply (store_ppsThis_ok _ _ _ _ E1). }
  st_run Es. set (s2 := put_link c _ s1).
  assert (same_but h (d ++ c :: r) s s2) as Hsb.
  { eapply same_but_trans; apply put_link_same; eauto; set_solver. }
  assert (forall x, x <> c -> link_at s2 x = link_at s x) as Hfr.
  { intros x Hx. subst s2 s1. by mem. }
  apply NoDup_app in Hnd as (Hnd1 & Hdis & [Hcr Hnd2]%NoDup_cons).
  eapply st_runs_mono; [apply (IH s2 (c :: d) r)|].
  - apply (links_frame _ _ s); [|done]. intros x Hx. apply Hfr. set_solver.
  - split_and!; [done|subst s2; by mem|]. apply (links_frame _ _ s); [|done].
    intros x Hx. apply Hfr. intros ->. apply (Hdis c Hx). set_solver.
  - constructor; [set_solver|]. apply NoDup_app. split_and!; [done|set_solver|done].
  - simpl in Hf. lia.
  - intros v s' (-> & Hl' & Hh' & Hsb'). rewrite reverse_cons, <- app_assoc. split_and!; [done..| |].
    + rewrite Hh'. subst s2 s1. by mem.
    + eapply same_but_trans; [done|]. eapply same_but_mono; [|done]. set_solver.
Qed.

Lemma List_Reverse_spec s h l :
  is_list s h l ->
  runs (List_Reverse (node_bound s) (Head h)) s (fun _ s' =>
    is_list s' h (reverse l) /\ same_but h l s s').
Proof.
  intros [Hh Hl Hnd]. unfold List_Reverse.
  st_run (load_slot_ok s (Head h) (first l) Hh).
  eapply st_runs_bind; [apply (reverse_loop_spec _ s h [] l); [done|by destruct l|done|]|].
  { apply (node_bound_spec (rest := rest)); [done|]. intros n Hn. eapply links_node; eauto. }
  intros v s' (-> & Hl' & Hh' & Hsb). rewrite app_nil_r in *.
  eexists tt, _. split; [by apply (store_head_ok s' h (first l)); rewrite Hh', Hh|].
  assert (is_Some (head_at s' h)) by (rewrite Hh', Hh; eauto).
  split; [|eapply same_but_trans; [done|by apply put_head_same]].
  split; [by mem| |by rewrite reverse_Permutation].
  eapply links_frame; [|done]. intros. apply link_put_head.
Qed.

(** ** Search *)

Lemma List_Any_va_2_spec {T} `{EqDecision T} (CONTINUE : T) fuel s p l cb (f : Z -> T) :
  links s p l -> (length l <= fuel)%nat -> (forall n, n ∈ l -> cb n s = Ok (f n, s)) ->
  List_Any_va_2 CONTINUE fuel (first l) cb CONTINUE s =
  Ok (default CONTINUE (f <$> head (filter (fun n => f n <> CONTINUE) l)), s).
Proof.
  assert (forall fuel n (r : T), r <> CONTINUE -> List_Any_va_2 CONTINUE fuel n cb r s = Ok (r, s)) as Hstop.
  { intros k n r Hr. destruct k; simpl; by rewrite bool_decide_false, orb_true_r. }
  revert p fuel. induction l as [|n l IH]; intros p fuel Hl Hf Hcb; [by destruct fuel|].
  destruct fuel as [|fuel]; [simpl in Hf; lia|]. destruct Hl as (Hn & En & Hr).
  change (first (n :: l)) with n. cbn [List_Any_va_2].
  destruct (Z.eqb_spec n 0) as [|_]; [done|]. rewrite bool_decide_true by done. cbn [orb negb].
  st_run (node_ok s n _ En). st_run (Hcb n ltac:(set_solver)). cbn [psNext].
  rewrite filter_cons. case_decide as Hd.
  - by rewrite Hstop.
  - destruct (decide (f n = CONTINUE)) as [->|]; [|done].
    apply (IH (Next n)); [done|simpl in Hf; lia|set_solver].
Qed.

Lemma List_Any_va_spec s h l cb (f : Z -> Z) :
  is_list s h l -> (forall n, n ∈ l -> cb n s = Ok (f n, s)) ->
  List_Any_va (node_bound s) (first l) cb s =
  Ok (default 0 (f <$> head (filter (fun n => f n <> 0) l)), s).
Proof.
  intros [Hh Hl Hnd] Hcb. apply (List_Any_va_2_spec 0 _ _ (Head h)); [done| |done].
  apply (node_bound_spec (rest := rest)); [done|]. intros n Hn. eapply links_node; eauto.
Qed.

(** ** The list that starts at a head *)

Lemma walk_links s p l fuel :
  link_at s 0 = None -> links s p l -> (length l <= fuel)%nat -> walk s fuel (first l) = l.
Proof.
  intros H0. revert p fuel. induction l as [|n l IH]; intros p fuel Hl Hf.
  - destruct fuel; [done|]. change (first []) with 0. cbn [walk]. by rewrite H0.
  - destruct fuel as [|fuel]; [simpl in Hf; lia|]. destruct Hl as (Hn & En & Hr).
    change (first (n :: l)) with n. cbn [walk]. rewrite En. cbn [psNext].
    rewrite (IH (Next n)); [done|done|simpl in Hf; lia].
Qed.

Lemma list_at_is_list s h l : link_at s 0 = None -> is_list s h l -> list_at s h = l.
Proof.
  intros H0 [Hh Hl Hnd]. unfold list_at. rewrite Hh. eapply walk_links; [done..|].
  apply (node_bound_spec (rest := rest)); [done|]. intros n Hn. eapply links_node; eauto.
Qed.
End ListFacts.
