(* ===== verification/PvrResman.v ===== *)
(** * The resource manager of the PowerVR services

    src/imgtec/eurasia_km/services4/srvkm/common/resman.c and the constants of
    src/imgtec/eurasia_km/services4/srvkm/include/resman.h, in the release build.
    A context per process lists the resources that the process holds; a resource
    item has a function that frees it.  The items and contexts live in maps from
    addresses to records whose links are addresses (see [PvrLists.v]), so that a
    stale pointer that is followed is [Fault OutOfBounds].

    The lock is dropped around every call of a free function and while a retry
    sleeps.  What the free function and the other threads do then is in the
    environment: [free_fn] and [asleep] give, for each point in time, the calls of
    the resource manager that are made meanwhile, one after the other, and the
    result of the free function.  The environment may call anything that is
    [legal] at that moment.  The local variables that a suspended call will use
    again are recorded in [freeing] and [walking], which the code itself never
    reads: they say what the environment may not free.

    [os_alloc] gives the addresses that the allocator returns; an address that is
    in use, or 0, counts as a failure, and a freed address may come again.  The
    lock is a mutex for kernels from 2.6.37 on, which may not be released when it
    is free, and a semaphore before ([is_mutex]).  [in_interrupt], the bridge lock
    and the messages are not modelled, nor the list check of debug builds. *)

From stdpp Require Import base list numbers option gmap.
From Stdlib Require Import ZArith Lia.
From S2P Require Import Prelude Stateful PvrHash PvrLists.

Local Open Scope Z_scope.

Definition PVRSRV_ERROR_NOT_OWNER : Z := 7.
Definition PVRSRV_ERROR_RETRY : Z := 24.

Definition RESMAN_TYPE_SHARED_PB_DESC : Z := 1.
Definition RESMAN_TYPE_SHARED_PB_DESC_CREATE_LOCK : Z := 2.
Definition RESMAN_TYPE_HW_RENDER_CONTEXT : Z := 3.
Definition RESMAN_TYPE_HW_TRANSFER_CONTEXT : Z := 4.
Definition RESMAN_TYPE_HW_2D_CONTEXT : Z := 5.
Definition RESMAN_TYPE_TRANSFER_CONTEXT : Z := 6.
Definition RESMAN_TYPE_DMA_CLIENT_FIFO_DATA : Z := 7.
Definition RESMAN_TYPE_DISPLAYCLASS_SWAPCHAIN_REF : Z := 8.
Definition RESMAN_TYPE_DISPLAYCLASS_DEVICE : Z := 9.
Definition RESMAN_TYPE_BUFFERCLASS_DEVICE : Z := 10.
Definition RESMAN_TYPE_OS_USERMODE_MAPPING : Z := 11.
Definition RESMAN_TYPE_DEVICEMEM_CONTEXT : Z := 12.
Definition RESMAN_TYPE_DEVICECLASSMEM_MAPPING : Z := 13.
Definition RESMAN_TYPE_DEVICEMEM_MAPPING : Z := 14.
Definition RESMAN_TYPE_DEVICEMEM_WRAP : Z := 15.
Definition RESMAN_TYPE_DEVICEMEM_ALLOCATION : Z := 16.
Definition RESMAN_TYPE_EVENT_OBJECT : Z := 17.
Definition RESMAN_TYPE_SHARED_MEM_INFO : Z := 18.
Definition RESMAN_TYPE_MODIFY_SYNC_OPS : Z := 19.
Definition RESMAN_TYPE_SYNC_INFO : Z := 20.
Definition RESMAN_TYPE_KERNEL_DEVICEMEM_ALLOCATION : Z := 21.

Definition RESMAN_CRITERIA_RESTYPE : Z := 1.
Definition RESMAN_CRITERIA_PVOID_PARAM : Z := 2.
Definition RESMAN_CRITERIA_UI32_PARAM : Z := 4.

Definition CLEANUP_WITH_POLL : bool := false.

(** ** Data *)

Record RESMAN_ITEM := mk_item {
  ri_link : link;
  ui32Flags : Z;
  ui32ResType : Z;
  pvParam : Z;
  ui32Param : Z;
  pfnFreeResource : Z }.

Record RESMAN_CONTEXT := mk_context {
  rc_link : link;
  psPerProc : Z;
  psResItemList : Z }.

Definition set_ri_link (x : link) (r : RESMAN_ITEM) : RESMAN_ITEM :=
  mk_item x (ui32Flags r) (ui32ResType r) (pvParam r) (ui32Param r) (pfnFreeResource r).
Definition set_rc_link (x : link) (r : RESMAN_CONTEXT) : RESMAN_CONTEXT :=
  mk_context x (psPerProc r) (psResItemList r).
Definition set_psResItemList (x : Z) (r : RESMAN_CONTEXT) : RESMAN_CONTEXT :=
  mk_context (rc_link r) (psPerProc r) x.

(** A call of a free function: the function, its arguments and its result. *)
Record free_call := FreeCall {
  fc_fn : Z; fc_pvParam : Z; fc_ui32Param : Z; fc_bForceCleanup : bool; fc_result : Z }.

(** [gpsResList] is [None] before [ResManInit] and the field [psContextList] of
    the list after it. *)
Record resman := mk_rm {
  items : gmap Z RESMAN_ITEM;
  contexts : gmap Z RESMAN_CONTEXT;
  gpsResList : option Z;
  lock : Z;
  clock : nat;
  free_log : list free_call;
  freeing : list Z;
  walking : list Z }.

Definition set_items (x : gmap Z RESMAN_ITEM) (s : resman) : resman :=
  mk_rm x (contexts s) (gpsResList s) (lock s) (clock s) (free_log s) (freeing s) (walking s).
Definition set_contexts (x : gmap Z RESMAN_CONTEXT) (s : resman) : resman :=
  mk_rm (items s) x (gpsResList s) (lock s) (clock s) (free_log s) (freeing s) (walking s).
Definition set_gpsResList (x : option Z) (s : resman) : resman :=
  mk_rm (items s) (contexts s) x (lock s) (clock s) (free_log s) (freeing s) (walking s).
Definition set_lock (x : Z) (s : resman) : resman :=
  mk_rm (items s) (contexts s) (gpsResList s) x (clock s) (free_log s) (freeing s) (walking s).
Definition set_clock (x : nat) (s : resman) : resman :=
  mk_rm (items s) (contexts s) (gpsResList s) (lock s) x (free_log s) (freeing s) (walking s).
Definition set_free_log (x : list free_call) (s : resman) : resman :=
  mk_rm (items s) (contexts s) (gpsResList s) (lock s) (clock s) x (freeing s) (walking s).
Definition set_freeing (x : list Z) (s : resman) : resman :=
  mk_rm (items s) (contexts s) (gpsResList s) (lock s) (clock s) (free_log s) x (walking s).
Definition set_walking (x : list Z) (s : resman) : resman :=
  mk_rm (items s) (contexts s) (gpsResList s) (lock s) (clock s) (free_log s) (freeing s) x.

(** ** The two kinds of lists

    The head of a list of items is in a context; the head of the list of
    contexts is in the object [gpsResList] points to, at address 0 here. *)

Definition item_nodes : Nodes resman := {|
  head_at s h := psResItemList <$> contexts s !! h;
  link_at s n := ri_link <$> items s !! n;
  put_head h v s := set_contexts (alter (set_psResItemList v) h (contexts s)) s;
  put_link n l s := set_items (alter (set_ri_link l) n (items s)) s;
  node_bound s := size (items s) |}.

Definition context_nodes : Nodes resman := {|
  head_at s h := if decide (h = 0) then gpsResList s else None;
  link_at s n := rc_link <$> contexts s !! n;
  put_head h v s := set_gpsResList (Some v) s;
  put_link n l s := set_contexts (alter (set_rc_link l) n (contexts s)) s;
  node_bound s := size (contexts s) |}.

Definition RM (A : Type) : Type := ST resman A.

Definition List_RESMAN_ITEM_Any_va (psHead : Z) (cb : Z -> RM Z) : RM Z :=
  fuel ← gets (@node_bound _ item_nodes);
  @List_Any_va _ item_nodes fuel psHead cb.
Definition List_RESMAN_ITEM_IMG_BOOL_Any_va (psHead : Z) (cb : Z -> RM bool) : RM bool :=
  fuel ← gets (@node_bound _ item_nodes);
  @List_Any_va_2 _ item_nodes _ _ false fuel psHead cb false.
Definition List_RESMAN_ITEM_Insert : slot -> Z -> RM unit := @List_Insert _ item_nodes.
Definition List_RESMAN_ITEM_Remove : Z -> RM unit := @List_Remove _ item_nodes.
Definition List_RESMAN_ITEM_Reverse (ppsHead : slot) : RM unit :=
  fuel ← gets (@node_bound _ item_nodes);
  @List_Reverse _ item_nodes fuel ppsHead.
Definition List_RESMAN_CONTEXT_Insert : slot -> Z -> RM unit := @List_Insert _ context_nodes.
Definition List_RESMAN_CONTEXT_Remove : Z -> RM unit := @List_Remove _ context_nodes.

(** The contexts, and the items of a context, in the order of the lists. *)
Definition contexts_of (s : resman) : list Z := @list_at _ context_nodes s 0.
Definition items_of (s : resman) (c : Z) : list Z := @list_at _ item_nodes s c.

(** ** The calls and the environment *)

Inductive call :=
| Init
| DeInit
| Connect (hPerProc : Z)
| Disconnect (psResManContext : Z) (bKernelContext : bool)
| RegisterRes (psResManContext ui32ResType pvParam ui32Param pfnFreeResource : Z)
| FreeResByPtr (psResItem : Z) (bForceCleanup : bool)
| FreeResByCriteria (psResManContext ui32SearchCriteria ui32ResType pvParam ui32Param : Z)
| DissociateRes (psResItem psNewResManContext : Z)
| FindResourceByPtr (psResManContext psItem : Z).

Record env := {
  is_mutex : bool;
  os_alloc : nat -> option Z;
  free_fn : nat -> Z * list call;
  asleep : nat -> list call }.

(** The test of [FreeResourceByCriteria_AnyVaCb]. *)
Definition matches (ui32SearchCriteria type pv ui : Z) (psCurItem : RESMAN_ITEM) : bool :=
  ((Z.land ui32SearchCriteria RESMAN_CRITERIA_RESTYPE =? 0) || (ui32ResType psCurItem =? type)) &&
  ((Z.land ui32SearchCriteria RESMAN_CRITERIA_PVOID_PARAM =? 0) || (pvParam psCurItem =? pv)) &&
  ((Z.land ui32SearchCriteria RESMAN_CRITERIA_UI32_PARAM =? 0) || (ui32Param psCurItem =? ui)).

Definition item_matches (s : resman) (crit type pv ui i : Z) : bool :=
  match items s !! i with Some r => matches crit type pv ui r | None => false end.

(** An item that is in the list of a context. *)
Definition owned (s : resman) (i : Z) : bool :=
  existsb (fun c => bool_decide (i ∈ items_of s c)) (contexts_of s).

Definition connected (s : resman) (c : Z) : bool := bool_decide (c ∈ contexts_of s).

(** What a caller may do: it names contexts that are connected and items that
    are registered, and frees none that a call in progress is about to use. *)
Definition legal (E : env) (s : resman) (c : call) : bool :=
  match c with
  | Init => true
  | DeInit => bool_decide (contexts_of s = [])
  | Connect _ => bool_decide (is_Some (gpsResList s))
  | Disconnect c _ =>
      connected s c && bool_decide (c ∉ walking s) &&
      forallb (fun i => bool_decide (i ∉ items_of s c)) (freeing s)
  | RegisterRes c _ _ _ _ => (c =? 0) || connected s c
  | FreeResByPtr i _ => (i =? 0) || (owned s i && bool_decide (i ∉ freeing s))
  | FreeResByCriteria c crit type pv ui =>
      connected s c &&
      forallb (fun i => bool_decide (i ∉ items_of s c) || negb (item_matches s crit type pv ui i))
        (freeing s)
  | DissociateRes i c =>
      (i =? 0) ||
      (owned s i && bool_decide (i ∉ freeing s) &&
       (if c =? 0 then negb (is_mutex E) else connected s c))
  | FindResourceByPtr c i => (c =? 0) || (i =? 0) || connected s c
  end.

Section Resman.
Context (E : env).

(** ** Access to the state *)

Definition item (i : Z) : RM RESMAN_ITEM := found (fun s => items s !! i).
Definition context (c : Z) : RM RESMAN_CONTEXT := found (fun s => contexts s !! c).

Definition tick : RM nat := fun s => Ok (clock s, set_clock (S (clock s)) s).

Definition ACQUIRE_SYNC_OBJ : RM unit :=
  n ← gets lock;
  if n <=? 0 then st_fault LockError else modify (set_lock (n - 1)).

Definition RELEASE_SYNC_OBJ : RM unit :=
  n ← gets lock;
  if is_mutex E && (0 <? n) then st_fault LockError else modify (set_lock (n + 1)).

(** The address of new memory, or 0. *)
Definition OSAllocMem : RM Z :=
  n ← tick;
  items ← gets items;
  contexts ← gets contexts;
  mret (match os_alloc E n with
        | Some p => if bool_decide (p <> 0 /\ items !! p = None /\ contexts !! p = None) then p else 0
        | None => 0
        end).

Definition free_item (i : Z) : RM unit := modify (fun s => set_items (delete i (items s)) s).
Definition free_context (c : Z) : RM unit :=
  modify (fun s => set_contexts (delete c (contexts s)) s).

(** Remember a local variable while others run. *)
Definition with_item (psItem : Z) (m : RM unit) : RM unit :=
  modify (fun s => set_freeing (psItem :: freeing s) s);;
  m;;
  modify (fun s => set_freeing (tail (freeing s)) s).

Definition with_context {A} (psContext : Z) (m : RM A) : RM A :=
  modify (fun s => set_walking (psContext :: walking s) s);;
  a ← m;
  modify (fun s => set_walking (tail (walking s)) s);;
  mret a.

(** ** The code *)

Definition ResManInit : RM Z :=
  g ← gets gpsResList;
  match g with
  | Some _ => mret PVRSRV_OK
  | None =>
      n ← tick;
      match os_alloc E n with
      | None => mret PVRSRV_ERROR_OUT_OF_MEMORY
      | Some _ => modify (set_gpsResList (Some 0));; mret PVRSRV_OK
      end
  end.

Definition ResManDeInit : RM unit := modify (set_gpsResList None).

(** The error and [*phResManContext]. *)
Definition PVRSRVResManConnect (hPerProc : Z) : RM (Z * Z) :=
  ACQUIRE_SYNC_OBJ;;
  psResManContext ← OSAllocMem;
  if psResManContext =? 0 then
    RELEASE_SYNC_OBJ;;
    mret (PVRSRV_ERROR_OUT_OF_MEMORY, 0)
  else
    modify (fun s => set_contexts
      (<[psResManContext := mk_context (Link (Head 0) 0) hPerProc 0]> (contexts s)) s);;
    List_RESMAN_CONTEXT_Insert (Head 0) psResManContext;;
    RELEASE_SYNC_OBJ;;
    mret (PVRSRV_OK, psResManContext).

Definition ResManRegisterRes (psResManContext type pv ui fn : Z) : RM Z :=
  if psResManContext =? 0 then mret 0 else
  ACQUIRE_SYNC_OBJ;;
  psNewResItem ← OSAllocMem;
  if psNewResItem =? 0 then
    RELEASE_SYNC_OBJ;;
    mret 0
  else
    modify (fun s => set_items
      (<[psNewResItem := mk_item (Link (Head 0) 0) 0 type pv ui fn]> (items s)) s);;
    List_RESMAN_ITEM_Insert (Head psResManContext) psNewResItem;;
    RELEASE_SYNC_OBJ;;
    mret psNewResItem.

Definition ResManFindResourceByPtr_AnyVaCb (psItem psCurItem : Z) : RM bool :=
  mret (psCurItem =? psItem).

Definition ResManFindResourceByPtr (psResManContext psItem : Z) : RM Z :=
  if (psItem =? 0) || (psResManContext =? 0) then mret PVRSRV_ERROR_INVALID_PARAMS else
  ACQUIRE_SYNC_OBJ;;
  c ← context psResManContext;
  b ← List_RESMAN_ITEM_IMG_BOOL_Any_va (psResItemList c) (ResManFindResourceByPtr_AnyVaCb psItem);
  let eResult := if (b : bool) then PVRSRV_OK else PVRSRV_ERROR_NOT_OWNER in
  RELEASE_SYNC_OBJ;;
  mret eResult.

(** The node, or 0. *)
Definition FreeResourceByCriteria_AnyVaCb (crit type pv ui psCurItem : Z) : RM Z :=
  r ← item psCurItem;
  mret (if matches crit type pv ui r then psCurItem else 0).

(** The calls that free items take what runs while the lock is not held, and
    the fuel of their loops. *)
Section Unlocked.
Context (others : list call -> RM unit).

(** [psItem->pfnFreeResource(psItem->pvParam, psItem->ui32Param, bForceCleanup)] *)
Definition call_free (psItem : Z) (bForceCleanup : bool) : RM Z :=
  r ← item psItem;
  n ← tick;
  let '(eError, cs) := free_fn E n in
  modify (fun s => set_free_log
    (FreeCall (pfnFreeResource r) (pvParam r) (ui32Param r) bForceCleanup eError :: free_log s) s);;
  with_item psItem (others cs);;
  mret eError.

Definition FreeResourceByPtr (psItem : Z) (bExecuteCallback bForceCleanup : bool) : RM Z :=
  if psItem =? 0 then mret PVRSRV_ERROR_INVALID_PARAMS else
  RELEASE_SYNC_OBJ;;
  eError ← (if bExecuteCallback then call_free psItem bForceCleanup else mret PVRSRV_OK);
  ACQUIRE_SYNC_OBJ;;
  if eError =? PVRSRV_ERROR_RETRY then mret eError else
  List_RESMAN_ITEM_Remove psItem;;
  free_item psItem;;
  mret eError.

(** [do ... while (eError == PVRSRV_ERROR_RETRY)] *)
Fixpoint retry_loop (fuel : nat) (psCurItem : Z) (bExecuteCallback : bool) : RM Z :=
  match fuel with
  | O => st_fault OutOfFuel
  | S fuel =>
      eError ← FreeResourceByPtr psCurItem bExecuteCallback CLEANUP_WITH_POLL;
      if eError =? PVRSRV_ERROR_RETRY then
        RELEASE_SYNC_OBJ;;
        n ← tick;
        with_item psCurItem (others (asleep E n));;
        ACQUIRE_SYNC_OBJ;;
        retry_loop fuel psCurItem bExecuteCallback
      else mret eError
  end.

Fixpoint criteria_loop (fuel : nat) (psResManContext crit type pv ui : Z)
    (bExecuteCallback : bool) (eError : Z) : RM Z :=
  c ← context psResManContext;
  psCurItem ← List_RESMAN_ITEM_Any_va (psResItemList c)
                (FreeResourceByCriteria_AnyVaCb crit type pv ui);
  if negb (psCurItem =? 0) && (eError =? PVRSRV_OK) then
    match fuel with
    | O => st_fault OutOfFuel
    | S fuel =>
        eError ← retry_loop fuel psCurItem bExecuteCallback;
        criteria_loop fuel psResManContext crit type pv ui bExecuteCallback eError
    end
  else mret eError.

Definition FreeResourceByCriteria (fuel : nat) (psResManContext crit type pv ui : Z)
    (bExecuteCallback : bool) : RM Z :=
  with_context psResManContext
    (criteria_loop fuel psResManContext crit type pv ui bExecuteCallback PVRSRV_OK).

Definition free_type (fuel : nat) (psResManContext type : Z) : RM unit :=
  FreeResourceByCriteria fuel psResManContext RESMAN_CRITERIA_RESTYPE type 0 0 true;;
  mret tt.

Definition PVRSRVResManDisconnect (fuel : nat) (psResManContext : Z) (bKernelContext : bool) : RM unit :=
  ACQUIRE_SYNC_OBJ;;
  st_when (negb bKernelContext) (
    free_type fuel psResManContext RESMAN_TYPE_OS_USERMODE_MAPPING;;
    free_type fuel psResManContext RESMAN_TYPE_DMA_CLIENT_FIFO_DATA;;
    free_type fuel psResManContext RESMAN_TYPE_EVENT_OBJECT;;
    List_RESMAN_ITEM_Reverse (Head psResManContext);;
    free_type fuel psResManContext RESMAN_TYPE_MODIFY_SYNC_OPS;;
    List_RESMAN_ITEM_Reverse (Head psResManContext);;
    free_type fuel psResManContext RESMAN_TYPE_HW_RENDER_CONTEXT;;
    free_type fuel psResManContext RESMAN_TYPE_HW_TRANSFER_CONTEXT;;
    free_type fuel psResManContext RESMAN_TYPE_HW_2D_CONTEXT;;
    free_type fuel psResManContext RESMAN_TYPE_TRANSFER_CONTEXT;;
    free_type fuel psResManContext RESMAN_TYPE_SHARED_PB_DESC_CREATE_LOCK;;
    free_type fuel psResManContext RESMAN_TYPE_SHARED_PB_DESC;;
    free_type fuel psResManContext RESMAN_TYPE_SYNC_INFO;;
    free_type fuel psResManContext RESMAN_TYPE_DEVICECLASSMEM_MAPPING;;
    free_type fuel psResManContext RESMAN_TYPE_DEVICEMEM_WRAP;;
    free_type fuel psResManContext RESMAN_TYPE_DEVICEMEM_MAPPING;;
    free_type fuel psResManContext RESMAN_TYPE_KERNEL_DEVICEMEM_ALLOCATION;;
    free_type fuel psResManContext RESMAN_TYPE_DEVICEMEM_ALLOCATION;;
    free_type fuel psResManContext RESMAN_TYPE_DEVICEMEM_CONTEXT;;
    free_type fuel psResManContext RESMAN_TYPE_SHARED_MEM_INFO;;
    free_type fuel psResManContext RESMAN_TYPE_DISPLAYCLASS_SWAPCHAIN_REF;;
    free_type fuel psResManContext RESMAN_TYPE_DISPLAYCLASS_DEVICE;;
    free_type fuel psResManContext RESMAN_TYPE_BUFFERCLASS_DEVICE);;
  List_RESMAN_CONTEXT_Remove psResManContext;;
  free_context psResManContext;;
  RELEASE_SYNC_OBJ.

Definition ResManFreeResByPtr (psResItem : Z) (bForceCleanup : bool) : RM Z :=
  if psResItem =? 0 then mret PVRSRV_OK else
  ACQUIRE_SYNC_OBJ;;
  eError ← FreeResourceByPtr psResItem true bForceCleanup;
  RELEASE_SYNC_OBJ;;
  mret eError.

Definition ResManFreeResByCriteria (fuel : nat) (psResManContext crit type pv ui : Z) : RM Z :=
  ACQUIRE_SYNC_OBJ;;
  eError ← FreeResourceByCriteria fuel psResManContext crit type pv ui true;
  RELEASE_SYNC_OBJ;;
  mret eError.

Definition ResManDissociateRes (psResItem psNewResManContext : Z) : RM Z :=
  if psResItem =? 0 then mret PVRSRV_ERROR_INVALID_PARAMS else
  if negb (psNewResManContext =? 0) then
    List_RESMAN_ITEM_Remove psResItem;;
    List_RESMAN_ITEM_Insert (Head psNewResManContext) psResItem;;
    mret PVRSRV_OK
  else
    FreeResourceByPtr psResItem false CLEANUP_WITH_POLL.

(** One call, its result dropped. *)
Definition exec_call (fuel : nat) (c : call) : RM unit :=
  match c with
  | Init => ResManInit;; mret tt
  | DeInit => ResManDeInit
  | Connect p => PVRSRVResManConnect p;; mret tt
  | Disconnect c k => PVRSRVResManDisconnect fuel c k
  | RegisterRes c type pv ui fn => ResManRegisterRes c type pv ui fn;; mret tt
  | FreeResByPtr i b => ResManFreeResByPtr i b;; mret tt
  | FreeResByCriteria c crit type pv ui => ResManFreeResByCriteria fuel c crit type pv ui;; mret tt
  | DissociateRes i c => ResManDissociateRes i c;; mret tt
  | FindResourceByPtr c i => ResManFindResourceByPtr c i;; mret tt
  end.
End Unlocked.

(** The calls that are legal when their turn comes. *)
Fixpoint each_legal (f : call -> RM unit) (cs : list call) : RM unit :=
  match cs with
  | [] => mret tt
  | c :: cs =>
      ok ← gets (fun s => legal E s c);
      st_when ok (f c);;
      each_legal f cs
  end.

(** A sequence of calls; [fuel] bounds the depth of calls within free functions
    and the turns of the loops. *)
Fixpoint run_calls (fuel : nat) (cs : list call) : RM unit :=
  match fuel with
  | O => match cs with [] => mret tt | _ => st_fault OutOfFuel end
  | S fuel => each_legal (exec_call (run_calls fuel) fuel) cs
  end.
End Resman.

(** Before the first call. *)
Definition resman0 : resman := mk_rm ∅ ∅ None 1 0 [] [] [].
