(* ===== verification/PvrResmanRep.v ===== *)
(** * The lists of the resource manager

    [rep s cs L]: the memory of the resource manager holds the contexts [cs] and,
    for each of them, the items [L c], as well-formed lists.  The lemmas say how
    each list operation of the code changes [cs] and [L]. *)

From stdpp Require Import functions base numbers option gmap fin_maps sets list.
From Stdlib Require Import ZArith Lia.
From S2P Require Import Prelude Stateful PvrHash PvrLists PvrListFacts PvrResman.

Local Open Scope Z_scope.

Abbreviation is_items := (@is_list _ item_nodes).
Abbreviation is_contexts := (@is_list _ context_nodes).

(** ** What list operations leave alone *)

Definition item_data (r : RESMAN_ITEM) : Z * Z * Z * Z * Z :=
  (ui32Flags r, ui32ResType r, pvParam r, ui32Param r, pfnFreeResource r).

Definition item_rest (s : resman) :=
  (item_data <$> items s, (fun c => (rc_link c, psPerProc c)) <$> contexts s, gpsResList s,
   lock s, clock s, free_log s, (freeing s, walking s)).

Definition context_rest (s : resman) :=
  (items s, (fun c => (psPerProc c, psResItemList c)) <$> contexts s,
   lock s, clock s, free_log s, (freeing s, walking s)).

Lemma alter_fmap_same {A B} (f : A -> B) (g : A -> A) (m : gmap Z A) (i : Z) :
  (forall x, f (g x) = f x) -> f <$> alter g i m = f <$> m.
Proof.
  intros Hf. apply map_eq. intros j. rewrite !lookup_fmap.
  destruct (decide (i = j)) as [->|Hij].
  - rewrite lookup_alter_eq. destruct (m !! j); simpl; [by rewrite Hf|done].
  - by rewrite lookup_alter_ne.
Qed.

Lemma size_bound {A} (m : gmap Z A) (l : list Z) :
  NoDup l -> (forall n, n ∈ l -> is_Some (m !! n)) -> (length l <= size m)%nat.
Proof.
  intros Hnd Hl. rewrite <- size_dom, <- (size_list_to_set (C := gset Z) l) by done.
  apply subseteq_size. intros n Hn. apply elem_of_dom, Hl. by apply elem_of_list_to_set in Hn.
Qed.

Lemma alter_lookup {A B} (f : A -> B) (g : A -> A) (m : gmap Z A) (i j : Z) (v : B) :
  is_Some (f <$> m !! i) -> (forall x, f (g x) = v) ->
  f <$> alter g i m !! j = if decide (i = j) then Some v else f <$> m !! j.
Proof.
  intros Hi Hg. case_decide as Hij; [subst|by rewrite lookup_alter_ne].
  rewrite lookup_alter_eq. destruct (m !! j); [simpl; by rewrite Hg|by destruct Hi].
Qed.

#[export] Instance item_laws : @NodesLaws resman _ item_nodes item_rest.
Proof.
  split; simpl.
  - intros s h h' v Hh. by apply alter_lookup.
  - done.
  - intros s h v _. unfold item_rest. simpl. by rewrite alter_fmap_same.
  - done.
  - intros s n n' l Hn. by apply alter_lookup.
  - intros s n l _. unfold item_rest. simpl. by rewrite alter_fmap_same.
  - intros s l Hnd Hl. apply size_bound; [done|]. intros n Hn.
    specialize (Hl n Hn). by rewrite fmap_is_Some in Hl.
Qed.

#[export] Instance context_laws : @NodesLaws resman _ context_nodes context_rest.
Proof.
  split; simpl.
  - intros s h h' v [x Hh]. repeat case_decide; naive_solver.
  - done.
  - done.
  - done.
  - intros s n n' l Hn. by apply alter_lookup.
  - intros s n l _. unfold context_rest. simpl. by rewrite alter_fmap_same.
  - intros s l Hnd Hl. apply size_bound; [done|]. intros n Hn.
    specialize (Hl n Hn). by rewrite fmap_is_Some in Hl.
Qed.

(** ** The representation *)

Record rep (s : resman) (cs : list Z) (L : Z -> list Z) : Prop := {
  rep_list : if gpsResList s is Some _ then is_contexts s 0 cs else cs = [];
  rep_dom c : is_Some (contexts s !! c) <-> c ∈ cs;
  rep_items c : c ∈ cs -> is_items s c (L c);
  rep_disj c c' i : c ∈ cs -> c' ∈ cs -> i ∈ L c -> i ∈ L c' -> c = c';
  rep_null : items s !! 0 = None }.

Lemma rep_context_nz s cs L c : rep s cs L -> c ∈ cs -> c <> 0.
Proof.
  intros [Hl _ _ _ _] Hc. destruct (gpsResList s); [|subst; set_solver].
  by destruct (is_list_node (H := context_nodes) _ _ _ _ Hl Hc).
Qed.

Lemma rep_item s cs L c i : rep s cs L -> c ∈ cs -> i ∈ L c -> i <> 0 /\ is_Some (items s !! i).
Proof.
  intros Hr Hc Hi. destruct (is_list_node (H := item_nodes) _ _ _ _ (rep_items _ _ _ Hr c Hc) Hi) as [H0 H1].
  split; [done|]. simpl in H1. by rewrite fmap_is_Some in H1.
Qed.

Lemma rep_nodup s cs L : rep s cs L -> NoDup cs.
Proof. intros [Hl _ _ _ _]. destruct (gpsResList s); [by destruct Hl|subst; constructor]. Qed.

(** The representation is what the walks of the lists compute. *)
Lemma rep_contexts_of s cs L : rep s cs L -> contexts_of s = cs.
Proof.
  intros Hr. unfold contexts_of. destruct (gpsResList s) as [v|] eqn:E.
  - pose proof (rep_list _ _ _ Hr) as Hl. rewrite E in Hl.
    apply (list_at_is_list (H := context_nodes)); [|done].
    simpl. destruct (contexts s !! 0) eqn:E0; [|done].
    destruct (rep_context_nz _ _ _ 0 Hr); [|done]. apply (rep_dom _ _ _ Hr). by eexists.
  - unfold list_at. simpl. rewrite E. pose proof (rep_list _ _ _ Hr) as Hl. by rewrite E in Hl.
Qed.

Lemma rep_items_of s cs L c : rep s cs L -> items_of s c = if decide (c ∈ cs) then L c else [].
Proof.
  intros Hr. unfold items_of. case_decide as Hc.
  - apply (list_at_is_list (H := item_nodes)); [|by apply (rep_items _ _ _ Hr)].
    simpl. by rewrite (rep_null _ _ _ Hr).
  - unfold list_at. simpl. destruct (contexts s !! c) eqn:E; [|done].
    destruct Hc. apply (rep_dom _ _ _ Hr). by eexists.
Qed.

(** [L] matters on the contexts only. *)
Lemma rep_ext s cs L L' : (forall c, c ∈ cs -> L' c = L c) -> rep s cs L -> rep s cs L'.
Proof.
  intros HL [H1 H2 H3 H4 H5]. split; [done|done| | |done].
  - intros c Hc. rewrite HL by done. auto.
  - intros c c' i Hc Hc'. rewrite !HL by done. eauto.
Qed.

(** ** Operations on the lists of items *)

Lemma item_rest_contexts s s' :
  item_rest s' = item_rest s ->
  gpsResList s' = gpsResList s /\ (forall c, rc_link <$> contexts s' !! c = rc_link <$> contexts s !! c).
Proof.
  unfold item_rest. intros [= _ Hc Hg _]. split; [done|]. intros c.
  assert ((fun c => (rc_link c, psPerProc c)) <$> contexts s' !! c =
          (fun c => (rc_link c, psPerProc c)) <$> contexts s !! c) as E.
  { rewrite <- !lookup_fmap. by rewrite Hc. }
  destruct (contexts s' !! c), (contexts s !! c); simpl in *; congruence.
Qed.

Lemma item_rest_dom s s' i :
  item_rest s' = item_rest s -> is_Some (items s' !! i) <-> is_Some (items s !! i).
Proof.
  unfold item_rest. intros [= Hi _]. rewrite <- !(fmap_is_Some item_data), <- !lookup_fmap. by rewrite Hi.
Qed.

(** A change of the list of one context. *)
Lemma rep_update s s' cs L c l l' :
  rep s cs L -> c ∈ cs -> same_but (H := item_nodes) (rest := item_rest) c l s s' ->
  is_items s' c l' -> l' ⊆ l -> (forall c' i, c' ∈ cs -> c' <> c -> i ∈ L c' -> i ∉ l) ->
  rep s' cs (<[c := l']> L).
Proof.
  intros Hr Hc Hsb Hl' Hsub Hd. destruct (item_rest_contexts _ _ (sb_rest _ _ _ _ Hsb)) as [Hg Hlk].
  split.
  - rewrite Hg. pose proof (rep_list _ _ _ Hr) as Hl. destruct (gpsResList s) eqn:Eg; [|done].
    destruct Hl as [H1 H2 H3]. split; [simpl in *; congruence| |done].
    apply (links_frame (H := context_nodes) _ _ s); [|done]. intros n _. apply Hlk.
  - intros c'. rewrite <- (rep_dom _ _ _ Hr c'), <- !(fmap_is_Some rc_link). by rewrite Hlk.
  - intros c' Hc'. destruct (decide (c' = c)) as [->|Hne]; [by rewrite fn_lookup_insert|].
    rewrite fn_lookup_insert_ne by done.
    apply (is_list_frame (H := item_nodes) c c' l _ s); [done|done| |by apply (rep_items _ _ _ Hr)].
    intros i Hi. by apply (Hd c').
  - assert (forall c' i, c' ∈ cs -> c' <> c -> i ∈ L c' -> i ∉ l') as Hd' by set_solver.
    intros c1 c2 i H1 H2. destruct (decide (c1 = c)) as [->|N1], (decide (c2 = c)) as [->|N2];
      rewrite ?fn_lookup_insert, ?fn_lookup_insert_ne by done; [done| | |by apply (rep_disj _ _ _ Hr)].
    + intros Hi Hi2. by destruct (Hd' c2 i).
    + intros Hi Hi2. by destruct (Hd' c1 i).
  - apply eq_None_not_Some. rewrite (item_rest_dom s s') by apply Hsb. rewrite (rep_null _ _ _ Hr).
    by intros [].
Qed.

Lemma rep_insert_item s cs L c i :
  rep s cs L -> c ∈ cs -> i <> 0 -> is_Some (items s !! i) -> (forall c, c ∈ cs -> i ∉ L c) ->
  runs (List_RESMAN_ITEM_Insert (Head c) i) s (fun _ s' =>
    rep s' cs (<[c := i :: L c]> L) /\ item_rest s' = item_rest s).
Proof.
  intros Hr Hc H0 Hi Hn. eapply st_runs_mono.
  { apply (List_Insert_spec (H := item_nodes) s c (L c) i);
      [by apply (rep_items _ _ _ Hr)|by apply Hn|done|simpl; by rewrite fmap_is_Some]. }
  intros _ s' [Hl Hsb]. split; [|apply Hsb].
  eapply rep_update; [done..|set_solver|]. intros c' j Hc' Hne Hj.
  assert (j <> i) by (intros ->; by apply (Hn c')).
  assert (j ∉ L c) by (intros Hj'; apply Hne; by apply (rep_disj _ _ _ Hr c' c j)). set_solver.
Qed.

Lemma rep_reverse_items s cs L c :
  rep s cs L -> c ∈ cs ->
  runs (List_RESMAN_ITEM_Reverse (Head c)) s (fun _ s' =>
    rep s' cs (<[c := reverse (L c)]> L) /\ item_rest s' = item_rest s).
Proof.
  intros Hr Hc. unfold List_RESMAN_ITEM_Reverse. st_get.
  eapply st_runs_mono.
  { apply (List_Reverse_spec (H := item_nodes) s c (L c)). by apply (rep_items _ _ _ Hr). }
  intros _ s' [Hl Hsb]. split; [|apply Hsb].
  eapply rep_update; [done..|intros x Hx; by rewrite elem_of_reverse in Hx|].
  intros c' j Hc' Hne Hj Hj'. apply Hne. by apply (rep_disj _ _ _ Hr c' c j).
Qed.

(** The list without a node. *)
Definition without (i : Z) (l : list Z) : list Z := filter (.≠ i) l.

Lemma without_notin i l : i ∉ l -> without i l = l.
Proof.
  unfold without. induction l as [|x l IH]; [done|]. intros Hi. rewrite filter_cons.
  rewrite decide_True by set_solver. rewrite IH by set_solver. done.
Qed.

Lemma without_mid i l1 l2 : NoDup (l1 ++ i :: l2) -> without i (l1 ++ i :: l2) = l1 ++ l2.
Proof.
  intros (Hnd & Hd & [Hi Hnd2]%NoDup_cons)%NoDup_app. unfold without. rewrite filter_app, filter_cons.
  rewrite decide_False by auto. fold (without i l1) (without i l2).
  rewrite !without_notin; [done|done|]. intros Hi1. apply (Hd i Hi1). set_solver.
Qed.

Lemma elem_of_without i j l : j ∈ without i l <-> j ∈ l /\ j <> i.
Proof. unfold without. rewrite list_elem_of_filter. tauto. Qed.

Lemma rep_remove_item s cs L c i :
  rep s cs L -> c ∈ cs -> i ∈ L c ->
  runs (List_RESMAN_ITEM_Remove i) s (fun _ s' =>
    rep s' cs (<[c := without i (L c)]> L) /\ item_rest s' = item_rest s).
Proof.
  intros Hr Hc Hi. pose proof (rep_items _ _ _ Hr c Hc) as Hl.
  destruct (list_elem_of_split _ _ Hi) as (l1 & l2 & E). rewrite E in Hl.
  eapply st_runs_mono; [by apply (List_Remove_spec (H := item_nodes) s c l1 l2 i)|].
  intros _ s' [Hl' Hsb]. split; [|apply Hsb].
  rewrite E, without_mid by apply Hl. eapply rep_update; [done..|set_solver|].
  intros c' j Hc' Hne Hj. rewrite <- E. intros Hj'. apply Hne. by apply (rep_disj _ _ _ Hr c' c j).
Qed.

(** ** Items that come and go *)

(** Nothing but the items outside the lists differs. *)
Lemma rep_items_frame s s' cs L :
  contexts s' = contexts s -> gpsResList s' = gpsResList s -> items s' !! 0 = None ->
  (forall c i, c ∈ cs -> i ∈ L c -> items s' !! i = items s !! i) ->
  rep s cs L -> rep s' cs L.
Proof.
  intros Hc Hg H0 Hi [H1 H2 H3 H4 H5]. split; [|by rewrite Hc| |done|done].
  - rewrite Hg. destruct (gpsResList s) eqn:Eg; [|done]. destruct H1 as [E1 E2 E3].
    split; [simpl in *; congruence| |done].
    apply (links_frame (H := context_nodes) _ _ s); [|done]. intros n _. simpl. by rewrite Hc.
  - intros c Hc'. destruct (H3 c Hc') as [E1 E2 E3]. split; [by simpl in *; rewrite Hc| |done].
    apply (links_frame (H := item_nodes) _ _ s); [|done]. intros n Hn. simpl. by rewrite (Hi c).
Qed.

Lemma rep_new_item s cs L i r :
  rep s cs L -> i <> 0 -> items s !! i = None ->
  rep (set_items (<[i := r]> (items s)) s) cs L /\ forall c, c ∈ cs -> i ∉ L c.
Proof.
  intros Hr H0 Hi.
  assert (forall c, c ∈ cs -> i ∉ L c) as Hn.
  { intros c Hc Hl. destruct (rep_item _ _ _ _ _ Hr Hc Hl) as [_ [x Hx]]. congruence. }
  split; [|done]. apply (rep_items_frame s); [done|done| | |done]; simpl.
  - by rewrite lookup_insert_ne, (rep_null _ _ _ Hr).
  - intros c j Hc Hj. rewrite lookup_insert_ne; [done|]. intros ->. by apply (Hn c).
Qed.

Lemma rep_free_item s cs L i :
  rep s cs L -> (forall c, c ∈ cs -> i ∉ L c) -> rep (set_items (delete i (items s)) s) cs L.
Proof.
  intros Hr Hn. apply (rep_items_frame s); [done|done| | |done]; simpl.
  - apply lookup_delete_None. right. apply (rep_null _ _ _ Hr).
  - intros c j Hc Hj. rewrite lookup_delete_ne; [done|]. intros ->. by apply (Hn c).
Qed.

(** ** Operations on the list of contexts *)

Lemma is_items_frame s s' c l :
  items s' = items s -> psResItemList <$> contexts s' !! c = psResItemList <$> contexts s !! c ->
  is_items s c l -> is_items s' c l.
Proof.
  intros Hi Hc [E1 E2 E3]. split; [simpl in *; congruence| |done].
  apply (links_frame (H := item_nodes) _ _ s); [|done]. intros n _. simpl. by rewrite Hi.
Qed.

Lemma context_rest_frame s s' c :
  context_rest s' = context_rest s ->
  items s' = items s /\ psResItemList <$> contexts s' !! c = psResItemList <$> contexts s !! c /\
  (is_Some (contexts s' !! c) <-> is_Some (contexts s !! c)).
Proof.
  unfold context_rest. intros [= Hi Hc _].
  assert ((fun c => (psPerProc c, psResItemList c)) <$> contexts s' !! c =
          (fun c => (psPerProc c, psResItemList c)) <$> contexts s !! c) as E.
  { rewrite <- !lookup_fmap. by rewrite Hc. }
  destruct (contexts s' !! c), (contexts s !! c); simpl in *; try done.
  split_and!; [done|congruence|]. by split; eexists.
Qed.

(** A change of the list of contexts that keeps the items. *)
Lemma rep_recontext s s' cs cs' L :
  rep s cs L -> items s' = items s -> is_Some (gpsResList s') -> is_contexts s' 0 cs' ->
  (forall c, is_Some (contexts s' !! c) <-> c ∈ cs') -> 
  (forall c, c ∈ cs' ->
     (c ∈ cs /\ psResItemList <$> contexts s' !! c = psResItemList <$> contexts s !! c) \/
     ((c ∉ cs) /\ L c = [] /\ psResItemList <$> contexts s' !! c = Some 0)) ->
  rep s' cs' L.
Proof.
  intros Hr Hi Hg Hl Hd Hh. split.
  - by destruct Hg as [? ->].
  - done.
  - intros c Hc. destruct (Hh c Hc) as [[Hc' E]|(Hc' & E & E')].
    + by apply (is_items_frame s), (rep_items _ _ _ Hr).
    + rewrite E. by split; [|constructor|constructor].
  - intros c c' i Hc Hc' Hic Hic'.
    destruct (Hh c Hc) as [[? _]|(_ & E & _)]; [|rewrite E in Hic; set_solver].
    destruct (Hh c' Hc') as [[? _]|(_ & E & _)]; [|rewrite E in Hic'; set_solver].
    by apply (rep_disj _ _ _ Hr c c' i).
  - rewrite Hi. apply (rep_null _ _ _ Hr).
Qed.

Lemma rep_connect s cs L p hp :
  rep s cs L -> is_Some (gpsResList s) -> p <> 0 -> contexts s !! p = None ->
  let s1 := set_contexts (<[p := mk_context (Link (Head 0) 0) hp 0]> (contexts s)) s in
  runs (List_RESMAN_CONTEXT_Insert (Head 0) p) s1 (fun _ s' =>
    rep s' (p :: cs) (<[p := []]> L) /\ context_rest s' = context_rest s1).
Proof.
  intros Hr [v Hg] H0 Hp s1.
  assert (p ∉ cs) as Hpc by (rewrite <- (rep_dom _ _ _ Hr), Hp; intros []; congruence).
  assert (is_contexts s 0 cs) as Hl by (pose proof (rep_list _ _ _ Hr) as Hl; by rewrite Hg in Hl).
  assert (is_contexts s1 0 cs) as Hl1.
  { destruct Hl as [E1 E2 E3]. split; [done| |done].
    apply (links_frame (H := context_nodes) _ _ s); [|done]. intros n Hn. simpl.
    rewrite lookup_insert_ne by set_solver. done. }
  eapply st_runs_mono.
  { apply (List_Insert_spec (H := context_nodes) s1 0 cs p Hl1 Hpc H0).
    simpl. rewrite lookup_insert_eq. by eexists. }
  intros _ s' [Hl' Hsb]. split; [|apply Hsb]. pose proof (sb_rest _ _ _ _ Hsb) as Hrest.
  apply (rep_recontext s _ cs).
  - apply (rep_ext _ _ L); [|done]. intros c Hc. apply fn_lookup_insert_ne. set_solver.
  - apply (context_rest_frame _ _ p) in Hrest as [E _]. by rewrite E.
  - exists (first (p :: cs)). apply (il_head _ _ _ Hl').
  - done.
  - intros c. pose proof (context_rest_frame _ _ c Hrest) as (_ & _ & Ec). rewrite Ec. simpl.
    rewrite lookup_insert_is_Some, (rep_dom _ _ _ Hr). set_unfold. destruct (decide (c = p)); naive_solver.
  - intros c Hc. pose proof (context_rest_frame _ _ c Hrest) as (_ & Ec & _). rewrite Ec. simpl.
    destruct (decide (c = p)) as [->|Hne].
    + right. split_and!; [done|apply fn_lookup_insert|by rewrite lookup_insert_eq].
    + left. rewrite lookup_insert_ne by done. set_solver.
Qed.

Lemma rep_disconnect s cs L c :
  rep s cs L -> c ∈ cs ->
  runs (List_RESMAN_CONTEXT_Remove c;; free_context c) s (fun _ s' =>
    rep s' (without c cs) L /\ items s' = items s /\ 
    (lock s', clock s', free_log s', freeing s', walking s') =
    (lock s, clock s, free_log s, freeing s, walking s)).
Proof.
  intros Hr Hc. pose proof (rep_nodup _ _ _ Hr) as Hnd.
  assert (is_Some (gpsResList s) /\ is_contexts s 0 cs) as [Hg Hl].
  { pose proof (rep_list _ _ _ Hr) as Hl. destruct (gpsResList s); [by eauto|subst; set_solver]. }
  destruct (list_elem_of_split _ _ Hc) as (l1 & l2 & E). rewrite E in Hl, Hnd.
  eapply st_runs_bind; [by apply (List_Remove_spec (H := context_nodes) s 0 l1 l2 c)|].
  intros _ s1 [Hl1 Hsb]. pose proof (sb_rest _ _ _ _ Hsb) as Hrest.
  assert (c ∉ l1 ++ l2) as Hn.
  { apply NoDup_app in Hnd as (_ & Hd & [? _]%NoDup_cons). intros [?|?]%elem_of_app; [|done].
    apply (Hd c); set_solver. }
  exists tt. eexists. split; [done|]. rewrite E, without_mid by done. split.
  - apply (rep_recontext s _ cs _ _ Hr); simpl.
    + by destruct (context_rest_frame _ _ 0 Hrest).
    + exists (first (l1 ++ l2)). apply (il_head _ _ _ Hl1).
    + destruct Hl1 as [E1 E2 E3]. split; [done| |done].
      apply (links_frame (H := context_nodes) _ _ s1); [|done]. intros n Hn'. simpl.
      rewrite lookup_delete_ne by set_solver. done.
    + intros c'. rewrite lookup_delete_is_Some. pose proof (context_rest_frame _ _ c' Hrest) as (_ & _ & Ec).
      rewrite Ec, (rep_dom _ _ _ Hr), E. set_solver.
    + intros c' Hc'. left. pose proof (context_rest_frame _ _ c' Hrest) as (_ & Ec & _).
      rewrite lookup_delete_ne by set_solver. split; [rewrite E; set_solver|done].
  - unfold context_rest in Hrest. injection Hrest as H1 H2 H3 H4 H5 H6 H7. split; [done|].
    simpl. congruence.
Qed.
