(* ===== verification/PvrResmanSafe.v ===== *)
(** * The resource manager is safe under interference

    The invariant of the resource manager between the sections that hold its
    lock, and that every call keeps it, whatever the free functions and the other
    threads do while the lock is not held. *)

From stdpp Require Import functions base numbers option gmap fin_maps sets list.
From Stdlib Require Import ZArith Lia.
From S2P Require Import Prelude Stateful PvrHash PvrLists PvrListFacts PvrResman PvrResmanRep.

Local Open Scope Z_scope.

(** ** The invariant *)

Definition payload (s : resman) (i : Z) := item_data <$> items s !! i.

Record resman_inv (s : resman) : Prop := {
  inv_rep : rep s (contexts_of s) (items_of s);
  inv_freeing i : i ∈ freeing s -> exists c, c ∈ contexts_of s /\ i ∈ items_of s c;
  inv_walking c : c ∈ walking s -> c ∈ contexts_of s }.

(** What the calls made meanwhile leave in place for a suspended call. *)
Record keeps (s s' : resman) : Prop := {
  k_freeing : freeing s' = freeing s;
  k_walking : walking s' = walking s;
  k_place i c : i ∈ freeing s -> i ∈ items_of s' c <-> i ∈ items_of s c;
  k_data i : i ∈ freeing s -> payload s' i = payload s i }.

#[export] Instance keeps_preorder : PreOrder keeps.
Proof.
  split; [by split|]. intros s1 s2 s3 [A1 A2 A3 A4] [B1 B2 B3 B4]. split; [congruence..| |].
  - intros i c Hi. rewrite B3 by congruence. by apply A3.
  - intros i Hi. rewrite B4 by congruence. by apply A4.
Qed.

Lemma rep_elem s cs L c i : rep s cs L -> i ∈ items_of s c <-> c ∈ cs /\ i ∈ L c.
Proof. intros Hr. rewrite (rep_items_of _ _ _ _ Hr). case_decide; set_solver. Qed.

Lemma inv_elem s c i : resman_inv s -> i ∈ items_of s c -> c ∈ contexts_of s.
Proof. intros [Hr _ _] Hi. by apply (rep_elem _ _ _ _ _ Hr) in Hi as [? _]. Qed.

Lemma inv_owner s i c c' :
  resman_inv s -> i ∈ items_of s c -> i ∈ items_of s c' -> c = c'.
Proof.
  intros Hi H1 H2. apply (rep_disj _ _ _ (inv_rep _ Hi) c c' i); [by eapply inv_elem..|done|done].
Qed.

Lemma rep_inv s cs L :
  rep s cs L -> (forall i, i ∈ freeing s -> exists c, c ∈ cs /\ i ∈ L c) ->
  (forall c, c ∈ walking s -> c ∈ cs) -> resman_inv s.
Proof.
  intros Hr Hf Hw. rewrite <- (rep_contexts_of _ _ _ Hr) in Hf, Hw. split; [| |done].
  - rewrite (rep_contexts_of _ _ _ Hr). eapply rep_ext; [|done]. intros c Hc.
    rewrite (rep_items_of _ _ _ _ Hr). by rewrite decide_True.
  - intros i Hi. destruct (Hf i Hi) as (c & Hc & Hl). exists c. split; [done|].
    rewrite (rep_contexts_of _ _ _ Hr) in Hc. by apply (rep_elem _ _ _ _ _ Hr).
Qed.

(** A change of the lists that spares the items and contexts in use. *)
Lemma inv_change s s' cs L :
  resman_inv s -> rep s' cs L -> freeing s' = freeing s -> walking s' = walking s ->
  (forall c, c ∈ walking s -> c ∈ cs) ->
  (forall i c, i ∈ freeing s -> (c ∈ cs /\ i ∈ L c) <-> i ∈ items_of s c) ->
  (forall i, i ∈ freeing s -> payload s' i = payload s i) ->
  resman_inv s' /\ keeps s s'.
Proof.
  intros Hi Hr Hf Hw Hc Hp Hd. split.
  - eapply rep_inv; [done|rewrite Hf|by rewrite Hw]. intros i Hif.
    destruct (inv_freeing _ Hi i Hif) as (c & _ & Hl). exists c. by apply Hp.
  - split; [done|done| |done]. intros i c Hif. rewrite <- (Hp i c Hif). by apply rep_elem.
Qed.

(** Changes outside the lists. *)
Lemma inv_outside s s' :
  resman_inv s -> items s' = items s -> contexts s' = contexts s -> gpsResList s' = gpsResList s ->
  freeing s' = freeing s -> walking s' = walking s -> resman_inv s' /\ keeps s s'.
Proof.
  intros Hi E1 E2 E3 E4 E5. apply (inv_change s s' (contexts_of s) (items_of s)); try done.
  - eapply rep_items_frame; [done..| | |apply Hi].
    + rewrite E1. apply (rep_null _ _ _ (inv_rep _ Hi)).
    + intros. by rewrite E1.
  - intros c. apply (inv_walking _ Hi).
  - intros i c Hif. split; [by intros []|]. intros Hl. split; [by eapply inv_elem|done].
  - intros. unfold payload. by rewrite E1.
Qed.

Lemma inv_outside_of s s' :
  items s' = items s -> contexts s' = contexts s -> gpsResList s' = gpsResList s ->
  contexts_of s' = contexts_of s /\ (forall c, items_of s' c = items_of s c).
Proof.
  intros E1 E2 E3.
  assert (forall fuel n, @walk _ context_nodes s' fuel n = @walk _ context_nodes s fuel n) as Hc.
  { induction fuel as [|fuel IH]; intros n; simpl; [done|]. rewrite E2.
    destruct (contexts s !! n); simpl; [by rewrite IH|done]. }
  assert (forall fuel n, @walk _ item_nodes s' fuel n = @walk _ item_nodes s fuel n) as Hi.
  { induction fuel as [|fuel IH]; intros n; simpl; [done|]. rewrite E1.
    destruct (items s !! n); simpl; [by rewrite IH|done]. }
  unfold contexts_of, items_of, list_at. simpl. rewrite E1, E2, E3. split.
  - destruct (gpsResList s); [apply Hc|done].
  - intros c. destruct (psResItemList <$> contexts s !! c); [apply Hi|done].
Qed.

Lemma owned_spec s i : owned s i = true <-> exists c, c ∈ contexts_of s /\ i ∈ items_of s c.
Proof.
  unfold owned. rewrite existsb_exists. setoid_rewrite bool_decide_eq_true.
  by setoid_rewrite list_elem_of_In.
Qed.

Lemma connected_spec s c : connected s c = true <-> c ∈ contexts_of s.
Proof. apply bool_decide_eq_true. Qed.

Definition good (n : Z) (s s' : resman) : Prop := resman_inv s' /\ lock s' = n /\ keeps s s'.

Lemma good_trans n n' s1 s2 s3 : good n s1 s2 -> good n' s2 s3 -> good n' s1 s3.
Proof. intros (_ & _ & K1) (I2 & L2 & K2). split_and!; [done|done|]. by etrans. Qed.

Lemma good_outside n s s' :
  resman_inv s -> items s' = items s -> contexts s' = contexts s -> gpsResList s' = gpsResList s ->
  freeing s' = freeing s -> walking s' = walking s -> lock s' = n -> good n s s'.
Proof. intros Hi ? ? ? ? ? Hn. destruct (inv_outside s s'); by try split_and!. Qed.

Lemma item_rest_parts s s' :
  item_rest s' = item_rest s ->
  lock s' = lock s /\ freeing s' = freeing s /\ walking s' = walking s /\
  (forall i, payload s' i = payload s i) /\ clock s' = clock s /\ free_log s' = free_log s.
Proof.
  unfold item_rest. intros [= Hi _ _ Hl Hk Hg Hf Hw]. split_and!; [done..| |done|done].
  intros i. unfold payload. rewrite <- !lookup_fmap. by rewrite Hi.
Qed.

(** A change of the list of one context that spares the items in use. *)
Lemma good_list_change s s' c l :
  resman_inv s -> c ∈ contexts_of s -> rep s' (contexts_of s) (<[c := l]> (items_of s)) ->
  item_rest s' = item_rest s ->
  (forall i, i ∈ freeing s -> i ∈ l <-> i ∈ items_of s c) -> good (lock s) s s'.
Proof.
  intros Hi Hc Hr Hrest Hp. apply item_rest_parts in Hrest as (E1 & E2 & E3 & E4 & _).
  destruct (inv_change s s' _ _ Hi Hr E2 E3); [apply (inv_walking _ Hi)| |done|by split_and!].
  intros i c' Hif. destruct (decide (c' = c)) as [->|Hne].
  - rewrite fn_lookup_insert. rewrite (Hp i Hif). naive_solver.
  - rewrite fn_lookup_insert_ne by done. split; [by intros []|].
    intros Hl. split; [by eapply inv_elem|done].
Qed.

(** ** Searching *)

(** The items of a context that meet the criteria, in the order of the list. *)
Definition victims (s : resman) (c crit type pv ui : Z) : list Z :=
  filter (fun i => item_matches s crit type pv ui i = true) (items_of s c).

Lemma first_hit (f : Z -> bool) (l : list Z) :
  (forall n, n ∈ l -> n <> 0) ->
  default 0 ((fun n => if f n then n else 0) <$> head (filter (fun n => (if f n then n else 0) <> 0) l)) =
  first (filter (fun n => f n = true) l).
Proof.
  induction l as [|n l IH]; intros Hn; [done|]. rewrite !filter_cons.
  assert (n <> 0) by (apply Hn; set_solver).
  destruct (f n) eqn:Ef; repeat case_decide; try done; simpl; [by rewrite Ef|]. apply IH. set_solver.
Qed.

Lemma inv_context s c :
  resman_inv s -> c ∈ contexts_of s ->
  exists r, contexts s !! c = Some r /\ psResItemList r = first (items_of s c).
Proof.
  intros Hi Hc. pose proof (il_head _ _ _ (rep_items _ _ _ (inv_rep _ Hi) c Hc)) as Hh. simpl in Hh.
  destruct (contexts s !! c) as [r|]; [|done]. exists r. split; [done|]. by injection Hh.
Qed.

Lemma victim_search_ok s c r crit type pv ui :
  resman_inv s -> c ∈ contexts_of s -> psResItemList r = first (items_of s c) ->
  List_RESMAN_ITEM_Any_va (psResItemList r) (FreeResourceByCriteria_AnyVaCb crit type pv ui) s =
  Ok (first (victims s c crit type pv ui), s).
Proof.
  intros Hi Hc ->. unfold List_RESMAN_ITEM_Any_va. pose proof (rep_items _ _ _ (inv_rep _ Hi) c Hc) as Hl.
  unfold mbind, st_bind, gets.
  rewrite (List_Any_va_spec (H := item_nodes) s c _ _
             (fun i => if item_matches s crit type pv ui i then i else 0) Hl).
  - rewrite first_hit; [done|]. intros n Hn. by destruct (rep_item _ _ _ _ _ (inv_rep _ Hi) Hc Hn).
  - intros n Hn. destruct (rep_item _ _ _ _ _ (inv_rep _ Hi) Hc Hn) as [_ [x Hx]].
    unfold FreeResourceByCriteria_AnyVaCb. st_run (found_ok (fun s => items s !! n) s x Hx).
    unfold item_matches. by rewrite Hx.
Qed.

Lemma item_matches_data s s' crit type pv ui i :
  payload s' i = payload s i -> item_matches s' crit type pv ui i = item_matches s crit type pv ui i.
Proof.
  unfold payload, item_matches, matches. destruct (items s' !! i), (items s !! i); simpl; try done.
  unfold item_data. by intros [= _ -> -> -> _].
Qed.

Lemma victims_first s c crit type pv ui :
  resman_inv s -> c ∈ contexts_of s -> first (victims s c crit type pv ui) <> 0 ->
  first (victims s c crit type pv ui) ∈ items_of s c /\
  item_matches s crit type pv ui (first (victims s c crit type pv ui)) = true.
Proof.
  intros Hi Hc. destruct (victims s c crit type pv ui) as [|i l] eqn:Ev; [done|]. intros _.
  assert (i ∈ victims s c crit type pv ui) as Hv by (rewrite Ev; set_solver).
  unfold victims in Hv. apply list_elem_of_filter in Hv as [? ?]. done.
Qed.

(** ** The lock *)

Section Safe.
Context (E : env).

Lemma ACQUIRE_ok s : lock s = 1 -> ACQUIRE_SYNC_OBJ s = Ok (tt, set_lock 0 s).
Proof. intros Hl. unfold ACQUIRE_SYNC_OBJ. unfold mbind, st_bind, gets. by rewrite Hl. Qed.

Lemma RELEASE_ok s : lock s = 0 -> RELEASE_SYNC_OBJ E s = Ok (tt, set_lock 1 s).
Proof.
  intros Hl. unfold RELEASE_SYNC_OBJ. unfold mbind, st_bind, gets. rewrite Hl.
  by destruct (is_mutex E).
Qed.

Lemma acquire_good s : resman_inv s -> good 0 s (set_lock 0 s).
Proof. intros. by apply good_outside. Qed.

Lemma release_good s : resman_inv s -> good 1 s (set_lock 1 s).
Proof. intros. by apply good_outside. Qed.

(** A section that holds the lock. *)
Lemma locked_guards {A} (m : RM A) s :
  resman_inv s -> lock s = 1 ->
  (forall s1, good 0 s s1 -> s1 = set_lock 0 s -> guards m s1 (fun _ s2 => good 0 s1 s2)) ->
  guards (ACQUIRE_SYNC_OBJ;; a ← m; RELEASE_SYNC_OBJ E;; mret a) s (fun _ s' => good 1 s s').
Proof.
  intros Hi Hl Hm. st_run (ACQUIRE_ok s Hl). pose proof (acquire_good s Hi) as G1.
  eapply guards_bind; [by apply Hm|]. intros a s2 G2. pose proof G2 as (I2 & L2 & _).
  st_run (RELEASE_ok s2 L2). apply guards_ret.
  eapply good_trans; [exact G1|]. eapply good_trans; [exact G2|]. by apply release_good.
Qed.

Lemma tick_good n s : resman_inv s -> lock s = n -> good n s (set_clock (S (clock s)) s).
Proof. intros. by apply good_outside. Qed.

Lemma tick_ok s : tick s = Ok (clock s, set_clock (S (clock s)) s).
Proof. done. Qed.

(** Taking an item off its list. *)
Lemma remove_free_runs s c i :
  resman_inv s -> i ∈ items_of s c -> i ∉ freeing s ->
  runs (List_RESMAN_ITEM_Remove i;; free_item i) s (fun _ s' => good (lock s) s s' /\
    rep s' (contexts_of s) (<[c := without i (items_of s c)]> (items_of s)) /\
    (forall j, payload s' j = if decide (j = i) then None else payload s j) /\
    clock s' = clock s /\ free_log s' = free_log s).
Proof.
  intros Hi Hc Hf. pose proof (inv_elem _ _ _ Hi Hc) as Hcc.
  eapply st_runs_bind; [by apply (rep_remove_item _ _ _ _ _ (inv_rep _ Hi) Hcc Hc)|].
  intros _ s1 [Hr1 Hrest]. eexists tt, _. split; [done|].
  apply item_rest_parts in Hrest as (E1 & E2 & E3 & E4 & E5 & E6).
  assert (forall j, payload (set_items (delete i (items s1)) s1) j =
    if decide (j = i) then None else payload s j) as Hpay.
  { intros j. rewrite <- E4. unfold payload. simpl. case_decide as Hj.
    - subst. by rewrite lookup_delete_eq.
    - by rewrite lookup_delete_ne. }
  assert (forall c', c' ∈ contexts_of s -> i ∉ (<[c:=without i (items_of s c)]> (items_of s)) c') as Hn.
  { intros c' Hc'. destruct (decide (c' = c)) as [->|Hne].
    - rewrite fn_lookup_insert, elem_of_without. tauto.
    - rewrite fn_lookup_insert_ne by done. intros Hi'. by apply Hne, (inv_owner s i). }
  pose proof (rep_free_item _ _ _ _ Hr1 Hn) as Hr2. split; [|by split_and!].
  edestruct (inv_change s _ _ _ Hi Hr2) as [I2 K2]; [done|done|apply (inv_walking _ Hi)| | |].
  - intros j c' Hj. destruct (decide (c' = c)) as [->|Hne].
    + rewrite fn_lookup_insert, elem_of_without. split; [by intros (_ & ? & _)|].
      intros Hl. split_and!; [done|done|]. by intros ->.
    + rewrite fn_lookup_insert_ne by done. split; [by intros []|].
      intros Hl. split; [by eapply inv_elem|done].
  - intros j Hj. rewrite Hpay, decide_False; [done|]. by intros ->.
  - by split_and!.
Qed.


(** ** The calls that do not free *)

Lemma OSAllocMem_ok s :
  exists p, OSAllocMem E s = Ok (p, set_clock (S (clock s)) s) /\
    (p <> 0 -> items s !! p = None /\ contexts s !! p = None).
Proof.
  unfold OSAllocMem, mbind, st_bind, tick, gets, mret, st_ret. eexists. split; [done|]. simpl.
  destruct (os_alloc E (clock s)) as [p|]; [|done]. case_bool_decide; naive_solver.
Qed.

Lemma PVRSRVResManConnect_effect s hp :
  resman_inv s -> lock s = 1 -> is_Some (gpsResList s) ->
  runs (PVRSRVResManConnect E hp) s (fun r s' => good 1 s s' /\
    ((r = (PVRSRV_ERROR_OUT_OF_MEMORY, 0) /\ contexts_of s' = contexts_of s) \/
     (exists c, r = (PVRSRV_OK, c) /\ c <> 0 /\ (c ∉ contexts_of s) /\ contexts_of s' = c :: contexts_of s)) /\
    (forall c', c' ∈ contexts_of s -> items_of s' c' = items_of s c')).
Proof.
  intros Hi Hl Hg. unfold PVRSRVResManConnect. st_run (ACQUIRE_ok s Hl).
  destruct (OSAllocMem_ok (set_lock 0 s)) as (p & Ep & Hp). st_run Ep. set (s1 := set_clock _ _).
  assert (good 0 s s1) as G1 by (by apply good_outside). pose proof G1 as (I1 & L1 & _).
  destruct (inv_outside_of s s1) as [Ec1 Ei1]; [done..|].
  destruct (Z.eqb_spec p 0) as [->|H0].
  - st_run (RELEASE_ok s1 eq_refl). apply st_runs_ret.
    destruct (inv_outside_of s (set_lock 1 s1)) as [Ec Ei]; [done..|]. split_and!.
    + eapply good_trans; [exact G1|]. by apply release_good.
    + left. by rewrite Ec.
    + intros. by rewrite Ei.
  - destruct (Hp H0) as [_ Hpc]. st_mod.
    eapply st_runs_bind; [apply (rep_connect s1 _ _ p hp (inv_rep _ I1)); done|].
    intros _ s2 [Hr2 Hrest].
    unfold context_rest in Hrest. injection Hrest as Ei _ El _ _ Ef Ew. simpl in Ei, El, Ef, Ew.
    assert (p ∉ contexts_of s1) as Hpn.
    { rewrite <- (rep_dom _ _ _ (inv_rep _ I1)). simpl in *. rewrite Hpc. by intros []. }
    edestruct (inv_change s1 s2 _ _ I1 Hr2 Ef Ew) as [I2 K2].
    + intros c Hc. apply (inv_walking _ I1) in Hc. set_solver.
    + intros i c Hif. destruct (decide (c = p)) as [->|Hne].
      * rewrite fn_lookup_insert. split; [set_solver|]. intros ?%(inv_elem _ _ _ I1). done.
      * rewrite fn_lookup_insert_ne by done. split; [by intros []|]. intros Hic.
        split; [|done]. apply (inv_elem _ _ _ I1) in Hic. set_solver.
    + intros i _. unfold payload. by rewrite Ei.
    + st_run (RELEASE_ok s2 El). apply st_runs_ret.
      destruct (inv_outside_of s2 (set_lock 1 s2)) as [Ec Ei2]; [done..|]. split_and!.
      * eapply good_trans; [exact G1|]. eapply (good_trans 0 _ _ s2); [by split_and!|by apply release_good].
      * right. exists p. rewrite <- Ec1. split_and!; [done..|].
        by rewrite Ec, (rep_contexts_of _ _ _ Hr2).
      * intros c' Hc'. rewrite <- Ec1 in Hc'. rewrite Ei2, (rep_items_of _ _ _ _ Hr2), decide_True by set_solver.
        rewrite fn_lookup_insert_ne, Ei1; [done|]. by intros ->.
Qed.

Lemma PVRSRVResManConnect_runs s hp :
  resman_inv s -> lock s = 1 -> is_Some (gpsResList s) ->
  runs (PVRSRVResManConnect E hp) s (fun _ s' => good 1 s s').
Proof.
  intros. eapply st_runs_mono; [by apply PVRSRVResManConnect_effect|]. by intros r s' [G _].
Qed.

Lemma new_item_good s i r :
  resman_inv s -> i <> 0 -> items s !! i = None ->
  let s1 := set_items (<[i := r]> (items s)) s in
  good (lock s) s s1 /\ contexts_of s1 = contexts_of s /\ (forall c, items_of s1 c = items_of s c).
Proof.
  intros Hi H0 Hn s1. destruct (rep_new_item s _ _ i r (inv_rep _ Hi) H0 Hn) as [Hr Hni].
  edestruct (inv_change s s1 _ _ Hi Hr) as [I1 K1]; [done|done|apply (inv_walking _ Hi)| | |].
  - intros j c _. split; [by intros []|]. intros Hj. split; [by eapply inv_elem|done].
  - intros j Hj. unfold payload. simpl. rewrite lookup_insert_ne; [done|]. intros ->.
    destruct (inv_freeing _ Hi j Hj) as (c & Hc & Hjc). by apply (Hni c).
  - split_and!; [by split_and!|by apply (rep_contexts_of _ _ _ Hr)|].
    intros c. rewrite (rep_items_of _ _ _ _ Hr). case_decide as Hc; [done|].
    rewrite (rep_items_of _ _ _ _ (inv_rep _ Hi)). by rewrite decide_False.
Qed.

Lemma insert_item_good s c i :
  resman_inv s -> c ∈ contexts_of s -> i <> 0 -> is_Some (items s !! i) ->
  (forall c, i ∉ items_of s c) -> 
  runs (List_RESMAN_ITEM_Insert (Head c) i) s (fun _ s' => good (lock s) s s').
Proof.
  intros Hi Hc H0 His Hn.
  eapply st_runs_mono; [by apply (rep_insert_item _ _ _ _ _ (inv_rep _ Hi) Hc H0 His)|].
  intros _ s' [Hr Hrest]. eapply good_list_change; try done. intros j Hj.
  destruct (inv_freeing _ Hi j Hj) as (c' & _ & Hjc).
  split; [|set_solver]. intros [->|?]%list_elem_of_In; [by destruct (Hn c')|by apply list_elem_of_In].
Qed.

Lemma ResManRegisterRes_runs s c type pv ui fn :
  resman_inv s -> lock s = 1 -> c = 0 \/ c ∈ contexts_of s ->
  runs (ResManRegisterRes E c type pv ui fn) s (fun _ s' => good 1 s s').
Proof.
  intros Hi Hl Hc. unfold ResManRegisterRes. destruct (Z.eqb_spec c 0) as [->|Hc0].
  { apply st_runs_ret. by split_and!. }
  destruct Hc as [|Hc]; [done|]. st_run (ACQUIRE_ok s Hl).
  destruct (OSAllocMem_ok (set_lock 0 s)) as (p & Ep & Hp). st_run Ep. set (s1 := set_clock _ _).
  assert (good 0 s s1) as G1 by (by apply good_outside). pose proof G1 as (I1 & L1 & _).
  destruct (inv_outside_of s s1) as [Ec1 _]; [done..|].
  destruct (Z.eqb_spec p 0) as [->|H0].
  - st_run (RELEASE_ok s1 eq_refl). apply st_runs_ret.
    eapply good_trans; [exact G1|]. by apply release_good.
  - destruct (Hp H0) as [Hpi _]. st_mod.
    destruct (new_item_good s1 p (mk_item (Link (Head 0) 0) 0 type pv ui fn) I1 H0 Hpi) as (G2 & Ec2 & Ei2).
    set (s2 := set_items _ s1) in *. pose proof G2 as (I2 & L2 & _).
    eapply st_runs_bind.
    { apply (insert_item_good s2 c p I2); [by rewrite Ec2, Ec1|done| |].
      - subst s2. simpl. rewrite lookup_insert_eq. by eexists.
      - intros c'. rewrite Ei2. intros Hpc. pose proof (inv_elem _ _ _ I1 Hpc) as Hcc.
        destruct (rep_item _ _ _ _ _ (inv_rep _ I1) Hcc Hpc) as [_ [x Hx]]. simpl in *. congruence. }
    intros ? s3 G3. pose proof G3 as (I3 & L3 & _).
    st_run (RELEASE_ok s3 L3). apply st_runs_ret.
    eapply good_trans; [exact G1|]. eapply good_trans; [exact G2|]. eapply good_trans; [exact G3|].
    by apply release_good.
Qed.

Lemma ResManFindResourceByPtr_runs s c i :
  resman_inv s -> lock s = 1 -> c = 0 \/ i = 0 \/ c ∈ contexts_of s ->
  runs (ResManFindResourceByPtr E c i) s (fun e s' => s' = s /\
    e = if (c =? 0) || (i =? 0) then PVRSRV_ERROR_INVALID_PARAMS
        else if bool_decide (i ∈ items_of s c) then PVRSRV_OK else PVRSRV_ERROR_NOT_OWNER).
Proof.
  intros Hi Hl Hc. unfold ResManFindResourceByPtr.
  destruct (Z.eqb_spec c 0) as [->|Hc0], (Z.eqb_spec i 0) as [->|Hi0]; simpl orb; cbv iota;
    [by apply st_runs_ret..|].
  destruct Hc as [|[|Hc]]; [done..|]. st_run (ACQUIRE_ok s Hl). set (s1 := set_lock 0 s).
  pose proof (acquire_good s Hi : good 0 s s1) as (I1 & _).
  destruct (inv_outside_of s s1) as [Ec Ei]; [done..|].
  assert (c ∈ contexts_of s1) as Hc1 by (by rewrite Ec).
  destruct (inv_context s1 c I1 Hc1) as (r & Hr & Hrf).
  st_run (found_ok (fun s => contexts s !! c) s1 r Hr).
  assert (List_RESMAN_ITEM_IMG_BOOL_Any_va (psResItemList r) (ResManFindResourceByPtr_AnyVaCb i) s1 =
    Ok (bool_decide (i ∈ items_of s c), s1)) as Ef.
  { pose proof (rep_items _ _ _ (inv_rep _ I1) c Hc1) as [_ Hlk Hnd]. rewrite Hrf.
    unfold List_RESMAN_ITEM_IMG_BOOL_Any_va, mbind, st_bind, gets.
    rewrite (List_Any_va_2_spec (H := item_nodes) false _ s1 (Head c) _ _ (fun n => n =? i) Hlk).
    - f_equal. f_equal. rewrite Ei. clear. induction (items_of s c) as [|x l IH]; [done|].
      rewrite filter_cons. destruct (Z.eqb_spec x i) as [->|Hx].
      + rewrite decide_True by done. simpl. rewrite Z.eqb_refl. symmetry. apply bool_decide_eq_true. set_solver.
      + rewrite decide_False by auto. rewrite IH. apply bool_decide_ext. set_solver.
    - apply (node_bound_spec (H := item_nodes) (rest := item_rest)); [done|].
      intros n Hn. by destruct (links_node (H := item_nodes) _ _ _ _ Hlk Hn).
    - done. }
  st_run Ef. st_run (RELEASE_ok s1 eq_refl). apply st_runs_ret. split; [|done].
  destruct s; simpl in *. by subst.
Qed.

Lemma move_item_runs s i c c' :
  resman_inv s -> lock s = 1 -> i ∈ items_of s c -> i ∉ freeing s -> c' ∈ contexts_of s ->
  runs (List_RESMAN_ITEM_Remove i;; List_RESMAN_ITEM_Insert (Head c') i;; mret PVRSRV_OK) s
    (fun _ s' => good 1 s s').
Proof.
  intros Hi Hl Hc Hf Hc'. pose proof (inv_elem _ _ _ Hi Hc) as Hcc.
  destruct (rep_item _ _ _ _ _ (inv_rep _ Hi) Hcc Hc) as [H0 His].
  eapply st_runs_bind; [apply (rep_remove_item _ _ _ _ _ (inv_rep _ Hi) Hcc Hc)|].
  intros _ s1 [Hr1 Hrest].
  assert (good (lock s) s s1) as G1.
  { eapply good_list_change; try done. intros j Hj. rewrite elem_of_without. split; [by intros []|].
    intros. split; [done|]. by intros ->. }
  pose proof G1 as (I1 & L1 & _).
  eapply st_runs_bind; [apply (insert_item_good s1 c' i I1)|].
  - by rewrite (rep_contexts_of _ _ _ Hr1).
  - done.
  - by apply (item_rest_dom s s1).
  - intros c2. rewrite (rep_elem _ _ _ _ _ Hr1). intros [Hc2 Hi2].
    destruct (decide (c2 = c)) as [->|Hne].
    + rewrite fn_lookup_insert, elem_of_without in Hi2. by destruct Hi2.
    + rewrite fn_lookup_insert_ne in Hi2 by done. by apply Hne, (inv_owner s i).
  - intros ? s2 G2. apply st_runs_ret. rewrite L1, Hl in G2. rewrite Hl in G1. exact (good_trans _ _ _ _ _ G1 G2).
Qed.

Lemma ResManInit_runs s :
  resman_inv s -> lock s = 1 -> runs (ResManInit E) s (fun _ s' => good 1 s s').
Proof.
  intros Hi Hl. unfold ResManInit. st_get.
  destruct (gpsResList s) as [v|] eqn:Eg; [apply st_runs_ret; by split_and!|].
  st_run (tick_ok s). destruct (os_alloc E (clock s)); [|apply st_runs_ret; by apply good_outside].
  st_mod. apply st_runs_ret. pose proof (rep_list _ _ _ (inv_rep _ Hi)) as Hcs. rewrite Eg in Hcs.
  edestruct (inv_change s (set_gpsResList (Some 0) (set_clock (S (clock s)) s)) [] (items_of s) Hi) as [I1 K1];
    [|done|done| | |done|by split_and!].
  - apply (rep_recontext s _ []);
      [rewrite <- Hcs; apply Hi|done|by eexists|split; [reflexivity|exact I|constructor]| |set_solver].
    intros c. simpl. rewrite (rep_dom _ _ _ (inv_rep _ Hi)), Hcs. done.
  - intros c Hw. apply (inv_walking _ Hi) in Hw. by rewrite Hcs in Hw.
  - intros i c Hif. split; [by intros []|]. intros Hic. apply (inv_elem _ _ _ Hi) in Hic.
    rewrite Hcs in Hic. set_solver.
Qed.

Lemma ResManDeInit_runs s :
  resman_inv s -> lock s = 1 -> contexts_of s = [] -> runs ResManDeInit s (fun _ s' => good 1 s s').
Proof.
  intros Hi Hl Hc. eexists tt, _. split; [done|].
  edestruct (inv_change s (set_gpsResList None s) [] (items_of s) Hi) as [I1 K1];
    [|done|done| | |done|by split_and!].
  - split; [done| | | |apply (rep_null _ _ _ (inv_rep _ Hi))]; [|set_solver..].
    intros c. simpl. by rewrite (rep_dom _ _ _ (inv_rep _ Hi)), Hc.
  - intros c Hw. apply (inv_walking _ Hi) in Hw. by rewrite Hc in Hw.
  - intros i c Hif. split; [by intros []|]. intros Hic. apply (inv_elem _ _ _ Hi) in Hic.
    rewrite Hc in Hic. set_solver.
Qed.

(** ** Windows in which others run *)

Context (others : list call -> RM unit).
Hypothesis Hothers : forall cs s,
  resman_inv s -> lock s = 1 -> guards (others cs) s (fun _ s' => good 1 s s').

Definition same_item (i : Z) (s s' : resman) : Prop :=
  (forall c, i ∈ items_of s' c <-> i ∈ items_of s c) /\ payload s' i = payload s i.

Lemma inv_hold s i c :
  resman_inv s -> i ∈ items_of s c -> resman_inv (set_freeing (i :: freeing s) s).
Proof.
  intros Hi Hc.
  destruct (inv_outside_of s (set_freeing (i :: freeing s) s)) as [Ec Ei]; [done..|].
  eapply (rep_inv _ (contexts_of s) (items_of s)).
  - apply (rep_items_frame s); [done..| |done|apply Hi]. apply (rep_null _ _ _ (inv_rep _ Hi)).
  - simpl. intros j [->|Hj]%list_elem_of_In; [|apply (inv_freeing _ Hi); by apply list_elem_of_In].
    exists c. split; [by eapply inv_elem|done].
  - apply (inv_walking _ Hi).
Qed.

Lemma with_item_guards s i c (m : RM unit) :
  resman_inv s -> lock s = 1 -> i ∈ items_of s c ->
  (forall s1, resman_inv s1 -> lock s1 = 1 -> guards m s1 (fun _ s2 => good 1 s1 s2)) ->
  guards (with_item i m) s (fun _ s' => good 1 s s' /\ same_item i s s').
Proof.
  intros Hi Hl Hc Hm. unfold with_item. st_mod.
  set (s1 := set_freeing (i :: freeing s) s).
  assert (resman_inv s1) as I1 by (by eapply inv_hold).
  destruct (inv_outside_of s s1) as [Ec1 Ei1]; [done..|].
  eapply guards_bind; [by apply Hm|]. intros _ s2 (I2 & L2 & K2).
  unfold guards, modify. set (s3 := set_freeing _ s2).
  destruct (inv_outside_of s2 s3) as [Ec3 Ei3]; [done..|].
  assert (freeing s3 = freeing s) as Hf by (subst s3; simpl; by rewrite (k_freeing _ _ K2)).
  assert (forall j c, j = i \/ j ∈ freeing s -> j ∈ items_of s3 c <-> j ∈ items_of s c) as Hp.
  { intros j c' Hj. rewrite Ei3, <- Ei1. apply (k_place _ _ K2). subst s1. simpl. set_solver. }
  assert (forall j, j = i \/ j ∈ freeing s -> payload s3 j = payload s j) as Hd.
  { intros j Hj. apply (k_data _ _ K2). subst s1. simpl. set_solver. }
  split; [|split; auto]. split_and!; [|done|].
  - eapply (rep_inv _ (contexts_of s2) (items_of s2)).
    + apply (rep_items_frame s2); [done..| |done|apply I2]. apply (rep_null _ _ _ (inv_rep _ I2)).
    + rewrite Hf. intros j Hj. apply (inv_freeing _ I2). rewrite (k_freeing _ _ K2). simpl. set_solver.
    + apply (inv_walking _ I2).
  - split; [done|exact (k_walking _ _ K2)|auto|auto].
Qed.

Lemma call_free_guards s i c b :
  resman_inv s -> lock s = 1 -> i ∈ items_of s c ->
  guards (call_free E others i b) s (fun _ s' => good 1 s s' /\ same_item i s s').
Proof.
  intros Hi Hl Hc. unfold call_free.
  pose proof (inv_elem _ _ _ Hi Hc) as Hcc.
  destruct (rep_item _ _ _ _ _ (inv_rep _ Hi) Hcc Hc) as [H0 [r Hr]].
  st_run (found_ok (fun s => items s !! i) s r Hr). st_run (tick_ok s).
  destruct (free_fn E (clock s)) as [e cs]. st_mod.
  set (s1 := set_free_log _ _).
  assert (good 1 s s1) as G1 by (by apply good_outside).
  destruct (inv_outside_of s s1) as [_ Ei]; [done..|].
  eapply guards_bind; [apply (with_item_guards s1 i c)|].
  - apply G1.
  - done.
  - by rewrite Ei.
  - intros s2 I2 L2. by apply Hothers.
  - intros _ s2 (G2 & P2 & D2). apply guards_ret.
    split; [by eapply good_trans|]. split; [|by rewrite D2].
    intros c'. by rewrite P2, Ei.
Qed.

(** ** Freeing *)

Lemma FreeResourceByPtr_guards s i c x b :
  resman_inv s -> lock s = 0 -> i ∈ items_of s c -> i ∉ freeing s ->
  guards (FreeResourceByPtr E others i x b) s (fun e s' => good 0 s s' /\
    (e = PVRSRV_ERROR_RETRY -> i ∈ items_of s' c)).
Proof.
  intros Hi Hl Hc Hf. pose proof (inv_elem _ _ _ Hi Hc) as Hcc.
  destruct (rep_item _ _ _ _ _ (inv_rep _ Hi) Hcc Hc) as [H0 _].
  unfold FreeResourceByPtr. rewrite (proj2 (Z.eqb_neq i 0) H0).
  st_run (RELEASE_ok s Hl). pose proof (release_good s Hi) as G1.
  destruct (inv_outside_of s (set_lock 1 s)) as [_ Ei]; [done..|].
  eapply guards_bind with (R := fun _ s2 => good 1 s s2 /\ i ∈ items_of s2 c /\ i ∉ freeing s2).
  { destruct x.
    - eapply guards_mono; [apply (call_free_guards _ _ c); [apply G1|done|by rewrite Ei]|].
      intros _ s2 (G2 & P2 & _). split_and!.
      + by eapply good_trans.
      + by rewrite P2, Ei.
      + destruct G2 as (_ & _ & K2). by rewrite (k_freeing _ _ K2).
    - apply guards_ret. by rewrite Ei. }
  intros e s2 (G2 & P2 & F2). pose proof G2 as (I2 & L2 & _).
  st_run (ACQUIRE_ok s2 L2). pose proof (acquire_good s2 I2) as G3.
  destruct (inv_outside_of s2 (set_lock 0 s2)) as [_ Ei2]; [done..|].
  assert (good 0 s (set_lock 0 s2)) as G by (by eapply good_trans).
  destruct (Z.eqb_spec e PVRSRV_ERROR_RETRY) as [->|He].
  - apply guards_ret. by rewrite Ei2.
  - eapply guards_runs, runs_seq_ret; [apply (remove_free_runs (set_lock 0 s2) c i); [apply G|by rewrite Ei2|done]|].
    intros s3 [G4 _]. split; [exact (good_trans _ _ _ _ _ G G4)|done].
Qed.

Lemma retry_loop_guards fuel s i c x :
  resman_inv s -> lock s = 0 -> i ∈ items_of s c -> i ∉ freeing s ->
  guards (retry_loop E others fuel i x) s (fun _ s' => good 0 s s').
Proof.
  revert s. induction fuel as [|fuel IH]; intros s Hi Hl Hc Hf; [done|]. cbn [retry_loop].
  eapply guards_bind; [by apply (FreeResourceByPtr_guards s i c)|]. intros e s1 (G1 & P1).
  destruct (Z.eqb_spec e PVRSRV_ERROR_RETRY) as [->|]; [|by apply guards_ret].
  pose proof G1 as (I1 & L1 & K1). st_run (RELEASE_ok s1 L1). st_run (tick_ok (set_lock 1 s1)).
  set (s2 := set_clock _ _). assert (good 1 s1 s2) as G2 by (by apply good_outside).
  destruct (inv_outside_of s1 s2) as [_ Ei]; [done..|].
  eapply guards_bind; [apply (with_item_guards s2 i c); [apply G2|done|rewrite Ei; auto|]|].
  { intros s3 I3 L3. by apply Hothers. }
  intros _ s3 (G3 & P3 & _). pose proof G3 as (I3 & L3 & K3).
  st_run (ACQUIRE_ok s3 L3). pose proof (acquire_good s3 I3) as G4.
  destruct (inv_outside_of s3 (set_lock 0 s3)) as [_ Ei3]; [done..|].
  eapply guards_mono; [apply IH|].
  - apply G4.
  - done.
  - rewrite Ei3, P3, Ei. auto.
  - simpl. rewrite (k_freeing _ _ K3). simpl. by rewrite (k_freeing _ _ K1).
  - intros e s5 G5. eapply good_trans; [exact G1|]. eapply good_trans; [exact G2|].
    eapply good_trans; [exact G3|]. by eapply good_trans.
Qed.

(** The items in use are not what is searched for. *)
Definition spared (s : resman) (c crit type pv ui : Z) : Prop :=
  forall i, i ∈ freeing s -> i ∈ items_of s c -> item_matches s crit type pv ui i = false.

Lemma criteria_loop_guards fuel s c crit type pv ui x e :
  resman_inv s -> lock s = 0 -> c ∈ walking s -> spared s c crit type pv ui ->
  guards (criteria_loop E others fuel c crit type pv ui x e) s (fun _ s' => good 0 s s').
Proof.
  revert s e. induction fuel as [|fuel IH]; intros s e Hi Hl Hw Hs;
    pose proof (inv_walking _ Hi c Hw) as Hc; destruct (inv_context s c Hi Hc) as (r & Hr & Hrf);
    assert (good 0 s s) as Hrefl by (by split_and!); cbn [criteria_loop];
    st_run (found_ok (fun s => contexts s !! c) s r Hr); st_run (victim_search_ok s c r crit type pv ui Hi Hc Hrf);
    case_match eqn:Et; try done.
  apply andb_prop in Et as [Hn%negb_true_iff%Z.eqb_neq _].
  destruct (victims_first s c crit type pv ui Hi Hc Hn) as [Hv Hm].
  eapply guards_bind; [apply (retry_loop_guards fuel s _ c x); [done..|]|].
  { intros Hif. by rewrite Hs in Hm. }
  intros e' s1 G1. pose proof G1 as (I1 & L1 & K1). eapply guards_mono; [apply IH; try done|].
  - by rewrite (k_walking _ _ K1).
  - intros i Hif Hic. rewrite (k_freeing _ _ K1) in Hif. rewrite (item_matches_data s s1).
    + apply Hs; [done|]. by apply (k_place _ _ K1).
    + by apply (k_data _ _ K1).
  - intros ? s2 G2. exact (good_trans _ _ _ _ _ G1 G2).
Qed.

Lemma inv_walk s c :
  resman_inv s -> c ∈ contexts_of s -> resman_inv (set_walking (c :: walking s) s).
Proof.
  intros Hi Hc. apply (rep_inv _ (contexts_of s) (items_of s)).
  - apply (rep_items_frame s); [done..| |done|apply Hi]. apply (rep_null _ _ _ (inv_rep _ Hi)).
  - apply (inv_freeing _ Hi).
  - simpl. intros c' [->|Hc']%list_elem_of_In; [done|]. apply (inv_walking _ Hi).
    by apply list_elem_of_In.
Qed.

Lemma FreeResourceByCriteria_guards fuel s c crit type pv ui x :
  resman_inv s -> lock s = 0 -> c ∈ contexts_of s -> spared s c crit type pv ui ->
  guards (FreeResourceByCriteria E others fuel c crit type pv ui x) s
    (fun _ s' => good 0 s s' /\ c ∈ contexts_of s').
Proof.
  intros Hi Hl Hc Hs. unfold FreeResourceByCriteria, with_context. st_mod.
  set (s1 := set_walking (c :: walking s) s).
  destruct (inv_outside_of s s1) as [Ec Ei]; [done..|].
  eapply guards_bind.
  { apply criteria_loop_guards; [by apply inv_walk|done|subst s1; simpl; set_solver|].
    intros i Hif. rewrite Ei. by apply Hs. }
  intros e s2 (I2 & L2 & K2). st_mod. apply guards_ret. set (s3 := set_walking _ s2).
  destruct (inv_outside_of s2 s3) as [Ec3 Ei3]; [done..|].
  assert (walking s3 = walking s) as Hw by (subst s3; simpl; by rewrite (k_walking _ _ K2)).
  assert (c ∈ contexts_of s2) as Hc2.
  { apply (inv_walking _ I2). rewrite (k_walking _ _ K2). simpl. set_solver. }
  split; [|by rewrite Ec3]. split_and!; [|done|].
  - apply (rep_inv _ (contexts_of s2) (items_of s2)).
    + apply (rep_items_frame s2); [done..| |done|apply I2]. apply (rep_null _ _ _ (inv_rep _ I2)).
    + apply (inv_freeing _ I2).
    + rewrite Hw. intros c' Hc'. apply (inv_walking _ I2). rewrite (k_walking _ _ K2). simpl. set_solver.
  - split; [apply (k_freeing _ _ K2)|done| |].
    + intros i c' Hif. rewrite Ei3, <- Ei. by apply (k_place _ _ K2).
    + intros i Hif. by apply (k_data _ _ K2).
Qed.

(** ** Disconnecting *)

(** The context that is being taken down: connected, with no item in use. *)
Definition ready (c : Z) (s : resman) : Prop :=
  resman_inv s /\ lock s = 0 /\ c ∈ contexts_of s /\ (forall i, i ∈ freeing s -> i ∉ items_of s c).

Definition tame (c : Z) (m : RM unit) : Prop :=
  forall s, ready c s -> guards m s (fun _ s' => ready c s' /\ keeps s s').

Lemma good_ready c s s' : ready c s -> good 0 s s' -> c ∈ contexts_of s' -> ready c s' /\ keeps s s'.
Proof.
  intros (_ & _ & _ & Hn) (I' & L' & K') Hc. split; [|done]. split_and!; [done..|].
  intros i Hi. rewrite (k_freeing _ _ K') in Hi. rewrite (k_place _ _ K') by done. by apply Hn.
Qed.

Lemma tame_seq c (m k : RM unit) : tame c m -> tame c k -> tame c (m;; k).
Proof.
  intros Hm Hk s Hs. eapply guards_bind; [by apply Hm|]. intros _ s1 [R1 K1].
  eapply guards_mono; [by apply Hk|]. intros _ s2 [R2 K2]. split; [done|]. by etrans.
Qed.

Lemma tame_free_type fuel c type : tame c (free_type E others fuel c type).
Proof.
  intros s Hs. pose proof Hs as (Hi & Hl & Hc & Hn). unfold free_type.
  eapply guards_bind; [apply FreeResourceByCriteria_guards; try done|].
  - intros i Hif Hic. by destruct (Hn i Hif).
  - intros _ s' [G Hc']. apply guards_ret. by apply good_ready.
Qed.

Lemma tame_reverse c : tame c (List_RESMAN_ITEM_Reverse (Head c)).
Proof.
  intros s Hs. pose proof Hs as (Hi & Hl & Hc & Hn). apply guards_runs.
  eapply st_runs_mono; [by apply (rep_reverse_items _ _ _ _ (inv_rep _ Hi) Hc)|].
  intros _ s' [Hr Hrest]. apply good_ready; [done| |].
  - rewrite <- Hl. eapply good_list_change; try done. intros i _. by rewrite elem_of_reverse.
  - by rewrite (rep_contexts_of _ _ _ Hr).
Qed.

Lemma PVRSRVResManDisconnect_guards fuel s c k :
  resman_inv s -> lock s = 1 -> c ∈ contexts_of s -> c ∉ walking s ->
  (forall i, i ∈ freeing s -> i ∉ items_of s c) ->
  guards (PVRSRVResManDisconnect E others fuel c k) s (fun _ s' => good 1 s s').
Proof.
  intros Hi Hl Hc Hw Hn. unfold PVRSRVResManDisconnect. st_run (ACQUIRE_ok s Hl).
  set (s1 := set_lock 0 s). pose proof (acquire_good s Hi : good 0 s s1) as G1.
  destruct (inv_outside_of s s1) as [Ec Ei]; [done..|].
  assert (ready c s1) as R1.
  { split_and!; [apply G1|done|by rewrite Ec|]. intros i. rewrite Ei. apply Hn. }
  eapply guards_bind with (R := fun _ s' => ready c s' /\ keeps s1 s').
  { destruct k; simpl st_when; [by apply guards_ret|].
    repeat apply tame_seq; first [apply tame_free_type | apply tame_reverse | done]. }
  intros _ s2 [R2 K2]. pose proof R2 as (I2 & L2 & C2 & N2).
  destruct (rep_disconnect s2 _ _ c (inv_rep _ I2) C2) as ([] & s3 & E3 & Hr3 & Hi3 & [= L3 _ _ F3 W3]).
  unfold guards, mbind, st_bind in *. destruct (List_RESMAN_CONTEXT_Remove c s2) as [[[] s2']|]; [|done].
  rewrite E3. rewrite RELEASE_ok by congruence.
  edestruct (inv_change s2 s3 _ _ I2 Hr3 F3 W3) as [I3 K3].
  - intros c' Hc'. apply elem_of_without. split; [by apply (inv_walking _ I2)|].
    intros ->. apply Hw. by rewrite (k_walking _ _ K2) in Hc'.
  - intros i c' Hif. rewrite elem_of_without. split; [by intros []|]. intros Hl'.
    split; [|done]. split; [by eapply inv_elem|]. intros ->. by apply (N2 i).
  - intros. unfold payload. by rewrite Hi3.
  - eapply good_trans; [exact G1|]. eapply (good_trans 0 _ _ s2); [by split_and!|].
    eapply (good_trans 0 _ _ s3); [|by apply release_good]. split_and!; [done|congruence|done].
Qed.

(** The call that frees without the lock, in the builds with a semaphore. *)
Lemma dissociate_free_runs s i c :
  resman_inv s -> lock s = 1 -> is_mutex E = false -> i ∈ items_of s c -> i ∉ freeing s ->
  runs (FreeResourceByPtr E others i false CLEANUP_WITH_POLL) s (fun _ s' => good 1 s s').
Proof.
  intros Hi Hl Hm Hc Hf. pose proof (inv_elem _ _ _ Hi Hc) as Hcc.
  destruct (rep_item _ _ _ _ _ (inv_rep _ Hi) Hcc Hc) as [H0 _].
  unfold FreeResourceByPtr. rewrite (proj2 (Z.eqb_neq i 0) H0).
  assert ((RELEASE_SYNC_OBJ E;; ACQUIRE_SYNC_OBJ) s = Ok (tt, s)) as El.
  { unfold RELEASE_SYNC_OBJ, ACQUIRE_SYNC_OBJ, mbind, st_bind, gets, modify. rewrite Hm, Hl. simpl.
    destruct s. simpl in *. by subst. }
  assert (forall (k : RM Z) (Q : Z -> resman -> Prop), runs k s Q ->
    runs (RELEASE_SYNC_OBJ E;; ACQUIRE_SYNC_OBJ;; k) s Q) as Hk.
  { unfold runs, mbind, st_bind in El |- *. intros k Q Hk.
    destruct (RELEASE_SYNC_OBJ E s) as [[[] s1]|]; [|done]. by rewrite El. }
  apply (Hk (List_RESMAN_ITEM_Remove i;; free_item i;; mret PVRSRV_OK)).
  eapply runs_seq_ret; [by apply (remove_free_runs s c i)|]. intros s' [G _]. by rewrite Hl in G.
Qed.

Lemma exec_call_guards fuel c s :
  resman_inv s -> lock s = 1 -> legal E s c = true ->
  guards (exec_call E others fuel c) s (fun _ s' => good 1 s s').
Proof.
  intros Hi Hl Hc. assert (good 1 s s) as Hrefl by (by split_and!).
  assert (forall A (m : RM A), guards m s (fun _ s' => good 1 s s') ->
    guards (m;; mret tt) s (fun _ s' => good 1 s s')) as Hdrop.
  { intros A m Hm. eapply guards_bind; [done|]. intros a s' G. by apply guards_ret. }
  destruct c as [| |hp|c k|c type pv ui fn|i b|c crit type pv ui|i c|c i]; simpl in Hc |- *.
  - by apply Hdrop, guards_runs, ResManInit_runs.
  - apply bool_decide_eq_true in Hc. by apply guards_runs, ResManDeInit_runs.
  - apply Hdrop, guards_runs, PVRSRVResManConnect_runs; [done|done|]. by apply bool_decide_eq_true in Hc.
  - apply andb_prop in Hc as [[Hc%connected_spec Hw%bool_decide_eq_true]%andb_prop Hf].
    apply PVRSRVResManDisconnect_guards; try done. intros i Hif. rewrite forallb_forall in Hf.
    apply list_elem_of_In in Hif. by apply Hf, bool_decide_eq_true in Hif.
  - apply Hdrop, guards_runs, ResManRegisterRes_runs; [done|done|].
    apply orb_prop in Hc as [->%Z.eqb_eq|Hc%connected_spec]; auto.
  - apply Hdrop. unfold ResManFreeResByPtr. destruct (Z.eqb_spec i 0) as [|H0]; [by apply guards_ret|].
    simpl in Hc. apply andb_prop in Hc as [(c & _ & Hic)%owned_spec Hf%bool_decide_eq_true].
    apply (locked_guards (FreeResourceByPtr E others i true b) s Hi Hl). intros s1 (I1 & L1 & _) ->.
    destruct (inv_outside_of s (set_lock 0 s)) as [_ Ei]; [done..|].
    eapply guards_mono; [apply (FreeResourceByPtr_guards _ i c); [done|done|by rewrite Ei|done]|].
    by intros e s2 [G _].
  - apply Hdrop. apply andb_prop in Hc as [Hc%connected_spec Hf].
    apply (locked_guards (FreeResourceByCriteria E others fuel c crit type pv ui true) s Hi Hl).
    intros s1 (I1 & L1 & _) ->. destruct (inv_outside_of s (set_lock 0 s)) as [Ec Ei]; [done..|].
    eapply guards_mono; [apply FreeResourceByCriteria_guards; [done|done|by rewrite Ec|]|].
    + intros i Hif. rewrite Ei. intros Hic. rewrite forallb_forall in Hf. apply list_elem_of_In in Hif.
      apply Hf in Hif. apply orb_prop in Hif as [?%bool_decide_eq_true|?%negb_true_iff]; done.
    + by intros e s2 [G _].
  - apply Hdrop. unfold ResManDissociateRes. destruct (Z.eqb_spec i 0) as [|H0]; [by apply guards_ret|].
    simpl in Hc. apply andb_prop in Hc as [[(c0 & _ & Hic)%owned_spec Hf%bool_decide_eq_true]%andb_prop Hc].
    destruct (Z.eqb_spec c 0) as [->|Hc0]; simpl negb; cbv iota.
    + apply guards_runs, (dissociate_free_runs s i c0); try done. by apply negb_true_iff in Hc.
    + apply connected_spec in Hc. by apply guards_runs, (move_item_runs s i c0).
  - apply Hdrop, guards_runs. eapply st_runs_mono; [apply ResManFindResourceByPtr_runs; [done|done|]|].
    + apply orb_prop in Hc as [[->%Z.eqb_eq| ->%Z.eqb_eq]%orb_prop|Hc%connected_spec]; auto.
    + by intros e s' [-> _].
Qed.
End Safe.

Lemma each_legal_guards E f cs s :
  (forall c s, resman_inv s -> lock s = 1 -> legal E s c = true -> guards (f c) s (fun _ s' => good 1 s s')) ->
  resman_inv s -> lock s = 1 -> guards (each_legal E f cs) s (fun _ s' => good 1 s s').
Proof.
  intros Hf. revert s. induction cs as [|c cs IH]; intros s Hi Hl; simpl each_legal.
  { apply guards_ret. by split_and!. }
  st_get. eapply guards_bind with (R := fun _ s' => good 1 s s').
  { destruct (legal E s c) eqn:El; [by apply Hf|]. apply guards_ret. by split_and!. }
  intros _ s1 G1. pose proof G1 as (I1 & L1 & _). eapply guards_mono; [by apply IH|].
  intros ? s2 G2. exact (good_trans _ _ _ _ _ G1 G2).
Qed.

Lemma run_calls_guards E fuel cs s :
  resman_inv s -> lock s = 1 -> guards (run_calls E fuel cs) s (fun _ s' => good 1 s s').
Proof.
  revert cs s. induction fuel as [|fuel IH]; intros cs s Hi Hl; simpl run_calls.
  { destruct cs; [|done]. apply guards_ret. by split_and!. }
  apply each_legal_guards; [|done|done]. intros c s' Hi' Hl' Hc.
  apply exec_call_guards; [|done..]. intros cs' s2 I2 L2. by apply IH.
Qed.

Lemma resman0_inv : resman_inv resman0.
Proof.
  apply (rep_inv _ [] (fun _ => [])); [|set_solver..]. split; try set_solver.
  intros c. simpl. rewrite lookup_empty. split; [by intros []|set_solver].
Qed.
