(* ===== verification/PvrResmanQuiet.v ===== *)
(** * The resource manager on its own

    What the calls do when no other call runs in their windows: which items they
    free, in which order, with which calls of the free functions, and that their
    loops end when no free function asks for a retry for ever. *)

From stdpp Require Import functions base numbers option gmap fin_maps sets list.
From Stdlib Require Import ZArith Lia.
From S2P Require Import Prelude Stateful PvrHash PvrLists PvrListFacts PvrResman PvrResmanRep.
From S2P Require Import PvrResmanSafe.

Local Open Scope Z_scope.

(** Nobody calls the resource manager while the lock is not held. *)
Definition quiet (E : env) : Prop := forall t, snd (free_fn E t) = [] /\ asleep E t = [].

(** No free function asks for a retry [K] times in a row (a retry and the sleep
    after it take two ticks). *)
Definition patience (E : env) (K : nat) : Prop :=
  forall t, exists k, (k < K)%nat /\ fst (free_fn E (t + 2 * k)) <> PVRSRV_ERROR_RETRY.

(** The calls of free functions that did not ask for a retry. *)
Definition completed (l : list free_call) : list free_call :=
  filter (fun f => fc_result f <> PVRSRV_ERROR_RETRY) l.

Definition call_of (s : resman) (i e : Z) : free_call :=
  match items s !! i with
  | Some r => FreeCall (pfnFreeResource r) (pvParam r) (ui32Param r) CLEANUP_WITH_POLL e
  | None => FreeCall 0 0 0 CLEANUP_WITH_POLL e
  end.

(** The results when all calls but the last succeed. *)
Fixpoint results (n : nat) (e : Z) : list Z :=
  match n with O => [] | S O => [e] | S n => PVRSRV_OK :: results n e end.

(** The items [vs] of the context [c] are freed one after the other, the last one
    with the result [e]; nothing else changes. *)
Record freed (c : Z) (vs : list Z) (e : Z) (s s' : resman) : Prop := {
  fr_inv : resman_inv s';
  fr_lock : lock s' = lock s;
  fr_freeing : freeing s' = freeing s;
  fr_walking : walking s' = walking s;
  fr_contexts : contexts_of s' = contexts_of s;
  fr_items : items_of s' c = filter (.∉ vs) (items_of s c);
  fr_others c' : c' <> c -> items_of s' c' = items_of s c';
  fr_data i : payload s' i = if decide (i ∈ vs) then None else payload s i;
  fr_log : completed (free_log s') =
    reverse (zip_with (call_of s) vs (results (length vs) e)) ++ completed (free_log s) }.

Lemma call_of_data s s' i e : payload s' i = payload s i -> call_of s' i e = call_of s i e.
Proof.
  unfold payload, call_of. destruct (items s' !! i), (items s !! i); simpl; try done.
  unfold item_data. by intros [= _ _ -> -> ->].
Qed.

Lemma call_of_list s s' vs l :
  (forall i, i ∈ vs -> payload s' i = payload s i) -> zip_with (call_of s') vs l = zip_with (call_of s) vs l.
Proof.
  revert l. induction vs as [|i vs IH]; intros l Hp; [done|]. destruct l as [|e l]; [done|]. simpl.
  rewrite (call_of_data s s') by (apply Hp; set_solver). rewrite IH; [done|]. set_solver.
Qed.

Lemma results_cons n e : results (S (S n)) e = PVRSRV_OK :: results (S n) e.
Proof. done. Qed.

Lemma results_ok n : results n PVRSRV_OK = replicate n PVRSRV_OK.
Proof. induction n as [|[|n] IH]; [done..|]. by rewrite results_cons, IH. Qed.

Lemma filter_notin_nil (l : list Z) : filter (.∉ []) l = l.
Proof.
  induction l as [|x l IH]; [done|]. rewrite filter_cons, decide_True by set_solver. by f_equal.
Qed.

Lemma freed_none c e s : resman_inv s -> freed c [] e s s.
Proof.
  intros Hi. split; try done. by rewrite filter_notin_nil.
Qed.

(** One item after the other. *)
Lemma freed_cons c i vs e e' s s1 s2 :
  freed c [i] e s s1 -> freed c vs e' s1 s2 -> i ∉ vs ->
  (if decide (vs = []) then e = e' else e = PVRSRV_OK) ->
  freed c (i :: vs) e' s s2.
Proof.
  intros [A1 A2 A3 A4 A5 A6 A7 A8 A9] [B1 B2 B3 B4 B5 B6 B7 B8 B9] Hi He.
  split; [done|congruence..| | | |].
  - rewrite B6, A6, list_filter_filter. apply list_filter_iff. intros x. set_solver.
  - intros c' Hc'. by rewrite B7, A7.
  - intros j. rewrite B8, A8. repeat case_decide; set_solver.
  - rewrite B9, A9, (call_of_list s s1).
    2: { intros j Hj. rewrite A8. by rewrite decide_False by set_solver. }
    simpl. destruct vs as [|j vs]; simpl in He |- *; [by subst|].
    subst e. by rewrite !reverse_cons, <- !app_assoc.
Qed.

Lemma freed_nil_l c vs e e' s s1 s2 : freed c [] e s s1 -> freed c vs e' s1 s2 -> freed c vs e' s s2.
Proof.
  intros [A1 A2 A3 A4 A5 A6 A7 A8 A9] [B1 B2 B3 B4 B5 B6 B7 B8 B9]. rewrite filter_notin_nil in A6.
  split; [done|congruence..| | | |].
  - by rewrite B6, A6.
  - intros c' Hc'. by rewrite B7, A7.
  - intros j. by rewrite B8, A8.
  - rewrite B9, A9, (call_of_list s s1); [done|]. intros. by rewrite A8.
Qed.

(** Changes of the clock and the lock. *)
Lemma freed_outside c e s s' :
  resman_inv s -> items s' = items s -> contexts s' = contexts s -> gpsResList s' = gpsResList s ->
  freeing s' = freeing s -> walking s' = walking s -> lock s' = lock s -> free_log s' = free_log s ->
  freed c [] e s s'.
Proof.
  intros Hi E1 E2 E3 E4 E5 E6 E7. destruct (inv_outside_of s s' E1 E2 E3) as [Ec Ei].
  split; [by destruct (inv_outside s s')|done..| |intros; apply Ei| |by rewrite E7].
  - by rewrite Ei, filter_notin_nil.
  - intros i. unfold payload. by rewrite E1.
Qed.

Section Quiet.
Context (E : env) (others : list call -> RM unit) (K : nat).
Hypothesis Hq : quiet E.
Hypothesis Hothers : forall s, others [] s = Ok (tt, s).

Lemma set_freeing_id s : set_freeing (freeing s) s = s.
Proof. by destruct s. Qed.

Lemma with_item_quiet i cs s : cs = [] -> with_item i (others cs) s = Ok (tt, s).
Proof.
  intros ->. unfold with_item, mbind, st_bind, modify. rewrite Hothers. simpl. by destruct s.
Qed.

Lemma call_free_quiet s i r b :
  items s !! i = Some r ->
  let e := fst (free_fn E (clock s)) in
  call_free E others i b s =
    Ok (e, set_free_log (FreeCall (pfnFreeResource r) (pvParam r) (ui32Param r) b e :: free_log s)
             (set_clock (S (clock s)) s)).
Proof.
  intros Hr e. unfold call_free. st_run (found_ok (fun s => items s !! i) s r Hr). st_run (tick_ok s).
  destruct (Hq (clock s)) as [Hcs _]. subst e. destruct (free_fn E (clock s)) as [e cs].
  cbn [fst snd] in *. st_mod. by st_run (with_item_quiet i cs _ Hcs).
Qed.

(** One attempt. *)
Lemma FreeResourceByPtr_quiet s i c :
  resman_inv s -> lock s = 0 -> i ∈ items_of s c -> i ∉ freeing s ->
  let e := fst (free_fn E (clock s)) in
  runs (FreeResourceByPtr E others i true CLEANUP_WITH_POLL) s (fun e' s' => e' = e /\
    clock s' = S (clock s) /\
    if decide (e = PVRSRV_ERROR_RETRY) then freed c [] e s s' else freed c [i] e s s').
Proof.
  intros Hi Hl Hc Hf e. pose proof (inv_elem _ _ _ Hi Hc) as Hcc.
  destruct (rep_item _ _ _ _ _ (inv_rep _ Hi) Hcc Hc) as [H0 [r Hr]].
  unfold FreeResourceByPtr. rewrite (proj2 (Z.eqb_neq i 0) H0). st_run (RELEASE_ok E s Hl).
  set (s1 := set_free_log (call_of s i e :: free_log s) (set_clock (S (clock s)) s)).
  assert (call_free E others i CLEANUP_WITH_POLL (set_lock 1 s) = Ok (e, set_lock 1 s1)) as Ecf.
  { rewrite (call_free_quiet (set_lock 1 s) i r CLEANUP_WITH_POLL Hr). subst s1. unfold call_of. by rewrite Hr. }
  st_run Ecf. st_run (ACQUIRE_ok (set_lock 1 s1) eq_refl).
  assert (set_lock 0 (set_lock 1 s1) = s1) as -> by (subst s1; destruct s; simpl in *; by subst).
  assert (good 0 s s1) as G1 by (by apply good_outside).
  destruct (inv_outside_of s s1) as [Ec1 Ei1]; [done..|].
  destruct (Z.eqb_spec e PVRSRV_ERROR_RETRY) as [He|He].
  - apply st_runs_ret. rewrite decide_True by done. split_and!; [done|done|].
    destruct (freed_none c e s Hi). split; try done; [apply G1|by rewrite Ei1|].
    subst s1. simpl. unfold completed. rewrite filter_cons, decide_False; [done|].
    unfold call_of. rewrite Hr. simpl. by intros [].
  - destruct (remove_free_runs s1 c i) as ([] & s2 & E2 & (I2 & L2 & K2) & Hr2 & Hp2 & Ck2 & Lg2);
      [apply G1|by rewrite Ei1|done|].
    exists e, s2. split.
    { revert E2. unfold mbind, st_bind. destruct (List_RESMAN_ITEM_Remove i s1) as [[[] s1']|]; [|done].
      by intros ->. }
    split_and!; [done|by rewrite Ck2|]. rewrite decide_False by done. split; [done|by rewrite L2|apply K2|apply K2| | | | |].
    + by rewrite (rep_contexts_of _ _ _ Hr2).
    + rewrite (rep_items_of _ _ _ _ Hr2), decide_True by (by rewrite Ec1). rewrite fn_lookup_insert, Ei1.
      apply list_filter_iff. intros x. set_solver.
    + intros c' Hc'. rewrite (rep_items_of _ _ _ _ Hr2), fn_lookup_insert_ne, Ei1, Ec1 by done.
      case_decide as Hd; [done|]. rewrite (rep_items_of _ _ _ _ (inv_rep _ Hi)). by rewrite decide_False.
    + intros j. rewrite Hp2. repeat case_decide; set_solver.
    + rewrite Lg2. subst s1. simpl. unfold completed. rewrite filter_cons, decide_True; [done|].
      unfold call_of. rewrite Hr. done.
Qed.

Lemma FreeResourceByPtr_returns s i c b :
  resman_inv s -> lock s = 0 -> i ∈ items_of s c -> i ∉ freeing s ->
  runs (FreeResourceByPtr E others i true b) s (fun _ s' => good 0 s s').
Proof.
  intros Hi Hl Hc Hf. pose proof (inv_elem _ _ _ Hi Hc) as Hcc.
  destruct (rep_item _ _ _ _ _ (inv_rep _ Hi) Hcc Hc) as [H0 [r Hr]].
  unfold FreeResourceByPtr. rewrite (proj2 (Z.eqb_neq i 0) H0). st_run (RELEASE_ok E s Hl).
  st_run (call_free_quiet (set_lock 1 s) i r b Hr). st_run (ACQUIRE_ok _ _); [done|].
  set (s1 := set_lock 0 _). assert (good 0 s s1) as G1 by (by apply good_outside).
  destruct (inv_outside_of s s1) as [_ Ei1]; [done..|].
  case_match; [by apply st_runs_ret|].
  eapply runs_seq_ret; [apply (remove_free_runs s1 c i); [apply G1|by rewrite Ei1|done]|].
  intros s2 [G2 _]. exact (good_trans _ _ _ _ _ G1 G2).
Qed.

(** Attempts until one is not a retry. *)
Lemma retry_loop_quiet k fuel s i c :
  resman_inv s -> lock s = 0 -> i ∈ items_of s c -> i ∉ freeing s -> (k < fuel)%nat ->
  fst (free_fn E (clock s + 2 * k)) <> PVRSRV_ERROR_RETRY ->
  runs (retry_loop E others fuel i true) s (fun e s' =>
    e <> PVRSRV_ERROR_RETRY /\ (exists t, e = fst (free_fn E t)) /\ freed c [i] e s s').
Proof.
  revert fuel s. induction k as [|k IH]; intros fuel s Hi Hl Hc Hf Hk Hr;
    (destruct fuel as [|fuel]; [lia|]); cbn [retry_loop];
    (eapply st_runs_bind; [by apply (FreeResourceByPtr_quiet s i c)|]);
    intros e s1 (-> & Hck & Hfr);
    destruct (Z.eqb_spec (fst (free_fn E (clock s))) PVRSRV_ERROR_RETRY) as [He|He].
  - by rewrite Nat.add_0_r in Hr.
  - rewrite decide_False in Hfr by done. apply st_runs_ret. eauto.
  - rewrite decide_True in Hfr by done. pose proof (fr_lock _ _ _ _ _ Hfr) as L1. rewrite Hl in L1.
    st_run (RELEASE_ok E s1 L1). st_run (tick_ok (set_lock 1 s1)).
    st_run (with_item_quiet i _ _ (proj2 (Hq _))). st_run (ACQUIRE_ok _ _); [done|].
    set (s2 := set_lock 0 _).
    assert (freed c [] (fst (free_fn E (clock s))) s s2) as Hfr2.
    { eapply freed_nil_l; [done|]. apply freed_outside; try done. apply Hfr. }
    eapply st_runs_mono; [apply (IH fuel s2)|].
    + apply Hfr2.
    + done.
    + rewrite (fr_items _ _ _ _ _ Hfr2). by rewrite filter_notin_nil.
    + rewrite (fr_freeing _ _ _ _ _ Hfr2). done.
    + lia.
    + replace (clock s2 + 2 * k)%nat with (clock s + 2 * S k)%nat; [done|].
      subst s2. simpl. rewrite Hck. lia.
    + intros e s' (? & ? & Hfr'). split_and!; [done..|]. by eapply freed_nil_l.
  - rewrite decide_False in Hfr by done. apply st_runs_ret. eauto.
Qed.

Hypothesis HK : patience E K.

Lemma victims_after c i e s s' crit type pv ui vs :
  resman_inv s -> victims s c crit type pv ui = i :: vs -> freed c [i] e s s' ->
  victims s' c crit type pv ui = vs /\ i ∉ vs.
Proof.
  intros Hi Hv Hfr.
  assert (NoDup (i :: vs)) as Hnd.
  { rewrite <- Hv. unfold victims. apply NoDup_filter.
    destruct (decide (c ∈ contexts_of s)) as [Hc|Hc].
    - apply (rep_items _ _ _ (inv_rep _ Hi) c Hc).
    - rewrite (rep_items_of _ _ _ _ (inv_rep _ Hi)), decide_False by done. constructor. }
  apply NoDup_cons in Hnd as [Hi' Hnd]. split; [|done].
  unfold victims. rewrite (fr_items _ _ _ _ _ Hfr).
  assert (without i (victims s c crit type pv ui) = vs) as <-.
  { rewrite Hv. unfold without. rewrite filter_cons, decide_False by auto. by apply without_notin. }
  unfold victims, without. rewrite !list_filter_filter. apply list_filter_iff. intros x.
  destruct (decide (x = i)) as [->|Hx]; [set_solver|].
  rewrite (item_matches_data s s') by (rewrite (fr_data _ _ _ _ _ Hfr), decide_False; [done|set_solver]).
  set_solver.
Qed.

(** The search and the freeing, until nothing is found or a free function fails. *)
Lemma criteria_loop_quiet fuel s c crit type pv ui :
  resman_inv s -> lock s = 0 -> c ∈ walking s -> freeing s = [] ->
  (K + length (victims s c crit type pv ui) <= fuel)%nat ->
  runs (criteria_loop E others fuel c crit type pv ui true PVRSRV_OK) s (fun e s' =>
    exists vs ws, victims s c crit type pv ui = vs ++ ws /\ freed c vs e s s' /\
      e <> PVRSRV_ERROR_RETRY /\ (e = PVRSRV_OK \/ exists t, e = fst (free_fn E t)) /\
      (e = PVRSRV_OK -> ws = []) /\ (e <> PVRSRV_OK -> vs <> [])).
Proof.
  remember (victims s c crit type pv ui) as l eqn:Hv. revert fuel s Hv.
  induction l as [|i l IH]; intros fuel s Hv Hi Hl Hw Hf Hfuel;
    pose proof (inv_walking _ Hi c Hw) as Hc; destruct (inv_context s c Hi Hc) as (r & Hr & Hrf).
  - exists PVRSRV_OK, s. split.
    + destruct fuel; cbn [criteria_loop]; st_run (found_ok (fun s => contexts s !! c) s r Hr);
        st_run (victim_search_ok s c r crit type pv ui Hi Hc Hrf); by rewrite <- Hv.
    + exists [], []. split_and!; [done|by apply freed_none|done|by left|done|done].
  - assert (i ∈ victims s c crit type pv ui) as Hiv by (rewrite <- Hv; set_solver).
    apply list_elem_of_filter in Hiv as [_ Hic].
    destruct (rep_item _ _ _ _ _ (inv_rep _ Hi) Hc Hic) as [H0 _].
    destruct fuel as [|fuel]; [simpl in Hfuel; lia|]. cbn [criteria_loop].
    st_run (found_ok (fun s => contexts s !! c) s r Hr). st_run (victim_search_ok s c r crit type pv ui Hi Hc Hrf).
    rewrite <- Hv. change (first (i :: l)) with i. rewrite (proj2 (Z.eqb_neq i 0) H0).
    change (PVRSRV_OK =? PVRSRV_OK) with true. simpl negb. cbn [andb].
    destruct (HK (clock s)) as (k & Hk & Hkr).
    eapply st_runs_bind; [apply (retry_loop_quiet k fuel s i c); [done..|rewrite Hf; set_solver| |done]|].
    { simpl in Hfuel. lia. }
    intros e s1 (He & Ht & Hfr). destruct (victims_after c i e s s1 crit type pv ui l Hi (eq_sym Hv) Hfr) as [Hv1 Hil].
    pose proof (fr_inv _ _ _ _ _ Hfr) as I1.
    assert (c ∈ walking s1) as Hw1 by (by rewrite (fr_walking _ _ _ _ _ Hfr)).
    destruct (decide (e = PVRSRV_OK)) as [->|Hne].
    + eapply st_runs_mono; [apply (IH fuel s1); try done|].
      * rewrite (fr_lock _ _ _ _ _ Hfr). done.
      * by rewrite (fr_freeing _ _ _ _ _ Hfr).
      * simpl in Hfuel. lia.
      * intros e' s' (vs & ws & -> & Hfr' & He' & Ht' & Hok & Hnok). exists (i :: vs), ws.
        split_and!; [done| |done|done|done|done]. eapply freed_cons; [done|done|set_solver|].
        case_decide as Hvs; [|done]. destruct (decide (e' = PVRSRV_OK)); [done|]. by destruct Hnok.
    + exists e, s1. split.
      * pose proof (inv_walking _ I1 c Hw1) as Hc1. destruct (inv_context s1 c I1 Hc1) as (r1 & Hr1 & Hrf1).
        destruct fuel; cbn [criteria_loop]; st_run (found_ok (fun s => contexts s !! c) s1 r1 Hr1);
          st_run (victim_search_ok s1 c r1 crit type pv ui I1 Hc1 Hrf1);
          rewrite (proj2 (Z.eqb_neq e PVRSRV_OK) Hne); by rewrite andb_false_r.
      * exists [i], l. split_and!; [done|done|done|by right|done|done].
Qed.

Lemma freed_walk c vs e w s s2 :
  freed c vs e (set_walking w s) s2 -> (forall c, c ∈ walking s -> c ∈ contexts_of s2) ->
  freed c vs e s (set_walking (walking s) s2).
Proof.
  intros [A1 A2 A3 A4 A5 A6 A7 A8 A9] Hw.
  destruct (inv_outside_of s (set_walking w s)) as [Ec Ei]; [done..|].
  destruct (inv_outside_of s2 (set_walking (walking s) s2)) as [Ec2 Ei2]; [done..|].
  split; [|done|done|done|by rewrite Ec2, A5|by rewrite Ei2, A6, Ei| |done|done].
  - apply (rep_inv _ (contexts_of s2) (items_of s2)).
    + apply (rep_items_frame s2); [done..| |done|apply A1]. apply (rep_null _ _ _ (inv_rep _ A1)).
    + apply (inv_freeing _ A1).
    + done.
  - intros c' Hc'. by rewrite Ei2, A7, Ei.
Qed.

Lemma FreeResourceByCriteria_quiet fuel s c crit type pv ui :
  resman_inv s -> lock s = 0 -> c ∈ contexts_of s -> freeing s = [] ->
  (K + length (victims s c crit type pv ui) <= fuel)%nat ->
  runs (FreeResourceByCriteria E others fuel c crit type pv ui true) s (fun e s' =>
    exists vs ws, victims s c crit type pv ui = vs ++ ws /\ freed c vs e s s' /\
      e <> PVRSRV_ERROR_RETRY /\ (e = PVRSRV_OK \/ exists t, e = fst (free_fn E t)) /\
      (e = PVRSRV_OK -> ws = []) /\ (e <> PVRSRV_OK -> vs <> [])).
Proof.
  intros Hi Hl Hc Hf Hfuel. unfold FreeResourceByCriteria, with_context. st_mod.
  set (s1 := set_walking (c :: walking s) s).
  destruct (inv_outside_of s s1) as [Ec Ei]; [done..|].
  assert (victims s1 c crit type pv ui = victims s c crit type pv ui) as Hv
    by (unfold victims; by rewrite Ei).
  eapply st_runs_bind.
  { apply (criteria_loop_quiet fuel s1 c crit type pv ui); [by apply inv_walk|done| |done|by rewrite Hv].
    subst s1. simpl. set_solver. }
  intros e s2 (vs & ws & Evs & Hfr & Hrest). st_mod. apply st_runs_ret. exists vs, ws.
  rewrite <- Hv. split_and!; [done| |apply Hrest..].
  rewrite (fr_walking _ _ _ _ _ Hfr). simpl tail. apply (freed_walk _ _ _ (c :: walking s)); [done|].
  intros c' Hc'. rewrite (fr_contexts _ _ _ _ _ Hfr), Ec. by apply (inv_walking _ Hi).
Qed.
End Quiet.

(** ** Taking down a context *)

Definition type_of (s : resman) (i : Z) : Z :=
  match items s !! i with Some r => ui32ResType r | None => 0 end.

(** The order in which [PVRSRVResManDisconnect] frees the types. *)
Definition disconnect_order : list Z :=
  [RESMAN_TYPE_OS_USERMODE_MAPPING; RESMAN_TYPE_DMA_CLIENT_FIFO_DATA; RESMAN_TYPE_EVENT_OBJECT;
   RESMAN_TYPE_MODIFY_SYNC_OPS; RESMAN_TYPE_HW_RENDER_CONTEXT; RESMAN_TYPE_HW_TRANSFER_CONTEXT;
   RESMAN_TYPE_HW_2D_CONTEXT; RESMAN_TYPE_TRANSFER_CONTEXT; RESMAN_TYPE_SHARED_PB_DESC_CREATE_LOCK;
   RESMAN_TYPE_SHARED_PB_DESC; RESMAN_TYPE_SYNC_INFO; RESMAN_TYPE_DEVICECLASSMEM_MAPPING;
   RESMAN_TYPE_DEVICEMEM_WRAP; RESMAN_TYPE_DEVICEMEM_MAPPING; RESMAN_TYPE_KERNEL_DEVICEMEM_ALLOCATION;
   RESMAN_TYPE_DEVICEMEM_ALLOCATION; RESMAN_TYPE_DEVICEMEM_CONTEXT; RESMAN_TYPE_SHARED_MEM_INFO;
   RESMAN_TYPE_DISPLAYCLASS_SWAPCHAIN_REF; RESMAN_TYPE_DISPLAYCLASS_DEVICE;
   RESMAN_TYPE_BUFFERCLASS_DEVICE].

(** The items of a type in the order in which they are freed: the latest first,
    but the modifications of sync operations in the order they were made. *)
Definition group (s : resman) (c ty : Z) : list Z :=
  let l := filter (fun i => type_of s i = ty) (items_of s c) in
  if ty =? RESMAN_TYPE_MODIFY_SYNC_OPS then reverse l else l.

Lemma filter_ext_in {A} (P1 P2 : A -> Prop) `{forall x, Decision (P1 x)} `{forall x, Decision (P2 x)}
    (l : list A) :
  (forall x, x ∈ l -> P1 x <-> P2 x) -> filter P1 l = filter P2 l.
Proof.
  induction l as [|x l IH]; intros HP; [done|]. rewrite !filter_cons, IH by set_solver.
  assert (P1 x <-> P2 x) by (apply HP; set_solver). repeat case_decide; tauto || done.
Qed.

(** The state of the context [c] when the types [tys] have been freed, with its
    list reversed ([rv]) or not. *)
Record prog (c : Z) (rv : bool) (tys : list Z) (s0 s : resman) : Prop := {
  pg_inv : resman_inv s;
  pg_lock : lock s = lock s0;
  pg_freeing : freeing s = freeing s0;
  pg_walking : walking s = walking s0;
  pg_contexts : contexts_of s = contexts_of s0;
  pg_items : items_of s c =
    (if rv then reverse else id) (filter (fun i => type_of s0 i ∉ tys) (items_of s0 c));
  pg_others c' : c' <> c -> items_of s c' = items_of s0 c';
  pg_data i : payload s i =
    if decide (i ∈ items_of s0 c /\ type_of s0 i ∈ tys) then None else payload s0 i;
  pg_log : completed (free_log s) =
    reverse ((fun i => call_of s0 i PVRSRV_OK) <$> concat (group s0 c <$> tys)) ++ completed (free_log s0) }.

Lemma type_of_data s s' i : payload s' i = payload s i -> type_of s' i = type_of s i.
Proof.
  unfold payload, type_of. destruct (items s' !! i), (items s !! i); simpl; try done.
  unfold item_data. by intros [= _ -> _ _ _].
Qed.

Lemma matches_type s ty i :
  is_Some (items s !! i) -> item_matches s RESMAN_CRITERIA_RESTYPE ty 0 0 i = true <-> type_of s i = ty.
Proof.
  intros [r Hr]. unfold item_matches, type_of. rewrite Hr. unfold matches. simpl.
  rewrite !andb_true_r. apply Z.eqb_eq.
Qed.

Lemma elem_of_group s c ty i : i ∈ group s c ty <-> i ∈ items_of s c /\ type_of s i = ty.
Proof. unfold group. case_match; rewrite ?elem_of_reverse, list_elem_of_filter; tauto. Qed.

Lemma filter_notin_nil_type (f : Z -> Z) (l : list Z) : filter (fun i => f i ∉ []) l = l.
Proof.
  induction l as [|x l IH]; [done|]. rewrite filter_cons, decide_True by set_solver. by f_equal.
Qed.

(** A type is not among others. *)
Ltac type_not_in :=
  let H := fresh in intros H; apply list_elem_of_In in H; vm_compute in H; intuition discriminate.

Section Disconnect.
Context (E : env) (others : list call -> RM unit) (K : nat) (c : Z).
Hypothesis Hq : quiet E.
Hypothesis Hothers : forall s, others [] s = Ok (tt, s).
Hypothesis HK : patience E K.
Hypothesis Hok : forall t, fst (free_fn E t) = PVRSRV_OK \/ fst (free_fn E t) = PVRSRV_ERROR_RETRY.

Lemma prog_victims rv tys ty s0 s :
  c ∈ contexts_of s0 -> prog c rv tys s0 s -> rv = (ty =? RESMAN_TYPE_MODIFY_SYNC_OPS) -> ty ∉ tys ->
  victims s c RESMAN_CRITERIA_RESTYPE ty 0 0 = group s0 c ty.
Proof.
  intros Hc Hp Hrv Hty. unfold victims, group.
  assert (filter (fun i => item_matches s RESMAN_CRITERIA_RESTYPE ty 0 0 i = true) (items_of s c) =
          filter (fun i => type_of s0 i = ty) (items_of s c)) as ->.
  { apply filter_ext_in. intros i Hi.
    assert (is_Some (items s !! i)) as His.
    { pose proof (inv_elem _ _ _ (pg_inv _ _ _ _ _ Hp) Hi) as Hcc.
      by destruct (rep_item _ _ _ _ _ (inv_rep _ (pg_inv _ _ _ _ _ Hp)) Hcc Hi). }
    rewrite (matches_type _ _ _ His), (type_of_data s0 s); [done|].
    rewrite (pg_data _ _ _ _ _ Hp), decide_False; [done|]. intros [_ Hin].
    rewrite (pg_items _ _ _ _ _ Hp) in Hi.
    assert (i ∈ filter (fun i => type_of s0 i ∉ tys) (items_of s0 c)) as Hi'
      by (destruct rv; [by rewrite elem_of_reverse in Hi|done]).
    by apply list_elem_of_filter in Hi' as [? _]. }
  rewrite (pg_items _ _ _ _ _ Hp), <- Hrv.
  assert (filter (fun i => type_of s0 i = ty) (filter (fun i => type_of s0 i ∉ tys) (items_of s0 c)) =
          filter (fun i => type_of s0 i = ty) (items_of s0 c)) as Hff
    by (apply list_filter_filter_l; by intros x ->).
  destruct rv; [by rewrite filter_reverse, Hff|exact Hff].
Qed.

Lemma prog_free_type rv tys ty fuel s0 s :
  c ∈ contexts_of s0 -> freeing s0 = [] -> lock s0 = 0 -> (K + length (items_of s0 c) <= fuel)%nat ->
  prog c rv tys s0 s -> rv = (ty =? RESMAN_TYPE_MODIFY_SYNC_OPS) -> ty ∉ tys ->
  runs (free_type E others fuel c ty) s (fun _ s' => prog c rv (tys ++ [ty]) s0 s').
Proof.
  intros Hc Hf Hl Hfuel Hp Hrv Hty. pose proof (prog_victims _ _ _ _ _ Hc Hp Hrv Hty) as Hv.
  unfold free_type. eapply st_runs_bind.
  { apply (FreeResourceByCriteria_quiet E others K Hq Hothers HK fuel s c).
    - apply Hp.
    - by rewrite (pg_lock _ _ _ _ _ Hp).
    - by rewrite (pg_contexts _ _ _ _ _ Hp).
    - by rewrite (pg_freeing _ _ _ _ _ Hp).
    - rewrite Hv. etrans; [|exact Hfuel]. apply Nat.add_le_mono_l. unfold group.
      case_match; rewrite ?length_reverse; apply length_filter. }
  intros e s' (vs & ws & Evs & Hfr & He & Ht & Hw & _).
  assert (e = PVRSRV_OK) as -> by (destruct Ht as [|[t ->]]; [done|]; destruct (Hok t); congruence).
  rewrite Hw, app_nil_r, Hv in Evs by done. subst vs.
  apply st_runs_ret. destruct Hp as [P1 P2 P3 P4 P5 P6 P7 P8 P9]. destruct Hfr as [F1 F2 F3 F4 F5 F6 F7 F8 F9].
  split; [done|congruence..| | | |].
  - rewrite F6, P6.
    assert (filter (fun i => i ∉ group s0 c ty) (filter (fun i => type_of s0 i ∉ tys) (items_of s0 c)) =
            filter (fun i => type_of s0 i ∉ tys ++ [ty]) (items_of s0 c)) as Hff.
    { rewrite list_filter_filter. apply filter_ext_in. intros i Hi. rewrite elem_of_group. set_solver. }
    destruct rv; [by rewrite filter_reverse, Hff|exact Hff].
  - intros c' Hc'. by rewrite F7, P7.
  - intros i. rewrite F8, P8. pose proof (elem_of_group s0 c ty i) as Hg.
    repeat case_decide; try done; set_solver.
  - rewrite F9, P9, results_ok, zip_with_replicate_r_eq by done. rewrite app_assoc, <- reverse_app.
    f_equal. f_equal. rewrite fmap_app, concat_app. simpl. rewrite app_nil_r, fmap_app. f_equal.
    apply list_fmap_ext. intros k i Hi. apply list_elem_of_lookup_2, elem_of_group in Hi as [_ Hi].
    unfold flip. apply call_of_data. rewrite P8, decide_False; [done|]. rewrite Hi. by intros [].
Qed.

Lemma prog_reverse rv tys s0 s :
  c ∈ contexts_of s0 -> prog c rv tys s0 s ->
  runs (List_RESMAN_ITEM_Reverse (Head c)) s (fun _ s' => prog c (negb rv) tys s0 s').
Proof.
  intros Hc [P1 P2 P3 P4 P5 P6 P7 P8 P9]. rewrite <- P5 in Hc.
  eapply st_runs_mono; [by apply (rep_reverse_items _ _ _ _ (inv_rep _ P1) Hc)|].
  intros _ s' [Hr Hrest]. pose proof (item_rest_parts _ _ Hrest) as (E1 & E2 & E3 & E4 & E5 & E6).
  assert (forall i, i ∈ freeing s -> i ∈ reverse (items_of s c) <-> i ∈ items_of s c) as Hrev
    by (intros; apply elem_of_reverse).
  destruct (good_list_change s s' c _ P1 Hc Hr Hrest Hrev) as (I' & _ & _).
  split; [done|congruence..| | | | |].
  - by rewrite (rep_contexts_of _ _ _ Hr).
  - rewrite (rep_items_of _ _ _ _ Hr), decide_True, fn_lookup_insert, P6 by done.
    destruct rv; [by rewrite reverse_involutive|done].
  - intros c' Hc'. rewrite <- P7 by done. rewrite (rep_items_of _ _ _ _ Hr), fn_lookup_insert_ne by done.
    case_decide; [done|]. rewrite (rep_items_of _ _ _ _ (inv_rep _ P1)). by rewrite decide_False.
  - intros i. by rewrite E4.
  - by rewrite E6.
Qed.

Lemma prog_start s0 : resman_inv s0 -> prog c false [] s0 s0.
Proof.
  intros Hi. split; try done.
  - simpl. symmetry. apply filter_notin_nil_type.
  - intros i. rewrite decide_False; [done|]. set_solver.
Qed.

Lemma disconnect_frees s fuel :
  resman_inv s -> lock s = 1 -> c ∈ contexts_of s -> c ∉ walking s -> freeing s = [] ->
  (K + length (items_of s c) <= fuel)%nat ->
  (forall i, i ∈ items_of s c -> type_of s i ∈ disconnect_order) ->
  runs (PVRSRVResManDisconnect E others fuel c false) s (fun _ s' =>
    resman_inv s' /\ lock s' = 1 /\ contexts_of s' = without c (contexts_of s) /\
    (forall c', c' <> c -> items_of s' c' = items_of s c') /\
    (forall i, payload s' i = if decide (i ∈ items_of s c) then None else payload s i) /\
    completed (free_log s') =
      reverse ((fun i => call_of s i PVRSRV_OK) <$> concat (group s c <$> disconnect_order)) ++
      completed (free_log s)).
Proof.
  intros Hi Hl Hc Hw Hf Hfuel Hty. unfold PVRSRVResManDisconnect. st_run (ACQUIRE_ok s Hl).
  set (s0 := set_lock 0 s). pose proof (acquire_good s Hi : good 0 s s0) as (I0 & L0 & K0).
  destruct (inv_outside_of s s0) as [Ec Ei]; [done..|].
  eapply st_runs_bind with (R := fun _ s' => prog c false disconnect_order s0 s').
  { assert (c ∈ contexts_of s0) as Hc0 by (by rewrite Ec).
    assert (K + length (items_of s0 c) <= fuel)%nat as Hfuel0 by (by rewrite Ei).
    pose proof (prog_start s0 I0) as P. revert P. generalize s0 at 2 3 as s1. intros s1 P. simpl st_when.
    let step _ := (eapply prog_free_type;
      [exact Hc0|exact Hf|exact L0|exact Hfuel0|exact P|reflexivity|type_not_in]) in
    repeat (eapply st_runs_bind;
      [first [step () | eapply prog_reverse; [exact Hc0|exact P]]
      |clear P s1; intros [] s1 P; cbn [app negb] in P]);
    (eapply st_runs_mono; [step ()|clear P; by intros [] s2 P]). }
  intros _ s1 [P1 P2 P3 P4 P5 P6 P7 P8 P9].
  assert (c ∈ contexts_of s1) as Hc1 by (by rewrite P5, Ec).
  destruct (rep_disconnect s1 _ _ c (inv_rep _ P1) Hc1) as ([] & s2 & E2 & Hr2 & Hi2 & [= L2 _ G2 F2 W2]).
  assert (lock s2 = 0) as L2' by congruence.
  eexists tt, (set_lock 1 s2). split.
  { revert E2. unfold mbind, st_bind. destruct (List_RESMAN_CONTEXT_Remove c s1) as [[[] s1']|]; [|done].
    intros ->. by rewrite RELEASE_ok. }
  destruct (inv_outside_of s2 (set_lock 1 s2)) as [Ec2 Ei2]; [done..|].
  assert (resman_inv s2) as I2.
  { apply (rep_inv _ _ _ Hr2).
    - rewrite F2, P3. simpl. rewrite Hf. set_solver.
    - rewrite W2, P4. intros c' Hc'. apply elem_of_without. rewrite P5, Ec.
      split; [by apply (inv_walking _ Hi)|]. by intros ->. }
  split_and!.
  - by destruct (release_good s2 I2).
  - done.
  - by rewrite Ec2, (rep_contexts_of _ _ _ Hr2), P5, Ec.
  - intros c' Hc'. rewrite Ei2, (rep_items_of _ _ _ _ Hr2), <- Ei, <- P7 by done.
    case_decide as Hd; [done|]. rewrite (rep_items_of _ _ _ _ (inv_rep _ P1)), decide_False; [done|].
    rewrite elem_of_without in Hd. tauto.
  - intros i. change (payload (set_lock 1 s2) i) with (payload s2 i).
    replace (payload s2 i) with (payload s1 i) by (unfold payload; by rewrite Hi2).
    rewrite P8, Ei. specialize (Hty i). change (type_of s0 i) with (type_of s i).
    repeat case_decide; try done; tauto.
  - simpl. rewrite G2, P9.
    assert (group s0 c <$> disconnect_order = group s c <$> disconnect_order) as ->; [|done].
    apply list_fmap_ext. intros k ty _. unfold group. by rewrite Ei.
Qed.
End Disconnect.
