(* ===== verification/PvrResmanTheorems.v ===== *)
(** * The theorems on the resource manager

    Safety under interference, the effect of the calls that free resources, and
    that every call returns; then behaviours of the code that were not intended. *)

From stdpp Require Import functions base numbers option gmap fin_maps sets list.
From Stdlib Require Import ZArith Lia.
From S2P Require Import Prelude Stateful PvrHash PvrLists PvrListFacts PvrResman PvrResmanRep.
From S2P Require Import PvrResmanSafe PvrResmanQuiet.

Local Open Scope Z_scope.

(** ** Every call returns *)

Lemma items_of_size s c : resman_inv s -> (length (items_of s c) <= size (items s))%nat.
Proof.
  intros Hi. destruct (decide (c ∈ contexts_of s)) as [Hc|Hc].
  - destruct (rep_items _ _ _ (inv_rep _ Hi) c Hc) as [_ _ Hnd]. apply size_bound; [done|].
    intros i Hl. by destruct (rep_item _ _ _ _ _ (inv_rep _ Hi) Hc Hl).
  - rewrite (rep_items_of _ _ _ _ (inv_rep _ Hi)), decide_False by done. simpl. lia.
Qed.

Section Returns.
Context (E : env) (others : list call -> RM unit) (K : nat).
Hypothesis Hq : quiet E.
Hypothesis Hothers : forall s, others [] s = Ok (tt, s).
Hypothesis HK : patience E K.

Definition idle (n : Z) (s : resman) : Prop := resman_inv s /\ lock s = n /\ freeing s = [].

Lemma good_idle n n' s s' : idle n s -> good n' s s' -> idle n' s'.
Proof. intros (_ & _ & Hf) (Hi & Hl & Hk). split_and!; [done|done|]. by rewrite (k_freeing _ _ Hk). Qed.

(** While a context is taken down. *)
Definition ready_r (c : Z) (w : list Z) (n : nat) (s : resman) : Prop :=
  idle 0 s /\ c ∈ contexts_of s /\ walking s = w /\ (length (items_of s c) <= n)%nat.

Definition step_r (c : Z) (w : list Z) (n : nat) (m : RM unit) : Prop :=
  forall s, ready_r c w n s -> runs m s (fun _ s' => ready_r c w n s').

Lemma step_r_seq c w n (m k : RM unit) : step_r c w n m -> step_r c w n k -> step_r c w n (m;; k).
Proof. intros Hm Hk s Hs. eapply st_runs_bind; [by apply Hm|]. intros [] s1 R1. by apply Hk. Qed.

Lemma criteria_returns fuel c crit type pv ui s :
  idle 0 s -> c ∈ contexts_of s -> (K + length (items_of s c) <= fuel)%nat ->
  runs (FreeResourceByCriteria E others fuel c crit type pv ui true) s (fun _ s' =>
    idle 0 s' /\ c ∈ contexts_of s' /\ walking s' = walking s /\
    (length (items_of s' c) <= length (items_of s c))%nat).
Proof.
  intros (Hi & Hl & Hf) Hc Hfuel. eapply st_runs_mono.
  { apply (FreeResourceByCriteria_quiet E others K Hq Hothers HK fuel s c crit type pv ui); [done..|].
    etrans; [|exact Hfuel]. apply Nat.add_le_mono_l. unfold victims. apply length_filter. }
  intros e s' (vs & ws & _ & Hfr & _). split_and!.
  - split_and!; [apply Hfr|by rewrite (fr_lock _ _ _ _ _ Hfr)|by rewrite (fr_freeing _ _ _ _ _ Hfr)].
  - by rewrite (fr_contexts _ _ _ _ _ Hfr).
  - apply Hfr.
  - rewrite (fr_items _ _ _ _ _ Hfr). apply length_filter.
Qed.

Lemma step_r_free_type c w n fuel type :
  (K + n <= fuel)%nat -> step_r c w n (free_type E others fuel c type).
Proof.
  intros Hfuel s (Hs & Hc & Hw & Hn). unfold free_type.
  eapply st_runs_bind; [apply (criteria_returns fuel c _ type 0 0 s Hs Hc); lia|].
  intros e s' (Hs' & Hc' & Hw' & Hn'). apply st_runs_ret. split_and!; [done|done|congruence|lia].
Qed.

Lemma step_r_reverse c w n : step_r c w n (List_RESMAN_ITEM_Reverse (Head c)).
Proof.
  intros s (Hs & Hc & Hw & Hn). pose proof Hs as (Hi & Hl & Hf).
  eapply st_runs_mono; [by apply (rep_reverse_items _ _ _ _ (inv_rep _ Hi) Hc)|].
  intros _ s' [Hr Hrest]. pose proof (item_rest_parts _ _ Hrest) as (_ & _ & Hw' & _).
  split_and!.
  - eapply good_idle; [done|]. rewrite <- Hl. eapply good_list_change; try done.
    intros i _. apply elem_of_reverse.
  - by rewrite (rep_contexts_of _ _ _ Hr).
  - congruence.
  - rewrite (rep_items_of _ _ _ _ Hr), decide_True, fn_lookup_insert by done. by rewrite length_reverse.
Qed.

Lemma disconnect_returns fuel c k s :
  idle 1 s -> c ∈ contexts_of s -> c ∉ walking s -> (K + size (items s) <= fuel)%nat ->
  runs (PVRSRVResManDisconnect E others fuel c k) s (fun _ s' => idle 1 s').
Proof.
  intros Hs Hc Hw Hfuel. pose proof Hs as (Hi & Hl & Hf). unfold PVRSRVResManDisconnect.
  st_run (ACQUIRE_ok s Hl). set (s1 := set_lock 0 s). pose proof (acquire_good s Hi : good 0 s s1) as G1.
  destruct (inv_outside_of s s1) as [Ec Ei]; [done..|].
  assert (ready_r c (walking s) (size (items s)) s1) as R1.
  { split_and!; [by eapply good_idle|by rewrite Ec|done|]. rewrite Ei. by apply items_of_size. }
  eapply st_runs_bind with (R := fun _ s' => ready_r c (walking s) (size (items s)) s').
  { destruct k; simpl st_when; [by apply st_runs_ret|].
    repeat apply step_r_seq; first [by apply step_r_free_type | by apply step_r_reverse | done]. }
  intros _ s2 ((I2 & L2 & F2) & C2 & W2 & _).
  destruct (rep_disconnect s2 _ _ c (inv_rep _ I2) C2) as ([] & s3 & E3 & Hr3 & _ & [= L3 _ _ F3 W3]).
  assert (resman_inv s3) as I3.
  { apply (rep_inv _ _ _ Hr3); [rewrite F3, F2; set_solver|]. rewrite W3, W2. intros c' Hc'.
    apply elem_of_without. split; [|by intros ->]. apply (inv_walking _ I2). by rewrite W2. }
  eexists tt, (set_lock 1 s3). split.
  { revert E3. unfold mbind, st_bind. destruct (List_RESMAN_CONTEXT_Remove c s2) as [[[] s2']|]; [|done].
    intros ->. rewrite RELEASE_ok; [done|congruence]. }
  split_and!; [by destruct (release_good s3 I3)|done|simpl; congruence].
Qed.

Lemma free_by_ptr_returns i c b s :
  idle 1 s -> i ∈ items_of s c -> runs (ResManFreeResByPtr E others i b) s (fun _ s' => good 1 s s').
Proof.
  intros (Hi & Hl & Hf) Hic. unfold ResManFreeResByPtr.
  destruct (Z.eqb_spec i 0) as [|H0]; [apply st_runs_ret; by split_and!|].
  st_run (ACQUIRE_ok s Hl). pose proof (acquire_good s Hi) as G1.
  destruct (inv_outside_of s (set_lock 0 s)) as [_ Ei]; [done..|].
  eapply st_runs_bind.
  { apply (FreeResourceByPtr_returns E others Hq Hothers (set_lock 0 s) i c b);
      [apply G1|done|by rewrite Ei|simpl; rewrite Hf; set_solver]. }
  intros e s2 G2. pose proof G2 as (I2 & L2 & _). st_run (RELEASE_ok E s2 L2). apply st_runs_ret.
  eapply good_trans; [exact G1|]. eapply good_trans; [exact G2|]. by apply release_good.
Qed.

Lemma free_by_criteria_returns fuel c crit type pv ui s :
  idle 1 s -> c ∈ contexts_of s -> (K + size (items s) <= fuel)%nat ->
  runs (ResManFreeResByCriteria E others fuel c crit type pv ui) s (fun _ s' => idle 1 s').
Proof.
  intros Hs Hc Hfuel. pose proof Hs as (Hi & Hl & Hf).
  unfold ResManFreeResByCriteria. st_run (ACQUIRE_ok s Hl).
  destruct (inv_outside_of s (set_lock 0 s)) as [Ec Ei]; [done..|].
  eapply st_runs_bind; [apply (criteria_returns fuel c crit type pv ui (set_lock 0 s))|].
  - apply (good_idle 1 0 s); [done|]. by apply acquire_good.
  - by rewrite Ec.
  - rewrite Ei. pose proof (items_of_size s c Hi). lia.
  - intros e s2 ((I2 & L2 & F2) & _). st_run (RELEASE_ok E s2 L2). apply st_runs_ret.
    eapply good_idle; [|by apply release_good]. by split_and!.
Qed.

Lemma exec_call_returns fuel c s :
  idle 1 s -> legal E s c = true -> (K + size (items s) <= fuel)%nat ->
  runs (exec_call E others fuel c) s (fun _ s' => idle 1 s').
Proof.
  intros Hs Hc Hfuel. pose proof Hs as (Hi & Hl & Hf).
  assert (forall A (m : RM A), runs m s (fun _ s' => good 1 s s') ->
    runs (m;; mret tt) s (fun _ s' => idle 1 s')) as Hdrop.
  { intros A m Hm. eapply st_runs_bind; [done|]. intros a s' G. apply st_runs_ret. by eapply good_idle. }
  assert (forall i, i ∉ freeing s) as Hnf by (rewrite Hf; set_solver).
  destruct c as [| |hp|c k|c type pv ui fn|i b|c crit type pv ui|i c|c i]; simpl in Hc |- *.
  - by apply Hdrop, ResManInit_runs.
  - apply bool_decide_eq_true in Hc. eapply st_runs_mono; [by apply ResManDeInit_runs|].
    intros [] s'. by eapply good_idle.
  - apply Hdrop, PVRSRVResManConnect_runs; [done|done|]. by apply bool_decide_eq_true in Hc.
  - apply andb_prop in Hc as [[Hc%connected_spec Hw%bool_decide_eq_true]%andb_prop _].
    by apply disconnect_returns.
  - apply Hdrop, ResManRegisterRes_runs; [done|done|].
    apply orb_prop in Hc as [->%Z.eqb_eq|Hc%connected_spec]; auto.
  - apply Hdrop. apply orb_prop in Hc as [->%Z.eqb_eq|Hc].
    + apply st_runs_ret. by split_and!.
    + apply andb_prop in Hc as [(c & _ & Hic)%owned_spec _]. by apply (free_by_ptr_returns i c).
  - apply andb_prop in Hc as [Hc%connected_spec _].
    eapply st_runs_bind; [by apply (free_by_criteria_returns fuel c)|]. intros e s' G. by apply st_runs_ret.
  - apply Hdrop. unfold ResManDissociateRes.
    destruct (Z.eqb_spec i 0) as [|H0]; [apply st_runs_ret; by split_and!|].
    simpl in Hc. apply andb_prop in Hc as [[(c0 & _ & Hic)%owned_spec _]%andb_prop Hc].
    destruct (Z.eqb_spec c 0) as [->|Hc0]; simpl negb; cbv iota.
    + apply (dissociate_free_runs E others s i c0); try done. by apply negb_true_iff in Hc.
    + apply connected_spec in Hc. by apply (move_item_runs s i c0).
  - apply Hdrop. eapply st_runs_mono; [apply ResManFindResourceByPtr_runs; [done|done|]|].
    + apply orb_prop in Hc as [[->%Z.eqb_eq| ->%Z.eqb_eq]%orb_prop|Hc%connected_spec]; auto.
    + intros e s' [-> _]. by split_and!.
Qed.
End Returns.

Lemma run_calls_nil E n s : run_calls E n [] s = Ok (tt, s).
Proof. by destruct n. Qed.

(** ** A small run for the witnesses *)

Definition ok_env : env :=
  {| is_mutex := true; os_alloc t := Some (100 + Z.of_nat t);
     free_fn t := (if bool_decide (t = 6%nat) then PVRSRV_ERROR_RETRY else PVRSRV_OK, []);
     asleep _ := [] |}.

(** A context with two allocations, two modifications of sync operations and a
    mapping. *)
Definition setup : list call :=
  [Init; Connect 7;
   RegisterRes 101 RESMAN_TYPE_DEVICEMEM_ALLOCATION 11 0 1;
   RegisterRes 101 RESMAN_TYPE_MODIFY_SYNC_OPS 12 0 2;
   RegisterRes 101 RESMAN_TYPE_OS_USERMODE_MAPPING 13 0 3;
   RegisterRes 101 RESMAN_TYPE_MODIFY_SYNC_OPS 14 0 2;
   RegisterRes 101 RESMAN_TYPE_DEVICEMEM_ALLOCATION 15 0 1].

Definition state_after (E : env) (cs : list call) : resman :=
  match run_calls E 20 cs resman0 with Ok (_, s) => s | Fault _ => resman0 end.

Lemma state_after_inv E cs : resman_inv (state_after E cs) /\ lock (state_after E cs) = 1 /\
  freeing (state_after E cs) = [] /\ walking (state_after E cs) = [].
Proof.
  unfold state_after. pose proof (run_calls_guards E 20 cs resman0 resman0_inv eq_refl) as H.
  unfold guards in H. destruct (run_calls E 20 cs resman0) as [[u s]|f].
  - destruct H as (Hi & Hl & [Hf Hw _ _]). by split_and!.
  - split_and!; [apply resman0_inv|done..].
Qed.

Lemma ok_env_quiet : quiet ok_env.
Proof. done. Qed.

Lemma ok_env_patience : patience ok_env 2.
Proof.
  intros t. destruct (decide (t = 6%nat)) as [->|Ht]; [exists 1%nat|exists 0%nat]; (split; [lia|]); simpl.
  - done.
  - rewrite bool_decide_false by lia. done.
Qed.

(** ** Theorems *)

(** C5: under any sequence of calls, each made when it is legal, with any legal
    calls of other threads and of the free functions themselves while the lock is
    not held, any results of the free functions and any outcomes of the
    allocations, the resource manager follows no stale pointer and misuses no
    lock: whatever fuel is given, it returns or the fuel runs out. Whenever it
    returns, the list of contexts and the list of items of each context are
    well-formed chains of live objects, no item is on the lists of two contexts,
    no free function is in progress, no context is half taken down and the lock
    is free. A call is legal when it names connected contexts and registered
    items, frees nothing that a call in progress is about to use, and, where the
    lock is a mutex, does not dissociate an item without giving it to a context.
    An item may be on no list: the one left over when a free function failed
    while its context was taken down. *)
Theorem resman_safe (E : env) (fuel : nat) (cs : list call) :
  match run_calls E fuel cs resman0 with
  | Ok (_, s) => resman_inv s /\ lock s = 1 /\ freeing s = [] /\ walking s = []
  | Fault f => f = OutOfFuel
  end.
Proof.
  pose proof (run_calls_guards E fuel cs resman0 resman0_inv eq_refl) as H.
  unfold guards in H. destruct (run_calls E fuel cs resman0) as [[u s]|[]]; try done.
  destruct H as (Hi & Hl & [Hf Hw _ _]). by split_and!.
Qed.

(** C27: A call returns, without other calls in between and when no free function
    asks for a retry [K] times in a row: the loops make at most [K] turns per item
    and one turn per item. *)
Theorem resman_call_returns (E : env) (K n fuel : nat) (c : call) (s : resman) :
  quiet E -> patience E K -> resman_inv s -> lock s = 1 -> freeing s = [] ->
  legal E s c = true -> (K + size (items s) <= fuel)%nat ->
  exists s', exec_call E (run_calls E n) fuel c s = Ok (tt, s') /\ resman_inv s' /\ lock s' = 1.
Proof.
  intros Hq HK Hi Hl Hf Hc Hfuel.
  destruct (exec_call_returns E (run_calls E n) K Hq (run_calls_nil E n) HK fuel c s) as ([] & s' & E' & ? & ? & _);
    [by split_and!|done|done|]. by exists s'.
Qed.

Lemma resman_call_returns_witness :
  exists s', exec_call ok_env (run_calls ok_env 0) 8 (Disconnect 101 false) (state_after ok_env setup) =
    Ok (tt, s') /\ resman_inv s' /\ lock s' = 1.
Proof.
  destruct (state_after_inv ok_env setup) as (Hi & Hl & Hf & _).
  apply (resman_call_returns ok_env 2 0 8 (Disconnect 101 false) (state_after ok_env setup)
           ok_env_quiet ok_env_patience Hi Hl Hf).
  - by vm_compute.
  - apply Nat.leb_le. by vm_compute.
Defined.

Lemma disconnect_covers (ty : Z) :
  RESMAN_TYPE_SHARED_PB_DESC <= ty <= RESMAN_TYPE_KERNEL_DEVICEMEM_ALLOCATION -> ty ∈ disconnect_order.
Proof.
  unfold RESMAN_TYPE_SHARED_PB_DESC, RESMAN_TYPE_KERNEL_DEVICEMEM_ALLOCATION. intros Hty.
  assert (Forall (fun t => t ∈ disconnect_order) (seqZ 1 21)) as H
    by (apply (bool_decide_eq_true_1 _); by vm_compute).
  rewrite Forall_forall in H. apply H, elem_of_seqZ. lia.
Qed.

(** C11: when no other call runs meanwhile and every free function succeeds after
    fewer than [K] retries, disconnecting a process whose resources have the 21
    types of resman.h calls the free function of each of its resources once
    (retries apart), type by type in the order of the code, the latest registered
    first within a type but the modifications of sync operations in the order
    they were made; then the items and the context are gone and the other
    contexts are as before. The context is on the list, is not being taken down
    already and is not that of the kernel, whose items the code leaves. *)
Theorem resman_disconnect_frees (E : env) (K n fuel : nat) (c : Z) (s : resman) :
  quiet E -> patience E K ->
  (forall t, fst (free_fn E t) = PVRSRV_OK \/ fst (free_fn E t) = PVRSRV_ERROR_RETRY) ->
  resman_inv s -> lock s = 1 -> freeing s = [] -> c ∈ contexts_of s -> c ∉ walking s ->
  (forall i, i ∈ items_of s c ->
     RESMAN_TYPE_SHARED_PB_DESC <= type_of s i <= RESMAN_TYPE_KERNEL_DEVICEMEM_ALLOCATION) ->
  (K + length (items_of s c) <= fuel)%nat ->
  exists s', PVRSRVResManDisconnect E (run_calls E n) fuel c false s = Ok (tt, s') /\
    resman_inv s' /\ lock s' = 1 /\ contexts_of s' = without c (contexts_of s) /\
    (forall c', c' <> c -> items_of s' c' = items_of s c') /\
    (forall i, payload s' i = if decide (i ∈ items_of s c) then None else payload s i) /\
    completed (free_log s') =
      reverse ((fun i => call_of s i PVRSRV_OK) <$> concat (group s c <$> disconnect_order)) ++
      completed (free_log s).
Proof.
  intros Hq HK Hok Hi Hl Hf Hc Hw Hty Hfuel.
  destruct (disconnect_frees E (run_calls E n) K c Hq (run_calls_nil E n) HK Hok s fuel)
    as ([] & s' & E' & Hs'); try done; [|by exists s'].
  intros i Hic. apply disconnect_covers. by apply Hty.
Qed.

Lemma resman_disconnect_frees_witness :
  let s := state_after ok_env setup in
  exists s', PVRSRVResManDisconnect ok_env (run_calls ok_env 0) 8 101 false s = Ok (tt, s') /\
    resman_inv s' /\ lock s' = 1 /\ contexts_of s' = without 101 (contexts_of s) /\
    (forall c', c' <> 101 -> items_of s' c' = items_of s c') /\
    (forall i, payload s' i = if decide (i ∈ items_of s 101) then None else payload s i) /\
    completed (free_log s') =
      reverse ((fun i => call_of s i PVRSRV_OK) <$> concat (group s 101 <$> disconnect_order)) ++
      completed (free_log s).
Proof.
  destruct (state_after_inv ok_env setup) as (Hi & Hl & Hf & Hw).
  apply (resman_disconnect_frees ok_env 2 0 8 101 (state_after ok_env setup) ok_env_quiet
           ok_env_patience); [|exact Hi|exact Hl|exact Hf|..].
  - intros t. simpl. case_bool_decide; auto.
  - apply (bool_decide_eq_true_1 (_ ∈ _)). by vm_compute.
  - rewrite Hw. apply not_elem_of_nil.
  - apply (Forall_forall (fun i => 1 <= type_of (state_after ok_env setup) i <= 21) _).
    apply (bool_decide_eq_true_1 _). by vm_compute.
  - apply Nat.leb_le. by vm_compute.
Defined.

(** The order of the calls on the small run: the mapping, the modifications
    oldest first, the allocations latest first. *)
Example disconnect_order_of_setup :
  (fun i => pvParam <$> items (state_after ok_env setup) !! i) <$>
    concat (group (state_after ok_env setup) 101 <$> disconnect_order) =
  [Some 13; Some 12; Some 14; Some 15; Some 11].
Proof. by vm_compute. Qed.

(** Freeing by criteria frees the items of the context that meet the criteria,
    in the order of the list, and nothing else, up to and including the first one
    whose free function fails; it answers PVRSRV_OK when all were freed and the
    error of the free function otherwise, and then the items after it stay
    registered. *)
Theorem resman_free_by_criteria (E : env) (K n fuel : nat) (c crit type pv ui : Z) (s : resman) :
  quiet E -> patience E K -> resman_inv s -> lock s = 1 -> freeing s = [] -> c ∈ contexts_of s ->
  (K + length (victims s c crit type pv ui) <= fuel)%nat ->
  exists e s' vs ws,
    ResManFreeResByCriteria E (run_calls E n) fuel c crit type pv ui s = Ok (e, s') /\
    victims s c crit type pv ui = vs ++ ws /\ freed c vs e s s' /\ e <> PVRSRV_ERROR_RETRY /\
    (e = PVRSRV_OK -> ws = []) /\ (e <> PVRSRV_OK -> vs <> []).
Proof.
  intros Hq HK Hi Hl Hf Hc Hfuel. pose proof (acquire_good s Hi) as (I1 & _).
  destruct (inv_outside_of s (set_lock 0 s)) as [Ec Ei]; [done..|].
  assert (victims (set_lock 0 s) c crit type pv ui = victims s c crit type pv ui) as Hv
    by (unfold victims; by rewrite Ei).
  destruct (FreeResourceByCriteria_quiet E (run_calls E n) K Hq (run_calls_nil E n) HK fuel (set_lock 0 s)
    c crit type pv ui I1 eq_refl) as (e & s1 & E1 & vs & ws & Hvs & Hfr & He & _ & Hok & Hnok);
    [by rewrite Ec|done|by rewrite Hv|].
  exists e, (set_lock 1 s1), vs, ws. rewrite <- Hv. split_and!; [|done| |done|done|done].
  - unfold ResManFreeResByCriteria. st_run (ACQUIRE_ok s Hl). st_run E1.
    by st_run (RELEASE_ok E s1 (fr_lock _ _ _ _ _ Hfr)).
  - destruct (inv_outside_of s1 (set_lock 1 s1)) as [Ec1 Ei1]; [done..|].
    destruct Hfr as [F1 F2 F3 F4 F5 F6 F7 F8 F9].
    split; [by destruct (release_good s1 F1)|by rewrite Hl|done|done| | | |done|done].
    + by rewrite Ec1, F5.
    + by rewrite Ei1, F6, Ei.
    + intros c' Hc'. by rewrite Ei1, F7, Ei.
Qed.

(** The second of two free functions fails. *)
Definition failing_env : env :=
  {| is_mutex := true; os_alloc t := Some (100 + Z.of_nat t);
     free_fn t := (if bool_decide (t = 7%nat) then PVRSRV_ERROR_OUT_OF_MEMORY else PVRSRV_OK, []);
     asleep _ := [] |}.

Lemma failing_env_patience : patience failing_env 1.
Proof. intros t. exists 0%nat. split; [lia|]. simpl. by case_bool_decide. Qed.

Lemma resman_free_by_criteria_witness :
  let s := state_after failing_env setup in
  exists e s' vs ws,
    ResManFreeResByCriteria failing_env (run_calls failing_env 0) 8 101 RESMAN_CRITERIA_RESTYPE
      RESMAN_TYPE_DEVICEMEM_ALLOCATION 0 0 s = Ok (e, s') /\
    victims s 101 RESMAN_CRITERIA_RESTYPE RESMAN_TYPE_DEVICEMEM_ALLOCATION 0 0 = vs ++ ws /\
    freed 101 vs e s s' /\ e <> PVRSRV_ERROR_RETRY /\
    (e = PVRSRV_OK -> ws = []) /\ (e <> PVRSRV_OK -> vs <> []).
Proof.
  destruct (state_after_inv failing_env setup) as (Hi & Hl & Hf & _).
  apply (resman_free_by_criteria failing_env 1 0 8 101 RESMAN_CRITERIA_RESTYPE
           RESMAN_TYPE_DEVICEMEM_ALLOCATION 0 0 (state_after failing_env setup)
           (fun _ => conj eq_refl eq_refl) failing_env_patience Hi Hl Hf).
  - apply (bool_decide_eq_true_1 (_ ∈ _)). by vm_compute.
  - apply Nat.leb_le. by vm_compute.
Defined.

(** ** Behaviours that were not intended *)

(** Dissociating a resource from its process without giving it to another
    context releases the lock of the resource manager without having taken it,
    which a mutex does not allow. *)
Theorem resman_dissociate_unlocks (E : env) (others : list call -> RM unit) (i : Z) (s : resman) :
  is_mutex E = true -> lock s = 1 -> i <> 0 ->
  ResManDissociateRes E others i 0 s = Fault LockError.
Proof.
  intros Hm Hl Hi. unfold ResManDissociateRes, FreeResourceByPtr, RELEASE_SYNC_OBJ.
  rewrite (proj2 (Z.eqb_neq i 0) Hi). unfold mbind, st_bind, gets. simpl. by rewrite Hm, Hl.
Qed.

Lemma resman_dissociate_unlocks_witness :
  ResManDissociateRes ok_env (run_calls ok_env 0) 102 0 (state_after ok_env setup) = Fault LockError.
Proof.
  destruct (state_after_inv ok_env setup) as (_ & Hl & _).
  apply (resman_dissociate_unlocks ok_env (run_calls ok_env 0) 102 (state_after ok_env setup) eq_refl Hl).
  discriminate.
Defined.

(** A free function that fails once, for the allocation freed first. *)
Definition failing_once : env :=
  {| is_mutex := true; os_alloc t := Some (100 + Z.of_nat t);
     free_fn t := (if bool_decide (t = 10%nat) then PVRSRV_ERROR_OUT_OF_MEMORY else PVRSRV_OK, []);
     asleep _ := [] |}.

(** When a free function fails while a process is disconnected, the context
    goes although other resources of the same type are still on its list: their
    free functions are never called, and freeing one of them afterwards writes
    through a pointer into the context, which is freed memory. *)
Theorem resman_failed_disconnect_orphans :
  let s := state_after failing_once (setup ++ [Disconnect 101 false]) in
  contexts_of s = [] /\ size (items s) = 1%nat /\ type_of s 102 = RESMAN_TYPE_DEVICEMEM_ALLOCATION /\
  Forall (fun f => fc_pvParam f <> 11) (free_log s) /\
  ResManFreeResByPtr failing_once (run_calls failing_once 0) 102 false s = Fault OutOfBounds.
Proof.
  split_and!; [by vm_compute..| |].
  - apply (bool_decide_eq_true_1 _). by vm_compute.
  - by vm_compute.
Qed.

(** Another thread frees the item while [ResManFreeResByCriteria] sleeps before a
    retry: the item is used after it was freed. *)
Definition racing_env : env :=
  {| is_mutex := true; os_alloc t := Some (100 + Z.of_nat t);
     free_fn t := (if bool_decide (t = 7%nat) then PVRSRV_ERROR_RETRY else PVRSRV_OK, []);
     asleep t := [FreeResByPtr 106 false] |}.

Example resman_retry_race :
  ResManFreeResByCriteria racing_env
    (fun cs => match cs with [c] => exec_call racing_env (run_calls racing_env 0) 8 c | _ => mret tt end)
    8 101 RESMAN_CRITERIA_RESTYPE RESMAN_TYPE_DEVICEMEM_ALLOCATION 0 0 (state_after racing_env setup) =
  Fault OutOfBounds.
Proof. by vm_compute. Qed.
