(* ===== verification/PvrPerProc.v ===== *)
(** * The per-process data of the PowerVR services

    src/imgtec/eurasia_km/services4/srvkm/common/perproc.c, with
    [OSPerProcessPrivateDataInit], [OSPerProcessPrivateDataDeInit] and
    [OSPerProcessSetHandleOptions] of
    src/imgtec/eurasia_km/services4/srvkm/env/linux/osperproc.c and
    [LinuxMMapPerProcessHandleOptions] of mmap.c beside it.  A process that
    opens the driver gets a record with a handle base of its own, a context of
    the resource manager, a handle of the kernel's handle base and private data of
    the environment; a hash table finds the record by the process id.  The state
    puts the components together: the hash table of [PvrHash.v], the handle bases
    of [PvrHandle.v] and the resource manager of [PvrResman.v].

    [pp_env] gives the outcomes of the allocations by the time of the call, with
    the addresses of new objects; an address in use counts as a failure.  The field [walking] of the resource manager
    records the contexts that a record points to, so that no other thread may
    disconnect them.  The mmap offsets and proc entries of the private data and
    time tracing are not modelled. *)

From stdpp Require Import base list numbers option gmap.
From Stdlib Require Import ZArith Lia.
From S2P Require Import Prelude PvrHash PvrHashFacts PvrHandleMap PvrHandle PvrResman Stateful.

Local Open Scope Z_scope.

Definition HASH_TAB_INIT_SIZE : Z := 32.
Definition PVRSRV_ERROR_INIT_FAILURE : Z := 4.
Definition PVRSRV_ERROR_INSERT_HASH_TABLE_DATA_FAILED : Z := 159.
Definition PVRSRV_HANDLE_ALLOC_FLAG_NONE : Z := 0.

(** Pages of 4 kilobytes. *)
Definition PAGE_SHIFT : Z := 12.
Definition MMAP2_PGOFF_RESOLUTION : Z := 32 - PAGE_SHIFT + 12.
Definition RESERVED_PGOFF_BITS : Z := 1.
Definition MAX_MMAP_HANDLE : Z := Z.shiftl 1 (MMAP2_PGOFF_RESOLUTION - RESERVED_PGOFF_BITS) - 1.

(** ** Data *)

Record PVRSRV_PER_PROCESS_DATA := mk_pp {
  ui32PID : Z;
  hResManContext : Z;
  hPerProcData : Z;
  psHandleBase : Z;
  ui32RefCount : Z;
  hOsPrivateData : Z }.

Definition set_ui32PID (x : Z) (r : PVRSRV_PER_PROCESS_DATA) : PVRSRV_PER_PROCESS_DATA :=
  mk_pp x (hResManContext r) (hPerProcData r) (psHandleBase r) (ui32RefCount r) (hOsPrivateData r).
Definition set_hResManContext (x : Z) (r : PVRSRV_PER_PROCESS_DATA) : PVRSRV_PER_PROCESS_DATA :=
  mk_pp (ui32PID r) x (hPerProcData r) (psHandleBase r) (ui32RefCount r) (hOsPrivateData r).
Definition set_hPerProcData (x : Z) (r : PVRSRV_PER_PROCESS_DATA) : PVRSRV_PER_PROCESS_DATA :=
  mk_pp (ui32PID r) (hResManContext r) x (psHandleBase r) (ui32RefCount r) (hOsPrivateData r).
Definition set_psHandleBase (x : Z) (r : PVRSRV_PER_PROCESS_DATA) : PVRSRV_PER_PROCESS_DATA :=
  mk_pp (ui32PID r) (hResManContext r) (hPerProcData r) x (ui32RefCount r) (hOsPrivateData r).
Definition set_ui32RefCount (x : Z) (r : PVRSRV_PER_PROCESS_DATA) : PVRSRV_PER_PROCESS_DATA :=
  mk_pp (ui32PID r) (hResManContext r) (hPerProcData r) (psHandleBase r) x (hOsPrivateData r).
Definition set_hOsPrivateData (x : Z) (r : PVRSRV_PER_PROCESS_DATA) : PVRSRV_PER_PROCESS_DATA :=
  mk_pp (ui32PID r) (hResManContext r) (hPerProcData r) (psHandleBase r) (ui32RefCount r) x.

(** A handle base with a table of hash.c. *)
Abbreviation hbase := (PVRSRV_HANDLE_BASE HASH_TABLE).

(** [pids] is the variable [psHashTab] of perproc.c; [procs], [bases] and
    [os_data] are the memory of the records, handle bases and private data;
    [kernel_base] is what [gpsKernelHandleBase] points to. *)
Record services := mk_services {
  pids : option HASH_TABLE;
  procs : gmap Z PVRSRV_PER_PROCESS_DATA;
  bases : gmap Z hbase;
  os_data : gset Z;
  kernel_base : hbase;
  resources : resman;
  pp_clock : nat }.

Definition set_pids (x : option HASH_TABLE) (s : services) : services :=
  mk_services x (procs s) (bases s) (os_data s) (kernel_base s) (resources s) (pp_clock s).
Definition set_procs (x : gmap Z PVRSRV_PER_PROCESS_DATA) (s : services) : services :=
  mk_services (pids s) x (bases s) (os_data s) (kernel_base s) (resources s) (pp_clock s).
Definition set_bases (x : gmap Z hbase) (s : services) : services :=
  mk_services (pids s) (procs s) x (os_data s) (kernel_base s) (resources s) (pp_clock s).
Definition set_os_data (x : gset Z) (s : services) : services :=
  mk_services (pids s) (procs s) (bases s) x (kernel_base s) (resources s) (pp_clock s).
Definition set_kernel_base (x : hbase) (s : services) : services :=
  mk_services (pids s) (procs s) (bases s) (os_data s) x (resources s) (pp_clock s).
Definition set_resources (x : resman) (s : services) : services :=
  mk_services (pids s) (procs s) (bases s) (os_data s) (kernel_base s) x (pp_clock s).
Definition set_pp_clock (x : nat) (s : services) : services :=
  mk_services (pids s) (procs s) (bases s) (os_data s) (kernel_base s) (resources s) x.

(** [bucket_alloc] and [table_alloc] are the allocations of the hash table,
    [base_allocs] those of a new handle base; [rm_env] and [rm_fuel] are the
    environment of the resource manager and the fuel of its loops. *)
Record pp_env := {
  rm_env : env;
  rm_fuel : nat;
  pp_alloc : nat -> option Z;
  bucket_alloc : nat -> bool;
  table_alloc : nat -> bool;
  base_allocs : nat -> list alloc_result }.

Section PerProc.
Context (E : pp_env) `{BlockShift}.

Definition PP (A : Type) : Type := ST services A.

(** ** Access to the state *)

Definition pp_tick : PP nat := fun s => Ok (pp_clock s, set_pp_clock (S (pp_clock s)) s).

Definition proc (p : Z) : PP PVRSRV_PER_PROCESS_DATA := found (fun s => procs s !! p).
Definition update_proc (p : Z) (f : PVRSRV_PER_PROCESS_DATA -> PVRSRV_PER_PROCESS_DATA) : PP unit :=
  r ← proc p;
  modify (fun s => set_procs (<[p := f r]> (procs s)) s).

(** A call on the kernel's handle base, on another one, on the resource manager. *)
Definition on_kernel {A} (m : HB (H := HASH_TABLE) A) : PP A := fun s =>
  match m (kernel_base s) with
  | Ok (a, b) => Ok (a, set_kernel_base b s)
  | Fault f => Fault f
  end.
Definition on_base {A} (p : Z) (m : HB (H := HASH_TABLE) A) : PP A := fun s =>
  match bases s !! p with
  | None => Fault OutOfBounds
  | Some b =>
      match m b with
      | Ok (a, b) => Ok (a, set_bases (<[p := b]> (bases s)) s)
      | Fault f => Fault f
      end
  end.
Definition on_resman {A} (m : RM A) : PP A := fun s =>
  match m (resources s) with
  | Ok (a, r) => Ok (a, set_resources r s)
  | Fault f => Fault f
  end.

(** The pointer to a context that a record holds, for the other threads to spare. *)
Definition hold_context (c : Z) : PP unit :=
  on_resman (modify (fun s => set_walking (c :: walking s) s)).
Definition drop_context (c : Z) : PP unit :=
  on_resman (modify (fun s => set_walking (filter (.≠ c) (walking s)) s)).

(** A call on the hash table. *)
Definition on_table {A} (m : HASH_TABLE -> outcome (A * HASH_TABLE)) : PP A := fun s =>
  match pids s with
  | None => Fault OutOfBounds
  | Some h =>
      match m h with
      | Ok (a, h) => Ok (a, set_pids (Some h) s)
      | Fault f => Fault f
      end
  end.
Definition hash_retrieve (k : Z) : PP Z :=
  on_table (fun h => match HASH_Retrieve h k with Ok v => Ok (v, h) | Fault f => Fault f end).
Definition hash_insert (k v : Z) : PP bool :=
  n ← pp_tick;
  on_table (fun h => HASH_Insert (bucket_alloc E n) (table_alloc E n) h k v).
Definition hash_remove (k : Z) : PP Z :=
  n ← pp_tick;
  on_table (fun h => HASH_Remove (table_alloc E n) h k).

(** The address of new memory that [used] does not hold yet, or 0. *)
Definition new_address (used : services -> Z -> bool) : PP Z :=
  n ← pp_tick;
  gets (fun s => match pp_alloc E n with
                 | Some p => if (p =? 0) || used s p then 0 else p
                 | None => 0
                 end).

Definition zero_pp : PVRSRV_PER_PROCESS_DATA := mk_pp 0 0 0 0 0 0.

(** ** The environment's part *)

Definition OSPerProcessPrivateDataInit : PP (Z * Z) :=
  p ← new_address (fun s p => bool_decide (p ∈ os_data s));
  if p =? 0 then mret (PVRSRV_ERROR_OUT_OF_MEMORY, 0) else
  modify (fun s => set_os_data ({[p]} ∪ os_data s) s);;
  mret (PVRSRV_OK, p).

Definition OSPerProcessPrivateDataDeInit (hOsPrivateData : Z) : PP Z :=
  if hOsPrivateData =? 0 then mret PVRSRV_OK else
  modify (fun s => set_os_data (os_data s ∖ {[hOsPrivateData]}) s);;
  mret PVRSRV_OK.

Definition LinuxMMapPerProcessHandleOptions (psHandleBase : Z) : PP Z :=
  on_base psHandleBase (PVRSRVSetMaxHandle MAX_MMAP_HANDLE).

Definition OSPerProcessSetHandleOptions (psHandleBase : Z) : PP Z :=
  LinuxMMapPerProcessHandleOptions psHandleBase.

(** The error and the address of a new handle base. *)
Definition new_handle_base : PP (Z * Z) :=
  n ← pp_tick;
  p ← new_address (fun s p => bool_decide (is_Some (bases s !! p)));
  if p =? 0 then mret (PVRSRV_ERROR_OUT_OF_MEMORY, 0) else
  match PVRSRVAllocHandleBase (H := HASH_TABLE) (base_allocs E n) with
  | Ok (eError, Some b) => modify (fun s => set_bases (<[p := b]> (bases s)) s);; mret (eError, p)
  | Ok (eError, None) => mret (eError, 0)
  | Fault f => st_fault f
  end.

Definition free_handle_base (p : Z) : PP Z :=
  '(eError, _) ← on_base p PVRSRVFreeHandleBase;
  if eError =? PVRSRV_OK then
    modify (fun s => set_bases (delete p (bases s)) s);;
    mret eError
  else mret eError.

(** ** The code *)

Definition FreePerProcessData (psPerProc : Z) : PP Z :=
  if psPerProc =? 0 then mret PVRSRV_ERROR_INVALID_PARAMS else
  r ← proc psPerProc;
  hash_remove (ui32PID r);;
  r ← proc psPerProc;
  eError ← (if psHandleBase r =? 0 then mret PVRSRV_OK else free_handle_base (psHandleBase r));
  if negb (eError =? PVRSRV_OK) then mret eError else
  eError ← (if hPerProcData r =? 0 then mret PVRSRV_OK
            else on_kernel (PVRSRVReleaseHandle (hPerProcData r) PVRSRV_HANDLE_TYPE_PERPROC_DATA));
  if negb (eError =? PVRSRV_OK) then mret eError else
  eError ← OSPerProcessPrivateDataDeInit (hOsPrivateData r);
  if negb (eError =? PVRSRV_OK) then mret eError else
  modify (fun s => set_procs (delete psPerProc (procs s)) s);;
  mret PVRSRV_OK.

Definition PVRSRVPerProcessData (ui32PID : Z) : PP Z := hash_retrieve ui32PID.

(** What [PVRSRVPerProcessDataConnect] does with a new record up to the first
    error. *)
Definition connect_steps (psPerProc ui32PID : Z) : PP Z :=
  inserted ← hash_insert ui32PID psPerProc;
  if negb inserted then mret PVRSRV_ERROR_INSERT_HASH_TABLE_DATA_FAILED else
  update_proc psPerProc (fun r => set_ui32RefCount 0 (set_ui32PID ui32PID r));;
  '(eError, h) ← OSPerProcessPrivateDataInit;
  update_proc psPerProc (set_hOsPrivateData h);;
  if negb (eError =? PVRSRV_OK) then mret eError else
  '(eError, h) ← on_kernel (PVRSRVAllocHandle psPerProc PVRSRV_HANDLE_TYPE_PERPROC_DATA
                              PVRSRV_HANDLE_ALLOC_FLAG_NONE);
  update_proc psPerProc (set_hPerProcData h);;
  if negb (eError =? PVRSRV_OK) then mret eError else
  '(eError, b) ← new_handle_base;
  update_proc psPerProc (set_psHandleBase b);;
  if negb (eError =? PVRSRV_OK) then mret eError else
  eError ← OSPerProcessSetHandleOptions b;
  if negb (eError =? PVRSRV_OK) then mret eError else
  '(eError, c) ← on_resman (PVRSRVResManConnect (rm_env E) psPerProc);
  if negb (eError =? PVRSRV_OK) then mret eError else
  update_proc psPerProc (set_hResManContext c);;
  hold_context c;;
  mret PVRSRV_OK.

Definition PVRSRVPerProcessDataConnect (ui32PID : Z) : PP Z :=
  t ← gets pids;
  match t with
  | None => mret PVRSRV_ERROR_INIT_FAILURE
  | Some _ =>
      psPerProc ← hash_retrieve ui32PID;
      if negb (psPerProc =? 0) then
        update_proc psPerProc (fun r => set_ui32RefCount (u32 (ui32RefCount r + 1)) r);;
        mret PVRSRV_OK
      else
        psPerProc ← new_address (fun s p => bool_decide (is_Some (procs s !! p)));
        if psPerProc =? 0 then mret PVRSRV_ERROR_OUT_OF_MEMORY else
        modify (fun s => set_procs (<[psPerProc := zero_pp]> (procs s)) s);;
        eError ← connect_steps psPerProc ui32PID;
        if negb (eError =? PVRSRV_OK) then
          FreePerProcessData psPerProc;;
          mret eError
        else
          update_proc psPerProc (fun r => set_ui32RefCount (u32 (ui32RefCount r + 1)) r);;
          mret PVRSRV_OK
  end.

Definition PVRSRVPerProcessDataDisconnect (ui32PID : Z) : PP unit :=
  psPerProc ← hash_retrieve ui32PID;
  st_when (negb (psPerProc =? 0)) (
    update_proc psPerProc (fun r => set_ui32RefCount (u32 (ui32RefCount r - 1)) r);;
    r ← proc psPerProc;
    st_when (ui32RefCount r =? 0) (
      drop_context (hResManContext r);;
      on_resman (PVRSRVResManDisconnect (rm_env E) (run_calls (rm_env E) (rm_fuel E)) (rm_fuel E)
                   (hResManContext r) false);;
      FreePerProcessData psPerProc;;
      mret tt));;
  on_kernel PVRSRVPurgeHandles;;
  mret tt.

Definition PVRSRVPerProcessDataInit : PP Z :=
  n ← pp_tick;
  match HASH_Create (bucket_alloc E n) (table_alloc E n) HASH_TAB_INIT_SIZE with
  | None => mret PVRSRV_ERROR_UNABLE_TO_CREATE_HASH_TABLE
  | Some h => modify (set_pids (Some h));; mret PVRSRV_OK
  end.

Definition PVRSRVPerProcessDataDeInit : PP Z :=
  modify (set_pids None);;
  mret PVRSRV_OK.
End PerProc.

(** Before [PVRSRVPerProcessDataInit], with the handle base of the kernel. *)
Definition services0 (psKernelHandleBase : hbase) : services :=
  mk_services None ∅ ∅ ∅ psKernelHandleBase resman0 0.
