(* ===== verification/PvrPerProcOwn.v ===== *)
(** * Who owns what in the per-process data

    Every handle base, private data block, connected context and handle of the
    kernel's base belongs to one record: the record whose field names it.
    [owned_by] states this for one field; the lemmas say how it changes when a
    record is added, gets or gives up an object, or goes.  [kernel_ok],
    [bases_ok], [contexts_ok] and [indexed] put it together with the invariants
    of the components. *)

From stdpp Require Import base list numbers option gmap.
From Stdlib Require Import ZArith Lia.
From S2P Require Import Prelude PvrHash PvrHashFacts PvrHandleMap PvrHandle PvrHandlePool PvrHandlePick PvrHandleFree PvrHandleAlloc PvrHandleSpec.
From S2P Require Import PvrHandleClient PvrHandleBatch PvrHandleClose.
From S2P Require Import PvrResman PvrResmanRep PvrResmanSafe Stateful PvrPerProc.

Local Open Scope Z_scope.

Abbreviation record := PVRSRV_PER_PROCESS_DATA.
Abbreviation records := (gmap Z PVRSRV_PER_PROCESS_DATA).

(** ** Ownership *)

Record owned_by (f : record -> Z) (R : records) (X : Z -> Prop) : Prop := mk_owned {
  ob_live p r : R !! p = Some r -> f r <> 0 -> X (f r);
  ob_owner x : X x -> x <> 0 /\ exists p r, R !! p = Some r /\ f r = x;
  ob_one p r p' r' : R !! p = Some r -> R !! p' = Some r' -> f r <> 0 -> f r = f r' -> p = p' }.

Lemma owned_iff f R X Y : (forall x, X x <-> Y x) -> owned_by f R X -> owned_by f R Y.
Proof.
  intros HXY [H1 H2 H3]. split; [|by intros x ?%HXY; apply H2|done].
  intros p r Hr Hf. apply HXY. eauto.
Qed.

Section Owned.
Context {f : record -> Z} {R : records} {X : Z -> Prop} (O : owned_by f R X).

Lemma owned_same p r r' : R !! p = Some r -> f r' = f r -> owned_by f (<[p := r']> R) X.
Proof.
  destruct O as [H1 H2 H3]. intros Hp Hf.
  assert (forall q x, <[p := r']> R !! q = Some x -> exists y, R !! q = Some y /\ f y = f x) as Hb.
  { intros q x [[<- <-]|[_ Hq]]%lookup_insert_Some; eauto. }
  split.
  - intros q x (y & Hy & <-)%Hb. eauto.
  - intros x Hx. destruct (H2 x Hx) as (? & q & y & Hy & Ey). split; [done|].
    destruct (decide (q = p)) as [->|Hn].
    + exists p, r'. rewrite lookup_insert_eq. split; [done|]. congruence.
    + exists q, y. by rewrite lookup_insert_ne.
  - intros q x q' x' (y & Hy & E1)%Hb (y' & Hy' & E2)%Hb. rewrite <- E1, <- E2. eauto.
Qed.

Lemma owned_new p r : R !! p = None -> f r = 0 -> owned_by f (<[p := r]> R) X.
Proof.
  destruct O as [H1 H2 H3]. intros Hp Hf. split.
  - intros q x [[<- <-]|[_ Hq]]%lookup_insert_Some; [done|eauto].
  - intros x Hx. destruct (H2 x Hx) as (? & q & y & Hy & Ey). split; [done|]. exists q, y.
    rewrite lookup_insert_ne; [done|]. by intros ->; rewrite Hp in Hy.
  - intros q x q' x' [[<- <-]|[_ Hq]]%lookup_insert_Some [[<- <-]|[_ Hq']]%lookup_insert_Some;
      [done..|congruence|eauto].
Qed.

Lemma owned_get p r r' x :
  R !! p = Some r -> f r = 0 -> f r' = x -> x <> 0 -> ~ X x ->
  owned_by f (<[p := r']> R) (fun y => y = x \/ X y).
Proof.
  destruct O as [H1 H2 H3]. intros Hp Hf Hx H0 Hn.
  assert (forall q y, q <> p -> R !! q = Some y -> f y <> x) as Hf'.
  { intros q y Hq Hy <-. apply Hn. eauto. }
  split.
  - intros q y [[<- <-]|[_ Hq]]%lookup_insert_Some Hy; [by left|right; eauto].
  - intros y [->|Hy].
    + split; [done|]. exists p, r'. by rewrite lookup_insert_eq.
    + destruct (H2 y Hy) as (? & q & z & Hz & Ez). split; [done|]. exists q, z.
      rewrite lookup_insert_ne; [done|]. intros ->. congruence.
  - intros q y q' y' [[<- <-]|[Hne Hq]]%lookup_insert_Some [[<- <-]|[Hne' Hq']]%lookup_insert_Some Hy Hyy;
      [done| | |eauto].
    + by destruct (Hf' q' y'); [done|done|congruence].
    + by destruct (Hf' q y); [done|done|congruence].
Qed.

(** The record of the object [f r], or of none, goes. *)
Lemma owned_drop p r : R !! p = Some r -> owned_by f (delete p R) (fun y => X y /\ y <> f r).
Proof.
  destruct O as [H1 H2 H3]. intros Hp. split.
  - intros q y [Hne Hq]%lookup_delete_Some Hy. split; [eauto|]. intros E. apply Hne. symmetry. by eapply H3.
  - intros y [Hy Hyr]. destruct (H2 y Hy) as (? & q & z & Hz & Ez). split; [done|]. exists q, z.
    rewrite lookup_delete_ne; [done|]. intros ->. congruence.
  - intros q y q' y' [_ Hq]%lookup_delete_Some [_ Hq']%lookup_delete_Some. eauto.
Qed.

Lemma owned_not_0 : ~ X 0.
Proof. intros Hx. by destruct (ob_owner _ _ _ O 0 Hx). Qed.

Lemma owned_empty : R = ∅ -> forall x, ~ X x.
Proof. intros -> x Hx. by destruct (ob_owner _ _ _ O x Hx) as (_ & p & r & Hr & _). Qed.
End Owned.

(** What is owned is determined by the records. *)
Lemma owned_unique f R X Y : owned_by f R X -> owned_by f R Y -> forall x, X x <-> Y x.
Proof.
  intros OX OY x. split; intros Hx.
  - destruct (ob_owner _ _ _ OX x Hx) as (H0 & p & r & Hr & <-). by eapply (ob_live _ _ _ OY).
  - destruct (ob_owner _ _ _ OY x Hx) as (H0 & p & r & Hr & <-). by eapply (ob_live _ _ _ OX).
Qed.

Lemma owned_none f : owned_by f ∅ (fun _ => False).
Proof. split; [intros p r Hr|done|intros p r p' r' Hr]; by rewrite lookup_empty in Hr. Qed.

(** ** The handle base of the kernel *)

Section Components.
Context `{BSH : BlockShift}.

Definition perproc_entry (p : Z) : entry :=
  mk_entry PVRSRV_HANDLE_TYPE_PERPROC_DATA p PVRSRV_HANDLE_ALLOC_FLAG_NONE 0.

(** Its handles are those of the records, each leading to its record. *)
Definition kernel_ok (R : records) (k : hbase) : Prop := exists a, models k a /\
  owned_by hPerProcData R (fun h => is_Some (a_handles a h)) /\
  (forall p r, R !! p = Some r -> hPerProcData r <> 0 ->
     a_handles a (hPerProcData r) = Some (perproc_entry p)).

Lemma kernel_init al :
  exists e b, PVRSRVHandleInit (H := HASH_TABLE) al = Ok (e, b) /\ (forall k, b = Some k -> kernel_ok ∅ k).
Proof.
  destruct (HandleInit_ok (H := HASH_TABLE) al) as (e & b & E & Hb). exists e, b. split; [done|].
  intros k ->. destruct Hb as [[? _]|(_ & k' & [= <-] & Hm)]; [done|].
  exists (empty_abs true). split; [done|]. split.
  - apply (owned_iff _ _ (fun _ => False)); [|apply owned_none]. intros x. split; [done|]. by intros [].
  - intros p r Hr. by rewrite lookup_empty in Hr.
Qed.

Lemma kernel_same R k p r r' :
  kernel_ok R k -> R !! p = Some r -> hPerProcData r' = hPerProcData r -> kernel_ok (<[p := r']> R) k.
Proof.
  intros (a & Hm & O & He) Hp Hf. exists a. split; [done|]. split; [by eapply owned_same|].
  intros q x [[<- <-]|[_ Hq]]%lookup_insert_Some Hx; [|by apply He]. rewrite Hf in *. by apply He.
Qed.

Lemma kernel_new R k p r :
  kernel_ok R k -> R !! p = None -> hPerProcData r = 0 -> kernel_ok (<[p := r]> R) k.
Proof.
  intros (a & Hm & O & He) Hp Hf. exists a. split; [done|]. split; [by eapply owned_new|].
  intros q x [[<- <-]|[_ Hq]]%lookup_insert_Some Hx; [done|by apply He].
Qed.

Lemma answer_back {A} (c : HB (H := HASH_TABLE) A) f s e v s' :
  answer c f s = Ok (e, v, s') -> exists r, c s = Ok (r, s') /\ f r = (e, v).
Proof.
  unfold answer, mbind, HB_bind, mret, HB_ret. destruct (c s) as [[r s1]|]; [|done].
  intros [= <- <-]. by exists r.
Qed.

(** The errors of [PVRSRVPerProcessDataConnect]. *)
Definition out_of_memory (e : Z) : Prop :=
  e ∈ [PVRSRV_ERROR_OUT_OF_MEMORY; PVRSRV_ERROR_UNABLE_TO_ADD_HANDLE;
       PVRSRV_ERROR_UNABLE_TO_CREATE_HASH_TABLE; PVRSRV_ERROR_INSERT_HASH_TABLE_DATA_FAILED].

(** No handle of another record is found for a new one. *)
Lemma kernel_finds R a p r h :
  owned_by hPerProcData R (fun h => is_Some (a_handles a h)) ->
  (forall p r, R !! p = Some r -> hPerProcData r <> 0 ->
     a_handles a (hPerProcData r) = Some (perproc_entry p)) ->
  R !! p = Some r -> hPerProcData r = 0 ->
  ~ finds a (InitKey p PVRSRV_HANDLE_TYPE_PERPROC_DATA 0) h.
Proof.
  intros O He Hp Hf (x & Hx & _ & Hk). destruct (ob_owner _ _ _ O h) as (H0 & q & y & Hy & Ey); [eauto|].
  specialize (He q y Hy). rewrite Ey in He. rewrite He in Hx by done. injection Hx as <-.
  unfold key_of, perproc_entry, InitKey in Hk. cbn in Hk. injection Hk as ->. simplify_eq.
Qed.

Lemma kernel_alloc R k p r :
  kernel_ok R k -> R !! p = Some r -> hPerProcData r = 0 -> ui32TotalHandCount k + 1 < COUNT_LIMIT ->
  exists e h k',
    PVRSRVAllocHandle p PVRSRV_HANDLE_TYPE_PERPROC_DATA PVRSRV_HANDLE_ALLOC_FLAG_NONE k = Ok (e, h, k') /\
    ((e = PVRSRV_OK /\ h <> 0) \/ (out_of_memory e /\ h = 0)) /\
    (forall r', hPerProcData r' = h -> kernel_ok (<[p := r']> R) k').
Proof.
  intros (a & Hm & O & He) Hp Hf Hc.
  destruct (Alloc_ok p PVRSRV_HANDLE_TYPE_PERPROC_DATA PVRSRV_HANDLE_ALLOC_FLAG_NONE k a Hm) as
    (e & v & k' & a' & E & (h & -> & Hs) & Hm'); [done|].
  apply answer_back in E as ([e0 h0] & E & [= -> ->]). exists e, h, k'. split; [done|].
  pose proof (fun h => kernel_finds R a p r h O He Hp Hf) as Hnone.
  assert (forall r', a_handles a' = a_handles a \/ (forall h, a_handles a' h = a_handles a h) ->
    hPerProcData r' = 0 -> kernel_ok (<[p := r']> R) k') as Hsame.
  { intros r' Ha Hr'. exists a'. split; [done|]. assert (forall h, a_handles a' h = a_handles a h) as Ha'.
    { by destruct Ha as [->|]. }
    split.
    - eapply (owned_iff _ _ (fun h => is_Some (a_handles a h))); [intros; by rewrite Ha'|].
      eapply owned_same; [done..|congruence].
    - intros q x [[<- <-]|[_ Hq]]%lookup_insert_Some Hx; [done|]. rewrite Ha'. by apply He. }
  inversion Hs as [? x _ Hfi|? x ? _ Hfi|? ? _ Hee Hb|? ? _ Hh Hr Hb]; subst.
  - by destruct (Hnone h).
  - by destruct (Hnone h0).
  - split; [right; split; [|done]; unfold out_of_memory; set_solver|]. intros r' Hr'. apply Hsame; [|done].
    right. apply Hb.
  - split; [left; split; [done|lia]|]. intros r' Hr'. exists a'. split; [done|].
    assert (forall x, a_handles a' x = if decide (x = h) then Some (perproc_entry p) else a_handles a x) as Ha'.
    { intros x. rewrite (bc_handles _ _ _ _ _ Hb). unfold with_entry. by case_decide. }
    split.
    + eapply owned_iff; [|eapply (owned_get O p r r' h); [done..|lia|rewrite Hh; by intros []]].
      intros x. simpl. rewrite Ha'. case_decide; [naive_solver|]. split; [by intros [?|]|auto].
    + intros q x [[<- <-]|[Hne Hq]]%lookup_insert_Some Hx; rewrite Ha'.
      * by rewrite decide_True.
      * rewrite decide_False; [by apply He|]. intros <-. specialize (He q x Hq Hx). by rewrite Hh in He.
Qed.

Lemma kernel_release R k p r :
  kernel_ok R k -> R !! p = Some r ->
  (hPerProcData r = 0 /\ kernel_ok (delete p R) k) \/
  (hPerProcData r <> 0 /\ exists k',
     PVRSRVReleaseHandle (hPerProcData r) PVRSRV_HANDLE_TYPE_PERPROC_DATA k = Ok (PVRSRV_OK, k') /\
     kernel_ok (delete p R) k').
Proof.
  intros (a & Hm & O & He) Hp. destruct (decide (hPerProcData r = 0)) as [Hf|Hf].
  - left. split; [done|]. exists a. split; [done|]. split.
    + eapply owned_iff; [|by eapply (owned_drop O p r)]. intros x. simpl. rewrite Hf.
      split; [by intros []|]. intros Hx. split; [done|]. by destruct (ob_owner _ _ _ O x Hx).
    + intros q x [_ Hq]%lookup_delete_Some. by apply He.
  - right. split; [done|]. pose proof (He p r Hp Hf) as Hx. set (h := hPerProcData r) in *.
    pose proof Hm as (K & fl & bl & m & M). pose proof (models_total M) as Ht. pose proof (handle_range M h _ Hx) as Hr.
    destruct (Release_ok h PVRSRV_HANDLE_TYPE_PERPROC_DATA k a Hm) as (e & v & k' & a' & E & (-> & Ee & Hs) & Hm').
    { unfold admissible, word. lia. }
    apply answer_back in E as (e0 & E & [= ->]). rewrite (live_check M h _ _ Hx) in Ee by (by right). subst e.
    simpl in Hs. destruct Hs as (A' & Hrem & Hb & _). exists k'. split; [done|].
    assert (forall x, below (a_handles a) [h] x <-> x = h) as Hbelow.
    { intros x. split; [|intros ->; exists h; split; [set_solver|apply rtc_refl]].
      intros (h' & ->%list_elem_of_singleton & Hrtc). inversion Hrtc as [|? y ? (ex & Hex & Hey) Hrest]; subst; [done|].
      destruct (ob_owner _ _ _ O x) as (H0 & q & z & Hz & Ez); [eauto|].
      specialize (He q z Hz). rewrite Ez in He. rewrite He in Hex by done. injection Hex as <-. cbn in Hrest.
      inversion Hrest as [|? y' ? (ex & Hex & _) _]; [congruence|]. by rewrite (no_handle_0 M) in Hex. }
    assert (forall x, a_handles a' x = if decide (x = h) then None else a_handles a x) as Ha'.
    { intros x. rewrite (bc_handles _ _ _ _ _ Hb). destruct (Hrem x) as [[-> [Hbx|Hn]]|[-> Hnb]].
      - apply Hbelow in Hbx as ->. by rewrite decide_True.
      - by case_decide.
      - rewrite decide_False; [done|]. by rewrite Hbelow in Hnb. }
    exists a'. split; [done|]. split.
    + eapply owned_iff; [|by eapply (owned_drop O p r)]. intros x. simpl. rewrite Ha'. fold h.
      case_decide; [subst; split; [by intros []|by intros []]|]. split; [by intros []|done].
    + intros q x [Hne Hq]%lookup_delete_Some Hxq. rewrite Ha', decide_False; [by apply He|].
      intros E'. apply Hne. symmetry. by eapply (ob_one _ _ _ O).
Qed.

Lemma kernel_purge R k :
  kernel_ok R k -> exists e k', PVRSRVPurgeHandles k = Ok (e, k') /\ kernel_ok R k'.
Proof.
  intros (a & Hm & O & He). destruct (Purge_ok k a Hm I) as (e & v & k' & a' & E & (_ & Hs) & Hm').
  apply answer_back in E as (e0 & E & [= ->]). exists e, k'. split; [done|]. exists a'. split; [done|].
  assert (a_handles a' = a_handles a) as ->.
  { destruct (negb (a_purging a)); [by destruct Hs as [_ ->]|].
    destruct (negb (bool_decide (a_batch a = None))); [by destruct Hs as [_ ->]|].
    by destruct Hs as [[_ ->]|[_ (n & _ & ->)]]. }
  done.
Qed.

(** ** The other objects *)

Definition bases_ok (R : records) (B : gmap Z hbase) : Prop :=
  owned_by psHandleBase R (fun b => is_Some (B !! b)) /\ (forall b x, B !! b = Some x -> exists a, models x a).

Definition os_ok (R : records) (O : gset Z) : Prop := owned_by hOsPrivateData R (fun x => x ∈ O).

Definition contexts_ok (R : records) (t : resman) : Prop :=
  owned_by hResManContext R (fun c => c ∈ walking t) /\ resman_inv t /\ lock t = 1 /\ freeing t = [].

Lemma bases_put R B b x x' a :
  bases_ok R B -> B !! b = Some x -> models x' a -> bases_ok R (<[b := x']> B).
Proof.
  intros [O Hm] Hb Hx. split.
  - eapply owned_iff; [|exact O]. intros c. rewrite lookup_insert_is_Some.
    destruct (decide (b = c)) as [<-|]; [|naive_solver]. rewrite Hb. naive_solver.
  - intros c y [[<- <-]|[_ Hc]]%lookup_insert_Some; eauto.
Qed.

Lemma bases_add R B p r r' b x a :
  bases_ok R B -> R !! p = Some r -> psHandleBase r = 0 -> psHandleBase r' = b -> b <> 0 ->
  B !! b = None -> models x a -> bases_ok (<[p := r']> R) (<[b := x]> B).
Proof.
  intros [O Hm] Hp Hf Hb H0 Hn Hx. split.
  - eapply owned_iff; [|eapply (owned_get O p r r' b); [done..|rewrite Hn; by intros []]].
    intros c. simpl. rewrite lookup_insert_is_Some. destruct (decide (b = c)); naive_solver.
  - intros c y [[<- <-]|[_ Hc]]%lookup_insert_Some; eauto.
Qed.

Lemma bases_drop R B p r : bases_ok R B -> R !! p = Some r -> bases_ok (delete p R) (delete (psHandleBase r) B).
Proof.
  intros [O Hm] Hp. split.
  - eapply owned_iff; [|by eapply (owned_drop O p r)]. intros c. simpl. rewrite lookup_delete_is_Some. naive_solver.
  - intros c y [_ Hc]%lookup_delete_Some. eauto.
Qed.

Lemma os_drop R O p r : os_ok R O -> R !! p = Some r -> os_ok (delete p R) (O ∖ {[hOsPrivateData r]}).
Proof. intros H Hp. eapply owned_iff; [|by eapply (owned_drop H p r)]. intros x. simpl. set_solver. Qed.

Lemma contexts_drop R t p r t' :
  contexts_ok R t -> R !! p = Some r -> resman_inv t' -> lock t' = 1 -> freeing t' = [] ->
  walking t' = filter (.≠ hResManContext r) (walking t) -> contexts_ok (delete p R) t'.
Proof.
  intros (O & _) Hp Hi Hl Hf Hw. split_and!; [|done..]. eapply owned_iff; [|by eapply (owned_drop O p r)].
  intros c. simpl. rewrite Hw, list_elem_of_filter. naive_solver.
Qed.

(** The four kinds of objects of a state belong to the records [R]. *)
Record parts (R : records) (s : services) : Prop := mk_parts {
  pa_kernel : kernel_ok R (kernel_base s);
  pa_bases : bases_ok R (bases s);
  pa_os : os_ok R (os_data s);
  pa_contexts : contexts_ok R (resources s) }.

(** The fields that name objects. *)
Definition objects (r : record) : list Z := [hPerProcData r; psHandleBase r; hOsPrivateData r; hResManContext r].

Lemma parts_same R s p r r' : parts R s -> R !! p = Some r -> objects r' = objects r -> parts (<[p := r']> R) s.
Proof.
  intros [Hk [Hb Hm] Ho (Hc & Hi)] Hp [= E1 E2 E3 E4].
  split; [by eapply kernel_same|split; [by eapply owned_same|done]|by eapply owned_same|split; [by eapply owned_same|done]].
Qed.

Lemma parts_new R s p r : parts R s -> R !! p = None -> objects r = [0; 0; 0; 0] -> parts (<[p := r]> R) s.
Proof.
  intros [Hk [Hb Hm] Ho (Hc & Hi)] Hp [= E1 E2 E3 E4].
  split; [by apply kernel_new|split; [by eapply owned_new|done]|by apply owned_new|split; [by apply owned_new|done]].
Qed.

Lemma parts_state R s s' :
  parts R s -> kernel_base s' = kernel_base s -> bases s' = bases s -> os_data s' = os_data s ->
  resources s' = resources s -> parts R s'.
Proof. intros [H1 H2 H3 H4] E1 E2 E3 E4. split; congruence. Qed.

(** ** The table of process ids *)

Record indexed (R : records) (m : gmap Z Z) : Prop := mk_indexed {
  ix_record pid p : m !! pid = Some p -> exists r, R !! p = Some r /\ ui32PID r = pid;
  ix_entry p r : R !! p = Some r -> m !! ui32PID r = Some p }.

Lemma indexed_same R m p r r' : indexed R m -> R !! p = Some r -> ui32PID r' = ui32PID r -> indexed (<[p := r']> R) m.
Proof.
  intros [H1 H2] Hp E. split.
  - intros pid q (x & Hx & <-)%H1. destruct (decide (q = p)) as [->|].
    + exists r'. rewrite lookup_insert_eq. simplify_eq. done.
    + exists x. by rewrite lookup_insert_ne.
  - intros q x [[<- <-]|[_ Hq]]%lookup_insert_Some; [rewrite E|]; by apply H2.
Qed.

Lemma indexed_new R m p r pid :
  indexed R m -> R !! p = None -> m !! pid = None -> ui32PID r = pid -> indexed (<[p := r]> R) (<[pid := p]> m).
Proof.
  intros [H1 H2] Hp Hm <-. split.
  - intros pid q [[<- <-]|[Hn Hq]]%lookup_insert_Some; [exists r; by rewrite lookup_insert_eq|].
    destruct (H1 pid q Hq) as (x & Hx & <-). exists x. rewrite lookup_insert_ne; [done|]. intros ->. congruence.
  - intros q x [[<- <-]|[Hn Hq]]%lookup_insert_Some; [by rewrite lookup_insert_eq|].
    pose proof (H2 q x Hq). rewrite lookup_insert_ne; [done|]. intros E. congruence.
Qed.

Lemma indexed_drop R m p r : indexed R m -> R !! p = Some r -> indexed (delete p R) (delete (ui32PID r) m).
Proof.
  intros [H1 H2] Hp. pose proof (H2 p r Hp) as Hm. split.
  - intros pid q [Hn Hq]%lookup_delete_Some. destruct (H1 pid q Hq) as (x & Hx & <-). exists x.
    rewrite lookup_delete_ne; [done|]. intros ->. congruence.
  - intros q x [Hn Hq]%lookup_delete_Some. pose proof (H2 q x Hq). rewrite lookup_delete_ne; [done|].
    intros E. congruence.
Qed.
End Components.
