(* ===== verification/PvrPerProcOps.v ===== *)
(** * The operations on the per-process data

    What each step of perproc.c does to the ownership of [PvrPerProcOwn.v]:
    building a record up to the first failure ([connect_steps_runs]), taking it
    down with whatever it owns ([FreePerProcessData_runs]), and the first,
    further and last connections of a process. *)

From stdpp Require Import base list numbers option gmap.
From Stdlib Require Import ZArith Lia.
From S2P Require Import Prelude PvrHash PvrHashFacts PvrHandleMap PvrHandle PvrHandlePool PvrHandlePick.
From S2P Require Import PvrHandleFree PvrHandleAlloc PvrHandleSpec.
From S2P Require Import PvrHandleClient PvrHandleBatch PvrHandleClose.
From S2P Require Import PvrResman PvrResmanRep PvrResmanSafe Stateful PvrPerProc PvrPerProcOwn.

Local Open Scope Z_scope.

Section Ops.
Context (E : pp_env) `{BSH : BlockShift}.

Implicit Types (s : services) (R : records) (r : record).

(** ** Steps *)

(** The table stands for [m]. *)
Definition table_is s (m : gmap Z Z) : Prop := exists h, pids s = Some h /\ word_rep h m /\ Z.of_nat (size m) < COUNT_LIMIT.

Lemma hash_retrieve_ok s m k : table_is s m -> hash_retrieve k s = Ok (default 0 (m !! k), s).
Proof.
  intros (h & Hh & Hw & Hc). destruct (word_rep_remove true h m k Hw Hc) as (_ & _ & _ & Er).
  unfold hash_retrieve, on_table. rewrite Hh, Er. destruct s. simpl in *. by subst.
Qed.

Lemma hash_insert_runs s m k v :
  table_is s m -> m !! k = None -> Z.of_nat (size m) + 1 < COUNT_LIMIT ->
  runs (hash_insert E k v) s (fun b s' => exists n t, s' = set_pids t (set_pp_clock n s) /\
    table_is s' (if b : bool then <[k := v]> m else m)).
Proof.
  intros (h & Hh & Hw & Hc) Hk Hroom. unfold hash_insert, pp_tick, runs, mbind, st_bind. simpl.
  unfold on_table. simpl. rewrite Hh.
  destruct (word_rep_insert (bucket_alloc E (pp_clock s)) (table_alloc E (pp_clock s)) h m k v Hw Hk Hroom) as (h' & -> & Hw').
  eexists _, _. split; [done|]. eexists _, _. split; [done|]. exists h'. split; [done|]. split; [done|].
  destruct (bucket_alloc E (pp_clock s)); [|done]. rewrite map_size_insert_None by done. lia.
Qed.

Lemma hash_remove_runs s m k :
  table_is s m ->
  runs (hash_remove E k) s (fun _ s' => exists n t, s' = set_pids t (set_pp_clock n s) /\ table_is s' (delete k m)).
Proof.
  intros (h & Hh & Hw & Hc). unfold hash_remove, pp_tick, runs, mbind, st_bind. simpl. unfold on_table. simpl. rewrite Hh.
  destruct (word_rep_remove (table_alloc E (pp_clock s)) h m k Hw Hc) as (h' & -> & Hw' & _).
  eexists _, _. split; [done|]. eexists _, _. split; [done|]. exists h'. split; [done|]. split; [done|].
  rewrite map_size_delete. destruct (m !! k); simpl; lia.
Qed.

Lemma new_address_ok used s :
  exists p, new_address E used s = Ok (p, set_pp_clock (S (pp_clock s)) s) /\
    (p <> 0 -> used (set_pp_clock (S (pp_clock s)) s) p = false).
Proof.
  unfold new_address, pp_tick, mbind, st_bind, gets. eexists. split; [done|]. simpl.
  destruct (pp_alloc E (pp_clock s)) as [p|]; [|done].
  destruct ((p =? 0) || used _ p) eqn:Eu; [done|]. by apply orb_false_iff in Eu as [_ ?].
Qed.

Lemma update_proc_ok s p f r :
  procs s !! p = Some r -> update_proc p f s = Ok (tt, set_procs (<[p := f r]> (procs s)) s).
Proof. intros Hp. unfold update_proc, proc, mbind, st_bind, found. by rewrite Hp. Qed.

Lemma on_kernel_ok {A} (m : HB (H := HASH_TABLE) A) s a k :
  m (kernel_base s) = Ok (a, k) -> on_kernel m s = Ok (a, set_kernel_base k s).
Proof. intros Em. unfold on_kernel. by rewrite Em. Qed.

Lemma on_base_ok {A} (m : HB (H := HASH_TABLE) A) s p b a b' :
  bases s !! p = Some b -> m b = Ok (a, b') -> on_base p m s = Ok (a, set_bases (<[p := b']> (bases s)) s).
Proof. intros Hb Em. unfold on_base. by rewrite Hb, Em. Qed.

Lemma on_resman_ok {A} (m : RM A) s a t : m (resources s) = Ok (a, t) -> on_resman m s = Ok (a, set_resources t s).
Proof. intros Em. unfold on_resman. by rewrite Em. Qed.

Lemma on_resman_guards {A} (m : RM A) s (Q : A -> resman -> Prop) :
  guards m (resources s) Q -> guards (on_resman m) s (fun a s' => exists t, s' = set_resources t s /\ Q a t).
Proof. unfold guards, on_resman. destruct (m (resources s)) as [[a t]|]; eauto. Qed.

Lemma on_resman_runs {A} (m : RM A) s (Q : A -> resman -> Prop) :
  runs m (resources s) Q -> runs (on_resman m) s (fun a s' => exists t, s' = set_resources t s /\ Q a t).
Proof. intros (a & t & Em & HQ). unfold runs, on_resman. rewrite Em. exists a, (set_resources t s). eauto. Qed.

(** ** Building a record *)

(** [R] with the record [r] at [p] is what there is. *)
Record building R p r s : Prop := mk_building {
  bu_procs : procs s = <[p := r]> R;
  bu_parts : parts (<[p := r]> R) s }.

Lemma building_at R p r s : building R p r s -> procs s !! p = Some r.
Proof. intros [-> _]. apply lookup_insert_eq. Qed.

(** The clock and the table are not part of it. *)
Lemma building_table R p r s n t : building R p r s -> building R p r (set_pids t (set_pp_clock n s)).
Proof. intros [H1 H2]. split; [done|]. by eapply parts_state. Qed.

(** The step that stores what was acquired. *)
Lemma store_building R p f r s :
  procs s = <[p := r]> R -> parts (<[p := f r]> R) s ->
  exists s', update_proc p f s = Ok (tt, s') /\ building R p (f r) s' /\
    s' = set_procs (<[p := f r]> (procs s)) s.
Proof.
  intros Hp Hparts. assert (procs s !! p = Some r) as Hr by (rewrite Hp; apply lookup_insert_eq).
  eexists. split; [by apply update_proc_ok|]. split; [|done]. split; simpl.
  - by rewrite Hp, insert_insert_eq.
  - by eapply parts_state.
Qed.

(** An acquisition: the error and the object. *)
Definition acquired (e h : Z) : Prop := (e = PVRSRV_OK /\ h <> 0) \/ (out_of_memory e /\ h = 0).

Lemma acquired_error e h : acquired e h -> negb (e =? PVRSRV_OK) = true -> out_of_memory e.
Proof. intros [[-> _]|[? _]]; done. Qed.

Lemma private_init_runs R p r s :
  building R p r s -> hOsPrivateData r = 0 ->
  runs (OSPerProcessPrivateDataInit E) s (fun eh s' => exists n O, s' = set_os_data O (set_pp_clock n s) /\
    acquired eh.1 eh.2 /\ parts (<[p := set_hOsPrivateData eh.2 r]> R) s').
Proof.
  intros [Hp [Hk Hb Ho Hc]] Hr. unfold OSPerProcessPrivateDataInit.
  destruct (new_address_ok (fun s p => bool_decide (p ∈ os_data s)) s) as (h & Eh & Hh). st_run Eh.
  assert (<[p := r]> R !! p = Some r) as Hpr by apply lookup_insert_eq.
  assert (forall h', (h' = 0 \/ h' <> 0) -> kernel_ok (<[p := set_hOsPrivateData h' r]> R) (kernel_base s) /\
    bases_ok (<[p := set_hOsPrivateData h' r]> R) (bases s) /\
    contexts_ok (<[p := set_hOsPrivateData h' r]> R) (resources s)) as Hrest.
  { intros h' _. rewrite <- (insert_insert_eq R p _ r). split_and!; [by eapply kernel_same| |].
    - destruct Hb as [Hb Hm]. split; [by eapply owned_same|done].
    - destruct Hc as (Hc & Hi). split; [by eapply owned_same|done]. }
  destruct (Z.eqb_spec h 0) as [->|H0].
  - apply st_runs_ret. exists (S (pp_clock s)), (os_data s). split; [by destruct s|].
    split; [right; split; [unfold out_of_memory; set_solver|done]|].
    destruct (Hrest 0) as (? & ? & ?); [auto|]. split; [done..| |done].
    rewrite <- (insert_insert_eq R p _ r). by eapply owned_same.
  - st_mod. apply st_runs_ret. eexists _, _. split; [done|]. split; [by left|].
    destruct (Hrest h) as (? & ? & ?); [auto|]. split; [done..| |done]. simpl.
    apply bool_decide_eq_false in Hh; [|done]. simpl in Hh.
    rewrite <- (insert_insert_eq R p _ r). eapply owned_iff; [|by eapply (owned_get Ho p r)].
    intros x. simpl. set_solver.
Qed.

Lemma alloc_perproc_runs R p r s :
  building R p r s -> hPerProcData r = 0 -> ui32TotalHandCount (kernel_base s) + 1 < COUNT_LIMIT ->
  runs (on_kernel (PVRSRVAllocHandle p PVRSRV_HANDLE_TYPE_PERPROC_DATA PVRSRV_HANDLE_ALLOC_FLAG_NONE)) s
    (fun eh s' => exists k, s' = set_kernel_base k s /\ acquired eh.1 eh.2 /\
      parts (<[p := set_hPerProcData eh.2 r]> R) s').
Proof.
  intros [Hp [Hk Hb Ho Hc]] Hr Hroom. assert (<[p := r]> R !! p = Some r) as Hpr by apply lookup_insert_eq.
  destruct (kernel_alloc _ _ p r Hk Hpr Hr Hroom) as (e & h & k' & Ek & Ha & Hk').
  eexists _, _. split; [by apply on_kernel_ok|]. exists k'. split; [done|]. split; [done|].
  rewrite <- (insert_insert_eq R p _ r). split; simpl; [by apply Hk'| |by eapply owned_same|].
  - destruct Hb as [Hb Hm]. split; [by eapply owned_same|done].
  - destruct Hc as (Hc & Hi). split; [by eapply owned_same|done].
Qed.

Lemma new_base_runs R p r s :
  building R p r s -> psHandleBase r = 0 ->
  runs (new_handle_base E) s (fun eh s' => exists n B, s' = set_bases B (set_pp_clock n s) /\ acquired eh.1 eh.2 /\
    (eh.1 = PVRSRV_OK -> exists b, B !! eh.2 = Some b /\ models b (empty_abs false)) /\
    parts (<[p := set_psHandleBase eh.2 r]> R) s').
Proof.
  intros [Hp [Hk Hb Ho Hc]] Hr. unfold new_handle_base, pp_tick. unfold runs at 1, mbind at 1, st_bind at 1.
  set (s1 := set_pp_clock _ s).
  destruct (new_address_ok (fun s p => bool_decide (is_Some (bases s !! p))) s1) as (b & Eb & Hnb).
  unfold mbind, st_bind. rewrite Eb. set (s2 := set_pp_clock _ s1) in *.
  assert (<[p := r]> R !! p = Some r) as Hpr by apply lookup_insert_eq.
  assert (forall h, kernel_ok (<[p := set_psHandleBase h r]> R) (kernel_base s) /\
    os_ok (<[p := set_psHandleBase h r]> R) (os_data s) /\
    contexts_ok (<[p := set_psHandleBase h r]> R) (resources s)) as Hrest.
  { intros h. rewrite <- (insert_insert_eq R p _ r). split_and!; [by eapply kernel_same|by eapply owned_same|].
    destruct Hc as (Hc & Hi). split; [by eapply owned_same|done]. }
  assert (forall e, out_of_memory e -> exists s', s' = s2 /\ (exists n B, s' = set_bases B (set_pp_clock n s) /\
    acquired e 0 /\ (e = PVRSRV_OK -> exists b, B !! 0 = Some b /\ models b (empty_abs false)) /\
    parts (<[p := set_psHandleBase 0 r]> R) s')) as Hfail.
  { intros e He. exists s2. split; [done|]. exists (pp_clock s2), (bases s). split; [by destruct s|].
    split; [by right|]. split; [intros ->; by unfold out_of_memory in He; set_solver|].
    destruct (Hrest 0) as (? & ? & ?). split; [done| |done..].
    rewrite <- (insert_insert_eq R p _ r). destruct Hb as [Hb Hm]. split; [by eapply owned_same|done]. }
  destruct (Z.eqb_spec b 0) as [->|H0].
  { destruct (Hfail PVRSRV_ERROR_OUT_OF_MEMORY) as (s' & -> & Hf); [unfold out_of_memory; set_solver|].
    by eexists _, _. }
  destruct (AllocHandleBase_ok (H := HASH_TABLE) (base_allocs E (pp_clock s))) as (e & ob & -> & Hob).
  destruct Hob as [[-> He]|(-> & x & -> & Hx)].
  { destruct (Hfail e) as (s' & -> & Hf); [unfold out_of_memory; set_solver|]. by eexists _, _. }
  apply bool_decide_eq_false in Hnb; [|done]. apply eq_None_not_Some in Hnb.
  eexists _, _. split; [done|]. eexists _, _. split; [done|]. split; [by left|]. simpl. split.
  - intros _. exists x. by rewrite lookup_insert_eq.
  - destruct (Hrest b) as (? & ? & ?). split; [done| |done..]. simpl. rewrite <- (insert_insert_eq R p _ r).
    by eapply bases_add.
Qed.

Lemma set_options_runs R s b x :
  parts R s -> bases s !! b = Some x -> models x (empty_abs false) ->
  runs (OSPerProcessSetHandleOptions b) s (fun e s' => e = PVRSRV_OK /\ exists B, s' = set_bases B s /\ parts R s').
Proof.
  intros [Hk Hb Ho Hc] Hx Hm.
  destruct (SetMax_ok MAX_MMAP_HANDLE x _ Hm) as (e & v & x' & a' & Ee & (_ & Hs) & Hm'); [done|].
  apply answer_back in Ee as (e0 & Ee & [= ->]). destruct Hs as [-> _].
  eexists _, _. split; [by eapply on_base_ok|]. split; [done|]. eexists. split; [done|].
  split; [done|by eapply bases_put|done..].
Qed.

Lemma connect_context_runs R p r s :
  building R p r s -> hResManContext r = 0 -> is_Some (gpsResList (resources s)) ->
  runs (on_resman (PVRSRVResManConnect (rm_env E) p)) s (fun ec s' => exists t, s' = set_resources t s /\
    parts (<[p := r]> R) s' /\
    ((ec.1 = PVRSRV_ERROR_OUT_OF_MEMORY) \/
     (ec.1 = PVRSRV_OK /\ ec.2 <> 0 /\ ec.2 ∈ contexts_of t /\ ec.2 ∉ walking t))).
Proof.
  intros [Hp [Hk Hb Ho (Hc & Hi & Hl & Hf)]] Hr Hg.
  eapply st_runs_mono; [apply on_resman_runs; by apply PVRSRVResManConnect_effect|].
  intros [e c] s' (t & -> & (Ht & Hlt & K) & He & _). exists t. split; [done|]. split.
  - split; [done..|]. simpl. split_and!; [|done|done|by rewrite (k_freeing _ _ K)].
    eapply owned_iff; [|exact Hc]. intros x. by rewrite (k_walking _ _ K).
  - destruct He as [[[= -> ->] _]|(c' & [= -> ->] & H0 & Hn & Ec)]; [by left|right].
    split_and!; [done..|rewrite Ec; set_solver|]. rewrite (k_walking _ _ K). intros Hw.
    by apply Hn, (inv_walking _ Hi).
Qed.

Lemma hold_context_ok R p r t c :
  contexts_ok (<[p := r]> R) t -> hResManContext r = 0 -> c <> 0 -> c ∈ contexts_of t -> c ∉ walking t ->
  contexts_ok (<[p := set_hResManContext c r]> R) (set_walking (c :: walking t) t).
Proof.
  intros (Hc & Hi & Hl & Hf) Hr H0 Hcon Hn. split_and!; [|by apply inv_walk|done|done].
  rewrite <- (insert_insert_eq R p _ r).
  eapply owned_iff; [|eapply (owned_get Hc p r); [apply lookup_insert_eq|done|done|done|done]].
  intros x. simpl. by rewrite elem_of_cons.
Qed.

Lemma finish_runs R p r c s :
  building R p r s -> hResManContext r = 0 -> c <> 0 -> c ∈ contexts_of (resources s) -> c ∉ walking (resources s) ->
  runs (update_proc p (set_hResManContext c);; hold_context c;; mret PVRSRV_OK) s (fun e s' =>
    e = PVRSRV_OK /\ building R p (set_hResManContext c r) s' /\ pids s' = pids s).
Proof.
  intros B Hr H0 Hc Hw. st_run (update_proc_ok s p (set_hResManContext c) r (building_at _ _ _ _ B)).
  destruct B as [Hp [Hk [Hb Hm] Ho Hcon]]. eapply runs_step; [done|]. apply st_runs_ret. split; [done|]. split; [|done].
  split; [simpl; by rewrite Hp, insert_insert_eq|]. split; simpl; [| | |by apply hold_context_ok].
  all: rewrite <- (insert_insert_eq R p _ r).
  - eapply kernel_same; [done|apply lookup_insert_eq|done].
  - split; [eapply owned_same; [done|apply lookup_insert_eq|done]|done].
  - eapply owned_same; [done|apply lookup_insert_eq|done].
Qed.

(** What a new record holds when the steps are over. *)
Definition built (m : gmap Z Z) (p pid e : Z) r s : Prop :=
  ui32RefCount r = 0 /\
  ((table_is s (<[pid := p]> m) /\ ui32PID r = pid) \/ (table_is s m /\ ui32PID r = 0)) /\
  ((e = PVRSRV_OK /\ ui32PID r = pid /\ Forall (fun x => x <> 0) (objects r)) \/
   (out_of_memory e /\ hResManContext r = 0)).

Lemma table_same s s' m : table_is s m -> pids s' = pids s -> table_is s' m.
Proof. intros (h & Hh & Hr) Ep. exists h. by rewrite Ep. Qed.

Lemma out_of_memory_not_ok e : out_of_memory e -> (e =? PVRSRV_OK) = false.
Proof.
  unfold out_of_memory. intros He. apply Z.eqb_neq. intros ->. by repeat (apply elem_of_cons in He as [?|He]); try by apply elem_of_nil in He.
Qed.

Lemma connect_steps_runs R m p pid s :
  building R p zero_pp s -> table_is s m -> m !! pid = None -> Z.of_nat (size m) + 1 < COUNT_LIMIT ->
  ui32TotalHandCount (kernel_base s) + 1 < COUNT_LIMIT -> is_Some (gpsResList (resources s)) -> pid <> 0 ->
  runs (connect_steps E p pid) s (fun e s' => exists r, building R p r s' /\ built m p pid e r s').
Proof.
  intros Hb Ht Hm Hroom Hk Hg H0. unfold connect_steps.
  eapply st_runs_bind; [by apply (hash_insert_runs s m pid p)|]. intros b s1 (n & t & -> & Ht1).
  destruct b; simpl negb; cbv iota.
  2: { apply st_runs_ret. exists zero_pp. split; [by apply (building_table R p zero_pp s)|]. split; [done|]. split; [by right|]. right.
       split; [unfold out_of_memory; set_solver|done]. }
  set (s1 := set_pids t _) in *.
  destruct (store_building R p (fun r => set_ui32RefCount 0 (set_ui32PID pid r)) zero_pp s1) as (s2 & E2 & B2 & ->); [apply Hb| |].
  { rewrite <- (insert_insert_eq R p _ zero_pp). eapply (parts_same _ _ _ zero_pp); [|apply lookup_insert_eq|done]. eapply parts_state; [apply Hb|done..]. }
  st_run E2. clear E2.
  eapply st_runs_bind; [by apply private_init_runs|]. intros [e h] s3 (n3 & O & -> & Ha & P3). simpl in Ha, P3. cbv beta iota.
  edestruct (store_building R p (set_hOsPrivateData h)) as (s4 & E4 & B4 & ->); [|exact P3|]; [apply B2|]. st_run E4. clear E4.
  assert (forall s' r e, building R p r s' -> pids s' = t -> ui32PID r = pid -> ui32RefCount r = 0 ->
    hResManContext r = 0 -> out_of_memory e -> exists r, building R p r s' /\ built m p pid e r s') as Hfail.
  { intros s' r e' Hb' Hp' Hpid Href Hctx Hoom. exists r. split; [done|]. split; [done|]. split.
    - left. split; [|done]. by apply (table_same s1).
    - by right. }
  destruct (negb (e =? PVRSRV_OK)) eqn:He.
  { apply st_runs_ret. apply (Hfail _ _ _ B4); try done. by eapply acquired_error. }
  destruct Ha as [[-> Hh]|[Hoom _]]; [|by rewrite (out_of_memory_not_ok _ Hoom) in He]. clear He.
  eapply st_runs_bind; [apply (alloc_perproc_runs R p _ _ B4); done|]. intros [e h5] s5 (k & -> & Ha & P5). simpl in Ha, P5. cbv beta iota.
  edestruct (store_building R p (set_hPerProcData h5)) as (s6 & E6 & B6 & ->); [|exact P5|]; [apply B4|]. st_run E6. clear E6.
  destruct (negb (e =? PVRSRV_OK)) eqn:He.
  { apply st_runs_ret. apply (Hfail _ _ _ B6); try done. by eapply acquired_error. }
  destruct Ha as [[-> Hh5]|[Hoom _]]; [|by rewrite (out_of_memory_not_ok _ Hoom) in He]. clear He.
  eapply st_runs_bind; [apply (new_base_runs R p _ _ B6); done|]. intros [e h7] s7 (n7 & B & -> & Ha & Hx & P7). simpl in Ha, P7, Hx. cbv beta iota.
  edestruct (store_building R p (set_psHandleBase h7)) as (s8 & E8 & B8 & ->); [|exact P7|]; [apply B6|]. st_run E8. clear E8.
  destruct (negb (e =? PVRSRV_OK)) eqn:He.
  { apply st_runs_ret. apply (Hfail _ _ _ B8); try done. by eapply acquired_error. }
  destruct Ha as [[-> Hh7]|[Hoom _]]; [|by rewrite (out_of_memory_not_ok _ Hoom) in He]. clear He.
  destruct (Hx eq_refl) as (x & Hx1 & Hx2).
  eapply st_runs_bind; [eapply set_options_runs; [apply B8|done|done]|]. intros e s9 (-> & B' & -> & P9).
  simpl negb. cbv iota.
  assert (building R p _ (set_bases B' _)) as B9 by (split; [apply B8|exact P9]).
  eapply st_runs_bind; [apply (connect_context_runs R p _ _ B9); done|]. intros [e c] s10 (t' & -> & P10 & Hc). simpl in Hc. cbv beta iota.
  destruct Hc as [->|(-> & Hc0 & Hcin & Hcw)].
  { apply st_runs_ret. eapply Hfail; [split; [apply B9|exact P10]|done..|]. unfold out_of_memory. set_solver. }
  simpl negb. cbv iota.
  eapply st_runs_mono; [eapply (finish_runs R p); [split; [apply B9|exact P10]|done..]|].
  intros e s11 (-> & B11 & Ep). eexists. split; [exact B11|]. split; [done|]. split.
  - left. split; [|done]. by apply (table_same s1).
  - left. split; [done|]. split; [done|]. by repeat constructor.
Qed.

(** ** Taking a record down *)

Lemma free_base_runs R B p r s :
  bases_ok R B -> bases s = B -> R !! p = Some r ->
  runs (if psHandleBase r =? 0 then mret PVRSRV_OK else free_handle_base (psHandleBase r)) s
    (fun e s' => e = PVRSRV_OK /\ s' = set_bases (delete (psHandleBase r) B) s).
Proof.
  intros [O Hm] Hb Hp. destruct (Z.eqb_spec (psHandleBase r) 0) as [E0|H0].
  - apply st_runs_ret. split; [done|]. rewrite E0, delete_id; [subst B; by destruct s|].
    apply eq_None_not_Some, (owned_not_0 O).
  - destruct (ob_live _ _ _ O p r Hp H0) as [x Hx]. destruct (Hm _ _ Hx) as [a Ha].
    destruct (FreeHandleBase_ok x a Ha) as [x' Ex]. unfold free_handle_base.
    eapply runs_step; [eapply on_base_ok; [by rewrite Hb|]|].
    { unfold PVRSRVFreeHandleBase. exact Ex. }
    cbv beta iota. change (PVRSRV_OK =? PVRSRV_OK) with true. cbv iota. st_mod. apply st_runs_ret. split; [done|].
    unfold set_bases. simpl. by rewrite delete_insert_eq, Hb.
Qed.

Lemma release_perproc_runs R p r s :
  kernel_ok R (kernel_base s) -> R !! p = Some r ->
  runs (if hPerProcData r =? 0 then mret PVRSRV_OK
        else on_kernel (PVRSRVReleaseHandle (hPerProcData r) PVRSRV_HANDLE_TYPE_PERPROC_DATA)) s
    (fun e s' => e = PVRSRV_OK /\ exists k, s' = set_kernel_base k s /\ kernel_ok (delete p R) k).
Proof.
  intros Hk Hp. destruct (kernel_release R (kernel_base s) p r Hk Hp) as [[-> Hk']|(H0 & k' & Ek & Hk')].
  - apply st_runs_ret. split; [done|]. exists (kernel_base s). split; [by destruct s|done].
  - rewrite (proj2 (Z.eqb_neq _ _) H0). eexists _, _. split; [by apply on_kernel_ok|]. eauto.
Qed.

Lemma FreePerProcessData_runs m p r s :
  kernel_ok (procs s) (kernel_base s) -> bases_ok (procs s) (bases s) -> os_ok (procs s) (os_data s) ->
  contexts_ok (delete p (procs s)) (resources s) -> procs s !! p = Some r -> p <> 0 -> table_is s m ->
  runs (FreePerProcessData E p) s (fun e s' => e = PVRSRV_OK /\ procs s' = delete p (procs s) /\
    parts (delete p (procs s)) s' /\ table_is s' (delete (ui32PID r) m) /\ resources s' = resources s).
Proof.
  intros Hk Hb Ho Hc Hp H0 Ht. unfold FreePerProcessData. rewrite (proj2 (Z.eqb_neq _ _) H0).
  st_run (found_ok (fun s => procs s !! p) s r Hp).
  eapply st_runs_bind; [by apply hash_remove_runs|]. intros _ s1 (n & t & -> & Ht1). set (s1 := set_pids t _) in *.
  st_run (found_ok (fun s => procs s !! p) s1 r Hp).
  eapply st_runs_bind; [by apply (free_base_runs (procs s) (bases s) p r)|]. intros e s2 (-> & ->).
  change (PVRSRV_OK =? PVRSRV_OK) with true. simpl negb. cbv iota. set (s2 := set_bases _ s1).
  eapply st_runs_bind; [by apply (release_perproc_runs (procs s) p r s2)|]. intros e s3 (-> & k & -> & Hk').
  change (PVRSRV_OK =? PVRSRV_OK) with true. simpl negb. cbv iota. set (s3 := set_kernel_base _ s2).
  eapply st_runs_bind with (R := fun e s' => e = PVRSRV_OK /\ s' = set_os_data (os_data s ∖ {[hOsPrivateData r]}) s3).
  { unfold OSPerProcessPrivateDataDeInit. destruct (Z.eqb_spec (hOsPrivateData r) 0) as [->|Hr].
    - apply st_runs_ret. split; [done|]. assert (os_data s ∖ {[0]} = os_data s) as ->; [|done].
      apply difference_disjoint_L. intros x Hx ->%elem_of_singleton. by apply (owned_not_0 Ho).
    - st_mod. by apply st_runs_ret. }
  intros e s4 (-> & ->). change (PVRSRV_OK =? PVRSRV_OK) with true. simpl negb. cbv iota. st_mod. apply st_runs_ret.
  split_and!; [done|done| |done|done].
  split; simpl; [done|by apply bases_drop|by apply os_drop|done].
Qed.

(** A record without a context. *)
Lemma contexts_idle R p r t : contexts_ok R t -> R !! p = Some r -> hResManContext r = 0 -> contexts_ok (delete p R) t.
Proof.
  intros Hc Hp Hr. pose proof Hc as (O & Hi & Hl & Hf). eapply contexts_drop; [done..|].
  rewrite Hr. symmetry. apply (without_notin 0). apply (owned_not_0 O).
Qed.
End Ops.
