(* ===== verification/PvrPerProcTheorems.v ===== *)
(** * Theorems on the per-process data

    The whole of perproc.c over its components: any sequence of connections and
    disconnections of processes, with the calls that the processes make on their
    handles and with any calls of the resource manager, keeps one record per
    connected process and loses nothing.  [pp_inv] is the invariant, [pp_spec]
    what each event may answer, in terms of how often each process is
    connected. *)

From stdpp Require Import base list numbers option gmap.
From Stdlib Require Import ZArith Lia.
From S2P Require Import Prelude PvrHash PvrHashFacts PvrHandleMap PvrHandle PvrHandlePool PvrHandlePick.
From S2P Require Import PvrHandleFree PvrHandleAlloc PvrHandleSpec.
From S2P Require Import PvrHandleClient PvrHandleBatch PvrHandleClose PvrHandleTheorems.
From S2P Require Import PvrResman PvrResmanRep PvrResmanSafe Stateful PvrPerProc PvrPerProcOwn PvrPerProcOps.

Local Open Scope Z_scope.

(** How often each process is connected. *)
Abbreviation connections := (gmap Z Z).

Section PerProc.
Context (E : pp_env) `{BSH : BlockShift}.

Implicit Types (s : services) (A : connections).

(** ** The invariant *)

Record pp_inv A s : Prop := mk_pp_inv {
  pi_table : exists m, table_is s m /\ indexed (procs s) m;
  pi_parts : parts (procs s) s;
  pi_whole p r : procs s !! p = Some r ->
    p <> 0 /\ ui32PID r <> 0 /\ Forall (fun x => x <> 0) (objects r) /\ A !! ui32PID r = Some (ui32RefCount r);
  pi_counts pid n : A !! pid = Some n -> 0 < n < 2 ^ 32 /\ exists p r, procs s !! p = Some r /\ ui32PID r = pid }.

(** The record of a process, through the table. *)
Lemma inv_find A s pid :
  pp_inv A s ->
  (A !! pid = None /\ hash_retrieve pid s = Ok (0, s) /\ forall p r, procs s !! p = Some r -> ui32PID r <> pid) \/
  (exists p r, A !! pid = Some (ui32RefCount r) /\ hash_retrieve pid s = Ok (p, s) /\ p <> 0 /\
     procs s !! p = Some r /\ ui32PID r = pid /\ 0 < ui32RefCount r < 2 ^ 32).
Proof.
  intros [(m & Ht & [X1 X2]) _ Hw Hc]. rewrite (hash_retrieve_ok s m pid Ht).
  destruct (m !! pid) as [p|] eqn:Em.
  - right. destruct (X1 pid p Em) as (r & Hr & <-). exists p, r. destruct (Hw p r Hr) as (H0 & _ & _ & Ha).
    pose proof (proj1 (Hc _ _ Ha)). by split_and!; try lia.
  - left. split_and!; [|done|].
    + apply eq_None_not_Some. intros [n Hn]. destruct (Hc pid n Hn) as (_ & p & r & Hr & <-).
      by rewrite (X2 p r Hr) in Em.
    + intros p r Hr <-. by rewrite (X2 p r Hr) in Em.
Qed.

(** Changes that leave the records alone. *)
Lemma inv_records A s s' :
  pp_inv A s -> procs s' = procs s -> pids s' = pids s -> parts (procs s) s' -> pp_inv A s'.
Proof.
  intros [(m & Ht & Hx) Hp Hw Hc] E1 E2 Hp'. split.
  - exists m. rewrite E1. split; [by eapply table_same|done].
  - by rewrite E1.
  - rewrite E1. done.
  - rewrite E1. done.
Qed.

(** A new count for a process that is connected. *)
Lemma inv_recount A s p r n :
  pp_inv A s -> procs s !! p = Some r -> 0 < n < 2 ^ 32 ->
  pp_inv (<[ui32PID r := n]> A) (set_procs (<[p := set_ui32RefCount n r]> (procs s)) s).
Proof.
  intros [(m & Ht & Hx) Hp Hw Hc] Hr Hn. pose proof (ix_entry _ _ Hx p r Hr) as Hm. split; simpl.
  - exists m. split; [by eapply table_same|]. by eapply indexed_same.
  - apply (parts_state _ s); [|done..]. by eapply parts_same.
  - intros q x [[<- <-]|[Hne Hq]]%lookup_insert_Some.
    + destruct (Hw p r Hr) as (? & ? & ? & _). simpl. split_and!; [done..|]. apply lookup_insert_eq.
    + destruct (Hw q x Hq) as (? & ? & ? & ?). split_and!; [done..|]. rewrite lookup_insert_ne; [done|].
      intros Ep. pose proof (ix_entry _ _ Hx q x Hq). congruence.
  - intros pid k [[<- <-]|[Hne Hk]]%lookup_insert_Some.
    + split; [done|]. eexists p, _. rewrite lookup_insert_eq. split; [done|]. done.
    + destruct (Hc pid k Hk) as (? & q & x & Hq & Hx'). split; [done|]. exists q, x. split; [|done].
      rewrite lookup_insert_ne; [done|]. intros ->. congruence.
Qed.

(** ** Connecting *)

(** What a connection takes for granted: the process is not the idle task, no
    counter is about to overflow and the resource manager is up. *)
Definition connectable pid s : bool :=
  negb (pid =? 0) &&
  match pids s with Some h => h_uCount h + 1 <? COUNT_LIMIT | None => false end &&
  (ui32TotalHandCount (kernel_base s) + 1 <? COUNT_LIMIT) &&
  bool_decide (is_Some (gpsResList (resources s))) &&
  bool_decide (map_Forall (fun _ r => ui32PID r = pid -> ui32RefCount r + 1 < 2 ^ 32) (procs s)).

Lemma connectable_spec pid s h :
  connectable pid s = true -> pids s = Some h ->
  pid <> 0 /\ h_uCount h + 1 < COUNT_LIMIT /\
  ui32TotalHandCount (kernel_base s) + 1 < COUNT_LIMIT /\ is_Some (gpsResList (resources s)) /\
  (forall p r, procs s !! p = Some r -> ui32PID r = pid -> ui32RefCount r + 1 < 2 ^ 32).
Proof.
  unfold connectable. intros Hc Hh. rewrite Hh in Hc. rewrite !andb_true_iff in Hc.
  destruct Hc as [[[[H1%negb_true_iff%Z.eqb_neq H2%Z.ltb_lt] H3%Z.ltb_lt] H4%bool_decide_eq_true] H5%bool_decide_eq_true].
  by split_and!.
Qed.

Lemma inv_add A s p r m pid s' :
  pp_inv A s -> procs s !! p = None -> indexed (procs s) m -> building (procs s) p r s' -> p <> 0 ->
  A !! pid = None -> m !! pid = None -> table_is s' (<[pid := p]> m) -> ui32PID r = pid -> pid <> 0 ->
  ui32RefCount r = 1 -> Forall (fun x => x <> 0) (objects r) -> pp_inv (<[pid := 1]> A) s'.
Proof.
  intros [_ _ Hw Hc] Hp Hx [Ep Hparts] H0 Ha Hm Ht Hpid Hpid0 Href Hob. split; rewrite ?Ep.
  - eexists. split; [exact Ht|]. by apply indexed_new.
  - done.
  - intros q x [[<- <-]|[Hne Hq]]%lookup_insert_Some; [by rewrite Hpid, lookup_insert_eq, Href|].
    destruct (Hw q x Hq) as (? & ? & ? & ?). split_and!; [done..|]. rewrite lookup_insert_ne; [done|]. congruence.
  - intros k n [[<- <-]|[Hne Hk]]%lookup_insert_Some.
    + split; [done|]. exists p, r. by rewrite lookup_insert_eq.
    + destruct (Hc k n Hk) as (? & q & x & Hq & ?). split; [done|]. exists q, x. split; [|done].
      rewrite lookup_insert_ne; [done|]. intros ->. congruence.
Qed.

Lemma inv_undo A s p r m s' :
  pp_inv A s -> procs s !! p = None -> indexed (procs s) m -> procs s' = delete p (<[p := r]> (procs s)) ->
  parts (procs s') s' -> table_is s' m -> pp_inv A s'.
Proof.
  intros [_ _ Hw Hc] Hp Hx Ep Hparts Ht. rewrite delete_insert_id in Ep by done. split; [|done|by rewrite Ep..].
  exists m. by rewrite Ep.
Qed.

Lemma connect_new A s pid :
  pp_inv A s -> A !! pid = None -> connectable pid s = true ->
  runs (PVRSRVPerProcessDataConnect E pid) s (fun e s' =>
    (e = PVRSRV_OK /\ pp_inv (<[pid := 1]> A) s') \/ (out_of_memory e /\ pp_inv A s' /\ procs s' = procs s)).
Proof.
  intros Hinv Ha Hconn. pose proof Hinv as [(m & Ht & Hx) Hparts Hw Hc].
  pose proof Ht as (h & Hh & Hrep & Hsize). destruct (connectable_spec pid s h Hconn Hh) as (H0 & Hroom & Hk & Hg & _). unfold PVRSRVPerProcessDataConnect. st_get. rewrite Hh.
  assert (m !! pid = None) as Hm.
  { apply eq_None_not_Some. intros [p Hp]. destruct (ix_record _ _ Hx pid p Hp) as (r & Hr & <-).
    by destruct (Hw p r Hr) as (_ & _ & _ & Ea); rewrite Ha in Ea. }
  st_run (hash_retrieve_ok s m pid Ht). rewrite Hm. simpl default. change (0 =? 0) with true. simpl negb. cbv iota.
  destruct (new_address_ok E (fun s p => bool_decide (is_Some (procs s !! p))) s) as (p & Ep & Hfree). st_run Ep.
  destruct (Z.eqb_spec p 0) as [->|Hp0].
  { apply st_runs_ret. right. split; [unfold out_of_memory; set_solver|]. split; [|done].
    eapply inv_records; [done..|]. by eapply parts_state. }
  apply bool_decide_eq_false in Hfree; [|done]. apply eq_None_not_Some in Hfree. simpl in Hfree. st_mod.
  set (s1 := set_procs _ _). assert (building (procs s) p zero_pp s1) as B1.
  { split; [done|]. apply (parts_state _ s); [|done..]. by apply parts_new. }
  eapply st_runs_bind.
  { apply (connect_steps_runs E (procs s) m p pid s1); [done|by apply (table_same s)|done| |done..].
    by rewrite <- (word_count h m Hrep). }
  intros e s2 (r & B2 & Href & Hpid & He). destruct He as [(-> & Hr & Hob)|[He Hctx]].
  - change (PVRSRV_OK =? PVRSRV_OK) with true. simpl negb. cbv iota.
    st_run (update_proc_ok s2 p _ r (building_at _ _ _ _ B2)). apply st_runs_ret. left. split; [done|].
    rewrite Href. change (u32 (0 + 1)) with 1.
    eapply (inv_add A s p (set_ui32RefCount 1 r) m); try done.
    + split; simpl; [by rewrite (bu_procs _ _ _ _ B2), insert_insert_eq|].
      apply (parts_state _ s2); [|done..]. rewrite <- (insert_insert_eq (procs s) p _ r).
      eapply parts_same; [apply B2|apply lookup_insert_eq|done].
    + destruct Hpid as [[Ht2 _]|[_ Hr0]]; [by eapply table_same|congruence].
  - rewrite (out_of_memory_not_ok _ He). simpl negb. cbv iota.
    pose proof B2 as [Ep2 [Pk Pb Po Pc]]. rewrite <- Ep2 in Pk, Pb, Po, Pc.
    pose proof (building_at _ _ _ _ B2) as Hp2.
    assert (exists m2, table_is s2 m2 /\ delete (ui32PID r) m2 = m) as (m2 & Ht2 & <-).
    { destruct Hpid as [[Ht2 ->]|[Ht2 ->]]; (eexists; split; [exact Ht2|]); [by apply delete_insert_id|].
      apply delete_id, eq_None_not_Some. intros [q Hq]. destruct (ix_record _ _ Hx 0 q Hq) as (x & Hxq & E0).
      by destruct (Hw q x Hxq) as (_ & ? & _). }
    eapply st_runs_bind; [apply (FreePerProcessData_runs E m2 p r s2); try done; by eapply contexts_idle|].
    intros e' s3 (-> & Ep3 & P3 & Ht3 & _). apply st_runs_ret. right. split; [done|].
    split; [|by rewrite Ep3, Ep2, delete_insert_id].
    eapply (inv_undo A s p r); [done|done|exact Hx|by rewrite Ep3, Ep2|by rewrite Ep3|done].
Qed.

(** The answers of a connection and the connections after it. *)
Definition connect_spec A pid (e : Z) A' : Prop :=
  match A !! pid with
  | Some n => e = PVRSRV_OK /\ A' = <[pid := n + 1]> A
  | None => (e = PVRSRV_OK /\ A' = <[pid := 1]> A) \/ (out_of_memory e /\ A' = A)
  end.

Lemma connect_runs A s pid :
  pp_inv A s -> connectable pid s = true ->
  runs (PVRSRVPerProcessDataConnect E pid) s (fun e s' => exists A', connect_spec A pid e A' /\ pp_inv A' s').
Proof.
  intros Hi Hc. unfold connect_spec. destruct (inv_find A s pid Hi) as [(Ha & _)|(p & r & Ha & Ef & H0 & Hr & <- & Hn)]; rewrite Ha.
  - eapply st_runs_mono; [by apply connect_new|]. intros e s' [[-> ?]|(? & ? & _)]; eauto.
  - destruct (pi_table _ _ Hi) as (m & (h & Hh & _) & _).
    destruct (connectable_spec _ s h Hc Hh) as (_ & _ & _ & _ & Hmax). specialize (Hmax p r Hr eq_refl).
    unfold PVRSRVPerProcessDataConnect. st_get. rewrite Hh. st_run Ef. rewrite (proj2 (Z.eqb_neq _ _) H0). simpl negb. cbv iota.
    st_run (update_proc_ok s p _ r Hr). apply st_runs_ret. eexists. split; [done|]. rewrite (wrapU_small 32) by lia.
    apply inv_recount; [done..|lia].
Qed.

(** ** Disconnecting *)

Definition disconnected A pid : connections :=
  match A !! pid with
  | Some n => if n =? 1 then delete pid A else <[pid := n - 1]> A
  | None => A
  end.

Lemma inv_delete A s p r m s' :
  pp_inv A s -> procs s !! p = Some r -> indexed (procs s) m -> procs s' = delete p (procs s) ->
  parts (procs s') s' -> table_is s' (delete (ui32PID r) m) -> pp_inv (delete (ui32PID r) A) s'.
Proof.
  intros [_ _ Hw Hc] Hr Hx Ep Hparts Ht. split; [|done|..]; rewrite ?Ep.
  - eexists. split; [exact Ht|]. by apply indexed_drop.
  - intros q x [Hne Hq]%lookup_delete_Some. destruct (Hw q x Hq) as (? & ? & ? & ?). split_and!; [done..|].
    rewrite lookup_delete_ne; [done|]. intros E'. pose proof (ix_entry _ _ Hx q x Hq). pose proof (ix_entry _ _ Hx p r Hr). congruence.
  - intros k n [Hne Hk]%lookup_delete_Some. destruct (Hc k n Hk) as (? & q & x & Hq & ?). split; [done|]. exists q, x.
    split; [|done]. rewrite lookup_delete_ne; [done|]. intros ->. congruence.
Qed.

(** The context of a record is taken down, with whatever other threads do then. *)
Lemma drop_disconnect_guards R p r s :
  contexts_ok R (resources s) -> R !! p = Some r -> hResManContext r <> 0 ->
  guards (drop_context (hResManContext r);;
          on_resman (PVRSRVResManDisconnect (rm_env E) (run_calls (rm_env E) (rm_fuel E)) (rm_fuel E)
                       (hResManContext r) false)) s
    (fun _ s' => exists t, s' = set_resources t s /\ contexts_ok (delete p R) t).
Proof.
  intros (Ho & Hi & Hl & Hf) Hp H0. set (c := hResManContext r) in *. unfold drop_context.
  set (t1 := set_walking (filter (.≠ c) (walking (resources s))) (resources s)).
  eapply guards_step; [by apply (on_resman_ok _ _ tt t1)|].
  assert (c ∈ walking (resources s)) as Hw by (by eapply (ob_live _ _ _ Ho)).
  destruct (inv_outside_of (resources s) t1) as [Ec Ei]; [done..|].
  assert (resman_inv t1) as Hi1.
  { apply (rep_inv _ (contexts_of (resources s)) (items_of (resources s))).
    - apply (rep_items_frame (resources s)); [done..| |done|apply Hi]. apply (rep_null _ _ _ (inv_rep _ Hi)).
    - apply (inv_freeing _ Hi).
    - simpl. intros c' [_ Hc']%list_elem_of_filter. by apply (inv_walking _ Hi). }
  eapply guards_mono; [apply on_resman_guards, PVRSRVResManDisconnect_guards|].
  - intros cs t It Lt. by apply run_calls_guards.
  - done.
  - done.
  - simpl. rewrite Ec. by apply (inv_walking _ Hi).
  - simpl. rewrite list_elem_of_filter. by intros [? _].
  - simpl. rewrite Hf. set_solver.
  - intros _ s' (t & -> & It & Lt & K). exists t. split; [done|].
    eapply (contexts_drop R (resources s)); [by split_and!|done|done|done|by rewrite (k_freeing _ _ K)|].
    by rewrite (k_walking _ _ K).
Qed.

Lemma free_last_guards A s p r n :
  pp_inv A s -> procs s !! p = Some r ->
  guards (drop_context (hResManContext r);;
          on_resman (PVRSRVResManDisconnect (rm_env E) (run_calls (rm_env E) (rm_fuel E)) (rm_fuel E)
                       (hResManContext r) false);;
          FreePerProcessData E p;; mret tt)
    (set_procs (<[p := set_ui32RefCount n r]> (procs s)) s)
    (fun _ s' => pp_inv (delete (ui32PID r) A) s').
Proof.
  intros Hi Hr. pose proof Hi as [(m & Ht & Hx) Hparts Hw _]. destruct (Hw p r Hr) as (H0 & _ & Hob & _).
  assert (hResManContext r <> 0) as Hc0 by (eapply Forall_forall in Hob; [done|unfold objects; set_solver]).
  set (r1 := set_ui32RefCount n r). set (s1 := set_procs _ s).
  assert (procs s1 !! p = Some r1) as Hr1 by apply lookup_insert_eq.
  assert (parts (procs s1) s1) as [Pk Pb Po Pc] by (apply (parts_state _ s); [by eapply parts_same|done..]).
  pose proof (drop_disconnect_guards (procs s1) p r1 s1 Pc Hr1 Hc0) as Hd.
  assert (forall s2 t, s2 = set_resources t s1 -> contexts_ok (delete p (procs s1)) t ->
    guards (FreePerProcessData E p;; mret tt) s2 (fun _ s' => pp_inv (delete (ui32PID r) A) s')) as Hfree.
  { intros s2 t -> Hc. apply guards_runs.
    eapply st_runs_bind; [apply (FreePerProcessData_runs E m p r1); [done..|by eapply table_same]|].
    intros e s2 (-> & Ep & P2 & Ht2 & _). apply st_runs_ret. simpl in Ep, P2. rewrite delete_insert_eq in Ep, P2.
    eapply inv_delete; try done. by rewrite Ep. }
  change (hResManContext r1) with (hResManContext r) in Hd.
  unfold guards, mbind, st_bind in Hd |- *. destruct (drop_context _ s1) as [[[] s2]|]; [|done].
  destruct (on_resman _ s2) as [[[] s3]|]; [|done]. destruct Hd as (t & -> & Hc).
  by apply (Hfree _ t).
Qed.

Lemma disconnect_guards A s pid :
  pp_inv A s ->
  guards (PVRSRVPerProcessDataDisconnect E pid) s (fun _ s' => pp_inv (disconnected A pid) s').
Proof.
  intros Hi. unfold PVRSRVPerProcessDataDisconnect, disconnected.
  assert (forall A s, pp_inv A s -> guards (on_kernel PVRSRVPurgeHandles;; mret tt) s (fun _ s' => pp_inv A s')) as Hpurge.
  { clear. intros A s Hi. destruct (kernel_purge _ _ (pa_kernel _ _ (pi_parts _ _ Hi))) as (e & k & Ek & Hk).
    apply guards_runs. eapply runs_step; [by apply on_kernel_ok|]. apply st_runs_ret.
    eapply inv_records; [done..|]. pose proof (pi_parts _ _ Hi) as [_ Pb Po Pc]. by split. }
  destruct (inv_find A s pid Hi) as [(Ha & Ef & _)|(p & r & Ha & Ef & H0 & Hr & <- & Hn)]; rewrite Ha; st_run Ef.
  { simpl st_when. eapply guards_bind with (R := fun _ s' => pp_inv A s'); [by apply guards_ret|]. intros ? s1 H1. by apply Hpurge. }
  rewrite (proj2 (Z.eqb_neq _ _) H0). simpl negb. simpl st_when.
  set (A' := if ui32RefCount r =? 1 then _ else _).
  eapply guards_bind with (R := fun _ s' => pp_inv A' s'); [subst A'|intros ? s1 H1; by apply Hpurge].
  st_run (update_proc_ok s p _ r Hr). rewrite (wrapU_small 32) by lia.
  set (s1 := set_procs _ s). assert (procs s1 !! p = Some (set_ui32RefCount (ui32RefCount r - 1) r)) as Hr1 by apply lookup_insert_eq.
  st_run (found_ok (fun s => procs s !! p) s1 _ Hr1). simpl ui32RefCount.
  destruct (Z.eqb_spec (ui32RefCount r - 1) 0) as [E0|E0].
  - rewrite (proj2 (Z.eqb_eq _ _)) by lia. simpl st_when.
    by apply free_last_guards.
  - rewrite (proj2 (Z.eqb_neq (ui32RefCount r) 1)) by lia. apply guards_ret. apply inv_recount; [done..|lia].
Qed.

(** ** Sequences of events *)

Inductive event :=
| EConnect (pid : Z)
| EDisconnect (pid : Z)
| EHandle (pid : Z) (o : op)
| EResman (cs : list call).

Definition exec_event (e : event) : PP Z :=
  match e with
  | EConnect pid => PVRSRVPerProcessDataConnect E pid
  | EDisconnect pid => PVRSRVPerProcessDataDisconnect E pid;; mret PVRSRV_OK
  | EHandle pid o =>
      psPerProc ← PVRSRVPerProcessData pid;
      if psPerProc =? 0 then mret PVRSRV_ERROR_INVALID_PARAMS else
      r ← proc psPerProc;
      '(eError, _) ← on_base (psHandleBase r) (exec o);
      mret eError
  | EResman cs => on_resman (run_calls (rm_env E) (rm_fuel E) cs);; mret PVRSRV_OK
  end.

(** The handle base of a process. *)
Definition base_of pid s : option hbase :=
  match PVRSRVPerProcessData pid s with
  | Ok (p, _) => r ← procs s !! p; bases s !! psHandleBase r
  | Fault _ => None
  end.

Definition event_ok (e : event) s : Prop :=
  match e with
  | EConnect pid => connectable pid s = true
  | EHandle pid o =>
      match base_of pid s with Some b => admissible o b | None => True end
  | EDisconnect _ | EResman _ => True
  end.

Definition event_spec A (e : event) (z : Z) A' : Prop :=
  match e with
  | EConnect pid => connect_spec A pid z A'
  | EDisconnect pid => A' = disconnected A pid
  | EHandle _ _ | EResman _ => A' = A
  end.

Lemma handle_event_guards A s pid o :
  pp_inv A s -> event_ok (EHandle pid o) s -> guards (exec_event (EHandle pid o)) s (fun _ s' => pp_inv A s').
Proof.
  intros Hi Hok. simpl in Hok |- *. apply guards_runs. unfold base_of in Hok. unfold PVRSRVPerProcessData in *.
  destruct (inv_find A s pid Hi) as [(Ha & Ef & _)|(p & r & Ha & Ef & H0 & Hr & _ & _)]; st_run Ef; [by apply st_runs_ret|].
  rewrite (proj2 (Z.eqb_neq _ _) H0). st_run (found_ok (fun s => procs s !! p) s r Hr).
  pose proof (pi_parts _ _ Hi) as [Pk [Po Pm] Pos Pc]. destruct (pi_whole _ _ Hi p r Hr) as (_ & _ & Hob & _).
  assert (psHandleBase r <> 0) as Hb0 by (eapply Forall_forall in Hob; [done|unfold objects; set_solver]).
  destruct (ob_live _ _ _ Po p r Hr Hb0) as [b Hb]. destruct (Pm _ _ Hb) as [a Ha'].
  rewrite Ef, Hr in Hok. simpl in Hok. rewrite Hb in Hok.
  destruct (every_op_meets o b a Ha' Hok) as (e & v & b' & a' & Ee & _ & Hm').
  eapply runs_step; [by eapply on_base_ok|]. apply st_runs_ret.
  eapply inv_records; [done..|]. split; [done|by eapply bases_put|done..].
Qed.

Lemma event_guards A s e :
  pp_inv A s -> event_ok e s ->
  guards (exec_event e) s (fun z s' => exists A', event_spec A e z A' /\ pp_inv A' s').
Proof.
  intros Hi Hok. destruct e as [pid|pid|pid o|cs].
  - by apply guards_runs, connect_runs.
  - simpl. eapply guards_bind; [by apply disconnect_guards|]. intros ? s' H'. apply guards_ret. eauto.
  - eapply guards_mono; [by apply handle_event_guards|]. simpl. eauto.
  - simpl. pose proof (pi_parts _ _ Hi) as [Pk Pb Po (Pc & It & Lt & Ft)].
    eapply guards_bind; [apply on_resman_guards; by apply run_calls_guards|].
    intros ? s' (t & -> & It' & Lt' & K). apply guards_ret. eexists. split; [done|].
    eapply inv_records; [done..|]. split; [done..|]. simpl. split_and!; [|done|done|by rewrite (k_freeing _ _ K)].
    by rewrite (k_walking _ _ K).
Qed.

Fixpoint run_events (es : list event) : PP (list Z) :=
  match es with
  | [] => mret []
  | e :: es => z ← exec_event e; zs ← run_events es; mret (z :: zs)
  end.

Fixpoint events_ok (es : list event) s : Prop :=
  match es with
  | [] => True
  | e :: es => event_ok e s /\ match exec_event e s with Ok (_, s') => events_ok es s' | Fault _ => True end
  end.

Inductive events_spec : connections -> list event -> list Z -> connections -> Prop :=
| events_nil A : events_spec A [] [] A
| events_cons A e z A1 es zs A' :
    event_spec A e z A1 -> events_spec A1 es zs A' -> events_spec A (e :: es) (z :: zs) A'.

(** The connections that the answers leave, computed. *)
Definition count_event A (e : event) (z : Z) : connections :=
  match e with
  | EConnect pid => if z =? PVRSRV_OK then <[pid := default 0 (A !! pid) + 1]> A else A
  | EDisconnect pid => disconnected A pid
  | EHandle _ _ | EResman _ => A
  end.

Fixpoint count_events A (es : list event) (zs : list Z) : connections :=
  match es, zs with
  | e :: es, z :: zs => count_events (count_event A e z) es zs
  | _, _ => A
  end.

Lemma count_events_spec A es zs A' : events_spec A es zs A' -> A' = count_events A es zs.
Proof.
  induction 1 as [A|A e z A1 es zs A' Hs _ ->]; [done|]. simpl. f_equal.
  destruct e as [pid|pid|pid o|cs]; simpl in *; [|done..]. unfold connect_spec in Hs.
  destruct (A !! pid) as [n|]; [by destruct Hs as [-> ->]|].
  destruct Hs as [[-> ->]|[He ->]]; [done|]. by rewrite (out_of_memory_not_ok _ He).
Qed.

Lemma run_events_guards es : forall A s, pp_inv A s -> events_ok es s ->
  guards (run_events es) s (fun zs s' => exists A', events_spec A es zs A' /\ pp_inv A' s').
Proof.
  induction es as [|e es IH]; intros A s Hi Hok; cbn [run_events].
  { apply guards_ret. exists A. split; [constructor|done]. }
  destruct Hok as [Ho Hrest]. pose proof (event_guards A s e Hi Ho) as He.
  unfold guards, mbind, st_bind in He |- *. destruct (exec_event e s) as [[z s1]|]; [|done].
  destruct He as (A1 & Hs & Hi1). specialize (IH A1 s1 Hi1 Hrest). unfold guards in IH.
  destruct (run_events es s1) as [[zs s2]|]; [|done]. destruct IH as (A2 & Hs2 & Hi2).
  exists A2. split; [by econstructor|done].
Qed.

(** The state after the start of the services. *)
Definition started s : Prop := exists al k,
  PVRSRVHandleInit al = Ok (PVRSRV_OK, Some k) /\ PVRSRVPerProcessDataInit E (services0 k) = Ok (PVRSRV_OK, s).

Lemma started_inv s : started s -> pp_inv ∅ s.
Proof.
  intros (al & k & Ek & Ei). destruct (kernel_init al) as (e & b & Ek' & Hk).
  rewrite Ek in Ek'. injection Ek' as <- <-. specialize (Hk k eq_refl). revert Ei.
  unfold PVRSRVPerProcessDataInit, pp_tick, mbind, st_bind. cbn [services0 pp_clock].
  destruct (bucket_alloc E 0), (table_alloc E 0); try done.
  destruct (HASH_Create true true HASH_TAB_INIT_SIZE) as [h|] eqn:Eh; [|done]. intros [= <-].
  apply create_rep in Eh; [|done]. split.
  - exists ∅. split; [exists h; rewrite map_size_empty; by split_and!|]. split; intros *; by rewrite lookup_empty.
  - split; simpl; [done| | |].
    + split; [|intros *; by rewrite lookup_empty]. eapply owned_iff; [|apply owned_none]. intros x. simpl. rewrite lookup_empty.
      split; [done|by intros []].
    + eapply owned_iff; [|apply owned_none]. set_solver.
    + split_and!; [|apply resman0_inv|done|done]. eapply owned_iff; [|apply owned_none]. simpl. set_solver.
  - intros *. simpl. by rewrite lookup_empty.
  - intros *. by rewrite lookup_empty.
Qed.

(** ** Theorems *)


(** C9: Once every process has disconnected as often as it connected, no record,
    handle base, private data block, held context or kernel handle is left. *)
Theorem perproc_no_leak s es :
  started s -> events_ok es s ->
  guards (run_events es) s (fun zs s' => count_events ∅ es zs = ∅ ->
    procs s' = ∅ /\ bases s' = ∅ /\ os_data s' = ∅ /\ walking (resources s') = [] /\
    exists a, models (kernel_base s') a /\ forall h, a_handles a h = None).
Proof.
  intros Hs Hok. eapply guards_mono; [by apply (run_events_guards es ∅); [apply started_inv|]|].
  intros zs s' (A & Hes & Hi) E0. rewrite <- (count_events_spec _ _ _ _ Hes) in E0. subst A.
  assert (procs s' = ∅) as Ep.
  { apply map_empty. intros p. apply eq_None_not_Some. intros [r Hr].
    by destruct (pi_whole _ _ Hi p r Hr) as (_ & _ & _ & Ha); rewrite lookup_empty in Ha. }
  destruct (pi_parts _ _ Hi) as [(a & Hm & Ok & _) [Ob _] Oo (Oc & _)].
  split; [done|]. split; [|split; [|split]].
  - apply map_empty. intros b. apply eq_None_not_Some. exact (owned_empty Ob Ep b).
  - apply elem_of_equiv_empty_L. exact (owned_empty Oo Ep).
  - apply elem_of_nil_inv. exact (owned_empty Oc Ep).
  - exists a. split; [done|]. intros h. apply eq_None_not_Some. exact (owned_empty Ok Ep h).
Qed.

(** C40: A connection that fails leaves the records, the handle bases, the private
    data, the held contexts and the handles of the kernel as they were. *)
Theorem perproc_failed_connect_clean A s pid e s' :
  pp_inv A s -> connectable pid s = true -> PVRSRVPerProcessDataConnect E pid s = Ok (e, s') -> e <> PVRSRV_OK ->
  procs s' = procs s /\ dom (bases s') = dom (bases s) /\ os_data s' = os_data s /\
  (forall c, c ∈ walking (resources s') <-> c ∈ walking (resources s)) /\
  exists a a', models (kernel_base s) a /\ models (kernel_base s') a' /\ forall h, a_handles a' h = a_handles a h.
Proof.
  intros Hi Hc Ee He. destruct (A !! pid) as [n|] eqn:Ha.
  { destruct (connect_runs A s pid Hi Hc) as (e1 & s1 & Ee1 & A' & Hs & _). rewrite Ee in Ee1. injection Ee1 as <- <-.
    unfold connect_spec in Hs. rewrite Ha in Hs. by destruct Hs as [-> _]. }
  destruct (connect_new A s pid Hi Ha Hc) as (e1 & s1 & Ee1 & Hnew). rewrite Ee in Ee1. injection Ee1 as <- <-.
  destruct Hnew as [[? _]|(_ & Hi' & Ep)]; [done|].
  destruct (pi_parts _ _ Hi) as [(a & Hm & Ok & Hk) [Ob _] Oo (Oc & _)].
  destruct (pi_parts _ _ Hi') as [(a' & Hm' & Ok' & Hk') [Ob' _] Oo' (Oc' & _)]. rewrite Ep in Ok', Hk', Ob', Oo', Oc'.
  split; [done|]. split; [|split; [|split]].
  - apply set_eq. intros x. rewrite !elem_of_dom. by apply (owned_unique _ _ _ _ Ob' Ob).
  - apply set_eq. by apply (owned_unique _ _ _ _ Oo' Oo).
  - by apply (owned_unique _ _ _ _ Oc' Oc).
  - exists a, a'. split; [done|]. split; [done|]. intros h. pose proof (owned_unique _ _ _ _ Ok' Ok h) as Hh. simpl in Hh.
    destruct (a_handles a h) as [x|] eqn:Ex.
    + destruct (ob_owner _ _ _ Ok h) as (H0 & p & r & Hr & <-); [by rewrite Ex|].
      rewrite (Hk' p r Hr H0). by rewrite <- Ex, (Hk p r Hr H0).
    + apply eq_None_not_Some. rewrite Hh. by intros [].
Qed.
End PerProc.

(** ** A small run for the witnesses *)

#[local] Existing Instance release_shift.

(** Every allocation succeeds but for the private data of the third record. *)
Definition roomy : pp_env := {|
  rm_env := {| is_mutex := true; os_alloc t := Some (100 + Z.of_nat t); free_fn _ := (PVRSRV_OK, []); asleep _ := [] |};
  rm_fuel := 8;
  pp_alloc t := if bool_decide (t = 13%nat) then None else Some (1000 + Z.of_nat t);
  bucket_alloc _ := true; table_alloc _ := true; base_allocs _ := [] |}.

Definition kernel0 : hbase :=
  match PVRSRVHandleInit [] with Ok (_, Some k) => k | _ => zero_base [] end.

Definition start : services :=
  match PVRSRVPerProcessDataInit roomy (services0 kernel0) with Ok (_, s) => s | Fault _ => services0 kernel0 end.

Lemma start_started : started roomy start.
Proof.
  exists [], kernel0. split.
  - assert (match PVRSRVHandleInit (H := HASH_TABLE) [] with Ok (e, Some _) => e =? PVRSRV_OK | _ => false end = true) as Ek
      by (vm_compute; reflexivity).
    unfold kernel0. destruct (PVRSRVHandleInit []) as [[e [k|]]|]; try done. by apply Z.eqb_eq in Ek as ->.
  - unfold start. assert (match PVRSRVPerProcessDataInit roomy (services0 kernel0) with Ok (e, _) => e =? PVRSRV_OK | _ => false end = true) as Es
      by (vm_compute; reflexivity).
    destruct (PVRSRVPerProcessDataInit roomy (services0 kernel0)) as [[e s]|]; [|done]. by apply Z.eqb_eq in Es as ->.
Qed.

(** Two processes, one of them connected twice; the second leaves a resource
    behind and a third one cannot connect. *)
Definition visits : list event :=
  [EResman [Init]; EConnect 5; EConnect 6; EConnect 5;
   EHandle 5 (OpAlloc 77 PVRSRV_HANDLE_TYPE_DEV_NODE 0);
   EResman [RegisterRes 102 RESMAN_TYPE_DEVICEMEM_ALLOCATION 11 0 1];
   EConnect 7; EDisconnect 5; EDisconnect 6; EDisconnect 5].

Definition state_of {A} (m : PP A) (s : services) : services := match m s with Ok (_, s') => s' | Fault _ => s end.

Lemma visits_ok : events_ok roomy visits start.
Proof.
  vm_compute. repeat split; discriminate.
Qed.


(** What the run answers and leaves. *)
Example visits_run :
  match run_events roomy visits start with
  | Ok (zs, s) => zs = [0; 0; 0; 0; 0; 0; PVRSRV_ERROR_OUT_OF_MEMORY; 0; 0; 0] /\ count_events ∅ visits zs = ∅ /\
      length (free_log (resources s)) = 1%nat
  | Fault _ => False
  end.
Proof. vm_compute. split_and!; reflexivity. Qed.

Lemma perproc_no_leak_witness :
  guards (run_events roomy visits) start (fun zs s' => count_events ∅ visits zs = ∅ ->
    procs s' = ∅ /\ bases s' = ∅ /\ os_data s' = ∅ /\ walking (resources s') = [] /\
    exists a, models (kernel_base s') a /\ forall h, a_handles a h = None).
Proof. exact (perproc_no_leak roomy start visits start_started visits_ok). Defined.

(** Before the third process asks. *)
Definition crowded : services := state_of (run_events roomy (take 6 visits)) start.

Lemma crowded_inv : exists A, pp_inv A crowded.
Proof.
  assert (events_ok roomy (take 6 visits) start) as Hok by (vm_compute; repeat split; discriminate).
  pose proof (run_events_guards roomy _ _ _ (started_inv roomy start start_started) Hok) as Hg.
  unfold guards in Hg. unfold crowded, state_of.
  destruct (run_events roomy (take 6 visits) start) as [[zs s]|]; [destruct Hg as (A & _ & Hi)|]; eexists; [exact Hi|].
  apply (started_inv roomy), start_started.
Qed.

Lemma run_answer {A} `{EqDecision A} (m : PP A) s a :
  match m s with Ok (a', _) => bool_decide (a' = a) | Fault _ => false end = true -> m s = Ok (a, state_of m s).
Proof. unfold state_of. destruct (m s) as [[a' s']|]; [|done]. by intros ->%bool_decide_eq_true. Qed.

Lemma perproc_failed_connect_clean_witness :
  let s' := state_of (PVRSRVPerProcessDataConnect roomy 7) crowded in
  procs s' = procs crowded /\ dom (bases s') = dom (bases crowded) /\ os_data s' = os_data crowded /\
  (forall c, c ∈ walking (resources s') <-> c ∈ walking (resources crowded)) /\
  exists a a', models (kernel_base crowded) a /\ models (kernel_base s') a' /\ forall h, a_handles a' h = a_handles a h.
Proof.
  destruct crowded_inv as [A Hi].
  apply (perproc_failed_connect_clean roomy A crowded 7 PVRSRV_ERROR_OUT_OF_MEMORY); [exact Hi| | |discriminate].
  - vm_compute. reflexivity.
  - apply run_answer. vm_compute. reflexivity.
Defined.
