(* ===== verification/PvrQueue.v ===== *)
(** * The command queues of the PowerVR services

    src/imgtec/eurasia_km/services4/srvkm/common/queue.c with the structures of
    srvkm/include/queue.h, services4/include/servicesint.h and
    include4/servicesext.h, and the locks of srvkm/env/linux/osfunc.c.  A process
    puts commands with their lists of synchronisation objects into a ring buffer;
    [PVRSRVProcessQueues] hands the command at the head of each queue to the
    device when the objects show that the operations it depends on are complete;
    [PVRSRVCommandCompleteKM] completes it.

    The buffer of a queue is a map from offsets to the command headers and
    synchronisation objects written there: what is written over is gone, and
    reading it is [Fault Indeterminate]; an address outside the buffer is
    [Fault OutOfBounds].  Sizes are those of 32-bit builds.

    The calls of the bridge run one at a time under the bridge lock.  While one
    sleeps, the deferred procedure of the interrupt runs: it processes the queues
    and completes commands ([asleep]).  The function of the device that takes a
    command may complete commands, too ([cmd_proc]).  [contended] tells when
    another processor holds the lock of the queues.  The data that follows the
    synchronisation objects in a command, the debug output and the time trace are
    not modelled.  [history] records every command inserted and how far it got;
    the code never reads it. *)

From stdpp Require Import base list numbers option gmap.
From Stdlib Require Import ZArith Lia.
From S2P Require Import Prelude PvrHash Stateful.

Local Open Scope Z_scope.

Definition PVRSRV_ERROR_FAILED_DEPENDENCIES : Z := 14.
Definition PVRSRV_ERROR_CMD_NOT_PROCESSED : Z := 15.
Definition PVRSRV_ERROR_CMD_TOO_BIG : Z := 16.
Definition PVRSRV_ERROR_CANNOT_GET_QUEUE_SPACE : Z := 22.
Definition PVRSRV_ERROR_CANNOT_FLUSH_QUEUE : Z := 21.
Definition PVRSRV_ERROR_UNABLE_TO_LOCK_RESOURCE : Z := 106.
Definition PVRSRV_ERROR_INVALID_LOCK_ID : Z := 107.
Definition PVRSRV_ERROR_RESOURCE_NOT_LOCKED : Z := 108.

Definition PVRSRV_MAX_CMD_SIZE : Z := 1024.
Definition SYS_DEVICE_COUNT : Z := 15.
Definition KERNEL_ID : Z := 0xffffffff.
Definition ISR_ID : Z := 0xfffffffd.
Definition DC_STATE_NO_FLUSH_COMMANDS : Z := 0.
Definition DC_STATE_FLUSH_COMMANDS : Z := 1.

(** A build option: 1, or 2 with SUPPORT_DC_CMDCOMPLETE_WHEN_NO_LONGER_DISPLAYED. *)
Class CommandsPerType := DC_NUM_COMMANDS_PER_TYPE : nat.

Definition one_command : CommandsPerType := 1%nat.
Definition two_commands : CommandsPerType := 2%nat.

(** ** Data *)

Record PVRSRV_SYNC_DATA := mk_sync {
  ui32WriteOpsPending : Z;
  ui32WriteOpsComplete : Z;
  ui32ReadOps2Pending : Z;
  ui32ReadOps2Complete : Z;
  pvRefCount : Z }.

(** In a synchronisation object, the operations that were pending. *)
Record PVRSRV_SYNC_OBJECT := mk_so {
  psKernelSyncInfoKM : Z;
  so_WriteOpsPending : Z;
  so_ReadOps2Pending : Z }.

(** [c_id] is the number of the command in [history]. *)
Record PVRSRV_COMMAND := mk_command {
  uCmdSize : Z;
  ui32DevIndex : Z;
  CommandType : Z;
  ui32DstSyncCount : Z;
  ui32SrcSyncCount : Z;
  psDstSync : Z;
  psSrcSync : Z;
  uDataSize : Z;
  ui32ProcessID : Z;
  pvData : Z;
  pfnCommandComplete : Z;
  hCallbackData : Z;
  c_id : nat }.

Definition sizeof_COMMAND : Z := 48.
Definition sizeof_SYNC_OBJECT : Z := 16.

Inductive cell := Cmd (c : PVRSRV_COMMAND) | Sync (o : PVRSRV_SYNC_OBJECT).

Definition cell_size (c : cell) : Z :=
  match c with Cmd _ => sizeof_COMMAND | Sync _ => sizeof_SYNC_OBJECT end.

Record buffer := mk_buffer { b_size : Z; b_cells : gmap Z cell }.

Record PVRSRV_QUEUE_INFO := mk_queue {
  pvLinQueueKM : Z;
  ui32ReadOffset : Z;
  ui32WriteOffset : Z;
  ui32QueueSize : Z;
  q_ProcessID : Z;
  psNextKM : Z }.

Record COMMAND_COMPLETE_DATA := mk_cc {
  bInUse : bool;
  cc_DstSyncCount : Z;
  cc_SrcSyncCount : Z;
  cc_psDstSync : list PVRSRV_SYNC_OBJECT;
  cc_psSrcSync : list PVRSRV_SYNC_OBJECT;
  ui32AllocSize : Z;
  cc_pfnCommandComplete : Z;
  cc_hCallbackData : Z;
  cc_id : nat }.

(** [None] is a pointer that was not written yet. *)
Record DEVICE_COMMAND_DATA := mk_dc {
  pfnCmdProc : Z;
  apsCmdCompleteData : list (option Z);
  ui32CCBOffset : Z;
  ui32MaxDstSyncCount : Z;
  ui32MaxSrcSyncCount : Z }.

Record PVRSRV_RESOURCE := mk_resource { ui32Lock : Z; ui32ID : Z }.

Record DEVICE_NODE := mk_node { bReProcessDeviceCommandComplete : bool; pfnDeviceCommandComplete : Z }.

(** What a command in [history] went through. *)
Inductive progress := Prepared | Queued | InFlight | Completed.

#[export] Instance progress_eq_dec : EqDecision progress.
Proof. solve_decision. Defined.

Record past := mk_past { p_queue : Z; p_dst : list Z; p_src : list Z; p_progress : progress }.

Inductive output :=
| SetDCState (ui32State : Z)
| CmdProc (pfn cookie size : Z)
| CallCommandComplete (pfn data : Z)
| DeviceCommandComplete (node : DEVICE_NODE)
| ScheduleDeviceCallbacks
| ScheduleMISR.

Record qsys := mk_qsys {
  psQueueList : Z;
  sQProcessResource : PVRSRV_RESOURCE;
  apsDeviceCommandData : list Z;
  psDeviceNodeList : list DEVICE_NODE;
  queues : gmap Z PVRSRV_QUEUE_INFO;
  buffers : gmap Z buffer;
  dev_data : gmap Z (list DEVICE_COMMAND_DATA);
  cc_data : gmap Z COMMAND_COMPLETE_DATA;
  syncs : gmap Z PVRSRV_SYNC_DATA;
  q_clock : nat;
  outputs : list output;
  history : list past }.

(** Updates of single fields. *)

Definition set_ui32WriteOpsPending (x : Z) (r : PVRSRV_SYNC_DATA) : PVRSRV_SYNC_DATA :=
  mk_sync x (ui32WriteOpsComplete r) (ui32ReadOps2Pending r) (ui32ReadOps2Complete r) (pvRefCount r).
Definition set_ui32WriteOpsComplete (x : Z) (r : PVRSRV_SYNC_DATA) : PVRSRV_SYNC_DATA :=
  mk_sync (ui32WriteOpsPending r) x (ui32ReadOps2Pending r) (ui32ReadOps2Complete r) (pvRefCount r).
Definition set_ui32ReadOps2Pending (x : Z) (r : PVRSRV_SYNC_DATA) : PVRSRV_SYNC_DATA :=
  mk_sync (ui32WriteOpsPending r) (ui32WriteOpsComplete r) x (ui32ReadOps2Complete r) (pvRefCount r).
Definition set_ui32ReadOps2Complete (x : Z) (r : PVRSRV_SYNC_DATA) : PVRSRV_SYNC_DATA :=
  mk_sync (ui32WriteOpsPending r) (ui32WriteOpsComplete r) (ui32ReadOps2Pending r) x (pvRefCount r).
Definition set_pvRefCount (x : Z) (r : PVRSRV_SYNC_DATA) : PVRSRV_SYNC_DATA :=
  mk_sync (ui32WriteOpsPending r) (ui32WriteOpsComplete r) (ui32ReadOps2Pending r) (ui32ReadOps2Complete r) x.

Definition set_pvLinQueueKM (x : Z) (r : PVRSRV_QUEUE_INFO) : PVRSRV_QUEUE_INFO :=
  mk_queue x (ui32ReadOffset r) (ui32WriteOffset r) (ui32QueueSize r) (q_ProcessID r) (psNextKM r).
Definition set_ui32ReadOffset (x : Z) (r : PVRSRV_QUEUE_INFO) : PVRSRV_QUEUE_INFO :=
  mk_queue (pvLinQueueKM r) x (ui32WriteOffset r) (ui32QueueSize r) (q_ProcessID r) (psNextKM r).
Definition set_ui32WriteOffset (x : Z) (r : PVRSRV_QUEUE_INFO) : PVRSRV_QUEUE_INFO :=
  mk_queue (pvLinQueueKM r) (ui32ReadOffset r) x (ui32QueueSize r) (q_ProcessID r) (psNextKM r).
Definition set_psNextKM (x : Z) (r : PVRSRV_QUEUE_INFO) : PVRSRV_QUEUE_INFO :=
  mk_queue (pvLinQueueKM r) (ui32ReadOffset r) (ui32WriteOffset r) (ui32QueueSize r) (q_ProcessID r) x.

Definition set_bInUse (x : bool) (r : COMMAND_COMPLETE_DATA) : COMMAND_COMPLETE_DATA :=
  mk_cc x (cc_DstSyncCount r) (cc_SrcSyncCount r) (cc_psDstSync r) (cc_psSrcSync r) (ui32AllocSize r)
    (cc_pfnCommandComplete r) (cc_hCallbackData r) (cc_id r).
Definition set_cc_DstSyncCount (x : Z) (r : COMMAND_COMPLETE_DATA) : COMMAND_COMPLETE_DATA :=
  mk_cc (bInUse r) x (cc_SrcSyncCount r) (cc_psDstSync r) (cc_psSrcSync r) (ui32AllocSize r)
    (cc_pfnCommandComplete r) (cc_hCallbackData r) (cc_id r).
Definition set_cc_SrcSyncCount (x : Z) (r : COMMAND_COMPLETE_DATA) : COMMAND_COMPLETE_DATA :=
  mk_cc (bInUse r) (cc_DstSyncCount r) x (cc_psDstSync r) (cc_psSrcSync r) (ui32AllocSize r)
    (cc_pfnCommandComplete r) (cc_hCallbackData r) (cc_id r).
Definition set_cc_psDstSync (x : list PVRSRV_SYNC_OBJECT) (r : COMMAND_COMPLETE_DATA) : COMMAND_COMPLETE_DATA :=
  mk_cc (bInUse r) (cc_DstSyncCount r) (cc_SrcSyncCount r) x (cc_psSrcSync r) (ui32AllocSize r)
    (cc_pfnCommandComplete r) (cc_hCallbackData r) (cc_id r).
Definition set_cc_psSrcSync (x : list PVRSRV_SYNC_OBJECT) (r : COMMAND_COMPLETE_DATA) : COMMAND_COMPLETE_DATA :=
  mk_cc (bInUse r) (cc_DstSyncCount r) (cc_SrcSyncCount r) (cc_psDstSync r) x (ui32AllocSize r)
    (cc_pfnCommandComplete r) (cc_hCallbackData r) (cc_id r).
Definition set_ui32AllocSize (x : Z) (r : COMMAND_COMPLETE_DATA) : COMMAND_COMPLETE_DATA :=
  mk_cc (bInUse r) (cc_DstSyncCount r) (cc_SrcSyncCount r) (cc_psDstSync r) (cc_psSrcSync r) x
    (cc_pfnCommandComplete r) (cc_hCallbackData r) (cc_id r).
Definition set_cc_pfnCommandComplete (x : Z) (r : COMMAND_COMPLETE_DATA) : COMMAND_COMPLETE_DATA :=
  mk_cc (bInUse r) (cc_DstSyncCount r) (cc_SrcSyncCount r) (cc_psDstSync r) (cc_psSrcSync r)
    (ui32AllocSize r) x (cc_hCallbackData r) (cc_id r).
Definition set_cc_hCallbackData (x : Z) (r : COMMAND_COMPLETE_DATA) : COMMAND_COMPLETE_DATA :=
  mk_cc (bInUse r) (cc_DstSyncCount r) (cc_SrcSyncCount r) (cc_psDstSync r) (cc_psSrcSync r)
    (ui32AllocSize r) (cc_pfnCommandComplete r) x (cc_id r).
Definition set_cc_id (x : nat) (r : COMMAND_COMPLETE_DATA) : COMMAND_COMPLETE_DATA :=
  mk_cc (bInUse r) (cc_DstSyncCount r) (cc_SrcSyncCount r) (cc_psDstSync r) (cc_psSrcSync r)
    (ui32AllocSize r) (cc_pfnCommandComplete r) (cc_hCallbackData r) x.

Definition set_apsCmdCompleteData (x : list (option Z)) (r : DEVICE_COMMAND_DATA) : DEVICE_COMMAND_DATA :=
  mk_dc (pfnCmdProc r) x (ui32CCBOffset r) (ui32MaxDstSyncCount r) (ui32MaxSrcSyncCount r).
Definition set_ui32CCBOffset (x : Z) (r : DEVICE_COMMAND_DATA) : DEVICE_COMMAND_DATA :=
  mk_dc (pfnCmdProc r) (apsCmdCompleteData r) x (ui32MaxDstSyncCount r) (ui32MaxSrcSyncCount r).

Definition set_psQueueList (x : Z) (s : qsys) : qsys :=
  mk_qsys x (sQProcessResource s) (apsDeviceCommandData s) (psDeviceNodeList s) (queues s) (buffers s)
    (dev_data s) (cc_data s) (syncs s) (q_clock s) (outputs s) (history s).
Definition set_sQProcessResource (x : PVRSRV_RESOURCE) (s : qsys) : qsys :=
  mk_qsys (psQueueList s) x (apsDeviceCommandData s) (psDeviceNodeList s) (queues s) (buffers s)
    (dev_data s) (cc_data s) (syncs s) (q_clock s) (outputs s) (history s).
Definition set_apsDeviceCommandData (x : list Z) (s : qsys) : qsys :=
  mk_qsys (psQueueList s) (sQProcessResource s) x (psDeviceNodeList s) (queues s) (buffers s)
    (dev_data s) (cc_data s) (syncs s) (q_clock s) (outputs s) (history s).
Definition set_psDeviceNodeList (x : list DEVICE_NODE) (s : qsys) : qsys :=
  mk_qsys (psQueueList s) (sQProcessResource s) (apsDeviceCommandData s) x (queues s) (buffers s)
    (dev_data s) (cc_data s) (syncs s) (q_clock s) (outputs s) (history s).
Definition set_queues (x : gmap Z PVRSRV_QUEUE_INFO) (s : qsys) : qsys :=
  mk_qsys (psQueueList s) (sQProcessResource s) (apsDeviceCommandData s) (psDeviceNodeList s) x
    (buffers s) (dev_data s) (cc_data s) (syncs s) (q_clock s) (outputs s) (history s).
Definition set_buffers (x : gmap Z buffer) (s : qsys) : qsys :=
  mk_qsys (psQueueList s) (sQProcessResource s) (apsDeviceCommandData s) (psDeviceNodeList s)
    (queues s) x (dev_data s) (cc_data s) (syncs s) (q_clock s) (outputs s) (history s).
Definition set_dev_data (x : gmap Z (list DEVICE_COMMAND_DATA)) (s : qsys) : qsys :=
  mk_qsys (psQueueList s) (sQProcessResource s) (apsDeviceCommandData s) (psDeviceNodeList s) (queues s)
    (buffers s) x (cc_data s) (syncs s) (q_clock s) (outputs s) (history s).
Definition set_cc_data (x : gmap Z COMMAND_COMPLETE_DATA) (s : qsys) : qsys :=
  mk_qsys (psQueueList s) (sQProcessResource s) (apsDeviceCommandData s) (psDeviceNodeList s) (queues s)
    (buffers s) (dev_data s) x (syncs s) (q_clock s) (outputs s) (history s).
Definition set_syncs (x : gmap Z PVRSRV_SYNC_DATA) (s : qsys) : qsys :=
  mk_qsys (psQueueList s) (sQProcessResource s) (apsDeviceCommandData s) (psDeviceNodeList s) (queues s)
    (buffers s) (dev_data s) (cc_data s) x (q_clock s) (outputs s) (history s).
Definition set_q_clock (x : nat) (s : qsys) : qsys :=
  mk_qsys (psQueueList s) (sQProcessResource s) (apsDeviceCommandData s) (psDeviceNodeList s) (queues s)
    (buffers s) (dev_data s) (cc_data s) (syncs s) x (outputs s) (history s).
Definition set_outputs (x : list output) (s : qsys) : qsys :=
  mk_qsys (psQueueList s) (sQProcessResource s) (apsDeviceCommandData s) (psDeviceNodeList s) (queues s)
    (buffers s) (dev_data s) (cc_data s) (syncs s) (q_clock s) x (history s).
Definition set_history (x : list past) (s : qsys) : qsys :=
  mk_qsys (psQueueList s) (sQProcessResource s) (apsDeviceCommandData s) (psDeviceNodeList s) (queues s)
    (buffers s) (dev_data s) (cc_data s) (syncs s) (q_clock s) (outputs s) x.

Definition set_p_progress (x : progress) (r : past) : past :=
  mk_past (p_queue r) (p_dst r) (p_src r) x.

(** ** The environment *)

(** What runs while a call of the bridge sleeps. *)
Inductive isr := Process | Complete (hCmdCookie : Z).

(** By time: the answers of the allocator, whether another processor holds the
    lock, how often a wait polls, the process id, and what runs in a sleep or in
    the function of the device, with its answer. *)
Record qenv := {
  q_alloc : nat -> option Z;
  contended : nat -> bool;
  polls : nat -> nat;
  current_pid : nat -> Z;
  asleep : nat -> list isr;
  cmd_proc : nat -> bool * list Z;
  lock_patience : nat }.

Definition Q (A : Type) : Type := ST qsys A.

Section Queue.
Context (E : qenv) `{NUM : CommandsPerType}.

(** ** Access to the state *)

Definition tick : Q nat := fun s => Ok (q_clock s, set_q_clock (S (q_clock s)) s).
Definition emit (o : output) : Q unit := modify (fun s => set_outputs (o :: outputs s) s).

Definition queue (p : Z) : Q PVRSRV_QUEUE_INFO := found (fun s => queues s !! p).
Definition update_queue (p : Z) (f : PVRSRV_QUEUE_INFO -> PVRSRV_QUEUE_INFO) : Q unit :=
  q ← queue p; modify (fun s => set_queues (<[p := f q]> (queues s)) s).
Definition sync_data (p : Z) : Q PVRSRV_SYNC_DATA := found (fun s => syncs s !! p).
Definition update_sync (p : Z) (f : PVRSRV_SYNC_DATA -> PVRSRV_SYNC_DATA) : Q unit :=
  d ← sync_data p; modify (fun s => set_syncs (<[p := f d]> (syncs s)) s).
Definition complete_data (p : Z) : Q COMMAND_COMPLETE_DATA := found (fun s => cc_data s !! p).
Definition update_complete (p : Z) (f : COMMAND_COMPLETE_DATA -> COMMAND_COMPLETE_DATA) : Q unit :=
  c ← complete_data p; modify (fun s => set_cc_data (<[p := f c]> (cc_data s)) s).
Definition note_progress (id : nat) (x : progress) : Q unit :=
  modify (fun s => set_history (alter (set_p_progress x) id (history s)) s).

(** The entry of an array, a negative index being outside too. *)
Definition entry_at {A} (l : list A) (i : Z) : option A := if i <? 0 then None else l !! Z.to_nat i.

(** [psSysData->apsDeviceCommandData[ui32DevIndex][type]] *)
Definition device_command (ui32DevIndex type : Z) : Q DEVICE_COMMAND_DATA :=
  found (fun s =>
    p ← entry_at (apsDeviceCommandData s) ui32DevIndex;
    l ← dev_data s !! p;
    entry_at l type).
Definition update_device_command (ui32DevIndex type : Z) (f : DEVICE_COMMAND_DATA -> DEVICE_COMMAND_DATA) : Q unit :=
  p ← found (fun s => entry_at (apsDeviceCommandData s) ui32DevIndex);
  l ← found (fun s => dev_data s !! p);
  d ← found (fun s => entry_at l type);
  modify (fun s => set_dev_data (<[p := <[Z.to_nat type := f d]> l]> (dev_data s)) s).

(** A pointer of [apsCmdCompleteData] that is followed before it was written. *)
Definition written (x : option (option Z)) : Q Z :=
  match x with
  | Some (Some p) => mret p
  | Some None => st_fault Indeterminate
  | None => st_fault OutOfBounds
  end.

(** Writing to and reading from the buffer of a queue. *)
Definition apart (a n : Z) (b : Z * cell) : Prop := b.1 + cell_size b.2 <= a \/ a + n <= b.1.

Definition store_cell (a : Z) (c : cell) (b : buffer) : buffer :=
  mk_buffer (b_size b) (<[a := c]> (filter (apart a (cell_size c)) (b_cells b))).

Definition store (pvLin a : Z) (c : cell) : Q unit :=
  b ← found (fun s => buffers s !! pvLin);
  if (0 <=? a) && (a + cell_size c <=? b_size b)
  then modify (fun s => set_buffers (<[pvLin := store_cell a c b]> (buffers s)) s)
  else st_fault OutOfBounds.

Definition load_cell (pvLin a : Z) : Q cell :=
  b ← found (fun s => buffers s !! pvLin);
  if (0 <=? a) && (a <? b_size b) then
    match b_cells b !! a with Some c => mret c | None => st_fault Indeterminate end
  else st_fault OutOfBounds.
Definition load_command (pvLin a : Z) : Q PVRSRV_COMMAND :=
  c ← load_cell pvLin a;
  match c with Cmd c => mret c | Sync _ => st_fault Indeterminate end.
Definition load_sync (pvLin a : Z) : Q PVRSRV_SYNC_OBJECT :=
  c ← load_cell pvLin a;
  match c with Sync o => mret o | Cmd _ => st_fault Indeterminate end.

(** The address of new memory that is not in use, or 0. *)
Definition OSAllocMem (used : qsys -> Z -> bool) : Q Z :=
  n ← tick;
  gets (fun s => match q_alloc E n with Some p => if (p =? 0) || used s p then 0 else p | None => 0 end).

Definition OSLockResource (ID : Z) : Q Z :=
  n ← tick;
  r ← gets sQProcessResource;
  if contended E n || negb (ui32Lock r =? 0) then mret PVRSRV_ERROR_UNABLE_TO_LOCK_RESOURCE else
  modify (set_sQProcessResource (mk_resource 1 ID));;
  mret PVRSRV_OK.

Definition OSUnlockResource (ID : Z) : Q Z :=
  r ← gets sQProcessResource;
  if ui32Lock r =? 0 then mret PVRSRV_ERROR_RESOURCE_NOT_LOCKED else
  if negb (ui32ID r =? ID) then mret PVRSRV_ERROR_INVALID_LOCK_ID else
  modify (set_sQProcessResource (mk_resource 0 0));;
  mret PVRSRV_OK.

Definition OSCreateResource : Q Z :=
  modify (set_sQProcessResource (mk_resource 0 0));;
  mret PVRSRV_OK.

(** Breaking a lock that is held by nobody changes nothing. *)
Definition OSDestroyResource : Q Z :=
  modify (fun s => set_sQProcessResource (mk_resource 0 0) s);;
  mret PVRSRV_OK.

Definition PVRSRVAcquireSyncInfoKM (p : Z) : Q unit :=
  update_sync p (fun d => set_pvRefCount (pvRefCount d + 1) d).
Definition PVRSRVReleaseSyncInfoKM (p : Z) : Q unit :=
  d ← sync_data p;
  if pvRefCount d - 1 =? 0 then modify (fun s => set_syncs (delete p (syncs s)) s)
  else update_sync p (set_pvRefCount (pvRefCount d - 1)).

(** ** The macros of the ring *)

Definition GET_SPACE_IN_CMDQ (q : PVRSRV_QUEUE_INFO) : Z :=
  Z.land (u32 (u32 (ui32ReadOffset q - ui32WriteOffset q) + u32 (ui32QueueSize q - 1))) (u32 (ui32QueueSize q - 1)).

Definition UPDATE_QUEUE_WOFF (size : Z) (q : PVRSRV_QUEUE_INFO) : PVRSRV_QUEUE_INFO :=
  set_ui32WriteOffset (Z.land (u32 (ui32WriteOffset q + size)) (u32 (ui32QueueSize q - 1))) q.

Definition UPDATE_QUEUE_ROFF (size : Z) (q : PVRSRV_QUEUE_INFO) : PVRSRV_QUEUE_INFO :=
  set_ui32ReadOffset (Z.land (u32 (ui32ReadOffset q + size)) (u32 (ui32QueueSize q - 1))) q.

Definition SYNCOPS_STALE (ui32OpsComplete ui32OpsPending : Z) : bool := ui32OpsPending <=? ui32OpsComplete.

(** ** Loops *)

Fixpoint for_each {A} (l : list A) (f : A -> Q unit) : Q unit :=
  match l with
  | [] => mret tt
  | x :: l => f x;; for_each l f
  end.

(** [for (i = 0; i < n; i++)] *)
Definition count_to (n : Z) : list nat := seq 0 (Z.to_nat n).

(** ** Synchronisation objects *)

Definition PVRSRVGetWriteOpsPending (psSyncInfo : Z) (bIsReadOp : bool) : Q Z :=
  d ← sync_data psSyncInfo;
  st_when (negb bIsReadOp)
    (update_sync psSyncInfo (set_ui32WriteOpsPending (u32 (ui32WriteOpsPending d + 1))));;
  mret (ui32WriteOpsPending d).

Definition PVRSRVGetReadOpsPending (psSyncInfo : Z) (bIsReadOp : bool) : Q Z :=
  d ← sync_data psSyncInfo;
  st_when bIsReadOp
    (update_sync psSyncInfo (set_ui32ReadOps2Pending (u32 (ui32ReadOps2Pending d + 1))));;
  mret (ui32ReadOps2Pending d).

(** ** Completing a command *)

Definition complete_dst (hCmdCookie : Z) (i : nat) : Q unit :=
  o ← found (fun s => c ← cc_data s !! hCmdCookie; cc_psDstSync c !! i);
  update_sync (psKernelSyncInfoKM o) (fun d => set_ui32WriteOpsComplete (u32 (ui32WriteOpsComplete d + 1)) d);;
  PVRSRVReleaseSyncInfoKM (psKernelSyncInfoKM o).

Definition complete_src (hCmdCookie : Z) (i : nat) : Q unit :=
  o ← found (fun s => c ← cc_data s !! hCmdCookie; cc_psSrcSync c !! i);
  update_sync (psKernelSyncInfoKM o) (fun d => set_ui32ReadOps2Complete (u32 (ui32ReadOps2Complete d + 1)) d);;
  PVRSRVReleaseSyncInfoKM (psKernelSyncInfoKM o).

Definition PVRSRVCommandCompleteKM (hCmdCookie : Z) (bScheduleMISR : bool) : Q unit :=
  c ← complete_data hCmdCookie;
  for_each (count_to (cc_DstSyncCount c)) (complete_dst hCmdCookie);;
  for_each (count_to (cc_SrcSyncCount c)) (complete_src hCmdCookie);;
  st_when (negb (cc_pfnCommandComplete c =? 0))
    (emit (CallCommandComplete (cc_pfnCommandComplete c) (cc_hCallbackData c)));;
  update_complete hCmdCookie (set_bInUse false);;
  note_progress (cc_id c) Completed;;
  emit ScheduleDeviceCallbacks;;
  st_when bScheduleMISR (emit ScheduleMISR).

Definition in_use (s : qsys) (hCmdCookie : Z) : bool :=
  match cc_data s !! hCmdCookie with Some c => bInUse c | None => false end.

(** The commands that a device completes: those that are in use, but for
    [spared]. *)
Definition complete_all (spared : option Z) (l : list Z) : Q unit :=
  for_each l (fun p =>
    b ← gets (fun s => in_use s p);
    st_when (b && bool_decide (spared <> Some p)) (PVRSRVCommandCompleteKM p true)).

(** ** Processing a command *)

Fixpoint queued_loop (psSync : PVRSRV_SYNC_OBJECT) (psCmdData : COMMAND_COMPLETE_DATA) (ks : list nat) : Q Z :=
  match ks with
  | [] => mret PVRSRV_ERROR_FAILED_DEPENDENCIES
  | k :: ks =>
      o ← found (fun _ => cc_psSrcSync psCmdData !! k);
      if psKernelSyncInfoKM psSync =? psKernelSyncInfoKM o then
        d ← sync_data (psKernelSyncInfoKM psSync);
        if (ui32WriteOpsComplete d =? so_WriteOpsPending psSync)
           || SYNCOPS_STALE (ui32WriteOpsComplete d) (so_WriteOpsPending psSync)
        then mret PVRSRV_OK
        else queued_loop psSync psCmdData ks
      else queued_loop psSync psCmdData ks
  end.

Definition CheckIfSyncIsQueued (psSync : PVRSRV_SYNC_OBJECT) (p : Z) : Q Z :=
  psCmdData ← complete_data p;
  if bInUse psCmdData then queued_loop psSync psCmdData (count_to (cc_SrcSyncCount psCmdData))
  else mret PVRSRV_ERROR_FAILED_DEPENDENCIES.

(** The loop over [apsCmdCompleteData]; the answer is [bFound]. *)
Fixpoint find_queued (psSync : PVRSRV_SYNC_OBJECT) (dc : DEVICE_COMMAND_DATA) (js : list nat) (bFound : bool) : Q bool :=
  match js with
  | [] => mret bFound
  | j :: js =>
      p ← written (apsCmdCompleteData dc !! j);
      eError ← CheckIfSyncIsQueued psSync p;
      find_queued psSync dc js (bFound || (eError =? PVRSRV_OK))
  end.

(** The test of an object in both loops of [PVRSRVProcessCommand]. *)
Definition not_due (d : PVRSRV_SYNC_DATA) (o : PVRSRV_SYNC_OBJECT) (bFlush : bool) : bool :=
  (negb (ui32WriteOpsComplete d =? so_WriteOpsPending o) ||
   negb (ui32ReadOps2Complete d =? so_ReadOps2Pending o)) &&
  (negb bFlush ||
   negb (SYNCOPS_STALE (ui32WriteOpsComplete d) (so_WriteOpsPending o)) ||
   negb (SYNCOPS_STALE (ui32ReadOps2Complete d) (so_ReadOps2Pending o))).

Fixpoint dst_ready (n : nat) (pvLin psWalkerObj : Z) (bFlush : bool) : Q bool :=
  match n with
  | O => mret true
  | S n =>
      o ← load_sync pvLin psWalkerObj;
      d ← sync_data (psKernelSyncInfoKM o);
      if not_due d o bFlush then mret false
      else dst_ready n pvLin (psWalkerObj + sizeof_SYNC_OBJECT) bFlush
  end.

Fixpoint src_ready (n : nat) (pvLin psWalkerObj ui32DevIndex type : Z) (bFlush : bool) : Q bool :=
  match n with
  | O => mret true
  | S n =>
      o ← load_sync pvLin psWalkerObj;
      d ← sync_data (psKernelSyncInfoKM o);
      bFound ← (if not_due d o bFlush then
                  dc ← device_command ui32DevIndex type;
                  find_queued o dc (seq 0 DC_NUM_COMMANDS_PER_TYPE) false
                else mret true);
      if (bFound : bool)
      then src_ready n pvLin (psWalkerObj + sizeof_SYNC_OBJECT) ui32DevIndex type bFlush
      else mret false
  end.

Definition set_slot (l : list PVRSRV_SYNC_OBJECT) (i : nat) (o : PVRSRV_SYNC_OBJECT) : Q (list PVRSRV_SYNC_OBJECT) :=
  if (i <? length l)%nat then mret (<[i := o]> l) else st_fault OutOfBounds.

Definition copy_dst (pvLin psDstSync p : Z) (i : nat) : Q unit :=
  o ← load_sync pvLin (psDstSync + Z.of_nat i * sizeof_SYNC_OBJECT);
  c ← complete_data p;
  l ← set_slot (cc_psDstSync c) i o;
  update_complete p (set_cc_psDstSync l).

Definition copy_src (pvLin psSrcSync p : Z) (i : nat) : Q unit :=
  o ← load_sync pvLin (psSrcSync + Z.of_nat i * sizeof_SYNC_OBJECT);
  c ← complete_data p;
  l ← set_slot (cc_psSrcSync c) i o;
  update_complete p (set_cc_psSrcSync l).

(** The call of [pfnCmdProc] and what follows it. *)
Definition hand_over (c : PVRSRV_COMMAND) (dc : DEVICE_COMMAND_DATA) (p : Z) : Q Z :=
  emit (CmdProc (pfnCmdProc dc) p (uDataSize c));;
  note_progress (c_id c) InFlight;;
  n ← tick;
  let '(taken, l) := cmd_proc E n in
  complete_all (if taken then None else Some p) l;;
  if taken then mret PVRSRV_OK else
  update_complete p (set_bInUse false);;
  note_progress (c_id c) Queued;;
  mret PVRSRV_ERROR_CMD_NOT_PROCESSED.

Definition PVRSRVProcessCommand (pvLin psCommand : Z) (bFlush : bool) : Q Z :=
  c ← load_command pvLin psCommand;
  ready ← dst_ready (Z.to_nat (ui32DstSyncCount c)) pvLin (psDstSync c) bFlush;
  if negb ready then mret PVRSRV_ERROR_FAILED_DEPENDENCIES else
  ready ← src_ready (Z.to_nat (ui32SrcSyncCount c)) pvLin (psSrcSync c) (ui32DevIndex c) (CommandType c) bFlush;
  if negb ready then mret PVRSRV_ERROR_FAILED_DEPENDENCIES else
  if SYS_DEVICE_COUNT <=? ui32DevIndex c then mret PVRSRV_ERROR_INVALID_PARAMS else
  dc ← device_command (ui32DevIndex c) (CommandType c);
  p ← written (entry_at (apsCmdCompleteData dc) (ui32CCBOffset dc));
  d ← complete_data p;
  if bInUse d then mret PVRSRV_ERROR_FAILED_DEPENDENCIES else
  update_complete p (fun d => set_cc_id (c_id c) (set_cc_DstSyncCount (ui32DstSyncCount c) (set_bInUse true d)));;
  for_each (count_to (ui32DstSyncCount c)) (copy_dst pvLin (psDstSync c) p);;
  update_complete p (fun d =>
    set_cc_SrcSyncCount (ui32SrcSyncCount c)
      (set_cc_hCallbackData (hCallbackData c) (set_cc_pfnCommandComplete (pfnCommandComplete c) d)));;
  for_each (count_to (ui32SrcSyncCount c)) (copy_src pvLin (psSrcSync c) p);;
  eError ← hand_over c dc p;
  update_device_command (ui32DevIndex c) (CommandType c)
    (set_ui32CCBOffset ((ui32CCBOffset dc + 1) mod Z.of_nat DC_NUM_COMMANDS_PER_TYPE));;
  mret eError.

(** ** Processing the queues *)

Fixpoint lock_loop (fuel : nat) : Q unit :=
  match fuel with
  | O => st_fault OutOfFuel
  | S fuel =>
      eError ← OSLockResource ISR_ID;
      if eError =? PVRSRV_OK then mret tt else lock_loop fuel
  end.

Fixpoint process_queue (fuel : nat) (psQueue : Z) (bFlush : bool) : Q unit :=
  q ← queue psQueue;
  if ui32ReadOffset q =? ui32WriteOffset q then mret tt else
  match fuel with
  | O => st_fault OutOfFuel
  | S fuel =>
      eError ← PVRSRVProcessCommand (pvLinQueueKM q) (ui32ReadOffset q) bFlush;
      if eError =? PVRSRV_OK then
        c ← load_command (pvLinQueueKM q) (ui32ReadOffset q);
        update_queue psQueue (UPDATE_QUEUE_ROFF (uCmdSize c));;
        process_queue fuel psQueue bFlush
      else mret tt
  end.

Fixpoint process_list (fuel : nat) (psQueue : Z) (bFlush : bool) : Q unit :=
  if psQueue =? 0 then mret tt else
  match fuel with
  | O => st_fault OutOfFuel
  | S fuel =>
      q ← queue psQueue;
      process_queue (Z.to_nat (ui32QueueSize q)) psQueue bFlush;;
      q ← queue psQueue;
      process_list fuel (psNextKM q) bFlush
  end.

Definition PVRSRVProcessQueues_ForEachCb (psDeviceNode : DEVICE_NODE) : Q unit :=
  st_when (bReProcessDeviceCommandComplete psDeviceNode && negb (pfnDeviceCommandComplete psDeviceNode =? 0))
    (emit (DeviceCommandComplete psDeviceNode)).

Definition PVRSRVProcessQueues (bFlush : bool) : Q Z :=
  lock_loop (lock_patience E);;
  psQueue ← gets psQueueList;
  st_when bFlush (emit (SetDCState DC_STATE_FLUSH_COMMANDS));;
  fuel ← gets (fun s => size (queues s));
  process_list fuel psQueue bFlush;;
  st_when bFlush (emit (SetDCState DC_STATE_NO_FLUSH_COMMANDS));;
  nodes ← gets psDeviceNodeList;
  for_each nodes PVRSRVProcessQueues_ForEachCb;;
  OSUnlockResource ISR_ID;;
  mret PVRSRV_OK.

(** ** Waiting *)

Definition interrupt (i : isr) : Q unit :=
  match i with
  | Process => PVRSRVProcessQueues false;; mret tt
  | Complete p =>
      b ← gets (fun s => in_use s p);
      st_when b (PVRSRVCommandCompleteKM p true)
  end.

(** [LOOP_UNTIL_TIMEOUT] with a test and a sleep in it: whether the test came
    true in time. *)
Fixpoint poll (n : nat) (test : Q bool) : Q bool :=
  match n with
  | O => mret false
  | S n =>
      b ← test;
      if (b : bool) then mret true else
      t ← tick;
      for_each (asleep E t) interrupt;;
      poll n test
  end.

Definition LOOP_UNTIL_TIMEOUT (test : Q bool) : Q bool :=
  t ← tick;
  poll (S (polls E t)) test.

(** ** Creating and destroying queues *)

Fixpoint power_loop (fuel : nat) (ui32Temp ui32Result : Z) : Z :=
  match fuel with
  | O => ui32Result
  | S fuel =>
      if ui32Temp =? 0 then ui32Result
      else power_loop fuel (Z.shiftr ui32Temp 1) (u32 (Z.shiftl ui32Result 1))
  end.

(** 32 turns empty 32 bits. *)
Definition NearestPower2 (ui32Value : Z) : Z :=
  if ui32Value =? 0 then 0 else power_loop 32 (ui32Value - 1) 1.

Definition free_queue (psQueueInfo : Z) : Q unit :=
  q ← queue psQueueInfo;
  modify (fun s => set_buffers (delete (pvLinQueueKM q) (buffers s)) s);;
  modify (fun s => set_queues (delete psQueueInfo (queues s)) s).

(** [ErrorExit] once the structure was allocated. *)
Definition create_failed (psQueueInfo eError : Z) : Q (Z * Z) :=
  q ← queue psQueueInfo;
  st_when (negb (pvLinQueueKM q =? 0))
    (modify (fun s => set_buffers (delete (pvLinQueueKM q) (buffers s)) s));;
  modify (fun s => set_queues (delete psQueueInfo (queues s)) s);;
  mret (eError, 0).

Definition PVRSRVCreateCommandQueueKM (ui32QueueSize : Z) : Q (Z * Z) :=
  let ui32Power2QueueSize := NearestPower2 ui32QueueSize in
  psQueueInfo ← OSAllocMem (fun s p => bool_decide (is_Some (queues s !! p)));
  if psQueueInfo =? 0 then mret (PVRSRV_ERROR_OUT_OF_MEMORY, 0) else
  t ← tick;
  modify (fun s => set_queues (<[psQueueInfo := mk_queue 0 0 0 0 (current_pid E t) 0]> (queues s)) s);;
  pvLin ← OSAllocMem (fun s p => bool_decide (is_Some (buffers s !! p)));
  if pvLin =? 0 then create_failed psQueueInfo PVRSRV_ERROR_OUT_OF_MEMORY else
  modify (fun s => set_buffers (<[pvLin := mk_buffer (u32 (ui32Power2QueueSize + PVRSRV_MAX_CMD_SIZE)) ∅]> (buffers s)) s);;
  update_queue psQueueInfo (fun q =>
    mk_queue pvLin (ui32ReadOffset q) (ui32WriteOffset q) ui32Power2QueueSize (q_ProcessID q) (psNextKM q));;
  h ← gets psQueueList;
  eError ← (if h =? 0 then OSCreateResource else mret PVRSRV_OK);
  if negb (eError =? PVRSRV_OK) then create_failed psQueueInfo eError else
  eError ← OSLockResource KERNEL_ID;
  if negb (eError =? PVRSRV_OK) then create_failed psQueueInfo eError else
  h ← gets psQueueList;
  update_queue psQueueInfo (set_psNextKM h);;
  modify (set_psQueueList psQueueInfo);;
  eError ← OSUnlockResource KERNEL_ID;
  if negb (eError =? PVRSRV_OK) then create_failed psQueueInfo eError else
  mret (PVRSRV_OK, psQueueInfo).

(** The search for the queue before [psQueueInfo]; the answer is [psQueue]. *)
Fixpoint unlink_loop (fuel : nat) (psQueue psQueueInfo : Z) : Q Z :=
  if psQueue =? 0 then mret 0 else
  match fuel with
  | O => st_fault OutOfFuel
  | S fuel =>
      q ← queue psQueue;
      if psNextKM q =? psQueueInfo then
        i ← queue psQueueInfo;
        update_queue psQueue (set_psNextKM (psNextKM i));;
        free_queue psQueueInfo;;
        mret psQueue
      else unlink_loop fuel (psNextKM q) psQueueInfo
  end.

Definition PVRSRVDestroyCommandQueueKM (psQueueInfo : Z) : Q Z :=
  psQueue ← gets psQueueList;
  empty ← LOOP_UNTIL_TIMEOUT (q ← queue psQueueInfo; mret (ui32ReadOffset q =? ui32WriteOffset q));
  if negb empty then mret PVRSRV_ERROR_CANNOT_FLUSH_QUEUE else
  eError ← OSLockResource KERNEL_ID;
  if negb (eError =? PVRSRV_OK) then mret eError else
  found_it ← (if psQueue =? psQueueInfo then
                i ← queue psQueueInfo;
                modify (set_psQueueList (psNextKM i));;
                free_queue psQueueInfo;;
                mret true
              else
                fuel ← gets (fun s => size (queues s));
                p ← unlink_loop fuel psQueue psQueueInfo;
                mret (negb (p =? 0)));
  eError ← OSUnlockResource KERNEL_ID;
  if negb (eError =? PVRSRV_OK) then mret eError else
  if negb found_it then mret PVRSRV_ERROR_INVALID_PARAMS else
  h ← gets psQueueList;
  if h =? 0 then OSDestroyResource else mret eError.

(** ** Inserting and submitting commands *)

(** The error and the offset of the space. *)
Definition PVRSRVGetQueueSpaceKM (psQueue ui32ParamSize : Z) : Q (Z * Z) :=
  let ui32ParamSize := Z.land (u32 (ui32ParamSize + 3)) 0xFFFFFFFC in
  if PVRSRV_MAX_CMD_SIZE <? ui32ParamSize then mret (PVRSRV_ERROR_CMD_TOO_BIG, 0) else
  room ← LOOP_UNTIL_TIMEOUT (q ← queue psQueue; mret (ui32ParamSize <? GET_SPACE_IN_CMDQ q));
  if negb room then mret (PVRSRV_ERROR_CANNOT_GET_QUEUE_SPACE, 0) else
  q ← queue psQueue;
  mret (PVRSRV_OK, ui32WriteOffset q).

Definition insert_dst (pvLin psDstSync : Z) (x : nat * Z) : Q unit :=
  let '(i, p) := x in
  w ← PVRSRVGetWriteOpsPending p false;
  r ← PVRSRVGetReadOpsPending p false;
  store pvLin (psDstSync + Z.of_nat i * sizeof_SYNC_OBJECT) (Sync (mk_so p w r));;
  PVRSRVAcquireSyncInfoKM p.

Definition insert_src (pvLin psSrcSync : Z) (x : nat * Z) : Q unit :=
  let '(i, p) := x in
  w ← PVRSRVGetWriteOpsPending p true;
  r ← PVRSRVGetReadOpsPending p true;
  store pvLin (psSrcSync + Z.of_nat i * sizeof_SYNC_OBJECT) (Sync (mk_so p w r));;
  PVRSRVAcquireSyncInfoKM p.

Definition numbered {A} (l : list A) : list (nat * A) := zip (seq 0 (length l)) l.

(** The command with its objects, at the offset [psCommand]. *)
Definition write_command (psQueue psCommand ui32CommandSize ui32DevIndex type : Z) (apsDstSync apsSrcSync : list Z)
    (ui32DataByteSize pfn hData : Z) : Q unit :=
  let ui32DstSyncCount := Z.of_nat (length apsDstSync) in
  let ui32SrcSyncCount := Z.of_nat (length apsSrcSync) in
  q ← queue psQueue;
  t ← tick;
  let psDstSync := psCommand + sizeof_COMMAND in
  let psSrcSync := psDstSync + ui32DstSyncCount * sizeof_SYNC_OBJECT in
  let pvData := psSrcSync + ui32SrcSyncCount * sizeof_SYNC_OBJECT in
  id ← gets (fun s => length (history s));
  store (pvLinQueueKM q) psCommand (Cmd (mk_command ui32CommandSize ui32DevIndex type ui32DstSyncCount
    ui32SrcSyncCount psDstSync psSrcSync ui32DataByteSize (current_pid E t) pvData pfn hData id));;
  for_each (numbered apsDstSync) (insert_dst (pvLinQueueKM q) psDstSync);;
  for_each (numbered apsSrcSync) (insert_src (pvLinQueueKM q) psSrcSync);;
  modify (fun s => set_history (history s ++ [mk_past psQueue apsDstSync apsSrcSync Prepared]) s).

(** The error and the offset of the command. *)
Definition PVRSRVInsertCommandKM (psQueue ui32DevIndex type : Z) (apsDstSync apsSrcSync : list Z)
    (ui32DataByteSize pfn hData : Z) : Q (Z * Z) :=
  let ui32DstSyncCount := Z.of_nat (length apsDstSync) in
  let ui32SrcSyncCount := Z.of_nat (length apsSrcSync) in
  dc ← device_command ui32DevIndex type;
  if (ui32MaxDstSyncCount dc <? ui32DstSyncCount) || (ui32MaxSrcSyncCount dc <? ui32SrcSyncCount)
  then mret (PVRSRV_ERROR_INVALID_PARAMS, 0) else
  let ui32DataByteSize := Z.land (u32 (ui32DataByteSize + 3)) 0xFFFFFFFC in
  let ui32CommandSize := u32 (sizeof_COMMAND +
    u32 (u32 (ui32DstSyncCount + ui32SrcSyncCount) * sizeof_SYNC_OBJECT) + ui32DataByteSize) in
  '(eError, psCommand) ← PVRSRVGetQueueSpaceKM psQueue ui32CommandSize;
  if negb (eError =? PVRSRV_OK) then mret (eError, 0) else
  write_command psQueue psCommand ui32CommandSize ui32DevIndex type apsDstSync apsSrcSync ui32DataByteSize pfn hData;;
  mret (PVRSRV_OK, psCommand).

Definition PVRSRVSubmitCommandKM (psQueue psCommand : Z) : Q Z :=
  q ← queue psQueue;
  c ← load_command (pvLinQueueKM q) psCommand;
  let base := ui32WriteOffset q + sizeof_COMMAND in
  let dst := if 0 <? ui32DstSyncCount c then base else psDstSync c in
  let src := if 0 <? ui32SrcSyncCount c then base + ui32DstSyncCount c * sizeof_SYNC_OBJECT else psSrcSync c in
  let data := base + ui32DstSyncCount c * sizeof_SYNC_OBJECT + ui32SrcSyncCount c * sizeof_SYNC_OBJECT in
  store (pvLinQueueKM q) psCommand (Cmd (mk_command (uCmdSize c) (ui32DevIndex c) (CommandType c)
    (ui32DstSyncCount c) (ui32SrcSyncCount c) dst src (uDataSize c) (ui32ProcessID c) data
    (pfnCommandComplete c) (hCallbackData c) (c_id c)));;
  update_queue psQueue (UPDATE_QUEUE_WOFF (uCmdSize c));;
  note_progress (c_id c) Queued;;
  mret PVRSRV_OK.

(** ** The commands of a device *)

Definition new_device_command : DEVICE_COMMAND_DATA :=
  mk_dc 0 (replicate DC_NUM_COMMANDS_PER_TYPE None) 0 0 0.

Definition set_command (p : Z) (type : nat) (f : DEVICE_COMMAND_DATA -> DEVICE_COMMAND_DATA) : Q unit :=
  l ← found (fun s => dev_data s !! p);
  d ← found (fun _ => l !! type);
  modify (fun s => set_dev_data (<[p := <[type := f d]> l]> (dev_data s)) s).

(** One turn of the inner loop of [PVRSRVRemoveCmdProcListKM]. *)
Definition remove_complete (p : Z) (x : nat * nat) : Q unit :=
  let '(type, i) := x in
  l ← found (fun s => dev_data s !! p);
  d ← found (fun _ => l !! type);
  a ← written (apsCmdCompleteData d !! i);
  st_when (negb (a =? 0))
    (complete_data a;;
     modify (fun s => set_cc_data (delete a (cc_data s)) s);;
     set_command p type (fun d => set_apsCmdCompleteData (<[i := Some 0]> (apsCmdCompleteData d)) d)).

(** The pairs of counters of two nested loops. *)
Definition nested (n m : nat) : list (nat * nat) := i ← seq 0 n; j ← seq 0 m; [(i, j)].

Definition PVRSRVRemoveCmdProcListKM (ui32DevIndex ui32CmdCount : Z) : Q Z :=
  if SYS_DEVICE_COUNT <=? ui32DevIndex then mret PVRSRV_ERROR_INVALID_PARAMS else
  p ← found (fun s => entry_at (apsDeviceCommandData s) ui32DevIndex);
  st_when (negb (p =? 0))
    (for_each (nested (Z.to_nat ui32CmdCount) DC_NUM_COMMANDS_PER_TYPE) (remove_complete p);;
     modify (fun s => set_dev_data (delete p (dev_data s)) s);;
     modify (fun s => set_apsDeviceCommandData (<[Z.to_nat ui32DevIndex := 0]> (apsDeviceCommandData s)) s));;
  mret PVRSRV_OK.

Definition zero_sync_object : PVRSRV_SYNC_OBJECT := mk_so 0 0 0.
Definition sizeof_COMPLETE_DATA : Z := 32.

(** One turn of the inner loop of [PVRSRVRegisterCmdProcListKM]: whether the
    allocation succeeded. *)
Definition register_complete (p nd ns : Z) (type i : nat) : Q bool :=
  a ← OSAllocMem (fun s p => bool_decide (is_Some (cc_data s !! p)));
  if a =? 0 then mret false else
  set_command p type (fun d => set_apsCmdCompleteData (<[i := Some a]> (apsCmdCompleteData d)) d);;
  modify (fun s => set_cc_data (<[a :=
    mk_cc false 0 0 (replicate (Z.to_nat nd) zero_sync_object) (replicate (Z.to_nat ns) zero_sync_object)
      (u32 (sizeof_COMPLETE_DATA + u32 (u32 (nd + ns) * sizeof_SYNC_OBJECT))) 0 0 0]> (cc_data s)) s);;
  mret true.

Fixpoint register_inner (p nd ns : Z) (type : nat) (idx : list nat) : Q bool :=
  match idx with
  | [] => mret true
  | i :: idx =>
      b ← register_complete p nd ns type i;
      if (b : bool) then register_inner p nd ns type idx else mret false
  end.

(** [l] is the rest of [ppfnCmdProcList] with [ui32MaxSyncsPerCmd]. *)
Fixpoint register_outer (p : Z) (type : nat) (l : list (Z * (Z * Z))) : Q bool :=
  match l with
  | [] => mret true
  | (pfn, (nd, ns)) :: l =>
      set_command p type (fun d => mk_dc pfn (apsCmdCompleteData d) 0 nd ns);;
      b ← register_inner p nd ns type (seq 0 DC_NUM_COMMANDS_PER_TYPE);
      if (b : bool) then register_outer p (S type) l else mret false
  end.

Definition PVRSRVRegisterCmdProcListKM (ui32DevIndex : Z) (l : list (Z * (Z * Z))) : Q Z :=
  let ui32CmdCount := Z.of_nat (length l) in
  if SYS_DEVICE_COUNT <=? ui32DevIndex then mret PVRSRV_ERROR_INVALID_PARAMS else
  p ← OSAllocMem (fun s p => bool_decide (is_Some (dev_data s !! p)));
  if p =? 0 then
    PVRSRVRemoveCmdProcListKM ui32DevIndex ui32CmdCount;;
    mret PVRSRV_ERROR_OUT_OF_MEMORY
  else
  modify (fun s => set_dev_data (<[p := replicate (length l) new_device_command]> (dev_data s)) s);;
  modify (fun s => set_apsDeviceCommandData (<[Z.to_nat ui32DevIndex := p]> (apsDeviceCommandData s)) s);;
  done ← register_outer p 0 l;
  if (done : bool) then mret PVRSRV_OK else
  PVRSRVRemoveCmdProcListKM ui32DevIndex ui32CmdCount;;
  mret PVRSRV_ERROR_OUT_OF_MEMORY.

(** ** What the proc file shows *)

(** [None] is the start token. *)
Fixpoint element_loop (fuel : nat) (off psQueue : Z) : Q Z :=
  if (off - 1 <=? 0) || (psQueue =? 0) then mret psQueue else
  match fuel with
  | O => st_fault OutOfFuel
  | S fuel => q ← queue psQueue; element_loop fuel (off - 1) (psNextKM q)
  end.

Definition ProcSeqOff2ElementQueue (off : Z) : Q (option Z) :=
  if off =? 0 then mret None else
  psQueue ← gets psQueueList;
  fuel ← gets (fun s => size (queues s));
  p ← element_loop fuel off psQueue;
  mret (Some p).

(** The commands of a queue, as they are printed. *)
Fixpoint show_loop (fuel : nat) (q : PVRSRV_QUEUE_INFO) (ui32ReadOffset : Z) : Q (list PVRSRV_COMMAND) :=
  if ui32ReadOffset =? ui32WriteOffset q then mret [] else
  match fuel with
  | O => st_fault OutOfFuel
  | S fuel =>
      psCmd ← load_command (pvLinQueueKM q) ui32ReadOffset;
      for_each (count_to (ui32SrcSyncCount psCmd)) (fun i =>
        o ← load_sync (pvLinQueueKM q) (psSrcSync psCmd + Z.of_nat i * sizeof_SYNC_OBJECT);
        sync_data (psKernelSyncInfoKM o);;
        mret tt);;
      l ← show_loop fuel q (Z.land (u32 (ui32ReadOffset + uCmdSize psCmd)) (u32 (ui32QueueSize q - 1)));
      mret (psCmd :: l)
  end.

Definition ProcSeqShowQueue (psQueue : Z) : Q (list PVRSRV_COMMAND) :=
  q ← queue psQueue;
  show_loop (Z.to_nat (ui32QueueSize q)) q (ui32ReadOffset q).
End Queue.
