(* ===== verification/PvrQueueRing.v ===== *)
(** * The ring buffer of a command queue

    Offsets of a ring whose size is a power of two, what writing to a buffer
    leaves alone, and the layout of the commands between the read and the write
    offset: [laid].  A command that starts below the end of the ring may reach
    into the space behind it, which the buffer has room for; the next one starts
    at the offset wrapped around. *)

From stdpp Require Import base list numbers option gmap.
From Stdlib Require Import ZArith Lia.
From S2P Require Import Prelude PvrHash Stateful PvrQueue.
From stdpp Require Import list.

Local Open Scope Z_scope.

(** ** Offsets *)

Definition ring_size (n : Z) : Prop := exists k, 0 <= k <= 31 /\ n = 2 ^ k.

Lemma ring_size_range n : ring_size n -> 1 <= n <= 2 ^ 31.
Proof.
  intros (k & Hk & ->). split; [|by apply Z.pow_le_mono_r; lia].
  change 1 with (2 ^ 0). apply Z.pow_le_mono_r; lia.
Qed.

Lemma ring_mask n x : ring_size n -> Z.land x (u32 (n - 1)) = x mod n.
Proof.
  intros Hn. pose proof (ring_size_range n Hn). rewrite (wrapU_small 32) by lia. destruct Hn as (k & Hk & ->).
  rewrite <- Z.land_ones by lia. f_equal. rewrite Z.ones_equiv. lia.
Qed.

Lemma wrap_mod n x : ring_size n -> (u32 x) mod n = x mod n.
Proof.
  intros (k & Hk & ->). unfold wrapU. replace (2 ^ 32) with (2 ^ k * 2 ^ (32 - k)).
  - rewrite Z.rem_mul_r by (try apply Z.pow_nonzero; try apply Z.pow_pos_nonneg; lia).
    rewrite (Z.mul_comm (2 ^ k)), Z.mod_add by (apply Z.pow_nonzero; lia). by apply Z.mod_mod, Z.pow_nonzero; lia.
  - rewrite <- Z.pow_add_r by lia. f_equal. lia.
Qed.

(** The position [x] after the offset [a]. *)
Definition ahead (n a x : Z) : Z := (a + x) mod n.

Lemma ahead_ahead n a x y : 0 < n -> ahead n (ahead n a x) y = ahead n a (x + y).
Proof. intros Hn. unfold ahead. rewrite Z.add_mod_idemp_l by lia. f_equal. lia. Qed.

Lemma ahead_range n a x : 0 < n -> 0 <= ahead n a x < n.
Proof. intros Hn. by apply Z.mod_pos_bound. Qed.

Lemma ahead_0 n a : 0 <= a < n -> ahead n a 0 = a.
Proof. intros Ha. unfold ahead. rewrite Z.add_0_r. by apply Z.mod_small. Qed.

Lemma ahead_same n a x : 0 <= a < n -> 0 <= x < n -> ahead n a x = a -> x = 0.
Proof.
  unfold ahead. intros Ha Hx E. destruct (Z_lt_dec (a + x) n) as [?|?].
  - rewrite Z.mod_small in E by lia. lia.
  - rewrite <- (Z.mod_add _ (-1) n) in E by lia. rewrite Z.mod_small in E by lia. lia.
Qed.

Lemma UPDATE_QUEUE_WOFF_eq q x :
  ring_size (ui32QueueSize q) ->
  UPDATE_QUEUE_WOFF x q = set_ui32WriteOffset (ahead (ui32QueueSize q) (ui32WriteOffset q) x) q.
Proof. intros Hn. unfold UPDATE_QUEUE_WOFF. by rewrite ring_mask, wrap_mod. Qed.

Lemma UPDATE_QUEUE_ROFF_eq q x :
  ring_size (ui32QueueSize q) ->
  UPDATE_QUEUE_ROFF x q = set_ui32ReadOffset (ahead (ui32QueueSize q) (ui32ReadOffset q) x) q.
Proof. intros Hn. unfold UPDATE_QUEUE_ROFF. by rewrite ring_mask, wrap_mod. Qed.

(** What is left when [used] bytes lie between the offsets. *)
Lemma GET_SPACE_eq q used :
  ring_size (ui32QueueSize q) -> 0 <= ui32ReadOffset q < ui32QueueSize q -> 0 <= used < ui32QueueSize q ->
  ui32WriteOffset q = ahead (ui32QueueSize q) (ui32ReadOffset q) used ->
  GET_SPACE_IN_CMDQ q = ui32QueueSize q - 1 - used.
Proof.
  intros Hn Hr Hu Hw. pose proof (ring_size_range _ Hn) as Hr'. unfold GET_SPACE_IN_CMDQ.
  rewrite ring_mask, wrap_mod by done. rewrite <- Z.add_mod_idemp_l, <- (Z.add_mod_idemp_r _ (u32 (ui32QueueSize q - 1))) by lia.
  rewrite !wrap_mod by done. rewrite Hw. unfold ahead.
  rewrite Zminus_mod_idemp_r, Z.add_mod_idemp_l, Z.add_mod_idemp_r by lia.
  replace (ui32ReadOffset q - (ui32ReadOffset q + used) + (ui32QueueSize q - 1))
    with (ui32QueueSize q - 1 - used) by lia.
  apply Z.mod_small. lia.
Qed.

(** Two stretches of one turn of the ring do not meet in the buffer, although the
    first may reach behind the end of the ring. *)
Lemma stretches_apart n a x len y len' :
  0 < n -> 0 <= a < n -> 0 <= x -> 0 <= len -> x + len <= y -> 0 <= len' -> y + len' <= x + n ->
  ahead n a x + len <= ahead n a y \/ ahead n a y + len' <= ahead n a x.
Proof.
  intros Hn Ha Hx Hl Hxy Hl' Hy. unfold ahead.
  rewrite (Z.mod_eq (a + x)), (Z.mod_eq (a + y)) by lia.
  set (k := (a + x) / n). set (k' := (a + y) / n).
  assert (n * k <= a + x < n * k + n).
  { pose proof (Z.mul_div_le (a + x) n Hn). pose proof (Z.mod_pos_bound (a + x) n Hn).
    pose proof (Z.div_mod (a + x) n ltac:(lia)). subst k. lia. }
  assert (n * k' <= a + y < n * k' + n).
  { pose proof (Z.mod_pos_bound (a + y) n Hn). pose proof (Z.div_mod (a + y) n ltac:(lia)). subst k'. lia. }
  assert (k <= k' <= k + 1) as Hk by nia. assert (k' = k \/ k' = k + 1) as [->| ->] by lia; lia.
Qed.

(** ** Cells *)

Lemma cell_size_pos c : 0 < cell_size c.
Proof. by destruct c. Qed.

(** Nothing but [[lo, hi)] was written. *)
Definition rewritten (lo hi : Z) (b b' : buffer) : Prop :=
  b_size b' = b_size b /\
  forall o d, b_cells b !! o = Some d -> o + cell_size d <= lo \/ hi <= o -> b_cells b' !! o = Some d.

Lemma rewritten_trans lo hi b1 b2 b3 : rewritten lo hi b1 b2 -> rewritten lo hi b2 b3 -> rewritten lo hi b1 b3.
Proof. intros [E1 K1] [E2 K2]. split; [congruence|]. auto. Qed.

Lemma rewritten_within lo hi lo' hi' b b' : rewritten lo hi b b' -> lo' <= lo -> hi <= hi' -> rewritten lo' hi' b b'.
Proof. intros [E K] ? ?. split; [done|]. intros o d Ho Hd. apply K; [done|]. pose proof (cell_size_pos d). lia. Qed.

Lemma store_rewritten b a c : rewritten a (a + cell_size c) b (store_cell a c b).
Proof.
  split; [done|]. intros o d Ho Hd. unfold store_cell. cbn [b_cells]. pose proof (cell_size_pos c). pose proof (cell_size_pos d).
  rewrite lookup_insert_ne by (intros ->; lia). by apply map_lookup_filter_Some.
Qed.

Lemma store_here b a c : b_cells (store_cell a c b) !! a = Some c.
Proof. apply lookup_insert_eq. Qed.

(** ** Commands in the buffer *)

Record xcmd := mk_x { x_cmd : PVRSRV_COMMAND; x_dst : list PVRSRV_SYNC_OBJECT; x_src : list PVRSRV_SYNC_OBJECT }.

Definition x_size (x : xcmd) : Z := uCmdSize (x_cmd x).
Definition x_id (x : xcmd) : nat := c_id (x_cmd x).

(** The objects [l] are at [o] and after. *)
Definition objects_at (b : buffer) (o : Z) (l : list PVRSRV_SYNC_OBJECT) : Prop :=
  forall i y, l !! i = Some y -> b_cells b !! (o + Z.of_nat i * sizeof_SYNC_OBJECT) = Some (Sync y).

Record command_at (b : buffer) (o : Z) (x : xcmd) : Prop := mk_command_at {
  ca_cmd : b_cells b !! o = Some (Cmd (x_cmd x));
  ca_dst : objects_at b (psDstSync (x_cmd x)) (x_dst x);
  ca_src : objects_at b (psSrcSync (x_cmd x)) (x_src x);
  ca_dst_at : psDstSync (x_cmd x) = o + sizeof_COMMAND;
  ca_src_at : psSrcSync (x_cmd x) = o + sizeof_COMMAND + Z.of_nat (length (x_dst x)) * sizeof_SYNC_OBJECT;
  ca_dst_count : ui32DstSyncCount (x_cmd x) = Z.of_nat (length (x_dst x));
  ca_src_count : ui32SrcSyncCount (x_cmd x) = Z.of_nat (length (x_src x));
  ca_size : sizeof_COMMAND + Z.of_nat (length (x_dst x) + length (x_src x)) * sizeof_SYNC_OBJECT <= x_size x <= PVRSRV_MAX_CMD_SIZE }.

Lemma x_size_pos b o x : command_at b o x -> 48 <= x_size x <= 1024.
Proof. intros C. pose proof (ca_size _ _ _ C). unfold sizeof_COMMAND, sizeof_SYNC_OBJECT, PVRSRV_MAX_CMD_SIZE in *. lia. Qed.

Lemma objects_rewritten lo hi b b' o l :
  rewritten lo hi b b' -> objects_at b o l -> o + Z.of_nat (length l) * sizeof_SYNC_OBJECT <= lo \/ hi <= o -> objects_at b' o l.
Proof.
  unfold sizeof_SYNC_OBJECT. intros [_ K] Hl Ho i y Hi. apply K; [by apply Hl|]. apply lookup_lt_Some in Hi.
  simpl. unfold sizeof_SYNC_OBJECT. lia.
Qed.

(** What lies in the stretch of a command stays when other stretches are written. *)
Lemma command_rewritten lo hi b b' o x :
  rewritten lo hi b b' -> command_at b o x -> o + x_size x <= lo \/ hi <= o -> command_at b' o x.
Proof.
  intros R C Ha. pose proof (ca_size _ _ _ C) as Hs. unfold sizeof_COMMAND, sizeof_SYNC_OBJECT, PVRSRV_MAX_CMD_SIZE in Hs.
  destruct C as [C1 C2 C3 C4 C5 C6 C7 C8]. split; try done.
  - apply (proj2 R); [done|]. simpl. unfold sizeof_COMMAND. lia.
  - eapply objects_rewritten; [done..|]. rewrite C4. unfold sizeof_COMMAND, sizeof_SYNC_OBJECT. lia.
  - eapply objects_rewritten; [done..|]. rewrite C5. unfold sizeof_COMMAND, sizeof_SYNC_OBJECT. lia.
Qed.

(** ** The layout of the ring *)

Definition extent (cs : list xcmd) : Z := foldr (fun x n => x_size x + n) 0 cs.

Lemma extent_app cs cs' : extent (cs ++ cs') = extent cs + extent cs'.
Proof. induction cs as [|x cs IH]; simpl; lia. Qed.

(** The commands [cs] follow one another from position [t] after [ro] on. *)
Fixpoint laid (b : buffer) (n ro t : Z) (cs : list xcmd) : Prop :=
  match cs with
  | [] => True
  | x :: cs => command_at b (ahead n ro t) x /\ laid b n ro (t + x_size x) cs
  end.

Lemma laid_extent b n ro t cs : laid b n ro t cs -> 0 <= extent cs.
Proof.
  revert t. induction cs as [|x cs IH]; intros t; simpl; [lia|]. intros [C Hl].
  pose proof (x_size_pos _ _ _ C). pose proof (IH _ Hl). lia.
Qed.

Lemma laid_app b n ro t cs cs' : laid b n ro t (cs ++ cs') <-> laid b n ro t cs /\ laid b n ro (t + extent cs) cs'.
Proof.
  revert t. induction cs as [|x cs IH]; intros t; simpl.
  - rewrite Z.add_0_r. naive_solver.
  - rewrite IH. replace (t + (x_size x + extent cs)) with (t + x_size x + extent cs) by lia. naive_solver.
Qed.

(** Writing behind the last command. *)
Lemma laid_rewritten b b' n ro t cs y hi :
  0 < n -> 0 <= ro < n -> 0 <= t -> laid b n ro t cs -> t + extent cs <= y ->
  rewritten (ahead n ro y) hi b b' -> ahead n ro y <= hi -> hi <= ahead n ro y + (t + n - y) ->
  laid b' n ro t cs.
Proof.
  intros Hn Hro. revert t. induction cs as [|x cs IH]; intros t Ht; [done|]. simpl. intros [C Hl] Hy R Hh1 Hh2.
  pose proof (x_size_pos _ _ _ C). pose proof (laid_extent _ _ _ _ _ Hl). split.
  - apply (command_rewritten _ _ _ _ _ _ R C).
    destruct (stretches_apart n ro t (x_size x) y (t + n - y)) as [?|?]; try lia.
  - apply IH; [lia|done|lia|done|done|lia].
Qed.

(** The ring seen from behind its first command. *)
Lemma laid_shift b n ro t u cs : 0 < n -> laid b n ro (t + u) cs <-> laid b n (ahead n ro t) u cs.
Proof.
  intros Hn. revert u. induction cs as [|x cs IH]; intros u; simpl; [done|].
  rewrite ahead_ahead by done. replace (t + u + x_size x) with (t + (u + x_size x)) by lia. by rewrite IH.
Qed.
