(* ===== verification/PvrQueueHistory.v ===== *)
(** * The order of the commands of the queues

    What the counters of the synchronisation objects mean in terms of the
    commands inserted so far ([history]): how many of them write or read an
    object, and how many of these are complete.  [ordered] is the property that
    the counters are for: a command that a device got was preceded by the
    completion of every earlier command it conflicts with.  No machine state
    appears here. *)

From stdpp Require Import base list numbers option gmap.
From Stdlib Require Import ZArith Lia.
From S2P Require Import Prelude PvrHash Stateful PvrQueue.
From stdpp Require Import list.

Local Open Scope Z_scope.

(** ** Counting *)

Definition count (P : past -> Prop) {dec : forall h, Decision (P h)} (H : list past) : Z := Z.of_nat (length (filter P H)).

Section Count.
Context (P : past -> Prop) {dec : forall h, Decision (P h)}.

Definition one (h : past) : Z := if decide (P h) then 1 else 0.

Lemma count_nil : count P [] = 0.
Proof. done. Qed.

Lemma count_cons h H : count P (h :: H) = one h + count P H.
Proof. unfold count, one. rewrite filter_cons. case_decide; simpl; lia. Qed.

Lemma count_app H H' : count P (H ++ H') = count P H + count P H'.
Proof. unfold count. rewrite filter_app, length_app. lia. Qed.

Lemma count_nonneg H : 0 <= count P H.
Proof. unfold count. lia. Qed.

Lemma count_le_length H : count P H <= Z.of_nat (length H).
Proof. unfold count. pose proof (length_filter P H). lia. Qed.

Lemma count_none H : (forall h, h ∈ H -> ~ P h) -> count P H = 0.
Proof.
  intros Hn. induction H as [|h H IH]; [done|]. rewrite count_cons, IH by set_solver.
  unfold one. rewrite decide_False; [done|]. set_solver.
Qed.

Lemma count_middle H i h : H !! i = Some h -> count P H = count P (take i H) + one h + count P (drop (S i) H).
Proof. intros Hi. rewrite <- (take_drop_middle H i h Hi) at 1. rewrite count_app, count_cons. lia. Qed.

Lemma count_alter f H i h : H !! i = Some h -> count P (alter f i H) = count P H - one h + one (f h).
Proof.
  revert i. induction H as [|x H IH]; intros i; [done|]. destruct i as [|i]; simpl; intros Hi.
  - injection Hi as ->. rewrite !count_cons. lia.
  - unfold alter in *. rewrite (count_cons x (list_alter f i H)), IH, (count_cons x H) by done. lia.
Qed.

(** Nothing counts from position [i] on. *)
Lemma count_take H i :
  (forall j h, (i <= j)%nat -> H !! j = Some h -> ~ P h) -> count P H = count P (take i H).
Proof.
  intros Hn. rewrite <- (take_drop i H) at 1. rewrite count_app, (count_none (drop i H)); [lia|].
  intros h [j Hj]%list_elem_of_lookup. rewrite lookup_drop in Hj. eapply Hn; [|done]. lia.
Qed.
End Count.

Lemma count_mono (P P' : past -> Prop) {dec : forall h, Decision (P h)} {dec' : forall h, Decision (P' h)} H :
  (forall h, h ∈ H -> P h -> P' h) -> count P H <= count P' H.
Proof.
  intros HP. induction H as [|h H IH]; [done|]. rewrite !count_cons.
  assert (count P H <= count P' H) by (apply IH; set_solver). unfold one.
  pose proof (HP h ltac:(set_solver)). repeat case_decide; try lia. naive_solver.
Qed.

Lemma count_iff (P P' : past -> Prop) {dec : forall h, Decision (P h)} {dec' : forall h, Decision (P' h)} H :
  (forall h, h ∈ H -> P h <-> P' h) -> count P H = count P' H.
Proof. intros HP. apply Z.le_antisymm; apply count_mono; intros; by apply HP. Qed.

(** When as many have [Q] too, all do. *)
Lemma count_all (P P' : past -> Prop) {dec : forall h, Decision (P h)} {dec' : forall h, Decision (P' h)} H :
  (forall h, P' h -> P h) -> count P H <= count P' H -> forall h, h ∈ H -> P h -> P' h.
Proof.
  intros HP Hc h [i Hi]%list_elem_of_lookup Hh. rewrite (count_middle P H i h Hi), (count_middle P' H i h Hi) in Hc.
  pose proof (count_mono P' P (take i H) ltac:(auto)). pose proof (count_mono P' P (drop (S i) H) ltac:(auto)).
  unfold one in Hc. rewrite (decide_True _ _ Hh) in Hc. case_decide; [done|lia].
Qed.

(** ** The counters *)

Definition completed (h : past) : Prop := p_progress h = Completed.
Definition dispatched (h : past) : Prop := p_progress h = InFlight \/ p_progress h = Completed.
Definition writes (s : Z) (h : past) : Prop := s ∈ p_dst h.
Definition reads (s : Z) (h : past) : Prop := s ∈ p_src h.

#[export] Instance completed_dec h : Decision (completed h).
Proof. unfold completed. apply _. Defined.
#[export] Instance dispatched_dec h : Decision (dispatched h).
Proof. unfold dispatched. apply _. Defined.
#[export] Instance writes_dec s h : Decision (writes s h).
Proof. unfold writes. apply _. Defined.
#[export] Instance reads_dec s h : Decision (reads s h).
Proof. unfold reads. apply _. Defined.

Definition writers (H : list past) (s : Z) : Z := count (writes s) H.
Definition readers (H : list past) (s : Z) : Z := count (reads s) H.
Definition writers_done (H : list past) (s : Z) : Z := count (fun h => writes s h /\ completed h) H.
Definition readers_done (H : list past) (s : Z) : Z := count (fun h => reads s h /\ completed h) H.

(** The commands that refer to an object and are not complete. *)
Definition live_uses (H : list past) (s : Z) : Z :=
  count (fun h => (writes s h \/ reads s h) /\ ~ completed h) H.

(** ** The order *)

Section Order.
Context `{NUM : CommandsPerType}.

(** Writes conflict with everything; with one command per type and device, so do
    reads with one another. *)
Definition conflict (h h' : past) : Prop := exists s,
  (writes s h /\ (writes s h' \/ reads s h')) \/
  (reads s h /\ (writes s h' \/ (DC_NUM_COMMANDS_PER_TYPE = 1%nat /\ reads s h'))).

Definition ordered (H : list past) : Prop := forall j i h h',
  (j < i)%nat -> H !! j = Some h -> H !! i = Some h' -> conflict h h' -> dispatched h' -> completed h.

(** The commands of a queue leave it in the order they were inserted. *)
Definition fifo (H : list past) : Prop := forall j i h h',
  (j < i)%nat -> H !! j = Some h -> H !! i = Some h' -> p_queue h = p_queue h' -> dispatched h' -> dispatched h.

(** Only the progress of a command differs. *)
Definition same_command (h h' : past) : Prop :=
  p_queue h = p_queue h' /\ p_dst h = p_dst h' /\ p_src h = p_src h'.

Lemma conflict_same h1 h1' h2 h2' : same_command h1 h1' -> same_command h2 h2' -> conflict h1 h2 -> conflict h1' h2'.
Proof. unfold conflict, writes, reads. intros (_ & -> & ->) (_ & -> & ->). done. Qed.

(** A change of one entry that dispatches nothing and keeps what is complete. *)
Lemma ordered_alter f H i h :
  ordered H -> H !! i = Some h -> same_command h (f h) -> (dispatched (f h) -> dispatched h) ->
  (completed h -> completed (f h)) -> ordered (alter f i H).
Proof.
  intros Ho Hi Hs Hd Hc j k a b Hjk.
  assert (forall k x, alter f i H !! k = Some x -> exists y, H !! k = Some y /\ same_command y x /\
    (dispatched x -> dispatched y) /\ (completed y -> completed x)) as Hb.
  { intros k' x. destruct (decide (i = k')) as [<-|Hne].
    - rewrite list_lookup_alter_eq, Hi. intros [= <-]. eauto.
    - rewrite list_lookup_alter_ne by done. intros Hx. exists x. split; [done|]. split; [done|]. done. }
  intros (a' & Ha & Sa & _ & Ca)%Hb (b' & Hb' & Sb & Db & _)%Hb Hcf Hdb. apply Ca.
  apply (Ho j k a' b'); [done..| |auto]. eapply conflict_same; [| |exact Hcf].
  - destruct Sa as (? & ? & ?). by repeat split.
  - destruct Sb as (? & ? & ?). by repeat split.
Qed.

Lemma ordered_snoc H h : ordered H -> ~ dispatched h -> ordered (H ++ [h]).
Proof.
  intros Ho Hn j i a b Hji Ha Hb Hc Hd.
  apply lookup_app_Some in Hb as [Hb|[Hl Hb]].
  - rewrite lookup_app_l in Ha by (apply lookup_lt_Some in Hb; lia). by apply (Ho j i a b).
  - apply list_lookup_singleton_Some in Hb as [_ <-]. done.
Qed.

(** What the counters of an object say about command [i] when it is taken. *)
Definition due (H : list past) (i : nat) (h : past) : Prop :=
  (forall s, writes s h -> writers (take i H) s <= writers_done H s /\ readers (take i H) s <= readers_done H s) /\
  (forall s, reads s h -> writers (take i H) s <= writers_done H s /\
     (DC_NUM_COMMANDS_PER_TYPE = 1%nat -> readers (take i H) s <= readers_done H s)).

(** No later command that conflicts is complete, so that the counts are those of
    the earlier ones. *)
Lemma done_before (P : past -> Prop) {dec : forall h, Decision (P h)} H i h :
  ordered H -> H !! i = Some h -> ~ completed h -> (forall h', P h' -> conflict h h') ->
  count (fun h => P h /\ completed h) H = count (fun h => P h /\ completed h) (take i H).
Proof.
  intros Ho Hi Hn Hc. apply count_take. intros j h' Hij Hj [HP Hcm].
  destruct (decide (i = j)) as [<-|]; [by simplify_eq|].
  apply Hn, (Ho i j h h'); [lia|done|done|by apply Hc|by right].
Qed.

Lemma all_before (P : past -> Prop) {dec : forall h, Decision (P h)} H i h :
  ordered H -> H !! i = Some h -> ~ completed h -> (forall h', P h' -> conflict h h') ->
  count P (take i H) <= count (fun h => P h /\ completed h) H ->
  forall j a, (j < i)%nat -> H !! j = Some a -> P a -> completed a.
Proof.
  intros Ho Hi Hn Hc Hle j a Hji Ha HP. rewrite (done_before P H i h) in Hle by done.
  apply (count_all P (fun h => P h /\ completed h) (take i H)); [by intros ? []|done| |done].
  apply list_elem_of_lookup. exists j. by rewrite lookup_take_lt.
Qed.

Lemma ordered_dispatch H i h :
  ordered H -> H !! i = Some h -> ~ completed h -> due H i h -> ordered (alter (set_p_progress InFlight) i H).
Proof.
  intros Ho Hi Hn [Hw Hr] j k a b Hjk Ha Hb Hc Hd.
  assert (H !! j = Some a \/ (j = i /\ a = set_p_progress InFlight h)) as Ha'.
  { destruct (decide (i = j)) as [<-|]; [|left; by rewrite list_lookup_alter_ne in Ha].
    rewrite list_lookup_alter_eq, Hi in Ha. right. by injection Ha as <-. }
  destruct (decide (i = k)) as [<-|Hne].
  - rewrite list_lookup_alter_eq, Hi in Hb. injection Hb as <-. destruct Ha' as [Ha'|[-> _]]; [|lia].
    destruct Hc as (s & [[Hwa [Hwh|Hrh]]|[Hra [Hwh|[H1 Hrh]]]]).
    + destruct (Hw s Hwh) as [Hle _]. by eapply (all_before (writes s) H i h Ho Hi Hn); [|exact Hle|..]; [exists s; left; auto|..].
    + destruct (Hr s Hrh) as [Hle _]. by eapply (all_before (writes s) H i h Ho Hi Hn); [|exact Hle|..]; [exists s; right; auto|..].
    + destruct (Hw s Hwh) as [_ Hle]. by eapply (all_before (reads s) H i h Ho Hi Hn); [|exact Hle|..]; [exists s; left; auto|..].
    + destruct (Hr s Hrh) as [_ Hle]. by eapply (all_before (reads s) H i h Ho Hi Hn); [|exact (Hle H1)|..]; [exists s; right; auto|..].
  - rewrite list_lookup_alter_ne in Hb by done. destruct Ha' as [Ha'|[-> ->]]; [by apply (Ho j k a b)|].
    exfalso. apply Hn. by apply (Ho i k h b).
Qed.
End Order.

(** ** The commands of a queue *)

Definition waits (x : progress) (p : Z) (H : list past) (i : nat) : Prop :=
  exists h, H !! i = Some h /\ p_queue h = p /\ p_progress h = x.

#[export] Instance waits_dec x p H i : Decision (waits x p H i).
Proof.
  destruct (H !! i) as [h|] eqn:E; [|right; intros (? & ? & _); congruence].
  destruct (decide (p_queue h = p /\ p_progress h = x)) as [Hd|Hd]; [left; by exists h|].
  right. intros (h' & E' & Hh). rewrite E in E'. injection E' as ->. done.
Defined.

(** The commands of queue [p] that are [Queued], or [Prepared], oldest first. *)
Definition ids (x : progress) (H : list past) (p : Z) : list nat := filter (waits x p H) (seq 0 (length H)).

Lemma elem_of_ids x H p i : i ∈ ids x H p <-> waits x p H i.
Proof.
  unfold ids. rewrite list_elem_of_filter, elem_of_seq. split; [by intros []|]. intros Hw. split; [done|].
  destruct Hw as (h & Hi & _). apply lookup_lt_Some in Hi. lia.
Qed.

(** The list is increasing. *)
Lemma filter_seq_head (P : nat -> Prop) {dec : forall i, Decision (P i)} a n i l :
  filter P (seq a n) = i :: l -> forall j, (a <= j < i)%nat -> ~ P j.
Proof.
  revert a. induction n as [|n IH]; intros a; simpl; [done|]. rewrite filter_cons. case_decide as Ha.
  - intros [= <- _] j Hj. lia.
  - intros Hf j Hj. destruct (decide (j = a)) as [->|]; [done|]. apply (IH (S a)); [done|lia].
Qed.

Lemma filter_same (P P' : nat -> Prop) {dec : forall i, Decision (P i)} {dec' : forall i, Decision (P' i)} (l : list nat) :
  (forall j, j ∈ l -> P j <-> P' j) -> filter P l = filter P' l.
Proof.
  induction l as [|i l IH]; intros HP; [done|]. rewrite !filter_cons, IH by set_solver.
  pose proof (HP i ltac:(set_solver)). do 2 case_decide; tauto.
Qed.

Lemma ids_head x H p i l j : ids x H p = i :: l -> (j < i)%nat -> ~ waits x p H j.
Proof. intros E Hj. apply (filter_seq_head _ _ _ _ _ E). lia. Qed.

Lemma filter_seq_drop (P P' : nat -> Prop) {dec : forall i, Decision (P i)} {dec' : forall i, Decision (P' i)} a n i l :
  filter P (seq a n) = i :: l -> ~ P' i -> (forall j, j <> i -> P' j <-> P j) -> filter P' (seq a n) = l.
Proof.
  intros Hf Hi Hj. revert a Hf. induction n as [|n IH]; intros a; simpl; [done|]. rewrite !filter_cons.
  destruct (decide (a = i)) as [->|Hne].
  - rewrite (decide_False (P := P' i)) by done. case_decide; intros E.
    + injection E as <-. apply filter_same. intros j Hin%elem_of_seq. rewrite Hj; [tauto|lia].
    + exfalso. assert (i ∈ filter P (seq (S i) n)) as Hin by (rewrite E; set_solver).
      apply list_elem_of_filter in Hin as [_ Hin%elem_of_seq]. lia.
  - case_decide as Ha; intros E; [by injection E as ->|]. rewrite decide_False by (rewrite Hj; done). by apply IH.
Qed.

Lemma filter_seq_last (P P' : nat -> Prop) {dec : forall i, Decision (P i)} {dec' : forall i, Decision (P' i)} a n i :
  (a <= i < a + n)%nat -> P' i -> (forall j, (i <= j)%nat -> ~ P j) -> (forall j, j <> i -> P' j <-> P j) ->
  filter P' (seq a n) = filter P (seq a n) ++ [i].
Proof.
  intros Hi HP Hn Hj. revert a Hi. induction n as [|n IH]; intros a Hi; [lia|]. simpl. rewrite !filter_cons.
  destruct (decide (a = i)) as [->|Hne].
  - rewrite decide_True, decide_False by auto. rewrite (filter_same P' P).
    + assert (filter P (seq (S i) n) = []) as ->; [|done]. apply elem_of_nil_inv.
      intros j [HPj Hin%elem_of_seq]%list_elem_of_filter. by apply (Hn j); [lia|].
    + intros j Hin%elem_of_seq. rewrite Hj; [tauto|lia].
  - rewrite (IH (S a)) by lia. case_decide as H1; case_decide as H2; try done; exfalso; naive_solver.
Qed.

Lemma ids_same x p H H' :
  length H' = length H -> (forall j, waits x p H' j <-> waits x p H j) -> ids x H' p = ids x H p.
Proof. intros E Hj. unfold ids. rewrite E. apply filter_same. intros j _. apply Hj. Qed.

Lemma waits_alter_ne x y p H i j : j <> i -> waits x p (alter (set_p_progress y) i H) j <-> waits x p H j.
Proof. intros Hne. unfold waits. by rewrite list_lookup_alter_ne. Qed.

Lemma waits_alter x y p H i h :
  H !! i = Some h -> waits x p (alter (set_p_progress y) i H) i <-> p_queue h = p /\ y = x.
Proof.
  intros Hi. unfold waits. rewrite list_lookup_alter_eq, Hi. simpl. split.
  - intros (? & [= <-] & ? & ?). done.
  - intros [? ?]. by exists (set_p_progress y h).
Qed.

(** The head of a queue is dispatched. *)
Lemma ids_dispatch H p i l : ids Queued H p = i :: l -> ids Queued (alter (set_p_progress InFlight) i H) p = l.
Proof.
  intros E. assert (waits Queued p H i) as (h & Hi & _) by (apply elem_of_ids; rewrite E; set_solver).
  unfold ids. rewrite length_alter. eapply filter_seq_drop; [exact E| |].
  - rewrite (waits_alter _ _ _ _ _ h Hi). by intros [_ ?].
  - intros j Hj. by apply waits_alter_ne.
Qed.

Lemma ids_alter_other x y p H i h :
  H !! i = Some h -> p_queue h <> p \/ (p_progress h <> x /\ y <> x) -> ids x (alter (set_p_progress y) i H) p = ids x H p.
Proof.
  intros Hi Hp. apply ids_same; [apply length_alter|]. intros j. destruct (decide (j = i)) as [->|Hne].
  - rewrite (waits_alter _ _ _ _ _ h Hi). split.
    + intros [? ?]. naive_solver.
    + intros (h' & Hi' & ? & ?). rewrite Hi in Hi'. injection Hi' as <-. naive_solver.
  - by apply waits_alter_ne.
Qed.

Lemma waits_snoc x p H h j :
  waits x p (H ++ [h]) j <-> waits x p H j \/ (j = length H /\ p_queue h = p /\ p_progress h = x).
Proof.
  unfold waits. split.
  - intros (h' & [Hj|[Hl Hj]]%lookup_app_Some & Hh); [left; by exists h'|].
    apply list_lookup_singleton_Some in Hj as [Hj ->]. right. split; [lia|done].
  - intros [(h' & Hj & Hh)|(-> & Hh)]; [exists h'; split; [by apply lookup_app_l_Some|done]|].
    exists h. by rewrite lookup_app_r, Nat.sub_diag.
Qed.

Lemma ids_snoc x p H h :
  ids x (H ++ [h]) p = ids x H p ++ (if decide (p_queue h = p /\ p_progress h = x) then [length H] else []).
Proof.
  unfold ids. rewrite length_app, seq_app, filter_app. f_equal.
  - apply filter_same. intros j Hj%elem_of_seq. rewrite waits_snoc. split; [intros [?|[? _]]; [done|lia]|by left].
  - simpl. rewrite filter_cons, filter_nil. apply decide_ext. rewrite waits_snoc.
    split; [intros [(h' & Hl%lookup_lt_Some & _)|[_ ?]]; [lia|done]|by right].
Qed.

(** A command that is not submitted is the last of its queue. *)
Definition prepared_last (H : list past) : Prop := forall j i h h',
  (j < i)%nat -> H !! j = Some h -> H !! i = Some h' -> p_queue h = p_queue h' -> p_progress h <> Prepared.

Lemma ids_submit H p i :
  prepared_last H -> waits Prepared p H i -> ids Queued (alter (set_p_progress Queued) i H) p = ids Queued H p ++ [i].
Proof.
  intros HL (h & Hi & Hp & Hx). unfold ids. rewrite length_alter. pose proof (lookup_lt_Some _ _ _ Hi).
  apply filter_seq_last; [lia|by rewrite (waits_alter _ _ _ _ _ h Hi)| |intros j Hj; by apply waits_alter_ne].
  intros j Hij (h' & Hj & Hp' & Hx'). destruct (decide (i = j)) as [<-|]; [congruence|].
  apply (HL i j h h'); [lia|done..|congruence|done].
Qed.

Lemma ids_submitted H p i l :
  ids Prepared H p = i :: l -> ids Prepared (alter (set_p_progress Queued) i H) p = l.
Proof.
  intros E. assert (waits Prepared p H i) as (h & Hi & _) by (apply elem_of_ids; rewrite E; set_solver).
  unfold ids. rewrite length_alter. eapply filter_seq_drop; [exact E| |].
  - rewrite (waits_alter _ _ _ _ _ h Hi). by intros [_ ?].
  - intros j Hj. by apply waits_alter_ne.
Qed.

(** ** Progress *)

(** From [H] to [H'] commands were completed and nothing else. *)
Definition step (h h' : past) : Prop :=
  same_command h h' /\ (p_progress h' = Queued <-> p_progress h = Queued) /\
  (p_progress h' = Prepared <-> p_progress h = Prepared) /\ (completed h -> completed h').

Definition moved : list past -> list past -> Prop := Forall2 step.

#[export] Instance moved_preorder : PreOrder moved.
Proof.
  unfold moved. assert (PreOrder step); [|apply _]. split.
  - intros h. repeat split; auto.
  - intros h1 h2 h3 ((A1 & A2 & A3) & B1 & C1 & D1) ((A1' & A2' & A3') & B2 & C2 & D2).
    split; [repeat split; congruence|]. naive_solver.
Qed.

(** The commands are the same. *)
Definition alike : list past -> list past -> Prop := Forall2 same_command.

Lemma moved_alike H H' : moved H H' -> alike H H'.
Proof. intros M. eapply Forall2_impl; [exact M|]. by intros ? ? []. Qed.

Lemma alike_alter y (H : list past) i : alike H (alter (set_p_progress y) i H).
Proof.
  apply Forall2_same_length_lookup_2; [by rewrite length_alter|]. intros j h h' Hj Hj'.
  destruct (decide (i = j)) as [<-|Hne].
  - rewrite list_lookup_alter_eq, Hj in Hj'. injection Hj' as <-. done.
  - rewrite list_lookup_alter_ne in Hj' by done. by simplify_eq.
Qed.

Lemma alike_count_take P {dec : forall h, Decision (P h)} H H' i :
  alike H H' -> (forall h h', same_command h h' -> P h <-> P h') -> count P (take i H') = count P (take i H).
Proof.
  intros A HP. unfold count. f_equal.
  assert (forall l l', Forall2 same_command l l' -> length (filter P l') = length (filter P l)) as Hl.
  { induction 1 as [|h h' l l' Hs _ IH]; [done|]. rewrite !filter_cons.
    pose proof (HP h h' Hs). do 2 case_decide; simpl; naive_solver. }
  apply Hl. by apply Forall2_take.
Qed.

Lemma moved_alter f H i h : H !! i = Some h -> step h (f h) -> moved H (alter f i H).
Proof.
  intros Hi Hs. apply Forall2_same_length_lookup_2; [by rewrite length_alter|].
  intros j x y Hx Hy. destruct (decide (i = j)) as [<-|Hne].
  - rewrite list_lookup_alter_eq, Hx in Hy. injection Hy as <-. by simplify_eq.
  - rewrite list_lookup_alter_ne in Hy by done. simplify_eq. apply (reflexivity (R := step) x) || by repeat split.
Qed.

Section Moved.
Context {H H' : list past} (M : moved H H').

Lemma moved_length : length H' = length H.
Proof. symmetry. apply (Forall2_length _ _ _ M). Qed.

Lemma moved_lookup i h : H !! i = Some h -> exists h', H' !! i = Some h' /\ step h h'.
Proof. intros Hi. destruct (Forall2_lookup_l _ _ _ _ _ M Hi) as (h' & ? & ?). eauto. Qed.

Lemma moved_lookup_back i h' : H' !! i = Some h' -> exists h, H !! i = Some h /\ step h h'.
Proof. intros Hi. destruct (Forall2_lookup_r _ _ _ _ _ M Hi) as (h & ? & ?). eauto. Qed.

Lemma moved_waits x p i : x = Queued \/ x = Prepared -> waits x p H' i <-> waits x p H i.
Proof.
  intros Hx. split.
  - intros (h' & Hi & Hq & Hp). destruct (moved_lookup_back i h' Hi) as (h & Hh & (Es & _) & E1 & E2 & _).
    exists h. split; [done|]. split; [congruence|]. destruct Hx as [->| ->]; [by apply E1|by apply E2].
  - intros (h & Hi & Hq & Hp). destruct (moved_lookup i h Hi) as (h' & Hh & (Es & _) & E1 & E2 & _).
    exists h'. split; [done|]. split; [congruence|]. destruct Hx as [->| ->]; [by apply E1|by apply E2].
Qed.

Lemma moved_ids x p : x = Queued \/ x = Prepared -> ids x H' p = ids x H p.
Proof.
  intros Hx. unfold ids. rewrite moved_length. apply filter_same. intros i _. by rewrite moved_waits.
Qed.

Lemma step_dispatched h h' : step h h' -> dispatched h' <-> dispatched h.
Proof.
  intros (_ & E1 & E2 & _). unfold dispatched. destruct (p_progress h), (p_progress h'); naive_solver.
Qed.

Lemma moved_fifo : fifo H -> fifo H'.
Proof.
  intros F j i a' b' Hji (a & Ha & Sa)%moved_lookup_back (b & Hb & Sb)%moved_lookup_back Hq Hd.
  apply (step_dispatched _ _ Sa). apply (F j i a b); [done..| |by apply (step_dispatched _ _ Sb)].
  destruct Sa as ((? & _) & _), Sb as ((? & _) & _). congruence.
Qed.

Lemma moved_ordered `{NUM : CommandsPerType} : ordered H -> ordered H'.
Proof.
  intros O j i a' b' Hji (a & Ha & Sa)%moved_lookup_back (b & Hb & Sb)%moved_lookup_back Hc Hd.
  pose proof Sa as (Sa1 & _ & _ & Ca). apply Ca. apply (O j i a b); [done..| |by apply (step_dispatched _ _ Sb)].
  destruct Sa1 as (? & ? & ?), Sb as ((? & ? & ?) & _). eapply conflict_same; [| |exact Hc]; by repeat split.
Qed.

End Moved.


Lemma moved_prepared_last H H' : moved H H' -> prepared_last H -> prepared_last H'.
Proof.
  intros M L j i a' b' Hji Ha Hb Hq Hd.
  destruct (moved_lookup_back M j a' Ha) as (a & Ha' & ((Qa & _) & _ & Pa & _)).
  destruct (moved_lookup_back M i b' Hb) as (b & Hb' & ((Qb & _) & _)).
  apply (L j i a b); [done..|congruence|by apply Pa].
Qed.

(** What is at a position after a change of progress. *)
Lemma noted_lookup y (H : list past) (i j : nat) h' :
  alter (set_p_progress y) i H !! j = Some h' ->
  exists h, H !! j = Some h /\ same_command h h' /\ p_progress h' = (if decide (j = i) then y else p_progress h).
Proof.
  destruct (decide (j = i)) as [->|Hne].
  - rewrite list_lookup_alter_eq. destruct (H !! i) as [h|]; [|done]. intros [= <-]. exists h. by repeat split.
  - rewrite list_lookup_alter_ne by done. intros Hj. exists h'. by repeat split.
Qed.

Lemma prepared_last_alter y H i : y <> Prepared -> prepared_last H -> prepared_last (alter (set_p_progress y) i H).
Proof.
  intros Hy L j k a b Hjk (a' & Ha & (Qa & _) & Pa)%noted_lookup (b' & Hb & (Qb & _) & _)%noted_lookup Hq Hd.
  rewrite Pa in Hd. case_decide; [done|]. apply (L j k a' b'); [done..|congruence|done].
Qed.

Lemma prepared_last_snoc H h :
  prepared_last H -> (forall j, ~ waits Prepared (p_queue h) H j) -> prepared_last (H ++ [h]).
Proof.
  intros L Hn j k a b Hjk Ha Hb Hq Hd.
  apply lookup_app_Some in Hb as [Hb|[Hl Hb]].
  - rewrite lookup_app_l in Ha by (apply lookup_lt_Some in Hb; lia). by apply (L j k a b).
  - apply list_lookup_singleton_Some in Hb as [Hb ->]. rewrite lookup_app_l in Ha by lia.
    apply (Hn j). by exists a.
Qed.

Lemma fifo_snoc H h : fifo H -> ~ dispatched h -> fifo (H ++ [h]).
Proof.
  intros F Hn j k a b Hjk Ha Hb Hq Hd. apply lookup_app_Some in Hb as [Hb|[Hl Hb]].
  - rewrite lookup_app_l in Ha by (apply lookup_lt_Some in Hb; lia). by apply (F j k a b).
  - apply list_lookup_singleton_Some in Hb as [_ ->]. done.
Qed.

Lemma fifo_dispatch H p i l :
  fifo H -> prepared_last H -> ids Queued H p = i :: l -> fifo (alter (set_p_progress InFlight) i H).
Proof.
  intros F L E. assert (waits Queued p H i) as (h & Hi & Hp & Hx) by (apply elem_of_ids; rewrite E; set_solver).
  intros j k a b Hjk (a' & Ha & (Qa & _) & Pa)%noted_lookup (b' & Hb & (Qb & _) & Pb)%noted_lookup Hq Hd.
  unfold dispatched in *. rewrite Pa. destruct (decide (j = i)) as [->|Hj]; [by left|].
  destruct (decide (k = i)) as [->|Hk].
  - assert (p_progress a' <> Prepared) by (apply (L j i a' b'); [done..|congruence]).
    assert (p_progress a' <> Queued).
    { intros Hq'. apply (ids_head _ _ _ _ _ j E Hjk). exists a'. simplify_eq. split; [done|]. split; [congruence|done]. }
    destruct (p_progress a'); naive_solver.
  - apply (F j k a' b'); [done..|congruence|by rewrite Pb in Hd].
Qed.

Lemma fifo_alter y H i h :
  fifo H -> H !! i = Some h -> (dispatched (set_p_progress y h) <-> dispatched h) -> fifo (alter (set_p_progress y) i H).
Proof.
  intros F Hi Hd. assert (forall j h', alter (set_p_progress y) i H !! j = Some h' ->
    exists h, H !! j = Some h /\ p_queue h = p_queue h' /\ (dispatched h' <-> dispatched h)) as Hb.
  { intros j h' Hj. destruct (noted_lookup _ _ _ _ _ Hj) as (h0 & Hj0 & (Q0 & _) & P0). exists h0. split; [done|]. split; [done|].
    destruct (decide (j = i)) as [->|]; unfold dispatched in *; rewrite P0; [by simplify_eq|done]. }
  intros j k a b Hjk (a' & Ha & Qa & Da)%Hb (b' & Hb' & Qb & Db)%Hb Hq Hd'. apply Da.
  apply (F j k a' b'); [done..|congruence|by apply Db].
Qed.

(** ** Working off the queues *)

(** From [h] to [h'] a command was only dispatched or completed. *)
Definition advance (h h' : past) : Prop :=
  same_command h h' /\ (p_progress h' = Prepared <-> p_progress h = Prepared) /\
  (dispatched h -> dispatched h') /\ (completed h -> completed h').

Definition advanced : list past -> list past -> Prop := Forall2 advance.

#[export] Instance advanced_preorder : PreOrder advanced.
Proof.
  unfold advanced. assert (PreOrder advance); [|apply _]. split.
  - intros h. repeat split; auto.
  - intros h1 h2 h3 ((A1 & A2 & A3) & B1 & C1 & D1) ((A1' & A2' & A3') & B2 & C2 & D2).
    split; [repeat split; congruence|]. split; [by rewrite B2|]. auto.
Qed.

Lemma moved_advanced H H' : moved H H' -> advanced H H'.
Proof.
  intros M. eapply Forall2_impl; [exact M|]. intros h h' S. pose proof (step_dispatched _ _ S). destruct S as (? & ? & ? & ?).
  split; [done|]. split; [done|]. split; [tauto|done].
Qed.

Lemma advanced_dispatch (H : list past) i h :
  H !! i = Some h -> p_progress h = Queued -> advanced H (alter (set_p_progress InFlight) i H).
Proof.
  intros Hi Hp. apply Forall2_same_length_lookup_2; [by rewrite length_alter|]. intros j x y Hx Hy.
  destruct (decide (i = j)) as [<-|Hne].
  - rewrite list_lookup_alter_eq, Hx in Hy. injection Hy as <-. simplify_eq. split; [done|]. simpl. rewrite Hp.
    split; [done|]. split; [by left|]. unfold completed. by rewrite Hp.
  - rewrite list_lookup_alter_ne in Hy by done. simplify_eq. repeat split; auto.
Qed.

Lemma advanced_lookup H H' i h : advanced H H' -> H !! i = Some h -> exists h', H' !! i = Some h' /\ advance h h'.
Proof. intros A Hi. destruct (Forall2_lookup_l _ _ _ _ _ A Hi) as (h' & ? & ?). eauto. Qed.

Lemma advanced_alike H H' : advanced H H' -> alike H H'.
Proof. intros M. eapply Forall2_impl; [exact M|]. by intros ? ? []. Qed.

(** A command was dispatched. *)
Definition progressed (H H' : list past) : Prop := exists i h h',
  H !! i = Some h /\ p_progress h = Queued /\ H' !! i = Some h' /\ dispatched h'.

Lemma progressed_later H H' H'' : progressed H H' -> advanced H' H'' -> progressed H H''.
Proof.
  intros (i & h & h' & Hi & Hp & Hi' & Hd) A. destruct (advanced_lookup _ _ _ _ A Hi') as (h'' & Hi'' & _ & _ & D & _).
  exists i, h, h''. auto.
Qed.

Lemma advanced_prepared H H' p : advanced H H' -> ids Prepared H' p = ids Prepared H p.
Proof.
  intros A. apply ids_same; [symmetry; apply (Forall2_length _ _ _ A)|]. intros j. split.
  - intros (h' & Hj & Hq & Hx). destruct (Forall2_lookup_r _ _ _ _ _ A Hj) as (h & Hh & (Sq & _) & Pr & _).
    exists h. split; [done|]. split; [congruence|by apply Pr].
  - intros (h & Hj & Hq & Hx). destruct (Forall2_lookup_l _ _ _ _ _ A Hj) as (h' & Hh & (Sq & _) & Pr & _).
    exists h'. split; [done|]. split; [congruence|by apply Pr].
Qed.
