(* ===== verification/PvrQueueInv.v ===== *)
(** * Synchronisation objects and the invariant of the queues

    The counters of the synchronisation objects with the completion of commands,
    then the invariant that ties the queues to the [history]. *)

From stdpp Require Import base list numbers option gmap.
From Stdlib Require Import ZArith Lia.
From S2P Require Import Prelude PvrHash Stateful PvrQueue PvrQueueHistory PvrQueueRing.
From stdpp Require Import list.

Local Open Scope Z_scope.

(** * Synchronisation objects and the completion of commands

    [sync_ok] states what the counters of a synchronisation object are at any
    time: the operations pending and complete, and the references, are those of
    the commands of [history].  [work_ok] adds the commands that devices have:
    each is held by one cookie.  [PVRSRVCommandCompleteKM] keeps both. *)

(** ** The counters *)

Record sync_ok (H : list past) (a : Z) (d : PVRSRV_SYNC_DATA) : Prop := mk_sync_ok {
  sk_wop : ui32WriteOpsPending d = writers H a;
  sk_rop : ui32ReadOps2Pending d = readers H a;
  sk_woc : ui32WriteOpsComplete d = writers_done H a;
  sk_roc : ui32ReadOps2Complete d = readers_done H a;
  sk_ref : pvRefCount d = 1 + live_uses H a;
  sk_w : writers H a < 2 ^ 32;
  sk_r : readers H a < 2 ^ 32 }.

Lemma completed_progress y h : completed (set_p_progress y h) <-> y = Completed.
Proof. done. Qed.

Section Counts.
Context (P : past -> Prop) {dec : forall h, Decision (P h)}.
Context (static : forall h h', same_command h h' -> P h <-> P h').

Lemma static_progress y h : P (set_p_progress y h) <-> P h.
Proof. by apply static. Qed.

Lemma count_progress y (H : list past) i : count P (alter (set_p_progress y) i H) = count P H.
Proof.
  destruct (H !! i) as [h|] eqn:Hi.
  - rewrite (count_alter P _ _ _ _ Hi). unfold one. rewrite (decide_ext _ _ _ _ (static_progress y h)). lia.
  - f_equal. apply list_eq. intros j. destruct (decide (i = j)) as [<-|]; [by rewrite list_lookup_alter_eq, Hi|].
    by rewrite list_lookup_alter_ne.
Qed.

Lemma count_done y (H : list past) i h :
  H !! i = Some h -> ~ completed h ->
  count (fun h => P h /\ completed h) (alter (set_p_progress y) i H) =
  count (fun h => P h /\ completed h) H + (if decide (y = Completed) then one P h else 0).
Proof.
  intros Hi Hn. rewrite (count_alter _ _ _ _ _ Hi). unfold one at 1 2. rewrite (decide_False (P := P h /\ _)) by tauto.
  unfold one. pose proof (static_progress y h). pose proof (completed_progress y h). repeat case_decide; try lia; tauto.
Qed.

Lemma count_live y (H : list past) i h :
  H !! i = Some h -> ~ completed h ->
  count (fun h => P h /\ ~ completed h) (alter (set_p_progress y) i H) =
  count (fun h => P h /\ ~ completed h) H - (if decide (y = Completed) then one P h else 0).
Proof.
  intros Hi Hn. rewrite (count_alter _ _ _ _ _ Hi). unfold one.
  pose proof (static_progress y h). pose proof (completed_progress y h). repeat case_decide; try lia; tauto.
Qed.
End Counts.

Lemma writes_static a h h' : same_command h h' -> writes a h <-> writes a h'.
Proof. unfold writes. by intros (_ & -> & _). Qed.

Lemma reads_static a h h' : same_command h h' -> reads a h <-> reads a h'.
Proof. unfold reads. by intros (_ & _ & ->). Qed.

Lemma uses_static a h h' : same_command h h' -> writes a h \/ reads a h <-> writes a h' \/ reads a h'.
Proof. intros Hs. by rewrite (writes_static a h h'), (reads_static a h h'). Qed.

(** What completing a command does to an object. *)
Definition write_done (d : PVRSRV_SYNC_DATA) : PVRSRV_SYNC_DATA :=
  mk_sync (ui32WriteOpsPending d) (u32 (ui32WriteOpsComplete d + 1)) (ui32ReadOps2Pending d) (ui32ReadOps2Complete d)
    (pvRefCount d - 1).
Definition read_done (d : PVRSRV_SYNC_DATA) : PVRSRV_SYNC_DATA :=
  mk_sync (ui32WriteOpsPending d) (ui32WriteOpsComplete d) (ui32ReadOps2Pending d) (u32 (ui32ReadOps2Complete d + 1))
    (pvRefCount d - 1).

Lemma sync_ok_progress y H i h a d :
  H !! i = Some h -> ~ completed h -> y <> Completed -> sync_ok H a d -> sync_ok (alter (set_p_progress y) i H) a d.
Proof.
  intros Hi Hn Hy [E1 E2 E3 E4 E5 E6 E7].
  split; unfold writers, readers, writers_done, readers_done, live_uses in *.
  all: rewrite ?(count_progress _ (writes_static a)), ?(count_progress _ (reads_static a)),
    ?(count_done _ (writes_static a) y H i h Hi Hn), ?(count_done _ (reads_static a) y H i h Hi Hn),
    ?(count_live _ (uses_static a) y H i h Hi Hn), ?decide_False by done; lia.
Qed.

(** An object that a command uses is not given up by the others. *)
Lemma live_use_pos H i h a :
  H !! i = Some h -> ~ completed h -> writes a h \/ reads a h -> 1 <= live_uses H a.
Proof.
  intros Hi Hn Hu. unfold live_uses. rewrite (count_middle _ H i h Hi). unfold one. rewrite decide_True by done.
  pose proof (count_nonneg (fun h => (writes a h \/ reads a h) /\ ~ completed h) (take i H)).
  pose proof (count_nonneg (fun h => (writes a h \/ reads a h) /\ ~ completed h) (drop (S i) H)). lia.
Qed.

(** What is not complete is still to be counted. *)
Lemma done_below (P : past -> Prop) {dec : forall h, Decision (P h)} (H : list past) i h :
  H !! i = Some h -> ~ completed h -> P h -> count (fun h => P h /\ completed h) H + 1 <= count P H.
Proof.
  intros Hi Hn Hp. rewrite (count_middle _ H i h Hi), (count_middle P H i h Hi). unfold one.
  rewrite decide_False, decide_True by tauto.
  pose proof (count_mono (fun h => P h /\ completed h) P (take i H) ltac:(by intros ? ? [])).
  pose proof (count_mono (fun h => P h /\ completed h) P (drop (S i) H) ltac:(by intros ? ? [])). lia.
Qed.

Lemma sync_ok_complete H i h a d :
  H !! i = Some h -> ~ completed h -> NoDup (p_dst h ++ p_src h) -> sync_ok H a d ->
  sync_ok (alter (set_p_progress Completed) i H) a
    (if decide (a ∈ p_dst h) then write_done d else if decide (a ∈ p_src h) then read_done d else d).
Proof.
  intros Hi Hn (_ & Hnd & _)%NoDup_app [E1 E2 E3 E4 E5 E6 E7]. pose proof (live_use_pos H i h a Hi Hn).
  pose proof (done_below (writes a) H i h Hi Hn) as Bw. pose proof (done_below (reads a) H i h Hi Hn) as Br.
  split; unfold writers, readers, writers_done, readers_done, live_uses in *.
  all: rewrite ?(count_progress _ (writes_static a)), ?(count_progress _ (reads_static a)),
    ?(count_done _ (writes_static a) Completed H i h Hi Hn), ?(count_done _ (reads_static a) Completed H i h Hi Hn),
    ?(count_live _ (uses_static a) Completed H i h Hi Hn), ?(decide_True (P := Completed = Completed)) by done.
  all: unfold one, writes, reads in *; repeat case_decide; simpl; try lia; try (exfalso; naive_solver).
  all: rewrite wrapU_small; [lia|].
  - specialize (Bw ltac:(done)). unfold count in *. lia.
  - specialize (Br ltac:(done)). unfold count in *. lia.
Qed.

(** What a new command does to an object. *)
Definition write_pending (d : PVRSRV_SYNC_DATA) : PVRSRV_SYNC_DATA :=
  mk_sync (u32 (ui32WriteOpsPending d + 1)) (ui32WriteOpsComplete d) (ui32ReadOps2Pending d) (ui32ReadOps2Complete d)
    (pvRefCount d + 1).
Definition read_pending (d : PVRSRV_SYNC_DATA) : PVRSRV_SYNC_DATA :=
  mk_sync (ui32WriteOpsPending d) (ui32WriteOpsComplete d) (u32 (ui32ReadOps2Pending d + 1)) (ui32ReadOps2Complete d)
    (pvRefCount d + 1).

Lemma sync_ok_snoc H h a d :
  ~ completed h -> NoDup (p_dst h ++ p_src h) -> sync_ok H a d ->
  (a ∈ p_dst h -> ui32WriteOpsPending d + 1 < 2 ^ 32) -> (a ∈ p_src h -> ui32ReadOps2Pending d + 1 < 2 ^ 32) ->
  sync_ok (H ++ [h]) a
    (if decide (a ∈ p_dst h) then write_pending d else if decide (a ∈ p_src h) then read_pending d else d).
Proof.
  intros Hn (_ & Hnd & _)%NoDup_app [E1 E2 E3 E4 E5 E6 E7] Bw Br.
  split; unfold writers, readers, writers_done, readers_done, live_uses in *.
  all: rewrite ?count_app, ?count_cons, ?count_nil.
  all: unfold one, writes, reads in *; repeat case_decide; simpl; try lia; try (exfalso; naive_solver).
  all: try (specialize (Bw ltac:(done))); try (specialize (Br ltac:(done))); try lia.
  all: rewrite wrapU_small; unfold count in *; lia.
Qed.

(** Changing the objects of a list. *)
Definition bump (f : PVRSRV_SYNC_DATA -> PVRSRV_SYNC_DATA) (l : list Z) (m : gmap Z PVRSRV_SYNC_DATA) : gmap Z PVRSRV_SYNC_DATA :=
  foldl (fun m a => alter f a m) m l.

Lemma bump_lookup f l m a : NoDup l -> bump f l m !! a = (if decide (a ∈ l) then f <$> m !! a else m !! a).
Proof.
  revert m. induction l as [|b l IH]; intros m Hl; simpl; [done|].
  apply NoDup_cons in Hl as [Hb Hl]. rewrite IH by done. destruct (decide (a = b)) as [->|Hne].
  - rewrite decide_False, decide_True by set_solver. apply lookup_alter_eq.
  - rewrite lookup_alter_ne by done. apply decide_ext. set_solver.
Qed.

Lemma bump_two f g l l' m a :
  NoDup (l ++ l') -> bump g l' (bump f l m) !! a =
    (fun d => if decide (a ∈ l) then f d else if decide (a ∈ l') then g d else d) <$> m !! a.
Proof.
  intros (Hl & Hnd & Hl')%NoDup_app. rewrite !bump_lookup by done. specialize (Hnd a).
  repeat case_decide; destruct (m !! a); naive_solver.
Qed.

(** ** The commands that devices have *)

(** What a cookie that is in use holds. *)
Definition in_flight (H : list past) (c : COMMAND_COMPLETE_DATA) : Prop :=
  exists h, H !! cc_id c = Some h /\ p_progress h = InFlight /\
    cc_DstSyncCount c = Z.of_nat (length (p_dst h)) /\ cc_SrcSyncCount c = Z.of_nat (length (p_src h)) /\
    psKernelSyncInfoKM <$> take (length (p_dst h)) (cc_psDstSync c) = p_dst h /\
    psKernelSyncInfoKM <$> take (length (p_src h)) (cc_psSrcSync c) = p_src h.

Record work_ok (s : qsys) : Prop := mk_work_ok {
  w_syncs : forall a d, syncs s !! a = Some d -> sync_ok (history s) a d;
  w_known : forall i h, history s !! i = Some h ->
    NoDup (p_dst h ++ p_src h) /\ forall a, a ∈ p_dst h ++ p_src h -> is_Some (syncs s !! a);
  w_flights : forall p c, cc_data s !! p = Some c -> bInUse c = true -> in_flight (history s) c;
  w_one : forall p p' c c', cc_data s !! p = Some c -> cc_data s !! p' = Some c' ->
    bInUse c = true -> bInUse c' = true -> cc_id c = cc_id c' -> p = p';
  w_cookie : forall i h, history s !! i = Some h -> p_progress h = InFlight ->
    exists p c, cc_data s !! p = Some c /\ bInUse c = true /\ cc_id c = i }.

(** The queues and the devices are as they were in [s]. *)
Record kept (s s' : qsys) : Prop := mk_kept {
  kp_head : psQueueList s' = psQueueList s;
  kp_lock : sQProcessResource s' = sQProcessResource s;
  kp_devices : apsDeviceCommandData s' = apsDeviceCommandData s;
  kp_nodes : psDeviceNodeList s' = psDeviceNodeList s;
  kp_queues : queues s' = queues s;
  kp_buffers : buffers s' = buffers s;
  kp_dev : dev_data s' = dev_data s;
  kp_cookies : forall p c, cc_data s !! p = Some c -> exists c', cc_data s' !! p = Some c' /\
    length (cc_psDstSync c') = length (cc_psDstSync c) /\ length (cc_psSrcSync c') = length (cc_psSrcSync c);
  kp_syncs : forall a, is_Some (syncs s !! a) -> is_Some (syncs s' !! a) }.

(** Nothing but completions happened from [s] to [s']. *)
Definition calm (s s' : qsys) : Prop := kept s s' /\ moved (history s) (history s').

#[export] Instance kept_preorder : PreOrder kept.
Proof.
  split.
  - intros s. split; try done; eauto.
  - intros s1 s2 s3 [A1 A2 A3 A4 A5 A6 A7 A9 A10] [B1 B2 B3 B4 B5 B6 B7 B9 B10]. split; try congruence; auto.
    intros p c Hc. destruct (A9 p c Hc) as (c' & Hc' & ? & ?). destruct (B9 p c' Hc') as (c'' & ? & ? & ?).
    exists c''. split; [done|]. split; congruence.
Qed.

#[export] Instance calm_preorder : PreOrder calm.
Proof. split; [by split|]. intros s1 s2 s3 [A1 A2] [B1 B2]. split; by etrans. Qed.

(** A cookie is written. *)
Lemma kept_cookie s p c c' :
  cc_data s !! p = Some c -> length (cc_psDstSync c') = length (cc_psDstSync c) ->
  length (cc_psSrcSync c') = length (cc_psSrcSync c) -> kept s (set_cc_data (<[p := c']> (cc_data s)) s).
Proof.
  intros Hc Hd Hs. split; try done. intros p0 c0 H0. simpl. destruct (decide (p = p0)) as [<-|Hne].
  - rewrite lookup_insert_eq. simplify_eq. eauto.
  - rewrite lookup_insert_ne by done. eauto.
Qed.

(** ** Completing a command *)

Section Complete.
Context (E : qenv) `{NUM : CommandsPerType}.

Lemma complete_dst_runs s p c i o d :
  cc_data s !! p = Some c -> cc_psDstSync c !! i = Some o -> syncs s !! psKernelSyncInfoKM o = Some d -> 1 < pvRefCount d ->
  complete_dst p i s = Ok (tt, set_syncs (alter write_done (psKernelSyncInfoKM o) (syncs s)) s).
Proof.
  intros Hc Ho Hd Hr. unfold complete_dst, PVRSRVReleaseSyncInfoKM, update_sync, sync_data, found, modify.
  unfold mbind, st_bind, option_bind. simpl. rewrite Hc, Ho, Hd. simpl. rewrite lookup_insert_eq. simpl.
  rewrite (proj2 (Z.eqb_neq _ 0)) by lia. simpl. rewrite lookup_insert_eq. simpl.
  rewrite insert_insert_eq. by rewrite (alter_alt_Some _ _ _ _ Hd).
Qed.

Lemma complete_src_runs s p c i o d :
  cc_data s !! p = Some c -> cc_psSrcSync c !! i = Some o -> syncs s !! psKernelSyncInfoKM o = Some d -> 1 < pvRefCount d ->
  complete_src p i s = Ok (tt, set_syncs (alter read_done (psKernelSyncInfoKM o) (syncs s)) s).
Proof.
  intros Hc Ho Hd Hr. unfold complete_src, PVRSRVReleaseSyncInfoKM, update_sync, sync_data, found, modify.
  unfold mbind, st_bind, option_bind. simpl. rewrite Hc, Ho, Hd. simpl. rewrite lookup_insert_eq. simpl.
  rewrite (proj2 (Z.eqb_neq _ 0)) by lia. simpl. rewrite lookup_insert_eq. simpl.
  rewrite insert_insert_eq. by rewrite (alter_alt_Some _ _ _ _ Hd).
Qed.

(** A loop whose turns each change one object. *)
Lemma bump_loop (m : nat -> Q unit) f (l : list Z) k s :
  NoDup l -> (forall a, a ∈ l -> exists d, syncs s !! a = Some d /\ 1 < pvRefCount d) ->
  (forall i a x, l !! i = Some a -> (exists d, x !! a = Some d /\ 1 < pvRefCount d) ->
     m (k + i)%nat (set_syncs x s) = Ok (tt, set_syncs (alter f a x) s)) ->
  for_each (seq k (length l)) m s = Ok (tt, set_syncs (bump f l (syncs s)) s).
Proof.
  intros Hl Hd Hm. replace s with (set_syncs (syncs s) s) at 1 by by destruct s.
  revert Hd. generalize (syncs s) as x. revert k Hl Hm. induction l as [|a l IH]; intros k Hl Hm x Hd; simpl; [done|].
  apply NoDup_cons in Hl as [Ha Hl].
  rewrite (st_bind_ok _ _ _ _ _ (eq_trans (f_equal2 m (eq_sym (Nat.add_0_r k)) eq_refl) (Hm 0%nat a x eq_refl (Hd a ltac:(set_solver))))).
  apply IH; [done|..].
  - intros i b y Hi Hb. replace (S k + i)%nat with (k + S i)%nat by lia. by apply Hm.
  - intros b Hb. rewrite lookup_alter_ne by set_solver. apply Hd. set_solver.
Qed.
(** The state in which completing the command [h] of the cookie [p] ends. *)
Definition completion (s : qsys) (p : Z) (c : COMMAND_COMPLETE_DATA) (h : past) (out : list output) : qsys :=
  set_outputs out (set_history (alter (set_p_progress Completed) (cc_id c) (history s))
    (set_cc_data (<[p := set_bInUse false c]> (cc_data s))
      (set_syncs (bump read_done (p_src h) (bump write_done (p_dst h) (syncs s))) s))).

(** An object of a command in flight has a reference from it. *)
Lemma used_sync s i h a :
  work_ok s -> history s !! i = Some h -> p_progress h = InFlight -> a ∈ p_dst h ++ p_src h ->
  exists d, syncs s !! a = Some d /\ 1 < pvRefCount d.
Proof.
  intros W Hi Hp Ha. destruct (w_known s W i h Hi) as [_ Hk]. destruct (Hk a Ha) as [d Hd]. exists d. split; [done|].
  rewrite (sk_ref _ _ _ (w_syncs s W a d Hd)).
  assert (1 <= live_uses (history s) a); [|lia]. apply (live_use_pos _ i h); [done|by unfold completed; rewrite Hp|].
  by apply elem_of_app in Ha.
Qed.

(** The object at a position of a cookie. *)
Lemma cookie_object (l : list PVRSRV_SYNC_OBJECT) k (as_ : list Z) i a :
  psKernelSyncInfoKM <$> take k l = as_ -> as_ !! i = Some a -> exists o, l !! i = Some o /\ psKernelSyncInfoKM o = a.
Proof.
  intros <- Hi. rewrite list_lookup_fmap in Hi. destruct (take k l !! i) as [o|] eqn:Ho; [|done].
  injection Hi as <-. apply lookup_take_Some in Ho as [Ho _]. by exists o.
Qed.

Lemma complete_runs s p c h b :
  work_ok s -> cc_data s !! p = Some c -> bInUse c = true -> history s !! cc_id c = Some h ->
  runs (PVRSRVCommandCompleteKM p b) s (fun _ s' => exists out, s' = completion s p c h out).
Proof.
  intros W Hc Hu Hh. destruct (w_flights s W p c Hc Hu) as (h' & Hh' & Hp & Nd & Ns & Od & Os). simplify_eq.
  destruct (w_known s W _ h Hh) as [(Hnd & Hdis & Hns)%NoDup_app _].
  unfold PVRSRVCommandCompleteKM. st_run (found_ok (fun s => cc_data s !! p) s c Hc).
  rewrite Nd, Ns. unfold count_to. rewrite !Nat2Z.id.
  st_run (bump_loop (complete_dst p) write_done (p_dst h) 0 s Hnd
    ltac:(intros a Ha; apply (used_sync s (cc_id c) h a W Hh Hp); set_solver)
    ltac:(intros i a x Hi (d & Hd & Hr); destruct (cookie_object _ _ _ _ _ Od Hi) as (o & Ho & <-);
          by rewrite (complete_dst_runs _ _ c _ o d))).
  set (s1 := set_syncs _ s). assert (forall a, a ∈ p_src h -> exists d, syncs s1 !! a = Some d /\ 1 < pvRefCount d) as Hs1.
  { intros a Ha. destruct (used_sync s (cc_id c) h a W Hh Hp) as (d & Hd & ?); [set_solver|]. exists d. split; [|done].
    simpl. rewrite bump_lookup, decide_False by set_solver. done. }
  st_run (bump_loop (complete_src p) read_done (p_src h) 0 s1 Hns Hs1
    ltac:(intros i a x Hi (d & Hd & Hr); destruct (cookie_object _ _ _ _ _ Os Hi) as (o & Ho & <-);
          by rewrite (complete_src_runs _ _ c _ o d))).
  unfold update_complete, complete_data, found, emit, note_progress, modify, st_when, mbind, st_bind, mret, st_ret.
  destruct (cc_pfnCommandComplete c =? 0), b; simpl; unfold runs; simpl; rewrite Hc; simpl;
    eexists _, _; (split; [reflexivity|eexists; reflexivity]).
Qed.

Lemma completion_history s p c h out i x :
  history (completion s p c h out) !! i = Some x ->
  exists y, history s !! i = Some y /\ same_command y x /\
    p_progress x = (if decide (i = cc_id c) then Completed else p_progress y).
Proof. apply noted_lookup. Qed.

Lemma completion_cookie s p c h out p' c' :
  cc_data s !! p = Some c -> cc_data (completion s p c h out) !! p' = Some c' -> bInUse c' = true ->
  p' <> p /\ cc_data s !! p' = Some c'.
Proof.
  intros Hc. simpl. destruct (decide (p' = p)) as [->|Hne].
  - rewrite lookup_insert_eq. intros [= <-]. done.
  - by rewrite lookup_insert_ne.
Qed.

Lemma completion_work s p c h out :
  work_ok s -> cc_data s !! p = Some c -> bInUse c = true -> history s !! cc_id c = Some h ->
  work_ok (completion s p c h out).
Proof.
  intros W Hc Hu Hh. destruct (w_flights s W p c Hc Hu) as (h' & Hh' & Hp & _). simplify_eq.
  destruct (w_known s W _ h Hh) as [Hnd _].
  assert (~ completed h) as Hn by (unfold completed; by rewrite Hp). split.
  - intros a d. simpl. rewrite bump_two by done. destruct (syncs s !! a) as [d'|] eqn:Hd; [|done]. intros [= <-].
    apply sync_ok_complete; [done..|]. by apply (w_syncs s W).
  - intros i x (y & Hy & (_ & Ed & Es) & _)%completion_history. rewrite <- Ed, <- Es.
    destruct (w_known s W i y Hy) as [? Hk]. split; [done|]. intros a Ha. simpl. rewrite bump_two by done.
    apply fmap_is_Some. by apply Hk.
  - intros p' c' Hx Hu'. destruct (completion_cookie _ _ _ _ _ _ _ Hc Hx Hu') as [Hne Hc']. destruct (w_flights s W p' c' Hc' Hu') as (y & Hy & Hy').
    exists y. simpl. rewrite list_lookup_alter_ne; [done|]. intros Eq. apply Hne.
    by apply (w_one s W p' p c' c).
  - intros p1 p2 c1 c2 H1 H2 U1 U2. 
    destruct (completion_cookie _ _ _ _ _ _ _ Hc H1 U1) as [_ ?], (completion_cookie _ _ _ _ _ _ _ Hc H2 U2) as [_ ?].
    by apply (w_one s W p1 p2 c1 c2).
  - intros i x (y & Hy & _ & Px)%completion_history Hx. rewrite Hx in Px. case_decide as Hi; [done|].
    destruct (w_cookie s W i y Hy) as (p' & c' & Hc' & Hu' & Hid); [congruence|]. exists p', c'. split; [|done].
    simpl. rewrite lookup_insert_ne; [done|]. intros <-. simplify_eq.
Qed.

Lemma completion_calm s p c h out :
  work_ok s -> cc_data s !! p = Some c -> bInUse c = true -> history s !! cc_id c = Some h ->
  calm s (completion s p c h out).
Proof.
  intros W Hc Hu Hh. destruct (w_flights s W p c Hc Hu) as (h' & Hh' & Hp & _). simplify_eq.
  destruct (w_known s W _ h Hh) as [Hnd _]. split.
  - etrans; [by apply (kept_cookie s p c (set_bInUse false c))|]. split; try done; [by eauto|].
    intros a Ha. simpl. rewrite bump_two by done. by apply fmap_is_Some.
  - apply (moved_alter _ _ _ h Hh). unfold step. simpl. rewrite Hp. repeat split; naive_solver.
Qed.

(** Completing a command that is in flight is safe, and completes it. *)
Lemma complete_safe s p b :
  work_ok s -> in_use s p = true ->
  runs (PVRSRVCommandCompleteKM p b) s (fun _ s' => work_ok s' /\ calm s s').
Proof.
  unfold in_use. intros W. destruct (cc_data s !! p) as [c|] eqn:Hc; [|done]. intros Hu.
  destruct (w_flights s W p c Hc Hu) as (h & Hh & _).
  eapply st_runs_mono; [by apply (complete_runs s p c h)|]. intros _ s' [out ->].
  split; [by apply completion_work|by apply completion_calm].
Qed.

(** The cookie that is spared stays in use. *)
Lemma complete_all_safe spared l s :
  work_ok s ->
  runs (complete_all spared l) s (fun _ s' => work_ok s' /\ calm s s' /\
    forall p c, spared = Some p -> cc_data s !! p = Some c -> cc_data s' !! p = Some c).
Proof.
  revert s. induction l as [|p l IH]; intros s W.
  - apply st_runs_ret. split; [done|]. split; [reflexivity|done].
  - simpl. eapply st_runs_bind with (R := fun _ s' => work_ok s' /\ calm s s' /\
      forall p c, spared = Some p -> cc_data s !! p = Some c -> cc_data s' !! p = Some c).
    + st_get. unfold st_when. destruct (in_use s p && bool_decide (spared <> Some p)) eqn:Hb.
      * apply andb_true_iff in Hb as [Hu Hs%bool_decide_eq_true]. unfold in_use in Hu.
        destruct (cc_data s !! p) as [c|] eqn:Hc; [|done]. destruct (w_flights s W p c Hc Hu) as (h & Hh & _).
        eapply st_runs_mono; [by apply (complete_runs s p c h)|]. intros _ s' [out ->].
        split; [by apply completion_work|]. split; [by apply completion_calm|].
        intros p' c' -> Hc'. simpl. rewrite lookup_insert_ne by congruence. done.
      * apply st_runs_ret. split; [done|]. split; [reflexivity|done].
    + intros _ s1 (W1 & C1 & K1). eapply st_runs_mono; [by apply IH|]. intros _ s2 (W2 & C2 & K2).
      split; [done|]. split; [by etrans|]. auto.
Qed.
End Complete.

(** * The invariant of the command queues

    [queues_ok] ties the ring buffers to the [history]: the commands between the
    offsets of a queue are those that are [Queued], in order, followed by the one
    that is [Prepared]; each has the counters of its synchronisation objects as
    they were when it was inserted.  [devs_ok] is about the tables of the devices.
    [qinv] is the invariant of the whole. *)

Section Invariant.
Context `{NUM : CommandsPerType}.

(** ** The devices *)

Definition dev_at (s : qsys) (ui32DevIndex type : Z) : option DEVICE_COMMAND_DATA :=
  p ← entry_at (apsDeviceCommandData s) ui32DevIndex;
  l ← dev_data s !! p;
  entry_at l type.

Record dc_ok (s : qsys) (dc : DEVICE_COMMAND_DATA) : Prop := mk_dc_ok {
  dk_offset : 0 <= ui32CCBOffset dc < Z.of_nat DC_NUM_COMMANDS_PER_TYPE;
  dk_slots : length (apsCmdCompleteData dc) = DC_NUM_COMMANDS_PER_TYPE;
  dk_cookies : forall j x, apsCmdCompleteData dc !! j = Some x -> exists a c, x = Some a /\ cc_data s !! a = Some c /\
    ui32MaxDstSyncCount dc = Z.of_nat (length (cc_psDstSync c)) /\
    ui32MaxSrcSyncCount dc = Z.of_nat (length (cc_psSrcSync c)) }.

Record devs_ok (s : qsys) : Prop := mk_devs_ok {
  dv_count : Z.of_nat (length (apsDeviceCommandData s)) = SYS_DEVICE_COUNT;
  dv_ok : forall i t dc, dev_at s i t = Some dc -> dc_ok s dc }.

Lemma entry_at_range {A} (l : list A) i x : entry_at l i = Some x -> 0 <= i < Z.of_nat (length l).
Proof.
  unfold entry_at. destruct (Z.ltb_spec i 0) as [?|?]; [done|]. intros Hi%lookup_lt_Some. lia.
Qed.

(** A type of command a device takes, with room for that many objects. *)
Definition takes (s : qsys) (i t nd ns : Z) : Prop :=
  exists dc, dev_at s i t = Some dc /\ nd <= ui32MaxDstSyncCount dc /\ ns <= ui32MaxSrcSyncCount dc.

(** ** The commands in the buffers *)

Record describes (H : list past) (x : xcmd) : Prop := mk_describes {
  ds_past : exists h, H !! x_id x = Some h /\ psKernelSyncInfoKM <$> x_dst x = p_dst h /\
    psKernelSyncInfoKM <$> x_src x = p_src h;
  ds_samples : forall o, o ∈ x_dst x ++ x_src x ->
    so_WriteOpsPending o = writers (take (x_id x) H) (psKernelSyncInfoKM o) /\
    so_ReadOps2Pending o = readers (take (x_id x) H) (psKernelSyncInfoKM o) }.

Definition fits (s : qsys) (x : xcmd) : Prop :=
  takes s (ui32DevIndex (x_cmd x)) (CommandType (x_cmd x)) (Z.of_nat (length (x_dst x))) (Z.of_nat (length (x_src x))).

(** [cs] are the commands submitted, [prep] the one that is not. *)
Record holds (s : qsys) (H : list past) (p : Z) (q : PVRSRV_QUEUE_INFO) (b : buffer) (cs prep : list xcmd) : Prop := mk_holds {
  hd_buffer : buffers s !! pvLinQueueKM q = Some b;
  hd_mapped : pvLinQueueKM q <> 0;
  hd_ring : ring_size (ui32QueueSize q);
  hd_size : b_size b = ui32QueueSize q + PVRSRV_MAX_CMD_SIZE;
  hd_read : 0 <= ui32ReadOffset q < ui32QueueSize q;
  hd_laid : laid b (ui32QueueSize q) (ui32ReadOffset q) 0 (cs ++ prep);
  hd_room : extent (cs ++ prep) < ui32QueueSize q;
  hd_write : ui32WriteOffset q = ahead (ui32QueueSize q) (ui32ReadOffset q) (extent cs);
  hd_queued : x_id <$> cs = ids Queued H p;
  hd_prepared : x_id <$> prep = ids Prepared H p;
  hd_one : (length prep <= 1)%nat;
  hd_cmds : forall x, x ∈ cs ++ prep -> describes H x /\ fits s x }.

Definition queue_ok (s : qsys) (H : list past) (p : Z) (q : PVRSRV_QUEUE_INFO) : Prop :=
  exists b cs prep, holds s H p q b cs prep.

(** The queues of a list that starts at [p]. *)
Fixpoint chain (m : gmap Z PVRSRV_QUEUE_INFO) (p : Z) (L : list Z) : Prop :=
  match L with
  | [] => p = 0
  | a :: L => p = a /\ a <> 0 /\ exists q, m !! a = Some q /\ chain m (psNextKM q) L
  end.

Record queues_ok (s : qsys) (H : list past) : Prop := mk_queues_ok {
  qk_list : exists L, chain (queues s) (psQueueList s) L /\ NoDup L /\ forall p, p ∈ L <-> is_Some (queues s !! p);
  qk_queue : forall p q, queues s !! p = Some q -> queue_ok s H p q;
  qk_buffers : forall p p' q q', queues s !! p = Some q -> queues s !! p' = Some q' ->
    pvLinQueueKM q = pvLinQueueKM q' -> p = p';
  qk_home : forall i h, H !! i = Some h -> p_progress h = Queued \/ p_progress h = Prepared ->
    is_Some (queues s !! p_queue h) }.

Record qinv (s : qsys) : Prop := mk_qinv {
  qi_queues : queues_ok s (history s);
  qi_work : work_ok s;
  qi_ordered : ordered (history s);
  qi_fifo : fifo (history s);
  qi_prepared : prepared_last (history s);
  qi_devs : devs_ok s }.

(** ** What does not concern the queues *)

(** The queues are as they were; devices take what they took. *)
Record frame (s s' : qsys) : Prop := mk_frame {
  fr_head : psQueueList s' = psQueueList s;
  fr_queues : queues s' = queues s;
  fr_buffers : buffers s' = buffers s;
  fr_nodes : psDeviceNodeList s' = psDeviceNodeList s;
  fr_takes : forall i t nd ns, takes s i t nd ns -> takes s' i t nd ns;
  fr_syncs : forall a, is_Some (syncs s !! a) -> is_Some (syncs s' !! a) }.

#[export] Instance frame_preorder : PreOrder frame.
Proof.
  split; [by split; auto|]. intros s1 s2 s3 [A1 A3 A4 A5 A6 A7] [B1 B3 B4 B5 B6 B7]. split; try congruence; auto.
Qed.

Lemma kept_dev_at s s' i t : kept s s' -> dev_at s' i t = dev_at s i t.
Proof. intros C. unfold dev_at. by rewrite (kp_devices _ _ C), (kp_dev _ _ C). Qed.

Lemma devs_ok_same s s' :
  apsDeviceCommandData s' = apsDeviceCommandData s -> dev_data s' = dev_data s -> cc_data s' = cc_data s ->
  devs_ok s -> devs_ok s'.
Proof.
  intros E1 E2 E3 [D1 D2]. split; [by rewrite E1|]. intros i t dc. unfold dev_at. rewrite E1, E2. intros Hd.
  destruct (D2 i t dc Hd) as [A1 A2 A3]. split; rewrite ?E3; done.
Qed.

Lemma kept_frame s s' : kept s s' -> frame s s'.
Proof.
  intros C. pose proof C as [A1 A2 A3 A4 A5 A6 A7 A9 A10]. split; try done.
  intros i t nd ns (dc & Hd & ?). exists dc. by rewrite (kept_dev_at _ _ _ _ C).
Qed.

Lemma kept_devs s s' : kept s s' -> devs_ok s -> devs_ok s'.
Proof.
  intros C [D1 D2]. split; [by rewrite (kp_devices _ _ C)|]. intros i t dc. rewrite (kept_dev_at _ _ _ _ C). intros Hd.
  destruct (D2 i t dc Hd) as [E1 E2 E3]. split; [done..|]. intros j x Hx.
  destruct (E3 j x Hx) as (a & c & -> & Hc & Ed & Es). destruct (kp_cookies _ _ C a c Hc) as (c' & Hc' & Ed' & Es').
  exists a, c'. rewrite Ed', Es'. done.
Qed.

Lemma describes_alike H H' x : alike H H' -> describes H x -> describes H' x.
Proof.
  intros A [(h & Hh & Ed & Es) Ho]. destruct (Forall2_lookup_l _ _ _ _ _ A Hh) as (h' & Hh' & _ & Ed' & Es'). split.
  - exists h'. by rewrite <- Ed', <- Es'.
  - intros o Hin. destruct (Ho o Hin) as [E1 E2]. unfold writers, readers in *.
    rewrite (alike_count_take _ _ _ _ A (writes_static _)), (alike_count_take _ _ _ _ A (reads_static _)). done.
Qed.

Lemma holds_frame s s' H H' p q b cs prep :
  frame s s' -> moved H H' -> holds s H p q b cs prep -> holds s' H' p q b cs prep.
Proof.
  intros F M [A1 A2 A3 A4 A5 A6 A7 A8 A9 A10 A11 A12].
  split; try done; [by rewrite (fr_buffers _ _ F)|by rewrite (moved_ids M) by auto..|].
  intros x Hx. destruct (A12 x Hx) as [Hd Hf].
  split; [by apply (describes_alike _ _ _ (moved_alike _ _ M))|by apply (fr_takes _ _ F)].
Qed.

Lemma queues_ok_frame s s' H H' : frame s s' -> moved H H' -> queues_ok s H -> queues_ok s' H'.
Proof.
  intros F M [K1 K2 K3 K4]. split; rewrite ?(fr_queues _ _ F), ?(fr_head _ _ F); try done.
  - intros p q Hq. destruct (K2 p q Hq) as (b & cs & prep & Hh). exists b, cs, prep. by apply (holds_frame s s' H).
  - intros i h' Hi Hp. destruct (moved_lookup_back M i h' Hi) as (h & Hh & (Eq & _) & E1 & E2 & _).
    rewrite <- Eq. apply (K4 i h Hh). destruct Hp as [?|?]; [left; by apply E1|right; by apply E2].
Qed.

(** Between two states with the same commands waiting. *)
Lemma qinv_frame s s' :
  frame s s' -> moved (history s) (history s') -> work_ok s' -> devs_ok s' -> qinv s -> qinv s'.
Proof.
  intros F M W D [A1 A2 A3 A4 A5 A6]. split; [|done|..|done].
  - by apply (queues_ok_frame s s' (history s)).
  - by apply (moved_ordered M).
  - by apply (moved_fifo M).
  - by apply (moved_prepared_last _ _ M).
Qed.

Lemma qinv_calm s s' : calm s s' -> work_ok s' -> qinv s -> qinv s'.
Proof.
  intros [C M] W Q. apply (qinv_frame s); [by apply kept_frame|done|done|by apply (kept_devs s), (qi_devs s Q)|done].
Qed.
End Invariant.
