(* ===== verification/PvrQueueGive.v ===== *)
(** * Handing commands to devices

    The tests of a command's objects, then what happens when it is handed over. *)

From stdpp Require Import base list numbers option gmap.
From Stdlib Require Import ZArith Lia.
From S2P Require Import Prelude PvrHash Stateful PvrQueue PvrQueueRing PvrQueueHistory PvrQueueInv.
From stdpp Require Import list.

Local Open Scope Z_scope.

(** * When a command may go to its device

    The loops of [PVRSRVProcessCommand] over the synchronisation objects change
    nothing; what their answers say about the counters of the objects. *)

Section Ready.
Context `{NUM : CommandsPerType}.

Lemma load_sync_ok s pvLin b a o :
  buffers s !! pvLin = Some b -> b_cells b !! a = Some (Sync o) -> 0 <= a < b_size b ->
  load_sync pvLin a s = Ok (o, s).
Proof.
  intros Hb Ho Ha. unfold load_sync, load_cell, found, mbind, st_bind. rewrite Hb.
  rewrite (proj2 (Z.leb_le _ _)), (proj2 (Z.ltb_lt _ _)), Ho by lia. done.
Qed.

Lemma load_command_ok s pvLin b a c :
  buffers s !! pvLin = Some b -> b_cells b !! a = Some (Cmd c) -> 0 <= a < b_size b ->
  load_command pvLin a s = Ok (c, s).
Proof.
  intros Hb Ho Ha. unfold load_command, load_cell, found, mbind, st_bind. rewrite Hb.
  rewrite (proj2 (Z.leb_le _ _)), (proj2 (Z.ltb_lt _ _)), Ho by lia. done.
Qed.

Lemma objects_tail b a o l :
  objects_at b a (o :: l) -> b_cells b !! a = Some (Sync o) /\ objects_at b (a + sizeof_SYNC_OBJECT) l.
Proof.
  intros Hl. split; [rewrite <- (Z.add_0_r a); by apply (Hl 0%nat)|]. intros i y Hi.
  specialize (Hl (S i) y Hi). rewrite <- Hl. f_equal. unfold sizeof_SYNC_OBJECT. lia.
Qed.

(** Every object of [l] passes the test. *)
Definition all_due (s : qsys) (bFlush : bool) (l : list PVRSRV_SYNC_OBJECT) : Prop :=
  forall o d, o ∈ l -> syncs s !! psKernelSyncInfoKM o = Some d -> not_due d o bFlush = false.

(** A command of this type is with the device. *)
Definition busy (s : qsys) (dc : DEVICE_COMMAND_DATA) : Prop := exists j p c,
  apsCmdCompleteData dc !! j = Some (Some p) /\ cc_data s !! p = Some c /\ bInUse c = true.

Lemma not_due_false d o bFlush :
  not_due d o bFlush = false ->
  so_WriteOpsPending o <= ui32WriteOpsComplete d /\ so_ReadOps2Pending o <= ui32ReadOps2Complete d.
Proof.
  unfold not_due, SYNCOPS_STALE.
  destruct (Z.eqb_spec (ui32WriteOpsComplete d) (so_WriteOpsPending o)), (Z.eqb_spec (ui32ReadOps2Complete d) (so_ReadOps2Pending o)),
    (Z.leb_spec (so_WriteOpsPending o) (ui32WriteOpsComplete d)), (Z.leb_spec (so_ReadOps2Pending o) (ui32ReadOps2Complete d)), bFlush;
    simpl; try done; lia.
Qed.

Lemma dst_ready_runs s pvLin b a l bFlush :
  buffers s !! pvLin = Some b -> objects_at b a l -> 0 <= a ->
  a + Z.of_nat (length l) * sizeof_SYNC_OBJECT <= b_size b ->
  (forall o, o ∈ l -> is_Some (syncs s !! psKernelSyncInfoKM o)) ->
  runs (dst_ready (length l) pvLin a bFlush) s (fun r s' => s' = s /\ (r = true <-> all_due s bFlush l)).
Proof.
  intros Hb. revert a. unfold sizeof_SYNC_OBJECT. induction l as [|o l IH]; intros a Hl Ha Hs Hk; simpl.
  - apply st_runs_ret. split; [done|]. split; [|done]. intros _ o d Ho. by apply not_elem_of_nil in Ho.
  - apply objects_tail in Hl as [Ho Hl]. simpl in Hs. st_run (load_sync_ok s pvLin b a o Hb Ho ltac:(lia)).
    destruct (Hk o) as [d Hd]; [set_solver|]. st_run (found_ok (fun s => syncs s !! psKernelSyncInfoKM o) s d Hd).
    destruct (not_due d o bFlush) eqn:Hn.
    + apply st_runs_ret. split; [done|]. split; [done|]. intros Ha'. rewrite (Ha' o d) in Hn by set_solver. done.
    + eapply st_runs_mono; [apply IH; [done|unfold sizeof_SYNC_OBJECT; lia|unfold sizeof_SYNC_OBJECT; lia|set_solver]|].
      intros r s' [-> Hr]. split; [done|]. rewrite Hr. unfold all_due. split.
      * intros Ha' o' d' [->|Ho']%elem_of_cons Hd'; [by simplify_eq|by apply Ha'].
      * intros Ha' o' d' Ho'. apply Ha'. set_solver.
Qed.

(** ** The commands of the same type that are with the device *)

Lemma queued_loop_runs s o d c ks :
  syncs s !! psKernelSyncInfoKM o = Some d -> (forall k, k ∈ ks -> is_Some (cc_psSrcSync c !! k)) ->
  runs (queued_loop o c ks) s (fun e s' => s' = s /\
    (e = PVRSRV_OK -> so_WriteOpsPending o <= ui32WriteOpsComplete d)).
Proof.
  intros Hd. induction ks as [|k ks IH]; intros Hk; simpl; [by apply st_runs_ret|].
  destruct (Hk k) as [o' Ho']; [set_solver|].
  st_run (found_ok (fun _ => cc_psSrcSync c !! k) s o' Ho'). destruct (_ =? _); [|apply IH; set_solver].
  st_run (found_ok (fun s => syncs s !! psKernelSyncInfoKM o) s d Hd).
  unfold SYNCOPS_STALE. destruct (Z.eqb_spec (ui32WriteOpsComplete d) (so_WriteOpsPending o)),
    (Z.leb_spec (so_WriteOpsPending o) (ui32WriteOpsComplete d)); simpl.
  all: try (apply st_runs_ret; split; [done|lia]). apply IH. set_solver.
Qed.

Lemma in_flight_objects H c k : in_flight H c -> k ∈ count_to (cc_SrcSyncCount c) -> is_Some (cc_psSrcSync c !! k).
Proof.
  intros (h & _ & _ & _ & Es & _ & Os) Hk. unfold count_to in Hk. apply elem_of_seq in Hk. rewrite Es, Nat2Z.id in Hk.
  destruct (p_src h !! k) as [a|] eqn:Ha; [|apply lookup_ge_None in Ha; lia].
  destruct (cookie_object _ _ _ _ _ Os Ha) as (o & Ho & _). eauto.
Qed.

Lemma CheckIfSyncIsQueued_runs s o d p c :
  work_ok s -> cc_data s !! p = Some c -> syncs s !! psKernelSyncInfoKM o = Some d ->
  runs (CheckIfSyncIsQueued o p) s (fun e s' => s' = s /\
    (e = PVRSRV_OK -> so_WriteOpsPending o <= ui32WriteOpsComplete d /\ bInUse c = true)).
Proof.
  intros W Hc Hd. unfold CheckIfSyncIsQueued. st_run (found_ok (fun s => cc_data s !! p) s c Hc).
  destruct (bInUse c) eqn:Hu; [|by apply st_runs_ret].
  eapply st_runs_mono; [apply (queued_loop_runs s o d c); [done|]|].
  - intros k Hk. by apply (in_flight_objects (history s)); [apply (w_flights s W p)|].
  - simpl. intros e s' [-> He]. auto.
Qed.

Lemma find_queued_runs s o d dc js r0 :
  work_ok s -> dc_ok s dc -> syncs s !! psKernelSyncInfoKM o = Some d ->
  (forall j, j ∈ js -> (j < DC_NUM_COMMANDS_PER_TYPE)%nat) ->
  runs (find_queued o dc js r0) s (fun r s' => s' = s /\
    (r = true -> r0 = true \/ (so_WriteOpsPending o <= ui32WriteOpsComplete d /\ busy s dc))).
Proof.
  intros W D Hd. revert r0. induction js as [|j js IH]; intros r0 Hj; simpl; [by apply st_runs_ret; auto|].
  destruct (lookup_lt_is_Some_2 (apsCmdCompleteData dc) j) as [x Hx].
  { rewrite (dk_slots _ _ D). apply Hj. set_solver. }
  destruct (dk_cookies _ _ D j x Hx) as (p & c & -> & Hc & _).
  rewrite Hx. st_run (eq_refl : written (Some (Some p)) s = Ok (p, s)).
  eapply st_runs_bind; [by apply (CheckIfSyncIsQueued_runs s o d p c)|]. intros e s' [-> He].
  eapply st_runs_mono; [apply IH; set_solver|]. intros r s' [-> Hr]. split; [done|]. intros ->.
  destruct Hr as [[?|[? ?]%Z.eqb_eq%He]%orb_true_iff|?]; [done|by left|right|by right].
  split; [done|]. exists j, p, c. done.
Qed.

Lemma src_ready_runs s pvLin b a l i t dc bFlush :
  work_ok s -> devs_ok s -> dev_at s i t = Some dc ->
  buffers s !! pvLin = Some b -> objects_at b a l -> 0 <= a ->
  a + Z.of_nat (length l) * sizeof_SYNC_OBJECT <= b_size b ->
  (forall o, o ∈ l -> is_Some (syncs s !! psKernelSyncInfoKM o)) ->
  runs (src_ready (length l) pvLin a i t bFlush) s (fun r s' => s' = s /\
    (r = true -> forall o d, o ∈ l -> syncs s !! psKernelSyncInfoKM o = Some d ->
       not_due d o bFlush = false \/ (so_WriteOpsPending o <= ui32WriteOpsComplete d /\ busy s dc)) /\
    (all_due s bFlush l -> r = true)).
Proof.
  intros W D Hdc Hb. revert a. unfold sizeof_SYNC_OBJECT. induction l as [|o l IH]; intros a Hl Ha Hs Hk; simpl.
  - apply st_runs_ret. split; [done|]. split; [|done]. intros _ o d Ho. by apply not_elem_of_nil in Ho.
  - apply objects_tail in Hl as [Ho Hl]. simpl in Hs. st_run (load_sync_ok s pvLin b a o Hb Ho ltac:(lia)).
    destruct (Hk o) as [d Hd]; [by left|]. st_run (found_ok (fun s => syncs s !! psKernelSyncInfoKM o) s d Hd).
    eapply st_runs_bind with (R := fun r s' => s' = s /\ (not_due d o bFlush = false -> r = true) /\
      (r = true -> not_due d o bFlush = false \/ (so_WriteOpsPending o <= ui32WriteOpsComplete d /\ busy s dc))).
    + destruct (not_due d o bFlush) eqn:Hn.
      * st_run (found_ok (fun s => dev_at s i t) s dc Hdc).
        eapply st_runs_mono; [apply (find_queued_runs s o d dc); [done|by apply (dv_ok s D i t)|done|]|].
        -- intros j Hj%elem_of_seq. lia.
        -- simpl. intros r s' [-> Hr]. split; [done|]. split; [done|]. intros Er. destruct (Hr Er) as [?|[? ?]]; [done|auto].
      * apply st_runs_ret. auto.
    + simpl. intros r s' (-> & Hr1 & Hr2). destruct r.
      * eapply st_runs_mono; [apply IH; [done|unfold sizeof_SYNC_OBJECT; lia|unfold sizeof_SYNC_OBJECT; lia|intros; apply Hk; by right]|].
        simpl. intros r s' (-> & G1 & G2). split; [done|]. split.
        -- intros -> o' d' [->|Ho']%elem_of_cons Hd'; [simplify_eq; auto|by apply G1].
        -- intros Ha'. apply G2. intros o' d' Ho'. apply Ha'. by right.
      * apply st_runs_ret. split; [done|]. split; [done|]. intros Ha'. apply Hr1, Ha'; [by left|done].
Qed.
End Ready.

(** * Handing a command to its device

    The cookie is filled with the objects of the command, the command is in
    flight, the device takes it or refuses it, the ring of cookies turns. *)

(** ** Copying the objects *)

Section Fill.
Context (get : COMMAND_COMPLETE_DATA -> list PVRSRV_SYNC_OBJECT).
Context (set : list PVRSRV_SYNC_OBJECT -> COMMAND_COMPLETE_DATA -> COMMAND_COMPLETE_DATA).
Context (get_set : forall l c, get (set l c) = l) (set_set : forall l l' c, set l (set l' c) = set l c).
Context (set_get : forall c, set (get c) c = c).

(** A loop that writes the objects of [l] to the array of a cookie. *)
Lemma fill_loop (m : nat -> Q unit) l p c s :
  cc_data s !! p = Some c -> (length l <= length (get c))%nat ->
  (forall i o x d, l !! i = Some o -> x !! p = Some d -> (i < length (get d))%nat ->
     m i (set_cc_data x s) = Ok (tt, set_cc_data (<[p := set (<[i := o]> (get d)) d]> x) s)) ->
  for_each (count_to (Z.of_nat (length l))) m s =
    Ok (tt, set_cc_data (<[p := set (l ++ drop (length l) (get c)) c]> (cc_data s)) s).
Proof.
  intros Hc Hlen Hm. unfold count_to. rewrite Nat2Z.id.
  assert (forall n k, (k + n = length l)%nat ->
    for_each (seq k n) m (set_cc_data (<[p := set (take k l ++ drop k (get c)) c]> (cc_data s)) s) =
    Ok (tt, set_cc_data (<[p := set (l ++ drop (length l) (get c)) c]> (cc_data s)) s)) as Hk.
  { induction n as [|n IH]; intros k Hn; simpl.
    - replace k with (length l) by lia. by rewrite take_ge.
    - destruct (lookup_lt_is_Some_2 l k) as [o Ho]; [lia|].
      assert (length (take k l) = k) as Et by (rewrite length_take; lia).
      assert (k < length (get (set (take k l ++ drop k (get c)) c)))%nat as Hd by (rewrite get_set, length_app, length_drop; lia).
      rewrite (st_bind_ok _ _ _ _ _ (Hm k o _ _ Ho (lookup_insert_eq _ _ _) Hd)).
      rewrite get_set, insert_insert_eq, set_set.
      replace (<[k:=o]> (take k l ++ drop k (get c))) with (take (S k) l ++ drop (S k) (get c)); [apply IH; lia|].
      destruct (lookup_lt_is_Some_2 (get c) k) as [o' Ho']; [lia|].
      rewrite (drop_S _ _ _ Ho'), (take_S_r _ _ _ Ho), insert_app_r_alt, Et, Nat.sub_diag by lia. simpl. by rewrite <- app_assoc. }
  rewrite <- (Hk (length l) 0%nat) by lia. simpl. rewrite drop_0, set_get, insert_id by done. by destruct s.
Qed.
End Fill.

Lemma copy_dst_loop s pvLin b base p c l :
  buffers s !! pvLin = Some b -> objects_at b base l -> 0 <= base ->
  base + Z.of_nat (length l) * sizeof_SYNC_OBJECT <= b_size b -> cc_data s !! p = Some c ->
  (length l <= length (cc_psDstSync c))%nat ->
  for_each (count_to (Z.of_nat (length l))) (copy_dst pvLin base p) s =
    Ok (tt, set_cc_data (<[p := set_cc_psDstSync (l ++ drop (length l) (cc_psDstSync c)) c]> (cc_data s)) s).
Proof.
  unfold sizeof_SYNC_OBJECT. intros Hb Ho H0 Hs Hc Hl. apply (fill_loop cc_psDstSync); try done; [by intros []|].
  intros i o x d Hi Hd Hid. unfold copy_dst. pose proof (lookup_lt_Some _ _ _ Hi).
  rewrite (st_bind_ok _ _ _ _ _ (load_sync_ok (set_cc_data x s) pvLin b _ o Hb (Ho i o Hi) ltac:(unfold sizeof_SYNC_OBJECT; lia))).
  unfold complete_data, update_complete, set_slot, found, modify, mbind, st_bind. simpl. rewrite Hd.
  rewrite (proj2 (Nat.ltb_lt _ _) Hid). simpl. unfold complete_data, found. simpl. by rewrite Hd.
Qed.

Lemma copy_src_loop s pvLin b base p c l :
  buffers s !! pvLin = Some b -> objects_at b base l -> 0 <= base ->
  base + Z.of_nat (length l) * sizeof_SYNC_OBJECT <= b_size b -> cc_data s !! p = Some c ->
  (length l <= length (cc_psSrcSync c))%nat ->
  for_each (count_to (Z.of_nat (length l))) (copy_src pvLin base p) s =
    Ok (tt, set_cc_data (<[p := set_cc_psSrcSync (l ++ drop (length l) (cc_psSrcSync c)) c]> (cc_data s)) s).
Proof.
  unfold sizeof_SYNC_OBJECT. intros Hb Ho H0 Hs Hc Hl. apply (fill_loop cc_psSrcSync); try done; [by intros []|].
  intros i o x d Hi Hd Hid. unfold copy_src. pose proof (lookup_lt_Some _ _ _ Hi).
  rewrite (st_bind_ok _ _ _ _ _ (load_sync_ok (set_cc_data x s) pvLin b _ o Hb (Ho i o Hi) ltac:(unfold sizeof_SYNC_OBJECT; lia))).
  unfold complete_data, update_complete, set_slot, found, modify, mbind, st_bind. simpl. rewrite Hd.
  rewrite (proj2 (Nat.ltb_lt _ _) Hid). simpl. unfold complete_data, found. simpl. by rewrite Hd.
Qed.

Section Give.
Context (E : qenv) `{NUM : CommandsPerType}.

(** ** The commands that devices have *)

Lemma work_ok_same s s' :
  syncs s' = syncs s -> history s' = history s -> cc_data s' = cc_data s -> work_ok s -> work_ok s'.
Proof. intros E1 E2 E3 [A1 A2 A3 A4 A5]. split; rewrite ?E1, ?E2, ?E3; done. Qed.

(** The cookie [d] filled with the command [x]. *)
Definition fill (x : xcmd) (d : COMMAND_COMPLETE_DATA) : COMMAND_COMPLETE_DATA :=
  mk_cc true (Z.of_nat (length (x_dst x))) (Z.of_nat (length (x_src x)))
    (x_dst x ++ drop (length (x_dst x)) (cc_psDstSync d)) (x_src x ++ drop (length (x_src x)) (cc_psSrcSync d))
    (ui32AllocSize d) (pfnCommandComplete (x_cmd x)) (hCallbackData (x_cmd x)) (x_id x).

(** The command [x] is in flight with the cookie [p]. *)
Definition given (s : qsys) (x : xcmd) (p : Z) (d : COMMAND_COMPLETE_DATA) (s' : qsys) : Prop :=
  cc_data s' = <[p := fill x d]> (cc_data s) /\
  history s' = alter (set_p_progress InFlight) (x_id x) (history s) /\ syncs s' = syncs s.

Lemma work_given s x p d h s' :
  work_ok s -> history s !! x_id x = Some h -> p_progress h = Queued ->
  psKernelSyncInfoKM <$> x_dst x = p_dst h -> psKernelSyncInfoKM <$> x_src x = p_src h ->
  cc_data s !! p = Some d -> bInUse d = false -> given s x p d s' -> work_ok s'.
Proof.
  intros W Hh Hp Ed Es Hc Hu (Ec & Eh & Ey).
  assert (forall p' c', cc_data s' !! p' = Some c' -> bInUse c' = true ->
    (p' = p /\ c' = fill x d) \/ (p' <> p /\ cc_data s !! p' = Some c' /\ cc_id c' <> x_id x)) as Hb.
  { intros p' c'. rewrite Ec. destruct (decide (p' = p)) as [->|Hne].
    - rewrite lookup_insert_eq. intros [= <-]. by left.
    - rewrite lookup_insert_ne by done. intros Hc' Hu'. right. split; [done|]. split; [done|]. intros Ei.
      destruct (w_flights s W p' c' Hc' Hu') as (h' & Hh' & Hp' & _). rewrite Ei in Hh'. congruence. }
  split.
  - intros a y. rewrite Ey, Eh. intros Hy. apply (sync_ok_progress _ _ _ h); [done|unfold completed; congruence|done|].
    by apply (w_syncs s W).
  - intros i y. rewrite Eh, Ey. intros (y' & Hy & (_ & Fd & Fs) & _)%noted_lookup. rewrite <- Fd, <- Fs. by apply (w_known s W i).
  - intros p' c' Hc' Hu'. destruct (Hb p' c' Hc' Hu') as [[-> ->]|(Hne & Hc0 & Hi)].
    + exists (set_p_progress InFlight h). simpl. rewrite Eh, list_lookup_alter_eq, Hh, <- Ed, <- Es, !length_fmap.
      rewrite !take_app_length. done.
    + destruct (w_flights s W p' c' Hc0 Hu') as (y & Hy & Hy'). exists y. by rewrite Eh, list_lookup_alter_ne by done.
  - intros p1 p2 c1 c2 H1 H2 U1 U2 Ei.
    destruct (Hb p1 c1 H1 U1) as [[-> ->]|(? & ? & ?)], (Hb p2 c2 H2 U2) as [[-> ->]|(? & ? & ?)]; try done.
    by apply (w_one s W p1 p2 c1 c2).
  - intros i y. rewrite Eh, Ec. intros (y' & Hy & _ & Py)%noted_lookup Hf. rewrite Hf in Py. case_decide as Hi.
    + subst i. exists p, (fill x d). by rewrite lookup_insert_eq.
    + destruct (w_cookie s W i y' Hy) as (p' & c' & Hc' & Hu' & Hid); [done|]. exists p', c'.
      rewrite lookup_insert_ne; [done|]. intros <-. congruence.
Qed.

(** The command of the cookie [p] is in its queue again. *)
Definition returned (s : qsys) (p : Z) (c : COMMAND_COMPLETE_DATA) (s' : qsys) : Prop :=
  cc_data s' = <[p := set_bInUse false c]> (cc_data s) /\
  history s' = alter (set_p_progress Queued) (cc_id c) (history s) /\ syncs s' = syncs s.

Lemma work_returned s p c s' :
  work_ok s -> cc_data s !! p = Some c -> bInUse c = true -> returned s p c s' -> work_ok s'.
Proof.
  intros W Hc Hu (Ec & Eh & Ey). destruct (w_flights s W p c Hc Hu) as (h & Hh & Hp & _).
  assert (forall p' c', cc_data s' !! p' = Some c' -> bInUse c' = true -> p' <> p /\ cc_data s !! p' = Some c') as Hb.
  { intros p' c'. rewrite Ec. destruct (decide (p' = p)) as [->|Hne]; [by rewrite lookup_insert_eq; intros [= <-]|].
    by rewrite lookup_insert_ne. }
  split.
  - intros a y. rewrite Ey, Eh. intros Hy. apply (sync_ok_progress _ _ _ h); [done|unfold completed; congruence|done|].
    by apply (w_syncs s W).
  - intros i y. rewrite Eh, Ey. intros (y' & Hy & (_ & Fd & Fs) & _)%noted_lookup. rewrite <- Fd, <- Fs. by apply (w_known s W i).
  - intros p' c' Hc' Hu'. destruct (Hb p' c' Hc' Hu') as [Hne Hc0].
    destruct (w_flights s W p' c' Hc0 Hu') as (y & Hy & Hy'). exists y. rewrite Eh, list_lookup_alter_ne; [done|].
    intros Ei. apply Hne. by apply (w_one s W p' p c' c).
  - intros p1 p2 c1 c2 H1 H2 U1 U2. destruct (Hb p1 c1 H1 U1), (Hb p2 c2 H2 U2). by apply (w_one s W p1 p2 c1 c2).
  - intros i y. rewrite Eh, Ec. intros (y' & Hy & _ & Py)%noted_lookup Hf. rewrite Hf in Py. case_decide as Hi; [done|].
    destruct (w_cookie s W i y' Hy) as (p' & c' & Hc' & Hu' & Hid); [done|]. exists p', c'.
    rewrite lookup_insert_ne; [done|]. intros <-. congruence.
Qed.

Lemma moved_return (H H' : list past) i h h' :
  H !! i = Some h -> p_progress h = Queued -> moved (alter (set_p_progress InFlight) i H) H' ->
  H' !! i = Some h' -> p_progress h' = InFlight -> moved H (alter (set_p_progress Queued) i H').
Proof.
  intros Hi Hp M Hi' Hp'. apply Forall2_same_length_lookup_2.
  - rewrite length_alter, (moved_length M). by rewrite length_alter.
  - intros j y z Hy (z' & Hz & Sz & Pz)%noted_lookup.
    destruct (moved_lookup_back M j z' Hz) as (y' & Hy' & Sy & E1 & E2 & Cy).
    destruct (decide (j = i)) as [->|Hne].
    + rewrite list_lookup_alter_eq, Hi in Hy'. injection Hy' as <-. simplify_eq. destruct Sy as (? & ? & ?), Sz as (? & ? & ?).
      unfold step, completed. rewrite Pz. repeat split; simpl in *; try congruence.
    + rewrite list_lookup_alter_ne in Hy' by done. simplify_eq. destruct Sy as (? & ? & ?), Sz as (? & ? & ?).
      unfold step, completed in *. rewrite Pz. repeat split; try congruence; naive_solver.
Qed.

(** The device takes whatever it gets. *)
Definition eager : Prop := forall n, (cmd_proc E n).1 = true.

Lemma hand_over_runs s dc p x d h :
  work_ok s -> history s !! x_id x = Some h -> p_progress h = Queued ->
  psKernelSyncInfoKM <$> x_dst x = p_dst h -> psKernelSyncInfoKM <$> x_src x = p_src h ->
  cc_data s !! p = Some d -> bInUse d = false ->
  (length (x_dst x) <= length (cc_psDstSync d))%nat -> (length (x_src x) <= length (cc_psSrcSync d))%nat ->
  runs (hand_over E (x_cmd x) dc p) (set_cc_data (<[p := fill x d]> (cc_data s)) s) (fun e s' =>
    work_ok s' /\ kept s s' /\ (eager -> e = PVRSRV_OK) /\
    ((e = PVRSRV_OK /\ moved (alter (set_p_progress InFlight) (x_id x) (history s)) (history s')) \/
     (e <> PVRSRV_OK /\ moved (history s) (history s')))).
Proof.
  intros W Hh Hp Ed Es Hc Hu Ld Ls. unfold hand_over, emit, note_progress. st_mod. st_mod.
  st_run (eq_refl : tick _ = Ok (_, _)).
  match goal with |- context [cmd_proc E ?n] => assert (eager -> (cmd_proc E n).1 = true) as He by (intros He; apply He) end.
  destruct (cmd_proc E _) as [taken l]. simpl in He.
  set (s1 := set_q_clock _ _).
  assert (given s x p d s1) as G by by repeat split.
  assert (work_ok s1) as W1 by by apply (work_given s x p d h).
  assert (kept s s1) as K1.
  { etrans; [apply (kept_cookie s p d (fill x d)); [done|..]|by split; eauto].
    - simpl. rewrite length_app, length_drop. lia.
    - simpl. rewrite length_app, length_drop. lia. }
  assert (cc_data s1 !! p = Some (fill x d)) as Hc1 by apply lookup_insert_eq.
  eapply st_runs_bind; [by apply complete_all_safe|]. intros _ s2 (W2 & [K2 M2] & Hk).
  assert (kept s s2) as K by by etrans. destruct taken.
  - apply st_runs_ret. split; [done|]. split; [done|]. split; [done|]. by left.
  - specialize (Hk p (fill x d) eq_refl Hc1). destruct (w_flights s2 W2 p _ Hk) as (h2 & Hh2 & Hp2 & _); [done|].
    unfold update_complete, complete_data, note_progress, found, modify, mbind, st_bind, runs. rewrite Hk. simpl.
    eexists _, _. split; [done|]. split.
    { by apply (work_returned s2 p (fill x d)). }
    split.
    { etrans; [done|]. etrans; [by apply (kept_cookie s2 p (fill x d) (set_bInUse false (fill x d)))|]. split; eauto. }
    split.
    { by intros ?%He. }
    right. split; [done|]. by apply (moved_return (history s) (history s2) _ h h2).
Qed.
End Give.
