(* ===== verification/PvrQueueProcess.v ===== *)
(** * Working off commands

    The processing of the command at the head of a queue, the loops over the
    queues, and the processing while a call waits. *)

From stdpp Require Import base list numbers option gmap.
From Stdlib Require Import ZArith Lia.
From S2P Require Import Prelude PvrHash Stateful PvrQueue PvrQueueRing PvrQueueHistory PvrQueueInv PvrQueueGive.
From stdpp Require Import list.

Local Open Scope Z_scope.

(** * Processing a command

    [PVRSRVProcessCommand] on the command at the head of a queue: when it hands
    the command over, the operations the command depends on are complete; a
    command that is the oldest to be worked off is handed over. *)

Lemma entry_at_insert {A} (l : list A) i j x y :
  entry_at l i = Some x -> entry_at (<[Z.to_nat i := y]> l) j = (if decide (j = i) then Some y else entry_at l j).
Proof.
  unfold entry_at. destruct (Z.ltb_spec i 0) as [?|?]; [done|]. intros Hi. destruct (decide (j = i)) as [->|Hne].
  - rewrite (proj2 (Z.ltb_ge _ _)) by done. apply list_lookup_insert_eq. by apply lookup_lt_Some in Hi.
  - destruct (Z.ltb_spec j 0) as [?|?]; [done|]. apply list_lookup_insert_ne. lia.
Qed.

Section Process.
Context (E : qenv) `{NUM : CommandsPerType}.

Lemma turn_runs s i t dc f :
  dev_at s i t = Some dc -> exists m, update_device_command i t f s = Ok (tt, set_dev_data m s) /\
    (forall i' t' dc', dev_at (set_dev_data m s) i' t' = Some dc' -> dev_at s i' t' = Some dc' \/ dc' = f dc) /\
    (forall i' t' dc', dev_at s i' t' = Some dc' ->
       dev_at (set_dev_data m s) i' t' = Some dc' \/ (dc' = dc /\ dev_at (set_dev_data m s) i' t' = Some (f dc))).
Proof.
  unfold dev_at. intros Hd.
  destruct (entry_at (apsDeviceCommandData s) i) as [p|] eqn:Hp; [|done]. simpl in Hd.
  destruct (dev_data s !! p) as [l|] eqn:Hl; [|done]. simpl in Hd.
  exists (<[p := <[Z.to_nat t := f dc]> l]> (dev_data s)). split.
  { unfold update_device_command. st_run (found_ok (fun s => entry_at (apsDeviceCommandData s) i) s p Hp).
    st_run (found_ok (fun s => dev_data s !! p) s l Hl). st_run (found_ok (fun _ => entry_at l t) s dc Hd). done. }
  simpl. split; intros i' t' dc'; destruct (entry_at (apsDeviceCommandData s) i') as [p'|]; try done; simpl.
  - destruct (decide (p = p')) as [<-|Hne].
    + rewrite lookup_insert_eq. simpl. rewrite (entry_at_insert _ _ _ _ _ Hd), Hl. simpl.
      case_decide; [intros [= <-]; by right|by left].
    + rewrite lookup_insert_ne by done. by left.
  - destruct (decide (p = p')) as [<-|Hne].
    + rewrite lookup_insert_eq, Hl. simpl. rewrite (entry_at_insert _ _ _ _ _ Hd).
      case_decide; [subst t'; rewrite Hd; intros [= <-]; by right|by left].
    + rewrite lookup_insert_ne by done. by left.
Qed.

(** The next command of the type uses the next cookie. *)
Definition turned (dc : DEVICE_COMMAND_DATA) : DEVICE_COMMAND_DATA :=
  set_ui32CCBOffset ((ui32CCBOffset dc + 1) mod Z.of_nat DC_NUM_COMMANDS_PER_TYPE) dc.

Lemma dc_ok_turned s dc : dc_ok s dc -> dc_ok s (turned dc).
Proof. intros [A1 A2 A3]. split; try done. apply Z.mod_pos_bound. lia. Qed.

Lemma turn_safe s i t dc :
  devs_ok s -> dev_at s i t = Some dc ->
  exists m, update_device_command i t (set_ui32CCBOffset ((ui32CCBOffset dc + 1) mod Z.of_nat DC_NUM_COMMANDS_PER_TYPE)) s =
    Ok (tt, set_dev_data m s) /\ devs_ok (set_dev_data m s) /\ frame s (set_dev_data m s).
Proof.
  intros [D1 D2] Hd. pose proof (D2 i t dc Hd) as Dc.
  destruct (turn_runs s i t dc (set_ui32CCBOffset ((ui32CCBOffset dc + 1) mod Z.of_nat DC_NUM_COMMANDS_PER_TYPE)) Hd)
    as (m & -> & B1 & B2). exists m. split; [done|]. split.
  - split; [done|]. intros i' t' dc' Hd'.
    assert (dc_ok s dc') as [C1 C2 C3]; [|by split].
    destruct (B1 i' t' dc' Hd') as [?| ->]; [by apply (D2 i' t')|by apply dc_ok_turned].
  - split; try done. intros i' t' nd ns (dc' & Hd' & ? & ?).
    destruct (B2 i' t' dc' Hd') as [?|[-> ?]]; eexists; done.
Qed.

(** ** What the counters say *)

(** The objects of a command in a queue. *)
Lemma queued_object H x h o :
  describes H x -> H !! x_id x = Some h -> o ∈ x_dst x ++ x_src x ->
  psKernelSyncInfoKM o ∈ p_dst h ++ p_src h.
Proof.
  intros [(h' & Hh' & Ed & Es) _] Hh Ho. simplify_eq. rewrite <- Ed, <- Es, <- fmap_app. by apply list_elem_of_fmap_2.
Qed.

Lemma writer_object H x h a :
  describes H x -> H !! x_id x = Some h -> writes a h -> exists o, o ∈ x_dst x /\ psKernelSyncInfoKM o = a.
Proof.
  intros [(h' & Hh' & Ed & Es) _] Hh Ha. simplify_eq. unfold writes in Ha. rewrite <- Ed in Ha.
  apply list_elem_of_fmap in Ha as (o & -> & ?). by exists o.
Qed.

Lemma reader_object H x h a :
  describes H x -> H !! x_id x = Some h -> reads a h -> exists o, o ∈ x_src x /\ psKernelSyncInfoKM o = a.
Proof.
  intros [(h' & Hh' & Ed & Es) _] Hh Ha. simplify_eq. unfold reads in Ha. rewrite <- Es in Ha.
  apply list_elem_of_fmap in Ha as (o & -> & ?). by exists o.
Qed.

(** A command whose objects pass the tests is due. *)
Lemma ready_due s x h bFlush :
  work_ok s -> describes (history s) x -> history s !! x_id x = Some h -> all_due s bFlush (x_dst x) ->
  (forall o d, o ∈ x_src x -> syncs s !! psKernelSyncInfoKM o = Some d ->
     so_WriteOpsPending o <= ui32WriteOpsComplete d /\
     (DC_NUM_COMMANDS_PER_TYPE = 1%nat -> so_ReadOps2Pending o <= ui32ReadOps2Complete d)) ->
  due (history s) (x_id x) h.
Proof.
  intros W D Hh Hd Hs. pose proof (w_known s W _ h Hh) as [_ Hk]. split.
  - intros a Ha. destruct (writer_object _ x h a D Hh Ha) as (o & Ho & <-).
    destruct (Hk (psKernelSyncInfoKM o)) as [d Hy]; [by apply elem_of_app; left|].
    destruct (not_due_false _ _ _ (Hd o d Ho Hy)) as [L1 L2].
    destruct (ds_samples _ _ D o) as [E1 E2]; [by apply elem_of_app; left|].
    destruct (w_syncs s W _ d Hy) as [_ _ F1 F2 _ _ _]. lia.
  - intros a Ha. destruct (reader_object _ x h a D Hh Ha) as (o & Ho & <-).
    destruct (Hk (psKernelSyncInfoKM o)) as [d Hy]; [by apply elem_of_app; right|].
    destruct (Hs o d Ho Hy) as [L1 L2].
    destruct (ds_samples _ _ D o) as [E1 E2]; [by apply elem_of_app; right|].
    destruct (w_syncs s W _ d Hy) as [_ _ F1 F2 _ _ _]. lia.
Qed.

(** Everything older than command [i] is complete. *)
Definition oldest (H : list past) (i : nat) : Prop := forall j h, (j < i)%nat -> H !! j = Some h -> completed h.

Lemma oldest_count (P : past -> Prop) {dec : forall h, Decision (P h)} H i h :
  ordered H -> H !! i = Some h -> ~ completed h -> (forall h', P h' -> conflict h h') -> oldest H i ->
  count (fun h => P h /\ completed h) H = count P (take i H).
Proof.
  intros Ho Hi Hn Hc Hold. rewrite (done_before P H i h) by done. apply count_iff. intros h' [j Hj]%list_elem_of_lookup.
  apply lookup_take_Some in Hj as [Hj Hji]. split; [by intros []|]. intros HP. split; [done|]. by apply (Hold j).
Qed.

(** With one cookie per type, the oldest command passes the tests. *)
Lemma oldest_due s x h bFlush :
  DC_NUM_COMMANDS_PER_TYPE = 1%nat -> work_ok s -> ordered (history s) -> describes (history s) x ->
  history s !! x_id x = Some h -> ~ completed h -> oldest (history s) (x_id x) ->
  all_due s bFlush (x_dst x ++ x_src x).
Proof.
  intros H1 W O D Hh Hn Hold o d Ho Hy.
  destruct (ds_samples _ _ D o Ho) as [E1 E2]. destruct (w_syncs s W _ d Hy) as [_ _ F1 F2 _ _ _].
  assert (writes (psKernelSyncInfoKM o) h \/ reads (psKernelSyncInfoKM o) h) as Hu
    by by apply elem_of_app, (queued_object (history s) x).
  assert (ui32WriteOpsComplete d = so_WriteOpsPending o) as G1.
  { rewrite F1, E1. apply (oldest_count (writes _) _ _ h); try done. intros h' Hw. exists (psKernelSyncInfoKM o).
    destruct Hu; [left|right]; auto. }
  assert (ui32ReadOps2Complete d = so_ReadOps2Pending o) as G2.
  { rewrite F2, E2. apply (oldest_count (reads _) _ _ h); try done. intros h' Hw. exists (psKernelSyncInfoKM o).
    destruct Hu; [left|right]; auto. }
  unfold not_due. by rewrite G1, G2, !Z.eqb_refl.
Qed.

(** ** The head of a queue *)

Definition idle (s : qsys) : Prop := forall p c, cc_data s !! p = Some c -> bInUse c = false.

(** How [PVRSRVProcessCommand] ends. *)
Definition handled (s : qsys) (i : nat) (e : Z) (s' : qsys) : Prop :=
  work_ok s' /\ devs_ok s' /\ frame s s' /\ sQProcessResource s' = sQProcessResource s /\
  ((e = PVRSRV_OK /\ (forall h, history s !! i = Some h -> due (history s) i h) /\
      moved (alter (set_p_progress InFlight) i (history s)) (history s')) \/
   (e <> PVRSRV_OK /\ moved (history s) (history s') /\ (eager E -> s' = s))) /\
  (eager E -> DC_NUM_COMMANDS_PER_TYPE = 1%nat -> idle s -> oldest (history s) i -> e = PVRSRV_OK).

(** It was not handed over. *)
Lemma not_handled s i e :
  qinv s -> e <> PVRSRV_OK ->
  (DC_NUM_COMMANDS_PER_TYPE = 1%nat -> idle s -> oldest (history s) i -> False) -> handled s i e s.
Proof.
  intros [A1 A2 A3 A4 A5 A6] He Hf. split; [done|]. split; [done|]. split; [reflexivity|]. split; [done|]. split; [by right|].
  intros _ H1 Hi Ho. by destruct (Hf H1 Hi Ho).
Qed.

Lemma update_complete_ok s p d f :
  cc_data s !! p = Some d -> update_complete p f s = Ok (tt, set_cc_data (<[p := f d]> (cc_data s)) s).
Proof. intros Hc. unfold update_complete, complete_data, found, modify, mbind, st_bind. by rewrite Hc. Qed.

(** Once the objects of the command passed the tests. *)
Lemma give_runs s x h dc p d b pvLin o :
  qinv s -> buffers s !! pvLin = Some b -> command_at b o x -> 0 <= o -> o + x_size x <= b_size b ->
  describes (history s) x -> history s !! x_id x = Some h -> p_progress h = Queued -> due (history s) (x_id x) h ->
  dev_at s (ui32DevIndex (x_cmd x)) (CommandType (x_cmd x)) = Some dc ->
  Z.of_nat (length (x_dst x)) <= ui32MaxDstSyncCount dc -> Z.of_nat (length (x_src x)) <= ui32MaxSrcSyncCount dc ->
  ui32MaxDstSyncCount dc = Z.of_nat (length (cc_psDstSync d)) -> ui32MaxSrcSyncCount dc = Z.of_nat (length (cc_psSrcSync d)) ->
  cc_data s !! p = Some d -> bInUse d = false ->
  runs (
    update_complete p (fun d => set_cc_id (c_id (x_cmd x)) (set_cc_DstSyncCount (ui32DstSyncCount (x_cmd x)) (set_bInUse true d)));;
    for_each (count_to (ui32DstSyncCount (x_cmd x))) (copy_dst pvLin (psDstSync (x_cmd x)) p);;
    update_complete p (fun d =>
      set_cc_SrcSyncCount (ui32SrcSyncCount (x_cmd x))
        (set_cc_hCallbackData (hCallbackData (x_cmd x)) (set_cc_pfnCommandComplete (pfnCommandComplete (x_cmd x)) d)));;
    for_each (count_to (ui32SrcSyncCount (x_cmd x))) (copy_src pvLin (psSrcSync (x_cmd x)) p);;
    eError ← hand_over E (x_cmd x) dc p;
    update_device_command (ui32DevIndex (x_cmd x)) (CommandType (x_cmd x))
      (set_ui32CCBOffset ((ui32CCBOffset dc + 1) mod Z.of_nat DC_NUM_COMMANDS_PER_TYPE));;
    mret eError) s (handled s (x_id x)).
Proof.
  intros Q Hb C H0 Hsz D Hh Hp Hdue Hdc Md Ms Ld Ls Hc Hu. pose proof C as [_ Cd Cs Cb Ca Nd Ns Cz].
  destruct (ds_past _ _ D) as (h' & Hh' & Ed & Es). simplify_eq. unfold sizeof_COMMAND, sizeof_SYNC_OBJECT in *.
  assert ((length (x_dst x) <= length (cc_psDstSync d))%nat) as Td by lia.
  assert ((length (x_src x) <= length (cc_psSrcSync d))%nat) as Ts by lia.
  rewrite Nd, Ns. st_run (update_complete_ok s p d _ Hc).
  match goal with |- runs _ (set_cc_data (<[p := ?c]> _) _) _ =>
    st_run (copy_dst_loop (set_cc_data (<[p := c]> (cc_data s)) s) pvLin b _ p c (x_dst x) Hb Cd ltac:(lia)
      ltac:(unfold sizeof_SYNC_OBJECT; lia) (lookup_insert_eq _ _ _) Td) end.
  simpl. rewrite insert_insert_eq.
  match goal with |- runs _ (set_cc_data (<[p := ?c]> _) _) _ =>
    st_run (update_complete_ok (set_cc_data (<[p := c]> (cc_data s)) s) p c _ (lookup_insert_eq _ _ _)) end.
  simpl. rewrite insert_insert_eq.
  match goal with |- runs _ (set_cc_data (<[p := ?c]> _) _) _ =>
    st_run (copy_src_loop (set_cc_data (<[p := c]> (cc_data s)) s) pvLin b _ p c (x_src x) Hb Cs ltac:(lia)
      ltac:(unfold sizeof_SYNC_OBJECT; lia) (lookup_insert_eq _ _ _) Ts) end.
  simpl. rewrite insert_insert_eq.
  match goal with |- runs _ (set_cc_data (<[p := ?c]> _) _) _ => change c with (fill x d) end.
  eapply st_runs_bind; [by apply (hand_over_runs E s dc p x d h (qi_work s Q))|].
  intros e s2 (W2 & K2 & He & Hr).
  destruct (turn_safe s2 (ui32DevIndex (x_cmd x)) (CommandType (x_cmd x)) dc) as (m & Hm & D3 & F3).
  { by apply (kept_devs s), (qi_devs s Q). }
  { by rewrite (kept_dev_at _ _ _ _ K2). }
  st_run Hm. apply st_runs_ret.
  split; [by apply (work_ok_same s2)|]. split; [done|]. split; [etrans; [by apply kept_frame|done]|].
  split; [exact (kp_lock _ _ K2)|]. split; [|by auto].
  destruct Hr as [[-> M]|[Hne M]]; [left|right].
  - split; [done|]. split; [|done]. intros y Hy. by simplify_eq.
  - split; [done|]. split; [done|]. by intros ?%He.
Qed.

(** A test failed that the objects of the oldest command pass. *)
Lemma not_ready s x h bFlush l (r : bool) :
  qinv s -> describes (history s) x -> history s !! x_id x = Some h -> p_progress h = Queued ->
  (forall o, o ∈ l -> o ∈ x_dst x ++ x_src x) -> (all_due s bFlush l -> r = true) -> r = false ->
  handled s (x_id x) PVRSRV_ERROR_FAILED_DEPENDENCIES s.
Proof.
  intros Q D Hh Hp Hl Hr Hf. apply not_handled; [done..|]. intros H1 _ Hold. rewrite Hf in Hr. assert (false = true) as [=].
  apply Hr. intros o d Ho. apply (oldest_due s x h bFlush H1 (qi_work s Q) (qi_ordered s Q) D Hh); [|done|by apply Hl].
  unfold completed. by rewrite Hp.
Qed.

(** The next cookie of a registered command. *)
Lemma next_cookie s i t dc :
  devs_ok s -> dev_at s i t = Some dc ->
  i < SYS_DEVICE_COUNT /\
  exists p d, entry_at (apsCmdCompleteData dc) (ui32CCBOffset dc) = Some (Some p) /\ cc_data s !! p = Some d /\
    apsCmdCompleteData dc !! Z.to_nat (ui32CCBOffset dc) = Some (Some p) /\
    ui32MaxDstSyncCount dc = Z.of_nat (length (cc_psDstSync d)) /\ ui32MaxSrcSyncCount dc = Z.of_nat (length (cc_psSrcSync d)).
Proof.
  intros [Dn Dok] Hdc. pose proof (Dok _ _ _ Hdc) as [Do Dl Dc]. split.
  - rewrite <- Dn. unfold dev_at in Hdc. destruct (entry_at _ i) eqn:He; [|done]. apply entry_at_range in He. lia.
  - destruct (lookup_lt_is_Some_2 (apsCmdCompleteData dc) (Z.to_nat (ui32CCBOffset dc))) as [y Hy]; [lia|].
    destruct (Dc _ y Hy) as (p & d & -> & Hc & Ld & Ls). exists p, d. split; [|done].
    unfold entry_at. by rewrite (proj2 (Z.ltb_ge _ _)) by lia.
Qed.

Lemma process_command_runs s pq q b x cs prep bFlush :
  qinv s -> queues s !! pq = Some q -> holds s (history s) pq q b (x :: cs) prep ->
  runs (PVRSRVProcessCommand E (pvLinQueueKM q) (ui32ReadOffset q) bFlush) s (handled s (x_id x)).
Proof.
  intros Q Hq Hd. pose proof (ring_size_range _ (hd_ring _ _ _ _ _ _ _ Hd)) as Hn.
  pose proof (hd_read _ _ _ _ _ _ _ Hd) as Hro. pose proof (hd_buffer _ _ _ _ _ _ _ Hd) as Hb.
  destruct (hd_laid _ _ _ _ _ _ _ Hd) as [C _]. rewrite ahead_0 in C by done.
  assert (ui32ReadOffset q + x_size x <= b_size b) as Hsz.
  { rewrite (hd_size _ _ _ _ _ _ _ Hd). pose proof (ca_size _ _ _ C). lia. }
  destruct (hd_cmds _ _ _ _ _ _ _ Hd x) as [D (dc & Hdc & Md & Ms)]; [by left|].
  assert (waits Queued pq (history s) (x_id x)) as (h & Hh & Hpq & Hp).
  { apply elem_of_ids. rewrite <- (hd_queued _ _ _ _ _ _ _ Hd). by left. }
  pose proof (qi_work s Q) as W. pose proof (x_size_pos _ _ _ C) as Hpos.
  assert (forall o, o ∈ x_dst x ++ x_src x -> is_Some (syncs s !! psKernelSyncInfoKM o)) as Hk.
  { intros o Ho. destruct (w_known s W _ h Hh) as [_ Hk]. apply Hk. by apply (queued_object (history s) x). }
  pose proof (ca_size _ _ _ C) as Cz. unfold sizeof_COMMAND, sizeof_SYNC_OBJECT in Cz.
  unfold PVRSRVProcessCommand. st_run (load_command_ok s _ b _ _ Hb (ca_cmd _ _ _ C) ltac:(lia)).
  rewrite (ca_dst_count _ _ _ C), (ca_src_count _ _ _ C), !Nat2Z.id.
  eapply st_runs_bind.
  { apply (dst_ready_runs s _ b _ (x_dst x)); [done|by apply (ca_dst _ _ _ C)|..].
    - rewrite (ca_dst_at _ _ _ C). unfold sizeof_COMMAND. lia.
    - rewrite (ca_dst_at _ _ _ C). unfold sizeof_COMMAND, sizeof_SYNC_OBJECT. lia.
    - intros o Ho. apply Hk, elem_of_app. by left. }
  intros r s' [-> Hr]. destruct r; simpl; [|apply st_runs_ret].
  2: { apply (not_ready s x h bFlush (x_dst x) false); try done; [|apply Hr]. intros o Ho. apply elem_of_app. by left. }
  assert (all_due s bFlush (x_dst x)) as Rd by by apply Hr.
  eapply st_runs_bind.
  { apply (src_ready_runs s _ b _ (x_src x) _ _ dc); [done|by apply (qi_devs s Q)|done|done|by apply (ca_src _ _ _ C)|..].
    - rewrite (ca_src_at _ _ _ C). unfold sizeof_COMMAND, sizeof_SYNC_OBJECT. lia.
    - rewrite (ca_src_at _ _ _ C). unfold sizeof_COMMAND, sizeof_SYNC_OBJECT. lia.
    - intros o Ho. apply Hk, elem_of_app. by right. }
  intros r s' (-> & Rs & Ra). destruct r; simpl; [|apply st_runs_ret].
  2: { apply (not_ready s x h bFlush (x_src x) false); try done. intros o Ho. apply elem_of_app. by right. }
  destruct (next_cookie s _ _ dc (qi_devs s Q) Hdc) as (Hix & p & d & He & Hc & Hy & Ld & Ls).
  rewrite (proj2 (Z.leb_gt _ _)) by done. st_run (found_ok (fun s => dev_at s _ _) s dc Hdc). rewrite He.
  st_run (eq_refl : written (Some (Some p)) s = Ok (p, s)). st_run (found_ok (fun s => cc_data s !! p) s d Hc).
  destruct (bInUse d) eqn:Hu.
  { apply st_runs_ret, not_handled; [done..|]. intros _ Hidle _. rewrite (Hidle p d Hc) in Hu. done. }
  rewrite <- (ca_dst_count _ _ _ C), <- (ca_src_count _ _ _ C).
  apply (give_runs s x h dc p d b _ (ui32ReadOffset q)); try done; [lia|].
  apply (ready_due s x h bFlush); try done. intros o e Ho He'.
  destruct (Rs eq_refl o e Ho He') as [[? ?]%not_due_false|[? (j & p' & d' & Hj & Hd' & Hu')]]; [done|].
  split; [done|]. intros H1. exfalso.
  destruct (qi_devs s Q) as [_ Dok]. pose proof (dk_slots _ _ (Dok _ _ _ Hdc)). pose proof (dk_offset _ _ (Dok _ _ _ Hdc)).
  pose proof (lookup_lt_Some _ _ _ Hj) as Hjl. pose proof (lookup_lt_Some _ _ _ Hy). replace j with (Z.to_nat (ui32CCBOffset dc)) in Hj by lia.
  simplify_eq. by rewrite Hu in Hu'.
Qed.
End Process.

(** * Working off the queues

    Taking the head off a queue keeps the invariant; the loops over the commands
    of a queue and over the queues end and keep it; when every command before a
    queue's head is complete, one is handed over. *)

Lemma chain_insert m p q q' a L :
  m !! p = Some q -> psNextKM q' = psNextKM q -> chain m a L -> chain (<[p := q']> m) a L.
Proof.
  intros Hp Hn. revert a. induction L as [|c L IH]; intros a; simpl; [done|]. intros (-> & Hc & q0 & Hq & Hch).
  split; [done|]. split; [done|]. destruct (decide (p = c)) as [->|Hne].
  - exists q'. rewrite lookup_insert_eq. simplify_eq. split; [done|]. rewrite Hn. by apply IH.
  - exists q0. rewrite lookup_insert_ne by done. split; [done|]. by apply IH.
Qed.

Section Work.
Context (E : qenv) `{NUM : CommandsPerType}.

(** ** Taking the head off a queue *)

Definition take_off (s : qsys) (p : Z) (q : PVRSRV_QUEUE_INFO) (x : xcmd) : qsys :=
  set_queues (<[p := UPDATE_QUEUE_ROFF (x_size x) q]> (queues s)) s.

Lemma holds_take_off s H p q b x cs prep :
  queues s !! p = Some q -> holds s H p q b (x :: cs) prep ->
  holds (take_off s p q x) (alter (set_p_progress InFlight) (x_id x) H) p (UPDATE_QUEUE_ROFF (x_size x) q) b cs prep.
Proof.
  intros Hq [A1 A2 A3 A4 A5 A6 A7 A8 A9 A10 A11 A12]. pose proof (ring_size_range _ A3) as Hn.
  rewrite UPDATE_QUEUE_ROFF_eq by done. symmetry in A9. rewrite fmap_cons in A9.
  destruct A6 as [C Hl]. simpl in A7. pose proof (x_size_pos _ _ _ C) as Hpos.
  assert (waits Queued p H (x_id x)) as (h & Hh & Hp & Hx) by (apply elem_of_ids; rewrite A9; by left).
  split; simpl; try done.
  - by apply ahead_range; lia.
  - rewrite <- laid_shift by lia. by rewrite Z.add_0_r.
  - lia.
  - rewrite A8. simpl. by rewrite ahead_ahead by lia.
  - symmetry. by apply (ids_dispatch H p (x_id x)).
  - rewrite A10. symmetry. apply (ids_alter_other _ _ _ _ _ h); [done|]. right. by rewrite Hx.
  - intros y Hy. destruct (A12 y) as [D F]; [by right|]. split; [|done].
    eapply describes_alike; [apply alike_alter|done].
Qed.

Lemma queues_ok_take_off s H p q b x cs prep :
  queues_ok s H -> queues s !! p = Some q -> holds s H p q b (x :: cs) prep ->
  queues_ok (take_off s p q x) (alter (set_p_progress InFlight) (x_id x) H).
Proof.
  intros K Hq Hd. pose proof K as [K1 K2 K3 K4]. pose proof (hd_ring _ _ _ _ _ _ _ Hd) as Hr.
  assert (waits Queued p H (x_id x)) as (h & Hh & Hp & Hx).
  { apply elem_of_ids. rewrite <- (hd_queued _ _ _ _ _ _ _ Hd). by left. }
  assert (forall p', is_Some (queues (take_off s p q x) !! p') <-> is_Some (queues s !! p')) as Hdom.
  { intros p'. simpl. destruct (decide (p = p')) as [<-|Hne]; [|by rewrite lookup_insert_ne].
    rewrite lookup_insert_eq, Hq. split; eauto. }
  assert (forall p' q', queues (take_off s p q x) !! p' = Some q' ->
    exists q0, queues s !! p' = Some q0 /\ pvLinQueueKM q' = pvLinQueueKM q0) as Hlin.
  { intros p' q'. simpl. destruct (decide (p = p')) as [<-|Hne].
    - rewrite lookup_insert_eq. intros [= <-]. by exists q.
    - rewrite lookup_insert_ne by done. eauto. }
  split.
  - destruct K1 as (L & Hc & Hnd & Hin). exists L. split; [|split; [done|]].
    + simpl. by apply (chain_insert _ _ q).
    + intros p'. by rewrite Hin, Hdom.
  - intros p' q'. simpl. destruct (decide (p = p')) as [<-|Hne].
    + rewrite lookup_insert_eq. intros [= <-]. exists b, cs, prep. by apply holds_take_off.
    + rewrite lookup_insert_ne by done. intros Hq'. destruct (K2 p' q' Hq') as (b' & cs' & prep' & [A1 A2 A3 A4 A5 A6 A7 A8 A9 A10 A11 A12]).
      exists b', cs', prep'. split; try done.
      * rewrite A9. symmetry. apply (ids_alter_other _ _ _ _ _ h); [done|]. left. congruence.
      * rewrite A10. symmetry. apply (ids_alter_other _ _ _ _ _ h); [done|]. left. congruence.
      * intros y Hy. destruct (A12 y Hy) as [D F]. split; [|done]. eapply describes_alike; [apply alike_alter|done].
  - intros p1 p2 q1 q2 (q1' & H1 & E1)%Hlin (q2' & H2 & E2)%Hlin Hl. apply (K3 p1 p2 q1' q2'); congruence.
  - intros i y (y' & Hy & (Sy & _) & Py)%noted_lookup Hw. apply Hdom. rewrite <- Sy. apply (K4 i y' Hy).
    rewrite Py in Hw. case_decide; [naive_solver|done].
Qed.

(** What working off the queues leaves alone. *)
Record passed (s s' : qsys) : Prop := mk_passed {
  ps_head : psQueueList s' = psQueueList s;
  ps_takes : forall i t nd ns, takes s i t nd ns -> takes s' i t nd ns;
  ps_syncs : forall a, is_Some (syncs s !! a) -> is_Some (syncs s' !! a);
  ps_queues : forall p q, queues s !! p = Some q -> exists ro, queues s' !! p = Some (set_ui32ReadOffset ro q);
  ps_back : forall p, is_Some (queues s' !! p) -> is_Some (queues s !! p);
  ps_history : advanced (history s) (history s') }.

#[export] Instance passed_preorder : PreOrder passed.
Proof.
  split.
  - intros s. split; try done.
    intros p q Hq. exists (ui32ReadOffset q). rewrite Hq. by destruct q.
  - intros s1 s2 s3 [A1 A2 A3 A4 A5 A6] [B1 B2 B3 B4 B5 B6]. split; [congruence|auto..| |auto|by etrans].
    intros p q Hq. destruct (A4 p q Hq) as [ro Hq']. destruct (B4 p _ Hq') as [ro' Hq'']. by exists ro'.
Qed.

Lemma frame_passed s s' : frame s s' -> advanced (history s) (history s') -> passed s s'.
Proof.
  intros [F1 F3 F4 F5 F6 F7] A. split; try done; rewrite F3; [|done].
  intros p q Hq. exists (ui32ReadOffset q). rewrite Hq. by destruct q.
Qed.

Lemma calm_passed s s' : calm s s' -> passed s s'.
Proof. intros [K M]. apply frame_passed; [by apply kept_frame|by apply moved_advanced]. Qed.

Lemma take_off_passed s p q x : queues s !! p = Some q -> ring_size (ui32QueueSize q) -> passed s (take_off s p q x).
Proof.
  intros Hq Hr. split; try done.
  - intros p' q' Hq'. simpl. destruct (decide (p = p')) as [<-|Hne].
    + rewrite lookup_insert_eq, UPDATE_QUEUE_ROFF_eq by done. simplify_eq. eauto.
    + rewrite lookup_insert_ne by done. exists (ui32ReadOffset q'). rewrite Hq'. by destruct q'.
  - intros p' Hq'. simpl in Hq'. destruct (decide (p = p')) as [<-|Hne]; [eauto|by rewrite lookup_insert_ne in Hq'].
Qed.

(** ** One queue *)

(** How working off ends: with a device that takes everything, nothing happens
    or a command is handed over. *)
Definition settled (s s' : qsys) : Prop :=
  qinv s' /\ passed s s' /\ sQProcessResource s' = sQProcessResource s /\
  (eager E -> s' = s \/ progressed (history s) (history s')).

Lemma settled_refl s : qinv s -> settled s s.
Proof. intros Q. split; [done|]. split; [reflexivity|]. split; [done|]. by left. Qed.

Lemma settled_trans s1 s2 s3 : settled s1 s2 -> settled s2 s3 -> settled s1 s3.
Proof.
  intros (A1 & A2 & A3 & A4) (B1 & B2 & B3 & B4). split; [done|]. split; [by etrans|]. split; [congruence|].
  intros He. destruct (A4 He) as [->|P]; [by apply B4|]. right. by apply (progressed_later _ (history s2)), (ps_history _ _ B2).
Qed.

(** The head was handed over. *)
Lemma taken_settled s s1 p q b x cs prep :
  qinv s -> queues s !! p = Some q -> holds s (history s) p q b (x :: cs) prep -> handled E s (x_id x) PVRSRV_OK s1 ->
  let s2 := take_off s1 p q x in
  settled s s2 /\ holds s2 (history s2) p (UPDATE_QUEUE_ROFF (x_size x) q) b cs prep /\ progressed (history s) (history s2).
Proof.
  intros Q Hq Hd (W1 & D1 & F1 & El & [(_ & Hdue & M)|[? _]] & _); [|done]. intros s2.
  pose proof Q as [K W O F L D]. pose proof (hd_ring _ _ _ _ _ _ _ Hd) as Hr.
  assert (queues s1 !! p = Some q) as Hq1 by by rewrite (fr_queues _ _ F1).
  assert (moved (history s) (history s)) as M0 by reflexivity.
  pose proof (holds_frame _ _ _ _ _ _ _ _ _ F1 M0 Hd) as Hd1.
  pose proof (queues_ok_frame _ _ _ _ F1 M0 K) as K1.
  assert (ids Queued (history s) p = x_id x :: (x_id <$> cs)) as Hids by by rewrite <- (hd_queued _ _ _ _ _ _ _ Hd).
  assert (waits Queued p (history s) (x_id x)) as (h & Hh & Hp & Hx) by (apply elem_of_ids; rewrite Hids; by left).
  assert (progressed (history s) (history s2)) as P.
  { destruct (moved_lookup M (x_id x) (set_p_progress InFlight h)) as (h' & Hh' & S).
    { by rewrite list_lookup_alter_eq, Hh. }
    exists (x_id x), h, h'. split; [done|]. split; [done|]. split; [done|]. apply (step_dispatched _ _ S). by left. }
  assert (frame s2 s2) as F2 by reflexivity. split; [|split; [|done]].
  - split; [|split; [|split; [exact El|by right]]].
    + split.
      * eapply (queues_ok_frame s2 s2); [done|exact M|]. by apply (queues_ok_take_off s1 _ p q b x cs prep).
      * by apply (work_ok_same s1).
      * apply (moved_ordered M). apply (ordered_dispatch _ _ h); [done..|unfold completed; by rewrite Hx|by apply Hdue].
      * apply (moved_fifo M). by apply (fifo_dispatch _ p _ (x_id <$> cs)).
      * apply (moved_prepared_last _ _ M). by apply prepared_last_alter.
      * by apply (devs_ok_same s1).
    + etrans; [|by apply take_off_passed]. apply frame_passed; [done|].
      etrans; [by apply (advanced_dispatch _ (x_id x) h)|by apply moved_advanced].
  - eapply (holds_frame s2 s2); [done|exact M|]. by apply holds_take_off.
Qed.

Lemma queue_empty s H p q b cs prep :
  holds s H p q b cs prep -> ui32ReadOffset q = ui32WriteOffset q <-> cs = [].
Proof.
  intros [A1 A2 A3 A4 A5 A6 A7 A8 A9 A10 A11 A12]. pose proof (ring_size_range _ A3) as Hn.
  apply laid_app in A6 as [Hl1 Hl2]. pose proof (laid_extent _ _ _ _ _ Hl1). pose proof (laid_extent _ _ _ _ _ Hl2).
  rewrite extent_app in A7. rewrite A8. split.
  - intros Eq. destruct cs as [|x cs]; [done|]. symmetry in Eq. apply ahead_same in Eq; [|lia..].
    destruct Hl1 as [C Hl]. pose proof (x_size_pos _ _ _ C). pose proof (laid_extent _ _ _ _ _ Hl). simpl in Eq. lia.
  - intros ->. simpl. by rewrite ahead_0.
Qed.

Lemma queue_space s H p q b cs prep :
  holds s H p q b cs prep -> GET_SPACE_IN_CMDQ q = ui32QueueSize q - 1 - extent cs.
Proof.
  intros [A1 A2 A3 A4 A5 A6 A7 A8 A9 A10 A11 A12]. pose proof (ring_size_range _ A3).
  apply laid_app in A6 as [Hl1 Hl2]. pose proof (laid_extent _ _ _ _ _ Hl1). pose proof (laid_extent _ _ _ _ _ Hl2).
  rewrite extent_app in A7. apply GET_SPACE_eq; [done..|lia|done].
Qed.

Lemma oldest_head x H p i j l : ids x H p = j :: l -> x <> Completed -> oldest H i -> i ∈ ids x H p -> i = j.
Proof.
  intros Hids Hx Ho Hi. destruct (Nat.lt_trichotomy i j) as [Hl|[?|Hl]]; [exfalso|done|exfalso].
  - apply (ids_head _ _ _ _ _ i Hids Hl). by apply elem_of_ids.
  - assert (waits x p H j) as (h & Hh & _ & Hp) by (apply elem_of_ids; rewrite Hids; by left).
    pose proof (Ho j h Hl Hh) as Hc. unfold completed in Hc. congruence.
Qed.

Lemma process_queue_runs fuel s p q b cs prep bFlush :
  qinv s -> queues s !! p = Some q -> holds s (history s) p q b cs prep -> (length cs <= fuel)%nat ->
  runs (process_queue E fuel p bFlush) s (fun _ s' => settled s s' /\
    (eager E -> DC_NUM_COMMANDS_PER_TYPE = 1%nat -> idle s ->
     (exists i, i ∈ ids Queued (history s) p /\ oldest (history s) i) -> progressed (history s) (history s'))).
Proof.
  revert s q cs. induction fuel as [|fuel IH]; intros s q cs Q Hq Hd Hf; simpl;
    st_run (found_ok (fun s => queues s !! p) s q Hq); pose proof (queue_empty _ _ _ _ _ _ _ Hd) as He.
  all: destruct (Z.eqb_spec (ui32ReadOffset q) (ui32WriteOffset q)) as [Eq|Ne].
  - apply He in Eq as ->. apply st_runs_ret. split; [by apply settled_refl|]. intros _ _ _ (i & Hi & _).
    rewrite <- (hd_queued _ _ _ _ _ _ _ Hd) in Hi. by apply not_elem_of_nil in Hi.
  - destruct cs; [by rewrite (proj2 He) in Ne|simpl in Hf; lia].
  - apply He in Eq as ->. apply st_runs_ret. split; [by apply settled_refl|]. intros _ _ _ (i & Hi & _).
    rewrite <- (hd_queued _ _ _ _ _ _ _ Hd) in Hi. by apply not_elem_of_nil in Hi.
  - destruct cs as [|x cs]; [by rewrite (proj2 He) in Ne|].
    eapply st_runs_bind; [by apply (process_command_runs E s p q b x cs prep bFlush)|]. intros e s1 Hh.
    pose proof Hh as (W1 & D1 & F1 & El & R & Ag). destruct (Z.eqb_spec e PVRSRV_OK) as [->|Hne].
    + pose proof (ring_size_range _ (hd_ring _ _ _ _ _ _ _ Hd)) as Hn. pose proof (hd_read _ _ _ _ _ _ _ Hd) as Hro.
      destruct (hd_laid _ _ _ _ _ _ _ Hd) as [C _]. rewrite ahead_0 in C by done.
      assert (buffers s1 !! pvLinQueueKM q = Some b) as Hb1 by (rewrite (fr_buffers _ _ F1); apply (hd_buffer _ _ _ _ _ _ _ Hd)).
      st_run (load_command_ok s1 _ b _ _ Hb1 (ca_cmd _ _ _ C)
        ltac:(rewrite (hd_size _ _ _ _ _ _ _ Hd); unfold PVRSRV_MAX_CMD_SIZE; lia)).
      assert (queues s1 !! p = Some q) as Hq1 by by rewrite (fr_queues _ _ F1).
      st_run (st_bind_ok _ _ _ _ _ (found_ok (fun s => queues s !! p) s1 q Hq1)).
      destruct (taken_settled s s1 p q b x cs prep Q Hq Hd Hh) as (S2 & Hd2 & P2).
      set (s2 := take_off s1 p q x) in *. change (set_queues _ s1) with s2. pose proof S2 as (Q2 & _).
      eapply st_runs_mono; [apply (IH s2 (UPDATE_QUEUE_ROFF (x_size x) q) cs); [done|by apply lookup_insert_eq|done|simpl in Hf; lia]|].
      simpl. intros _ s' [S' _]. split; [by apply (settled_trans s s2)|]. intros _ _ _ _.
      destruct S' as (_ & Ps & _). by apply (progressed_later _ (history s2)), (ps_history _ _ Ps).
    + destruct R as [[? _]|(_ & M & Es)]; [done|]. apply st_runs_ret. split.
      * split; [by apply (qinv_frame s)|]. split; [apply frame_passed; [done|by apply moved_advanced]|].
        split; [done|]. intros Heg. left. by apply Es.
      * intros Heg H1 Hidle (i & Hi & Hold). exfalso. apply Hne, Ag; try done.
        assert (ids Queued (history s) p = x_id x :: (x_id <$> cs)) as Hids by by rewrite <- (hd_queued _ _ _ _ _ _ _ Hd).
        by rewrite <- (oldest_head Queued (history s) p i (x_id x) (x_id <$> cs)).
Qed.

(** ** The queues *)

Lemma chain_passed m m' a L :
  (forall p q, m !! p = Some q -> exists ro, m' !! p = Some (set_ui32ReadOffset ro q)) -> chain m a L -> chain m' a L.
Proof.
  intros Hm. revert a. induction L as [|c L IH]; intros a; simpl; [done|]. intros (-> & Hc & q & Hq & Hch).
  destruct (Hm c q Hq) as [ro Hro]. split; [done|]. split; [done|]. exists (set_ui32ReadOffset ro q). split; [done|]. by apply IH.
Qed.

Lemma holds_length s H p q b cs prep : holds s H p q b cs prep -> (length cs <= Z.to_nat (ui32QueueSize q))%nat.
Proof.
  intros Hd. pose proof (hd_room _ _ _ _ _ _ _ Hd) as Hr. pose proof (hd_laid _ _ _ _ _ _ _ Hd) as Hl.
  apply laid_app in Hl as [Hl Hl2]. pose proof (laid_extent _ _ _ _ _ Hl2). rewrite extent_app in Hr.
  assert (forall cs t, laid b (ui32QueueSize q) (ui32ReadOffset q) t cs -> Z.of_nat (length cs) <= extent cs) as Hc; [|specialize (Hc _ _ Hl); lia].
  clear. induction cs as [|x cs IH]; intros t; simpl; [lia|]. intros [C Hl]. pose proof (x_size_pos _ _ _ C).
  pose proof (IH _ Hl). lia.
Qed.

Lemma process_list_runs fuel s a L bFlush :
  qinv s -> chain (queues s) a L -> (length L <= fuel)%nat ->
  runs (process_list E fuel a bFlush) s (fun _ s' => settled s s' /\
    (eager E -> DC_NUM_COMMANDS_PER_TYPE = 1%nat -> idle s ->
     (exists p i, p ∈ L /\ i ∈ ids Queued (history s) p /\ oldest (history s) i) -> progressed (history s) (history s'))).
Proof.
  revert s a L. induction fuel as [|fuel IH]; intros s a L Q Hc Hf; simpl; destruct L as [|c L]; simpl in Hc, Hf; try lia.
  1,2: subst a; simpl; apply st_runs_ret; split; [by apply settled_refl|];
    intros _ _ _ (p & i & Hp & _); by apply not_elem_of_nil in Hp.
  destruct Hc as (-> & Hc & q & Hq & Hch). rewrite (proj2 (Z.eqb_neq _ _) Hc).
  st_run (found_ok (fun s => queues s !! c) s q Hq). destruct (qk_queue _ _ (qi_queues s Q) c q Hq) as (b & cs & prep & Hd).
  eapply st_runs_bind; [apply (process_queue_runs _ s c q b cs prep); [done..|by apply (holds_length s (history s) c q b cs prep)]|].
  intros _ s1 [S1 G1]. pose proof S1 as (Q1 & P1 & _ & Es1). destruct (ps_queues _ _ P1 c q Hq) as [ro Hq1].
  st_run (found_ok (fun s => queues s !! c) s1 _ Hq1). simpl.
  eapply st_runs_mono; [apply (IH s1 (psNextKM q) L); [done| |lia]|].
  { eapply chain_passed; [|done]. apply (ps_queues _ _ P1). }
  simpl. intros _ s2 [S2 G2]. split; [by apply (settled_trans s s1)|].
  intros Heg H1 Hidle (p & i & Hp & Hi & Hold). destruct (Es1 Heg) as [->|Pr].
  - apply elem_of_cons in Hp as [->|Hp]; [|apply G2; eauto 10].
    apply (progressed_later _ (history s)); [by apply G1; eauto|]. by apply (ps_history _ _ (proj1 (proj2 S2))).
  - apply (progressed_later _ (history s1)); [done|]. by apply (ps_history _ _ (proj1 (proj2 S2))).
Qed.
End Work.

(** * [PVRSRVProcessQueues] and waiting

    The lock, the loop over all queues, and what the deferred procedure of the
    interrupt does while a call waits. *)

(** Only the lock, the clock and the outputs differ. *)
Record quiet (s s' : qsys) : Prop := mk_quiet {
  qt_head : psQueueList s' = psQueueList s;
  qt_devices : apsDeviceCommandData s' = apsDeviceCommandData s;
  qt_nodes : psDeviceNodeList s' = psDeviceNodeList s;
  qt_queues : queues s' = queues s;
  qt_buffers : buffers s' = buffers s;
  qt_dev : dev_data s' = dev_data s;
  qt_cookies : cc_data s' = cc_data s;
  qt_syncs : syncs s' = syncs s;
  qt_history : history s' = history s }.

#[export] Instance quiet_preorder : PreOrder quiet.
Proof.
  split; [by split|]. intros s1 s2 s3 [A1 A2 A3 A4 A5 A6 A7 A8 A9] [B1 B2 B3 B4 B5 B6 B7 B8 B9]. split; congruence.
Qed.

Definition unlocked (s : qsys) : Prop := ui32Lock (sQProcessResource s) = 0.

Section Run.
Context (E : qenv) `{NUM : CommandsPerType}.

Lemma quiet_frame s s' : quiet s s' -> frame s s'.
Proof.
  intros [A1 A2 A3 A4 A5 A6 A7 A8 A9]. split; try done; [|by rewrite A8].
  intros i t nd ns (dc & Hd & ?). exists dc. split; [|done]. unfold dev_at in *. by rewrite A2, A6.
Qed.

Lemma quiet_qinv s s' : quiet s s' -> qinv s -> qinv s'.
Proof.
  intros Hq Q. pose proof Hq as [A1 A2 A3 A4 A5 A6 A7 A8 A9]. pose proof Q as [_ W _ _ _ D].
  apply (qinv_frame s); [by apply quiet_frame|by rewrite A9|by apply (work_ok_same s)|by apply (devs_ok_same s)|done].
Qed.

Lemma quiet_passed s s' : quiet s s' -> passed s s'.
Proof. intros Q. apply frame_passed; [by apply quiet_frame|]. by rewrite (qt_history _ _ Q). Qed.

(** ** The lock *)

(** Another processor that holds the lock gives it up in time. *)
Definition patient : Prop := forall t, exists k, (k < lock_patience E)%nat /\ contended E (t + k) = false.

Lemma OSLockResource_runs id s :
  unlocked s ->
  runs (OSLockResource E id) s (fun e s' => quiet s s' /\ q_clock s' = S (q_clock s) /\
    ((e = PVRSRV_OK /\ sQProcessResource s' = mk_resource 1 id) \/
     (e <> PVRSRV_OK /\ contended E (q_clock s) = true /\ unlocked s'))).
Proof.
  intros Hu. unfold OSLockResource. st_run (eq_refl : tick s = Ok (_, _)). st_get. simpl. rewrite Hu. simpl.
  destruct (contended E (q_clock s)) eqn:Hc; simpl.
  - apply st_runs_ret. split; [done|]. split; [done|]. by right.
  - st_mod. apply st_runs_ret. split; [done|]. split; [done|]. by left.
Qed.

Lemma OSUnlockResource_runs id s :
  sQProcessResource s = mk_resource 1 id ->
  runs (OSUnlockResource id) s (fun e s' => e = PVRSRV_OK /\ quiet s s' /\ unlocked s').
Proof.
  intros Hr. unfold OSUnlockResource. st_get. rewrite Hr. simpl. rewrite Z.eqb_refl. simpl. st_mod.
  apply st_runs_ret. done.
Qed.

Lemma lock_loop_runs fuel s :
  unlocked s -> (exists k, (k < fuel)%nat /\ contended E (q_clock s + k) = false) ->
  runs (lock_loop E fuel) s (fun _ s' => quiet s s' /\ sQProcessResource s' = mk_resource 1 ISR_ID).
Proof.
  revert s. induction fuel as [|fuel IH]; intros s Hu (k & Hk & Hc); [lia|]. simpl.
  eapply st_runs_bind; [by apply OSLockResource_runs|]. intros e s1 (Q1 & Ck & R).
  destruct (Z.eqb_spec e PVRSRV_OK) as [->|Hne].
  - apply st_runs_ret. destruct R as [[_ ?]|[? _]]; done.
  - destruct R as [[? _]|(_ & Hcont & Hu1)]; [done|]. destruct k as [|k].
    + rewrite Nat.add_0_r in Hc. congruence.
    + eapply st_runs_mono; [apply (IH s1 Hu1)|].
      * exists k. split; [lia|]. rewrite Ck. by rewrite Nat.add_succ_comm.
      * intros _ s2 [Q2 ?]. split; [by etrans|done].
Qed.

(** ** All queues *)

Definition ready (s : qsys) : Prop := qinv s /\ unlocked s.

Lemma quiet_outputs {A} (l : list A) f s :
  (forall x s, runs (f x) s (fun _ s' => quiet s s' /\ sQProcessResource s' = sQProcessResource s)) ->
  runs (for_each l f) s (fun _ s' => quiet s s' /\ sQProcessResource s' = sQProcessResource s).
Proof.
  intros Hf. revert s. induction l as [|x l IH]; intros s; simpl; [by apply st_runs_ret|].
  eapply st_runs_bind; [by apply Hf|]. intros _ s1 [Q1 R1]. eapply st_runs_mono; [by apply IH|].
  intros _ s2 [Q2 R2]. split; [by etrans|congruence].
Qed.

Lemma emit_when b o s :
  runs (st_when b (emit o)) s (fun _ s' => quiet s s' /\ sQProcessResource s' = sQProcessResource s).
Proof. destruct b; [by eexists _, _|by apply st_runs_ret]. Qed.

(** A list without repetition of the keys of a map is no longer than the map. *)
Lemma listed_size {A} (m : gmap Z A) L : NoDup L -> (forall p, p ∈ L -> is_Some (m !! p)) -> (length L <= size m)%nat.
Proof.
  intros Hn Hm. rewrite <- (size_list_to_set (C := gset Z) L) by done. rewrite <- (size_dom (D := gset Z) m).
  apply subseteq_size. intros p Hp%elem_of_list_to_set. by apply elem_of_dom, Hm.
Qed.

Lemma process_queues_runs s bFlush :
  patient -> ready s ->
  runs (PVRSRVProcessQueues E bFlush) s (fun e s' => e = PVRSRV_OK /\ ready s' /\ passed s s' /\
    (eager E -> DC_NUM_COMMANDS_PER_TYPE = 1%nat -> idle s ->
     (exists i h, history s !! i = Some h /\ p_progress h = Queued /\ oldest (history s) i) -> progressed (history s) (history s'))).
Proof.
  intros Hpt [Q Hu]. unfold PVRSRVProcessQueues. eapply st_runs_bind; [apply lock_loop_runs; [done|apply Hpt]|].
  intros _ s1 [Q1 R1]. st_get. eapply st_runs_bind; [by apply emit_when|]. intros _ s2 [Q2 R2]. st_get.
  assert (quiet s s2) as Q02 by by etrans. pose proof (quiet_qinv _ _ Q02 Q) as I2.
  destruct (qk_list _ _ (qi_queues s2 I2)) as (L & Hch & Hnd & Hin). rewrite (qt_head _ _ Q2) in Hch.
  eapply st_runs_bind.
  { apply (process_list_runs E (size (queues s2)) s2 (psQueueList s1) L); [done..|]. apply listed_size; [done|]. intros p. apply Hin. }
  intros _ s3 [(I3 & P3 & R3 & _) G3]. eapply st_runs_bind; [by apply emit_when|]. intros _ s4 [Q4 R4]. st_get.
  eapply st_runs_bind; [apply quiet_outputs; intros x s'; by apply emit_when|]. intros _ s5 [Q5 R5].
  eapply st_runs_bind; [apply OSUnlockResource_runs; congruence|]. intros _ s6 (_ & Q6 & U6).
  apply st_runs_ret. assert (quiet s3 s6) as Q36 by (etrans; [done|by etrans]).
  split; [done|]. split; [split; [by apply (quiet_qinv s3)|done]|].
  split; [etrans; [by apply (quiet_passed s s2)|]; etrans; [exact P3|by apply quiet_passed]|].
  intros Heg H1 Hidle (i & h & Hi & Hp & Hold). rewrite (qt_history _ _ Q36), <- (qt_history _ _ Q02).
  apply G3; [done..| |].
  - intros p c. rewrite (qt_cookies _ _ Q02). apply Hidle.
  - exists (p_queue h), i. rewrite (qt_history _ _ Q02). split; [|split; [|done]].
    + apply Hin, (qk_home _ _ (qi_queues s2 I2) i h); [by rewrite (qt_history _ _ Q02)|by left].
    + apply elem_of_ids. by exists h.
Qed.

(** ** While a call waits *)

Lemma interrupt_runs i s :
  patient -> ready s -> runs (interrupt E i) s (fun _ s' => ready s' /\ passed s s').
Proof.
  intros Hpt Hr. destruct i as [|p]; simpl.
  - eapply st_runs_bind; [by apply process_queues_runs|]. intros _ s' (_ & ? & ? & _). by apply st_runs_ret.
  - st_get. destruct Hr as [Q Hu]. destruct (in_use s p) eqn:Hp; simpl.
    + eapply st_runs_mono; [apply complete_safe; [by apply (qi_work s Q)|done]|]. intros _ s' [W C].
      split; [split|]; [by apply (qinv_calm s)| |by apply calm_passed]. unfold unlocked. by rewrite (kp_lock _ _ (proj1 C)).
    + apply st_runs_ret. split; [done|reflexivity].
Qed.

Lemma interrupts_runs l s :
  patient -> ready s -> runs (for_each l (interrupt E)) s (fun _ s' => ready s' /\ passed s s').
Proof.
  intros Hpt. revert s. induction l as [|i l IH]; intros s Hr; simpl; [by apply st_runs_ret|].
  eapply st_runs_bind; [by apply interrupt_runs|]. intros _ s1 [R1 P1].
  eapply st_runs_mono; [by apply IH|]. intros _ s2 [R2 P2]. split; [done|by etrans].
Qed.

Lemma tick_ready s : ready s -> ready (set_q_clock (S (q_clock s)) s) /\ passed s (set_q_clock (S (q_clock s)) s).
Proof.
  intros [Q U]. assert (quiet s (set_q_clock (S (q_clock s)) s)) as Hq by done.
  split; [split; [by apply (quiet_qinv s)|done]|by apply quiet_passed].
Qed.

Lemma poll_runs n test s :
  patient -> ready s -> (forall s', ready s' -> passed s s' -> exists b, test s' = Ok (b, s')) ->
  runs (poll E n test) s (fun b s' => ready s' /\ passed s s' /\ (b = true -> test s' = Ok (true, s'))).
Proof.
  intros Hpt. revert s. induction n as [|n IH]; intros s Hr Ht; simpl; [apply st_runs_ret; split; [done|]; by split|].
  destruct (Ht s Hr ltac:(reflexivity)) as [b Hb]. st_run Hb. destruct b; [by apply st_runs_ret|].
  st_run (eq_refl : tick s = Ok (_, _)). destruct (tick_ready s Hr) as [R1 P1].
  eapply st_runs_bind; [by apply interrupts_runs|]. intros _ s2 [R2 P2].
  assert (passed s s2) as P by by etrans.
  eapply st_runs_mono; [apply IH; [done|]|].
  - intros s' R' P'. apply Ht; [done|by etrans].
  - simpl. intros b s' (R' & P' & B'). split; [done|]. split; [by etrans|done].
Qed.

Lemma LOOP_UNTIL_TIMEOUT_runs test s :
  patient -> ready s -> (forall s', ready s' -> passed s s' -> exists b, test s' = Ok (b, s')) ->
  runs (LOOP_UNTIL_TIMEOUT E test) s (fun b s' => ready s' /\ passed s s' /\ (b = true -> test s' = Ok (true, s'))).
Proof.
  intros Hpt Hr Ht. unfold LOOP_UNTIL_TIMEOUT. st_run (eq_refl : tick s = Ok (_, _)).
  destruct (tick_ready s Hr) as [R1 P1]. eapply st_runs_mono; [apply poll_runs; [done..|]|].
  - intros s' R' P'. apply Ht; [done|by etrans].
  - intros b s' (R' & P' & B'). split; [done|]. split; [by etrans|done].
Qed.
End Run.
