(* ===== verification/PvrQueueCreate.v ===== *)
(** * The life of a queue

    Creating and destroying command queues. *)

From stdpp Require Import base list numbers option gmap.
From Stdlib Require Import ZArith Lia.
From S2P Require Import Prelude PvrHash Stateful PvrQueue PvrQueueRing PvrQueueHistory PvrQueueInv PvrQueueGive PvrQueueProcess.
From stdpp Require Import list.

Local Open Scope Z_scope.

(** * Creating and destroying command queues *)

(** ** Powers of two *)

Lemma power_loop_eq fuel t j :
  0 <= t < 2 ^ Z.of_nat fuel -> 0 <= j ->
  power_loop fuel t (u32 (2 ^ j)) = u32 (2 ^ (j + (if t =? 0 then 0 else Z.log2 t + 1))).
Proof.
  revert t j. induction fuel as [|fuel IH]; intros t j Ht Hj; cbn [power_loop].
  - assert (t = 0) as -> by (simpl in Ht; lia). simpl. by rewrite Z.add_0_r.
  - rewrite Nat2Z.inj_succ, Z.pow_succ_r in Ht by lia. destruct (Z.eqb_spec t 0) as [->|Hne]; [by rewrite Z.add_0_r|].
    rewrite Z.shiftl_mul_pow2 by lia. change (2 ^ 1) with 2.
    replace (u32 (u32 (2 ^ j) * 2)) with (u32 (2 ^ (j + 1))).
    2: { unfold wrapU. rewrite Z.mul_mod_idemp_l by lia. f_equal. rewrite Z.pow_add_r by lia. lia. }
    pose proof (Z.div_mod t 2 ltac:(lia)). pose proof (Z.mod_pos_bound t 2 ltac:(lia)).
    assert (Z.shiftr t 1 = t / 2) as -> by by rewrite Z.shiftr_div_pow2.
    rewrite IH by lia. do 2 f_equal.
    destruct (Z.eqb_spec (t / 2) 0) as [Hz|Hz].
    + assert (t = 1) as -> by lia. simpl. lia.
    + assert (0 < t / 2) by lia. pose proof (Z.log2_shiftr t 1 ltac:(lia)) as Hl.
      rewrite Z.shiftr_div_pow2 in Hl by lia. change (2 ^ 1) with 2 in Hl.
      assert (1 <= Z.log2 t) by (change 1 with (Z.log2 2); apply Z.log2_le_mono; lia). lia.
Qed.

Lemma NearestPower2_eq n : 0 < n < 2 ^ 32 -> NearestPower2 n = u32 (2 ^ Z.log2_up n).
Proof.
  intros Hn. unfold NearestPower2. rewrite (proj2 (Z.eqb_neq n 0)) by lia.
  change 1 with (u32 (2 ^ 0)) at 2. rewrite power_loop_eq by (change (Z.of_nat 32) with 32; lia).
  do 2 f_equal. destruct (Z.eqb_spec (n - 1) 0) as [H1|H1].
  - assert (n = 1) as -> by lia. done.
  - unfold Z.log2_up. rewrite (proj2 (Z.compare_lt_iff 1 n)) by lia. replace (Z.pred n) with (n - 1) by lia. lia.
Qed.

Lemma NearestPower2_ring n : 0 < n <= 2 ^ 31 -> ring_size (NearestPower2 n).
Proof.
  intros Hn. rewrite NearestPower2_eq by lia. exists (Z.log2_up n).
  assert (0 <= Z.log2_up n <= 31) as Hl.
  { split; [apply Z.log2_up_nonneg|]. rewrite <- (Z.log2_up_pow2 31) by lia. apply Z.log2_up_le_mono. lia. }
  split; [done|]. apply wrapU_small. split; [apply Z.pow_nonneg; lia|]. apply Z.pow_lt_mono_r; lia.
Qed.

(** ** A queue more *)

Section Create.
Context (E : qenv) `{NUM : CommandsPerType}.

Lemma OSAllocMem_runs used s :
  runs (OSAllocMem E used) s (fun p s' => s' = set_q_clock (S (q_clock s)) s /\ (p <> 0 -> used s' p = false)).
Proof.
  unfold OSAllocMem. st_run (eq_refl : tick s = Ok (_, _)). eexists _, _. split; [done|]. split; [done|].
  destruct (q_alloc E (q_clock s)) as [p|]; [|by intros []]. destruct (p =? 0); [by intros []|]. simpl.
  destruct (used _ p) eqn:Hu; [by intros []|done].
Qed.

(** A queue in the buffers that stay. *)
Lemma holds_elsewhere s s' H p q b cs prep :
  buffers s' !! pvLinQueueKM q = Some b -> apsDeviceCommandData s' = apsDeviceCommandData s -> dev_data s' = dev_data s ->
  holds s H p q b cs prep -> holds s' H p q b cs prep.
Proof.
  intros Hb E1 E2 [A1 A2 A3 A4 A5 A6 A7 A8 A9 A10 A11 A12]. split; try done.
  intros x Hx. destruct (A12 x Hx) as [D (dc & Hd & ?)]. split; [done|]. exists dc. split; [|done].
  unfold dev_at in *. by rewrite E1, E2.
Qed.

(** The queue [p] with the empty buffer [l] was put before the others. *)
Record added (s s' : qsys) (p l : Z) (q : PVRSRV_QUEUE_INFO) : Prop := mk_added {
  ad_queue : p <> 0 /\ queues s !! p = None /\ queues s' = <[p := q]> (queues s);
  ad_buffer : l <> 0 /\ buffers s !! l = None /\
    buffers s' = <[l := mk_buffer (ui32QueueSize q + PVRSRV_MAX_CMD_SIZE) ∅]> (buffers s);
  ad_head : psQueueList s' = p;
  ad_fields : pvLinQueueKM q = l /\ ui32ReadOffset q = 0 /\ ui32WriteOffset q = 0 /\ psNextKM q = psQueueList s;
  ad_ring : ring_size (ui32QueueSize q);
  ad_devices : apsDeviceCommandData s' = apsDeviceCommandData s;
  ad_dev : dev_data s' = dev_data s;
  ad_cookies : cc_data s' = cc_data s;
  ad_syncs : syncs s' = syncs s;
  ad_history : history s' = history s }.

Lemma ids_none s H p x :
  queues_ok s H -> queues s !! p = None -> x = Queued \/ x = Prepared -> ids x H p = [].
Proof.
  intros K Hp Hx. apply elem_of_nil_inv. intros i (h & Hi & Hq & Hpr)%elem_of_ids.
  destruct (qk_home _ _ K i h Hi) as [q Hq']; [destruct Hx; subst; auto|]. congruence.
Qed.

Lemma chain_other m p q a L : p ∉ L -> chain m a L -> chain (<[p := q]> m) a L.
Proof.
  revert a. induction L as [|c L IH]; intros a; simpl; [done|]. intros Hp (-> & Hc & q0 & Hq & Hch).
  apply not_elem_of_cons in Hp as [Hne Hp]. split; [done|]. split; [done|]. exists q0.
  rewrite lookup_insert_ne by done. split; [done|]. by apply IH.
Qed.

Lemma queues_ok_added s s' p l q : added s s' p l q -> queues_ok s (history s) -> queues_ok s' (history s).
Proof.
  intros [(Hp0 & Hp & Eq) (Hl0 & Hl & Eb) Eh (Fl & Fr & Fw & Fn) Hr E1 E2 _ _ _] K. pose proof K as [K1 K2 K3 K4].
  assert (forall p' q', queues s !! p' = Some q' -> pvLinQueueKM q' <> l) as Hlin.
  { intros p' q' Hq'. destruct (K2 p' q' Hq') as (b & cs & prep & Hd). pose proof (hd_buffer _ _ _ _ _ _ _ Hd). congruence. }
  split; rewrite ?Eq, ?Eh.
  - destruct K1 as (L & Hc & Hnd & Hin). assert (p ∉ L) as HpL by (rewrite Hin, Hp; by intros []).
    exists (p :: L). split; [|split; [by apply NoDup_cons|]].
    + simpl. split; [done|]. split; [done|]. exists q. rewrite lookup_insert_eq. split; [done|]. rewrite Fn. by apply chain_other.
    + intros p'. rewrite elem_of_cons, Hin. destruct (decide (p = p')) as [<-|Hne].
      * rewrite lookup_insert_eq. split; eauto.
      * rewrite lookup_insert_ne by done. naive_solver.
  - intros p' q'. destruct (decide (p = p')) as [<-|Hne].
    + rewrite lookup_insert_eq. intros [= <-]. exists (mk_buffer (ui32QueueSize q + PVRSRV_MAX_CMD_SIZE) ∅), [], [].
      pose proof (ring_size_range _ Hr). split; try done; simpl.
      * rewrite Fl, Eb. by apply lookup_insert_eq.
      * by rewrite Fl.
      * rewrite Fr. lia.
      * lia.
      * rewrite Fr, Fw. by rewrite ahead_0 by lia.
      * symmetry. apply (ids_none s); auto.
      * symmetry. apply (ids_none s); auto.
      * lia.
      * intros x Hx. by apply not_elem_of_nil in Hx.
    + rewrite lookup_insert_ne by done. intros Hq'. destruct (K2 p' q' Hq') as (b & cs & prep & Hd). exists b, cs, prep.
      apply (holds_elsewhere s); try done. rewrite Eb, lookup_insert_ne; [apply (hd_buffer _ _ _ _ _ _ _ Hd)|].
      intros ?. by apply (Hlin p' q').
  - intros p1 p2 q1 q2. destruct (decide (p = p1)) as [<-|H1], (decide (p = p2)) as [<-|H2]; try done.
    + rewrite lookup_insert_eq, lookup_insert_ne by done. intros [= <-] Hq2 El. exfalso. apply (Hlin p2 q2); congruence.
    + rewrite lookup_insert_eq, lookup_insert_ne by done. intros Hq1 [= <-] El. exfalso. apply (Hlin p1 q1); congruence.
    + rewrite !lookup_insert_ne by done. apply K3.
  - intros i h Hi Hw. destruct (decide (p = p_queue h)) as [<-|Hne]; [rewrite lookup_insert_eq; eauto|].
    rewrite lookup_insert_ne by done. by apply (K4 i).
Qed.

Lemma qinv_added s s' p l q : added s s' p l q -> qinv s -> qinv s'.
Proof.
  intros A [K W O F L D]. pose proof A as [_ _ _ _ _ E1 E2 E3 E4 E5]. split; rewrite ?E5; try done.
  - by apply (queues_ok_added s s' p l q).
  - by apply (work_ok_same s).
  - by apply (devs_ok_same s).
Qed.

Lemma update_queue_ok s p q f :
  queues s !! p = Some q -> update_queue p f s = Ok (tt, set_queues (<[p := f q]> (queues s)) s).
Proof. intros Hq. unfold update_queue, queue, found, modify, mbind, st_bind. by rewrite Hq. Qed.

(** The state once the structure and the buffer were allocated. *)
Definition allocated (s s1 : qsys) (p l : Z) (q : PVRSRV_QUEUE_INFO) : Prop :=
  psQueueList s1 = psQueueList s /\ apsDeviceCommandData s1 = apsDeviceCommandData s /\
  psDeviceNodeList s1 = psDeviceNodeList s /\
  queues s1 = <[p := q]> (queues s) /\
  buffers s1 = <[l := mk_buffer (ui32QueueSize q + PVRSRV_MAX_CMD_SIZE) ∅]> (buffers s) /\
  dev_data s1 = dev_data s /\ cc_data s1 = cc_data s /\ syncs s1 = syncs s /\ history s1 = history s.

Lemma allocated_quiet s s1 s2 p l q : allocated s s1 p l q -> quiet s1 s2 -> allocated s s2 p l q.
Proof. unfold allocated. intros A [B1 B2 B3 B4 B5 B6 B7 B8 B9]. by rewrite B1, B2, B3, B4, B5, B6, B7, B8, B9. Qed.

Lemma create_failed_runs s s1 p l q e :
  queues s !! p = None -> buffers s !! l = None -> l <> 0 -> pvLinQueueKM q = l -> allocated s s1 p l q -> unlocked s1 -> e <> PVRSRV_OK ->
  runs (create_failed p e) s1 (fun r s' => quiet s s' /\ unlocked s' /\ r.1 <> PVRSRV_OK /\ r.2 = 0).
Proof.
  intros Hp Hl Hl0 El (A1 & A2 & A3 & A4 & A5 & A6 & A7 & A8 & A9) Hu He. unfold create_failed.
  st_run (found_ok (fun s => queues s !! p) s1 q ltac:(simpl; rewrite A4; apply lookup_insert_eq)).
  rewrite El, (proj2 (Z.eqb_neq _ _) Hl0). simpl. st_mod. st_mod. apply st_runs_ret. simpl.
  split; [|done]. split; simpl; try done.
  - by rewrite A4, delete_insert_id.
  - by rewrite A5, delete_insert_id.
Qed.

Lemma create_runs n s :
  ready s -> 0 < n <= 2 ^ 31 ->
  runs (PVRSRVCreateCommandQueueKM E n) s (fun r s' => ready s' /\
    ((r.1 <> PVRSRV_OK /\ r.2 = 0 /\ quiet s s') \/
     (r.1 = PVRSRV_OK /\ exists l q, added s s' r.2 l q /\ ui32QueueSize q = NearestPower2 n))).
Proof.
  intros [Q Hu] Hn. pose proof (NearestPower2_ring n Hn) as Hr. pose proof (ring_size_range _ Hr) as Hr'.
  assert (forall r s', quiet s s' /\ unlocked s' /\ r.1 <> PVRSRV_OK /\ r.2 = 0 -> ready s' /\
    ((r.1 <> PVRSRV_OK /\ r.2 = 0 /\ quiet s s') \/
     (r.1 = PVRSRV_OK /\ exists l q, added s s' r.2 l q /\ ui32QueueSize q = NearestPower2 n))) as Hfail.
  { intros r s' (Hq & U & He & H0). split; [split; [by apply (quiet_qinv s)|done]|by left]. }
  unfold PVRSRVCreateCommandQueueKM. eapply st_runs_bind; [by apply OSAllocMem_runs|]. intros p s1 [-> Hp].
  destruct (Z.eqb_spec p 0) as [->|Hp0]; [by apply st_runs_ret, Hfail|]. specialize (Hp Hp0).
  apply bool_decide_eq_false, eq_None_not_Some in Hp. simpl in Hp.
  st_run (eq_refl : tick _ = Ok (_, _)). st_mod. eapply st_runs_bind; [by apply OSAllocMem_runs|]. intros l s2 [-> Hl].
  destruct (Z.eqb_spec l 0) as [->|Hl0].
  { unfold create_failed. st_run (found_ok (fun s => queues s !! p) _ _ (lookup_insert_eq _ _ _)). simpl. st_mod.
    apply st_runs_ret, Hfail. split; [|done]. split; try done. simpl. by apply delete_insert_id. }
  specialize (Hl Hl0). apply bool_decide_eq_false, eq_None_not_Some in Hl. simpl in Hl.
  st_mod. st_run (update_queue_ok _ p _ _ (lookup_insert_eq _ _ _)). simpl. rewrite insert_insert_eq.
  set (q := mk_queue l 0 0 _ _ 0).
  match goal with |- runs _ ?s0 _ => assert (allocated s s0 p l q) as A; [|assert (unlocked s0) as U; [done|]; generalize dependent s0] end.
  { repeat split; try done. simpl. f_equal. f_equal. apply wrapU_small. unfold PVRSRV_MAX_CMD_SIZE. lia. }
  intros s3 A U3. st_get.
  eapply st_runs_bind with (R := fun e s' => e = PVRSRV_OK /\ quiet s3 s' /\ unlocked s').
  { destruct (psQueueList s3 =? 0); [by eexists _, _|by apply st_runs_ret]. }
  intros _ s4 (-> & Q4 & U4). simpl. eapply st_runs_bind; [by apply OSLockResource_runs|]. intros e s5 (Q5 & _ & R5).
  assert (allocated s s5 p l q) as A5 by (eapply allocated_quiet; [exact A|by etrans]).
  destruct (Z.eqb_spec e PVRSRV_OK) as [->|He]; simpl.
  2: { destruct R5 as [[? _]|(_ & _ & U5)]; [done|]. eapply st_runs_mono; [by apply (create_failed_runs s s5 p l q)|]. apply Hfail. }
  destruct R5 as [[_ L5]|[? _]]; [|done]. st_get. pose proof A5 as (B1 & B2 & B3 & B4 & B5 & B6 & B7 & B8 & B9).
  st_run (update_queue_ok s5 p q _ ltac:(rewrite B4; apply lookup_insert_eq)). st_mod.
  eapply st_runs_bind; [by apply OSUnlockResource_runs|]. intros _ s6 (-> & Q6 & U6). simpl. apply st_runs_ret.
  assert (added s s6 p l (set_psNextKM (psQueueList s) q)) as Ad.
  { destruct Q6 as [C1 C2 C3 C4 C5 C6 C7 C8 C9]. simpl in *. split; try done; rewrite ?C2, ?C6, ?C7, ?C8, ?C9; try done.
    - split; [done|]. split; [done|]. rewrite C4, B4, B1. by rewrite insert_insert_eq.
    - split; [done|]. split; [done|]. by rewrite C5, B5. }
  split; [split; [by apply (qinv_added s s6 p l (set_psNextKM (psQueueList s) q))|done]|]. right. split; [done|]. by eexists _, _.
Qed.
End Create.

(** * Destroying command queues *)

(** ** Chains without a queue *)

Lemma chain_delete m p a L : p ∉ L -> chain m a L -> chain (delete p m) a L.
Proof.
  revert a. induction L as [|c L IH]; intros a; simpl; [done|]. intros Hp (-> & Hc & q0 & Hq & Hch).
  apply not_elem_of_cons in Hp as [Hne Hp]. split; [done|]. split; [done|]. exists q0.
  rewrite lookup_delete_ne by done. split; [done|]. by apply IH.
Qed.

Lemma chain_unlink m a L1 c p L2 qc q :
  chain m a (L1 ++ c :: p :: L2) -> NoDup (L1 ++ c :: p :: L2) -> m !! c = Some qc -> m !! p = Some q ->
  chain (delete p (<[c := set_psNextKM (psNextKM q) qc]> m)) a (L1 ++ c :: L2).
Proof.
  intros Hch Hnd Hc Hp. revert a Hch Hnd. induction L1 as [|d L1 IH]; intros a; simpl.
  - intros (-> & Hc0 & q0 & Hq0 & (Hn & Hp0 & q1 & Hq1 & Hch)) Hnd. simplify_eq.
    apply NoDup_cons in Hnd as [HcL Hnd]. apply NoDup_cons in Hnd as [HpL Hnd].
    assert (psNextKM qc <> c) as Hne by set_solver. split; [done|]. split; [done|].
    exists (set_psNextKM (psNextKM q) qc). rewrite lookup_delete_ne by done. rewrite lookup_insert_eq. split; [done|]. simpl.
    apply chain_delete; [done|]. apply chain_other; [set_solver|done].
  - intros (-> & Hd0 & q0 & Hq0 & Hch) Hnd. apply NoDup_cons in Hnd as [Hd Hnd]. split; [done|]. split; [done|].
    exists q0. rewrite lookup_delete_ne, lookup_insert_ne by set_solver. split; [done|]. by apply IH.
Qed.

(** The queue before [p] in the list. *)
Lemma before_in_chain (a p : Z) (L : list Z) : p ∈ L -> head L = Some a -> a <> p -> exists L1 c L2, L = L1 ++ c :: p :: L2.
Proof.
  revert a. induction L as [|b L IH]; intros a Hp Ha Hne; [done|]. simpl in Ha. injection Ha as ->.
  apply elem_of_cons in Hp as [->|Hp]; [done|]. destruct L as [|b L]; [by apply not_elem_of_nil in Hp|].
  destruct (decide (b = p)) as [->|Hb]; [by exists [], a, L|].
  destruct (IH b Hp eq_refl Hb) as (L1 & c & L2 & ->). by exists (a :: L1), c, L2.
Qed.

Section Destroy.
Context (E : qenv) `{NUM : CommandsPerType}.

(** The empty queue [p] was taken out. *)
Record removed (s s' : qsys) (p : Z) (q : PVRSRV_QUEUE_INFO) : Prop := mk_removed {
  rm_there : queues s !! p = Some q;
  rm_dom : forall p', is_Some (queues s' !! p') <-> p' <> p /\ is_Some (queues s !! p');
  rm_queue : forall p' q', queues s' !! p' = Some q' -> exists q0, queues s !! p' = Some q0 /\ q' = set_psNextKM (psNextKM q') q0;
  rm_list : exists L1 L2, chain (queues s) (psQueueList s) (L1 ++ p :: L2) /\ NoDup (L1 ++ L2) /\
    chain (queues s') (psQueueList s') (L1 ++ L2) /\ forall p', p' ∈ L1 ++ L2 <-> is_Some (queues s' !! p');
  rm_buffers : buffers s' = delete (pvLinQueueKM q) (buffers s);
  rm_devices : apsDeviceCommandData s' = apsDeviceCommandData s;
  rm_dev : dev_data s' = dev_data s;
  rm_cookies : cc_data s' = cc_data s;
  rm_syncs : syncs s' = syncs s;
  rm_history : history s' = history s }.

(** A list has one sequence of nodes. *)
Lemma chain_unique m a L L' : chain m a L -> chain m a L' -> L = L'.
Proof.
  revert a L'. induction L as [|c L IH]; intros a [|c' L']; simpl; [done|..].
  - by intros -> (-> & ? & _).
  - by intros (-> & ? & _) ->.
  - intros (-> & _ & q & Hq & Hc) (-> & _ & q' & Hq' & Hc'). simplify_eq. f_equal. by apply (IH (psNextKM q)).
Qed.

(** Working off the queues leaves the list as it is. *)
Lemma passed_list s s' L : passed s s' -> chain (queues s) (psQueueList s) L -> chain (queues s') (psQueueList s') L.
Proof.
  intros P. rewrite (ps_head _ _ P). generalize (psQueueList s). induction L as [|c L IH]; intros a; simpl; [done|].
  intros (-> & Hc & q & Hq & Hch). split; [done|]. split; [done|]. destruct (ps_queues _ _ P c q Hq) as [ro Hro].
  exists (set_ui32ReadOffset ro q). split; [done|]. by apply IH.
Qed.

Lemma passed_dom s s' p : passed s s' -> is_Some (queues s' !! p) <-> is_Some (queues s !! p).
Proof.
  intros P. split; [apply (ps_back _ _ P)|]. intros [q Hq]. destruct (ps_queues _ _ P p q Hq) as [ro ?]. eauto.
Qed.

(** The commands of a queue that is gone are with the devices or complete. *)
Lemma gone_dispatched s p i h :
  queues_ok s (history s) -> ~ is_Some (queues s !! p) -> history s !! i = Some h -> p_queue h = p -> dispatched h.
Proof.
  intros K Hgone Hi <-. destruct (p_progress h) eqn:Hp; [exfalso|exfalso|by left|by right].
  all: apply Hgone, (qk_home _ _ K i h Hi); auto.
Qed.

Lemma removed_quiet s s1 s2 p q : removed s s1 p q -> quiet s1 s2 -> removed s s2 p q.
Proof. intros [A1 A2 A3 A4 A5 A6 A7 A8 A9 A10] [B1 B2 B3 B4 B5 B6 B7 B8 B9]. split; rewrite ?B1, ?B2, ?B4, ?B5, ?B6, ?B7, ?B8, ?B9; done. Qed.

Lemma holds_next s H p q b cs prep n : holds s H p q b cs prep -> holds s H p (set_psNextKM n q) b cs prep.
Proof. intros [A1 A2 A3 A4 A5 A6 A7 A8 A9 A10 A11 A12]. by split. Qed.

Lemma queues_ok_removed s s' p q :
  removed s s' p q -> ids Queued (history s) p = [] -> ids Prepared (history s) p = [] ->
  queues_ok s (history s) -> queues_ok s' (history s).
Proof.
  intros [Hp Hd Hq (L1 & L2 & _ & Hnd & Hc & HL) Eb E1 E2 _ _ _] I1 I2 K. pose proof K as [K1 K2 K3 K4].
  split; [by exists (L1 ++ L2)|..].
  - intros p' q' Hq'. destruct (Hq p' q' Hq') as (q0 & Hq0 & ->). destruct (K2 p' q0 Hq0) as (b & cs & prep & Hh).
    exists b, cs, prep. apply holds_next. apply (holds_elsewhere s); try done.
    rewrite Eb, lookup_delete_ne; [apply (hd_buffer _ _ _ _ _ _ _ Hh)|]. intros El.
    destruct (proj1 (Hd p') (ltac:(eauto))) as [Hne _]. apply Hne. by apply (K3 p' p q0 q).
  - intros p1 p2 q1 q2 H1 H2. destruct (Hq p1 q1 H1) as (q1' & H1' & ->), (Hq p2 q2 H2) as (q2' & H2' & ->). simpl. by apply K3.
  - intros i h Hi Hw. apply Hd. split; [|by apply (K4 i)]. intros Eq.
    destruct Hw as [Hw|Hw].
    + assert (i ∈ ids Queued (history s) p) as Hin by (apply elem_of_ids; by exists h). rewrite I1 in Hin. by apply not_elem_of_nil in Hin.
    + assert (i ∈ ids Prepared (history s) p) as Hin by (apply elem_of_ids; by exists h). rewrite I2 in Hin. by apply not_elem_of_nil in Hin.
Qed.

Lemma qinv_removed s s' p q :
  removed s s' p q -> ids Queued (history s) p = [] -> ids Prepared (history s) p = [] -> qinv s -> qinv s'.
Proof.
  intros R I1 I2 [K W O F L D]. pose proof R as [_ _ _ _ _ E1 E2 E3 E4 E5]. split; rewrite ?E5; try done.
  - by apply (queues_ok_removed s s' p q).
  - by apply (work_ok_same s).
  - by apply (devs_ok_same s).
Qed.

(** ** The code *)

Lemma free_queue_ok s p q :
  queues s !! p = Some q ->
  free_queue p s = Ok (tt, set_queues (delete p (queues s)) (set_buffers (delete (pvLinQueueKM q) (buffers s)) s)).
Proof. intros Hq. unfold free_queue, queue, found, modify, mbind, st_bind. by rewrite Hq. Qed.

Lemma unlink_runs fuel s a L1 c p L2 qc q :
  chain (queues s) a (L1 ++ c :: p :: L2) -> NoDup (L1 ++ c :: p :: L2) -> queues s !! c = Some qc -> queues s !! p = Some q ->
  (length L1 < fuel)%nat ->
  runs (unlink_loop fuel a p) s (fun r s' => r <> 0 /\
    s' = set_queues (delete p (<[c := set_psNextKM (psNextKM q) qc]> (queues s))) (set_buffers (delete (pvLinQueueKM q) (buffers s)) s)).
Proof.
  intros Hch Hnd Hc Hp. revert a L1 Hch Hnd. induction fuel as [|fuel IH]; intros a L1 Hch Hnd Hf; [lia|].
  assert (c <> p) as Hcp.
  { apply NoDup_app in Hnd as (_ & _ & Hnd). apply NoDup_cons in Hnd as [Hnd _]. set_solver. }
  destruct L1 as [|d L1]; simpl in Hch.
  - destruct Hch as (-> & Hc0 & q0 & Hq0 & (Hn & _)). simplify_eq. simpl. rewrite (proj2 (Z.eqb_neq _ _) Hc0).
    st_run (found_ok (fun s => queues s !! c) s qc Hc). rewrite Z.eqb_refl.
    st_run (found_ok (fun s => queues s !! psNextKM qc) s q Hp). st_run (update_queue_ok s c qc _ Hc).
    assert (queues (set_queues (<[c := set_psNextKM (psNextKM q) qc]> (queues s)) s) !! psNextKM qc = Some q) as Hq'
      by (simpl; by rewrite lookup_insert_ne).
    st_run (free_queue_ok _ (psNextKM qc) q Hq'). by apply st_runs_ret.
  - destruct Hch as (-> & Hd0 & q0 & Hq0 & Hch). simpl in Hnd, Hf. apply NoDup_cons in Hnd as [Hd Hnd].
    simpl. rewrite (proj2 (Z.eqb_neq _ _) Hd0). st_run (found_ok (fun s => queues s !! d) s q0 Hq0).
    assert (psNextKM q0 <> p) as Hne.
    { intros Eq. rewrite Eq in Hch. destruct L1 as [|e L1]; simpl in Hch, Hnd.
      - destruct Hch as [? _]. congruence.
      - destruct Hch as [-> _]. apply NoDup_cons in Hnd as [Hnd _]. set_solver. }
    rewrite (proj2 (Z.eqb_neq _ _) Hne). apply (IH _ L1); [done|done|lia].
Qed.

(** Taking the queue [p] out of the list. *)
Definition take_out (psQueue p : Z) : Q bool :=
  if psQueue =? p then
    i ← queue p;
    modify (set_psQueueList (psNextKM i));;
    free_queue p;;
    mret true
  else
    fuel ← gets (fun s => size (queues s));
    r ← unlink_loop fuel psQueue p;
    mret (negb (r =? 0)).

Lemma take_out_runs s2 p q :
  queues_ok s2 (history s2) -> queues s2 !! p = Some q ->
  runs (take_out (psQueueList s2) p) s2 (fun b s3 => b = true /\ removed s2 s3 p q /\ sQProcessResource s3 = sQProcessResource s2).
Proof.
  intros K2 Hq2. destruct (qk_list _ _ K2) as (L & Hch & Hnd & Hin).
  assert (p ∈ L) as HpL by (apply Hin; eauto). unfold take_out.
  destruct (Z.eqb_spec (psQueueList s2) p) as [Eh|Nh].
  - st_run (found_ok (fun s => queues s !! p) s2 q Hq2). st_mod. st_run (free_queue_ok (set_psQueueList (psNextKM q) s2) p q Hq2).
    apply st_runs_ret. split; [done|]. split; [|done]. split; simpl; try done.
    + intros p'. destruct (decide (p' = p)) as [->|Hne]; [rewrite lookup_delete_eq; split; [by intros []|by intros []]|].
      rewrite lookup_delete_ne by done. naive_solver.
    + intros p' q' [_ Hq']%lookup_delete_Some. exists q'. split; [done|]. by destruct q'.
    + destruct L as [|a L]; [by apply not_elem_of_nil in HpL|]. simpl in Hch. destruct Hch as (Ea & Ha & qa & Hqa & Hch).
      assert (a = p) as -> by congruence. simplify_eq. apply NoDup_cons in Hnd as [HnL Hnd]. exists [], L.
      split; [by split; [|split; [|exists q]]|]. split; [done|]. split; [by apply chain_delete|]. intros p'. simpl.
      destruct (decide (p' = psQueueList s2)) as [->|Hne]; [rewrite lookup_delete_eq; split; [done|by intros []]|].
      rewrite lookup_delete_ne, <- Hin by done. set_solver.
  - st_get. destruct (before_in_chain (psQueueList s2) p L HpL) as (L1 & c & L2' & ->); [|done|].
    { destruct L; [by apply not_elem_of_nil in HpL|]. destruct Hch as [-> _]. done. }
    assert (is_Some (queues s2 !! c)) as [qc Hqc] by (apply Hin; set_solver).
    assert (c <> p) as Hcp.
    { pose proof Hnd as Hnd'. apply NoDup_app in Hnd' as (_ & _ & Hnd'). apply NoDup_cons in Hnd' as [Hnd' _]. set_solver. }
    eapply st_runs_bind.
    { apply (unlink_runs _ s2 _ L1 c p L2' qc q); [done..|].
      pose proof (listed_size (queues s2) _ Hnd (fun p' => proj1 (Hin p'))) as Hsz. rewrite length_app in Hsz. simpl in Hsz. lia. }
    intros r s3 [Hr3 ->]. apply st_runs_ret. rewrite (proj2 (Z.eqb_neq _ _) Hr3). split; [done|]. split; [|done].
    assert (forall p', is_Some (delete p (<[c := set_psNextKM (psNextKM q) qc]> (queues s2)) !! p') <-> p' <> p /\ is_Some (queues s2 !! p')) as Hdom.
    { intros p'. destruct (decide (p' = p)) as [->|Hne]; [rewrite lookup_delete_eq; split; [by intros []|by intros []]|].
      rewrite lookup_delete_ne by done. destruct (decide (c = p')) as [<-|Hne']; [rewrite lookup_insert_eq|rewrite lookup_insert_ne by done].
      all: naive_solver. }
    split; simpl; try done.
    + intros p' q' [_ Hq']%lookup_delete_Some. destruct (decide (c = p')) as [<-|Hne'].
      * rewrite lookup_insert_eq in Hq'. exists qc. split; [done|]. injection Hq' as <-. done.
      * rewrite lookup_insert_ne in Hq' by done. exists q'. split; [done|]. by destruct q'.
    + exists (L1 ++ [c]), L2'. rewrite <- !app_assoc. simpl. split; [done|]. split; [|split; [by apply (chain_unlink _ _ _ _ _ _ qc q)|]].
      * apply (sublist_NoDup _ (L1 ++ c :: p :: L2')); [done|]. apply sublist_app; [done|]. by apply sublist_skip, sublist_cons.
      * intros p'. rewrite Hdom, <- Hin. rewrite !elem_of_app, !elem_of_cons.
        apply NoDup_app in Hnd as (N1 & N2 & N3). apply NoDup_cons in N3 as [N3 N4]. apply NoDup_cons in N4 as [N4 _].
        split; [|naive_solver]. intros Hin'. split; [|naive_solver]. intros ->.
        destruct Hin' as [Hin'|[->|Hin']]; [|done|done]. apply (N2 p Hin'). set_solver.
Qed.

Lemma destroy_runs s p q0 :
  patient E -> ready s -> queues s !! p = Some q0 -> ids Prepared (history s) p = [] ->
  runs (PVRSRVDestroyCommandQueueKM E p) s (fun e s' => ready s' /\
    ((e <> PVRSRV_OK /\ passed s s') \/
     (e = PVRSRV_OK /\ exists s1 q, passed s s1 /\ removed s1 s' p q))).
Proof.
  intros Hpt Hr Hp Hprep. unfold PVRSRVDestroyCommandQueueKM. st_get.
  eapply st_runs_bind.
  { apply LOOP_UNTIL_TIMEOUT_runs; [done..|]. intros s' _ P'. destruct (ps_queues _ _ P' p q0 Hp) as [ro Hro].
    exists (ro =? ui32WriteOffset q0). by st_run (found_ok (fun s => queues s !! p) s' _ Hro). }
  intros b s1 (R1 & P1 & Hb). destruct b; simpl; [|apply st_runs_ret; split; [done|by left]]. specialize (Hb eq_refl).
  destruct (ps_queues _ _ P1 p q0 Hp) as [ro Hq1]. set (q := set_ui32ReadOffset ro q0) in Hq1.
  assert (ui32ReadOffset q = ui32WriteOffset q) as Hemp.
  { unfold queue, found, mbind, st_bind in Hb. rewrite Hq1 in Hb. injection Hb as Hb. by apply Z.eqb_eq. }
  destruct R1 as [Q1 U1]. pose proof (qi_queues s1 Q1) as K1.
  eapply st_runs_bind; [by apply OSLockResource_runs|]. intros e s2 (Q2 & _ & L2).
  destruct (Z.eqb_spec e PVRSRV_OK) as [->|He]; simpl.
  2: { destruct L2 as [[? _]|(_ & _ & U2)]; [done|]. apply st_runs_ret. split; [split; [by apply (quiet_qinv s1)|done]|].
       left. split; [done|]. etrans; [done|by apply quiet_passed]. }
  destruct L2 as [[_ L2]|[? _]]; [|done].
  assert (queues s2 !! p = Some q) as Hq2 by by rewrite (qt_queues _ _ Q2).
  assert (qinv s2) as I2 by by apply (quiet_qinv s1). pose proof (qi_queues s2 I2) as K2.
  assert (psQueueList s2 = psQueueList s) as Hhead by (rewrite (qt_head _ _ Q2); apply (ps_head _ _ P1)).
  eapply st_runs_bind; [rewrite <- Hhead; by apply (take_out_runs s2 p q)|].
  intros ? s3 (-> & R3 & El3). eapply st_runs_bind; [apply OSUnlockResource_runs; by rewrite El3|].
  intros _ s4 (-> & Q4 & U4). simpl. st_get.
  assert (removed s2 s4 p q) as R4 by by apply (removed_quiet s2 s3).
  assert (forall s5, quiet s4 s5 -> unlocked s5 -> ready s5 /\
    ((PVRSRV_OK <> PVRSRV_OK /\ passed s s5) \/ (PVRSRV_OK = PVRSRV_OK /\ exists s1 q, passed s s1 /\ removed s1 s5 p q))) as Hend.
  { intros s5 Q5 U5. pose proof (removed_quiet _ _ _ _ _ R4 Q5) as R5. split.
    - split; [|done]. apply (qinv_removed s2 s5 p q); [done| | |done].
      + destruct (qk_queue _ _ K2 p q Hq2) as (b & cs & prep & Hd). rewrite <- (hd_queued _ _ _ _ _ _ _ Hd).
        by rewrite (proj1 (queue_empty _ _ _ _ _ _ _ Hd) Hemp).
      + rewrite (qt_history _ _ Q2), <- Hprep. by apply advanced_prepared, (ps_history _ _ P1).
    - right. split; [done|]. exists s2, q. split; [|done]. etrans; [done|by apply quiet_passed]. }
  destruct (psQueueList s4 =? 0); [|by apply st_runs_ret, Hend]. st_mod. apply st_runs_ret. by apply Hend.
Qed.
End Destroy.
