(* ===== verification/PvrQueueInsert.v ===== *)
(** * Inserting and submitting commands

    The calls that put a command into a queue. *)

From stdpp Require Import base list numbers option gmap.
From Stdlib Require Import ZArith Lia.
From S2P Require Import Prelude PvrHash Stateful PvrQueue PvrQueueRing PvrQueueHistory PvrQueueInv PvrQueueGive PvrQueueProcess PvrQueueCreate.
From stdpp Require Import list.

Local Open Scope Z_scope.

(** * Inserting commands into a queue

    Waiting for space, writing the command and its synchronisation objects to the
    buffer, counting the operations. *)

(** ** Rounding to words *)

Definition align (x : Z) : Z := Z.land (u32 (x + 3)) 0xFFFFFFFC.

Lemma land_words y : 0 <= y < 2 ^ 32 -> Z.land y 0xFFFFFFFC = 4 * (y / 4).
Proof.
  intros Hy. change 0xFFFFFFFC with (Z.ldiff (Z.ones 32) (Z.ones 2)).
  replace (Z.land y (Z.ldiff (Z.ones 32) (Z.ones 2))) with (Z.ldiff (Z.land y (Z.ones 32)) (Z.ones 2)).
  - rewrite Z.land_ones, Z.mod_small, Z.ldiff_ones_r, Z.shiftl_mul_pow2, Z.shiftr_div_pow2 by lia. change (2 ^ 2) with 4. lia.
  - apply Z.bits_inj'. intros i Hi. rewrite !Z.land_spec, !Z.ldiff_spec, !Z.land_spec. by destruct (Z.testbit y i), (Z.testbit (Z.ones 32) i).
Qed.

Lemma align_bounds x : 0 <= x -> x + 3 < 2 ^ 32 -> x <= align x <= x + 3.
Proof.
  intros Hx Hb. unfold align. rewrite wrapU_small, land_words by lia.
  pose proof (Z.div_mod (x + 3) 4 ltac:(lia)). pose proof (Z.mod_pos_bound (x + 3) 4 ltac:(lia)). lia.
Qed.

(** ** Writing the objects *)

(** What a command records of an object. *)
Definition sample (m : gmap Z PVRSRV_SYNC_DATA) (p : Z) : PVRSRV_SYNC_OBJECT :=
  mk_so p (from_option ui32WriteOpsPending 0 (m !! p)) (from_option ui32ReadOps2Pending 0 (m !! p)).

Section Insert.
Context (E : qenv) `{NUM : CommandsPerType}.

Lemma store_runs s pvLin b a c :
  buffers s !! pvLin = Some b -> 0 <= a -> a + cell_size c <= b_size b ->
  store pvLin a c s = Ok (tt, set_buffers (<[pvLin := store_cell a c b]> (buffers s)) s).
Proof.
  intros Hb H0 Ha. unfold store, found, mbind, st_bind. rewrite Hb, (proj2 (Z.leb_le 0 a)), (proj2 (Z.leb_le _ _)) by done. done.
Qed.

(** One object: its counters are recorded and count one operation more. *)
Definition inserts (ins : nat * Z -> Q unit) (pvLin base : Z) (f : PVRSRV_SYNC_DATA -> PVRSRV_SYNC_DATA) : Prop :=
  forall s b i p, buffers s !! pvLin = Some b -> is_Some (syncs s !! p) -> 0 <= base + Z.of_nat i * 16 ->
    base + Z.of_nat i * 16 + 16 <= b_size b ->
    ins (i, p) s = Ok (tt, set_syncs (alter f p (syncs s))
      (set_buffers (<[pvLin := store_cell (base + Z.of_nat i * 16) (Sync (sample (syncs s) p)) b]> (buffers s)) s)).

Lemma insert_dst_inserts pvLin base : inserts (insert_dst pvLin base) pvLin base write_pending.
Proof.
  intros s b i p Hb [d Hd] H0 Ha. unfold insert_dst, PVRSRVGetWriteOpsPending, PVRSRVGetReadOpsPending, PVRSRVAcquireSyncInfoKM,
    update_sync, sync_data, found, modify, store, found, mbind, st_bind, sample. simpl. rewrite Hd. simpl. rewrite Hd. simpl.
  rewrite lookup_insert_eq. simpl. rewrite Hb. unfold sizeof_SYNC_OBJECT.
  rewrite (proj2 (Z.leb_le 0 _)), (proj2 (Z.leb_le _ _)) by (simpl; unfold sizeof_SYNC_OBJECT; lia). simpl.
  rewrite lookup_insert_eq. simpl. rewrite insert_insert_eq, (alter_alt_Some _ _ _ _ Hd). done.
Qed.

Lemma insert_src_inserts pvLin base : inserts (insert_src pvLin base) pvLin base read_pending.
Proof.
  intros s b i p Hb [d Hd] H0 Ha. unfold insert_src, PVRSRVGetWriteOpsPending, PVRSRVGetReadOpsPending, PVRSRVAcquireSyncInfoKM,
    update_sync, sync_data, found, modify, store, found, mbind, st_bind, sample. simpl. rewrite Hd. simpl. rewrite Hd. simpl.
  rewrite Hd. simpl. rewrite Hb. unfold sizeof_SYNC_OBJECT.
  rewrite (proj2 (Z.leb_le 0 _)), (proj2 (Z.leb_le _ _)) by (simpl; unfold sizeof_SYNC_OBJECT; lia). simpl.
  rewrite lookup_insert_eq. simpl. rewrite insert_insert_eq, (alter_alt_Some _ _ _ _ Hd). done.
Qed.

Lemma sample_ne f m p p' : p' <> p -> sample (alter f p m) p' = sample m p'.
Proof. intros Hne. unfold sample. by rewrite lookup_alter_ne. Qed.

Lemma insert_loop ins pvLin base f l k s b :
  inserts ins pvLin base f -> buffers s !! pvLin = Some b -> NoDup l -> (forall p, p ∈ l -> is_Some (syncs s !! p)) ->
  0 <= base + Z.of_nat k * 16 -> base + Z.of_nat (k + length l) * 16 <= b_size b ->
  exists b', for_each (zip (seq k (length l)) l) ins s =
    Ok (tt, set_syncs (bump f l (syncs s)) (set_buffers (<[pvLin := b']> (buffers s)) s)) /\
    rewritten (base + Z.of_nat k * 16) (base + Z.of_nat (k + length l) * 16) b b' /\
    objects_at b' (base + Z.of_nat k * 16) (sample (syncs s) <$> l).
Proof.
  intros Hins. revert k s b. induction l as [|p l IH]; intros k s b Hb Hl Hs H0 Hz; simpl in *.
  - exists b. split; [rewrite insert_id by done; by destruct s|]. split; [by split|]. by intros i y Hi.
  - apply NoDup_cons in Hl as [Hp Hl]. rewrite (st_bind_ok _ _ _ _ _ (Hins s b k p Hb (Hs p ltac:(by left)) H0 ltac:(lia))).
    set (c := Sync (sample (syncs s) p)). set (b1 := store_cell _ c b).
    destruct (IH (S k) (set_syncs (alter f p (syncs s)) (set_buffers (<[pvLin := b1]> (buffers s)) s)) b1) as (b' & Hrun & R & O).
    { by apply lookup_insert_eq. }
    { done. }
    { intros q Hq. simpl. destruct (decide (q = p)) as [->|Hne]; [done|]. rewrite lookup_alter_ne by done. apply Hs. by right. }
    { lia. }
    { simpl. lia. }
    exists b'. rewrite Hrun. simpl. rewrite insert_insert_eq. split; [done|]. split.
    + eapply (rewritten_trans _ _ _ b1).
      * eapply rewritten_within; [apply store_rewritten|lia|simpl; unfold sizeof_SYNC_OBJECT; lia].
      * eapply rewritten_within; [exact R|lia|lia].
    + intros [|i] y Hi; simpl in Hi.
      * injection Hi as <-. rewrite Z.add_0_r. apply (proj2 R); [apply store_here|]. simpl. unfold sizeof_SYNC_OBJECT. lia.
      * replace (base + Z.of_nat k * 16 + Z.of_nat (S i) * sizeof_SYNC_OBJECT)
          with (base + Z.of_nat (S k) * 16 + Z.of_nat i * sizeof_SYNC_OBJECT) by (unfold sizeof_SYNC_OBJECT; lia).
        apply O. simpl. rewrite list_lookup_fmap in Hi |- *. destruct (l !! i) as [q|] eqn:Hq; [|done]. simpl in *.
        rewrite sample_ne; [done|]. intros ->. apply Hp. by apply (list_elem_of_lookup_2 _ i).
Qed.

(** ** Space *)

Lemma get_space_runs s p q size :
  patient E -> ready s -> queues s !! p = Some q ->
  runs (PVRSRVGetQueueSpaceKM E p size) s (fun r s' => ready s' /\ passed s s' /\
    (r.1 = PVRSRV_OK -> exists ro, let q' := set_ui32ReadOffset ro q in
      queues s' !! p = Some q' /\ r.2 = ui32WriteOffset q' /\ align size < GET_SPACE_IN_CMDQ q' /\ align size <= PVRSRV_MAX_CMD_SIZE)).
Proof.
  intros Hpt Hr Hp. unfold PVRSRVGetQueueSpaceKM. change (Z.land _ _) with (align size).
  destruct (Z.ltb_spec PVRSRV_MAX_CMD_SIZE (align size)) as [Hl|Hl]; [by apply st_runs_ret|].
  eapply st_runs_bind.
  { apply LOOP_UNTIL_TIMEOUT_runs; [done..|]. intros s' _ P'. destruct (ps_queues _ _ P' p q Hp) as [ro Hro].
    exists (align size <? GET_SPACE_IN_CMDQ (set_ui32ReadOffset ro q)). by st_run (found_ok (fun s => queues s !! p) s' _ Hro). }
  intros r s' (R' & P' & Hb). destruct r; simpl; [|by apply st_runs_ret]. specialize (Hb eq_refl).
  destruct (ps_queues _ _ P' p q Hp) as [ro Hro]. st_run (found_ok (fun s => queues s !! p) s' _ Hro). apply st_runs_ret.
  split; [done|]. split; [done|]. intros _. exists ro. split; [done|]. split; [done|]. split; [|lia].
  unfold queue, found, mbind, st_bind in Hb. rewrite Hro in Hb. injection Hb as Hb. by apply Z.ltb_lt.
Qed.

(** ** A command more *)

(** The command [x] was written behind those of queue [p]. *)
Record inserted (s s' : qsys) (p : Z) (q : PVRSRV_QUEUE_INFO) (b b' : buffer) (cs : list xcmd) (x : xcmd) (h : past) : Prop := mk_inserted {
  is_queue : queues s !! p = Some q;
  is_holds : holds s (history s) p q b cs [];
  is_room : extent cs + x_size x < ui32QueueSize q;
  is_past : p_queue h = p /\ p_progress h = Prepared /\ x_id x = length (history s);
  is_written : rewritten (ui32WriteOffset q) (ui32WriteOffset q + x_size x) b b';
  is_command : command_at b' (ui32WriteOffset q) x;
  is_describes : describes (history s ++ [h]) x;
  is_fits : fits s x;
  is_head : psQueueList s' = psQueueList s;
  is_queues : queues s' = queues s;
  is_buffers : buffers s' = <[pvLinQueueKM q := b']> (buffers s);
  is_devices : apsDeviceCommandData s' = apsDeviceCommandData s;
  is_dev : dev_data s' = dev_data s;
  is_cookies : cc_data s' = cc_data s;
  is_history : history s' = history s ++ [h] }.

Lemma describes_snoc H h x : describes H x -> describes (H ++ [h]) x.
Proof.
  intros [(y & Hy & ?) Ho]. pose proof (lookup_lt_Some _ _ _ Hy). split.
  - exists y. split; [by apply lookup_app_l_Some|done].
  - intros o Hin. rewrite take_app_le by lia. by apply Ho.
Qed.

Lemma holds_inserted s s' p q b b' cs x h :
  inserted s s' p q b b' cs x h -> holds s' (history s ++ [h]) p q b' cs [x].
Proof.
  intros [Hq [A1 A2 A3 A4 A5 A6 A7 A8 A9 A10 A11 A12] Hr (Hp & Hx & Hid) Hw Hc Hd Hf E1 E2 E3 E4 E5 _ _].
  pose proof (ring_size_range _ A3) as Hn. pose proof (x_size_pos _ _ _ Hc). rewrite app_nil_r in A6, A7, A12.
  pose proof (laid_extent _ _ _ _ _ A6).
  split; try done.
  - rewrite E3. by apply lookup_insert_eq.
  - by rewrite (proj1 Hw).
  - apply laid_app. split.
    + rewrite A8 in Hw. apply (laid_rewritten b b' (ui32QueueSize q) (ui32ReadOffset q) 0 cs (extent cs) _ ltac:(lia) A5 ltac:(lia) A6 ltac:(lia) Hw); lia.
    + simpl. rewrite Z.add_0_l, <- A8. done.
  - rewrite extent_app. simpl. lia.
  - rewrite ids_snoc, decide_False, app_nil_r by (intros [_ ?]; congruence). done.
  - rewrite ids_snoc, decide_True, <- A10 by done. simpl. by rewrite Hid.
  - intros y [Hy|Hy]%elem_of_app.
    + destruct (A12 y Hy) as [D (dc & Hdc & ?)]. split; [by apply describes_snoc|]. exists dc. split; [|done].
      unfold dev_at in *. by rewrite E4, E5.
    + apply list_elem_of_singleton in Hy as ->. split; [done|]. destruct Hf as (dc & Hdc & ?). exists dc. split; [|done].
      unfold dev_at in *. by rewrite E4, E5.
Qed.

Lemma queues_ok_inserted s s' p q b b' cs x h :
  inserted s s' p q b b' cs x h -> queues_ok s (history s) -> queues_ok s' (history s ++ [h]).
Proof.
  intros I K. pose proof I as [Hq Hh Hr (Hp & Hx & Hid) Hw Hc Hd Hf E1 E2 E3 E4 E5 _ _]. pose proof K as [K1 K2 K3 K4].
  split; rewrite ?E1, ?E2; try done.
  - intros p' q' Hq'. destruct (decide (p' = p)) as [->|Hne].
    + simplify_eq. exists b', cs, [x]. by eapply holds_inserted.
    + destruct (K2 p' q' Hq') as (b0 & cs0 & prep0 & A). exists b0, cs0, prep0.
      apply (holds_elsewhere s); try done.
      * rewrite E3, lookup_insert_ne; [apply (hd_buffer _ _ _ _ _ _ _ A)|]. intros El. apply Hne. by apply (K3 p' p q' q).
      * destruct A as [A1 A2 A3 A4 A5 A6 A7 A8 A9 A10 A11 A12]. split; try done.
        -- rewrite ids_snoc, decide_False, app_nil_r by (intros [? _]; congruence). done.
        -- rewrite ids_snoc, decide_False, app_nil_r by (intros [? _]; congruence). done.
        -- intros y Hy. destruct (A12 y Hy). split; [by apply describes_snoc|done].
  - intros i y [Hi|[Hi Hy]]%lookup_app_Some Hw'; [by apply (K4 i)|].
    apply list_lookup_singleton_Some in Hy as [_ <-]. rewrite Hp. eauto.
Qed.

Lemma work_inserted s s' h :
  work_ok s -> p_progress h = Prepared -> NoDup (p_dst h ++ p_src h) ->
  (forall a, a ∈ p_dst h ++ p_src h -> is_Some (syncs s !! a)) -> Z.of_nat (length (history s)) + 1 < 2 ^ 32 ->
  cc_data s' = cc_data s -> history s' = history s ++ [h] ->
  syncs s' = bump read_pending (p_src h) (bump write_pending (p_dst h) (syncs s)) -> work_ok s'.
Proof.
  intros W Hp Hnd Hk Hb E1 E2 E3.
  assert (forall a, is_Some (syncs s !! a) -> is_Some (syncs s' !! a)) as Hdom.
  { intros a Ha. rewrite E3, bump_two by done. by apply fmap_is_Some. }
  split; rewrite ?E1, ?E2.
  - intros a d. rewrite E3, bump_two by done. destruct (syncs s !! a) as [d'|] eqn:Hd; [|done]. intros [= <-].
    pose proof (w_syncs s W a d' Hd) as Sk. apply sync_ok_snoc; [unfold completed; congruence|done|done|..]; intros _.
    + rewrite (sk_wop _ _ _ Sk). unfold writers. pose proof (count_le_length (writes a) (history s)). lia.
    + rewrite (sk_rop _ _ _ Sk). unfold readers. pose proof (count_le_length (reads a) (history s)). lia.
  - intros i y [Hi|[Hi Hy]]%lookup_app_Some.
    + destruct (w_known s W i y Hi). split; [done|]. eauto.
    + apply list_lookup_singleton_Some in Hy as [_ <-]. split; [done|]. eauto.
  - intros p c Hc Hu. destruct (w_flights s W p c Hc Hu) as (y & Hy & ?). exists y. split; [by apply lookup_app_l_Some|done].
  - apply (w_one s W).
  - intros i y [Hi|[Hi Hy]]%lookup_app_Some Hf; [by apply (w_cookie s W i y)|].
    apply list_lookup_singleton_Some in Hy as [_ <-]. congruence.
Qed.

Lemma qinv_inserted s s' p q b b' cs x h :
  inserted s s' p q b b' cs x h -> qinv s -> NoDup (p_dst h ++ p_src h) ->
  (forall a, a ∈ p_dst h ++ p_src h -> is_Some (syncs s !! a)) -> Z.of_nat (length (history s)) + 1 < 2 ^ 32 ->
  syncs s' = bump read_pending (p_src h) (bump write_pending (p_dst h) (syncs s)) -> qinv s'.
Proof.
  intros I [K W O F L D] Hnd Hk Hb Es. pose proof I as [_ Hd _ (Hp & Hx & _) _ _ _ _ _ _ _ E4 E5 E6 E7].
  assert (~ dispatched h) as Hn by (unfold dispatched; rewrite Hx; by intros [?|?]).
  split; rewrite ?E7.
  - by apply (queues_ok_inserted s s' p q b b' cs x h).
  - by apply (work_inserted s s' h).
  - by apply ordered_snoc.
  - by apply fifo_snoc.
  - apply prepared_last_snoc; [done|]. intros j Hj%elem_of_ids. rewrite Hp, <- (hd_prepared _ _ _ _ _ _ _ Hd) in Hj.
    by apply not_elem_of_nil in Hj.
  - by apply (devs_ok_same s).
Qed.

(** The new command, as the buffer holds it. *)
Definition new_command (s : qsys) (psCommand size i t : Z) (dst src : list Z) (data pid pfn hData : Z) : xcmd :=
  mk_x (mk_command size i t (Z.of_nat (length dst)) (Z.of_nat (length src)) (psCommand + sizeof_COMMAND)
      (psCommand + sizeof_COMMAND + Z.of_nat (length dst) * sizeof_SYNC_OBJECT) data pid
      (psCommand + sizeof_COMMAND + Z.of_nat (length dst) * sizeof_SYNC_OBJECT + Z.of_nat (length src) * sizeof_SYNC_OBJECT)
      pfn hData (length (history s)))
    (sample (syncs s) <$> dst) (sample (syncs s) <$> src).

Lemma new_describes s psCommand size i t dst src data pid pfn hData p :
  work_ok s -> (forall a, a ∈ dst ++ src -> is_Some (syncs s !! a)) ->
  describes (history s ++ [mk_past p dst src Prepared]) (new_command s psCommand size i t dst src data pid pfn hData).
Proof.
  intros W Hk. assert (forall l : list Z, psKernelSyncInfoKM <$> (sample (syncs s) <$> l) = l) as Hl.
  { intros l. rewrite <- list_fmap_compose. unfold sample, compose. simpl. by rewrite list_fmap_id. }
  split; unfold x_id; simpl.
  - eexists. rewrite lookup_app_r, Nat.sub_diag by lia. split; [done|]. by rewrite !Hl.
  - rewrite take_app_length. intros o Ho. rewrite <- fmap_app in Ho. apply list_elem_of_fmap in Ho as (a & -> & Ha).
    destruct (Hk a Ha) as [d Hd]. pose proof (w_syncs s W a d Hd) as Sk. unfold sample. rewrite Hd. simpl.
    by rewrite (sk_wop _ _ _ Sk), (sk_rop _ _ _ Sk).
Qed.

Lemma sample_bump f l m (l' : list Z) : NoDup l -> (forall a, a ∈ l -> a ∉ l') -> sample (bump f l m) <$> l' = sample m <$> l'.
Proof.
  intros Hl Hd. apply list_fmap_ext. intros i a Ha. unfold sample. rewrite bump_lookup, decide_False; [done| |done].
  intros Hin. by apply (Hd a Hin), (list_elem_of_lookup_2 _ i).
Qed.

(** The writes put the command where it belongs. *)
Lemma command_written b b2 b3 wo x :
  psDstSync (x_cmd x) = wo + 48 -> psSrcSync (x_cmd x) = wo + 48 + Z.of_nat (length (x_dst x)) * 16 ->
  ui32DstSyncCount (x_cmd x) = Z.of_nat (length (x_dst x)) -> ui32SrcSyncCount (x_cmd x) = Z.of_nat (length (x_src x)) ->
  48 + Z.of_nat (length (x_dst x) + length (x_src x)) * 16 <= x_size x <= 1024 ->
  rewritten (wo + 48) (wo + 48 + Z.of_nat (length (x_dst x)) * 16) (store_cell wo (Cmd (x_cmd x)) b) b2 ->
  objects_at b2 (wo + 48) (x_dst x) ->
  rewritten (wo + 48 + Z.of_nat (length (x_dst x)) * 16)
    (wo + 48 + Z.of_nat (length (x_dst x) + length (x_src x)) * 16) b2 b3 ->
  objects_at b3 (wo + 48 + Z.of_nat (length (x_dst x)) * 16) (x_src x) ->
  rewritten wo (wo + x_size x) b b3 /\ command_at b3 wo x.
Proof.
  intros Ed Es Nd Ns Hz R2 O2 R3 O3. split.
  - eapply (rewritten_trans _ _ _ (store_cell wo (Cmd (x_cmd x)) b)).
    + eapply rewritten_within; [apply store_rewritten|lia|simpl; unfold sizeof_COMMAND; lia].
    + eapply (rewritten_trans _ _ _ b2); (eapply rewritten_within; [done|lia|lia]).
  - split; try done.
    + apply (proj2 R3); [|simpl; unfold sizeof_COMMAND; lia]. apply (proj2 R2); [apply store_here|simpl; unfold sizeof_COMMAND; lia].
    + rewrite Ed. eapply objects_rewritten; [done..|]. left. unfold sizeof_SYNC_OBJECT. lia.
    + by rewrite Es.
Qed.

Lemma write_command_runs s p q size i t dst src data pfn hData :
  ready s -> queues s !! p = Some q -> ids Prepared (history s) p = [] ->
  takes s i t (Z.of_nat (length dst)) (Z.of_nat (length src)) -> NoDup (dst ++ src) ->
  (forall a, a ∈ dst ++ src -> is_Some (syncs s !! a)) -> Z.of_nat (length (history s)) + 1 < 2 ^ 32 ->
  48 + Z.of_nat (length dst + length src) * 16 <= size <= 1024 -> size < GET_SPACE_IN_CMDQ q ->
  runs (write_command E p (ui32WriteOffset q) size i t dst src data pfn hData) s (fun _ s' =>
    ready s' /\ history s' = history s ++ [mk_past p dst src Prepared] /\ queues s' = queues s).
Proof.
  intros [Q U] Hp Hprep Ht Hnd Hk Hb Hs1 Hs2. destruct (qk_queue _ _ (qi_queues s Q) p q Hp) as (b & cs & prep & Hd).
  pose proof (hd_prepared _ _ _ _ _ _ _ Hd) as Hpr. rewrite Hprep in Hpr. apply fmap_nil_inv in Hpr as ->.
  rewrite (queue_space _ _ _ _ _ _ _ Hd) in Hs2. pose proof (hd_buffer _ _ _ _ _ _ _ Hd) as Hbuf.
  pose proof (ring_size_range _ (hd_ring _ _ _ _ _ _ _ Hd)) as Hn.
  assert (0 <= ui32WriteOffset q < ui32QueueSize q) as Hwo by (rewrite (hd_write _ _ _ _ _ _ _ Hd); apply ahead_range; lia).
  assert (ui32WriteOffset q + size <= b_size b) as Hsz by (rewrite (hd_size _ _ _ _ _ _ _ Hd); unfold PVRSRV_MAX_CMD_SIZE; lia).
  set (wo := ui32WriteOffset q) in *. apply NoDup_app in Hnd as Hnd'. destruct Hnd' as (Nd & Hdis & Ns).
  unfold write_command. st_run (found_ok (fun s => queues s !! p) s q Hp). st_run (eq_refl : tick s = Ok (_, _)). st_get.
  set (x := new_command s wo size i t dst src data (current_pid E (q_clock s)) pfn hData).
  set (b1 := store_cell wo (Cmd (x_cmd x)) b).
  st_run (store_runs (set_q_clock (S (q_clock s)) s) _ b wo (Cmd (x_cmd x)) Hbuf ltac:(lia) ltac:(simpl; unfold sizeof_COMMAND; lia)).
  match goal with |- runs _ ?s0 _ => set (s1 := s0) end.
  destruct (insert_loop _ _ _ _ dst 0 s1 b1 (insert_dst_inserts (pvLinQueueKM q) (wo + sizeof_COMMAND)))
    as (b2 & Hrun & R2 & O2); [by apply lookup_insert_eq|done|intros a Ha; apply Hk, elem_of_app; by left|
      unfold sizeof_COMMAND; lia|simpl; unfold sizeof_COMMAND; lia|].
  st_run Hrun. match goal with |- runs _ ?s0 _ => set (s2 := s0) end.
  assert (forall a, a ∈ src -> is_Some (syncs s2 !! a)) as Hk2.
  { intros a Ha. simpl. rewrite bump_lookup by done. rewrite decide_False by (intros ?; by apply (Hdis a)).
    apply Hk, elem_of_app. by right. }
  destruct (insert_loop _ _ _ _ src 0 s2 b2 (insert_src_inserts (pvLinQueueKM q) (wo + sizeof_COMMAND + Z.of_nat (length dst) * sizeof_SYNC_OBJECT)))
    as (b3 & Hrun3 & R3 & O3); [by apply lookup_insert_eq|done|done|
      unfold sizeof_COMMAND, sizeof_SYNC_OBJECT; lia|rewrite (proj1 R2); simpl; unfold sizeof_COMMAND, sizeof_SYNC_OBJECT; lia|].
  st_run Hrun3. eexists _, _. split; [done|].
  match goal with |- ready ?s0 /\ _ => set (s4 := s0) end. set (h := mk_past p dst src Prepared).
  assert (inserted s s4 p q b b3 cs x h) as I.
  { change (syncs s2) with (bump write_pending dst (syncs s)) in O3. rewrite (sample_bump _ _ _ _ Nd Hdis) in O3.
    destruct (command_written b b2 b3 wo x) as [Rw C]; simpl; rewrite ?length_fmap; try done.
    - rewrite Z.add_0_r in R2. exact R2.
    - rewrite Z.add_0_r in O2. exact O2.
    - eapply rewritten_within; [exact R3|..]; unfold sizeof_COMMAND, sizeof_SYNC_OBJECT; lia.
    - rewrite Z.add_0_r in O3. exact O3.
    - split; try done.
      + unfold x_size. simpl. lia.
      + by apply new_describes; [apply (qi_work s Q)|].
      + unfold fits. simpl. by rewrite !length_fmap.
      + simpl. by rewrite !insert_insert_eq. }
  split; [split; [|done]|done]. by apply (qinv_inserted s s4 p q b b3 cs x h).
Qed.

(** ** The calls *)

(** A legal call of [PVRSRVInsertCommandKM]. *)
Record can_insert (s : qsys) (p i t : Z) (dst src : list Z) (data : Z) : Prop := mk_can_insert {
  ci_queue : is_Some (queues s !! p);
  ci_prepared : ids Prepared (history s) p = [];
  ci_type : is_Some (dev_at s i t);
  ci_distinct : NoDup (dst ++ src);
  ci_syncs : forall a, a ∈ dst ++ src -> is_Some (syncs s !! a);
  ci_data : 0 <= data < 2 ^ 31;
  ci_objects : Z.of_nat (length dst + length src) <= 2 ^ 20;
  ci_count : Z.of_nat (length (history s)) + 1 < 2 ^ 32 }.

Lemma insert_runs s p i t dst src data pfn hData :
  patient E -> ready s -> can_insert s p i t dst src data ->
  runs (PVRSRVInsertCommandKM E p i t dst src data pfn hData) s (fun r s' => ready s' /\
    ((r.1 <> PVRSRV_OK /\ passed s s') \/
     (r.1 = PVRSRV_OK /\ exists H q', advanced (history s) H /\ history s' = H ++ [mk_past p dst src Prepared] /\
        queues s' !! p = Some q' /\ r.2 = ui32WriteOffset q'))).
Proof.
  intros Hpt Hr [[q Hq] Hprep [dc Hdc] Hnd Hk Hdata Hobj Hcount]. unfold PVRSRVInsertCommandKM.
  st_run (found_ok (fun s => dev_at s i t) s dc Hdc).
  destruct (orb _ _) eqn:Hmax; [apply st_runs_ret; split; [done|]; by left|].
  apply orb_false_iff in Hmax as [Hm1%Z.ltb_ge Hm2%Z.ltb_ge].
  change (Z.land (u32 (data + 3)) 0xFFFFFFFC) with (align data). pose proof (align_bounds data ltac:(lia) ltac:(lia)) as Ha.
  assert (u32 (sizeof_COMMAND + u32 (u32 (Z.of_nat (length dst) + Z.of_nat (length src)) * sizeof_SYNC_OBJECT) + align data) =
    48 + Z.of_nat (length dst + length src) * 16 + align data) as ->.
  { unfold sizeof_COMMAND, sizeof_SYNC_OBJECT. rewrite (wrapU_small 32 (Z.of_nat (length dst) + Z.of_nat (length src))) by lia.
    rewrite (wrapU_small 32 (_ * 16)) by lia. rewrite wrapU_small by lia. lia. }
  set (size := _ + align data) in *. pose proof (align_bounds size ltac:(lia) ltac:(lia)) as Hsz.
  eapply st_runs_bind; [by apply (get_space_runs s p q)|]. intros [e o] s1 (R1 & P1 & Hok). simpl in Hok.
  destruct (Z.eqb_spec e PVRSRV_OK) as [->|He]; simpl; [|apply st_runs_ret; split; [done|]; by left].
  destruct (Hok eq_refl) as (ro & Hq1 & -> & Hroom & Hbig). unfold PVRSRV_MAX_CMD_SIZE in Hbig.
  eapply st_runs_bind.
  { apply (write_command_runs s1 p (set_ui32ReadOffset ro q)); try done.
    - by rewrite (advanced_prepared _ _ _ (ps_history _ _ P1)).
    - apply (ps_takes _ _ P1). by exists dc.
    - intros a Ha'. by apply (ps_syncs _ _ P1), Hk.
    - by rewrite <- (Forall2_length _ _ _ (ps_history _ _ P1)).
    - lia.
    - lia. }
  intros _ s2 (R2 & H2 & Q2). apply st_runs_ret. split; [done|]. right. split; [done|].
  exists (history s1), (set_ui32ReadOffset ro q). split; [by apply (ps_history _ _ P1)|]. by rewrite Q2.
Qed.
End Insert.

(** * Submitting commands

    The prepared command of a queue becomes one that waits to be processed. *)

Section Submit.
Context `{NUM : CommandsPerType}.

Definition set_pvData (v : Z) (c : PVRSRV_COMMAND) : PVRSRV_COMMAND :=
  mk_command (uCmdSize c) (ui32DevIndex c) (CommandType c) (ui32DstSyncCount c) (ui32SrcSyncCount c) (psDstSync c) (psSrcSync c)
    (uDataSize c) (ui32ProcessID c) v (pfnCommandComplete c) (hCallbackData c) (c_id c).

(** Only where the data lies changes in the command. *)
Definition submitted (v : Z) (x : xcmd) : xcmd := mk_x (set_pvData v (x_cmd x)) (x_dst x) (x_src x).

Definition submit (s : qsys) (p : Z) (q : PVRSRV_QUEUE_INFO) (b : buffer) (v : Z) (x : xcmd) : qsys :=
  set_history (alter (set_p_progress Queued) (x_id x) (history s))
    (set_queues (<[p := UPDATE_QUEUE_WOFF (x_size x) q]> (queues s))
      (set_buffers (<[pvLinQueueKM q := store_cell (ui32WriteOffset q) (Cmd (x_cmd (submitted v x))) b]> (buffers s)) s)).

Section Step.
Context (s : qsys) (p : Z) (q : PVRSRV_QUEUE_INFO) (b : buffer) (v : Z) (x : xcmd) (cs : list xcmd).
Context (Q : qinv s) (Hq : queues s !! p = Some q) (Hd : holds s (history s) p q b cs [x]).

Lemma prepared_past : exists h, history s !! x_id x = Some h /\ p_queue h = p /\ p_progress h = Prepared.
Proof. apply (elem_of_ids Prepared (history s) p). rewrite <- (hd_prepared _ _ _ _ _ _ _ Hd). by left. Qed.

Lemma prepared_command :
  command_at b (ui32WriteOffset q) x /\ extent cs + x_size x < ui32QueueSize q /\ 0 <= ui32WriteOffset q < ui32QueueSize q.
Proof.
  pose proof (hd_laid _ _ _ _ _ _ _ Hd) as Hl. apply laid_app in Hl as [_ [C _]]. rewrite Z.add_0_l, <- (hd_write _ _ _ _ _ _ _ Hd) in C.
  pose proof (hd_room _ _ _ _ _ _ _ Hd) as Hr. rewrite extent_app in Hr. simpl in Hr.
  pose proof (ring_size_range _ (hd_ring _ _ _ _ _ _ _ Hd)). split; [done|]. split; [lia|].
  rewrite (hd_write _ _ _ _ _ _ _ Hd). apply ahead_range. lia.
Qed.

Lemma holds_submit :
  holds (submit s p q b v x) (history (submit s p q b v x)) p (UPDATE_QUEUE_WOFF (x_size x) q)
    (store_cell (ui32WriteOffset q) (Cmd (x_cmd (submitted v x))) b) (cs ++ [submitted v x]) [].
Proof.
  destruct prepared_command as (C & Hroom & Hwo). destruct prepared_past as (h & Hh & Hp & Hx).
  pose proof Hd as [A1 A2 A3 A4 A5 A6 A7 A8 A9 A10 A11 A12]. pose proof (ring_size_range _ A3) as Hn.
  pose proof (x_size_pos _ _ _ C) as Hpos. rewrite UPDATE_QUEUE_WOFF_eq by done.
  pose proof (store_rewritten b (ui32WriteOffset q) (Cmd (x_cmd (submitted v x)))) as Rw. simpl cell_size in Rw. unfold sizeof_COMMAND in Rw.
  apply laid_app in A6 as [Hl _]. pose proof (laid_extent _ _ _ _ _ Hl).
  assert (forall y : list xcmd, extent (y ++ [submitted v x]) = extent y + x_size x) as Hext.
  { intros y. rewrite extent_app. simpl. unfold x_size. simpl. lia. }
  split; simpl; try done.
  - apply lookup_insert_eq.
  - rewrite app_nil_r. apply laid_app. split.
    + rewrite A8 in Rw |- *.
      apply (laid_rewritten b _ (ui32QueueSize q) (ui32ReadOffset q) 0 cs (extent cs) _ ltac:(lia) A5 ltac:(lia) Hl ltac:(lia) Rw); lia.
    + simpl. rewrite Z.add_0_l, <- A8. split; [|done]. destruct C as [C1 C2 C3 C4 C5 C6 C7 C8]. split; try done; simpl.
      * apply lookup_insert_eq.
      * eapply objects_rewritten; [done..|]. rewrite C4. unfold sizeof_COMMAND. lia.
      * eapply objects_rewritten; [done..|]. rewrite C5. unfold sizeof_COMMAND, sizeof_SYNC_OBJECT. lia.
  - rewrite app_nil_r, Hext. done.
  - by rewrite A8, Hext, ahead_ahead by lia.
  - rewrite fmap_app, A9. symmetry. apply ids_submit; [apply (qi_prepared s Q)|by exists h].
  - symmetry. by apply (ids_submitted _ p _ []).
  - lia.
  - rewrite app_nil_r. intros y Hy. assert (exists z, z ∈ cs ++ [x] /\ (y = z \/ y = submitted v z)) as (z & Hz & Hyz).
    { apply elem_of_app in Hy as [Hy|Hy]; [exists y; split; [apply elem_of_app; by left|by left]|].
      apply list_elem_of_singleton in Hy as ->. exists x. split; [apply elem_of_app; right; by left|by right]. }
    destruct (A12 z Hz) as [D F]. assert (describes (alter (set_p_progress Queued) (x_id x) (history s)) z) as D'.
    { eapply describes_alike; [apply alike_alter|done]. }
    destruct Hyz as [->| ->]; [done|]. destruct D' as [D1 D2]. split; [by split|done].
Qed.

Lemma queues_ok_submit : queues_ok (submit s p q b v x) (history (submit s p q b v x)).
Proof.
  pose proof (qi_queues s Q) as K. pose proof K as [K1 K2 K3 K4]. destruct prepared_past as (h & Hh & Hp & Hx).
  pose proof (hd_ring _ _ _ _ _ _ _ Hd) as Hr.
  assert (forall p', is_Some (queues (submit s p q b v x) !! p') <-> is_Some (queues s !! p')) as Hdom.
  { intros p'. simpl. destruct (decide (p = p')) as [<-|Hne]; [|by rewrite lookup_insert_ne].
    rewrite lookup_insert_eq, Hq. split; eauto. }
  assert (forall p' q', queues (submit s p q b v x) !! p' = Some q' ->
    exists q0, queues s !! p' = Some q0 /\ pvLinQueueKM q' = pvLinQueueKM q0) as Hlin.
  { intros p' q'. simpl. destruct (decide (p = p')) as [<-|Hne].
    - rewrite lookup_insert_eq. intros [= <-]. by exists q.
    - rewrite lookup_insert_ne by done. eauto. }
  split.
  - destruct K1 as (L & Hc & Hnd & Hin). exists L. split; [|split; [done|]].
    + simpl. by apply (chain_insert _ _ q).
    + intros p'. by rewrite Hin, Hdom.
  - intros p' q'. simpl. destruct (decide (p = p')) as [<-|Hne].
    + rewrite lookup_insert_eq. intros [= <-]. eexists _, _, _. apply holds_submit.
    + rewrite lookup_insert_ne by done. intros Hq'. destruct (K2 p' q' Hq') as (b' & cs' & prep' & [A1 A2 A3 A4 A5 A6 A7 A8 A9 A10 A11 A12]).
      exists b', cs', prep'. split; try done.
      * simpl. rewrite lookup_insert_ne; [done|]. intros El. apply Hne. by apply (K3 p p' q q').
      * rewrite A9. symmetry. apply (ids_alter_other _ _ _ _ _ h); [done|]. left. congruence.
      * rewrite A10. symmetry. apply (ids_alter_other _ _ _ _ _ h); [done|]. left. congruence.
      * intros y Hy. destruct (A12 y Hy) as [D F]. split; [|done]. eapply describes_alike; [apply alike_alter|done].
  - intros p1 p2 q1 q2 (q1' & H1 & E1)%Hlin (q2' & H2 & E2)%Hlin Hl. apply (K3 p1 p2 q1' q2'); congruence.
  - intros i y (y' & Hy & (Sy & _) & Py)%noted_lookup Hw. apply Hdom. rewrite <- Sy. apply (K4 i y' Hy).
    rewrite Py in Hw. case_decide; [|done]. subst i. simplify_eq. by right.
Qed.

Lemma work_submit : work_ok (submit s p q b v x).
Proof.
  pose proof (qi_work s Q) as W. destruct prepared_past as (h & Hh & Hp & Hx).
  assert (~ completed h) as Hn by (unfold completed; congruence). split; simpl.
  - intros a d Hy. apply (sync_ok_progress _ _ _ h); [done..|]. by apply (w_syncs s W).
  - intros i y (y' & Hy & (_ & Fd & Fs) & _)%noted_lookup. rewrite <- Fd, <- Fs. by apply (w_known s W i).
  - intros a c Hc Hu. destruct (w_flights s W a c Hc Hu) as (y & Hy & Hy'). exists y. rewrite list_lookup_alter_ne; [done|].
    intros Ei. rewrite Ei in Hh. destruct Hy' as [? _]. congruence.
  - apply (w_one s W).
  - intros i y (y' & Hy & _ & Py)%noted_lookup Hf. rewrite Hf in Py. case_decide; [done|]. by apply (w_cookie s W i y').
Qed.

Lemma qinv_submit : qinv (submit s p q b v x).
Proof.
  pose proof Q as [K W O F L D]. destruct prepared_past as (h & Hh & Hp & Hx).
  assert (dispatched (set_p_progress Queued h) <-> dispatched h) as Hdi by (unfold dispatched; simpl; rewrite Hx; naive_solver).
  split; [apply queues_ok_submit|apply work_submit|..|by apply (devs_ok_same s)]; simpl.
  - apply (ordered_alter _ _ _ h); [done..|by apply Hdi|]. unfold completed. congruence.
  - by apply (fifo_alter _ _ _ h).
  - by apply prepared_last_alter.
Qed.
End Step.

Lemma submit_runs s p q i :
  ready s -> queues s !! p = Some q -> ids Prepared (history s) p = [i] ->
  runs (PVRSRVSubmitCommandKM p (ui32WriteOffset q)) s (fun e s' => e = PVRSRV_OK /\ ready s' /\
    history s' = alter (set_p_progress Queued) i (history s)).
Proof.
  intros [Q U] Hq Hi. destruct (qk_queue _ _ (qi_queues s Q) p q Hq) as (b & cs & prep & Hd).
  pose proof (hd_prepared _ _ _ _ _ _ _ Hd) as Hpr. rewrite Hi in Hpr. destruct prep as [|x [|? ?]]; try done. injection Hpr as Hx.
  destruct (prepared_command s p q b x cs Hd) as (C & Hroom & Hwo). pose proof (x_size_pos _ _ _ C) as Hpos.
  assert (0 <= ui32WriteOffset q < b_size b) as Hin by (rewrite (hd_size _ _ _ _ _ _ _ Hd); unfold PVRSRV_MAX_CMD_SIZE; lia).
  pose proof (hd_buffer _ _ _ _ _ _ _ Hd) as Hb. unfold PVRSRVSubmitCommandKM. st_run (found_ok (fun s => queues s !! p) s q Hq).
  st_run (load_command_ok s _ b _ _ Hb (ca_cmd _ _ _ C) Hin).
  rewrite <- (ca_dst_at _ _ _ C).
  assert (psDstSync (x_cmd x) + ui32DstSyncCount (x_cmd x) * sizeof_SYNC_OBJECT = psSrcSync (x_cmd x)) as ->.
  { rewrite (ca_src_at _ _ _ C), (ca_dst_at _ _ _ C), (ca_dst_count _ _ _ C). lia. }
  assert (forall (c : bool) (y : Z), (if c then y else y) = y) as Hif by by intros [].
  rewrite !Hif. set (v := psSrcSync (x_cmd x) + _). change (mk_command _ _ _ _ _ _ _ _ _ v _ _ _) with (x_cmd (submitted v x)).
  st_run (store_runs s (pvLinQueueKM q) b (ui32WriteOffset q) (Cmd (x_cmd (submitted v x))) Hb ltac:(lia)
    ltac:(rewrite (hd_size _ _ _ _ _ _ _ Hd); unfold PVRSRV_MAX_CMD_SIZE; simpl; unfold sizeof_COMMAND; lia)).
  match goal with |- runs _ ?s0 _ => st_run (update_queue_ok s0 p q (UPDATE_QUEUE_WOFF (uCmdSize (x_cmd x))) Hq) end.
  st_mod. apply st_runs_ret. split; [done|]. split; [split; [|done]|by rewrite <- Hx].
  by apply (qinv_submit s p q b v x cs).
Qed.
End Submit.
