(* ===== verification/PvrQueueCalls.v ===== *)
(** * Runs of calls

    Runs of legal calls, how everything is worked off, and what a queue shows. *)

From stdpp Require Import base list numbers option gmap.
From Stdlib Require Import ZArith Lia.
From S2P Require Import Prelude PvrHash Stateful PvrQueue PvrQueueRing PvrQueueHistory PvrQueueInv PvrQueueGive PvrQueueProcess PvrQueueCreate PvrQueueInsert.
From stdpp Require Import list.

Local Open Scope Z_scope.

(** * Runs of legal calls

    [call] lists the calls on the queues; [legal] says when each may be made, and
    [legal_run] that each call of a list is when its turn comes.  From a state in
    which devices are registered and nothing was inserted yet, such a run does
    not fault and keeps [ready]. *)

Inductive call :=
| CreateQueue (ui32QueueSize : Z)
| DestroyQueue (psQueueInfo : Z)
| InsertCommand (psQueue ui32DevIndex type : Z) (apsDstSync apsSrcSync : list Z) (ui32DataByteSize pfn hData : Z)
| SubmitCommand (psQueue psCommand : Z)
| ProcessQueues (bFlush : bool)
| CommandComplete (hCmdCookie : Z) (bScheduleMISR : bool).

Section Calls.
Context (E : qenv) `{NUM : CommandsPerType}.

Definition perform (c : call) : Q unit :=
  match c with
  | CreateQueue n => PVRSRVCreateCommandQueueKM E n;; mret tt
  | DestroyQueue p => PVRSRVDestroyCommandQueueKM E p;; mret tt
  | InsertCommand p i t dst src data pfn hData => PVRSRVInsertCommandKM E p i t dst src data pfn hData;; mret tt
  | SubmitCommand p o => PVRSRVSubmitCommandKM p o;; mret tt
  | ProcessQueues f => PVRSRVProcessQueues E f;; mret tt
  | CommandComplete a b => PVRSRVCommandCompleteKM a b
  end.

Definition perform_all (l : list call) : Q unit := for_each l perform.

(** The caller of [SubmitCommand] passes what [InsertCommand] returned; a command is submitted
    before the next one is inserted in its queue. *)
Definition legal (s : qsys) (c : call) : Prop :=
  match c with
  | CreateQueue n => 0 < n <= 2 ^ 31
  | DestroyQueue p => is_Some (queues s !! p) /\ ids Prepared (history s) p = []
  | InsertCommand p i t dst src data _ _ => can_insert s p i t dst src data
  | SubmitCommand p o => exists q i, queues s !! p = Some q /\ ids Prepared (history s) p = [i] /\ o = ui32WriteOffset q
  | ProcessQueues _ => True
  | CommandComplete a _ => in_use s a = true
  end.

Fixpoint legal_run (s : qsys) (l : list call) : Prop :=
  match l with
  | [] => True
  | c :: l => legal s c /\ forall s', perform c s = Ok (tt, s') -> legal_run s' l
  end.

(** Devices are registered; there are no queues and no commands. *)
Record started (s : qsys) : Prop := mk_started {
  st_head : psQueueList s = 0;
  st_queues : queues s = ∅;
  st_history : history s = [];
  st_unlocked : unlocked s;
  st_devs : devs_ok s;
  st_idle : idle s;
  st_syncs : forall a d, syncs s !! a = Some d -> d = mk_sync 0 0 0 0 1 }.

Lemma started_ready s : started s -> ready s.
Proof.
  intros [A1 A2 A3 A4 A5 A6 A7]. split; [|done]. split; rewrite ?A3; try done.
  - split; rewrite ?A2; try done. exists []. rewrite A1. split; [done|]. split; [by constructor|].
    intros p. rewrite lookup_empty. split; [intros ?%elem_of_nil; done|by intros []].
  - split; rewrite ?A3; try done.
    + intros a d Hd. by rewrite (A7 a d Hd).
    + intros p c Hc. by rewrite (A6 p c Hc).
    + intros p p' c c' Hc _ Hu. by rewrite (A6 p c Hc) in Hu.
Qed.

Lemma perform_ready c s : patient E -> ready s -> legal s c -> runs (perform c) s (fun _ s' => ready s').
Proof.
  intros Hpt Hr Hl. destruct c as [n|p|p i t dst src data pfn hData|p o|f|a b]; simpl in *.
  - eapply st_runs_bind; [by apply create_runs|]. intros r s' [? _]. by apply st_runs_ret.
  - destruct Hl as [[q Hq] Hp]. eapply st_runs_bind; [by apply (destroy_runs E s p q)|]. intros r s' [? _]. by apply st_runs_ret.
  - eapply st_runs_bind; [by apply insert_runs|]. intros r s' [? _]. by apply st_runs_ret.
  - destruct Hl as (q & i & Hq & Hi & ->). eapply st_runs_bind; [by apply (submit_runs s p q i)|].
    intros r s' (_ & ? & _). by apply st_runs_ret.
  - eapply st_runs_bind; [by apply process_queues_runs|]. intros r s' (_ & ? & _). by apply st_runs_ret.
  - destruct Hr as [Q U]. eapply st_runs_mono; [apply complete_safe; [by apply (qi_work s Q)|done]|]. intros _ s' [W C].
    split; [by apply (qinv_calm s)|]. unfold unlocked. by rewrite (kp_lock _ _ (proj1 C)).
Qed.

Lemma perform_all_ready l s :
  patient E -> ready s -> legal_run s l -> runs (perform_all l) s (fun _ s' => ready s').
Proof.
  intros Hpt. revert s. induction l as [|c l IH]; intros s Hr Hl; simpl; [by apply st_runs_ret|].
  destruct Hl as [Hc Hl]. destruct (perform_ready c s Hpt Hr Hc) as ([] & s' & Hs & Hr').
  st_run Hs. apply IH; [done|]. by apply Hl.
Qed.
End Calls.

(** * Working everything off, and what a queue shows

    A round of [PVRSRVProcessQueues] and of completing all that the devices have
    hands over at least one command, so that a number of rounds empties the
    queues.  [ProcSeqShowQueue] shows the commands that wait, in their order. *)

(** ** How many wait *)

Definition waiting (H : list past) : Z := count (fun h => p_progress h = Queued) H.

Lemma advanced_waiting H H' : advanced H H' -> waiting H' <= waiting H.
Proof.
  unfold waiting. induction 1 as [|h h' H H' (_ & Pr & Di & _) _ IH]; [done|]. rewrite !count_cons. unfold one, dispatched in *.
  assert (p_progress h' = Queued -> p_progress h = Queued) as Hq.
  { intros Hq. rewrite Hq in Pr, Di. destruct (p_progress h); [|done|..].
    - by pose proof (proj2 Pr eq_refl).
    - by destruct (Di (or_introl eq_refl)).
    - by destruct (Di (or_intror eq_refl)). }
  repeat case_decide; try lia. tauto.
Qed.

Lemma progressed_waiting H H' : advanced H H' -> progressed H H' -> waiting H' < waiting H.
Proof.
  intros A (i & h & h' & Hi & Hp & Hi' & Hd). unfold waiting.
  rewrite (count_middle _ H i h Hi), (count_middle _ H' i h' Hi'). unfold one.
  rewrite (decide_True (P := p_progress h = Queued)) by done.
  rewrite decide_False by (unfold dispatched in Hd; destruct Hd; congruence).
  pose proof (advanced_waiting _ _ (Forall2_take _ _ _ i A)) as L1.
  pose proof (advanced_waiting _ _ (Forall2_drop _ _ _ (S i) A)) as L2. unfold waiting in L1, L2. lia.
Qed.

(** The first of the commands with a property. *)
Lemma first_with (P : past -> Prop) {dec : forall h, Decision (P h)} (H : list past) :
  0 < count P H -> exists i h, H !! i = Some h /\ P h /\ forall j h', (j < i)%nat -> H !! j = Some h' -> ~ P h'.
Proof.
  induction H as [|h H IH]; [done|]. rewrite count_cons. unfold one. case_decide as Hh.
  - intros _. exists 0%nat, h. split; [done|]. split; [done|]. intros j h' Hj. lia.
  - intros Hc. destruct IH as (i & x & Hi & Hx & Hf); [lia|]. exists (S i), x. split; [done|]. split; [done|].
    intros [|j] h' Hj Hj'; [by simplify_eq/=|]. apply (Hf j); [lia|done].
Qed.

Definition no_prepared (H : list past) : Prop := forall h, h ∈ H -> p_progress h <> Prepared.

Section Drain.
Context (E : qenv) `{NUM : CommandsPerType}.

Lemma idle_not_in_flight s i h : work_ok s -> idle s -> history s !! i = Some h -> p_progress h <> InFlight.
Proof. intros W Hidle Hi Hp. destruct (w_cookie s W i h Hi Hp) as (p & c & Hc & Hu & _). by rewrite (Hidle p c Hc) in Hu. Qed.

Lemma advanced_no_prepared H H' : advanced H H' -> no_prepared H -> no_prepared H'.
Proof.
  intros A Hn h' [i Hi]%list_elem_of_lookup. destruct (Forall2_lookup_r _ _ _ _ _ A Hi) as (h & Hh & _ & Pr & _).
  intros Hp. apply (Hn h); [by apply (list_elem_of_lookup_2 _ i)|by apply Pr].
Qed.

(** ** Completing everything *)

Lemma complete_all_idle l s :
  work_ok s -> runs (complete_all None l) s (fun _ s' => work_ok s' /\ calm s s' /\
    forall p, in_use s' p = true -> in_use s p = true /\ p ∉ l).
Proof.
  revert s. induction l as [|p l IH]; intros s W.
  - apply st_runs_ret. split; [done|]. split; [reflexivity|]. intros p Hp. split; [done|apply not_elem_of_nil].
  - simpl. eapply st_runs_bind with (R := fun _ s' => work_ok s' /\ calm s s' /\
      forall p', in_use s' p' = true -> in_use s p' = true /\ p' <> p).
    + st_get. unfold st_when. destruct (in_use s p && bool_decide (None <> Some p)) eqn:Hb.
      * apply andb_true_iff in Hb as [Hu _]. pose proof Hu as Hu0. unfold in_use in Hu.
        destruct (cc_data s !! p) as [c|] eqn:Hc; [|done]. destruct (w_flights s W p c Hc Hu) as (h & Hh & _).
        eapply st_runs_mono; [by apply (complete_runs s p c h)|]. intros _ s' [out ->].
        split; [by apply completion_work|]. split; [by apply completion_calm|].
        intros p'. unfold in_use. simpl. destruct (decide (p = p')) as [<-|Hne]; [by rewrite lookup_insert_eq|].
        rewrite lookup_insert_ne by done. done.
      * apply st_runs_ret. split; [done|]. split; [reflexivity|]. intros p' Hp'. split; [done|]. intros ->. rewrite Hp' in Hb.
        rewrite bool_decide_eq_true_2 in Hb; done.
    + intros _ s1 (W1 & C1 & K1). eapply st_runs_mono; [by apply IH|]. intros _ s2 (W2 & C2 & K2).
      split; [done|]. split; [by etrans|]. intros p' Hp'. destruct (K2 p' Hp') as [Hp1 Hl]. destruct (K1 p' Hp1) as [? ?].
      split; [done|]. by apply not_elem_of_cons.
Qed.

(** One round: the queues are processed, the devices complete what they have. *)
Definition round : Q unit :=
  PVRSRVProcessQueues E false;;
  l ← gets (fun s => (map_to_list (cc_data s)).*1);
  complete_all None l.

Fixpoint rounds (n : nat) : Q unit :=
  match n with O => mret tt | S n => round;; rounds n end.

Lemma round_runs s :
  patient E -> eager E -> DC_NUM_COMMANDS_PER_TYPE = 1%nat -> ready s -> idle s -> no_prepared (history s) ->
  runs round s (fun _ s' => ready s' /\ idle s' /\ no_prepared (history s') /\ advanced (history s) (history s') /\
    (0 < waiting (history s) -> waiting (history s') < waiting (history s))).
Proof.
  intros Hpt Heg H1 Hr Hi Hn. unfold round. eapply st_runs_bind; [by apply process_queues_runs|].
  intros _ s1 (_ & R1 & P1 & G1). st_get. pose proof R1 as [Q1 U1].
  eapply st_runs_mono; [apply complete_all_idle; by apply (qi_work s1 Q1)|]. intros _ s2 (W2 & C2 & K2).
  pose proof (ps_history _ _ P1) as A1. pose proof (ps_history _ _ (calm_passed _ _ C2)) as A2.
  assert (advanced (history s) (history s2)) as A by by etrans.
  split; [split; [by apply (qinv_calm s1)|unfold unlocked; by rewrite (kp_lock _ _ (proj1 C2))]|].
  split; [|split; [by apply (advanced_no_prepared (history s))|split; [done|]]].
  - intros p c Hc. destruct (bInUse c) eqn:Hu; [|done]. destruct (K2 p) as [Hu1 Hp].
    { unfold in_use. by rewrite Hc. }
    exfalso. apply Hp. unfold in_use in Hu1. destruct (cc_data s1 !! p) as [c1|] eqn:Hc1; [|done].
    apply list_elem_of_fmap. exists (p, c1). split; [done|]. by apply elem_of_map_to_list.
  - intros Hw. apply progressed_waiting; [done|]. apply (progressed_later _ (history s1)); [|done].
    apply G1; [done..|]. destruct (first_with _ _ Hw) as (i & h & Hh & Hp & Hfirst). exists i, h. split; [done|]. split; [done|].
    intros j h' Hj Hj'. unfold completed. pose proof (Hfirst j h' Hj Hj').
    pose proof (idle_not_in_flight s j h' (qi_work s (proj1 Hr)) Hi Hj').
    pose proof (Hn h' (list_elem_of_lookup_2 _ j _ Hj')). destruct (p_progress h'); done.
Qed.

Lemma rounds_runs n s :
  patient E -> eager E -> DC_NUM_COMMANDS_PER_TYPE = 1%nat -> ready s -> idle s -> no_prepared (history s) ->
  waiting (history s) <= Z.of_nat n ->
  runs (rounds n) s (fun _ s' => ready s' /\ advanced (history s) (history s') /\ forall h, h ∈ history s' -> completed h).
Proof.
  intros Hpt Heg H1. revert s. induction n as [|n IH]; intros s Hr Hi Hn Hw; simpl.
  - apply st_runs_ret. split; [done|]. split; [reflexivity|]. intros h [j Hj]%list_elem_of_lookup.
    pose proof (idle_not_in_flight s j h (qi_work s (proj1 Hr)) Hi Hj).
    pose proof (Hn h (list_elem_of_lookup_2 _ j _ Hj)).
    assert (p_progress h <> Queued).
    { intros Hq. unfold waiting in Hw. rewrite (count_middle _ _ j h Hj) in Hw. unfold one in Hw. rewrite decide_True in Hw by done.
      pose proof (count_nonneg (fun h => p_progress h = Queued) (take j (history s))).
      pose proof (count_nonneg (fun h => p_progress h = Queued) (drop (S j) (history s))). lia. }
    unfold completed. destruct (p_progress h); done.
  - eapply st_runs_bind; [by apply round_runs|]. intros _ s1 (R1 & I1 & N1 & A1 & L1).
    eapply st_runs_mono; [apply IH; [done..|]|].
    + destruct (Z_lt_dec 0 (waiting (history s))) as [Hlt|Hge]; [specialize (L1 Hlt); lia|].
      pose proof (advanced_waiting _ _ A1). lia.
    + simpl. intros _ s2 (R2 & A2 & C2). split; [done|]. split; [by etrans|done].
Qed.

(** ** What a queue shows *)

Lemma walk_objects s pvLin b a l :
  buffers s !! pvLin = Some b -> objects_at b a l -> 0 <= a -> a + Z.of_nat (length l) * 16 <= b_size b ->
  (forall o, o ∈ l -> is_Some (syncs s !! psKernelSyncInfoKM o)) ->
  for_each (count_to (Z.of_nat (length l))) (fun i =>
    o ← load_sync pvLin (a + Z.of_nat i * sizeof_SYNC_OBJECT); sync_data (psKernelSyncInfoKM o);; mret tt) s = Ok (tt, s).
Proof.
  intros Hb Ho H0 Ha Hk. unfold count_to. rewrite Nat2Z.id.
  assert (forall n k, (k + n <= length l)%nat -> for_each (seq k n) (fun i =>
    o ← load_sync pvLin (a + Z.of_nat i * sizeof_SYNC_OBJECT); sync_data (psKernelSyncInfoKM o);; mret tt) s = Ok (tt, s)) as Hn; [|apply Hn; lia].
  induction n as [|n IH]; intros k Hkn; simpl; [done|]. destruct (lookup_lt_is_Some_2 l k) as [o Hko]; [lia|].
  destruct (Hk o) as [d Hd]; [by apply (list_elem_of_lookup_2 _ k)|].
  assert (0 <= a + Z.of_nat k * sizeof_SYNC_OBJECT < b_size b) as Hr by (unfold sizeof_SYNC_OBJECT; lia).
  refine (eq_trans (st_bind_ok _ _ s tt s _) _); [|apply IH; lia].
  st_run (load_sync_ok s pvLin b _ o Hb (Ho k o Hko) Hr). st_run (found_ok (fun s => syncs s !! psKernelSyncInfoKM o) s d Hd). done.
Qed.

Lemma show_loop_runs fuel s q b ro t cs :
  ring_size (ui32QueueSize q) -> buffers s !! pvLinQueueKM q = Some b -> b_size b = ui32QueueSize q + PVRSRV_MAX_CMD_SIZE ->
  0 <= ro < ui32QueueSize q -> laid b (ui32QueueSize q) ro t cs -> 0 <= t -> t + extent cs < ui32QueueSize q ->
  ui32WriteOffset q = ahead (ui32QueueSize q) ro (t + extent cs) -> (length cs <= fuel)%nat ->
  (forall x o, x ∈ cs -> o ∈ x_src x -> is_Some (syncs s !! psKernelSyncInfoKM o)) ->
  runs (show_loop fuel q (ahead (ui32QueueSize q) ro t)) s (fun l s' => s' = s /\ l = x_cmd <$> cs).
Proof.
  intros Hrs Hb Hsz Hro. pose proof (ring_size_range _ Hrs) as Hn. revert fuel t.
  induction cs as [|x cs IH]; intros fuel t Hl Ht Hex Hw Hf Hk.
  - simpl in Hw. rewrite Z.add_0_r in Hw. destruct fuel; simpl; rewrite Hw, Z.eqb_refl; by apply st_runs_ret.
  - destruct fuel as [|fuel]; [simpl in Hf; lia|]. simpl in Hl, Hex, Hw, Hf |- *. destruct Hl as [C Hl].
    pose proof (x_size_pos _ _ _ C) as Hpos. pose proof (laid_extent _ _ _ _ _ Hl).
    pose proof (ahead_range (ui32QueueSize q) ro t ltac:(lia)) as Hr.
    destruct (Z.eqb_spec (ahead (ui32QueueSize q) ro t) (ui32WriteOffset q)) as [Eq|Ne].
    { exfalso. rewrite Hw in Eq. rewrite <- (ahead_ahead _ ro t) in Eq by lia. symmetry in Eq. apply ahead_same in Eq; lia. }
    st_run (load_command_ok s _ b _ _ Hb (ca_cmd _ _ _ C) ltac:(rewrite Hsz; unfold PVRSRV_MAX_CMD_SIZE; lia)).
    pose proof (ca_size _ _ _ C) as Cz. unfold sizeof_COMMAND, sizeof_SYNC_OBJECT, PVRSRV_MAX_CMD_SIZE in *.
    rewrite (ca_src_count _ _ _ C).
    st_run (walk_objects s _ b (psSrcSync (x_cmd x)) (x_src x) Hb (ca_src _ _ _ C)
      ltac:(rewrite (ca_src_at _ _ _ C); unfold sizeof_COMMAND, sizeof_SYNC_OBJECT; lia)
      ltac:(rewrite (ca_src_at _ _ _ C); unfold sizeof_COMMAND, sizeof_SYNC_OBJECT; lia)
      (fun o Ho => Hk x o ltac:(by left) Ho)).
    rewrite ring_mask, wrap_mod by done. fold (ahead (ui32QueueSize q) (ahead (ui32QueueSize q) ro t) (uCmdSize (x_cmd x))).
    rewrite ahead_ahead by lia. fold (x_size x).
    eapply st_runs_bind; [apply (IH fuel (t + x_size x)); [done|lia|lia| |lia|]|].
    + rewrite Hw. f_equal. lia.
    + intros y o Hy. apply Hk. by right.
    + simpl. intros l s' [-> ->]. by apply st_runs_ret.
Qed.

Lemma show_runs s p q :
  qinv s -> queues s !! p = Some q ->
  runs (ProcSeqShowQueue p) s (fun l s' => s' = s /\ c_id <$> l = ids Queued (history s) p /\
    GET_SPACE_IN_CMDQ q = ui32QueueSize q - 1 - foldr (fun c n => uCmdSize c + n) 0 l).
Proof.
  intros Q Hq. destruct (qk_queue _ _ (qi_queues s Q) p q Hq) as (b & cs & prep & Hd).
  pose proof Hd as [A1 A2 A3 A4 A5 A6 A7 A8 A9 A10 A11 A12].
  pose proof (ring_size_range _ A3). apply laid_app in A6 as [Hl Hl2]. pose proof (laid_extent _ _ _ _ _ Hl2).
  pose proof (laid_extent _ _ _ _ _ Hl). rewrite extent_app in A7.
  unfold ProcSeqShowQueue. st_run (found_ok (fun s => queues s !! p) s q Hq). simpl.
  rewrite <- (ahead_0 (ui32QueueSize q) (ui32ReadOffset q)) by done.
  eapply st_runs_mono; [apply (show_loop_runs _ s q b (ui32ReadOffset q) 0 cs); try done; try lia; [by apply (holds_length s (history s) p q b cs prep)|]|].
  - intros x o Hx Ho. destruct (A12 x) as [D _]; [apply elem_of_app; by left|].
    destruct (ds_past _ _ D) as (h & Hh & _). apply (w_known s (qi_work s Q) (x_id x) h Hh).
    apply (queued_object (history s) x); [done|done|]. apply elem_of_app. by right.
  - intros l s' [-> ->]. split; [done|]. split; [rewrite <- A9; by rewrite <- list_fmap_compose|].
    rewrite (queue_space _ _ _ _ _ _ _ Hd). f_equal. clear. induction cs as [|x cs IH]; simpl; [done|]. by rewrite IH.
Qed.
End Drain.

(** * Readers that were overtaken

    A command waits until the counts of its objects equal those it recorded.  The
    counts only grow, so one that went past keeps the command waiting. *)

Section Stuck.
Context (E : qenv) `{NUM : CommandsPerType}.

(** The command at the head of the queue reads an object of which more reads are
    complete than were pending when the command was inserted. *)
Definition head_overtaken (s : qsys) (q : PVRSRV_QUEUE_INFO) : Prop := exists b c i o d,
  buffers s !! pvLinQueueKM q = Some b /\ b_cells b !! ui32ReadOffset q = Some (Cmd c) /\
  Z.of_nat i < ui32SrcSyncCount c /\ b_cells b !! (psSrcSync c + Z.of_nat i * sizeof_SYNC_OBJECT) = Some (Sync o) /\
  syncs s !! psKernelSyncInfoKM o = Some d /\ so_ReadOps2Pending o < ui32ReadOps2Complete d.

(** Every queue is empty or has such a command at its head, and no command is
    with a device. *)
Definition stuck (s : qsys) : Prop := idle s /\ forall p q, queues s !! p = Some q ->
  ui32ReadOffset q = ui32WriteOffset q \/ head_overtaken s q.

Lemma stuck_quiet s s' : quiet s s' -> stuck s -> stuck s'.
Proof.
  intros [A1 A2 A3 A4 A5 A6 A7 A8 A9] [Hi Hq]. split; [intros p c; rewrite A7; apply Hi|]. intros p q. rewrite A4. intros Hp.
  destruct (Hq p q Hp) as [?|Hh]; [by left|right]. unfold head_overtaken. by rewrite A5, A8.
Qed.

(** Such an object is not due: the device has nothing that could excuse it. *)
Lemma overtaken_not_due s dc o d :
  idle s -> so_ReadOps2Pending o < ui32ReadOps2Complete d ->
  ~ (not_due d o false = false \/ (so_WriteOpsPending o <= ui32WriteOpsComplete d /\ busy s dc)).
Proof.
  intros Hi Hlt [Hn|[_ (j & p & c & _ & Hc & Hu)]]; [|by rewrite (Hi p c Hc) in Hu]. revert Hn. unfold not_due.
  rewrite (proj2 (Z.eqb_neq (ui32ReadOps2Complete d) _)) by lia. by rewrite orb_true_r.
Qed.

Lemma command_refused s p q b x cs prep :
  qinv s -> idle s -> queues s !! p = Some q -> holds s (history s) p q b (x :: cs) prep -> head_overtaken s q ->
  PVRSRVProcessCommand E (pvLinQueueKM q) (ui32ReadOffset q) false s = Ok (PVRSRV_ERROR_FAILED_DEPENDENCIES, s).
Proof.
  intros Q Hidle Hq Hd (b' & c & i & o & d & Hb' & Hc & Hi & Ho & Hs & Hlt).
  pose proof (ring_size_range _ (hd_ring _ _ _ _ _ _ _ Hd)) as Hn. pose proof (hd_read _ _ _ _ _ _ _ Hd) as Hro.
  pose proof (hd_buffer _ _ _ _ _ _ _ Hd) as Hb. rewrite Hb in Hb'. injection Hb' as <-.
  destruct (hd_laid _ _ _ _ _ _ _ Hd) as [C _]. rewrite ahead_0 in C by done.
  rewrite (ca_cmd _ _ _ C) in Hc. injection Hc as <-. rewrite (ca_src_count _ _ _ C) in Hi.
  destruct (lookup_lt_is_Some_2 (x_src x) i) as [o' Ho']; [lia|].
  rewrite (ca_src _ _ _ C i o' Ho') in Ho. injection Ho as ->.
  assert (ui32ReadOffset q + x_size x <= b_size b) as Hsz.
  { rewrite (hd_size _ _ _ _ _ _ _ Hd). pose proof (ca_size _ _ _ C). lia. }
  destruct (hd_cmds _ _ _ _ _ _ _ Hd x) as [D (dc & Hdc & _)]; [by left|].
  assert (forall o, o ∈ x_dst x ++ x_src x -> is_Some (syncs s !! psKernelSyncInfoKM o)) as Hk.
  { intros y Hy. destruct (ds_past _ _ D) as (h & Hh & _). apply (w_known s (qi_work s Q) (x_id x) h Hh).
    by apply (queued_object (history s) x). }
  pose proof (ca_size _ _ _ C) as Cz. unfold sizeof_COMMAND, sizeof_SYNC_OBJECT in Cz.
  unfold PVRSRVProcessCommand. st_run (load_command_ok s _ b _ _ Hb (ca_cmd _ _ _ C) ltac:(lia)).
  rewrite (ca_dst_count _ _ _ C), (ca_src_count _ _ _ C), !Nat2Z.id.
  destruct (dst_ready_runs s (pvLinQueueKM q) b (psDstSync (x_cmd x)) (x_dst x) false) as (r & ? & E1 & -> & _);
    [done|apply (ca_dst _ _ _ C)|rewrite (ca_dst_at _ _ _ C); unfold sizeof_COMMAND; lia|
     rewrite (ca_dst_at _ _ _ C); unfold sizeof_COMMAND, sizeof_SYNC_OBJECT; lia|
     intros y Hy; apply Hk, elem_of_app; by left|].
  st_run E1. destruct r; [|done]. simpl negb. cbv iota.
  destruct (src_ready_runs s (pvLinQueueKM q) b (psSrcSync (x_cmd x)) (x_src x) (ui32DevIndex (x_cmd x)) (CommandType (x_cmd x)) dc false)
    as (r & ? & E2 & -> & Hr & _);
    [by apply (qi_work s Q)|by apply (qi_devs s Q)|done|done|apply (ca_src _ _ _ C)|
     rewrite (ca_src_at _ _ _ C); unfold sizeof_COMMAND, sizeof_SYNC_OBJECT; lia|
     rewrite (ca_src_at _ _ _ C); unfold sizeof_COMMAND, sizeof_SYNC_OBJECT; lia|
     intros y Hy; apply Hk, elem_of_app; by right|].
  st_run E2. destruct r; [exfalso|done].
  by apply (overtaken_not_due s dc o d Hidle Hlt), Hr; [|apply (list_elem_of_lookup_2 _ i)|].
Qed.

Lemma queue_stuck fuel s p q :
  qinv s -> stuck s -> queues s !! p = Some q -> (0 < fuel)%nat -> process_queue E fuel p false s = Ok (tt, s).
Proof.
  intros Q [Hidle Hst] Hq Hf. destruct fuel as [|fuel]; [lia|]. simpl. st_run (found_ok (fun s => queues s !! p) s q Hq).
  destruct (Z.eqb_spec (ui32ReadOffset q) (ui32WriteOffset q)) as [Eq|Ne]; [done|].
  destruct (Hst p q Hq) as [?|Hh]; [done|]. destruct (qk_queue _ _ (qi_queues s Q) p q Hq) as (b & cs & prep & Hd).
  destruct cs as [|x cs]; [by rewrite (proj2 (queue_empty _ _ _ _ _ _ _ Hd)) in Ne|].
  by st_run (command_refused s p q b x cs prep Q Hidle Hq Hd Hh).
Qed.

Lemma list_stuck fuel s a L :
  qinv s -> stuck s -> chain (queues s) a L -> (length L <= fuel)%nat -> process_list E fuel a false s = Ok (tt, s).
Proof.
  intros Q St. revert a L. induction fuel as [|fuel IH]; intros a [|c L] Hc Hf; simpl in Hc, Hf; try lia.
  1, 2: by subst a.
  destruct Hc as (-> & Hc & q & Hq & Hch). simpl. rewrite (proj2 (Z.eqb_neq _ _) Hc).
  st_run (found_ok (fun s => queues s !! c) s q Hq). destruct (qk_queue _ _ (qi_queues s Q) c q Hq) as (b & cs & prep & Hd).
  pose proof (ring_size_range _ (hd_ring _ _ _ _ _ _ _ Hd)).
  st_run (queue_stuck (Z.to_nat (ui32QueueSize q)) s c q Q St Hq ltac:(lia)).
  st_run (found_ok (fun s => queues s !! c) s q Hq). by apply (IH _ L); [|lia].
Qed.

Lemma queues_stuck s :
  patient E -> ready s -> stuck s ->
  runs (PVRSRVProcessQueues E false) s (fun _ s' => quiet s s' /\ unlocked s').
Proof.
  intros Hpt [Q Hu] St. unfold PVRSRVProcessQueues. eapply st_runs_bind; [apply lock_loop_runs; [done|apply Hpt]|].
  intros _ s1 [Q1 R1]. st_get. eapply st_runs_bind; [by apply emit_when|]. intros _ s2 [Q2 R2]. st_get.
  assert (quiet s s2) as Q02 by by etrans. pose proof (quiet_qinv _ _ Q02 Q) as I2.
  destruct (qk_list _ _ (qi_queues s2 I2)) as (L & Hch & Hnd & Hin). rewrite (qt_head _ _ Q2) in Hch.
  st_run (list_stuck (size (queues s2)) s2 (psQueueList s1) L I2 (stuck_quiet _ _ Q02 St) Hch
    (listed_size _ _ Hnd (fun p => proj1 (Hin p)))).
  eapply st_runs_bind; [by apply emit_when|]. intros _ s4 [Q4 R4]. st_get.
  eapply st_runs_bind; [apply quiet_outputs; intros x s'; by apply emit_when|]. intros _ s5 [Q5 R5].
  eapply st_runs_bind; [apply OSUnlockResource_runs; congruence|]. intros _ s6 (_ & Q6 & U6). apply st_runs_ret.
  split; [|done]. etrans; [exact Q02|]. etrans; [exact Q4|]. by etrans.
Qed.

Lemma none_completed l s : idle s -> complete_all None l s = Ok (tt, s).
Proof.
  intros Hi. induction l as [|p l IH]; [done|]. refine (eq_trans (st_bind_ok _ _ s tt s _) IH). unfold gets, mbind, st_bind.
  unfold in_use. destruct (cc_data s !! p) as [c|] eqn:Hc; [|done]. by rewrite (Hi p c Hc).
Qed.

Lemma rounds_stuck n s :
  patient E -> ready s -> stuck s -> runs (rounds E n) s (fun _ s' => quiet s s').
Proof.
  intros Hpt. revert s. induction n as [|n IH]; intros s [Q U] St; simpl; [by apply st_runs_ret|].
  unfold round. eapply st_runs_bind with (R := fun _ s' => quiet s s' /\ unlocked s').
  - eapply st_runs_bind; [by apply queues_stuck|]. intros _ s1 [Q1 U1]. st_get.
    eexists _, _. split; [apply none_completed, (stuck_quiet _ _ Q1 St)|done].
  - intros _ s1 [Q1 U1]. eapply st_runs_mono; [apply IH; [split; [by apply (quiet_qinv s)|done]|by apply (stuck_quiet s)]|].
    simpl. intros _ s2 Q2. by etrans.
Qed.
End Stuck.
