(* ===== verification/PvrQueueRegister.v ===== *)
(** * Registering the commands of a device

    [PVRSRVRegisterCmdProcListKM] gets the table of a device and the cookies of
    each type of command; [PVRSRVRemoveCmdProcListKM] frees them in the same
    order.  [registering] relates a state in the middle of either to the one
    before. *)

From stdpp Require Import base list numbers option gmap.
From Stdlib Require Import ZArith Lia.
From S2P Require Import Prelude PvrHash Stateful PvrQueue PvrQueueHistory PvrQueueInv PvrQueueProcess PvrQueueCreate.
From stdpp Require Import list.

Local Open Scope Z_scope.

Section Register.
Context (E : qenv) `{NUM : CommandsPerType}.

Definition slot_of (T : list DEVICE_COMMAND_DATA) (x : nat * nat) : option (option Z) :=
  d ← T !! x.1; apsCmdCompleteData d !! x.2.

(** [A] are the cookies that were got since [s0], with their slots; [T] is the
    table at [p]. *)
Record registering (s0 s : qsys) (p : Z) (T : list DEVICE_COMMAND_DATA) (A : list ((nat * nat) * Z)) : Prop := mk_registering {
  rg_table : dev_data s = <[p := T]> (dev_data s0);
  rg_slots : forall x a, (x, a) ∈ A -> slot_of T x = Some (Some a) /\ a <> 0 /\ is_Some (cc_data s !! a);
  rg_distinct : NoDup A.*1 /\ NoDup A.*2;
  rg_others : forall a, a ∉ A.*2 -> cc_data s !! a = cc_data s0 !! a;
  rg_fresh : forall a, a ∈ A.*2 -> cc_data s0 !! a = None;
  rg_queues : queues s = queues s0 /\ buffers s = buffers s0 /\ psQueueList s = psQueueList s0 /\ syncs s = syncs s0 /\ history s = history s0;
  rg_devices : apsDeviceCommandData s = apsDeviceCommandData s0 }.

(** The slots of [T] that were never written. *)
Definition blank (T : list DEVICE_COMMAND_DATA) (x : nat * nat) : Prop := slot_of T x = Some None.

Lemma set_command_ok s p T t d f :
  dev_data s !! p = Some T -> T !! t = Some d ->
  set_command p t f s = Ok (tt, set_dev_data (<[p := <[t := f d]> T]> (dev_data s)) s).
Proof. intros Hp Ht. unfold set_command, found, modify, mbind, st_bind. by rewrite Hp, Ht. Qed.

Lemma slot_write T t i y d v :
  T !! t = Some d -> (i < length (apsCmdCompleteData d))%nat ->
  slot_of (<[t := set_apsCmdCompleteData (<[i := v]> (apsCmdCompleteData d)) d]> T) y =
  if decide (y = (t, i)) then Some v else slot_of T y.
Proof.
  intros Hd Hl. unfold slot_of. destruct y as [t' i']. simpl in *. pose proof (lookup_lt_Some _ _ _ Hd).
  destruct (decide (t' = t)) as [->|Ht].
  - rewrite list_lookup_insert_eq, Hd by done. simpl. destruct (decide (i' = i)) as [->|Hi].
    + rewrite decide_True by done. by apply list_lookup_insert_eq.
    + rewrite decide_False by congruence. by apply list_lookup_insert_ne.
  - rewrite list_lookup_insert_ne, decide_False by congruence. done.
Qed.

(** ** Freeing *)

Lemma remove_step s0 s p T x a A :
  registering s0 s p T ((x, a) :: A) -> exists T' s', remove_complete p x s = Ok (tt, s') /\ registering s0 s' p T' A /\
    forall y, y <> x -> slot_of T' y = slot_of T y.
Proof.
  intros [G1 G2 [N1 N2] G4 G5 G6 G7]. simpl in N1, N2. apply NoDup_cons in N1 as [Nx N1], N2 as [Na N2].
  destruct (G2 x a) as (Hx & Ha & [c Hc]); [by left|]. unfold slot_of in Hx. destruct (T !! x.1) as [d|] eqn:Hd; [|done]. simpl in Hx.
  destruct x as [t i]. simpl in *.
  assert (dev_data s !! p = Some T) as Hp by (rewrite G1; apply lookup_insert_eq).
  exists (<[t := set_apsCmdCompleteData (<[i := Some 0]> (apsCmdCompleteData d)) d]> T). eexists. split; [|split].
  - unfold remove_complete. st_run (found_ok (fun s => dev_data s !! p) s T Hp). st_run (found_ok (fun _ => T !! t) s d Hd).
    rewrite Hx. st_run (eq_refl : written (Some (Some a)) s = Ok (a, s)). rewrite (proj2 (Z.eqb_neq _ _) Ha). simpl.
    st_run (found_ok (fun s => cc_data s !! a) s c Hc). st_mod.
    by apply (set_command_ok (set_cc_data (delete a (cc_data s)) s) p T).
  - pose proof (lookup_lt_Some _ _ _ Hx) as Hl. split; simpl; try done.
    + by rewrite G1, insert_insert_eq.
    + intros y b Hy. destruct (G2 y b) as (Hy1 & Hy2 & Hy3); [by right|].
      rewrite (slot_write T t i y d (Some 0) Hd Hl), decide_False.
      * split; [done|]. split; [done|]. rewrite lookup_delete_ne; [done|]. intros <-. apply Na. by apply (list_elem_of_fmap_2 snd _ (y, a)).
      * intros ->. apply Nx. by apply (list_elem_of_fmap_2 fst _ ((t, i), b)).
    + intros b Hb. destruct (decide (a = b)) as [<-|Hne].
      * rewrite lookup_delete_eq. symmetry. apply G5. by left.
      * rewrite lookup_delete_ne by done. apply G4. by apply not_elem_of_cons.
    + intros b Hb. apply G5. by right.
  - intros y Hy. by rewrite (slot_write T t i y d (Some 0) Hd (lookup_lt_Some _ _ _ Hx)), decide_False.
Qed.

Lemma remove_all s0 s p T A Y :
  registering s0 s p T A -> exists T' s', for_each (A.*1 ++ Y) (remove_complete p) s = for_each Y (remove_complete p) s' /\
    registering s0 s' p T' [] /\ forall y, y ∉ A.*1 -> slot_of T' y = slot_of T y.
Proof.
  revert s T. induction A as [|[x a] A IH]; intros s T R; simpl; [by exists T, s|].
  destruct (remove_step _ _ _ _ _ _ _ R) as (T1 & s1 & E1 & R1 & K1).
  rewrite (st_bind_ok _ _ _ _ _ E1).
  destruct (IH s1 T1 R1) as (T2 & s2 & E2 & R2 & K2). exists T2, s2. split; [done|]. split; [done|].
  intros y [Hne Hy]%not_elem_of_cons. by rewrite K2, K1.
Qed.

Lemma remove_blank s0 s p T x Y :
  registering s0 s p T [] -> blank T x -> for_each (x :: Y) (remove_complete p) s = Fault Indeterminate.
Proof.
  intros [G1 _ _ _ _ _ _]. unfold blank, slot_of. destruct x as [t i]. simpl. destruct (T !! t) as [d|] eqn:Hd; [|done]. simpl. intros Hx.
  assert (dev_data s !! p = Some T) as Hp by (rewrite G1; apply lookup_insert_eq).
  unfold remove_complete, found, mbind, st_bind. rewrite Hp, Hd, Hx. done.
Qed.

(** ** Getting the cookies *)

(** All slots of the table are there; those not in [A] are blank. *)
Record table_ok (n : nat) (T : list DEVICE_COMMAND_DATA) (A : list ((nat * nat) * Z)) : Prop := mk_table_ok {
  tb_length : length T = n;
  tb_slots : forall t d, T !! t = Some d -> length (apsCmdCompleteData d) = DC_NUM_COMMANDS_PER_TYPE;
  tb_blank : forall x, (x.1 < n)%nat -> (x.2 < DC_NUM_COMMANDS_PER_TYPE)%nat -> x ∉ A.*1 -> blank T x }.

(** What a step of registering ends in: the slots [X] have cookies, those that
    the allocator gave from the time of [s0] on. *)
Definition registered (s0 : qsys) (p : Z) (n : nat) (X : list (nat * nat)) (s : qsys) : Prop :=
  exists T A, registering s0 s p T A /\ table_ok n T A /\ A.*1 = X /\
    Some <$> A.*2 = q_alloc E <$> seq (q_clock s0) (length X).

(** The allocator, asked at the time [c], gave nothing that can be a cookie. *)
Definition refused (s : qsys) (c : nat) : Prop :=
  match q_alloc E c with Some a => a = 0 \/ is_Some (cc_data s !! a) | None => True end.

(** The next cookie was refused. *)
Definition stopped (s0 : qsys) (p : Z) (n : nat) (Y : list (nat * nat)) (s : qsys) : Prop :=
  registered s0 p n Y s /\ refused s (q_clock s0 + length Y).

Lemma OSAllocMem_cookie s :
  runs (OSAllocMem E (fun s p => bool_decide (is_Some (cc_data s !! p)))) s (fun a s' => s' = set_q_clock (S (q_clock s)) s /\
    ((a = 0 /\ refused s' (q_clock s)) \/ (a <> 0 /\ q_alloc E (q_clock s) = Some a /\ cc_data s !! a = None))).
Proof.
  unfold OSAllocMem, refused. st_run (eq_refl : tick s = Ok (_, _)). eexists _, _. split; [done|]. split; [done|]. simpl.
  destruct (q_alloc E (q_clock s)) as [a|]; [|by left]. destruct (Z.eqb_spec a 0) as [->|Ha]; simpl; [left; auto|].
  case_bool_decide as Hc; [by left; auto|]. right. apply eq_None_not_Some in Hc. done.
Qed.

Lemma register_complete_runs s0 s p n nd ns t i X :
  registered s0 p n X s -> q_clock s = (q_clock s0 + length X)%nat ->
  (t < n)%nat -> (i < DC_NUM_COMMANDS_PER_TYPE)%nat -> (t, i) ∉ X ->
  runs (register_complete E p nd ns t i) s (fun b s' => if b : bool
    then registered s0 p n (X ++ [(t, i)]) s' /\ q_clock s' = (q_clock s0 + length (X ++ [(t, i)]))%nat
    else stopped s0 p n X s').
Proof.
  intros (T & A & [G1 G2 [N1 N2] G4 G5 G6 G7] & [B1 B2 B3] & <- & HA) Hck Ht Hi Hx. unfold register_complete.
  eapply st_runs_bind; [by apply OSAllocMem_cookie|]. intros a s1 [-> [[-> Ha]|(Ha0 & Hal & Ha)]].
  { apply st_runs_ret. split; [|by rewrite <- Hck]. exists T, A. split; [by split|]. split; [by split|done]. }
  rewrite (proj2 (Z.eqb_neq _ _) Ha0). set (s1 := set_q_clock (S (q_clock s)) s).
  assert (a ∉ A.*2) as HaA.
  { intros ([x b] & -> & Hin)%list_elem_of_fmap. destruct (G2 x b Hin) as (_ & _ & [c Hc]). simpl in Ha. congruence. }
  destruct (lookup_lt_is_Some_2 T t) as [d Hd]; [lia|]. pose proof (B2 t d Hd) as Hl.
  assert (dev_data s1 !! p = Some T) as Hp by (simpl; rewrite G1; apply lookup_insert_eq).
  st_run (set_command_ok s1 p T t d (fun d => set_apsCmdCompleteData (<[i := Some a]> (apsCmdCompleteData d)) d) Hp Hd). st_mod.
  apply st_runs_ret. split; [|simpl; rewrite length_app, Hck; simpl; lia]. set (T' := <[t := _]> T).
  assert (forall y, slot_of T' y = if decide (y = (t, i)) then Some (Some a) else slot_of T y) as Hslot
    by (intros y; apply (slot_write T t i y d (Some a)); [done|lia]).
  exists T', (A ++ [((t, i), a)]). split; [|split; [|split]].
  - split; simpl; try done.
    + by rewrite G1, insert_insert_eq.
    + intros y b [Hy|Hy]%elem_of_app.
      * destruct (G2 y b Hy) as (Hy1 & Hy2 & Hy3). rewrite Hslot, decide_False.
        -- split; [done|]. split; [done|]. rewrite lookup_insert_ne; [done|]. intros <-. apply HaA. by apply (list_elem_of_fmap_2 snd _ (y, a)).
        -- intros ->. apply Hx. by apply (list_elem_of_fmap_2 fst _ ((t, i), b)).
      * apply list_elem_of_singleton in Hy. injection Hy as -> ->. rewrite Hslot, decide_True by done.
        split; [done|]. split; [done|]. rewrite lookup_insert_eq. eauto.
    + rewrite !fmap_app. simpl. split; by apply NoDup_snoc.
    + intros b. rewrite fmap_app. simpl. intros [Hb Hne%not_elem_of_cons]%not_elem_of_app.
      rewrite lookup_insert_ne by (intros ->; by destruct Hne). by apply G4.
    + intros b. rewrite fmap_app. simpl. intros [Hb| ->%list_elem_of_singleton]%elem_of_app; [by apply G5|].
      by rewrite <- G4.
  - split.
    + unfold T'. by rewrite length_insert.
    + intros t' d' Hd'. destruct (decide (t' = t)) as [->|Hne].
      * unfold T' in Hd'. rewrite list_lookup_insert_eq in Hd' by lia. injection Hd' as <-. simpl. by rewrite length_insert.
      * unfold T' in Hd'. rewrite list_lookup_insert_ne in Hd' by done. by apply (B2 t').
    + intros y Hy1 Hy2. rewrite fmap_app. simpl. intros [Hy Hne%not_elem_of_cons]%not_elem_of_app.
      unfold blank. rewrite Hslot, decide_False by (intros ->; by destruct Hne). by apply B3.
  - by rewrite fmap_app.
  - rewrite length_app, seq_app, !fmap_app, HA. simpl. by rewrite <- Hck, Hal.
Qed.

Lemma registered_header s0 s p n X t pfn nd ns :
  registered s0 p n X s -> (t < n)%nat ->
  runs (set_command p t (fun d => mk_dc pfn (apsCmdCompleteData d) 0 nd ns)) s (fun _ s' =>
    registered s0 p n X s' /\ q_clock s' = q_clock s).
Proof.
  intros (T & A & [G1 G2 G3 G4 G5 G6 G7] & [B1 B2 B3] & HX) Ht.
  destruct (lookup_lt_is_Some_2 T t) as [d Hd]; [lia|].
  assert (dev_data s !! p = Some T) as Hp by (rewrite G1; apply lookup_insert_eq).
  eexists _, _. split; [by apply (set_command_ok s p T t d)|]. split; [|done]. set (T' := <[t := _]> T).
  assert (forall y, slot_of T' y = slot_of T y) as Hslot.
  { intros [t' i']. unfold slot_of, T'. simpl. destruct (decide (t' = t)) as [->|Hne].
    - by rewrite list_lookup_insert_eq, Hd by lia.
    - by rewrite list_lookup_insert_ne. }
  exists T', A. split; [|split; [|done]].
  - split; simpl; try done; [by rewrite G1, insert_insert_eq|]. intros y a Hy. rewrite Hslot. by apply G2.
  - split; [unfold T'; by rewrite length_insert| |].
    + intros t' d' Hd'. unfold T' in Hd'. destruct (decide (t' = t)) as [->|Hne].
      * rewrite list_lookup_insert_eq in Hd' by lia. injection Hd' as <-. simpl. by apply (B2 t).
      * rewrite list_lookup_insert_ne in Hd' by done. by apply (B2 t').
    + intros y. unfold blank. rewrite Hslot. apply B3.
Qed.

Lemma register_inner_runs s0 s p n nd ns t idx X :
  registered s0 p n X s -> q_clock s = (q_clock s0 + length X)%nat ->
  (t < n)%nat -> (forall i, i ∈ idx -> (i < DC_NUM_COMMANDS_PER_TYPE)%nat /\ (t, i) ∉ X) -> NoDup idx ->
  runs (register_inner E p nd ns t idx) s (fun b s' => if b : bool
    then registered s0 p n (X ++ (pair t <$> idx)) s' /\ q_clock s' = (q_clock s0 + length (X ++ (pair t <$> idx)))%nat
    else exists Y i Z, idx = Y ++ i :: Z /\ stopped s0 p n (X ++ (pair t <$> Y)) s').
Proof.
  revert s X. induction idx as [|i idx IH]; intros s X R Hck Ht Hi Hnd; simpl.
  - apply st_runs_ret. by rewrite app_nil_r.
  - apply NoDup_cons in Hnd as [Hni Hnd]. destruct (Hi i) as [Hil HiX]; [by left|].
    eapply st_runs_bind; [by apply (register_complete_runs s0 s p n nd ns t i X)|]. intros [] s1 R1.
    + destruct R1 as [R1 Hck1]. eapply st_runs_mono; [apply (IH s1 (X ++ [(t, i)])); [done|done|done| |done]|].
      * intros j Hj. destruct (Hi j) as [? ?]; [by right|]. split; [done|]. intros [?|Heq%list_elem_of_singleton]%elem_of_app; [done|].
        injection Heq as ->. done.
      * intros [] s2; rewrite <- ?app_assoc; [done|]. intros (Y & j & Z & -> & R2). rewrite <- app_assoc in R2.
        by exists (i :: Y), j, Z.
    + apply st_runs_ret. exists [], i, idx. split; [done|]. by rewrite app_nil_r.
Qed.

(** The slots of the types from [t] on, in the order of the loops. *)
Definition slots (t m : nat) : list (nat * nat) := i ← seq t m; pair i <$> seq 0 DC_NUM_COMMANDS_PER_TYPE.

Lemma slots_nested n : nested n DC_NUM_COMMANDS_PER_TYPE = slots 0 n.
Proof.
  unfold nested, slots. apply list_bind_ext; [|done]. intros i. generalize (seq 0 DC_NUM_COMMANDS_PER_TYPE) as l.
  induction l as [|j l IH]; [done|]. rewrite bind_cons, IH. done.
Qed.

Lemma elem_of_slots x t m : x ∈ slots t m <-> (t <= x.1 < t + m)%nat /\ (x.2 < DC_NUM_COMMANDS_PER_TYPE)%nat.
Proof.
  unfold slots. rewrite list_elem_of_bind. destruct x as [t' i']. simpl. split.
  - intros (j & Hx & Hj%elem_of_seq). apply list_elem_of_fmap in Hx as (i & [= -> ->] & Hi%elem_of_seq). lia.
  - intros [Ht Hi]. exists t'. split; [|by apply elem_of_seq]. apply list_elem_of_fmap. exists i'. split; [done|]. apply elem_of_seq. lia.
Qed.

Lemma register_outer_runs s0 s p n t l X :
  registered s0 p n X s -> q_clock s = (q_clock s0 + length X)%nat ->
  (t + length l = n)%nat -> (forall x, x ∈ X -> (x.1 < t)%nat) ->
  runs (register_outer E p t l) s (fun b s' => if b : bool
    then registered s0 p n (X ++ slots t (length l)) s'
    else exists Y x Z, slots t (length l) = Y ++ x :: Z /\ stopped s0 p n (X ++ Y) s').
Proof.
  revert s t X. induction l as [|[pfn [nd ns]] l IH]; intros s t X R Hck Hn HX; simpl.
  - apply st_runs_ret. by rewrite app_nil_r.
  - simpl in Hn. eapply st_runs_bind; [apply (registered_header s0 s p n X); [done|lia]|]. intros [] s1 [R1 Hck1].
    eapply st_runs_bind; [apply (register_inner_runs s0 s1 p n nd ns t _ X); [done|congruence|lia| |apply NoDup_seq]|].
    { intros i Hi%elem_of_seq. split; [lia|]. intros Hin. specialize (HX _ Hin). simpl in HX. lia. }
    assert (slots t (S (length l)) = (pair t <$> seq 0 DC_NUM_COMMANDS_PER_TYPE) ++ slots (S t) (length l)) as Hs by done.
    intros [] s2 R2.
    + destruct R2 as [R2 Hck2]. eapply st_runs_mono; [apply (IH s2 (S t)); [done|done|lia|]|].
      * intros x [Hx|Hx]%elem_of_app; [specialize (HX x Hx); lia|]. apply list_elem_of_fmap in Hx as (i & -> & _). simpl. lia.
      * intros [] s3; rewrite Hs; [by rewrite <- app_assoc|]. intros (Y & x & Z & HY & R3). rewrite <- app_assoc in R3.
        exists ((pair t <$> seq 0 DC_NUM_COMMANDS_PER_TYPE) ++ Y), x, Z. by rewrite HY, app_assoc.
    + destruct R2 as (Y & i & Z & HY & R2). apply st_runs_ret.
      exists (pair t <$> Y), (t, i), ((pair t <$> Z) ++ slots (S t) (length l)).
      rewrite Hs, HY, fmap_app. simpl. by rewrite <- app_assoc.
Qed.

(** ** The calls *)

(** Nothing is registered for the device [i]. *)
Definition unregistered (s : qsys) (i : Z) : Prop :=
  0 <= i < SYS_DEVICE_COUNT /\ entry_at (apsDeviceCommandData s) i = Some 0.

(** The state in which the table [p] is known, but does not exist yet. *)
Definition with_table (s : qsys) (i p : Z) : qsys :=
  set_apsDeviceCommandData (<[Z.to_nat i := p]> (apsDeviceCommandData s)) (set_q_clock (S (q_clock s)) s).

Lemma with_table_entry s i p : unregistered s i -> entry_at (apsDeviceCommandData (with_table s i p)) i = Some p.
Proof.
  intros [Hi He]. unfold entry_at in *. rewrite (proj2 (Z.ltb_ge _ _)) in He |- * by lia. simpl.
  apply list_lookup_insert_eq. by apply lookup_lt_Some in He.
Qed.

(** The allocator gives memory for the table. *)
Definition table_got (s : qsys) (p : Z) : Prop :=
  q_alloc E (q_clock s) = Some p /\ p <> 0 /\ dev_data s !! p = None.

(** How the loops of [PVRSRVRegisterCmdProcListKM] end. *)
Lemma register_ends s i l :
  unregistered s i ->
  ((forall p, ~ table_got s p) /\
     PVRSRVRegisterCmdProcListKM E i l s = Ok (PVRSRV_ERROR_OUT_OF_MEMORY, set_q_clock (S (q_clock s)) s)) \/
  exists p s', table_got s p /\
    ((PVRSRVRegisterCmdProcListKM E i l s = Ok (PVRSRV_OK, s') /\
      registered (with_table s i p) p (length l) (slots 0 (length l)) s') \/
     (exists Y x Z, PVRSRVRegisterCmdProcListKM E i l s =
         (PVRSRVRemoveCmdProcListKM i (Z.of_nat (length l));; mret PVRSRV_ERROR_OUT_OF_MEMORY) s' /\
       slots 0 (length l) = Y ++ x :: Z /\ stopped (with_table s i p) p (length l) Y s')).
Proof.
  intros [Hi He]. unfold PVRSRVRegisterCmdProcListKM. rewrite (proj2 (Z.leb_gt _ _)) by lia.
  set (s2 := set_q_clock (S (q_clock s)) s).
  assert (exists p, OSAllocMem E (fun s p => bool_decide (is_Some (dev_data s !! p))) s = Ok (p, s2) /\
    ((p = 0 /\ forall p, ~ table_got s p) \/ table_got s p)) as (p & Ha & Hp).
  { unfold OSAllocMem, table_got. eexists. split; [done|]. simpl. destruct (q_alloc E (q_clock s)) as [p|]; [|by left; split; [|intros p []]].
    destruct (Z.eqb_spec p 0) as [->|Hp]; simpl; [left; split; [done|]; intros ? ([= <-] & ? & _); done|].
    case_bool_decide as HT; [left|right; apply eq_None_not_Some in HT; done].
    split; [done|]. intros ? ([= <-] & _ & HN). rewrite HN in HT. by destruct HT. }
  rewrite (st_bind_ok _ _ _ _ _ Ha). destruct Hp as [[-> Hno]|Hp].
  { left. split; [done|]. unfold PVRSRVRemoveCmdProcListKM. simpl. rewrite (proj2 (Z.leb_gt _ _)) by lia.
    unfold found, mbind, st_bind. simpl. rewrite He. done. }
  right. pose proof Hp as (_ & Hp0 & _). rewrite (proj2 (Z.eqb_neq _ _) Hp0).
  assert (registered (with_table s i p) p (length l) [] (set_apsDeviceCommandData (<[Z.to_nat i := p]> (apsDeviceCommandData s2))
    (set_dev_data (<[p := replicate (length l) new_device_command]> (dev_data s2)) s2))) as R0.
  { exists (replicate (length l) new_device_command), []. split; [|split; [|done]].
    - split; try done; [by intros x a Hx%not_elem_of_nil|by split; constructor|by intros a Hx%not_elem_of_nil].
    - split; [apply length_replicate| |].
      + intros t d Hd. apply lookup_replicate in Hd as [-> _]. simpl. apply length_replicate.
      + intros [t j] Ht Hj _. unfold blank, slot_of. simpl in *. rewrite lookup_replicate_2 by done. simpl. by apply lookup_replicate_2. }
  destruct (register_outer_runs _ _ p (length l) 0 l [] R0 (eq_sym (Nat.add_0_r _)) eq_refl) as (b & s3 & Hrun & Hb);
    [by intros x Hx%not_elem_of_nil|].
  pose proof (st_bind_ok _ (fun done : bool => if done then mret PVRSRV_OK else
    PVRSRVRemoveCmdProcListKM i (Z.of_nat (length l));; mret PVRSRV_ERROR_OUT_OF_MEMORY) _ _ _ Hrun) as Hend.
  exists p, s3. split; [done|]. destruct b.
  - left. split; [exact Hend|done].
  - right. destruct Hb as (Y & x & Z & HY & R). exists Y, x, Z. split; [exact Hend|done].
Qed.

Lemma remove_starts s i p n :
  0 <= i < SYS_DEVICE_COUNT -> entry_at (apsDeviceCommandData s) i = Some p -> p <> 0 ->
  PVRSRVRemoveCmdProcListKM i (Z.of_nat n) s =
    (for_each (slots 0 n) (remove_complete p);;
     modify (fun s => set_dev_data (delete p (dev_data s)) s);;
     modify (fun s => set_apsDeviceCommandData (<[Z.to_nat i := 0]> (apsDeviceCommandData s)) s);; mret PVRSRV_OK) s.
Proof.
  intros Hi He Hp. unfold PVRSRVRemoveCmdProcListKM. rewrite (proj2 (Z.leb_gt _ _)) by lia.
  rewrite (st_bind_ok _ _ _ _ _ (found_ok (fun s => entry_at (apsDeviceCommandData s) i) s p He)).
  rewrite (proj2 (Z.eqb_neq _ _) Hp), Nat2Z.id, slots_nested. unfold st_when, mbind, st_bind. simpl.
  destruct (for_each _ _ s) as [[[] s']|]; done.
Qed.

(** What is got is given back. *)
Lemma remove_back s i p n s' :
  unregistered s i -> p <> 0 -> dev_data s !! p = None -> registered (with_table s i p) p n (slots 0 n) s' ->
  exists s'', PVRSRVRemoveCmdProcListKM i (Z.of_nat n) s' = Ok (PVRSRV_OK, s'') /\
    cc_data s'' = cc_data s /\ dev_data s'' = dev_data s /\ apsDeviceCommandData s'' = apsDeviceCommandData s /\
    queues s'' = queues s /\ buffers s'' = buffers s /\ psQueueList s'' = psQueueList s /\ syncs s'' = syncs s /\ history s'' = history s.
Proof.
  intros Hu Hp Hd (T & A & R & _ & HA & _). pose proof Hu as [Hi He].
  rewrite (remove_starts s' i p) by (try done; rewrite (rg_devices _ _ _ _ _ R); by apply with_table_entry).
  destruct (remove_all _ _ _ _ _ [] R) as (T2 & s2 & E2 & [G1 G2 G3 G4 G5 (G6 & G7 & G8 & G9 & G10) G11] & _). rewrite app_nil_r, HA in E2.
  rewrite (st_bind_ok _ _ s' tt s2) by by rewrite E2. eexists. split; [done|]. simpl. split; [|split; [|split; [|done]]].
  - apply map_eq. intros a. apply G4. apply not_elem_of_nil.
  - by rewrite G1, delete_insert_id.
  - rewrite G11. simpl. rewrite list_insert_insert_eq. apply list_insert_id.
    unfold entry_at in He. by rewrite (proj2 (Z.ltb_ge _ _)) in He by lia.
Qed.

(** A cookie that could not be got: freeing follows a pointer never written. *)
Lemma remove_half s i p n s' Y x Z :
  unregistered s i -> p <> 0 -> slots 0 n = Y ++ x :: Z -> registered (with_table s i p) p n Y s' ->
  PVRSRVRemoveCmdProcListKM i (Z.of_nat n) s' = Fault Indeterminate.
Proof.
  intros Hu Hp HY (T & A & R & [B1 B2 B3] & HA & _). pose proof Hu as [Hi He].
  rewrite (remove_starts s' i p) by (try done; rewrite (rg_devices _ _ _ _ _ R); by apply with_table_entry).
  destruct (remove_all _ _ _ _ _ (x :: Z) R) as (T2 & s2 & E2 & R2 & K2). rewrite HA, <- HY in E2.
  assert (x ∈ slots 0 n) as Hx by (rewrite HY; apply elem_of_app; right; by left).
  assert (NoDup (slots 0 n)) as Hnd.
  { unfold slots. apply NoDup_bind; [|intros; by apply (NoDup_fmap_2 (pair _)), NoDup_seq|apply NoDup_seq].
    intros a b [c d] _ _ (? & [= -> ->] & _)%list_elem_of_fmap (? & [= -> ->] & _)%list_elem_of_fmap. done. }
  assert (x ∉ A.*1) as Hxa.
  { rewrite HA. rewrite HY in Hnd. apply NoDup_app in Hnd as (_ & Hnd & _). intros Hin. apply (Hnd x Hin). by left. }
  apply elem_of_slots in Hx as [Hx1 Hx2]. unfold mbind, st_bind. rewrite E2, (remove_blank _ _ _ T2 x Z R2); [done|].
  unfold blank. rewrite K2 by done. apply B3; [lia|done|done].
Qed.
(** ** Which allocations failed *)

(** The allocation [k] of those for cookies gives memory that is not in use. *)
Definition cookie_got (s : qsys) (k : nat) : Prop := exists a,
  q_alloc E (S (q_clock s) + k) = Some a /\ a <> 0 /\ cc_data s !! a = None /\
  forall j, (j < k)%nat -> q_alloc E (S (q_clock s) + j) <> Some a.

Lemma length_slots t m : length (slots t m) = (m * DC_NUM_COMMANDS_PER_TYPE)%nat.
Proof.
  revert t. induction m as [|m IH]; intros t; [done|]. change (slots t (S m)) with ((pair t <$> seq 0 DC_NUM_COMMANDS_PER_TYPE) ++ slots (S t) m).
  rewrite length_app, length_fmap, length_seq, IH. lia.
Qed.

Lemma cookie_lookup {B} (A : list (B * Z)) c n k a :
  Some <$> A.*2 = q_alloc E <$> seq c n -> (k < n)%nat -> A.*2 !! k = Some a <-> q_alloc E (c + k) = Some a.
Proof.
  intros HA Hk. assert ((Some <$> A.*2) !! k = (q_alloc E <$> seq c n) !! k) as Hl by by rewrite HA.
  rewrite (list_lookup_fmap Some), (list_lookup_fmap (q_alloc E)), lookup_seq_lt in Hl by done. simpl in Hl.
  destruct (A.*2 !! k) as [b|]; [|discriminate Hl]. injection Hl as <-. split; congruence.
Qed.

Lemma registered_got s i p n X s' k :
  registered (with_table s i p) p n X s' -> (k < length X)%nat -> cookie_got s k.
Proof.
  intros (T & A & [_ G2 [_ N2] _ G5 _ _] & _ & HX & HA) Hk. simpl in HA, G5.
  destruct (lookup_lt_is_Some_2 A.*2 k) as [a Ha]; [rewrite length_fmap; rewrite <- HX, length_fmap in Hk; lia|].
  pose proof (list_elem_of_lookup_2 _ _ _ Ha) as Hin. exists a. split; [by apply (cookie_lookup A _ _ k a HA)|].
  split; [|split; [by apply G5|]].
  - apply list_elem_of_fmap in Hin as ([x b] & -> & Hx). by destruct (G2 x b Hx) as (_ & ? & _).
  - intros j Hj Hq. apply (cookie_lookup A _ _ j a HA) in Hq; [|lia]. pose proof (NoDup_lookup _ _ _ _ N2 Ha Hq). lia.
Qed.

Lemma stopped_not_got s i p n Y s' : stopped (with_table s i p) p n Y s' -> ~ cookie_got s (length Y).
Proof.
  intros [(T & A & [_ _ _ G4 _ _ _] & _ & _ & HA) R] (a & Hq & Ha & Hno & Hnew). simpl in HA, G4. unfold refused in R.
  change (q_clock (with_table s i p)) with (S (q_clock s)) in R. rewrite Hq in R. destruct R as [?|Hc]; [done|].
  destruct (decide (a ∈ A.*2)) as [[j Hj]%list_elem_of_lookup|Hn].
  - assert (j < length Y)%nat as Hlt.
    { apply lookup_lt_Some in Hj. pose proof (f_equal length HA) as Hl. rewrite !length_fmap, length_seq in Hl. rewrite length_fmap in Hj. lia. }
    apply (Hnew j Hlt). by apply (cookie_lookup A _ _ j a HA).
  - rewrite G4, Hno in Hc by done. by destruct Hc.
Qed.

(** The cookies in their slots, in the order of the loops. *)
Lemma registered_slots s i p n s' :
  registered (with_table s i p) p n (slots 0 n) s' ->
  exists T, dev_data s' = <[p := T]> (dev_data s) /\ length T = n /\
    apsDeviceCommandData s' = <[Z.to_nat i := p]> (apsDeviceCommandData s) /\
    (slot_of T <$> slots 0 n) = (Some <$> (q_alloc E <$> seq (S (q_clock s)) (n * DC_NUM_COMMANDS_PER_TYPE))).
Proof.
  intros (T & A & [G1 G2 _ _ _ _ G7] & [B1 _ _] & HX & HA). exists T. split; [done|]. split; [done|]. split; [done|].
  rewrite length_slots in HA. simpl in HA. rewrite <- HA, <- HX, <- !list_fmap_compose.
  apply list_fmap_ext. intros k [x a] Hk. simpl. by destruct (G2 x a (list_elem_of_lookup_2 _ _ _ Hk)) as (? & _).
Qed.
End Register.
