(* ===== verification/PvrQueueTheorems.v ===== *)
(** * Theorems on the command queues *)

From stdpp Require Import base list numbers option gmap.
From Stdlib Require Import ZArith Lia.
From S2P Require Import Prelude PvrHash Stateful PvrQueue PvrQueueRing PvrQueueHistory PvrQueueInv PvrQueueGive PvrQueueProcess PvrQueueCreate PvrQueueInsert PvrQueueCalls PvrQueueRegister.
From stdpp Require Import list.

Local Open Scope Z_scope.

(** ** Checking concrete runs *)

Section Deciding.
Context (E : qenv) `{NUM : CommandsPerType}.

Definition legalb (s : qsys) (c : call) : bool :=
  match c with
  | CreateQueue n => (0 <? n) && (n <=? 2 ^ 31)
  | DestroyQueue p => bool_decide (is_Some (queues s !! p)) && bool_decide (ids Prepared (history s) p = [])
  | InsertCommand p i t dst src data _ _ =>
      bool_decide (is_Some (queues s !! p)) && bool_decide (ids Prepared (history s) p = []) &&
      bool_decide (is_Some (dev_at s i t)) && bool_decide (NoDup (dst ++ src)) &&
      forallb (fun a => bool_decide (is_Some (syncs s !! a))) (dst ++ src) && (0 <=? data) && (data <? 2 ^ 31) &&
      (Z.of_nat (length dst + length src) <=? 2 ^ 20) && (Z.of_nat (length (history s)) + 1 <? 2 ^ 32)
  | SubmitCommand p o =>
      match queues s !! p, ids Prepared (history s) p with Some q, [_] => o =? ui32WriteOffset q | _, _ => false end
  | ProcessQueues _ => true
  | CommandComplete a _ => in_use s a
  end.

Lemma legalb_sound s c : legalb s c = true -> legal s c.
Proof.
  destruct c as [n|p|p i t dst src data pfn hData|p o|f|a b]; simpl; rewrite ?andb_true_iff, ?bool_decide_eq_true, ?Z.ltb_lt, ?Z.leb_le, ?forallb_forall.
  - done.
  - done.
  - intros ((((((((? & ?) & ?) & ?) & Hk) & ?) & ?) & ?) & ?). split; try done. intros a Ha.
    by apply (proj1 (bool_decide_eq_true _)), Hk, list_elem_of_In.
  - destruct (queues s !! p) as [q|] eqn:Hq; [|done]. destruct (ids Prepared (history s) p) as [|i [|? ?]] eqn:Hi; try done.
    intros Ho%Z.eqb_eq. by exists q, i.
  - done.
  - done.
Qed.

Fixpoint legal_runb (s : qsys) (l : list call) : bool :=
  match l with
  | [] => true
  | c :: l => legalb s c && match perform E c s with Ok (_, s') => legal_runb s' l | Fault _ => false end
  end.

Lemma legal_runb_sound l s : legal_runb s l = true -> legal_run E s l.
Proof.
  revert s. induction l as [|c l IH]; intros s; simpl; [done|]. intros [Hc Hl]%andb_true_iff. split; [by apply legalb_sound|].
  intros s' Hs. rewrite Hs in Hl. by apply IH.
Qed.

Definition dc_okb (s : qsys) (dc : DEVICE_COMMAND_DATA) : bool :=
  (0 <=? ui32CCBOffset dc) && (ui32CCBOffset dc <? Z.of_nat DC_NUM_COMMANDS_PER_TYPE) &&
  (length (apsCmdCompleteData dc) =? DC_NUM_COMMANDS_PER_TYPE)%nat &&
  forallb (fun x => match x with
    | Some a => match cc_data s !! a with
                | Some c => (ui32MaxDstSyncCount dc =? Z.of_nat (length (cc_psDstSync c))) &&
                            (ui32MaxSrcSyncCount dc =? Z.of_nat (length (cc_psSrcSync c)))
                | None => false
                end
    | None => false
    end) (apsCmdCompleteData dc).

Lemma dc_okb_sound s dc : dc_okb s dc = true -> dc_ok s dc.
Proof.
  unfold dc_okb. rewrite !andb_true_iff, Z.leb_le, Z.ltb_lt, Nat.eqb_eq, forallb_forall. intros (((? & ?) & ?) & Hc).
  split; [done..|]. intros j x Hj. specialize (Hc x (proj1 (list_elem_of_In _ _) (list_elem_of_lookup_2 _ j _ Hj))).
  destruct x as [a|]; [|done]. destruct (cc_data s !! a) as [c|] eqn:Ha; [|done].
  apply andb_true_iff in Hc as [?%Z.eqb_eq ?%Z.eqb_eq]. by exists a, c.
Qed.

(** One device, with the table at [p]. *)
Lemma started_one_device s p T :
  psQueueList s = 0 -> queues s = ∅ -> history s = [] -> unlocked s -> p <> 0 ->
  apsDeviceCommandData s = p :: replicate 14 0 -> dev_data s = {[p := T]} -> forallb (dc_okb s) T = true ->
  bool_decide (map_Forall (fun _ c => bInUse c = false) (cc_data s)) = true ->
  bool_decide (map_Forall (fun _ d => (ui32WriteOpsPending d, ui32WriteOpsComplete d, ui32ReadOps2Pending d,
    ui32ReadOps2Complete d, pvRefCount d) = (0, 0, 0, 0, 1)) (syncs s)) = true -> started s.
Proof.
  intros A1 A2 A3 A4 Hp A5 A6 A7 A8 A9. apply bool_decide_eq_true in A8, A9. split; try done.
  - split; [by rewrite A5|]. intros i t dc. unfold dev_at. rewrite A5, A6.
    destruct (entry_at (p :: replicate 14 0) i) as [p'|] eqn:He; [|done]. simpl.
    destruct (decide (p = p')) as [<-|Hne]; [|by rewrite lookup_singleton_ne]. rewrite lookup_singleton_eq. simpl.
    unfold entry_at. destruct (t <? 0); [done|]. intros Ht. apply dc_okb_sound. rewrite forallb_forall in A7. apply A7.
    apply list_elem_of_In. by apply (list_elem_of_lookup_2 _ (Z.to_nat t)).
  - intros a d Hd. specialize (A9 a d Hd). simpl in A9. destruct d. simpl in A9. by simplify_eq.
Qed.

Definition idleb (s : qsys) : bool := bool_decide (map_Forall (fun _ c => bInUse c = false) (cc_data s)).

Lemma idleb_sound s : idleb s = true -> idle s.
Proof. by intros Hi%bool_decide_eq_true. Qed.

Definition no_preparedb (H : list past) : bool := forallb (fun h => bool_decide (p_progress h <> Prepared)) H.

Lemma no_preparedb_sound H : no_preparedb H = true -> no_prepared H.
Proof. unfold no_preparedb. rewrite forallb_forall. intros Hf h Hh%list_elem_of_In. by apply (bool_decide_eq_true_1 _ (Hf h Hh)). Qed.
End Deciding.

(** A device that takes everything, one processor, memory without end. *)
Definition easy : qenv := {|
  q_alloc := fun n => Some (Z.of_nat (100 + n));
  contended := fun _ => false;
  polls := fun _ => 0%nat;
  current_pid := fun _ => 7;
  asleep := fun _ => [];
  cmd_proc := fun _ => (true, []);
  lock_patience := 1 |}.

Lemma easy_patient : patient easy.
Proof. intros t. exists 0%nat. split; [simpl; lia|done]. Qed.

Lemma easy_eager : eager easy.
Proof. by intros n. Qed.

Definition cookie : COMMAND_COMPLETE_DATA := mk_cc false 0 0 (replicate 2 zero_sync_object) (replicate 2 zero_sync_object) 96 0 0 0.

(** One type of commands with one cookie; the objects 1 and 2. *)
Definition one_device : qsys :=
  mk_qsys 0 (mk_resource 0 0) (10 :: replicate 14 0) [] ∅ ∅ {[10 := [mk_dc 5 [Some 20] 0 2 2]]} {[20 := cookie]}
    {[1 := mk_sync 0 0 0 0 1; 2 := mk_sync 0 0 0 0 1]} 0 [] [].

Lemma one_device_started : started (NUM := one_command) one_device.
Proof. by apply (started_one_device (NUM := one_command) one_device 10 [mk_dc 5 [Some 20] 0 2 2]). Qed.

(** Two queues; a writer of object 1, then two readers of it. *)
Definition some_calls : list call :=
  [CreateQueue 1000; CreateQueue 256; InsertCommand 100 0 0 [1] [2] 8 0 0; SubmitCommand 100 0; InsertCommand 104 0 0 [] [1] 0 0 0; SubmitCommand 104 0].

Definition after `{NUM : CommandsPerType} (E : qenv) (l : list call) (s : qsys) : qsys :=
  match perform_all E l s with Ok (_, s') => s' | Fault _ => s end.

(** ** Order *)

(** C3: whatever legal calls are made from a state in which devices are registered
    and nothing was inserted yet, with interrupts and devices doing what they
    like, no call faults, a command that a device got was preceded by the
    completion of every earlier command it conflicts with, and the commands of a
    queue are handed over in the order they were inserted. *)
Theorem queue_calls_ordered E `{NUM : CommandsPerType} l s :
  patient E -> started s -> legal_run E s l ->
  exists s', perform_all E l s = Ok (tt, s') /\ ordered (history s') /\ fifo (history s').
Proof.
  intros Hpt Hs Hl. destruct (perform_all_ready E l s Hpt (started_ready s Hs) Hl) as ([] & s' & Hrun & Q & _).
  exists s'. split; [done|]. split; [by apply qi_ordered|by apply qi_fifo].
Qed.

Lemma queue_calls_ordered_witness :
  exists s', perform_all (NUM := one_command) easy (some_calls ++ [ProcessQueues false; CommandComplete 20 true; ProcessQueues true]) one_device = Ok (tt, s') /\
    ordered (NUM := one_command) (history s') /\ fifo (history s').
Proof.
  apply (queue_calls_ordered easy (NUM := one_command)); [exact easy_patient|exact one_device_started|].
  apply legal_runb_sound. vm_compute. reflexivity.
Defined.

(** C10: after any legal calls from a state in which devices are registered and
    nothing was inserted yet, every synchronisation object that a command names
    still exists, so that it was never freed under a command; and the counters
    of every object are the numbers of the commands inserted that write or read
    it and of those that are complete, and it has one reference from each command
    not yet complete besides its owner's. *)
Theorem queue_counters E `{NUM : CommandsPerType} l s :
  patient E -> started s -> legal_run E s l ->
  exists s', perform_all E l s = Ok (tt, s') /\
    (forall h a, h ∈ history s' -> a ∈ p_dst h ++ p_src h -> is_Some (syncs s' !! a)) /\
    (forall a d, syncs s' !! a = Some d ->
       ui32WriteOpsPending d = writers (history s') a /\ ui32WriteOpsComplete d = writers_done (history s') a /\
       ui32ReadOps2Pending d = readers (history s') a /\ ui32ReadOps2Complete d = readers_done (history s') a /\
       pvRefCount d = 1 + live_uses (history s') a).
Proof.
  intros Hpt Hs Hl. destruct (perform_all_ready E l s Hpt (started_ready s Hs) Hl) as ([] & s' & Hrun & Q & _).
  pose proof (qi_work s' Q) as W. exists s'. split; [done|]. split.
  - intros h a [i Hi]%list_elem_of_lookup. by apply (w_known s' W i h Hi).
  - intros a d Hd. by destruct (w_syncs s' W a d Hd).
Qed.

Lemma queue_counters_witness :
  exists s', perform_all (NUM := one_command) easy some_calls one_device = Ok (tt, s') /\
    (forall h a, h ∈ history s' -> a ∈ p_dst h ++ p_src h -> is_Some (syncs s' !! a)) /\
    (forall a d, syncs s' !! a = Some d ->
       ui32WriteOpsPending d = writers (history s') a /\ ui32WriteOpsComplete d = writers_done (history s') a /\
       ui32ReadOps2Pending d = readers (history s') a /\ ui32ReadOps2Complete d = readers_done (history s') a /\
       pvRefCount d = 1 + live_uses (history s') a).
Proof.
  apply (queue_counters easy (NUM := one_command) some_calls one_device); [exact easy_patient|exact one_device_started|].
  apply legal_runb_sound. vm_compute. reflexivity.
Defined.

(** ** Progress *)

(** C7: with one cookie per type of command, when the devices take what they get
    and complete what they have and nothing is left half inserted, processing the
    queues as many times as there are commands completes every command. *)
Theorem queues_drain E `{NUM : CommandsPerType} l s s' :
  DC_NUM_COMMANDS_PER_TYPE = 1%nat -> patient E -> eager E -> started s -> legal_run E s l ->
  perform_all E l s = Ok (tt, s') -> idle s' -> no_prepared (history s') ->
  exists s'', rounds E (length (history s')) s' = Ok (tt, s'') /\
    length (history s'') = length (history s') /\ forall h, h ∈ history s'' -> p_progress h = Completed.
Proof.
  intros H1 Hpt Heg Hs Hl Hrun Hi Hn. destruct (perform_all_ready E l s Hpt (started_ready s Hs) Hl) as ([] & s1 & Hrun1 & R).
  rewrite Hrun in Hrun1. injection Hrun1 as <-.
  destruct (rounds_runs E (length (history s')) s' Hpt Heg H1 R Hi Hn) as ([] & s2 & Hr & _ & A & C); [apply count_le_length|].
  exists s2. split; [done|]. split; [symmetry; apply (Forall2_length _ _ _ A)|done].
Qed.

Lemma queues_drain_witness :
  let s' := after (NUM := one_command) easy some_calls one_device in
  exists s'', rounds (NUM := one_command) easy (length (history s')) s' = Ok (tt, s'') /\
    length (history s'') = length (history s') /\ forall h, h ∈ history s'' -> p_progress h = Completed.
Proof.
  apply (queues_drain easy (NUM := one_command) some_calls one_device);
    [reflexivity|exact easy_patient|exact easy_eager|exact one_device_started|..].
  - apply legal_runb_sound. vm_compute. reflexivity.
  - vm_compute. reflexivity.
  - apply idleb_sound. vm_compute. reflexivity.
  - apply no_preparedb_sound. vm_compute. reflexivity.
Defined.

(** Two types of commands with two cookies each. *)
Definition two_types : qsys :=
  mk_qsys 0 (mk_resource 0 0) (10 :: replicate 14 0) [] ∅ ∅
    {[10 := [mk_dc 5 [Some 20; Some 21] 0 2 2; mk_dc 6 [Some 22; Some 23] 0 2 2]]}
    {[20 := cookie; 21 := cookie; 22 := cookie; 23 := cookie]}
    {[1 := mk_sync 0 0 0 0 1; 2 := mk_sync 0 0 0 0 1]} 0 [] [].

Lemma two_types_started : started (NUM := two_commands) two_types.
Proof.
  by apply (started_one_device (NUM := two_commands) two_types 10 [mk_dc 5 [Some 20; Some 21] 0 2 2; mk_dc 6 [Some 22; Some 23] 0 2 2]).
Qed.

(** The command of the first queue writes object 2; those of the others read
    object 1, the second one of them object 2, too. *)
Definition overtaken : list call :=
  [CreateQueue 1024; CreateQueue 1024; CreateQueue 1024; CreateQueue 1024;
   InsertCommand 100 0 1 [2] [] 0 0 0; SubmitCommand 100 0; InsertCommand 104 0 0 [] [1] 0 0 0; SubmitCommand 104 0;
   InsertCommand 108 0 0 [] [1; 2] 0 0 0; SubmitCommand 108 0; InsertCommand 112 0 0 [] [1] 0 0 0; SubmitCommand 112 0;
   ProcessQueues false; ProcessQueues false; CommandComplete 20 true; CommandComplete 21 true; CommandComplete 22 true].

Definition starving : qsys := after (NUM := two_commands) easy overtaken two_types.

Lemma starving_reached : legal_run (NUM := two_commands) easy two_types overtaken /\
  perform_all (NUM := two_commands) easy overtaken two_types = Ok (tt, starving).
Proof. split; [apply legal_runb_sound; by vm_compute|by vm_compute]. Qed.

(** A decision procedure for [stuck]. *)
Definition head_overtakenb (s : qsys) (q : PVRSRV_QUEUE_INFO) : bool :=
  match buffers s !! pvLinQueueKM q with
  | Some b =>
      match b_cells b !! ui32ReadOffset q with
      | Some (Cmd c) => existsb (fun i =>
          match b_cells b !! (psSrcSync c + Z.of_nat i * sizeof_SYNC_OBJECT) with
          | Some (Sync o) =>
              match syncs s !! psKernelSyncInfoKM o with
              | Some d => so_ReadOps2Pending o <? ui32ReadOps2Complete d
              | None => false
              end
          | _ => false
          end) (seq 0 (Z.to_nat (ui32SrcSyncCount c)))
      | _ => false
      end
  | None => false
  end.

Lemma head_overtakenb_sound s q : head_overtakenb s q = true -> head_overtaken s q.
Proof.
  unfold head_overtakenb. destruct (buffers s !! _) as [b|] eqn:Hb; [|done].
  destruct (b_cells b !! ui32ReadOffset q) as [[c|]|] eqn:Hc; [|done..].
  intros (i & Hi%in_seq & Ho)%existsb_exists. destruct (b_cells b !! (psSrcSync c + _)) as [[|o]|] eqn:Eo; [done| |done].
  destruct (syncs s !! _) as [d|] eqn:Ed; [|done]. apply Z.ltb_lt in Ho. exists b, c, i, o, d. split_and!; try done. lia.
Qed.

Lemma stuckb_sound s :
  idleb s && bool_decide (map_Forall (fun _ q => ui32ReadOffset q = ui32WriteOffset q \/ head_overtakenb s q = true) (queues s)) = true ->
  stuck s.
Proof.
  intros [Hi Hq%bool_decide_eq_true]%andb_true_iff. split; [by apply idleb_sound|]. intros p q Hp.
  destruct (Hq p q Hp) as [?|?%head_overtakenb_sound]; auto.
Qed.

(** C29: while no command is with a device, and at the head of every queue that
    is not empty there is a command with an object that it reads and of which
    more reads are complete than the number it recorded (a reader inserted later
    was handed over before it, which takes a second cookie of its type), the
    queues may be processed without a flush, and the devices complete what they
    have, any number of times: no command is handed over, and those that wait
    never stop waiting. The counts must be equal to let a command through, and
    they only grow. *)
Theorem overtaken_reader_starves E `{NUM : CommandsPerType} l s s' n :
  patient E -> started s -> legal_run E s l -> perform_all E l s = Ok (tt, s') -> stuck s' ->
  exists s'', rounds E n s' = Ok (tt, s'') /\ history s'' = history s' /\ queues s'' = queues s' /\ syncs s'' = syncs s'.
Proof.
  intros Hpt Hs Hl Hrun Hst. destruct (perform_all_ready E l s Hpt (started_ready s Hs) Hl) as ([] & s1 & Hrun1 & R).
  rewrite Hrun in Hrun1. injection Hrun1 as <-. destruct (rounds_stuck E n s' Hpt R Hst) as ([] & s2 & Hr & Q).
  exists s2. split; [done|]. split; [apply (qt_history _ _ Q)|]. split; [apply (qt_queues _ _ Q)|apply (qt_syncs _ _ Q)].
Qed.

Lemma overtaken_reader_starves_witness :
  waiting (history starving) = 1 /\ forall n, exists s'', rounds (NUM := two_commands) easy n starving = Ok (tt, s'') /\
    history s'' = history starving /\ queues s'' = queues starving /\ syncs s'' = syncs starving.
Proof.
  split; [vm_compute; reflexivity|]. intros n.
  apply (overtaken_reader_starves easy (NUM := two_commands) overtaken two_types starving n);
    [exact easy_patient|exact two_types_started|exact (proj1 starving_reached)|exact (proj2 starving_reached)|].
  apply stuckb_sound. vm_compute. reflexivity.
Defined.

(** ** The contents of a queue *)

(** C8: what the proc file shows of a queue are the commands submitted to it that
    no device has yet, in the order they were inserted; the space left is the
    size less one and less the sizes of these commands. *)
Theorem queue_shown E `{NUM : CommandsPerType} l s s' p q :
  patient E -> started s -> legal_run E s l -> perform_all E l s = Ok (tt, s') -> queues s' !! p = Some q ->
  exists cs, ProcSeqShowQueue p s' = Ok (cs, s') /\ c_id <$> cs = ids Queued (history s') p /\
    GET_SPACE_IN_CMDQ q = ui32QueueSize q - 1 - foldr (fun c n => uCmdSize c + n) 0 cs.
Proof.
  intros Hpt Hs Hl Hrun Hq. destruct (perform_all_ready E l s Hpt (started_ready s Hs) Hl) as ([] & s1 & Hrun1 & Q & _).
  rewrite Hrun in Hrun1. injection Hrun1 as <-. destruct (show_runs s' p q Q Hq) as (cs & s2 & Hs2 & -> & Hids & Hsp).
  by exists cs.
Qed.

Lemma queue_shown_witness :
  let s' := after (NUM := one_command) easy some_calls one_device in
  exists cs, ProcSeqShowQueue 100 s' = Ok (cs, s') /\ c_id <$> cs = ids Queued (history s') 100 /\
    GET_SPACE_IN_CMDQ (mk_queue 102 0 88 1024 7 0) = 1024 - 1 - foldr (fun c n => uCmdSize c + n) 0 cs.
Proof.
  apply (queue_shown easy (NUM := one_command) some_calls one_device); [exact easy_patient|exact one_device_started|..].
  - apply legal_runb_sound. vm_compute. reflexivity.
  - vm_compute. reflexivity.
  - vm_compute. reflexivity.
Defined.

(** C28: destroying a queue of which no command is half inserted, in a state that
    legal calls lead to: the queues are a linked list from [psQueueList]; either
    the call fails and the list is as it was, or it takes exactly this queue out,
    the others stay linked in their order, the queue and its buffer are freed,
    and a device got every command that was ever inserted in it. No other queue
    is freed or made. *)
Theorem queue_destroyed E `{NUM : CommandsPerType} l s s' p q :
  patient E -> started s -> legal_run E s l -> perform_all E l s = Ok (tt, s') ->
  queues s' !! p = Some q -> ids Prepared (history s') p = [] ->
  exists L e s'', chain (queues s') (psQueueList s') L /\ NoDup L /\
    PVRSRVDestroyCommandQueueKM E p s' = Ok (e, s'') /\
    ((e <> PVRSRV_OK /\ chain (queues s'') (psQueueList s'') L /\ is_Some (queues s'' !! p)) \/
     (e = PVRSRV_OK /\ (exists L1 L2, L = L1 ++ p :: L2 /\ chain (queues s'') (psQueueList s'') (L1 ++ L2)) /\
      queues s'' !! p = None /\ buffers s'' !! pvLinQueueKM q = None /\
      forall i h, history s'' !! i = Some h -> p_queue h = p -> dispatched h)) /\
    forall p', p' <> p -> is_Some (queues s'' !! p') <-> is_Some (queues s' !! p').
Proof.
  intros Hpt Hs Hl Hrun Hq Hprep. destruct (perform_all_ready E l s Hpt (started_ready s Hs) Hl) as ([] & s1 & Hrun1 & R).
  rewrite Hrun in Hrun1. injection Hrun1 as <-. destruct (destroy_runs E s' p q Hpt R Hq Hprep) as (e & s2 & Hd & [Q2 U2] & Hends).
  destruct (qk_list _ _ (qi_queues s' (proj1 R))) as (L & Hch & Hnd & _). exists L, e, s2. split; [done|]. split; [done|]. split; [done|].
  destruct Hends as [[He P2]|(-> & s3 & q3 & P3 & Rm)].
  - split; [left; split; [done|]; split; [by apply (passed_list s')|]; apply (passed_dom _ _ _ P2); eauto|].
    intros p' _. by apply passed_dom.
  - split.
    + right. split; [done|]. split; [|split; [|split]].
      * destruct (rm_list _ _ _ _ Rm) as (L1 & L2 & Hch3 & _ & Hch2 & _). exists L1, L2. split; [|done].
        by apply (chain_unique (queues s3) (psQueueList s3)); [apply (passed_list s')|].
      * apply eq_None_not_Some. by intros [? _]%(rm_dom _ _ _ _ Rm).
      * rewrite (rm_buffers _ _ _ _ Rm). destruct (ps_queues _ _ P3 p q Hq) as [ro Hq3].
        rewrite (rm_there _ _ _ _ Rm) in Hq3. injection Hq3 as ->. apply lookup_delete_eq.
      * intros i h. apply (gone_dispatched s2 p); [apply (qi_queues s2 Q2)|by intros [? _]%(rm_dom _ _ _ _ Rm)].
    + intros p' Hne. rewrite (rm_dom _ _ _ _ Rm), (passed_dom _ _ _ P3). tauto.
Qed.

Lemma queue_destroyed_witness :
  let s' := after (NUM := one_command) easy (some_calls ++ [ProcessQueues false]) one_device in
  exists L e s'', chain (queues s') (psQueueList s') L /\ NoDup L /\
    PVRSRVDestroyCommandQueueKM (NUM := one_command) easy 100 s' = Ok (e, s'') /\
    ((e <> PVRSRV_OK /\ chain (queues s'') (psQueueList s'') L /\ is_Some (queues s'' !! 100)) \/
     (e = PVRSRV_OK /\ (exists L1 L2, L = L1 ++ 100 :: L2 /\ chain (queues s'') (psQueueList s'') (L1 ++ L2)) /\
      queues s'' !! 100 = None /\ buffers s'' !! 102 = None /\
      forall i h, history s'' !! i = Some h -> p_queue h = 100 -> dispatched h)) /\
    forall p', p' <> 100 -> is_Some (queues s'' !! p') <-> is_Some (queues s' !! p').
Proof.
  apply (queue_destroyed easy (NUM := one_command) (some_calls ++ [ProcessQueues false]) one_device _ 100
    (mk_queue 102 88 88 1024 7 0)); [exact easy_patient|exact one_device_started|..].
  - apply legal_runb_sound. vm_compute. reflexivity.
  - vm_compute. reflexivity.
  - vm_compute. reflexivity.
  - vm_compute. reflexivity.
Defined.

(** C30: the size of a new queue is the least power of two that is not below the
    size asked for; what is more than 2^31 wraps around to 0, and 0 stays 0. *)
Theorem NearestPower2_least n :
  0 <= n < 2 ^ 32 ->
  (0 < n <= 2 ^ 31 -> exists k, 0 <= k <= 31 /\ NearestPower2 n = 2 ^ k /\ n <= 2 ^ k < 2 * n) /\
  (2 ^ 31 < n -> NearestPower2 n = 0) /\ (n = 0 -> NearestPower2 n = 0).
Proof.
  intros Hn. split; [|split; [|by intros ->]]; intros Hr; rewrite NearestPower2_eq by lia.
  - exists (Z.log2_up n). assert (0 <= Z.log2_up n <= 31) as Hl.
    { split; [apply Z.log2_up_nonneg|]. rewrite <- (Z.log2_up_pow2 31) by lia. apply Z.log2_up_le_mono. lia. }
    assert (2 ^ Z.log2_up n <= 2 ^ 31) by (apply Z.pow_le_mono_r; lia).
    assert (0 < 2 ^ Z.log2_up n) by (apply Z.pow_pos_nonneg; lia).
    split; [done|]. split; [apply wrapU_small; lia|]. destruct (decide (n = 1)) as [->|Hne]; [by simpl|].
    pose proof (Z.log2_up_spec n ltac:(lia)) as [L1 L2]. split; [lia|].
    replace (Z.log2_up n) with (Z.succ (Z.pred (Z.log2_up n))) by lia.
    assert (0 < Z.log2_up n) by (apply Z.log2_up_pos; lia). rewrite Z.pow_succ_r by lia. lia.
  - assert (31 < Z.log2_up n) as Hl by (apply Z.log2_up_lt_pow2; lia).
    assert (Z.log2_up n <= 32) by (rewrite <- (Z.log2_up_pow2 32) by lia; apply Z.log2_up_le_mono; lia).
    by replace (Z.log2_up n) with 32 by lia.
Qed.

Lemma NearestPower2_least_witness :
  (0 < 1000 <= 2 ^ 31 -> exists k, 0 <= k <= 31 /\ NearestPower2 1000 = 2 ^ k /\ 1000 <= 2 ^ k < 2 * 1000) /\
  (2 ^ 31 < 1000 -> NearestPower2 1000 = 0) /\ (1000 = 0 -> NearestPower2 1000 = 0).
Proof. apply (NearestPower2_least 1000). lia. Defined.

(** ** The commands of a device *)

(** C22: removing the commands of a device gives back all that registering them
    got, and leaves everything else as it was. *)
Theorem register_remove E `{NUM : CommandsPerType} s i l s' :
  unregistered s i -> PVRSRVRegisterCmdProcListKM E i l s = Ok (PVRSRV_OK, s') ->
  exists s'', PVRSRVRemoveCmdProcListKM i (Z.of_nat (length l)) s' = Ok (PVRSRV_OK, s'') /\
    cc_data s'' = cc_data s /\ dev_data s'' = dev_data s /\ apsDeviceCommandData s'' = apsDeviceCommandData s /\
    queues s'' = queues s /\ buffers s'' = buffers s /\ psQueueList s'' = psQueueList s /\ syncs s'' = syncs s /\ history s'' = history s.
Proof.
  intros Hu Hr. destruct (register_ends E s i l Hu) as [[_ Hr1]|(p & s1 & (_ & Hp & Hd) & [[Hr1 R]|(Y & x & Z & Hr1 & HY & R & _)])].
  - rewrite Hr in Hr1. done.
  - rewrite Hr in Hr1. injection Hr1 as <-. by apply (remove_back E s i p).
  - rewrite Hr in Hr1. unfold mbind, st_bind in Hr1. by rewrite (remove_half E s i p _ s1 Y x Z Hu Hp HY R) in Hr1.
Qed.

(** Nothing is registered. *)
Definition bare : qsys := mk_qsys 0 (mk_resource 0 0) (replicate 15 0) [] ∅ ∅ ∅ ∅ ∅ 0 [] [].

Definition registration (E : qenv) : outcome (Z * qsys) :=
  PVRSRVRegisterCmdProcListKM (NUM := two_commands) E 3 [(5, (2, 2)); (6, (1, 0))] bare.

Lemma register_remove_witness :
  let s' := match registration easy with Ok (_, s') => s' | Fault _ => bare end in
  exists s'', PVRSRVRemoveCmdProcListKM (NUM := two_commands) 3 2 s' = Ok (PVRSRV_OK, s'') /\
    cc_data s'' = cc_data bare /\ dev_data s'' = dev_data bare /\ apsDeviceCommandData s'' = apsDeviceCommandData bare /\
    queues s'' = queues bare /\ buffers s'' = buffers bare /\ psQueueList s'' = psQueueList bare /\ syncs s'' = syncs bare /\
    history s'' = history bare.
Proof.
  apply (register_remove easy (NUM := two_commands) bare 3 [(5, (2, 2)); (6, (1, 0))]).
  - split; [unfold SYS_DEVICE_COUNT; lia|reflexivity].
  - vm_compute. reflexivity.
Defined.

(** C31: which allocations fail decides how registering the commands of a device
    for which nothing is registered ends. Without memory for the table it
    returns the error and changes nothing; with memory for the table and for
    every cookie it succeeds, and each slot has the cookie that was got for it;
    with memory for the table but not for some cookie it does not return the
    error: cleaning up follows a pointer that was never written. *)
Theorem register_out_of_memory E `{NUM : CommandsPerType} s i l :
  unregistered s i -> let n := (length l * DC_NUM_COMMANDS_PER_TYPE)%nat in
  ((forall p, ~ table_got E s p) ->
     PVRSRVRegisterCmdProcListKM E i l s = Ok (PVRSRV_ERROR_OUT_OF_MEMORY, set_q_clock (S (q_clock s)) s)) /\
  (forall p, table_got E s p -> (forall k, (k < n)%nat -> cookie_got E s k) ->
     exists s' T, PVRSRVRegisterCmdProcListKM E i l s = Ok (PVRSRV_OK, s') /\
       dev_data s' = <[p := T]> (dev_data s) /\ length T = length l /\
       apsDeviceCommandData s' = <[Z.to_nat i := p]> (apsDeviceCommandData s) /\
       (slot_of T <$> slots 0 (length l)) = (Some <$> (q_alloc E <$> seq (S (q_clock s)) n))) /\
  (forall p k, table_got E s p -> (k < n)%nat -> ~ cookie_got E s k ->
     PVRSRVRegisterCmdProcListKM E i l s = Fault Indeterminate).
Proof.
  intros Hu n. destruct (register_ends E s i l Hu) as [[Hno Hr]|(p & s1 & Hgot & [[Hr R]|(Y & x & Z & Hr & HY & R)])].
  - split; [done|]. split; intros p; [intros Hp|intros k Hp]; by destruct (Hno p).
  - split; [intros Hno; by destruct (Hno p)|]. split.
    + intros p' Hp' _. assert (p' = p) as -> by (destruct Hgot, Hp'; congruence).
      destruct (registered_slots E s i p _ s1 R) as (T & HT). by exists s1, T.
    + intros p' k _ Hk Hn. destruct Hn. apply (registered_got E s i p _ _ s1 k R). by rewrite length_slots.
  - assert (length Y < n)%nat as Hlen.
    { unfold n. rewrite <- (length_slots 0), HY, length_app. simpl. lia. }
    split; [intros Hno; by destruct (Hno p)|]. split.
    + intros p' _ Hall. by destruct (stopped_not_got E s i p _ Y s1 R (Hall _ Hlen)).
    + intros p' k _ _ _. rewrite Hr. unfold mbind, st_bind. destruct Hgot as (_ & Hp & _).
      by rewrite (remove_half E s i p _ s1 Y x Z Hu Hp HY (proj1 R)).
Qed.

(** Memory for the table and two cookies. *)
Definition short_of_memory : qenv := {|
  q_alloc := fun n => if (n <? 3)%nat then Some (Z.of_nat (100 + n)) else None;
  contended := fun _ => false;
  polls := fun _ => 0%nat;
  current_pid := fun _ => 7;
  asleep := fun _ => [];
  cmd_proc := fun _ => (true, []);
  lock_patience := 1 |}.

Lemma register_out_of_memory_witness : registration short_of_memory = Fault Indeterminate.
Proof.
  apply (register_out_of_memory short_of_memory (NUM := two_commands) bare 3 [(5, (2, 2)); (6, (1, 0))]
    ltac:(split; [unfold SYS_DEVICE_COUNT; lia|reflexivity])) with (p := 100) (k := 2%nat).
  - split; [reflexivity|]. split; [discriminate|reflexivity].
  - apply Nat.ltb_lt. reflexivity.
  - intros (a & Ha & _). discriminate Ha.
Defined.

(** The index of a device is not checked when a command is inserted. *)
Example insert_bad_device :
  PVRSRVInsertCommandKM (NUM := one_command) easy 100 15 0 [] [] 0 0 0 (after (NUM := one_command) easy [CreateQueue 1000] one_device) = Fault OutOfBounds.
Proof. by vm_compute. Qed.
