(* ===== verification/Rgz.v ===== *)
(** * The regionizer of the hardware composer

    src/hwc/rgz_2d.c with the structures of src/hwc/rgz_2d.h: instead of having
    the graphics processor compose the windows of a frame, the hardware composer
    cuts the screen into rectangles in which the same layers are visible and
    makes a list of blits for the 2D engine.  [rgz_in] takes the layers of a
    frame, finds out what changed since the frame buffer was last drawn, and
    makes the regions; [rgz_out] makes the blits.

    Coordinates are [int]s; the theorems bound them so that no sum of the code
    leaves the type.  Where the code mixes them with [unsigned] fields the
    conversions are written out.  A pointer to a layer of [cur_fb_state] is its
    index, a buffer handle an address that [native] may know the contents of.
    The structsize fields, which are constants, and the messages are left
    out. *)

From stdpp Require Import base list numbers option.
From Stdlib Require Import ZArith Lia.
From S2P Require Import Prelude Stateful.

Local Open Scope Z_scope.

Definition RGZ_MAXLAYERS : Z := 13.
Definition RGZ_INPUT_MAXLAYERS : Z := RGZ_MAXLAYERS - 2.
Definition RGZ_NUM_FB : Z := 2.
Definition RGZ_SUBREGIONMAX : Z := Z.shiftl RGZ_MAXLAYERS 1 - 1.
Definition RGZ_MAX_BLITS : Z := RGZ_SUBREGIONMAX * RGZ_SUBREGIONMAX.
Definition RGZ_ALL : Z := 1.
Definition RGZ_IN_HWCCHK : Z := 1.
Definition RGZ_IN_HWC : Z := 2.
Definition RGZ_OUT_SVG : Z := 0.
Definition RGZ_OUT_BVCMD_PAINT : Z := 1.
Definition RGZ_OUT_BVCMD_REGION : Z := 2.
Definition RGZ_OUT_BVDIRECT_PAINT : Z := 3.
Definition RGZ_OUT_BVDIRECT_REGION : Z := 5.
Definition RGZ_STATE_INIT : Z := 1.
Definition RGZ_REGION_DATA : Z := 2.
Definition RGZ_BACKGROUND_BUFFIDX : Z := -2.
Definition RGZ_CLEARHINT_BUFFIDX : Z := -1.

Definition HWC_FRAMEBUFFER : Z := 0.
Definition HWC_OVERLAY : Z := 1.
Definition HWC_SKIP_LAYER : Z := 1.
Definition HWC_HINT_CLEAR_FB : Z := 2.
Definition HWC_BLENDING_NONE : Z := 0x0100.
Definition HWC_BLENDING_PREMULT : Z := 0x0105.
Definition HWC_BLENDING_COVERAGE : Z := 0x0405.
Definition HWC_TRANSFORM_FLIP_H : Z := 1.
Definition HWC_TRANSFORM_FLIP_V : Z := 2.
Definition HWC_TRANSFORM_ROT_90 : Z := 4.

Definition BVFLAG_ROP : Z := 1.
Definition BVFLAG_BLEND : Z := 2.
Definition BVFLAG_CLIP : Z := 0x40.
Definition BVFLAG_ASYNC : Z := 0x100.
Definition BVFLAG_BATCH_MASK : Z := 0x3000.
Definition BVFLAG_BATCH_BEGIN : Z := 0x1000.
Definition BVFLAG_BATCH_CONTINUE : Z := 0x2000.
Definition BVFLAG_BATCH_END : Z := 0x3000.
Definition BVFLAG_HORZ_FLIP_SRC1 : Z := 0x4000.
Definition BVFLAG_VERT_FLIP_SRC1 : Z := 0x8000.
Definition BVFLAG_HORZ_FLIP_SRC2 : Z := 0x10000.
Definition BVFLAG_VERT_FLIP_SRC2 : Z := 0x20000.
Definition BVBATCH_OP : Z := 0x1.
Definition BVBATCH_SCALE : Z := 0x20.
Definition BVBATCH_DST : Z := 0x100.
Definition BVBATCH_SRC1 : Z := 0x200.
Definition BVBATCH_SRC2 : Z := 0x400.
Definition BVBATCH_DSTRECT_ORIGIN : Z := 0x1000.
Definition BVBATCH_DSTRECT_SIZE : Z := 0x2000.
Definition BVBATCH_SRC1RECT_ORIGIN : Z := 0x4000.
Definition BVBATCH_SRC1RECT_SIZE : Z := 0x8000.
Definition BVBATCH_SRC2RECT_ORIGIN : Z := 0x10000.
Definition BVBATCH_SRC2RECT_SIZE : Z := 0x20000.
Definition BVBATCH_CLIPRECT : Z := 0x300000.
Definition HWC_BLT_DESC_FB_FN (ovlno : Z) : Z := Z.lor (Z.lor 0x80000000 0x40000000) ovlno.

(** ** Data *)

(** [blit_rect_t] and [hwc_rect_t]. *)
Record blit_rect := mk_rect { r_left : Z; r_top : Z; r_right : Z; r_bottom : Z }.

#[export] Instance blit_rect_eq_dec : EqDecision blit_rect.
Proof. solve_decision. Defined.

Inductive hal_format :=
| HAL_PIXEL_FORMAT_RGBA_8888
| HAL_PIXEL_FORMAT_RGBX_8888
| HAL_PIXEL_FORMAT_RGB_565
| HAL_PIXEL_FORMAT_BGRA_8888
| HAL_PIXEL_FORMAT_BGRX_8888
| HAL_PIXEL_FORMAT_TI_NV12
| HAL_PIXEL_FORMAT_TI_NV12_PADDED
| HAL_PIXEL_FORMAT_YV12
| HAL_PIXEL_FORMAT_other (n : Z).

#[export] Instance hal_format_eq_dec : EqDecision hal_format.
Proof. solve_decision. Defined.

Record IMG_native_handle := mk_native { iWidth : Z; iHeight : Z; iFormat : hal_format }.

Record hwc_layer_1 := mk_layer {
  compositionType : Z;
  hints : Z;
  flags : Z;
  handle : Z;
  transform : Z;
  blending : Z;
  sourceCrop : blit_rect;
  displayFrame : blit_rect }.

Record rgz_layer := mk_rgz_layer {
  hwc_layer : hwc_layer_1;
  identity : Z;
  buffidx : Z;
  dirty_count : Z }.

Record rgz_fb_state := mk_fb { rgz_layerno : Z; rgz_layers : list rgz_layer }.

(** [hr_layers] are the pointers [rgz_layers]. *)
Record blit_hregion := mk_hregion {
  hr_rect : blit_rect;
  hr_layers : list (option nat);
  nlayers : Z;
  nsubregions : Z;
  blitrects : list (list blit_rect) }.

Record rgz := mk_rgz {
  hregions : option (list blit_hregion);
  nhregions : Z;
  rgz_state : Z;
  cur_fb_state : rgz_fb_state;
  fb_state_idx : Z;
  fb_states : list rgz_fb_state;
  damaged_area : blit_rect }.

Inductive ocdformat :=
| OCDFMT_0
| OCDFMT_UNKNOWN
| OCDFMT_BGRA24
| OCDFMT_BGR124
| OCDFMT_RGB16
| OCDFMT_RGBA24
| OCDFMT_RGB124
| OCDFMT_NV12
| OCDFMT_YV12.

#[export] Instance ocdformat_eq_dec : EqDecision ocdformat.
Proof. solve_decision. Defined.

Inductive bvscalemode := BVSCALE_0 | BVSCALE_9x9_TAP | BVSCALE_BILINEAR.

Inductive bvop := Rop (rop : Z) | Blend_SRC1OVER.

#[export] Instance bvop_eq_dec : EqDecision bvop.
Proof. solve_decision. Defined.

Record bvrect := mk_bvrect { bv_left : Z; bv_top : Z; bv_width : Z; bv_height : Z }.

Record bvsurfgeom := mk_geom { g_format : ocdformat; g_width : Z; g_height : Z; g_orientation : Z; g_virtstride : Z }.

Record bvbuffdesc := mk_desc { d_length : Z; d_auxptr : Z }.

Record rgz_blt_entry := mk_entry {
  e_flags : Z;
  e_op : bvop;
  e_scalemode : bvscalemode;
  e_batchflags : Z;
  dstrect : bvrect;
  src1rect : bvrect;
  src2rect : bvrect;
  cliprect : bvrect;
  dstgeom : bvsurfgeom;
  src1geom : bvsurfgeom;
  src2geom : bvsurfgeom;
  src1desc : bvbuffdesc;
  src2desc : bvbuffdesc }.

(** What [rgz_in] is given: [layers] may be NULL; [extlayers] are the identities. *)
Record rgz_in_params := mk_in {
  in_op : Z;
  layers : option (list hwc_layer_1);
  extlayers : list Z;
  layerno : Z;
  in_dstgeom : bvsurfgeom }.

(** What [rgz_out] is given, [data.bvc] of the union. *)
Record rgz_out_params := mk_out_params { out_op : Z; out_dstgeom : bvsurfgeom; noblend : Z }.

(** The global [blts] and the fields of [data.bvc] that [rgz_out] writes. *)
Record rgz_blts := mk_blts {
  bvcmds : list rgz_blt_entry;
  blts_idx : Z;
  out_hndls : list Z;
  out_nhndls : Z;
  out_blits : Z;
  cmdp : option (list rgz_blt_entry);
  cmdlen : Z }.

(** Cleared memory. *)
Definition zero_rect : blit_rect := mk_rect 0 0 0 0.
Definition zero_layer : hwc_layer_1 := mk_layer 0 0 0 0 0 0 zero_rect zero_rect.
Definition zero_rgz_layer : rgz_layer := mk_rgz_layer zero_layer 0 0 0.
Definition zero_fb : rgz_fb_state := mk_fb 0 (replicate (Z.to_nat RGZ_MAXLAYERS) zero_rgz_layer).
Definition zero_rgz : rgz := mk_rgz None 0 0 zero_fb 0 (replicate (Z.to_nat RGZ_NUM_FB) zero_fb) zero_rect.
Definition zero_bvrect : bvrect := mk_bvrect 0 0 0 0.
Definition zero_geom : bvsurfgeom := mk_geom OCDFMT_0 0 0 0 0.
Definition zero_desc : bvbuffdesc := mk_desc 0 0.
Definition zero_entry : rgz_blt_entry :=
  mk_entry 0 (Rop 0) BVSCALE_0 0 zero_bvrect zero_bvrect zero_bvrect zero_bvrect zero_geom zero_geom zero_geom zero_desc zero_desc.
Definition zero_hregion : blit_hregion :=
  mk_hregion zero_rect (replicate (Z.to_nat RGZ_MAXLAYERS) None) 0 0
    (replicate (Z.to_nat RGZ_MAXLAYERS) (replicate (Z.to_nat RGZ_SUBREGIONMAX) zero_rect)).

(** Updates of single fields. *)
Definition set_dirty_count (x : Z) (r : rgz_layer) : rgz_layer := mk_rgz_layer (hwc_layer r) (identity r) (buffidx r) x.
Definition set_handle (x : Z) (l : hwc_layer_1) : hwc_layer_1 :=
  mk_layer (compositionType l) (hints l) (flags l) x (transform l) (blending l) (sourceCrop l) (displayFrame l).

Definition set_hregions (x : option (list blit_hregion)) (r : rgz) : rgz :=
  mk_rgz x (nhregions r) (rgz_state r) (cur_fb_state r) (fb_state_idx r) (fb_states r) (damaged_area r).
Definition set_nhregions (x : Z) (r : rgz) : rgz :=
  mk_rgz (hregions r) x (rgz_state r) (cur_fb_state r) (fb_state_idx r) (fb_states r) (damaged_area r).
Definition set_rgz_state (x : Z) (r : rgz) : rgz :=
  mk_rgz (hregions r) (nhregions r) x (cur_fb_state r) (fb_state_idx r) (fb_states r) (damaged_area r).
Definition set_cur_fb_state (x : rgz_fb_state) (r : rgz) : rgz :=
  mk_rgz (hregions r) (nhregions r) (rgz_state r) x (fb_state_idx r) (fb_states r) (damaged_area r).
Definition set_fb_state_idx (x : Z) (r : rgz) : rgz :=
  mk_rgz (hregions r) (nhregions r) (rgz_state r) (cur_fb_state r) x (fb_states r) (damaged_area r).
Definition set_fb_states (x : list rgz_fb_state) (r : rgz) : rgz :=
  mk_rgz (hregions r) (nhregions r) (rgz_state r) (cur_fb_state r) (fb_state_idx r) x (damaged_area r).
Definition set_damaged_area (x : blit_rect) (r : rgz) : rgz :=
  mk_rgz (hregions r) (nhregions r) (rgz_state r) (cur_fb_state r) (fb_state_idx r) (fb_states r) x.

Definition set_e_flags (x : Z) (e : rgz_blt_entry) : rgz_blt_entry :=
  mk_entry x (e_op e) (e_scalemode e) (e_batchflags e) (dstrect e) (src1rect e) (src2rect e) (cliprect e)
    (dstgeom e) (src1geom e) (src2geom e) (src1desc e) (src2desc e).
Definition set_e_op (x : bvop) (e : rgz_blt_entry) : rgz_blt_entry :=
  mk_entry (e_flags e) x (e_scalemode e) (e_batchflags e) (dstrect e) (src1rect e) (src2rect e) (cliprect e)
    (dstgeom e) (src1geom e) (src2geom e) (src1desc e) (src2desc e).
Definition set_e_scalemode (x : bvscalemode) (e : rgz_blt_entry) : rgz_blt_entry :=
  mk_entry (e_flags e) (e_op e) x (e_batchflags e) (dstrect e) (src1rect e) (src2rect e) (cliprect e)
    (dstgeom e) (src1geom e) (src2geom e) (src1desc e) (src2desc e).
Definition set_e_batchflags (x : Z) (e : rgz_blt_entry) : rgz_blt_entry :=
  mk_entry (e_flags e) (e_op e) (e_scalemode e) x (dstrect e) (src1rect e) (src2rect e) (cliprect e)
    (dstgeom e) (src1geom e) (src2geom e) (src1desc e) (src2desc e).
Definition set_dstrect (x : bvrect) (e : rgz_blt_entry) : rgz_blt_entry :=
  mk_entry (e_flags e) (e_op e) (e_scalemode e) (e_batchflags e) x (src1rect e) (src2rect e) (cliprect e)
    (dstgeom e) (src1geom e) (src2geom e) (src1desc e) (src2desc e).
Definition set_cliprect (x : bvrect) (e : rgz_blt_entry) : rgz_blt_entry :=
  mk_entry (e_flags e) (e_op e) (e_scalemode e) (e_batchflags e) (dstrect e) (src1rect e) (src2rect e) x
    (dstgeom e) (src1geom e) (src2geom e) (src1desc e) (src2desc e).
Definition set_dstgeom (x : bvsurfgeom) (e : rgz_blt_entry) : rgz_blt_entry :=
  mk_entry (e_flags e) (e_op e) (e_scalemode e) (e_batchflags e) (dstrect e) (src1rect e) (src2rect e) (cliprect e)
    x (src1geom e) (src2geom e) (src1desc e) (src2desc e).
(** The rectangle, the geometry and the buffer of source 1 or 2. *)
Definition set_src (is_src2 : bool) (r : bvrect) (g : bvsurfgeom) (d : bvbuffdesc) (e : rgz_blt_entry) : rgz_blt_entry :=
  if is_src2
  then mk_entry (e_flags e) (e_op e) (e_scalemode e) (e_batchflags e) (dstrect e) (src1rect e) r (cliprect e)
         (dstgeom e) (src1geom e) g (src1desc e) d
  else mk_entry (e_flags e) (e_op e) (e_scalemode e) (e_batchflags e) (dstrect e) r (src2rect e) (cliprect e)
         (dstgeom e) g (src2geom e) d (src2desc e).
Definition srcrect (is_src2 : bool) (e : rgz_blt_entry) : bvrect := if is_src2 then src2rect e else src1rect e.
Definition srcgeom (is_src2 : bool) (e : rgz_blt_entry) : bvsurfgeom := if is_src2 then src2geom e else src1geom e.
Definition srcdesc (is_src2 : bool) (e : rgz_blt_entry) : bvbuffdesc := if is_src2 then src2desc e else src1desc e.

Definition set_g_format (x : ocdformat) (g : bvsurfgeom) : bvsurfgeom :=
  mk_geom x (g_width g) (g_height g) (g_orientation g) (g_virtstride g).
Definition set_g_orientation (x : Z) (g : bvsurfgeom) : bvsurfgeom :=
  mk_geom (g_format g) (g_width g) (g_height g) x (g_virtstride g).
(** [swap(g->width, g->height)] *)
Definition swap_geom (g : bvsurfgeom) : bvsurfgeom :=
  mk_geom (g_format g) (g_height g) (g_width g) (g_orientation g) (g_virtstride g).

(** ** Macros and small predicates *)

Definition WIDTH (r : blit_rect) : Z := r_right r - r_left r.
Definition HEIGHT (r : blit_rect) : Z := r_bottom r - r_top r.

Definition is_NV12 (f : hal_format) : bool :=
  bool_decide (f = HAL_PIXEL_FORMAT_TI_NV12) || bool_decide (f = HAL_PIXEL_FORMAT_TI_NV12_PADDED).
Definition is_OPAQUE (f : hal_format) : bool :=
  bool_decide (f = HAL_PIXEL_FORMAT_RGB_565) || bool_decide (f = HAL_PIXEL_FORMAT_RGBX_8888) ||
  bool_decide (f = HAL_PIXEL_FORMAT_BGRX_8888).

Definition RECT_INTERSECTS (a b : blit_rect) : bool :=
  (r_top b <? r_bottom a) && (r_top a <? r_bottom b) && (r_left b <? r_right a) && (r_left a <? r_right b).

Definition empty_rect (r : blit_rect) : bool :=
  (r_left r =? 0) && (r_top r =? 0) && (r_right r =? 0) && (r_bottom r =? 0).

(** [x & flag] as a condition. *)
Definition has (x flag : Z) : bool := truth (Z.land x flag).

Definition IS_BVCMD (op : Z) : bool := (op =? RGZ_OUT_BVCMD_REGION) || (op =? RGZ_OUT_BVCMD_PAINT).

Definition ALIGN (x a : Z) : Z := Z.land (x + a - 1) (Z.lnot (a - 1)).
Definition HW_ALIGN : Z := 32.

Definition hal_to_ocd (color : hal_format) : ocdformat :=
  match color with
  | HAL_PIXEL_FORMAT_BGRA_8888 => OCDFMT_BGRA24
  | HAL_PIXEL_FORMAT_BGRX_8888 => OCDFMT_BGR124
  | HAL_PIXEL_FORMAT_RGB_565 => OCDFMT_RGB16
  | HAL_PIXEL_FORMAT_RGBA_8888 => OCDFMT_RGBA24
  | HAL_PIXEL_FORMAT_RGBX_8888 => OCDFMT_RGB124
  | HAL_PIXEL_FORMAT_TI_NV12 => OCDFMT_NV12
  | HAL_PIXEL_FORMAT_YV12 => OCDFMT_YV12
  | _ => OCDFMT_UNKNOWN
  end.

Definition rgz_handle_to_stride (h : IMG_native_handle) : Z :=
  let bpp := if is_NV12 (iFormat h) then 0 else if bool_decide (iFormat h = HAL_PIXEL_FORMAT_RGB_565) then 2 else 4 in
  ALIGN (iWidth h) HW_ALIGN * bpp.

Definition rgz_get_orientation (transform : Z) : Z :=
  (if has transform HWC_TRANSFORM_FLIP_H && has transform HWC_TRANSFORM_FLIP_V then 180 else 0) +
  (if has transform HWC_TRANSFORM_ROT_90 then 90 else 0).

Definition rgz_get_flip_flags (transform : Z) (use_src2_flags : bool) : Z :=
  let flip_flags := if has transform HWC_TRANSFORM_FLIP_H
    then if use_src2_flags then BVFLAG_HORZ_FLIP_SRC2 else BVFLAG_HORZ_FLIP_SRC1 else 0 in
  if has transform HWC_TRANSFORM_FLIP_V
  then if truth flip_flags then 0
       else Z.lor flip_flags (if use_src2_flags then BVFLAG_VERT_FLIP_SRC2 else BVFLAG_VERT_FLIP_SRC1)
  else flip_flags.

Definition rgz_hwc_scaled (layer : hwc_layer_1) : bool :=
  let w := WIDTH (sourceCrop layer) in
  let h := HEIGHT (sourceCrop layer) in
  let '(w, h) := if has (transform layer) HWC_TRANSFORM_ROT_90 then (h, w) else (w, h) in
  negb (WIDTH (displayFrame layer) =? w) || negb (HEIGHT (displayFrame layer) =? h).

(** ** Loops and arrays *)

Fixpoint st_each {S A} (l : list A) (f : A -> ST S unit) : ST S unit :=
  match l with
  | [] => mret tt
  | x :: l => f x;; st_each l f
  end.

Definition lift {S A} (m : outcome A) : ST S A := fun s =>
  match m with Ok a => Ok (a, s) | Fault f => Fault f end.

Fixpoint fold_outcome {A B} (f : B -> A -> outcome B) (b : B) (l : list A) : outcome B :=
  match l with
  | [] => Ok b
  | x :: l => b ← f b x; fold_outcome f b l
  end.

(** [a[len++] = x] in an array of [RGZ_SUBREGIONMAX]; the list holds the first
    [len] entries. *)
Definition push (a : list Z) (x : Z) : outcome (list Z) :=
  if Z.of_nat (length a) <? RGZ_SUBREGIONMAX then Ok (a ++ [x]) else Fault OutOfBounds.

(** ** Sorting *)

Definition bsort_step (i : nat) (a : list Z) (j : nat) : outcome (list Z) :=
  match a !! i, a !! j with
  | Some x, Some y => Ok (if x <? y then <[j := x]> (<[i := y]> a) else a)
  | _, _ => Fault OutOfBounds
  end.

Definition rgz_bsort (a : list Z) (len : nat) : outcome (list Z) :=
  fold_outcome (fun a i => fold_outcome (bsort_step i) a (seq 0 i)) a (seq 0 len).

(** The inner search of [rgz_bunique]. *)
Fixpoint skip_loop (fuel : nat) (a : list Z) (len base skip : nat) : outcome nat :=
  match fuel with
  | O => Fault OutOfFuel
  | S fuel =>
      if (base + skip <? len)%nat then
        match a !! base, a !! (base + skip)%nat with
        | Some x, Some y => if x =? y then skip_loop fuel a len base (S skip) else Ok skip
        | _, _ => Fault OutOfBounds
        end
      else Ok skip
  end.

Definition fill_step (base skip : nat) (a : list Z) (i : nat) : outcome (list Z) :=
  match a !! (base + skip)%nat with
  | Some x => if (base + 1 + i <? length a)%nat then Ok (<[(base + 1 + i)%nat := x]> a) else Fault OutOfBounds
  | None => Fault OutOfBounds
  end.

Fixpoint unique_loop (fuel : nat) (a : list Z) (len base unique : nat) : outcome (list Z * nat) :=
  match fuel with
  | O => Fault OutOfFuel
  | S fuel =>
      if (base + 1 <? len)%nat then
        match a !! base, a !! (base + 1)%nat with
        | Some x, Some y =>
            if x =? y then
              skip ← skip_loop (S len) a len base 1;
              if (base + skip =? len)%nat then Ok (a, unique)
              else
                a ← fold_outcome (fill_step base skip) a (seq 0 (skip - 1));
                unique_loop fuel a len (S base) (S unique)
            else unique_loop fuel a len (S base) (S unique)
        | _, _ => Fault OutOfBounds
        end
      else Ok (a, unique)
  end.

Definition rgz_bunique (a : list Z) (len : nat) : outcome (list Z * nat) := unique_loop (S len) a len 0 1.

(** ** The input of a frame *)

Section Rgz.

(** The contents of buffer handles, whether memory is there, and the screen-sized
    layer that [rgz_get_screengeometry] set up. *)
Context (native : Z -> option IMG_native_handle) (calloc_ok : bool) (bg_layer : hwc_layer_1).

Definition native_of (h : Z) : outcome IMG_native_handle :=
  match native h with Some x => Ok x | None => Fault OutOfBounds end.

Definition rgz_in_valid_hwc_layer (layer : hwc_layer_1) : outcome bool :=
  if has (flags layer) HWC_SKIP_LAYER || (handle layer =? 0) then Ok false else
  h ← native_of (handle layer);
  if is_NV12 (iFormat h) then Ok (bool_decide (iFormat h = HAL_PIXEL_FORMAT_TI_NV12)) else
  if truth (transform layer) &&
     xorb (has (transform layer) HWC_TRANSFORM_FLIP_H) (has (transform layer) HWC_TRANSFORM_FLIP_V)
  then Ok false else
  match iFormat h with
  | HAL_PIXEL_FORMAT_BGRX_8888 | HAL_PIXEL_FORMAT_RGBX_8888 | HAL_PIXEL_FORMAT_RGB_565
  | HAL_PIXEL_FORMAT_RGBA_8888 | HAL_PIXEL_FORMAT_BGRA_8888 => Ok true
  | _ => Ok false
  end.

Definition rgz_delete_region_data : ST rgz unit :=
  modify (set_hregions None);;
  modify (set_nhregions 0);;
  modify (fun r => set_rgz_state (Z.land (rgz_state r) (Z.lnot RGZ_REGION_DATA)) r).

(** The index of the previous frame's state and that of the next one. *)
Definition get_prev_fb_state : ST rgz Z := gets fb_state_idx.
Definition get_next_fb_state : ST rgz Z :=
  i ← gets fb_state_idx;
  modify (set_fb_state_idx ((i + 1) mod RGZ_NUM_FB));;
  gets fb_state_idx.

Definition rgz_add_to_damaged_area (params : rgz_in_params) (l : rgz_layer) (damaged_area : blit_rect) : blit_rect :=
  let screen_geom := in_dstgeom params in
  let frame := displayFrame (hwc_layer l) in
  let screen_rect := mk_rect 0 0 (s32 (g_width screen_geom)) (s32 (g_height screen_geom)) in
  if negb (RECT_INTERSECTS screen_rect frame) then damaged_area else
  let layer_rect := mk_rect (Z.max 0 (r_left frame)) (Z.max 0 (r_top frame))
    (Z.min (r_right screen_rect) (r_right frame)) (Z.min (r_bottom screen_rect) (r_bottom frame)) in
  if empty_rect damaged_area then layer_rect else
  mk_rect (Z.min (r_left damaged_area) (r_left layer_rect)) (Z.min (r_top damaged_area) (r_top layer_rect))
    (Z.max (r_right damaged_area) (r_right layer_rect)) (Z.max (r_bottom damaged_area) (r_bottom layer_rect)).

Fixpoint find_loop (ls : list rgz_layer) (layer_identity : Z) : option rgz_layer :=
  match ls with
  | [] => None
  | l :: ls =>
      if buffidx l =? RGZ_BACKGROUND_BUFFIDX then find_loop ls layer_identity else
      if identity l =? layer_identity then Some l else find_loop ls layer_identity
  end.

Definition rgz_find_layer (fb : rgz_fb_state) (layer_identity : Z) : option rgz_layer :=
  find_loop (take (Z.to_nat (rgz_layerno fb)) (rgz_layers fb)) layer_identity.

Definition rgz_has_layer_content_changed (cur prev : rgz_layer) : bool :=
  let c := hwc_layer cur in
  let p := hwc_layer prev in
  if (buffidx cur =? RGZ_BACKGROUND_BUFFIDX) && (buffidx prev =? RGZ_BACKGROUND_BUFFIDX) then false else
  if negb (identity cur =? identity prev) then true else
  if (buffidx cur =? RGZ_CLEARHINT_BUFFIDX) && (buffidx prev =? RGZ_CLEARHINT_BUFFIDX) then false else
  negb (handle c =? handle p) || negb (transform c =? transform p) ||
  negb (r_top (sourceCrop c) =? r_top (sourceCrop p)) || negb (r_left (sourceCrop c) =? r_left (sourceCrop p)) ||
  negb (r_bottom (sourceCrop c) =? r_bottom (sourceCrop p)) || negb (r_right (sourceCrop c) =? r_right (sourceCrop p)).

Definition rgz_has_layer_frame_moved (cur target : rgz_layer) : bool :=
  let c := displayFrame (hwc_layer cur) in
  let t := displayFrame (hwc_layer target) in
  if negb (identity cur =? identity target) then true else
  negb (r_top c =? r_top t) || negb (r_left c =? r_left t) || negb (r_bottom c =? r_bottom t) || negb (r_right c =? r_right t).

(** One turn of the first loop of [rgz_handle_dirty_region]: layer [i] of the
    current frame with its new count, and the damaged area. *)
Definition dirty_step (params : rgz_in_params) (prev target : rgz_fb_state) (i : nat) (cur : rgz_layer)
    (damage : blit_rect) : outcome (rgz_layer * blit_rect) :=
  prev_rgz_layer ←
    (if (i =? 0)%nat
     then if truth (rgz_layerno prev)
          then match rgz_layers prev !! 0%nat with Some l => Ok (Some l) | None => Fault OutOfBounds end
          else Ok None
     else Ok (rgz_find_layer prev (identity cur)));
  let count := match prev_rgz_layer with
    | Some p => if rgz_has_layer_content_changed cur p then RGZ_NUM_FB
                else dirty_count p - (if truth (dirty_count p) then 1 else 0)
    | None => RGZ_NUM_FB
    end in
  let cur := set_dirty_count count cur in
  match prev_rgz_layer with
  | None => Ok (cur, rgz_add_to_damaged_area params cur damage)
  | Some _ =>
      if (i =? 0)%nat then Ok (cur, damage) else
      match rgz_find_layer target (identity cur) with
      | Some t =>
          if rgz_has_layer_frame_moved cur t
          then Ok (set_dirty_count RGZ_NUM_FB cur,
                   rgz_add_to_damaged_area params t (rgz_add_to_damaged_area params cur damage))
          else Ok (cur, damage)
      | None => Ok (cur, rgz_add_to_damaged_area params cur damage)
      end
  end.

Definition cur_layer (i : nat) : ST rgz rgz_layer := found (fun r => rgz_layers (cur_fb_state r) !! i).
Definition put_cur_layer (i : nat) (l : rgz_layer) : ST rgz unit :=
  cur_layer i;;
  modify (fun r => set_cur_fb_state (mk_fb (rgz_layerno (cur_fb_state r)) (<[i := l]> (rgz_layers (cur_fb_state r)))) r).
Definition fb_state_at (i : Z) : ST rgz rgz_fb_state :=
  found (fun r => if i <? 0 then None else fb_states r !! Z.to_nat i).

Definition rgz_handle_dirty_region (params : rgz_in_params) (prev_idx target_idx : Z) : ST rgz unit :=
  modify (set_damaged_area zero_rect);;
  prev ← fb_state_at prev_idx;
  target ← fb_state_at target_idx;
  n ← gets (fun r => rgz_layerno (cur_fb_state r));
  st_each (seq 0 (Z.to_nat n)) (fun i =>
    cur ← cur_layer i;
    damage ← gets damaged_area;
    '(cur, damage) ← lift (dirty_step params prev target i cur damage);
    put_cur_layer i cur;;
    modify (set_damaged_area damage));;
  st_each (seq 1 (Z.to_nat (rgz_layerno target) - 1)) (fun i =>
    t ← found (fun _ => rgz_layers target !! i);
    cur ← gets cur_fb_state;
    match rgz_find_layer cur (identity t) with
    | Some _ => mret tt
    | None => modify (fun r => set_damaged_area (rgz_add_to_damaged_area params t (damaged_area r)) r)
    end).

Definition rgz_add_background_layer : ST rgz unit :=
  l ← cur_layer 0;
  put_cur_layer 0 (mk_rgz_layer (set_handle 0x1 bg_layer) (identity l) RGZ_BACKGROUND_BUFFIDX (dirty_count l)).

(** The loop of [rgz_in_hwccheck] over the layers with the counters
    [possible_blit], [candidates] and [memidx]; the answer is the first two. *)
Fixpoint check_loop (params : rgz_in_params) (ls : list hwc_layer_1) (ls_idx : list nat)
    (possible_blit candidates memidx : Z) : ST rgz (Z * Z) :=
  match ls_idx with
  | [] => mret (possible_blit, candidates)
  | l :: ls_idx =>
      layer ← found (fun _ => ls !! l);
      if compositionType layer =? HWC_FRAMEBUFFER then
        valid ← lift (rgz_in_valid_hwc_layer layer);
        if valid && (possible_blit <? RGZ_INPUT_MAXLAYERS) then
          old ← cur_layer (Z.to_nat (possible_blit + 1));
          id ← found (fun _ => extlayers params !! l);
          put_cur_layer (Z.to_nat (possible_blit + 1)) (mk_rgz_layer layer id memidx (dirty_count old));;
          check_loop params ls ls_idx (possible_blit + 1) (candidates + 1) (memidx + 1)
        else check_loop params ls ls_idx possible_blit (candidates + 1) memidx
      else if has (hints layer) HWC_HINT_CLEAR_FB then
        if possible_blit <? RGZ_INPUT_MAXLAYERS then
          old ← cur_layer (Z.to_nat (possible_blit + 1));
          id ← found (fun _ => extlayers params !! l);
          put_cur_layer (Z.to_nat (possible_blit + 1))
            (mk_rgz_layer (set_handle 0x1 layer) id RGZ_CLEARHINT_BUFFIDX (dirty_count old));;
          check_loop params ls ls_idx (possible_blit + 1) (candidates + 1) memidx
        else check_loop params ls ls_idx possible_blit (candidates + 1) memidx
      else check_loop params ls ls_idx possible_blit candidates memidx
  end.

(** The number of overlays among the first [layerno] layers. *)
Definition overlays (params : rgz_in_params) (ls : list hwc_layer_1) : Z :=
  Z.of_nat (length (filter (fun l => compositionType l = HWC_OVERLAY) (take (Z.to_nat (layerno params)) ls))).

Definition rgz_in_hwccheck (p : rgz_in_params) : ST rgz Z :=
  modify (fun r => set_rgz_state (Z.land (rgz_state r) (Z.lnot RGZ_STATE_INIT)) r);;
  match layers p with
  | None => mret (-1)
  | Some ls =>
      rgz_add_background_layer;;
      '(possible_blit, candidates) ← check_loop p ls (seq 0 (Z.to_nat (layerno p))) 0 0 (overlays p ls);
      if (possible_blit =? 0) || negb (possible_blit =? candidates) then mret (-1) else
      modify (fun r => set_rgz_state (Z.lor (rgz_state r) RGZ_STATE_INIT) r);;
      modify (fun r => set_cur_fb_state (mk_fb (possible_blit + 1) (rgz_layers (cur_fb_state r))) r);;
      prev_fb_state ← get_prev_fb_state;
      target_fb_state ← get_next_fb_state;
      rgz_handle_dirty_region p prev_fb_state target_fb_state;;
      cur ← gets cur_fb_state;
      target ← fb_state_at target_fb_state;
      modify (fun r => set_fb_states (<[Z.to_nat target_fb_state :=
        mk_fb (rgz_layerno cur) (take (Z.to_nat (rgz_layerno cur)) (rgz_layers cur) ++
          drop (Z.to_nat (rgz_layerno cur)) (rgz_layers target))]> (fb_states r)) r);;
      mret RGZ_ALL
  end.

(** ** The regions *)

(** [hregion->rgz_layers[l]] *)
Definition region_layer (cur : rgz_fb_state) (h : blit_hregion) (l : nat) : outcome rgz_layer :=
  match hr_layers h !! l with
  | Some (Some i) => match rgz_layers cur !! i with Some x => Ok x | None => Fault OutOfBounds end
  | _ => Fault OutOfBounds
  end.

(** [hregion->blitrects[l][r]] *)
Definition rect_at (h : blit_hregion) (l r : nat) : outcome blit_rect :=
  match row ← blitrects h !! l; row !! r with Some x => Ok x | None => Fault OutOfBounds end.
Definition set_rect_at (l r : nat) (x : blit_rect) (t : list (list blit_rect)) : outcome (list (list blit_rect)) :=
  match t !! l with
  | Some row => if (r <? length row)%nat then Ok (<[l := <[r := x]> row]> t) else Fault OutOfBounds
  | None => Fault OutOfBounds
  end.

(** The offsets of the layers of a region, before they are sorted. *)
Definition region_offsets (cur : rgz_fb_state) (damaged : blit_rect) (h : blit_hregion) (screen_width : Z) : outcome (list Z) :=
  offsets ← push [] (r_left damaged);
  offsets ← push offsets (r_right damaged);
  fold_outcome (fun offsets l =>
    layer ← region_layer cur h l;
    offsets ← push offsets (Z.max 0 (r_left (displayFrame (hwc_layer layer))));
    push offsets (Z.min (r_right (displayFrame (hwc_layer layer))) screen_width))
    offsets (seq 0 (Z.to_nat (nlayers h))).

Definition offset_at (offsets : list Z) (r : nat) : outcome Z :=
  match offsets !! r with Some x => Ok x | None => Fault OutOfBounds end.

(** One turn of the inner loop that fills [blitrects]. *)
Definition fill_rect (cur : rgz_fb_state) (h : blit_hregion) (subregion : blit_rect) (r : nat)
    (t : list (list blit_rect)) (l : nat) : outcome (list (list blit_rect)) :=
  layer ← region_layer cur h l;
  if RECT_INTERSECTS subregion (displayFrame (hwc_layer layer)) then set_rect_at l r subregion t else Ok t.

Definition rgz_gen_blitregions (cur : rgz_fb_state) (damaged : blit_rect) (h : blit_hregion) (screen_width : Z) : outcome blit_hregion :=
  offsets ← region_offsets cur damaged h screen_width;
  offsets ← rgz_bsort offsets (length offsets);
  '(offsets, noffsets) ← rgz_bunique offsets (length offsets);
  t ← fold_outcome (fun t r =>
        l ← offset_at offsets r;
        l' ← offset_at offsets (r + 1);
        let subregion := mk_rect l (r_top (hr_rect h)) l' (r_bottom (hr_rect h)) in
        fold_outcome (fill_rect cur h subregion r) t (seq 0 (Z.to_nat (nlayers h))))
      (blitrects zero_hregion) (seq 0 (noffsets - 1));
  Ok (mk_hregion (hr_rect h) (hr_layers h) (nlayers h) (Z.of_nat noffsets - 1) t).

(** One turn of the loop of [rgz_in_hwc] that fills the layers of a region. *)
Definition region_add (cur : rgz_fb_state) (h : blit_hregion) (j : nat) : outcome blit_hregion :=
  match rgz_layers cur !! j with
  | None => Fault OutOfBounds
  | Some layer =>
      if RECT_INTERSECTS (hr_rect h) (displayFrame (hwc_layer layer)) then
        if nlayers h <? Z.of_nat (length (hr_layers h))
        then Ok (mk_hregion (hr_rect h) (<[Z.to_nat (nlayers h) := Some j]> (hr_layers h)) (nlayers h + 1) (nsubregions h) (blitrects h))
        else Fault OutOfBounds
      else Ok h
  end.

Definition make_region (cur : rgz_fb_state) (dispw screen_width : Z) (yentries : list Z) (i : nat) : outcome blit_hregion :=
  top ← offset_at yentries i;
  bottom ← offset_at yentries (i + 1);
  fold_outcome (region_add cur)
    (mk_hregion (mk_rect 0 top (if screen_width <? dispw then screen_width else dispw) bottom)
       (hr_layers zero_hregion) 0 0 (blitrects zero_hregion))
    (seq 0 (Z.to_nat (rgz_layerno cur))).

Fixpoint map_outcome {A B} (f : A -> outcome B) (l : list A) : outcome (list B) :=
  match l with
  | [] => Ok []
  | x :: l => y ← f x; ys ← map_outcome f l; Ok (y :: ys)
  end.

(** The top and bottom coordinates of the damaged area and of the layers, and the
    widest layer. *)
Definition y_entries (cur : rgz_fb_state) (damaged : blit_rect) (screen_height : Z) : outcome (list Z * Z) :=
  yentries ← push [] (r_top damaged);
  yentries ← push yentries (r_bottom damaged);
  fold_outcome (fun '(yentries, dispw) i =>
    match rgz_layers cur !! i with
    | None => Fault OutOfBounds
    | Some layer =>
        let f := displayFrame (hwc_layer layer) in
        yentries ← push yentries (Z.max 0 (r_top f));
        yentries ← push yentries (Z.min (r_bottom f) screen_height);
        Ok (yentries, if r_right f <? dispw then dispw else r_right f)
    end) (yentries, r_right damaged) (seq 0 (Z.to_nat (rgz_layerno cur))).

Definition rgz_in_hwc (p : rgz_in_params) : ST rgz Z :=
  let screen_width := s32 (g_width (in_dstgeom p)) in
  let screen_height := s32 (g_height (in_dstgeom p)) in
  st ← gets rgz_state;
  if negb (has st RGZ_STATE_INIT) then mret (-1) else
  cur ← gets cur_fb_state;
  if RGZ_SUBREGIONMAX <? (rgz_layerno cur + 1) * 2 then mret (-1) else
  rgz_delete_region_data;;
  damaged ← gets damaged_area;
  '(yentries, dispw) ← lift (y_entries cur damaged screen_height);
  yentries ← lift (rgz_bsort yentries (length yentries));
  '(yentries, ylen) ← lift (rgz_bunique yentries (length yentries));
  modify (set_nhregions (Z.of_nat ylen - 1));;
  if negb calloc_ok then mret (-1) else
  regions ← lift (map_outcome (make_region cur dispw screen_width yentries) (seq 0 (ylen - 1)));
  regions ← lift (map_outcome (fun h => rgz_gen_blitregions cur damaged h screen_width) regions);
  modify (set_hregions (Some regions));;
  modify (fun r => set_rgz_state (Z.lor (rgz_state r) RGZ_REGION_DATA) r);;
  mret 0.

Definition rgz_in (p : rgz_in_params) : ST rgz Z :=
  if in_op p =? RGZ_IN_HWC then
    rv ← rgz_in_hwccheck p;
    if rv =? RGZ_ALL then
      e ← rgz_in_hwc p;
      mret (if truth e then 0 else RGZ_ALL)
    else mret rv
  else if in_op p =? RGZ_IN_HWCCHK then
    modify (fun _ => zero_rgz);;
    rgz_in_hwccheck p
  else mret (-1).

Definition rgz_release : ST rgz unit := modify (fun _ => zero_rgz).

(** ** Making blits *)

(** The loop of [get_top_rect], which looks at layer [l - 1] next. *)
Fixpoint top_rect_loop (l : nat) (h : blit_hregion) (subregion : nat) : outcome (Z * blit_rect) :=
  match l with
  | O => Fault OutOfBounds
  | S l =>
      r ← rect_at h l subregion;
      if empty_rect r then match l with O => Ok (-1, r) | _ => top_rect_loop l h subregion end
      else Ok (Z.of_nat l, r)
  end.

Definition get_top_rect (h : blit_hregion) (subregion : nat) : outcome (Z * blit_rect) :=
  top_rect_loop (Z.to_nat (nlayers h)) h subregion.

(** The loop of [get_layer_ops], which looks at layer [l - 1] next. *)
Fixpoint layer_ops_loop (cur : rgz_fb_state) (l : nat) (h : blit_hregion) (subregion : nat) (ops bottom : Z) : outcome (Z * Z) :=
  match l with
  | O => Fault OutOfBounds
  | S l =>
      r ← rect_at h l subregion;
      '(ops, bottom, stop) ←
        (if empty_rect r then Ok (ops, bottom, false) else
         layer ← region_layer cur h l;
         stop ← (if negb (blending (hwc_layer layer) =? HWC_BLENDING_PREMULT) then Ok true else
                 nh ← native_of (handle (hwc_layer layer));
                 Ok (is_OPAQUE (iFormat nh)));
         Ok (ops + 1, Z.of_nat l, stop));
      if (stop : bool) then Ok (ops, bottom) else
      match l with O => Ok (ops, bottom) | _ => layer_ops_loop cur l h subregion ops bottom end
  end.

Definition get_layer_ops (cur : rgz_fb_state) (h : blit_hregion) (subregion : nat) : outcome (Z * Z) :=
  layer_ops_loop cur (Z.to_nat (nlayers h)) h subregion 0 (-1).

(** [n] layers are left from [l] on. *)
Fixpoint next_loop (n : nat) (h : blit_hregion) (subregion l : nat) : outcome Z :=
  match n with
  | O => Ok (-1)
  | S n =>
      r ← rect_at h l subregion;
      if empty_rect r then next_loop n h subregion (S l) else Ok (Z.of_nat l)
  end.

Definition get_layer_ops_next (h : blit_hregion) (subregion : nat) (l : Z) : outcome Z :=
  next_loop (Z.to_nat (nlayers h - (l + 1))) h subregion (Z.to_nat (l + 1)).

Definition rgz_get_displayframe_rect (layer : hwc_layer_1) : blit_rect := displayFrame layer.

(** C's [%] has the sign of its first operand. *)
Definition rgz_get_rotated_view (outer inner : blit_rect) (orientation : Z) : outcome blit_rect :=
  let delta_top := r_top inner - r_top outer in
  let delta_left := r_left inner - r_left outer in
  let orientation := Z.rem orientation 360 + 360 in
  let a := Z.rem orientation 360 in
  '(l, t) ←
    (if a =? 0 then Ok (delta_left, delta_top)
     else if a =? 180 then Ok (WIDTH outer - WIDTH inner - delta_left, HEIGHT outer - HEIGHT inner - delta_top)
     else if a =? 90 then Ok (HEIGHT outer - HEIGHT inner - delta_top, delta_left)
     else if a =? 270 then Ok (delta_top, WIDTH outer - WIDTH inner - delta_left)
     else Fault Indeterminate);
  let '(w, h) := if truth (Z.rem orientation 180) then (HEIGHT inner, WIDTH inner) else (WIDTH inner, HEIGHT inner) in
  Ok (mk_rect l t (l + w) (t + h)).

Definition rgz_get_src_rect (layer : hwc_layer_1) (subregion_rect : blit_rect) : outcome blit_rect :=
  if rgz_hwc_scaled layer then Ok (sourceCrop layer) else
  let display_frame := rgz_get_displayframe_rect layer in
  let src_orientation := 0 - rgz_get_orientation (transform layer) in
  res ← rgz_get_rotated_view display_frame subregion_rect src_orientation;
  Ok (mk_rect (r_left res + r_left (sourceCrop layer)) (r_top res + r_top (sourceCrop layer))
        (r_right res + r_left (sourceCrop layer)) (r_bottom res + r_top (sourceCrop layer))).

(** A [bvrect] has unsigned sizes. *)
Definition to_bvrect (r : blit_rect) : bvrect := mk_bvrect (r_left r) (r_top r) (u32 (WIDTH r)) (u32 (HEIGHT r)).
Definition of_bvrect (r : bvrect) : blit_rect :=
  mk_rect (bv_left r) (bv_top r) (s32 (bv_left r + bv_width r)) (s32 (bv_top r + bv_height r)).
Definition geom_rect (g : bvsurfgeom) : blit_rect := mk_rect 0 0 (s32 (g_width g)) (s32 (g_height g)).

Definition rgz_rotate_dst (e : rgz_blt_entry) (dst_orientation : Z) : outcome rgz_blt_entry :=
  let outer := geom_rect (dstgeom e) in
  r ← rgz_get_rotated_view outer (of_bvrect (dstrect e)) dst_orientation;
  c ← rgz_get_rotated_view outer (of_bvrect (cliprect e)) dst_orientation;
  let e := set_cliprect (to_bvrect c) (set_dstrect (to_bvrect r) e) in
  Ok (if truth (Z.rem dst_orientation 180) then set_dstgeom (swap_geom (dstgeom e)) e else e).

Definition rgz_set_dst_data (screen_geom : bvsurfgeom) (subregion_rect : blit_rect) (e : rgz_blt_entry)
    (dst_orientation : Z) : outcome rgz_blt_entry :=
  let e := set_dstgeom (mk_geom (g_format screen_geom) (g_width screen_geom) (g_height screen_geom)
    dst_orientation (g_virtstride screen_geom)) e in
  let e := set_dstrect (to_bvrect subregion_rect) e in
  if truth dst_orientation then rgz_rotate_dst e dst_orientation else Ok e.

Definition rgz_rotate_src (e : rgz_blt_entry) (src_orientation : Z) (is_src2 : bool) : outcome rgz_blt_entry :=
  let g := srcgeom is_src2 e in
  r ← rgz_get_rotated_view (geom_rect g) (of_bvrect (srcrect is_src2 e)) src_orientation;
  Ok (set_src is_src2 (to_bvrect r) (if truth (Z.rem src_orientation 180) then swap_geom g else g) (srcdesc is_src2 e) e).

Definition rgz_set_src_data (l : rgz_layer) (subregion_rect : blit_rect) (e : rgz_blt_entry)
    (src_orientation : Z) (is_src2 : bool) : outcome rgz_blt_entry :=
  h ← native_of (handle (hwc_layer l));
  let desc := mk_desc (u32 (iHeight h * rgz_handle_to_stride h)) (u32 (buffidx l)) in
  let geom := mk_geom (hal_to_ocd (iFormat h)) (u32 (iWidth h)) (u32 (iHeight h)) 0 (rgz_handle_to_stride h) in
  res ← rgz_get_src_rect (hwc_layer l) subregion_rect;
  if truth src_orientation
  then rgz_rotate_src (set_src is_src2 (to_bvrect res) (set_g_orientation src_orientation geom) desc e) src_orientation is_src2
  else Ok (set_src is_src2 (to_bvrect res) geom desc e).

(** [min] is taken in the type of its first operand, which is unsigned here. *)
Definition umin (a b : Z) : Z := s32 (Z.min (u32 a) (u32 b)).

Definition rgz_set_clip_rect (screen_geom : bvsurfgeom) (subregion_rect : blit_rect) (e : rgz_blt_entry) : rgz_blt_entry :=
  set_cliprect (to_bvrect (mk_rect (Z.max 0 (r_left subregion_rect)) (Z.max 0 (r_top subregion_rect))
    (umin (g_width screen_geom) (r_right subregion_rect)) (umin (g_height screen_geom) (r_bottom subregion_rect)))) e.

Definition rgz_set_src2_is_dst (e : rgz_blt_entry) : rgz_blt_entry :=
  set_src true (dstrect e) (dstgeom e) (mk_desc (d_length (src2desc e)) (HWC_BLT_DESC_FB_FN 0)) e.

Definition rgz_is_layer_nv12 (layer : hwc_layer_1) : outcome bool :=
  h ← native_of (handle layer);
  Ok (is_NV12 (iFormat h)).

Definition rgz_cfg_scale_mode (e : rgz_blt_entry) (layer : hwc_layer_1) : outcome rgz_blt_entry :=
  nv12 ← rgz_is_layer_nv12 layer;
  Ok (set_e_scalemode (if (nv12 : bool) then BVSCALE_9x9_TAP else BVSCALE_BILINEAR) e).

Definition rgz_set_async (async : bool) (e : rgz_blt_entry) : rgz_blt_entry :=
  set_e_flags (if async then Z.lor (e_flags e) BVFLAG_ASYNC else Z.ldiff (e_flags e) BVFLAG_ASYNC) e.

(** What [rgz_hwc_subregion_copy] and [rgz_hwc_subregion_blend] have in common:
    the operation [op] on source 1. *)
Definition set_operation (screen_geom : bvsurfgeom) (op : bvop) (op_flag : Z) (subregion_rect : blit_rect)
    (rgz_src1 : rgz_layer) (e : rgz_blt_entry) : outcome rgz_blt_entry :=
  let hwc_src1 := hwc_layer rgz_src1 in
  let e := set_e_flags (Z.lor (Z.lor BVFLAG_CLIP op_flag) (rgz_get_flip_flags (transform hwc_src1) false)) (set_e_op op e) in
  let e := rgz_set_async true e in
  '(tmp_rect, e) ←
    (if rgz_hwc_scaled hwc_src1
     then e ← rgz_cfg_scale_mode e hwc_src1; Ok (rgz_get_displayframe_rect hwc_src1, e)
     else Ok (subregion_rect, e));
  let src1_orientation := rgz_get_orientation (transform hwc_src1) in
  nv12 ← rgz_is_layer_nv12 hwc_src1;
  let '(dst_orientation, src1_orientation) :=
    if (nv12 : bool) then (360 - src1_orientation, 0) else (0, src1_orientation) in
  e ← rgz_set_src_data rgz_src1 tmp_rect e src1_orientation false;
  rgz_set_dst_data screen_geom tmp_rect (rgz_set_clip_rect screen_geom subregion_rect e) dst_orientation.

Definition copy_entry (screen_geom : bvsurfgeom) (subregion_rect : blit_rect) (rgz_src1 : rgz_layer) (e : rgz_blt_entry) : outcome rgz_blt_entry :=
  e ← set_operation screen_geom (Rop 0xCCCC) BVFLAG_ROP subregion_rect rgz_src1 e;
  Ok (match g_format (src1geom e) with
      | OCDFMT_BGR124 | OCDFMT_RGB124 | OCDFMT_RGB16 => set_dstgeom (set_g_format OCDFMT_BGR124 (dstgeom e)) e
      | _ => e
      end).

Definition blend_entry (screen_geom : bvsurfgeom) (subregion_rect : blit_rect) (rgz_src1 : rgz_layer) (rgz_src2 : option rgz_layer)
    (e : rgz_blt_entry) : outcome rgz_blt_entry :=
  e ← set_operation screen_geom Blend_SRC1OVER BVFLAG_BLEND subregion_rect rgz_src1 e;
  match rgz_src2 with
  | Some s2 =>
      rgz_is_layer_nv12 (hwc_layer s2);;
      let e := set_e_flags (Z.lor (e_flags e) (rgz_get_flip_flags (transform (hwc_layer s2)) true)) e in
      rgz_set_src_data s2 subregion_rect e (rgz_get_orientation (transform (hwc_layer s2))) true
  | None => Ok (rgz_set_src2_is_dst e)
  end.

Definition clear_entry (screen_geom : bvsurfgeom) (rect : option blit_rect) (e : rgz_blt_entry) : outcome rgz_blt_entry :=
  let e := rgz_set_async true (set_e_flags (Z.lor BVFLAG_CLIP BVFLAG_ROP) (set_e_op (Rop 0xCCCC) e)) in
  let e := set_src false (mk_bvrect 0 0 1 1) (mk_geom OCDFMT_RGBA24 1 1 0 (g_virtstride (src1geom e))) (mk_desc 4 (u32 (-1))) e in
  let clear_rect := match rect with Some r => r | None => mk_rect 0 0 (s32 (g_width screen_geom)) (s32 (g_height screen_geom)) end in
  rgz_set_dst_data screen_geom clear_rect (rgz_set_clip_rect screen_geom clear_rect e) 0.

(** *** The list of blits *)

Definition blts_init : list rgz_blt_entry := replicate (Z.to_nat RGZ_MAX_BLITS) zero_entry.

Definition set_bvcmds (x : list rgz_blt_entry) (b : rgz_blts) : rgz_blts :=
  mk_blts x (blts_idx b) (out_hndls b) (out_nhndls b) (out_blits b) (cmdp b) (cmdlen b).
Definition set_blts_idx (x : Z) (b : rgz_blts) : rgz_blts :=
  mk_blts (bvcmds b) x (out_hndls b) (out_nhndls b) (out_blits b) (cmdp b) (cmdlen b).
Definition set_out_hndls (x : list Z) (n : Z) (b : rgz_blts) : rgz_blts :=
  mk_blts (bvcmds b) (blts_idx b) x n (out_blits b) (cmdp b) (cmdlen b).
Definition set_out_blits (x : Z) (b : rgz_blts) : rgz_blts :=
  mk_blts (bvcmds b) (blts_idx b) (out_hndls b) (out_nhndls b) x (cmdp b) (cmdlen b).
Definition set_cmdp (x : option (list rgz_blt_entry)) (n : Z) (b : rgz_blts) : rgz_blts :=
  mk_blts (bvcmds b) (blts_idx b) (out_hndls b) (out_nhndls b) (out_blits b) x n.

Definition rgz_blts_init : ST rgz_blts unit := modify (fun b => set_blts_idx 0 (set_bvcmds blts_init b)).
Definition rgz_blts_free : ST rgz_blts unit := rgz_blts_init.

(** The index of the entry. *)
Definition rgz_blts_get (params : rgz_out_params) : ST rgz_blts nat :=
  i ← gets blts_idx;
  if i <? RGZ_MAX_BLITS then
    modify (set_blts_idx (i + 1));;
    st_when (IS_BVCMD (out_op params)) (modify (fun b => set_out_blits (out_blits b + 1) b));;
    mret (Z.to_nat i)
  else mret (Z.to_nat (i - 1)).

Definition update_blt (i : nat) (f : rgz_blt_entry -> outcome rgz_blt_entry) : ST rgz_blts unit :=
  e ← found (fun b => bvcmds b !! i);
  e ← lift (f e);
  modify (fun b => set_bvcmds (<[i := e]> (bvcmds b)) b).

Definition rgz_hwc_subregion_copy (params : rgz_out_params) (subregion_rect : blit_rect) (rgz_src1 : rgz_layer) : ST rgz_blts nat :=
  e ← rgz_blts_get params;
  update_blt e (copy_entry (out_dstgeom params) subregion_rect rgz_src1);;
  mret e.

Definition rgz_hwc_subregion_blend (params : rgz_out_params) (subregion_rect : blit_rect) (rgz_src1 : rgz_layer)
    (rgz_src2 : option rgz_layer) : ST rgz_blts nat :=
  e ← rgz_blts_get params;
  update_blt e (blend_entry (out_dstgeom params) subregion_rect rgz_src1 rgz_src2);;
  mret e.

Definition rgz_out_clrdst (params : rgz_out_params) (rect : option blit_rect) : ST rgz_blts unit :=
  e ← rgz_blts_get params;
  update_blt e (clear_entry (out_dstgeom params) rect).

Definition rgz_batch_entry (flag set : Z) (e : rgz_blt_entry) : rgz_blt_entry :=
  set_e_batchflags (Z.lor (e_batchflags e) set) (set_e_flags (Z.lor (Z.ldiff (e_flags e) BVFLAG_BATCH_MASK) flag) e).

Definition rgz_can_blend_together (src1_layer src2_layer : hwc_layer_1) : outcome bool :=
  if rgz_hwc_scaled src1_layer || rgz_hwc_scaled src2_layer then Ok false else
  nv1 ← rgz_is_layer_nv12 src1_layer;
  if (nv1 : bool) then Ok false else
  nv2 ← rgz_is_layer_nv12 src2_layer;
  Ok (negb nv2).

Definition or_flags : list Z -> Z := foldr Z.lor 0.

(** The loop of [rgz_hwc_subregion_blit] over the rest of the layers; the answer
    is the last entry. *)
Fixpoint blend_rest (fuel : nat) (cur : rgz_fb_state) (h : blit_hregion) (sidx : nat) (params : rgz_out_params) (rect : blit_rect)
    (lix first_batchflags : Z) (prev_layer_scaled prev_layer_nv12 : bool) (e : nat) : ST rgz_blts nat :=
  lix ← lift (get_layer_ops_next h sidx lix);
  if lix =? -1 then mret e else
  match fuel with
  | O => st_fault OutOfFuel
  | S fuel =>
      rgz_src1 ← lift (region_layer cur h (Z.to_nat lix));
      e ← rgz_hwc_subregion_blend params rect rgz_src1 None;
      let batchflags := Z.lor first_batchflags (or_flags [BVBATCH_SRC1; BVBATCH_SRC1RECT_ORIGIN; BVBATCH_SRC1RECT_SIZE]) in
      let cur_layer_scaled := rgz_hwc_scaled (hwc_layer rgz_src1) in
      let batchflags := if cur_layer_scaled || prev_layer_scaled
        then Z.lor batchflags (or_flags [BVBATCH_DSTRECT_ORIGIN; BVBATCH_DSTRECT_SIZE; BVBATCH_SRC2RECT_ORIGIN;
               BVBATCH_SRC2RECT_SIZE; BVBATCH_SCALE])
        else batchflags in
      cur_layer_nv12 ← lift (rgz_is_layer_nv12 (hwc_layer rgz_src1));
      let batchflags := if cur_layer_nv12 || prev_layer_nv12
        then Z.lor batchflags (or_flags [BVBATCH_DST; BVBATCH_DSTRECT_ORIGIN; BVBATCH_DSTRECT_SIZE; BVBATCH_SRC2;
               BVBATCH_SRC2RECT_ORIGIN; BVBATCH_SRC2RECT_SIZE; BVBATCH_CLIPRECT])
        else batchflags in
      update_blt e (fun x => Ok (rgz_batch_entry BVFLAG_BATCH_CONTINUE batchflags x));;
      blend_rest fuel cur h sidx params rect lix 0 cur_layer_scaled cur_layer_nv12 e
  end.

(** The branch of [rgz_hwc_subregion_blit] that blends, from the bottom layer on. *)
Definition subregion_blend_all (cur : rgz_fb_state) (h : blit_hregion) (sidx : nat) (params : rgz_out_params) (s2lix : Z) : ST rgz_blts unit :=
  rect ← lift (rect_at h (Z.to_nat s2lix) sidx);
  lix ← lift (get_layer_ops_next h sidx s2lix);
  rgz_src1 ← lift (region_layer cur h (Z.to_nat lix));
  rgz_src2 ← lift (region_layer cur h (Z.to_nat s2lix));
  together ← lift (rgz_can_blend_together (hwc_layer rgz_src1) (hwc_layer rgz_src2));
  '(e, lix, first_batchflags, scaled, nv12) ←
    (if (together : bool) then
       e ← rgz_hwc_subregion_blend params rect rgz_src1 (Some rgz_src2);
       mret (e, lix, 0, false, false)
     else
       e ← rgz_hwc_subregion_copy params rect rgz_src2;
       nv12 ← lift (rgz_is_layer_nv12 (hwc_layer rgz_src2));
       mret (e, s2lix, BVBATCH_OP, rgz_hwc_scaled (hwc_layer rgz_src2), nv12));
  let first_batchflags := Z.lor first_batchflags (or_flags [BVBATCH_SRC2; BVBATCH_SRC2RECT_ORIGIN; BVBATCH_SRC2RECT_SIZE]) in
  update_blt e (fun x => Ok (rgz_batch_entry BVFLAG_BATCH_BEGIN 0 x));;
  e ← blend_rest (Z.to_nat (nlayers h)) cur h sidx params rect lix first_batchflags scaled nv12 e;
  update_blt e (fun x => Ok (if has (e_flags x) BVFLAG_BATCH_BEGIN then rgz_batch_entry 0 0 x
                             else rgz_batch_entry BVFLAG_BATCH_END 0 x)).

(** Whether a visible layer from [dirtylix] on is dirty. *)
Fixpoint dirty_loop (fuel : nat) (cur : rgz_fb_state) (h : blit_hregion) (sidx : nat) (dirtylix : Z) : outcome bool :=
  if dirtylix =? -1 then Ok false else
  match fuel with
  | O => Fault OutOfFuel
  | S fuel =>
      l ← region_layer cur h (Z.to_nat dirtylix);
      if truth (dirty_count l) then Ok true else
      next ← get_layer_ops_next h sidx dirtylix;
      dirty_loop fuel cur h sidx next
  end.

(** The part of [rgz_hwc_subregion_blit] that makes the blits. *)
Definition subregion_draw (cur : rgz_fb_state) (h : blit_hregion) (sidx : nat) (params : rgz_out_params) (ldepth lix : Z) : ST rgz_blts unit :=
  if (noblend params =? 0) && (1 <? ldepth) then subregion_blend_all cur h sidx params lix else
  rect ← lift (rect_at h (Z.to_nat lix) sidx);
  '(lix, rect) ← (if noblend params =? 0 then mret (lix, rect) else lift (get_top_rect h sidx));
  rgz_src1 ← lift (region_layer cur h (Z.to_nat lix));
  rgz_hwc_subregion_copy params rect rgz_src1;;
  mret tt.

Definition rgz_hwc_subregion_blit (cur : rgz_fb_state) (h : blit_hregion) (sidx : nat) (params : rgz_out_params) (damaged_area : blit_rect) : ST rgz_blts Z :=
  '(ldepth, lix) ← lift (get_layer_ops cur h sidx);
  if ldepth =? 0 then mret (-1) else
  subregion_rect ← lift (rect_at h (Z.to_nat lix) sidx);
  dirty ← (if RECT_INTERSECTS damaged_area subregion_rect then mret true
           else lift (dirty_loop (S (Z.to_nat (nlayers h))) cur h sidx lix));
  if negb dirty then mret 0 else
  bottom ← lift (region_layer cur h (Z.to_nat lix));
  if (buffidx bottom =? RGZ_BACKGROUND_BUFFIDX) && (ldepth =? 1)
  then rgz_out_clrdst params (Some subregion_rect);; mret 0 else
  '(ldepth, lix) ←
    (if buffidx bottom =? RGZ_BACKGROUND_BUFFIDX
     then lix ← lift (get_layer_ops_next h sidx lix); mret (ldepth - 1, lix)
     else mret (ldepth, lix));
  l ← lift (region_layer cur h (Z.to_nat lix));
  if buffidx l =? RGZ_CLEARHINT_BUFFIDX then
    if ldepth - 1 =? 0 then
      rect ← lift (rect_at h (Z.to_nat lix) sidx);
      rgz_out_clrdst params (Some rect);; mret 0
    else
      lix ← lift (get_layer_ops_next h sidx lix);
      subregion_draw cur h sidx params (ldepth - 1) lix;; mret 0
  else subregion_draw cur h sidx params ldepth lix;; mret 0.

(** ** The output of a frame *)

(** The engine's entry points are never set: calling one follows a null pointer. *)
Definition rgz_blts_bvdirect : ST rgz_blts Z :=
  i ← gets blts_idx;
  if 0 <? i then st_fault OutOfBounds else mret (-1).

Definition rgz_hwc_layer_blit (params : rgz_out_params) (l : rgz_layer) : ST rgz_blts Z :=
  let srcregion := rgz_get_displayframe_rect (hwc_layer l) in
  (if (noblend params =? 0) && (blending (hwc_layer l) =? HWC_BLENDING_PREMULT)
   then rgz_hwc_subregion_blend params srcregion l None
   else rgz_hwc_subregion_copy params srcregion l);;
  mret 0.

(** [out_hndls[j++] = h], and one more of [out_nhndls]. *)
Definition put_handle (j h : Z) : ST rgz_blts unit :=
  b ← gets id;
  if (j <? 0) || (Z.of_nat (length (out_hndls b)) <=? j) then st_fault OutOfBounds else
  modify (set_out_hndls (<[Z.to_nat j := h]> (out_hndls b)) (out_nhndls b + 1)).

(** What both commands do at the end. *)
Definition finish_blits : ST rgz_blts Z :=
  b ← gets id;
  modify (set_cmdp (Some (bvcmds b)) (blts_idx b));;
  mret (if RGZ_MAX_BLITS <=? out_blits b then -1 else 0).

Fixpoint paint_loop (params : rgz_out_params) (ls : list rgz_layer) (j : Z) : ST rgz_blts Z :=
  match ls with
  | [] => mret 0
  | l :: ls =>
      let f := displayFrame (hwc_layer l) in
      let g := out_dstgeom params in
      if buffidx l =? -1 then
        rgz_out_clrdst params (Some (mk_rect (Z.max 0 (r_left f)) (Z.max 0 (r_top f))
          (umin (g_width g) (r_right f)) (umin (g_height g) (r_bottom f))));;
        paint_loop params ls j
      else
        rv ← rgz_hwc_layer_blit params l;
        if truth rv then rgz_blts_free;; mret rv else
        put_handle j (handle (hwc_layer l));;
        paint_loop params ls (j + 1)
  end.

(** The layers of the current frame but for the background. *)
Definition frame_layers (cur : rgz_fb_state) : list rgz_layer := drop 1 (take (Z.to_nat (rgz_layerno cur)) (rgz_layers cur)).

Definition rgz_out_bvcmd_paint (r : rgz) (params : rgz_out_params) : ST rgz_blts Z :=
  modify (fun b => set_out_hndls (out_hndls b) 0 (set_out_blits 0 b));;
  rgz_blts_init;;
  rgz_out_clrdst params None;;
  rv ← paint_loop params (frame_layers (cur_fb_state r)) 0;
  if truth rv then mret rv else
  i ← gets blts_idx;
  update_blt (Z.to_nat (i - 1)) (fun e => Ok (rgz_set_async false e));;
  finish_blits.

Fixpoint direct_loop (params : rgz_out_params) (ls : list rgz_layer) : ST rgz_blts Z :=
  match ls with
  | [] => mret 0
  | l :: ls =>
      rv ← rgz_hwc_layer_blit params l;
      if truth rv then rgz_blts_free;; mret rv else direct_loop params ls
  end.

Definition rgz_out_bvdirect_paint (r : rgz) (params : rgz_out_params) : ST rgz_blts Z :=
  rgz_blts_init;;
  rv ← direct_loop params (frame_layers (cur_fb_state r));
  if truth rv then mret rv else
  rgz_blts_bvdirect;;
  rgz_blts_free;;
  mret rv.

Fixpoint subregions_loop (cur : rgz_fb_state) (h : blit_hregion) (params : rgz_out_params) (damaged : blit_rect) (l : list nat) : ST rgz_blts Z :=
  match l with
  | [] => mret 0
  | s :: l =>
      rv ← rgz_hwc_subregion_blit cur h s params damaged;
      if truth rv then mret (-1) else subregions_loop cur h params damaged l
  end.

Fixpoint hregions_loop (cur : rgz_fb_state) (params : rgz_out_params) (damaged : blit_rect) (hs : list blit_hregion) : ST rgz_blts Z :=
  match hs with
  | [] => mret 0
  | h :: hs =>
      if nlayers h =? 0 then mret (-1) else
      rv ← subregions_loop cur h params damaged (seq 0 (Z.to_nat (nsubregions h)));
      if truth rv then mret (-1) else hregions_loop cur params damaged hs
  end.

Fixpoint handles_loop (ls : list rgz_layer) (i : Z) : ST rgz_blts unit :=
  match ls with
  | [] => mret tt
  | l :: ls =>
      if buffidx l =? -1 then handles_loop ls i
      else put_handle i (handle (hwc_layer l));; handles_loop ls (i + 1)
  end.

Definition rgz_out_region (r : rgz) (params : rgz_out_params) : ST rgz_blts Z :=
  if negb (has (rgz_state r) RGZ_REGION_DATA) then mret (-1) else
  match hregions r with
  | None => st_fault OutOfBounds
  | Some hs =>
      rgz_blts_init;;
      st_when (IS_BVCMD (out_op params)) (modify (set_out_blits 0));;
      rv ← hregions_loop (cur_fb_state r) params (damaged_area r) (take (Z.to_nat (nhregions r)) hs);
      if truth rv then mret (-1) else
      if IS_BVCMD (out_op params) then
        modify (fun b => set_out_hndls (out_hndls b) 0 b);;
        handles_loop (frame_layers (cur_fb_state r)) 0;;
        i ← gets blts_idx;
        st_when (0 <? i) (update_blt (Z.to_nat (i - 1)) (fun e => Ok (rgz_set_async false e)));;
        finish_blits
      else
        rv ← rgz_blts_bvdirect;
        rgz_blts_free;;
        mret rv
  end.

Definition rgz_out (r : rgz) (params : rgz_out_params) : ST rgz_blts Z :=
  let op := out_op params in
  if op =? RGZ_OUT_SVG then mret 0
  else if op =? RGZ_OUT_BVDIRECT_PAINT then rgz_out_bvdirect_paint r params
  else if op =? RGZ_OUT_BVCMD_PAINT then rgz_out_bvcmd_paint r params
  else if (op =? RGZ_OUT_BVDIRECT_REGION) || (op =? RGZ_OUT_BVCMD_REGION) then rgz_out_region r params
  else mret (-1).
End Rgz.

(** [rgz_get_screengeometry]: the size and line length that the driver reports
    become the geometry of the screen and the background layer. *)
Definition rgz_get_screengeometry (fix_info : option Z) (var_info : option (Z * Z)) (fmt : hal_format)
    (bg_layer : hwc_layer_1) (geom : bvsurfgeom) : Z * hwc_layer_1 * bvsurfgeom :=
  match fix_info, var_info with
  | Some line_length, Some (xres, yres) =>
      (0, mk_layer 0 0 0 0 0 0 zero_rect (mk_rect 0 0 (s32 xres) (s32 yres)),
       mk_geom (hal_to_ocd fmt) xres yres 0 line_length)
  | _, _ => (-22, bg_layer, geom)
  end.
