(* ===== verification/RgzLists.v ===== *)
(** * Sorting and cutting in the regionizer

    [rgz_bsort] sorts, [rgz_bunique] leaves each number of a sorted array once;
    the numbers of a strictly sorted array cut a range into intervals. *)

From stdpp Require Import base list numbers option.
From Stdlib Require Import ZArith Lia.
From S2P Require Import Prelude Stateful Rgz.

Local Open Scope Z_scope.

(** ** Loops *)

Lemma fold_seq_inv {B} (P : nat -> B -> Prop) (f : B -> nat -> outcome B) n : forall k b,
  P k b -> (forall i b, (k <= i < k + n)%nat -> P i b -> exists b', f b i = Ok b' /\ P (S i) b') ->
  exists b', fold_outcome f b (seq k n) = Ok b' /\ P (k + n)%nat b'.
Proof.
  induction n as [|n IH]; intros k b Hb Hf; simpl.
  - exists b. by rewrite Nat.add_0_r.
  - destruct (Hf k b) as (b1 & E1 & P1); [lia|done|]. rewrite E1. simpl.
    destruct (IH (S k) b1 P1) as (b2 & E2 & P2); [intros i b' Hi; apply Hf; lia|].
    exists b2. split; [done|]. by replace (k + S n)%nat with (S k + n)%nat by lia.
Qed.

Lemma map_outcome_all {A B} (f : A -> outcome B) (P : A -> B -> Prop) l :
  (forall x, x ∈ l -> exists y, f x = Ok y /\ P x y) -> exists ys, map_outcome f l = Ok ys /\ Forall2 P l ys.
Proof.
  induction l as [|x l IH]; intros Hf; simpl; [by eauto|].
  destruct (Hf x) as (y & Ey & Py); [by left|]. destruct IH as (ys & Eys & Pys); [intros z Hz; apply Hf; by right|].
  rewrite Ey. simpl. rewrite Eys. simpl. eauto.
Qed.

(** ** Sorted arrays *)

Definition sorted_on (P : Z -> Z -> Prop) (a : list Z) (lo hi : nat) : Prop :=
  forall m n x y, (lo <= m < n)%nat -> (n < hi)%nat -> a !! m = Some x -> a !! n = Some y -> P x y.

Definition same_elements (a b : list Z) : Prop := forall x, x ∈ a <-> x ∈ b.

#[export] Instance same_elements_equiv : Equivalence same_elements.
Proof. split; [by intros ? ?|intros ? ? E x; by rewrite (E x)|intros ? ? ? E F x; by rewrite (E x), (F x)]. Qed.

Lemma swap_elements (a : list Z) i j x y :
  a !! i = Some x -> a !! j = Some y -> same_elements (<[j := x]> (<[i := y]> a)) a.
Proof.
  intros Hi Hj z. pose proof (lookup_lt_Some _ _ _ Hi). pose proof (lookup_lt_Some _ _ _ Hj).
  rewrite !list_elem_of_lookup. split; intros [k Hk].
  - destruct (decide (k = j)) as [->|Hkj]; [rewrite list_lookup_insert_eq in Hk by (rewrite length_insert; lia); simplify_eq; eauto|].
    rewrite list_lookup_insert_ne in Hk by done. destruct (decide (k = i)) as [->|Hki].
    + rewrite list_lookup_insert_eq in Hk by lia. simplify_eq. eauto.
    + rewrite list_lookup_insert_ne in Hk by done. eauto.
  - destruct (decide (z = x)) as [->|Hx]; [exists j; rewrite list_lookup_insert_eq; [done|rewrite length_insert; lia]|].
    destruct (decide (k = j)) as [->|Hkj].
    + exists i. rewrite list_lookup_insert_ne by congruence. rewrite list_lookup_insert_eq by lia. congruence.
    + exists k. rewrite list_lookup_insert_ne by done. rewrite list_lookup_insert_ne by congruence. done.
Qed.

(** ** Bubble sort *)

Definition bubbled (a0 : list Z) (i j : nat) (a : list Z) : Prop :=
  length a = length a0 /\ same_elements a a0 /\ sorted_on Z.le a 0 i /\
  forall m x y, (m < j)%nat -> a !! m = Some x -> a !! i = Some y -> x <= y.

Lemma bsort_step_ok a0 i j a :
  (j < i < length a0)%nat -> bubbled a0 i j a -> exists a', bsort_step i a j = Ok a' /\ bubbled a0 i (S j) a'.
Proof.
  intros Hij (L & El & So & Up). unfold bsort_step.
  destruct (lookup_lt_is_Some_2 a i ltac:(lia)) as [x Hx]. destruct (lookup_lt_is_Some_2 a j ltac:(lia)) as [y Hy].
  rewrite Hx, Hy. destruct (Z.ltb_spec x y) as [Hlt|Hge]; eexists; (split; [done|]).
  - split; [by rewrite !length_insert|]. split; [etrans; [by apply swap_elements|done]|].
    assert (forall k z, (k < i)%nat -> <[j := x]> (<[i := y]> a) !! k = Some z -> (k = j /\ z = x) \/ (k <> j /\ a !! k = Some z)) as Hlow.
    { intros k z Hk [(-> & -> & _)|[Hne Hz]]%list_lookup_insert_Some; [by left|right].
      rewrite list_lookup_insert_ne in Hz by lia. done. }
    split.
    + intros m n u v Hm Hn [[-> ->]|[Hmj Hu]]%Hlow [[-> ->]|[Hnj Hv]]%Hlow; try lia.
      * assert (y <= v) by (apply (So j n y v); auto; lia). lia.
      * apply (Up m u x); auto; lia.
      * apply (So m n u v); auto; lia.
    + intros m u v Hm [[-> ->]|[Hmj Hu]]%Hlow Hv; [..|lia]; rewrite list_lookup_insert_ne, list_lookup_insert_eq in Hv by lia; simplify_eq.
      * lia.
      * apply (So m j u v); auto; lia.
  - split; [done|]. split; [done|]. split; [done|]. intros m u v Hm Hu Hv. destruct (decide (m = j)) as [->|]; [by simplify_eq|].
    apply (Up m u v); auto; lia.
Qed.

Lemma rgz_bsort_ok a0 :
  exists a, rgz_bsort a0 (length a0) = Ok a /\ length a = length a0 /\ same_elements a a0 /\ sorted_on Z.le a 0 (length a).
Proof.
  unfold rgz_bsort.
  destruct (fold_seq_inv (fun i a => length a = length a0 /\ same_elements a a0 /\ sorted_on Z.le a 0 i)
    (fun a i => fold_outcome (bsort_step i) a (seq 0 i)) (length a0) 0 a0) as (a & E & L & El & So).
  - split; [done|]. split; [done|]. intros m n; lia.
  - intros i a Hi (L & El & So).
    destruct (fold_seq_inv (bubbled a0 i) (bsort_step i) i 0 a) as (a' & E & L' & El' & So' & Up).
    + split; [done|]. split; [done|]. split; [done|]. intros m; lia.
    + intros j b Hj Hb. apply bsort_step_ok; [lia|done].
    + exists a'. split; [done|]. split; [done|]. split; [done|]. intros m n x y Hm Hn Hx Hy.
      destruct (decide (n = i)) as [->|]; [apply (Up m x y); auto; lia|apply (So' m n x y); auto; lia].
  - exists a. rewrite L. auto.
Qed.

(** ** Leaving each number once *)

Definition cut_at (a0 : list Z) (base : nat) (a : list Z) : Prop :=
  length a = length a0 /\ same_elements a a0 /\ sorted_on Z.lt a 0 (S base) /\ sorted_on Z.le a base (length a).

Lemma skip_loop_ok a base x : a !! base = Some x -> sorted_on Z.le a base (length a) -> forall fuel skip,
  (length a < fuel + (base + skip))%nat -> (1 <= skip)%nat -> (base + skip <= length a)%nat ->
  (forall k y, (base <= k < base + skip)%nat -> a !! k = Some y -> y = x) ->
  exists skip', skip_loop fuel a (length a) base skip = Ok skip' /\ (skip <= skip')%nat /\ (base + skip' <= length a)%nat /\
    (forall k y, (base <= k < base + skip')%nat -> a !! k = Some y -> y = x) /\
    forall y, a !! (base + skip')%nat = Some y -> x < y.
Proof.
  intros Hx So. induction fuel as [|fuel IH]; intros skip Hf H1 Hb Heq; [lia|]. simpl.
  destruct (Nat.ltb_spec (base + skip) (length a)) as [Hlt|Hge].
  - destruct (lookup_lt_is_Some_2 a (base + skip) Hlt) as [y Hy]. rewrite Hx, Hy.
    destruct (Z.eqb_spec x y) as [<-|Hne].
    + destruct (IH (S skip)) as (s' & E & ? & ? & ? & ?); [lia..| |exists s'; repeat split; auto; lia].
      intros k z Hk Hz. destruct (decide (k = (base + skip)%nat)) as [->|]; [by simplify_eq|apply (Heq k z); auto; lia].
    + exists skip. repeat split; auto. intros z Hz. rewrite Hy in Hz. injection Hz as <-. assert (x <= y); [|lia].
      apply (So base (base + skip)%nat x y); auto; lia.
  - exists skip. repeat split; auto. intros y Hy%lookup_lt_Some. lia.
Qed.

(** After [i] turns of the loop that fills the gap. *)
Definition filled (a : list Z) (base : nat) (z : Z) (i : nat) (b : list Z) : Prop :=
  length b = length a /\
  forall k, b !! k = if decide (base < k <= base + i)%nat then (if decide (k < length a)%nat then Some z else None) else a !! k.

Lemma fill_ok a base skip z :
  a !! (base + skip)%nat = Some z -> (1 <= skip)%nat ->
  exists b, fold_outcome (fill_step base skip) a (seq 0 (skip - 1)) = Ok b /\ filled a base z (skip - 1) b.
Proof.
  intros Hz Hs. pose proof (lookup_lt_Some _ _ _ Hz) as Hl.
  apply (fold_seq_inv (filled a base z) (fill_step base skip) (skip - 1) 0 a).
  - split; [done|]. intros k. by rewrite decide_False by lia.
  - intros i b Hi [Lb Fb]. unfold fill_step. rewrite Fb, decide_False by lia. rewrite Hz.
    destruct (Nat.ltb_spec (base + 1 + i) (length b)) as [_|?]; [|lia]. eexists. split; [done|]. split; [by rewrite length_insert|]. intros k.
    rewrite list_lookup_insert. destruct (decide (base + 1 + i = k /\ base + 1 + i < length b)%nat) as [[<- ?]|Hne].
    + rewrite decide_True by lia. by rewrite decide_True by lia.
    + rewrite Fb. destruct (decide (base < k <= base + i)%nat), (decide (base < k <= base + S i)%nat); try done; [lia|]. destruct (decide (k < length a)%nat); [lia|]. apply lookup_ge_None. lia.
Qed.

Lemma filled_cut a0 base skip a x z b :
  cut_at a0 base a -> a !! base = Some x -> a !! (base + skip)%nat = Some z -> (1 <= skip)%nat -> x < z ->
  (forall k y, (base <= k < base + skip)%nat -> a !! k = Some y -> y = x) ->
  filled a base z (skip - 1) b -> cut_at a0 (S base) b.
Proof.
  intros (L & El & Slt & Sle) Hx Hz Hs Hlt Heq [Lb Fb]. pose proof (lookup_lt_Some _ _ _ Hz) as Hl.
  assert (forall k y, (base < k <= base + skip)%nat -> b !! k = Some y -> y = z) as Hgap.
  { intros k y Hk Hy. rewrite Fb in Hy. destruct (decide (base < k <= base + (skip - 1))%nat).
    - case_decide; [by simplify_eq|done].
    - replace k with (base + skip)%nat in Hy by lia. by simplify_eq. }
  assert (forall k, (k <= base \/ base + skip <= k)%nat -> b !! k = a !! k) as Hsame.
  { intros k Hk. rewrite Fb. by rewrite decide_False by lia. }
  split; [congruence|]. split; [|split].
  - etrans; [|exact El]. intros v. rewrite !list_elem_of_lookup. split; intros [k Hk].
    + destruct (decide (base < k <= base + skip)%nat) as [Hg|Hg]; [|exists k; by rewrite <- Hsame by lia].
      rewrite (Hgap k v Hg Hk). by exists (base + skip)%nat.
    + destruct (decide (base < k < base + skip)%nat) as [Hg|Hg]; [|exists k; by rewrite Hsame by lia].
      exists base. rewrite Hsame by lia. rewrite Hx. f_equal. symmetry. apply (Heq k v); [lia|done].
  - intros m n u v Hm Hn Hu Hv. rewrite (Hsame m) in Hu by lia. destruct (decide (n = S base)) as [->|].
    + rewrite (Hgap (S base) v) by (auto; lia). destruct (decide (m = base)) as [->|]; [by simplify_eq|].
      trans x; [|done]. apply (Slt m base u x); auto; lia.
    + rewrite (Hsame n) in Hv by lia. apply (Slt m n u v); auto; lia.
  - intros m n u v Hm Hn Hu Hv. destruct (decide (m <= base + skip)%nat).
    + rewrite (Hgap m u) by (auto; lia). destruct (decide (n <= base + skip)%nat).
      * rewrite (Hgap n v) by (auto; lia). done.
      * rewrite (Hsame n) in Hv by lia. apply (Sle (base + skip)%nat n z v); auto; lia.
    + rewrite (Hsame m) in Hu by lia. rewrite (Hsame n) in Hv by lia. apply (Sle m n u v); auto; lia.
Qed.

(** The first [k] numbers of [a] are those of [a0], each once and in order. *)
Definition cut (a0 a : list Z) (k : nat) : Prop :=
  (1 <= k <= length a)%nat /\ length a = length a0 /\ same_elements (take k a) a0 /\ sorted_on Z.lt a 0 k.

Lemma cut_done a0 base a :
  cut_at a0 base a -> (base < length a)%nat ->
  (forall k x y, (base <= k)%nat -> a !! base = Some x -> a !! k = Some y -> y = x) -> cut a0 a (base + 1).
Proof.
  intros (L & El & Slt & Sle) Hb Heq. split; [lia|]. split; [done|]. split.
  - intros v. rewrite <- (El v), !list_elem_of_lookup. split; intros [k Hk].
    + apply lookup_take_Some in Hk as [Hk _]. by exists k.
    + destruct (decide (k <= base)%nat) as [|Hn]; [exists k; rewrite lookup_take_lt by lia; done|].
      destruct (lookup_lt_is_Some_2 a base Hb) as [x Hx]. exists base. rewrite lookup_take_lt by lia. rewrite Hx. f_equal.
      symmetry. apply (Heq k x v); auto; lia.
  - by replace (base + 1)%nat with (S base) by lia.
Qed.

Lemma unique_loop_ok a0 : forall fuel base a,
  (length a0 < fuel + base)%nat -> (base < length a0)%nat -> cut_at a0 base a ->
  exists a' k, unique_loop fuel a (length a0) base (base + 1) = Ok (a', k) /\ cut a0 a' k.
Proof.
  induction fuel as [|fuel IH]; intros base a Hf Hb C; [lia|]. cbn [unique_loop]. pose proof C as (L & El & Slt & Sle).
  destruct (Nat.ltb_spec (base + 1) (length a0)) as [Hlt|Hge].
  - destruct (lookup_lt_is_Some_2 a base ltac:(lia)) as [x Hx].
    destruct (lookup_lt_is_Some_2 a (base + 1) ltac:(lia)) as [y Hy]. rewrite Hx, Hy.
    destruct (Z.eqb_spec x y) as [<-|Hne].
    + destruct (skip_loop_ok a base x Hx Sle (S (length a0)) 1) as (skip & Es & Hs & Hbs & Heq & Hgt); [lia..| |].
      { intros k z Hk Hz. replace k with base in Hz by lia. by simplify_eq. }
      rewrite L in Es. rewrite Es. simpl. destruct (Nat.eqb_spec (base + skip) (length a0)) as [Hend|Hend].
      * exists a, (base + 1)%nat. split; [done|]. apply cut_done; [done|lia|]. intros k u v Hk Hu Hv. simplify_eq.
        apply (Heq k v); [|done]. pose proof (lookup_lt_Some _ _ _ Hv). lia.
      * destruct (lookup_lt_is_Some_2 a (base + skip) ltac:(lia)) as [z Hz].
        destruct (fill_ok a base skip z Hz Hs) as (b & Eb & Fb). rewrite Eb. simpl.
        destruct (IH (S base) b) as (a' & k & E & C'); [lia|lia|by apply (filled_cut a0 base skip a x z b); auto|].
        replace (S base + 1)%nat with (S (base + 1)) in E by lia. eauto.
    + destruct (IH (S base) a) as (a' & k & E & C'); [lia|lia| |].
      * split; [done|]. split; [done|]. split.
        -- intros m n u v Hm Hn Hu Hv. destruct (decide (n = S base)) as [->|]; [|apply (Slt m n u v); auto; lia].
           replace (S base) with (base + 1)%nat in Hv by lia.
           assert (x <= v) by (apply (Sle base (base + 1)%nat x v); auto; lia). assert (v = y) as -> by congruence.
           destruct (decide (m = base)) as [->|]; [simplify_eq; lia|].
           assert (u < x); [apply (Slt m base u x); auto; lia|]. lia.
        -- intros m n u v Hm Hn Hu Hv. apply (Sle m n u v); auto; lia.
      * replace (S base + 1)%nat with (S (base + 1)) in E by lia. eauto.
  - exists a, (base + 1)%nat. split; [done|]. apply cut_done; [done|lia|]. intros k u v Hk Hu Hv.
    pose proof (lookup_lt_Some _ _ _ Hv). replace k with base in Hv by lia. by simplify_eq.
Qed.

(** Sorting and cutting together. *)
Lemma sort_and_cut a0 :
  a0 <> [] -> exists a1 a k, rgz_bsort a0 (length a0) = Ok a1 /\ rgz_bunique a1 (length a1) = Ok (a, k) /\ cut a0 a k.
Proof.
  intros Hne. destruct (rgz_bsort_ok a0) as (a1 & E1 & L1 & El1 & So1).
  assert (0 < length a1)%nat by (destruct a0; [done|simpl in L1; lia]).
  destruct (unique_loop_ok a1 (S (length a1)) 0 a1) as (a & k & E & Hk & L & El & So); [lia|lia| |].
  - split; [done|]. split; [done|]. split; [|done]. intros m n; lia.
  - exists a1, a, k. split; [done|]. split; [done|]. split; [done|]. split; [congruence|]. split; [by etrans|done].
Qed.

(** ** Intervals *)

Lemma interval_of (a : list Z) k x lo hi :
  sorted_on Z.lt a 0 k -> (k <= length a)%nat -> lo ∈ take k a -> hi ∈ take k a -> lo <= x < hi ->
  exists r u v, (S r < k)%nat /\ a !! r = Some u /\ a !! S r = Some v /\ u <= x < v.
Proof.
  intros So Hk Hlo Hhi Hx. apply list_elem_of_lookup in Hlo as [i Hi]. apply list_elem_of_lookup in Hhi as [j Hj].
  apply lookup_take_Some in Hi as [Hi Hik], Hj as [Hj Hjk]. destruct Hx as [Hxl Hxh].
  assert (forall n i lo, a !! i = Some lo -> lo <= x -> (i < j)%nat -> (j - i <= n)%nat ->
    exists r u v, (S r < k)%nat /\ a !! r = Some u /\ a !! S r = Some v /\ u <= x < v) as Hgo.
  { clear i lo Hi Hik Hxl. intros n. induction n as [|n IH]; intros i lo Hi Hlo Hij Hn; [lia|].
    destruct (lookup_lt_is_Some_2 a (S i) ltac:(lia)) as [v Hv]. destruct (decide (x < v)) as [Hlt|Hge].
    - exists i, lo, v. split; [lia|auto].
    - destruct (decide (S i = j)) as [Heq|]; [rewrite Heq in Hv; rewrite Hj in Hv; injection Hv as ->; lia|]. apply (IH (S i) v); auto; lia. }
  apply (Hgo (j - i)%nat i lo); auto. destruct (decide (i < j)%nat) as [|Hn]; [done|exfalso].
  destruct (decide (i = j)) as [->|]; [simplify_eq; lia|].
  assert (hi < lo); [|lia]. apply (So j i hi lo); auto; lia.
Qed.

(** Nothing of a strictly sorted array lies between two neighbours. *)
Lemma no_gap (a : list Z) k r u v w :
  sorted_on Z.lt a 0 k -> (S r < k)%nat -> a !! r = Some u -> a !! S r = Some v -> w ∈ take k a -> w <= u \/ v <= w.
Proof.
  intros So Hr Hu Hv Hw. apply list_elem_of_lookup in Hw as [i Hi]. apply lookup_take_Some in Hi as [Hi Hik].
  destruct (decide (i <= r)%nat).
  - left. destruct (decide (i = r)) as [->|]; [simplify_eq; lia|]. assert (w < u); [apply (So i r w u); auto; lia|lia].
  - right. destruct (decide (i = S r)) as [->|]; [simplify_eq; lia|]. assert (v < w); [apply (So (S r) i v w); auto; lia|lia].
Qed.

Lemma interval_unique (a : list Z) k r r' u v u' v' x :
  sorted_on Z.lt a 0 k -> (S r < k)%nat -> (S r' < k)%nat -> a !! r = Some u -> a !! S r = Some v -> a !! r' = Some u' -> a !! S r' = Some v' ->
  u <= x < v -> u' <= x < v' -> r = r'.
Proof.
  intros So Hr Hr' Hu Hv Hu' Hv' Hx Hx'.
  assert (forall q q' w w', (S q < k)%nat -> (S q' < k)%nat -> (q < q')%nat -> a !! S q = Some w -> a !! q' = Some w' -> w <= w') as Hord.
  { intros q q' w w' Hq Hq' Hlt Hw Hw'. destruct (decide (S q = q')) as [<-|]; [simplify_eq; lia|].
    assert (w < w'); [apply (So (S q) q' w w'); auto; lia|lia]. }
  destruct (lt_eq_lt_dec r r') as [[Hlt|Heq]|Hlt]; [|done|]; exfalso.
  - pose proof (Hord r r' v u' Hr Hr' Hlt Hv Hu'). lia.
  - pose proof (Hord r' r v' u Hr' Hr Hlt Hv' Hu). lia.
Qed.
