(* ===== verification/RgzRegions.v ===== *)
(** * The regions of a frame

    [rgz_in_hwc] cuts the screen into rows at the tops and bottoms of the layers
    and each row into cells at their left and right sides: the cells tile the
    screen, and a layer covers either all points of a cell or none. *)

From stdpp Require Import base list numbers option.
From Stdlib Require Import ZArith Lia.
From S2P Require Import Prelude Stateful Rgz RgzLists.
From stdpp Require Import list.

Local Open Scope Z_scope.

(** ** Points and rectangles *)

Definition covers (f : blit_rect) (p : Z * Z) : Prop :=
  (r_left f <= p.1 < r_right f) /\ (r_top f <= p.2 < r_bottom f).

#[export] Instance covers_dec f p : Decision (covers f p).
Proof. unfold covers. apply _. Defined.

(** A layer with some of it on the screen. *)
Record on_screen (W H : Z) (f : blit_rect) : Prop := mk_on_screen {
  os_wide : r_left f < r_right f;
  os_high : r_top f < r_bottom f;
  os_x : r_left f < W /\ 0 < r_right f;
  os_y : r_top f < H /\ 0 < r_bottom f }.

(** A part of the screen, perhaps empty. *)
Definition inside (W H : Z) (d : blit_rect) : Prop :=
  0 <= r_left d <= W /\ 0 <= r_right d <= W /\ 0 <= r_top d <= H /\ 0 <= r_bottom d <= H.

Definition frame_at (cur : rgz_fb_state) (j : nat) : blit_rect :=
  match rgz_layers cur !! j with Some l => displayFrame (hwc_layer l) | None => zero_rect end.

Definition count_of (cur : rgz_fb_state) : nat := Z.to_nat (rgz_layerno cur).

(** A frame on a screen of width [W] and height [H], whose first layer is the background. *)
Record frame_ok (cur : rgz_fb_state) (W H : Z) : Prop := mk_frame_ok {
  fo_size : 0 < W /\ 0 < H;
  fo_some : 1 <= rgz_layerno cur <= 11;
  fo_room : (count_of cur <= length (rgz_layers cur))%nat;
  fo_ground : frame_at cur 0 = mk_rect 0 0 W H;
  fo_frames : forall j, (j < count_of cur)%nat -> on_screen W H (frame_at cur j) }.

Lemma intersects_spec a b :
  RECT_INTERSECTS a b = true <-> r_top b < r_bottom a /\ r_top a < r_bottom b /\ r_left b < r_right a /\ r_left a < r_right b.
Proof. unfold RECT_INTERSECTS. rewrite !andb_true_iff, !Z.ltb_lt. tauto. Qed.

Lemma frame_at_lookup cur j :
  (j < length (rgz_layers cur))%nat -> exists l, rgz_layers cur !! j = Some l /\ displayFrame (hwc_layer l) = frame_at cur j.
Proof. intros [l Hl]%lookup_lt_is_Some_2. exists l. unfold frame_at. by rewrite Hl. Qed.

(** ** Cuts of a side of the screen *)

Record cuts (a : list Z) (k : nat) (hi : Z) : Prop := mk_cuts {
  ct_sorted : sorted_on Z.lt a 0 k;
  ct_length : (k <= length a)%nat;
  ct_low : 0 ∈ take k a;
  ct_high : hi ∈ take k a;
  ct_range : forall x, x ∈ take k a -> 0 <= x <= hi }.

Lemma cuts_of a0 hi :
  0 ∈ a0 -> hi ∈ a0 -> (forall x, x ∈ a0 -> 0 <= x <= hi) ->
  exists a1 a k, rgz_bsort a0 (length a0) = Ok a1 /\ rgz_bunique a1 (length a1) = Ok (a, k) /\
    cuts a k hi /\ (1 <= k)%nat /\ (length a = length a0) /\ forall x, x ∈ a0 -> x ∈ take k a.
Proof.
  intros H0 Hh Hr. destruct (sort_and_cut a0) as (a1 & a & k & E1 & E2 & Hk & L & El & So); [by destruct a0; [apply not_elem_of_nil in H0|]|].
  exists a1, a, k. split; [done|]. split; [done|]. split; [|split; [lia|split; [done|intros x; apply El]]].
  split; [done|lia|by apply El|by apply El|]. intros x Hx. by apply Hr, El.
Qed.

#[local] Arguments push : simpl never.

Lemma push_fits a x : Z.of_nat (length a) < RGZ_SUBREGIONMAX -> push a x = Ok (a ++ [x]).
Proof. intros. unfold push. by rewrite (proj2 (Z.ltb_lt _ _)). Qed.

(** The coordinates collected from the first layers: all on the screen, with the
    two of each layer. *)
Definition collected (d1 d2 hi : Z) (lo_of hi_of : nat -> Z) (i : nat) (a : list Z) : Prop :=
  length a = (2 + 2 * i)%nat /\ d1 ∈ a /\ d2 ∈ a /\ (forall x, x ∈ a -> 0 <= x <= hi) /\
  forall j, (j < i)%nat -> Z.max 0 (lo_of j) ∈ a /\ Z.min (hi_of j) hi ∈ a.

Lemma collected_start d1 d2 hi lo_of hi_of : 0 <= d1 <= hi -> 0 <= d2 <= hi -> collected d1 d2 hi lo_of hi_of 0 [d1; d2].
Proof.
  intros H1 H2. split; [done|]. split; [by left|]. split; [by right; left|]. split; [|intros j; lia].
  intros x [->|[->|[]%elem_of_nil]%elem_of_cons]%elem_of_cons; done.
Qed.

Lemma collected_next d1 d2 hi lo_of hi_of i a :
  collected d1 d2 hi lo_of hi_of i a -> 0 <= hi -> lo_of i < hi -> 0 < hi_of i ->
  collected d1 d2 hi lo_of hi_of (S i) ((a ++ [Z.max 0 (lo_of i)]) ++ [Z.min (hi_of i) hi]).
Proof.
  intros (L & M1 & M2 & R & C) Hhi Hlo Hhi'. split; [rewrite !length_app, L; simpl; lia|].
  split; [rewrite !elem_of_app; auto|]. split; [rewrite !elem_of_app; auto|]. split.
  - intros x. rewrite !elem_of_app, !list_elem_of_singleton. intros [[Hx| ->]| ->]; [by apply R|lia|lia].
  - intros j Hj. rewrite !elem_of_app, !list_elem_of_singleton. destruct (decide (j = i)) as [->|]; [auto|].
    destruct (C j) as [? ?]; [lia|auto].
Qed.

Lemma y_entries_ok cur W H d :
  frame_ok cur W H -> inside W H d ->
  exists ys dispw, y_entries cur d H = Ok (ys, dispw) /\ W <= dispw /\
    collected (r_top d) (r_bottom d) H (fun j => r_top (frame_at cur j)) (fun j => r_bottom (frame_at cur j)) (count_of cur) ys.
Proof.
  intros F (Dl & Dr & Dt & Db). unfold y_entries. rewrite push_fits by (simpl; done). simpl.
  match goal with |- context [fold_outcome ?g ?b _] => destruct (fold_seq_inv (fun i '(ys, dispw) =>
      collected (r_top d) (r_bottom d) H (fun j => r_top (frame_at cur j)) (fun j => r_bottom (frame_at cur j)) i ys /\
      ((0 < i)%nat -> W <= dispw)) g (count_of cur) 0 b) as ([ys dispw] & E & C & Hw) end.
  - split; [by apply collected_start|lia].
  - intros i [ys dispw] Hi [C Hw]. pose proof (fo_room _ _ _ F). pose proof (fo_some _ _ _ F). unfold count_of in *.
    destruct (frame_at_lookup cur i) as (l & Hl & Hf); [lia|]. rewrite Hl, Hf. pose proof C as (L & _).
    rewrite push_fits by (rewrite L; change RGZ_SUBREGIONMAX with 25; simpl length; lia). simpl.
    rewrite push_fits by (rewrite length_app, L; change RGZ_SUBREGIONMAX with 25; simpl length; lia). simpl.
    eexists (_, _). split; [done|]. destruct (fo_frames _ _ _ F i ltac:(unfold count_of; lia)) as [_ Hh [_ _] [Ht Hb]]. destruct (fo_size _ _ _ F).
    split; [by apply collected_next; [done|lia|..]|]. intros _. destruct i as [|i].
    + rewrite (fo_ground _ _ _ F). simpl. case_match; bool_prop; lia.
    + specialize (Hw ltac:(lia)). case_match; bool_prop; lia.
  - exists ys, dispw. split; [done|]. pose proof (fo_some _ _ _ F). split; [|done]. apply Hw. unfold count_of. lia.
Qed.

(** ** The layers of a row *)

Definition row_layers (cur : rgz_fb_state) (r : blit_rect) (n : nat) : list nat :=
  filter (fun j => RECT_INTERSECTS r (frame_at cur j) = true) (seq 0 n).

Lemma row_layers_spec cur r n j : j ∈ row_layers cur r n <-> (j < n)%nat /\ RECT_INTERSECTS r (frame_at cur j) = true.
Proof. unfold row_layers. rewrite list_elem_of_filter, elem_of_seq. split; intros [? ?]; (split; [|lia || done]); [lia|done]. Qed.

Lemma row_layers_S cur r n :
  row_layers cur r (S n) = row_layers cur r n ++ (if RECT_INTERSECTS r (frame_at cur n) then [n] else []).
Proof.
  unfold row_layers. rewrite seq_S, filter_app. f_equal. simpl.
  destruct (RECT_INTERSECTS r (frame_at cur n)) eqn:E; [by rewrite filter_cons_True|by rewrite filter_cons_False by (by rewrite E)].
Qed.

Lemma row_layers_length cur r n : (length (row_layers cur r n) <= n)%nat.
Proof. unfold row_layers. etrans; [apply length_filter|by rewrite length_seq]. Qed.

(** The pointers of a row: those to its layers, then NULLs. *)
Definition row_pointers (js : list nat) : list (option nat) := (Some <$> js) ++ replicate (13 - length js) None.

Lemma row_pointers_lookup js l j : js !! l = Some j -> row_pointers js !! l = Some (Some j).
Proof.
  intros Hl. pose proof (lookup_lt_Some _ _ _ Hl). unfold row_pointers. rewrite lookup_app_l by (rewrite length_fmap; lia).
  by rewrite list_lookup_fmap, Hl.
Qed.

Lemma row_pointers_add js j : (length js < 13)%nat -> <[length js := Some j]> (row_pointers js) = row_pointers (js ++ [j]).
Proof.
  intros Hl. unfold row_pointers. rewrite insert_app_r_alt by (by rewrite length_fmap). rewrite length_fmap, Nat.sub_diag.
  replace (13 - length js)%nat with (S (13 - length (js ++ [j]))) by (rewrite length_app; simpl; lia). simpl.
  by rewrite fmap_app, <- app_assoc.
Qed.

Lemma make_region_ok cur W H ys dispw i top bottom :
  frame_ok cur W H -> W <= dispw -> ys !! i = Some top -> ys !! S i = Some bottom ->
  let r := mk_rect 0 top W bottom in
  let js := row_layers cur r (count_of cur) in
  make_region cur dispw W ys i = Ok (mk_hregion r (row_pointers js) (Z.of_nat (length js)) 0 (blitrects zero_hregion)).
Proof.
  intros F Hd Ht Hb r js. unfold make_region, offset_at. rewrite Ht, Nat.add_1_r, Hb. simpl.
  assert ((if W <? dispw then W else dispw) = W) as -> by (case_match; bool_prop; lia).
  destruct (fold_seq_inv (fun j h => h = mk_hregion r (row_pointers (row_layers cur r j)) (Z.of_nat (length (row_layers cur r j))) 0
    (blitrects zero_hregion)) (region_add cur) (count_of cur) 0
    (mk_hregion r (hr_layers zero_hregion) 0 0 (blitrects zero_hregion))) as (h & E & ->); [done| |exact E].
  intros j h Hj ->. pose proof (fo_room _ _ _ F). pose proof (fo_some _ _ _ F). unfold count_of in *.
  destruct (frame_at_lookup cur j) as (l & Hl & Hf); [lia|]. unfold region_add. rewrite Hl, Hf, row_layers_S. cbn [hr_rect].
  pose proof (row_layers_length cur r j). destruct (RECT_INTERSECTS r (frame_at cur j)).
  - cbn [nlayers hr_layers]. assert (length (row_pointers (row_layers cur r j)) = 13%nat) as ->.
    { unfold row_pointers. rewrite length_app, length_fmap, length_replicate. lia. }
    rewrite (proj2 (Z.ltb_lt _ _)) by lia. rewrite Nat2Z.id, row_pointers_add by lia. eexists. split; [done|].
    rewrite length_app. simpl. f_equal. lia.
  - rewrite app_nil_r. by eexists.
Qed.

(** ** The cells of a row *)

(** The rectangle that [blitrects] has of a layer with the frame [f] in the cell [c]. *)
Definition cell_rect (c f : blit_rect) : blit_rect := if RECT_INTERSECTS c f then c else zero_rect.

Definition cell_of (os : list Z) (top bottom : Z) (s : nat) : blit_rect :=
  mk_rect (default 0 (os !! s)) top (default 0 (os !! S s)) bottom.

(** The table when the cells before [s] are filled, and in cell [s] the first [l] layers. *)
Definition table_ok (cell : nat -> blit_rect) (frame : nat -> blit_rect) (nl s l : nat) (t : list (list blit_rect)) : Prop :=
  length t = 13%nat /\ (forall row, row ∈ t -> length row = 25%nat) /\
  forall l' s', (l' < 13)%nat -> (s' < 25)%nat -> (row ← t !! l'; row !! s') =
    Some (if decide ((l' < nl)%nat /\ ((s' < s)%nat \/ s' = s /\ (l' < l)%nat)) then cell_rect (cell s') (frame l') else zero_rect).

Lemma set_rect_ok cell frame nl s l t :
  table_ok cell frame nl s l t -> (l < nl)%nat -> (nl <= 13)%nat -> (s < 25)%nat ->
  exists t', (if RECT_INTERSECTS (cell s) (frame l) then set_rect_at l s (cell s) t else Ok t) = Ok t' /\ table_ok cell frame nl s (S l) t'.
Proof.
  intros (L & R & T) Hl Hn Hs. destruct (lookup_lt_is_Some_2 t l ltac:(lia)) as [row Hrow].
  assert (length row = 25%nat) as Lr by (apply R; by eapply list_elem_of_lookup_2).
  destruct (RECT_INTERSECTS (cell s) (frame l)) eqn:E.
  - unfold set_rect_at. rewrite Hrow, Lr. rewrite (proj2 (Nat.ltb_lt _ _)) by done. eexists. split; [done|].
    split; [by rewrite length_insert|]. split.
    + intros row' (k & Hk)%list_elem_of_lookup. apply list_lookup_insert_Some in Hk as [(-> & <- & _)|[_ Hk]]; [by rewrite length_insert|].
      apply R. by eapply list_elem_of_lookup_2.
    + intros l' s' Hl' Hs'. destruct (decide (l = l')) as [<-|Hne].
      * rewrite list_lookup_insert_eq by lia. simpl. destruct (decide (s = s')) as [<-|Hns].
        -- rewrite list_lookup_insert_eq by lia. rewrite decide_True by lia. unfold cell_rect. by rewrite E.
        -- rewrite list_lookup_insert_ne by done. pose proof (T l s' Hl' Hs') as Ht. rewrite Hrow in Ht. simpl in Ht. rewrite Ht. f_equal.
           apply decide_ext. lia.
      * rewrite list_lookup_insert_ne by done. rewrite T by done. f_equal. apply decide_ext. lia.
  - exists t. split; [done|]. split; [done|]. split; [done|]. intros l' s' Hl' Hs'. rewrite T by done. f_equal.
    destruct (decide (l = l' /\ s = s')) as [[<- <-]|Hne].
    + rewrite decide_False by lia. rewrite decide_True by lia. unfold cell_rect. by rewrite E.
    + apply decide_ext. lia.
Qed.

(** What [rgz_gen_blitregions] makes of a row. *)
Record region (cur : rgz_fb_state) (W top bottom : Z) (h : blit_hregion) (os : list Z) (k : nat) : Prop := mk_region {
  rg_rect : hr_rect h = mk_rect 0 top W bottom;
  rg_layers : hr_layers h = row_pointers (row_layers cur (hr_rect h) (count_of cur));
  rg_nlayers : nlayers h = Z.of_nat (length (row_layers cur (hr_rect h) (count_of cur)));
  rg_cuts : cuts os k W;
  rg_sides : forall j, j ∈ row_layers cur (hr_rect h) (count_of cur) ->
    Z.max 0 (r_left (frame_at cur j)) ∈ take k os /\ Z.min (r_right (frame_at cur j)) W ∈ take k os;
  rg_nsub : nsubregions h = Z.of_nat k - 1;
  rg_small : (1 <= k <= 25)%nat;
  rg_cells : forall l j s, row_layers cur (hr_rect h) (count_of cur) !! l = Some j -> (S s < k)%nat ->
    rect_at h l s = Ok (cell_rect (cell_of os top bottom s) (frame_at cur j)) }.

Section Row.
Context (cur : rgz_fb_state) (W H top bottom : Z) (d : blit_rect) (F : frame_ok cur W H) (D : inside W H d).

Let r : blit_rect := mk_rect 0 top W bottom.
Let js : list nat := row_layers cur r (count_of cur).
Let h : blit_hregion := mk_hregion r (row_pointers js) (Z.of_nat (length js)) 0 (blitrects zero_hregion).

Lemma row_count : (length js <= 11)%nat.
Proof using F. pose proof (row_layers_length cur r (count_of cur)). pose proof (fo_some _ _ _ F). unfold js, count_of in *. lia. Qed.

Lemma row_layer l j : js !! l = Some j ->
  exists x, region_layer cur h l = Ok x /\ rgz_layers cur !! j = Some x /\ displayFrame (hwc_layer x) = frame_at cur j /\ (j < count_of cur)%nat.
Proof using F.
  intros Hl. assert (j ∈ js) as Hj by by eapply list_elem_of_lookup_2. apply row_layers_spec in Hj as [Hj _]. pose proof (fo_room _ _ _ F).
  destruct (frame_at_lookup cur j) as (x & Hx & Hf); [lia|]. exists x. unfold region_layer. cbn [hr_layers h].
  rewrite (row_pointers_lookup _ _ _ Hl), Hx. done.
Qed.

Definition row_frame (l : nat) : blit_rect := frame_at cur (default 0%nat (js !! l)).

Lemma row_layer_at l : (l < length js)%nat -> exists j, js !! l = Some j /\ row_frame l = frame_at cur j.
Proof using. intros [j Hj]%lookup_lt_is_Some_2. exists j. unfold row_frame. by rewrite Hj. Qed.

Lemma region_offsets_ok :
  exists a, region_offsets cur d h W = Ok a /\
    collected (r_left d) (r_right d) W (fun l => r_left (row_frame l)) (fun l => r_right (row_frame l)) (length js) a.
Proof using F D.
  destruct D as (Dl & Dr & _ & _). unfold region_offsets. rewrite push_fits by done. simpl. rewrite Nat2Z.id.
  apply fold_seq_inv; [by apply collected_start|]. intros l a Hl C. pose proof C as (L & _). pose proof row_count.
  destruct (row_layer_at l) as (j & Hj & Ef); [lia|]. destruct (row_layer l j Hj) as (x & Ex & _ & Fx & Hn). rewrite Ex. simpl. rewrite Fx, <- Ef.
  rewrite push_fits by (rewrite L; change RGZ_SUBREGIONMAX with 25; lia). simpl.
  rewrite push_fits by (rewrite length_app, L; change RGZ_SUBREGIONMAX with 25; simpl length; lia).
  eexists. split; [done|]. destruct (fo_frames _ _ _ F j Hn) as [Hw _ [Ha Hb] _]. destruct (fo_size _ _ _ F). rewrite <- Ef in *.
  apply (collected_next _ _ _ (fun l => r_left (row_frame l)) (fun l => r_right (row_frame l))); [done|lia..].
Qed.

(** The background is in every row. *)
Lemma row_ground : 0 <= top < bottom -> bottom <= H -> 0%nat ∈ js.
Proof using F.
  intros Ht Hb. apply row_layers_spec. pose proof (fo_some _ _ _ F). destruct (fo_size _ _ _ F). split; [unfold count_of; lia|].
  apply intersects_spec. rewrite (fo_ground _ _ _ F). simpl. lia.
Qed.

(** The whole row. *)
Lemma gen_blitregions_ok :
  0 <= top < bottom -> bottom <= H ->
  exists h' os k, rgz_gen_blitregions cur d h W = Ok h' /\ region cur W top bottom h' os k.
Proof using F D.
  intros Ht Hb. destruct region_offsets_ok as (a0 & E0 & L0 & _ & _ & R0 & C0). destruct (fo_size _ _ _ F) as [HW HH].
  pose proof (row_ground Ht Hb) as (l0 & Hl0)%list_elem_of_lookup. pose proof (lookup_lt_Some _ _ _ Hl0) as Hlt.
  assert (row_frame l0 = mk_rect 0 0 W H) as Hg by (unfold row_frame; rewrite Hl0; apply (fo_ground _ _ _ F)).
  destruct (C0 l0 Hlt) as [G1 G2]. rewrite Hg in G1, G2. simpl in G1, G2. rewrite Z.min_id in G2.
  destruct (cuts_of a0 W) as (a1 & os & k & E1 & E2 & Hc & Hk & La & Hin); [done..|].
  unfold rgz_gen_blitregions. rewrite E0. simpl. rewrite E1. simpl. rewrite E2. simpl. rewrite Nat2Z.id.
  pose proof row_count as Hcount. pose proof (ct_length _ _ _ Hc) as Hkl. assert (k <= 25)%nat as Hk25 by lia.
  destruct (fold_seq_inv (fun s => table_ok (cell_of os top bottom) row_frame (length js) s 0)
    (fun t s => l ← offset_at os s; l' ← offset_at os (s + 1);
       fold_outcome (fill_rect cur h (mk_rect l top l' bottom) s) t (seq 0 (length js))) (k - 1) 0 (blitrects zero_hregion)) as (t & Et & T).
  - split; [done|]. split; [intros row Hrow; apply elem_of_replicate in Hrow as [-> _]; done|].
    intros l' s' Hl' Hs'. change (blitrects zero_hregion) with (replicate 13 (replicate 25 zero_rect)).
    rewrite lookup_replicate_2 by done. cbn [mbind option_bind]. rewrite lookup_replicate_2 by done.
    by rewrite decide_False by lia.
  - intros s t Hs T. unfold offset_at. destruct (lookup_lt_is_Some_2 os s ltac:(lia)) as [u Hu].
    destruct (lookup_lt_is_Some_2 os (s + 1) ltac:(lia)) as [v Hv]. rewrite Hu, Hv. simpl.
    assert (mk_rect u top v bottom = cell_of os top bottom s) as -> by (unfold cell_of; rewrite Nat.add_1_r in Hv; by rewrite Hu, Hv).
    destruct (fold_seq_inv (fun l => table_ok (cell_of os top bottom) row_frame (length js) s l)
      (fill_rect cur h (cell_of os top bottom s) s) (length js) 0 t T) as (t' & Et' & T').
    + intros l b Hl Tb. destruct (row_layer_at l) as (j & Hj & Ef); [lia|]. destruct (row_layer l j Hj) as (x & Ex & _ & Fx & _).
      unfold fill_rect. rewrite Ex. simpl. rewrite Fx, <- Ef. apply set_rect_ok; [done|lia..].
    + exists t'. split; [done|]. destruct T' as (T1 & T2 & T3). split; [done|]. split; [done|]. intros l' s' Hl' Hs'. rewrite T3 by done.
      f_equal. apply decide_ext. lia.
  - simpl in Et. rewrite Et. simpl. eexists _, os, k. split; [done|]. destruct T as (T1 & T2 & T3). split; simpl; try done.
    + intros j (l & Hl)%list_elem_of_lookup. change (js !! l = Some j) in Hl.
      destruct (C0 l (lookup_lt_Some _ _ _ Hl)) as [S1 S2]. unfold row_frame in S1, S2. rewrite Hl in S1, S2. auto.
    + intros l j s Hl Hs. change (js !! l = Some j) in Hl. pose proof (lookup_lt_Some _ _ _ Hl). unfold rect_at. simpl.
      rewrite T3 by lia. rewrite decide_True by lia. unfold row_frame. by rewrite Hl.
Qed.
End Row.

(** ** The whole screen *)

Record tiling (cur : rgz_fb_state) (W H : Z) (hs : list blit_hregion) (ys : list Z) (k : nat) : Prop := mk_tiling {
  tl_cuts : cuts ys k H;
  tl_sides : forall j, (j < count_of cur)%nat ->
    Z.max 0 (r_top (frame_at cur j)) ∈ take k ys /\ Z.min (r_bottom (frame_at cur j)) H ∈ take k ys;
  tl_rows : length hs = (k - 1)%nat;
  tl_row : forall i h, hs !! i = Some h -> exists top bottom os n,
    ys !! i = Some top /\ ys !! S i = Some bottom /\ region cur W top bottom h os n }.

Lemma rgz_in_hwc_ok calloc_ok p r W H :
  s32 (g_width (in_dstgeom p)) = W -> s32 (g_height (in_dstgeom p)) = H -> has (rgz_state r) RGZ_STATE_INIT = true ->
  frame_ok (cur_fb_state r) W H -> inside W H (damaged_area r) ->
  runs (rgz_in_hwc calloc_ok p) r (fun rv r' =>
    cur_fb_state r' = cur_fb_state r /\ fb_state_idx r' = fb_state_idx r /\ fb_states r' = fb_states r /\ damaged_area r' = damaged_area r /\
    if calloc_ok then rv = 0 /\ has (rgz_state r') RGZ_REGION_DATA = true /\
      exists hs ys k, hregions r' = Some hs /\ nhregions r' = Z.of_nat (length hs) /\ tiling (cur_fb_state r) W H hs ys k
    else rv <> 0).
Proof.
  intros <- <- Hst F D. set (W := s32 (g_width (in_dstgeom p))) in *. set (H := s32 (g_height (in_dstgeom p))) in *.
  unfold rgz_in_hwc. st_get. rewrite Hst. simpl. st_get. pose proof (fo_some _ _ _ F) as Hn.
  change RGZ_SUBREGIONMAX with 25. rewrite (proj2 (Z.ltb_ge _ _)) by lia.
  eapply runs_step; [reflexivity|]. st_get. simpl.
  destruct (y_entries_ok (cur_fb_state r) W H (damaged_area r) F D) as (y0 & dispw & E0 & Hdw & L0 & _ & _ & R0 & C0).
  assert (0 < count_of (cur_fb_state r))%nat as Hpos by (unfold count_of; lia).
  destruct (C0 0%nat Hpos) as [G1 G2]. rewrite (fo_ground _ _ _ F) in G1, G2. simpl in G1, G2. rewrite Z.min_id in G2.
  destruct (cuts_of y0 H) as (y1 & ys & k & E1 & E2 & Hc & Hk & Ly & Hin); [done..|].
  change (y_entries (cur_fb_state r) (damaged_area r) (s32 (g_height (in_dstgeom p)))) with (y_entries (cur_fb_state r) (damaged_area r) H).
  unfold lift. rewrite E0. eapply runs_step; [reflexivity|]. simpl. rewrite E1. eapply runs_step; [reflexivity|]. simpl.
  rewrite E2. eapply runs_step; [reflexivity|]. simpl. st_mod. destruct calloc_ok; simpl.
  2: { by apply st_runs_ret. }
  destruct (map_outcome_all (make_region (cur_fb_state r) dispw W ys)
    (fun i h => exists top bottom, ys !! i = Some top /\ ys !! S i = Some bottom /\
       let rr := mk_rect 0 top W bottom in let js := row_layers (cur_fb_state r) rr (count_of (cur_fb_state r)) in
       h = mk_hregion rr (row_pointers js) (Z.of_nat (length js)) 0 (blitrects zero_hregion)) (seq 0 (k - 1))) as (hs0 & Eh0 & Fh0).
  { intros i Hi%elem_of_seq. pose proof (ct_length _ _ _ Hc). destruct (lookup_lt_is_Some_2 ys i ltac:(lia)) as [top Ht].
    destruct (lookup_lt_is_Some_2 ys (S i) ltac:(lia)) as [bottom Hb]. eexists. split; [by apply (make_region_ok _ W H)|]. exists top, bottom. auto. }
  destruct (map_outcome_all (fun h => rgz_gen_blitregions (cur_fb_state r) (damaged_area r) h W)
    (fun h h' => exists os n, region (cur_fb_state r) W (r_top (hr_rect h)) (r_bottom (hr_rect h)) h' os n) hs0) as (hs & Eh & Fh).
  { intros h [i Hi]%list_elem_of_lookup. destruct (Forall2_lookup_r _ _ _ _ _ Fh0 Hi) as (i' & Hi' & top & bottom & Ht & Hb & ->).
    apply lookup_seq in Hi' as [-> Hik]. simpl in Ht, Hb. simpl.
    assert (0 <= top < bottom /\ bottom <= H) as [HA HB].
    { assert (top < bottom) by (apply (ct_sorted _ _ _ Hc i (S i)); auto; lia).
      destruct (ct_range _ _ _ Hc top); [apply list_elem_of_lookup; exists i; rewrite lookup_take_lt by lia; done|].
      destruct (ct_range _ _ _ Hc bottom); [apply list_elem_of_lookup; exists (S i); rewrite lookup_take_lt by lia; done|]. lia. }
    destruct (gen_blitregions_ok (cur_fb_state r) W H top bottom (damaged_area r) F D HA HB) as (h' & os & n & E & Rg). eauto. }
  change (s32 (g_width (in_dstgeom p))) with W. rewrite Eh0. eapply runs_step; [reflexivity|]. simpl. rewrite Eh. eapply runs_step; [reflexivity|].
  st_mod. st_mod. apply st_runs_ret. simpl. split_and!; try done.
  - unfold has, truth. rewrite negb_true_iff, Z.eqb_neq. intros Hz. apply (f_equal (fun z => Z.testbit z 1)) in Hz.
    by rewrite Z.land_spec, Z.lor_spec, orb_true_r in Hz.
  - pose proof (Forall2_length _ _ _ Fh0) as Ln. rewrite length_seq in Ln. pose proof (Forall2_length _ _ _ Fh) as Ln'.
    exists hs, ys, k. split; [done|]. split; [lia|]. split; [done| |lia|].
    + intros j Hj. destruct (C0 j Hj). auto.
    + intros i h Hh. destruct (Forall2_lookup_r _ _ _ _ _ Fh Hh) as (h0 & Hh0 & os & n & Rg).
      destruct (Forall2_lookup_r _ _ _ _ _ Fh0 Hh0) as (i' & Hi' & top & bottom & Ht & Hb & ->).
      apply lookup_seq in Hi' as [-> _]. simpl in *. eauto 10.
Qed.

(** ** Cells *)

Lemma covers_intersects c f p : covers c p -> covers f p -> RECT_INTERSECTS c f = true.
Proof. unfold covers. intros [? ?] [? ?]. apply intersects_spec. lia. Qed.

(** The cell [s] of a row: what [blitrects] has of the background. *)
Definition subregion (h : blit_hregion) (s : nat) : blit_rect := match rect_at h 0 s with Ok r => r | Fault _ => zero_rect end.

Lemma nonempty_rect r : r_left r < r_right r -> empty_rect r = false.
Proof.
  intros Hlt. unfold empty_rect. destruct (Z.eqb_spec (r_left r) 0), (Z.eqb_spec (r_right r) 0); simpl; try lia;
    by rewrite ?andb_false_r.
Qed.

Section Cells.
Context (cur : rgz_fb_state) (W H top bottom : Z) (h : blit_hregion) (os : list Z) (k : nat).
Context (F : frame_ok cur W H) (R : region cur W top bottom h os k) (Hy : 0 <= top < bottom /\ bottom <= H).

Let js : list nat := row_layers cur (hr_rect h) (count_of cur).

Lemma offsets_at s : (S s < k)%nat -> exists u v, os !! s = Some u /\ os !! S s = Some v /\ 0 <= u < v /\ v <= W.
Proof using R.
  intros Hs. pose proof (rg_cuts _ _ _ _ _ _ _ R) as C. pose proof (ct_length _ _ _ C).
  destruct (lookup_lt_is_Some_2 os s ltac:(lia)) as [u Hu]. destruct (lookup_lt_is_Some_2 os (S s) ltac:(lia)) as [v Hv].
  exists u, v. assert (u < v) by (apply (ct_sorted _ _ _ C s (S s)); auto; lia).
  destruct (ct_range _ _ _ C u); [apply list_elem_of_lookup; exists s; by rewrite lookup_take_lt by lia|].
  destruct (ct_range _ _ _ C v); [apply list_elem_of_lookup; exists (S s); by rewrite lookup_take_lt by lia|]. auto with lia.
Qed.

Lemma cell_shape s : (S s < k)%nat -> exists u v, os !! s = Some u /\ os !! S s = Some v /\ cell_of os top bottom s = mk_rect u top v bottom /\
  0 <= u < v /\ v <= W.
Proof using R.
  intros Hs. destruct (offsets_at s Hs) as (u & v & Hu & Hv & Hlt & Hw). exists u, v. unfold cell_of. rewrite Hu, Hv. auto.
Qed.

(** The first layer of the row is the background. *)
Lemma row_head : js !! 0%nat = Some 0%nat.
Proof using F R Hy.
  pose proof (fo_some _ _ _ F). destruct (fo_size _ _ _ F). destruct Hy as [[? ?] ?].
  assert (RECT_INTERSECTS (hr_rect h) (frame_at cur 0) = true) as Hi.
  { rewrite (rg_rect _ _ _ _ _ _ _ R), (fo_ground _ _ _ F). apply intersects_spec. simpl. lia. }
  unfold js, row_layers. destruct (count_of cur) as [|n] eqn:E; [unfold count_of in E; lia|]. simpl.
  by rewrite filter_cons_True.
Qed.

Lemma subregion_eq s : (S s < k)%nat -> subregion h s = cell_of os top bottom s.
Proof using F R Hy.
  intros Hs. destruct (cell_shape s Hs) as (u & v & _ & _ & Ec & Hlt & Hv). unfold subregion.
  rewrite (rg_cells _ _ _ _ _ _ _ R 0 0 s row_head Hs). unfold cell_rect.
  assert (RECT_INTERSECTS (cell_of os top bottom s) (frame_at cur 0) = true) as ->; [|done].
  rewrite Ec, (fo_ground _ _ _ F). apply intersects_spec. destruct (fo_size _ _ _ F). simpl. lia.
Qed.

(** A cell is not cut by any layer of its row. *)
Lemma cell_uniform s j p :
  (S s < k)%nat -> j ∈ js -> covers (cell_of os top bottom s) p ->
  (r_top (frame_at cur j) <= top /\ bottom <= r_bottom (frame_at cur j)) ->
  (covers (frame_at cur j) p <-> RECT_INTERSECTS (cell_of os top bottom s) (frame_at cur j) = true).
Proof using R.
  intros Hs Hj Hp Hrow. split; [by apply covers_intersects|]. rewrite intersects_spec.
  destruct (cell_shape s Hs) as (u & v & Hu & Hv & Ec & Hlt & Hw). rewrite Ec in *. destruct Hp as [Hpx Hpy]. simpl in *.
  destruct (rg_sides _ _ _ _ _ _ _ R j Hj) as [S1 S2]. pose proof (rg_cuts _ _ _ _ _ _ _ R) as C.
  destruct (no_gap os k s u v _ (ct_sorted _ _ _ C) Hs Hu Hv S1), (no_gap os k s u v _ (ct_sorted _ _ _ C) Hs Hu Hv S2);
    intros (? & ? & ? & ?); split; simpl; lia.
Qed.
End Cells.

Section Screen.
Context (cur : rgz_fb_state) (W H : Z) (hs : list blit_hregion) (ys : list Z) (k : nat).
Context (F : frame_ok cur W H) (T : tiling cur W H hs ys k).

Lemma row_bounds i top bottom : (S i < k)%nat -> ys !! i = Some top -> ys !! S i = Some bottom -> 0 <= top < bottom /\ bottom <= H.
Proof using T.
  intros Hi Ht Hb. pose proof (tl_cuts _ _ _ _ _ _ T) as C.
  assert (top < bottom) by (apply (ct_sorted _ _ _ C i (S i)); auto; lia).
  destruct (ct_range _ _ _ C top); [apply list_elem_of_lookup; exists i; by rewrite lookup_take_lt by lia|].
  destruct (ct_range _ _ _ C bottom); [apply list_elem_of_lookup; exists (S i); by rewrite lookup_take_lt by lia|]. lia.
Qed.

(** The rows do not cut a layer either. *)
Lemma row_uniform i top bottom j y :
  (S i < k)%nat -> ys !! i = Some top -> ys !! S i = Some bottom -> (j < count_of cur)%nat -> top <= y < bottom ->
  r_top (frame_at cur j) <= y < r_bottom (frame_at cur j) -> r_top (frame_at cur j) <= top /\ bottom <= r_bottom (frame_at cur j).
Proof using T.
  intros Hi Ht Hb Hj Hy Hf. destruct (tl_sides _ _ _ _ _ _ T j Hj) as [S1 S2]. pose proof (tl_cuts _ _ _ _ _ _ T) as C.
  destruct (row_bounds i top bottom Hi Ht Hb) as [[? ?] ?].
  destruct (no_gap ys k i top bottom _ (ct_sorted _ _ _ C) Hi Ht Hb S1), (no_gap ys k i top bottom _ (ct_sorted _ _ _ C) Hi Ht Hb S2); lia.
Qed.

(** A cell of the screen, with what is known about it. *)
Record cell_at (i s : nat) (h : blit_hregion) : Prop := mk_cell_at {
  ca_row : hs !! i = Some h;
  ca_sub : (s < Z.to_nat (nsubregions h))%nat }.

Lemma cell_facts i s h : cell_at i s h ->
  exists top bottom os n, ys !! i = Some top /\ ys !! S i = Some bottom /\ (S i < k)%nat /\ (S s < n)%nat /\
    region cur W top bottom h os n /\ (0 <= top < bottom /\ bottom <= H) /\ subregion h s = cell_of os top bottom s.
Proof using F T.
  intros [Hh Hs]. destruct (tl_row _ _ _ _ _ _ T i h Hh) as (top & bottom & os & n & Ht & Hb & R).
  pose proof (lookup_lt_Some _ _ _ Hh). pose proof (tl_rows _ _ _ _ _ _ T). rewrite (rg_nsub _ _ _ _ _ _ _ R) in Hs.
  assert (S i < k)%nat as Hi by lia. pose proof (row_bounds i top bottom Hi Ht Hb) as Hy. exists top, bottom, os, n.
  split_and!; try done; try lia. apply (subregion_eq cur W H top bottom h os n F R Hy). lia.
Qed.

(** Every point of the screen is in a cell. *)
Lemma cell_exists p : 0 <= p.1 < W -> 0 <= p.2 < H -> exists i s h, cell_at i s h /\ covers (subregion h s) p.
Proof using F T.
  intros Hx Hy. pose proof (tl_cuts _ _ _ _ _ _ T) as C.
  destruct (interval_of ys k p.2 0 H (ct_sorted _ _ _ C) (ct_length _ _ _ C) (ct_low _ _ _ C) (ct_high _ _ _ C) Hy) as (i & top & bottom & Hi & Ht & Hb & Hp).
  pose proof (tl_rows _ _ _ _ _ _ T). destruct (lookup_lt_is_Some_2 hs i ltac:(lia)) as [h Hh].
  destruct (tl_row _ _ _ _ _ _ T i h Hh) as (top' & bottom' & os & n & Ht' & Hb' & R). simplify_eq.
  pose proof (rg_cuts _ _ _ _ _ _ _ R) as C'.
  destruct (interval_of os n p.1 0 W (ct_sorted _ _ _ C') (ct_length _ _ _ C') (ct_low _ _ _ C') (ct_high _ _ _ C') Hx) as (s & u & v & Hs & Hu & Hv & Hpx).
  pose proof (row_bounds i top bottom Hi Ht Hb) as Hyb. exists i, s, h. split.
  - split; [done|]. rewrite (rg_nsub _ _ _ _ _ _ _ R). lia.
  - rewrite (subregion_eq cur W H top bottom h os n F R Hyb s Hs). unfold cell_of. rewrite Hu, Hv. done.
Qed.

(** No point is in two. *)
Lemma cell_unique p i s h i' s' h' :
  cell_at i s h -> cell_at i' s' h' -> covers (subregion h s) p -> covers (subregion h' s') p -> i = i' /\ s = s' /\ h = h'.
Proof using F T.
  intros A A' Hp Hp'. destruct (cell_facts i s h A) as (top & bottom & os & n & Ht & Hb & Hi & Hs & R & Hy & E).
  destruct (cell_facts i' s' h' A') as (top' & bottom' & os' & n' & Ht' & Hb' & Hi' & Hs' & R' & Hy' & E').
  pose proof (tl_cuts _ _ _ _ _ _ T) as C. destruct (cell_shape cur W top bottom h os n R s Hs) as (u & v & Hu & Hv & Ec & _).
  rewrite E, Ec in Hp. destruct Hp as [Hpx Hpy]. simpl in Hpx, Hpy.
  assert (top' <= p.2 < bottom') as Hpy' by (rewrite E' in Hp'; apply Hp').
  assert (i = i') as <- by by apply (interval_unique ys k i i' top bottom top' bottom' p.2 (ct_sorted _ _ _ C)).
  destruct A as [Hh _], A' as [Hh' _]. assert (h = h') as <- by congruence. split; [done|]. split; [|done].
  assert (n = n') as <- by (pose proof (rg_nsub _ _ _ _ _ _ _ R); pose proof (rg_nsub _ _ _ _ _ _ _ R'); lia).
  destruct (cell_shape cur W top bottom h os n R s' Hs') as (u' & v' & Hu' & Hv' & Ec' & _).
  rewrite (subregion_eq cur W H top bottom h os n F R Hy s' Hs'), Ec' in Hp'. destruct Hp' as [Hpx' _]. simpl in Hpx'.
  by apply (interval_unique os n s s' u v u' v' p.1 (ct_sorted _ _ _ (rg_cuts _ _ _ _ _ _ _ R))).
Qed.
End Screen.
