(* ===== verification/RgzEngine.v ===== *)
(** * What the regionizer expects of the 2D engine

    A blit draws a rectangle of the screen from one source or two, which it may
    turn, flip and scale.  [Engine] is an engine: its blits, the pixels it
    fetches and how it blends them; [EngineLaws] is what a list of blits relies
    on.  [layer_sample] is what a window shows at a point by the transform of the
    hardware composer: flips first, then a quarter turn clockwise. *)

From stdpp Require Import base list numbers option.
From Stdlib Require Import ZArith Lia Qcanon Field.
From S2P Require Import Prelude Stateful Rgz RgzLists RgzRegions.
From stdpp Require Import list.

Local Open Scope Z_scope.

(** ** Places in a picture *)

Definition mid : Qc := (1 / 2)%Qc.

Lemma mid_mid : (1 - mid = mid)%Qc.
Proof. by apply Qc_is_canon. Qed.

(** The middle of a pixel. *)
Definition centre (x : Z) : Qc := (Qc_of_Z x + mid)%Qc.

(** Where [q] of the side of length [dw] at [dl] comes from, when it shows the
    side of length [w] at [l]. *)
Definition place (flip : bool) (l w : Z) (q : Qc) (dl dw : Z) : Qc :=
  (let u := (q - Qc_of_Z dl) / Qc_of_Z dw in Qc_of_Z l + (if flip then 1 - u else u) * Qc_of_Z w)%Qc.

Lemma Qc_of_Z_nonzero w : w <> 0 -> Qc_of_Z w <> 0%Qc.
Proof. intros Hw E. rewrite <- Z2Qc_inj_0 in E. by apply Z2Qc_inj in E. Qed.

(** Without scaling a side is shifted. *)
Lemma place_same l w q dl : w <> 0 -> place false l w q dl w = (Qc_of_Z l + (q - Qc_of_Z dl))%Qc.
Proof. intros Hw. unfold place. field. by apply Qc_of_Z_nonzero. Qed.

Lemma place_flipped l w q dl : w <> 0 -> place true l w q dl w = (Qc_of_Z l + Qc_of_Z w - (q - Qc_of_Z dl))%Qc.
Proof. intros Hw. unfold place. field. by apply Qc_of_Z_nonzero. Qed.

(** [p] in the view of a picture of the given size that is turned by [o] degrees. *)
Definition turn (o : Z) : Z := o mod 360.
Definition view_pixel (o w h : Z) (p : Z * Z) : Z * Z :=
  if turn o =? 0 then p
  else if turn o =? 90 then (h - 1 - p.2, p.1)
  else if turn o =? 180 then (w - 1 - p.1, h - 1 - p.2)
  else (p.2, w - 1 - p.1).

(** The place in a picture of a place in its view. *)
Definition unview (o w h : Z) (q : Qc * Qc) : Qc * Qc :=
  (if turn o =? 0 then q
   else if turn o =? 90 then (q.2, Qc_of_Z h - q.1)
   else if turn o =? 180 then (Qc_of_Z w - q.1, Qc_of_Z h - q.2)
   else (Qc_of_Z w - q.2, q.1))%Qc.

(** A place in a buffer, and how the buffer is laid out. *)
Record sample := mk_sample { s_buffer : Z; s_surface : bvsurfgeom; s_place : Qc * Qc }.

(** ** Reading a blit *)

(** A view whose sides are exchanged. *)
Definition sideways (o : Z) : bool := truth (Z.rem o 180).

(** The picture that a geometry is a view of. *)
Definition surface_of (g : bvsurfgeom) : bvsurfgeom :=
  set_g_orientation 0 (if sideways (g_orientation g) then swap_geom g else g).

Definition in_bvrect (r : bvrect) (p : Z * Z) : Prop :=
  bv_left r <= p.1 < bv_left r + bv_width r /\ bv_top r <= p.2 < bv_top r + bv_height r.

#[export] Instance in_bvrect_dec r p : Decision (in_bvrect r p).
Proof. unfold in_bvrect. apply _. Defined.

Definition dst_pixel (e : rgz_blt_entry) (p : Z * Z) : Z * Z :=
  let g := surface_of (dstgeom e) in view_pixel (g_orientation (dstgeom e)) (g_width g) (g_height g) p.

(** The points that a blit draws. *)
Definition area (e : rgz_blt_entry) (p : Z * Z) : Prop :=
  in_bvrect (dstrect e) (dst_pixel e p) /\ in_bvrect (cliprect e) (dst_pixel e p).

#[export] Instance area_dec e p : Decision (area e p).
Proof. unfold area. apply _. Defined.

Definition horz_flip (is_src2 : bool) (e : rgz_blt_entry) : bool :=
  has (e_flags e) (if is_src2 then BVFLAG_HORZ_FLIP_SRC2 else BVFLAG_HORZ_FLIP_SRC1).
Definition vert_flip (is_src2 : bool) (e : rgz_blt_entry) : bool :=
  has (e_flags e) (if is_src2 then BVFLAG_VERT_FLIP_SRC2 else BVFLAG_VERT_FLIP_SRC1).

(** What a source shows at [p]; [bufs] knows the buffers by their numbers. *)
Definition source (bufs : Z -> Z) (is_src2 : bool) (e : rgz_blt_entry) (p : Z * Z) : sample :=
  let r := srcrect is_src2 e in
  let g := srcgeom is_src2 e in
  let s := surface_of g in
  let q := dst_pixel e p in
  mk_sample (bufs (d_auxptr (srcdesc is_src2 e))) s
    (unview (g_orientation g) (g_width s) (g_height s)
       (place (horz_flip is_src2 e) (bv_left r) (bv_width r) (centre q.1) (bv_left (dstrect e)) (bv_width (dstrect e)),
        place (vert_flip is_src2 e) (bv_top r) (bv_height r) (centre q.2) (bv_top (dstrect e)) (bv_height (dstrect e)))).

(** The screen itself as the second source, at the place that is drawn. *)
Definition src2_is_screen (e : rgz_blt_entry) : Prop :=
  d_auxptr (src2desc e) = HWC_BLT_DESC_FB_FN 0 /\ src2rect e = dstrect e /\ src2geom e = dstgeom e.
(** A second source in a buffer. *)
Definition src2_is_buffer (e : rgz_blt_entry) : Prop := 0 <= d_auxptr (src2desc e) < 2 ^ 16.
(** The source that stands for cleared pixels, and a source in a buffer. *)
Definition src1_is_clear (e : rgz_blt_entry) : Prop := d_auxptr (src1desc e) = u32 (-1).
Definition src1_is_buffer (e : rgz_blt_entry) : Prop := 0 <= d_auxptr (src1desc e) < 2 ^ 16.

(** ** Engines *)

Class Engine (px : Type) := {
  cleared : px;
  fetch : sample -> px;
  over : px -> px -> px;
  blit : (Z -> Z) -> rgz_blt_entry -> (Z * Z -> px) -> Z * Z -> px }.

Class EngineLaws (px : Type) `{Engine px} := {
  over_cleared a : over a cleared = a;
  blit_outside bufs e scr p : ~ area e p -> blit bufs e scr p = scr p;
  blit_copy bufs e scr p : area e p -> e_op e = Rop 0xCCCC -> src1_is_buffer e -> blit bufs e scr p = fetch (source bufs false e p);
  blit_clear bufs e scr p : area e p -> e_op e = Rop 0xCCCC -> src1_is_clear e -> blit bufs e scr p = cleared;
  blit_over_screen bufs e scr p : area e p -> e_op e = Blend_SRC1OVER -> src1_is_buffer e -> src2_is_screen e ->
    blit bufs e scr p = over (fetch (source bufs false e p)) (scr p);
  blit_over_buffer bufs e scr p : area e p -> e_op e = Blend_SRC1OVER -> src1_is_buffer e -> src2_is_buffer e ->
    blit bufs e scr p = over (fetch (source bufs false e p)) (fetch (source bufs true e p)) }.

(** Blits are done in order. *)
Definition blits {px} `{Engine px} (bufs : Z -> Z) (es : list rgz_blt_entry) (scr : Z * Z -> px) : Z * Z -> px :=
  foldl (fun s e => blit bufs e s) scr es.

(** ** What a window shows *)

(** The layout of a buffer. *)
Definition surface (h : IMG_native_handle) : bvsurfgeom :=
  mk_geom (hal_to_ocd (iFormat h)) (iWidth h) (iHeight h) 0 (rgz_handle_to_stride h).

Definition layer_place (l : hwc_layer_1) (p : Z * Z) : Qc * Qc :=
  let f := displayFrame l in
  let c := sourceCrop l in
  let flip_h := has (transform l) HWC_TRANSFORM_FLIP_H in
  let flip_v := has (transform l) HWC_TRANSFORM_FLIP_V in
  if has (transform l) HWC_TRANSFORM_ROT_90
  then (place flip_h (r_left c) (WIDTH c) (centre p.2) (r_top f) (HEIGHT f),
        place (negb flip_v) (r_top c) (HEIGHT c) (centre p.1) (r_left f) (WIDTH f))
  else (place flip_h (r_left c) (WIDTH c) (centre p.1) (r_left f) (WIDTH f),
        place flip_v (r_top c) (HEIGHT c) (centre p.2) (r_top f) (HEIGHT f)).

Definition layer_sample (h : IMG_native_handle) (l : hwc_layer_1) (p : Z * Z) : sample :=
  mk_sample (handle l) (surface h) (layer_place l p).
