(* ===== verification/RgzEntries.v ===== *)
(** * The blits of a window

    A copy or a blend of a window in a rectangle draws that part of the
    rectangle that is on the screen, and takes every pixel from the place of the
    buffer that the window shows there, under the turns and flips of its
    transform: [set_operation_area] and [set_operation_source]. *)

From stdpp Require Import base list numbers option.
From Stdlib Require Import ZArith Lia Qcanon Field.
From S2P Require Import Prelude Stateful Rgz RgzLists RgzRegions RgzEngine.
From stdpp Require Import list.

Local Open Scope Z_scope.

(** ** Numbers *)

(** Far from the ends of an [int]: coordinates, and what they are moved and turned to. *)
Definition near (b z : Z) : Prop := - b <= z <= b.
Definition BOUND : Z := 1048576.
Definition WIDE : Z := 268435456.

Lemma s32_small z : - 2 ^ 31 <= z < 2 ^ 31 -> s32 z = z.
Proof.
  intros Hz. unfold s32. destruct (decide (0 <= z)).
  - rewrite Z.mod_small by lia. by rewrite decide_True by lia.
  - replace (z mod 2 ^ 32) with (z + 2 ^ 32) by (apply (Z.mod_unique_pos _ _ (-1)); lia). rewrite decide_False by lia. lia.
Qed.

Record near_rect (b : Z) (r : blit_rect) : Prop := mk_near_rect {
  nr_left : near b (r_left r);
  nr_top : near b (r_top r);
  nr_right : near b (r_right r);
  nr_bottom : near b (r_bottom r);
  nr_wide : r_left r < r_right r;
  nr_high : r_top r < r_bottom r }.

Lemma near_wide r : near_rect BOUND r -> near_rect WIDE r.
Proof. intros [? ? ? ? ? ?]. unfold near, BOUND, WIDE in *. split; unfold near; lia. Qed.

Lemma to_bvrect_near r : near_rect WIDE r -> to_bvrect r = mk_bvrect (r_left r) (r_top r) (WIDTH r) (HEIGHT r).
Proof. intros [? ? ? ? ? ?]. unfold to_bvrect, WIDTH, HEIGHT, near, WIDE in *. by rewrite !wrapU_small by lia. Qed.

Lemma of_bvrect_near r : near_rect WIDE r -> of_bvrect (to_bvrect r) = r.
Proof.
  intros N. rewrite to_bvrect_near by done. destruct N as [? ? ? ? ? ?], r as [a b c d]. unfold of_bvrect, WIDTH, HEIGHT, near, WIDE in *; simpl in *.
  rewrite !s32_small by lia. f_equal; lia.
Qed.

(** ** What a window needs to be drawn *)

Record drawable (native : Z -> option IMG_native_handle) (l : rgz_layer) (h : IMG_native_handle) : Prop := mk_drawable {
  dr_native : native (handle (hwc_layer l)) = Some h;
  dr_size : 0 < iWidth h <= BOUND /\ 0 < iHeight h <= BOUND;
  dr_crop : near_rect BOUND (sourceCrop (hwc_layer l));
  dr_frame : near_rect BOUND (displayFrame (hwc_layer l));
  dr_index : 0 <= buffidx l < 2 ^ 16;
  dr_flips : is_NV12 (iFormat h) = false \/ rgz_hwc_scaled (hwc_layer l) = false ->
    has (transform (hwc_layer l)) HWC_TRANSFORM_FLIP_H = has (transform (hwc_layer l)) HWC_TRANSFORM_FLIP_V }.

(** A screen. *)
Record screen_ok (g : bvsurfgeom) (W H : Z) : Prop := mk_screen_ok {
  so_width : g_width g = W;
  so_height : g_height g = H;
  so_size : 0 < W <= BOUND /\ 0 < H <= BOUND }.

(** A rectangle to be drawn: a part of it is on the screen. *)
Record target (W H : Z) (c : blit_rect) : Prop := mk_target {
  tg_near : near_rect BOUND c;
  tg_on : on_screen W H c }.

Definition clipped (W H : Z) (c : blit_rect) : blit_rect :=
  mk_rect (Z.max 0 (r_left c)) (Z.max 0 (r_top c)) (Z.min W (r_right c)) (Z.min H (r_bottom c)).

Lemma clip_near W H c : 0 < W <= BOUND /\ 0 < H <= BOUND -> target W H c -> near_rect BOUND (clipped W H c).
Proof. intros HS [[? ? ? ? ? ?] [? ? [? ?] [? ?]]]. unfold near, BOUND in *. split; simpl; unfold near in *; lia. Qed.

Lemma set_clip_rect_ok g W H c e :
  screen_ok g W H -> target W H c -> rgz_set_clip_rect g c e = set_cliprect (to_bvrect (clipped W H c)) e.
Proof.
  intros [Ew Eh HS] [[? ? ? ? ? ?] [? ? [? ?] [? ?]]]. unfold rgz_set_clip_rect, umin, clipped, near, BOUND in *. rewrite Ew, Eh.
  rewrite !wrapU_small by lia. rewrite !s32_small by lia. done.
Qed.

(** Compute the remainders of constants. *)
Ltac rems :=
  repeat match goal with |- context [Z.rem ?a ?b] => let c := eval vm_compute in (Z.rem a b) in change (Z.rem a b) with c end;
  repeat match goal with |- context [turn ?a] => let c := eval vm_compute in (turn a) in change (turn a) with c end.

(** ** Turned rectangles *)

(** [r], a part of a picture of the given size, in the view that is turned by [o] degrees. *)
Definition turned (o w h : Z) (r : blit_rect) : blit_rect :=
  if turn o =? 0 then r
  else if turn o =? 90 then mk_rect (h - r_bottom r) (r_left r) (h - r_top r) (r_right r)
  else if turn o =? 180 then mk_rect (w - r_right r) (h - r_bottom r) (w - r_left r) (h - r_top r)
  else mk_rect (r_top r) (w - r_right r) (r_bottom r) (w - r_left r).

Definition shift (r : blit_rect) (x y : Z) : blit_rect := mk_rect (r_left r + x) (r_top r + y) (r_right r + x) (r_bottom r + y).

(** The angles that occur. *)
Definition quarter (o : Z) : Prop := exists k, (-4 <= k <= 4) /\ o = 90 * k.

Lemma quarter_cases o : quarter o -> o ∈ [-360; -270; -180; -90; 0; 90; 180; 270; 360].
Proof.
  intros (k & Hk & ->). rewrite !elem_of_cons.
  assert (k = -4 \/ k = -3 \/ k = -2 \/ k = -1 \/ k = 0 \/ k = 1 \/ k = 2 \/ k = 3 \/ k = 4) as Hc by lia.
  repeat (destruct Hc as [-> | Hc]; [auto 12|]). subst. auto 12.
Qed.

Ltac quarters H :=
  apply quarter_cases in H; repeat (apply elem_of_cons in H as [-> | H]); [..|by apply elem_of_nil in H].

Lemma rotated_view_ok outer inner o :
  quarter o -> rgz_get_rotated_view outer inner o =
    Ok (turned o (WIDTH outer) (HEIGHT outer) (shift inner (- r_left outer) (- r_top outer))).
Proof.
  intros Q. quarters Q; unfold rgz_get_rotated_view, turned; rems; simpl; unfold shift, WIDTH, HEIGHT; simpl; do 2 f_equal; lia.
Qed.

Lemma rem_half o : quarter o -> truth (Z.rem o 180) = (turn o =? 90) || (turn o =? 270).
Proof. intros Q. quarters Q; by vm_compute. Qed.

Lemma view_turned o w h r p : near_rect BOUND r -> 0 <= w <= BOUND -> 0 <= h <= BOUND -> quarter o ->
  in_bvrect (to_bvrect (turned o w h r)) (view_pixel o w h p) <-> covers r p.
Proof.
  intros [? ? ? ? ? ?] Hw Hh Q. unfold near, BOUND, in_bvrect, covers in *.
  quarters Q; unfold turned, view_pixel; rems; simpl; unfold WIDTH, HEIGHT; simpl; rewrite !wrapU_small by lia; lia.
Qed.

(** ** Places in turned pictures *)

Lemma place_mirror f a b x q dl dw : dw <> 0 ->
  (Qc_of_Z x - place f (x - b) (b - a) q dl dw = place (negb f) a (b - a) q dl dw)%Qc.
Proof.
  intros Hd. unfold place. rewrite !Z2Qc_inj_sub. pose proof (Qc_of_Z_nonzero _ Hd).
  destruct f; simpl; field; done.
Qed.

Lemma centre_mirror x y : centre (x - 1 - y) = (Qc_of_Z x - centre y)%Qc.
Proof.
  unfold centre. rewrite !Z2Qc_inj_sub, Z2Qc_inj_1. transitivity (Qc_of_Z x - Qc_of_Z y - (1 - mid))%Qc; [ring|].
  rewrite mid_mid. ring.
Qed.

Lemma place_seen f l w x y a b : b - a <> 0 ->
  place f l w (centre (x - 1 - y)) (x - b) (b - a) = place (negb f) l w (centre y) a (b - a).
Proof.
  intros Hd. rewrite centre_mirror. unfold place. rewrite !Z2Qc_inj_sub.
  pose proof (Qc_of_Z_nonzero _ Hd) as Hn. rewrite Z2Qc_inj_sub in Hn. destruct f; simpl; field; done.
Qed.

(** ** A source *)

Lemma near_turned o w h r b : near_rect b r -> 0 <= w <= BOUND -> 0 <= h <= BOUND -> 0 <= b <= 8 * BOUND -> near_rect WIDE (turned o w h r).
Proof.
  intros [? ? ? ? ? ?] Hw Hh Hb. unfold near, BOUND, WIDE in *. unfold turned.
  repeat case_match; split; unfold near; simpl; lia.
Qed.

Lemma near_shift r x y b c : near_rect b r -> near c x -> near c y -> near_rect (b + c) (shift r x y).
Proof. intros [? ? ? ? ? ?] ? ?. unfold near in *. split; unfold near; simpl; lia. Qed.

Lemma near_more r b c : near_rect b r -> b <= c -> near_rect c r.
Proof. intros [? ? ? ? ? ?] ?. unfold near in *. split; unfold near; simpl; lia. Qed.

Lemma quarter_orientation t : quarter (rgz_get_orientation t) /\ quarter (0 - rgz_get_orientation t) /\ quarter (360 - rgz_get_orientation t).
Proof.
  unfold rgz_get_orientation. destruct (has t HWC_TRANSFORM_FLIP_H && has t HWC_TRANSFORM_FLIP_V), (has t HWC_TRANSFORM_ROT_90);
    simpl; split_and!; first [by exists 0 | by exists 1 | by exists 2 | by exists 3 | by exists 4 | by exists (-1) | by exists (-2) | by exists (-3)].
Qed.

(** The part of the buffer that a window shows in [rect]; all of it when it is scaled. *)
Definition part (l : hwc_layer_1) (rect : blit_rect) : blit_rect :=
  if rgz_hwc_scaled l then sourceCrop l else
  let f := displayFrame l in
  shift (turned (0 - rgz_get_orientation (transform l)) (WIDTH f) (HEIGHT f) (shift rect (- r_left f) (- r_top f)))
    (r_left (sourceCrop l)) (r_top (sourceCrop l)).

Lemma get_src_rect_ok l rect : rgz_get_src_rect l rect = Ok (part l rect).
Proof.
  unfold rgz_get_src_rect, part. destruct (rgz_hwc_scaled l); [done|].
  rewrite rotated_view_ok by apply quarter_orientation. done.
Qed.

Lemma turned_bound o w h r b : near_rect b r -> 0 <= w <= 2 * BOUND -> 0 <= h <= 2 * BOUND -> near_rect (b + 2 * BOUND) (turned o w h r).
Proof. intros [? ? ? ? ? ?] Hw Hh. unfold near in *. unfold turned. repeat case_match; split; unfold near; simpl; lia. Qed.

Lemma part_near native l h rect : drawable native l h -> near_rect BOUND rect -> near_rect (8 * BOUND) (part (hwc_layer l) rect).
Proof.
  intros D N. unfold part. destruct (rgz_hwc_scaled (hwc_layer l)); [eapply near_more; [apply (dr_crop _ _ _ D)|unfold BOUND; lia]|].
  destruct (dr_frame _ _ _ D), (dr_crop _ _ _ D). eapply near_more; [|instantiate (1 := BOUND + BOUND + 2 * BOUND + BOUND); unfold BOUND; lia].
  apply near_shift; [|done..]. unfold near in *. apply turned_bound; [apply near_shift; [done|unfold near; lia..]|unfold WIDTH; lia|unfold HEIGHT; lia].
Qed.

(** A buffer's geometry when it is seen turned. *)
Definition seen (h : IMG_native_handle) (o : Z) : bvsurfgeom :=
  mk_geom (hal_to_ocd (iFormat h)) (if truth (Z.rem o 180) then iHeight h else iWidth h)
    (if truth (Z.rem o 180) then iWidth h else iHeight h) o (rgz_handle_to_stride h).

Lemma surface_seen h o : surface_of (seen h o) = surface h.
Proof. unfold surface_of, seen, surface, sideways, swap_geom, set_g_orientation. simpl. by destruct (truth (Z.rem o 180)). Qed.

Lemma set_src_data_ok native l h rect e o is2 :
  drawable native l h -> near_rect BOUND rect -> quarter o ->
  exists d, d_auxptr d = buffidx l /\
  rgz_set_src_data native l rect e o is2 =
    Ok (set_src is2 (to_bvrect (turned o (iWidth h) (iHeight h) (part (hwc_layer l) rect))) (seen h o) d e).
Proof.
  intros D N Q. unfold rgz_set_src_data, native_of. rewrite (dr_native _ _ _ D), get_src_rect_ok. cbn [mbind outcome_bind].
  pose proof (dr_size _ _ _ D) as Hs. pose proof (dr_index _ _ _ D). unfold BOUND in Hs. rewrite !(wrapU_small 32 (iWidth h)), !(wrapU_small 32 (iHeight h)), (wrapU_small 32 (buffidx l)) by lia.
  exists (mk_desc (u32 (iHeight h * rgz_handle_to_stride h)) (buffidx l)). split; [done|].
  destruct (truth o) eqn:Eo; [unfold rgz_rotate_src|].
  - assert (forall r g d, srcrect is2 (set_src is2 r g d e) = r /\ srcgeom is2 (set_src is2 r g d e) = g /\ srcdesc is2 (set_src is2 r g d e) = d) as Hset
      by by destruct is2.
    destruct (Hset (to_bvrect (part (hwc_layer l) rect)) (set_g_orientation o (mk_geom (hal_to_ocd (iFormat h)) (iWidth h) (iHeight h) 0 (rgz_handle_to_stride h)))
      (mk_desc (u32 (iHeight h * rgz_handle_to_stride h)) (buffidx l))) as (-> & -> & ->).
    rewrite of_bvrect_near by (eapply near_more; [by eapply part_near|unfold BOUND, WIDE; lia]).
    rewrite rotated_view_ok by done. unfold geom_rect, WIDTH, HEIGHT. simpl. rewrite !s32_small, !Z.sub_0_r by lia.
    assert (forall r, shift r 0 0 = r) as -> by (intros [? ? ? ?]; unfold shift; simpl; f_equal; lia).
    unfold seen, swap_geom, set_g_orientation. f_equal. destruct is2, (truth (Z.rem o 180)); done.
  - unfold truth in Eo. apply negb_false_iff, Z.eqb_eq in Eo as ->. done.
Qed.

(** ** The destination *)

(** The geometry of the screen when it is seen turned. *)
Definition seen_screen (g : bvsurfgeom) (o : Z) : bvsurfgeom :=
  mk_geom (g_format g) (if sideways o then g_height g else g_width g) (if sideways o then g_width g else g_height g) o (g_virtstride g).

Lemma set_dst_data_ok g W H rect c e o :
  screen_ok g W H -> near_rect BOUND rect -> near_rect BOUND c -> cliprect e = to_bvrect c -> quarter o ->
  rgz_set_dst_data g rect e o =
    Ok (set_dstgeom (seen_screen g o) (set_cliprect (to_bvrect (turned o W H c)) (set_dstrect (to_bvrect (turned o W H rect)) e))).
Proof.
  intros [Ew Eh HS] N Nc Ec Q. unfold rgz_set_dst_data. destruct (truth o) eqn:Eo.
  - unfold rgz_rotate_dst. simpl. rewrite Ec, !of_bvrect_near by by apply near_wide. rewrite !rotated_view_ok by done.
    unfold geom_rect, WIDTH, HEIGHT, BOUND in *. simpl. rewrite !s32_small, !Z.sub_0_r by lia. rewrite Ew, Eh.
    assert (forall r, shift r 0 0 = r) as Hsh by (intros [? ? ? ?]; unfold shift; simpl; f_equal; lia). rewrite !Hsh. simpl.
    f_equal. unfold seen_screen, swap_geom, sideways. rewrite Ew, Eh. by destruct (truth (Z.rem o 180)).
  - unfold truth in Eo. apply negb_false_iff, Z.eqb_eq in Eo as ->. destruct e. simpl in *. by subst.
Qed.

(** The flips of a transform that is no turn by 180 degrees. *)
Definition flips (is_src2 : bool) (t : Z) (e : rgz_blt_entry) : Prop :=
  horz_flip is_src2 e = has t HWC_TRANSFORM_FLIP_H && negb (has t HWC_TRANSFORM_FLIP_V) /\
  vert_flip is_src2 e = has t HWC_TRANSFORM_FLIP_V && negb (has t HWC_TRANSFORM_FLIP_H).

(** How the blit of a window turns the destination and the source. *)
Definition dst_turn (h : IMG_native_handle) (t : Z) : Z := if is_NV12 (iFormat h) then 360 - rgz_get_orientation t else 0.
Definition src_turn (h : IMG_native_handle) (t : Z) : Z := if is_NV12 (iFormat h) then 0 else rgz_get_orientation t.

(** The rectangle that the blit of [l] in [c] asks for. *)
Definition asked (l : hwc_layer_1) (c : blit_rect) : blit_rect := if rgz_hwc_scaled l then displayFrame l else c.

(** What the operation on source 1 leaves in a blit. *)
Record operation (g : bvsurfgeom) (W H : Z) (op : bvop) (c : blit_rect) (l : rgz_layer) (h : IMG_native_handle) (e0 e : rgz_blt_entry) : Prop := mk_operation {
  op_op : e_op e = op;
  op_aux : d_auxptr (src1desc e) = buffidx l;
  op_flips : flips false (transform (hwc_layer l)) e;
  op_noflips : horz_flip true e = false /\ vert_flip true e = false;
  op_dst : dstrect e = to_bvrect (turned (dst_turn h (transform (hwc_layer l))) W H (asked (hwc_layer l) c));
  op_clip : cliprect e = to_bvrect (turned (dst_turn h (transform (hwc_layer l))) W H (clipped W H c));
  op_geom : dstgeom e = seen_screen g (dst_turn h (transform (hwc_layer l)));
  op_src : src1rect e = to_bvrect (turned (src_turn h (transform (hwc_layer l))) (iWidth h) (iHeight h) (part (hwc_layer l) (asked (hwc_layer l) c)));
  op_srcgeom : src1geom e = seen h (src_turn h (transform (hwc_layer l)));
  op_rest : src2rect e = src2rect e0 /\ src2geom e = src2geom e0 /\ src2desc e = src2desc e0 /\ e_batchflags e = e_batchflags e0 }.

Lemma turn_quarter h t : quarter (dst_turn h t) /\ quarter (src_turn h t).
Proof.
  unfold dst_turn, src_turn. destruct (quarter_orientation t) as (? & ? & ?). destruct (is_NV12 (iFormat h)); split; try done; by exists 0.
Qed.

Lemma flip_flags f t : f ∈ [BVFLAG_ROP; BVFLAG_BLEND] -> forall e, flips false t (set_e_flags (Z.lor (Z.lor (Z.lor BVFLAG_CLIP f) (rgz_get_flip_flags t false)) BVFLAG_ASYNC) e) /\
  horz_flip true (set_e_flags (Z.lor (Z.lor (Z.lor BVFLAG_CLIP f) (rgz_get_flip_flags t false)) BVFLAG_ASYNC) e) = false /\
  vert_flip true (set_e_flags (Z.lor (Z.lor (Z.lor BVFLAG_CLIP f) (rgz_get_flip_flags t false)) BVFLAG_ASYNC) e) = false.
Proof.
  intros Hf e. unfold flips, horz_flip, vert_flip, rgz_get_flip_flags. simpl.
  destruct (has t HWC_TRANSFORM_FLIP_H), (has t HWC_TRANSFORM_FLIP_V);
    apply elem_of_cons in Hf as [->|[->|[]%elem_of_nil]%elem_of_cons]; by vm_compute.
Qed.

Lemma set_operation_ok native g W H op f c l h e0 :
  screen_ok g W H -> target W H c -> drawable native l h -> f ∈ [BVFLAG_ROP; BVFLAG_BLEND] ->
  exists e, set_operation native g op f c l e0 = Ok e /\ operation g W H op c l h e0 e.
Proof.
  intros S T D Hf. pose proof (quarter_orientation (transform (hwc_layer l))) as (Q & _ & Q').
  destruct (turn_quarter h (transform (hwc_layer l))) as [Qd Qs].
  assert (near_rect BOUND (asked (hwc_layer l) c)) as Na by (unfold asked; destruct (rgz_hwc_scaled _); [apply D|apply T]).
  pose proof (clip_near W H c (so_size _ _ _ S) T) as Nc.
  unfold set_operation. set (e1 := rgz_set_async true _).
  assert (exists e2, (if rgz_hwc_scaled (hwc_layer l)
     then e ← rgz_cfg_scale_mode native e1 (hwc_layer l); Ok (rgz_get_displayframe_rect (hwc_layer l), e) else Ok (c, e1)) = Ok (asked (hwc_layer l) c, e2) /\
     e_flags e2 = e_flags e1 /\ e_op e2 = op /\ e_batchflags e2 = e_batchflags e0 /\ src2rect e2 = src2rect e0 /\ src2geom e2 = src2geom e0 /\ src2desc e2 = src2desc e0) as (e2 & -> & Ef & Eo & Er).
  { unfold asked. destruct (rgz_hwc_scaled (hwc_layer l)).
    - unfold rgz_cfg_scale_mode, rgz_is_layer_nv12, native_of. rewrite (dr_native _ _ _ D). eexists. by split.
    - eexists. by split. }
  cbn [mbind outcome_bind]. unfold rgz_is_layer_nv12, native_of. rewrite (dr_native _ _ _ D). cbn [mbind outcome_bind].
  set (t := transform (hwc_layer l)) in *.
  assert ((if is_NV12 (iFormat h) then (360 - rgz_get_orientation t, 0) else (0, rgz_get_orientation t)) = (dst_turn h t, src_turn h t)) as ->
    by (unfold dst_turn, src_turn; by destruct (is_NV12 (iFormat h))).
  destruct (set_src_data_ok native l h (asked (hwc_layer l) c) e2 (src_turn h t) false D Na Qs) as (d & Ed & ->). cbn [mbind outcome_bind].
  rewrite (set_clip_rect_ok g W H c) by done. rewrite (set_dst_data_ok g W H _ (clipped W H c)) by done.
  eexists. split; [done|]. destruct (flip_flags f t Hf e0) as [F1 F2]. destruct Er as (Eb & E2 & E3 & E4).
  split; simpl; try done; unfold flips, horz_flip, vert_flip in *; simpl in *; rewrite Ef; done.
Qed.

(** ** Points of a blit *)

Lemma view_source o w h r fh fv q1 q2 dl dw dt dh :
  near_rect (8 * BOUND) r -> 0 <= w <= BOUND -> 0 <= h <= BOUND -> quarter o -> dw <> 0 -> dh <> 0 ->
  let b := to_bvrect (turned o w h r) in
  unview o w h (place fh (bv_left b) (bv_width b) q1 dl dw, place fv (bv_top b) (bv_height b) q2 dt dh) =
  if turn o =? 0 then (place fh (r_left r) (WIDTH r) q1 dl dw, place fv (r_top r) (HEIGHT r) q2 dt dh)
  else if turn o =? 90 then (place fv (r_left r) (WIDTH r) q2 dt dh, place (negb fh) (r_top r) (HEIGHT r) q1 dl dw)
  else if turn o =? 180 then (place (negb fh) (r_left r) (WIDTH r) q1 dl dw, place (negb fv) (r_top r) (HEIGHT r) q2 dt dh)
  else (place (negb fv) (r_left r) (WIDTH r) q2 dt dh, place fh (r_top r) (HEIGHT r) q1 dl dw).
Proof.
  intros N Hw Hh Q Hdw Hdh b. unfold b. rewrite to_bvrect_near by (eapply near_turned; try done; unfold BOUND; lia). unfold turned, unview.
  assert (forall x a c, (x - a) - (x - c) = c - a) as Hd by (intros; lia).
  repeat case_match; unfold WIDTH, HEIGHT; simpl; rewrite ?Hd, ?place_mirror by done; done.
Qed.

Section Destination.
Context (o w h : Z) (r : blit_rect) (N : near_rect BOUND r) (Hw : 0 <= w <= BOUND) (Hh : 0 <= h <= BOUND) (Q : quarter o).

Lemma view_destination_x f x l p :
  let b := to_bvrect (turned o w h r) in
  place f x l (centre (view_pixel o w h p).1) (bv_left b) (bv_width b) =
  if turn o =? 0 then place f x l (centre p.1) (r_left r) (WIDTH r)
  else if turn o =? 90 then place (negb f) x l (centre p.2) (r_top r) (HEIGHT r)
  else if turn o =? 180 then place (negb f) x l (centre p.1) (r_left r) (WIDTH r)
  else place f x l (centre p.2) (r_top r) (HEIGHT r).
Proof using N Hw Hh Q.
  intros b. unfold b. rewrite to_bvrect_near by (eapply near_turned; try done; unfold BOUND; lia).
  destruct N as [_ _ _ _ ? ?]. unfold turned, view_pixel.
  assert (forall x a c, (x - a) - (x - c) = c - a) as Hd by (intros; lia).
  repeat case_match; unfold WIDTH, HEIGHT; simpl; rewrite ?Hd, ?place_seen by lia; done.
Qed.

Lemma view_destination_y f x l p :
  let b := to_bvrect (turned o w h r) in
  place f x l (centre (view_pixel o w h p).2) (bv_top b) (bv_height b) =
  if turn o =? 0 then place f x l (centre p.2) (r_top r) (HEIGHT r)
  else if turn o =? 90 then place f x l (centre p.1) (r_left r) (WIDTH r)
  else if turn o =? 180 then place (negb f) x l (centre p.2) (r_top r) (HEIGHT r)
  else place (negb f) x l (centre p.1) (r_left r) (WIDTH r).
Proof using N Hw Hh Q.
  intros b. unfold b. rewrite to_bvrect_near by (eapply near_turned; try done; unfold BOUND; lia).
  destruct N as [_ _ _ _ ? ?]. unfold turned, view_pixel.
  assert (forall x a c, (x - a) - (x - c) = c - a) as Hd by (intros; lia).
  repeat case_match; unfold WIDTH, HEIGHT; simpl; rewrite ?Hd, ?place_seen by lia; done.
Qed.
End Destination.

(** A window that is not scaled is moved. *)
Lemma place_moved (f : bool) l w q a dw l' w' a' dw' :
  dw = w -> dw' = w' -> w <> 0 -> w' <> 0 -> (if f then l + w + a = l' + w' + a' else l - a = l' - a') ->
  place f l w q a dw = place f l' w' q a' dw'.
Proof.
  intros -> -> Hw Hw' E. destruct f.
  - rewrite !place_flipped by done. assert (Qc_of_Z (l + w + a) = Qc_of_Z (l' + w' + a')) as Eq by by rewrite E. rewrite !Z2Qc_inj_add in Eq.
    transitivity (Qc_of_Z l + Qc_of_Z w + Qc_of_Z a - q)%Qc; [ring|]. rewrite Eq. ring.
  - rewrite !place_same by done. assert (Qc_of_Z (l - a) = Qc_of_Z (l' - a')) as Eq by by rewrite E. rewrite !Z2Qc_inj_sub in Eq.
    transitivity (Qc_of_Z l - Qc_of_Z a + q)%Qc; [ring|]. rewrite Eq. ring.
Qed.

Section Operation.
Context (native : Z -> option IMG_native_handle) (g : bvsurfgeom) (W H : Z) (op : bvop) (c : blit_rect) (l : rgz_layer) (h : IMG_native_handle).
Context (e0 e : rgz_blt_entry).
Context (S : screen_ok g W H) (T : target W H c) (D : drawable native l h) (O : operation g W H op c l h e0 e).

#[local] Abbreviation t := (transform (hwc_layer l)).

Lemma asked_near : near_rect BOUND (asked (hwc_layer l) c).
Proof using D T. unfold asked. destruct (rgz_hwc_scaled _); [apply D|apply T]. Qed.

Lemma operation_pixel p : dst_pixel e p = view_pixel (dst_turn h t) W H p.
Proof using S O.
  unfold dst_pixel. rewrite (op_geom _ _ _ _ _ _ _ _ _ O). unfold surface_of, seen_screen. simpl. destruct S as [Ew Eh _]. rewrite Ew, Eh.
  by destruct (sideways (dst_turn h _)).
Qed.

(** The points drawn. *)
Lemma operation_area p : area e p <-> covers (asked (hwc_layer l) c) p /\ covers (clipped W H c) p.
Proof using S T D O.
  unfold area. rewrite operation_pixel, (op_dst _ _ _ _ _ _ _ _ _ O), (op_clip _ _ _ _ _ _ _ _ _ O).
  destruct (so_size _ _ _ S). pose proof (clip_near W H c (so_size _ _ _ S) T). pose proof asked_near.
  rewrite !view_turned by (try apply turn_quarter; try done; lia). done.
Qed.

Lemma operation_place p : s_place (source (fun z => z) false e p) = layer_place (hwc_layer l) p.
Proof using S T D O.
  unfold source. cbn [srcrect srcgeom srcdesc s_place]. rewrite operation_pixel.
  destruct (op_flips _ _ _ _ _ _ _ _ _ O) as [F1 F2]. rewrite F1, F2. clear F1 F2.
  rewrite (op_srcgeom _ _ _ _ _ _ _ _ _ O), surface_seen. cbn [seen surface g_width g_height g_orientation]. rewrite (op_src _ _ _ _ _ _ _ _ _ O), (op_dst _ _ _ _ _ _ _ _ _ O).
  destruct (turn_quarter h t) as [Qd Qs]. pose proof asked_near as Na. pose proof (part_near native l h _ D Na) as Np.
  destruct (dr_size _ _ _ D) as [Hw Hh]. destruct (so_size _ _ _ S) as [HW HH].
  assert (forall o r, quarter o -> near_rect BOUND r -> bv_width (to_bvrect (turned o W H r)) <> 0 /\ bv_height (to_bvrect (turned o W H r)) <> 0) as Hnz.
  { intros o r Q N. pose proof (near_turned o W H r BOUND N ltac:(lia) ltac:(lia) ltac:(unfold BOUND; lia)) as Nt.
    rewrite to_bvrect_near by done. destruct Nt. simpl. unfold WIDTH, HEIGHT. lia. }
  destruct (Hnz (dst_turn h t) _ Qd Na) as [Hnw Hnh].
  rewrite view_source by (done || lia). rewrite !view_destination_x, !view_destination_y by (done || lia).
  pose proof (dr_flips _ _ _ D) as Hf. unfold layer_place, dst_turn, src_turn, rgz_get_orientation.
  assert (rgz_hwc_scaled (hwc_layer l) = false ->
    WIDTH (displayFrame (hwc_layer l)) = (if has t HWC_TRANSFORM_ROT_90 then HEIGHT (sourceCrop (hwc_layer l)) else WIDTH (sourceCrop (hwc_layer l))) /\
    HEIGHT (displayFrame (hwc_layer l)) = (if has t HWC_TRANSFORM_ROT_90 then WIDTH (sourceCrop (hwc_layer l)) else HEIGHT (sourceCrop (hwc_layer l)))) as Hsame.
  { unfold rgz_hwc_scaled. destruct (has t HWC_TRANSFORM_ROT_90); rewrite orb_false_iff, !negb_false_iff, !Z.eqb_eq; done. }
  unfold part, asked, rgz_get_orientation. destruct (dr_frame _ _ _ D) as [_ _ _ _ ? ?], (dr_crop _ _ _ D) as [_ _ _ _ ? ?], (tg_near _ _ _ T) as [_ _ _ _ ? ?].
  destruct (is_NV12 (iFormat h)), (rgz_hwc_scaled (hwc_layer l)), (has t HWC_TRANSFORM_FLIP_H), (has t HWC_TRANSFORM_FLIP_V), (has t HWC_TRANSFORM_ROT_90);
    try (by specialize (Hf ltac:(auto))); simpl; try done;
    (destruct Hsame as [E1 E2]; [done|]); unfold WIDTH, HEIGHT, shift, turned in *; simpl in *; f_equal; apply place_moved; simpl; lia.
Qed.

(** What a window shows at [p], its buffer found by its number. *)
Definition shown (bufs : Z -> Z) (r : rgz_layer) (n : IMG_native_handle) (p : Z * Z) : sample :=
  mk_sample (bufs (buffidx r)) (surface n) (layer_place (hwc_layer r) p).

Lemma operation_source bufs p : source bufs false e p = shown bufs l h p.
Proof using S T D O.
  unfold shown. rewrite <- operation_place. unfold source. cbn [srcrect srcgeom srcdesc s_place].
  by rewrite (op_aux _ _ _ _ _ _ _ _ _ O), (op_srcgeom _ _ _ _ _ _ _ _ _ O), surface_seen.
Qed.

Lemma operation_buffer : src1_is_buffer e.
Proof using D O. unfold src1_is_buffer. rewrite (op_aux _ _ _ _ _ _ _ _ _ O). apply D. Qed.
End Operation.

(** ** What the blits do *)

(** The points of the screen where [l] is drawn when it is blitted in [c]. *)
Definition drawn (W H : Z) (c : blit_rect) (l : hwc_layer_1) (p : Z * Z) : Prop :=
  covers (asked l c) p /\ covers (clipped W H c) p.

(** A blit by what it draws: it covers, clears or blends in the points of [A]. *)
Inductive act := Copies (s : Z * Z -> sample) | Clears | Blends (s : Z * Z -> sample) | BlendsOn (s s2 : Z * Z -> sample).

Record acts (bufs : Z -> Z) (e : rgz_blt_entry) (A : Z * Z -> Prop) (a : act) : Prop := mk_acts {
  ac_area : forall p, area e p <-> A p;
  ac_op : e_op e = match a with Copies _ | Clears => Rop 0xCCCC | _ => Blend_SRC1OVER end;
  ac_src1 : match a with Clears => src1_is_clear e | Copies s | Blends s | BlendsOn s _ =>
    src1_is_buffer e /\ forall p, source bufs false e p = s p end;
  ac_src2 : match a with Blends _ => src2_is_screen e | BlendsOn _ s2 =>
    src2_is_buffer e /\ forall p, source bufs true e p = s2 p | _ => True end }.

(** Entries that differ in how they are carried out only. *)
Record same_blit (e e' : rgz_blt_entry) : Prop := mk_same_blit {
  sb_op : e_op e = e_op e';
  sb_flips : forall b, horz_flip b e = horz_flip b e' /\ vert_flip b e = vert_flip b e';
  sb_dst : dstrect e = dstrect e' /\ cliprect e = cliprect e';
  sb_geom : dstgeom e = dstgeom e';
  sb_src : forall b, srcrect b e = srcrect b e' /\ srcgeom b e = srcgeom b e' /\ srcdesc b e = srcdesc b e' }.

#[export] Instance same_blit_equiv : Equivalence same_blit.
Proof.
  split.
  - by intros e.
  - intros e e' [E1 E2 [E3 E4] E5 E6]. split; try done; intros b; destruct (E2 b), (E6 b) as (? & ? & ?); done.
  - intros e1 e2 e3 [A1 A2 [A3 A4] A5 A6] [B1 B2 [B3 B4] B5 B6].
    split; [by etrans|intros b; destruct (A2 b), (B2 b); split; by etrans|split; by etrans|by etrans|].
    intros b. destruct (A6 b) as (? & ? & ?), (B6 b) as (? & ? & ?). split_and!; by etrans.
Qed.

#[export] Instance area_proper : Proper (same_blit ==> eq ==> iff) area.
Proof. intros e e' [_ _ [E1 E2] E3 _] p ? <-. unfold area, dst_pixel. by rewrite E1, E2, E3. Qed.

#[export] Instance source_proper bufs : Proper (eq ==> same_blit ==> eq ==> eq) (source bufs).
Proof.
  intros b ? <- e e' [_ E2 [E1 _] E3 E4] p ? <-. unfold source, dst_pixel. destruct (E2 b) as [-> ->], (E4 b) as (-> & -> & ->).
  by rewrite E1, E3.
Qed.

#[export] Instance acts_proper bufs : Proper (same_blit ==> eq ==> eq ==> iff) (acts bufs).
Proof.
  assert (forall e e' A a, same_blit e e' -> acts bufs e A a -> acts bufs e' A a) as Himp.
  { intros e e' A a E [C1 C2 C3 C4]. pose proof E as [E1 _ [E2 _] E3 E4]. destruct (E4 false) as (_ & _ & D1), (E4 true) as (R2 & G2 & D2). simpl in *. split.
    - intros p. by rewrite <- E.
    - by rewrite <- E1.
    - destruct a; unfold src1_is_buffer, src1_is_clear in *; rewrite <- D1; try done; (destruct C3 as [? C3]; split; [done|]; intros p; by rewrite <- E).
    - destruct a; try done; unfold src2_is_screen, src2_is_buffer in *; [by rewrite <- R2, <- G2, <- D2, <- E2, <- E3|].
      rewrite <- D2. destruct C4 as [? C4]. split; [done|]. intros p. by rewrite <- E. }
  intros e e' E A ? <- a ? <-. split; apply Himp; [done|by symmetry].
Qed.

Section Acts.
Context (native : Z -> option IMG_native_handle) (g : bvsurfgeom) (W H : Z) (c : blit_rect) (S : screen_ok g W H) (T : target W H c) (bufs : Z -> Z).

Lemma copy_ok l h e0 : drawable native l h ->
  exists e, copy_entry native g c l e0 = Ok e /\ acts bufs e (drawn W H c (hwc_layer l)) (Copies (shown bufs l h)).
Proof using S T.
  intros D. unfold copy_entry.
  destruct (set_operation_ok native g W H (Rop 0xCCCC) BVFLAG_ROP c l h e0 S T D) as (e & -> & O); [by left|]. cbn [mbind outcome_bind].
  assert (acts bufs e (drawn W H c (hwc_layer l)) (Copies (shown bufs l h))) as C.
  { split; [intros p; by eapply operation_area|apply O| |done]. split; [by eapply operation_buffer|]. intros p. by eapply operation_source. }
  eexists. split; [done|].
  assert (forall f, acts bufs (set_dstgeom (set_g_format f (dstgeom e)) e) (drawn W H c (hwc_layer l)) (Copies (shown bufs l h))) as Cf.
  { intros f. destruct C as [C1 C2 C3 C4].
    assert (forall p, dst_pixel (set_dstgeom (set_g_format f (dstgeom e)) e) p = dst_pixel e p) as Hp.
    { intros p. unfold dst_pixel, surface_of, set_g_format, swap_geom, set_g_orientation. simpl. by destruct (sideways _). }
    split; [|done| |done].
    - intros p. rewrite <- C1. unfold area. by rewrite !Hp.
    - destruct C3 as [? C3]. split; [done|]. intros p. rewrite <- C3. unfold source. rewrite !Hp. done. }
  destruct (g_format (src1geom e)); done.
Qed.

Lemma blend_ok l h e0 : drawable native l h ->
  exists e, blend_entry native g c l None e0 = Ok e /\ acts bufs e (drawn W H c (hwc_layer l)) (Blends (shown bufs l h)).
Proof using S T.
  intros D. unfold blend_entry.
  destruct (set_operation_ok native g W H Blend_SRC1OVER BVFLAG_BLEND c l h e0 S T D) as (e & -> & O); [by right; left|]. cbn [mbind outcome_bind].
  eexists. split; [done|].
  assert (forall p, dst_pixel (rgz_set_src2_is_dst e) p = dst_pixel e p) as Hp by done. split.
  - intros p. transitivity (area e p); [done|]. by eapply operation_area.
  - apply O.
  - split; [change (src1_is_buffer e); by eapply operation_buffer|]. intros p.
    transitivity (source bufs false e p); [done|]. by eapply operation_source.
  - done.
Qed.

(** The second source read as the first. *)
Definition swap_sources (e : rgz_blt_entry) : rgz_blt_entry :=
  set_src true (src1rect e) (src1geom e) (src1desc e) (set_src false (src2rect e) (src2geom e) (src2desc e) e).

Lemma turned_flips is_src2 t (e : rgz_blt_entry) f1 f2 : has t HWC_TRANSFORM_FLIP_H = has t HWC_TRANSFORM_FLIP_V -> f1 = false -> f2 = false ->
  horz_flip is_src2 e = f1 -> vert_flip is_src2 e = f2 -> flips is_src2 t e.
Proof. intros E -> -> H1 H2. unfold flips. rewrite H1, H2, E. by destruct (has t HWC_TRANSFORM_FLIP_V). Qed.

Lemma blend_on_ok l h l2 h2 e0 : drawable native l h -> drawable native l2 h2 ->
  is_NV12 (iFormat h) = false -> is_NV12 (iFormat h2) = false -> rgz_hwc_scaled (hwc_layer l) = false -> rgz_hwc_scaled (hwc_layer l2) = false ->
  exists e, blend_entry native g c l (Some l2) e0 = Ok e /\ acts bufs e (drawn W H c (hwc_layer l)) (BlendsOn (shown bufs l h) (shown bufs l2 h2)).
Proof using S T.
  intros D D2 N N2 Sc Sc2. unfold blend_entry.
  destruct (set_operation_ok native g W H Blend_SRC1OVER BVFLAG_BLEND c l h e0 S T D) as (e & -> & O); [by right; left|]. cbn [mbind outcome_bind].
  unfold rgz_is_layer_nv12, native_of. rewrite (dr_native _ _ _ D2). cbn [mbind outcome_bind].
  set (t2 := transform (hwc_layer l2)). set (e1 := set_e_flags _ e).
  destruct (set_src_data_ok native l2 h2 c e1 (rgz_get_orientation t2) true D2 (tg_near _ _ _ T)) as (d & Ed & ->); [apply quarter_orientation|].
  eexists. split; [done|]. set (e2 := set_src _ _ _ _ _).
  pose proof (dr_flips _ _ _ D2 ltac:(auto)) as F2. pose proof (dr_flips _ _ _ D ltac:(auto)) as F1. fold t2 in F2.
  assert (rgz_get_flip_flags t2 true = 0) as Ef.
  { unfold rgz_get_flip_flags. rewrite F2. by destruct (has t2 HWC_TRANSFORM_FLIP_V). }
  assert (e_flags e2 = e_flags e) as Efl by (unfold e2, e1; simpl; rewrite Ef; by rewrite Z.lor_0_r).
  assert (e_flags (swap_sources e2) = e_flags e) as Efs by exact Efl.
  assert (horz_flip true e = false /\ vert_flip true e = false) as [Nh Nv] by apply O.
  destruct (op_flips _ _ _ _ _ _ _ _ _ O) as [Fh Fv]. rewrite F1 in Fh, Fv. rewrite andb_negb_r in Fh, Fv.
  assert (operation g W H Blend_SRC1OVER c l2 h2 (swap_sources e2) (swap_sources e2)) as O2.
  { destruct O as [O1 _ _ _ O5 O6 O7 _ _ _]. unfold dst_turn, src_turn, asked in *. rewrite N, Sc in *. rewrite ?N2, ?Sc2.
    split; unfold dst_turn, src_turn, asked; rewrite ?N2, ?Sc2; try done.
    - eapply turned_flips; [exact F2|reflexivity|reflexivity| |]; unfold horz_flip, vert_flip; rewrite Efs; [exact Fh|exact Fv].
    - unfold horz_flip, vert_flip. rewrite Efs. done. }
  split.
  - intros p. transitivity (area e p); [done|]. exact (operation_area native g W H _ c l h e0 e S T D O p).
  - apply O.
  - split; [exact (operation_buffer native g W H _ c l h e0 e D O)|]. intros p.
    transitivity (source bufs false e p); [|exact (operation_source native g W H _ c l h e0 e S T D O bufs p)]. unfold source, horz_flip, vert_flip. by rewrite Efl.
  - split; [unfold src2_is_buffer; simpl; rewrite Ed; apply D2|]. intros p.
    transitivity (source bufs false (swap_sources e2) p); [|exact (operation_source native g W H _ c l2 h2 _ _ S T D2 O2 bufs p)].
    unfold source, horz_flip, vert_flip in *. rewrite Efs, Efl, Nh, Nv, Fh, Fv. done.
Qed.

Lemma clear_ok rect e0 : (rect = Some c \/ (rect = None /\ c = mk_rect 0 0 W H)) ->
  exists e, clear_entry g rect e0 = Ok e /\ acts bufs e (fun p => covers c p /\ covers (clipped W H c) p) Clears.
Proof using S T.
  intros Hr. unfold clear_entry.
  assert ((match rect with Some r => r | None => mk_rect 0 0 (s32 (g_width g)) (s32 (g_height g)) end) = c) as ->.
  { destruct Hr as [-> | [-> ->]]; [done|]. destruct S as [Ew Eh HS]. unfold BOUND in HS. rewrite Ew, Eh, !s32_small by lia. done. }
  rewrite (set_clip_rect_ok g W H c) by done. pose proof (tg_near _ _ _ T) as N. pose proof (clip_near W H c (so_size _ _ _ S) T) as Nc.
  assert (quarter 0) as Q by by exists 0. rewrite (set_dst_data_ok g W H c (clipped W H c)) by done.
  eexists. split; [done|]. destruct (so_size _ _ _ S) as [HW HH]. destruct S as [Ew Eh _]. split; [|done..]. intros p.
  unfold area, dst_pixel, surface_of, seen_screen. simpl. rewrite Ew, Eh. rewrite !view_turned by (done || lia). done.
Qed.
End Acts.

(** ** How blits are carried out *)

Lemma keep_bits f m a b : Z.land a b = 0 -> Z.land m b = 0 -> Z.land (Z.lor (Z.ldiff f m) a) b = Z.land f b.
Proof.
  intros Ha Hm. apply Z.bits_inj'. intros i Hi. apply (f_equal (fun z => Z.testbit z i)) in Ha, Hm.
  rewrite Z.land_spec, Z.bits_0 in Ha, Hm. rewrite !Z.land_spec, Z.lor_spec, Z.ldiff_spec.
  destruct (Z.testbit f i), (Z.testbit m i), (Z.testbit a i), (Z.testbit b i); done.
Qed.

Lemma batch_same flag set e :
  flag ∈ [0; BVFLAG_BATCH_BEGIN; BVFLAG_BATCH_CONTINUE; BVFLAG_BATCH_END] -> same_blit (rgz_batch_entry flag set e) e.
Proof.
  intros Hf. split; try done. intros b. unfold horz_flip, vert_flip, has. simpl.
  repeat (apply elem_of_cons in Hf as [-> | Hf]; [destruct b; by rewrite !keep_bits|]). by apply elem_of_nil in Hf.
Qed.

Lemma async_same b e : same_blit (rgz_set_async b e) e.
Proof.
  split; try done. intros i. unfold horz_flip, vert_flip, has, rgz_set_async. simpl. destruct b.
  - assert (forall x, Z.ldiff x 0 = x) as Hx by apply Z.ldiff_0_r. rewrite <- (Hx (e_flags e)) at 1 3. destruct i; by rewrite !keep_bits.
  - rewrite <- (Z.lor_0_r (Z.ldiff _ _)). destruct i; by rewrite !keep_bits.
Qed.
