(* ===== verification/RgzCells.v ===== *)
(** * From cells to the list of blits

    The list of blits and what it draws, then the blits of one cell. *)

From stdpp Require Import base list numbers option.
From Stdlib Require Import ZArith Lia.
From S2P Require Import Prelude Stateful Rgz RgzLists RgzRegions RgzEngine RgzEntries.
From stdpp Require Import list.

Local Open Scope Z_scope.

(** * The list of blits

    [rgz_blts_get] hands out the entries of the list in order, and the last one
    again and again when there is none left.  [holds] says what the entries in
    use draw, or that the list is full: the caller then gives up.  What a list of
    blits does to a screen follows from the laws of the engine. *)

(** ** What drawings do *)

(** A rectangle and what is done in it. *)
Definition drawing : Type := blit_rect * act.

Definition does (bufs : Z -> Z) (e : rgz_blt_entry) (d : drawing) : Prop := acts bufs e (covers d.1) d.2.

Section Effect.
Context {px : Type} `{EngineLaws px}.

Definition effect (scr : Z * Z -> px) (d : drawing) (p : Z * Z) : px :=
  if decide (covers d.1 p) then
    match d.2 with
    | Copies s => fetch (s p)
    | Clears => cleared
    | Blends s => over (fetch (s p)) (scr p)
    | BlendsOn s s2 => over (fetch (s p)) (fetch (s2 p))
    end
  else scr p.

Lemma blit_does bufs e d scr p : does bufs e d -> blit bufs e scr p = effect scr d p.
Proof.
  intros [A O S1 S2]. unfold effect. destruct (decide (covers d.1 p)) as [Hp|Hp]; [|apply blit_outside; by rewrite A].
  apply A in Hp. destruct d as [c []]; simpl in *.
  - destruct S1 as [B S1]. rewrite blit_copy by done. by rewrite S1.
  - by apply blit_clear.
  - destruct S1 as [B S1]. rewrite blit_over_screen by done. by rewrite S1.
  - destruct S1 as [B S1], S2 as [B2 S2]. rewrite blit_over_buffer by done. by rewrite S1, S2.
Qed.

Lemma effect_ext scr scr' d p : scr p = scr' p -> effect scr d p = effect scr' d p.
Proof. intros E. unfold effect. by rewrite E. Qed.

Lemma effects_ext ds scr scr' p : scr p = scr' p -> foldl effect scr ds p = foldl effect scr' ds p.
Proof. revert scr scr'. induction ds as [|d ds IH]; intros scr scr' E; [done|]. apply IH. by apply effect_ext. Qed.

Lemma blits_do bufs es ds : Forall2 (does bufs) es ds -> forall scr p, blits bufs es scr p = foldl effect scr ds p.
Proof.
  unfold blits. induction 1 as [|e d es ds Hd _ IH]; intros scr p; [done|]. simpl. rewrite IH. apply effects_ext. by apply blit_does.
Qed.

(** Drawings elsewhere do not matter. *)
Lemma effects_outside ds scr p : (forall d, d ∈ ds -> ~ covers d.1 p) -> foldl effect scr ds p = scr p.
Proof.
  revert scr. induction ds as [|d ds IH]; intros scr Hd; [done|]. simpl. rewrite IH by (intros d' Hd'; apply Hd; by right).
  unfold effect. rewrite decide_False; [done|]. apply Hd. by left.
Qed.
End Effect.

(** ** The entries in use *)

Definition emitted (b : rgz_blts) : list rgz_blt_entry := take (Z.to_nat (blts_idx b)) (bvcmds b).

Record blts_ok (b : rgz_blts) : Prop := mk_blts_ok {
  bo_length : length (bvcmds b) = 625%nat;
  bo_idx : 0 <= blts_idx b <= 625;
  bo_count : out_blits b = blts_idx b }.

Section Holds.
Context (bufs : Z -> Z) (params : rgz_out_params) (Hcmd : IS_BVCMD (out_op params) = true).

(** The entries in use do [ds]; [None] when the list is full. *)
Definition holds (b : rgz_blts) (o : option (list drawing)) : Prop :=
  blts_ok b /\ match o with None => blts_idx b = 625 | Some ds => Forall2 (does bufs) (emitted b) ds end.

Definition more (o : option (list drawing)) (ds : list drawing) : option (list drawing) := (fun l => l ++ ds) <$> o.

Lemma more_nil o : more o [] = o.
Proof. destruct o as [l|]; [|done]. unfold more. simpl. by rewrite app_nil_r. Qed.

Lemma more_more o ds ds' : more (more o ds) ds' = more o (ds ++ ds').
Proof. destruct o as [l|]; [|done]. unfold more. simpl. by rewrite app_assoc. Qed.

(** [ds] are done besides what [o] says, unless the list got full. *)
Definition extends (b : rgz_blts) (o : option (list drawing)) (ds : list drawing) (b' : rgz_blts) : Prop :=
  (holds b' (more o ds) \/ holds b' None) /\ out_hndls b' = out_hndls b /\ blts_idx b' <= blts_idx b + Z.of_nat (length ds).

(** [i] is the last entry in use. *)
Definition at_end (i : nat) (b : rgz_blts) : Prop := 0 < blts_idx b /\ i = Z.to_nat (blts_idx b - 1).

Lemma blts_get_next b : blts_idx b < 625 ->
  rgz_blts_get params b = Ok (Z.to_nat (blts_idx b), set_out_blits (out_blits b + 1) (set_blts_idx (blts_idx b + 1) b)).
Proof using Hcmd.
  intros Hlt. unfold rgz_blts_get. st_get. change RGZ_MAX_BLITS with 625. rewrite (proj2 (Z.ltb_lt _ _)) by done. by rewrite Hcmd.
Qed.

Lemma blts_get_full b : 625 <= blts_idx b -> rgz_blts_get params b = Ok (Z.to_nat (blts_idx b - 1), b).
Proof. intros Hge. unfold rgz_blts_get. st_get. change RGZ_MAX_BLITS with 625. by rewrite (proj2 (Z.ltb_ge _ _)). Qed.

Lemma update_blt_ok i f b e e' : bvcmds b !! i = Some e -> f e = Ok e' -> update_blt i f b = Ok (tt, set_bvcmds (<[i := e']> (bvcmds b)) b).
Proof. intros He Ef. unfold update_blt, found, lift, mbind, st_bind. by rewrite He, Ef. Qed.

(** A new entry is filled in. *)
Lemma emit_ok b o (f : rgz_blt_entry -> outcome rgz_blt_entry) d :
  holds b o -> (forall e0, exists e, f e0 = Ok e /\ does bufs e d) ->
  runs (i ← rgz_blts_get params; update_blt i f;; mret i) b (fun i b' =>
    at_end i b' /\ extends b o [d] b').
Proof using Hcmd.
  intros [[L I C] Ho] Hf. destruct (Z.ltb_spec (blts_idx b) 625) as [Hlt|Hge].
  - destruct (lookup_lt_is_Some_2 (bvcmds b) (Z.to_nat (blts_idx b))) as [e0 He0]; [lia|]. destruct (Hf e0) as (e & Ee & De).
    refine (runs_step _ _ _ _ _ _ (blts_get_next b Hlt) _). refine (runs_step _ _ _ _ _ _ (update_blt_ok _ _ _ _ _ _ Ee) _); [done|].
    apply st_runs_ret. simpl.
    assert (blts_ok (set_bvcmds (<[Z.to_nat (blts_idx b) := e]> (bvcmds b)) (set_out_blits (out_blits b + 1) (set_blts_idx (blts_idx b + 1) b)))) as Hok
      by (split; simpl; rewrite ?length_insert; lia).
    split; [split; simpl; lia|]. split; [|split; [done|simpl; lia]].
    destruct o as [ds|]; [left|lia]. split; [done|]. unfold emitted. simpl.
    replace (Z.to_nat (blts_idx b + 1)) with (S (Z.to_nat (blts_idx b))) by lia.
    rewrite (take_S_r _ _ e) by (rewrite list_lookup_insert_eq by lia; done). rewrite take_insert_ge by lia.
    apply Forall2_app; [exact Ho|by constructor].
  - assert (blts_idx b = 625) as E by lia.
    destruct (lookup_lt_is_Some_2 (bvcmds b) (Z.to_nat (blts_idx b - 1))) as [e0 He0]; [lia|]. destruct (Hf e0) as (e & Ee & De).
    refine (runs_step _ _ _ _ _ _ (blts_get_full b Hge) _). refine (runs_step _ _ _ _ _ _ (update_blt_ok _ _ _ _ _ He0 Ee) _).
    apply st_runs_ret. simpl. split; [split; simpl; [lia|done]|]. split; [|split; [done|simpl; lia]].
    right. split; [|done]. split; simpl; rewrite ?length_insert; lia.
Qed.

(** The last entry is changed in how it is carried out. *)
Lemma touch_ok b o i (f : rgz_blt_entry -> outcome rgz_blt_entry) :
  holds b o -> at_end i b -> (forall e, exists e', f e = Ok e' /\ same_blit e' e) ->
  runs (update_blt i f) b (fun _ b' => at_end i b' /\ extends b o [] b').
Proof.
  intros [[L I C] Ho] [Hi ->] Hf.
  destruct (lookup_lt_is_Some_2 (bvcmds b) (Z.to_nat (blts_idx b - 1))) as [e He]; [lia|]. destruct (Hf e) as (e' & Ee & Se).
  eexists _, _. split; [by apply (update_blt_ok _ _ _ e e')|]. simpl. split; [done|]. split; [|split; [done|simpl; lia]]. left. rewrite more_nil. split; [split; simpl; rewrite ?length_insert; lia|]. destruct o as [ds|]; [|done].
  unfold emitted in *. simpl. replace (Z.to_nat (blts_idx b)) with (S (Z.to_nat (blts_idx b - 1))) in * by lia.
  rewrite (take_S_r _ _ e') by (rewrite list_lookup_insert_eq by lia; done). rewrite take_insert_ge by lia.
  rewrite (take_S_r _ _ e) in Ho by done. apply Forall2_app_inv_l in Ho as (ds1 & ds2 & H1 & H2 & ->).
  apply Forall2_app; [done|]. inversion_clear H2 as [|? d ? ? Hd H3]. inversion H3; subst. constructor; [|done].
  unfold does in *. by rewrite Se.
Qed.
End Holds.

(** ** The layers of a cell *)

(** The layers that matter: from the highest opaque one on. *)
Fixpoint top_part {A} (opaque : A -> bool) (l : list A) : list A :=
  match l with
  | [] => []
  | x :: l' => if existsb opaque l' then top_part opaque l' else x :: l'
  end.

Lemma top_part_snoc {A} (opaque : A -> bool) l x :
  top_part opaque (l ++ [x]) = if opaque x then [x] else top_part opaque l ++ [x].
Proof.
  induction l as [|y l IH]; simpl; [by destruct (opaque x)|]. rewrite existsb_app. simpl. rewrite orb_false_r.
  destruct (opaque x) eqn:E; [by rewrite orb_true_r|]. rewrite orb_false_r. by destruct (existsb opaque l).
Qed.

Lemma top_part_suffix {A} (opaque : A -> bool) l : exists pre, l = pre ++ top_part opaque l.
Proof.
  induction l as [|x l [pre IH]]; simpl; [by exists []|]. destruct (existsb opaque l); [exists (x :: pre); simpl; by f_equal|by exists []].
Qed.

Lemma top_part_head {A} (opaque : A -> bool) l : existsb opaque l = true ->
  exists x rest, top_part opaque l = x :: rest /\ opaque x = true /\ existsb opaque rest = false.
Proof.
  induction l as [|y l IH]; simpl; [done|]. destruct (existsb opaque l) eqn:E; [auto|]. rewrite orb_false_r. eauto.
Qed.

Section Cell.
Context (native : Z -> option IMG_native_handle) (cur : rgz_fb_state) (h : blit_hregion) (s : nat).
Context (row : nat -> rgz_layer) (c : blit_rect) (present : nat -> bool).

Let n : nat := Z.to_nat (nlayers h).

Context (Hrow : forall l, (l < n)%nat -> region_layer cur h l = Ok (row l)).
Context (Hrect : forall l, (l < n)%nat -> rect_at h l s = Ok (if present l then c else zero_rect)).
Context (Hc : empty_rect c = false) (Hn : 0 <= nlayers h).

Lemma present_empty l : empty_rect (if present l then c else zero_rect) = negb (present l).
Proof using Hc. by destruct (present l). Qed.

Definition here : list nat := filter (fun l => present l = true) (seq 0 n).

Lemma next_loop_ok k : forall l, (l + k = n)%nat ->
  next_loop k h s l = Ok (match filter (fun l => present l = true) (seq l k) with [] => -1 | l' :: _ => Z.of_nat l' end).
Proof using Hrect Hc.
  induction k as [|k IH]; intros l Hl; [done|]. simpl. rewrite Hrect by lia. cbn [mbind outcome_bind]. rewrite present_empty.
  destruct (present l) eqn:E; simpl; [by rewrite filter_cons_True|]. rewrite filter_cons_False by (by rewrite E). apply IH. lia.
Qed.

Lemma next_ok pre l post : here = pre ++ l :: post ->
  get_layer_ops_next h s (Z.of_nat l) = Ok (match post with [] => -1 | l' :: _ => Z.of_nat l' end).
Proof using Hrect Hc Hn.
  intros E. assert (l ∈ here) as Hl by (rewrite E; apply elem_of_app; right; by left).
  apply list_elem_of_filter in Hl as [Hp Hl]. apply elem_of_seq in Hl. unfold get_layer_ops_next.
  replace (Z.to_nat (nlayers h - (Z.of_nat l + 1))) with (n - S l)%nat by (unfold n; lia).
  replace (Z.to_nat (Z.of_nat l + 1)) with (S l) by lia. rewrite next_loop_ok by lia. do 2 f_equal.
  assert (here = filter (fun l => present l = true) (seq 0 l) ++ l :: filter (fun l => present l = true) (seq (S l) (n - S l))) as E'.
  { unfold here. replace n with (l + S (n - S l))%nat at 1 by lia. rewrite seq_app, filter_app. simpl. by rewrite filter_cons_True. }
  assert (NoDup here) as Hd by (apply NoDup_filter, NoDup_seq). rewrite E in E'. rewrite E in Hd. clear E.
  revert E' Hd. generalize (filter (fun l => present l = true) (seq 0 l)). intros pre'.
  revert pre'. induction pre as [|x pre IH]; intros [|y pre']; simpl; intros E' Hd.
  - by injection E' as ->.
  - injection E' as -> E'. apply NoDup_cons in Hd as [Hd _]. destruct Hd. rewrite E'. apply elem_of_app. right. by left.
  - injection E' as -> E'. apply NoDup_cons in Hd as [Hd _]. destruct Hd. apply elem_of_app. right. by left.
  - injection E' as -> E'. apply NoDup_cons in Hd as [_ Hd]. by apply (IH pre').
Qed.

(** A layer that hides what is below it. *)
Definition opaque (l : rgz_layer) : bool :=
  negb (blending (hwc_layer l) =? HWC_BLENDING_PREMULT) ||
  match native (handle (hwc_layer l)) with Some x => is_OPAQUE (iFormat x) | None => false end.

Context (Hnative : forall l, (l < n)%nat -> present l = true -> blending (hwc_layer (row l)) = HWC_BLENDING_PREMULT ->
  is_Some (native (handle (hwc_layer (row l))))).

Definition tops : list nat := top_part (fun l => opaque (row l)) here.

(** What [get_layer_ops] has found when it went through all but the first [k] layers. *)
Lemma layer_ops_loop_ok k : forall ops bottom, (k <= n)%nat -> (0 < k)%nat ->
  let t := top_part (fun l => opaque (row l)) (filter (fun l => present l = true) (seq 0 k)) in
  layer_ops_loop native cur k h s ops bottom =
    Ok (ops + Z.of_nat (length t), match t with [] => bottom | l :: _ => Z.of_nat l end).
Proof using Hrow Hrect Hc Hnative.
  induction k as [|k IH]; intros ops bottom Hk Hpos; [lia|]. rewrite seq_S, filter_app. cbn [layer_ops_loop Nat.add].
  rewrite Hrect by lia. cbn [mbind outcome_bind]. rewrite present_empty. destruct (present k) eqn:E; simpl.
  - rewrite filter_cons_True by done. rewrite Hrow by lia. cbn [mbind outcome_bind]. rewrite filter_nil, top_part_snoc. unfold opaque at 1 3.
    destruct (Z.eqb_spec (blending (hwc_layer (row k))) HWC_BLENDING_PREMULT) as [Hb|Hb]; simpl; [|done].
    destruct (Hnative k ltac:(lia) E Hb) as [nh Enh]. unfold native_of. rewrite Enh. cbn [mbind outcome_bind].
    destruct (is_OPAQUE (iFormat nh)); [done|]. rewrite length_app. destruct k as [|k'] eqn:Ek; [done|]. rewrite <- Ek in *.
    rewrite IH by lia. destruct (top_part _ _) as [|x t]; simpl; do 2 f_equal; lia.
  - rewrite filter_cons_False by (by rewrite E). rewrite filter_nil, app_nil_r. destruct k as [|k'] eqn:Ek; [simpl; do 2 f_equal; lia|].
    rewrite <- Ek in *. apply IH; lia.
Qed.

Lemma layer_ops_ok : (0 < n)%nat ->
  get_layer_ops native cur h s = Ok (Z.of_nat (length tops), match tops with [] => -1 | l :: _ => Z.of_nat l end).
Proof using Hrow Hrect Hc Hnative. intros Hpos. unfold get_layer_ops. fold n. by rewrite layer_ops_loop_ok by lia. Qed.

Lemma tops_suffix : exists pre, here = pre ++ tops.
Proof. apply top_part_suffix. Qed.

Lemma here_spec l : l ∈ here <-> (l < n)%nat /\ present l = true.
Proof. unfold here. rewrite list_elem_of_filter, elem_of_seq. split; intros [? ?]; (split; [|lia || done]); [lia|done]. Qed.

Lemma tops_here pre l post : tops = pre ++ l :: post -> (l < n)%nat /\ present l = true.
Proof.
  intros E. apply here_spec. destruct tops_suffix as [pre0 E0]. rewrite E0, E. rewrite !elem_of_app, elem_of_cons. auto.
Qed.

Lemma tops_next pre l post : tops = pre ++ l :: post ->
  get_layer_ops_next h s (Z.of_nat l) = Ok (match post with [] => -1 | l' :: _ => Z.of_nat l' end).
Proof using Hrect Hc Hn.
  intros E. destruct tops_suffix as [pre0 E0]. apply (next_ok (pre0 ++ pre)). by rewrite E0, E, app_assoc.
Qed.

Lemma dirty_loop_ok : forall post pre fuel, tops = pre ++ post -> (length post < fuel)%nat ->
  dirty_loop fuel cur h s (match post with [] => -1 | l :: _ => Z.of_nat l end) = Ok (existsb (fun l => truth (dirty_count (row l))) post).
Proof using Hrow Hrect Hc Hn.
  induction post as [|l post IH]; intros pre fuel E Hf; [by destruct fuel|]. destruct fuel as [|fuel]; [simpl in Hf; lia|]. simpl.
  rewrite (proj2 (Z.eqb_neq _ _)) by lia. rewrite Nat2Z.id. destruct (tops_here _ _ _ E) as [Hl _]. rewrite Hrow by done. cbn [mbind outcome_bind].
  destruct (truth (dirty_count (row l))); [done|]. rewrite (tops_next _ _ _ E). cbn [mbind outcome_bind].
  apply (IH (pre ++ [l])); [by rewrite <- app_assoc|simpl in Hf; lia].
Qed.
End Cell.

(** * The blits of a cell

    [rgz_hwc_subregion_blit] makes the blits of a cell from the layers that
    matter there: [cell_acts] are these blits as drawings. *)

Section Acts.
Context (native : Z -> option IMG_native_handle) (bufs : Z -> Z).

(** The buffer of a window. *)
Definition native_for (l : rgz_layer) : IMG_native_handle :=
  default (mk_native 0 0 HAL_PIXEL_FORMAT_RGBA_8888) (native (handle (hwc_layer l))).
Definition sample_of (l : rgz_layer) : Z * Z -> sample := shown bufs l (native_for l).

(** Two windows that one blit blends. *)
Definition together (l l2 : rgz_layer) : bool :=
  negb (rgz_hwc_scaled (hwc_layer l)) && negb (rgz_hwc_scaled (hwc_layer l2)) &&
  negb (is_NV12 (iFormat (native_for l))) && negb (is_NV12 (iFormat (native_for l2))).

(** Windows from the bottom up. *)
Definition blend_acts (ls : list rgz_layer) : list act :=
  match ls with
  | [] => []
  | [a] => [Copies (sample_of a)]
  | a :: b :: rest =>
      (if together b a then [BlendsOn (sample_of b) (sample_of a)] else [Copies (sample_of a); Blends (sample_of b)]) ++
      ((fun l => Blends (sample_of l)) <$> rest)
  end.

(** The layers that matter from the bottom up, with the background and the
    cleared layers. *)
Definition cell_acts (ls : list rgz_layer) : list act :=
  match ls with
  | [] => []
  | l :: rest =>
      if buffidx l <? 0 then match rest with [] => [Clears] | _ => blend_acts rest end
      else blend_acts ls
  end.

(** A layer that can be drawn, or that stands for cleared pixels. *)
Definition dummy (l : rgz_layer) : Prop :=
  (buffidx l = RGZ_BACKGROUND_BUFFIDX \/ buffidx l = RGZ_CLEARHINT_BUFFIDX) /\ blending (hwc_layer l) <> HWC_BLENDING_PREMULT.
Definition usable (l : rgz_layer) : Prop := dummy l \/ drawable native l (native_for l).

Lemma dummy_opaque l : dummy l -> opaque native l = true.
Proof. intros [_ Hb]. unfold opaque. by rewrite (proj2 (Z.eqb_neq _ _) Hb). Qed.

Lemma usable_clear l : usable l -> opaque native l = false -> drawable native l (native_for l).
Proof. intros [Hd|?] Ho; [by rewrite dummy_opaque in Ho|done]. Qed.

Lemma usable_index l : usable l -> 0 <= buffidx l -> drawable native l (native_for l).
Proof. intros [[[->| ->] _]|?] Hb; done. Qed.

Lemma drawable_index l h : drawable native l h -> 0 <= buffidx l.
Proof. intros D. by apply D. Qed.
End Acts.

Section Draw.
Context (native : Z -> option IMG_native_handle) (cur : rgz_fb_state) (h : blit_hregion) (s : nat).
Context (row : nat -> rgz_layer) (c : blit_rect) (present : nat -> bool).
Context (g : bvsurfgeom) (W H : Z) (bufs : Z -> Z) (params : rgz_out_params).

Let n : nat := Z.to_nat (nlayers h).
Let tp : list nat := tops native h row present.

(** A cell of the screen in a row, with the layers of the row. *)
Record cell_ready : Prop := mk_cell_ready {
  cr_row : forall l, (l < n)%nat -> region_layer cur h l = Ok (row l);
  cr_rect : forall l, (l < n)%nat -> rect_at h l s = Ok (if present l then c else zero_rect);
  cr_count : 0 < nlayers h;
  cr_usable : forall l, (l < n)%nat -> present l = true -> usable native (row l);
  cr_covered : forall l p, (l < n)%nat -> present l = true -> covers c p -> covers (displayFrame (hwc_layer (row l))) p;
  cr_inside : near_rect BOUND c /\ 0 <= r_left c /\ 0 <= r_top c /\ r_right c <= W /\ r_bottom c <= H;
  cr_ground : exists l, (l < n)%nat /\ present l = true /\ opaque native (row l) = true }.

Record params_ok : Prop := mk_params_ok {
  po_geom : out_dstgeom params = g;
  po_screen : screen_ok g W H;
  po_blend : noblend params = 0;
  po_cmd : IS_BVCMD (out_op params) = true }.

Context (R : cell_ready) (Pm : params_ok).

Lemma cell_nonempty : empty_rect c = false.
Proof using R. destruct (cr_inside R) as [[_ _ _ _ ? ?] ?]. by apply nonempty_rect. Qed.

Lemma cell_count : 0 <= nlayers h.
Proof using R. pose proof (cr_count R). lia. Qed.

Lemma cell_target : target W H c.
Proof using R. destruct (cr_inside R) as [N ?]. split; [done|]. destruct N. split; lia. Qed.

Lemma cell_clipped : clipped W H c = c.
Proof using R. destruct (cr_inside R) as [[_ _ _ _ ? ?] (? & ? & ? & ?)]. unfold clipped. rewrite !Z.max_r, !Z.min_r by lia. by destruct c. Qed.

Lemma cell_drawn l p : (l < n)%nat -> present l = true -> drawn W H c (hwc_layer (row l)) p <-> covers c p.
Proof using R.
  intros Hl Hp. unfold drawn, asked. rewrite cell_clipped. pose proof (cr_covered R l p Hl Hp) as Hc.
  destruct (rgz_hwc_scaled _); (split; [by intros [_ ?]|intros ?; split; [auto|done]]).
Qed.

Lemma does_drawn e l a : (l < n)%nat -> present l = true -> acts bufs e (drawn W H c (hwc_layer (row l))) a -> does bufs e (c, a).
Proof using R. intros Hl Hp [A1 A2 A3 A4]. split; try done. intros p. rewrite A1. by apply cell_drawn. Qed.

Lemma native_some l : (l < n)%nat -> present l = true -> blending (hwc_layer (row l)) = HWC_BLENDING_PREMULT ->
  is_Some (native (handle (hwc_layer (row l)))).
Proof using R. intros Hl Hp Hb. destruct (cr_usable R l Hl Hp) as [[_ ?]|D]; [done|]. by rewrite (dr_native _ _ _ D). Qed.

(** The layers that matter: all but the lowest are blended. *)
Lemma tops_shape : exists l rest, tp = l :: rest /\ opaque native (row l) = true /\
  forall l', l' ∈ rest -> opaque native (row l') = false.
Proof using R.
  destruct (cr_ground R) as (l0 & Hl0 & Hp0 & Ho0).
  destruct (top_part_head (fun l => opaque native (row l)) (here h present)) as (l & rest & E & Ho & Hr).
  - apply existsb_exists. exists l0. split; [|done]. apply list_elem_of_In. apply here_spec. auto.
  - exists l, rest. split; [done|]. split; [done|]. intros l' Hl'. destruct (opaque native (row l')) eqn:E'; [|done].
    rewrite <- Hr. symmetry. apply existsb_exists. exists l'. split; [by apply list_elem_of_In|done].
Qed.

Lemma top_ok pre l post : tp = pre ++ l :: post -> (l < n)%nat /\ present l = true /\ usable native (row l).
Proof using R.
  intros E. destruct (tops_here native h row present pre l post E) as [Hl Hp]. split; [done|]. split; [done|]. by apply (cr_usable R).
Qed.

Lemma blend_emit b o l : holds bufs b o -> (l < n)%nat -> present l = true -> drawable native (row l) (native_for native (row l)) ->
  runs (rgz_hwc_subregion_blend native params c (row l) None) b (fun i b' =>
    at_end i b' /\ extends bufs b o [(c, Blends (sample_of native bufs (row l)))] b').
Proof using R Pm.
  intros Hh Hl Hp D. unfold rgz_hwc_subregion_blend. rewrite (po_geom Pm). apply emit_ok; [apply Pm|done|]. intros e0.
  destruct (blend_ok native g W H c (po_screen Pm) cell_target bufs (row l) _ e0 D) as (e & E & A). exists e. split; [done|].
  by eapply does_drawn.
Qed.

Lemma copy_emit b o l : holds bufs b o -> (l < n)%nat -> present l = true -> drawable native (row l) (native_for native (row l)) ->
  runs (rgz_hwc_subregion_copy native params c (row l)) b (fun i b' =>
    at_end i b' /\ extends bufs b o [(c, Copies (sample_of native bufs (row l)))] b').
Proof using R Pm.
  intros Hh Hl Hp D. unfold rgz_hwc_subregion_copy. rewrite (po_geom Pm). apply emit_ok; [apply Pm|done|]. intros e0.
  destruct (copy_ok native g W H c (po_screen Pm) cell_target bufs (row l) _ e0 D) as (e & E & A). exists e. split; [done|].
  by eapply does_drawn.
Qed.

Lemma clear_emit b o : holds bufs b o ->
  runs (rgz_out_clrdst params (Some c)) b (fun _ b' => extends bufs b o [(c, Clears)] b').
Proof using R Pm.
  intros Hh. unfold rgz_out_clrdst. rewrite (po_geom Pm).
  destruct (emit_ok bufs params (po_cmd Pm) b o (clear_entry g (Some c)) (c, Clears) Hh) as (i & b' & E & _ & X).
  - intros e0. destruct (clear_ok g W H c (po_screen Pm) cell_target bufs (Some c) e0) as (e & E & A); [by left|]. exists e. split; [done|].
    destruct A as [A1 A2 A3 A4]. split; try done. intros p. rewrite A1, cell_clipped. simpl. tauto.
  - exists tt, b'. split; [|done]. unfold mbind, st_bind in *. destruct (rgz_blts_get params b) as [[j b1]|]; [|done].
    destruct (update_blt j _ b1) as [[[] b2]|]; [|done]. by injection E as _ <-.
Qed.

Lemma touch_batch b o i flag set :
  holds bufs b o -> at_end i b -> flag ∈ [0; BVFLAG_BATCH_BEGIN; BVFLAG_BATCH_CONTINUE; BVFLAG_BATCH_END] ->
  runs (update_blt i (fun x => Ok (rgz_batch_entry flag set x))) b (fun _ b' => at_end i b' /\ extends bufs b o [] b').
Proof. intros Hh Hi Hf. apply touch_ok; [done|done|]. intros e. eexists. split; [done|]. by apply batch_same. Qed.

(** One blit after another. *)
Lemma holds_of b o ds b' : extends bufs b o ds b' -> exists o', (o' = more o ds \/ o' = None) /\ holds bufs b' o'.
Proof. intros [[?|?] _]; eauto. Qed.

Lemma extends_next b o ds b' o' ds' b'' :
  extends bufs b o ds b' -> (o' = more o ds \/ o' = None) -> extends bufs b' o' ds' b'' -> extends bufs b o (ds ++ ds') b''.
Proof using.
  clear. intros (_ & E & Hi) Ho (Hx & E' & Hi'). split; [|split; [congruence|rewrite length_app; lia]]. destruct Ho as [-> | ->]; [|right; by destruct Hx].
  rewrite more_more in Hx. done.
Qed.

Lemma is_nv12_ok l : drawable native l (native_for native l) -> rgz_is_layer_nv12 native (hwc_layer l) = Ok (is_NV12 (iFormat (native_for native l))).
Proof. intros D. unfold rgz_is_layer_nv12, native_of. by rewrite (dr_native _ _ _ D). Qed.

Lemma top_blended pre l post : tp = pre ++ l :: post -> pre <> [] -> drawable native (row l) (native_for native (row l)).
Proof using R.
  intros E Hpre. destruct tops_shape as (l0 & rest & E0 & _ & Hr). destruct (top_ok pre l post E) as (_ & _ & Hu).
  apply usable_clear; [done|]. apply Hr. destruct pre as [|x pre]; [done|]. rewrite E0 in E. injection E as _ ->.
  apply elem_of_app. right. by left.
Qed.

Lemma blend_rest_ok : forall post pre l fuel b o flags sc nv e,
  tp = pre ++ l :: post -> (length post <= fuel)%nat -> holds bufs b o -> at_end e b ->
  runs (blend_rest native fuel cur h s params c (Z.of_nat l) flags sc nv e) b (fun e' b' =>
    at_end e' b' /\ extends bufs b o ((fun l => (c, Blends (sample_of native bufs (row l)))) <$> post) b').
Proof using R Pm.
  induction post as [|l' post IH]; intros pre l fuel b o flags sc nv e E Hf Hh He.
  - assert (lift (get_layer_ops_next h s (Z.of_nat l)) b = Ok (-1, b)) as El.
    { unfold lift. by rewrite (tops_next native h s row c present (cr_rect R) cell_nonempty cell_count _ _ _ E). }
    destruct fuel; cbn [blend_rest]; (refine (runs_step _ _ _ _ _ _ El _)); apply st_runs_ret; (split; [done|]);
      (split; [left; by rewrite more_nil|split; [done|simpl; lia]]).
  - destruct fuel as [|fuel]; [simpl in Hf; lia|]. cbn [blend_rest].
    assert (tp = (pre ++ [l]) ++ l' :: post) as E' by by rewrite <- app_assoc.
    destruct (top_ok _ _ _ E') as (Hl & Hp & _). assert (drawable native (row l') (native_for native (row l'))) as D
      by (apply (top_blended (pre ++ [l]) l' post E'); by destruct pre).
    assert (lift (get_layer_ops_next h s (Z.of_nat l)) b = Ok (Z.of_nat l', b)) as El.
    { unfold lift. by rewrite (tops_next native h s row c present (cr_rect R) cell_nonempty cell_count _ _ _ E). }
    refine (runs_step _ _ _ _ _ _ El _). rewrite (proj2 (Z.eqb_neq _ _)) by lia. rewrite Nat2Z.id.
    assert (lift (region_layer cur h l') b = Ok (row l', b)) as Er by (unfold lift; by rewrite (cr_row R)).
    refine (runs_step _ _ _ _ _ _ Er _).
    eapply st_runs_bind; [apply (blend_emit b o l' Hh Hl Hp D)|]. intros e1 b1 [He1 X1]. cbv beta.
    destruct (holds_of _ _ _ _ X1) as (o1 & Ho1 & Hh1).
    assert (lift (rgz_is_layer_nv12 native (hwc_layer (row l'))) b1 = Ok (is_NV12 (iFormat (native_for native (row l'))), b1)) as En
      by (unfold lift; by rewrite is_nv12_ok).
    refine (runs_step _ _ _ _ _ _ En _).
    eapply st_runs_bind; [apply (touch_batch b1 o1 e1 BVFLAG_BATCH_CONTINUE); [done..|right; right; by left]|]. intros [] b2 [He2 X2]. cbv beta.
    destruct (holds_of _ _ _ _ X2) as (o2 & Ho2 & Hh2).
    eapply st_runs_mono; [apply (IH (pre ++ [l]) l' fuel b2 o2); [done|simpl in Hf; lia|done..]|].
    intros e' b' [He' X]. split; [done|]. eapply (extends_next b o [_] b1 o1); [done..|].
    eapply (extends_next b1 o1 [] b2 o2); done.
Qed.

Lemma next_step pre l post (b : rgz_blts) : tp = pre ++ l :: post ->
  lift (get_layer_ops_next h s (Z.of_nat l)) b = Ok (match post with [] => -1 | l' :: _ => Z.of_nat l' end, b).
Proof using R. intros E. unfold lift. by rewrite (tops_next native h s row c present (cr_rect R) cell_nonempty cell_count _ _ _ E). Qed.

Lemma row_step (b : rgz_blts) l : (l < n)%nat -> lift (region_layer cur h (Z.to_nat (Z.of_nat l))) b = Ok (row l, b).
Proof using R. intros Hl. unfold lift. by rewrite Nat2Z.id, (cr_row R). Qed.

Lemma rect_step (b : rgz_blts) l : (l < n)%nat -> present l = true -> lift (rect_at h (Z.to_nat (Z.of_nat l)) s) b = Ok (c, b).
Proof using R. intros Hl Hp. unfold lift. by rewrite Nat2Z.id, (cr_rect R), Hp. Qed.

Lemma together_ok l l2 : drawable native l (native_for native l) -> drawable native l2 (native_for native l2) ->
  rgz_can_blend_together native (hwc_layer l) (hwc_layer l2) = Ok (together native l l2).
Proof.
  intros D D2. unfold rgz_can_blend_together, together. rewrite !is_nv12_ok by done.
  destruct (rgz_hwc_scaled (hwc_layer l)), (rgz_hwc_scaled (hwc_layer l2)); simpl; try done.
  destruct (is_NV12 (iFormat (native_for native l))); done.
Qed.

Lemma together_spec l l2 : together native l l2 = true ->
  is_NV12 (iFormat (native_for native l)) = false /\ is_NV12 (iFormat (native_for native l2)) = false /\
  rgz_hwc_scaled (hwc_layer l) = false /\ rgz_hwc_scaled (hwc_layer l2) = false.
Proof. unfold together. rewrite !andb_true_iff, !negb_true_iff. tauto. Qed.

Lemma blend_on_emit b o l l2 : holds bufs b o -> (l < n)%nat -> present l = true ->
  drawable native (row l) (native_for native (row l)) -> drawable native (row l2) (native_for native (row l2)) ->
  together native (row l) (row l2) = true ->
  runs (rgz_hwc_subregion_blend native params c (row l) (Some (row l2))) b (fun i b' =>
    at_end i b' /\ extends bufs b o [(c, BlendsOn (sample_of native bufs (row l)) (sample_of native bufs (row l2)))] b').
Proof using R Pm.
  intros Hh Hl Hp D D2 (N1 & N2 & S1 & S2)%together_spec. unfold rgz_hwc_subregion_blend. rewrite (po_geom Pm). apply emit_ok; [apply Pm|done|]. intros e0.
  destruct (blend_on_ok native g W H c (po_screen Pm) cell_target bufs (row l) _ (row l2) _ e0 D D2 N1 N2 S1 S2) as (e & E & A).
  exists e. split; [done|]. by eapply does_drawn.
Qed.

Lemma blend_all_ok b o pre l l' post :
  tp = pre ++ l :: l' :: post -> drawable native (row l) (native_for native (row l)) -> holds bufs b o ->
  runs (subregion_blend_all native cur h s params (Z.of_nat l)) b (fun _ b' =>
    extends bufs b o (pair c <$> blend_acts native bufs (row <$> l :: l' :: post)) b').
Proof using R Pm.
  intros E D Hh. assert (tp = (pre ++ [l]) ++ l' :: post) as E' by by rewrite <- app_assoc.
  destruct (top_ok _ _ _ E) as (Hl & Hp & _), (top_ok _ _ _ E') as (Hl' & Hp' & _).
  assert (drawable native (row l') (native_for native (row l'))) as D' by (apply (top_blended (pre ++ [l]) l' post E'); by destruct pre).
  assert (S (length post) <= Z.to_nat (nlayers h))%nat as Hlen.
  { destruct (tops_suffix native h row present) as [pre0 E0]. fold tp in E0. rewrite E in E0. apply (f_equal length) in E0.
    rewrite !length_app in E0. simpl in E0. assert (length (here h present) <= n)%nat; [|lia].
    unfold here. etrans; [apply length_filter|by rewrite length_seq]. }
  unfold subregion_blend_all. refine (runs_step _ _ _ _ _ _ (rect_step b l Hl Hp) _). refine (runs_step _ _ _ _ _ _ (next_step _ _ _ b E) _).
  refine (runs_step _ _ _ _ _ _ (row_step b l' Hl') _). refine (runs_step _ _ _ _ _ _ (row_step b l Hl) _).
  assert (lift (rgz_can_blend_together native (hwc_layer (row l')) (hwc_layer (row l))) b = Ok (together native (row l') (row l), b)) as Et
    by (unfold lift; by rewrite together_ok).
  refine (runs_step _ _ _ _ _ _ Et _). simpl. destruct (together native (row l') (row l)) eqn:T.
  - eapply st_runs_bind with (R := fun a b1 => exists i, a = (i, Z.of_nat l', 0, false, false) /\ at_end i b1 /\
      extends bufs b o [(c, BlendsOn (sample_of native bufs (row l')) (sample_of native bufs (row l)))] b1).
    { eapply st_runs_bind; [by apply blend_on_emit|]. intros i b1 [Hi X]. apply st_runs_ret. eauto. }
    intros a b1 (i & -> & Hi & X1). cbv beta iota. destruct (holds_of _ _ _ _ X1) as (o1 & Ho1 & Hh1).
    eapply st_runs_bind; [apply (touch_batch b1 o1 i BVFLAG_BATCH_BEGIN 0); [done..|right; by left]|]. intros [] b2 [Hi2 X2]. cbv beta.
    destruct (holds_of _ _ _ _ X2) as (o2 & Ho2 & Hh2).
    eapply st_runs_bind; [apply (blend_rest_ok post (pre ++ [l]) l' _ b2 o2); first [lia|done]|]. intros i3 b3 [Hi3 X3]. cbv beta.
    destruct (holds_of _ _ _ _ X3) as (o3 & Ho3 & Hh3).
    eapply st_runs_mono; [apply (touch_ok bufs b3 o3 i3); [done..|]|].
    + intros x. destruct (has (e_flags x) BVFLAG_BATCH_BEGIN); (eexists; split; [done|]); apply batch_same; rewrite !elem_of_cons; auto.
    + intros [] b' [_ X4]. set (ds := _ <$> _).
      assert (ds = [(c, BlendsOn (sample_of native bufs (row l')) (sample_of native bufs (row l)))] ++ [] ++
        ((fun l => (c, Blends (sample_of native bufs (row l)))) <$> post) ++ []) as ->
        by (unfold ds; rewrite app_nil_r; simpl; f_equal; by rewrite <- !list_fmap_compose).
      by apply (extends_next b o _ b1 o1), (extends_next b1 o1 _ b2 o2), (extends_next b2 o2 _ b3 o3).
  - eapply st_runs_bind with (R := fun a b1 => exists i sc nv, a = (i, Z.of_nat l, BVBATCH_OP, sc, nv) /\ at_end i b1 /\
      extends bufs b o [(c, Copies (sample_of native bufs (row l)))] b1).
    { eapply st_runs_bind; [by apply copy_emit|]. intros i b1 [Hi X].
      assert (lift (rgz_is_layer_nv12 native (hwc_layer (row l))) b1 = Ok (is_NV12 (iFormat (native_for native (row l))), b1)) as En
        by (unfold lift; by rewrite is_nv12_ok).
      refine (runs_step _ _ _ _ _ _ En _). apply st_runs_ret. eauto 10. }
    intros a b1 (i & sc & nv & -> & Hi & X1). cbv beta iota. destruct (holds_of _ _ _ _ X1) as (o1 & Ho1 & Hh1).
    eapply st_runs_bind; [apply (touch_batch b1 o1 i BVFLAG_BATCH_BEGIN 0); [done..|right; by left]|]. intros [] b2 [Hi2 X2]. cbv beta.
    destruct (holds_of _ _ _ _ X2) as (o2 & Ho2 & Hh2).
    eapply st_runs_bind; [apply (blend_rest_ok (l' :: post) pre l _ b2 o2); done|]. intros i3 b3 [Hi3 X3]. cbv beta. destruct (holds_of _ _ _ _ X3) as (o3 & Ho3 & Hh3).
    eapply st_runs_mono; [apply (touch_ok bufs b3 o3 i3); [done..|]|].
    + intros x. destruct (has (e_flags x) BVFLAG_BATCH_BEGIN); (eexists; split; [done|]); apply batch_same; rewrite !elem_of_cons; auto.
    + intros [] b' [_ X4]. set (ds := _ <$> _).
      assert (ds = [(c, Copies (sample_of native bufs (row l)))] ++ [] ++
        ((fun l => (c, Blends (sample_of native bufs (row l)))) <$> l' :: post) ++ []) as ->
        by (unfold ds; rewrite app_nil_r; simpl; do 2 f_equal; by rewrite <- !list_fmap_compose).
      by apply (extends_next b o _ b1 o1), (extends_next b1 o1 _ b2 o2), (extends_next b2 o2 _ b3 o3).
Qed.

Lemma subregion_draw_ok b o pre l post :
  tp = pre ++ l :: post -> drawable native (row l) (native_for native (row l)) -> holds bufs b o ->
  runs (subregion_draw native cur h s params (Z.of_nat (length (l :: post))) (Z.of_nat l)) b (fun _ b' =>
    extends bufs b o (pair c <$> blend_acts native bufs (row <$> l :: post)) b').
Proof using R Pm.
  intros E D Hh. destruct (top_ok _ _ _ E) as (Hl & Hp & _). unfold subregion_draw. rewrite (po_blend Pm), Z.eqb_refl. cbn [andb].
  destruct post as [|l' post].
  - rewrite (proj2 (Z.ltb_ge _ _)) by (simpl; lia). refine (runs_step _ _ _ _ _ _ (rect_step b l Hl Hp) _).
    refine (runs_step _ _ _ _ _ _ (row_step b l Hl) _).
    eapply st_runs_bind; [by apply copy_emit|]. intros i b' [_ X]. by apply st_runs_ret.
  - rewrite (proj2 (Z.ltb_lt _ _)) by (simpl; lia). by apply (blend_all_ok b o pre).
Qed.

(** Whether the cell is drawn again. *)
Definition redrawn (damaged : blit_rect) : bool :=
  RECT_INTERSECTS damaged c || existsb (fun l => truth (dirty_count (row l))) tp.

Lemma extends_none b o : holds bufs b o -> extends bufs b o [] b.
Proof using. clear. intros Hh. split; [left; by rewrite more_nil|split; [done|simpl; lia]]. Qed.

Lemma subregion_blit_ok damaged b o : holds bufs b o ->
  runs (rgz_hwc_subregion_blit native cur h s params damaged) b (fun rv b' => rv = 0 /\
    extends bufs b o (if redrawn damaged then pair c <$> cell_acts native bufs (row <$> tp) else []) b').
Proof using R Pm.
  intros Hh. destruct tops_shape as (l & rest & E & Ho & Hrest). pose proof (top_ok [] l rest E) as (Hl & Hp & Hu).
  unfold rgz_hwc_subregion_blit.
  assert (lift (get_layer_ops native cur h s) b = Ok ((Z.of_nat (length tp), Z.of_nat l), b)) as Eops.
  { unfold lift. rewrite (layer_ops_ok native cur h s row c present (cr_row R) (cr_rect R) cell_nonempty native_some) by (pose proof (cr_count R); lia).
    fold tp. by rewrite E. }
  refine (runs_step _ _ _ _ _ _ Eops _). cbv beta iota. rewrite (proj2 (Z.eqb_neq _ _)) by (rewrite E; simpl; lia).
  refine (runs_step _ _ _ _ _ _ (rect_step b l Hl Hp) _).
  assert ((if RECT_INTERSECTS damaged c then mret true else lift (dirty_loop (S (Z.to_nat (nlayers h))) cur h s (Z.of_nat l))) b = Ok (redrawn damaged, b)) as Ed.
  { unfold redrawn. destruct (RECT_INTERSECTS damaged c); [done|]. unfold lift.
    pose proof (dirty_loop_ok native cur h s row c present (cr_row R) (cr_rect R) cell_nonempty cell_count tp [] (S (Z.to_nat (nlayers h)))) as Hd.
    fold tp in Hd.
    assert (match tp with [] => -1 | l :: _ => Z.of_nat l end = Z.of_nat l) as Em by by rewrite E.
    rewrite Em in Hd. rewrite Hd; [done|done|].
    destruct (tops_suffix native h row present) as [pre0 E0]. fold tp in E0. apply (f_equal length) in E0. rewrite length_app in E0.
    assert (length (here h present) <= n)%nat as Hlen by (unfold here; etrans; [apply length_filter|by rewrite length_seq]).
    unfold n in Hlen. lia. }
  refine (runs_step _ _ _ _ _ _ Ed _). destruct (redrawn damaged); simpl negb; cbv iota; [|apply st_runs_ret; split; [done|by apply extends_none]].
  refine (runs_step _ _ _ _ _ _ (row_step b l Hl) _).
  rewrite E, fmap_cons. unfold cell_acts.
  assert (forall l' post, rest = l' :: post -> drawable native (row l') (native_for native (row l'))) as Hd.
  { intros l' post ->. apply usable_clear; [by apply (top_ok [l] l' post E)|apply Hrest; by left]. }
  assert (forall l' post, Z.of_nat (length (l :: l' :: post)) - 1 = Z.of_nat (length (l' :: post))) as Hm1 by (intros; simpl length; lia).
  destruct Hu as [[[Hb|Hb] _]|D].
  - rewrite Hb, Z.eqb_refl. change (RGZ_BACKGROUND_BUFFIDX <? 0) with true. cbn [andb]. destruct rest as [|l' post].
    + change (Z.of_nat (length [l]) =? 1) with true. cbv iota. eapply st_runs_bind; [by apply clear_emit|]. intros [] b' X. by apply st_runs_ret.
    + rewrite (proj2 (Z.eqb_neq (Z.of_nat (length (l :: l' :: post))) 1)) by (simpl length; lia).
      refine (runs_step _ _ _ _ _ _ (eq_trans (st_bind_ok _ _ _ _ _ (next_step [] l (l' :: post) b E)) eq_refl) _).
      cbv beta iota. pose proof (top_ok [l] l' post E) as (Hl' & Hp' & _). pose proof (Hd l' post eq_refl) as D'.
      refine (runs_step _ _ _ _ _ _ (row_step b l' Hl') _). rewrite (proj2 (Z.eqb_neq (buffidx (row l')) _)) by (pose proof (drawable_index _ _ _ D'); unfold RGZ_CLEARHINT_BUFFIDX; lia).
      rewrite Hm1. eapply st_runs_bind; [by apply (subregion_draw_ok b o [l])|]. intros [] b' X. by apply st_runs_ret.
  - rewrite Hb. change (RGZ_CLEARHINT_BUFFIDX =? RGZ_BACKGROUND_BUFFIDX) with false. change (RGZ_CLEARHINT_BUFFIDX <? 0) with true. cbn [andb].
    refine (runs_step _ _ _ _ _ _ eq_refl _). cbv beta iota. refine (runs_step _ _ _ _ _ _ (row_step b l Hl) _). rewrite Hb, Z.eqb_refl. destruct rest as [|l' post].
    + change (Z.of_nat (length [l]) - 1 =? 0) with true. cbv iota. refine (runs_step _ _ _ _ _ _ (rect_step b l Hl Hp) _).
      eapply st_runs_bind; [by apply clear_emit|]. intros [] b' X. by apply st_runs_ret.
    + rewrite (proj2 (Z.eqb_neq (Z.of_nat (length (l :: l' :: post)) - 1) 0)) by (simpl length; lia).
      refine (runs_step _ _ _ _ _ _ (next_step [] l (l' :: post) b E) _). cbv beta iota. pose proof (Hd l' post eq_refl) as D'.
      rewrite Hm1. eapply st_runs_bind; [by apply (subregion_draw_ok b o [l])|]. intros [] b' X. by apply st_runs_ret.
  - pose proof (drawable_index _ _ _ D) as Hi. rewrite (proj2 (Z.eqb_neq (buffidx (row l)) _)) by (unfold RGZ_BACKGROUND_BUFFIDX; lia). cbn [andb].
    refine (runs_step _ _ _ _ _ _ eq_refl _). cbv beta iota. refine (runs_step _ _ _ _ _ _ (row_step b l Hl) _).
    rewrite (proj2 (Z.eqb_neq (buffidx (row l)) _)) by (unfold RGZ_CLEARHINT_BUFFIDX; lia).
    rewrite (proj2 (Z.ltb_ge _ _)) by lia.
    eapply st_runs_bind; [by apply (subregion_draw_ok b o [])|]. intros [] b' X. by apply st_runs_ret.
Qed.
End Draw.
