(* ===== verification/RgzOutput.v ===== *)
(** * The blits of a frame

    What is on the screen after the blits of [rgz_out_region]: at the points of
    the cells that are drawn again the windows there, one over the other, and
    at all others what was there before. *)

From stdpp Require Import base list numbers option.
From Stdlib Require Import ZArith Lia.
From S2P Require Import Prelude Stateful Rgz RgzLists RgzRegions RgzEngine RgzEntries RgzCells.
From stdpp Require Import list.

Local Open Scope Z_scope.

(** ** Windows one over the other *)

Section Composite.
Context {px : Type} `{EngineLaws px}.
Context (native : Z -> option IMG_native_handle).

(** The pixel that [l] makes of the one below it. *)
Definition layer_pixel (p : Z * Z) (under : px) (l : rgz_layer) : px :=
  if buffidx l <? 0 then cleared
  else let s := fetch (layer_sample (native_for native l) (hwc_layer l) p) in if opaque native l then s else over s under.

Definition composite (p : Z * Z) (ls : list rgz_layer) (under : px) : px := foldl (layer_pixel p) under ls.

Lemma composite_top p ls u u' : Forall (usable native) ls -> existsb (opaque native) ls = true ->
  composite p ls u = composite p (top_part (opaque native) ls) u'.
Proof.
  revert u u'. induction ls as [|l ls IH]; intros u u' Hu Ho; [done|]. apply Forall_cons in Hu as [Hl Hls]. simpl in *.
  destruct (existsb (opaque native) ls) eqn:E; [by apply IH|]. rewrite orb_false_r in Ho. unfold composite. simpl. f_equal.
  unfold layer_pixel. rewrite Ho. by destruct (buffidx l <? 0).
Qed.

Context (bufs : Z -> Z).

(** [bufs] knows the buffers of the windows. *)
Definition known (ls : list rgz_layer) : Prop := forall l, l ∈ ls -> 0 <= buffidx l -> bufs (buffidx l) = handle (hwc_layer l).

Lemma sample_known l ls p : known ls -> l ∈ ls -> 0 <= buffidx l ->
  sample_of native bufs l p = layer_sample (native_for native l) (hwc_layer l) p.
Proof. intros K Hl Hb. unfold sample_of, shown, layer_sample. by rewrite (K l Hl Hb). Qed.

Lemma blends_effect c p ls scr : covers c p -> known ls ->
  (forall l, l ∈ ls -> 0 <= buffidx l /\ opaque native l = false) ->
  foldl effect scr (pair c <$> ((fun l => Blends (sample_of native bufs l)) <$> ls)) p = composite p ls (scr p).
Proof.
  intros Hp. revert scr. induction ls as [|l ls IH]; intros scr K Hl; [done|]. rewrite !fmap_cons. cbn [foldl].
  rewrite IH; [|intros l' ?; apply K; by right|intros l' ?; apply Hl; by right].
  unfold composite. simpl. f_equal. unfold effect, layer_pixel. simpl. rewrite decide_True by done.
  destruct (Hl l) as [Hb Ho]; [by left|]. rewrite (proj2 (Z.ltb_ge _ _)) by lia. rewrite Ho. by rewrite (sample_known l (l :: ls)) by (done || by left).
Qed.

Lemma blend_acts_effect c p l ls scr u : covers c p -> known (l :: ls) -> 0 <= buffidx l ->
  (opaque native l = true \/ u = cleared) -> (forall l, l ∈ ls -> 0 <= buffidx l /\ opaque native l = false) ->
  foldl effect scr (pair c <$> blend_acts native bufs (l :: ls)) p = composite p (l :: ls) u.
Proof.
  intros Hp K Hb Ho Hls.
  assert (layer_pixel p u l = fetch (sample_of native bufs l p)) as E.
  { unfold layer_pixel. rewrite (proj2 (Z.ltb_ge _ _)) by lia. rewrite (sample_known l (l :: ls)) by (done || by left).
    destruct Ho as [-> | ->]; [done|]. destruct (opaque native l); [done|apply over_cleared]. }
  unfold blend_acts. destruct ls as [|l' ls].
  - unfold composite. simpl. rewrite E. unfold effect. simpl. by rewrite decide_True.
  - unfold composite. simpl. rewrite E. destruct (Hls l') as [Hb' Ho']; [by left|].
    assert (layer_pixel p (fetch (sample_of native bufs l p)) l' = over (fetch (sample_of native bufs l' p)) (fetch (sample_of native bufs l p))) as E'.
    { unfold layer_pixel. rewrite (proj2 (Z.ltb_ge _ _)), Ho' by lia. rewrite (sample_known l' (l :: l' :: ls)) by (done || (right; by left)). done. }
    rewrite E'. rewrite fmap_app, foldl_app.
    rewrite (blends_effect c p ls _ Hp); [|intros x ?; apply K; right; by right|intros x ?; apply Hls; by right].
    unfold composite. f_equal. destruct (together native l' l); simpl; unfold effect; simpl; by rewrite !decide_True.
Qed.

(** The blits of a cell draw what its windows show. *)
Lemma cell_effect c p l ls scr u : covers c p -> known (l :: ls) -> usable native l -> opaque native l = true ->
  (forall l, l ∈ ls -> usable native l /\ opaque native l = false) ->
  foldl effect scr (pair c <$> cell_acts native bufs (l :: ls)) p = composite p (l :: ls) u.
Proof.
  intros Hp K Hu Ho Hls.
  assert (forall l, l ∈ ls -> 0 <= buffidx l /\ opaque native l = false) as Hls'.
  { intros x Hx. destruct (Hls x Hx) as [Hux Hox]. split; [|done]. by apply (drawable_index native _ (native_for native x)), usable_clear. }
  unfold cell_acts. destruct (Z.ltb_spec (buffidx l) 0) as [Hb|Hb]; [|by apply blend_acts_effect; auto].
  assert (layer_pixel p u l = cleared) as E by (unfold layer_pixel; by rewrite (proj2 (Z.ltb_lt _ _))).
  destruct ls as [|l' ls].
  - unfold composite. simpl. rewrite E. unfold effect. simpl. by rewrite decide_True.
  - rewrite (blend_acts_effect c p l' ls scr cleared); [unfold composite; simpl; by rewrite E|done|..].
    + intros x ?; apply K; by right.
    + apply Hls'. by left.
    + by right.
    + intros x ?; apply Hls'; by right.
Qed.
End Composite.

(** ** The windows at a point *)

(** The layers of a frame, and those that cover a point. *)
Definition all_layers (cur : rgz_fb_state) : list rgz_layer := take (count_of cur) (rgz_layers cur).
Definition stack (cur : rgz_fb_state) (p : Z * Z) : list rgz_layer :=
  filter (fun l => covers (displayFrame (hwc_layer l)) p) (all_layers cur).

(** Picking elements of a list by their numbers. *)
Lemma filter_by_index {A} (js : list A) (f : nat -> A) (B : A -> Prop) `{!forall x, Decision (B x)} : forall k,
  (forall i x, js !! i = Some x -> f (k + i)%nat = x) -> f <$> filter (fun i => B (f i)) (seq k (length js)) = filter B js.
Proof.
  induction js as [|x js IH]; intros k Hf; [done|]. simpl.
  assert (f k = x) as E by (rewrite <- (Hf 0%nat x eq_refl); f_equal; lia).
  assert (f <$> filter (fun i => B (f i)) (seq (S k) (length js)) = filter B js) as E'.
  { apply IH. intros i y Hi. rewrite <- (Hf (S i) y Hi). f_equal. lia. }
  destruct (decide (B x)).
  - rewrite !filter_cons_True by (by rewrite ?E). rewrite fmap_cons, E'. by rewrite E.
  - rewrite !filter_cons_False by (by rewrite ?E). done.
Qed.

Lemma filter_filter_and {A} (P Q R : A -> Prop) `{!forall x, Decision (P x)} `{!forall x, Decision (Q x)} `{!forall x, Decision (R x)} (l : list A) :
  (forall x, x ∈ l -> R x <-> P x /\ Q x) -> filter P (filter Q l) = filter R l.
Proof.
  induction l as [|x l IH]; intros Hx; [done|]. assert (filter P (filter Q l) = filter R l) as E by (apply IH; intros y ?; apply Hx; by right).
  pose proof (Hx x ltac:(by left)). destruct (decide (Q x)).
  - rewrite (filter_cons_True Q) by done. destruct (decide (P x)).
    + rewrite (filter_cons_True P), (filter_cons_True R) by tauto. by rewrite E.
    + rewrite (filter_cons_False P), (filter_cons_False R) by tauto. done.
  - rewrite (filter_cons_False Q), (filter_cons_False R) by tauto. done.
Qed.

Section Frame.
Context (native : Z -> option IMG_native_handle) (cur : rgz_fb_state) (W H : Z) (hs : list blit_hregion) (ys : list Z) (k : nat).
Context (F : frame_ok cur W H) (T : tiling cur W H hs ys k) (HW : W <= BOUND /\ H <= BOUND).
Context (U : forall l, l ∈ all_layers cur -> usable native l).
Context (G : forall l, rgz_layers cur !! 0%nat = Some l -> opaque native l = true).

Definition nth_layer (j : nat) : rgz_layer := default zero_rgz_layer (rgz_layers cur !! j).
Definition row_index (h : blit_hregion) (l : nat) : nat := default 0%nat (row_layers cur (hr_rect h) (count_of cur) !! l).
Definition row_of (h : blit_hregion) (l : nat) : rgz_layer := nth_layer (row_index h l).
Definition present_in (h : blit_hregion) (s : nat) (l : nat) : bool := RECT_INTERSECTS (subregion h s) (frame_at cur (row_index h l)).

Lemma nth_layer_spec j : (j < count_of cur)%nat ->
  rgz_layers cur !! j = Some (nth_layer j) /\ displayFrame (hwc_layer (nth_layer j)) = frame_at cur j /\ nth_layer j ∈ all_layers cur.
Proof using F.
  intros Hj. pose proof (fo_room _ _ _ F). destruct (lookup_lt_is_Some_2 (rgz_layers cur) j ltac:(lia)) as [x Hx].
  unfold nth_layer, frame_at. rewrite Hx. simpl. split; [done|]. split; [done|]. apply list_elem_of_lookup. exists j. unfold all_layers. by rewrite lookup_take_lt.
Qed.

Lemma cell_row_ready i s h : cell_at hs i s h -> exists top bottom os n,
  ys !! i = Some top /\ ys !! S i = Some bottom /\ (S i < k)%nat /\ (S s < n)%nat /\ region cur W top bottom h os n /\
  (0 <= top < bottom /\ bottom <= H) /\ subregion h s = cell_of os top bottom s.
Proof using F T. by apply (cell_facts cur W H hs ys k F T). Qed.

Lemma cell_is_ready i s h : cell_at hs i s h -> cell_ready native cur h s (row_of h) (subregion h s) (present_in h s) W H.
Proof using F T HW U G.
  intros A. destruct (cell_row_ready i s h A) as (top & bottom & os & n & Ht & Hb & Hi & Hs & R & Hy & E).
  pose proof (rg_nlayers _ _ _ _ _ _ _ R) as Hn. set (js := row_layers cur (hr_rect h) (count_of cur)) in *.
  assert (forall l, (l < Z.to_nat (nlayers h))%nat -> js !! l = Some (row_index h l) /\ (row_index h l < count_of cur)%nat) as Hjs.
  { intros l Hl. destruct (lookup_lt_is_Some_2 js l ltac:(lia)) as [j Hj]. unfold row_index. fold js. rewrite Hj. simpl. split; [done|].
    assert (j ∈ js) as Hin by by eapply list_elem_of_lookup_2. by apply row_layers_spec in Hin as [? _]. }
  destruct (cell_shape cur W top bottom h os n R s Hs) as (u & v & Hu & Hv & Ec & Huv & HvW).
  pose proof (row_head cur W H top bottom h os n F R Hy) as Hhead. fold js in Hhead.
  assert (0 < nlayers h) as Hpos by (pose proof (lookup_lt_Some _ _ _ Hhead); lia).
  split.
  - intros l Hl. destruct (Hjs l Hl) as [Hj Hc]. unfold region_layer. rewrite (rg_layers _ _ _ _ _ _ _ R).
    fold js. rewrite (row_pointers_lookup _ _ _ Hj). unfold row_of. by rewrite (proj1 (nth_layer_spec _ Hc)).
  - intros l Hl. destruct (Hjs l Hl) as [Hj Hc]. rewrite (rg_cells _ _ _ _ _ _ _ R l _ s Hj Hs). unfold present_in, cell_rect. rewrite E. done.
  - done.
  - intros l Hl _. destruct (Hjs l Hl) as [Hj Hc]. apply U. by apply nth_layer_spec.
  - intros l p Hl Hp Hc. destruct (Hjs l Hl) as [Hj Hlt]. unfold row_of. rewrite (proj1 (proj2 (nth_layer_spec _ Hlt))).
    rewrite E in Hc. unfold present_in in Hp. rewrite E in Hp.
    assert (row_index h l ∈ js) as Hin by by eapply list_elem_of_lookup_2.
    apply (cell_uniform cur W top bottom h os n R s _ p Hs Hin Hc); [|done].
    apply row_layers_spec in Hin as [_ Hin]. rewrite (rg_rect _ _ _ _ _ _ _ R) in Hin. apply intersects_spec in Hin. simpl in Hin.
    pose proof (os_high _ _ _ (fo_frames _ _ _ F _ Hlt)).
    apply (row_uniform cur W H hs ys k T i top bottom _ (Z.max top (r_top (frame_at cur (row_index h l)))) Hi Ht Hb Hlt); lia.
  - rewrite E, Ec. unfold BOUND in *. simpl. split; [split; unfold near; simpl; lia|lia].
  - exists 0%nat. split; [lia|]. destruct (Hjs 0%nat ltac:(lia)) as [H0 _]. rewrite Hhead in H0. injection H0 as H0. unfold present_in, row_of. rewrite <- H0. split.
    + rewrite E, Ec, (fo_ground _ _ _ F). apply intersects_spec. simpl. destruct (fo_size _ _ _ F). lia.
    + pose proof (fo_some _ _ _ F). apply G. apply nth_layer_spec. unfold count_of. lia.
Qed.

(** The layers of a cell are those at its points. *)
Lemma cell_stack i s h p : cell_at hs i s h -> covers (subregion h s) p -> row_of h <$> here h (present_in h s) = stack cur p.
Proof using F T.
  intros A Hp. destruct (cell_row_ready i s h A) as (top & bottom & os & n & Ht & Hb & Hi & Hs & R & Hy & E).
  pose proof (rg_nlayers _ _ _ _ _ _ _ R) as Hn. set (js := row_layers cur (hr_rect h) (count_of cur)) in *.
  unfold here, present_in. rewrite Hn, Nat2Z.id. change (row_of h) with (nth_layer ∘ row_index h). rewrite list_fmap_compose. fold js.
  etrans; [apply f_equal, (@filter_by_index nat js (row_index h) (fun j => RECT_INTERSECTS (subregion h s) (frame_at cur j) = true) (fun j => decide_rel (=) (RECT_INTERSECTS (subregion h s) (frame_at cur j)) true) 0)|].
  { intros l j Hj. unfold row_index. fold js. simpl. by rewrite Hj. }
  unfold js, row_layers.
  rewrite (filter_filter_and _ _ (fun j => covers (displayFrame (hwc_layer (nth_layer j))) p)).
  - unfold stack. rewrite <- (filter_by_index (all_layers cur) nth_layer (fun l => covers (displayFrame (hwc_layer l)) p) 0).
    + do 2 f_equal. unfold all_layers. rewrite length_take. f_equal. pose proof (fo_room _ _ _ F). lia.
    + intros j x Hj. simpl. unfold all_layers in Hj. apply lookup_take_Some in Hj as [Hj _]. unfold nth_layer. by rewrite Hj.
  - intros j [_ Hj]%elem_of_seq. rewrite (proj1 (proj2 (nth_layer_spec j Hj))).
    destruct (cell_shape cur W top bottom h os n R s Hs) as (u & v & Hu & Hv & Ec & Huv & HvW). split.
    + intros Hf. split; [by apply (covers_intersects _ _ p)|]. rewrite E, Ec in Hp. destruct Hp as [Hpx Hpy], Hf as [Hfx Hfy]. simpl in *.
      rewrite (rg_rect _ _ _ _ _ _ _ R). apply intersects_spec. simpl. lia.
    + intros [Hin Hrow]. assert (j ∈ js) as Hjs by (apply row_layers_spec; done). rewrite E in *.
      apply (cell_uniform cur W top bottom h os n R s j p Hs Hjs Hp); [|done].
      rewrite (rg_rect _ _ _ _ _ _ _ R) in Hrow. apply intersects_spec in Hrow. simpl in Hrow.
      pose proof (os_high _ _ _ (fo_frames _ _ _ F _ Hj)).
      apply (row_uniform cur W H hs ys k T i top bottom _ (Z.max top (r_top (frame_at cur j))) Hi Ht Hb Hj); lia.
Qed.

(** The layers that matter at a point. *)
Definition visible (p : Z * Z) : list rgz_layer := top_part (opaque native) (stack cur p).

Lemma top_part_fmap {A B} (f : A -> B) (o : B -> bool) l : f <$> top_part (fun x => o (f x)) l = top_part o (f <$> l).
Proof using.
  clear. induction l as [|x l IH]; [done|]. rewrite fmap_cons. cbn [top_part].
  assert (existsb (fun x => o (f x)) l = existsb o (f <$> l)) as -> by (clear; induction l as [|y l IH]; simpl; [done|by rewrite IH]).
  destruct (existsb o (f <$> l)); [exact IH|reflexivity].
Qed.

Lemma cell_visible i s h p : cell_at hs i s h -> covers (subregion h s) p ->
  row_of h <$> tops native h (row_of h) (present_in h s) = visible p.
Proof using F T. intros A Hp. unfold tops. rewrite top_part_fmap. by rewrite (cell_stack i s h p A Hp). Qed.

Definition is_dirty (l : rgz_layer) : bool := truth (dirty_count l).

(** Whether a cell is drawn again. *)
Definition cell_redrawn (damaged : blit_rect) (h : blit_hregion) (s : nat) : bool :=
  redrawn native h (row_of h) (subregion h s) (present_in h s) damaged.

Lemma existsb_fmap {A B} (f : A -> B) (g : B -> bool) l : existsb g (f <$> l) = existsb (fun x => g (f x)) l.
Proof using. clear. induction l as [|x l IH]; [done|]. rewrite fmap_cons. cbn [existsb]. by rewrite IH. Qed.

Lemma cell_redrawn_visible damaged i s h p : cell_at hs i s h -> covers (subregion h s) p ->
  cell_redrawn damaged h s = RECT_INTERSECTS damaged (subregion h s) || existsb is_dirty (visible p).
Proof using F T.
  intros A Hp. unfold cell_redrawn, redrawn. f_equal. rewrite <- (cell_visible i s h p A Hp). by rewrite existsb_fmap.
Qed.

Context (bufs : Z -> Z) (params : rgz_out_params) (g : bvsurfgeom) (damaged : blit_rect) (Pm : params_ok g W H params).

Definition cell_drawings (h : blit_hregion) (s : nat) : list drawing :=
  if cell_redrawn damaged h s
  then pair (subregion h s) <$> cell_acts native bufs (row_of h <$> tops native h (row_of h) (present_in h s)) else [].
Definition row_drawings (h : blit_hregion) (l : list nat) : list drawing := l ≫= cell_drawings h.
Definition frame_drawings (l : list blit_hregion) : list drawing := l ≫= (fun h => row_drawings h (seq 0 (Z.to_nat (nsubregions h)))).

Lemma subregions_ok i h : forall l b o, (forall s, s ∈ l -> cell_at hs i s h) -> holds bufs b o ->
  runs (subregions_loop native cur h params damaged l) b (fun rv b' => rv = 0 /\ extends bufs b o (row_drawings h l) b').
Proof using F T HW U G Pm.
  induction l as [|s l IH]; intros b o Hl Hh; cbn [subregions_loop]; [apply st_runs_ret; split; [done|by apply extends_none]|].
  pose proof (cell_is_ready i s h (Hl s ltac:(by left))) as R.
  eapply st_runs_bind; [apply (subregion_blit_ok native cur h s (row_of h) _ _ g W H bufs params R Pm damaged b o Hh)|].
  intros rv b1 [-> X]. cbn [truth Z.eqb negb]. destruct (holds_of _ _ _ _ _ X) as (o1 & Ho1 & Hh1).
  eapply st_runs_mono; [apply (IH b1 o1); [intros s' ?; apply Hl; by right|done]|]. intros rv b' [-> X']. split; [done|].
  unfold row_drawings. rewrite bind_cons. by eapply extends_next.
Qed.

Lemma hregions_ok : forall l i b o, (forall j h, l !! j = Some h -> hs !! (i + j)%nat = Some h) -> holds bufs b o ->
  runs (hregions_loop native cur params damaged l) b (fun rv b' => rv = 0 /\ extends bufs b o (frame_drawings l) b').
Proof using F T HW U G Pm.
  induction l as [|h l IH]; intros i b o Hl Hh; cbn [hregions_loop]; [apply st_runs_ret; split; [done|by apply extends_none]|].
  assert (hs !! i = Some h) as Hi by (rewrite <- (Nat.add_0_r i); by apply Hl).
  destruct (tl_row _ _ _ _ _ _ T i h Hi) as (top & bottom & os & n & Ht & Hb & R).
  assert (forall s, s ∈ seq 0 (Z.to_nat (nsubregions h)) -> cell_at hs i s h) as Hcells.
  { intros s [_ Hs]%elem_of_seq. split; [done|lia]. }
  assert ((nlayers h =? 0) = false) as ->.
  { apply Z.eqb_neq. rewrite (rg_nlayers _ _ _ _ _ _ _ R). pose proof (lookup_lt_Some _ _ _ Hi). pose proof (tl_rows _ _ _ _ _ _ T).
    pose proof (row_bounds cur W H hs ys k T i top bottom ltac:(lia) Ht Hb) as Hy.
    pose proof (lookup_lt_Some _ _ _ (row_head cur W H top bottom h os n F R Hy)). lia. }
  eapply st_runs_bind; [by apply (subregions_ok i h _ b o)|].
  intros rv b1 [-> X]. cbn [truth Z.eqb negb]. destruct (holds_of _ _ _ _ _ X) as (o1 & Ho1 & Hh1).
  eapply st_runs_mono; [apply (IH (S i) b1 o1); [|done]|].
  - intros j h' Hj. replace (S i + j)%nat with (i + S j)%nat by lia. by apply Hl.
  - intros rv b' [-> X']. split; [done|]. unfold frame_drawings. rewrite bind_cons. by eapply extends_next.
Qed.

(** ** What the drawings of a frame do *)

Context {px : Type} `{EngineLaws px}.
Context (K : known bufs (all_layers cur)).

Lemma stack_layers p l : l ∈ stack cur p -> l ∈ all_layers cur.
Proof using. intros Hl. by apply list_elem_of_filter in Hl as [_ Hl]. Qed.

Lemma visible_layers p l : l ∈ visible p -> l ∈ stack cur p.
Proof using.
  intros Hl. unfold visible in Hl. destruct (top_part_suffix (opaque native) (stack cur p)) as [pre E]. rewrite E.
  apply elem_of_app. by right.
Qed.

(** Without a damaged area and without layers to be drawn again nothing is drawn. *)
Lemma clean_cell i s h : cell_at hs i s h -> damaged = zero_rect -> (forall l, l ∈ all_layers cur -> dirty_count l = 0) ->
  cell_redrawn damaged h s = false.
Proof using F T.
  intros A -> Hclean. destruct (cell_row_ready i s h A) as (top & bottom & os & n & _ & _ & _ & Hs & R & Hy & E).
  destruct (cell_shape cur W top bottom h os n R s Hs) as (u & v & _ & _ & Ec & Huv & _).
  rewrite (cell_redrawn_visible zero_rect i s h (u, top) A) by (rewrite E, Ec; split; simpl; lia). apply orb_false_iff. split.
  - rewrite <- not_true_iff_false, intersects_spec, E, Ec. simpl. lia.
  - rewrite <- not_true_iff_false, existsb_exists. intros (l & Hl%list_elem_of_In & Hd).
    unfold is_dirty, truth in Hd. by rewrite (Hclean l (stack_layers _ _ (visible_layers _ _ Hl))) in Hd.
Qed.

Lemma clean_drawings : damaged = zero_rect -> (forall l, l ∈ all_layers cur -> dirty_count l = 0) -> frame_drawings hs = [].
Proof using F T.
  intros Hd Hclean. assert (forall d, d ∉ frame_drawings hs) as Hn.
  { intros d (h & Hd' & [i Hi]%list_elem_of_lookup)%list_elem_of_bind. apply list_elem_of_bind in Hd' as (s & Hd' & [_ Hs]%elem_of_seq).
    unfold cell_drawings in Hd'. rewrite (clean_cell i s h) in Hd' by (done || (split; [done|lia])). by apply elem_of_nil in Hd'. }
  by apply elem_of_nil_inv.
Qed.

(** The background is below every point. *)
Lemma stack_ground p : 0 <= p.1 < W -> 0 <= p.2 < H -> existsb (opaque native) (stack cur p) = true.
Proof using F G.
  intros Hx Hy. pose proof (fo_some _ _ _ F). destruct (nth_layer_spec 0) as (E & Ef & Hin); [unfold count_of; lia|].
  apply existsb_exists. exists (nth_layer 0). split; [|by apply G]. apply list_elem_of_In, list_elem_of_filter. split; [|done].
  rewrite Ef, (fo_ground _ _ _ F). done.
Qed.

Lemma cell_drawings_do i s h p scr : cell_at hs i s h -> 0 <= p.1 < W -> 0 <= p.2 < H ->
  foldl effect scr (cell_drawings h s) p =
  if decide (covers (subregion h s) p) then (if cell_redrawn damaged h s then composite native p (stack cur p) cleared else scr p) else scr p.
Proof using All.
  intros A Hx Hy. unfold cell_drawings. destruct (cell_redrawn damaged h s); [|by destruct (decide _)].
  destruct (decide (covers (subregion h s) p)) as [Hp|Hp].
  - rewrite (cell_visible i s h p A Hp). destruct (top_part_head (opaque native) (stack cur p) (stack_ground p Hx Hy)) as (l & rest & E & Ho & Hr).
    fold (visible p) in E. assert (forall x, x ∈ l :: rest -> x ∈ all_layers cur) as Hin
      by (intros x Hx'; apply (stack_layers p), visible_layers; by rewrite E).
    rewrite (composite_top native p (stack cur p) cleared cleared).
    + fold (visible p). rewrite E. apply cell_effect; [done| |apply U, Hin; by left|done|].
      * intros x Hx' Hb. by apply K; [apply Hin|].
      * intros x Hx'. split; [apply U, Hin; by right|]. destruct (opaque native x) eqn:Ex; [|done].
        rewrite <- Hr. symmetry. apply existsb_exists. exists x. split; [by apply list_elem_of_In|done].
    + apply Forall_forall. intros x Hx'. by apply U, (stack_layers p).
    + by apply stack_ground.
  - apply effects_outside. intros d (a & -> & _)%list_elem_of_fmap. done.
Qed.

Lemma row_drawings_do i h p : forall l scr, (forall s, s ∈ l -> cell_at hs i s h) -> 0 <= p.1 < W -> 0 <= p.2 < H ->
  foldl effect scr (row_drawings h l) p =
  if existsb (fun s => bool_decide (covers (subregion h s) p) && cell_redrawn damaged h s) l then composite native p (stack cur p) cleared else scr p.
Proof using All.
  induction l as [|s l IH]; intros scr Hl Hx Hy; [done|]. unfold row_drawings. rewrite bind_cons, foldl_app.
  rewrite (IH _ (fun s' Hs' => Hl s' ltac:(by right)) Hx Hy). simpl. rewrite (cell_drawings_do i) by first [done | apply Hl; by left].
  case_bool_decide as Hc.
  - rewrite decide_True by done. destruct (cell_redrawn damaged h s); simpl; [by destruct (existsb _ l)|done].
  - by rewrite decide_False.
Qed.

Definition point_redrawn (p : Z * Z) (l : list blit_hregion) : bool :=
  existsb (fun h => existsb (fun s => bool_decide (covers (subregion h s) p) && cell_redrawn damaged h s) (seq 0 (Z.to_nat (nsubregions h)))) l.

Lemma frame_drawings_do p : forall l i scr, (forall j h, l !! j = Some h -> hs !! (i + j)%nat = Some h) -> 0 <= p.1 < W -> 0 <= p.2 < H ->
  foldl effect scr (frame_drawings l) p = if point_redrawn p l then composite native p (stack cur p) cleared else scr p.
Proof using All.
  induction l as [|h l IH]; intros i scr Hl Hx Hy; [done|]. unfold frame_drawings. rewrite bind_cons, foldl_app.
  assert (hs !! i = Some h) as Hi by (rewrite <- (Nat.add_0_r i); by apply Hl).
  rewrite (IH (S i)); [|intros j h' Hj; replace (S i + j)%nat with (i + S j)%nat by lia; by apply Hl|done..].
  rewrite (row_drawings_do i) by first [done | intros s [_ Hs]%elem_of_seq; split; [done|lia]].
  unfold point_redrawn. simpl. by destruct (existsb _ (seq _ _)), (existsb _ l).
Qed.

(** A point is drawn again when its cell is. *)
Lemma point_redrawn_cell p i s h : cell_at hs i s h -> covers (subregion h s) p -> point_redrawn p hs = cell_redrawn damaged h s.
Proof using F T.
  intros A Hp. apply eq_true_iff_eq. unfold point_redrawn. rewrite existsb_exists. split.
  - intros (h' & Hh' & Hs'). apply existsb_exists in Hs' as (s' & Hs' & [Hc Hr]%andb_true_iff). apply bool_decide_eq_true in Hc.
    apply list_elem_of_In, list_elem_of_lookup in Hh' as [i' Hi']. apply list_elem_of_In, elem_of_seq in Hs'.
    assert (cell_at hs i' s' h') as A' by (split; [done|lia]).
    by destruct (cell_unique cur W H hs ys k F T p i s h i' s' h' A A' Hp Hc) as (_ & -> & ->).
  - intros Hr. exists h. destruct A as [Hh Hs]. split; [apply list_elem_of_In; by eapply list_elem_of_lookup_2|].
    apply existsb_exists. exists s. split; [apply list_elem_of_In, elem_of_seq; lia|]. rewrite Hr. by rewrite bool_decide_true.
Qed.
End Frame.

(** ** The handles of the windows *)

Definition windows (ls : list rgz_layer) : list rgz_layer := filter (fun l => buffidx l <> -1) ls.

Lemma handles_loop_ok : forall ls i b, (Z.to_nat i + length (windows ls) <= length (out_hndls b))%nat -> 0 <= i ->
  runs (handles_loop ls i) b (fun _ b' =>
    b' = set_out_hndls (take (Z.to_nat i) (out_hndls b) ++ ((fun l => handle (hwc_layer l)) <$> windows ls) ++
           drop (Z.to_nat i + length (windows ls)) (out_hndls b)) (out_nhndls b + Z.of_nat (length (windows ls))) b).
Proof.
  induction ls as [|l ls IH]; intros i b Hl Hi; cbn [handles_loop].
  - apply st_runs_ret. simpl. rewrite Nat.add_0_r, Z.add_0_r, take_drop. by destruct b.
  - unfold windows in *. destruct (Z.eqb_spec (buffidx l) (-1)) as [E|E].
    + rewrite filter_cons_False in * by tauto. by apply IH.
    + rewrite filter_cons_True in * by done. simpl in Hl.
      assert (put_handle i (handle (hwc_layer l)) b = Ok (tt, set_out_hndls (<[Z.to_nat i := handle (hwc_layer l)]> (out_hndls b)) (out_nhndls b + 1) b)) as Ep.
      { unfold put_handle. st_get. rewrite (proj2 (Z.ltb_ge _ _)), (proj2 (Z.leb_gt _ _)) by (simpl; lia). done. }
      refine (runs_step _ _ _ _ _ _ Ep _). eapply st_runs_mono; [apply IH; simpl; [rewrite length_insert; lia|lia]|].
      intros [] b' ->. simpl. replace (Z.to_nat (i + 1)) with (S (Z.to_nat i)) by lia.
      rewrite (take_S_r _ _ (handle (hwc_layer l))) by (rewrite list_lookup_insert_eq by lia; done). rewrite take_insert_ge by lia.
      rewrite drop_insert_lt by lia. simpl. unfold set_out_hndls; simpl. f_equal; [|lia]. rewrite <- app_assoc. simpl. by rewrite Nat.add_succ_r.
Qed.

(** ** The end of both commands *)

Section Output.
Context (bufs : Z -> Z).

(** The caller gets the commands, which do [ds], and the handles of [ws]. *)
Record output (ds : list drawing) (ws : list rgz_layer) (b : rgz_blts) : Prop := mk_output {
  ou_cmds : cmdp b = Some (bvcmds b) /\ cmdlen b = blts_idx b /\ out_blits b = blts_idx b /\ 0 <= blts_idx b < RGZ_MAX_BLITS;
  ou_draws : Forall2 (does bufs) (emitted b) ds;
  ou_count : out_nhndls b = Z.of_nat (length ws);
  ou_handles : forall i l, ws !! i = Some l -> out_hndls b !! i = Some (handle (hwc_layer l)) }.

(** The list was too short for [ds]. *)
Definition list_full (ds : list drawing) (b : rgz_blts) : Prop :=
  out_blits b = RGZ_MAX_BLITS /\ RGZ_MAX_BLITS <= Z.of_nat (length ds).

(** The last blit is waited for. *)
Lemma sync_ok b ds : holds bufs b (Some ds) \/ holds bufs b None -> 0 < blts_idx b ->
  exists b', update_blt (Z.to_nat (blts_idx b - 1)) (fun e => Ok (rgz_set_async false e)) b = Ok (tt, b') /\
    (holds bufs b' (Some ds) \/ holds bufs b' None) /\ out_hndls b' = out_hndls b /\ out_nhndls b' = out_nhndls b /\ blts_idx b' = blts_idx b.
Proof.
  intros Hb Hpos. assert (exists o, (o = Some ds \/ o = None) /\ holds bufs b o) as (o & Ho & Hh) by (destruct Hb; eauto).
  destruct (touch_ok bufs b o (Z.to_nat (blts_idx b - 1)) (fun e => Ok (rgz_set_async false e)) Hh) as ([] & b' & E & _ & (X & _)); [done| |].
  - intros e. eexists. split; [done|]. apply async_same.
  - exists b'. split; [done|]. split; [rewrite more_nil in X; destruct Ho as [-> | ->]; destruct X; auto|].
    unfold update_blt, found, lift, mbind, st_bind, modify in E. destruct (bvcmds b !! _); [|done]. simpl in E. by injection E as <-.
Qed.

Lemma finish_blits_ok b ds ws : holds bufs b (Some ds) \/ holds bufs b None -> blts_idx b <= Z.of_nat (length ds) ->
  out_nhndls b = Z.of_nat (length ws) -> (forall i l, ws !! i = Some l -> out_hndls b !! i = Some (handle (hwc_layer l))) ->
  runs finish_blits b (fun rv b' => (rv = 0 /\ output ds ws b') \/ (rv = -1 /\ list_full ds b')).
Proof.
  intros Hb Hle Hn Hh. unfold finish_blits. st_get. st_mod. apply st_runs_ret. unfold list_full. simpl. change RGZ_MAX_BLITS with 625.
  destruct Hb as [[[L I C] D]|[[L I C] D]].
  - change (out_blits (id b)) with (out_blits b). destruct (Z.leb_spec 625 (out_blits b)); [right; split; [done|]; lia|left]. split; [done|]. split; simpl; try done.
    change RGZ_MAX_BLITS with 625. split_and!; try done; lia.
  - change (out_blits (id b)) with (out_blits b). rewrite C, D. simpl. right. split; [done|]. split; [done|lia].
Qed.
End Output.

Section Region.
Context (native : Z -> option IMG_native_handle) (r : rgz) (W H : Z) (hs : list blit_hregion) (ys : list Z) (k : nat).
Context (F : frame_ok (cur_fb_state r) W H) (T : tiling (cur_fb_state r) W H hs ys k) (HW : W <= BOUND /\ H <= BOUND).
Context (U : forall l, l ∈ all_layers (cur_fb_state r) -> usable native l).
Context (G : forall l, rgz_layers (cur_fb_state r) !! 0%nat = Some l -> opaque native l = true).
Context (Hst : has (rgz_state r) RGZ_REGION_DATA = true) (Hhs : hregions r = Some hs) (Hn : nhregions r = Z.of_nat (length hs)).
Context (bufs : Z -> Z) (params : rgz_out_params) (g : bvsurfgeom) (Pm : params_ok g W H params) (Hop : out_op params = RGZ_OUT_BVCMD_REGION).

Lemma out_region_ok b : (length (windows (frame_layers (cur_fb_state r))) <= length (out_hndls b))%nat ->
  let ds := frame_drawings native (cur_fb_state r) bufs (damaged_area r) hs in
  runs (rgz_out native r params) b (fun rv b' =>
    (rv = 0 /\ output bufs ds (windows (frame_layers (cur_fb_state r))) b') \/ (rv = -1 /\ list_full ds b')).
Proof using All.
  intros Hlen ds. unfold rgz_out. rewrite Hop. simpl. unfold rgz_out_region. rewrite Hst, Hhs. simpl. unfold rgz_blts_init. st_mod.
  rewrite (po_cmd _ _ _ _ Pm). simpl. st_mod.
  rewrite Hn, Nat2Z.id, firstn_all.
  match goal with |- runs _ ?b0 _ => assert (holds bufs b0 (Some [])) as H0; [|assert (out_hndls b0 = out_hndls b /\ blts_idx b0 = 0) as [Eh Ei] by done; generalize dependent b0] end.
  { split; [split; [reflexivity|simpl; lia|done]|simpl; constructor]. }
  intros b0 H0 Eh Ei. eapply st_runs_bind; [by apply (hregions_ok native (cur_fb_state r) W H hs ys k F T HW U G bufs params g (damaged_area r) Pm hs 0 b0 (Some []))|].
  intros rv b1 [-> (Hb1 & Eh1 & Hi1)]. cbn [truth Z.eqb negb]. st_mod.
  eapply st_runs_bind; [apply handles_loop_ok; simpl; [rewrite Eh1, Eh; lia|lia]|]. intros [] b2 ->. cbv beta. st_get.
  set (hb := set_out_hndls _ _ _). set (ls := windows _) in *. fold ds in Hb1, Hi1.
  assert (holds bufs hb (Some ds) \/ holds bufs hb None) as Hhb.
  { destruct Hb1 as [[[? ? ?] ?]|[[? ? ?] ?]]; [left|right]; (split; [split; done|done]). }
  assert (exists b3, st_when (0 <? blts_idx hb) (update_blt (Z.to_nat (blts_idx hb - 1)) (fun e => Ok (rgz_set_async false e))) hb = Ok (tt, b3) /\
    (holds bufs b3 (Some ds) \/ holds bufs b3 None) /\ out_hndls b3 = out_hndls hb /\ out_nhndls b3 = out_nhndls hb /\ blts_idx b3 = blts_idx hb) as (b3 & E3 & Hb3 & Eh3 & En3 & Ei3).
  { unfold st_when. destruct (Z.ltb_spec 0 (blts_idx hb)) as [Hpos|Hpos]; [by apply sync_ok|by exists hb]. }
  refine (runs_step _ _ _ _ _ _ E3 _). apply finish_blits_ok; [done|rewrite Ei3; simpl; lia|by rewrite En3|].
  intros i l Hl. rewrite Eh3. simpl. rewrite lookup_app_l by (rewrite length_fmap; by eapply lookup_lt_Some). by rewrite list_lookup_fmap, Hl.
Qed.
End Region.
