(* ===== verification/RgzInput.v ===== *)
(** * From the layers of a frame to its regions

    The check of the layers, the damaged area, and [rgz_in] as a whole. *)

From stdpp Require Import base list numbers option.
From Stdlib Require Import ZArith Lia.
From S2P Require Import Prelude Stateful Rgz RgzLists RgzRegions RgzEngine RgzEntries RgzCells RgzOutput.
From stdpp Require Import list.

Local Open Scope Z_scope.

(** * The layers of a frame

    [rgz_in_hwccheck] makes a frame of the layers that are to be blitted, behind
    the background: [picked] are these layers with the numbers of their
    buffers.  It refuses a frame with a layer that cannot be blitted, with none
    or with too many. *)

Section EachRules.
Context {S : Type}.

Lemma st_each_inv (P : nat -> S -> Prop) (f : nat -> ST S unit) n : forall k s,
  P k s -> (forall i s, (k <= i < k + n)%nat -> P i s -> runs (f i) s (fun _ s' => P (Datatypes.S i) s')) ->
  runs (st_each (seq k n) f) s (fun _ s' => P (k + n)%nat s').
Proof.
  induction n as [|n IH]; intros k s Hk Hf; simpl.
  - apply st_runs_ret. by rewrite Nat.add_0_r.
  - eapply st_runs_bind; [apply Hf; [lia|done]|]. intros [] s' Hs'. replace (k + Datatypes.S n)%nat with (Datatypes.S k + n)%nat by lia.
    apply IH; [done|]. intros i s'' Hi. apply Hf. lia.
Qed.
End EachRules.

(** ** The layers picked *)

(** A layer that is for the frame buffer, one whose area is to be cleared. *)
Definition is_window (l : hwc_layer_1) : bool := compositionType l =? HWC_FRAMEBUFFER.
Definition is_clear (l : hwc_layer_1) : bool := negb (is_window l) && has (hints l) HWC_HINT_CLEAR_FB.

(** The layers with their identities as they are put behind the background. *)
Fixpoint picked (memidx : Z) (ls : list (hwc_layer_1 * Z)) : list rgz_layer :=
  match ls with
  | [] => []
  | (l, id) :: ls =>
      if is_window l then mk_rgz_layer l id memidx 0 :: picked (memidx + 1) ls
      else if is_clear l then mk_rgz_layer (set_handle 0x1 l) id RGZ_CLEARHINT_BUFFIDX 0 :: picked memidx ls
      else picked memidx ls
  end.

(** Layers that differ in how often they are to be drawn again. *)
Definition recount (a b : rgz_layer) : Prop := exists c, b = set_dirty_count c a.

#[export] Instance recount_equiv : Equivalence recount.
Proof.
  split.
  - intros [a b c d]. by exists d.
  - intros [a b c d] ? [c' ->]. by exists d.
  - intros ? ? ? [c ->] [c' ->]. by exists c'.
Qed.

Section Check.
Context (native : Z -> option IMG_native_handle) (bg_layer : hwc_layer_1) (p : rgz_in_params) (ls : list hwc_layer_1).

(** The frame asks for no buffer that is not there. *)
Record layers_given : Prop := mk_layers_given {
  lg_layers : layers p = Some ls;
  lg_count : layerno p = Z.of_nat (length ls);
  lg_ext : (length ls <= length (extlayers p))%nat;
  lg_native : forall l, l ∈ ls -> is_window l = true -> has (flags l) HWC_SKIP_LAYER = false -> handle l <> 0 -> is_Some (native (handle l)) }.

Definition valid (l : hwc_layer_1) : bool :=
  match rgz_in_valid_hwc_layer native l with Ok b => b | Fault _ => false end.

Lemma valid_ok l : layers_given -> l ∈ ls -> is_window l = true -> rgz_in_valid_hwc_layer native l = Ok (valid l).
Proof.
  intros L Hl Hw. pose proof (lg_native L l Hl Hw) as Hn. unfold valid, rgz_in_valid_hwc_layer.
  destruct (has (flags l) HWC_SKIP_LAYER); [done|]. destruct (Z.eqb_spec (handle l) 0) as [|Hne]; [done|]. simpl.
  destruct Hn as [h Hh]; [done..|]. unfold native_of. rewrite Hh. simpl.
  destruct (is_NV12 (iFormat h)); [done|]. destruct (truth (transform l) && _); [done|]. by destruct (iFormat h).
Qed.

(** The layers from the [l]th on. *)
Definition rest (l : nat) : list (hwc_layer_1 * Z) := drop l (zip ls (extlayers p)).

Lemma rest_step l : layers_given -> (l < length ls)%nat -> exists x id, ls !! l = Some x /\ extlayers p !! l = Some id /\ x ∈ ls /\ rest l = (x, id) :: rest (S l).
Proof.
  intros L Hl. destruct (lookup_lt_is_Some_2 ls l Hl) as [x Hx]. pose proof (lg_ext L).
  destruct (lookup_lt_is_Some_2 (extlayers p) l ltac:(lia)) as [id Hid]. exists x, id. split; [done|]. split; [done|].
  split; [by eapply list_elem_of_lookup_2|]. unfold rest. apply drop_S. rewrite lookup_zip_with, Hx. simpl. by rewrite Hid.
Qed.

(** The frame in the making: [acc] is behind the background. *)
Definition has_layers (acc : list rgz_layer) (r0 r : rgz) : Prop :=
  (exists ls', r = set_cur_fb_state (mk_fb (rgz_layerno (cur_fb_state r0)) ls') r0) /\ length (rgz_layers (cur_fb_state r)) = 13%nat /\
  (forall i x, acc !! i = Some x -> exists y, rgz_layers (cur_fb_state r) !! S i = Some y /\ recount x y) /\
  rgz_layers (cur_fb_state r) !! 0%nat = rgz_layers (cur_fb_state r0) !! 0%nat.

Lemma put_layer_ok acc r0 r x : has_layers acc r0 r -> (length acc < 11)%nat ->
  exists old r', cur_layer (S (length acc)) r = Ok (old, r) /\
    put_cur_layer (S (length acc)) (mk_rgz_layer (hwc_layer x) (identity x) (buffidx x) (dirty_count old)) r = Ok (tt, r') /\
    has_layers (acc ++ [x]) r0 r'.
Proof.
  intros ((ls' & ->) & L & A & Z0) Hl. simpl in *. destruct (lookup_lt_is_Some_2 ls' (S (length acc)) ltac:(lia)) as [old Hold].
  exists old, (set_cur_fb_state (mk_fb (rgz_layerno (cur_fb_state r0)) (<[S (length acc) := mk_rgz_layer (hwc_layer x) (identity x) (buffidx x) (dirty_count old)]> ls')) r0).
  split; [unfold cur_layer, found; simpl; by rewrite Hold|].
  split; [unfold put_cur_layer, cur_layer, found, mbind, st_bind, modify; simpl; by rewrite Hold|].
  split; [by eexists|]. simpl. split; [by rewrite length_insert|]. split; [|by rewrite list_lookup_insert_ne by lia].
  intros i y [Hi | [Hi [Hi0 <-]%list_lookup_singleton_Some]]%lookup_app_Some.
  - pose proof (lookup_lt_Some _ _ _ Hi). rewrite list_lookup_insert_ne by lia. by apply A.
  - assert (i = length acc) as -> by lia. rewrite list_lookup_insert_eq by lia. eexists. split; [done|]. exists (dirty_count old). by destruct x.
Qed.

(** Every layer for the frame buffer from the [l]th on can be blitted. *)
Definition valid_from (l : nat) : Prop := forall i x, (l <= i)%nat -> ls !! i = Some x -> is_window x = true -> valid x = true.

Lemma valid_from_cons l x : ls !! l = Some x -> valid_from l <-> (is_window x = true -> valid x = true) /\ valid_from (S l).
Proof.
  intros Hx. split.
  - intros V. split; [by apply (V l)|]. intros i y Hi. apply V. lia.
  - intros [Hv V] i y Hi Hy. destruct (decide (i = l)) as [->|]; [by simplify_eq|apply (V i); [lia|done]].
Qed.

(** What the loop does from the [l]th layer on, where the layers [picks] are to be
    put behind [acc]: it puts them all, or it does not put one. *)
Definition loop_post (r0 : rgz) (acc : list rgz_layer) (cands : Z) (l : nat) (picks : list rgz_layer) (a : Z * Z) (r' : rgz) : Prop :=
  exists acc', has_layers acc' r0 r' /\ (length acc' <= 11)%nat /\ a.1 = Z.of_nat (length acc') /\ a.1 <= a.2 /\
    a.1 - a.2 <= Z.of_nat (length acc) - cands /\
    (a.1 - a.2 = Z.of_nat (length acc) - cands -> acc' = acc ++ picks /\ valid_from l) /\
    (valid_from l -> (length acc + length picks <= 11)%nat -> a.1 - a.2 = Z.of_nat (length acc) - cands).

Lemma post_put r0 acc cands l picks a r' x y : ls !! l = Some x -> (is_window x = true -> valid x = true) ->
  loop_post r0 (acc ++ [y]) (cands + 1) (S l) picks a r' -> loop_post r0 acc cands l (y :: picks) a r'.
Proof.
  intros Hx Hv (acc' & A1 & A2 & A3 & A4 & A5 & A6 & A7). rewrite length_app in *. simpl in *. exists acc'.
  split_and!; try done; [lia| |].
  - intros E. destruct A6 as [-> V]; [lia|]. split; [by rewrite <- app_assoc|by apply (valid_from_cons l x)].
  - intros [_ V]%(valid_from_cons l x Hx) Hl. simpl in Hl. rewrite A7; [lia|done|lia].
Qed.

Lemma post_lost r0 acc cands l picks picks' a r' x : ls !! l = Some x ->
  ((is_window x = true -> valid x = true) -> (length acc = 11)%nat /\ picks <> []) ->
  loop_post r0 acc (cands + 1) (S l) picks' a r' -> loop_post r0 acc cands l picks a r'.
Proof.
  intros Hx Hv (acc' & A1 & A2 & A3 & A4 & A5 & A6 & A7). exists acc'. split_and!; try done; [lia|lia|].
  intros [Hw _]%(valid_from_cons l x Hx) Hl. destruct (Hv Hw) as [E Hp]. destruct picks; [done|simpl in Hl; lia].
Qed.

Lemma post_other r0 acc cands l picks a r' x : ls !! l = Some x -> is_window x = false ->
  loop_post r0 acc cands (S l) picks a r' -> loop_post r0 acc cands l picks a r'.
Proof.
  intros Hx Hw (acc' & A1 & A2 & A3 & A4 & A5 & A6 & A7). exists acc'. split_and!; try done.
  - intros E. destruct (A6 E) as [-> V]. split; [done|]. apply (valid_from_cons l x Hx). split; [by rewrite Hw|done].
  - intros [_ V]%(valid_from_cons l x Hx). by apply A7.
Qed.

Lemma check_loop_ok (L : layers_given) r0 : forall n l acc cands memidx r,
  (l + n = length ls)%nat -> has_layers acc r0 r -> (length acc <= 11)%nat -> Z.of_nat (length acc) <= cands ->
  runs (check_loop native p ls (seq l n) (Z.of_nat (length acc)) cands memidx) r (loop_post r0 acc cands l (picked memidx (rest l))).
Proof.
  induction n as [|n IH]; intros l acc cands memidx r Hn Hr Ha Hc; cbn [seq check_loop].
  { apply st_runs_ret. exists acc. assert (rest l = []) as ->.
    { unfold rest. apply drop_ge. rewrite length_zip_with. lia. }
    simpl. rewrite app_nil_r. split_and!; try done; try lia. intros _. split; [done|]. intros i x Hi Hx%lookup_lt_Some. lia. }
  destruct (rest_step l L) as (x & id & Hx & Hid & Hin & Hrest); [lia|]. rewrite Hrest. cbn [picked].
  assert (found (fun _ : rgz => ls !! l) r = Ok (x, r)) as Ef by by apply found_ok. refine (runs_step _ _ _ _ _ _ Ef _).
  assert (found (fun _ : rgz => extlayers p !! l) r = Ok (id, r)) as Ei by by apply found_ok.
  change (compositionType x =? HWC_FRAMEBUFFER) with (is_window x). unfold is_clear.
  change RGZ_INPUT_MAXLAYERS with 11. replace (Z.to_nat (Z.of_nat (length acc) + 1)) with (S (length acc)) by lia.
  assert (forall y memidx', (is_window x = true -> valid x = true) -> (length acc < 11)%nat -> identity y = id ->
    runs (old ← cur_layer (S (length acc)); id ← found (fun _ => extlayers p !! l);
          put_cur_layer (S (length acc)) (mk_rgz_layer (hwc_layer y) id (buffidx y) (dirty_count old));;
          check_loop native p ls (seq (S l) n) (Z.of_nat (length acc) + 1) (cands + 1) memidx') r
      (loop_post r0 acc cands l (y :: picked memidx' (rest (S l))))) as Hput.
  { intros y memidx' Hv Hlt Ey. destruct (put_layer_ok acc r0 r y Hr Hlt) as (old & r1 & E1 & E2 & H1). rewrite Ey in E2.
    refine (runs_step _ _ _ _ _ _ E1 _). refine (runs_step _ _ _ _ _ _ Ei _). refine (runs_step _ _ _ _ _ _ E2 _).
    replace (Z.of_nat (length acc) + 1) with (Z.of_nat (length (acc ++ [y]))) by (rewrite length_app; simpl; lia).
    eapply st_runs_mono; [apply (IH (S l) (acc ++ [y]) (cands + 1) memidx' r1); [lia|done|rewrite length_app; simpl; lia..]|].
    intros a r' Hp. by apply (post_put _ _ _ _ _ _ _ x). }
  assert (forall memidx' picks, ((is_window x = true -> valid x = true) -> (length acc = 11)%nat /\ picks <> []) ->
    runs (check_loop native p ls (seq (S l) n) (Z.of_nat (length acc)) (cands + 1) memidx') r (loop_post r0 acc cands l picks)) as Hlost.
  { intros memidx' picks Hv. eapply st_runs_mono; [apply (IH (S l) acc (cands + 1) memidx' r); [lia|done|done|lia]|].
    intros a r' Hp. by apply (post_lost _ _ _ _ _ (picked memidx' (rest (S l))) _ _ x). }
  destruct (is_window x) eqn:Ew; simpl.
  - assert (lift (rgz_in_valid_hwc_layer native x) r = Ok (valid x, r)) as Ev by (unfold lift; by rewrite valid_ok).
    refine (runs_step _ _ _ _ _ _ Ev _). destruct (valid x) eqn:Evx; simpl.
    + destruct (Z.ltb_spec (Z.of_nat (length acc)) 11).
      * apply (Hput (mk_rgz_layer x id memidx 0)); [done|lia|done].
      * apply Hlost. intros _. split; [lia|done].
    + apply Hlost. intros Hv. by specialize (Hv eq_refl).
  - destruct (has (hints x) HWC_HINT_CLEAR_FB).
    + destruct (Z.ltb_spec (Z.of_nat (length acc)) 11).
      * apply (Hput (mk_rgz_layer (set_handle 0x1 x) id RGZ_CLEARHINT_BUFFIDX 0)); [done|lia|done].
      * apply Hlost. intros _. split; [lia|done].
    + eapply st_runs_mono; [apply (IH (S l) acc cands memidx r); [lia|done|done|lia]|]. intros a r' Hp. by apply (post_other _ _ _ _ _ _ _ x).
Qed.
End Check.

(** * What has to be drawn again

    [rgz_handle_dirty_region] compares the layers of a frame with those of the
    frame before and with those that the buffer to be drawn shows: [settled] is
    what a layer's count and the damaged area say then. *)

(** ** The damaged area *)

(** The part of [f] on the screen is damaged. *)
Definition within (W H : Z) (f d : blit_rect) : Prop :=
  forall p, 0 <= p.1 < W -> 0 <= p.2 < H -> covers f p -> covers d p.

Definition grows (d d' : blit_rect) : Prop := forall p, covers d p -> covers d' p.

#[export] Instance grows_preorder : PreOrder grows.
Proof. split; [by intros d p|]. intros a b c Hab Hbc p Hp. by apply Hbc, Hab. Qed.

Lemma within_grows W H f d d' : within W H f d -> grows d d' -> within W H f d'.
Proof. intros Hw Hg p Hx Hy Hp. by apply Hg, Hw. Qed.

Section Damage.
Context (p : rgz_in_params) (g : bvsurfgeom) (W H : Z) (Eg : in_dstgeom p = g) (S : screen_ok g W H).

Lemma add_damage l d : inside W H d ->
  let d' := rgz_add_to_damaged_area p l d in inside W H d' /\ grows d d' /\ within W H (displayFrame (hwc_layer l)) d'.
Proof using Eg S.
  intros D. unfold rgz_add_to_damaged_area. rewrite Eg. destruct S as [-> -> HS]. unfold BOUND in HS. rewrite !s32_small by lia.
  set (f := displayFrame (hwc_layer l)). destruct (RECT_INTERSECTS (mk_rect 0 0 W H) f) eqn:E; simpl.
  - apply intersects_spec in E. simpl in E. destruct (empty_rect d) eqn:Ee.
    + unfold empty_rect in Ee. rewrite !andb_true_iff, !Z.eqb_eq in Ee. split; [unfold inside; simpl; lia|]. split.
      * intros q [? ?]. lia.
      * intros q ? ? [? ?]. unfold covers. simpl. lia.
    + destruct D as (? & ? & ? & ?). split; [unfold inside; simpl; lia|]. split; intros q; unfold covers; simpl; lia.
  - split; [done|]. split; [done|]. intros q Hx Hy Hq. rewrite <- not_true_iff_false, intersects_spec in E. destruct E. destruct Hq. simpl. lia.
Qed.

(** ** The layers of a frame *)

Context (prev target : rgz_fb_state).

(** The layer of the frame before that [dirty_step] looks at. *)
Definition before (i : nat) (l : rgz_layer) : option rgz_layer :=
  if (i =? 0)%nat then (if truth (rgz_layerno prev) then rgz_layers prev !! 0%nat else None) else rgz_find_layer prev (identity l).

Record settled (i : nat) (l0 l : rgz_layer) (d : blit_rect) : Prop := mk_settled {
  st_recount : recount l0 l;
  st_range : 0 <= dirty_count l <= 2;
  st_fresh : dirty_count l <= 1 -> exists b, before i l = Some b /\ rgz_has_layer_content_changed l b = false /\
    dirty_count l = Z.max 0 (dirty_count b - 1);
  st_new : before i l = None -> within W H (displayFrame (hwc_layer l)) d;
  st_absent : i <> 0%nat -> rgz_find_layer target (identity l) = None -> within W H (displayFrame (hwc_layer l)) d;
  st_moved : forall b t, i <> 0%nat -> before i l = Some b -> rgz_find_layer target (identity l) = Some t ->
    rgz_has_layer_frame_moved l t = true ->
    within W H (displayFrame (hwc_layer l)) d /\ within W H (displayFrame (hwc_layer t)) d }.

(** A layer with nothing to be drawn again: its content is that of the frame
    before, where it was all but drawn in both buffers, and its place that in the
    buffer to be drawn. *)
Definition still (i : nat) (l : rgz_layer) : Prop :=
  exists b, before i l = Some b /\ rgz_has_layer_content_changed l b = false /\ dirty_count b <= 1 /\
    (i <> 0%nat -> exists t, rgz_find_layer target (identity l) = Some t /\ rgz_has_layer_frame_moved l t = false).

Lemma still_recount i a b : recount a b -> still i b -> still i a.
Proof using. by intros [c ->]. Qed.

Lemma settled_grows i l0 l d d' : settled i l0 l d -> grows d d' -> settled i l0 l d'.
Proof.
  intros [A1 A2 A3 A4 A5 A6] Hg. split; try done.
  - intros Hb. by eapply within_grows; [apply A4|].
  - intros Hi Hf. by eapply within_grows; [apply A5|].
  - intros b t Hi Hb Ht Hm. destruct (A6 b t Hi Hb Ht Hm). split; by eapply within_grows.
Qed.

Context (Hcounts : forall b, b ∈ rgz_layers prev -> 0 <= dirty_count b <= 2) (Hprev : length (rgz_layers prev) = 13%nat).

Lemma find_loop_in ls id l : find_loop ls id = Some l -> l ∈ ls /\ identity l = id /\ buffidx l <> RGZ_BACKGROUND_BUFFIDX.
Proof using.
  clear. induction ls as [|x ls IH]; simpl; [done|]. destruct (Z.eqb_spec (buffidx x) RGZ_BACKGROUND_BUFFIDX).
  - intros Hf. destruct (IH Hf) as (? & ? & ?). split; [by right|done].
  - destruct (Z.eqb_spec (identity x) id) as [E|E].
    + intros [= <-]. split; [by left|done].
    + intros Hf. destruct (IH Hf) as (? & ? & ?). split; [by right|done].
Qed.

Lemma before_in i l b : before i l = Some b -> b ∈ rgz_layers prev.
Proof using.
  unfold before. destruct (i =? 0)%nat.
  - destruct (truth _); [|done]. by intros ?%list_elem_of_lookup_2.
  - intros [[n Hn]%list_elem_of_lookup _]%find_loop_in. apply lookup_take_Some in Hn as [Hn _]. by eapply list_elem_of_lookup_2.
Qed.

Lemma dirty_step_ok i l0 d : inside W H d ->
  exists l d', dirty_step p prev target i l0 d = Ok (l, d') /\ inside W H d' /\ grows d d' /\ settled i l0 l d' /\
    (still i l0 -> d' = d /\ dirty_count l = 0).
Proof using All.
  intros D. unfold dirty_step.
  set (count := fun b => match b with
    | Some b => if rgz_has_layer_content_changed l0 b then RGZ_NUM_FB else dirty_count b - (if truth (dirty_count b) then 1 else 0)
    | None => RGZ_NUM_FB end).
  assert ((if (i =? 0)%nat
     then if truth (rgz_layerno prev)
          then match rgz_layers prev !! 0%nat with Some l => Ok (Some l) | None => Fault OutOfBounds end
          else Ok None
     else Ok (rgz_find_layer prev (identity l0))) = Ok (before i l0)) as ->.
  { unfold before. destruct (i =? 0)%nat; [|done]. destruct (truth (rgz_layerno prev)); [|done].
    destruct (lookup_lt_is_Some_2 (rgz_layers prev) 0 ltac:(lia)) as [b ->]. done. }
  cbn [mbind outcome_bind]. fold (count (before i l0)).
  assert (forall c x, before i (set_dirty_count c x) = before i x) as Hbef by done.
  assert (forall c b, rgz_has_layer_content_changed (set_dirty_count c l0) b = rgz_has_layer_content_changed l0 b) as Hch by done.
  assert (0 <= count (before i l0) <= 2) as Hcount.
  { destruct (before i l0) as [b|] eqn:E; simpl; [|unfold RGZ_NUM_FB; lia]. pose proof (Hcounts b (before_in _ _ _ E)).
    destruct (rgz_has_layer_content_changed l0 b); [unfold RGZ_NUM_FB; lia|]. unfold truth. destruct (Z.eqb_spec (dirty_count b) 0); simpl; lia. }
  assert (count (before i l0) <= 1 -> exists b, before i l0 = Some b /\ rgz_has_layer_content_changed l0 b = false /\
    count (before i l0) = Z.max 0 (dirty_count b - 1)) as Hfresh.
  { destruct (before i l0) as [b|] eqn:E; simpl; [|unfold RGZ_NUM_FB; lia]. intros Hc. pose proof (Hcounts b (before_in _ _ _ E)).
    exists b. split; [done|]. destruct (rgz_has_layer_content_changed l0 b); [unfold RGZ_NUM_FB in Hc; lia|]. split; [done|].
    unfold truth. destruct (Z.eqb_spec (dirty_count b) 0); simpl; lia. }
  assert (still i l0 -> count (before i l0) = 0) as Hstill.
  { intros (b & E & Ech & Hb & _). rewrite E. simpl. rewrite Ech. pose proof (Hcounts b (before_in _ _ _ E)).
    unfold truth. destruct (Z.eqb_spec (dirty_count b) 0); simpl; lia. }
  set (c := count (before i l0)) in *. clearbody c.
  assert (recount l0 (set_dirty_count c l0)) as Hre by by exists c.
  destruct (before i l0) as [b|] eqn:E.
  - destruct (Nat.eqb_spec i 0) as [->|Hi].
    + eexists _, _. split; [done|]. split; [done|]. split; [done|]. split; [|intros Hs; by split; [|apply Hstill]].
      split; simpl; rewrite ?Hbef, ?E; try done.
    + change (identity (set_dirty_count c l0)) with (identity l0). destruct (rgz_find_layer target (identity l0)) as [t|] eqn:Et.
      * change (rgz_has_layer_frame_moved (set_dirty_count c l0) t) with (rgz_has_layer_frame_moved l0 t).
        destruct (rgz_has_layer_frame_moved l0 t) eqn:Em.
        -- destruct (add_damage (set_dirty_count c l0) d D) as (D1 & G1 & W1). destruct (add_damage t _ D1) as (D2 & G2 & W2).
           eexists _, _. split; [done|]. split; [done|]. split; [by etrans|].
           split; [|intros (_ & _ & _ & _ & Ht); destruct (Ht Hi) as (t' & Et' & Em'); congruence].
           split; simpl; rewrite ?Hbef, ?E, ?Et; try done.
           ++ by exists RGZ_NUM_FB.
           ++ intros b' t' _ _ [= <-] _. split; [by eapply within_grows|done].
        -- eexists _, _. split; [done|]. split; [done|]. split; [done|]. split; [|intros Hs; by split; [|apply Hstill]].
           split; simpl; rewrite ?Hbef, ?E, ?Et; try done.
           intros b' t' _ _ Et' Em'. simplify_eq. unfold rgz_has_layer_frame_moved in *. simpl in *. by rewrite Em in Em'.
      * destruct (add_damage (set_dirty_count c l0) d D) as (D1 & G1 & W1). eexists _, _. split; [done|]. split; [done|]. split; [done|].
        split; [|intros (_ & _ & _ & _ & Ht); destruct (Ht Hi) as (t' & Et' & _); congruence].
        split; simpl; rewrite ?Hbef, ?E, ?Et; try done.
  - destruct (add_damage (set_dirty_count c l0) d D) as (D1 & G1 & W1). eexists _, _. split; [done|]. split; [done|]. split; [done|].
    split; [|intros (b' & Eb' & _); congruence]. split; simpl; rewrite ?Hbef, ?E; try done.
Qed.

Lemma set_cur_twice a b r : set_cur_fb_state a (set_cur_fb_state b r) = set_cur_fb_state a r.
Proof. done. Qed.

(** The frame after [rgz_handle_dirty_region]. *)
Record compared (r r' : rgz) : Prop := mk_compared {
  cm_state : exists ls d, r' = set_damaged_area d (set_cur_fb_state (mk_fb (rgz_layerno (cur_fb_state r)) ls) r) /\ length ls = 13%nat;
  cm_inside : inside W H (damaged_area r');
  cm_layers : forall i l0, (i < count_of (cur_fb_state r))%nat -> rgz_layers (cur_fb_state r) !! i = Some l0 ->
    exists l, rgz_layers (cur_fb_state r') !! i = Some l /\ settled i l0 l (damaged_area r');
  cm_gone : forall j t, (1 <= j < count_of target)%nat -> rgz_layers target !! j = Some t ->
    rgz_find_layer (cur_fb_state r') (identity t) = None -> within W H (displayFrame (hwc_layer t)) (damaged_area r');
  cm_still : (forall i l, (i < count_of (cur_fb_state r'))%nat -> rgz_layers (cur_fb_state r') !! i = Some l -> still i l) ->
    (forall j t, (1 <= j < count_of target)%nat -> rgz_layers target !! j = Some t -> rgz_find_layer (cur_fb_state r') (identity t) <> None) ->
    damaged_area r' = zero_rect /\
    forall i l, (i < count_of (cur_fb_state r'))%nat -> rgz_layers (cur_fb_state r') !! i = Some l -> dirty_count l = 0 }.

Lemma handle_dirty_ok prev_idx target_idx r : 0 <= prev_idx -> 0 <= target_idx ->
  fb_states r !! Z.to_nat prev_idx = Some prev -> fb_states r !! Z.to_nat target_idx = Some target ->
  length (rgz_layers (cur_fb_state r)) = 13%nat -> rgz_layerno (cur_fb_state r) <= 13 -> length (rgz_layers target) = 13%nat -> rgz_layerno target <= 13 ->
  runs (rgz_handle_dirty_region p prev_idx target_idx) r (fun _ r' => compared r r').
Proof using All.
  intros Hpi Hti Ep Et Lc Nc Lt Nt. unfold rgz_handle_dirty_region. st_mod. set (r0 := set_damaged_area zero_rect r).
  assert (fb_state_at prev_idx r0 = Ok (prev, r0)) as E1 by (unfold fb_state_at, found; rewrite (proj2 (Z.ltb_ge _ _)) by done; simpl; by rewrite Ep).
  assert (fb_state_at target_idx r0 = Ok (target, r0)) as E2 by (unfold fb_state_at, found; rewrite (proj2 (Z.ltb_ge _ _)) by done; simpl; by rewrite Et).
  refine (runs_step _ _ _ _ _ _ E1 _). refine (runs_step _ _ _ _ _ _ E2 _). st_get.
  set (N := rgz_layerno (cur_fb_state r)). set (old := rgz_layers (cur_fb_state r)) in *.
  set (Inv := fun i s => exists ls d, s = set_damaged_area d (set_cur_fb_state (mk_fb N ls) r) /\ length ls = 13%nat /\ inside W H d /\
    (forall j l0, (j < i)%nat -> old !! j = Some l0 -> exists l, ls !! j = Some l /\ settled j l0 l d) /\
    (forall j, (i <= j)%nat -> ls !! j = old !! j) /\
    ((forall j l, (j < i)%nat -> ls !! j = Some l -> still j l) -> d = zero_rect /\ forall j l, (j < i)%nat -> ls !! j = Some l -> dirty_count l = 0)).
  eapply st_runs_bind with (R := fun _ s => Inv (Z.to_nat N) s).
  { apply (st_each_inv Inv _ (Z.to_nat N) 0 r0).
    - exists old, zero_rect. split; [destruct r; by destruct cur_fb_state|]. split; [done|]. split; [destruct (so_size _ _ _ S); unfold inside; simpl; lia|].
      split; [lia|]. split; [done|]. intros _. split; [done|lia].
    - intros i s Hi (ls & d & -> & Ls & D & A & B & Q). destruct (lookup_lt_is_Some_2 ls i ltac:(unfold N in Hi; lia)) as [l0 Hl0].
      assert (old !! i = Some l0) as Hold by (rewrite <- B by lia; done).
      set (s := set_damaged_area d _). assert (cur_layer i s = Ok (l0, s)) as Ec by (unfold cur_layer, found; simpl; by rewrite Hl0).
      refine (runs_step _ _ _ _ _ _ Ec _). st_get. destruct (dirty_step_ok i l0 d D) as (l & d' & Es & D' & G' & Sl & Hs).
      assert (lift (dirty_step p prev target i l0 d) s = Ok ((l, d'), s)) as El by (unfold lift; by rewrite Es).
      refine (runs_step _ _ _ _ _ _ El _).
      assert (put_cur_layer i l s = Ok (tt, set_cur_fb_state (mk_fb N (<[i := l]> ls)) s)) as Eput
        by (unfold put_cur_layer, cur_layer, found, mbind, st_bind, modify; simpl; by rewrite Hl0).
      refine (runs_step _ _ _ _ _ _ Eput _). eexists _, _. split; [reflexivity|].
      exists (<[i := l]> ls), d'. split; [done|]. split; [by rewrite length_insert|]. split; [done|]. split.
      + intros j x Hj Hx. destruct (decide (j = i)) as [->|Hne].
        * rewrite list_lookup_insert_eq by (rewrite Ls; unfold N in Hi; lia). simplify_eq. eauto.
        * rewrite list_lookup_insert_ne by done. destruct (A j x ltac:(lia) Hx) as (y & Hy & Sy). exists y. split; [done|]. by eapply settled_grows.
      + split; [intros j Hj; rewrite list_lookup_insert_ne by lia; apply B; lia|]. intros Hst.
        assert (i < length ls)%nat as Hlt by (rewrite Ls; unfold N in Hi; lia).
        destruct Q as [Ed Q]; [intros j x Hj Hx; apply Hst; [lia|by rewrite list_lookup_insert_ne by lia]|].
        destruct Hs as [-> Hz]; [apply (still_recount i l0 l (st_recount _ _ _ _ Sl)), Hst; [lia|by rewrite list_lookup_insert_eq]|].
        split; [done|]. intros j x Hj. destruct (decide (j = i)) as [->|Hne]; [rewrite list_lookup_insert_eq by done; by intros [= <-]|].
        rewrite list_lookup_insert_ne by done. apply Q. lia. }
  intros [] s (ls & d & -> & Ls & D & A & B & Q). cbv beta.
  set (fin := fun i s => exists d', s = set_damaged_area d' (set_cur_fb_state (mk_fb N ls) r) /\ inside W H d' /\ grows d d' /\
    (forall j t, (1 <= j < i)%nat -> rgz_layers target !! j = Some t -> rgz_find_layer (mk_fb N ls) (identity t) = None -> within W H (displayFrame (hwc_layer t)) d') /\
    ((forall j t, (1 <= j < i)%nat -> rgz_layers target !! j = Some t -> rgz_find_layer (mk_fb N ls) (identity t) <> None) -> d' = d)).
  eapply st_runs_mono; [apply (st_each_inv fin _ (Z.to_nat (rgz_layerno target) - 1) 1 _)|].
  - exists d. split; [done|]. split; [done|]. split; [done|]. split; [lia|done].
  - intros i s Hi (d' & -> & D' & G' & C & Q'). destruct (lookup_lt_is_Some_2 (rgz_layers target) i ltac:(lia)) as [t Ht].
    set (s := set_damaged_area d' _). assert (found (fun _ : rgz => rgz_layers target !! i) s = Ok (t, s)) as Ef by by apply found_ok.
    refine (runs_step _ _ _ _ _ _ Ef _). st_get. change (cur_fb_state s) with (mk_fb N ls).
    destruct (rgz_find_layer (mk_fb N ls) (identity t)) eqn:Efind.
    + apply st_runs_ret. exists d'. split; [done|]. split; [done|]. split; [done|]. split; [intros j x Hj Hx Hf|].
      * destruct (decide (j = i)) as [->|]; [simplify_eq|apply (C j); auto; lia].
      * intros Hall. apply Q'. intros j x Hj. apply Hall. lia.
    + destruct (add_damage t d' D') as (D2 & G2 & W2). eexists _, _. split; [reflexivity|]. exists (rgz_add_to_damaged_area p t d').
      split; [done|]. split; [done|]. split; [by etrans|]. split; [intros j x Hj Hx Hf|].
      * destruct (decide (j = i)) as [->|]; [by simplify_eq|]. eapply within_grows; [apply (C j x); auto; lia|done].
      * intros Hall. by destruct (Hall i t ltac:(lia) Ht).
  - intros [] s (d' & -> & D' & G' & C & Q'). split; simpl.
    + by exists ls, d'.
    + done.
    + intros i l0 Hi Hl0. destruct (A i l0 Hi Hl0) as (l & Hl & Sl). exists l. split; [done|]. by eapply settled_grows.
    + intros j t Hj. apply C. unfold count_of in Hj. lia.
    + unfold count_of. simpl. intros Hst Hall. destruct (Q Hst) as [Ed Hz]. split; [|done]. rewrite Q'; [done|].
      intros j t Hj. apply Hall. unfold count_of. lia.
Qed.
End Damage.

(** * The input of a frame

    [rgz_in] from the layers to the regions: the layers picked behind the
    background, compared with the two frames before, on a screen that is cut
    into cells. *)

(** A frame that is kept. *)
Record kept_ok (fb : rgz_fb_state) : Prop := mk_kept_ok {
  ke_room : length (rgz_layers fb) = 13%nat;
  ke_count : 0 <= rgz_layerno fb <= 12;
  ke_dirty : forall l, l ∈ rgz_layers fb -> 0 <= dirty_count l <= 2 }.

Record machine_ok (r : rgz) : Prop := mk_machine_ok {
  mo_idx : fb_state_idx r = 0 \/ fb_state_idx r = 1;
  mo_room : length (rgz_layers (cur_fb_state r)) = 13%nat;
  mo_states : exists a b, fb_states r = [a; b] /\ kept_ok a /\ kept_ok b }.

Lemma zero_kept : kept_ok zero_fb.
Proof. split; [done|done|]. intros l [-> _]%elem_of_replicate. done. Qed.

Lemma zero_machine : machine_ok zero_rgz.
Proof. split; [by left|done|]. exists zero_fb, zero_fb. split; [done|]. split; apply zero_kept. Qed.

(** The frame last drawn and the one that the next buffer shows. *)
Definition kept (r : rgz) (i : Z) : rgz_fb_state := default zero_fb (fb_states r !! Z.to_nat i).
Definition last_frame (r : rgz) : rgz_fb_state := kept r (fb_state_idx r).
Definition next_idx (r : rgz) : Z := (fb_state_idx r + 1) mod RGZ_NUM_FB.
Definition target_frame (r : rgz) : rgz_fb_state := kept r (next_idx r).

Lemma next_idx_cases r : machine_ok r -> (fb_state_idx r = 0 /\ next_idx r = 1) \/ (fb_state_idx r = 1 /\ next_idx r = 0).
Proof. intros M. unfold next_idx. destruct (mo_idx r M) as [-> | ->]; auto. Qed.

Lemma kept_lookup r i : machine_ok r -> i = 0 \/ i = 1 -> fb_states r !! Z.to_nat i = Some (kept r i) /\ kept_ok (kept r i).
Proof. intros M Hi. destruct (mo_states r M) as (a & b & E & Ka & Kb). unfold kept. rewrite E. by destruct Hi as [-> | ->]. Qed.

Section Input.
Context (native : Z -> option IMG_native_handle) (bg_layer : hwc_layer_1) (p : rgz_in_params) (ls : list hwc_layer_1).
Context (g : bvsurfgeom) (W H : Z) (Eg : in_dstgeom p = g) (Sg : screen_ok g W H) (L : layers_given native p ls).

Definition picks : list rgz_layer := picked (overlays p ls) (zip ls (extlayers p)).
Definition ground (id : Z) : rgz_layer := mk_rgz_layer (set_handle 0x1 bg_layer) id RGZ_BACKGROUND_BUFFIDX 0.

(** A new frame. *)
Record next_frame (r r' : rgz) : Prop := mk_next_frame {
  nf_idx : fb_state_idx r' = next_idx r;
  nf_picks : exists id, Forall2 recount (ground id :: picks) (all_layers (cur_fb_state r'));
  nf_count : rgz_layerno (cur_fb_state r') = 1 + Z.of_nat (length picks);
  nf_some : (1 <= length picks <= 11)%nat;
  nf_states : exists fb, fb_states r' = <[Z.to_nat (next_idx r) := fb]> (fb_states r) /\ kept_ok fb /\
    rgz_layerno fb = rgz_layerno (cur_fb_state r') /\ all_layers fb = all_layers (cur_fb_state r');
  nf_inside : inside W H (damaged_area r');
  nf_settled : forall i l, all_layers (cur_fb_state r') !! i = Some l -> exists l0,
    settled W H (last_frame r) (target_frame r) i l0 l (damaged_area r');
  nf_gone : forall j t, (1 <= j < count_of (target_frame r))%nat -> rgz_layers (target_frame r) !! j = Some t ->
    rgz_find_layer (cur_fb_state r') (identity t) = None -> within W H (displayFrame (hwc_layer t)) (damaged_area r');
  nf_still : (forall i l, all_layers (cur_fb_state r') !! i = Some l -> still (last_frame r) (target_frame r) i l) ->
    (forall j t, (1 <= j < count_of (target_frame r))%nat -> rgz_layers (target_frame r) !! j = Some t ->
      rgz_find_layer (cur_fb_state r') (identity t) <> None) ->
    damaged_area r' = zero_rect /\ forall l, l ∈ all_layers (cur_fb_state r') -> dirty_count l = 0 }.

(** The condition under which the layers can be blitted. *)
Definition blittable : Prop :=
  (forall l, l ∈ ls -> is_window l = true -> valid native l = true) /\ (1 <= length picks <= 11)%nat.

Lemma hwccheck_ok r : machine_ok r ->
  runs (rgz_in_hwccheck native bg_layer p) r (fun rv r' => machine_ok r' /\
    ((rv = -1 /\ fb_states r' = fb_states r /\ ~ blittable) \/ (rv = RGZ_ALL /\ next_frame r r' /\ blittable /\ has (rgz_state r') RGZ_STATE_INIT = true))).
Proof using Eg Sg L.
  intros M. unfold rgz_in_hwccheck. st_mod. rewrite (lg_layers _ _ _ L).
  set (r0 := set_rgz_state _ r). destruct (lookup_lt_is_Some_2 (rgz_layers (cur_fb_state r)) 0) as [x Hx]; [rewrite (mo_room r M); lia|].
  set (r1 := set_cur_fb_state (mk_fb (rgz_layerno (cur_fb_state r)) (<[0%nat := mk_rgz_layer (set_handle 1 bg_layer) (identity x) RGZ_BACKGROUND_BUFFIDX (dirty_count x)]> (rgz_layers (cur_fb_state r)))) r0).
  assert (rgz_layers (cur_fb_state r0) !! 0%nat = Some x) as Hx0 by exact Hx.
  assert (rgz_add_background_layer bg_layer r0 = Ok (tt, r1)) as Ebg
    by (unfold rgz_add_background_layer, put_cur_layer, cur_layer, found, mbind, st_bind, modify; simpl; rewrite Hx; cbv beta iota; by rewrite Hx0).
  refine (runs_step _ _ _ _ _ _ Ebg _).
  assert (has_layers [] r1 r1) as H1.
  { split; [by exists (rgz_layers (cur_fb_state r1))|]. split; [simpl; by rewrite length_insert, (mo_room r M)|]. split; [intros i y Hi; by rewrite lookup_nil in Hi|done]. }
  assert (length (seq 0 (Z.to_nat (layerno p))) = length ls) as _ by (rewrite length_seq, (lg_count _ _ _ L); lia).
  rewrite (lg_count _ _ _ L), Nat2Z.id.
  eapply st_runs_bind; [apply (check_loop_ok native p ls L r1 (length ls) 0 [] 0 (overlays p ls) r1); [lia|done|simpl; lia|simpl; lia]|].
  intros [pb cd] r2 (acc & ((ls' & ->) & Lr & A & Z0) & Ha & Epb & Hle & _ & Hall & Hfit). simpl in Epb, Hle, Hall, Hfit, Lr, A, Z0. cbv beta iota.
  assert (rest p ls 0 = zip ls (extlayers p)) as Er by apply drop_0. rewrite Er in Hall, Hfit. fold picks in Hall, Hfit.
  assert (valid_from native ls 0 <-> forall l, l ∈ ls -> is_window l = true -> valid native l = true) as Hvalid.
  { split; [intros V l [i Hi]%list_elem_of_lookup; by apply (V i); [lia|]|intros V i l _ Hi; apply V; by eapply list_elem_of_lookup_2]. }
  rewrite Hvalid in Hall, Hfit.
  destruct ((pb =? 0) || negb (pb =? cd)) eqn:Eb.
  - apply st_runs_ret. split; [split; [apply M|done|apply M]|]. left. split; [done|]. split; [done|].
    intros [V Hp]. specialize (Hfit V ltac:(lia)). destruct Hall as [-> _]; [lia|].
    apply orb_true_iff in Eb as [Eb%Z.eqb_eq|Eb%negb_true_iff%Z.eqb_neq]; lia.
  - apply orb_false_iff in Eb as [Eb%Z.eqb_neq Ec%negb_false_iff%Z.eqb_eq]. destruct Hall as [Eacc V]; [lia|]. simpl in Eacc. subst acc.
    st_mod. st_mod. unfold get_prev_fb_state, get_next_fb_state. st_get.
    match goal with |- runs _ ?s _ => set (r3 := s) end.
    set (r4 := set_fb_state_idx (next_idx r) r3).
    assert ((i ← gets fb_state_idx; modify (set_fb_state_idx ((i + 1) mod RGZ_NUM_FB));; gets fb_state_idx) r3 = Ok (next_idx r, r4)) as En by done.
    refine (runs_step _ _ _ _ _ _ En _). change (fb_state_idx r3) with (fb_state_idx r).
    destruct (kept_lookup r (fb_state_idx r) M (mo_idx r M)) as [Kl1 Ko1].
    assert (next_idx r = 0 \/ next_idx r = 1) as Hni by (destruct (next_idx_cases r M) as [[_ ->]|[_ ->]]; auto).
    destruct (kept_lookup r (next_idx r) M Hni) as [Kl2 Ko2].
    fold (last_frame r) in Kl1, Ko1. fold (target_frame r) in Kl2, Ko2.
    assert (rgz_layerno (cur_fb_state r4) = Z.of_nat (length picks) + 1) as Ecount by (simpl; lia).
    assert (length ls' = 13%nat) as Lls by done.
    eapply st_runs_bind.
    { apply (handle_dirty_ok p g W H Eg Sg (last_frame r) (target_frame r) (ke_dirty _ Ko1) (ke_room _ Ko1) (fb_state_idx r) (next_idx r) r4); try done.
      - destruct (mo_idx r M); lia.
      - lia.
      - rewrite Ecount. lia.
      - apply (ke_room _ Ko2).
      - destruct (ke_count _ Ko2). lia. }
    intros [] r5 [(ls5 & d & -> & L5) D5 A5 G5 Q5]. cbv beta. st_get.
    change (cur_fb_state (set_damaged_area d (set_cur_fb_state (mk_fb (rgz_layerno (cur_fb_state r4)) ls5) r4))) with (mk_fb (rgz_layerno (cur_fb_state r4)) ls5) in *.
    set (r5 := set_damaged_area d _) in *.
    assert (fb_state_at (next_idx r) r5 = Ok (target_frame r, r5)) as Efb.
    { unfold fb_state_at. rewrite (proj2 (Z.ltb_ge _ _)) by lia. apply found_ok. exact Kl2. }
    refine (runs_step _ _ _ _ _ _ Efb _). st_mod. apply st_runs_ret. rewrite Ecount. simpl rgz_layerno. simpl rgz_layers.
    match goal with |- machine_ok ?s /\ _ => set (r6 := s) end.
    set (N := Z.to_nat (Z.of_nat (length picks) + 1)). assert (N = S (length picks)) as EN by (unfold N; lia).
    set (fb := mk_fb (Z.of_nat (length picks) + 1) (take N ls5 ++ drop N (rgz_layers (target_frame r)))).
    assert (all_layers (mk_fb (Z.of_nat (length picks) + 1) ls5) = take N ls5) as Eall by done.
    assert (all_layers fb = take N ls5) as Eall' by (unfold all_layers, fb, count_of; simpl; fold N; by rewrite take_app_le, take_take, Nat.min_id by (rewrite length_take; lia)).
    assert (forall i l, take N ls5 !! i = Some l -> exists l0, ls' !! i = Some l0 /\ settled W H (last_frame r) (target_frame r) i l0 l d) as Hset.
    { intros i l [Hl Hi]%lookup_take_Some. destruct (lookup_lt_is_Some_2 ls' i ltac:(lia)) as [l0 Hl0].
      destruct (A5 i l0) as (l1 & Hl1 & Sl); [unfold count_of; rewrite Ecount; fold N; lia|exact Hl0|]. simpl in Hl1. exists l0. split; [done|]. by simplify_eq. }
    assert (kept_ok fb) as Kfb.
    { split; simpl.
      - rewrite length_app, length_take, length_drop, L5. rewrite (ke_room _ Ko2). lia.
      - lia.
      - intros l [[i Hi]%list_elem_of_lookup|[i Hi]%list_elem_of_lookup]%elem_of_app.
        + destruct (Hset i l Hi) as (l0 & _ & Sl). apply Sl.
        + rewrite lookup_drop in Hi. apply (ke_dirty _ Ko2). by eapply list_elem_of_lookup_2. }
    split.
    { split; [exact Hni|simpl; done|]. simpl. destruct (mo_states r M) as (a & b & Eab & Ka & Kb). rewrite Eab.
      destruct Hni as [-> | ->]; [exists fb, b|exists a, fb]; done. }
    right. split; [done|]. split; [|split; [split; [done|lia]|]].
    2: { unfold has, truth. simpl. rewrite negb_true_iff, Z.eqb_neq. intros Hz. apply (f_equal (fun z => Z.testbit z 0)) in Hz.
      by rewrite Z.land_spec, Z.lor_spec, orb_true_r in Hz. }
    split.
    + done.
    + exists (identity x). change (cur_fb_state r6) with (mk_fb (rgz_layerno (cur_fb_state r4)) ls5). rewrite Ecount, Eall, EN.
      apply Forall2_same_length_lookup. split; [rewrite length_take, L5; cbn [length]; lia|].
      intros i a b Ha' Hb. rewrite <- EN in Hb. destruct (Hset i b Hb) as (l0 & Hl0 & Sl). etrans; [|apply (st_recount _ _ _ _ _ _ _ _ Sl)].
      destruct i as [|i].
      * simpl in Ha'. simplify_eq. rewrite Z0 in Hl0. rewrite list_lookup_insert_eq in Hl0 by (rewrite (mo_room r M); lia). simplify_eq.
        by exists (dirty_count x).
      * simpl in Ha'. destruct (A i a Ha') as (y & Hy & Ry). by simplify_eq.
    + simpl. lia.
    + lia.
    + exists fb. split; [done|]. split; [done|]. split; [done|]. change (cur_fb_state r6) with (mk_fb (rgz_layerno (cur_fb_state r4)) ls5). by rewrite Ecount, Eall, Eall'.
    + done.
    + intros i l Hl. change (cur_fb_state r6) with (mk_fb (rgz_layerno (cur_fb_state r4)) ls5) in Hl. rewrite Ecount, Eall in Hl.
      destruct (Hset i l Hl) as (l0 & _ & Sl). by exists l0.
    + intros j t Hj Ht Hf. by apply (G5 j t).
    + change (cur_fb_state r6) with (mk_fb (rgz_layerno (cur_fb_state r4)) ls5). intros Hst Hall.
      destruct Q5 as [Ed Hz]; [intros i l Hi Hl; apply Hst; unfold all_layers; by rewrite lookup_take_lt|done|]. split; [done|].
      intros l [i [Hl Hi]%lookup_take_Some]%list_elem_of_lookup. by apply (Hz i l).
Qed.

(** The regions of a frame. *)
Record regions_made (r : rgz) (hs : list blit_hregion) (ys : list Z) (k : nat) : Prop := mk_regions_made {
  rm_state : has (rgz_state r) RGZ_REGION_DATA = true;
  rm_hregions : hregions r = Some hs;
  rm_count : nhregions r = Z.of_nat (length hs);
  rm_tiling : tiling (cur_fb_state r) W H hs ys k }.

(** Nothing is picked that is not to be seen. *)
Definition seen_layers : Prop := forall l, l ∈ picks -> on_screen W H (displayFrame (hwc_layer l)).

Context (Hbg : bg_layer = mk_layer 0 0 0 0 0 0 zero_rect (mk_rect 0 0 W H)).

Lemma recount_frame a b : recount a b -> displayFrame (hwc_layer b) = displayFrame (hwc_layer a).
Proof using. by intros [c ->]. Qed.

Lemma next_frame_ok r r' : next_frame r r' -> machine_ok r' -> seen_layers -> (length picks <= 10)%nat -> frame_ok (cur_fb_state r') W H.
Proof using Sg Hbg.
  intros N M V Hl. destruct (nf_picks _ _ N) as [id Fp]. pose proof (nf_count _ _ N) as Ec. pose proof (nf_some _ _ N).
  assert (forall j, (j < count_of (cur_fb_state r'))%nat -> exists a, (ground id :: picks) !! j = Some a /\ frame_at (cur_fb_state r') j = displayFrame (hwc_layer a)) as Hj.
  { intros j Hj. destruct (lookup_lt_is_Some_2 (rgz_layers (cur_fb_state r')) j) as [x Hx]; [rewrite (mo_room r' M); unfold count_of in Hj; lia|].
    assert (all_layers (cur_fb_state r') !! j = Some x) as Hx' by (unfold all_layers; by rewrite lookup_take_lt).
    destruct (Forall2_lookup_r _ _ _ _ _ Fp Hx') as (a & Ha & Ra). exists a. split; [done|]. unfold frame_at. rewrite Hx. by apply recount_frame. }
  destruct (so_size _ _ _ Sg). split.
  - lia.
  - lia.
  - rewrite (mo_room r' M). unfold count_of. lia.
  - destruct (Hj 0%nat) as (a & Ha & ->); [unfold count_of; lia|]. simpl in Ha. injection Ha as <-. unfold ground. by rewrite Hbg.
  - intros j Hlt. destruct (Hj j Hlt) as (a & Ha & ->). destruct j as [|j]; [|apply V; by eapply list_elem_of_lookup_2].
    simpl in Ha. injection Ha as <-. unfold ground. rewrite Hbg. split; simpl; lia.
Qed.

Context (calloc_ok : bool) (Hop : in_op p = RGZ_IN_HWC).

(** The frames that are cut into regions. *)
Definition accepted : Prop := blittable /\ (length picks <= 10)%nat /\ calloc_ok = true.

Lemma next_frame_same r r' r'' : next_frame r r' -> cur_fb_state r'' = cur_fb_state r' -> fb_state_idx r'' = fb_state_idx r' ->
  fb_states r'' = fb_states r' -> damaged_area r'' = damaged_area r' -> next_frame r r''.
Proof using. intros [] E1 E2 E3 E4. by split; rewrite ?E1, ?E2, ?E3, ?E4. Qed.

Lemma rgz_in_ok r : machine_ok r -> seen_layers ->
  runs (rgz_in native calloc_ok bg_layer p) r (fun rv r' =>
    (rv = RGZ_ALL /\ accepted /\ next_frame r r' /\ machine_ok r' /\ frame_ok (cur_fb_state r') W H /\ exists hs ys k, regions_made r' hs ys k) \/
    (rv <> RGZ_ALL /\ ~ accepted)).
Proof using All.
  intros M V. unfold rgz_in. rewrite Hop. simpl. eapply st_runs_bind; [by apply hwccheck_ok|].
  intros rv r1 [M1 [(-> & _ & Hb)|(-> & N & Hb & Hst)]]; cbv beta.
  { simpl. apply st_runs_ret. right. split; [done|]. by intros [? _]. }
  simpl. pose proof (nf_count _ _ N) as Ec. pose proof (nf_some _ _ N) as Hsome.
  destruct (decide (length picks <= 10)%nat) as [Hl|Hl].
  - pose proof (next_frame_ok r r1 N M1 V Hl) as F. destruct Sg as [Ew Eh HS]. unfold BOUND in HS.
    assert (s32 (g_width (in_dstgeom p)) = W /\ s32 (g_height (in_dstgeom p)) = H) as [E1 E2] by (rewrite Eg, Ew, Eh, !s32_small by lia; done).
    eapply st_runs_bind; [apply (rgz_in_hwc_ok calloc_ok p r1 W H E1 E2 Hst F (nf_inside _ _ N))|].
    intros e r2 (Ecur & Ei & Ef & Ed & He). cbv beta. apply st_runs_ret. destruct calloc_ok eqn:Eca.
    + destruct He as (-> & Hrd & hs & ys & k & Hh & Hn & T). left. simpl. split; [done|]. split; [done|].
      split; [by apply (next_frame_same r r1)|]. split; [|split; [by rewrite Ecur|exists hs, ys, k; split; try done; by rewrite Ecur]].
      destruct M1 as [M1 M2 M3]. split; by rewrite ?Ei, ?Ecur, ?Ef.
    + right. unfold truth. rewrite (proj2 (Z.eqb_neq _ _)) by done. split; [done|]. intros (_ & _ & Ht). congruence.
  - assert (length picks = 11%nat) as El by lia.
    assert (rgz_in_hwc calloc_ok p r1 = Ok (-1, r1)) as E.
    { unfold rgz_in_hwc. st_get. rewrite Hst. simpl negb. cbv iota. st_get. rewrite Ec, El. done. }
    refine (runs_step _ _ _ _ _ _ E _). apply st_runs_ret. right. split; [done|]. intros (_ & ? & _). lia.
Qed.
End Input.
