(* ===== verification/RgzFrames.v ===== *)
(** * Frames in a row

    The frame buffer is drawn again only where [rgz_handle_dirty_region] and the
    counts of the layers ask for it.  At all other points the buffer shows what
    the new frame has there already ([unchanged_stack]), when the windows behave
    as the client of the hardware composer promises: the record [contract]. *)

From stdpp Require Import base list numbers option.
From Stdlib Require Import ZArith Lia.
From S2P Require Import Prelude Stateful Rgz RgzLists RgzRegions RgzEngine RgzEntries RgzCells RgzOutput RgzInput.
From stdpp Require Import list.

Local Open Scope Z_scope.

(** ** Layers with identities *)

Definition is_ground (l : rgz_layer) : Prop := buffidx l = RGZ_BACKGROUND_BUFFIDX.
Definition ids (ls : list rgz_layer) : list Z := identity <$> ls.

(** The background of a screen as a frame has it. *)
Definition screen_layer (W H : Z) : hwc_layer_1 := mk_layer 0 0 0 0x1 0 0 zero_rect (mk_rect 0 0 W H).

(** The layers behind the background. *)
Definition behind (fb : rgz_fb_state) : list rgz_layer := drop 1 (all_layers fb).

(** A frame with the background before layers of different identities, or none. *)
Record shape (native : Z -> option IMG_native_handle) (W H : Z) (fb : rgz_fb_state) : Prop := mk_shape {
  sh_ground : all_layers fb = [] \/ exists b, all_layers fb = b :: behind fb /\ is_ground b /\ hwc_layer b = screen_layer W H;
  sh_layers : forall l, l ∈ behind fb -> usable native l /\ ~ is_ground l;
  sh_ids : NoDup (ids (behind fb)) }.

Lemma find_loop_none ls id : find_loop ls id = None -> forall l, l ∈ ls -> ~ is_ground l -> identity l <> id.
Proof.
  induction ls as [|x ls IH]; simpl; [intros _ l []%elem_of_nil|]. destruct (Z.eqb_spec (buffidx x) RGZ_BACKGROUND_BUFFIDX).
  - intros Hf l [-> |Hl]%elem_of_cons Hg; [done|by apply IH].
  - destruct (Z.eqb_spec (identity x) id); [done|]. intros Hf l [-> |Hl]%elem_of_cons Hg; [done|by apply IH].
Qed.

Lemma same_id (ls : list rgz_layer) a b : NoDup (ids ls) -> a ∈ ls -> b ∈ ls -> identity a = identity b -> a = b.
Proof.
  intros N [i Hi]%list_elem_of_lookup [j Hj]%list_elem_of_lookup E.
  assert (i = j) as <- by (apply (NoDup_lookup _ i j (identity a) N); unfold ids; rewrite list_lookup_fmap, ?Hi, ?Hj; simpl; congruence).
  congruence.
Qed.

Section Shape.
Context (native : Z -> option IMG_native_handle) (W H : Z) (fb : rgz_fb_state) (Sh : shape native W H fb).

Lemma ground_dummy l : is_ground l -> hwc_layer l = screen_layer W H -> dummy l.
Proof using. intros Hg E. split; [by left|by rewrite E]. Qed.

Lemma shape_in l : l ∈ all_layers fb -> (is_ground l /\ hwc_layer l = screen_layer W H) \/ (~ is_ground l /\ l ∈ behind fb).
Proof using Sh.
  intros Hl. destruct (sh_ground _ _ _ _ Sh) as [E|(b & E & Hg & Hf)]; rewrite E in Hl; [by apply elem_of_nil in Hl|].
  apply elem_of_cons in Hl as [-> | Hl]; [by left|right]. split; [by apply Sh|done].
Qed.

Lemma behind_in l : l ∈ behind fb -> l ∈ all_layers fb.
Proof using. intros [i Hi]%list_elem_of_lookup. unfold behind in Hi. rewrite lookup_drop in Hi. by eapply list_elem_of_lookup_2. Qed.

Lemma find_behind id l : rgz_find_layer fb id = Some l -> l ∈ behind fb /\ identity l = id.
Proof using Sh.
  intros (Hl & Hid & Hg)%find_loop_in. split; [|done]. destruct (shape_in l Hl) as [[? _]|[_ ?]]; done.
Qed.

Lemma find_none id l : rgz_find_layer fb id = None -> l ∈ behind fb -> identity l <> id.
Proof using Sh. intros Hf Hl. by eapply find_loop_none; [apply Hf|apply behind_in|apply Sh]. Qed.

Lemma find_it l : l ∈ behind fb -> rgz_find_layer fb (identity l) = Some l.
Proof using Sh.
  intros Hl. destruct (rgz_find_layer fb (identity l)) as [x|] eqn:E.
  - destruct (find_behind _ _ E) as [Hx Ex]. f_equal. by eapply same_id; [apply Sh|..].
  - by destruct (find_none _ l E Hl).
Qed.

Lemma behind_index l : l ∈ behind fb -> exists i, all_layers fb !! S i = Some l.
Proof using. intros [i Hi]%list_elem_of_lookup. unfold behind in Hi. rewrite lookup_drop in Hi. by exists i. Qed.

(** The windows at a point of the screen. *)
Lemma stack_shape p : all_layers fb <> [] -> 0 <= p.1 < W -> 0 <= p.2 < H -> exists b, is_ground b /\ hwc_layer b = screen_layer W H /\
  all_layers fb = b :: behind fb /\
  stack fb p = b :: filter (fun l => covers (displayFrame (hwc_layer l)) p) (behind fb).
Proof using Sh.
  intros Hne Hx Hy. destruct (sh_ground _ _ _ _ Sh) as [?|(b & E & Hg & Hf)]; [done|]. exists b. split; [done|]. split; [done|]. split; [done|].
  unfold stack. rewrite E at 1. apply filter_cons_True. rewrite Hf. split; simpl; lia.
Qed.

Lemma shape_usable l : l ∈ all_layers fb -> usable native l.
Proof using Sh. intros Hl. destruct (shape_in l Hl) as [[? ?]|[_ ?]]; [left; by apply ground_dummy|by apply Sh]. Qed.
End Shape.

(** ** Layers that show the same *)

(** Background, cleared area or window. *)
Definition class (l : rgz_layer) : Z := Z.min 0 (buffidx l).

Record same_kind (a b : rgz_layer) : Prop := mk_same_kind {
  sk_class : class a = class b;
  sk_blending : blending (hwc_layer a) = blending (hwc_layer b) }.

#[export] Instance same_kind_equiv : Equivalence same_kind.
Proof. split; [by split|by intros a b []; split|intros a b c [] []; split; congruence]. Qed.

(** What a window shows. *)
Definition same_content (a b : rgz_layer) : Prop :=
  0 <= class a -> handle (hwc_layer a) = handle (hwc_layer b) /\ transform (hwc_layer a) = transform (hwc_layer b) /\
    sourceCrop (hwc_layer a) = sourceCrop (hwc_layer b).

Lemma content_unchanged a b : same_kind a b -> rgz_has_layer_content_changed a b = false ->
  same_content a b /\ (is_ground a \/ identity a = identity b).
Proof.
  intros [Ec Eb]. unfold rgz_has_layer_content_changed, same_content, class, is_ground in *.
  destruct ((buffidx a =? RGZ_BACKGROUND_BUFFIDX) && (buffidx b =? RGZ_BACKGROUND_BUFFIDX)) eqn:E1.
  { intros _. apply andb_true_iff in E1 as [E1%Z.eqb_eq _]. rewrite E1. split; [unfold RGZ_BACKGROUND_BUFFIDX; lia|by left]. }
  destruct (Z.eqb_spec (identity a) (identity b)) as [Ei|]; simpl; [|done].
  destruct ((buffidx a =? RGZ_CLEARHINT_BUFFIDX) && (buffidx b =? RGZ_CLEARHINT_BUFFIDX)) eqn:E2.
  { intros _. apply andb_true_iff in E2 as [E2%Z.eqb_eq _]. rewrite E2. split; [unfold RGZ_CLEARHINT_BUFFIDX; lia|by right]. }
  rewrite !orb_false_iff, !negb_false_iff, !Z.eqb_eq. intros (((((H1 & H2) & H3) & H4) & H5) & H6). split; [|by right]. intros _.
  split; [done|]. split; [done|]. destruct (sourceCrop (hwc_layer a)), (sourceCrop (hwc_layer b)). simpl in *. congruence.
Qed.

Lemma frame_kept a b : rgz_has_layer_frame_moved a b = false -> displayFrame (hwc_layer a) = displayFrame (hwc_layer b).
Proof.
  unfold rgz_has_layer_frame_moved. destruct (negb (identity a =? identity b)); [done|].
  rewrite !orb_false_iff, !negb_false_iff, !Z.eqb_eq. intros (((H1 & H2) & H3) & H4).
  destruct (displayFrame (hwc_layer a)), (displayFrame (hwc_layer b)). simpl in *. congruence.
Qed.

Section Pixels.
Context {px : Type} `{EngineLaws px} (native : Z -> option IMG_native_handle).

(** Layers that draw the same. *)
Record same_drawing (a b : rgz_layer) : Prop := mk_same_drawing {
  sd_kind : same_kind a b;
  sd_content : same_content a b;
  sd_frame : 0 <= class a -> displayFrame (hwc_layer a) = displayFrame (hwc_layer b) }.

Lemma same_opaque a b : usable native a -> usable native b -> same_drawing a b -> opaque native a = opaque native b.
Proof.
  intros Ua Ub [[Ec Eb] Sc _]. destruct (decide (0 <= class a)) as [Hc|Hc].
  - unfold opaque. destruct (Sc Hc) as (Eh & _ & _). by rewrite Eb, Eh.
  - assert (forall l, usable native l -> class l < 0 -> dummy l) as Hd.
    { intros l [?|D] Hl; [done|]. pose proof (drawable_index _ _ _ D). unfold class in Hl. lia. }
    rewrite !dummy_opaque by (apply Hd; [done|lia]). done.
Qed.

Lemma same_pixel p u a b : usable native a -> usable native b -> same_drawing a b ->
  layer_pixel native p u a = layer_pixel native p u b.
Proof.
  intros Ua Ub Sd. pose proof (same_opaque a b Ua Ub Sd) as Eo. destruct Sd as [[Ec Eb] Sc Sf]. unfold layer_pixel. rewrite Eo.
  destruct (Z.ltb_spec (buffidx a) 0), (Z.ltb_spec (buffidx b) 0); try done; [unfold class in Ec; lia..|].
  destruct (Sc ltac:(unfold class; lia)) as (Eh & Et & Ecr). pose proof (Sf ltac:(unfold class; lia)) as Ef.
  assert (layer_sample (native_for native a) (hwc_layer a) p = layer_sample (native_for native b) (hwc_layer b) p) as ->; [|done].
  unfold layer_sample, layer_place, native_for. by rewrite Eh, Et, Ecr, Ef.
Qed.

Lemma same_composite p xs ys : Forall2 (fun a b => usable native a /\ usable native b /\ same_drawing a b) xs ys ->
  forall u, composite native p xs u = composite native p ys u.
Proof.
  unfold composite. induction 1 as [|a b xs ys (Ua & Ub & Sd) _ IH]; intros u; [done|]. simpl. rewrite IH. by rewrite (same_pixel p u a b).
Qed.

(** Below an opaque layer nothing matters. *)
Lemma composite_hidden p pre l ls u u' : opaque native l = true ->
  composite native p (pre ++ l :: ls) u = composite native p (l :: ls) u'.
Proof.
  intros Ho. unfold composite. rewrite foldl_app. simpl. f_equal. unfold layer_pixel. rewrite Ho. by destruct (buffidx l <? 0).
Qed.
End Pixels.

(** The background shows the cleared screen. *)
Lemma shape_composite {px : Type} `{EngineLaws px} native w h fb (Sh : shape native w h fb) p u :
  all_layers fb <> [] -> 0 <= p.1 < w -> 0 <= p.2 < h ->
  composite native p (stack fb p) u = composite native p (filter (fun l => covers (displayFrame (hwc_layer l)) p) (behind fb)) cleared.
Proof.
  intros Hne Hx Hy. destruct (stack_shape native w h fb Sh p Hne Hx Hy) as (b & Gb & _ & _ & ->). unfold composite at 1. simpl.
  assert (layer_pixel native p u b = cleared) as -> by (unfold layer_pixel; by rewrite Gb). done.
Qed.

(** ** What the client promises *)

Section Frames.
Context (native : Z -> option IMG_native_handle) (W H : Z).

(** A layer keeps its kind and the layers their order, and one that comes back
    while the buffer still shows it is where it was. *)
Record contract (xs : list rgz_layer) (last target : rgz_fb_state) : Prop := mk_contract {
  co_last : forall x y, x ∈ xs -> y ∈ behind last -> identity x = identity y -> same_kind x y;
  co_target : forall x y, x ∈ xs -> y ∈ behind target -> identity x = identity y -> same_kind x y;
  co_order : filter (fun id => id ∈ ids (behind target)) (ids xs) = filter (fun id => id ∈ ids xs) (ids (behind target));
  co_back : forall x t, x ∈ xs -> t ∈ behind target -> identity x = identity t ->
    (forall y, y ∈ behind last -> identity y <> identity x) -> displayFrame (hwc_layer x) = displayFrame (hwc_layer t) }.

(** The windows of both frames before, in any order: none is new or gone, none has
    moved or shows something else, and all have been drawn into one buffer at
    least since they last changed. *)
Record rearranged (xs : list rgz_layer) (last target : rgz_fb_state) : Prop := mk_rearranged {
  ra_drawn : forall y, y ∈ all_layers last -> dirty_count y <= 1;
  ra_last : forall x, x ∈ xs -> exists y, y ∈ behind last /\ identity y = identity x /\ rgz_has_layer_content_changed x y = false;
  ra_target : forall x, x ∈ xs -> exists t, t ∈ behind target /\ identity t = identity x /\ rgz_has_layer_frame_moved x t = false;
  ra_kept : forall t, t ∈ behind target -> exists x, x ∈ xs /\ identity x = identity t }.

(** The counts of the last frame: a layer that was counted down was the same in
    the frame before it. *)
Definition counted (last target : rgz_fb_state) : Prop :=
  forall l, l ∈ all_layers last -> dirty_count l <= 1 -> exists l', l' ∈ all_layers target /\
    (is_ground l <-> is_ground l') /\ (~ is_ground l -> identity l = identity l') /\ rgz_has_layer_content_changed l l' = false.

(** A new frame compared with the last one and the one that the buffer shows. *)
Record compare_ok (cur last target : rgz_fb_state) (d : blit_rect) : Prop := mk_compare_ok {
  cp_settled : forall i l, all_layers cur !! i = Some l -> exists l0, settled W H last target i l0 l d;
  cp_gone : forall t, t ∈ behind target -> rgz_find_layer cur (identity t) = None -> within W H (displayFrame (hwc_layer t)) d }.

Context (cur last target : rgz_fb_state) (d : blit_rect).
Context (Sc : shape native W H cur) (Sl : shape native W H last) (St : shape native W H target).
Context (C : contract (behind cur) last target) (K : counted last target) (D : compare_ok cur last target d).
Context (Hcur : all_layers cur <> []) (Hlast : rgz_layerno last <> 0 -> all_layers last <> []).

(** The frame before at the places of the layers. *)
Lemma before_behind i l b : i <> 0%nat -> before last i l = Some b -> b ∈ behind last /\ identity b = identity l.
Proof using Sl. intros Hi. unfold before. rewrite (proj2 (Nat.eqb_neq _ _) Hi). apply (find_behind native W H). done. Qed.

Lemma before_ground l b : before last 0 l = Some b -> b ∈ all_layers last /\ is_ground b.
Proof using Sl Hlast.
  unfold before. simpl. unfold truth. destruct (Z.eqb_spec (rgz_layerno last) 0) as [|Hne]; [done|]. simpl. intros Hb.
  specialize (Hlast Hne). destruct (sh_ground _ _ _ _ Sl) as [?|(g & E & Hg & _)]; [done|].
  assert (all_layers last !! 0%nat = Some g) as Hg0 by by rewrite E. unfold all_layers in Hg0. apply lookup_take_Some in Hg0 as [Hg0 _].
  simplify_eq. split; [rewrite E; by left|done].
Qed.

(** In another order no layer is to be drawn again. *)
Lemma rearranged_still i l : rearranged (behind cur) last target -> rgz_layerno last <> 0 -> all_layers cur !! i = Some l -> still last target i l.
Proof using Sc Sl St Hcur Hlast.
  intros R Hn Hl. destruct (sh_ground _ _ _ _ Sc) as [?|(g & E & Gg & _)]; [done|]. destruct i as [|i].
  - destruct (sh_ground _ _ _ _ Sl) as [Ea|(b & Eb & Gb & _)]; [by destruct (Hlast Hn)|].
    assert (all_layers last !! 0%nat = Some b) as Hb0 by by rewrite Eb. unfold all_layers in Hb0. apply lookup_take_Some in Hb0 as [Hb0 _].
    rewrite E in Hl. injection Hl as <-. exists b. split; [|split; [|split; [|done]]].
    + unfold before. simpl. unfold truth. by rewrite (proj2 (Z.eqb_neq _ _) Hn).
    + unfold rgz_has_layer_content_changed. by rewrite Gg, Gb.
    + apply (ra_drawn _ _ _ R). rewrite Eb. by left.
  - assert (l ∈ behind cur) as Hin by (rewrite E in Hl; by eapply list_elem_of_lookup_2).
    destruct (ra_last _ _ _ R l Hin) as (y & Hy & Ey & Ech). destruct (ra_target _ _ _ R l Hin) as (t & Ht & Et & Em).
    exists y. split; [|split; [done|split; [by apply (ra_drawn _ _ _ R), behind_in|intros _; exists t; split; [|done]]]].
    + unfold before. simpl. rewrite <- Ey. by apply (find_it native W H last Sl).
    + rewrite <- Et. by apply (find_it native W H target St).
Qed.

Lemma rearranged_found j t : rearranged (behind cur) last target -> all_layers target !! S j = Some t -> rgz_find_layer cur (identity t) <> None.
Proof using Sc St.
  intros R Ht Hf. destruct (sh_ground _ _ _ _ St) as [E|(b & E & _)]; rewrite E in Ht; [done|].
  destruct (ra_kept _ _ _ R t) as (x & Hx & Ex); [by eapply list_elem_of_lookup_2|].
  by apply (find_none native W H cur Sc _ x Hf).
Qed.

Context (p : Z * Z) (Hx : 0 <= p.1 < W) (Hy : 0 <= p.2 < H) (Hd : ~ covers d p).

(** A layer at an undamaged point is there in the buffer. *)
Lemma found_in_target x : x ∈ behind cur -> covers (displayFrame (hwc_layer x)) p ->
  exists y, y ∈ behind target /\ identity y = identity x /\ displayFrame (hwc_layer x) = displayFrame (hwc_layer y).
Proof using Sc Sl St D Hx Hy Hd.
  intros Hin Hp. destruct (behind_index cur x Hin) as [i Hi]. destruct (cp_settled _ _ _ _ D _ _ Hi) as (l0 & [_ _ _ A4 A5 A6]).
  destruct (rgz_find_layer target (identity x)) as [y|] eqn:Et; [|by destruct Hd; apply A5].
  destruct (before last (S i) x) as [b|] eqn:Eb; [|by destruct Hd; apply A4].
  destruct (find_behind native W H target St _ _ Et) as [Hy' Ey]. exists y. split; [done|]. split; [done|].
  destruct (rgz_has_layer_frame_moved x y) eqn:Em; [|by apply frame_kept]. destruct Hd.
  destruct (A6 b y) as [Hw _]; try done. by apply Hw.
Qed.

(** What the buffer shows at an undamaged point is in the frame. *)
Lemma found_in_current y : y ∈ behind target -> covers (displayFrame (hwc_layer y)) p ->
  exists x, x ∈ behind cur /\ identity x = identity y /\ displayFrame (hwc_layer x) = displayFrame (hwc_layer y).
Proof using Sc Sl St C D Hx Hy Hd.
  intros Hin Hp. destruct (rgz_find_layer cur (identity y)) as [x|] eqn:Ec; [|by destruct Hd; apply (cp_gone _ _ _ _ D y)].
  destruct (find_behind native W H cur Sc _ _ Ec) as [Hx' Ex]. exists x. split; [done|]. split; [done|].
  destruct (behind_index cur x Hx') as [i Hi]. destruct (cp_settled _ _ _ _ D _ _ Hi) as (l0 & [_ _ _ A4 A5 A6]).
  assert (rgz_find_layer target (identity x) = Some y) as Et by (rewrite Ex; by apply (find_it native W H)).
  destruct (before last (S i) x) as [b|] eqn:Eb.
  - destruct (rgz_has_layer_frame_moved x y) eqn:Em; [|by apply frame_kept]. destruct Hd.
    destruct (A6 b y) as [_ Hw]; try done. by apply Hw.
  - apply (co_back _ _ _ C x y Hx' Hin Ex). intros z Hz Ez. unfold before in Eb. simpl in Eb.
    by apply (find_none native W H last Sl _ z Eb).
Qed.

(** Picking by identity. *)
Lemma ids_filter (P : rgz_layer -> Prop) (Q : Z -> Prop) `{!forall x, Decision (P x)} `{!forall x, Decision (Q x)} ls :
  (forall x, x ∈ ls -> Q (identity x) <-> P x) -> ids (filter P ls) = filter Q (ids ls).
Proof using.
  clear. induction ls as [|x ls IH]; intros Hq; [done|]. pose proof (Hq x ltac:(by left)) as Hx'.
  assert (ids (filter P ls) = filter Q (ids ls)) as E by (apply IH; intros y ?; apply Hq; by right).
  unfold ids in *. rewrite fmap_cons. destruct (decide (P x)).
  - rewrite !filter_cons_True by tauto. by rewrite fmap_cons, E.
  - rewrite !filter_cons_False by tauto. done.
Qed.

Lemma same_ids : ids (filter (fun l => covers (displayFrame (hwc_layer l)) p) (behind cur)) =
  ids (filter (fun l => covers (displayFrame (hwc_layer l)) p) (behind target)).
Proof using All.
  set (cov := fun l => covers (displayFrame (hwc_layer l)) p). set (shown_ids := ids (filter cov (behind target))).
  assert (forall id, id ∈ shown_ids <-> exists y, y ∈ behind target /\ cov y /\ identity y = id) as Hs.
  { intros id. unfold shown_ids, ids. rewrite list_elem_of_fmap. split.
    - intros (y & -> & [? ?]%list_elem_of_filter). eauto.
    - intros (y & ? & ? & <-). exists y. rewrite list_elem_of_filter. auto. }
  assert (forall x, x ∈ behind cur -> identity x ∈ shown_ids <-> cov x) as Hc.
  { intros x Hin. rewrite Hs. split.
    - intros (y & Hy' & Cy & Ey). destruct (found_in_current y Hy' Cy) as (x' & Hx' & Ex' & Ef).
      rewrite (same_id (behind cur) x x' (sh_ids _ _ _ _ Sc) Hin Hx') by congruence. unfold cov. by rewrite Ef.
    - intros Cx. destruct (found_in_target x Hin Cx) as (y & Hy' & Ey & Ef). exists y. split; [done|]. split; [unfold cov; by rewrite <- Ef|done]. }
  assert (forall y, y ∈ behind target -> identity y ∈ shown_ids <-> cov y) as Ht.
  { intros y Hin. rewrite Hs. split; [|by eauto]. intros (y' & Hy' & Cy & Ey). by rewrite (same_id (behind target) y y' (sh_ids _ _ _ _ St) Hin Hy'). }
  etrans; [exact (ids_filter cov (fun id => id ∈ shown_ids) (behind cur) Hc)|].
  etrans; [|symmetry; exact (ids_filter cov (fun id => id ∈ shown_ids) (behind target) Ht)].
  rewrite <- (filter_filter_and (fun id => id ∈ shown_ids) (fun id => id ∈ ids (behind target)) (fun id => id ∈ shown_ids) (ids (behind cur))).
  - rewrite (co_order _ _ _ C). apply filter_filter_and. intros id _. split; [|tauto]. intros Hid. split; [done|].
    apply Hs in Hid as (y & Hy' & Cy & <-). destruct (found_in_current y Hy' Cy) as (x & Hx' & Ex & _). rewrite <- Ex. by apply list_elem_of_fmap_2.
  - intros id _. split; [|tauto]. intros Hid. split; [done|]. apply Hs in Hid as (y & Hy' & _ & <-). by apply list_elem_of_fmap_2.
Qed.

#[local] Abbreviation covering ls := (filter (fun l => covers (displayFrame (hwc_layer l)) p) ls).

(** A layer of the frame and one of the buffer in the same place of the stack. *)
Definition paired (x y : rgz_layer) : Prop :=
  (is_ground x /\ is_ground y /\ hwc_layer x = hwc_layer y) \/
  (x ∈ covering (behind cur) /\ y ∈ covering (behind target) /\ identity x = identity y).

Lemma paired_behind : Forall2 paired (covering (behind cur)) (covering (behind target)).
Proof using All.
  apply Forall2_same_length_lookup. pose proof same_ids as E. pose proof (f_equal length E) as El. unfold ids in El. rewrite !length_fmap in El.
  split; [done|]. intros i x y Hi Hj. right. split; [by eapply list_elem_of_lookup_2|]. split; [by eapply list_elem_of_lookup_2|].
  apply (f_equal (fun l => l !! i)) in E. unfold ids in E. rewrite !list_lookup_fmap, Hi, Hj in E. simpl in E. congruence.
Qed.

Lemma clean_pair x y : dirty_count x = 0 -> x ∈ all_layers cur -> paired x y -> same_drawing x y.
Proof using All.
  intros Hdirty Hin [(Gx & Gy & E)|(Hcx & Hcy & Eid)].
  - assert (class x = -2 /\ class y = -2) as [E1 E2] by (unfold class; rewrite Gx, Gy; done).
    split; [split; [congruence|by rewrite E]|intros Hc; lia|intros Hc; lia].
  - apply list_elem_of_filter in Hcx as [Cx Hx'], Hcy as [Cy Hy'].
    destruct (behind_index cur x Hx') as [i Hi]. destruct (cp_settled _ _ _ _ D _ _ Hi) as (l0 & [_ _ A3 _ _ _]).
    destruct A3 as (b & Eb & Ech & Edc); [lia|]. destruct (before_behind (S i) x b) as [Hb Ebi]; [done..|].
    destruct (K b) as (l' & Hl' & Hg & Hid & Ech'); [by apply behind_in|lia|].
    assert (~ is_ground b) as Gb by by apply Sl. specialize (Hid Gb).
    destruct (shape_in native W H target St l' Hl') as [[Gl' _]|[_ Hl'b]]; [tauto|].
    assert (l' = y) as -> by (apply (same_id (behind target)); [apply St|done..|congruence]).
    pose proof (co_last _ _ _ C x b Hx' Hb (eq_sym Ebi)) as Kxb. pose proof (co_target _ _ _ C x y Hx' Hy' Eid) as Kxy.
    assert (same_kind b y) as Kby by (transitivity x; [by symmetry|done]).
    destruct (content_unchanged x b Kxb Ech) as [S1 _], (content_unchanged b y Kby Ech') as [S2 _].
    split; [done| |].
    + intros Hc. destruct (S1 Hc) as (? & ? & ?). destruct S2 as (? & ? & ?); [by rewrite <- (sk_class _ _ Kxb)|]. split_and!; congruence.
    + intros _. destruct (found_in_target x Hx' Cx) as (y' & Hy'' & Ey' & Ef). by rewrite (same_id (behind target) y y' (sh_ids _ _ _ _ St) Hy' Hy'') by congruence.
Qed.

Lemma target_shown : (forall x, x ∈ visible native cur p -> dirty_count x = 0) -> all_layers target <> [].
Proof using All.
  intros Hclean Et. assert (behind target = []) as Bt by (unfold behind; by rewrite Et).
  destruct (stack_shape native W H cur Sc p Hcur Hx Hy) as (b & Gb & Eb & Eall & Es).
  assert (covering (behind cur) = []) as Ec.
  { pose proof paired_behind as F. rewrite Bt in F. by apply Forall2_nil_inv_r in F. }
  rewrite Ec in Es. assert (dirty_count b = 0) as Hb by (apply Hclean; unfold visible; rewrite Es; by left).
  assert (all_layers cur !! 0%nat = Some b) as H0 by by rewrite Eall.
  destruct (cp_settled _ _ _ _ D _ _ H0) as (l0 & [_ _ A3 _ _ _]). destruct A3 as (b0 & Eb0 & _ & Edc); [lia|].
  destruct (before_ground b b0 Eb0) as [Hb0 _]. destruct (K b0 Hb0) as (l' & Hl' & _); [lia|]. rewrite Et in Hl'. by apply elem_of_nil in Hl'.
Qed.

(** At an undamaged point without dirty layers the buffer shows the frame. *)
Lemma unchanged_stack {px : Type} `{EngineLaws px} u u' : (forall x, x ∈ visible native cur p -> dirty_count x = 0) ->
  composite native p (stack cur p) u = composite native p (stack target p) u'.
Proof using All.
  intros Hclean. pose proof (target_shown Hclean) as Ht.
  destruct (stack_shape native W H cur Sc p Hcur Hx Hy) as (b & Gb & Eb & Eall & Es).
  destruct (stack_shape native W H target St p Ht Hx Hy) as (bt & Gt & Ebt & Eallt & Est).
  assert (Forall2 paired (stack cur p) (stack target p)) as F.
  { rewrite Es, Est. constructor; [left; split_and!; [done|done|congruence]|apply paired_behind]. }
  assert (forall x, x ∈ stack cur p -> usable native x) as Uc
    by (intros x [_ ?]%list_elem_of_filter; by apply (shape_usable native W H cur Sc)).
  assert (forall x, x ∈ stack target p -> usable native x) as Ut
    by (intros x [_ ?]%list_elem_of_filter; by apply (shape_usable native W H target St)).
  assert (existsb (opaque native) (stack cur p) = true) as Ho.
  { rewrite Es. simpl. by rewrite (dummy_opaque native b (ground_dummy W H b Gb Eb)). }
  destruct (top_part_head (opaque native) _ Ho) as (v & vs & Ev & Hov & _). destruct (top_part_suffix (opaque native) (stack cur p)) as [pre Epre].
  rewrite Ev in Epre. unfold visible in Hclean. rewrite Ev in Hclean. rewrite Epre in F.
  apply Forall2_app_inv_l in F as (pre' & ws & Fpre & Fv & Etp). inversion Fv as [|? v' ? vs' Pv Fvs Ex Ey]; subst.
  assert (Forall2 (fun a b => usable native a /\ usable native b /\ same_drawing a b) (v :: vs) (v' :: vs')) as Fs.
  { apply Forall2_same_length_lookup. split; [by apply Forall2_length in Fv|]. intros i x y Hi Hj.
    assert (x ∈ v :: vs) as Hxv by by eapply list_elem_of_lookup_2. assert (y ∈ v' :: vs') as Hyv by by eapply list_elem_of_lookup_2.
    assert (x ∈ stack cur p) as Hxs by (rewrite Epre; apply elem_of_app; by right).
    assert (y ∈ stack target p) as Hys by (rewrite Etp; apply elem_of_app; by right).
    split; [by apply Uc|]. split; [by apply Ut|]. apply clean_pair; [by apply Hclean|by apply list_elem_of_filter in Hxs as [_ ?]|].
    destruct (Forall2_lookup_lr _ _ _ _ _ _ Fv Hi Hj); [by left|by right]. }
  assert (opaque native v' = true) as Hov'.
  { inversion Fs as [|? ? ? ? (Ua & Ub & Sd) _]; subst. by rewrite <- (same_opaque native v v' Ua Ub Sd). }
  rewrite Epre, Etp. rewrite (composite_hidden native p pre v vs u cleared Hov), (composite_hidden native p pre' v' vs' u' cleared Hov').
  by apply same_composite.
Qed.
End Frames.
