(* ===== verification/RgzSession.v ===== *)
(** * The frame buffers through many frames

    A [session] is any sequence of frames that are blitted into the two frame
    buffers in turn, with releases of the state in between.  After each frame
    the buffer shows the windows of the frame, one over the other. *)

From stdpp Require Import base list numbers option.
From Stdlib Require Import ZArith Lia.
From S2P Require Import Prelude Stateful Rgz RgzLists RgzRegions RgzEngine RgzEntries RgzCells RgzOutput RgzInput RgzFrames.
From stdpp Require Import list.

Local Open Scope Z_scope.

(** ** What is picked *)

Lemma picked_in x : forall ls m, x ∈ picked m ls -> exists l id, (l, id) ∈ ls /\ identity x = id /\
  ((is_window l = true /\ hwc_layer x = l /\ m <= buffidx x < m + Z.of_nat (length ls)) \/
   (is_clear l = true /\ hwc_layer x = set_handle 0x1 l /\ buffidx x = RGZ_CLEARHINT_BUFFIDX)).
Proof.
  induction ls as [|[l id] ls IH]; intros m; simpl; [by intros []%elem_of_nil|].
  assert (forall m', x ∈ picked m' ls -> m <= m' <= m + 1 -> exists l' id', (l', id') ∈ (l, id) :: ls /\ identity x = id' /\
    ((is_window l' = true /\ hwc_layer x = l' /\ m <= buffidx x < m + Z.of_nat (S (length ls))) \/
     (is_clear l' = true /\ hwc_layer x = set_handle 0x1 l' /\ buffidx x = RGZ_CLEARHINT_BUFFIDX))) as Hrest.
  { intros m' Hx Hm. destruct (IH m' Hx) as (l' & id' & Hl & Hi & Hc). exists l', id'. split; [by right|]. split; [done|].
    destruct Hc as [(? & ? & ?)|?]; [left|by right]. split_and!; try done; lia. }
  destruct (is_window l) eqn:Ew.
  - intros [-> |Hx]%elem_of_cons; [|by apply (Hrest (m + 1)); [|lia]]. exists l, id. split; [by left|]. split; [done|]. left. simpl. split_and!; try done; lia.
  - destruct (is_clear l) eqn:Ec; [|intros Hx; by apply (Hrest m); [|lia]].
    intros [-> |Hx]%elem_of_cons; [|by apply (Hrest m); [|lia]]. exists l, id. split; [by left|]. split; [done|]. by right.
Qed.

(** The windows are numbered in order. *)
Lemma picked_numbers x : forall ls m i, 0 <= m -> windows (picked m ls) !! i = Some x -> buffidx x = m + Z.of_nat i.
Proof.
  unfold windows. induction ls as [|[l id] ls IH]; intros m i Hm; simpl; [by rewrite filter_nil, lookup_nil|].
  destruct (is_window l).
  - rewrite filter_cons_True by (simpl; lia). destruct i as [|i]; simpl; [intros [= <-]; simpl; lia|].
    intros Hi. rewrite (IH (m + 1) i); [lia|lia|done].
  - destruct (is_clear l); [|by apply IH]. rewrite filter_cons_False by (simpl; unfold RGZ_CLEARHINT_BUFFIDX; lia). by apply IH.
Qed.

(** Counts do not matter for what a layer shows. *)
Section Recount.
Context (native : Z -> option IMG_native_handle).

Lemma recount_same a b : recount a b -> hwc_layer b = hwc_layer a /\ identity b = identity a /\ buffidx b = buffidx a.
Proof. by intros [c ->]. Qed.

Lemma recount_usable a b : recount a b -> usable native a -> usable native b.
Proof.
  intros [c ->] [?|[]]; [by left|]. right. by split.
Qed.

Lemma recount_drawing a b : recount a b -> same_drawing a b.
Proof. by intros [c ->]. Qed.

Lemma recount_ids xs ys : Forall2 recount xs ys -> ids ys = ids xs.
Proof. induction 1 as [|x y xs ys R _ IH]; [done|]. unfold ids in *. rewrite !fmap_cons, IH. f_equal. by apply recount_same. Qed.

Lemma recount_in xs ys y : Forall2 recount xs ys -> y ∈ ys -> exists x, x ∈ xs /\ recount x y.
Proof.
  intros F [i Hi]%list_elem_of_lookup. destruct (Forall2_lookup_r _ _ _ _ _ F Hi) as (x & Hx & R). exists x. split; [by eapply list_elem_of_lookup_2|done].
Qed.

Lemma recount_kind a b c : recount a b -> same_kind a c -> same_kind b c.
Proof. intros [d ->] [E1 E2]. by split. Qed.

Lemma recount_windows xs ys : Forall2 recount xs ys -> Forall2 recount (windows xs) (windows ys).
Proof.
  unfold windows. induction 1 as [|x y xs ys R _ IH]; [done|]. destruct (recount_same x y R) as (_ & _ & E).
  destruct (decide (buffidx x <> -1)).
  - rewrite !filter_cons_True by (rewrite ?E; done). by constructor.
  - rewrite !filter_cons_False by (rewrite ?E; done). done.
Qed.

Lemma recount_covering p xs ys : Forall2 recount xs ys ->
  Forall2 recount (filter (fun l => covers (displayFrame (hwc_layer l)) p) xs) (filter (fun l => covers (displayFrame (hwc_layer l)) p) ys).
Proof.
  induction 1 as [|x y xs ys R _ IH]; [done|]. destruct (recount_same x y R) as (E & _).
  destruct (decide (covers (displayFrame (hwc_layer x)) p)).
  - rewrite !filter_cons_True by (by rewrite ?E). by constructor.
  - rewrite !filter_cons_False by (by rewrite ?E). done.
Qed.

Lemma contract_recount xs ys last target : Forall2 recount xs ys -> contract xs last target -> contract ys last target.
Proof.
  intros F [C1 C2 C3 C4]. split.
  - intros y z Hy Hz E. destruct (recount_in xs ys y F Hy) as (x & Hx & R). eapply recount_kind; [done|].
    apply C1; [done|done|]. by rewrite <- (proj1 (proj2 (recount_same x y R))).
  - intros y z Hy Hz E. destruct (recount_in xs ys y F Hy) as (x & Hx & R). eapply recount_kind; [done|].
    apply C2; [done|done|]. by rewrite <- (proj1 (proj2 (recount_same x y R))).
  - by rewrite (recount_ids xs ys F).
  - intros y t Hy Ht E Hn. destruct (recount_in xs ys y F Hy) as (x & Hx & R). destruct (recount_same x y R) as (Eh & Ei & _).
    rewrite Eh. apply C4; [done|done|congruence|]. intros z Hz. rewrite <- Ei. by apply Hn.
Qed.

Lemma rearranged_recount xs ys last target : Forall2 recount xs ys -> rearranged xs last target -> rearranged ys last target.
Proof.
  intros F [R1 R2 R3 R4]. split; [done|..].
  - intros y Hy. destruct (recount_in xs ys y F Hy) as (x & Hx & [c ->]). apply (R2 x Hx).
  - intros y Hy. destruct (recount_in xs ys y F Hy) as (x & Hx & [c ->]). apply (R3 x Hx).
  - intros t Ht. destruct (R4 t Ht) as (x & Hx & Ex). apply list_elem_of_lookup in Hx as [i Hi].
    destruct (Forall2_lookup_l _ _ _ _ _ F Hi) as (y & Hy & [c ->]). eexists. by split; [eapply list_elem_of_lookup_2|].
Qed.
End Recount.

Section Session.
Context (native : Z -> option IMG_native_handle) (g : bvsurfgeom) (W H : Z) (Sg : screen_ok g W H).

(** The background that [rgz_get_screengeometry] sets up. *)
Definition bg : hwc_layer_1 := mk_layer 0 0 0 0 0 0 zero_rect (mk_rect 0 0 W H).

(** A layer with coordinates that a screen has. *)
Record layer_fits (l : hwc_layer_1) : Prop := mk_layer_fits {
  lf_frame : near_rect BOUND (displayFrame l) /\ on_screen W H (displayFrame l);
  lf_window : is_window l = true -> near_rect BOUND (sourceCrop l) /\ forall h, native (handle l) = Some h ->
    (0 < iWidth h <= BOUND /\ 0 < iHeight h <= BOUND) /\
    (is_NV12 (iFormat h) = true -> rgz_hwc_scaled l = false -> has (transform l) HWC_TRANSFORM_FLIP_H = has (transform l) HWC_TRANSFORM_FLIP_V);
  lf_clear : is_window l = false -> blending l <> HWC_BLENDING_PREMULT }.

(** A frame handed to [rgz_in]. *)
Record frame_given (p : rgz_in_params) (ls : list hwc_layer_1) : Prop := mk_frame_given {
  fg_geom : in_dstgeom p = g;
  fg_layers : layers_given native p ls;
  fg_few : (length ls <= 1000)%nat;
  fg_fits : forall l, l ∈ ls -> is_window l = true \/ is_clear l = true -> layer_fits l;
  fg_ids : NoDup (ids (picks p ls)) }.

Lemma overlays_range p ls : 0 <= overlays p ls <= Z.of_nat (length ls).
Proof using.
  clear. unfold overlays. split; [lia|]. apply inj_le. etrans; [apply length_filter|]. rewrite length_take. lia.
Qed.

Lemma valid_native l : valid native l = true -> exists h, native (handle l) = Some h /\
  (is_NV12 (iFormat h) = false -> has (transform l) HWC_TRANSFORM_FLIP_H = has (transform l) HWC_TRANSFORM_FLIP_V).
Proof using.
  clear. unfold valid, rgz_in_valid_hwc_layer, native_of. destruct (has (flags l) HWC_SKIP_LAYER || (handle l =? 0)); [done|].
  destruct (native (handle l)) as [h|] eqn:E; simpl; [|done]. intros Hv. exists h. split; [done|]. intros Hn. rewrite Hn in Hv.
  destruct (truth (transform l)) eqn:Et.
  - simpl in Hv. destruct (has (transform l) HWC_TRANSFORM_FLIP_H), (has (transform l) HWC_TRANSFORM_FLIP_V); done.
  - unfold truth in Et. apply negb_false_iff, Z.eqb_eq in Et. by rewrite Et.
Qed.

Section Given.
Context (p : rgz_in_params) (ls : list hwc_layer_1) (G : frame_given p ls).

Lemma picks_in x : x ∈ picks p ls -> exists l, l ∈ ls /\ layer_fits l /\ ~ is_ground x /\ displayFrame (hwc_layer x) = displayFrame l /\
  ((is_window l = true /\ hwc_layer x = l /\ 0 <= buffidx x < 2 ^ 16) \/
   (is_window l = false /\ hwc_layer x = set_handle 0x1 l /\ buffidx x = RGZ_CLEARHINT_BUFFIDX)).
Proof using G.
  intros (l & id & Hl & _ & Hc)%picked_in. pose proof (overlays_range p ls). pose proof (fg_few _ _ G).
  assert (l ∈ ls) as Hin.
  { apply list_elem_of_lookup in Hl as [i Hi]. apply lookup_zip_with_Some in Hi as (a & b & [= -> ->] & Ha & _). by eapply list_elem_of_lookup_2. }
  exists l. split; [done|]. assert (length (zip ls (extlayers p)) <= length ls)%nat by (rewrite length_zip_with; lia).
  destruct Hc as [(Hw & Eh & Hb)|(Hc & Eh & Hb)].
  - split; [by apply (fg_fits _ _ G); [|left]|]. split; [unfold is_ground, RGZ_BACKGROUND_BUFFIDX; lia|]. split; [by rewrite Eh|]. left. split_and!; try done; lia.
  - split; [by apply (fg_fits _ _ G); [|right]|]. split; [unfold is_ground; by rewrite Hb|]. split; [by rewrite Eh|]. right. split_and!; try done.
    unfold is_clear in Hc. by apply andb_true_iff in Hc as [?%negb_true_iff _].
Qed.

Lemma given_seen : seen_layers p ls W H.
Proof using G. intros x Hx. destruct (picks_in x Hx) as (l & _ & F & _ & -> & _). apply F. Qed.

Lemma picks_usable : blittable native p ls -> forall x, x ∈ picks p ls -> usable native x.
Proof using G.
  intros [Hv _] x Hx. destruct (picks_in x Hx) as (l & Hl & F & _ & _ & [(Hw & E & Hb)|(Hw & E & Hb)]).
  - right. destruct (valid_native l (Hv l Hl Hw)) as (h & Hh & Hf). destruct (lf_window _ F Hw) as [Hc Hs]. destruct (Hs h Hh) as [Hsz Hnv].
    unfold native_for. rewrite E, Hh. simpl. split; rewrite ?E; try done; [apply F|].
    intros [Hn|Hn]; [by apply Hf|]. destruct (is_NV12 (iFormat h)) eqn:En; [by apply Hnv|by apply Hf].
  - left. split; [by right|]. rewrite E. by apply (lf_clear _ F).
Qed.

(** ** A new frame *)

Context (r r' : rgz) (N : next_frame bg p ls W H r r') (M : machine_ok r') (B : blittable native p ls).

Lemma new_layers : exists b, all_layers (cur_fb_state r') = b :: behind (cur_fb_state r') /\ is_ground b /\ hwc_layer b = screen_layer W H /\
  Forall2 recount (picks p ls) (behind (cur_fb_state r')).
Proof using N.
  destruct (nf_picks _ _ _ _ _ _ _ N) as [id F]. unfold behind. inversion F as [|? b ? ys R F' E1 E2]. subst. exists b.
  destruct (recount_same _ _ R) as (Eh & _ & Eb). split; [done|]. split; [done|]. split; [done|]. done.
Qed.

Lemma new_shape : shape native W H (cur_fb_state r').
Proof using N B G.
  destruct new_layers as (b & E & Gb & Eb & F). split.
  - right. by exists b.
  - intros y Hy. destruct (recount_in _ _ y F Hy) as (x & Hx & R). split; [eapply recount_usable; [done|]; by apply picks_usable|].
    destruct (picks_in x Hx) as (_ & _ & _ & Hg & _). unfold is_ground in *. by rewrite (proj2 (proj2 (recount_same x y R))).
  - rewrite (recount_ids _ _ F). apply G.
Qed.

Lemma new_compared : compare_ok W H (cur_fb_state r') (last_frame r) (target_frame r) (damaged_area r').
Proof using N.
  split; [apply N|]. intros t Ht Hf. destruct (behind_index _ t Ht) as [i Hi]. unfold all_layers in Hi. apply lookup_take_Some in Hi as [Hi Hlt].
  apply (nf_gone _ _ _ _ _ _ _ N (S i) t); [lia|done|done].
Qed.

(** The windows of the frame and those picked draw the same. *)
Lemma behind_composite {px : Type} `{EngineLaws px} q :
  composite native q (filter (fun l => covers (displayFrame (hwc_layer l)) q) (behind (cur_fb_state r'))) cleared =
  composite native q (filter (fun l => covers (displayFrame (hwc_layer l)) q) (picks p ls)) cleared.
Proof using N B G.
  destruct new_layers as (b0 & E0 & _ & _ & F).
  symmetry. apply same_composite. apply Forall2_same_length_lookup. pose proof (recount_covering q _ _ F) as Fc.
  split; [by apply Forall2_length in Fc|]. intros i x y Hi Hj. pose proof (Forall2_lookup_lr _ _ _ _ _ _ Fc Hi Hj) as R.
  assert (x ∈ picks p ls) as Hin by (apply list_elem_of_lookup_2, list_elem_of_filter in Hi; tauto).
  pose proof (picks_usable B x Hin) as Ux. split; [done|]. split; [by eapply recount_usable|by apply recount_drawing].
Qed.

Lemma new_composite {px : Type} `{EngineLaws px} q u : 0 <= q.1 < W -> 0 <= q.2 < H ->
  composite native q (stack (cur_fb_state r') q) u =
  composite native q (filter (fun l => covers (displayFrame (hwc_layer l)) q) (picks p ls)) cleared.
Proof using N B G.
  intros Hx Hy. destruct new_layers as (b0 & E0 & _ & _ & F). rewrite (shape_composite native W H _ new_shape) by (done || by rewrite E0).
  by apply behind_composite.
Qed.

(** The numbers of the windows find their handles. *)
Lemma handles_known (hndls : list Z) : (forall i l, windows (behind (cur_fb_state r')) !! i = Some l -> hndls !! i = Some (handle (hwc_layer l))) ->
  known (fun n => default 0 (hndls !! Z.to_nat (n - overlays p ls))) (behind (cur_fb_state r')).
Proof using N.
  intros Hh l Hl Hb. destruct new_layers as (b0 & E & Gb & _ & F).
  assert (l ∈ windows (behind (cur_fb_state r'))) as Hw by (apply list_elem_of_filter; split; [lia|done]).
  apply list_elem_of_lookup in Hw as [i Hi]. destruct (Forall2_lookup_r _ _ _ _ _ (recount_windows _ _ F) Hi) as (x & Hx & R).
  pose proof (overlays_range p ls). pose proof (picked_numbers x (zip ls (extlayers p)) (overlays p ls) i ltac:(lia) Hx) as Hn.
  destruct (recount_same x l R) as (_ & _ & El).
  rewrite El, Hn. replace (Z.to_nat (overlays p ls + Z.of_nat i - overlays p ls)) with i by lia. by rewrite (Hh i l Hi).
Qed.
End Given.

(** ** Sessions *)

(** The blits of a frame, and the buffers that their numbers stand for. *)
Definition commands (b : rgz_blts) : list rgz_blt_entry := take (Z.to_nat (cmdlen b)) (default [] (cmdp b)).
Definition resolve (first : Z) (b : rgz_blts) (n : Z) : Z := default 0 (out_hndls b !! Z.to_nat (n - first)).

Record out_given (params : rgz_out_params) (b : rgz_blts) : Prop := mk_out_given {
  og_params : params_ok g W H params;
  og_op : out_op params = RGZ_OUT_BVCMD_REGION;
  og_room : (11 <= length (out_hndls b))%nat }.

Context {px : Type} `{EngineLaws px}.

(** The state and what the two buffers show. *)
Inductive session : rgz -> (Z -> Z * Z -> px) -> Prop :=
| session_released fbs : session zero_rgz fbs
| session_drawn r fbs calloc_ok p ls params b r' b' :
    session r fbs -> in_op p = RGZ_IN_HWC -> frame_given p ls -> contract (picks p ls) (last_frame r) (target_frame r) -> out_given params b ->
    rgz_in native calloc_ok bg p r = Ok (RGZ_ALL, r') -> rgz_out native r' params b = Ok (0, b') ->
    session r' (fun i => if i =? fb_state_idx r' then blits (resolve (overlays p ls) b') (commands b') (fbs i) else fbs i).

(** A buffer shows a frame. *)
Definition shows (fb : rgz_fb_state) (scr : Z * Z -> px) : Prop :=
  all_layers fb <> [] -> forall q, 0 <= q.1 < W -> 0 <= q.2 < H -> scr q = composite native q (stack fb q) cleared.

Record session_ok (r : rgz) (fbs : Z -> Z * Z -> px) : Prop := mk_session_ok {
  se_machine : machine_ok r;
  se_last : shape native W H (last_frame r);
  se_target : shape native W H (target_frame r);
  se_counted : counted (last_frame r) (target_frame r);
  se_shows_last : shows (last_frame r) (fbs (fb_state_idx r));
  se_shows_target : shows (target_frame r) (fbs (next_idx r)) }.

Lemma released_ok fbs : session_ok zero_rgz fbs.
Proof using.
  assert (shape native W H zero_fb) as Sh by (split; [by left|intros l []%elem_of_nil|constructor]).
  split; [apply zero_machine|done|done| |by intros []|by intros []]. intros l []%elem_of_nil.
Qed.

Lemma shape_same fb fb' : all_layers fb = all_layers fb' -> shape native W H fb -> shape native W H fb'.
Proof using.
  intros E [S1 S2 S3]. assert (behind fb' = behind fb) as Eb by (unfold behind; by rewrite E). split.
  - rewrite Eb, <- E. done.
  - by rewrite Eb.
  - by rewrite Eb.
Qed.

Lemma kept_nonempty r i : machine_ok r -> i = 0 \/ i = 1 -> rgz_layerno (kept r i) <> 0 -> all_layers (kept r i) <> [].
Proof using.
  clear. intros M Hi Hn E. destruct (kept_lookup r i M Hi) as [_ K]. pose proof (ke_count _ K). pose proof (ke_room _ K).
  apply (f_equal length) in E. unfold all_layers, count_of in E. rewrite length_take in E. simpl in E. lia.
Qed.

Section Step.
Context (r : rgz) (fbs : Z -> Z * Z -> px) (Se : session_ok r fbs) (p : rgz_in_params) (ls : list hwc_layer_1) (G : frame_given p ls).
Context (Hop : in_op p = RGZ_IN_HWC) (calloc_ok : bool) (r' : rgz).

(** A frame that was taken in. *)
Record taken : Prop := mk_taken {
  tk_accepted : accepted native p ls calloc_ok;
  tk_next : next_frame bg p ls W H r r';
  tk_machine : machine_ok r';
  tk_frame : frame_ok (cur_fb_state r') W H;
  tk_regions : exists hs ys k, regions_made W H r' hs ys k }.

Lemma in_ok : runs (rgz_in native calloc_ok bg p) r (fun rv s => (rv = RGZ_ALL /\ accepted native p ls calloc_ok /\
    next_frame bg p ls W H r s /\ machine_ok s /\ frame_ok (cur_fb_state s) W H /\ exists hs ys k, regions_made W H s hs ys k) \/
    (rv <> RGZ_ALL /\ ~ accepted native p ls calloc_ok)).
Proof using Sg Se G Hop.
  apply (rgz_in_ok native bg p ls g W H (fg_geom _ _ G) Sg (fg_layers _ _ G) eq_refl calloc_ok Hop); [apply Se|by apply given_seen].
Qed.

Lemma in_taken : rgz_in native calloc_ok bg p r = Ok (RGZ_ALL, r') -> taken.
Proof using Sg Se G Hop.
  intros E. destruct in_ok as (rv & s & Es & Hs). rewrite E in Es. injection Es as <- <-.
  destruct Hs as [(_ & ? & ? & ? & ? & ?)|[? _]]; [by split|done].
Qed.

Context (T : taken).

Let B : blittable native p ls := proj1 (tk_accepted T).

Lemma new_usable l : l ∈ all_layers (cur_fb_state r') -> usable native l.
Proof using G T. apply (shape_usable native W H). by apply (new_shape p ls G r r' (tk_next T)). Qed.

Lemma new_ground l : rgz_layers (cur_fb_state r') !! 0%nat = Some l -> opaque native l = true.
Proof using T.
  intros Hl. destruct (new_layers p ls r r' (tk_next T)) as (b & E & Gb & Eb & _).
  assert (all_layers (cur_fb_state r') !! 0%nat = Some b) as Hg0 by by rewrite E. unfold all_layers in Hg0. apply lookup_take_Some in Hg0 as [Hg0 _].
  simplify_eq. by apply dummy_opaque, (ground_dummy W H).
Qed.

Lemma screen_bound : W <= BOUND /\ H <= BOUND.
Proof using Sg. destruct (so_size _ _ _ Sg). lia. Qed.

Context (params : rgz_out_params) (b : rgz_blts) (O : out_given params b).

Lemma windows_few : (length (windows (frame_layers (cur_fb_state r'))) <= length (out_hndls b))%nat.
Proof using T O.
  destruct (new_layers p ls r r' (tk_next T)) as (_ & _ & _ & _ & F). pose proof (og_room _ _ O). pose proof (nf_some _ _ _ _ _ _ _ (tk_next T)).
  apply Forall2_length in F. change (frame_layers (cur_fb_state r')) with (behind (cur_fb_state r')).
  assert (length (windows (behind (cur_fb_state r'))) <= length (behind (cur_fb_state r')))%nat; [apply length_filter|lia].
Qed.

(** What comes out of a frame. *)
Lemma out_ok bufs : exists hs ys k, regions_made W H r' hs ys k /\
  let ds := frame_drawings native (cur_fb_state r') bufs (damaged_area r') hs in
  runs (rgz_out native r' params) b (fun rv b' =>
    (rv = 0 /\ output bufs ds (windows (frame_layers (cur_fb_state r'))) b') \/ (rv = -1 /\ list_full ds b')).
Proof using Sg G T O.
  destruct (tk_regions T) as (hs & ys & k & Rm). exists hs, ys, k. split; [done|].
  apply (out_region_ok native r' W H hs ys k (tk_frame T) (rm_tiling _ _ _ _ _ _ Rm) screen_bound new_usable new_ground
    (rm_state _ _ _ _ _ _ Rm) (rm_hregions _ _ _ _ _ _ Rm) (rm_count _ _ _ _ _ _ Rm) bufs params g (og_params _ _ O) (og_op _ _ O) b windows_few).
Qed.

(** Windows in another order are not drawn. *)
Lemma rearranged_clean : rearranged (picks p ls) (last_frame r) (target_frame r) ->
  damaged_area r' = zero_rect /\ (forall l, l ∈ all_layers (cur_fb_state r') -> dirty_count l = 0) /\ all_layers (target_frame r) <> [].
Proof using Se G T.
  intros R. destruct (new_layers p ls r r' (tk_next T)) as (g0 & E & _ & _ & F). apply (rearranged_recount _ _ _ _ F) in R.
  assert (exists x, x ∈ behind (cur_fb_state r')) as [x Hx].
  { pose proof (nf_some _ _ _ _ _ _ _ (tk_next T)) as Hs. rewrite (Forall2_length _ _ _ F) in Hs.
    destruct (behind (cur_fb_state r')) as [|x xs]; [simpl in Hs; lia|]. exists x. by left. }
  assert (rgz_layerno (last_frame r) <> 0) as Hn.
  { intros Hz. destruct (ra_last _ _ _ R x Hx) as (y & Hy & _). unfold behind, all_layers, count_of in Hy. rewrite Hz in Hy. by apply elem_of_nil in Hy. }
  assert (rgz_layerno (last_frame r) <> 0 -> all_layers (last_frame r) <> []) as Hl by (apply kept_nonempty; apply Se).
  assert (all_layers (cur_fb_state r') <> []) as Hne by by rewrite E.
  pose proof (new_shape p ls G r r' (tk_next T) B) as Sc.
  destruct (nf_still _ _ _ _ _ _ _ (tk_next T)) as [Ed Hc].
  - intros i l Hi. by apply (rearranged_still native W H (cur_fb_state r') (last_frame r) (target_frame r) Sc (se_last _ _ Se) (se_target _ _ Se) Hne Hl).
  - intros [|j] t Hj Ht; [lia|]. apply (rearranged_found native W H (cur_fb_state r') (last_frame r) (target_frame r) Sc (se_target _ _ Se) j t R).
    unfold all_layers. rewrite lookup_take_lt; [done|apply Hj].
  - split; [done|]. split; [done|]. intros Et. destruct (ra_target _ _ _ R x Hx) as (t & Ht & _). unfold behind in Ht. rewrite Et in Ht. by apply elem_of_nil in Ht.
Qed.

Lemma rearranged_blits : rearranged (picks p ls) (last_frame r) (target_frame r) ->
  runs (rgz_out native r' params) b (fun rv b' => rv = 0 /\ commands b' = []).
Proof using Sg Se G T O.
  intros R. destruct (rearranged_clean R) as (Ed & Hc & _). destruct (out_ok (fun _ => 0)) as (hs & ys & k & Rm & Ho).
  eapply st_runs_mono; [apply Ho|]. rewrite (clean_drawings native (cur_fb_state r') W H hs ys k (tk_frame T) (rm_tiling _ _ _ _ _ _ Rm) _ _ Ed Hc).
  intros rv b' [[-> Ou]|[_ [_ Hf]]]; [|by destruct Hf]. split; [done|].
  destruct (ou_cmds _ _ _ _ Ou) as (E1 & E2 & _). pose proof (ou_draws _ _ _ _ Ou) as D. apply Forall2_nil_inv_r in D.
  unfold commands. by rewrite E1, E2.
Qed.

Context (b' : rgz_blts) (Eout : rgz_out native r' params b = Ok (0, b')).

Lemma output_given bufs : exists hs ys k, regions_made W H r' hs ys k /\
  output bufs (frame_drawings native (cur_fb_state r') bufs (damaged_area r') hs) (windows (frame_layers (cur_fb_state r'))) b'.
Proof using Sg G T O Eout.
  destruct (out_ok bufs) as (hs & ys & k & Rm & rv & s & Es & Hs). rewrite Eout in Es. injection Es as <- <-.
  exists hs, ys, k. split; [done|]. by destruct Hs as [[_ ?]|[? _]].
Qed.

(** The handles of the frame are those of its windows. *)
Lemma resolve_known : known (resolve (overlays p ls) b') (all_layers (cur_fb_state r')).
Proof using Sg G T O Eout.
  destruct (output_given (fun _ => 0)) as (hs & ys & k & _ & Ou). intros l Hl Hb.
  destruct (new_layers p ls r r' (tk_next T)) as (b0 & E & Gb & _ & F). rewrite E in Hl.
  apply elem_of_cons in Hl as [-> | Hl]; [by rewrite Gb in Hb|].
  apply (handles_known p ls r r' (tk_next T) (out_hndls b')); [apply (ou_handles _ _ _ _ Ou)|done|done].
Qed.

(** The buffer after the blits. *)
Lemma blits_shown (C : contract (picks p ls) (last_frame r) (target_frame r)) q : 0 <= q.1 < W -> 0 <= q.2 < H ->
  blits (resolve (overlays p ls) b') (commands b') (fbs (fb_state_idx r')) q = composite native q (stack (cur_fb_state r') q) cleared.
Proof using All.
  intros Hx Hy. destruct (output_given (resolve (overlays p ls) b')) as (hs & ys & k & Rm & Ou).
  destruct (ou_cmds _ _ _ _ Ou) as (E1 & E2 & _).
  assert (commands b' = emitted b') as -> by (unfold commands, emitted; by rewrite E1, E2).
  rewrite (blits_do _ _ _ (ou_draws _ _ _ _ Ou)). pose proof (rm_tiling _ _ _ _ _ _ Rm) as Ti. pose proof (tk_frame T) as F.
  rewrite (frame_drawings_do native (cur_fb_state r') W H hs ys k F Ti screen_bound new_usable new_ground (resolve (overlays p ls) b') params g
    (damaged_area r') (og_params _ _ O) resolve_known q hs 0) by done.
  destruct (cell_exists (cur_fb_state r') W H hs ys k F Ti q Hx Hy) as (i & s & h & A & Hq).
  rewrite (point_redrawn_cell native (cur_fb_state r') W H hs ys k F Ti (damaged_area r') q i s h A Hq).
  destruct (cell_redrawn native (cur_fb_state r') (damaged_area r') h s) eqn:Er; [done|].
  rewrite (cell_redrawn_visible native (cur_fb_state r') W H hs ys k F Ti (damaged_area r') i s h q A Hq) in Er.
  apply orb_false_iff in Er as [Er1 Er2].
  assert (~ covers (damaged_area r') q) as Hd.
  { intros Hc. by rewrite (covers_intersects (damaged_area r') (subregion h s) q Hc Hq) in Er1. }
  assert (forall x, x ∈ visible native (cur_fb_state r') q -> dirty_count x = 0) as Hclean.
  { intros x Hin. destruct (decide (dirty_count x = 0)) as [|Hne]; [done|]. rewrite <- not_true_iff_false in Er2. destruct Er2.
    apply existsb_exists. exists x. split; [by apply list_elem_of_In|]. by apply truth_spec. }
  destruct (new_layers p ls r r' (tk_next T)) as (b0 & E0 & _ & _ & Fp).
  assert (all_layers (cur_fb_state r') <> []) as Hne by by rewrite E0.
  assert (rgz_layerno (last_frame r) <> 0 -> all_layers (last_frame r) <> []) as Hl by (apply kept_nonempty; apply Se).
  pose proof (contract_recount _ _ _ _ Fp C) as C'.
  pose proof (new_shape p ls G r r' (tk_next T) B) as Sc.
  rewrite (unchanged_stack native W H (cur_fb_state r') (last_frame r) (target_frame r) (damaged_area r') Sc (se_last _ _ Se) (se_target _ _ Se) C'
    (se_counted _ _ Se) (new_compared p ls r r' (tk_next T)) Hne Hl q Hx Hy Hd cleared cleared Hclean).
  rewrite (nf_idx _ _ _ _ _ _ _ (tk_next T)). apply (se_shows_target _ _ Se); [|done|done].
  by apply (target_shown native W H (cur_fb_state r') (last_frame r) (target_frame r) (damaged_area r') Sc (se_last _ _ Se) (se_target _ _ Se) C'
    (se_counted _ _ Se) (new_compared p ls r r' (tk_next T)) Hne Hl q Hx Hy Hd Hclean).
Qed.

(** The state after the frame. *)
Lemma step_ok (C : contract (picks p ls) (last_frame r) (target_frame r)) :
  session_ok r' (fun i => if i =? fb_state_idx r' then blits (resolve (overlays p ls) b') (commands b') (fbs i) else fbs i).
Proof using All.
  pose proof (tk_next T) as N. destruct (nf_states _ _ _ _ _ _ _ N) as (fb & Efb & Kfb & Ecount & Elay).
  pose proof (se_machine _ _ Se) as M. pose proof (nf_idx _ _ _ _ _ _ _ N) as Ei.
  assert (last_frame r' = fb /\ target_frame r' = last_frame r /\ next_idx r' = fb_state_idx r /\ next_idx r <> fb_state_idx r) as (El & Et & Eni & Hne).
  { destruct (mo_states r M) as (a & c & Eac & _). unfold last_frame, target_frame, next_idx, kept. rewrite Efb, Ei, Eac.
    destruct (next_idx_cases r M) as [[E1 E2]|[E1 E2]]; rewrite E2, E1; done. }
  pose proof (new_shape p ls G r r' N B) as Sc.
  assert (shape native W H fb) as Sf by (by eapply shape_same).
  assert (rgz_layerno (last_frame r) <> 0 -> all_layers (last_frame r) <> []) as Hl by (apply kept_nonempty; [done|apply M]).
  split.
  - apply (tk_machine T).
  - by rewrite El.
  - rewrite Et. apply Se.
  - rewrite El, Et. intros l Hin Hd. rewrite Elay in Hin. apply list_elem_of_lookup in Hin as [i Hi].
    destruct (nf_settled _ _ _ _ _ _ _ N i l Hi) as (l0 & Sl). destruct (st_fresh _ _ _ _ _ _ _ _ Sl Hd) as (x & Ex & Ech & _).
    destruct (new_layers p ls r r' N) as (b0 & E0 & Gb0 & _ & _). exists x. destruct i as [|i].
    + destruct (before_ground native W H (last_frame r) (se_last _ _ Se) Hl l x Ex) as [Hx Gx]. rewrite E0 in Hi. injection Hi as <-.
      split; [done|]. split; [done|]. split; [done|done].
    + destruct (before_behind native W H (last_frame r) (se_last _ _ Se) (S i) l x) as [Hx Eid]; [done..|].
      assert (l ∈ behind (cur_fb_state r')) as Hlb by (rewrite E0 in Hi; by eapply list_elem_of_lookup_2).
      split; [by apply behind_in|]. split; [|by split].
      split; [intros Hg; by destruct (proj2 (sh_layers _ _ _ _ Sc l Hlb))|intros Hg; by destruct (proj2 (sh_layers _ _ _ _ (se_last _ _ Se) x Hx))].
  - rewrite El, Z.eqb_refl. intros _ q Hx Hy. rewrite (blits_shown C q Hx Hy). unfold stack. by rewrite Elay.
  - rewrite Et, Eni. rewrite (proj2 (Z.eqb_neq _ _)) by (rewrite Ei; congruence). apply Se.
Qed.
End Step.

Lemma session_is_ok r fbs : session r fbs -> session_ok r fbs.
Proof using All.
  induction 1 as [fbs|r fbs calloc_ok p ls params b r' b' _ Se Hop G C O Ein Eout]; [apply released_ok|].
  apply (step_ok r fbs Se p ls G Hop calloc_ok r' (in_taken r fbs Se p ls G Hop calloc_ok r' Ein) params b O b' Eout C).
Qed.
End Session.
