(* ===== verification/RgzPaint.v ===== *)
(** * Painting without regions

    [rgz_out_bvcmd_paint] clears the screen and draws every window whole: slower
    than the blits of the regions, and the same to see. *)

From stdpp Require Import base list numbers option.
From Stdlib Require Import ZArith Lia.
From S2P Require Import Prelude Stateful Rgz RgzLists RgzRegions RgzEngine RgzEntries RgzCells RgzOutput RgzInput RgzFrames RgzSession.
From stdpp Require Import list.

Local Open Scope Z_scope.

(** A format without transparency hides what is below it. *)
Definition opaque_format (f : ocdformat) : bool :=
  match f with OCDFMT_RGB16 | OCDFMT_RGB124 | OCDFMT_BGR124 => true | _ => false end.

Class OpaqueLaw (px : Type) `{Engine px} :=
  over_opaque s d : opaque_format (g_format (s_surface s)) = true -> over (fetch s) d = fetch s.

Lemma opaque_hal f : is_OPAQUE f = true -> opaque_format (hal_to_ocd f) = true.
Proof. by destruct f. Qed.

Section Paint.
Context (native : Z -> option IMG_native_handle) (g : bvsurfgeom) (W H : Z) (Sg : screen_ok g W H) (bufs : Z -> Z).
Context (params : rgz_out_params) (Pm : params_ok g W H params).

(** What is drawn of a layer. *)
Definition paint_act (l : rgz_layer) : act :=
  if buffidx l =? -1 then Clears
  else if blending (hwc_layer l) =? HWC_BLENDING_PREMULT then Blends (sample_of native bufs l) else Copies (sample_of native bufs l).
Definition paint_drawing (l : rgz_layer) : drawing := (clipped W H (displayFrame (hwc_layer l)), paint_act l).

(** A layer that can be drawn, with some of it on the screen. *)
Definition paintable (l : rgz_layer) : Prop :=
  target W H (displayFrame (hwc_layer l)) /\ (buffidx l <> -1 -> drawable native l (native_for native l)).

Lemma drawn_whole l p : target W H (displayFrame l) -> drawn W H (displayFrame l) l p <-> covers (clipped W H (displayFrame l)) p.
Proof using.
  clear. intros [_ [? ? ? ?]]. unfold drawn, asked. assert ((if rgz_hwc_scaled l then displayFrame l else displayFrame l) = displayFrame l) as -> by by destruct (rgz_hwc_scaled l).
  unfold covers, clipped. simpl. lia.
Qed.

Lemma clipped_target c : target W H c -> target W H (clipped W H c) /\ clipped W H (clipped W H c) = clipped W H c.
Proof using Sg.
  intros T. destruct (so_size _ _ _ Sg) as [HW HH]. split.
  - split; [apply clip_near; [done|apply T]|]. destruct T as [[_ _ _ _ ? ?] [? ? [? ?] [? ?]]]. split; simpl; lia.
  - unfold clipped. simpl. f_equal; lia.
Qed.

Lemma umin_clipped c : target W H c ->
  mk_rect (Z.max 0 (r_left c)) (Z.max 0 (r_top c)) (umin (g_width g) (r_right c)) (umin (g_height g) (r_bottom c)) = clipped W H c.
Proof using Sg.
  intros T. pose proof (set_clip_rect_ok g W H c zero_entry Sg T) as E. unfold rgz_set_clip_rect in E. apply (f_equal cliprect) in E. simpl in E.
  destruct Sg as [Ew Eh HS], T as [[? ? ? ? ? ?] [? ? [? ?] [? ?]]]. unfold clipped, umin, near, BOUND in *. rewrite Ew, Eh.
  rewrite !wrapU_small by lia. rewrite !s32_small by lia. done.
Qed.

Lemma layer_blit_ok b o l : paintable l -> buffidx l <> -1 -> holds bufs b o ->
  runs (rgz_hwc_layer_blit native params l) b (fun rv b' => rv = 0 /\ 0 < blts_idx b' /\ extends bufs b o [paint_drawing l] b').
Proof using Sg Pm.
  intros [T D] Hb Hh. specialize (D Hb). unfold rgz_hwc_layer_blit, rgz_get_displayframe_rect. rewrite (po_blend _ _ _ _ Pm), Z.eqb_refl. cbn [andb].
  assert (forall e a, acts bufs e (drawn W H (displayFrame (hwc_layer l)) (hwc_layer l)) a -> does bufs e (clipped W H (displayFrame (hwc_layer l)), a)) as Hd.
  { intros e a [A1 A2 A3 A4]. split; try done. intros p. rewrite A1. by apply drawn_whole. }
  unfold paint_drawing, paint_act. rewrite (proj2 (Z.eqb_neq _ _) Hb).
  destruct (blending (hwc_layer l) =? HWC_BLENDING_PREMULT).
  - eapply st_runs_bind; [unfold rgz_hwc_subregion_blend; rewrite (po_geom _ _ _ _ Pm);
      apply (emit_ok bufs params (po_cmd _ _ _ _ Pm) b o _ (clipped W H (displayFrame (hwc_layer l)), Blends (sample_of native bufs l)) Hh)|].
    + intros e0. destruct (blend_ok native g W H _ Sg T bufs l _ e0 D) as (e & E & A). exists e. split; [done|by apply Hd].
    + intros i b' [[Hi _] X]. by apply st_runs_ret.
  - eapply st_runs_bind; [unfold rgz_hwc_subregion_copy; rewrite (po_geom _ _ _ _ Pm);
      apply (emit_ok bufs params (po_cmd _ _ _ _ Pm) b o _ (clipped W H (displayFrame (hwc_layer l)), Copies (sample_of native bufs l)) Hh)|].
    + intros e0. destruct (copy_ok native g W H _ Sg T bufs l _ e0 D) as (e & E & A). exists e. split; [done|by apply Hd].
    + intros i b' [[Hi _] X]. by apply st_runs_ret.
Qed.

Lemma clear_ok' b o rect c : target W H c -> clipped W H c = c -> rect = Some c \/ (rect = None /\ c = mk_rect 0 0 W H) -> holds bufs b o ->
  runs (rgz_out_clrdst params rect) b (fun _ b' => 0 < blts_idx b' /\ extends bufs b o [(c, Clears)] b').
Proof using Sg Pm.
  intros T Ec Hr Hh. unfold rgz_out_clrdst. rewrite (po_geom _ _ _ _ Pm).
  destruct (emit_ok bufs params (po_cmd _ _ _ _ Pm) b o (clear_entry g rect) (c, Clears) Hh) as (i & b' & E & [Hi _] & X).
  - intros e0. destruct (clear_ok g W H c Sg T bufs rect e0 Hr) as (e & E & [A1 A2 A3 A4]). exists e. split; [done|].
    split; try done. intros p. rewrite A1, Ec. simpl. split; [by intros [? _]|by split].
  - exists tt, b'. split; [|done]. unfold mbind, st_bind in *. destruct (rgz_blts_get params b) as [[j b1]|]; [|done].
    destruct (update_blt j _ b1) as [[[] b2]|]; [|done]. by injection E as _ <-.
Qed.

(** The loop over the layers: the drawings, and the handles from the [j]th on. *)
Lemma paint_loop_ok : forall ls j b o, (forall l, l ∈ ls -> paintable l) -> holds bufs b o -> 0 < blts_idx b -> 0 <= j ->
  (Z.to_nat j + length (windows ls) <= length (out_hndls b))%nat ->
  runs (paint_loop native params ls j) b (fun rv b' => rv = 0 /\ 0 < blts_idx b' <= blts_idx b + Z.of_nat (length ls) /\
    (holds bufs b' (more o (paint_drawing <$> ls)) \/ holds bufs b' None) /\ length (out_hndls b') = length (out_hndls b) /\
    (forall i, (i < Z.to_nat j)%nat -> out_hndls b' !! i = out_hndls b !! i) /\
    forall i l, windows ls !! i = Some l -> out_hndls b' !! (Z.to_nat j + i)%nat = Some (handle (hwc_layer l))).
Proof using Sg Pm.
  induction ls as [|l ls IH]; intros j b o Hls Hh Hi Hj Hlen; cbn [paint_loop].
  { apply st_runs_ret. split; [done|]. split; [simpl; lia|]. split; [left; simpl; by rewrite more_nil|]. split; [done|]. split; [done|]. intros i x Hx. unfold windows in Hx. by rewrite filter_nil in Hx. }
  rewrite (po_geom _ _ _ _ Pm). destruct (Hls l) as [T D]; [by left|]. unfold windows in *. destruct (Z.eqb_spec (buffidx l) (-1)) as [E|E].
  - rewrite filter_cons_False in * by tauto. rewrite umin_clipped by done. destruct (clipped_target _ T) as [T' E'].
    eapply st_runs_bind; [apply (clear_ok' b o _ (clipped W H (displayFrame (hwc_layer l)))); [done|done|by left|done]|].
    intros [] b1 [Hi1 X]. cbv beta. destruct (holds_of _ _ _ _ _ X) as (o1 & Ho1 & Hh1). pose proof (proj1 (proj2 X)) as Eh. pose proof (proj2 (proj2 X)) as Hle.
    eapply st_runs_mono; [apply (IH j b1 o1); [intros x ?; apply Hls; by right|done|done|done|by rewrite Eh]|].
    intros rv b' (-> & Hi' & Hb' & L' & B' & A'). split; [done|]. split; [simpl in *; lia|]. rewrite Eh in *. split; [|done].
    assert (paint_drawing l = (clipped W H (displayFrame (hwc_layer l)), Clears)) as Ep by (unfold paint_drawing, paint_act; by rewrite E).
    rewrite fmap_cons, Ep. destruct Ho1 as [-> | ->]; [by rewrite more_more in Hb'|right; by destruct Hb'].
  - rewrite filter_cons_True in * by done. simpl in Hlen.
    eapply st_runs_bind; [by apply (layer_blit_ok b o l (conj T D) E)|]. intros rv b1 (-> & Hi1 & X). cbn [truth Z.eqb negb].
    destruct (holds_of _ _ _ _ _ X) as (o1 & Ho1 & Hh1). pose proof (proj1 (proj2 X)) as Eh. pose proof (proj2 (proj2 X)) as Hle.
    set (b2 := set_out_hndls (<[Z.to_nat j := handle (hwc_layer l)]> (out_hndls b1)) (out_nhndls b1 + 1) b1).
    assert (put_handle j (handle (hwc_layer l)) b1 = Ok (tt, b2)) as Ep.
    { unfold put_handle. st_get. change (id b1) with b1. rewrite Eh. rewrite (proj2 (Z.ltb_ge _ _)), (proj2 (Z.leb_gt _ _)) by lia. cbn [orb]. unfold b2. by rewrite Eh. }
    refine (runs_step _ _ _ _ _ _ Ep _).
    assert (holds bufs b2 o1) as Hh2 by (destruct Hh1 as [[? ? ?] ?]; split; [by split|done]).
    eapply st_runs_mono; [apply (IH (j + 1) b2 o1); [intros x ?; apply Hls; by right|done|done|lia|simpl; rewrite length_insert, Eh; lia]|].
    intros rv b' (-> & Hi' & Hb' & L' & B' & A'). simpl in L', B'. rewrite length_insert, Eh in L'. split; [done|]. split; [simpl in *; lia|].
    replace (Z.to_nat (j + 1)) with (S (Z.to_nat j)) in * by lia. split; [|split; [done|split]].
    + rewrite fmap_cons. destruct Ho1 as [-> | ->]; [by rewrite more_more in Hb'|right; by destruct Hb'].
    + intros i Hlt. rewrite B' by lia. rewrite list_lookup_insert_ne by lia. by rewrite Eh.
    + intros [|i] x Hx; simpl in Hx.
      * injection Hx as <-. rewrite Nat.add_0_r, B' by lia. apply list_lookup_insert_eq. rewrite Eh. lia.
      * rewrite <- (A' i x Hx). f_equal. lia.
Qed.
End Paint.

(** ** What a painted screen shows *)

Section Effect.
Context (native : Z -> option IMG_native_handle) (W H : Z) (bufs : Z -> Z).
Context {px : Type} `{EngineLaws px} `{!OpaqueLaw px}.

Lemma clipped_covers c q : 0 <= q.1 < W -> 0 <= q.2 < H -> covers (clipped W H c) q <-> covers c q.
Proof. unfold covers, clipped. simpl. lia. Qed.

Lemma paint_effect l scr q : 0 <= q.1 < W -> 0 <= q.2 < H -> usable native l -> ~ is_ground l -> bufs (buffidx l) = handle (hwc_layer l) \/ buffidx l < 0 ->
  effect scr (paint_drawing native W H bufs l) q =
  if decide (covers (displayFrame (hwc_layer l)) q) then layer_pixel native q (scr q) l else scr q.
Proof.
  intros Hx Hy Hu Hg K. unfold effect, paint_drawing. simpl. rewrite (decide_ext _ _ _ _ (clipped_covers _ q Hx Hy)).
  destruct (decide _); [|done]. unfold paint_act, layer_pixel. destruct (Z.eqb_spec (buffidx l) (-1)) as [->|Hb]; [done|].
  assert (drawable native l (native_for native l)) as D by (destruct Hu as [[[?|?] _]|?]; [by destruct Hg|done|done]).
  pose proof (drawable_index _ _ _ D) as Hi. rewrite (proj2 (Z.ltb_ge _ _)) by lia. destruct K as [K|K]; [|lia].
  assert (sample_of native bufs l q = layer_sample (native_for native l) (hwc_layer l) q) as Es by (unfold sample_of, shown, layer_sample; by rewrite K).
  unfold opaque. rewrite (dr_native _ _ _ D). destruct (Z.eqb_spec (blending (hwc_layer l)) HWC_BLENDING_PREMULT); simpl; rewrite Es; [|done].
  destruct (is_OPAQUE (iFormat (native_for native l))) eqn:Eo; [|done]. apply over_opaque. simpl. by apply opaque_hal.
Qed.

Lemma paint_effects q : 0 <= q.1 < W -> 0 <= q.2 < H -> forall ls scr,
  (forall l, l ∈ ls -> usable native l /\ ~ is_ground l) -> known bufs ls ->
  foldl effect scr (paint_drawing native W H bufs <$> ls) q = composite native q (filter (fun l => covers (displayFrame (hwc_layer l)) q) ls) (scr q).
Proof.
  intros Hx Hy. induction ls as [|l ls IH]; intros scr Hu K; [done|]. rewrite fmap_cons. cbn [foldl].
  destruct (Hu l) as [Ul Gl]; [by left|]. rewrite IH; [|intros x ?; apply Hu; by right|intros x ?; apply K; by right].
  rewrite paint_effect; [|done..|destruct (decide (0 <= buffidx l)); [left; apply K; [by left|done]|right; lia]].
  destruct (decide (covers (displayFrame (hwc_layer l)) q)).
  - by rewrite filter_cons_True.
  - by rewrite filter_cons_False.
Qed.
End Effect.

(** ** The command *)

Section Command.
Context (native : Z -> option IMG_native_handle) (g : bvsurfgeom) (W H : Z) (Sg : screen_ok g W H).
Context (params : rgz_out_params) (Pm : params_ok g W H params) (Hop : out_op params = RGZ_OUT_BVCMD_PAINT).
Context (r : rgz) (ws : list rgz_layer) (Ews : frame_layers (cur_fb_state r) = ws) (Hp : forall l, l ∈ ws -> paintable native W H l).
Context (Hfew : (length ws <= 11)%nat).

Definition paint_drawings (bufs : Z -> Z) : list drawing := (mk_rect 0 0 W H, Clears) :: (paint_drawing native W H bufs <$> ws).

Lemma out_paint_ok bufs b : (length (windows ws) <= length (out_hndls b))%nat ->
  runs (rgz_out native r params) b (fun rv b' =>
    rv = 0 /\ cmdp b' = Some (bvcmds b') /\ cmdlen b' = blts_idx b' /\ Forall2 (does bufs) (emitted b') (paint_drawings bufs) /\
    forall i l, windows ws !! i = Some l -> out_hndls b' !! i = Some (handle (hwc_layer l))).
Proof using All.
  intros Hlen. unfold rgz_out. rewrite Hop. simpl. unfold rgz_out_bvcmd_paint, rgz_blts_init. st_mod. st_mod.
  match goal with |- runs _ ?b0 _ => assert (holds bufs b0 (Some [])) as H0; [|assert (length (out_hndls b0) = length (out_hndls b) /\ blts_idx b0 = 0) as [Eh Ei] by done; generalize dependent b0] end.
  { split; [split; [reflexivity|simpl; lia|done]|simpl; constructor]. }
  intros b0 H0 Eh Ei. destruct (so_size _ _ _ Sg) as [HW HH].
  assert (target W H (mk_rect 0 0 W H)) as Tfull by (unfold BOUND in *; split; [split; unfold near, BOUND; simpl; lia|split; simpl; lia]).
  assert (clipped W H (mk_rect 0 0 W H) = mk_rect 0 0 W H) as Ecl by (unfold clipped; simpl; by rewrite !Z.min_id).
  eapply st_runs_bind; [apply (clear_ok' g W H Sg bufs params Pm b0 (Some []) None (mk_rect 0 0 W H)); [done|done|by right|done]|].
  intros [] b1 [Hi1 X]. cbv beta. destruct (holds_of _ _ _ _ _ X) as (o1 & Ho1 & Hh1). destruct X as (_ & Eh1 & Ei1). simpl in Ei1.
  rewrite Ews. eapply st_runs_bind; [apply (paint_loop_ok native g W H Sg bufs params Pm ws 0 b1 o1 Hp Hh1 Hi1); [lia|rewrite Eh1; simpl; lia]|].
  intros rv b2 (-> & Hi2 & Hb2 & _ & _ & A2). cbn [truth Z.eqb negb]. st_get.
  assert (holds bufs b2 (Some (paint_drawings bufs)) \/ holds bufs b2 None) as Hb2'.
  { destruct Ho1 as [-> | ->]; [destruct Hb2; [left|by right]; done|right; by destruct Hb2]. }
  destruct (sync_ok bufs b2 _ Hb2' (proj1 Hi2)) as (b3 & E3 & Hb3 & Eh3 & En3 & Ei3). refine (runs_step _ _ _ _ _ _ E3 _).
  unfold finish_blits. st_get. st_mod. apply st_runs_ret. change RGZ_MAX_BLITS with 625. change (out_blits (id b3)) with (out_blits b3).
  destruct Hb3 as [[[L I C] D]|[[L I C] D]]; [|lia]. rewrite (proj2 (Z.leb_gt _ _)) by lia. simpl. split_and!; try done.
  intros i l Hl. rewrite Eh3. by apply (A2 i l).
Qed.
End Command.
