(* ===== verification/RgzTheorems.v ===== *)
(** * The regionizer: theorems

    What the regionizer guarantees for the frames described by [frame_given]: the
    buffer shows the windows ([frames_shown]) as painting them would
    ([paint_equals_regions]), no such frame harms ([frame_never_faults]), the cells
    tile the screen ([frame_tiled]), the blits read the right places
    ([window_blits]), the coordinates are sorted ([coordinates_cut]); and what goes
    wrong when the order of windows changes ([order_change_missed]).  The examples
    at the end are the findings. *)

From stdpp Require Import base list numbers option.
From Stdlib Require Import ZArith Lia QArith Qcanon.
From S2P Require Import Prelude Stateful Rgz RgzLists RgzRegions RgzEngine RgzEntries RgzCells RgzOutput RgzInput RgzFrames RgzSession RgzPaint.
From stdpp Require Import list.

Local Open Scope Z_scope.

(** ** An engine

    Pixels as the samples that were blended: the laws can hold. *)

Definition layers_of_samples : Type := list sample.

Definition src1_clear (e : rgz_blt_entry) : bool := d_auxptr (src1desc e) =? u32 (-1).
Definition src2_screen (e : rgz_blt_entry) : bool := d_auxptr (src2desc e) =? HWC_BLT_DESC_FB_FN 0.

Definition toy_over (a b : layers_of_samples) : layers_of_samples :=
  match a with
  | [s] => if opaque_format (g_format (s_surface s)) then a else a ++ b
  | _ => a ++ b
  end.

#[export] Instance toy_engine : Engine layers_of_samples := {
  cleared := [];
  fetch s := [s];
  over := toy_over;
  blit bufs e scr p :=
    if decide (area e p) then
      match e_op e with
      | Rop _ => if src1_clear e then [] else [source bufs false e p]
      | Blend_SRC1OVER => toy_over [source bufs false e p] (if src2_screen e then scr p else [source bufs true e p])
      end
    else scr p }.

#[export] Instance toy_laws : EngineLaws layers_of_samples.
Proof.
  split.
  - intros [|s [|s' a]]; simpl; [done| |by rewrite app_nil_r]. by destruct (opaque_format _).
  - intros bufs e scr p Ha. simpl. by rewrite decide_False.
  - intros bufs e scr p Ha Eo Hb. simpl. rewrite decide_True, Eo by done. unfold src1_clear, src1_is_buffer in *.
    rewrite (proj2 (Z.eqb_neq _ _)); [done|]. change (u32 (-1)) with 4294967295. lia.
  - intros bufs e scr p Ha Eo Hb. simpl. rewrite decide_True, Eo by done. unfold src1_clear. by rewrite Hb.
  - intros bufs e scr p Ha Eo Hb (Hs & _). simpl. rewrite decide_True, Eo by done. unfold src2_screen. by rewrite Hs.
  - intros bufs e scr p Ha Eo Hb Hs. simpl. rewrite decide_True, Eo by done. unfold src2_screen, src2_is_buffer in *.
    rewrite (proj2 (Z.eqb_neq _ _)); [done|]. change (HWC_BLT_DESC_FB_FN 0) with 3221225472. lia.
Qed.

#[export] Instance toy_opaque : OpaqueLaw layers_of_samples.
Proof. intros s d Hs. simpl. by rewrite Hs. Qed.

(** ** Screens, windows and frames for the examples *)

Module Demo.
Definition W : Z := 100.
Definition H : Z := 80.
Definition geom : bvsurfgeom := mk_geom OCDFMT_BGRA24 100 80 0 400.

Definition native (h : Z) : option IMG_native_handle :=
  if h =? 16 then Some (mk_native 100 80 HAL_PIXEL_FORMAT_RGBX_8888)
  else if h =? 17 then Some (mk_native 40 20 HAL_PIXEL_FORMAT_RGBA_8888)
  else if h =? 18 then Some (mk_native 40 20 HAL_PIXEL_FORMAT_RGBA_8888)
  else if h =? 19 then Some (mk_native 40 20 HAL_PIXEL_FORMAT_TI_NV12)
  else None.

Definition window (h transform blending : Z) (crop frame : blit_rect) : hwc_layer_1 :=
  mk_layer HWC_FRAMEBUFFER 0 0 h transform blending crop frame.

(** An opaque wallpaper, and a translucent window that is turned. *)
Definition wallpaper : hwc_layer_1 := window 16 0 HWC_BLENDING_NONE (mk_rect 0 0 100 80) (mk_rect 0 0 100 80).
Definition dialog (h x y : Z) : hwc_layer_1 :=
  window h HWC_TRANSFORM_ROT_90 HWC_BLENDING_PREMULT (mk_rect 0 0 40 20) (mk_rect x y (x + 20) (y + 40)).

Definition frame (op : Z) (ls : list (hwc_layer_1 * Z)) : rgz_in_params :=
  mk_in op (Some (fst <$> ls)) (snd <$> ls) (Z.of_nat (length ls)) geom.
Definition params (op : Z) : rgz_out_params := mk_out_params op geom 0.
Definition blts : rgz_blts := mk_blts [] 0 (replicate 11 0) 0 0 None 0.

(** The state and the list of blits after a frame. *)
Definition after_in (r : rgz) (p : rgz_in_params) : rgz :=
  match rgz_in native true (bg W H) p r with Ok (_, r) => r | Fault _ => zero_rgz end.
Definition after_out (r : rgz) (op : Z) : rgz_blts :=
  match rgz_out native r (params op) blts with Ok (_, b) => b | Fault _ => blts end.

Definition in_result (r : rgz) (p : rgz_in_params) : outcome Z :=
  match rgz_in native true (bg W H) p r with Ok (rv, _) => Ok rv | Fault f => Fault f end.
Definition out_result (r : rgz) (op : Z) : outcome Z :=
  match rgz_out native r (params op) blts with Ok (rv, _) => Ok rv | Fault f => Fault f end.

Definition steady : list (hwc_layer_1 * Z) := [(wallpaper, 1); (dialog 17 10 10, 2); (dialog 18 20 20, 3)].
Definition swapped : list (hwc_layer_1 * Z) := [(wallpaper, 1); (dialog 18 20 20, 3); (dialog 17 10 10, 2)].
Definition after (fs : list (list (hwc_layer_1 * Z))) : rgz := foldl (fun r f => after_in r (frame RGZ_IN_HWC f)) zero_rgz fs.
End Demo.

(** The cell [s] of a row: its layers are those with a rectangle that is not empty. *)
Definition cell_layer (cur : rgz_fb_state) (h : blit_hregion) (s l : nat) : option rgz_layer :=
  match rect_at h l s, region_layer cur h l with
  | Ok r, Ok x => if empty_rect r then None else Some x
  | _, _ => None
  end.
Definition cell_layers (cur : rgz_fb_state) (h : blit_hregion) (s : nat) : list rgz_layer :=
  omap (cell_layer cur h s) (seq 0 (Z.to_nat (nlayers h))).

Lemma cell_layers_here native cur W H h s row c present : cell_ready native cur h s row c present W H ->
  cell_layers cur h s = row <$> here h present.
Proof.
  intros R. pose proof (cell_nonempty native cur h s row c present W H R) as Hc. unfold cell_layers, here.
  assert (forall l, l ∈ seq 0 (Z.to_nat (nlayers h)) -> (l < Z.to_nat (nlayers h))%nat) as Hl by (intros l [_ ?]%elem_of_seq; lia).
  revert Hl. induction (seq _ _) as [|l ls IH]; intros Hl; [done|].
  assert (l < Z.to_nat (nlayers h))%nat as Hlt by (apply Hl; by left).
  assert (cell_layer cur h s l = if present l then Some (row l) else None) as E.
  { unfold cell_layer. rewrite (cr_rect _ _ _ _ _ _ _ _ _ R l Hlt), (cr_row _ _ _ _ _ _ _ _ _ R l Hlt). destruct (present l); [by rewrite Hc|done]. }
  csimpl. rewrite E, IH by (intros l' ?; apply Hl; by right). destruct (present l) eqn:Ep.
  - rewrite filter_cons_True by (by rewrite Ep). done.
  - rewrite filter_cons_False by (by rewrite Ep). done.
Qed.

(** The layers handed in that cover [q]. *)
Definition covering (xs : list rgz_layer) (q : Z * Z) : list rgz_layer := filter (fun l => covers (displayFrame (hwc_layer l)) q) xs.

(** A frame without regions, to be painted. *)
Definition as_check (p : rgz_in_params) : rgz_in_params := mk_in RGZ_IN_HWCCHK (layers p) (extlayers p) (layerno p) (in_dstgeom p).
Definition as_paint (params : rgz_out_params) : rgz_out_params := mk_out_params RGZ_OUT_BVCMD_PAINT (out_dstgeom params) (noblend params).

(** The conditions on a frame, [frame_given]: it is for the screen of the session,
    with at most 1000 layers, each with its identity; those picked have different
    identities; each window that is not skipped and has a handle has a buffer; each
    window and each area to be cleared ([layer_fits]) is at least partly on the
    screen, with coordinates, crops and buffer sides of at most 2^20; an NV12
    window that is not scaled is flipped in both directions or in none; and an
    area to be cleared is not of premultiplied blending. *)

Section Claims.
Context (native : Z -> option IMG_native_handle) (g : bvsurfgeom) (W H : Z) (Sg : screen_ok g W H).

(** C2: After a frame is regionized (the answer is [RGZ_ALL]) and its blits come
    out (the answer is 0) and are done, the buffer that they were meant for shows
    at every point of the screen what the windows of the frame show there, one over
    the other from the cleared screen: whatever is left of earlier frames in that
    buffer, which is drawn again only where it has to be.  This holds at every
    frame of a [session], any number of frames with two buffers in turn and
    releases in between, under these conditions.  Each frame is [frame_given], see
    above.  Each keeps [contract]: the windows that both buffers show do not change
    their order, their kind or their blending, and a window that was away for a
    frame comes back where the buffer still shows it.  ([order_change_missed] and
    [came_back_elsewhere] show that this is needed.)  The engine copies, clears and
    blends as [EngineLaws] says. *)
Theorem frames_shown {px : Type} `{EngineLaws px} (r : rgz) (fbs : Z -> Z * Z -> px) (calloc_ok : bool)
    (p : rgz_in_params) (ls : list hwc_layer_1) (params : rgz_out_params) (b : rgz_blts) (r' : rgz) (b' : rgz_blts) :
  session native g W H r fbs -> in_op p = RGZ_IN_HWC -> frame_given native g W H p ls ->
  contract (picks p ls) (last_frame r) (target_frame r) -> out_given g W H params b ->
  rgz_in native calloc_ok (bg W H) p r = Ok (RGZ_ALL, r') -> rgz_out native r' params b = Ok (0, b') ->
  forall q, 0 <= q.1 < W -> 0 <= q.2 < H ->
  blits (resolve (overlays p ls) b') (commands b') (fbs (fb_state_idx r')) q = composite native q (covering (picks p ls) q) cleared.
Proof using Sg.
  intros Se Hop G C O Ein Eout q Hx Hy. pose proof (session_is_ok native g W H Sg r fbs Se) as So.
  pose proof (in_taken native g W H Sg r fbs So p ls G Hop calloc_ok r' Ein) as T.
  rewrite (blits_shown native g W H Sg r fbs So p ls G Hop calloc_ok r' T params b O b' Eout C q Hx Hy).
  by apply (new_composite native g W H p ls G r r' (tk_next _ _ _ _ _ _ _ _ T) (proj1 (tk_accepted _ _ _ _ _ _ _ _ T))).
Qed.

(** C18: In a session (each frame before [frame_given] and keeping [contract],
    taken, with its blits come out), no [frame_given] frame makes the regionizer
    fault, whatever the order and the blending of its windows.  It takes the frame
    exactly when there are from one to ten layers to blit, all of them valid, and
    the memory for the regions; the blits of a frame that is taken come out with 0,
    or with -1 when the list of 625 blits is full.  Frames that are not
    [frame_given] do worse: [off_screen_refused], [blended_hint_faults]. *)
Theorem frame_never_faults {px : Type} `{EngineLaws px} (r : rgz) (fbs : Z -> Z * Z -> px) (calloc_ok : bool)
    (p : rgz_in_params) (ls : list hwc_layer_1) (params : rgz_out_params) (b : rgz_blts) :
  session native g W H r fbs -> in_op p = RGZ_IN_HWC -> frame_given native g W H p ls -> out_given g W H params b ->
  runs (rgz_in native calloc_ok (bg W H) p) r (fun rv r' => (rv = RGZ_ALL <-> accepted native p ls calloc_ok) /\
    (rv = RGZ_ALL -> runs (rgz_out native r' params) b (fun rv' b' => rv' = 0 \/ (rv' = -1 /\ out_blits b' = RGZ_MAX_BLITS)))).
Proof using Sg.
  intros Se Hop G O. pose proof (session_is_ok native g W H Sg r fbs Se) as So.
  destruct (in_ok native g W H Sg r fbs So p ls G Hop calloc_ok) as (rv & r' & E & Hrv). exists rv, r'. split; [done|].
  destruct Hrv as [(-> & A & N & M & F & Rm)|[Hne Ha]]; [|by split].
  split; [done|]. intros _. assert (taken native W H r p ls calloc_ok r') as T by by split.
  destruct (out_ok native g W H Sg r p ls G calloc_ok r' T params b O (fun _ => 0)) as (hs & ys & k & _ & Ho).
  eapply st_runs_mono; [apply Ho|]. intros rv b' [[-> _]|[-> [Hf _]]]; [by left|by right].
Qed.

(** C17: The regions of a [frame_given] frame that is taken in a session tile the
    screen: every point lies in exactly one cell, and the layers that the cell
    lists are, in their order, the background and the layers handed in whose frames
    cover that point. *)
Theorem frame_tiled {px : Type} `{EngineLaws px} (r : rgz) (fbs : Z -> Z * Z -> px) (calloc_ok : bool)
    (p : rgz_in_params) (ls : list hwc_layer_1) (r' : rgz) :
  session native g W H r fbs -> in_op p = RGZ_IN_HWC -> frame_given native g W H p ls ->
  rgz_in native calloc_ok (bg W H) p r = Ok (RGZ_ALL, r') ->
  exists hs, hregions r' = Some hs /\ nhregions r' = Z.of_nat (length hs) /\
  forall q, 0 <= q.1 < W -> 0 <= q.2 < H -> exists i s h, cell_at hs i s h /\ covers (subregion h s) q /\
    (forall i' s' h', cell_at hs i' s' h' -> covers (subregion h' s') q -> i' = i /\ s' = s) /\
    exists b, is_ground b /\ Forall2 recount (b :: covering (picks p ls) q) (cell_layers (cur_fb_state r') h s).
Proof using Sg.
  intros Se Hop G Ein. pose proof (session_is_ok native g W H Sg r fbs Se) as So.
  pose proof (in_taken native g W H Sg r fbs So p ls G Hop calloc_ok r' Ein) as T.
  destruct (tk_regions _ _ _ _ _ _ _ _ T) as (hs & ys & k & [_ Eh Ec Ti]). pose proof (tk_frame _ _ _ _ _ _ _ _ T) as F.
  exists hs. split; [done|]. split; [done|]. intros q Hx Hy.
  destruct (cell_exists _ W H hs ys k F Ti q Hx Hy) as (i & s & h & A & Hq). exists i, s, h. split; [done|]. split; [done|]. split.
  - intros i' s' h' A' Hq'. by destruct (cell_unique _ W H hs ys k F Ti q i s h i' s' h' A A' Hq Hq') as (-> & -> & _).
  - pose proof (new_layers W H p ls r r' (tk_next _ _ _ _ _ _ _ _ T)) as (b0 & E & Gb & Eb & Fp). exists b0. split; [done|].
    rewrite (cell_layers_here native _ W H h s _ _ _ (cell_is_ready native _ W H hs ys k F Ti (screen_bound g W H Sg)
      (new_usable native g W H r p ls G calloc_ok r' T) (new_ground native W H r p ls calloc_ok r' T) i s h A)).
    rewrite (cell_stack _ W H hs ys k F Ti i s h q A Hq). unfold stack. rewrite E.
    rewrite filter_cons_True by (rewrite Eb; split; simpl; lia). constructor; [by exists (dirty_count b0); destruct b0|].
    by apply recount_covering.
Qed.

(** The layers that are painted. *)
Lemma behind_paintable p ls r r' : frame_given native g W H p ls -> next_frame (bg W H) p ls W H r r' -> blittable native p ls ->
  forall l, l ∈ behind (cur_fb_state r') -> paintable native W H l /\ usable native l /\ ~ is_ground l.
Proof using Type.
  intros G N B l Hl. destruct (new_layers W H p ls r r' N) as (b0 & _ & _ & _ & F).
  destruct (sh_layers _ _ _ _ (new_shape native g W H p ls G r r' N B) l Hl) as [U Hg]. split; [|done].
  destruct (recount_in _ _ l F Hl) as (x & Hx & R). destruct (recount_same x l R) as (Eh & _ & Eb).
  destruct (picks_in native g W H p ls G x Hx) as (y & _ & Fy & _ & Ef & _). split.
  - rewrite Eh, Ef. by split; apply Fy.
  - intros Hb. by destruct U as [[[?|?] _]|?].
Qed.

(** C16: Painting every window of the frame whole, after a check alone and from any
    state and over any screen, leaves the same screen as the blits of the regions
    leave it, under the conditions of [frames_shown]: the frame is [frame_given],
    at the end of a session, and keeps [contract] (the order, kind and blending of
    windows that the buffers show do not change, a window that comes back is where
    it was); it is taken, and its blits come out with 0.  Besides [EngineLaws] the
    engine keeps [OpaqueLaw]: a pixel of a format without alpha hides what it is
    blended over. *)
Theorem paint_equals_regions {px : Type} `{EngineLaws px} `{!OpaqueLaw px} (r : rgz) (fbs : Z -> Z * Z -> px) (calloc_ok : bool)
    (p : rgz_in_params) (ls : list hwc_layer_1) (params : rgz_out_params) (b : rgz_blts) (r' : rgz) (b' : rgz_blts)
    (r0 : rgz) (b0 : rgz_blts) (scr : Z * Z -> px) :
  session native g W H r fbs -> in_op p = RGZ_IN_HWC -> frame_given native g W H p ls ->
  contract (picks p ls) (last_frame r) (target_frame r) -> out_given g W H params b ->
  rgz_in native calloc_ok (bg W H) p r = Ok (RGZ_ALL, r') -> rgz_out native r' params b = Ok (0, b') ->
  (11 <= length (out_hndls b0))%nat ->
  exists rp bp, rgz_in native calloc_ok (bg W H) (as_check p) r0 = Ok (RGZ_ALL, rp) /\
    rgz_out native rp (as_paint params) b0 = Ok (0, bp) /\
    forall q, 0 <= q.1 < W -> 0 <= q.2 < H ->
    blits (resolve (overlays p ls) bp) (commands bp) scr q =
    blits (resolve (overlays p ls) b') (commands b') (fbs (fb_state_idx r')) q.
Proof using Sg.
  intros Se Hop G C O Ein Eout Hroom. pose proof (session_is_ok native g W H Sg r fbs Se) as So.
  pose proof (in_taken native g W H Sg r fbs So p ls G Hop calloc_ok r' Ein) as T.
  pose proof (tk_accepted _ _ _ _ _ _ _ _ T) as [B _].
  assert (frame_given native g W H (as_check p) ls) as Gc by (destruct G as [? [] ? ? ?]; split; [done|by split|done..]).
  destruct (hwccheck_ok native (bg W H) (as_check p) ls g W H (fg_geom _ _ _ _ _ _ Gc) Sg (fg_layers _ _ _ _ _ _ Gc) zero_rgz zero_machine)
    as (rv & rp & Ec & _ & Hrv). destruct Hrv as [(_ & _ & Hn)|(-> & N & _ & _)]; [by destruct Hn|].
  exists rp. change (blittable native p ls) with (blittable native (as_check p) ls) in B.
  pose proof (behind_paintable (as_check p) ls zero_rgz rp Gc N B) as Hb. destruct (new_layers W H _ ls zero_rgz rp N) as (g0 & _ & _ & _ & Fp).
  assert (length (behind (cur_fb_state rp)) <= 11)%nat as Hlen by (rewrite <- (Forall2_length _ _ _ Fp); apply B).
  assert (params_ok g W H (as_paint params)) as Pm by (destruct (og_params _ _ _ _ _ O); by split).
  pose proof (out_paint_ok native g W H Sg (as_paint params) Pm eq_refl rp (behind (cur_fb_state rp)) eq_refl (fun l Hl => proj1 (Hb l Hl)) Hlen) as Hout.
  destruct (Hout (fun _ => 0) b0) as (rv & bp & Ep & -> & E1 & E2 & _ & Hh); [etrans; [apply length_filter|lia]|].
  exists bp. split; [exact Ec|]. split; [done|]. intros q Hx Hy.
  destruct (Hout (resolve (overlays p ls) bp) b0) as (rv & bp' & Ep' & _ & _ & _ & Hd & _); [etrans; [apply length_filter|lia]|].
  rewrite Ep in Ep'. injection Ep' as <- <-.
  assert (commands bp = emitted bp) as -> by (unfold commands, emitted; by rewrite E1, E2).
  rewrite (blits_do _ _ _ Hd). unfold paint_drawings. cbn [foldl].
  pose proof (handles_known W H (as_check p) ls zero_rgz rp N (out_hndls bp) Hh) as K.
  rewrite (paint_effects native W H _ q Hx Hy) by first [exact K|intros l Hl; apply (Hb l Hl)].
  assert (effect scr (mk_rect 0 0 W H, Clears) q = cleared) as ->.
  { unfold effect. simpl. rewrite decide_True; [done|]. split; simpl; lia. }
  rewrite (behind_composite native g W H (as_check p) ls Gc zero_rgz rp N B q).
  rewrite (blits_shown native g W H Sg r fbs So p ls G Hop calloc_ok r' T params b O b' Eout C q Hx Hy).
  symmetry. by apply (new_composite native g W H p ls G r r' (tk_next _ _ _ _ _ _ _ _ T) B).
Qed.

(** C35: A change of the order of the windows is not seen.  When a frame of a
    session has the windows of the two frames before ([rearranged]: the same
    identities with the same contents and places, each drawn into one buffer at
    least since it last changed) in any order, its blits come out, there is none,
    and the buffer goes on showing the windows in the order of the frame that it
    was last drawn for.  In the witness two overlapping windows change places, and
    the wrong one stays in front. *)
Theorem order_change_missed {px : Type} `{EngineLaws px} (r : rgz) (fbs : Z -> Z * Z -> px) (calloc_ok : bool)
    (p : rgz_in_params) (ls : list hwc_layer_1) (params : rgz_out_params) (b : rgz_blts) (r' : rgz) :
  session native g W H r fbs -> in_op p = RGZ_IN_HWC -> frame_given native g W H p ls ->
  rearranged (picks p ls) (last_frame r) (target_frame r) -> out_given g W H params b ->
  rgz_in native calloc_ok (bg W H) p r = Ok (RGZ_ALL, r') ->
  exists b', rgz_out native r' params b = Ok (0, b') /\ commands b' = [] /\
  forall q, 0 <= q.1 < W -> 0 <= q.2 < H ->
  fbs (fb_state_idx r') q = composite native q (covering (behind (target_frame r)) q) cleared.
Proof using Sg.
  intros Se Hop G R O Ein. pose proof (session_is_ok native g W H Sg r fbs Se) as So.
  pose proof (in_taken native g W H Sg r fbs So p ls G Hop calloc_ok r' Ein) as T.
  destruct (rearranged_blits native g W H Sg r fbs So p ls G calloc_ok r' T params b O R) as (rv & b' & Eb & -> & Ec).
  destruct (rearranged_clean native g W H r fbs So p ls G calloc_ok r' T R) as (_ & _ & Hne).
  exists b'. split; [done|]. split; [done|]. intros q Hx Hy. rewrite (nf_idx _ _ _ _ _ _ _ (tk_next _ _ _ _ _ _ _ _ T)).
  rewrite (se_shows_target _ _ _ _ _ So Hne q Hx Hy). by apply (shape_composite native W H _ (se_target _ _ _ _ _ So)).
Qed.

End Claims.

(** C34: The coordinates that the regions are cut at come sorted, each once, and none
    is lost: bubble sort and the compaction after it return on every array that is
    not empty, and the count returned is that of its different numbers. *)
Theorem coordinates_cut (a0 : list Z) : a0 <> [] -> exists a1 a k,
  rgz_bsort a0 (length a0) = Ok a1 /\ rgz_bunique a1 (length a1) = Ok (a, k) /\
  (1 <= k <= length a)%nat /\ length a = length a0 /\ (forall x, x ∈ take k a <-> x ∈ a0) /\
  forall i j x y, (i < j < k)%nat -> a !! i = Some x -> a !! j = Some y -> x < y.
Proof.
  intros Hne. destruct (sort_and_cut a0 Hne) as (a1 & a & k & E1 & E2 & Hk). exists a1, a, k.
  destruct Hk as (Hk & L & Et & Sk). split_and!; try done; try lia. intros i j x y Hij. by apply Sk; lia.
Qed.

(** ** The frames of the examples *)

Module Shown.
Import Demo.

Ltac each := let Hin := fresh in intros ? Hin; repeat (apply elem_of_cons in Hin as [-> | Hin]); [..|by apply elem_of_nil in Hin].

Lemma contract_by xs last target :
  Forall (fun x => Forall (fun y => identity x = identity y -> same_kind x y) (behind last)) xs ->
  Forall (fun x => Forall (fun y => identity x = identity y -> same_kind x y) (behind target)) xs ->
  filter (fun id => id ∈ ids (behind target)) (ids xs) = filter (fun id => id ∈ ids xs) (ids (behind target)) ->
  Forall (fun x => Forall (fun t => identity x = identity t -> (forall y, y ∈ behind last -> identity y <> identity x) ->
    displayFrame (hwc_layer x) = displayFrame (hwc_layer t)) (behind target)) xs ->
  contract xs last target.
Proof.
  rewrite !Forall_forall. intros H1 H2 H3 H4. split.
  - intros x y Hx. specialize (H1 x Hx). rewrite Forall_forall in H1. apply H1.
  - intros x y Hx. specialize (H2 x Hx). rewrite Forall_forall in H2. apply H2.
  - done.
  - intros x t Hx Ht. specialize (H4 x Hx). rewrite Forall_forall in H4. by apply H4.
Qed.

Ltac kept_layers :=
  lazymatch goal with
  | |- Forall _ [] => apply Forall_nil_2
  | |- Forall _ (_ :: _) => apply Forall_cons; split; kept_layers
  | |- _ => let E := fresh in intros E; first [discriminate E | split; reflexivity | by intros | by intros _; vm_compute]
  end.

Lemma screen : screen_ok geom W H.
Proof. split; [done|done|]. unfold BOUND, W, H. lia. Qed.

Lemma out_fits b : (11 <= length (out_hndls b))%nat -> out_given geom W H (params RGZ_OUT_BVCMD_REGION) b.
Proof. intros Hl. split; [|done|done]. split; [done|apply screen|done|done]. Qed.

Definition moved : list (hwc_layer_1 * Z) := [(wallpaper, 1); (dialog 17 30 10, 2); (dialog 18 20 20, 3)].
Definition state1 : rgz := after [steady].
Definition state2 : rgz := after [steady; moved].

Lemma wallpaper_fits : layer_fits native W H wallpaper.
Proof.
  split; [split; split; unfold near, BOUND, W, H; simpl; lia| |done]. intros _. split; [split; unfold near, BOUND; simpl; lia|].
  intros h [= <-]. split; [unfold BOUND; simpl; lia|done].
Qed.

Lemma dialog_fits h x y : h = 17 \/ h = 18 -> 0 <= x < 80 -> 0 <= y < 40 -> layer_fits native W H (dialog h x y).
Proof.
  intros Hh Hx Hy. split; [split; split; unfold near, BOUND, W, H; simpl; lia| |done]. intros _. split; [split; unfold near, BOUND; simpl; lia|].
  intros n Hn. assert (n = mk_native 40 20 HAL_PIXEL_FORMAT_RGBA_8888) as -> by (destruct Hh as [-> | ->]; by injection Hn).
  split; [unfold BOUND; simpl; lia|done].
Qed.

Lemma frame_fits fs : fs = steady \/ fs = moved \/ fs = swapped -> frame_given native geom W H (frame RGZ_IN_HWC fs) (fst <$> fs).
Proof.
  intros Hfs. split; [done| | | |].
  - split; [done|by rewrite length_fmap|by destruct Hfs as [-> |[-> | ->]]|].
    destruct Hfs as [-> |[-> | ->]]; each; intros _ _ _; by eexists.
  - destruct Hfs as [-> |[-> | ->]]; simpl; lia.
  - destruct Hfs as [-> |[-> | ->]]; each; intros _; first [apply wallpaper_fits|apply dialog_fits; [by auto|lia|lia]].
  - destruct Hfs as [-> |[-> | ->]]; by apply (bool_decide_unpack _).
Qed.

(** The buffers before, and what the first frame leaves in them. *)
Definition blank : Z -> Z * Z -> layers_of_samples := fun _ _ => [].
Definition out1 : rgz_blts := after_out state1 RGZ_OUT_BVCMD_REGION.
Definition out2 : rgz_blts := after_out state2 RGZ_OUT_BVCMD_REGION.
Definition buffers1 : Z -> Z * Z -> layers_of_samples :=
  fun i => if i =? fb_state_idx state1 then blits (resolve 0 out1) (commands out1) (blank i) else blank i.

Lemma first_frame : rgz_in native true (bg W H) (frame RGZ_IN_HWC steady) zero_rgz = Ok (RGZ_ALL, state1).
Proof. by vm_compute. Qed.
Lemma first_out : rgz_out native state1 (params RGZ_OUT_BVCMD_REGION) blts = Ok (0, out1).
Proof. by vm_compute. Qed.
Lemma second_frame : rgz_in native true (bg W H) (frame RGZ_IN_HWC moved) state1 = Ok (RGZ_ALL, state2).
Proof. by vm_compute. Qed.
Lemma second_out : rgz_out native state2 (params RGZ_OUT_BVCMD_REGION) blts = Ok (0, out2).
Proof. by vm_compute. Qed.

Lemma first_contract : contract (picks (frame RGZ_IN_HWC steady) (fst <$> steady)) (last_frame zero_rgz) (target_frame zero_rgz).
Proof. apply contract_by; vm_compute; [kept_layers..|done|kept_layers]. Qed.

Lemma second_contract : contract (picks (frame RGZ_IN_HWC moved) (fst <$> moved)) (last_frame state1) (target_frame state1).
Proof. apply contract_by; vm_compute; [kept_layers..|done|kept_layers]. Qed.

Lemma given_out : out_given geom W H (params RGZ_OUT_BVCMD_REGION) blts.
Proof. apply out_fits. vm_compute. lia. Qed.

Lemma session1 : session native geom W H state1 buffers1.
Proof.
  refine (session_drawn native geom W H zero_rgz blank true (frame RGZ_IN_HWC steady) (fst <$> steady) (params RGZ_OUT_BVCMD_REGION) blts state1 out1
    (session_released _ _ _ _ _) eq_refl _ first_contract given_out first_frame first_out).
  apply frame_fits. by left.
Qed.
End Shown.

(** The windows of the second frame are in the buffer that was blank before. *)
Lemma frames_shown_witness :
  blits (resolve 0 Shown.out2) (commands Shown.out2) (Shown.buffers1 (fb_state_idx Shown.state2)) (35, 25) =
  composite Demo.native (35, 25) (covering (picks (Demo.frame RGZ_IN_HWC Shown.moved) (fst <$> Shown.moved)) (35, 25)) cleared.
Proof.
  apply (frames_shown Demo.native Demo.geom Demo.W Demo.H Shown.screen Shown.state1 Shown.buffers1 true
    (Demo.frame RGZ_IN_HWC Shown.moved) (fst <$> Shown.moved) (Demo.params RGZ_OUT_BVCMD_REGION) Demo.blts Shown.state2 Shown.out2
    Shown.session1 eq_refl (Shown.frame_fits _ (or_intror (or_introl eq_refl))) Shown.second_contract Shown.given_out
    Shown.second_frame Shown.second_out (35, 25)); vm_compute; split; congruence.
Defined.

Lemma frame_never_faults_witness :
  runs (rgz_in Demo.native false (bg Demo.W Demo.H) (Demo.frame RGZ_IN_HWC Shown.moved)) Shown.state1
    (fun rv r' => (rv = RGZ_ALL <-> accepted Demo.native (Demo.frame RGZ_IN_HWC Shown.moved) (fst <$> Shown.moved) false) /\
    (rv = RGZ_ALL -> runs (rgz_out Demo.native r' (Demo.params RGZ_OUT_BVCMD_REGION)) Demo.blts
      (fun rv' b' => rv' = 0 \/ (rv' = -1 /\ out_blits b' = RGZ_MAX_BLITS)))).
Proof.
  exact (frame_never_faults Demo.native Demo.geom Demo.W Demo.H Shown.screen Shown.state1 Shown.buffers1 false
    (Demo.frame RGZ_IN_HWC Shown.moved) (fst <$> Shown.moved) (Demo.params RGZ_OUT_BVCMD_REGION) Demo.blts
    Shown.session1 eq_refl (Shown.frame_fits _ (or_intror (or_introl eq_refl))) Shown.given_out).
Defined.

Lemma frame_tiled_witness : exists hs, hregions Shown.state2 = Some hs /\ exists i s h, cell_at hs i s h /\ covers (subregion h s) (35, 25) /\
  exists b, is_ground b /\ Forall2 recount (b :: covering (picks (Demo.frame RGZ_IN_HWC Shown.moved) (fst <$> Shown.moved)) (35, 25))
    (cell_layers (cur_fb_state Shown.state2) h s).
Proof.
  destruct (frame_tiled Demo.native Demo.geom Demo.W Demo.H Shown.screen Shown.state1 Shown.buffers1 true
    (Demo.frame RGZ_IN_HWC Shown.moved) (fst <$> Shown.moved) Shown.state2 Shown.session1 eq_refl
    (Shown.frame_fits _ (or_intror (or_introl eq_refl))) Shown.second_frame) as (hs & Eh & _ & Hq).
  exists hs. split; [exact Eh|]. destruct (Hq (35, 25)) as (i & s & h & A & C & _ & B); [vm_compute; split; congruence..|].
  exists i, s, h. split; [exact A|]. split; [exact C|exact B].
Defined.

(** The same frame painted over a buffer with something else in it. *)
Lemma paint_equals_regions_witness : exists rp bp,
  rgz_in Demo.native true (bg Demo.W Demo.H) (as_check (Demo.frame RGZ_IN_HWC Shown.moved)) Shown.state2 = Ok (RGZ_ALL, rp) /\
  rgz_out Demo.native rp (as_paint (Demo.params RGZ_OUT_BVCMD_REGION)) Demo.blts = Ok (0, bp) /\
  blits (resolve 0 bp) (commands bp) (Shown.buffers1 1) (35, 25) =
  blits (resolve 0 Shown.out2) (commands Shown.out2) (Shown.buffers1 (fb_state_idx Shown.state2)) (35, 25).
Proof.
  destruct (paint_equals_regions Demo.native Demo.geom Demo.W Demo.H Shown.screen Shown.state1 Shown.buffers1 true
    (Demo.frame RGZ_IN_HWC Shown.moved) (fst <$> Shown.moved) (Demo.params RGZ_OUT_BVCMD_REGION) Demo.blts Shown.state2 Shown.out2
    Shown.state2 Demo.blts (Shown.buffers1 1)
    Shown.session1 eq_refl (Shown.frame_fits _ (or_intror (or_introl eq_refl))) Shown.second_contract Shown.given_out
    Shown.second_frame Shown.second_out) as (rp & bp & E1 & E2 & Hq); [vm_compute; repeat constructor|].
  exists rp, bp. split; [exact E1|]. split; [exact E2|]. apply Hq; vm_compute; split; congruence.
Defined.


Lemma coordinates_cut_witness : exists a1 a k, rgz_bsort [30; 0; 80; 30; 10; 80; 0] 7 = Ok a1 /\ rgz_bunique a1 (length a1) = Ok (a, k) /\
  (forall x, x ∈ take k a <-> x ∈ [30; 0; 80; 30; 10; 80; 0]).
Proof.
  destruct (coordinates_cut [30; 0; 80; 30; 10; 80; 0] ltac:(discriminate)) as (a1 & a & k & E1 & E2 & _ & _ & Hx & _).
  exists a1, a, k. split; [exact E1|]. split; [exact E2|exact Hx].
Defined.

(** ** What goes wrong *)

(** The buffers that the samples of a stack come from. *)
Definition seen_buffers (ls : list rgz_layer) (q : Z * Z) : list Z := s_buffer <$> composite Demo.native q (covering ls q) [].

(** The wallpaper and two overlapping windows, drawn three times and then with the
    windows in the other order. *)
Lemma rearranged_by xs last target :
  Forall (fun y => dirty_count y <= 1) (all_layers last) ->
  Forall (fun x => Exists (fun y => identity y = identity x /\ rgz_has_layer_content_changed x y = false) (behind last)) xs ->
  Forall (fun x => Exists (fun t => identity t = identity x /\ rgz_has_layer_frame_moved x t = false) (behind target)) xs ->
  Forall (fun t => Exists (fun x => identity x = identity t) xs) (behind target) ->
  rearranged xs last target.
Proof.
  rewrite !Forall_forall. intros H1 H2 H3 H4. split; [done|..].
  - intros x Hx. by apply Exists_exists, H2.
  - intros x Hx. by apply Exists_exists, H3.
  - intros t Ht. by apply Exists_exists, H4.
Qed.

Module Order.
Import Demo Shown.

Definition state (n : nat) : rgz := after (replicate n steady).
Definition out (n : nat) : rgz_blts := after_out (state n) RGZ_OUT_BVCMD_REGION.
Definition swapped_state : rgz := after [steady; steady; steady; swapped].

Fixpoint buffers (n : nat) : Z -> Z * Z -> layers_of_samples :=
  match n with
  | O => blank
  | S m => fun i => if i =? fb_state_idx (state n) then blits (resolve 0 (out n)) (commands (out n)) (buffers m i) else buffers m i
  end.

Lemma steady_session n : (n <= 3)%nat -> session native geom W H (state n) (buffers n).
Proof.
  induction n as [|n IH]; intros Hn; [apply session_released|].
  refine (session_drawn native geom W H (state n) (buffers n) true (frame RGZ_IN_HWC steady) (fst <$> steady) (params RGZ_OUT_BVCMD_REGION) blts
    (state (S n)) (out (S n)) (IH ltac:(lia)) eq_refl (frame_fits _ (or_introl eq_refl)) _ given_out _ _).
  - destruct n as [|[|[|n]]]; [apply contract_by; vm_compute; [kept_layers..|done|kept_layers]..|lia].
  - destruct n as [|[|[|n]]]; [by vm_compute..|lia].
  - destruct n as [|[|[|n]]]; [by vm_compute..|lia].
Qed.

Lemma swapped_frame : rgz_in native true (bg W H) (frame RGZ_IN_HWC swapped) (state 3) = Ok (RGZ_ALL, swapped_state).
Proof. by vm_compute. Qed.

Lemma swapped_rearranged : rearranged (picks (frame RGZ_IN_HWC swapped) (fst <$> swapped)) (last_frame (state 3)) (target_frame (state 3)).
Proof. apply rearranged_by; apply (bool_decide_unpack _); by vm_compute. Qed.
End Order.

(** At a point of both windows the frame has the other one in front, and the
    buffer keeps what it shows. *)
Lemma order_change_missed_witness : exists b',
  rgz_out Demo.native Order.swapped_state (Demo.params RGZ_OUT_BVCMD_REGION) Demo.blts = Ok (0, b') /\ commands b' = [] /\
  s_buffer <$> Order.buffers 3 (fb_state_idx Order.swapped_state) (25, 25) = [18; 17; 16] /\
  seen_buffers (picks (Demo.frame RGZ_IN_HWC Demo.swapped) (fst <$> Demo.swapped)) (25, 25) = [17; 18; 16].
Proof.
  destruct (order_change_missed Demo.native Demo.geom Demo.W Demo.H Shown.screen (Order.state 3) (Order.buffers 3) true
    (Demo.frame RGZ_IN_HWC Demo.swapped) (fst <$> Demo.swapped) (Demo.params RGZ_OUT_BVCMD_REGION) Demo.blts Order.swapped_state
    (Order.steady_session 3 ltac:(lia)) eq_refl (Shown.frame_fits _ (or_intror (or_intror eq_refl))) Order.swapped_rearranged Shown.given_out
    Order.swapped_frame) as (b' & Eb & Ec & Hq).
  exists b'. split; [exact Eb|]. split; [exact Ec|]. split; [|vm_compute; reflexivity].
  rewrite (Hq (25, 25)) by (vm_compute; split; congruence). vm_compute. reflexivity.
Defined.

Module Examples.
Import Demo.

Definition dialog_at (x y : Z) : list (hwc_layer_1 * Z) := [(wallpaper, 1); (dialog 17 x y, 2)].
Definition alone : list (hwc_layer_1 * Z) := [(wallpaper, 1)].
Definition drawn_at (r : rgz) (q : Z * Z) : bool :=
  existsb (fun e => bool_decide (area e q)) (commands (after_out r RGZ_OUT_BVCMD_REGION)).

(** A window that goes away for one frame and comes back elsewhere: the buffer that
    shows it at its old place is not cleaned there. *)
Example came_back_elsewhere :
  let shown := after [dialog_at 10 10] in
  let r := after [dialog_at 10 10; alone; dialog_at 60 30] in
  fb_state_idx r = fb_state_idx shown /\ out_result r RGZ_OUT_BVCMD_REGION = Ok 0 /\
  drawn_at shown (15, 15) = true /\ drawn_at r (65, 35) = true /\ drawn_at r (15, 15) = false.
Proof. by vm_compute. Qed.

(** Eleven windows pass the check and are refused by the regions. *)
Definition crowd : list (hwc_layer_1 * Z) := (wallpaper, 1) :: ((fun n => (dialog 17 10 10, 2 + Z.of_nat n)) <$> seq 0 10).
Example eleven_refused :
  in_result zero_rgz (frame RGZ_IN_HWCCHK crowd) = Ok RGZ_ALL /\ in_result zero_rgz (frame RGZ_IN_HWC crowd) = Ok 0.
Proof. by vm_compute. Qed.

(** A window wholly above the screen is taken in, and then nothing comes out. *)
Definition above : list (hwc_layer_1 * Z) := [(wallpaper, 1); (dialog 17 10 (-60), 2)].
Example off_screen_refused :
  in_result zero_rgz (frame RGZ_IN_HWC above) = Ok RGZ_ALL /\ out_result (after [above]) RGZ_OUT_BVCMD_REGION = Ok (-1).
Proof. by vm_compute. Qed.

(** A hint to clear under a blended layer ends in its dummy handle. *)
Definition hint : list (hwc_layer_1 * Z) :=
  [(wallpaper, 1); (mk_layer HWC_OVERLAY HWC_HINT_CLEAR_FB 0 19 0 HWC_BLENDING_PREMULT (mk_rect 0 0 40 20) (mk_rect 10 10 50 30), 2)].
Example blended_hint_faults :
  in_result zero_rgz (frame RGZ_IN_HWC hint) = Ok RGZ_ALL /\
  match out_result (after [hint]) RGZ_OUT_BVCMD_REGION with Fault _ => True | Ok _ => False end.
Proof. by vm_compute. Qed.

(** The operations that call the engine themselves have no engine to call. *)
Example direct_faults :
  match out_result (after [steady]) RGZ_OUT_BVDIRECT_REGION, out_result (after [steady]) RGZ_OUT_BVDIRECT_PAINT with
  | Fault _, Fault _ => True | _, _ => False end.
Proof. by vm_compute. Qed.

(** The frames that [rgz_profile_hwc] makes have no identities. *)
Example profile_faults :
  match in_result zero_rgz (mk_in RGZ_IN_HWCCHK (Some [wallpaper]) [] 1 geom) with Fault _ => True | Ok _ => False end.
Proof. by vm_compute. Qed.

(** A layer of coverage blending is copied like an opaque one. *)
Definition tinted : hwc_layer_1 := window 17 0 HWC_BLENDING_COVERAGE (mk_rect 0 0 40 20) (mk_rect 10 10 50 30).
Example coverage_copied : e_op <$> commands (after_out (after [[(tinted, 1)]]) RGZ_OUT_BVCMD_REGION) = replicate 5 (Rop 0xCCCC).
Proof. by vm_compute. Qed.

(** A window of video that is flipped and not scaled is flipped in each cell, and
    not as a whole: at (12, 20) the column 7 is read instead of the column 37. *)
Definition video : hwc_layer_1 := window 19 HWC_TRANSFORM_FLIP_H HWC_BLENDING_NONE (mk_rect 0 0 40 20) (mk_rect 10 10 50 30).
Example video_flipped_in_cells :
  (fun e => this (s_place (source (fun n => n) false e (12, 20))).1) <$>
    filter (fun e => area e (12, 20)) (commands (after_out (after [[(video, 1); (dialog 17 20 15, 2)]]) RGZ_OUT_BVCMD_REGION)) = [Qmake 15 2] /\
  this (layer_place video (12, 20)).1 = Qmake 75 2.
Proof. by vm_compute. Qed.
End Examples.
